(* ===== verification/_CoqProject ===== *)
-Q . S2P
Prelude.v
GraphBuilder.v
MemoryPlan.v
ChunkComponents.v
BlockGraphs.v
BlockPlans.v
OnlineSearcher.v
ActivationPool.v
ModelActivations.v
RequestQueue.v
Diffusion.v
DiffusionStep.v
DiffusionEngine.v
DiffusionExamples.v
FreeQueue.v
Request.v
BlockHash.v
BlockPool.v
KVCacheInterface.v
SingleType.v
PrefixLookup.v
KVCoordinator.v
CoordinatorInv.v
CoordinatorOk.v
KVCacheManager.v
KVManagerOk.v
KVLookup.v
KVCacheConfig.v
KVCapacity.v
EncoderCache.v
SchedulerTypes.v
Scheduler.v
SchedulerUpdate.v
SchedulerSpec.v
SchedulerRun.v
SchedulerAdmit.v
SchedulerOk.v
PagedContract.v
HashChain.v
CachedContract.v
SchedulerUpdateOk.v
SchedulerServe.v
SchedulerExamples.v
BlockTable.v
LogitsProcessors.v
InputBatch.v
InputBatchOk.v
BatchMoves.v
BatchMask.v
NgramProposer.v
ModelRunner.v
RunnerUpdate.v
RunnerAdvance.v
RunnerOk.v
RunnerInputs.v
RunnerSpec.v
RunnerInputsOk.v
RunnerExecute.v
RunnerBooks.v
RunnerExecuteOk.v
RunnerServe.v
RejectionSampler.v
RunnerSampler.v
RunnerExamples.v
Detokenizer.v
Streaming.v
TextDecoders.v
Completions.v
CompletionsOk.v
OutputProcessor.v
OutputProcessorOk.v
FrontEnd.v
FrontEndOk.v
ClientText.v
MMCache.v
SamplingParams.v
InputProcessor.v
InputProcessorOk.v
AltPlanners.v
AltPlannersOk.v
