(* ===== verification/Prelude.v ===== *)
(** * Mosaic: a verification library

    Mosaic is a fork of vLLM that serves diffusion language models (LLaDA, Dream,
    LLaDA-MoE).  A diffusion request starts as its prompt followed by mask tokens;
    every step of the engine runs the model once and replaces some masks of the
    current block.  The activations of a step live in one pool of device memory:
    a planner turns the tensor graph of a transformer block into a table of byte
    offsets, and a search splits the graph into chunks until the plan fits.  The
    autoregressive mode keeps vLLM's paged KV cache with prefix caching.

    This library translates the core of these parts to Gallina and proves what
    makes them correct.  All paths below are relative to [src/].

    ** Files

    - [Prelude.v]: exceptions ([exn]), results ([res], with [let!] for
      propagation), fuel ([fueled]), Python's integer division, indices, slices,
      and 64-bit wrap-around, and the list and arithmetic lemmas the other files
      share.

    Activation memory
    - [GraphBuilder.v]: [vllm/v1/worker/graph_builder.py], classes [TensorSpec],
      [OpNode], [CustomGraph] and [MemoryAnalyzer].  The state of a graph is
      [CustomGraph] (nodes, order, aliases); [add_op] and [add_alias] build it;
      [analyze] runs liveness, peak, timeline and the reuse plan.
    - [MemoryPlan.v]: the planner is correct for every well-formed graph: liveness
      is exact, the plan is a first-fit placement, tensors that are live together
      do not overlap (aliases excepted, under [alias_compatible]), the total is
      what the entries use and covers the peak, and the planner fails only on a
      dangling alias.
    - [BlockGraphs.v]: the six graph builders of the same file.  [BlockPlans.v]:
      for all sizes and chunk counts their graphs build, satisfy the alias
      condition and get a safe plan.  Concrete graphs at its end.
    - [ChunkComponents.v], [OnlineSearcher.v]: [diffusion_tools/online_searcher.py]
      and its MoE twin: what a returned configuration guarantees, termination for
      prompts of at least 111 tokens, and an input on which the loop never ends.
    - [ActivationPool.v]: [vllm/v1/worker/activation_memory_pool.py], with a model
      of the two operations of [vmm_allocator/vmm_allocator.cpp] it calls (Module
      [VMM]); driver calls are an oracle [cu].
    - [ModelActivations.v]: the methods of [vllm_add_llada/llada_model.py],
      [vllm_add_dream/dream_model.py] and [vllm_add_llada_moe/llada_moe_model.py]
      that join plan, search and pool, and the plan without reuse.

    Diffusion serving
    - [RequestQueue.v]: [vllm/v1/core/sched/request_queue.py].  The
      class [RequestQueue] is the abstract interface, with a deque and a binary
      heap (CPython's [heapq]) as instances.
    - [Diffusion.v]: [vllm/v1/diffusion/types.py] and [scheduler.py].
    - [DiffusionStep.v]: [execute_diffusion_once] of
      [vllm/v1/worker/gpu_model_runner.py] and [diffusion/utils.py].
    - [DiffusionEngine.v]: [add_request] and [step] of [vllm/v1/engine/core.py] and
      the busy loop: every admitted request finishes in arrival order, within its
      step budget and without masks.  [DiffusionExamples.v]: a reference top-k, a
      toy model and concrete runs.

    KV cache
    - [FreeQueue.v]: [FreeKVCacheBlockQueue] of [vllm/v1/core/kv_cache_utils.py] as
      link fields over block references; [free_list q l] relates the links to a
      list and every operation refines its list counterpart.
    - [BlockHash.v]: extra keys and block hashes of the same file.
    - [BlockPool.v]: [vllm/v1/core/block_pool.py].  [pool_inv p free held] ties
      the queue, reference counts and cache together; [pool_step] is the step
      relation of its clients and all reachable pools satisfy the invariant.
    - [SingleType.v], [PrefixLookup.v]:
      [vllm/v1/core/single_type_kv_cache_manager.py]: four attention types; the
      references of other groups are framed, and the lookups return sound and,
      for full attention and sliding windows, longest prefixes.
    - [KVCacheInterface.v], [KVCacheConfig.v]: [vllm/v1/kv_cache_interface.py] and
      the memory checks, the search for the model length and the grouping of
      layers of [vllm/v1/core/kv_cache_utils.py].
    - [KVCoordinator.v]: [vllm/v1/core/kv_cache_coordinator.py], the managers of
      all groups over one pool.  [CoordinatorInv.v]: [kv_core], the invariant that
      ties all block tables to the pool.  [CoordinatorOk.v]: every operation keeps
      it.
    - [KVCacheManager.v]: [vllm/v1/core/kv_cache_manager.py].  [KVManagerOk.v]:
      [allocate_slots] against its contract.  [KVLookup.v]: the manager that the
      constructor builds, and the prefix that [get_computed_blocks] finds.
      [KVCapacity.v]: concrete runs, and where the checks in front of the manager
      disagree with it.

    Autoregressive serving
    - [Request.v]: [vllm/v1/request.py].
    - [EncoderCache.v]: [vllm/v1/core/encoder_cache_manager.py], with the
      accounting of its slots.
    - [SchedulerTypes.v]: the state of the scheduler, what it hands out and takes
      back ([sched/output.py], [outputs.py], [engine/__init__.py]), and the calls
      it makes: the classes [KVManager] (instance [paged_manager]) and
      [KVConnector].
    - [Scheduler.v], [SchedulerUpdate.v]: [vllm/v1/core/sched/scheduler.py],
      [async_scheduler.py] and [utils.py].  [schedule] is the loop over the running
      requests, the loop over the waiting requests and the output; the other file
      has [update_from_output], [add_request] and [finish_requests].
    - [SchedulerSpec.v]: the class [KVContract], what the scheduler needs of a KV
      cache manager, and [core], its invariant.  [PagedContract.v]: the instance
      for the paged manager with full-attention groups and no prefix caching.
      [HashChain.v], [CachedContract.v]: the instance with prefix caching over one
      full-attention group and a collision-free hash.
    - [SchedulerRun.v], [SchedulerAdmit.v], [SchedulerOk.v]: the two loops and
      [schedule]: no assertion fails, the batch is within the budget, no request is
      lost, and the order of arrival is kept.  [SchedulerUpdateOk.v]: where a request
      stops, and that every token is delivered once.  [SchedulerServe.v]: arrivals,
      steps and aborts as the relation [serving]; no operation raises in a reachable
      state, for the managers that [make_kv_cache_manager] builds with and without
      prefix caching.
    - [SchedulerExamples.v]: concrete runs, and sequences of calls outside those
      conditions on which the scheduler fails.

    Autoregressive model runner
    - [BlockTable.v]: numpy's slices, repeats, cumulative sums and 32-bit integers, as
      far as the runner uses them, and [vllm/v1/worker/block_table.py], the block
      tables on the host and the device and the slots of a step.
    - [LogitsProcessors.v]: the state of [vllm/v1/sample/logits_processor.py]: the
      record of the batch's changes and how the processors replay it.
    - [InputBatch.v]: [vllm/v1/worker/gpu_input_batch.py], the persistent batch.
      [InputBatchOk.v], [BatchMoves.v]: [contents] reads the batch as a map from
      requests to rows, [rows_inv] is its invariant; adding, removing, condensing
      and swapping against this map.  [BatchMask.v]: two arrays do not follow the
      requests and are not part of [contents], the mask of allowed tokens ([masks])
      and the flags of pooling requests ([needs_prompt]); what each operation does
      to them, exactly.
    - [NgramProposer.v]: [vllm/v1/spec_decode/ngram_proposer.py]; its
      Knuth-Morris-Pratt search finds what trying every position finds.
    - [ModelRunner.v]: the state of [GPUModelRunner] in
      [vllm/v1/worker/gpu_model_runner.py], [_update_states], and the reordering of
      [vllm/v1/attention/backends/utils.py].  [RunnerUpdate.v], [RunnerAdvance.v],
      [RunnerOk.v]: after [_update_states] the batch shows exactly the scheduled
      requests, each with its state ([runner_ok], [states_updated]), on the last
      pipeline rank; what becomes of the mask of allowed tokens is [masks_updated].
    - [RunnerInputs.v]: [_prepare_inputs].  [RunnerSpec.v], [RunnerInputsOk.v]: its arrays are those of a plain definition per request.
    - [RunnerExecute.v]: [execute_model] around the model.  [RunnerBooks.v],
      [RunnerExecuteOk.v]: its bookkeeping and a whole step ([executed]).
      [RunnerServe.v]: any number of steps, and the answer that the scheduler
      relies on ([result_fits]).
    - [RejectionSampler.v]: the kernels of [vllm/v1/sample/rejection_sampler.py];
      greedy speculative decoding generates what decoding one token at a time
      generates.  [RunnerSampler.v]: the sampler part of [execute_model], which
      keeps the contract of the runner's books ([sampler_ok]).
    - [RunnerExamples.v]: concrete runs, one of them together with the scheduler, and
      steps after which the batch or the answer is wrong.

    Front end
    - [Detokenizer.v]: Python strings as lists of code points, and the base class of [vllm/v1/engine/detokenizer.py] with
      [check_stop_strings] of [vllm/engine/output_processor/stop_checker.py]; the
      class [TextDecoder] is what a subclass provides.  [Streaming.v]: the pieces
      that are sent are the text of a reference that keeps no state but the text.
      [TextDecoders.v]: the two subclasses, with
      [vllm/transformers_utils/detokenizer_utils.py]; decoding token by token is
      decoding at once.
    - [Completions.v]: [vllm/v1/engine/logprobs.py], [outputs.py],
      [v1/engine/parallel_sampling.py] and the collector of
      [v1/engine/output_processor.py].  [CompletionsOk.v]: whatever the interleaving
      of the samples, a client gets every completion, or all the final ones at the
      end, and a collector loses nothing.
    - [OutputProcessor.v], [OutputProcessorOk.v]: the rest of
      [v1/engine/output_processor.py].  [ClientText.v]: what a client receives for a
      request, over all steps, is the reference text; and requests that only one side
      of the engine takes or drops.
    - [FrontEnd.v]: [LLMEngine] of [v1/engine/llm_engine.py] over the in-process
      client of [v1/engine/core_client.py], and the autoregressive step of
      [v1/engine/core.py].  The class [EngineCore] has the calls of the client and
      [CoreLaws] what the front end relies on.  [FrontEndOk.v]: the requests of the
      output processor and of the core stay the same ones; the scheduler keeps
      [CoreLaws].

    - [SamplingParams.v]: [vllm/sampling_params.py]: which parameters the constructor
      takes and what it makes of them, and the updates from the generation config and
      the tokenizer.
    - [InputProcessor.v]: [v1/engine/processor.py] with the merging of modalities of
      [vllm/multimodal/utils.py], [preprocess_add_request] of [v1/engine/core.py] and
      [LLMEngine.add_request].  [InputProcessorOk.v]: what passes the checks of the
      processor is taken by both sides of the engine; merged inputs stay with their
      placeholders; and requests that pass and fail later.
    - [MMCache.v]: [v1/engine/mm_input_cache.py] over [LRUCache] of
      [vllm/utils/__init__.py], with the messages between the two processes: the caches
      of both sides mirror each other, as long as every processed request arrives.

    Other planners
    - [AltPlanners.v]: [_generate_optimized_reuse_plan] of the four variants
      [vllm/v1/worker/graph_builder_v0dot5.py], [graph_builder_best_fit.py],
      [graph_builder_greedy_coloring.py] and [graph_builder_ILP.py].
      [AltPlannersOk.v]: the linear program gives a safe plan if its solver answers,
      and small graphs on which the other plans are not safe.

    ** Conventions

    A Python call returns [Ok v] or [Raise e]; states are passed explicitly and
    are not kept after an exception that nothing catches.  Integers are [Z]; only
    the shape product of [TensorSpec] has a machine width (int64 in torch) and
    wraps.  Dictionaries are [gmap]; where the order of a dictionary matters it is
    a list.  The links, counts and hashes of the shared block objects are functions
    of the object's identity, so aliasing is as in the code.  Memory sizes that the
    code divides by 1024 for display are kept in bytes, confidences are rationals.
    The scheduler's request objects are a store keyed by the request's id; queues
    and lists hold ids, so that all of them see an assignment.  Where Python
    iterates a set, the order is that of [elements] or of the first occurrences.

    The columns of the persistent batch are functions of the row index, which is
    checked where a list is indexed with it; a row of tokens or blocks is a list of
    its real width.  The lists of output tokens, which the batch shares with the
    cached states, are named by the id of their request.  Sampling parameters and
    probabilities are rationals.  A Triton kernel is one function of the program's
    id, and the programs run one after the other: they write disjoint parts of the
    output.  An unchecked load outside an array gives a default.

    A parent request and a collector are shared between requests and therefore have
    places in stores of the output processor; lists inside outputs are copies, so
    that a later change of a live list through an old output is not seen.  Values of
    a linear program and logprobs are rationals.

    The theorems on the scheduler assume [plain_settings] (first come, first
    served, no LoRA limit), text requests and no connector; those on
    [update_from_output] a synchronous scheduler.  Statistics may be on or off.
    [SchedulerExamples.v] shows that priorities, LoRA limits and batches in flight
    break them.  [KVManagerOk.v] states what [allocate_slots] needs of a call
    ([slots_pre]); calls for chunked-local or Mamba groups can be outside of it, and
    [KVLookup.v] leaves chunked-local groups aside ([KVCapacity.v] has runs of them
    that raise).

    ** Parameters

    The model ([forward]), [torch.topk] and [torch.empty] are arguments of the
    runner, with their documented behaviour as hypotheses ([forward_ok],
    [topk_ok], [uninit_ok]); [DiffusionExamples.v] instantiates them.  Only where the
    model never answers the mask token ([answers_no_mask]) are the answers free of
    it, see [mask_answer_left].  The hash
    function and its seed are arguments of [BlockHash.v], instantiated by
    [coded_hash].  The scheduler's arguments [grammar_ready], [should_advance] and
    [validate_tokens] stand for the structured output manager, and an instance of
    [KVConnector] for a connector; the theorems hold for all of them.  The answers
    of the model runner are any that [result_fits] admits, with statistics also
    [drafts_counted] (not more tokens than drafts and one); [RunnerServe.v] proves
    [result_fits] of the runner's answers where both sides agree on the requests.  The
    runner's own arguments are [pooling_update], the model's requirement for
    pooling parameters, and [sample], which stands for the model and the sampler
    and is constrained by [sampler_ok] only; [RunnerSampler.v] replaces it by the
    code of the rejection sampler over the pieces that remain numerical
    ([model_ok]), with concrete instances at its end.

    The class [Cachetools] stands for the LRU cache of the library of that name: which
    keys are held after reading and writing depends on keys, sizes and order only.
    The sizes of inputs, the preprocessing of a prompt and the grammar checkers are
    arguments of the input processor.  Its floats are rationals, infinities or not
    numbers; the engine core reads them as rationals, for parameters that are
    [numeric].

    The tokenizer, its decode stream and the decoding of single tokens are arguments
    of the decoders; [tokenizer_ok] says that the text of some tokens ends with the
    text of later ones where both are complete, and [stream_ok] that a decode
    stream raises nothing but the exception for an invalid prefix, and a new stream
    not even that.  The solver of the linear program is
    an argument, and [honest] says that an optimal answer satisfies the problem.

    ** Fuel

    [search_loop] and [engine_run] stand for unbounded loops.  [search_terminates]
    shows that [P + O + 5] rounds are enough for [search_loop] (and
    [search_diverges] that no amount is for a certain request); [engine_serves]
    that one more than the total number of steps is enough for [engine_run].  The
    sift loops of the heap have fuel that their proofs show sufficient, and
    [get_all_free_blocks] needs one more than the length of the list.  The rounds
    of the scheduler's loops are bounded by the lengths of the lists they walk:
    every round of [running_loop] but the last advances the index, every round of
    [allocate_or_preempt] takes a request from the running list, and every round of
    [waiting_loop] takes one from the waiting queue.  [search_model_len] halves its
    interval, and its fuel is shown to suffice.  The loops of the n-gram search
    have twice the length of the text as fuel, which [propose_is_search] shows to
    be enough, and the rounds of [condense_loop] are bounded by the empty rows.

    ** Not modelled

    Of the autoregressive scheduler the grammar bitmask, logprobs, NaN counts,
    event time stamps and connector metadata, which it passes through; of the KV
    cache configuration [unify_kv_cache_configs]; the usage figures, which are
    floats.  Of the model runner M-RoPE, multi-modal inputs, cascade attention, the
    builders of attention metadata, padding for CUDA graphs, draft models other
    than the n-gram search, logprob tensors (which requests get them is modelled),
    structured output and KV connectors; of the logits processors their effect on
    logits.  In the autoregressive step of the engine core the executor is any function;
    [runner_answers_scheduler] states what it relies on.  Of the front end the
    preprocessing of prompts, encoder inputs, statistics, the asynchronous engine and
    the clients over sockets.
    Numerical code (models, kernels, sampling), processes, logging and benchmarks
    are outside the scope. *)

From stdpp Require Import base gmap strings list sorting fin_maps fin_sets.
From Stdlib Require Import ZArith Lia.

(** ** Exceptions and results *)

(** The Python exceptions that the modelled code raises. *)
Inductive exn : Set :=
| ValueError
| RuntimeError
| IndexError
| KeyError
| TypeError
| AssertionError
| ZeroDivisionError
| NotImplementedError
| AttributeError
| NameError.

#[global] Instance exn_eq_dec : EqDecision exn.
Proof. solve_decision. Defined.

(** The outcome of a Python call: a value or a raised exception.  The state of
    the objects after an uncaught exception is not represented, because nothing
    reads it: the modelled callers let the exception propagate. *)
Inductive res (A : Type) : Type :=
| Ok (a : A)
| Raise (e : exn).
Arguments Ok {A} _.
Arguments Raise {A} _.

Definition bind {A B : Type} (m : res A) (k : A -> res B) : res B :=
  match m with
  | Ok a => k a
  | Raise e => Raise e
  end.

(** [assert c] of the source. *)
Definition py_assert (c : bool) : res unit :=
  if c then Ok tt else Raise AssertionError.

(** [d[k]] on a dictionary: [KeyError] when the key is missing. *)
Definition of_option {A : Type} (e : exn) (o : option A) : res A :=
  match o with
  | Some a => Ok a
  | None => Raise e
  end.

(** [a // b] on integers: floor division. *)
Definition py_div (a b : Z) : res Z :=
  if Z.eqb b 0 then Raise ZeroDivisionError else Ok (Z.div a b).

Declare Scope py_scope.
Delimit Scope py_scope with py.
Notation "'let!' x ':=' m 'in' k" := (bind m (fun x => k))
  (at level 10, x binder, m at level 100, k at level 200,
   format "'[v' 'let!'  x  ':='  m  'in' '/' k ']'") : py_scope.
Notation "m ';;!' k" := (bind m (fun _ => k))
  (at level 199, right associativity) : py_scope.
Open Scope py_scope.
Open Scope Z_scope.

(** A computation run with a bounded number of loop iterations. *)
Inductive fueled (A : Type) : Type :=
| Done (a : A)
| OutOfFuel.
Arguments Done {A} _.
Arguments OutOfFuel {A}.

Lemma bind_ok {A B} (m : res A) (k : A -> res B) b :
  bind m k = Ok b <-> exists a, m = Ok a /\ k a = Ok b.
Proof. destruct m; cbn; split; [eauto|intros (?&[=->]&?); done|done|intros (?&[=]&_)]. Qed.

Lemma py_assert_ok c u : py_assert c = Ok u <-> c = true.
Proof. unfold py_assert. destruct c, u; split; done. Qed.

Lemma of_option_ok {A} e (o : option A) a : of_option e o = Ok a <-> o = Some a.
Proof. destruct o; cbn; split; congruence. Qed.

Lemma py_div_ok a b q : py_div a b = Ok q <-> b <> 0 /\ q = a / b.
Proof. unfold py_div. destruct (Z.eqb_spec b 0); split; intros H; [done|tauto|split; congruence|destruct H; congruence]. Qed.

Create Rewrite HintDb py.
Create HintDb graph discriminated.
#[export] Hint Rewrite @bind_ok @py_assert_ok @of_option_ok py_div_ok : py.

(** [inv_res H] decomposes an equation [m = Ok v] between monadic terms. *)
Ltac inv_res H :=
  repeat first
    [ progress (autorewrite with py in H)
    | match type of H with
      | exists _, _ => let x := fresh "v" in destruct H as [x H]
      | _ /\ _ => let H1 := fresh H in destruct H as [H1 H]
      | Ok _ = Ok _ => injection H as H
      | Raise _ = Ok _ => discriminate H
      end ].

(** Case analysis on the boolean comparisons of a goal or hypothesis. *)
Ltac zcases :=
  repeat match goal with
  | |- context [Z.leb ?a ?b] => destruct (Z.leb_spec a b)
  | |- context [Z.ltb ?a ?b] => destruct (Z.ltb_spec a b)
  | |- context [Z.eqb ?a ?b] => destruct (Z.eqb_spec a b)
  | |- context [Z.geb ?a ?b] => rewrite (Z.geb_leb a b)
  | |- context [Z.gtb ?a ?b] => rewrite (Z.gtb_ltb a b)
  end.
Ltac zcases_in H :=
  repeat match type of H with
  | context [Z.leb ?a ?b] => destruct (Z.leb_spec a b)
  | context [Z.ltb ?a ?b] => destruct (Z.ltb_spec a b)
  | context [Z.eqb ?a ?b] => destruct (Z.eqb_spec a b)
  | context [Z.geb ?a ?b] => rewrite (Z.geb_leb a b) in H
  | context [Z.gtb ?a ?b] => rewrite (Z.gtb_ltb a b) in H
  end.

(** ** Python integers and machine integers *)

(** [vllm.utils.cdiv]: [-(a // -b)]. *)
Definition cdiv (a b : Z) : Z := - (a / - b).

(** Two's complement reduction to a signed 64-bit integer (torch's int64). *)
Definition wrap64 (z : Z) : Z := (z + 2 ^ 63) mod 2 ^ 64 - 2 ^ 63.

Lemma wrap64_id z : - 2 ^ 63 <= z < 2 ^ 63 -> wrap64 z = z.
Proof. intros. unfold wrap64. rewrite Z.mod_small; lia. Qed.

Lemma cdiv_spec a b : 0 < b -> b * (cdiv a b - 1) < a <= b * cdiv a b.
Proof.
  intros Hb. unfold cdiv.
  pose proof (Z.div_mod a (- b)) as H. pose proof (Z.mod_neg_bound a (- b)) as Hm. nia.
Qed.

Lemma cdiv_unique a b q : 0 < b -> b * (q - 1) < a <= b * q -> cdiv a b = q.
Proof. intros Hb Hq. pose proof (cdiv_spec a b Hb). nia. Qed.

(** The idiom [(a + b - 1) // b] is ceiling division for a positive divisor. *)
Lemma div_up_cdiv a b : 0 < b -> (a + b - 1) / b = cdiv a b.
Proof.
  intros Hb. symmetry. apply cdiv_unique; [done|].
  pose proof (Z.div_mod (a + b - 1) b). pose proof (Z.mod_pos_bound (a + b - 1) b). nia.
Qed.

Lemma cdiv_mono a a' b : 0 < b -> a <= a' -> cdiv a b <= cdiv a' b.
Proof. intros. rewrite <-!div_up_cdiv by done. apply Z.div_le_mono; lia. Qed.

Lemma cdiv_0 b : 0 < b -> cdiv 0 b = 0.
Proof. intros. apply cdiv_unique; lia. Qed.

Lemma cdiv_nonneg a b : 0 < b -> 0 <= a -> 0 <= cdiv a b.
Proof. intros. pose proof (cdiv_spec a b). nia. Qed.

(** ** Data types of tensors *)

(** The torch dtypes of activations and KV caches, their [finfo]/[iinfo] widths and
    element sizes. *)
Inductive Dtype : Set :=
| bfloat16 | float16 | float32 | float64
| int8 | int16 | int32 | int64.

Definition dtype_bits (d : Dtype) : Z :=
  match d with
  | bfloat16 | float16 | int16 => 16
  | float32 | int32 => 32
  | float64 | int64 => 64
  | int8 => 8
  end.
#[export] Instance Dtype_eq_dec : EqDecision Dtype.
Proof. solve_decision. Defined.

(** [get_dtype_size] of [vllm.utils]. *)
Definition get_dtype_size (d : Dtype) : Z := dtype_bits d / 8.

(** Sum of a list of integers. *)
Fixpoint zsum (l : list Z) : Z :=
  match l with
  | [] => 0
  | x :: l => x + zsum l
  end.

Lemma zsum_app l1 l2 : zsum (l1 ++ l2) = zsum l1 + zsum l2.
Proof. induction l1; cbn in *; lia. Qed.

Lemma zsum_perm l1 l2 : l1 ≡ₚ l2 -> zsum l1 = zsum l2.
Proof. induction 1; cbn in *; lia. Qed.

#[global] Instance zsum_proper : Proper ((≡ₚ) ==> (=)) zsum.
Proof. intros l1 l2. apply zsum_perm. Qed.

Lemma zsum_nonneg l : Forall (fun z => 0 <= z) l -> 0 <= zsum l.
Proof. induction 1; cbn in *; lia. Qed.

(** Python's [max] over a list with a default. *)
Fixpoint zmax_list (d : Z) (l : list Z) : Z :=
  match l with
  | [] => d
  | x :: l => Z.max x (zmax_list d l)
  end.

Lemma zmax_list_ge d l x : x ∈ l -> x <= zmax_list d l.
Proof. induction 1; cbn in *; lia. Qed.

Lemma zmax_list_ge_default d l : d <= zmax_list d l.
Proof. induction l; cbn in *; lia. Qed.

Lemma zmax_list_lub d l u : d <= u -> (forall x, x ∈ l -> x <= u) -> zmax_list d l <= u.
Proof.
  intros Hd. induction l as [|a l IH]; cbn; intros H; [lia|].
  assert (a <= u) by (apply H; left).
  assert (zmax_list d l <= u) by (apply IH; intros; apply H; by right). lia.
Qed.

Lemma zmax_list_in d l : zmax_list d l = d \/ zmax_list d l ∈ l.
Proof.
  induction l as [|a l IH]; cbn; [by left|].
  destruct (Z.max_spec a (zmax_list d l)) as [[? ->]|[? ->]].
  - destruct IH as [->|?]; [by left|right; by right].
  - right; left.
Qed.

(** ** Python sequences *)

(** The index that a slice bound denotes in a sequence of length [n]. *)
Definition py_index (n i : Z) : Z := if i <? 0 then Z.max 0 (n + i) else Z.min n i.

(** [l[i:j]] *)
Definition py_slice {A} (l : list A) (i j : Z) : list A :=
  let n := Z.of_nat (length l) in
  let lo := py_index n i in
  let hi := py_index n j in
  take (Z.to_nat (hi - lo)) (drop (Z.to_nat lo) l).

(** [l[i:]] *)
Definition py_from {A} (l : list A) (i : Z) : list A := py_slice l i (Z.of_nat (length l)).

(** [[x] * n] *)
Definition py_repeat {A} (x : A) (n : Z) : list A := repeat x (Z.to_nat n).

Lemma repeat_lookup {A} (x : A) n j : (j < n)%nat -> repeat x n !! j = Some x.
Proof. revert j. induction n as [|n IH]; intros [|j] Hj; cbn; [lia|lia|done|apply IH; lia]. Qed.

(** [a % b] on integers. *)
Definition py_mod (a b : Z) : res Z :=
  if Z.eqb b 0 then Raise ZeroDivisionError else Ok (Z.modulo a b).

Lemma py_slice_drop_take {A} (l : list A) (i j : nat) :
  (i <= j <= length l)%nat -> py_slice l (Z.of_nat i) (Z.of_nat j) = take (j - i) (drop i l).
Proof.
  intros H. unfold py_slice, py_index.
  destruct (Z.ltb_spec (Z.of_nat i) 0), (Z.ltb_spec (Z.of_nat j) 0); try lia.
  rewrite !Z.min_r by lia. by rewrite Nat2Z.id, <-Nat2Z.inj_sub, Nat2Z.id by lia.
Qed.

Lemma py_from_drop {A} (l : list A) (i : nat) : (i <= length l)%nat -> py_from l (Z.of_nat i) = drop i l.
Proof.
  intros H. unfold py_from. rewrite py_slice_drop_take by lia. apply take_ge. rewrite length_drop. lia.
Qed.

(** [l[i]], with negative indices from the end. *)
Definition py_nth {A} (l : list A) (i : Z) : res A :=
  let n := Z.of_nat (length l) in
  let i := if Z.ltb i 0 then i + n else i in
  if Z.ltb i 0 then Raise IndexError else of_option IndexError (l !! Z.to_nat i).

Lemma py_nth_nat {A} (l : list A) (i : nat) : py_nth l (Z.of_nat i) = of_option IndexError (l !! i).
Proof. unfold py_nth. rewrite !(proj2 (Z.ltb_ge (Z.of_nat i) 0)) by lia. by rewrite Nat2Z.id. Qed.

(** A loop over a list that threads a state. *)
Fixpoint res_fold {A S} (f : S -> A -> res S) (l : list A) (s : S) : res S :=
  match l with
  | [] => Ok s
  | a :: l => bind (f s a) (fun s => res_fold f l s)
  end.

(** A list comprehension whose element expression may raise. *)
Fixpoint res_map {A B} (f : A -> res B) (l : list A) : res (list B) :=
  match l with
  | [] => Ok []
  | a :: l => bind (f a) (fun b => bind (res_map f l) (fun bs => Ok (b :: bs)))
  end.
Lemma res_map_ok {A B} (f : A -> res B) l bs : res_map f l = Ok bs <-> Forall2 (fun a b => f a = Ok b) l bs.
Proof.
  revert bs. induction l as [|a l IH]; intros bs; cbn; [split; [intros [= <-]; constructor|by intros ->%Forall2_nil_inv_l]|].
  split.
  - intros (b & Hb & (bs' & Hbs & [= <-])%bind_ok)%bind_ok. constructor; [done|by apply IH].
  - intros (b & bs' & Hb & Hbs & ->)%Forall2_cons_inv_l. apply IH in Hbs. by rewrite Hb, Hbs.
Qed.
Lemma res_map_total {A B} (f : A -> res B) (g : A -> B) l :
  (forall a, a ∈ l -> f a = Ok (g a)) -> res_map f l = Ok (map g l).
Proof.
  intros H. apply res_map_ok, Forall2_fmap_r, Forall_Forall2_diag, Forall_forall. exact H.
Qed.

(** [max(l)] and [min(l)] *)
Definition py_max (l : list Z) : res Z := match l with [] => Raise ValueError | x :: l => Ok (fold_left Z.max l x) end.
Definition py_min (l : list Z) : res Z := match l with [] => Raise ValueError | x :: l => Ok (fold_left Z.min l x) end.
Lemma py_max_ok l m : py_max l = Ok m -> m ∈ l /\ forall x, x ∈ l -> x <= m.
Proof.
  destruct l as [|x l]; [done|]. intros [= <-].
  assert (H : forall l a, (fold_left Z.max l a = a \/ fold_left Z.max l a ∈ l) /\ a <= fold_left Z.max l a /\
                          forall y, y ∈ l -> y <= fold_left Z.max l a).
  { clear. induction l as [|b l IH]; intros a; cbn; [split; [by left|split; [lia|by intros y ?%elem_of_nil]]|].
    destruct (IH (Z.max a b)) as (H0 & H1 & H2). split; [|split; [lia|intros y [->|Hy]%elem_of_cons; [lia|by apply H2]]].
    destruct H0 as [->|H0]; [|right; by right]. destruct (Z.max_spec a b) as [[_ ->]|[_ ->]]; [right; left|by left]. }
  destruct (H l x) as (H0 & H1 & H2). split; [destruct H0 as [->|?]; [left|by right]|].
  intros y [->|Hy]%elem_of_cons; [done|by apply H2].
Qed.
Lemma py_min_ok l m : py_min l = Ok m -> m ∈ l /\ forall x, x ∈ l -> m <= x.
Proof.
  destruct l as [|x l]; [done|]. intros [= <-].
  assert (H : forall l a, (fold_left Z.min l a = a \/ fold_left Z.min l a ∈ l) /\ fold_left Z.min l a <= a /\
                          forall y, y ∈ l -> fold_left Z.min l a <= y).
  { clear. induction l as [|b l IH]; intros a; cbn; [split; [by left|split; [lia|by intros y ?%elem_of_nil]]|].
    destruct (IH (Z.min a b)) as (H0 & H1 & H2). split; [|split; [lia|intros y [->|Hy]%elem_of_cons; [lia|by apply H2]]].
    destruct H0 as [->|H0]; [|right; by right]. destruct (Z.min_spec a b) as [[_ ->]|[_ ->]]; [by left|right; left]. }
  destruct (H l x) as (H0 & H1 & H2). split; [destruct H0 as [->|?]; [left|by right]|].
  intros y [->|Hy]%elem_of_cons; [done|by apply H2].
Qed.
