(* ===== verification/GraphBuilder.v ===== *)
(** * The activation memory planner ([vllm/v1/worker/graph_builder.py])

    [CustomGraph] (a declared tensor graph with memory aliases) and
    [MemoryAnalyzer]: liveness, peak memory, the memory timeline and the
    first-fit reuse plan whose total size becomes the activation pool request.
    Tensor sizes are int64 products (torch), so they wrap; offsets are Python
    integers.  Megabyte values are floating-point quotients by [2^20] in the
    source; here a size stays in bytes, which is the same number scaled by a
    power of two. *)

From stdpp Require Import base gmap strings list sorting fin_maps fin_sets.
From Stdlib Require Import ZArith Lia QArith.
From S2P Require Import Prelude.
Open Scope string_scope.
Open Scope list_scope.
Open Scope Z_scope.

(** ** Data *)

Record TensorSpec : Type := {
  shape : list Z;
  dtype : Dtype;
  size_bytes : Z }.

(** [torch.prod] of an int64 tensor: the product wraps at every step. *)
Definition torch_prod (l : list Z) : Z := fold_left (fun a d => wrap64 (a * d)) l 1.

(** [TensorSpec.__init__]; [torch.tensor(shape)] raises when a dimension does
    not fit an int64. *)
Definition mk_TensorSpec (sh : list Z) (d : Dtype) : res TensorSpec :=
  if forallb (fun x => wrap64 x =? x) sh
  then Ok {| shape := sh; dtype := d; size_bytes := torch_prod sh * (dtype_bits d / 8) |}
  else Raise RuntimeError.

Record OpNode : Type := {
  op_type : string;
  output_name : string;
  output_spec : TensorSpec;
  input_names : list string }.

Definition node_size (n : OpNode) : Z := size_bytes (output_spec n).

Record CustomGraph : Type := {
  nodes : gmap string OpNode;
  execution_order : list OpNode;
  aliases : gmap string string }.

(** [CustomGraph.__init__] *)
Definition empty_graph : CustomGraph :=
  {| nodes := ∅; execution_order := []; aliases := ∅ |}.

(** [CustomGraph.add_op] *)
Definition add_op (g : CustomGraph) (out op : string) (ins : list string)
    (sh : list Z) (d : Dtype) : res CustomGraph :=
  match nodes g !! out with
  | Some _ => Raise ValueError
  | None =>
      let! spec := mk_TensorSpec sh d in
      let node := {| op_type := op; output_name := out; output_spec := spec; input_names := ins |} in
      Ok {| nodes := <[out := node]> (nodes g);
            execution_order := execution_order g ++ [node];
            aliases := aliases g |}
  end.

(** [CustomGraph.add_alias] *)
Definition add_alias (g : CustomGraph) (source target : string) : res CustomGraph :=
  match nodes g !! source, nodes g !! target with
  | Some s, Some t =>
      if node_size t <? node_size s then Raise ValueError
      else Ok {| nodes := nodes g; execution_order := execution_order g;
                 aliases := <[source := target]> (aliases g) |}
  | _, _ => Raise ValueError
  end.

(** ** Liveness, peak and timeline *)

(** [MemoryAnalyzer._analyze_liveness]: the walk over the reversed execution
    order; the map holds the tensors that are live after each node. *)
Definition liveness_step (node : OpNode)
    (acc : gmap string (gset string) * gset string) : gmap string (gset string) * gset string :=
  let '(liveness_map, live) := acc in
  (<[output_name node := live]> liveness_map,
   list_to_set (input_names node) ∪ (live ∖ {[output_name node]})).

Definition _analyze_liveness (g : CustomGraph) : gmap string (gset string) :=
  fst (foldr liveness_step (∅, ∅) (execution_order g)).

(** [sum(self.graph.nodes[name].output_spec.size_bytes for name in s)] *)
Fixpoint sum_sizes (g : CustomGraph) (names : list string) : res Z :=
  match names with
  | [] => Ok 0
  | name :: names =>
      let! n := of_option KeyError (nodes g !! name) in
      let! rest := sum_sizes g names in
      Ok (node_size n + rest)
  end.

(** The tensors in memory while [node] runs, and their total size. *)
Definition live_set_at (liveness_map : gmap string (gset string)) (node : OpNode) : gset string :=
  default ∅ (liveness_map !! output_name node) ∪ {[output_name node]}.

Definition memory_at (g : CustomGraph) (liveness_map : gmap string (gset string))
    (node : OpNode) : res Z :=
  sum_sizes g (elements (live_set_at liveness_map node)).

Record PeakInfo : Type := {
  peak_memory_bytes : Z;
  peak_node : option OpNode;
  peak_live_set_names : gset string }.

(** [MemoryAnalyzer._calculate_peak_memory] *)
Fixpoint peak_loop (g : CustomGraph) (lm : gmap string (gset string))
    (order : list OpNode) (acc : PeakInfo) : res PeakInfo :=
  match order with
  | [] => Ok acc
  | node :: order =>
      let! current_total_memory := memory_at g lm node in
      peak_loop g lm order
        (if peak_memory_bytes acc <? current_total_memory
         then {| peak_memory_bytes := current_total_memory;
                 peak_node := Some node;
                 peak_live_set_names := live_set_at lm node |}
         else acc)
  end.

Definition _calculate_peak_memory (g : CustomGraph) (lm : gmap string (gset string)) : res PeakInfo :=
  peak_loop g lm (execution_order g)
    {| peak_memory_bytes := 0; peak_node := None; peak_live_set_names := ∅ |}.

Record TimelineEntry : Type := {
  timestep : Z;
  node_name : string;
  node_op_type : string;
  total_memory : Z;
  occupancy_ratio : Q;
  live_tensor_count : Z;
  live_tensors : gset string }.

(** [MemoryAnalyzer._calculate_memory_timeline]; [total_memory] is in bytes and
    [occupancy_ratio] is the exact quotient that the float approximates. *)
Fixpoint timeline_loop (g : CustomGraph) (lm : gmap string (gset string)) (peak : Z)
    (i : Z) (order : list OpNode) : res (list TimelineEntry) :=
  match order with
  | [] => Ok []
  | node :: order =>
      let! current_total_memory := memory_at g lm node in
      let! rest := timeline_loop g lm peak (i + 1) order in
      Ok ({| timestep := i;
             node_name := output_name node;
             node_op_type := op_type node;
             total_memory := current_total_memory;
             occupancy_ratio := if 0 <? peak
                                then (inject_Z current_total_memory / inject_Z peak)%Q
                                else 0%Q;
             live_tensor_count := Z.of_nat (size (live_set_at lm node));
             live_tensors := live_set_at lm node |} :: rest)
  end.

Definition _calculate_memory_timeline (g : CustomGraph) (lm : gmap string (gset string))
    (peak : Z) : res (list TimelineEntry) :=
  timeline_loop g lm peak 0 (execution_order g).

(** ** The first-fit reuse plan *)

(** [births]: output name to position in the execution order. *)
Fixpoint births_from (i : Z) (order : list OpNode) (acc : gmap string Z) : gmap string Z :=
  match order with
  | [] => acc
  | node :: order => births_from (i + 1) order (<[output_name node := i]> acc)
  end.
Definition births_of (g : CustomGraph) : gmap string Z := births_from 0 (execution_order g) ∅.

(** [deaths]: -1 for every node, then the position of the last reader. *)
Fixpoint deaths_from (i : Z) (order : list OpNode) (acc : gmap string Z) : gmap string Z :=
  match order with
  | [] => acc
  | node :: order =>
      deaths_from (i + 1) order
        (fold_left (fun m name => <[name := i]> m) (input_names node) acc)
  end.
Definition deaths_of (g : CustomGraph) : gmap string Z :=
  deaths_from 0 (execution_order g) ((fun _ => -1) <$> nodes g).

Record Block : Type := { tensor_name : string; start : Z; end_ : Z }.

Record PlanEntry : Type := {
  offset : Z; psize : Z; pshape : list Z; pdtype : Dtype }.

(** Python's stable [list.sort(key=lambda b: b['start'])]. *)
Fixpoint insert_by_start (b : Block) (l : list Block) : list Block :=
  match l with
  | [] => [b]
  | c :: l => if start b <=? start c then b :: c :: l else c :: insert_by_start b l
  end.
Definition sort_by_start (l : list Block) : list Block := foldr insert_by_start [] l.

(** The blocks whose last use is not before [birth]; [len_births] is the
    default of [deaths.get]. *)
Definition is_live (deaths : gmap string Z) (len_births birth : Z) (b : Block) : bool :=
  birth <=? default len_births (deaths !! tensor_name b).
Definition live_blocks_at_birth (deaths : gmap string Z) (len_births birth : Z)
    (allocated : list Block) : list Block :=
  sort_by_start (List.filter (is_live deaths len_births birth) allocated).

(** The gap search: [(found_offset, last_end)] when the loop ends. *)
Fixpoint gap_scan (blocks : list Block) (last_end size : Z) : Z * Z :=
  match blocks with
  | [] => (-1, last_end)
  | b :: blocks =>
      if size <=? start b - last_end then (last_end, last_end)
      else gap_scan blocks (end_ b) size
  end.
Definition first_fit (blocks : list Block) (size : Z) : Z :=
  let '(found_offset, last_end) := gap_scan blocks 0 size in
  if found_offset =? -1 then last_end else found_offset.

Record PlanState : Type := {
  allocated_blocks : list Block;
  reuse_plan : gmap string PlanEntry;
  max_offset : Z }.

(** The body of the allocation loop of [_generate_optimized_reuse_plan]. *)
Definition plan_step (g : CustomGraph) (births deaths : gmap string Z) (len_births : Z)
    (node : OpNode) (st : PlanState) : res PlanState :=
  let name := output_name node in
  let tensor_size := node_size node in
  if negb (0 <? tensor_size) then Ok st
  else
    let! current_birth_time := of_option KeyError (births !! name) in
    let live := live_blocks_at_birth deaths len_births current_birth_time (allocated_blocks st) in
    let! found_offset :=
      match aliases g !! name with
      | Some target =>
          match reuse_plan st !! target with
          | None => Raise RuntimeError
          | Some e => Ok (offset e)
          end
      | None => Ok (first_fit live tensor_size)
      end in
    let blocks := allocated_blocks st ++
      [{| tensor_name := name; start := found_offset; end_ := found_offset + tensor_size |}] in
    Ok {| allocated_blocks := blocks;
          reuse_plan := <[name := {| offset := found_offset; psize := tensor_size;
                                     pshape := shape (output_spec node);
                                     pdtype := dtype (output_spec node) |}]> (reuse_plan st);
          max_offset := Z.max (max_offset st)
                          (match map end_ blocks with
                           | [] => 0
                           | e :: es => zmax_list e es
                           end) |}.

Fixpoint plan_loop (g : CustomGraph) (births deaths : gmap string Z) (len_births : Z)
    (order : list OpNode) (st : PlanState) : res PlanState :=
  match order with
  | [] => Ok st
  | node :: order =>
      let! st' := plan_step g births deaths len_births node st in
      plan_loop g births deaths len_births order st'
  end.

Record ReusePlan : Type := {
  entries : gmap string PlanEntry;
  total_buffer_size_bytes : Z }.

Definition init_plan : PlanState :=
  {| allocated_blocks := []; reuse_plan := ∅; max_offset := 0 |}.

(** The final state of the allocation loop. *)
Definition plan_state (g : CustomGraph) : res PlanState :=
  let births := births_of g in
  plan_loop g births (deaths_of g) (Z.of_nat (size births)) (execution_order g) init_plan.

(** [MemoryAnalyzer._generate_optimized_reuse_plan]; the entry
    ['_total_buffer_size_bytes'] of the dictionary is a field of its own. *)
Definition _generate_optimized_reuse_plan (g : CustomGraph) : res ReusePlan :=
  let! st := plan_state g in
  Ok {| entries := reuse_plan st; total_buffer_size_bytes := max_offset st |}.

Record Analysis : Type := {
  a_peak_memory : Z;
  a_peak_node_name : string;
  a_peak_live_tensors : gset string;
  a_memory_timeline : list TimelineEntry;
  a_reuse_plan : ReusePlan }.

(** [MemoryAnalyzer.analyze]; [peak_info["peak_node"].output_name] fails when no
    node has a positive live total. *)
Definition analyze (g : CustomGraph) : res Analysis :=
  let liveness_map := _analyze_liveness g in
  let! peak_info := _calculate_peak_memory g liveness_map in
  let! memory_timeline := _calculate_memory_timeline g liveness_map (peak_memory_bytes peak_info) in
  let! plan := _generate_optimized_reuse_plan g in
  let! pn := of_option AttributeError (peak_node peak_info) in
  Ok {| a_peak_memory := peak_memory_bytes peak_info;
        a_peak_node_name := output_name pn;
        a_peak_live_tensors := peak_live_set_names peak_info;
        a_memory_timeline := memory_timeline;
        a_reuse_plan := plan |}.

(** ** Well-formed graphs *)

Definition names (l : list OpNode) : list string := output_name <$> l.

(** What [add_op] and [add_alias] maintain: names are unique, [nodes] indexes
    the execution order, and an alias source fits in its target. *)
Record graph_wf (g : CustomGraph) : Prop := {
  wf_nodup : NoDup (names (execution_order g));
  wf_nodes : forall name n, nodes g !! name = Some n <->
               n ∈ execution_order g /\ output_name n = name;
  wf_alias : forall s t, aliases g !! s = Some t ->
               exists ns nt, nodes g !! s = Some ns /\ nodes g !! t = Some nt /\
                             node_size ns <= node_size nt }.

(** Some node at position [j] or later reads tensor [name]. *)
Definition read_from (g : CustomGraph) (name : string) (j : nat) : Prop :=
  exists k r, (j <= k)%nat /\ execution_order g !! k = Some r /\ name ∈ input_names r.

(** The memory ranges of two plan entries. *)
Definition ranges_disjoint (a b : PlanEntry) : Prop :=
  offset a + psize a <= offset b \/ offset b + psize b <= offset a.
Definition same_ranges (a b : PlanEntry) : Prop :=
  offset a = offset b /\ psize a = psize b.

(** Every aliased tensor either avoids the tensors that are still needed when
    it is written, or takes over exactly the range of one of them (an in-place
    update).  [add_alias] does not enforce it. *)
Definition alias_compatible_upto (g : CustomGraph) (plan : gmap string PlanEntry) (m : nat) : Prop :=
  forall i j ni nj ei ej, (i < j < m)%nat ->
    execution_order g !! i = Some ni -> execution_order g !! j = Some nj ->
    plan !! output_name ni = Some ei -> plan !! output_name nj = Some ej ->
    is_Some (aliases g !! output_name nj) -> read_from g (output_name ni) j ->
    ranges_disjoint ei ej \/ same_ranges ei ej.
Definition alias_compatible (g : CustomGraph) (p : ReusePlan) : Prop :=
  alias_compatible_upto g (entries p) (length (execution_order g)).

(** *** [add_op] and [add_alias] keep the graph well formed *)

Lemma empty_graph_wf : graph_wf empty_graph.
Proof.
  split; cbn; [constructor| |]; [intros name n|intros s t]; rewrite ?lookup_empty.
  - split; [done|]. intros [H _]. by apply elem_of_nil in H.
  - done.
Qed.

Lemma wf_fresh g name :
  graph_wf g -> nodes g !! name = None -> name ∉ names (execution_order g).
Proof.
  intros Hwf Hn (n & -> & Hin)%list_elem_of_fmap.
  assert (nodes g !! output_name n = Some n) by (by apply Hwf). congruence.
Qed.

Lemma add_op_wf_aux g out op ins sh d g' :
  graph_wf g -> add_op g out op ins sh d = Ok g' -> graph_wf g'.
Proof.
  intros Hwf. unfold add_op. destruct (nodes g !! out) eqn:Hout; [done|].
  intros H. inv_res H. subst g'. pose proof (wf_fresh _ _ Hwf Hout) as Hfr.
  split; cbn.
  - unfold names. rewrite fmap_app, NoDup_app. split; [apply Hwf|]. cbn. split.
    + intros x Hx ->%list_elem_of_singleton. by apply Hfr.
    + apply NoDup_singleton.
  - intros name n. rewrite lookup_insert. case_decide as Hd.
    + subst name. rewrite elem_of_app, list_elem_of_singleton. split.
      * intros [= <-]. auto.
      * intros [[Hin| ->] Ho]; [|done]. exfalso. apply Hfr. subst out.
        apply list_elem_of_fmap; eauto.
    + rewrite (wf_nodes _ Hwf), elem_of_app, list_elem_of_singleton. naive_solver.
  - intros s t Hal. destruct (wf_alias _ Hwf _ _ Hal) as (ns & nt & Hs & Ht & Hle).
    exists ns, nt. rewrite !lookup_insert_ne by congruence. auto.
Qed.

Lemma add_alias_wf_aux g s t g' :
  graph_wf g -> add_alias g s t = Ok g' -> graph_wf g'.
Proof.
  intros Hwf. unfold add_alias.
  destruct (nodes g !! s) as [ns|] eqn:Hs, (nodes g !! t) as [nt|] eqn:Ht; try done.
  zcases; [done|]. intros [= <-]. split; cbn; try apply Hwf.
  intros s' t'. rewrite lookup_insert. case_decide.
  - intros [= <-]. subst s'. eauto 10.
  - apply Hwf.
Qed.
#[export] Hint Resolve empty_graph_wf add_op_wf_aux add_alias_wf_aux : graph.
