(* ===== verification/MemoryPlan.v ===== *)
(** * The memory plan is correct

    Proofs about [MemoryAnalyzer] ([GraphBuilder.v]): liveness is exact, the
    first-fit plan keeps tensors that are still needed intact, stays within the
    total it reports, covers the reported peak, and fails only on an alias whose
    target comes later. *)

From stdpp Require Import base gmap strings list sorting fin_maps fin_sets.
From Stdlib Require Import ZArith Lia QArith.
From S2P Require Import Prelude GraphBuilder.
Open Scope string_scope.
Open Scope list_scope.
Open Scope Z_scope.

(** ** Births and deaths *)

Lemma births_from_ne order i acc name :
  name ∉ names order -> births_from i order acc !! name = acc !! name.
Proof.
  revert i acc. induction order as [|n order IH]; intros i acc Hn; [done|]. cbn in *.
  apply not_elem_of_cons in Hn as [Hne Hn].
  rewrite IH by done. by apply lookup_insert_ne.
Qed.

Lemma births_from_lookup order i acc k n :
  NoDup (names order) -> order !! k = Some n ->
  births_from i order acc !! output_name n = Some (i + Z.of_nat k).
Proof.
  revert i acc k. induction order as [|m order IH]; intros i acc k Hnd Hk; [done|].
  cbn in Hnd. apply NoDup_cons in Hnd as [Hm Hnd]. destruct k as [|k]; cbn in *.
  - injection Hk as <-. rewrite births_from_ne, lookup_insert_eq by done. f_equal; lia.
  - rewrite (IH _ _ k) by done. f_equal; lia.
Qed.

Lemma births_of_lookup g k n :
  graph_wf g -> execution_order g !! k = Some n ->
  births_of g !! output_name n = Some (Z.of_nat k).
Proof. intros Hwf Hk. unfold births_of. by rewrite (births_from_lookup _ _ _ k) by (done || apply Hwf). Qed.

Lemma insert_all_lookup (l : list string) (i : Z) (acc : gmap string Z) name :
  fold_left (fun m x => <[x := i]> m) l acc !! name =
  if decide (name ∈ l) then Some i else acc !! name.
Proof.
  revert acc. induction l as [|x l IH]; intros acc; cbn.
  - by rewrite decide_False by apply not_elem_of_nil.
  - rewrite IH, lookup_insert. repeat case_decide; set_solver.
Qed.

(** The position of the last reader of a tensor. *)
Fixpoint last_use (i : Z) (order : list OpNode) (name : string) : option Z :=
  match order with
  | [] => None
  | n :: order =>
      match last_use (i + 1) order name with
      | Some d => Some d
      | None => if decide (name ∈ input_names n) then Some i else None
      end
  end.

Lemma deaths_from_last_use order i acc name :
  deaths_from i order acc !! name =
  match last_use i order name with Some d => Some d | None => acc !! name end.
Proof.
  revert i acc. induction order as [|n order IH]; intros i acc; [done|]. cbn.
  rewrite IH, insert_all_lookup. destruct (last_use (i + 1) order name); [done|].
  by case_decide.
Qed.

Lemma last_use_ge order i name k r :
  order !! k = Some r -> name ∈ input_names r ->
  exists d, last_use i order name = Some d /\ i + Z.of_nat k <= d.
Proof.
  revert i k. induction order as [|n order IH]; intros i k Hk Hin; [done|].
  destruct k as [|k]; cbn in *.
  - injection Hk as ->. destruct (last_use (i + 1) order name) as [d|] eqn:E.
    + exists d; split; [done|]. clear IH Hin. revert i d E.
      induction order as [|m order IH]; cbn; [done|]. intros i d.
      destruct (last_use (i + 1 + 1) order name) eqn:E'; [|case_decide; [|done]]; intros [= <-].
      * specialize (IH (i + 1) _ E'). lia.
      * lia.
    + rewrite decide_True by done. exists i; split; [done|lia].
  - destruct (IH (i + 1) k Hk Hin) as (d & -> & Hd). exists d; split; [done|lia].
Qed.

Lemma read_from_death g name j :
  read_from g name j -> exists d, deaths_of g !! name = Some d /\ Z.of_nat j <= d.
Proof.
  intros (k & r & Hjk & Hk & Hin). unfold deaths_of. rewrite deaths_from_last_use.
  destruct (last_use_ge _ 0 _ _ _ Hk Hin) as (d & -> & Hd). exists d; split; [done|lia].
Qed.

Lemma last_use_reader order i name d :
  last_use i order name = Some d ->
  exists k r, d = i + Z.of_nat k /\ order !! k = Some r /\ name ∈ input_names r.
Proof.
  revert i. induction order as [|n order IH]; intros i; cbn; [done|].
  destruct (last_use (i + 1) order name) as [d'|] eqn:E.
  - intros [= ->]. destruct (IH _ E) as (k & r & -> & Hk & Hin).
    exists (S k), r. split; [lia|]. auto.
  - case_decide; [|done]. intros [= <-]. exists 0%nat, n. split; [lia|]. auto.
Qed.

(** For a tensor of the graph the liveness test of the planner is exactly the
    existence of a reader at that position or later. *)
Lemma death_read_from g n j :
  graph_wf g -> n ∈ execution_order g ->
  forall d, deaths_of g !! output_name n = Some d -> Z.of_nat j <= d ->
  read_from g (output_name n) j.
Proof.
  intros Hwf Hin d. unfold deaths_of. rewrite deaths_from_last_use.
  destruct (last_use _ _ _) as [d'|] eqn:E.
  - intros [= ->] Hd. destruct (last_use_reader _ _ _ _ E) as (k & r & -> & Hk & Hr).
    exists k, r. split; [lia|auto].
  - rewrite lookup_fmap, (proj2 (wf_nodes _ Hwf (output_name n) n)) by auto. cbn.
    intros [= <-]. lia.
Qed.

Lemma deaths_of_some g n :
  graph_wf g -> n ∈ execution_order g -> is_Some (deaths_of g !! output_name n).
Proof.
  intros Hwf Hin. unfold deaths_of. rewrite deaths_from_last_use.
  destruct (last_use _ _ _); [eauto|].
  rewrite lookup_fmap, (proj2 (wf_nodes _ Hwf (output_name n) n)) by auto. eauto.
Qed.

(** ** The first-fit search *)

Definition blocks_disjoint (a b : Block) : Prop := end_ a <= start b \/ end_ b <= start a.
Definition blocks_same (a b : Block) : Prop := start a = start b /\ end_ a = end_ b.
Definition proper_block (b : Block) : Prop := 0 <= start b < end_ b.
Definition start_le (a b : Block) : Prop := start a <= start b.

Lemma insert_by_start_perm b l : insert_by_start b l ≡ₚ b :: l.
Proof.
  induction l as [|c l IH]; cbn; [done|]. zcases; [done|]. rewrite IH. by constructor.
Qed.

Lemma sort_by_start_perm l : sort_by_start l ≡ₚ l.
Proof. induction l as [|b l IH]; cbn; [done|]. by rewrite insert_by_start_perm, IH. Qed.

Lemma insert_by_start_sorted b l :
  StronglySorted start_le l -> StronglySorted start_le (insert_by_start b l).
Proof.
  induction 1 as [|c l Hl IH Hc]; cbn; [repeat constructor|].
  destruct (Z.leb_spec (start b) (start c)).
  - constructor; [by constructor|]. constructor; [done|].
    eapply Forall_impl; [done|]. unfold start_le. intros ?. lia.
  - constructor; [done|]. rewrite insert_by_start_perm. constructor; [unfold start_le; lia|done].
Qed.

Lemma sort_by_start_sorted l : StronglySorted start_le (sort_by_start l).
Proof. induction l; cbn; [constructor|]. by apply insert_by_start_sorted. Qed.

(** The scan keeps [last_end] above the end of every block it has passed, so
    the place it returns clears every block. *)
Lemma gap_scan_clear blocks last sz :
  0 < sz -> 0 <= last ->
  StronglySorted start_le blocks -> Forall proper_block blocks ->
  (forall a b, a ∈ blocks -> b ∈ blocks -> blocks_disjoint a b \/ blocks_same a b) ->
  (forall b, b ∈ blocks -> last <= end_ b) ->
  let '(found, last') := gap_scan blocks last sz in
  let off := if found =? -1 then last' else found in
  last <= off /\ forall b, b ∈ blocks -> end_ b <= off \/ off + sz <= start b.
Proof.
  intros Hsz. revert last. induction blocks as [|b blocks IH]; intros last Hlast Hs Hp Hd He; cbn.
  - split; [lia|]. intros b Hb. by apply elem_of_nil in Hb.
  - apply StronglySorted_inv in Hs as [Hs Hb]. apply Forall_cons in Hp as [Hpb Hp].
    unfold proper_block in *. rewrite Forall_forall in Hb. unfold start_le in Hb.
    destruct (Z.leb_spec sz (start b - last)).
    + destruct (Z.eqb_spec last (-1)); [lia|]. split; [lia|].
      intros c [->|Hc]%elem_of_cons; [lia|]. specialize (Hb c Hc). lia.
    + assert (Hend : forall c, c ∈ blocks -> end_ b <= end_ c).
      { intros c Hc. specialize (Hb c Hc). rewrite Forall_forall in Hp. specialize (Hp c Hc).
        destruct (Hd b c) as [[]|[]]; [by left|by right|lia..]. }
      specialize (IH (end_ b)). destruct (gap_scan blocks (end_ b) sz) as [found last'].
      assert (Hlb : last <= end_ b) by (apply He; left).
      destruct IH as [H1 H2]; [lia|done|done| |done|].
      * intros a c Ha Hc. apply Hd; by right.
      * split; [lia|]. intros c [->|Hc]%elem_of_cons; [lia|auto].
Qed.

Lemma first_fit_clear blocks sz :
  0 < sz -> StronglySorted start_le blocks -> Forall proper_block blocks ->
  (forall a b, a ∈ blocks -> b ∈ blocks -> blocks_disjoint a b \/ blocks_same a b) ->
  0 <= first_fit blocks sz /\
  forall b, b ∈ blocks -> end_ b <= first_fit blocks sz \/ first_fit blocks sz + sz <= start b.
Proof.
  intros Hsz Hs Hp Hd. unfold first_fit.
  pose proof (gap_scan_clear blocks 0 sz Hsz ltac:(lia) Hs Hp Hd) as H.
  destruct (gap_scan blocks 0 sz) as [found last']. apply H.
  intros b Hb. rewrite Forall_forall in Hp. specialize (Hp b Hb). unfold proper_block in Hp. lia.
Qed.

Lemma gap_scan_origin blocks last sz :
  0 <= last -> (forall b, b ∈ blocks -> 0 <= end_ b) ->
  let '(found, last') := gap_scan blocks last sz in
  let off := if found =? -1 then last' else found in
  off = last \/ exists b, b ∈ blocks /\ off = end_ b.
Proof.
  revert last. induction blocks as [|b blocks IH]; intros last Hlast He; cbn; [by left|].
  destruct (Z.leb_spec sz (start b - last)).
  - destruct (Z.eqb_spec last (-1)); [lia|]. by left.
  - specialize (IH (end_ b)). destruct (gap_scan blocks (end_ b) sz) as [found last'].
    destruct IH as [->|(c & Hc & ->)].
    + apply He. left.
    + intros c Hc. apply He. by right.
    + right. exists b. split; [left|done].
    + right. exists c. split; [by right|done].
Qed.

Lemma gap_scan_lowest blocks last sz o :
  0 <= last -> last <= o -> (forall b, b ∈ blocks -> 0 <= end_ b) ->
  (forall b, b ∈ blocks -> end_ b <= o \/ o + sz <= start b) ->
  let '(found, last') := gap_scan blocks last sz in
  (if found =? -1 then last' else found) <= o.
Proof.
  revert last. induction blocks as [|b blocks IH]; intros last Hlast Ho He Hcl; cbn; [done|].
  destruct (Z.leb_spec sz (start b - last)).
  - destruct (Z.eqb_spec last (-1)); lia.
  - specialize (IH (end_ b)). destruct (gap_scan blocks (end_ b) sz) as [found last'].
    apply IH.
    + apply He. left.
    + destruct (Hcl b); [left|done|lia].
    + intros c Hc. apply He. by right.
    + intros c Hc. apply Hcl. by right.
Qed.

(** First fit returns 0 or the end of a block ... *)
Lemma first_fit_origin blocks sz :
  (forall b, b ∈ blocks -> 0 <= end_ b) ->
  first_fit blocks sz = 0 \/ exists b, b ∈ blocks /\ first_fit blocks sz = end_ b.
Proof.
  intros He. unfold first_fit. pose proof (gap_scan_origin blocks 0 sz ltac:(lia) He) as H.
  by destruct (gap_scan blocks 0 sz).
Qed.

(** ... and no address that clears every block is lower. *)
Lemma first_fit_lowest blocks sz o :
  0 <= o -> (forall b, b ∈ blocks -> 0 <= end_ b) ->
  (forall b, b ∈ blocks -> end_ b <= o \/ o + sz <= start b) -> first_fit blocks sz <= o.
Proof.
  intros Ho He Hcl. unfold first_fit. pose proof (gap_scan_lowest blocks 0 sz o ltac:(lia) Ho He Hcl) as H.
  by destruct (gap_scan blocks 0 sz).
Qed.

(** ** The allocation loop *)

(** The tensors the planner places: [tensor_size > 0]. *)
Definition sized (n : OpNode) : Prop := 0 < node_size n.
#[export] Instance sized_dec n : Decision (sized n).
Proof. unfold sized. apply _. Defined.

Section plan.
Context (g : CustomGraph) (Hwf : graph_wf g).

Let births := births_of g.
Let deaths := deaths_of g.
Let lb := Z.of_nat (size births).

Definition plan_entry (n : OpNode) (off : Z) : PlanEntry :=
  {| offset := off; psize := node_size n;
     pshape := shape (output_spec n); pdtype := dtype (output_spec n) |}.
Definition plan_block (n : OpNode) (off : Z) : Block :=
  {| tensor_name := output_name n; start := off; end_ := off + node_size n |}.

Definition pair_ok (a b : Block) : Prop :=
  blocks_disjoint a b \/ (is_Some (aliases g !! tensor_name b) /\ blocks_same a b).

(** The loop invariant after the nodes [pre] were processed. *)
Record plan_inv (pre : list OpNode) (st : PlanState) : Prop := {
  pv_blocks : Forall2 (fun n b => exists off, 0 <= off /\ b = plan_block n off /\
                         reuse_plan st !! output_name n = Some (plan_entry n off))
                (filter sized pre) (allocated_blocks st);
  pv_plan : forall name e, reuse_plan st !! name = Some e ->
              exists n off, n ∈ pre /\ sized n /\ name = output_name n /\
                            0 <= off /\ e = plan_entry n off;
  pv_pairs : forall i j a b t, (i < j)%nat ->
               allocated_blocks st !! i = Some a -> allocated_blocks st !! j = Some b ->
               births !! tensor_name b = Some t -> is_live deaths lb t a = true ->
               pair_ok a b;
  pv_fit : forall j b t, allocated_blocks st !! j = Some b ->
             births !! tensor_name b = Some t -> aliases g !! tensor_name b = None ->
             start b = first_fit (live_blocks_at_birth deaths lb t (take j (allocated_blocks st)))
                         (end_ b - start b);
  pv_max : max_offset st = zmax_list 0 (end_ <$> allocated_blocks st) }.

Lemma plan_step_ok n st st' :
  plan_step g births deaths lb n st = Ok st' ->
  (node_size n <= 0 /\ st' = st) \/
  (sized n /\ exists off t, births !! output_name n = Some t /\
     match aliases g !! output_name n with
     | Some target => exists e, reuse_plan st !! target = Some e /\ off = offset e
     | None => off = first_fit (live_blocks_at_birth deaths lb t (allocated_blocks st)) (node_size n)
     end /\
     allocated_blocks st' = allocated_blocks st ++ [plan_block n off] /\
     reuse_plan st' = <[output_name n := plan_entry n off]> (reuse_plan st) /\
     max_offset st' = Z.max (max_offset st)
       (match map end_ (allocated_blocks st') with [] => 0 | e :: es => zmax_list e es end)).
Proof.
  unfold plan_step. destruct (Z.ltb_spec 0 (node_size n)); cbn.
  2:{ intros [= <-]. left. split; [lia|done]. }
  intros Hst. inv_res Hst. right. split; [done|]. subst st'. cbn. exists v0, v.
  split; [done|]. split; [|done].
  destruct (aliases g !! output_name n) as [target|]; [|congruence].
  destruct (reuse_plan st !! target) as [e|]; [|done]. exists e. split; congruence.
Qed.

Lemma plan_loop_mono suf st stf :
  plan_loop g births deaths lb suf st = Ok stf -> NoDup (names suf) ->
  forall name e, reuse_plan st !! name = Some e -> name ∉ names suf ->
  reuse_plan stf !! name = Some e.
Proof.
  revert st. induction suf as [|n suf IH]; intros st Hl Hnd name e He Hn; cbn in Hl.
  { injection Hl as ->; done. }
  inv_res Hl. cbn in Hnd, Hn. apply NoDup_cons in Hnd as [Hnn Hnd].
  apply not_elem_of_cons in Hn as [Hne Hn].
  apply (IH _ Hl Hnd); [|done].
  destruct (plan_step_ok _ _ _ Hl0) as [[_ ->]|(_ & off & t & _ & _ & _ & -> & _)]; [done|].
  by rewrite lookup_insert_ne.
Qed.

(** The blocks that the invariant describes. *)
Lemma pv_block_node pre st i b :
  plan_inv pre st -> allocated_blocks st !! i = Some b ->
  exists n off, n ∈ pre /\ sized n /\ 0 <= off /\ b = plan_block n off /\
                reuse_plan st !! output_name n = Some (plan_entry n off).
Proof.
  intros Hinv Hi. destruct (Forall2_lookup_r _ _ _ _ _ (pv_blocks _ _ Hinv) Hi)
    as (n & Hn & off & Hoff & -> & Hp).
  apply list_elem_of_lookup_2 in Hn. apply list_elem_of_filter in Hn as [Hs Hn].
  exists n, off. auto.
Qed.

Lemma pv_block_birth pre suf st i b :
  execution_order g = pre ++ suf -> plan_inv pre st -> allocated_blocks st !! i = Some b ->
  exists t, births !! tensor_name b = Some t /\ t < Z.of_nat (length pre).
Proof.
  intros Ho Hinv Hi. destruct (pv_block_node _ _ _ _ Hinv Hi) as (n & off & Hn & _ & _ & -> & _).
  apply list_elem_of_lookup_1 in Hn as [k Hk]. cbn. exists (Z.of_nat k).
  split; [|apply lookup_lt_Some in Hk; lia].
  apply births_of_lookup; [done|]. rewrite Ho. by apply lookup_app_l_Some.
Qed.

Lemma is_live_mono t t' b : t <= t' -> is_live deaths lb t' b = true -> is_live deaths lb t b = true.
Proof. unfold is_live. rewrite !Z.leb_le. lia. Qed.

(** Blocks that are live at the same time are pairwise disjoint or equal. *)
Lemma pv_live_pairwise pre suf st a b :
  execution_order g = pre ++ suf -> plan_inv pre st ->
  let live := live_blocks_at_birth deaths lb (Z.of_nat (length pre)) (allocated_blocks st) in
  a ∈ live -> b ∈ live -> blocks_disjoint a b \/ blocks_same a b.
Proof.
  intros Ho Hinv live. subst live. unfold live_blocks_at_birth.
  rewrite !sort_by_start_perm, !list_elem_of_In, !filter_In, <-!list_elem_of_In.
  intros [[i Hi]%list_elem_of_lookup_1 Hla] [[j Hj]%list_elem_of_lookup_1 Hlb].
  destruct (pv_block_birth _ _ _ _ _ Ho Hinv Hi) as (ta & Hta & ?).
  destruct (pv_block_birth _ _ _ _ _ Ho Hinv Hj) as (tb & Htb & ?).
  destruct (lt_eq_lt_dec i j) as [[Hlt| ->]|Hlt].
  - destruct (pv_pairs _ _ Hinv i j a b tb) as [|[_ ?]]; auto.
    eapply is_live_mono; [|done]. lia.
  - rewrite Hi in Hj. injection Hj as ->. by right.
  - destruct (pv_pairs _ _ Hinv j i b a ta) as [[?|?]|[_ [? ?]]]; auto; unfold blocks_disjoint, blocks_same; auto.
    eapply is_live_mono; [|done]. lia.
Qed.

Lemma pv_proper pre st : plan_inv pre st -> Forall proper_block (allocated_blocks st).
Proof.
  intros Hinv. apply Forall_lookup. intros i b Hi.
  destruct (pv_block_node _ _ _ _ Hinv Hi) as (n & off & _ & Hs & Hoff & -> & _).
  unfold proper_block, sized in *. cbn. lia.
Qed.

Lemma max_snoc l x :
  Forall (fun z => 0 <= z) l -> 0 <= x ->
  Z.max (zmax_list 0 l) (match l ++ [x] with [] => 0 | e :: es => zmax_list e es end)
    = zmax_list 0 (l ++ [x]).
Proof.
  intros Hl Hx. assert (Hb : forall d l, zmax_list d l = Z.max d (zmax_list d l)).
  { intros d l'. pose proof (zmax_list_ge_default d l'). lia. }
  assert (Hs : forall l d, zmax_list d (l ++ [x]) = Z.max x (zmax_list d l)).
  { intros l'. induction l' as [|y l' IH]; intros d; cbn; [done|]. rewrite IH. lia. }
  assert (Hd : forall l d, Forall (fun z => 0 <= z) (d :: l) -> zmax_list d l = Z.max d (zmax_list 0 l)).
  { intros l'. induction l' as [|y l' IH]; intros d Hf; inversion Hf as [|? ? Hd Hf']; subst; cbn; [lia|].
    inversion Hf' as [|? ? Hy Hf'']; subst. rewrite IH by (constructor; auto). lia. }
  destruct l as [|y l]; cbn; [lia|]. rewrite Hs, Hs. rewrite (Hd l y) by done. lia.
Qed.

(** A non-aliased tensor is placed clear of every live block. *)
Lemma fresh_pairs pre n suf st i a :
  execution_order g = pre ++ n :: suf -> plan_inv pre st -> sized n ->
  let t := Z.of_nat (length pre) in
  let off := first_fit (live_blocks_at_birth deaths lb t (allocated_blocks st)) (node_size n) in
  0 <= off /\
  (allocated_blocks st !! i = Some a -> is_live deaths lb t a = true ->
   blocks_disjoint a (plan_block n off)).
Proof.
  intros Ho Hinv Hs t off.
  destruct (first_fit_clear (live_blocks_at_birth deaths lb t (allocated_blocks st)) (node_size n))
    as [H0 Hc]; [done|apply sort_by_start_sorted| | |split; [done|]].
  - unfold live_blocks_at_birth. rewrite sort_by_start_perm.
    apply Forall_forall. intros x. rewrite list_elem_of_In, filter_In, <-list_elem_of_In.
    intros [Hx _]. eapply Forall_forall in Hx; [exact Hx|by eapply pv_proper].
  - intros x y. by eapply pv_live_pairwise.
  - intros Hi Hl. destruct (Hc a) as [?|?].
    + unfold live_blocks_at_birth. rewrite sort_by_start_perm, list_elem_of_In, filter_In, <-list_elem_of_In.
      split; [by eapply list_elem_of_lookup_2|done].
    + by left.
    + right; cbn. done.
Qed.

(** An alias is placed where [alias_compatible] allows it. *)
Lemma alias_pairs pre n suf st stf off target i a m :
  (length pre < m)%nat -> execution_order g = pre ++ n :: suf -> plan_inv pre st -> sized n ->
  aliases g !! output_name n = Some target ->
  alias_compatible_upto g (reuse_plan stf) m ->
  (forall x e, <[output_name n := plan_entry n off]> (reuse_plan st) !! x = Some e ->
     x ∉ names suf -> reuse_plan stf !! x = Some e) ->
  allocated_blocks st !! i = Some a ->
  is_live deaths lb (Z.of_nat (length pre)) a = true ->
  pair_ok a (plan_block n off).
Proof.
  intros Hm0 Ho Hinv Hs Hal Hc Hmono Hi Hl.
  destruct (pv_block_node _ _ _ _ Hinv Hi) as (m' & off' & Hm & Hms & Hoff' & -> & Hp).
  pose proof (wf_nodup _ Hwf) as Hnd. rewrite Ho in Hnd. unfold names in Hnd.
  rewrite fmap_app in Hnd. apply NoDup_app in Hnd as (_ & Hdis & Hnd).
  cbn in Hnd. apply NoDup_cons in Hnd as [Hnn Hnd].
  assert (Hmn : output_name m' ∉ output_name <$> n :: suf).
  { apply Hdis. apply list_elem_of_fmap. eauto. }
  cbn in Hmn. apply not_elem_of_cons in Hmn as [Hne Hms'].
  apply list_elem_of_lookup_1 in Hm as [k Hk].
  destruct (Hc k (length pre) m' n (plan_entry m' off') (plan_entry n off)) as [Hd|Hd].
  - apply lookup_lt_Some in Hk. lia.
  - rewrite Ho. by apply lookup_app_l_Some.
  - rewrite Ho. by rewrite lookup_app_r, Nat.sub_diag by lia.
  - cbn. apply Hmono; [|done]. by rewrite lookup_insert_ne.
  - cbn. apply Hmono; [|done]. by rewrite lookup_insert_eq.
  - eauto.
  - assert (Hme : m' ∈ execution_order g).
    { rewrite Ho. apply elem_of_app. left. by eapply list_elem_of_lookup_2. }
    destruct (deaths_of_some _ _ Hwf Hme) as [d Hd].
    unfold is_live in Hl. cbn in Hl. unfold deaths in Hl. rewrite Hd in Hl. cbn in Hl.
    apply Z.leb_le in Hl. by eapply death_read_from.
  - left. unfold blocks_disjoint. cbn. exact Hd.
  - right. split; [cbn; eauto|]. destruct Hd as [Ho1 Ho2]. cbn in *. split; cbn; lia.
Qed.

Lemma plan_step_inv pre n suf st st1 stf m :
  (length pre < m)%nat -> execution_order g = pre ++ n :: suf -> plan_inv pre st ->
  plan_step g births deaths lb n st = Ok st1 ->
  plan_loop g births deaths lb suf st1 = Ok stf ->
  alias_compatible_upto g (reuse_plan stf) m ->
  plan_inv (pre ++ [n]) st1.
Proof.
  intros Hm0 Ho Hinv Hstep Hloop Hc.
  pose proof (wf_nodup _ Hwf) as Hnd. rewrite Ho in Hnd. unfold names in Hnd.
  rewrite fmap_app in Hnd. apply NoDup_app in Hnd as (_ & Hdis & Hnd).
  cbn in Hnd. apply NoDup_cons in Hnd as [Hnn Hnd].
  assert (Hpre : output_name n ∉ names pre).
  { intros Hin. apply (Hdis _ Hin). left. }
  assert (Hb : births !! output_name n = Some (Z.of_nat (length pre))).
  { apply births_of_lookup; [done|]. rewrite Ho. by rewrite lookup_app_r, Nat.sub_diag by lia. }
  pose proof (plan_loop_mono _ _ _ Hloop Hnd) as Hmono.
  destruct (plan_step_ok _ _ _ Hstep) as [[Hn ->]|(Hs & off & t & Ht & Hoff & Hbl & Hpl & Hmx)].
  { split; [| |apply Hinv..].
    - rewrite filter_app. cbn. rewrite (decide_False (P := sized n)) by (unfold sized; lia).
      rewrite app_nil_r. apply Hinv.
    - intros name e (m' & o & Hm & Hr)%(pv_plan _ _ Hinv). exists m', o.
      split; [apply elem_of_app; auto|done]. }
  rewrite Hb in Ht. injection Ht as <-.
  assert (Hoff0 : 0 <= off).
  { destruct (aliases g !! output_name n).
    - destruct Hoff as (e & (m' & o & _ & _ & _ & ? & ->)%(pv_plan _ _ Hinv) & ->). done.
    - subst off. by eapply (fresh_pairs _ _ _ _ 0 (plan_block n 0)). }
  split.
  - rewrite filter_app. cbn. rewrite decide_True by done. rewrite Hbl, Hpl.
    apply Forall2_app; [|constructor; [exists off; rewrite lookup_insert_eq; auto|constructor]].
    apply Forall2_same_length_lookup. split; [by eapply Forall2_length, pv_blocks|].
    intros i m' b Hi Hib.
    destruct (Forall2_lookup_lr _ _ _ _ _ _ (pv_blocks _ _ Hinv) Hi Hib) as (o & ? & -> & Hp).
    exists o. split; [done|]. split; [done|].
    rewrite lookup_insert_ne; [done|]. intros Heq. apply Hpre. rewrite Heq.
    apply list_elem_of_lookup_2 in Hi. apply list_elem_of_filter in Hi as [_ Hi].
    apply list_elem_of_fmap; eauto.
  - intros name e. rewrite Hpl, lookup_insert. case_decide.
    + intros [= <-]. exists n, off. rewrite elem_of_app, list_elem_of_singleton. auto.
    + intros (m' & o & Hm & Hr)%(pv_plan _ _ Hinv). exists m', o.
      split; [apply elem_of_app; auto|done].
  - intros i j a b t Hij. rewrite Hbl. intros Hi Hj Htb Hl.
    apply lookup_snoc_Some in Hj as [[Hj Hjb]|[-> <-]].
    + rewrite lookup_app_l in Hi by lia. by eapply (pv_pairs _ _ Hinv i j).
    + rewrite lookup_app_l in Hi by lia. cbn in Htb. rewrite Hb in Htb. injection Htb as <-.
      destruct (aliases g !! output_name n) as [target|] eqn:Hal.
      * eapply alias_pairs; try done. intros x e. rewrite <-Hpl. apply Hmono.
      * left. subst off. by eapply (fresh_pairs _ _ _ _ i a).
  - intros j b t. rewrite Hbl. intros Hj Htb Hnal.
    apply lookup_snoc_Some in Hj as [[Hj Hjb]|[-> <-]].
    + rewrite take_app_le by lia. by apply (pv_fit _ _ Hinv).
    + cbn in Htb, Hnal |- *. rewrite Hb in Htb. injection Htb as <-.
      rewrite Hnal in Hoff. rewrite take_app_length, Z.add_simpl_l. done.
  - rewrite Hmx, Hbl, (pv_max _ _ Hinv), map_app, fmap_app. apply max_snoc; [|cbn; unfold sized in Hs; lia].
    apply Forall_fmap. eapply Forall_impl; [by eapply pv_proper|].
    unfold proper_block. intros x. cbn. lia.
Qed.

Lemma plan_loop_other suf st stf name :
  plan_loop g births deaths lb suf st = Ok stf -> name ∉ names suf ->
  reuse_plan stf !! name = reuse_plan st !! name.
Proof.
  revert st. induction suf as [|n suf IH]; intros st Hl Hn; cbn in Hl; [congruence|].
  inv_res Hl. cbn in Hn. apply not_elem_of_cons in Hn as [Hne Hn]. rewrite (IH _ Hl Hn).
  destruct (plan_step_ok _ _ _ Hl0) as [[_ ->]|(_ & off & t & _ & _ & _ & -> & _)]; [done|].
  by rewrite lookup_insert_ne.
Qed.

(** An alias is placed at the offset of its target. *)
Lemma plan_loop_alias suf st stf n t e :
  plan_loop g births deaths lb suf st = Ok stf -> NoDup (names suf) ->
  (forall name, is_Some (reuse_plan st !! name) -> name ∉ names suf) ->
  n ∈ suf -> aliases g !! output_name n = Some t -> reuse_plan stf !! output_name n = Some e ->
  exists et, reuse_plan stf !! t = Some et /\ offset e = offset et /\ psize e = node_size n.
Proof.
  revert st. induction suf as [|m suf IH]; intros st Hl Hnd Hfr Hn Hal He; [by apply elem_of_nil in Hn|].
  cbn in Hl. inv_res Hl. cbn in Hnd, Hfr. apply NoDup_cons in Hnd as [Hm Hnd].
  assert (Hst : forall name, is_Some (reuse_plan st !! name) -> name ∉ names suf)
    by (intros name ? ?; eapply Hfr; [done|by right]).
  apply elem_of_cons in Hn as [->|Hn].
  - rewrite (plan_loop_other _ _ _ _ Hl Hm) in He.
    destruct (plan_step_ok _ _ _ Hl0) as [[_ ->]|(_ & off & b & _ & Hoff & _ & Hpl & _)].
    { exfalso. apply (Hfr (output_name m)); [eauto|left]. }
    rewrite Hal in Hoff. destruct Hoff as (et & Het & ->).
    rewrite Hpl, lookup_insert_eq in He. injection He as <-. exists et.
    rewrite (plan_loop_other _ _ _ _ Hl) by (apply Hst; eauto).
    rewrite Hpl, lookup_insert_ne; [done|]. intros <-. apply (Hfr (output_name m)); [eauto|left].
  - apply (IH _ Hl Hnd); [|done..]. intros name.
    destruct (plan_step_ok _ _ _ Hl0) as [[_ ->]|(_ & off & b & _ & _ & _ & -> & _)]; [auto|].
    rewrite lookup_insert. case_decide; subst; auto.
Qed.

(** The invariant holds of the state after the first [m] nodes as soon as the
    aliases among them are compatible. *)
Lemma plan_loop_inv suf pre st stf m :
  execution_order g = pre ++ suf -> plan_inv pre st -> (length pre <= m)%nat ->
  plan_loop g births deaths lb suf st = Ok stf ->
  alias_compatible_upto g (reuse_plan stf) m ->
  exists stm, plan_inv (take m (execution_order g)) stm /\
    plan_loop g births deaths lb (drop m (execution_order g)) stm = Ok stf.
Proof.
  revert pre st. induction suf as [|n suf IH]; intros pre st Ho Hinv Hm Hl Hc.
  - exists st. rewrite app_nil_r in Ho. rewrite take_ge, drop_ge by (rewrite Ho; lia).
    rewrite Ho. done.
  - destruct (decide (length pre = m)) as [<-|Hne].
    { exists st. rewrite Ho, take_app_length, drop_app_length. done. }
    pose proof Hl as Hl'. cbn in Hl. inv_res Hl.
    apply (IH (pre ++ [n]) v); [by rewrite <-app_assoc| |rewrite length_app; cbn; lia|done|done].
    eapply (plan_step_inv pre n suf st v stf m); done || lia.
Qed.

Lemma plan_state_inv stf m :
  plan_state g = Ok stf -> alias_compatible_upto g (reuse_plan stf) m ->
  exists stm, plan_inv (take m (execution_order g)) stm /\
    plan_loop g births deaths lb (drop m (execution_order g)) stm = Ok stf.
Proof.
  intros Hl Hc. eapply (plan_loop_inv _ []); [done| |cbn; lia|exact Hl|done].
  split; cbn; [constructor| | | |done].
  - intros name e. by rewrite lookup_empty.
  - intros i j a b t _. by rewrite lookup_nil.
  - intros j b t. by rewrite lookup_nil.
Qed.

(** The block of a planned tensor sits after those of the earlier ones. *)
Lemma planned_node pre st k n :
  plan_inv pre st -> pre !! k = Some n ->
  sized n -> exists off, reuse_plan st !! output_name n = Some (plan_entry n off) /\
    allocated_blocks st !! length (filter sized (take k pre)) = Some (plan_block n off).
Proof.
  intros Hinv Hk Hs.
  assert (Hf : filter sized pre !! length (filter sized (take k pre)) = Some n).
  { pose proof (f_equal (filter sized) (take_drop_middle _ _ _ Hk)) as Hf.
    rewrite <-Hf, filter_app, filter_cons_True by done.
    rewrite lookup_app_r by lia. by rewrite Nat.sub_diag. }
  destruct (Forall2_lookup_l _ _ _ _ _ (pv_blocks _ _ Hinv) Hf) as (b & Hb & off & _ & -> & Hp).
  eauto.
Qed.
End plan.

Lemma sized_position_lt (l : list OpNode) i j n :
  (i < j)%nat -> l !! i = Some n -> sized n ->
  (length (filter sized (take i l)) < length (filter sized (take j l)))%nat.
Proof.
  intros Hij Hi Hs.
  assert (Ht : take j l = take i l ++ n :: take (j - S i) (drop (S i) l)).
  { apply lookup_lt_Some in Hi as Hlt.
    pose proof (f_equal (take j) (take_drop_middle _ _ _ Hi)) as Ht.
    rewrite <-Ht, take_app, length_take, Nat.min_l by lia.
    rewrite (take_ge (take i _)) by (rewrite length_take; lia).
    replace (j - i)%nat with (S (j - S i)) by lia. done. }
  rewrite Ht, filter_app, filter_cons_True, length_app by done. cbn. lia.
Qed.

(** ** Properties of the plan *)

Lemma generate_plan_ok g p :
  _generate_optimized_reuse_plan g = Ok p ->
  exists st, plan_state g = Ok st /\
    p = {| entries := reuse_plan st; total_buffer_size_bytes := max_offset st |}.
Proof. unfold _generate_optimized_reuse_plan. intros H. inv_res H. eauto. Qed.

Lemma alias_offset g p n t e :
  graph_wf g -> _generate_optimized_reuse_plan g = Ok p -> n ∈ execution_order g ->
  aliases g !! output_name n = Some t -> entries p !! output_name n = Some e ->
  exists et, entries p !! t = Some et /\ offset e = offset et /\ psize e = node_size n.
Proof.
  intros Hwf (st & Hst & ->)%generate_plan_ok Hn Hal He. cbn in *.
  eapply plan_loop_alias; eauto; [apply Hwf|]. intros name [x Hx]. cbn in Hx. by rewrite lookup_empty in Hx.
Qed.

(** Facts about the first [m] tensors of a graph whose aliases among these are
    compatible. *)
Section plan_facts.
Context (g : CustomGraph) (p : ReusePlan) (m : nat).
Context (Hwf : graph_wf g) (Hplan : _generate_optimized_reuse_plan g = Ok p).
Context (Hc : alias_compatible_upto g (entries p) m).

Let order := take m (execution_order g).

Lemma plan_prefix_inv :
  exists st, plan_inv g order st /\
    forall n, n ∈ order -> entries p !! output_name n = reuse_plan st !! output_name n.
Proof.
  destruct (generate_plan_ok _ _ Hplan) as (stf & Hst & ->).
  destruct (plan_state_inv g Hwf stf m Hst Hc) as (st & Hinv & Hl). exists st. split; [done|].
  intros n Hn. eapply plan_loop_other; [exact Hl|].
  pose proof (wf_nodup _ Hwf) as Hnd. unfold names in *.
  rewrite <-(take_drop m (execution_order g)), fmap_app in Hnd.
  apply NoDup_app in Hnd as (_ & Hdis & _). apply Hdis. apply list_elem_of_fmap; eauto.
Qed.

Lemma order_lookup i n : (i < m)%nat -> execution_order g !! i = Some n -> order !! i = Some n.
Proof. intros Hi Hn. unfold order. by rewrite lookup_take_lt. Qed.

Lemma order_elem i n : (i < m)%nat -> execution_order g !! i = Some n -> n ∈ order.
Proof. intros Hi Hn. eapply list_elem_of_lookup_2, order_lookup; eauto. Qed.

Lemma order_incl n : n ∈ order -> n ∈ execution_order g.
Proof. intros (i & [Hi _]%lookup_take_Some)%list_elem_of_lookup_1. by eapply list_elem_of_lookup_2. Qed.

Lemma plan_entry_facts n e :
  n ∈ order -> entries p !! output_name n = Some e ->
  sized n /\ psize e = node_size n /\ 0 <= offset e.
Proof.
  destruct plan_prefix_inv as (st & Hinv & Hent). intros Hn He. rewrite (Hent n Hn) in He.
  destruct (pv_plan _ _ _ Hinv _ _ He) as (n' & o & Hm & Hs & Hname & Ho & ->).
  assert (nodes g !! output_name n = Some n) by (apply Hwf; split; [by apply order_incl|done]).
  assert (nodes g !! output_name n' = Some n') by (apply Hwf; split; [by apply order_incl|done]).
  assert (n = n') as -> by congruence. done.
Qed.

Lemma plan_entry_exists n :
  n ∈ order -> sized n -> exists e, entries p !! output_name n = Some e /\ psize e = node_size n.
Proof.
  destruct plan_prefix_inv as (st & Hinv & Hent). intros Hn Hs. rewrite (Hent n Hn).
  apply list_elem_of_lookup_1 in Hn as [k Hk].
  destruct (planned_node g _ st k n Hinv Hk Hs) as (o' & Hp' & _). eauto.
Qed.

(** The block list of the planner, for a tensor of the prefix. *)
Lemma planned_at st k n e :
  plan_inv g order st ->
  (forall n, n ∈ order -> entries p !! output_name n = reuse_plan st !! output_name n) ->
  (k < m)%nat -> execution_order g !! k = Some n -> entries p !! output_name n = Some e ->
  allocated_blocks st !! length (filter sized (take k order)) = Some (plan_block n (offset e)) /\
  e = plan_entry n (offset e).
Proof.
  intros Hinv Hent Hkm Hk He. pose proof (order_elem _ _ Hkm Hk) as Hn.
  destruct (plan_entry_facts n e Hn He) as (Hs & _).
  destruct (planned_node g _ st k n Hinv (order_lookup _ _ Hkm Hk) Hs) as (o & Hp & Hb).
  rewrite (Hent n Hn), Hp in He. injection He as <-. done.
Qed.

Lemma plan_pair_sound i j ni nj ei ej :
  (i < j < m)%nat -> execution_order g !! i = Some ni -> execution_order g !! j = Some nj ->
  entries p !! output_name ni = Some ei -> entries p !! output_name nj = Some ej ->
  read_from g (output_name ni) j ->
  ranges_disjoint ei ej \/ (is_Some (aliases g !! output_name nj) /\ same_ranges ei ej).
Proof.
  intros Hij Hi Hj Hei Hej Hr. destruct plan_prefix_inv as (st & Hinv & Hent).
  destruct (planned_at st i ni ei Hinv Hent ltac:(lia) Hi Hei) as [Hbi Hei'].
  destruct (planned_at st j nj ej Hinv Hent ltac:(lia) Hj Hej) as [Hbj Hej'].
  destruct (plan_entry_facts ni ei (order_elem i ni ltac:(lia) Hi) Hei) as (Hsi & Hpi & _).
  destruct (plan_entry_facts nj ej (order_elem j nj ltac:(lia) Hj) Hej) as (Hsj & Hpj & _).
  pose proof (sized_position_lt order i j ni ltac:(lia) (order_lookup i ni ltac:(lia) Hi) Hsi) as Hlt.
  destruct (read_from_death _ _ _ Hr) as (d & Hd & Hjd).
  destruct (pv_pairs _ _ _ Hinv _ _ _ _ (Z.of_nat j) Hlt Hbi Hbj) as [Hdis|[Hal Hsame]].
  - cbn. by apply births_of_lookup.
  - unfold is_live. cbn. rewrite Hd. cbn. by apply Z.leb_le.
  - left. unfold ranges_disjoint. rewrite Hpi, Hpj. exact Hdis.
  - right. split; [done|]. destruct Hsame as [H1 H2]; cbn in *. split; lia.
Qed.

(** The blocks searched for a tensor are the earlier tensors still read. *)
Lemma live_blocks_spec st j b :
  plan_inv g order st ->
  (forall n, n ∈ order -> entries p !! output_name n = reuse_plan st !! output_name n) ->
  (j < m)%nat ->
  b ∈ live_blocks_at_birth (deaths_of g) (Z.of_nat (size (births_of g))) (Z.of_nat j)
        (take (length (filter sized (take j order))) (allocated_blocks st)) <->
  exists i ni ei, (i < j)%nat /\ execution_order g !! i = Some ni /\
    entries p !! output_name ni = Some ei /\ read_from g (output_name ni) j /\
    b = plan_block ni (offset ei).
Proof.
  intros Hinv Hent Hj. unfold live_blocks_at_birth.
  rewrite sort_by_start_perm, list_elem_of_In, filter_In, <-list_elem_of_In. split.
  - intros [[q Hq]%list_elem_of_lookup_1 Hl]. apply lookup_take_Some in Hq as [Hq Hqj].
    destruct (Forall2_lookup_r _ _ _ _ _ (pv_blocks _ _ _ Hinv) Hq) as (n & Hn & off & _ & -> & He).
    assert (Hnp : n ∈ take j order).
    { rewrite <-(take_drop j order), filter_app, lookup_app_l in Hn by lia.
      apply list_elem_of_lookup_2, list_elem_of_filter in Hn. tauto. }
    apply list_elem_of_lookup_1 in Hnp as [i Hi]. apply lookup_take_Some in Hi as [Hi Hij].
    assert (Hio : n ∈ order) by (by eapply list_elem_of_lookup_2).
    apply lookup_take_Some in Hi as [Hi _].
    exists i, n, (plan_entry n off). rewrite (Hent n Hio). do 3 (split; [done|]). split; [|done].
    unfold is_live in Hl. cbn in Hl.
    destruct (deaths_of_some g n Hwf) as [d Hd]; [by eapply list_elem_of_lookup_2|].
    rewrite Hd in Hl. apply Z.leb_le in Hl. cbn in Hl.
    eapply death_read_from; eauto. by eapply list_elem_of_lookup_2.
  - intros (i & ni & ei & Hij & Hi & Hei & Hr & ->).
    destruct (planned_at st i ni ei Hinv Hent ltac:(lia) Hi Hei) as [Hbi _].
    destruct (plan_entry_facts ni ei (order_elem i ni ltac:(lia) Hi) Hei) as (Hs & _). split.
    + eapply (list_elem_of_lookup_2 _ (length (filter sized (take i order)))).
      rewrite lookup_take_lt; [done|].
      eapply sized_position_lt; [done| |done]. by apply order_lookup; [lia|].
    + destruct (read_from_death _ _ _ Hr) as (d & Hd & Hjd). unfold is_live. cbn.
      rewrite Hd. cbn. by apply Z.leb_le.
Qed.

(** Where the plan puts a tensor that is not an alias. *)
Lemma plan_first_fit j nj ej :
  (j < m)%nat -> execution_order g !! j = Some nj -> entries p !! output_name nj = Some ej ->
  aliases g !! output_name nj = None ->
  (offset ej = 0 \/ exists i ni ei, (i < j)%nat /\ execution_order g !! i = Some ni /\
     entries p !! output_name ni = Some ei /\ read_from g (output_name ni) j /\
     offset ej = offset ei + psize ei) /\
  (forall o, 0 <= o ->
     (forall i ni ei, (i < j)%nat -> execution_order g !! i = Some ni ->
        entries p !! output_name ni = Some ei -> read_from g (output_name ni) j ->
        offset ei + psize ei <= o \/ o + psize ej <= offset ei) ->
     offset ej <= o).
Proof.
  intros Hjm Hj Hej Hal. destruct plan_prefix_inv as (st & Hinv & Hent).
  destruct (planned_at st j nj ej Hinv Hent Hjm Hj Hej) as [Hbj Heq].
  pose proof (pv_fit _ _ _ Hinv _ _ (Z.of_nat j) Hbj) as Hfit. cbn in Hfit.
  rewrite Z.add_simpl_l in Hfit. specialize (Hfit (births_of_lookup _ _ _ Hwf Hj) Hal).
  destruct (plan_entry_facts nj ej (order_elem j nj Hjm Hj) Hej) as (_ & Hpj & _).
  pose proof (fun b => live_blocks_spec st j b Hinv Hent Hjm) as Hsp.
  set (live := live_blocks_at_birth _ _ _ _) in Hfit, Hsp.
  assert (Hfacts : forall i ni ei, (i < j)%nat -> execution_order g !! i = Some ni ->
            entries p !! output_name ni = Some ei -> psize ei = node_size ni /\ 0 <= offset ei /\ sized ni).
  { intros i ni ei Hij Hi Hei. destruct (plan_entry_facts ni ei (order_elem i ni ltac:(lia) Hi) Hei). tauto. }
  assert (Hnn : forall b, b ∈ live -> 0 <= end_ b).
  { intros b (i & ni & ei & Hij & Hi & Hei & _ & ->)%Hsp.
    destruct (Hfacts _ _ _ Hij Hi Hei) as (? & ? & Hs). unfold sized in Hs. cbn. lia. }
  rewrite Hfit, Hpj. split.
  - destruct (first_fit_origin _ (node_size nj) Hnn) as [->|(b & (i & ni & ei & Hij & Hi & Hei & ? & ->)%Hsp & ->)];
      [by left|right]. exists i, ni, ei. cbn. destruct (Hfacts _ _ _ Hij Hi Hei) as (-> & _). auto.
  - intros o Ho Hcl. apply first_fit_lowest; [done|done|].
    intros b (i & ni & ei & Hij & Hi & Hei & ? & ->)%Hsp. cbn.
    destruct (Hfacts _ _ _ Hij Hi Hei) as (<- & _). eapply Hcl; eauto.
Qed.
End plan_facts.

(** The total covers every entry and is attained. *)
Section plan_total.
Context (g : CustomGraph) (p : ReusePlan).
Context (Hwf : graph_wf g) (Hplan : _generate_optimized_reuse_plan g = Ok p).
Context (Hc : alias_compatible g p).

Lemma plan_full_inv :
  exists st, plan_inv g (execution_order g) st /\
    p = {| entries := reuse_plan st; total_buffer_size_bytes := max_offset st |}.
Proof.
  destruct (generate_plan_ok _ _ Hplan) as (stf & Hst & Hp). pose proof Hc as Hc'.
  rewrite Hp in Hc'. destruct (plan_state_inv g Hwf stf _ Hst Hc') as (st & Hinv & Hl).
  rewrite drop_ge in Hl by done. rewrite take_ge in Hinv by done. injection Hl as ->. eauto.
Qed.

Lemma plan_entry_node name e :
  entries p !! name = Some e ->
  exists k n, execution_order g !! k = Some n /\ output_name n = name /\ e = plan_entry n (offset e).
Proof.
  destruct plan_full_inv as (st & Hinv & ->). cbn. intros H.
  destruct (pv_plan _ _ _ Hinv _ _ H) as (n & o & Hn & Hs & -> & Ho & ->).
  apply list_elem_of_lookup_1 in Hn as [k Hk]. eauto.
Qed.

Lemma plan_entry_in_pool name e :
  entries p !! name = Some e ->
  0 <= offset e /\ 0 < psize e /\ offset e + psize e <= total_buffer_size_bytes p.
Proof.
  destruct plan_full_inv as (st & Hinv & ->). cbn. intros H.
  destruct (pv_plan _ _ _ Hinv _ _ H) as (n & o & Hn & Hs & -> & Ho & ->). cbn.
  split; [done|]. split; [done|].
  apply list_elem_of_lookup_1 in Hn as [k Hk].
  destruct (planned_node g _ st k n Hinv Hk Hs) as (o' & Hp' & Hb).
  rewrite H in Hp'. injection Hp' as ->. rewrite (pv_max _ _ _ Hinv).
  apply zmax_list_ge. apply list_elem_of_fmap. exists (plan_block n o'). split; [done|].
  by eapply list_elem_of_lookup_2.
Qed.

Lemma plan_total_max :
  0 <= total_buffer_size_bytes p /\
  (0 < total_buffer_size_bytes p ->
   exists name e, entries p !! name = Some e /\ offset e + psize e = total_buffer_size_bytes p).
Proof.
  destruct plan_full_inv as (st & Hinv & ->). cbn.
  rewrite (pv_max _ _ _ Hinv). split; [apply zmax_list_ge_default|]. intros Hpos.
  destruct (zmax_list_in 0 (end_ <$> allocated_blocks st)) as [Heq|Hin]; [lia|].
  apply list_elem_of_fmap in Hin as (b & Heq & Hb). rewrite Heq.
  apply list_elem_of_lookup_1 in Hb as [k Hk].
  destruct (pv_block_node g _ _ _ _ Hinv Hk) as (n & o & _ & _ & _ & -> & Hp'). cbn.
  exists (output_name n), (plan_entry n o). split; [done|reflexivity].
Qed.

Lemma plan_full_exists n :
  n ∈ execution_order g -> sized n ->
  exists e, entries p !! output_name n = Some e /\ psize e = node_size n.
Proof.
  intros Hn. eapply plan_entry_exists; [done|done|exact Hc|]. by rewrite take_ge.
Qed.
End plan_total.

(** C9. The reuse plan never lets a tensor overwrite one that is still needed:
    in a well-formed graph whose aliases are compatible, take a tensor [ni] that
    some node at position [j] or later reads, and the tensor [nj] produced at
    position [j > i].  Their memory ranges are disjoint, except when [nj] is an
    alias that takes over exactly the range of [ni]. *)
Theorem reuse_plan_sound g p i j ni nj ei ej :
  graph_wf g -> _generate_optimized_reuse_plan g = Ok p -> alias_compatible g p ->
  (i < j)%nat -> execution_order g !! i = Some ni -> execution_order g !! j = Some nj ->
  entries p !! output_name ni = Some ei -> entries p !! output_name nj = Some ej ->
  read_from g (output_name ni) j ->
  ranges_disjoint ei ej \/ (is_Some (aliases g !! output_name nj) /\ same_ranges ei ej).
Proof.
  intros Hwf Hp Hc Hij Hi Hj. eapply plan_pair_sound; eauto.
  split; [done|by eapply lookup_lt_Some].
Qed.

(** The planner is a first-fit allocator: a tensor that is not an alias is
    placed at the lowest address at which its range avoids every earlier tensor
    that is still read at or after its production, and that address is 0 or
    the end of such a tensor. *)
Theorem first_fit_placement g p j nj ej :
  graph_wf g -> _generate_optimized_reuse_plan g = Ok p -> alias_compatible g p ->
  execution_order g !! j = Some nj -> entries p !! output_name nj = Some ej ->
  aliases g !! output_name nj = None ->
  (offset ej = 0 \/ exists i ni ei, (i < j)%nat /\ execution_order g !! i = Some ni /\
     entries p !! output_name ni = Some ei /\ read_from g (output_name ni) j /\
     offset ej = offset ei + psize ei) /\
  (forall o, 0 <= o ->
     (forall i ni ei, (i < j)%nat -> execution_order g !! i = Some ni ->
        entries p !! output_name ni = Some ei -> read_from g (output_name ni) j ->
        offset ei + psize ei <= o \/ o + psize ej <= offset ei) ->
     offset ej <= o).
Proof.
  intros Hwf Hp Hc Hj. eapply plan_first_fit; eauto. by eapply lookup_lt_Some.
Qed.

(** An alias-free graph satisfies the alias condition. *)
Lemma alias_free_compatible g p : aliases g = ∅ -> alias_compatible g p.
Proof. intros Hal i j ni nj ei ej _ _ _ _ _ [t Ht]. by rewrite Hal, lookup_empty in Ht. Qed.

(** The pool size that the plan asks for is exactly what its entries use:
    every entry lies within [0, total), every tensor of positive size has an
    entry of its size, and a positive total is reached by some entry. *)
Theorem reuse_plan_bounds g p :
  graph_wf g -> _generate_optimized_reuse_plan g = Ok p -> alias_compatible g p ->
  (forall name e, entries p !! name = Some e ->
     0 <= offset e /\ 0 < psize e /\ offset e + psize e <= total_buffer_size_bytes p) /\
  (forall n, n ∈ execution_order g -> 0 < node_size n ->
     exists e, entries p !! output_name n = Some e /\ psize e = node_size n) /\
  (0 < total_buffer_size_bytes p ->
     exists name e, entries p !! name = Some e /\ offset e + psize e = total_buffer_size_bytes p).
Proof.
  intros Hwf Hp Hc. split; [|split].
  - by apply (plan_entry_in_pool g).
  - by apply (plan_full_exists g).
  - by apply (plan_total_max g).
Qed.

(** ** Liveness, peak and timeline *)

(** Every input of a node is the output of an earlier node. *)
Definition topological (g : CustomGraph) : Prop :=
  forall k n x, execution_order g !! k = Some n -> x ∈ input_names n ->
    exists i m, (i < k)%nat /\ execution_order g !! i = Some m /\ output_name m = x.

(** The live set carried backwards contains only names that a remaining node
    reads, and the map entry of a node is the live set after it. *)
Lemma liveness_fold order x :
  x ∈ snd (foldr liveness_step (∅, ∅) order) ->
  exists k r, order !! k = Some r /\ x ∈ input_names r.
Proof.
  induction order as [|n order IH]; cbn; [set_solver|].
  destruct (foldr liveness_step (∅, ∅) order) as [lm live]. cbn in *.
  intros [Hin|[Hin _]%elem_of_difference]%elem_of_union.
  - exists 0%nat, n. split; [done|]. by apply elem_of_list_to_set in Hin.
  - destruct (IH Hin) as (k & r & Hk & Hr). by exists (S k), r.
Qed.

Lemma liveness_lookup order k n :
  NoDup (names order) -> order !! k = Some n ->
  fst (foldr liveness_step (∅, ∅) order) !! output_name n =
  Some (snd (foldr liveness_step (∅, ∅) (drop (S k) order))).
Proof.
  revert k. induction order as [|m order IH]; intros k Hnd Hk; [done|].
  cbn in Hnd. apply NoDup_cons in Hnd as [Hm Hnd]. cbn [foldr].
  destruct k as [|k]; cbn in Hk.
  - injection Hk as ->. cbn. rewrite drop_0.
    destruct (foldr liveness_step (∅, ∅) order) as [lm live]. cbn. by rewrite lookup_insert_eq.
  - specialize (IH k Hnd Hk). cbn.
    destruct (foldr liveness_step (∅, ∅) order) as [lm live] eqn:E. cbn in *.
    rewrite lookup_insert_ne; [done|]. intros Heq. apply Hm. rewrite Heq.
    apply list_elem_of_fmap. exists n. split; [done|]. by eapply list_elem_of_lookup_2.
Qed.

Lemma liveness_fold_reader order x k r :
  x ∉ names order -> order !! k = Some r -> x ∈ input_names r ->
  x ∈ snd (foldr liveness_step (∅, ∅) order).
Proof.
  revert k. induction order as [|n order IH]; intros k Hx Hk Hr; [done|]. cbn in *.
  apply not_elem_of_cons in Hx as [Hne Hx].
  destruct (foldr liveness_step (∅, ∅) order) as [lm live]. cbn in *.
  destruct k as [|k]; cbn in Hk.
  - injection Hk as ->. apply elem_of_union_l. by apply elem_of_list_to_set.
  - specialize (IH k Hx Hk Hr). set_solver.
Qed.

Lemma live_after_read g k n x :
  graph_wf g -> execution_order g !! k = Some n ->
  x ∈ default ∅ (_analyze_liveness g !! output_name n) -> read_from g x (S k).
Proof.
  intros Hwf Hk. unfold _analyze_liveness.
  rewrite (liveness_lookup _ k) by (done || apply Hwf). cbn.
  intros (k' & r & Hk' & Hr)%liveness_fold. exists (S k + k')%nat, r.
  split; [lia|]. rewrite lookup_drop in Hk'. auto.
Qed.

Lemma read_live_after g i k m n :
  graph_wf g -> (i <= k)%nat ->
  execution_order g !! i = Some m -> execution_order g !! k = Some n ->
  read_from g (output_name m) (S k) ->
  output_name m ∈ default ∅ (_analyze_liveness g !! output_name n).
Proof.
  intros Hwf Hik Hi Hk (k' & r & Hk' & Hr & Hin). unfold _analyze_liveness.
  rewrite (liveness_lookup _ k) by (done || apply Hwf). cbn.
  apply (liveness_fold_reader _ _ (k' - S k)%nat r); [| |done].
  - intros (m' & Heq & [k2 Hk2]%list_elem_of_lookup_1)%list_elem_of_fmap.
    rewrite lookup_drop in Hk2. pose proof (wf_nodup _ Hwf) as Hnd.
    assert (i = S k + k2)%nat; [|lia].
    eapply (NoDup_lookup _ _ _ (output_name m) Hnd); unfold names; rewrite list_lookup_fmap.
    + by rewrite Hi.
    + by rewrite Hk2, Heq.
  - rewrite lookup_drop, <-Hr. f_equal. lia.
Qed.

(** The liveness analysis is exact: a tensor produced at or before position
    [k] is reported live after [k] precisely when a node after [k] reads it. *)
Theorem liveness_exact g i k m n :
  graph_wf g -> (i <= k)%nat ->
  execution_order g !! i = Some m -> execution_order g !! k = Some n ->
  output_name m ∈ default ∅ (_analyze_liveness g !! output_name n) <->
  read_from g (output_name m) (S k).
Proof.
  intros Hwf Hik Hi Hk. split; [by apply live_after_read|by apply (read_live_after g i k m n)].
Qed.

Lemma sum_sizes_ok g l s :
  sum_sizes g l = Ok s ->
  exists ns, Forall2 (fun x n => nodes g !! x = Some n) l ns /\ s = zsum (node_size <$> ns).
Proof.
  revert s. induction l as [|x l IH]; cbn; intros s H; inv_res H.
  - exists []. split; [constructor|done].
  - destruct (IH _ H1) as (ns & HF & ->). exists (v :: ns). split; [by constructor|done].
Qed.

Lemma peak_loop_max g lm order acc p :
  peak_loop g lm order acc = Ok p ->
  peak_memory_bytes acc <= peak_memory_bytes p /\
  (forall n m, n ∈ order -> memory_at g lm n = Ok m -> m <= peak_memory_bytes p) /\
  (peak_memory_bytes p = peak_memory_bytes acc \/
   exists n, n ∈ order /\ memory_at g lm n = Ok (peak_memory_bytes p)).
Proof.
  revert acc. induction order as [|n order IH]; intros acc H; cbn in H.
  - injection H as ->. split; [lia|]. split; [intros ? ? Hn; by apply elem_of_nil in Hn|by left].
  - inv_res H. destruct (IH _ H) as (H1 & H2 & H3).
    destruct (Z.ltb_spec (peak_memory_bytes acc) v); cbn in *.
    + split; [lia|]. split.
      * intros m s [->|Hm]%elem_of_cons Hs; [|by eapply H2]. rewrite H0 in Hs. injection Hs as <-. lia.
      * right. destruct H3 as [->|(m & Hm & Hs)]; [exists n; split; [left|done]|exists m; split; [by right|done]].
    + split; [lia|]. split.
      * intros m s [->|Hm]%elem_of_cons Hs; [|by eapply H2]. rewrite H0 in Hs. injection Hs as <-. lia.
      * destruct H3 as [->|(m & Hm & Hs)]; [by left|right; exists m; split; [by right|done]].
Qed.

Lemma timeline_loop_spec g lm peak i order tl :
  timeline_loop g lm peak i order = Ok tl ->
  Forall2 (fun n e => memory_at g lm n = Ok (total_memory e) /\ node_name e = output_name n /\
             occupancy_ratio e = if 0 <? peak then (inject_Z (total_memory e) / inject_Z peak)%Q else 0%Q)
    order tl.
Proof.
  revert i tl. induction order as [|n order IH]; intros i tl H; cbn in H.
  - injection H as <-. constructor.
  - inv_res H. subst tl. constructor; [done|]. by eapply IH.
Qed.

(** The timeline and the peak agree: no entry of the memory timeline
    exceeds the reported peak, its occupancy ratio is at most one, and the peak
    is attained by an entry (the peak node's step has ratio one). *)
Theorem timeline_peak g a :
  analyze g = Ok a ->
  (forall e, e ∈ a_memory_timeline a ->
     total_memory e <= a_peak_memory a /\ (occupancy_ratio e <= 1)%Q) /\
  (exists e, e ∈ a_memory_timeline a /\ total_memory e = a_peak_memory a /\
     (occupancy_ratio e == 1)%Q) /\
  0 < a_peak_memory a.
Proof.
  unfold analyze. intros H. inv_res H. subst a. cbn.
  unfold _calculate_peak_memory in H0. destruct (peak_loop_max _ _ _ _ _ H0) as (Hp1 & H4 & H5).
  pose proof (timeline_loop_spec _ _ _ _ _ _ H1) as Htl. cbn in Hp1.
  assert (Hpos : 0 < peak_memory_bytes v).
  { destruct (Z_lt_le_dec 0 (peak_memory_bytes v)); [done|]. exfalso.
    assert (Hn : forall order acc p, peak_loop g (_analyze_liveness g) order acc = Ok p ->
              peak_memory_bytes p <= 0 -> 0 <= peak_memory_bytes acc -> peak_node p = peak_node acc).
    { induction order as [|n order IH]; intros acc p Hp Hle Hacc; cbn in Hp; [injection Hp as ->; done|].
      inv_res Hp. pose proof (peak_loop_max _ _ _ _ _ Hp) as (Hge & _).
      rewrite (IH _ _ Hp Hle); destruct (Z.ltb_spec (peak_memory_bytes acc) v3); cbn in *; done || lia. }
    specialize (Hn _ _ _ H0 ltac:(lia)). cbn in Hn. rewrite Hn in H3 by (cbn; lia). done. }
  destruct (Z.ltb_spec 0 (peak_memory_bytes v)); [|lia].
  assert (Hall : forall e, e ∈ v0 -> total_memory e <= peak_memory_bytes v /\
            occupancy_ratio e = (inject_Z (total_memory e) / inject_Z (peak_memory_bytes v))%Q).
  { intros e [k Hk]%list_elem_of_lookup_1.
    destruct (Forall2_lookup_r _ _ _ _ _ Htl Hk) as (n & Hn & Hm & _ & Hocc). split; [|done].
    eapply H4; [by eapply list_elem_of_lookup_2|done]. }
  split; [|split; [|done]].
  - intros e He. destruct (Hall e He) as [Hle ->]. split; [done|].
    apply Qle_shift_div_r; [by change 0%Q with (inject_Z 0); rewrite <-Zlt_Qlt|].
    rewrite Qmult_1_l. by rewrite <-Zle_Qle.
  - destruct H5 as [Heq|(n & [k Hk]%list_elem_of_lookup_1 & Hn)]; [cbn in Heq; lia|].
    destruct (Forall2_lookup_l _ _ _ _ _ Htl Hk) as (e & He & Hm & _).
    assert (Hin : e ∈ v0) by (by eapply list_elem_of_lookup_2).
    rewrite Hn in Hm. injection Hm as Hm.
    exists e. split; [done|]. split; [done|]. destruct (Hall e Hin) as [_ ->]. rewrite Hm. unfold Qdiv. apply Qmult_inv_r.
    intros Hz. rewrite <-Hm in Hz. unfold Qeq in Hz. cbn in Hz. lia.
Qed.

(** *** The plan is at least as large as the peak *)

Definition block_len (b : Block) : Z := end_ b - start b.

Lemma sorted_disjoint_sum bs L T :
  StronglySorted start_le bs -> Forall proper_block bs -> NoDup bs ->
  (forall a b, a ∈ bs -> b ∈ bs -> a <> b -> blocks_disjoint a b) ->
  L <= T -> (forall b, b ∈ bs -> L <= start b /\ end_ b <= T) ->
  zsum (block_len <$> bs) <= T - L.
Proof.
  intros Hs Hp Hnd Hd. revert L.
  induction bs as [|b bs IH]; intros L HLT Hb; cbn; [lia|].
  apply StronglySorted_inv in Hs as [Hs Hle]. apply Forall_cons in Hp as [Hpb Hp].
  apply NoDup_cons in Hnd as [Hnb Hnd]. rewrite Forall_forall in Hle, Hp.
  unfold proper_block, start_le in *.
  assert (L <= start b /\ end_ b <= T) by (apply Hb; left).
  assert (zsum (block_len <$> bs) <= T - end_ b).
  { apply IH; [done|by apply Forall_forall|done| |lia|].
    - intros a c Ha Hc. apply Hd; by right.
    - intros c Hc. specialize (Hle c Hc). specialize (Hp c Hc).
      assert (L <= start c /\ end_ c <= T) by (apply Hb; by right).
      destruct (Hd b c) as [|]; [by left|by right|congruence|lia|lia]. }
  unfold block_len at 1. lia.
Qed.

Lemma disjoint_sum bs T :
  Forall proper_block bs -> NoDup bs ->
  (forall a b, a ∈ bs -> b ∈ bs -> a <> b -> blocks_disjoint a b) ->
  0 <= T -> (forall b, b ∈ bs -> end_ b <= T) ->
  zsum (block_len <$> bs) <= T.
Proof.
  intros Hp Hnd Hd HT Hb. rewrite <-(sort_by_start_perm bs), <-(Z.sub_0_r T).
  apply sorted_disjoint_sum.
  - apply sort_by_start_sorted.
  - by rewrite sort_by_start_perm.
  - by rewrite sort_by_start_perm.
  - intros a b. rewrite sort_by_start_perm. apply Hd.
  - done.
  - intros b. rewrite sort_by_start_perm. intros Hin. split; [|by apply Hb].
    rewrite Forall_forall in Hp. specialize (Hp b Hin). unfold proper_block in Hp. lia.
Qed.

(** A tensor live after [k] was produced at or before [k] and is read later. *)
Lemma liveness_fold_fresh order x :
  x ∈ snd (foldr liveness_step (∅, ∅) order) ->
  exists k r, order !! k = Some r /\ x ∈ input_names r /\
    forall i m, (i < k)%nat -> order !! i = Some m -> output_name m <> x.
Proof.
  induction order as [|n order IH]; cbn; [set_solver|].
  destruct (foldr liveness_step (∅, ∅) order) as [lm live]. cbn in *.
  intros [Hin|[Hin Hne]%elem_of_difference]%elem_of_union.
  - exists 0%nat, n. split; [done|]. apply elem_of_list_to_set in Hin. split; [done|lia].
  - destruct (IH Hin) as (k & r & Hk & Hr & Hf). exists (S k), r. split; [done|]. split; [done|].
    intros [|i] m Hi Hm; cbn in Hm; [injection Hm as ->; set_solver|]. apply (Hf i m); [lia|done].
Qed.

Lemma live_set_member g k n x :
  graph_wf g -> topological g -> execution_order g !! k = Some n ->
  x ∈ live_set_at (_analyze_liveness g) n ->
  exists i m, (i <= k)%nat /\ execution_order g !! i = Some m /\ output_name m = x /\
    (i = k \/ read_from g x (S k)).
Proof.
  intros Hwf Htop Hk. unfold live_set_at.
  intros [Hin| ->%elem_of_singleton]%elem_of_union; [|exists k, n; auto].
  pose proof (live_after_read _ _ _ _ Hwf Hk Hin) as Hrd. unfold _analyze_liveness in Hin.
  rewrite (liveness_lookup _ k) in Hin by (done || apply Hwf). cbn in Hin.
  apply liveness_fold_fresh in Hin as (k' & r & Hk' & Hr & Hf). rewrite lookup_drop in Hk'.
  destruct (Htop _ _ _ Hk' Hr) as (i & m & Hi & Hm & Hx). exists i, m.
  destruct (decide (i <= k)%nat) as [Hle|Hgt]; [auto|]. exfalso.
  apply (Hf (i - S k)%nat m); [lia| |done]. rewrite lookup_drop, <-Hm. f_equal. lia.
Qed.

(** Two tensors that are in memory at the same node have disjoint ranges. *)
Lemma live_pair_ordered g p k n i j mi mj ei ej :
  graph_wf g -> aliases g = ∅ -> _generate_optimized_reuse_plan g = Ok p ->
  (i < j)%nat -> (j <= k)%nat -> execution_order g !! k = Some n ->
  execution_order g !! i = Some mi -> execution_order g !! j = Some mj ->
  (i = k \/ read_from g (output_name mi) (S k)) ->
  entries p !! output_name mi = Some ei -> entries p !! output_name mj = Some ej ->
  ranges_disjoint ei ej.
Proof.
  intros Hwf Hal Hp Hij Hjk Hk Hi Hj [->|(k' & r & Hk' & Hr & Hin)] Hei Hej; [lia|].
  destruct (plan_pair_sound g p _ Hwf Hp (alias_free_compatible g p Hal) i j mi mj ei ej)
    as [?|[[t Ht] _]]; try done.
  - split; [done|by eapply lookup_lt_Some].
  - exists k', r. split; [lia|done].
  - by rewrite Hal, lookup_empty in Ht.
Qed.

Lemma live_pair_disjoint g p k n ma mb :
  graph_wf g -> topological g -> aliases g = ∅ ->
  _generate_optimized_reuse_plan g = Ok p -> execution_order g !! k = Some n ->
  output_name ma ∈ live_set_at (_analyze_liveness g) n ->
  output_name mb ∈ live_set_at (_analyze_liveness g) n ->
  ma ∈ execution_order g -> mb ∈ execution_order g -> sized ma -> sized mb ->
  let blk m := plan_block m (default 0 (offset <$> entries p !! output_name m)) in
  blk ma <> blk mb -> blocks_disjoint (blk ma) (blk mb).
Proof.
  intros Hwf Htop Hal Hp Hk Ha Hb Hma Hmb Hsa Hsb blk Hne.
  pose proof (alias_free_compatible g p Hal) as Hc.
  destruct (plan_full_exists g p Hwf Hp Hc _ Hma Hsa) as (ea & Hea & Hpa).
  destruct (plan_full_exists g p Hwf Hp Hc _ Hmb Hsb) as (eb & Heb & Hpb).
  assert (Hn : forall i m m', execution_order g !! i = Some m -> output_name m = output_name m' ->
             m' ∈ execution_order g -> execution_order g !! i = Some m').
  { intros i m m' Hi Heq Hm'.
    assert (nodes g !! output_name m = Some m) by (apply Hwf; split; [by eapply list_elem_of_lookup_2|done]).
    assert (nodes g !! output_name m' = Some m') by (by apply Hwf). congruence. }
  destruct (live_set_member _ _ _ _ Hwf Htop Hk Ha) as (i & m1 & Hik & Hi & Hx1 & Hr1).
  destruct (live_set_member _ _ _ _ Hwf Htop Hk Hb) as (j & m2 & Hjk & Hj & Hx2 & Hr2).
  pose proof (Hn _ _ _ Hi Hx1 Hma) as Hi'. pose proof (Hn _ _ _ Hj Hx2 Hmb) as Hj'.
  unfold blk, blocks_disjoint. rewrite Hea, Heb. cbn. rewrite <-Hpa, <-Hpb.
  destruct (lt_eq_lt_dec i j) as [[Hlt| ->]|Hlt].
  - by eapply (live_pair_ordered g p k n i j).
  - exfalso. apply Hne. congruence.
  - apply or_comm. by eapply (live_pair_ordered g p k n j i).
Qed.

Lemma zsum_sized_le (ns : list OpNode) :
  zsum (node_size <$> ns) <= zsum (node_size <$> filter sized ns).
Proof.
  induction ns as [|n ns IH]; [done|]. rewrite filter_cons.
  case_decide as Hs; unfold sized in Hs; cbn in *; lia.
Qed.

(** The tensors live at one node occupy disjoint ranges of the pool. *)
Lemma live_set_fits g p k n s :
  graph_wf g -> topological g -> aliases g = ∅ ->
  _generate_optimized_reuse_plan g = Ok p ->
  execution_order g !! k = Some n -> memory_at g (_analyze_liveness g) n = Ok s ->
  s <= total_buffer_size_bytes p.
Proof.
  intros Hwf Htop Hal Hp Hk Hmem. pose proof (alias_free_compatible g p Hal) as Hc.
  destruct (sum_sizes_ok _ _ _ Hmem) as (ns & HF & ->). clear Hmem.
  assert (Hin : forall m, m ∈ ns -> m ∈ execution_order g /\
            output_name m ∈ live_set_at (_analyze_liveness g) n).
  { intros m [i Hi]%list_elem_of_lookup_1.
    destruct (Forall2_lookup_r _ _ _ _ _ HF Hi) as (x & Hx & Hm).
    apply (wf_nodes _ Hwf) in Hm as [Hm <-]. split; [done|].
    apply elem_of_elements. by eapply list_elem_of_lookup_2. }
  assert (Hnd : NoDup (output_name <$> ns)).
  { replace (output_name <$> ns) with (elements (live_set_at (_analyze_liveness g) n)).
    - apply NoDup_elements.
    - clear Hin. induction HF as [|x m l ns Hx HF IH]; [done|]. cbn. rewrite IH. f_equal.
      by apply (wf_nodes _ Hwf) in Hx as [_ <-]. }
  set (blk m := plan_block m (default 0 (offset <$> entries p !! output_name m))).
  assert (Hblk : forall m, m ∈ ns -> sized m -> exists e, entries p !! output_name m = Some e /\
            start (blk m) = offset e /\ end_ (blk m) = offset e + psize e).
  { intros m Hm Hs. destruct (plan_full_exists g p Hwf Hp Hc m (proj1 (Hin m Hm)) Hs) as (e & He & Hse).
    exists e. unfold blk. rewrite He. cbn. rewrite Hse. auto. }
  etrans; [apply zsum_sized_le|].
  replace (zsum (node_size <$> filter sized ns)) with (zsum (block_len <$> (blk <$> filter sized ns))).
  2:{ rewrite <-list_fmap_compose. f_equal. apply list_fmap_ext. intros ? m _.
      unfold blk, block_len. cbn. lia. }
  apply disjoint_sum.
  - apply Forall_fmap, Forall_forall. intros m [Hs Hm]%list_elem_of_filter.
    destruct (Hblk m Hm Hs) as (e & He & H1 & H2).
    pose proof (plan_entry_in_pool g p Hwf Hp Hc _ _ He).
    unfold proper_block, compose. rewrite H1, H2. lia.
  - apply (NoDup_fmap_1 tensor_name). rewrite <-list_fmap_compose. cbn.
    eapply sublist_NoDup; [exact Hnd|]. apply fmap_sublist, sublist_filter.
  - intros a b (ma & -> & [Hsa Hma]%list_elem_of_filter)%list_elem_of_fmap
      (mb & -> & [Hsb Hmb]%list_elem_of_filter)%list_elem_of_fmap Hne.
    by eapply live_pair_disjoint with (n := n) (ma := ma) (mb := mb); eauto; apply Hin.
  - by eapply plan_total_max.
  - intros b (m & -> & [Hs Hm]%list_elem_of_filter)%list_elem_of_fmap.
    destruct (Hblk m Hm Hs) as (e & He & H1 & H2). rewrite H2.
    by eapply plan_entry_in_pool.
Qed.

(** The first-fit plan always provides for the reported peak: in an
    alias-free graph whose nodes only read earlier tensors, the total buffer
    size is at least the peak memory of the liveness analysis. *)
Theorem plan_covers_peak g a :
  graph_wf g -> topological g -> aliases g = ∅ -> analyze g = Ok a ->
  a_peak_memory a <= total_buffer_size_bytes (a_reuse_plan a).
Proof.
  intros Hwf Htop Hal H. unfold analyze in H. inv_res H. subst a. cbn.
  pose proof (alias_free_compatible g v1 Hal) as Hc.
  destruct (peak_loop_max _ _ _ _ _ H0) as (_ & _ & [->|(n & [k Hk]%list_elem_of_lookup_1 & Hmem)]).
  - cbn. by eapply plan_total_max.
  - by eapply live_set_fits.
Qed.

(** ** When the planner raises *)

(** An alias target precedes its source in the execution order. *)
Definition alias_ordered (g : CustomGraph) : Prop :=
  forall j nj t, execution_order g !! j = Some nj -> 0 < node_size nj ->
    aliases g !! output_name nj = Some t ->
    exists i ni, (i < j)%nat /\ execution_order g !! i = Some ni /\ output_name ni = t.

(** The plan holds exactly the sized tensors processed so far. *)
Definition plan_dom (pre : list OpNode) (st : PlanState) : Prop :=
  forall name, is_Some (reuse_plan st !! name) <->
    exists n, n ∈ pre /\ sized n /\ output_name n = name.

Lemma plan_step_dom g births deaths lb pre n st st' :
  plan_dom pre st -> plan_step g births deaths lb n st = Ok st' -> plan_dom (pre ++ [n]) st'.
Proof.
  intros Hd. unfold plan_step. destruct (Z.ltb_spec 0 (node_size n)); cbn.
  - intros Hst. inv_res Hst. subst st'. intros name. cbn. rewrite lookup_insert_is_Some, (Hd name).
    setoid_rewrite elem_of_app. setoid_rewrite list_elem_of_singleton.
    unfold sized. destruct (decide (output_name n = name)); naive_solver.
  - intros [= <-] name. rewrite (Hd name). setoid_rewrite elem_of_app.
    setoid_rewrite list_elem_of_singleton. unfold sized. naive_solver lia.
Qed.

Lemma plan_step_succeeds g pre n suf st :
  graph_wf g -> execution_order g = pre ++ n :: suf -> plan_dom pre st ->
  (exists st', plan_step g (births_of g) (deaths_of g) (Z.of_nat (size (births_of g))) n st = Ok st') <->
  (forall t, sized n -> aliases g !! output_name n = Some t ->
     exists m, m ∈ pre /\ output_name m = t).
Proof.
  intros Hwf Ho Hd. unfold plan_step, sized.
  assert (Hj : execution_order g !! length pre = Some n)
    by (rewrite Ho; by rewrite lookup_app_r, Nat.sub_diag by lia).
  rewrite (births_of_lookup _ _ _ Hwf Hj). destruct (Z.ltb_spec 0 (node_size n)); cbn.
  2:{ split; [intros _ t ?; lia|eauto]. }
  destruct (aliases g !! output_name n) as [t|] eqn:Hal; cbn; [|naive_solver].
  destruct (reuse_plan st !! t) as [e|] eqn:He; cbn.
  - split; [|eauto]. intros _ t' _ [= <-].
    destruct (proj1 (Hd t)) as (m & ? & ? & ?); eauto.
  - split; [intros [? [=]]|]. intros Hex. exfalso. destruct (Hex t) as (m & Hm & Hmt); [done..|].
    destruct (wf_alias _ Hwf _ _ Hal) as (ns & nt & Hs & Ht & Hle).
    assert (Hm' : nodes g !! t = Some m).
    { apply Hwf. split; [|done]. rewrite Ho. apply elem_of_app. by left. }
    assert (Hn' : nodes g !! output_name n = Some n).
    { apply Hwf. split; [|done]. by eapply list_elem_of_lookup_2. }
    assert (is_Some (reuse_plan st !! t)) as [? ?]; [|congruence].
    apply Hd. exists m. unfold sized. replace nt with m in * by congruence.
    replace ns with n in * by congruence. split; [done|]. split; [lia|done].
Qed.

Lemma plan_loop_succeeds g suf pre st :
  graph_wf g -> execution_order g = pre ++ suf -> plan_dom pre st ->
  (exists st', plan_loop g (births_of g) (deaths_of g) (Z.of_nat (size (births_of g))) suf st = Ok st') <->
  (forall j nj t, (length pre <= j)%nat -> execution_order g !! j = Some nj -> sized nj ->
     aliases g !! output_name nj = Some t ->
     exists i ni, (i < j)%nat /\ execution_order g !! i = Some ni /\ output_name ni = t).
Proof.
  intros Hwf. revert pre st. induction suf as [|n suf IH]; intros pre st Ho Hd; cbn.
  - split; [|eauto]. intros _ j nj t Hj Hn. apply lookup_lt_Some in Hn.
    rewrite Ho, app_nil_r in Hn. lia.
  - pose proof (plan_step_succeeds g pre n suf st Hwf Ho Hd) as Hstep.
    assert (Hpre : forall m, m ∈ pre <-> exists i, (i < length pre)%nat /\ execution_order g !! i = Some m).
    { intros m. rewrite Ho. split.
      - intros [i Hi]%list_elem_of_lookup_1. exists i. split; [by eapply lookup_lt_Some|].
        by apply lookup_app_l_Some.
      - intros (i & Hi & Hm). rewrite lookup_app_l in Hm by done. by eapply list_elem_of_lookup_2. }
    assert (Hj : execution_order g !! length pre = Some n)
      by (rewrite Ho; by rewrite lookup_app_r, Nat.sub_diag by lia).
    split.
    + intros [st' H]. inv_res H. intros j nj t Hlen Hnj Hs Hal.
      destruct (decide (j = length pre)) as [->|Hne].
      * rewrite Hj in Hnj. injection Hnj as <-.
        destruct (proj1 Hstep ltac:(eauto) t Hs Hal) as (m & (i & ? & ?)%Hpre & ?). eauto.
      * eapply (IH (pre ++ [n]) v); [by rewrite <-app_assoc|by eapply plan_step_dom|eauto| |done..].
        rewrite length_app. cbn. lia.
    + intros Hall. destruct (proj2 Hstep) as [st1 Hst1].
      { intros t Hs Hal. destruct (Hall _ _ _ (Nat.le_refl _) Hj Hs Hal) as (i & ni & ? & ? & ?).
        exists ni. split; [apply Hpre; eauto|done]. }
      rewrite Hst1. cbn. apply (IH (pre ++ [n])); [by rewrite <-app_assoc|by eapply plan_step_dom|].
      intros j nj t. rewrite length_app. cbn. intros ?. apply Hall. lia.
Qed.

Lemma plan_total_iff g :
  graph_wf g -> (exists p, _generate_optimized_reuse_plan g = Ok p) <-> alias_ordered g.
Proof.
  intros Hwf. unfold _generate_optimized_reuse_plan, plan_state.
  pose proof (plan_loop_succeeds g (execution_order g) [] init_plan Hwf eq_refl) as Hl.
  assert (Hd : plan_dom [] init_plan).
  { intros name. cbn. rewrite lookup_empty. split; [by intros []|].
    intros (n & Hn & _). by apply elem_of_nil in Hn. }
  specialize (Hl Hd). unfold alias_ordered, sized in *. split.
  - intros [p H]. inv_res H. intros j nj t Hj. eapply (proj1 Hl); eauto. cbn. lia.
  - intros Hal. destruct (proj2 Hl) as [st Hst]; [eauto|]. rewrite Hst. cbn. eauto.
Qed.

(** The planner produces a plan for a well-formed graph exactly when every
    alias (of a non-empty tensor) points to a tensor produced earlier; in the
    other case it raises [RuntimeError] and nothing else. *)
Theorem planner_total g :
  graph_wf g ->
  ((exists p, _generate_optimized_reuse_plan g = Ok p) <-> alias_ordered g) /\
  (forall e, _generate_optimized_reuse_plan g = Raise e -> e = RuntimeError).
Proof.
  intros Hwf. split; [by apply plan_total_iff|].
  unfold _generate_optimized_reuse_plan, plan_state.
  assert (Hgen : forall suf pre st e, execution_order g = pre ++ suf ->
    plan_loop g (births_of g) (deaths_of g) (Z.of_nat (size (births_of g))) suf st = Raise e ->
    e = RuntimeError).
  { induction suf as [|n suf IH]; intros pre st e Ho; cbn; [done|].
    destruct (plan_step _ _ _ _ n st) as [st1|e1] eqn:Hs; cbn.
    - apply (IH (pre ++ [n])). by rewrite <-app_assoc.
    - intros [= <-]. unfold plan_step in Hs. destruct (negb _); [done|].
      rewrite (births_of_lookup g (length pre) n Hwf) in Hs
        by (rewrite Ho; by rewrite lookup_app_r, Nat.sub_diag by lia).
      cbn in Hs. destruct (aliases g !! _); [|done]. destruct (reuse_plan st !! _); cbn in Hs; congruence. }
  intros e. destruct (plan_loop _ _ _ _ _ _) eqn:Hl; cbn; [done|].
  intros [= <-]. by eapply (Hgen _ []).
Qed.
