(* ===== verification/ChunkComponents.v ===== *)
(** * Component peaks ([analyze_components_from_timeline] of [diffusion_tools])

    The online searcher splits the memory timeline by node name into the fixed
    part (attention, norms), the MLP or MoE part and the logits.  This file also
    relates a timeline entry to the positions of the tensors in memory. *)

From stdpp Require Import base gmap strings list sorting fin_maps fin_sets.
From Stdlib Require Import ZArith Lia QArith.
From S2P Require Import Prelude GraphBuilder MemoryPlan.
Open Scope string_scope.
Open Scope list_scope.
Open Scope Z_scope.

(** ** Python string operations *)

(** [needle in hay] *)
Definition py_contains (needle hay : string) : bool :=
  match String.index 0 needle hay with Some _ => true | None => false end.

(** [str.lower] on ASCII. *)
Definition ascii_lower (c : Ascii.ascii) : Ascii.ascii :=
  let n := Ascii.nat_of_ascii c in
  if ((65 <=? n) && (n <=? 90))%nat then Ascii.ascii_of_nat (n + 32) else c.
Fixpoint str_lower (s : string) : string :=
  match s with
  | EmptyString => EmptyString
  | String c s => String (ascii_lower c) (str_lower s)
  end.

(** ** Component peaks *)

Record Components : Type := {
  fixed_peak : Z; mlp_peak : Z; logits_peak : Z; total_peak : Z }.

Definition mlp_keywords : list string :=
  ["mlp"; "moe"; "cache"; "x_gate"; "x_up"; "x_mlp"; "barrier"].

(** Which component a node counts for. *)
Inductive Part : Set := PFixed | PMlp | PLogits.
#[export] Instance Part_eq_dec : EqDecision Part.
Proof. solve_decision. Defined.

Definition part_of (node_name : string) : Part :=
  if py_contains "logits" node_name then PLogits
  else if existsb (fun kw => py_contains kw node_name) mlp_keywords then PMlp
  else PFixed.

Definition component_step (c : Components) (step : TimelineEntry) : Components :=
  let m := total_memory step in
  let total := Z.max (total_peak c) m in
  match part_of (node_name step) with
  | PLogits => {| fixed_peak := fixed_peak c; mlp_peak := mlp_peak c;
                  logits_peak := Z.max (logits_peak c) m; total_peak := total |}
  | PMlp => {| fixed_peak := fixed_peak c; mlp_peak := Z.max (mlp_peak c) m;
               logits_peak := logits_peak c; total_peak := total |}
  | PFixed => {| fixed_peak := Z.max (fixed_peak c) m; mlp_peak := mlp_peak c;
                 logits_peak := logits_peak c; total_peak := total |}
  end.

(** [analyze_components_from_timeline] *)
Definition analyze_components_from_timeline (timeline : list TimelineEntry) : Components :=
  fold_left component_step timeline
    {| fixed_peak := 0; mlp_peak := 0; logits_peak := 0; total_peak := 0 |}.

(** ** Graph skeletons *)

(** The names and inputs of a graph, without the tensor sizes. *)
Definition skeleton (l : list OpNode) : list (string * list string) :=
  (fun n => (output_name n, input_names n)) <$> l.

Definition reads_b (sk : list (string * list string)) (name : string) (j : nat) : bool :=
  existsb (fun r => existsb (String.eqb name) (snd r)) (drop j sk).

(** The positions before [j] whose tensor is read at [j] or later. *)
Definition live_idx (sk : list (string * list string)) (j : nat) : list nat :=
  List.filter (fun i => match sk !! i with Some (n, _) => reads_b sk n j | None => false end) (seq 0 j).

Lemma read_from_b g name j :
  read_from g name j <-> reads_b (skeleton (execution_order g)) name j = true.
Proof.
  unfold reads_b, read_from. rewrite existsb_exists. split.
  - intros (k & r & Hjk & Hk & Hin). exists (output_name r, input_names r). split.
    + apply list_elem_of_In, list_elem_of_lookup. exists (k - j)%nat.
      rewrite lookup_drop. unfold skeleton. rewrite list_lookup_fmap.
      replace (j + (k - j))%nat with k by lia. by rewrite Hk.
    + apply existsb_exists. exists name. split; [by apply list_elem_of_In|apply String.eqb_refl].
  - intros (r & [k Hk]%list_elem_of_In%list_elem_of_lookup & (x & Hx & ->%String.eqb_eq)%existsb_exists).
    rewrite lookup_drop in Hk. unfold skeleton in Hk. rewrite list_lookup_fmap in Hk.
    destruct (execution_order g !! (j + k)%nat) as [n|] eqn:Hn; [|done]. injection Hk as <-.
    exists (j + k)%nat, n. split; [lia|]. split; [done|]. by apply list_elem_of_In.
Qed.

Lemma live_idx_elem g i j n :
  (i < j)%nat -> execution_order g !! i = Some n ->
  i ∈ live_idx (skeleton (execution_order g)) j <-> read_from g (output_name n) j.
Proof.
  intros Hij Hi. unfold live_idx. rewrite list_elem_of_In, filter_In, in_seq, read_from_b.
  unfold skeleton at 1. rewrite list_lookup_fmap, Hi. cbn. split; [tauto|]. split; [lia|done].
Qed.

(** The positions of the tensors in memory while node [k] runs. *)
Definition mem_idx (sk : list (string * list string)) (k : nat) : list nat :=
  List.filter (fun i => Nat.eqb i k ||
    match sk !! i with Some (n, _) => reads_b sk n (S k) | None => false end) (seq 0 (S k)).

Definition size_at (l : list OpNode) (i : nat) : Z :=
  match l !! i with Some n => node_size n | None => 0 end.
Definition mem_at (l : list OpNode) (k : nat) : Z := zsum (size_at l <$> mem_idx (skeleton l) k).

(** Every input is the output of an earlier node. *)
Definition topo_b (sk : list (string * list string)) : bool :=
  forallb (fun k => match sk !! k with
    | Some (_, ins) => forallb (fun x => existsb (String.eqb x) (take k sk).*1) ins
    | None => true end) (seq 0 (length sk)).

Lemma topo_b_topological g : topo_b (skeleton (execution_order g)) = true -> topological g.
Proof.
  unfold topo_b. rewrite forallb_forall. intros H k n x Hk Hx.
  assert (Hlt : (k < length (skeleton (execution_order g)))%nat).
  { unfold skeleton. rewrite length_fmap. by eapply lookup_lt_Some. }
  specialize (H k). rewrite in_seq in H. specialize (H ltac:(lia)).
  unfold skeleton in H. rewrite list_lookup_fmap, Hk in H. cbn in H.
  rewrite forallb_forall in H. apply list_elem_of_In in Hx. specialize (H x Hx).
  apply existsb_exists in H as (y & Hy & ->%String.eqb_eq). apply list_elem_of_In in Hy.
  apply list_elem_of_fmap in Hy as ([y' ins] & -> & Hy). cbn.
  apply list_elem_of_lookup_1 in Hy as [i Hi]. apply lookup_take_Some in Hi as [Hi Hik].
  rewrite list_lookup_fmap in Hi. destruct (execution_order g !! i) as [m|] eqn:Hm; [|done].
  cbn in Hi. injection Hi as <- <-. eauto.
Qed.

Lemma mem_idx_elem g i k n :
  execution_order g !! i = Some n ->
  i ∈ mem_idx (skeleton (execution_order g)) k <->
  (i <= k)%nat /\ (i = k \/ read_from g (output_name n) (S k)).
Proof.
  intros Hi. unfold mem_idx. rewrite list_elem_of_In, filter_In, in_seq, orb_true_iff, Nat.eqb_eq, read_from_b.
  unfold skeleton at 1. rewrite list_lookup_fmap, Hi. cbn. split; [intros [? ?]|intros [? ?]]; split; lia || done.
Qed.

(** The memory at a node is the sum of the sizes at these positions. *)
Lemma memory_at_idx g k n s :
  graph_wf g -> topological g -> execution_order g !! k = Some n ->
  memory_at g (_analyze_liveness g) n = Ok s -> s = mem_at (execution_order g) k.
Proof.
  intros Hwf Htop Hk (ns & HF & ->)%sum_sizes_ok. unfold mem_at.
  set (idx := mem_idx (skeleton (execution_order g)) k).
  set (f i := default n (execution_order g !! i)).
  assert (Hlt : forall i, i ∈ idx -> exists m, execution_order g !! i = Some m /\ f i = m).
  { intros i Hi. destruct (execution_order g !! i) as [m|] eqn:Hm; [exists m; unfold f; by rewrite Hm|].
    unfold idx, mem_idx in Hi. apply list_elem_of_In, filter_In in Hi as [Hs Hb]. apply in_seq in Hs.
    apply lookup_ge_None in Hm. apply lookup_lt_Some in Hk. lia. }
  assert (Hperm : ns ≡ₚ f <$> idx).
  { apply NoDup_Permutation.
    - apply (NoDup_fmap_1 output_name).
      replace (output_name <$> ns) with (elements (live_set_at (_analyze_liveness g) n));
        [apply NoDup_elements|].
      clear Hlt. induction HF as [|x m l ns Hx HF IH]; [done|]. cbn. rewrite IH. f_equal.
      by apply (wf_nodes _ Hwf) in Hx as [_ <-].
    - apply NoDup_fmap_2_strong.
      + intros i j Hi Hj Hf. destruct (Hlt i Hi) as (a & Ha & Hfa), (Hlt j Hj) as (b & Hb & Hfb).
        pose proof (wf_nodup _ Hwf) as Hnd. eapply (NoDup_lookup _ _ _ (output_name a) Hnd);
          unfold names; rewrite list_lookup_fmap; [by rewrite Ha|by rewrite Hb; cbn; congruence].
      + apply NoDup_ListNoDup, List.NoDup_filter, NoDup_ListNoDup, NoDup_seq.
    - assert (Hin : forall m, m ∈ ns <-> m ∈ execution_order g /\ output_name m ∈ live_set_at (_analyze_liveness g) n).
      { intros m. split.
        - intros [i Hi]%list_elem_of_lookup_1. destruct (Forall2_lookup_r _ _ _ _ _ HF Hi) as (x & Hx & Hm).
          apply (wf_nodes _ Hwf) in Hm as [? <-]. split; [done|]. apply elem_of_elements. by eapply list_elem_of_lookup_2.
        - intros [Hm Hl]. apply elem_of_elements, list_elem_of_lookup_1 in Hl as [i Hi].
          destruct (Forall2_lookup_l _ _ _ _ _ HF Hi) as (m' & Hm' & Hx).
          assert (nodes g !! output_name m = Some m) by (by apply (wf_nodes _ Hwf)).
          assert (m' = m) as -> by congruence. by eapply list_elem_of_lookup_2. }
      intros m. rewrite Hin, list_elem_of_fmap. split.
      + intros [Hm Hl]. destruct (live_set_member g k n _ Hwf Htop Hk Hl) as (i & m' & Hik & Hi & Hname & Hor).
        assert (Hmm : m' = m).
        { assert (nodes g !! output_name m = Some m) by (by apply (wf_nodes _ Hwf)).
          assert (nodes g !! output_name m' = Some m') by (apply (wf_nodes _ Hwf); split; [by eapply list_elem_of_lookup_2|done]).
          congruence. }
        subst m'. exists i. unfold f. rewrite Hi. split; [done|]. by apply (mem_idx_elem g i k m Hi).
      + intros (i & Hmi & Hi). destruct (Hlt i Hi) as (m' & Hm & Hfm). rewrite Hfm in Hmi. subst m'. split; [by eapply list_elem_of_lookup_2|].
        apply (mem_idx_elem g i k m Hm) in Hi as [Hik Hor]. unfold live_set_at. apply elem_of_union.
        destruct Hor as [Heq|Hr]; [right|left].
        { rewrite Heq in Hm. assert (output_name m = output_name n) as -> by congruence. by apply elem_of_singleton. }
        by apply (read_live_after g i k m n). }
  rewrite Hperm. rewrite <-list_fmap_compose. f_equal. apply list_fmap_ext.
  intros j i Hj. destruct (Hlt i) as (m & Hm & Hf); [by eapply list_elem_of_lookup_2|].
  unfold compose, size_at. by rewrite Hf, Hm.
Qed.
