(* ===== verification/BlockGraphs.v ===== *)
(** * The model block graphs ([define_*_block_graph*] of [graph_builder.py])

    One transformer block of LLaDA, Dream and LLaDA-MoE as a tensor graph over
    the number of tokens, whole and with the MLP (or MoE) and the logits cut
    into chunks.  The graphs are the inputs of [MemoryAnalyzer]. *)

From stdpp Require Import base gmap strings list sorting fin_maps fin_sets.
From Stdlib Require Import ZArith Lia QArith.
From S2P Require Import Prelude GraphBuilder MemoryPlan.
Open Scope string_scope.
Open Scope list_scope.
Open Scope Z_scope.

(** [define_llada_block_graph] *)
Definition define_llada_block_graph (P O : Z) : res CustomGraph :=
  let graph := empty_graph in
  let N := P in
  let D_MODEL := 4096 in
  let INTERMEDIATE_SIZE := 12288 in
  let NUM_HEAD_Q := 32 in
  let NUM_HEAD_KV := 32 in
  let HEAD_DIM := D_MODEL / NUM_HEAD_Q in
  let VOCAB_SIZE := 126464 in
  let DTYPE := bfloat16 in
  let! graph := add_op graph "x" "placeholder" [] [N; D_MODEL] DTYPE in
  let! graph := add_op graph "x_normed" "attn_norm" ["x"] [N; D_MODEL] DTYPE in
  let! graph := add_op graph "q" "q_proj" ["x_normed"] [N; D_MODEL] DTYPE in
  let! graph := add_op graph "k" "k_proj" ["x_normed"] [N; NUM_HEAD_KV * HEAD_DIM] DTYPE in
  let! graph := add_op graph "v" "v_proj" ["x_normed"] [N; NUM_HEAD_KV * HEAD_DIM] DTYPE in
  let! graph := add_op graph "att_tmp" "attention_op" ["q"; "k"; "v"] [N; NUM_HEAD_Q; HEAD_DIM] DTYPE in
  let! graph := add_op graph "att_out" "o_proj" ["att_tmp"] [N; D_MODEL] DTYPE in
  let! graph := add_op graph "x_normed_2" "fused_add_rms_norm_out" ["x"; "att_out"] [N; D_MODEL] DTYPE in
  let! graph := add_op graph "residual" "fused_add_rms_norm_out" ["x"; "att_out"] [N; D_MODEL] DTYPE in
  let! graph := add_op graph "mlp_x" "ff_proj" ["x_normed_2"] [N; INTERMEDIATE_SIZE] DTYPE in
  let! graph := add_op graph "mlp_x_up" "up_proj" ["x_normed_2"] [N; INTERMEDIATE_SIZE] DTYPE in
  let! graph := add_op graph "mlp_gated" "mul_op" ["mlp_x"; "mlp_x_up"] [N; INTERMEDIATE_SIZE] DTYPE in
  let! graph := add_op graph "mlp_output" "ff_out" ["mlp_gated"] [N; D_MODEL] DTYPE in
  let! graph := add_op graph "final_output" "add_residual_2" ["residual"; "mlp_output"] [N; D_MODEL] DTYPE in
  let! graph := add_alias graph "final_output" "x" in
  let! graph := add_op graph "logits" "get_logits" ["final_output"] [O; VOCAB_SIZE] DTYPE in
  Ok graph.

(** [define_dream_block_graph] *)
Definition define_dream_block_graph (N M : Z) : res CustomGraph :=
  let graph := empty_graph in
  let HIDDEN_SIZE := 3584 in
  let INTERMEDIATE_SIZE := 18944 in
  let NUM_HEADS := 28 in
  let NUM_KV_HEADS := 4 in
  let HEAD_DIM := HIDDEN_SIZE / NUM_HEADS in
  let VOCAB_SIZE := 152064 in
  let DTYPE := bfloat16 in
  let! graph := add_op graph "x" "placeholder" [] [N; HIDDEN_SIZE] DTYPE in
  let! graph := add_op graph "x_normed" "input_layernorm" ["x"] [N; HIDDEN_SIZE] DTYPE in
  let! graph := add_op graph "q" "q_proj" ["x_normed"] [N; NUM_HEADS * HEAD_DIM] DTYPE in
  let! graph := add_op graph "k" "k_proj" ["x_normed"] [N; NUM_KV_HEADS * HEAD_DIM] DTYPE in
  let! graph := add_op graph "v" "v_proj" ["x_normed"] [N; NUM_KV_HEADS * HEAD_DIM] DTYPE in
  let! graph := add_op graph "att_out_var" "flash_attention" ["q"; "k"; "v"] [N; NUM_HEADS; HEAD_DIM] DTYPE in
  let! graph := add_op graph "att_out" "o_proj" ["att_out_var"] [N; HIDDEN_SIZE] DTYPE in
  let! graph := add_op graph "x_normed_2" "fused_add_rms_norm_out" ["x"; "att_out"] [N; HIDDEN_SIZE] DTYPE in
  let! graph := add_op graph "residual" "fused_add_rms_norm_out" ["x"; "att_out"] [N; HIDDEN_SIZE] DTYPE in
  let! graph := add_op graph "x_gate" "gate_proj" ["x_normed_2"] [N; INTERMEDIATE_SIZE] DTYPE in
  let! graph := add_op graph "x_up" "up_proj" ["x_normed_2"] [N; INTERMEDIATE_SIZE] DTYPE in
  let! graph := add_op graph "x_mlp" "mul_gate" ["x_gate"; "x_up"] [N; INTERMEDIATE_SIZE] DTYPE in
  let! graph := add_op graph "mlp_output" "down_proj" ["x_mlp"] [N; HIDDEN_SIZE] DTYPE in
  let! graph := add_op graph "final_output" "add_residual_2" ["residual"; "mlp_output"] [N; HIDDEN_SIZE] DTYPE in
  let! graph := add_alias graph "final_output" "x" in
  let! graph := add_op graph "logits" "lm_head" ["final_output"] [M; VOCAB_SIZE] DTYPE in
  Ok graph.

(** [define_dream_block_graph_chunkwise] *)
Definition define_dream_block_graph_chunkwise (N M : Z)
    (chunk_logits chunk_mlp : bool) (num_chunks_logits num_chunks_mlp : Z) : res CustomGraph :=
  let graph := empty_graph in
  let HIDDEN_SIZE := 3584 in
  let INTERMEDIATE_SIZE := 18944 in
  let NUM_HEADS := 28 in
  let NUM_KV_HEADS := 4 in
  let HEAD_DIM := HIDDEN_SIZE / NUM_HEADS in
  let VOCAB_SIZE := 152064 in
  let DTYPE := bfloat16 in
  let! max_chunk_size_mlp := if chunk_mlp then py_div (N + num_chunks_mlp - 1) num_chunks_mlp else Ok N in
  let! max_chunk_size_logits := if chunk_logits then py_div (M + num_chunks_logits - 1) num_chunks_logits else Ok M in
  let! graph := add_op graph "x" "placeholder" [] [N; HIDDEN_SIZE] DTYPE in
  let! graph := add_op graph "x_normed" "input_layernorm" ["x"] [N; HIDDEN_SIZE] DTYPE in
  let! graph := add_op graph "q" "q_proj" ["x_normed"] [N; NUM_HEADS * HEAD_DIM] DTYPE in
  let! graph := add_op graph "k" "k_proj" ["x_normed"] [N; NUM_KV_HEADS * HEAD_DIM] DTYPE in
  let! graph := add_op graph "v" "v_proj" ["x_normed"] [N; NUM_KV_HEADS * HEAD_DIM] DTYPE in
  let! graph := add_op graph "att_out_var" "flash_attention" ["q"; "k"; "v"] [N; NUM_HEADS; HEAD_DIM] DTYPE in
  let! graph := add_op graph "att_out" "o_proj" ["att_out_var"] [N; HIDDEN_SIZE] DTYPE in
  let! graph := add_op graph "x_normed_2" "fused_add_rms_norm_out" ["x"; "att_out"] [N; HIDDEN_SIZE] DTYPE in
  let! graph := add_op graph "residual" "fused_add_rms_norm_out" ["x"; "att_out"] [N; HIDDEN_SIZE] DTYPE in
  let! graph :=
    if chunk_mlp then
      let! graph := add_op graph "x_gate" "gate_proj" ["x_normed_2"] [max_chunk_size_mlp; INTERMEDIATE_SIZE] DTYPE in
      let! graph := add_op graph "x_up" "up_proj" ["x_normed_2"] [max_chunk_size_mlp; INTERMEDIATE_SIZE] DTYPE in
      let! graph := add_op graph "x_mlp" "mul_gate" ["x_gate"; "x_up"] [max_chunk_size_mlp; INTERMEDIATE_SIZE] DTYPE in
      let! graph := add_op graph "mlp_output" "down_proj" ["x_mlp"] [N; HIDDEN_SIZE] DTYPE in
      let! graph := add_op graph "mlp_loop_hazard_barrier" "barrier" ["x_gate"; "x_up"; "x_mlp"; "mlp_output"] [1] int8 in
      let! graph := add_op graph "xnorm2_barrier" "barrier" ["x_normed_2"] [1] int8 in
      Ok graph
    else
      let! graph := add_op graph "x_gate" "gate_proj" ["x_normed_2"] [N; INTERMEDIATE_SIZE] DTYPE in
      let! graph := add_op graph "x_up" "up_proj" ["x_normed_2"] [N; INTERMEDIATE_SIZE] DTYPE in
      let! graph := add_op graph "x_mlp" "mul_gate" ["x_gate"; "x_up"] [N; INTERMEDIATE_SIZE] DTYPE in
      let! graph := add_op graph "mlp_output" "down_proj" ["x_mlp"] [N; HIDDEN_SIZE] DTYPE in
      Ok graph in
  let! graph := add_op graph "final_output" "add_residual_2" ["residual"; "mlp_output"] [N; HIDDEN_SIZE] DTYPE in
  let! graph := add_alias graph "final_output" "x" in
  let! graph := add_op graph "logits" "lm_head" ["final_output"] [max_chunk_size_logits; VOCAB_SIZE] DTYPE in
  Ok graph.

(** [define_llada_moe_block_graph] *)
Definition define_llada_moe_block_graph (N M : Z) : res CustomGraph :=
  let graph := empty_graph in
  let HIDDEN_SIZE := 2048 in
  let NUM_HEADS := 16 in
  let NUM_KV_HEADS := 16 in
  let HEAD_DIM := HIDDEN_SIZE / NUM_HEADS in
  let EXPERT_INTERMEDIATE := 1024 in
  let TOPK := 8 in
  let VOCAB_SIZE := 157184 in
  let DTYPE := bfloat16 in
  let! graph := add_op graph "x" "placeholder" [] [N; HIDDEN_SIZE] DTYPE in
  let! graph := add_op graph "x_normed" "input_layernorm" ["x"] [N; HIDDEN_SIZE] DTYPE in
  let! graph := add_op graph "q" "q_proj" ["x_normed"] [N; NUM_HEADS * HEAD_DIM] DTYPE in
  let! graph := add_op graph "k" "k_proj" ["x_normed"] [N; NUM_KV_HEADS * HEAD_DIM] DTYPE in
  let! graph := add_op graph "v" "v_proj" ["x_normed"] [N; NUM_KV_HEADS * HEAD_DIM] DTYPE in
  let! graph := add_op graph "att_out_var" "flash_attention" ["q"; "k"; "v"] [N; NUM_HEADS * HEAD_DIM] DTYPE in
  let! graph := add_op graph "att_out" "o_proj" ["att_out_var"] [N; HIDDEN_SIZE] DTYPE in
  let! graph := add_op graph "x_normed_2" "fused_add_rms_norm_out" ["x"; "att_out"] [N; HIDDEN_SIZE] DTYPE in
  let! graph := add_op graph "residual" "fused_add_rms_norm_out" ["x"; "att_out"] [N; HIDDEN_SIZE] DTYPE in
  let! graph := add_op graph "moe_cache1" "moe_gemm1" ["x_normed_2"] [N; TOPK; EXPERT_INTERMEDIATE * 2] DTYPE in
  let! graph := add_op graph "moe_cache2" "silu_and_mul" ["moe_cache1"] [N * TOPK; EXPERT_INTERMEDIATE] DTYPE in
  let! graph := add_op graph "moe_cache3" "moe_gemm2" ["moe_cache2"] [N; TOPK; HIDDEN_SIZE] DTYPE in
  let! graph := add_op graph "moe_output" "moe_weighted_sum" ["moe_cache3"] [N; HIDDEN_SIZE] DTYPE in
  let! graph := add_op graph "final_output" "add_residual_2" ["residual"; "moe_output"] [N; HIDDEN_SIZE] DTYPE in
  let! graph := add_alias graph "final_output" "x" in
  let! graph := add_op graph "logits" "lm_head" ["final_output"] [M; VOCAB_SIZE] DTYPE in
  Ok graph.

(** [define_llada_moe_block_graph_chunkwise] *)
Definition define_llada_moe_block_graph_chunkwise (N M : Z)
    (chunk_logits chunk_moe : bool) (num_chunks_logits num_chunks_moe : Z) : res CustomGraph :=
  let graph := empty_graph in
  let HIDDEN_SIZE := 2048 in
  let NUM_HEADS := 16 in
  let NUM_KV_HEADS := 16 in
  let HEAD_DIM := HIDDEN_SIZE / NUM_HEADS in
  let EXPERT_INTERMEDIATE := 1024 in
  let TOPK := 8 in
  let VOCAB_SIZE := 157184 in
  let DTYPE := bfloat16 in
  let! max_chunk_size_moe := if chunk_moe then py_div (N + num_chunks_moe - 1) num_chunks_moe else Ok N in
  let! max_chunk_size_logits := if chunk_logits then py_div (M + num_chunks_logits - 1) num_chunks_logits else Ok M in
  let! graph := add_op graph "x" "placeholder" [] [N; HIDDEN_SIZE] DTYPE in
  let! graph := add_op graph "x_normed" "input_layernorm" ["x"] [N; HIDDEN_SIZE] DTYPE in
  let! graph := add_op graph "q" "q_proj" ["x_normed"] [N; NUM_HEADS * HEAD_DIM] DTYPE in
  let! graph := add_op graph "k" "k_proj" ["x_normed"] [N; NUM_KV_HEADS * HEAD_DIM] DTYPE in
  let! graph := add_op graph "v" "v_proj" ["x_normed"] [N; NUM_KV_HEADS * HEAD_DIM] DTYPE in
  let! graph := add_op graph "att_out_var" "flash_attention" ["q"; "k"; "v"] [N; NUM_HEADS * HEAD_DIM] DTYPE in
  let! graph := add_op graph "att_out" "o_proj" ["att_out_var"] [N; HIDDEN_SIZE] DTYPE in
  let! graph := add_op graph "x_normed_2" "fused_add_rms_norm_out" ["x"; "att_out"] [N; HIDDEN_SIZE] DTYPE in
  let! graph := add_op graph "residual" "fused_add_rms_norm_out" ["x"; "att_out"] [N; HIDDEN_SIZE] DTYPE in
  let! graph :=
    if chunk_moe then
      let! graph := add_op graph "moe_cache1" "moe_gemm1" ["x_normed_2"] [max_chunk_size_moe; TOPK; EXPERT_INTERMEDIATE * 2] DTYPE in
      let! graph := add_op graph "moe_cache2" "silu_and_mul" ["moe_cache1"] [max_chunk_size_moe * TOPK; EXPERT_INTERMEDIATE] DTYPE in
      let! graph := add_op graph "moe_cache3" "moe_gemm2" ["moe_cache2"] [max_chunk_size_moe; TOPK; HIDDEN_SIZE] DTYPE in
      let! graph := add_op graph "moe_output" "moe_weighted_sum" ["moe_cache3"] [N; HIDDEN_SIZE] DTYPE in
      let! graph := add_op graph "moe_loop_hazard_barrier" "barrier" ["moe_cache1"; "moe_cache2"; "moe_cache3"; "moe_output"] [1] int8 in
      let! graph := add_op graph "xnorm2_barrier" "barrier" ["x_normed_2"] [1] int8 in
      Ok graph
    else
      let! graph := add_op graph "moe_cache1" "moe_gemm1" ["x_normed_2"] [N; TOPK; EXPERT_INTERMEDIATE * 2] DTYPE in
      let! graph := add_op graph "moe_cache2" "silu_and_mul" ["moe_cache1"] [N * TOPK; EXPERT_INTERMEDIATE] DTYPE in
      let! graph := add_op graph "moe_cache3" "moe_gemm2" ["moe_cache2"] [N; TOPK; HIDDEN_SIZE] DTYPE in
      let! graph := add_op graph "moe_output" "moe_weighted_sum" ["moe_cache3"] [N; HIDDEN_SIZE] DTYPE in
      Ok graph in
  let! graph := add_op graph "final_output" "add_residual_2" ["residual"; "moe_output"] [N; HIDDEN_SIZE] DTYPE in
  let! graph := add_alias graph "final_output" "x" in
  let! graph := add_op graph "logits" "lm_head" ["final_output"] [max_chunk_size_logits; VOCAB_SIZE] DTYPE in
  Ok graph.

(** [define_llada_block_graph_chunkwise] *)
Definition define_llada_block_graph_chunkwise (P O : Z)
    (chunk_logits chunk_mlp : bool) (num_chunks_logits num_chunks_mlp : Z) : res CustomGraph :=
  let graph := empty_graph in
  let N := P in
  let D_MODEL := 4096 in
  let INTERMEDIATE_SIZE := 12288 in
  let NUM_HEAD_Q := 32 in
  let NUM_HEAD_KV := 32 in
  let HEAD_DIM := D_MODEL / NUM_HEAD_Q in
  let VOCAB_SIZE := 126464 in
  let DTYPE := bfloat16 in
  let! max_chunk_size_mlp := if chunk_mlp then py_div (N + num_chunks_mlp - 1) num_chunks_mlp else Ok N in
  let! max_chunk_size_logits := if chunk_logits then py_div (O + num_chunks_logits - 1) num_chunks_logits else Ok O in
  let! graph := add_op graph "x" "placeholder" [] [N; D_MODEL] DTYPE in
  let! graph := add_op graph "x_normed" "attn_norm" ["x"] [N; D_MODEL] DTYPE in
  let! graph := add_op graph "q" "q_proj" ["x_normed"] [N; D_MODEL] DTYPE in
  let! graph := add_op graph "k" "k_proj" ["x_normed"] [N; NUM_HEAD_KV * HEAD_DIM] DTYPE in
  let! graph := add_op graph "v" "v_proj" ["x_normed"] [N; NUM_HEAD_KV * HEAD_DIM] DTYPE in
  let! graph := add_op graph "att_tmp" "attention_op" ["q"; "k"; "v"] [N; NUM_HEAD_Q; HEAD_DIM] DTYPE in
  let! graph := add_op graph "att_out" "o_proj" ["att_tmp"] [N; D_MODEL] DTYPE in
  let! graph := add_op graph "x_normed_2" "fused_add_rms_norm_out" ["x"; "att_out"] [N; D_MODEL] DTYPE in
  let! graph := add_op graph "residual" "fused_add_rms_norm_out" ["x"; "att_out"] [N; D_MODEL] DTYPE in
  let! graph :=
    if chunk_mlp then
      let! graph := add_op graph "mlp_x" "ff_proj" ["x_normed_2"] [max_chunk_size_mlp; INTERMEDIATE_SIZE] DTYPE in
      let! graph := add_op graph "mlp_x_up" "up_proj" ["x_normed_2"] [max_chunk_size_mlp; INTERMEDIATE_SIZE] DTYPE in
      let! graph := add_op graph "mlp_gated" "mul_op" ["mlp_x"; "mlp_x_up"] [max_chunk_size_mlp; INTERMEDIATE_SIZE] DTYPE in
      let! graph := add_op graph "mlp_output" "ff_out" ["mlp_gated"] [N; D_MODEL] DTYPE in
      let! graph := add_op graph "mlp_loop_hazard_barrier" "barrier" ["mlp_x"; "mlp_x_up"; "mlp_gated"; "mlp_output"] [1] int8 in
      let! graph := add_op graph "xnorm2_barrier" "barrier" ["x_normed_2"] [1] int8 in
      Ok graph
    else
      let! graph := add_op graph "mlp_x" "ff_proj" ["x_normed_2"] [N; INTERMEDIATE_SIZE] DTYPE in
      let! graph := add_op graph "mlp_x_up" "up_proj" ["x_normed_2"] [N; INTERMEDIATE_SIZE] DTYPE in
      let! graph := add_op graph "mlp_gated" "mul_op" ["mlp_x"; "mlp_x_up"] [N; INTERMEDIATE_SIZE] DTYPE in
      let! graph := add_op graph "mlp_output" "ff_out" ["mlp_gated"] [N; D_MODEL] DTYPE in
      Ok graph in
  let! graph := add_op graph "final_output" "add_residual_2" ["residual"; "mlp_output"] [N; D_MODEL] DTYPE in
  let! graph := add_alias graph "final_output" "x" in
  let! graph := add_op graph "logits" "get_logits" ["final_output"] [max_chunk_size_logits; VOCAB_SIZE] DTYPE in
  Ok graph.
