(* ===== verification/BlockPlans.v ===== *)
(** * The memory plans of the model block graphs are safe

    The six graph families of [BlockGraphs.v] declare one alias, [final_output]
    on [x].  For every token count and chunk configuration with non-empty
    tensors the planner succeeds, and the alias either avoids the tensors that
    the last residual addition reads or takes over the range of its second
    operand, which makes the addition in-place. *)

From stdpp Require Import base gmap strings list sorting fin_maps fin_sets.
From Stdlib Require Import ZArith Lia QArith.
From S2P Require Import Prelude GraphBuilder MemoryPlan ChunkComponents BlockGraphs.
Open Scope string_scope.
Open Scope list_scope.
Open Scope Z_scope.

(** ** The layout as integer facts *)

Section layout.
Context (g : CustomGraph) (p : ReusePlan) (f : nat).
Context (Hwf : graph_wf g) (Hp : _generate_optimized_reuse_plan g = Ok p).
Context (Hal : forall j nj, (j < f)%nat -> execution_order g !! j = Some nj ->
           aliases g !! output_name nj = None).
Context (Hsz : forall i n, (i < f)%nat -> execution_order g !! i = Some n -> sized n).
Context (Hf : (f <= length (execution_order g))%nat).

Definition off (i : nat) : Z :=
  match execution_order g !! i with
  | Some n => match entries p !! output_name n with Some e => offset e | None => 0 end
  | None => 0
  end.
Definition sz (i : nat) : Z :=
  match execution_order g !! i with Some n => node_size n | None => 0 end.
Definition live (j : nat) : list nat := live_idx (skeleton (execution_order g)) j.

Lemma prefix_alias_free : alias_compatible_upto g (entries p) f.
Proof.
  intros i j ni nj ei ej Hij Hi Hj _ _ [t Ht]. by rewrite (Hal j nj) in Ht by (done || lia).
Qed.

Lemma layout_entry i :
  (i < f)%nat -> exists n e, execution_order g !! i = Some n /\
    entries p !! output_name n = Some e /\ offset e = off i /\ psize e = sz i /\ 0 <= off i /\ 0 < sz i.
Proof.
  intros Hi. destruct (lookup_lt_is_Some_2 (execution_order g) i) as [n Hn]; [lia|].
  pose proof (order_elem g f i n Hi Hn) as Hin.
  destruct (plan_entry_exists g p f Hwf Hp prefix_alias_free n Hin (Hsz _ _ Hi Hn)) as (e & He & Hpe).
  destruct (plan_entry_facts g p f Hwf Hp prefix_alias_free n e Hin He) as (Hs & _ & Ho).
  exists n, e. unfold off, sz. rewrite Hn, He. auto 10.
Qed.

Lemma layout_disjoint i j :
  (i < j < f)%nat -> i ∈ live j -> off i + sz i <= off j \/ off j + sz j <= off i.
Proof.
  intros Hij Hl.
  destruct (layout_entry i ltac:(lia)) as (ni & ei & Hi & Hei & <- & <- & _).
  destruct (layout_entry j ltac:(lia)) as (nj & ej & Hj & Hej & <- & <- & _).
  destruct (plan_pair_sound g p f Hwf Hp prefix_alias_free i j ni nj ei ej) as [?|[[t Ht] _]]; try done.
  - by apply (live_idx_elem g i j); [lia|..].
  - by rewrite (Hal j nj) in Ht by (done || lia).
Qed.

Lemma layout_lowest j o :
  (j < f)%nat -> 0 <= o ->
  Forall (fun i => off i + sz i <= o \/ o + sz j <= off i) (live j) -> off j <= o.
Proof.
  intros Hj Ho Hcl. destruct (layout_entry j Hj) as (nj & ej & Hnj & Hej & <- & Hs & _).
  eapply (plan_first_fit g p f Hwf Hp prefix_alias_free j nj ej); eauto.
  intros i ni ei Hij Hi Hei Hr. rewrite Forall_forall in Hcl.
  specialize (Hcl i (proj2 (live_idx_elem g i j ni Hij Hi) Hr)).
  destruct (layout_entry i ltac:(lia)) as (ni' & ei' & Hi' & Hei' & H1 & H2 & _).
  assert (ni' = ni) as -> by congruence. assert (ei' = ei) as -> by congruence. lia.
Qed.

Lemma layout_origin j :
  (j < f)%nat -> off j = 0 \/ Exists (fun i => off j = off i + sz i) (live j).
Proof.
  intros Hj. destruct (layout_entry j Hj) as (nj & ej & Hnj & Hej & <- & _).
  destruct (plan_first_fit g p f Hwf Hp prefix_alias_free j nj ej) as
    [[?|(i & ni & ei & Hij & Hi & Hei & Hr & Heq)] _]; eauto.
  right. apply Exists_exists. exists i. split; [by apply (live_idx_elem g i j ni)|].
  destruct (layout_entry i ltac:(lia)) as (ni' & ei' & Hi' & Hei' & H1 & H2 & _).
  assert (ni' = ni) as -> by congruence. assert (ei' = ei) as -> by congruence. lia.
Qed.

(** The attention half of a block: [x] at 0, [x_normed_2] right after it and
    [residual] beyond. *)
Lemma attention_layout s :
  (9 <= f)%nat ->
  map live (seq 0 9) = [[]; [0]; [0; 1]; [0; 1; 2]; [0; 1; 2; 3]; [0; 2; 3; 4]; [0; 5]; [0; 6]; [0; 6; 7]]%nat ->
  sz 0 = s -> sz 1 = s -> sz 5 = s -> sz 6 = s -> sz 7 = s -> sz 8 = s ->
  off 0 = 0 /\ off 7 = s /\ s <= off 8.
Proof.
  intros Hf9 Hlive S0 S1 S5 S6 S7 S8. cbn [map seq] in Hlive.
  injection Hlive as L1 L2 L3 L4 L5 L6 L7 L8.
  assert (Hn : forall i, (i < f)%nat -> 0 <= off i /\ 0 < sz i).
  { intros i Hi. destruct (layout_entry i Hi) as (? & ? & _ & _ & _ & _ & ?). done. }
  pose proof (Hn 0 ltac:(lia))%nat. pose proof (Hn 2 ltac:(lia))%nat.
  pose proof (Hn 3 ltac:(lia))%nat. pose proof (Hn 4 ltac:(lia))%nat.
  pose proof (Hn 1 ltac:(lia))%nat. pose proof (Hn 5 ltac:(lia))%nat.
  pose proof (Hn 6 ltac:(lia))%nat. pose proof (Hn 7 ltac:(lia))%nat. pose proof (Hn 8 ltac:(lia))%nat.
  assert (D : forall i j, (i < j < f)%nat -> i ∈ live j -> off i + sz i <= off j \/ off j + sz j <= off i)
    by (exact layout_disjoint).
  assert (O0 : off 0 = 0).
  { enough (off 0 <= 0) by lia. apply layout_lowest; [lia|lia|]. constructor. }
  assert (O1 : off 1 = s).
  { pose proof (D 0 1 ltac:(lia) ltac:(rewrite L1; set_solver))%nat.
    enough (off 1 <= s) by lia. apply layout_lowest; [lia|lia|]. rewrite L1. repeat constructor. lia. }
  assert (Q : forall i, (2 <= i <= 4)%nat -> 0%nat ∈ live i -> 1%nat ∈ live i -> 2 * s <= off i).
  { intros i Hi M0 M1. pose proof (D 0 i ltac:(lia) M0)%nat as D0.
    pose proof (D 1 i ltac:(lia) M1)%nat as D1. pose proof (Hn i ltac:(lia)). lia. }
  assert (Q2 : 2 * s <= off 2) by (apply Q; [lia|rewrite L2; set_solver..]).
  assert (Q3 : 2 * s <= off 3) by (apply Q; [lia|rewrite L3; set_solver..]).
  assert (Q4 : 2 * s <= off 4) by (apply Q; [lia|rewrite L4; set_solver..]).
  assert (O5 : off 5 = s).
  { pose proof (D 0 5 ltac:(lia) ltac:(rewrite L5; set_solver))%nat.
    enough (off 5 <= s) by lia. apply layout_lowest; [lia|lia|]. rewrite L5.
    repeat constructor; lia. }
  assert (O6 : 2 * s <= off 6).
  { pose proof (D 0 6 ltac:(lia) ltac:(rewrite L6; set_solver))%nat.
    pose proof (D 5 6 ltac:(lia) ltac:(rewrite L6; set_solver))%nat. lia. }
  assert (O7 : off 7 = s).
  { pose proof (D 0 7 ltac:(lia) ltac:(rewrite L7; set_solver))%nat.
    enough (off 7 <= s) by lia. apply layout_lowest; [lia|lia|]. rewrite L7. repeat constructor; lia. }
  pose proof (D 0 8 ltac:(lia) ltac:(rewrite L8; set_solver))%nat.
  split; [done|]. split; [done|]. lia.
Qed.
End layout.

(** ** Building a block graph *)

Fixpoint zprod (l : list Z) : Z :=
  match l with
  | [] => 1
  | d :: l => d * zprod l
  end.

(** The dimensions are positive and their product is an int64. *)
Definition fits (sh : list Z) : Prop := Forall (fun d => 1 <= d) sh /\ zprod sh < 2 ^ 63.

Lemma zprod_pos l : Forall (fun d => 1 <= d) l -> 1 <= zprod l.
Proof. induction 1; cbn in *; nia. Qed.

Lemma torch_prod_acc l a :
  1 <= a -> Forall (fun d => 1 <= d) l -> a * zprod l < 2 ^ 63 ->
  fold_left (fun a d => wrap64 (a * d)) l a = a * zprod l.
Proof.
  intros Ha Hl. revert a Ha. induction Hl as [|d l Hd Hl IH]; cbn; intros a Ha Hb; [lia|].
  pose proof (zprod_pos l Hl). rewrite wrap64_id by nia. rewrite IH by (nia || lia). lia.
Qed.

Lemma mk_TensorSpec_fits sh d :
  fits sh -> mk_TensorSpec sh d =
    Ok {| shape := sh; dtype := d; size_bytes := zprod sh * (dtype_bits d / 8) |}.
Proof.
  intros [Hl Hb]. unfold mk_TensorSpec, torch_prod. rewrite torch_prod_acc by (done || lia).
  rewrite Z.mul_1_l. replace (forallb _ sh) with true; [done|]. symmetry.
  apply forallb_forall. intros x Hx. apply Z.eqb_eq, wrap64_id.
  assert (Hd : forall l, Forall (fun d => 1 <= d) l -> In x l -> 1 <= x <= zprod l).
  { induction 1 as [|y l Hy Hl' IH]; cbn; [done|]. pose proof (zprod_pos l Hl').
    intros [->|?%IH]; nia. }
  specialize (Hd sh Hl Hx). lia.
Qed.

(** The node that [add_op] appends when the dimensions fit. *)
Definition op_node (out op : string) (ins : list string) (sh : list Z) (d : Dtype) : OpNode :=
  {| op_type := op; output_name := out; input_names := ins;
     output_spec := {| shape := sh; dtype := d; size_bytes := zprod sh * (dtype_bits d / 8) |} |}.

(** [built g l a]: a well-formed graph with the nodes [l] and the aliases [a]. *)
Record built (g : CustomGraph) (l : list OpNode) (a : gmap string string) : Prop := {
  built_wf : graph_wf g;
  built_order : execution_order g = l;
  built_aliases : aliases g = a }.

Lemma built_empty : built empty_graph [] ∅.
Proof. split; [apply empty_graph_wf|done..]. Qed.

Lemma built_add_op g l a out op ins sh d :
  built g l a -> fits sh -> existsb (String.eqb out) (names l) = false ->
  exists g', add_op g out op ins sh d = Ok g' /\ built g' (l ++ [op_node out op ins sh d]) a.
Proof.
  intros [Hwf <- <-] Hf Hnew.
  assert (Hn : nodes g !! out = None).
  { destruct (nodes g !! out) as [n|] eqn:Hn; [|done]. apply (wf_nodes _ Hwf) in Hn as [Hin <-].
    apply not_true_iff_false in Hnew. contradict Hnew. apply existsb_exists.
    exists (output_name n). split; [|apply String.eqb_refl].
    apply list_elem_of_In, list_elem_of_fmap. eauto. }
  assert (Hadd : exists g', add_op g out op ins sh d = Ok g' /\
            execution_order g' = execution_order g ++ [op_node out op ins sh d] /\ aliases g' = aliases g).
  { unfold add_op. rewrite Hn, mk_TensorSpec_fits by done. cbn. eauto. }
  destruct Hadd as (g' & Hg & Ho & Ha). exists g'. split; [done|].
  split; [by eapply add_op_wf_aux|done..].
Qed.

Lemma built_add_alias g l a i j ns nt :
  built g l a -> l !! i = Some ns -> l !! j = Some nt -> node_size ns <= node_size nt ->
  exists g', add_alias g (output_name ns) (output_name nt) = Ok g' /\
    built g' l (<[output_name ns := output_name nt]> a).
Proof.
  intros [Hwf <- <-] Hi Hj Hle.
  assert (Hs : nodes g !! output_name ns = Some ns)
    by (apply Hwf; split; [by eapply list_elem_of_lookup_2|done]).
  assert (Ht : nodes g !! output_name nt = Some nt)
    by (apply Hwf; split; [by eapply list_elem_of_lookup_2|done]).
  assert (Hadd : exists g', add_alias g (output_name ns) (output_name nt) = Ok g' /\
            execution_order g' = execution_order g /\ aliases g' = <[output_name ns := output_name nt]> (aliases g)).
  { unfold add_alias. rewrite Hs, Ht. zcases; [lia|]. eauto. }
  destruct Hadd as (g' & Hg & Ho & Ha). exists g'. split; [done|].
  split; [by eapply add_alias_wf_aux|done..].
Qed.

(** ** The alias of a block graph *)

(** Position of [final_output]: after the two barriers when the MLP is cut. *)
Definition final_pos (chunked : bool) : nat := if chunked then 15%nat else 13%nat.

(** What the names and inputs of a block graph give: the live positions of the
    attention half, and those of the MLP output and of the final addition. *)
Definition shape_ok (sk : list (string * list string)) (chunked : bool) : bool :=
  bool_decide (map (live_idx sk) (seq 0 9) =
    [[]; [0]; [0; 1]; [0; 1; 2]; [0; 1; 2; 3]; [0; 2; 3; 4]; [0; 5]; [0; 6]; [0; 6; 7]]%nat) &&
  bool_decide (live_idx sk (final_pos chunked) = [8; 12]%nat) &&
  (if chunked then bool_decide (7%nat ∈ live_idx sk 12) else bool_decide (live_idx sk 12 = [8; 11]%nat)) &&
  bool_decide (sk.*1 !! 0%nat = Some "x") &&
  bool_decide (sk.*1 !! final_pos chunked = Some "final_output").

(** A spec whose size is the exact product of its dimensions. *)
Definition spec_ok (t : TensorSpec) : Prop :=
  fits (shape t) /\ size_bytes t = zprod (shape t) * (dtype_bits (dtype t) / 8).

Record block_shape (l : list OpNode) (chunked : bool) (s : Z) : Prop := {
  bs_shape : shape_ok (skeleton l) chunked = true;
  bs_sized : Forall sized l;
  bs_same : Forall (fun i => size_at l i = s) [0; 1; 5; 6; 7; 8; 12; final_pos chunked]%nat;
  bs_operand : chunked = false -> s <= size_at l 11;
  bs_topo : topo_b (skeleton l) = true;
  bs_spec : Forall (fun n => spec_ok (output_spec n)) l;
  bs_read : Forall (fun n => dtype (output_spec n) = bfloat16 \/
              (dtype (output_spec n) = int8 /\ reads_b (skeleton l) (output_name n) 0 = false)) l;
  bs_names : Forall (fun n => String.prefix "_" (output_name n) = false) l;
  bs_fixed : ((fun n => part_of (output_name n)) <$> l !! 3%nat) = Some PFixed }.

(** No node of component [part] needs more memory than the node at position 3
    ([k_proj]), which belongs to the fixed part. *)
Definition dominated (part : Part) (l : list OpNode) : Prop :=
  Forall (fun k => mem_at l k <= mem_at l 3)
    (List.filter (fun k => match l !! k with
       | Some n => bool_decide (part_of (output_name n) = part)
       | None => false end) (seq 0 (length l))).

Section block.
Context (g : CustomGraph) (l : list OpNode) (chunked : bool) (s : Z).
Context (Hb : built g l {["final_output" := "x"]}) (Hs : block_shape l chunked s).
Let f := final_pos chunked.

Lemma shape_facts :
  map (live g) (seq 0 9) =
    [[]; [0]; [0; 1]; [0; 1; 2]; [0; 1; 2; 3]; [0; 2; 3; 4]; [0; 5]; [0; 6]; [0; 6; 7]]%nat /\
  live g f = [8; 12]%nat /\ (if chunked then 7%nat ∈ live g 12 else live g 12 = [8; 11]%nat) /\
  (exists nx, l !! 0%nat = Some nx /\ output_name nx = "x") /\
  (exists nf, l !! f = Some nf /\ output_name nf = "final_output").
Proof.
  pose proof (bs_shape _ _ _ Hs) as H. unfold shape_ok in H.
  rewrite !andb_true_iff, !bool_decide_eq_true in H. destruct H as [[[[H1 H2] H3] H4] H5].
  unfold live. rewrite (built_order _ _ _ Hb).
  assert (Hname : forall i n, (skeleton l).*1 !! i = Some n -> exists nd, l !! i = Some nd /\ output_name nd = n).
  { intros i n. unfold skeleton. rewrite <-list_fmap_compose, list_lookup_fmap.
    intros (nd & -> & ?)%fmap_Some. eauto. }
  split; [exact H1|]. split; [done|]. split; [by destruct chunked; apply bool_decide_eq_true in H3|]. eauto.
Qed.

Lemma final_unique j n : l !! j = Some n -> output_name n = "final_output" -> j = f.
Proof.
  destruct shape_facts as (_ & _ & _ & _ & nf & Hf & Hnf). intros Hj Hn.
  pose proof (wf_nodup _ (built_wf _ _ _ Hb)) as Hnd. rewrite (built_order _ _ _ Hb) in Hnd.
  eapply (NoDup_lookup _ _ _ "final_output" Hnd); unfold names; rewrite list_lookup_fmap.
  - by rewrite Hj; cbn; rewrite Hn.
  - by rewrite Hf; cbn; rewrite Hnf.
Qed.

Lemma block_alias_at j n t :
  l !! j = Some n -> aliases g !! output_name n = Some t -> j = f /\ t = "x".
Proof.
  intros Hj. rewrite (built_aliases _ _ _ Hb). intros [Hn <-]%lookup_singleton_Some.
  split; [|done]. by eapply final_unique.
Qed.

Lemma block_plan_exists : exists p, _generate_optimized_reuse_plan g = Ok p.
Proof.
  apply plan_total_iff; [by eapply built_wf|]. intros j nj t. rewrite (built_order _ _ _ Hb).
  intros Hj _ Hal. destruct (block_alias_at _ _ _ Hj Hal) as [-> ->].
  destruct shape_facts as (_ & _ & _ & (nx & Hx & Hnx) & _). exists 0%nat, nx.
  split; [unfold f, final_pos; destruct chunked; lia|done].
Qed.

Lemma block_compatible p :
  _generate_optimized_reuse_plan g = Ok p -> alias_compatible g p.
Proof.
  intros Hp i j ni nj ei ej Hij. rewrite (built_order _ _ _ Hb).
  intros Hi Hj Hei Hej [t Hal] Hr. destruct (block_alias_at _ _ _ Hj Hal) as [-> ->].
  destruct shape_facts as (Hatt & Hlf & Hl12 & (nx & Hx & Hnx) & _).
  pose proof (built_wf _ _ _ Hb) as Hwf. pose proof (built_order _ _ _ Hb) as Ho.
  assert (Hf : (f <= length l)%nat) by (apply lookup_lt_Some in Hj; lia).
  assert (Hf13 : (13 <= f)%nat) by (unfold f, final_pos; destruct chunked; lia).
  pose proof (bs_same _ _ _ Hs) as Hsame. rewrite Forall_forall in Hsame.
  assert (HA : forall j nj, (j < f)%nat -> execution_order g !! j = Some nj -> aliases g !! output_name nj = None).
  { intros j nj' Hjf Hj'. rewrite Ho in Hj'. destruct (aliases g !! output_name nj') eqn:E; [|done].
    destruct (block_alias_at _ _ _ Hj' E). lia. }
  assert (HS : forall i n, (i < f)%nat -> execution_order g !! i = Some n -> sized n).
  { intros k n _. rewrite Ho. apply Forall_lookup, (bs_sized _ _ _ Hs). }
  assert (Hsz : forall i, sz g i = size_at l i) by (intros k; unfold sz; by rewrite Ho).
  assert (Hf' : (f <= length (execution_order g))%nat) by (by rewrite Ho).
  destruct (attention_layout g p f Hwf Hp HA HS Hf' s) as (O0 & O7 & O8);
    [lia|done|rewrite Hsz; apply Hsame; set_solver..|].
  (* the alias sits on x *)
  destruct (alias_offset g p nj "x" ej Hwf Hp) as (ex & Hex & Hoj & Hpj); try done.
  { rewrite Ho. by eapply list_elem_of_lookup_2. }
  assert (Hoff0 : offset ej = 0).
  { rewrite Hoj, <-O0. unfold off. by rewrite Ho, Hx, Hnx, Hex. }
  assert (Hpsz : psize ej = s).
  { rewrite Hpj, <-(Hsame f ltac:(set_solver)). unfold size_at. by rewrite Hj. }
  (* the operand is x_normed_2-free, or at the end of a large block *)
  apply (live_idx_elem g i f ni) in Hr; [|lia|by rewrite Ho]. fold (live g f) in Hr. rewrite Hlf in Hr.
  destruct (layout_entry g p f Hwf Hp HA HS Hf' i ltac:(lia)) as (n' & e' & Hn' & He' & Hoi & Hsi & H0 & H1).
  rewrite Ho, Hi in Hn'. injection Hn' as <-. rewrite Hei in He'. injection He' as <-.
  unfold ranges_disjoint, same_ranges. rewrite Hoff0, Hpsz, Hoi, Hsi.
  apply elem_of_cons in Hr as [->|Hr]; [left; lia|]. apply list_elem_of_singleton in Hr as ->.
  assert (S12 : sz g 12 = s) by (rewrite Hsz; apply Hsame; set_solver).
  assert (S7 : sz g 7 = s) by (rewrite Hsz; apply Hsame; set_solver).
  assert (S8 : sz g 8 = s) by (rewrite Hsz; apply Hsame; set_solver).
  rewrite S12. enough (off g p 12 = 0 \/ s <= off g p 12) by lia.
  pose proof (bs_operand _ _ _ Hs) as Hop. destruct chunked.
  - destruct (layout_disjoint g p f Hwf Hp HA HS Hf' 7 12 ltac:(lia) Hl12); lia.
  - destruct (layout_origin g p f Hwf Hp HA HS Hf' 12 ltac:(lia)) as [?|He]; [lia|].
    rewrite Hl12 in He. pose proof (Hop eq_refl) as Hop'. rewrite <-Hsz in Hop'.
    destruct (layout_entry g p f Hwf Hp HA HS Hf' 11 ltac:(lia)) as (? & ? & _ & _ & _ & _ & ? & _).
    apply Exists_cons in He as [?|He]; [lia|]. apply Exists_cons in He as [?|He]; [lia|].
    by apply Exists_nil in He.
Qed.
End block.

(** ** The six families *)

(** A build that succeeds with a graph to which the alias argument applies and
    whose nodes satisfy [Q]. *)
Definition block_built (Q : list OpNode -> Prop) (m : res CustomGraph) : Prop :=
  exists g l chunked s, m = Ok g /\ built g l {["final_output" := "x"]} /\ block_shape l chunked s /\ Q l.

Lemma bind_assoc {A B C} (m : res A) (k : A -> res B) (h : B -> res C) :
  bind (bind m k) h = bind m (fun a => bind (k a) h).
Proof. by destruct m. Qed.

Lemma bind_Ok {A B} (a : A) (k : A -> res B) : bind (Ok a) k = k a.
Proof. done. Qed.

Lemma grow_op Q g l a out op ins sh d k :
  built g l a -> fits sh -> existsb (String.eqb out) (names l) = false ->
  (forall g', built g' (l ++ [op_node out op ins sh d]) a -> block_built Q (k g')) ->
  block_built Q (let! g' := add_op g out op ins sh d in k g').
Proof. intros Hb Hf Hn Hk. destruct (built_add_op g l a out op ins sh d Hb Hf Hn) as (g' & -> & ?). by apply Hk. Qed.

Lemma grow_alias Q g l a i j ns nt src tgt k :
  built g l a -> l !! i = Some ns -> l !! j = Some nt -> output_name ns = src -> output_name nt = tgt ->
  node_size ns <= node_size nt ->
  (forall g', built g' l (<[src := tgt]> a) -> block_built Q (k g')) ->
  block_built Q (let! g' := add_alias g src tgt in k g').
Proof.
  intros Hb Hi Hj <- <- Hle Hk. destruct (built_add_alias g l a i j ns nt Hb Hi Hj Hle) as (g' & -> & ?). by apply Hk.
Qed.

(** The rows of the largest chunk. *)
Lemma chunk_rows n k : 1 <= n -> 1 <= k -> 1 <= (n + k - 1) / k <= n.
Proof.
  intros Hn Hk. rewrite div_up_cdiv by lia. pose proof (cdiv_spec n k ltac:(lia)). nia.
Qed.

Ltac bind_norm := rewrite ?bind_assoc, ?bind_Ok; cbv beta.
Ltac fits_tac := split; [repeat constructor; lia|cbn; lia].
Ltac grow_one :=
  match goal with
  | B : built ?g ?l ?a |- block_built ?Q (bind (add_op ?g ?o ?op ?i ?sh ?d) ?k) =>
      apply (grow_op Q g l a o op i sh d k B); [fits_tac|reflexivity|];
      clear B; try clear g; let g' := fresh "g" in let B' := fresh "B" in
      intros g' B'; cbn [app] in B'
  end.
Ltac grow_final f :=
  match goal with
  | B : built ?g ?l ?a |- block_built ?Q (bind (add_alias ?g ?s ?t) ?k) =>
      eapply (grow_alias Q g l a f 0 _ _ s t k B);
      [reflexivity|reflexivity|reflexivity|reflexivity|reflexivity|];
      clear B; try clear g; let g' := fresh "g" in let B' := fresh "B" in intros g' B'
  end.
Ltac size_tac :=
  unfold sized, size_at, node_size; cbn; change (16 / 8) with 2; change (8 / 8) with 1; lia.
(** Bounds on the memory at the positions that [vm_compute] finds. *)
Ltac mem_norm :=
  unfold mem_at;
  repeat match goal with
  | |- context [mem_idx ?sk ?k] =>
      let v := eval vm_compute in (mem_idx sk k) in change (mem_idx sk k) with v
  end.
Ltac mem_tac := mem_norm; size_tac.
Ltac dominated_tac :=
  unfold dominated;
  match goal with
  | |- Forall _ ?L => let v := eval vm_compute in L in change L with v
  end; repeat (constructor; [mem_tac|]); constructor.
Ltac grow_done c s tac :=
  match goal with
  | B : built ?g ?l ?a |- block_built ?Q (Ok ?g) =>
      exists g, l, c, s; split; [reflexivity|]; split; [exact B|]; split;
      [split;
       [vm_compute; reflexivity
       |repeat (constructor; [size_tac|]); constructor
       |repeat (constructor; [size_tac|]); constructor
       |discriminate || size_tac
       |vm_compute; reflexivity
       |repeat (constructor; [split; [fits_tac|reflexivity]|]); constructor
       |repeat (constructor; [first [left; reflexivity|right; split; [reflexivity|vm_compute; reflexivity]]|]); constructor
       |repeat (constructor; [reflexivity|]); constructor
       |vm_compute; reflexivity]
      |tac]
  end.
Ltac block_consts :=
  cbv zeta; change (4096 / 32) with 128; change (3584 / 28) with 128; change (2048 / 16) with 128.

(** With one row per chunk, a cut component is below the fixed part. *)
Definition chunk_bounds (N M : Z) (cl cm : bool) (nl nm : Z) (l : list OpNode) : Prop :=
  111 <= N -> (cl = true -> M <= nl -> dominated PLogits l) /\
              (cm = true -> N <= nm -> dominated PMlp l).

Section families.
Context (N M : Z) (HN : 1 <= N <= 2 ^ 40) (HM : 1 <= M <= 2 ^ 40).

Lemma llada_built : block_built (fun _ => True) (define_llada_block_graph N M).
Proof.
  unfold define_llada_block_graph. block_consts. pose proof built_empty as B.
  do 14 grow_one. grow_final 13%nat. grow_one. grow_done false (N * 4096 * 2) ltac:(exact I).
Qed.

Lemma dream_built : block_built (fun _ => True) (define_dream_block_graph N M).
Proof.
  unfold define_dream_block_graph. block_consts. pose proof built_empty as B.
  do 14 grow_one. grow_final 13%nat. grow_one. grow_done false (N * 3584 * 2) ltac:(exact I).
Qed.

Lemma llada_moe_built : block_built (fun _ => True) (define_llada_moe_block_graph N M).
Proof.
  unfold define_llada_moe_block_graph. block_consts. pose proof built_empty as B.
  do 14 grow_one. grow_final 13%nat. grow_one. grow_done false (N * 2048 * 2) ltac:(exact I).
Qed.

Context (cl cm : bool) (nl nm : Z) (Hnl : 1 <= nl) (Hnm : 1 <= nm).

Lemma chunk_choice (c : bool) (n k : Z) :
  1 <= n -> 1 <= k ->
  exists r, (if c then py_div (n + k - 1) k else Ok n) = Ok r /\ 1 <= r <= n /\
    (c = true -> n <= k -> r = 1).
Proof.
  intros Hn Hk. destruct c; [|exists n; split; [done|split; [lia|done]]].
  exists ((n + k - 1) / k). split; [apply py_div_ok; split; [lia|done]|].
  split; [by apply chunk_rows|]. intros _ Hle.
  rewrite div_up_cdiv by lia. apply cdiv_unique; lia.
Qed.

Ltac bounds_tac :=
  intros Hbig; split; intros Hc Hle;
  [match goal with
   | H : cl = true -> M <= nl -> ?r = 1 |- _ => rewrite (H Hc Hle)
   end; dominated_tac
  |first [discriminate Hc
         |match goal with
          | H : true = true -> N <= nm -> ?r = 1 |- _ => rewrite (H eq_refl Hle)
          end; dominated_tac]].

Lemma llada_chunkwise_built : block_built (chunk_bounds N M cl cm nl nm) (define_llada_block_graph_chunkwise N M cl cm nl nm).
Proof.
  unfold define_llada_block_graph_chunkwise. block_consts.
  destruct (chunk_choice cm N nm) as (rm & -> & Hrm & Hrm1); [lia..|].
  destruct (chunk_choice cl M nl) as (rl & -> & Hrl & Hrl1); [lia..|]. cbn [bind].
  pose proof built_empty as B. do 9 grow_one. destruct cm; bind_norm.
  - do 7 (grow_one; bind_norm). grow_final 15%nat. grow_one. grow_done true (N * 4096 * 2) ltac:(bounds_tac).
  - do 5 (grow_one; bind_norm). grow_final 13%nat. grow_one. grow_done false (N * 4096 * 2) ltac:(bounds_tac).
Qed.

Lemma dream_chunkwise_built : block_built (chunk_bounds N M cl cm nl nm) (define_dream_block_graph_chunkwise N M cl cm nl nm).
Proof.
  unfold define_dream_block_graph_chunkwise. block_consts.
  destruct (chunk_choice cm N nm) as (rm & -> & Hrm & Hrm1); [lia..|].
  destruct (chunk_choice cl M nl) as (rl & -> & Hrl & Hrl1); [lia..|]. cbn [bind].
  pose proof built_empty as B. do 9 grow_one. destruct cm; bind_norm.
  - do 7 (grow_one; bind_norm). grow_final 15%nat. grow_one. grow_done true (N * 3584 * 2) ltac:(bounds_tac).
  - do 5 (grow_one; bind_norm). grow_final 13%nat. grow_one. grow_done false (N * 3584 * 2) ltac:(bounds_tac).
Qed.

Lemma llada_moe_chunkwise_built : block_built (chunk_bounds N M cl cm nl nm) (define_llada_moe_block_graph_chunkwise N M cl cm nl nm).
Proof.
  unfold define_llada_moe_block_graph_chunkwise. block_consts.
  destruct (chunk_choice cm N nm) as (rm & -> & Hrm & Hrm1); [lia..|].
  destruct (chunk_choice cl M nl) as (rl & -> & Hrl & Hrl1); [lia..|]. cbn [bind].
  pose proof built_empty as B. do 9 grow_one. destruct cm; bind_norm.
  - do 7 (grow_one; bind_norm). grow_final 15%nat. grow_one. grow_done true (N * 2048 * 2) ltac:(bounds_tac).
  - do 5 (grow_one; bind_norm). grow_final 13%nat. grow_one. grow_done false (N * 2048 * 2) ltac:(bounds_tac).
Qed.
End families.

(** The block graphs of one configuration, whole and in chunks. *)
Definition block_graphs (N M : Z) (cl cm : bool) (nl nm : Z) : list (res CustomGraph) :=
  [define_llada_block_graph N M; define_dream_block_graph N M; define_llada_moe_block_graph N M;
   define_llada_block_graph_chunkwise N M cl cm nl nm;
   define_dream_block_graph_chunkwise N M cl cm nl nm;
   define_llada_moe_block_graph_chunkwise N M cl cm nl nm].

Lemma block_built_mono (Q Q' : list OpNode -> Prop) m :
  (forall l, Q l -> Q' l) -> block_built Q m -> block_built Q' m.
Proof. intros HQ (g & l & c & s & ? & ? & ? & ?). exists g, l, c, s. auto. Qed.

Lemma block_graphs_built N M cl cm nl nm m :
  1 <= N <= 2 ^ 40 -> 1 <= M <= 2 ^ 40 -> 1 <= nl -> 1 <= nm ->
  m ∈ block_graphs N M cl cm nl nm -> block_built (fun _ => True) m.
Proof.
  intros HN HM Hnl Hnm Hm. unfold block_graphs in Hm.
  repeat (apply elem_of_cons in Hm as [->|Hm]); [..|by apply elem_of_nil in Hm].
  - by apply llada_built.
  - by apply dream_built.
  - by apply llada_moe_built.
  - eapply block_built_mono; [|by apply llada_chunkwise_built]. done.
  - eapply block_built_mono; [|by apply dream_chunkwise_built]. done.
  - eapply block_built_mono; [|by apply llada_moe_chunkwise_built]. done.
Qed.

(** C29. The memory plan of every model block is safe: for every token count,
    chunk switch and positive chunk count, each of the six graph builders
    succeeds, the planner succeeds on its graph, and whenever a tensor is
    written, no tensor that it or a later operation still reads is overwritten,
    except that [final_output] may take over the whole range of an operand of
    the addition that computes it (an in-place residual addition). *)
Theorem block_plans_safe N M cl cm nl nm m :
  1 <= N <= 2 ^ 40 -> 1 <= M <= 2 ^ 40 -> 1 <= nl -> 1 <= nm ->
  m ∈ block_graphs N M cl cm nl nm ->
  exists g p, m = Ok g /\ graph_wf g /\ _generate_optimized_reuse_plan g = Ok p /\
    alias_compatible g p /\
    forall i j ni nj ei ej, (i < j)%nat ->
      execution_order g !! i = Some ni -> execution_order g !! j = Some nj ->
      entries p !! output_name ni = Some ei -> entries p !! output_name nj = Some ej ->
      read_from g (output_name ni) j ->
      ranges_disjoint ei ej \/ (output_name nj = "final_output" /\ same_ranges ei ej).
Proof.
  intros HN HM Hnl Hnm Hm.
  destruct (block_graphs_built _ _ _ _ _ _ _ HN HM Hnl Hnm Hm) as (g & l & c & s & -> & Hb & Hs & _).
  destruct (block_plan_exists g l c s Hb Hs) as [p Hp]. exists g, p.
  pose proof (built_wf _ _ _ Hb) as Hwf. pose proof (block_compatible g l c s Hb Hs p Hp) as Hc.
  do 4 (split; [done|]). intros i j ni nj ei ej Hij Hi Hj Hei Hej Hr.
  assert (Hlt : (j < length (execution_order g))%nat) by (by eapply lookup_lt_Some).
  destruct (plan_pair_sound g p _ Hwf Hp Hc i j ni nj ei ej) as [?|[[t Ht] ?]]; [lia|done..|by left|].
  right. split; [|done]. rewrite (built_aliases _ _ _ Hb) in Ht.
  by apply lookup_singleton_Some in Ht as [? _].
Qed.

(** ** Chunking switched off *)

Lemma chunkwise_off_eq N M nl nm :
  define_llada_block_graph_chunkwise N M false false nl nm = define_llada_block_graph N M /\
  define_dream_block_graph_chunkwise N M false false nl nm = define_dream_block_graph N M /\
  define_llada_moe_block_graph_chunkwise N M false false nl nm = define_llada_moe_block_graph N M.
Proof.
  split_and!; [unfold define_llada_block_graph_chunkwise, define_llada_block_graph
              |unfold define_dream_block_graph_chunkwise, define_dream_block_graph
              |unfold define_llada_moe_block_graph_chunkwise, define_llada_moe_block_graph];
    cbv zeta; cbn iota; bind_norm;
    repeat match goal with
    | |- bind ?m _ = bind ?m _ => destruct m; [|reflexivity]; bind_norm; bind_norm
    end; reflexivity.
Qed.

(** With both switches off, the chunkwise builder of each family builds
    the whole graph, whatever the chunk counts: the plan that the searcher
    measured (on the whole graph) is the plan that the model executes (through
    the chunkwise builder). *)
Theorem chunkwise_off N M nl nm :
  define_llada_block_graph_chunkwise N M false false nl nm = define_llada_block_graph N M /\
  define_dream_block_graph_chunkwise N M false false nl nm = define_dream_block_graph N M /\
  define_llada_moe_block_graph_chunkwise N M false false nl nm = define_llada_moe_block_graph N M.
Proof. apply chunkwise_off_eq. Qed.

(** ** Worked instances of the planner properties

    Two small graphs on which the theorems of [MemoryPlan.v] and
    [BlockPlans.v] are applied: one with an in-place alias and one without. *)
(** [a -> b -> c], [d] reads [c] and [a]. *)
Definition chain_graph : res CustomGraph :=
  let! g := add_op empty_graph "a" "placeholder" [] [4; 8] bfloat16 in
  let! g := add_op g "b" "proj" ["a"] [4; 16] bfloat16 in
  let! g := add_op g "c" "proj" ["b"] [4; 8] bfloat16 in
  add_op g "d" "add" ["c"; "a"] [4; 8] bfloat16.

(** The same graph with [d] written in place of [a]. *)
Definition alias_graph : res CustomGraph :=
  let! g := chain_graph in add_alias g "d" "a".

Definition get_graph (m : res CustomGraph) : CustomGraph :=
  match m with Ok g => g | Raise _ => empty_graph end.
Definition chain : CustomGraph := Eval vm_compute in get_graph chain_graph.
Definition aliased : CustomGraph := Eval vm_compute in get_graph alias_graph.
Definition node_at (g : CustomGraph) (i : nat) : OpNode :=
  match execution_order g !! i with
  | Some n => n
  | None => op_node "" "" [] [] int8
  end.
Definition get_plan (m : res ReusePlan) : ReusePlan :=
  match m with Ok p => p | Raise _ => {| entries := ∅; total_buffer_size_bytes := 0 |} end.
Definition aliased_plan : ReusePlan :=
  Eval vm_compute in get_plan (_generate_optimized_reuse_plan aliased).
Definition entry_of (p : ReusePlan) (name : string) : PlanEntry :=
  match entries p !! name with
  | Some e => e
  | None => {| offset := 0; psize := 0; pshape := []; pdtype := int8 |}
  end.

Lemma chain_ok : chain_graph = Ok chain.
Proof. vm_compute. reflexivity. Qed.
Lemma aliased_ok : alias_graph = Ok aliased.
Proof. vm_compute. reflexivity. Qed.
Lemma aliased_plan_ok : _generate_optimized_reuse_plan aliased = Ok aliased_plan.
Proof. vm_compute. reflexivity. Qed.

Lemma chain_wf : graph_wf chain.
Proof. pose proof chain_ok as H. unfold chain_graph in H. inv_res H. eauto with graph. Qed.

Lemma aliased_wf : graph_wf aliased.
Proof.
  pose proof aliased_ok as H. unfold alias_graph in H. rewrite chain_ok in H. cbn [bind] in H.
  eauto using chain_wf with graph.
Qed.

(** The only alias takes over the range of [a]. *)
Lemma aliased_compatible : alias_compatible aliased aliased_plan.
Proof.
  intros i j ni nj ei ej Hij Hi Hj Hei Hej [t Hal] _.
  destruct j as [|[|[|[|j]]]]; [lia| | | |cbn in Hij; lia]; vm_compute in Hj; injection Hj as <-;
    try (vm_compute in Hal; discriminate).
  vm_compute in Hej. injection Hej as <-.
  destruct i as [|[|[|i]]]; [| | |lia]; vm_compute in Hi; injection Hi as <-;
    vm_compute in Hei; injection Hei as <-; unfold ranges_disjoint, same_ranges; cbn; lia.
Qed.

Lemma chain_topological : topological chain.
Proof.
  intros k n x Hk Hx.
  destruct k as [|[|[|[|k]]]]; [| | | |by vm_compute in Hk]; vm_compute in Hk; injection Hk as <-;
    cbn in Hx; set_unfold in Hx.
  - done.
  - exists 0%nat, (node_at chain 0). split; [lia|]. split; [done|]. destruct Hx as [->|[]]; done.
  - exists 1%nat, (node_at chain 1). split; [lia|]. split; [done|]. destruct Hx as [->|[]]; done.
  - destruct Hx as [->|[->|[]]];
      [exists 2%nat, (node_at chain 2)|exists 0%nat, (node_at chain 0)]; split; try lia; done.
Qed.

Lemma c_read_by_d : read_from aliased "c" 3.
Proof. exists 3%nat, (node_at aliased 3). split; [lia|]. split; [reflexivity|]. cbn. left. Qed.

Lemma reuse_plan_sound_witness :
  ranges_disjoint (entry_of aliased_plan "c") (entry_of aliased_plan "d") \/
  (is_Some (aliases aliased !! "d") /\ same_ranges (entry_of aliased_plan "c") (entry_of aliased_plan "d")).
Proof.
  apply (reuse_plan_sound aliased aliased_plan 2 3 (node_at aliased 2) (node_at aliased 3));
    first [exact aliased_wf|exact aliased_plan_ok|exact aliased_compatible|exact c_read_by_d|lia|reflexivity].
Defined.

Lemma first_fit_placement_witness :
  offset (entry_of aliased_plan "c") = 192 /\
  (forall o, 0 <= o ->
     (forall i ni ei, (i < 2)%nat -> execution_order aliased !! i = Some ni ->
        entries aliased_plan !! output_name ni = Some ei -> read_from aliased (output_name ni) 2 ->
        offset ei + psize ei <= o \/ o + psize (entry_of aliased_plan "c") <= offset ei) -> 192 <= o).
Proof.
  split; [reflexivity|].
  apply (first_fit_placement aliased aliased_plan 2 (node_at aliased 2) (entry_of aliased_plan "c"));
    first [exact aliased_wf|exact aliased_plan_ok|exact aliased_compatible|reflexivity].
Defined.

Lemma reuse_plan_bounds_witness :
  total_buffer_size_bytes aliased_plan = 256 /\
  forall name e, entries aliased_plan !! name = Some e ->
     0 <= offset e /\ 0 < psize e /\ offset e + psize e <= 256.
Proof.
  split; [reflexivity|].
  apply (reuse_plan_bounds aliased aliased_plan aliased_wf aliased_plan_ok aliased_compatible).
Defined.

Lemma liveness_exact_witness :
  "a" ∈ default ∅ (_analyze_liveness aliased !! "b") <-> read_from aliased "a" 2.
Proof.
  apply (liveness_exact aliased 0 1 (node_at aliased 0) (node_at aliased 1));
    first [exact aliased_wf|lia|reflexivity].
Defined.

Lemma timeline_peak_witness :
  exists a, analyze aliased = Ok a /\ a_peak_memory a = 192 /\
    forall e, e ∈ a_memory_timeline a -> total_memory e <= a_peak_memory a /\ (occupancy_ratio e <= 1)%Q.
Proof.
  destruct (analyze aliased) as [a|e] eqn:E; [|vm_compute in E; discriminate].
  exists a. split; [reflexivity|]. split; [vm_compute in E; injection E as <-; reflexivity|].
  apply (timeline_peak aliased a E).
Defined.

Lemma plan_covers_peak_witness :
  exists a, analyze chain = Ok a /\ a_peak_memory a <= total_buffer_size_bytes (a_reuse_plan a).
Proof.
  destruct (analyze chain) as [a|e] eqn:E; [|vm_compute in E; discriminate].
  exists a. split; [reflexivity|].
  apply (plan_covers_peak chain a chain_wf chain_topological); [reflexivity|exact E].
Defined.

Lemma planner_total_witness :
  (exists p, _generate_optimized_reuse_plan aliased = Ok p) <-> alias_ordered aliased.
Proof. apply (planner_total aliased aliased_wf). Defined.

(** One LLaDA block over 7 tokens with the MLP in 3 and the logits in 2 chunks. *)
Lemma block_plans_safe_witness :
  exists g p, define_llada_block_graph_chunkwise 7 5 true true 2 3 = Ok g /\
    _generate_optimized_reuse_plan g = Ok p /\ alias_compatible g p.
Proof.
  destruct (block_plans_safe 7 5 true true 2 3 (define_llada_block_graph_chunkwise 7 5 true true 2 3))
    as (g & p & Hg & _ & Hp & Hc & _); try lia.
  - unfold block_graphs. do 3 right. left.
  - exists g, p. auto.
Defined.
