(* ===== verification/OnlineSearcher.v ===== *)
(** * The online chunk search ([diffusion_tools/online_searcher*.py])

    [search_optimal_config_online] starts from the whole graph and cuts the
    component (logits or MLP) with the largest peak into one more chunk until
    the reuse plan fits the activation pool.  The two source files differ in the
    safety margin only (900 MB, and 200 MB for the MoE copy), which is an
    argument here.  The [while True] loop runs on fuel; [OutOfFuel] means that
    it is still running.  Peaks are in bytes where the source divides by
    [1024 * 1024] (comparisons are the same). *)

From stdpp Require Import base gmap strings list sorting fin_maps fin_sets.
From Stdlib Require Import ZArith Lia QArith.
From S2P Require Import Prelude GraphBuilder MemoryPlan ChunkComponents BlockGraphs BlockPlans.
Open Scope string_scope.
Open Scope list_scope.
Open Scope Z_scope.

(** ** The search *)

Record ChunkConfig : Type := {
  chunk_logits : bool;
  chunk_mlp : bool;
  num_chunks_logits : Z;
  num_chunks_mlp : Z }.

Definition no_chunk : ChunkConfig :=
  {| chunk_logits := false; chunk_mlp := false; num_chunks_logits := 1; num_chunks_mlp := 1 |}.

Definition is_moe (model_name : string) : bool := py_contains "moe" (str_lower model_name).
Definition is_dream (model_name : string) : bool := py_contains "dream" (str_lower model_name).

(** The graph of a configuration for the model family of [model_name]. *)
Definition define_graph_for (model_name : string) (P O : Z) (c : ChunkConfig) : res CustomGraph :=
  if negb (chunk_logits c) && negb (chunk_mlp c) then
    if is_moe model_name then define_llada_moe_block_graph P O
    else if is_dream model_name then define_dream_block_graph P O
    else define_llada_block_graph P O
  else
    if is_moe model_name then
      define_llada_moe_block_graph_chunkwise P O (chunk_logits c) (chunk_mlp c)
        (num_chunks_logits c) (num_chunks_mlp c)
    else if is_dream model_name then
      define_dream_block_graph_chunkwise P O (chunk_logits c) (chunk_mlp c)
        (num_chunks_logits c) (num_chunks_mlp c)
    else
      define_llada_block_graph_chunkwise P O (chunk_logits c) (chunk_mlp c)
        (num_chunks_logits c) (num_chunks_mlp c).

Record Strategy : Type := {
  st_config : ChunkConfig;
  st_total_bytes : Z;
  st_components : Components }.

Definition cut_logits (c : ChunkConfig) : ChunkConfig :=
  {| chunk_logits := true; chunk_mlp := chunk_mlp c;
     num_chunks_logits := if chunk_logits c then num_chunks_logits c + 1 else 2;
     num_chunks_mlp := num_chunks_mlp c |}.
Definition cut_mlp (c : ChunkConfig) : ChunkConfig :=
  {| chunk_logits := chunk_logits c; chunk_mlp := true;
     num_chunks_logits := num_chunks_logits c;
     num_chunks_mlp := if chunk_mlp c then num_chunks_mlp c + 1 else 2 |}.

Definition mib : Z := 1024 * 1024.

(** What one round of the loop decides. *)
Inductive Round : Type :=
| Return (s : Strategy)
| Continue (c : ChunkConfig)
| Fail (e : exn).

(** The body of the [while True] loop; [pool_size] has the margin taken off. *)
Definition search_round (P O pool_size : Z) (model_name : string) (c : ChunkConfig) : Round :=
  match (let! graph := define_graph_for model_name P O c in analyze graph) with
  | Raise e => Fail e
  | Ok analysis =>
      let total_bytes := total_buffer_size_bytes (a_reuse_plan analysis) in
      let components := analyze_components_from_timeline (a_memory_timeline analysis) in
      let fixed_mb := fixed_peak components in
      let mlp_mb := mlp_peak components in
      let logits_mb := logits_peak components in
      if (total_bytes <=? pool_size) &&
         negb (is_moe model_name && (pool_size - total_bytes <? 700 * mib))
      then Return {| st_config := c; st_total_bytes := total_bytes; st_components := components |}
      else
        let bottleneck := Z.max (Z.max fixed_mb mlp_mb) logits_mb in
        if (bottleneck =? logits_mb) && (fixed_mb <? logits_mb) then Continue (cut_logits c)
        else if (bottleneck =? mlp_mb) && (fixed_mb <? mlp_mb) then Continue (cut_mlp c)
        else Fail RuntimeError
  end.

Fixpoint search_loop (fuel : nat) (P O pool_size : Z) (model_name : string) (c : ChunkConfig) :
    fueled (res Strategy) :=
  match fuel with
  | 0%nat => OutOfFuel
  | S fuel =>
      match search_round P O pool_size model_name c with
      | Return s => Done (Ok s)
      | Continue c' => search_loop fuel P O pool_size model_name c'
      | Fail e => Done (Raise e)
      end
  end.

(** [search_optimal_config_online]; [safety_margin_mb] is the constant of the
    file: 900 in [online_searcher.py], 200 in [online_searcher_moe_specific.py]. *)
Definition search_with_margin (safety_margin_mb : Z) (fuel : nat) (P O pool_size : Z)
    (model_name : string) : fueled (res Strategy) :=
  search_loop fuel P O (pool_size - safety_margin_mb * 1024 * 1024) model_name no_chunk.
Definition search_optimal_config_online : nat -> Z -> Z -> Z -> string -> fueled (res Strategy) :=
  search_with_margin 900.
Definition search_optimal_config_online_moe_specific : nat -> Z -> Z -> Z -> string -> fueled (res Strategy) :=
  search_with_margin 200.

(** ** What a returned strategy guarantees *)

(** The configurations that the loop visits. *)
Definition config_ok (c : ChunkConfig) : Prop :=
  (if chunk_logits c then 2 <= num_chunks_logits c else num_chunks_logits c = 1) /\
  (if chunk_mlp c then 2 <= num_chunks_mlp c else num_chunks_mlp c = 1).

Lemma no_chunk_ok : config_ok no_chunk.
Proof. done. Qed.
Lemma cut_logits_ok c : config_ok c -> config_ok (cut_logits c).
Proof. intros [??]. split; cbn; [destruct (chunk_logits c); lia|done]. Qed.
Lemma cut_mlp_ok c : config_ok c -> config_ok (cut_mlp c).
Proof. intros [??]. split; cbn; [done|destruct (chunk_mlp c); lia]. Qed.

Lemma round_continue P O pool model c c' :
  search_round P O pool model c = Continue c' -> c' = cut_logits c \/ c' = cut_mlp c.
Proof.
  unfold search_round. destruct (bind _ _); [|done].
  repeat case_match; intros [= <-]; auto.
Qed.

Lemma search_loop_ok fuel P O pool model c s :
  config_ok c -> search_loop fuel P O pool model c = Done (Ok s) ->
  exists c', config_ok c' /\ search_round P O pool model c' = Return s.
Proof.
  revert c. induction fuel as [|fuel IH]; intros c Hc; cbn; [done|].
  destruct (search_round P O pool model c) as [s'|c'|e] eqn:Hr; [|apply IH|done].
  - intros [= ->]. eauto.
  - destruct (round_continue _ _ _ _ _ _ Hr) as [->| ->]; auto using cut_logits_ok, cut_mlp_ok.
Qed.

Lemma round_return P O pool model c s :
  search_round P O pool model c = Return s ->
  exists g a, define_graph_for model P O c = Ok g /\ analyze g = Ok a /\ st_config s = c /\
    st_total_bytes s = total_buffer_size_bytes (a_reuse_plan a) /\
    st_components s = analyze_components_from_timeline (a_memory_timeline a) /\
    st_total_bytes s <= pool /\ (is_moe model = true -> st_total_bytes s + 700 * mib <= pool).
Proof.
  unfold search_round. destruct (bind _ _) as [a|] eqn:Hb; [|done]. inv_res Hb.
  destruct (_ && _) eqn:Hfit; [|repeat case_match; done]. intros [= <-].
  apply andb_true_iff in Hfit as [Hle%Z.leb_le Hm]. exists v, a. cbn [st_config st_total_bytes st_components].
  split_and!; try done. intros Hmoe. rewrite Hmoe in Hm. cbn [andb] in Hm. apply negb_true_iff, Z.ltb_ge in Hm. lia.
Qed.

Lemma define_graph_for_family model P O c :
  config_ok c ->
  define_graph_for model P O c ∈ block_graphs P O (chunk_logits c) (chunk_mlp c)
    (num_chunks_logits c) (num_chunks_mlp c) /\ 1 <= num_chunks_logits c /\ 1 <= num_chunks_mlp c.
Proof.
  intros [H1 H2]. split; [|destruct (chunk_logits c), (chunk_mlp c); lia].
  unfold define_graph_for, block_graphs.
  destruct (negb _ && negb _), (is_moe model); [| destruct (is_dream model)| | destruct (is_dream model)].
  - do 2 right. left.
  - do 1 right. left.
  - left.
  - do 5 right. left.
  - do 4 right. left.
  - do 3 right. left.
Qed.

Lemma analyze_plan g a :
  analyze g = Ok a -> _generate_optimized_reuse_plan g = Ok (a_reuse_plan a).
Proof. unfold analyze. intros H. inv_res H. by subst a. Qed.

(** C35. A configuration that the search returns is safe to run in the pool:
    its graph builds, its reuse plan has the reported size and the alias
    property, every planned tensor lies in the pool less the safety margin,
    and for a MoE model 700 MiB are left over. *)
Theorem search_result_fits margin fuel P O pool model s :
  1 <= P <= 2 ^ 40 -> 1 <= O <= 2 ^ 40 ->
  search_with_margin margin fuel P O pool model = Done (Ok s) ->
  config_ok (st_config s) /\
  exists g p, define_graph_for model P O (st_config s) = Ok g /\
    _generate_optimized_reuse_plan g = Ok p /\ alias_compatible g p /\
    total_buffer_size_bytes p = st_total_bytes s /\
    (forall name e, entries p !! name = Some e ->
       0 <= offset e /\ 0 < psize e /\ offset e + psize e <= pool - margin * mib) /\
    (is_moe model = true -> st_total_bytes s + 700 * mib <= pool - margin * mib).
Proof.
  intros HP HO (c & Hc & Hr)%search_loop_ok; [|apply no_chunk_ok].
  destruct (round_return _ _ _ _ _ _ Hr) as (g & a & Hg & Ha & -> & Ht & _ & Hle & Hmoe).
  replace (margin * 1024 * 1024) with (margin * mib) in * by (unfold mib; lia).
  split; [done|]. destruct (define_graph_for_family model P O c Hc) as (Hin & Hnl & Hnm).
  rewrite Hg in Hin. destruct (block_graphs_built _ _ _ _ _ _ _ HP HO Hnl Hnm Hin)
    as (g' & l & ch & sz & [= <-] & Hb & Hs & _).
  pose proof (analyze_plan _ _ Ha) as Hp. exists g, (a_reuse_plan a).
  pose proof (block_compatible g l ch sz Hb Hs _ Hp) as Hcomp.
  do 4 (split; [done|]). split; [|done]. intros name e He.
  destruct (plan_entry_in_pool g _ (built_wf _ _ _ Hb) Hp Hcomp name e He) as (? & ? & ?). lia.
Qed.

(** ** Termination *)

Lemma components_fixed tl e c0 :
  e ∈ tl -> part_of (node_name e) = PFixed ->
  total_memory e <= fixed_peak (fold_left component_step tl c0).
Proof.
  intros He Hp.
  assert (Hmono : forall tl c, fixed_peak c <= fixed_peak (fold_left component_step tl c)).
  { clear. induction tl as [|e tl IH]; intros c; cbn [fold_left]; [lia|].
    etrans; [|apply IH]. unfold component_step. destruct (part_of _); cbn; lia. }
  revert c0. induction tl as [|e' tl IH]; intros c0; [by apply elem_of_nil in He|].
  cbn [fold_left]. apply elem_of_cons in He as [<-|He]; [|by apply IH].
  etrans; [|apply Hmono]. unfold component_step. rewrite Hp. cbn. lia.
Qed.

Lemma components_le tl B c0 :
  (forall e, e ∈ tl -> part_of (node_name e) = PLogits -> total_memory e <= B) ->
  logits_peak c0 <= B -> logits_peak (fold_left component_step tl c0) <= B.
Proof.
  revert c0. induction tl as [|e tl IH]; intros c0 H Hc; cbn [fold_left]; [done|].
  apply IH; [intros; apply H; [by right|done]|].
  specialize (H e ltac:(left)). unfold component_step. destruct (part_of _); cbn; try done.
  specialize (H eq_refl). lia.
Qed.

Lemma components_le_mlp tl B c0 :
  (forall e, e ∈ tl -> part_of (node_name e) = PMlp -> total_memory e <= B) ->
  mlp_peak c0 <= B -> mlp_peak (fold_left component_step tl c0) <= B.
Proof.
  revert c0. induction tl as [|e tl IH]; intros c0 H Hc; cbn [fold_left]; [done|].
  apply IH; [intros; apply H; [by right|done]|].
  specialize (H e ltac:(left)). unfold component_step. destruct (part_of _); cbn; try done.
  specialize (H eq_refl). lia.
Qed.

(** A timeline entry belongs to a node and reports its memory. *)
Lemma timeline_entry g a k :
  graph_wf g -> topological g -> analyze g = Ok a ->
  (forall e, a_memory_timeline a !! k = Some e ->
     exists n, execution_order g !! k = Some n /\ node_name e = output_name n /\
               total_memory e = mem_at (execution_order g) k) /\
  (forall n, execution_order g !! k = Some n -> exists e, a_memory_timeline a !! k = Some e).
Proof.
  intros Hwf Htop H. unfold analyze in H. inv_res H. subst a. cbn.
  pose proof (timeline_loop_spec _ _ _ _ _ _ H1) as Htl. split.
  - intros e He. destruct (Forall2_lookup_r _ _ _ _ _ Htl He) as (n & Hn & Hm & Hname & _).
    exists n. split; [done|]. split; [done|]. by eapply memory_at_idx.
  - intros n Hn. destruct (Forall2_lookup_l _ _ _ _ _ Htl Hn) as (e & He & _). eauto.
Qed.

(** A dominated component is not above the fixed part. *)
Lemma dominated_peaks g l a ch s part :
  built g l {["final_output" := "x"]} -> block_shape l ch s -> analyze g = Ok a ->
  dominated part l ->
  forall e, e ∈ a_memory_timeline a -> part_of (node_name e) = part ->
  total_memory e <= fixed_peak (analyze_components_from_timeline (a_memory_timeline a)).
Proof.
  intros Hb Hs Ha Hd e [k Hk]%list_elem_of_lookup_1 Hp.
  pose proof (built_wf _ _ _ Hb) as Hwf. pose proof (built_order _ _ _ Hb) as Ho.
  assert (Htop : topological g) by (apply topo_b_topological; rewrite Ho; apply (bs_topo _ _ _ Hs)).
  destruct (proj1 (timeline_entry g a k Hwf Htop Ha) e Hk) as (n & Hn & Hname & ->). rewrite Ho in *.
  pose proof (bs_fixed _ _ _ Hs) as Hf. apply fmap_Some in Hf as (n3 & Hn3 & Hp3).
  pose proof (timeline_entry g a 3 Hwf Htop Ha) as [He1 He2]. rewrite Ho in *.
  destruct (He2 n3 Hn3) as (e3 & He3). destruct (He1 e3 He3) as (n3' & Hn3' & Hname3 & Ht3).
  assert (n3' = n3) as -> by congruence.
  etrans; [|eapply components_fixed; [by eapply list_elem_of_lookup_2|by rewrite Hname3]].
  rewrite Ht3. unfold dominated in Hd. rewrite Forall_forall in Hd. apply Hd.
  apply list_elem_of_In, filter_In. rewrite in_seq, Hn. split; [apply lookup_lt_Some in Hn; lia|].
  apply bool_decide_eq_true. by rewrite <-Hname.
Qed.

(** Analysis does not fail on a block graph. *)
Lemma sum_sizes_total g names :
  Forall (fun x => is_Some (nodes g !! x)) names -> exists s, sum_sizes g names = Ok s.
Proof. induction 1 as [|x l [n Hn] _ [s Hs]]; cbn; [eauto|]. rewrite Hn, Hs. cbn. eauto. Qed.

Lemma memory_at_total g k n :
  graph_wf g -> topological g -> execution_order g !! k = Some n ->
  memory_at g (_analyze_liveness g) n = Ok (mem_at (execution_order g) k).
Proof.
  intros Hwf Htop Hk. destruct (sum_sizes_total g (elements (live_set_at (_analyze_liveness g) n))) as [s Hs].
  - apply Forall_forall. intros x Hx%elem_of_elements.
    destruct (live_set_member g k n x Hwf Htop Hk Hx) as (i & m & _ & Hi & <- & _).
    exists m. apply Hwf. split; [by eapply list_elem_of_lookup_2|done].
  - unfold memory_at. rewrite Hs. f_equal. by eapply memory_at_idx.
Qed.

Lemma peak_loop_total g lm order acc :
  (forall n, n ∈ order -> exists s, memory_at g lm n = Ok s) ->
  exists p, peak_loop g lm order acc = Ok p /\ (is_Some (peak_node acc) -> is_Some (peak_node p)).
Proof.
  revert acc. induction order as [|n order IH]; intros acc H; cbn; [eauto|].
  destruct (H n ltac:(left)) as [s Hs]. rewrite Hs. cbn.
  destruct (IH (if peak_memory_bytes acc <? s then
    {| peak_memory_bytes := s; peak_node := Some n; peak_live_set_names := live_set_at lm n |} else acc))
    as (p & -> & Hp); [intros; apply H; by right|].
  exists p. split; [done|]. intros Hacc. apply Hp. destruct (_ <? s); [|done]. cbn. eauto.
Qed.

Lemma timeline_loop_total g lm peak i order :
  (forall n, n ∈ order -> exists s, memory_at g lm n = Ok s) ->
  exists tl, timeline_loop g lm peak i order = Ok tl.
Proof.
  revert i. induction order as [|n order IH]; intros i H; cbn; [eauto|].
  destruct (H n ltac:(left)) as [s ->]. cbn.
  destruct (IH (i + 1)) as [tl ->]; [intros; apply H; by right|]. cbn. eauto.
Qed.

Lemma analyze_total g l ch s :
  built g l {["final_output" := "x"]} -> block_shape l ch s -> exists a, analyze g = Ok a.
Proof.
  intros Hb Hs. pose proof (built_wf _ _ _ Hb) as Hwf. pose proof (built_order _ _ _ Hb) as Ho.
  assert (Htop : topological g) by (apply topo_b_topological; rewrite Ho; apply (bs_topo _ _ _ Hs)).
  assert (Hmem : forall n, n ∈ l -> exists s, memory_at g (_analyze_liveness g) n = Ok s).
  { intros n [k Hk]%list_elem_of_lookup_1. eexists. eapply memory_at_total; [done..|]. by rewrite Ho. }
  destruct (block_plan_exists g l ch s Hb Hs) as [p Hp].
  destruct (shape_facts g l ch s Hb Hs) as (_ & _ & _ & (nx & Hx & _) & _).
  unfold analyze, _calculate_peak_memory, _calculate_memory_timeline. rewrite Ho, Hp.
  assert (Hpk : exists pk, peak_loop g (_analyze_liveness g) l
    {| peak_memory_bytes := 0; peak_node := None; peak_live_set_names := ∅ |} = Ok pk /\ is_Some (peak_node pk)).
  { pose proof (memory_at_total g 0 nx Hwf Htop ltac:(by rewrite Ho)) as H0.
    destruct l as [|n l']; [done|]. cbn in Hx. injection Hx as ->. cbn [peak_loop]. rewrite H0. cbn [bind].
    assert (Hpos : 0 < mem_at (execution_order g) 0).
    { rewrite Ho. unfold mem_at, mem_idx. cbn. pose proof (bs_sized _ _ _ Hs) as Hsz.
      apply Forall_cons in Hsz as [Hsz _]. unfold sized in Hsz. unfold size_at. cbn. lia. }
    cbn [peak_memory_bytes]. rewrite (proj2 (Z.ltb_lt _ _) Hpos).
    destruct (peak_loop_total g (_analyze_liveness g) l' {| peak_memory_bytes := mem_at (execution_order g) 0;
      peak_node := Some nx; peak_live_set_names := live_set_at (_analyze_liveness g) nx |}) as (pk & -> & Hpk).
    { intros n Hn. apply Hmem. by right. }
    exists pk. split; [done|]. apply Hpk. cbn. eauto. }
  destruct Hpk as (pk & -> & [n Hn]). cbn [bind].
  destruct (timeline_loop_total g (_analyze_liveness g) (peak_memory_bytes pk) 0 l Hmem) as [tl ->].
  cbn [bind]. rewrite Hn. cbn. eauto.
Qed.

Section termination.
Context (P O pool : Z) (model : string).
Context (HP : 111 <= P <= 2 ^ 40) (HO : 1 <= O <= 2 ^ 40).

Lemma graph_for_bounds c :
  config_ok c -> exists g l ch s, define_graph_for model P O c = Ok g /\
    built g l {["final_output" := "x"]} /\ block_shape l ch s /\
    (chunk_logits c = true -> O <= num_chunks_logits c -> dominated PLogits l) /\
    (chunk_mlp c = true -> P <= num_chunks_mlp c -> dominated PMlp l).
Proof.
  intros Hc. destruct (define_graph_for_family model P O c Hc) as (Hin & Hnl & Hnm).
  destruct (negb (chunk_logits c) && negb (chunk_mlp c)) eqn:Hflags.
  - apply andb_true_iff in Hflags as [Hl%negb_true_iff Hm%negb_true_iff]. rewrite Hl, Hm in *.
    destruct (block_graphs_built P O _ _ _ _ _ ltac:(lia) HO Hnl Hnm Hin) as (g & l & ch & s & ? & ? & ? & _).
    exists g, l, ch, s. done.
  - assert (HB : block_built (chunk_bounds P O (chunk_logits c) (chunk_mlp c) (num_chunks_logits c) (num_chunks_mlp c))
                   (define_graph_for model P O c)).
    { unfold define_graph_for. rewrite Hflags.
      destruct (is_moe model); [|destruct (is_dream model)];
        [apply llada_moe_chunkwise_built|apply dream_chunkwise_built|apply llada_chunkwise_built]; lia || done. }
    destruct HB as (g & l & ch & s & ? & ? & ? & [? ?]%(fun H => H (proj1 HP))). eauto 10.
Qed.

(** One-row components are never cut again, and the only error is the announced one. *)
Lemma round_progress c :
  config_ok c ->
  (chunk_logits c = true -> O <= num_chunks_logits c -> search_round P O pool model c <> Continue (cut_logits c)) /\
  (chunk_mlp c = true -> P <= num_chunks_mlp c -> search_round P O pool model c <> Continue (cut_mlp c)) /\
  (forall e, search_round P O pool model c = Fail e -> e = RuntimeError).
Proof.
  intros Hc. destruct (graph_for_bounds c Hc) as (g & l & ch & s & Hg & Hb & Hs & Hdl & Hdm).
  destruct (analyze_total g l ch s Hb Hs) as [a Ha]. unfold search_round. rewrite Hg. cbn [bind]. rewrite Ha.
  set (cs := analyze_components_from_timeline (a_memory_timeline a)).
  assert (H0 : 0 <= fixed_peak cs).
  { subst cs. unfold analyze_components_from_timeline.
    assert (Hmono : forall tl c, fixed_peak c <= fixed_peak (fold_left component_step tl c)).
    { clear. induction tl as [|e tl IH]; intros c; cbn [fold_left]; [lia|].
      etrans; [|apply IH]. unfold component_step. destruct (part_of _); cbn; lia. }
    etrans; [|apply Hmono]. done. }
  assert (Hne : cut_logits c <> cut_mlp c).
  { intros Heq. apply (f_equal num_chunks_logits) in Heq. cbn in Heq.
    destruct Hc as [Hc1 Hc2]. destruct (chunk_logits c); lia. }
  destruct (_ && _); [done|]. split; [|split].
  - intros Hl Hle. assert (Hp : logits_peak cs <= fixed_peak cs).
    { apply components_le; [|done]. eapply dominated_peaks; eauto. }
    rewrite (proj2 (Z.ltb_ge _ _) Hp), andb_false_r. repeat case_match; congruence.
  - intros Hm Hle. assert (Hp : mlp_peak cs <= fixed_peak cs).
    { apply components_le_mlp; [|done]. eapply dominated_peaks; eauto. }
    rewrite (proj2 (Z.ltb_ge _ _) Hp), andb_false_r. repeat case_match; congruence.
  - intros e. repeat case_match; congruence.
Qed.

(** The cuts that are still possible. *)
Definition rank (c : ChunkConfig) : Z :=
  (if chunk_logits c then Z.max 2 O - num_chunks_logits c else Z.max 2 O) +
  (if chunk_mlp c then Z.max 2 P - num_chunks_mlp c else Z.max 2 P).
Definition in_rank (c : ChunkConfig) : Prop :=
  config_ok c /\ num_chunks_logits c <= Z.max 2 O /\ num_chunks_mlp c <= Z.max 2 P.

Lemma round_rank c c' :
  in_rank c -> search_round P O pool model c = Continue c' -> in_rank c' /\ rank c' < rank c.
Proof.
  intros (Hc & Hl & Hm) Hr. destruct (round_progress c Hc) as (Hpl & Hpm & _).
  destruct (round_continue _ _ _ _ _ _ Hr) as [->| ->].
  - unfold in_rank, rank. split; [split; [by apply cut_logits_ok|]|]; cbn;
      destruct (chunk_logits c) eqn:E; try lia;
      (destruct (Z.le_gt_cases O (num_chunks_logits c)) as [Hle|]; [by destruct (Hpl eq_refl Hle)|lia]).
  - unfold in_rank, rank. split; [split; [by apply cut_mlp_ok|]|]; cbn;
      destruct (chunk_mlp c) eqn:E; try lia;
      (destruct (Z.le_gt_cases P (num_chunks_mlp c)) as [Hle|]; [by destruct (Hpm eq_refl Hle)|lia]).
Qed.

Lemma search_loop_total fuel c :
  in_rank c -> rank c < Z.of_nat fuel ->
  exists r, search_loop fuel P O pool model c = Done r /\ forall e, r = Raise e -> e = RuntimeError.
Proof.
  revert c. induction fuel as [|fuel IH]; intros c Hc Hf.
  - exfalso. destruct Hc as (_ & ? & ?). unfold rank in Hf. destruct (chunk_logits c), (chunk_mlp c); lia.
  - cbn [search_loop]. destruct (search_round P O pool model c) as [s|c'|e] eqn:Hr.
    + exists (Ok s). done.
    + destruct (round_rank c c' Hc Hr) as [Hc' Hlt]. apply IH; [done|lia].
    + exists (Raise e). split; [done|]. intros e' [= <-].
      by apply (round_progress c (proj1 Hc)).
Qed.
End termination.

(** C36. For prompts of at least 111 tokens the search terminates, within
    [P + O + 5] rounds, for each of the three model families and every pool
    size: it returns a configuration or raises the announced [RuntimeError].
    (A cut component with one row per chunk needs less memory than the fixed
    part, so it is never the bottleneck again.) *)
Theorem search_terminates margin P O pool model :
  111 <= P <= 2 ^ 40 -> 1 <= O <= 2 ^ 40 ->
  exists r, search_with_margin margin (Z.to_nat (P + O + 5)) P O pool model = Done r /\
    forall e, r = Raise e -> e = RuntimeError.
Proof.
  intros HP HO. apply search_loop_total; [done|done| |].
  - split; [apply no_chunk_ok|]. cbn. lia.
  - unfold rank. cbn [no_chunk chunk_logits chunk_mlp]. rewrite Z2Nat.id by lia. lia.
Qed.

(** ** Divergence *)

(** The single-token LLaDA graph with the logits cut in [k] chunks of one row
    does not depend on [k]. *)
Lemma one_row_round k pool :
  2 <= k -> pool < 261120 ->
  search_round 1 1 pool "llada" {| chunk_logits := true; chunk_mlp := false;
                                    num_chunks_logits := k; num_chunks_mlp := 1 |}
  = Continue {| chunk_logits := true; chunk_mlp := false;
                num_chunks_logits := k + 1; num_chunks_mlp := 1 |}.
Proof.
  intros Hk Hpool. unfold search_round.
  set (c := Build_ChunkConfig true false k 1).
  assert (Hg : define_graph_for "llada" 1 1 c = define_graph_for "llada" 1 1 (cut_logits no_chunk)).
  { unfold define_graph_for. cbn [chunk_logits chunk_mlp negb andb c cut_logits no_chunk].
    change (is_moe "llada") with false. change (is_dream "llada") with false. cbn iota.
    unfold define_llada_block_graph_chunkwise. cbn [num_chunks_logits num_chunks_mlp c cut_logits no_chunk].
    replace (py_div (1 + k - 1) k) with (py_div (1 + 2 - 1) 2); [done|].
    unfold py_div. destruct (Z.eqb_spec k 0); [lia|]. cbn. f_equal.
    replace (1 + k - 1) with (1 * k) by lia. by rewrite Z.div_mul. }
  rewrite Hg.
  assert (Ha : exists a, (let! graph := define_graph_for "llada" 1 1 (cut_logits no_chunk) in analyze graph) = Ok a /\
     total_buffer_size_bytes (a_reuse_plan a) = 261120 /\
     analyze_components_from_timeline (a_memory_timeline a) =
       {| fixed_peak := 32768; mlp_peak := 57344; logits_peak := 252928; total_peak := 252928 |}).
  { eexists. split; [vm_compute; reflexivity|]. split; vm_compute; reflexivity. }
  destruct Ha as (a & -> & -> & ->). change (is_moe "llada") with false.
  rewrite (proj2 (Z.leb_gt _ _)) by lia. reflexivity.
Qed.

Lemma one_row_loop fuel k pool :
  2 <= k -> pool < 261120 ->
  search_loop fuel 1 1 pool "llada" {| chunk_logits := true; chunk_mlp := false;
                                        num_chunks_logits := k; num_chunks_mlp := 1 |} = OutOfFuel.
Proof.
  revert k. induction fuel as [|fuel IH]; intros k Hk Hp; [done|]. cbn [search_loop].
  rewrite one_row_round by done. apply IH; lia.
Qed.

(** The search does not terminate on every request: for a single prompt
    and output token and a pool that is too small by any amount, the logits stay
    the bottleneck with one-row chunks and [num_chunks_logits] grows forever; the
    promised [RuntimeError] is never raised. *)
Theorem search_diverges fuel pool :
  pool - 900 * mib < 261120 ->
  search_optimal_config_online fuel 1 1 pool "llada" = OutOfFuel.
Proof.
  unfold search_optimal_config_online, search_with_margin, mib. intros Hp.
  destruct fuel as [|fuel]; [done|]. cbn [search_loop].
  assert (Hr : search_round 1 1 (pool - 900 * 1024 * 1024) "llada" no_chunk = Continue (cut_logits no_chunk)).
  { unfold search_round.
    assert (Ha : exists a, (let! graph := define_graph_for "llada" 1 1 no_chunk in analyze graph) = Ok a /\
       total_buffer_size_bytes (a_reuse_plan a) = 261120 /\
       analyze_components_from_timeline (a_memory_timeline a) =
         {| fixed_peak := 32768; mlp_peak := 57344; logits_peak := 252928; total_peak := 252928 |}).
    { eexists. split; [vm_compute; reflexivity|]. split; vm_compute; reflexivity. }
    destruct Ha as (a & -> & -> & ->). change (is_moe "llada") with false. rewrite (proj2 (Z.leb_gt _ _)) by lia. reflexivity. }
  rewrite Hr. apply (one_row_loop fuel 2); lia.
Qed.

(** ** Instances *)

(** 1000 tokens in 100 MiB above the margin: three logits chunks. *)
Lemma search_result_fits_witness :
  exists s, search_with_margin 900 10 1000 1000 (1000 * mib) "llada" = Done (Ok s) /\
    config_ok (st_config s) /\ num_chunks_logits (st_config s) = 3.
Proof.
  destruct (search_with_margin 900 10 1000 1000 (1000 * mib) "llada") as [[s|e]|] eqn:E;
    [|vm_compute in E; discriminate..].
  exists s. split; [reflexivity|]. split.
  - apply (search_result_fits 900 10 1000 1000 (1000 * mib) "llada" s ltac:(lia) ltac:(lia) E).
  - vm_compute in E. injection E as <-. reflexivity.
Defined.

Lemma search_diverges_witness : search_optimal_config_online 50 1 1 (900 * mib) "llada" = OutOfFuel.
Proof. apply search_diverges. unfold mib. lia. Defined.

Lemma search_terminates_witness :
  exists r, search_with_margin 200 (Z.to_nat (128 + 64 + 5)) 128 64 (901 * mib) "llada-moe" = Done r /\
    forall e, r = Raise e -> e = RuntimeError.
Proof. apply search_terminates; lia. Defined.
