(* ===== verification/ActivationPool.v ===== *)
(** * The activation memory pool ([vllm/v1/worker/activation_memory_pool.py])

    [ActivationMemoryPool] hands out byte ranges of one device buffer.  In VMM
    mode the buffer is reserved address space of the [VMMAllocator]
    ([vmm_allocator/vmm_allocator.cpp]) and physical memory is mapped on demand.
    A method is a state transformer that keeps the state reached when it raises.
    The CUDA driver calls and [torch.empty] are parameters: predicates that say
    which requests succeed. *)

From stdpp Require Import base gmap strings list sorting fin_maps fin_sets.
From Stdlib Require Import ZArith Lia QArith.
From S2P Require Import Prelude GraphBuilder.
Open Scope string_scope.
Open Scope list_scope.
Open Scope Z_scope.

(** [size_t] arithmetic. *)
Definition u64 (z : Z) : Z := z mod 2 ^ 64.

(** CUDA driver calls of the allocator. *)
Inductive CuCall : Type :=
| cuMemAddressReserve (size : Z)
| cuMemCreate (size : Z)
| cuMemMap (offset size : Z)
| cuMemSetAccess (offset size : Z).

Module VMM.
(** [VMMAllocator]; [virtual_addr_] and the device are not represented. *)
Record VMMAllocator : Type := {
  initialized_ : bool;
  reserved_size_ : Z;
  mapped_size_ : Z;
  granularity_ : Z }.

(** The constructor; the granularity comes from the driver. *)
Definition make (granularity : Z) : VMMAllocator :=
  {| initialized_ := false; reserved_size_ := 0; mapped_size_ := 0; granularity_ := granularity |}.

(** [align_up] in [size_t]. *)
Definition align_up (size granularity : Z) : Z :=
  u64 (u64 (size + granularity - 1) / granularity * granularity).

(** [reserve]; [reserved_size_] is assigned before the driver call. *)
Definition reserve (cu : CuCall -> bool) (v : VMMAllocator) (size : Z) : res unit * VMMAllocator :=
  if initialized_ v then (Raise RuntimeError, v)
  else
    let r := align_up size (granularity_ v) in
    if cu (cuMemAddressReserve r)
    then (Ok tt, {| initialized_ := true; reserved_size_ := r; mapped_size_ := 0; granularity_ := granularity_ v |})
    else (Raise RuntimeError, {| initialized_ := initialized_ v; reserved_size_ := r;
                                 mapped_size_ := mapped_size_ v; granularity_ := granularity_ v |}).

(** [map_physical] *)
Definition map_physical (cu : CuCall -> bool) (v : VMMAllocator) (offset size : Z) : res unit * VMMAllocator :=
  if negb (initialized_ v) then (Raise RuntimeError, v)
  else
    let aligned_offset := align_up offset (granularity_ v) in
    let aligned_size := align_up size (granularity_ v) in
    let end_ := u64 (aligned_offset + aligned_size) in
    if reserved_size_ v <? end_ then (Raise RuntimeError, v)
    else if end_ <=? mapped_size_ v then (Ok tt, v)
    else
      let new_offset := mapped_size_ v in
      let new_size := end_ - mapped_size_ v in
      if cu (cuMemCreate new_size) && cu (cuMemMap new_offset new_size) && cu (cuMemSetAccess new_offset new_size)
      then (Ok tt, {| initialized_ := initialized_ v; reserved_size_ := reserved_size_ v;
                      mapped_size_ := end_; granularity_ := granularity_ v |})
      else (Raise RuntimeError, v).
End VMM.

(** ** The pool *)

(** A one-dimensional byte tensor: its offset in the pool's storage and length. *)
Record Buffer : Type := { buf_start : Z; buf_len : Z }.

Record Pool : Type := {
  pool_buffer : option Buffer;
  pool_size : Z;
  allocated_size : Z;
  memory_per_token : Z;
  _initialized : bool;
  use_vmm : bool;
  _vmm_allocator : option VMM.VMMAllocator;
  _current_mapped_size : Z;
  _vmm_chunk_size : Z }.

Definition set_buffer (p : Pool) (size : Z) (b : option Buffer) : Pool :=
  {| pool_buffer := b; pool_size := size; allocated_size := allocated_size p;
     memory_per_token := memory_per_token p; _initialized := _initialized p; use_vmm := use_vmm p;
     _vmm_allocator := _vmm_allocator p; _current_mapped_size := _current_mapped_size p;
     _vmm_chunk_size := _vmm_chunk_size p |}.
Definition set_vmm (p : Pool) (v : option VMM.VMMAllocator) (mapped : Z) : Pool :=
  {| pool_buffer := pool_buffer p; pool_size := pool_size p; allocated_size := allocated_size p;
     memory_per_token := memory_per_token p; _initialized := _initialized p; use_vmm := use_vmm p;
     _vmm_allocator := v; _current_mapped_size := mapped;
     _vmm_chunk_size := _vmm_chunk_size p |}.
Definition set_ready (p : Pool) : Pool :=
  {| pool_buffer := pool_buffer p; pool_size := pool_size p; allocated_size := 0;
     memory_per_token := memory_per_token p; _initialized := true; use_vmm := use_vmm p;
     _vmm_allocator := _vmm_allocator p; _current_mapped_size := _current_mapped_size p;
     _vmm_chunk_size := _vmm_chunk_size p |}.
Definition set_memory_per_token (p : Pool) (m : Z) : Pool :=
  {| pool_buffer := pool_buffer p; pool_size := pool_size p; allocated_size := allocated_size p;
     memory_per_token := m; _initialized := _initialized p; use_vmm := use_vmm p;
     _vmm_allocator := _vmm_allocator p; _current_mapped_size := _current_mapped_size p;
     _vmm_chunk_size := _vmm_chunk_size p |}.

(** [ActivationMemoryPool.__init__]; [env_vmm] and [env_chunk] are the values
    of [VLLM_USE_VMM] and [VLLM_VMM_CHUNK_SIZE], [importable] tells whether
    [vmm_allocator] can be imported. *)
Definition make_pool (use_vmm_arg : option bool) (env_vmm : string) (env_chunk : option Z)
    (importable : bool) : Pool :=
  let requested := match use_vmm_arg with Some b => b | None => String.eqb env_vmm "1" end in
  {| pool_buffer := None; pool_size := 0; allocated_size := 0; memory_per_token := 0;
     _initialized := false; use_vmm := requested && importable; _vmm_allocator := None;
     _current_mapped_size := 0; _vmm_chunk_size := default (512 * 1024 ^ 2) env_chunk |}.

(** [int(free * 0.9)] in binary64 arithmetic ([1.0 - 0.1] is the double
    [8106479329266893 / 2 ^ 53]): exact product, rounding to nearest even at 53
    bits, truncation. *)
Definition round_half_even (p e : Z) : Z :=
  let q := p / 2 ^ e in
  let r := p mod 2 ^ e in
  let half := 2 ^ (e - 1) in
  if e <=? 0 then p
  else if (half <? r) || ((half =? r) && Z.odd q) then q + 1 else q.
Definition int_mul_0_9 (free : Z) : Z :=
  let p := free * 8106479329266893 in
  let e := Z.max 0 (Z.log2 p + 1 - 53) in
  round_half_even p e * 2 ^ e / 2 ^ 53.

Section pool.
Context (cu : CuCall -> bool) (granularity : Z) (torch_empty : Z -> bool).

(** [_allocate_vmm_pool] *)
Definition _allocate_vmm_pool (p : Pool) : res unit * Pool :=
  if negb (use_vmm p) then (Raise RuntimeError, p)
  else
    match VMM.reserve cu (VMM.make granularity) (pool_size p) with
    | (Raise e, v) => (Raise e, set_vmm p (Some v) (_current_mapped_size p))
    | (Ok _, v) =>
        (Ok tt, set_vmm (set_buffer p (pool_size p) (Some {| buf_start := 0; buf_len := pool_size p |}))
                  (Some v) 0)
    end.

(** One attempt to obtain the buffer: the two arms of the [try] body. *)
Definition obtain_buffer (p : Pool) : res unit * Pool :=
  if use_vmm p then _allocate_vmm_pool p
  else if torch_empty (pool_size p)
       then (Ok tt, set_buffer p (pool_size p) (Some {| buf_start := 0; buf_len := pool_size p |}))
       else (Raise RuntimeError, p).

(** [initialize_pool]; [free1] and [free2] are the results of the two calls of
    [torch.cuda.mem_get_info]. *)
Definition initialize_pool (total_bytes : option Z) (free1 free2 : Z) (p : Pool) : res unit * Pool :=
  if _initialized p then (Ok tt, p)
  else
    let size := match total_bytes with Some b => b | None => int_mul_0_9 free1 end in
    match obtain_buffer (set_buffer p size (pool_buffer p)) with
    | (Ok _, p1) => (Ok tt, set_ready p1)
    | (Raise e, p1) =>
        match total_bytes with
        | Some _ => (Raise e, p1)
        | None =>
            match obtain_buffer (set_buffer p1 (free2 / 2) (pool_buffer p1)) with
            | (Ok _, p2) => (Ok tt, set_ready p2)
            | (Raise e2, p2) => (Raise e2, p2)
            end
        end
    end.

(** [_ensure_mapped] *)
Definition _ensure_mapped (p : Pool) (required_bytes : Z) : res unit * Pool :=
  match _vmm_allocator p with
  | None => (Ok tt, p)
  | Some v =>
      if negb (use_vmm p) then (Ok tt, p)
      else if required_bytes <=? _current_mapped_size p then (Ok tt, p)
      else
        match py_div (required_bytes + _vmm_chunk_size p - 1) (_vmm_chunk_size p) with
        | Raise e => (Raise e, p)
        | Ok chunks =>
            let new_mapped_size := Z.min (chunks * _vmm_chunk_size p) (pool_size p) in
            if new_mapped_size <=? _current_mapped_size p then (Ok tt, p)
            else
              match VMM.map_physical cu v 0 new_mapped_size with
              | (Raise e, v') => (Raise e, set_vmm p (Some v') (_current_mapped_size p))
              | (Ok _, v') => (Ok tt, set_vmm p (Some v') new_mapped_size)
              end
        end
  end.

(** [buffer[:n]] *)
Definition py_clamp (len i : Z) : Z :=
  if i <? 0 then Z.max 0 (len + i) else Z.min len i.
Definition slice_buffer (b : Buffer) (i j : Z) : Buffer :=
  let lo := py_clamp (buf_len b) i in
  let hi := py_clamp (buf_len b) j in
  {| buf_start := buf_start b + lo; buf_len := Z.max 0 (hi - lo) |}.

(** [calculate_max_num_tokens] *)
Definition calculate_max_num_tokens (p : Pool) : Z :=
  if negb (_initialized p) || (memory_per_token p =? 0) then 1
  else Z.max 1 (pool_size p / memory_per_token p).

(** [allocate_for_tokens]: the slice is overwritten with the whole buffer. *)
Definition allocate_for_tokens (p : Pool) (num_tokens : Z) : res Buffer :=
  if negb (_initialized p) then Raise RuntimeError
  else if pool_size p <? num_tokens * memory_per_token p then Raise RuntimeError
  else of_option TypeError (pool_buffer p).

(** [allocate_for_tokens_with_size] *)
Definition allocate_for_tokens_with_size (p : Pool) (num_tokens required_memory : Z) : res Buffer * Pool :=
  if negb (_initialized p) then (Raise RuntimeError, p)
  else if pool_size p <? required_memory then (Raise RuntimeError, p)
  else
    match (if use_vmm p then _ensure_mapped p required_memory else (Ok tt, p)) with
    | (Raise e, p') => (Raise e, p')
    | (Ok _, p') =>
        (let! b := of_option TypeError (pool_buffer p') in Ok (slice_buffer b 0 required_memory), p')
    end.
End pool.

(** ** Tensor views *)

Record TensorView : Type := {
  view_start : Z; view_bytes : Z; view_shape : list Z; view_dtype : Dtype }.

(** [tensor.reshape(shape)] on [numel] elements, with at most one [-1]. *)
Definition torch_reshape (numel : Z) (sh : list Z) : res (list Z) :=
  let others := List.filter (fun d => negb (d =? -1)) sh in
  let known := fold_left Z.mul others 1 in
  if existsb (fun d => d <? 0) others then Raise RuntimeError
  else if (length sh =? length others)%nat then
    if known =? numel then Ok sh else Raise RuntimeError
  else if (length sh =? S (length others))%nat then
    if (0 <? known) && (numel mod known =? 0)
    then Ok (map (fun d => if d =? -1 then numel / known else d) sh)
    else Raise RuntimeError
  else Raise RuntimeError.

(** [get_tensor_view]; [.view(dtype)] raises unless the byte length and the
    storage offset are multiples of the element size. *)
Definition get_tensor_view (b : Buffer) (sh : list Z) (d : Dtype) (offset_bytes : Z) : res TensorView :=
  if negb (forallb (fun x => wrap64 x =? x) sh) then Raise RuntimeError
  else
    let element_size := dtype_bits d / 8 in
    let total_elements := torch_prod sh in
    let required_bytes := total_elements * element_size in
    if buf_len b <? offset_bytes + required_bytes then Raise RuntimeError
    else
      let v := slice_buffer b offset_bytes (offset_bytes + required_bytes) in
      if negb ((buf_len v mod element_size =? 0) && (buf_start v mod element_size =? 0)) then Raise RuntimeError
      else
        let! sh' := torch_reshape (buf_len v / element_size) sh in
        Ok {| view_start := buf_start v; view_bytes := buf_len v; view_shape := sh'; view_dtype := d |}.

(** [deallocate] *)
Definition deallocate (p : Pool) : Pool :=
  {| pool_buffer := pool_buffer p; pool_size := pool_size p; allocated_size := 0;
     memory_per_token := memory_per_token p; _initialized := _initialized p; use_vmm := use_vmm p;
     _vmm_allocator := _vmm_allocator p; _current_mapped_size := _current_mapped_size p;
     _vmm_chunk_size := _vmm_chunk_size p |}.

(** [get_memory_stats]; sizes stay in bytes. *)
Record PoolStats : Type := {
  s_pool_size : Z; s_allocated_size : Z; s_memory_per_token : Z; s_utilization : Q;
  s_initialized : bool; s_use_vmm : bool; s_vmm : option (Z * Z * Z) }.
Definition get_memory_stats (p : Pool) : PoolStats :=
  {| s_pool_size := pool_size p; s_allocated_size := allocated_size p;
     s_memory_per_token := memory_per_token p;
     s_utilization := if 0 <? pool_size p then (inject_Z (allocated_size p) / inject_Z (pool_size p))%Q else 0%Q;
     s_initialized := _initialized p; s_use_vmm := use_vmm p;
     s_vmm := match _vmm_allocator p with
              | Some v => if use_vmm p
                          then Some (VMM.reserved_size_ v, VMM.mapped_size_ v, VMM.reserved_size_ v - VMM.mapped_size_ v)
                          else None
              | None => None
              end |}.

(** ** What initialisation establishes *)

Lemma u64_id z : 0 <= z < 2 ^ 64 -> u64 z = z.
Proof. intros. unfold u64. by rewrite Z.mod_small. Qed.

(** [align_up] is the least multiple of the granularity that is not smaller. *)
Lemma align_up_spec size g :
  0 < g -> 0 <= size -> size + g < 2 ^ 64 ->
  VMM.align_up size g = cdiv size g * g /\ size <= VMM.align_up size g < size + g /\ (g | VMM.align_up size g).
Proof.
  intros Hg Hs Hb. unfold VMM.align_up. pose proof (cdiv_spec size g Hg) as Hc.
  rewrite (u64_id (size + g - 1)) by lia. rewrite div_up_cdiv by done.
  rewrite (Z.mul_comm (cdiv size g)). rewrite u64_id by lia. split; [lia|]. split; [lia|]. rewrite Z.mul_comm. apply Z.divide_factor_r.
Qed.

(** The granularity is positive and page-sized requests do not overflow. *)
Definition small (g size : Z) : Prop := 0 < g /\ 0 <= size /\ size + g < 2 ^ 64.

(** An initialised pool: the buffer spans the pool; in VMM mode the allocator
    has reserved it and mapped at least what the pool believes is mapped. *)
Record pool_ok (p : Pool) : Prop := {
  po_init : _initialized p = true;
  po_size : 0 <= pool_size p;
  po_buffer : pool_buffer p = Some {| buf_start := 0; buf_len := pool_size p |};
  po_chunk : 0 < _vmm_chunk_size p;
  po_vmm : use_vmm p = true -> exists v, _vmm_allocator p = Some v /\
             VMM.initialized_ v = true /\ small (VMM.granularity_ v) (pool_size p) /\
             VMM.reserved_size_ v = VMM.align_up (pool_size p) (VMM.granularity_ v) /\
             0 <= _current_mapped_size p <= VMM.mapped_size_ v /\
             VMM.mapped_size_ v <= VMM.reserved_size_ v /\
             _current_mapped_size p <= pool_size p }.

Section pool_facts.
Context (cu : CuCall -> bool) (granularity : Z) (torch_empty : Z -> bool).

Lemma obtain_buffer_ok p p' :
  0 < _vmm_chunk_size p -> small granularity (pool_size p) ->
  obtain_buffer cu granularity torch_empty p = (Ok tt, p') -> pool_ok (set_ready p') /\
  pool_size p' = pool_size p /\ use_vmm p' = use_vmm p.
Proof.
  intros Hc Hs. unfold obtain_buffer, _allocate_vmm_pool, VMM.reserve, VMM.make. cbn.
  destruct (use_vmm p) eqn:Hv; cbn.
  - destruct (cu _); [|done]. intros [= <-]. split; [|done].
    split; cbn; try done; [apply Hs|]. intros _. eexists. split; [done|]. cbn.
    destruct Hs as (? & ? & ?). pose proof (align_up_spec (pool_size p) granularity) as [? [? _]]; [done..|].
    split_and!; try done; lia.
  - destruct (torch_empty _); [|done]. intros [= <-]. split; [|done].
    split; cbn; try done; [apply Hs|]. by rewrite Hv.
Qed.

Lemma obtain_buffer_chunk p r p' :
  obtain_buffer cu granularity torch_empty p = (r, p') ->
  _vmm_chunk_size p' = _vmm_chunk_size p /\ use_vmm p' = use_vmm p.
Proof.
  unfold obtain_buffer, _allocate_vmm_pool, VMM.reserve, VMM.make. cbn.
  destruct (use_vmm p) eqn:Hv; cbn; [destruct (cu _)|destruct (torch_empty _)]; intros [= <- <-]; done.
Qed.

Lemma initialize_pool_ok total free1 free2 p p' :
  0 < _vmm_chunk_size p -> _initialized p = false ->
  small granularity (match total with Some b => b | None => int_mul_0_9 free1 end) ->
  small granularity (free2 / 2) ->
  initialize_pool cu granularity torch_empty total free1 free2 p = (Ok tt, p') ->
  pool_ok p' /\ pool_size p' ∈ match total with Some b => [b] | None => [int_mul_0_9 free1; free2 / 2] end.
Proof.
  intros Hc Hi Hs1 Hs2. unfold initialize_pool. rewrite Hi.
  destruct (obtain_buffer _ _ _ _) as [[[]|e] p1] eqn:H1.
  - intros [= <-]. apply obtain_buffer_ok in H1 as (? & H1 & _); [|done|done]. split; [done|].
    cbn. rewrite H1. cbn. destruct total; set_solver.
  - destruct total; [done|]. destruct (obtain_buffer _ _ _ (set_buffer p1 _ _)) as [[[]|e2] p2] eqn:H2; [|done].
    intros [= <-]. apply obtain_buffer_chunk in H1 as [H1 _]. cbn in H1.
    apply obtain_buffer_ok in H2 as (? & H2 & _); [|cbn; lia|done]. split; [done|]. cbn. rewrite H2. cbn. set_solver.
Qed.

(** [_ensure_mapped] maps enough, in whole chunks, and never more than needed. *)
Lemma ensure_mapped_spec p req r p' :
  pool_ok p -> use_vmm p = true -> 0 <= req <= pool_size p ->
  _ensure_mapped cu p req = (r, p') ->
  pool_ok p' /\ pool_size p' = pool_size p /\ use_vmm p' = true /\ pool_buffer p' = pool_buffer p /\
  _current_mapped_size p <= _current_mapped_size p' /\
  _current_mapped_size p' < Z.max (_current_mapped_size p + 1) (req + _vmm_chunk_size p) /\
  match r with
  | Ok _ => req <= _current_mapped_size p'
  | Raise e => e = RuntimeError /\ p' = p /\ _current_mapped_size p < req /\ exists c, cu c = false
  end.
Proof.
  intros Hp Hv Hreq H. destruct (po_vmm _ Hp Hv) as (v & Hvm & Hin & (Hg & Hs0 & Hs64) & Hres & Hcur & Hmap & Hle).
  pose proof (po_chunk _ Hp) as Hc. unfold _ensure_mapped in H. rewrite Hvm, Hv in H. cbn [negb] in H.
  destruct (Z.leb_spec req (_current_mapped_size p)) as [Hdone|Hmore].
  { injection H as <- <-. split_and!; try done; lia. }
  unfold py_div in H. destruct (Z.eqb_spec (_vmm_chunk_size p) 0); [lia|].
  rewrite div_up_cdiv in H by done. pose proof (cdiv_spec req (_vmm_chunk_size p) Hc) as Hcd.
  set (new := Z.min (cdiv req (_vmm_chunk_size p) * _vmm_chunk_size p) (pool_size p)) in *.
  assert (Hnew : req <= new < req + _vmm_chunk_size p /\ new <= pool_size p) by (unfold new; rewrite (Z.mul_comm (cdiv _ _)); lia).
  destruct (Z.leb_spec new (_current_mapped_size p)); [lia|].
  destruct (align_up_spec (pool_size p) (VMM.granularity_ v)) as (Hpa & Hpb & _); [done..|].
  destruct (align_up_spec new (VMM.granularity_ v)) as (Hna & Hnb & _); [lia..|].
  destruct (align_up_spec 0 (VMM.granularity_ v)) as (Hz & _); [lia..|].
  rewrite cdiv_0, Z.mul_0_l in Hz by done.
  assert (Hmono : VMM.align_up new (VMM.granularity_ v) <= VMM.align_up (pool_size p) (VMM.granularity_ v)).
  { rewrite Hpa, Hna. apply Z.mul_le_mono_nonneg_r; [lia|]. apply cdiv_mono; lia. }
  unfold VMM.map_physical in H. rewrite Hin, Hz, Z.add_0_l in H. cbn [negb] in H.
  rewrite u64_id in H by lia.
  destruct (Z.ltb_spec (VMM.reserved_size_ v) (VMM.align_up new (VMM.granularity_ v))); [lia|].
  assert (Hok : forall v', VMM.initialized_ v' = true -> VMM.granularity_ v' = VMM.granularity_ v ->
            VMM.reserved_size_ v' = VMM.reserved_size_ v -> new <= VMM.mapped_size_ v' <= VMM.reserved_size_ v ->
            pool_ok (set_vmm p (Some v') new)).
  { intros v' E1 E2 E3 E4. destruct Hp as [I1 I2 I3 I4 I5]. split; try done.
    intros _. exists v'. cbn. rewrite E2, E3. unfold small. split_and!; try done; lia. }
  destruct (Z.leb_spec (VMM.align_up new (VMM.granularity_ v)) (VMM.mapped_size_ v)).
  { injection H as <- <-. split; [apply Hok; done || lia|]. cbn. split_and!; try done; lia. }
  destruct (cu _ && _ && _) eqn:Hcu.
  { injection H as <- <-. split; [apply Hok; cbn; done || lia|]. cbn. split_and!; try done; lia. }
  assert (Hsame : set_vmm p (Some v) (_current_mapped_size p) = p).
  { rewrite <-Hvm. by destruct p. }
  injection H as <- <-. rewrite Hsame. split_and!; try done; try lia.
  apply andb_false_iff in Hcu as [[?|?]%andb_false_iff|?]; eauto.
Qed.
End pool_facts.

(** An initialisation that succeeds makes the pool ready: the buffer has
    the requested size (or 90%, then 50%, of the free memory in the automatic
    mode), and in VMM mode the address space is reserved with nothing mapped
    beyond it.  A size that was asked for explicitly is never reduced. *)
Theorem initialize_pool_ready cu granularity torch_empty total free1 free2 arg env_vmm env_chunk importable p' :
  0 < default (512 * 1024 ^ 2) env_chunk ->
  small granularity (match total with Some b => b | None => int_mul_0_9 free1 end) ->
  small granularity (free2 / 2) ->
  initialize_pool cu granularity torch_empty total free1 free2
    (make_pool arg env_vmm env_chunk importable) = (Ok tt, p') ->
  pool_ok p' /\ pool_size p' ∈ match total with Some b => [b] | None => [int_mul_0_9 free1; free2 / 2] end.
Proof. intros Hc. by apply initialize_pool_ok. Qed.

Lemma allocate_mapped_aux cu p num_tokens required r p' :
  pool_ok p -> 0 <= required ->
  allocate_for_tokens_with_size cu p num_tokens required = (r, p') ->
  pool_ok p' /\ pool_size p' = pool_size p /\
  match r with
  | Ok b => required <= pool_size p /\ b = {| buf_start := 0; buf_len := required |} /\
      (use_vmm p = true -> exists v, _vmm_allocator p' = Some v /\ required <= VMM.mapped_size_ v /\
         _current_mapped_size p <= _current_mapped_size p' <
           Z.max (_current_mapped_size p + 1) (required + _vmm_chunk_size p))
  | Raise e => e = RuntimeError /\ p' = p /\
      (pool_size p < required \/ (use_vmm p = true /\ exists c, cu c = false))
  end.
Proof.
  intros Hp Hreq. unfold allocate_for_tokens_with_size. rewrite (po_init _ Hp). cbn [negb].
  destruct (Z.ltb_spec (pool_size p) required); [intros [= <- <-]; split_and!; auto|].
  assert (Hsl : forall n, 0 <= required <= n ->
            slice_buffer {| buf_start := 0; buf_len := n |} 0 required = {| buf_start := 0; buf_len := required |}).
  { intros n Hn. unfold slice_buffer, py_clamp. cbn. destruct (Z.ltb_spec required 0); [lia|]. f_equal; lia. }
  destruct (use_vmm p) eqn:Hv.
  - destruct (_ensure_mapped cu p required) as [r1 p1] eqn:Hem.
    destruct (ensure_mapped_spec cu p required r1 p1 Hp Hv ltac:(lia) Hem) as (Hp1 & Hsz & Hv1 & Hbuf & Hm1 & Hm2 & Hr).
    destruct r1 as [u|e]; intros [= <- <-].
    + rewrite Hbuf, (po_buffer _ Hp). cbn [of_option bind]. split; [done|]. split; [done|].
      split; [lia|]. split; [apply Hsl; lia|]. intros _.
      destruct (po_vmm _ Hp1 Hv1) as (v & ? & _ & _ & _ & ? & _). exists v. split_and!; try done; lia.
    + destruct Hr as (-> & -> & _ & Hc). auto 10.
  - intros [= <- <-]. rewrite (po_buffer _ Hp). cbn [of_option bind].
    split; [done|]. split; [done|]. split; [lia|]. split; [apply Hsl; lia|done].
Qed.

(** [allocate_for_tokens_with_size] on a ready pool: a request is refused
    with [RuntimeError] when it exceeds the pool, otherwise it gets the first
    [required] bytes; in VMM mode these bytes are physically mapped when the
    call returns, less than one chunk beyond the request is newly mapped, and
    the only other failure is a driver error, which leaves the pool as it was. *)
Theorem allocate_mapped cu p num_tokens required r p' :
  pool_ok p -> 0 <= required ->
  allocate_for_tokens_with_size cu p num_tokens required = (r, p') ->
  pool_ok p' /\ pool_size p' = pool_size p /\
  match r with
  | Ok b => required <= pool_size p /\ b = {| buf_start := 0; buf_len := required |} /\
      (use_vmm p = true -> exists v, _vmm_allocator p' = Some v /\ required <= VMM.mapped_size_ v /\
         _current_mapped_size p <= _current_mapped_size p' <
           Z.max (_current_mapped_size p + 1) (required + _vmm_chunk_size p))
  | Raise e => e = RuntimeError /\ p' = p /\
      (pool_size p < required \/ (use_vmm p = true /\ exists c, cu c = false))
  end.
Proof. apply allocate_mapped_aux. Qed.

Definition demo_pool : Pool :=
  snd (initialize_pool (fun _ => true) (2 * 1024 ^ 2) (fun _ => true) (Some (1024 ^ 3)) 0 0
         (make_pool (Some true) "0" None true)).

Lemma initialize_pool_ready_witness : pool_ok demo_pool /\ pool_size demo_pool ∈ [1024 ^ 3].
Proof.
  apply (initialize_pool_ready (fun _ => true) (2 * 1024 ^ 2) (fun _ => true) (Some (1024 ^ 3)) 0 0
           (Some true) "0" None true demo_pool);
    [reflexivity|unfold small; split_and!; (reflexivity || discriminate)|unfold small; split_and!; (reflexivity || discriminate)|vm_compute; reflexivity].
Defined.

Lemma demo_pool_ok : pool_ok demo_pool.
Proof.
  apply (initialize_pool_ok (fun _ => true) (2 * 1024 ^ 2) (fun _ => true) (Some (1024 ^ 3)) 0 0
           (make_pool (Some true) "0" None true) demo_pool);
    [reflexivity|reflexivity|unfold small; split_and!; (reflexivity || discriminate)|unfold small; split_and!; (reflexivity || discriminate)|vm_compute; reflexivity].
Qed.

Lemma allocate_mapped_witness :
  exists b p', allocate_for_tokens_with_size (fun _ => true) demo_pool 7 1000 = (Ok b, p') /\
    b = {| buf_start := 0; buf_len := 1000 |} /\ pool_ok p'.
Proof.
  destruct (allocate_for_tokens_with_size (fun _ => true) demo_pool 7 1000) as [[b|e] p'] eqn:E.
  - exists b, p'. destruct (allocate_mapped (fun _ => true) demo_pool 7 1000 (Ok b) p' demo_pool_ok ltac:(lia) E)
      as (Hp & _ & _ & Hb & _). auto.
  - exfalso. vm_compute in E. discriminate.
Defined.
