(* ===== verification/ModelActivations.v ===== *)
(** * From a request to tensor views ([llada_model.py], [dream_model.py], [llada_moe_model.py])

    The three model wrappers share the same two methods:
    [get_optimized_reuse_plan] (whole graph, or the searched chunk
    configuration) and [allocate_activation_tensors_with_reuse_plan] (one range
    of the pool, one view per planned tensor, [None] on any exception). *)

From stdpp Require Import base gmap strings list sorting fin_maps fin_sets.
From Stdlib Require Import ZArith Lia QArith.
From S2P Require Import Prelude GraphBuilder MemoryPlan ChunkComponents BlockGraphs BlockPlans OnlineSearcher ActivationPool.
Open Scope string_scope.
Open Scope list_scope.
Open Scope Z_scope.

Inductive Model : Set := LLaDAModel | DreamModel | LLaDAMoEModel.

(** The [model_name] each wrapper passes to the searcher. *)
Definition search_name (m : Model) : string :=
  match m with LLaDAModel => "llada" | DreamModel => "dream" | LLaDAMoEModel => "llada-moe" end.
Definition whole_graph (m : Model) : Z -> Z -> res CustomGraph :=
  match m with
  | LLaDAModel => define_llada_block_graph
  | DreamModel => define_dream_block_graph
  | LLaDAMoEModel => define_llada_moe_block_graph
  end.
Definition chunkwise_graph (m : Model) : Z -> Z -> bool -> bool -> Z -> Z -> res CustomGraph :=
  match m with
  | LLaDAModel => define_llada_block_graph_chunkwise
  | DreamModel => define_dream_block_graph_chunkwise
  | LLaDAMoEModel => define_llada_moe_block_graph_chunkwise
  end.

(** The tail of [get_optimized_reuse_plan]: analyse the graph, keep the plan. *)
Definition plan_of (graph : res CustomGraph) : res ReusePlan :=
  let! g := graph in
  let! a := analyze g in
  Ok (a_reuse_plan a).

(** [get_optimized_reuse_plan]; the second component is
    [_current_chunk_strategy].  [use_chunkwise] is [VLLM_USE_CHUNKWISE_GRAPH]. *)
Definition get_optimized_reuse_plan (fuel : nat) (use_chunkwise : bool) (m : Model)
    (pool : option Pool) (N M : Z) : fueled (res (ReusePlan * option Strategy)) :=
  if negb use_chunkwise then
    Done (let! p := plan_of (whole_graph m N M) in Ok (p, None))
  else
    match pool with
    | None => Done (Raise RuntimeError)
    | Some p =>
        if negb (_initialized p) then Done (Raise RuntimeError)
        else
          match search_optimal_config_online fuel N M (pool_size p) (search_name m) with
          | OutOfFuel => OutOfFuel
          | Done (Raise e) => Done (Raise e)
          | Done (Ok s) =>
              let c := st_config s in
              Done (let! rp := plan_of (chunkwise_graph m N M (chunk_logits c) (chunk_mlp c)
                                 (num_chunks_logits c) (num_chunks_mlp c)) in
                    Ok (rp, Some s))
          end
    end.

(** The loop over [reuse_plan.items()]; names that start with [_] are metadata. *)
Fixpoint view_loop (b : Buffer) (items : list (string * PlanEntry)) (tensors : gmap string TensorView) :
    res (gmap string TensorView) :=
  match items with
  | [] => Ok tensors
  | (tensor_name, plan) :: items =>
      if String.prefix "_" tensor_name then view_loop b items tensors
      else
        let! v := get_tensor_view b (pshape plan) (pdtype plan) (offset plan) in
        view_loop b items (<[tensor_name := v]> tensors)
  end.

(** [allocate_activation_tensors_with_reuse_plan]: [None] is the fallback. *)
Definition allocate_activation_tensors_with_reuse_plan (cu : CuCall -> bool) (fuel : nat)
    (use_chunkwise : bool) (m : Model) (pool : option Pool) (N M : Z) :
    fueled (option (gmap string TensorView) * option Pool) :=
  match pool with
  | None => Done (None, None)
  | Some p =>
      if negb (_initialized p) then Done (None, Some p)
      else
        match get_optimized_reuse_plan fuel use_chunkwise m pool N M with
        | OutOfFuel => OutOfFuel
        | Done (Raise _) => Done (None, Some p)
        | Done (Ok (rp, _)) =>
            match allocate_for_tokens_with_size cu p N (total_buffer_size_bytes rp) with
            | (Raise _, p') => Done (None, Some p')
            | (Ok b, p') =>
                match view_loop b (map_to_list (entries rp)) ∅ with
                | Raise _ => Done (None, Some p')
                | Ok tensors => Done (Some tensors, Some p')
                end
            end
        end
  end.

(** The methods of the three wrapper classes. *)
Module Llada.
Definition get_optimized_reuse_plan fuel use_chunkwise pool N M :=
  get_optimized_reuse_plan fuel use_chunkwise LLaDAModel pool N M.
Definition allocate_activation_tensors_with_reuse_plan cu fuel use_chunkwise pool N M :=
  allocate_activation_tensors_with_reuse_plan cu fuel use_chunkwise LLaDAModel pool N M.
End Llada.
Module Dream.
Definition get_optimized_reuse_plan fuel use_chunkwise pool N M :=
  get_optimized_reuse_plan fuel use_chunkwise DreamModel pool N M.
Definition allocate_activation_tensors_with_reuse_plan cu fuel use_chunkwise pool N M :=
  allocate_activation_tensors_with_reuse_plan cu fuel use_chunkwise DreamModel pool N M.
End Dream.
Module LladaMoe.
Definition get_optimized_reuse_plan fuel use_chunkwise pool N M :=
  get_optimized_reuse_plan fuel use_chunkwise LLaDAMoEModel pool N M.
Definition allocate_activation_tensors_with_reuse_plan cu fuel use_chunkwise pool N M :=
  allocate_activation_tensors_with_reuse_plan cu fuel use_chunkwise LLaDAMoEModel pool N M.
End LladaMoe.

(** ** The plan without reuse ([LLaDAModel.get_naive_reuse_plan]) *)

Record ModelConfig : Type := { d_model : Z; n_heads : Z; effective_n_kv_heads : Z; mlp_hidden_size : Z }.

(** [tensor_specs], in execution order. *)
Definition naive_specs (c : ModelConfig) (num_tokens head_dim : Z) : list (string * list Z) :=
  let t := num_tokens in
  let kv := effective_n_kv_heads c * head_dim in
  let hidden := mlp_hidden_size c in
  [("x", [t; d_model c]); ("x_normed", [t; d_model c]); ("q", [t; d_model c]); ("k", [t; kv]); ("v", [t; kv]);
   ("att_tmp", [t; n_heads c; head_dim]); ("att_out", [t; d_model c]); ("mlp_x", [t; hidden]);
   ("mlp_x_up", [t; hidden]); ("mlp_activated", [t; hidden]); ("mlp_gated", [t; hidden])].

(** The accumulation loop: the entries in order and the final offset. *)
Fixpoint naive_loop (specs : list (string * list Z)) (offset : Z) : res (list (string * PlanEntry) * Z) :=
  match specs with
  | [] => Ok ([], offset)
  | (name, sh) :: specs =>
      let! spec := mk_TensorSpec sh bfloat16 in
      let! '(plan, total) := naive_loop specs (offset + size_bytes spec) in
      Ok ((name, {| offset := offset; psize := size_bytes spec; pshape := sh; pdtype := bfloat16 |}) :: plan, total)
  end.
Definition get_naive_reuse_plan (c : ModelConfig) (num_tokens : Z) : res (list (string * PlanEntry) * Z) :=
  let! head_dim := py_div (d_model c) (n_heads c) in
  naive_loop (naive_specs c num_tokens head_dim) 0.

(** ** Views of a block plan *)

Definition entry_view (e : PlanEntry) : TensorView :=
  {| view_start := offset e; view_bytes := psize e; view_shape := pshape e; view_dtype := pdtype e |}.

(** An entry of which a view can be taken: exact size, aligned offset. *)
Definition viewable (e : PlanEntry) : Prop :=
  fits (pshape e) /\ psize e = zprod (pshape e) * (dtype_bits (pdtype e) / 8) /\
  offset e mod (dtype_bits (pdtype e) / 8) = 0.

Lemma fold_left_mul l a : fold_left Z.mul l a = a * zprod l.
Proof. revert a. induction l as [|d l IH]; intros a; cbn; [lia|]. rewrite IH. lia. Qed.

Lemma torch_reshape_exact sh : Forall (fun d => 1 <= d) sh -> torch_reshape (zprod sh) sh = Ok sh.
Proof.
  intros Hs. unfold torch_reshape.
  assert (Hf : List.filter (fun d => negb (d =? -1)) sh = sh).
  { induction Hs as [|d l Hd _ IH]; cbn; [done|]. destruct (Z.eqb_spec d (-1)); [lia|]. cbn. by rewrite IH. }
  rewrite Hf, fold_left_mul, Z.mul_1_l, Z.eqb_refl, Nat.eqb_refl.
  replace (existsb _ sh) with false; [done|]. symmetry. apply not_true_iff_false. intros (d & Hd & Hlt)%existsb_exists.
  rewrite Forall_forall in Hs. apply list_elem_of_In in Hd. specialize (Hs d Hd). lia.
Qed.

Lemma fits_wrap sh : fits sh -> forallb (fun x => wrap64 x =? x) sh = true /\ torch_prod sh = zprod sh.
Proof.
  intros Hf. pose proof (mk_TensorSpec_fits sh int8 Hf) as H. unfold mk_TensorSpec in H.
  destruct (forallb _ sh); [|done]. split; [done|]. injection H as H. cbn in H.
  change (8 / 8) with 1 in H. lia.
Qed.

Lemma dtype_width d : 1 <= dtype_bits d / 8.
Proof. by destruct d. Qed.

(** The view of a viewable entry is exactly its range of the buffer. *)
Lemma get_tensor_view_entry e total :
  viewable e -> 0 <= offset e -> offset e + psize e <= total ->
  get_tensor_view {| buf_start := 0; buf_len := total |} (pshape e) (pdtype e) (offset e) = Ok (entry_view e).
Proof.
  intros (Hf & Hs & Ha) Ho Ht. destruct (fits_wrap _ Hf) as [Hw Hp]. pose proof (dtype_width (pdtype e)) as Hd.
  destruct Hf as [Hdims Hb]. pose proof (zprod_pos _ Hdims) as Hpos.
  unfold get_tensor_view. rewrite Hw, Hp, <-Hs. cbn [negb buf_len].
  assert (Hps : 0 < psize e) by nia.
  destruct (Z.ltb_spec total (offset e + psize e)); [lia|].
  unfold slice_buffer, py_clamp. cbn [buf_start buf_len].
  destruct (Z.ltb_spec (offset e) 0), (Z.ltb_spec (offset e + psize e) 0); try lia.
  rewrite !Z.min_r by lia. replace (Z.max 0 (offset e + psize e - offset e)) with (psize e) by lia.
  rewrite Z.add_0_l, Ha, Hs, Z.mod_mul, Z.div_mul by lia. cbn [Z.eqb andb negb].
  rewrite torch_reshape_exact by done. cbn. unfold entry_view. by rewrite <-Hs.
Qed.

Lemma view_loop_all b items acc :
  Forall (fun kv => String.prefix "_" (fst kv) = false /\
            get_tensor_view b (pshape (snd kv)) (pdtype (snd kv)) (offset (snd kv)) = Ok (entry_view (snd kv))) items ->
  view_loop b items acc = Ok (foldl (fun m kv => <[fst kv := entry_view (snd kv)]> m) acc items).
Proof.
  intros H. revert acc. induction H as [|[k e] items [Hk Hv] _ IH]; intros acc; cbn in *; [done|].
  rewrite Hk, Hv. cbn. apply IH.
Qed.

Lemma foldl_insert_map (l : list (string * PlanEntry)) (acc : gmap string TensorView) :
  NoDup l.*1 -> foldl (fun m kv => <[fst kv := entry_view (snd kv)]> m) acc l
           = (entry_view <$> list_to_map l) ∪ acc.
Proof.
  revert acc. induction l as [|[k e] l IH]; intros acc Hnd; cbn.
  - by rewrite fmap_empty, map_empty_union.
  - cbn in Hnd. apply NoDup_cons in Hnd as [Hk Hnd]. rewrite IH by done.
    rewrite fmap_insert. apply map_eq. intros i.
    destruct (decide (i = k)) as [->|Hne].
    + assert (Hnone : (entry_view <$> list_to_map l : gmap string TensorView) !! k = None)
        by (by rewrite lookup_fmap, not_elem_of_list_to_map_1).
      rewrite lookup_union_r, lookup_insert_eq by done.
      symmetry. apply lookup_union_Some_l. by rewrite lookup_insert_eq.
    + rewrite !lookup_union, !lookup_insert_ne by done. done.
Qed.

Lemma view_loop_plan b (m : gmap string PlanEntry) :
  (forall k e, m !! k = Some e -> String.prefix "_" k = false /\
     get_tensor_view b (pshape e) (pdtype e) (offset e) = Ok (entry_view e)) ->
  view_loop b (map_to_list m) ∅ = Ok (entry_view <$> m).
Proof.
  intros H. rewrite view_loop_all.
  - rewrite foldl_insert_map by apply NoDup_fst_map_to_list. by rewrite map_union_empty, list_to_map_to_list.
  - apply Forall_forall. intros [k e] Hin%elem_of_map_to_list. by apply H.
Qed.

(** Every planned tensor of a block graph can be viewed: tensors of odd size
    (the one-byte barriers) are never read, so first fit never places anything
    behind them. *)
Section viewable.
Context (g : CustomGraph) (l : list OpNode) (ch : bool) (s : Z) (p : ReusePlan).
Context (Hb : built g l {["final_output" := "x"]}) (Hs : block_shape l ch s).
Context (Hp : _generate_optimized_reuse_plan g = Ok p).

Let Hwf := built_wf _ _ _ Hb.
Let Ho := built_order _ _ _ Hb.
Let Hc := block_compatible g l ch s Hb Hs p Hp.

Lemma node_facts k n :
  l !! k = Some n ->
  spec_ok (output_spec n) /\ String.prefix "_" (output_name n) = false /\
  (dtype (output_spec n) = bfloat16 \/
   (dtype (output_spec n) = int8 /\ forall j, ~ read_from g (output_name n) j)).
Proof.
  intros Hk. pose proof (bs_spec _ _ _ Hs) as H1. pose proof (bs_read _ _ _ Hs) as H2.
  pose proof (bs_names _ _ _ Hs) as H3. rewrite Forall_lookup in H1, H2, H3.
  split; [by eapply H1|]. split; [by eapply H3|]. destruct (H2 _ _ Hk) as [?|[Hi Hn]]; [by left|right]. split; [done|].
  intros j (k' & r & Hj & Hr & Hin).
  assert (Hrd : read_from g (output_name n) 0) by (exists k', r; split; [lia|done]).
  apply read_from_b in Hrd. rewrite Ho in Hrd. congruence.
Qed.

(** A bfloat16 entry has an even offset. *)
Lemma even_offset k n e :
  l !! k = Some n -> entries p !! output_name n = Some e -> dtype (output_spec n) = bfloat16 ->
  offset e mod 2 = 0.
Proof.
  revert n e. induction k as [k IH] using lt_wf_ind. intros n e Hk He Hd.
  assert (Hk' : execution_order g !! k = Some n) by (by rewrite Ho).
  assert (Hlt : (k < length (execution_order g))%nat) by (by eapply lookup_lt_Some).
  destruct (aliases g !! output_name n) as [t|] eqn:Hal.
  - destruct (block_alias_at g l ch s Hb Hs k n t Hk Hal) as [-> ->].
    destruct (alias_offset g p n "x" e Hwf Hp ltac:(by eapply list_elem_of_lookup_2) Hal He) as (ex & Hex & -> & _).
    destruct (shape_facts g l ch s Hb Hs) as (_ & _ & _ & (nx & Hx & Hnx) & _).
    destruct (plan_first_fit g p _ Hwf Hp Hc 0 nx ex) as [[->|(i & ? & ? & ? & _)] _]; try done; try lia.
    + by rewrite Ho.
    + by rewrite Hnx.
    + destruct (aliases g !! output_name nx) eqn:E; [|done].
      destruct (block_alias_at g l ch s Hb Hs 0 nx _ Hx E) as [E0 _].
      unfold final_pos in E0. destruct ch; lia.
  - destruct (plan_first_fit g p _ Hwf Hp Hc k n e Hlt Hk' He Hal) as [[->|(i & ni & ei & Hik & Hi & Hei & Hrd & ->)] _]; [done|].
    rewrite Ho in Hi. destruct (node_facts i ni Hi) as ([_ Hsz] & _ & [Hdi|[_ Hn]]); [|by apply Hn in Hrd].
    pose proof (IH i Hik ni ei Hi Hei Hdi) as Hev.
    destruct (plan_entry_node g p Hwf Hp Hc _ _ Hei) as (k2 & n2 & Hk2 & Hname & ->).
    assert (n2 = ni) as ->.
    { assert (nodes g !! output_name ni = Some ni) by (apply Hwf; rewrite Ho; split; [by eapply list_elem_of_lookup_2|done]).
      assert (nodes g !! output_name n2 = Some n2) by (apply Hwf; split; [by eapply list_elem_of_lookup_2|done]).
      congruence. }
    cbn. unfold node_size. rewrite Hsz, Hdi. change (dtype_bits bfloat16 / 8) with 2.
    rewrite Z.mod_add by lia. done.
Qed.

Lemma block_entry_viewable name e :
  entries p !! name = Some e ->
  String.prefix "_" name = false /\ viewable e /\ 0 <= offset e /\
  offset e + psize e <= total_buffer_size_bytes p.
Proof.
  intros He. destruct (plan_entry_node g p Hwf Hp Hc _ _ He) as (k & n & Hk & Hn & Heq).
  rewrite Ho in Hk. destruct (node_facts k n Hk) as ([Hf Hsz] & Hpre & Hd).
  destruct (plan_entry_in_pool g p Hwf Hp Hc _ _ He) as (H0 & _ & Ht).
  rewrite <-Hn. split; [done|]. split; [|done]. unfold viewable. rewrite Heq. cbn [pshape psize pdtype offset plan_entry].
  split; [done|]. split; [done|].
  destruct Hd as [Hd|[Hd _]]; rewrite Hd.
  - change (dtype_bits bfloat16 / 8) with 2. eapply even_offset; eauto. by rewrite Hn.
  - change (dtype_bits int8 / 8) with 1. apply Z.mod_1_r.
Qed.
End viewable.

(** ** The end-to-end guarantee *)

Lemma define_graph_for_model m N M c :
  define_graph_for (search_name m) N M c =
    chunkwise_graph m N M (chunk_logits c) (chunk_mlp c) (num_chunks_logits c) (num_chunks_mlp c).
Proof.
  unfold define_graph_for. destruct (chunkwise_off_eq N M (num_chunks_logits c) (num_chunks_mlp c)) as (H1 & H2 & H3).
  destruct m; cbn [search_name chunkwise_graph].
  - change (is_moe "llada") with false. change (is_dream "llada") with false. cbn iota.
    destruct (chunk_logits c), (chunk_mlp c); cbn [negb andb]; [reflexivity..|symmetry; exact H1].
  - change (is_moe "dream") with false. change (is_dream "dream") with true. cbn iota.
    destruct (chunk_logits c), (chunk_mlp c); cbn [negb andb]; [reflexivity..|symmetry; exact H2].
  - change (is_moe "llada-moe") with true. cbn iota.
    destruct (chunk_logits c), (chunk_mlp c); cbn [negb andb]; [reflexivity..|symmetry; exact H3].
Qed.

Lemma chunkwise_graph_built m N M c :
  1 <= N <= 2 ^ 40 -> 1 <= M <= 2 ^ 40 -> config_ok c ->
  block_built (fun _ => True) (chunkwise_graph m N M (chunk_logits c) (chunk_mlp c) (num_chunks_logits c) (num_chunks_mlp c)).
Proof.
  intros HN HM Hc. rewrite <-define_graph_for_model.
  destruct (define_graph_for_family (search_name m) N M c Hc) as (Hin & Hnl & Hnm).
  exact (block_graphs_built _ _ _ _ _ _ _ HN HM Hnl Hnm Hin).
Qed.

Lemma whole_graph_built m N M :
  1 <= N <= 2 ^ 40 -> 1 <= M <= 2 ^ 40 -> block_built (fun _ => True) (whole_graph m N M).
Proof. intros HN HM. destruct m; [by apply llada_built|by apply dream_built|by apply llada_moe_built]. Qed.

(** The plan a wrapper executes comes from a block graph. *)
Lemma get_plan_built fuel use_chunkwise m pool N M rp st :
  1 <= N <= 2 ^ 40 -> 1 <= M <= 2 ^ 40 ->
  get_optimized_reuse_plan fuel use_chunkwise m pool N M = Done (Ok (rp, st)) ->
  (exists g l ch s, built g l {["final_output" := "x"]} /\ block_shape l ch s /\
     _generate_optimized_reuse_plan g = Ok rp) /\
  (use_chunkwise = true -> forall p, pool = Some p -> total_buffer_size_bytes rp <= pool_size p - 900 * mib).
Proof.
  intros HN HM. unfold get_optimized_reuse_plan. destruct use_chunkwise; cbn [negb].
  - destruct pool as [p|]; [|done]. destruct (_initialized p); cbn [negb]; [|done].
    destruct (search_optimal_config_online _ _ _ _ _) as [[s|e]|] eqn:Hsearch; try done.
    unfold search_optimal_config_online, search_with_margin in Hsearch.
    intros [= H]. destruct (search_loop_ok _ _ _ _ _ _ _ no_chunk_ok Hsearch) as (c & Hc & Hr).
    destruct (round_return _ _ _ _ _ _ Hr) as (g & a & Hg & Ha & Hcfg & Ht & _ & Hle & _).
    rewrite Hcfg in H. rewrite define_graph_for_model in Hg. rewrite Hg in H. unfold plan_of in H. cbn [bind] in H.
    rewrite Ha in H. cbn [bind] in H. injection H as <- _.
    pose proof (chunkwise_graph_built m N M c HN HM Hc) as (g' & l & ch & sz & Hg' & Hb & Hs & _).
    rewrite Hg in Hg'. injection Hg' as <-. split.
    + exists g, l, ch, sz. split; [done|]. split; [done|]. by apply analyze_plan.
    + intros _ p' [= <-]. unfold mib. lia.
  - intros [= H]. pose proof (whole_graph_built m N M HN HM) as (g & l & ch & sz & Hg & Hb & Hs & _).
    rewrite Hg in H. unfold plan_of in H. cbn [bind] in H. inv_res H.
    split; [|done]. exists g, l, ch, sz. split; [done|]. split; [done|].
    destruct H0 as (a & Ha & [= <-]). subst. by apply analyze_plan.
Qed.

(** C28. The tensors a model runs on: given its reuse plan, a ready pool of at
    least the planned size and a working driver, the wrapper gets one view per
    planned tensor, at exactly the planned byte range, shape and dtype, all in
    the pool, without falling back; with too small a pool it falls back and
    leaves the pool unchanged.  A plan found by the chunk search always fits,
    with 900 MiB to spare. *)
Theorem model_tensors_ok cu fuel use_chunkwise m p N M rp st :
  (forall c, cu c = true) -> pool_ok p -> 1 <= N <= 2 ^ 40 -> 1 <= M <= 2 ^ 40 ->
  get_optimized_reuse_plan fuel use_chunkwise m (Some p) N M = Done (Ok (rp, st)) ->
  (total_buffer_size_bytes rp <= pool_size p ->
     exists p', allocate_activation_tensors_with_reuse_plan cu fuel use_chunkwise m (Some p) N M
                  = Done (Some (entry_view <$> entries rp), Some p') /\ pool_ok p' /\
       forall name v, (entry_view <$> entries rp) !! name = Some v ->
         0 <= view_start v /\ view_start v + view_bytes v <= pool_size p) /\
  (pool_size p < total_buffer_size_bytes rp ->
     allocate_activation_tensors_with_reuse_plan cu fuel use_chunkwise m (Some p) N M = Done (None, Some p)) /\
  (use_chunkwise = true -> total_buffer_size_bytes rp + 900 * mib <= pool_size p).
Proof.
  intros Hcu Hp HN HM Hplan.
  destruct (get_plan_built _ _ _ _ _ _ _ _ HN HM Hplan) as [(g & l & ch & s & Hb & Hs & Hgen) Hfit].
  unfold allocate_activation_tensors_with_reuse_plan. rewrite (po_init _ Hp), Hplan. cbn [negb].
  pose proof (block_entry_viewable g l ch s rp Hb Hs Hgen) as Hview.
  assert (Htot : 0 <= total_buffer_size_bytes rp).
  { destruct (plan_full_inv g rp (built_wf _ _ _ Hb) Hgen (block_compatible g l ch s Hb Hs rp Hgen)) as (stt & Hinv & ->).
    cbn. rewrite (pv_max _ _ _ Hinv). apply zmax_list_ge_default. }
  split; [|split].
  - intros Hle. destruct (allocate_for_tokens_with_size cu p N (total_buffer_size_bytes rp)) as [r p'] eqn:Hal.
    destruct (allocate_mapped_aux _ _ _ _ _ _ Hp Htot Hal) as (Hp' & _ & Hr).
    destruct r as [b|e]; [|destruct Hr as (_ & _ & [?|[_ [c Hc]]]); [lia|by rewrite Hcu in Hc]].
    destruct Hr as (_ & -> & _). rewrite view_loop_plan.
    + exists p'. split; [done|]. split; [done|]. intros name v Hv. rewrite lookup_fmap in Hv.
      apply fmap_Some in Hv as (e & He & ->). destruct (Hview name e He) as (_ & _ & ? & ?). cbn. lia.
    + intros k e He. destruct (Hview k e He) as (? & ? & ? & ?). split; [done|]. by apply get_tensor_view_entry.
  - intros Hgt. unfold allocate_for_tokens_with_size. rewrite (po_init _ Hp). cbn [negb].
    by rewrite (proj2 (Z.ltb_lt _ _) Hgt).
  - intros Hch. specialize (Hfit Hch p eq_refl). lia.
Qed.

(** Dream on 200 tokens with 3 masked ones in a pool of 1 GiB. *)
Lemma model_tensors_ok_witness :
  exists rp st p', get_optimized_reuse_plan 5 true DreamModel (Some demo_pool) 200 3 = Done (Ok (rp, st)) /\
    allocate_activation_tensors_with_reuse_plan (fun _ => true) 5 true DreamModel (Some demo_pool) 200 3
      = Done (Some (entry_view <$> entries rp), Some p').
Proof.
  destruct (get_optimized_reuse_plan 5 true DreamModel (Some demo_pool) 200 3) as [[[rp st]|e]|] eqn:E;
    [|vm_compute in E; discriminate..].
  assert (Ht : total_buffer_size_bytes rp <= pool_size demo_pool)
    by (vm_compute in E; injection E as <- _; vm_compute; discriminate).
  destruct (model_tensors_ok (fun _ => true) 5 true DreamModel demo_pool 200 3 rp st (fun _ => eq_refl) demo_pool_ok
             ltac:(lia) ltac:(lia) E) as (H & _).
  destruct (H Ht) as (p' & Hal & _). exists rp, st, p'. auto.
Defined.

(** ** The plan without reuse *)

Lemma naive_loop_ok specs off :
  0 <= off -> off mod 2 = 0 -> Forall (fun ns => fits (snd ns)) specs ->
  exists plan total, naive_loop specs off = Ok (plan, total) /\ off <= total /\
    map (fun ke => (fst ke, pshape (snd ke))) plan = specs /\
    total = off + 2 * zsum (map (fun ns => zprod (snd ns)) specs) /\
    Forall (fun ke => viewable (snd ke) /\ off <= offset (snd ke) /\ offset (snd ke) + psize (snd ke) <= total) plan /\
    forall i j a b, (i < j)%nat -> plan !! i = Some a -> plan !! j = Some b ->
      offset (snd a) + psize (snd a) <= offset (snd b).
Proof.
  intros H0 Hev Hf. revert off H0 Hev. induction Hf as [|[name sh] specs Hsh Hf IH]; intros off H0 Hev; cbn [naive_loop].
  - exists [], off. cbn. split_and!; try done; try lia. 
  - cbn in Hsh. rewrite mk_TensorSpec_fits by done. cbn [bind size_bytes].
    change (dtype_bits bfloat16 / 8) with 2. pose proof (zprod_pos _ (proj1 Hsh)) as Hpos.
    destruct (IH (off + zprod sh * 2)) as (plan & total & -> & Hle & Hn & Ht & Hv & Hd); [lia|by rewrite Z.mod_add|].
    cbn [bind]. eexists _, total. split; [reflexivity|]. split; [lia|]. cbn [map fst snd pshape zsum]. rewrite Hn.
    split; [done|]. split; [lia|]. split.
    + constructor; [cbn; split; [exact (conj Hsh (conj eq_refl Hev))|lia]|].
      eapply Forall_impl; [exact Hv|]. cbn. intros [k e] (? & ? & ?). split; [done|]. cbn in *. lia.
    + intros [|i] [|j] a b Hij Ha Hb; try lia.
      * injection Ha as <-. cbn in Hb |- *. rewrite Forall_lookup in Hv. destruct (Hv _ _ Hb) as (_ & ? & _). lia.
      * apply (Hd i j); [lia|done|done].
Qed.

(** The plan without reuse lays the eleven tensors of a layer out in
    execution order, one after the other: the ranges are disjoint, the total is
    the sum of the sizes, and every planned tensor can be viewed in a buffer of
    that total. *)
Theorem naive_plan_ok c t :
  1 <= n_heads c -> Forall (fun ns => fits (snd ns)) (naive_specs c t (d_model c / n_heads c)) ->
  exists plan total, get_naive_reuse_plan c t = Ok (plan, total) /\
    map (fun ke => (fst ke, pshape (snd ke))) plan = naive_specs c t (d_model c / n_heads c) /\
    total = 2 * zsum (map (fun ns => zprod (snd ns)) (naive_specs c t (d_model c / n_heads c))) /\
    (forall i j a b, (i < j)%nat -> plan !! i = Some a -> plan !! j = Some b ->
       offset (snd a) + psize (snd a) <= offset (snd b)) /\
    Forall (fun ke => get_tensor_view {| buf_start := 0; buf_len := total |} (pshape (snd ke)) (pdtype (snd ke))
                        (offset (snd ke)) = Ok (entry_view (snd ke))) plan.
Proof.
  intros Hh Hf. unfold get_naive_reuse_plan, py_div. destruct (Z.eqb_spec (n_heads c) 0); [lia|]. cbn [bind].
  destruct (naive_loop_ok _ 0 ltac:(lia) eq_refl Hf) as (plan & total & -> & _ & Hn & Ht & Hv & Hd).
  exists plan, total. split; [done|]. split; [done|]. split; [by rewrite Ht|]. split; [done|]. eapply Forall_impl; [exact Hv|]. cbn.
  intros [k e] (Hview & ? & ?). by apply get_tensor_view_entry.
Qed.

(** The 8B model on 100 tokens. *)
Lemma naive_plan_ok_witness :
  exists plan total, get_naive_reuse_plan {| d_model := 4096; n_heads := 32; effective_n_kv_heads := 32;
      mlp_hidden_size := 12288 |} 100 = Ok (plan, total) /\ length plan = 11%nat.
Proof.
  destruct (naive_plan_ok {| d_model := 4096; n_heads := 32; effective_n_kv_heads := 32; mlp_hidden_size := 12288 |} 100
              ltac:(cbn; lia)) as (plan & total & H & Hn & _).
  - assert (Hfit : forall sh, forallb (fun d => 1 <=? d) sh && (zprod sh <? 2 ^ 63) = true -> fits sh).
    { intros sh [H1 H2%Z.ltb_lt]%andb_true_iff. split; [|done]. apply Forall_forall. intros d Hd.
      rewrite forallb_forall in H1. apply Z.leb_le, H1. by apply list_elem_of_In. }
    repeat (apply Forall_cons_2; [apply Hfit; reflexivity|]). apply Forall_nil_2.
  - exists plan, total. split; [exact H|]. rewrite <-(length_map (fun ke => (fst ke, pshape (snd ke))) plan), Hn. reflexivity.
Defined.
