(* ===== verification/RequestQueue.v ===== *)
(** * Request queues ([vllm/v1/core/sched/request_queue.py])

    [FCFSRequestQueue] is a deque, [PriorityRequestQueue] a binary heap (CPython's
    [heapq]) of [(priority, arrival_time, request)] tuples.  Comparing two tuples
    with equal priority and arrival time compares the requests, which define no
    order: [TypeError].  Both implement the interface [RequestQueue]. *)

From stdpp Require Import base gmap strings list sorting fin_maps fin_sets.
From Stdlib Require Import ZArith Lia QArith.
From S2P Require Import Prelude.
Open Scope string_scope.
Open Scope list_scope.
Open Scope Z_scope.

Inductive SchedulingPolicy : Set := FCFS | PRIORITY.

(** The abstract operations of [RequestQueue]; a queue of requests [R]. *)
Class RequestQueue (R Q : Type) := {
  new_queue : Q;
  add_request : Q -> R -> res Q;
  pop_request : Q -> res (R * Q);
  peek_request : Q -> res R;
  prepend_request : Q -> R -> res Q;
  prepend_requests : Q -> Q -> res Q;
  remove_request : Q -> R -> res Q;
  remove_requests : Q -> list R -> res Q;
  queue_bool : Q -> bool;
  queue_len : Q -> Z;
  queue_iter : Q -> res (list R);
  queue_reversed : Q -> res (list R) }.

(** ** First come, first served *)

Module Fcfs.
Section fcfs.
Context {R : Type} `{EqDecision R}.

Definition add (q : list R) (r : R) : list R := q ++ [r].
(** [popleft] *)
Definition pop (q : list R) : res (R * list R) :=
  match q with [] => Raise IndexError | r :: q => Ok (r, q) end.
Definition peek (q : list R) : res R :=
  match q with [] => Raise IndexError | r :: _ => Ok r end.
Definition prepend (q : list R) (r : R) : list R := r :: q.
(** [extendleft(reversed(requests))] *)
Definition prepend_all (q requests : list R) : list R :=
  fold_left (fun q r => r :: q) (rev requests) q.
(** [deque.remove]: the first occurrence, [ValueError] when absent. *)
Fixpoint remove (q : list R) (r : R) : res (list R) :=
  match q with
  | [] => Raise ValueError
  | x :: q => if decide (x = r) then Ok q else let! q' := remove q r in Ok (x :: q')
  end.
Definition remove_all (q requests : list R) : list R :=
  List.filter (fun req => negb (bool_decide (req ∈ requests))) q.
Definition nonempty (q : list R) : bool := negb (Z.of_nat (length q) =? 0).

#[export] Instance fcfs_queue : RequestQueue R (list R) := {
  new_queue := [];
  add_request q r := Ok (add q r);
  pop_request := pop;
  peek_request := peek;
  prepend_request q r := Ok (prepend q r);
  prepend_requests q rs := Ok (prepend_all q rs);
  remove_request := remove;
  remove_requests q rs := Ok (remove_all q rs);
  queue_bool := nonempty;
  queue_len q := Z.of_nat (length q);
  queue_iter q := Ok q;
  queue_reversed q := Ok (rev q) }.
End fcfs.
End Fcfs.

(** ** [heapq] *)

Module Heapq.
Section heapq.
Context {T : Type} (lt : T -> T -> res bool).

(** [heap[i]] and [heap[i] = x] for an index in range. *)
Definition get (h : list T) (i : nat) : res T := of_option IndexError (h !! i).

(** [_siftdown]: move the item at [pos] towards [startpos]. *)
Fixpoint siftdown_loop (fuel : nat) (h : list T) (startpos pos : nat) (newitem : T) : res (list T) :=
  match fuel with
  | 0%nat => Ok (<[pos := newitem]> h)
  | S fuel =>
      if (startpos <? pos)%nat then
        let parentpos := ((pos - 1) / 2)%nat in
        let! parent := get h parentpos in
        let! b := lt newitem parent in
        if b then siftdown_loop fuel (<[pos := parent]> h) startpos parentpos newitem
        else Ok (<[pos := newitem]> h)
      else Ok (<[pos := newitem]> h)
  end.
(** The position at least halves, so [S pos] rounds are enough. *)
Definition siftdown (h : list T) (startpos pos : nat) : res (list T) :=
  let! newitem := get h pos in
  siftdown_loop (S pos) h startpos pos newitem.

(** [_siftup]: bubble the smaller child up until hitting a leaf. *)
Fixpoint siftup_loop (fuel : nat) (h : list T) (pos : nat) : res (list T * nat) :=
  match fuel with
  | 0%nat => Ok (h, pos)
  | S fuel =>
      let childpos := (2 * pos + 1)%nat in
      if (childpos <? length h)%nat then
        let rightpos := (childpos + 1)%nat in
        let! childpos :=
          if (rightpos <? length h)%nat then
            let! c := get h childpos in
            let! r := get h rightpos in
            let! b := lt c r in
            Ok (if b then childpos else rightpos)
          else Ok childpos in
        let! c := get h childpos in
        siftup_loop fuel (<[pos := c]> h) childpos
      else Ok (h, pos)
  end.
Definition siftup (h : list T) (pos : nat) : res (list T) :=
  let! newitem := get h pos in
  let! '(h', p) := siftup_loop (length h) h pos in
  siftdown (<[p := newitem]> h') pos p.

Definition heappush (h : list T) (x : T) : res (list T) :=
  siftdown (h ++ [x]) 0 (length h).

Definition heappop (h : list T) : res (T * list T) :=
  match last h with
  | None => Raise IndexError
  | Some lastelt =>
      match removelast h with
      | [] => Ok (lastelt, [])
      | returnitem :: rest =>
          let! h' := siftup (lastelt :: rest) 0 in
          Ok (returnitem, h')
      end
  end.

(** [for i in reversed(range(n // 2)): _siftup(x, i)] *)
Fixpoint heapify_loop (i : nat) (h : list T) : res (list T) :=
  match i with
  | 0%nat => Ok h
  | S i => let! h' := siftup h i in heapify_loop i h'
  end.
Definition heapify (h : list T) : res (list T) := heapify_loop (length h / 2) h.
End heapq.
End Heapq.

(** ** Priority *)

Module Priority.
Section priority.
Context {R : Type} `{EqDecision R}.
Context (priority : R -> Z) (arrival_time : R -> Q).

(** Tuple comparison [(p1, t1, r1) < (p2, t2, r2)]; requests compare by
    identity and have no order. *)
Definition item_lt (a b : R) : res bool :=
  if negb (priority a =? priority b) then Ok (priority a <? priority b)
  else if negb (Qeq_bool (arrival_time a) (arrival_time b)) then
    Ok (negb (Qle_bool (arrival_time b) (arrival_time a)))
  else if decide (a = b) then Ok false
  else Raise TypeError.

Definition add (heap : list R) (r : R) : res (list R) := Heapq.heappush item_lt heap r.
Definition pop (heap : list R) : res (R * list R) :=
  match heap with [] => Raise IndexError | _ => Heapq.heappop item_lt heap end.
Definition peek (heap : list R) : res R :=
  match heap with [] => Raise IndexError | r :: _ => Ok r end.
Fixpoint add_all (heap requests : list R) : res (list R) :=
  match requests with
  | [] => Ok heap
  | r :: requests => let! heap' := add heap r in add_all heap' requests
  end.
(** [__iter__]: pop a copy of the heap until it is empty. *)
Fixpoint drain (fuel : nat) (heap : list R) : res (list R) :=
  match fuel, heap with
  | S fuel, _ :: _ =>
      let! '(r, heap') := Heapq.heappop item_lt heap in
      let! rest := drain fuel heap' in
      Ok (r :: rest)
  | _, _ => Ok []
  end.
Definition iter (heap : list R) : res (list R) := drain (length heap) heap.
Definition remove (heap : list R) (r : R) : res (list R) :=
  Heapq.heapify item_lt (List.filter (fun x => negb (bool_decide (x = r))) heap).
Definition remove_all (heap requests : list R) : res (list R) :=
  Heapq.heapify item_lt (List.filter (fun x => negb (bool_decide (x ∈ requests))) heap).

(** Not an instance by itself: [add_request] needs the keys. *)
Definition priority_queue : RequestQueue R (list R) := {|
  new_queue := [];
  add_request := add;
  pop_request := pop;
  peek_request := peek;
  prepend_request := add;
  prepend_requests q rs := let! l := iter rs in add_all q l;
  remove_request := remove;
  remove_requests := remove_all;
  queue_bool q := negb (Z.of_nat (length q) =? 0);
  queue_len q := Z.of_nat (length q);
  queue_iter := iter;
  queue_reversed q := let! l := iter q in Ok (rev l) |}.
End priority.
End Priority.

(** [create_request_queue] *)
Definition create_request_queue {R : Type} `{EqDecision R} (priority : R -> Z) (arrival_time : R -> Q)
    (policy : SchedulingPolicy) : RequestQueue R (list R) :=
  match policy with
  | PRIORITY => Priority.priority_queue priority arrival_time
  | FCFS => Fcfs.fcfs_queue
  end.

(** ** The priority queue returns requests in key order

    [heapq]'s operations keep the heap property and the multiset of items, and
    [heappop] returns a least item, provided that every comparison they make is
    defined (no two distinct requests share a key). *)

#[local] Open Scope nat_scope.

Definition parent (k : nat) : nat := (k - 1) / 2.

Lemma parent_spec k : 0 < k -> k = 2 * parent k + 1 \/ k = 2 * parent k + 2.
Proof.
  intros Hk. unfold parent. pose proof (Nat.div_mod (k - 1) 2 ltac:(lia)).
  pose proof (Nat.mod_upper_bound (k - 1) 2 ltac:(lia)). lia.
Qed.

Lemma parent_child p c : c = 2 * p + 1 \/ c = 2 * p + 2 -> parent c = p.
Proof. intros Hc. pose proof (parent_spec c). lia. Qed.

(** [k] is in the subtree rooted at [s]. *)
Inductive desc (s : nat) : nat -> Prop :=
| desc_root : desc s s
| desc_child p c : desc s p -> c = 2 * p + 1 \/ c = 2 * p + 2 -> desc s c.

Lemma desc_ge s k : desc s k -> s <= k.
Proof. induction 1; lia. Qed.

Lemma desc_parent s k : desc s k -> s < k -> desc s (parent k).
Proof. intros Hd Hk. destruct Hd as [|p c Hd Hc]; [lia|]. by rewrite (parent_child p). Qed.

Lemma insert_perm {A} (l : list A) i x : i < length l -> <[i := x]> l ≡ₚ x :: delete i l.
Proof.
  intros Hi. rewrite insert_take_drop, delete_take_drop by done. by rewrite Permutation_middle.
Qed.

(** Moving an item from [i] to the hole [j] and filling [i] instead. *)
Lemma hole_move_perm {A} (l : list A) i j x y :
  l !! i = Some y -> i <> j -> j < length l -> <[i := x]> (<[j := y]> l) ≡ₚ <[j := x]> l.
Proof.
  intros Hi Hij Hj. assert (i < length l) by (by eapply lookup_lt_Some).
  rewrite insert_perm by (by rewrite length_insert). rewrite (insert_perm l j x) by done.
  apply Permutation_cons; [done|].
  assert (Hd : <[j := y]> l ≡ₚ y :: delete i (<[j := y]> l)).
  { apply delete_Permutation. by rewrite list_lookup_insert_ne. }
  rewrite (insert_perm l j y) in Hd at 1 by done. symmetry. by eapply Permutation_cons_inv.
Qed.

Section heap.
Context {T : Type} (lt : T -> T -> res bool) (le : T -> T -> Prop) (U : T -> Prop).
Context (le_refl : forall a, U a -> le a a).
Context (le_trans : forall a b c, U a -> U b -> U c -> le a b -> le b c -> le a c).
(** Comparisons between items of the universe [U] are defined and decide [le]. *)
Context (lt_ok : forall a b, U a -> U b -> exists v, lt a b = Ok v /\ if v then le a b else le b a).

(** The heap property of the edges at or below [s], except the one into
    [hole] and those out of it when [open] holds. *)
Definition edges (s : nat) (skip : nat -> Prop) (h : list T) : Prop :=
  forall k x y, 0 < k -> s <= parent k -> ~ skip k ->
    h !! parent k = Some x -> h !! k = Some y -> le x y.
Definition heap (h : list T) : Prop := edges 0 (fun _ => False) h.
(** The edges that meet position [pos]. *)
Definition at_hole (pos k : nat) : Prop := k = pos \/ (0 < k /\ parent k = pos).
(** The children of [pos] are not below its parent. *)
Definition bridge (s pos : nat) (h : list T) : Prop :=
  s < pos -> forall c y z, 0 < c -> parent c = pos ->
    h !! parent pos = Some y -> h !! c = Some z -> le y z.
(** The children of [pos] are not below [x]. *)
Definition above (pos : nat) (x : T) (h : list T) : Prop :=
  forall c z, 0 < c -> parent c = pos -> h !! c = Some z -> le x z.

Lemma siftdown_loop_ok fuel h s pos x :
  pos < fuel -> desc s pos -> pos < length h -> Forall U h -> U x ->
  edges s (at_hole pos) h -> bridge s pos h -> above pos x h ->
  exists h', Heapq.siftdown_loop lt fuel h s pos x = Ok h' /\
    edges s (fun _ => False) h' /\ h' ≡ₚ <[pos := x]> h.
Proof.
  revert h pos. induction fuel as [|fuel IH]; intros h pos Hf Hd Hl HU Hx He Hb Hab; [lia|].
  cbn [Heapq.siftdown_loop].
  (* placing [x] at the hole when its parent is not above it *)
  assert (Hplace : (s < pos -> exists y, h !! parent pos = Some y /\ le y x) ->
            edges s (fun _ => False) (<[pos := x]> h)).
  { intros Hpar k a b Hk Hsp _ Ha Hb'. apply list_lookup_insert_Some in Ha, Hb'.
    destruct Ha as [(Ha1 & -> & _)|(Ha1 & Ha)], Hb' as [(Hb1 & -> & _)|(Hb1 & Hb')].
    - pose proof (parent_spec k Hk). lia.
    - by apply (Hab k b).
    - subst k. destruct Hpar as (y & Hy & Hle); [pose proof (parent_spec pos Hk); lia|]. congruence.
    - apply (He k a b); try done. intros [?|[_ ?]]; lia. }
  destruct (Nat.ltb_spec s pos) as [Hs|Hs].
  2:{ exists (<[pos := x]> h). split; [done|]. split; [apply Hplace; lia|done]. }
  fold (parent pos). pose proof (parent_spec pos ltac:(lia)) as Hpp.
  destruct (lookup_lt_is_Some_2 h (parent pos) ltac:(lia)) as [y Hy].
  unfold Heapq.get. rewrite Hy. cbn [of_option bind].
  assert (HUy : U y) by (eapply Forall_lookup_1; eauto).
  destruct (lt_ok x y Hx HUy) as (v & -> & Hv). cbn [bind].
  pose proof (desc_parent _ _ Hd Hs) as Hdp. pose proof (desc_ge _ _ Hdp).
  destruct v.
  2:{ exists (<[pos := x]> h). split; [done|]. split; [apply Hplace; eauto|done]. }
  destruct (IH (<[pos := y]> h) (parent pos)) as (h' & Hr & He' & Hp'); try done; try lia.
  - by rewrite length_insert; lia.
  - by apply Forall_insert.
  - intros k a b Hk Hsp Hne Ha Hb'. apply list_lookup_insert_Some in Ha, Hb'.
    destruct Ha as [(Ha1 & -> & _)|(Ha1 & Ha)], Hb' as [(Hb1 & -> & _)|(Hb1 & Hb')].
    + pose proof (parent_spec k Hk). lia.
    + by apply (Hb Hs k).
    + subst k. exfalso. apply Hne. by right.
    + apply (He k a b); try done. intros [?|[_ ?]]; lia.
  - intros Hs' c a b Hc Hpc Ha Hb'. apply list_lookup_insert_Some in Ha as [(Ha1 & _)|(Ha1 & Ha)];
      [pose proof (parent_spec (parent pos)); lia|].
    assert (Hay : le a y).
    { apply (He (parent pos) a y); try done; [lia|pose proof (desc_ge _ _ (desc_parent _ _ Hdp Hs')); lia|].
      intros [?|[_ ?]]; [lia|]. pose proof (parent_spec (parent pos)). lia. }
    apply list_lookup_insert_Some in Hb' as [(Hb1 & <- & _)|(Hb1 & Hb')]; [done|].
    apply (le_trans a y b); try done; try (by eapply Forall_lookup_1; eauto).
    apply (He c y b); try done; [lia| |by rewrite Hpc]. intros [?|[_ ?]]; lia.
  - intros c z Hc Hpc Hz. apply list_lookup_insert_Some in Hz as [(Hz1 & <- & _)|(Hz1 & Hz)]; [done|].
    apply (le_trans x y z); try done; try (by eapply Forall_lookup_1; eauto).
    apply (He c y z); try done; [lia| |by rewrite Hpc]. intros [?|[_ ?]]; lia.
  - exists h'. split; [done|]. split; [done|]. rewrite Hp'. apply hole_move_perm; done || lia.
Qed.

Lemma siftup_loop_ok fuel h s pos x :
  length h <= fuel + pos -> desc s pos -> pos < length h -> Forall U h -> U x ->
  edges s (at_hole pos) h -> bridge s pos h ->
  exists h' p, Heapq.siftup_loop lt fuel h pos = Ok (h', p) /\ desc s p /\
    length h' = length h /\ p < length h /\ length h <= 2 * p + 1 /\ Forall U h' /\
    edges s (at_hole p) h' /\ bridge s p h' /\ <[p := x]> h' ≡ₚ <[pos := x]> h.
Proof.
  revert h pos. induction fuel as [|fuel IH]; intros h pos Hf Hd Hl HU Hx He Hb; [lia|].
  cbn [Heapq.siftup_loop]. pose proof (desc_ge _ _ Hd).
  destruct (Nat.ltb_spec (2 * pos + 1) (length h)) as [Hc|Hc].
  2:{ exists h, pos. split_and!; done || lia. }
  (* the smaller child *)
  assert (Hmin : exists c z, (if (2 * pos + 1 + 1 <? length h)%nat
            then (let! a := Heapq.get h (2 * pos + 1) in let! r := Heapq.get h (2 * pos + 1 + 1) in
                  let! b := lt a r in Ok (if b then 2 * pos + 1 else 2 * pos + 1 + 1))
            else Ok (2 * pos + 1))%py = Ok c /\ (c = 2 * pos + 1 \/ c = 2 * pos + 2) /\ h !! c = Some z /\
            above pos z h).
  { destruct (lookup_lt_is_Some_2 h (2 * pos + 1) ltac:(lia)) as [a Ha].
    assert (HUa : U a) by (eapply Forall_lookup_1; eauto).
    destruct (Nat.ltb_spec (2 * pos + 1 + 1) (length h)) as [Hr|Hr].
    - destruct (lookup_lt_is_Some_2 h (2 * pos + 1 + 1) ltac:(lia)) as [r Hr'].
      assert (HUr : U r) by (eapply Forall_lookup_1; eauto).
      unfold Heapq.get. rewrite Ha, Hr'. cbn [of_option bind].
      destruct (lt_ok a r HUa HUr) as (v & -> & Hv). cbn [bind].
      exists (if v then 2 * pos + 1 else 2 * pos + 1 + 1), (if v then a else r).
      split; [done|]. split; [destruct v; lia|]. split; [by destruct v|].
      intros k z Hk Hpk Hz. pose proof (parent_spec k Hk) as Hks. rewrite Hpk in Hks.
      destruct Hks as [->| ->]; [|replace (2 * pos + 2) with (2 * pos + 1 + 1) in Hz by lia];
        simplify_eq; destruct v; auto.
    - exists (2 * pos + 1), a. split; [done|]. split; [lia|]. split; [done|].
      intros k z Hk Hpk Hz. pose proof (parent_spec k Hk) as Hks. apply lookup_lt_Some in Hz as Hlt.
      assert (k = 2 * pos + 1) as -> by lia. simplify_eq. auto. }
  destruct Hmin as (c & z & -> & Hcp & Hz & Habove). cbn [bind]. unfold Heapq.get. rewrite Hz. cbn [of_option bind].
  pose proof (parent_child _ _ Hcp) as Hpc. assert (HUz : U z) by (eapply Forall_lookup_1; eauto).
  apply lookup_lt_Some in Hz as Hclt.
  destruct (IH (<[pos := z]> h) c) as (h' & p & Hr & Hdp & Hlen & Hp & Hleaf & HU' & He' & Hb' & Hperm);
    try done; rewrite ?length_insert in *; try lia; [by eapply desc_child|by apply Forall_insert| | |].
  - intros k a b Hk Hsp Hne Ha Hb'. apply list_lookup_insert_Some in Ha, Hb'.
    destruct Ha as [(Ha1 & <- & _)|(Ha1 & Ha)], Hb' as [(Hb1 & <- & _)|(Hb1 & Hb')].
    + pose proof (parent_spec k Hk). lia.
    + by apply (Habove k).
    + subst k. pose proof (parent_spec pos Hk). apply (Hb ltac:(lia) c); try done; lia.
    + apply (He k a b); try done. intros [?|[_ ?]]; [lia|congruence].
  - intros Hs c' a b Hc' Hpc' Ha Hb'. rewrite Hpc in Ha. rewrite list_lookup_insert_eq in Ha by done.
    injection Ha as <-. pose proof (parent_spec c' Hc').
    rewrite list_lookup_insert_ne in Hb' by lia.
    apply (He c' z b); try done; [lia| |by rewrite Hpc']. intros [?|[_ ?]]; lia.
  - exists h', p. split_and!; try done; try lia. rewrite Hperm. apply hole_move_perm; done || lia.
Qed.

Lemma siftup_ok h s :
  s < length h -> Forall U h -> edges (S s) (fun _ => False) h ->
  exists h', Heapq.siftup lt h s = Ok h' /\ edges s (fun _ => False) h' /\ h' ≡ₚ h.
Proof.
  intros Hs HU He. destruct (lookup_lt_is_Some_2 h s Hs) as [x Hx].
  assert (HUx : U x) by (eapply Forall_lookup_1; eauto).
  destruct (siftup_loop_ok (length h) h s s x) as (h' & p & Hr & Hdp & Hlen & Hp & Hleaf & HU' & He' & Hb' & Hperm);
    try done; try lia; [constructor| |intros ?; lia|].
  { intros k a b Hk Hsp Hne. apply He; [done| |tauto]. destruct (decide (parent k = s)); [|lia].
    exfalso. apply Hne. by right. }
  unfold Heapq.siftup, Heapq.get. rewrite Hx. cbn [of_option bind]. rewrite Hr. cbn [bind].
  unfold Heapq.siftdown, Heapq.get. rewrite list_lookup_insert_eq by lia. cbn [of_option bind].
  destruct (siftdown_loop_ok (S p) (<[p := x]> h') s p x) as (h2 & -> & He2 & Hp2); try done; try lia.
  - rewrite length_insert. lia.
  - by apply Forall_insert.
  - intros k a b Hk Hsp Hne Ha Hb. apply list_lookup_insert_Some in Ha, Hb.
    destruct Ha as [(Ha1 & _)|(Ha1 & Ha)]; [exfalso; apply Hne; by right|].
    destruct Hb as [(Hb1 & _)|(Hb1 & Hb)]; [exfalso; apply Hne; by left|]. by apply (He' k).
  - intros Hs' c y z Hc Hpc Hy Hz. pose proof (parent_spec c Hc).
    apply lookup_lt_Some in Hz. rewrite length_insert in Hz. lia.
  - intros c z Hc Hpc Hz. pose proof (parent_spec c Hc).
    apply lookup_lt_Some in Hz. rewrite length_insert in Hz. lia.
  - exists h2. split; [done|]. split; [done|]. rewrite Hp2, list_insert_insert_eq, Hperm.
    by rewrite list_insert_id.
Qed.

Lemma heappush_ok h x :
  Forall U h -> U x -> heap h ->
  exists h', Heapq.heappush lt h x = Ok h' /\ heap h' /\ h' ≡ₚ x :: h.
Proof.
  intros HU Hx Hh. unfold Heapq.heappush, Heapq.siftdown, Heapq.get.
  rewrite lookup_app_r, Nat.sub_diag by lia. cbn [lookup list_lookup of_option bind].
  assert (Hd : forall k, desc 0 k).
  { intros k. induction k as [k IH] using lt_wf_ind. destruct k as [|k]; [constructor|].
    pose proof (parent_spec (S k) ltac:(lia)). apply (desc_child 0 (parent (S k))); [apply IH; lia|done]. }
  assert (Hlast : forall c z, 0 < c -> parent c = length h -> (h ++ [x]) !! c = Some z -> False).
  { intros c z Hc Hpc Hz. apply lookup_lt_Some in Hz. rewrite length_app in Hz. cbn in Hz.
    pose proof (parent_spec c Hc). lia. }
  destruct (siftdown_loop_ok (S (length h)) (h ++ [x]) 0 (length h) x) as (h' & -> & He & Hp); try done; try lia.
  - rewrite length_app. cbn. lia.
  - apply Forall_app. split; [done|by constructor].
  - intros k a b Hk _ Hne Ha Hb. apply lookup_lt_Some in Hb as Hlt. rewrite length_app in Hlt. cbn in Hlt.
    destruct (decide (k = length h)) as [->|Hkl]; [exfalso; apply Hne; by left|].
    pose proof (parent_spec k Hk). rewrite lookup_app_l in Ha, Hb by lia. apply (Hh k a b); auto; lia.
  - intros _ c y z Hc Hpc _ Hz. by destruct (Hlast c z).
  - intros c z Hc Hpc Hz. by destruct (Hlast c z).
  - exists h'. split; [done|]. split; [done|]. rewrite Hp, list_insert_id.
    + by rewrite <-Permutation_cons_append.
    + rewrite lookup_app_r, Nat.sub_diag by lia. done.
Qed.

(** The root is a least item. *)
Lemma heap_root h r y : Forall U h -> heap h -> h !! 0 = Some r -> y ∈ h -> le r y.
Proof.
  intros HU Hh Hr [k Hk]%list_elem_of_lookup_1. revert y Hk.
  induction k as [k IH] using lt_wf_ind. intros y Hk.
  destruct (decide (k = 0)) as [->|Hk0].
  { rewrite Hr in Hk. injection Hk as ->. apply le_refl. eapply Forall_lookup_1; eauto. }
  pose proof (parent_spec k ltac:(lia)). apply lookup_lt_Some in Hk as Hlt.
  destruct (lookup_lt_is_Some_2 h (parent k) ltac:(lia)) as [z Hz].
  apply (le_trans r z y); try (by eapply Forall_lookup_1; eauto).
  - apply (IH (parent k)); [lia|done].
  - apply (Hh k z y); auto; lia.
Qed.

Lemma heappop_ok h :
  h <> [] -> Forall U h -> heap h ->
  exists r h', Heapq.heappop lt h = Ok (r, h') /\ heap h' /\ h ≡ₚ r :: h' /\ forall y, y ∈ h -> le r y.
Proof.
  intros Hne HU Hh. destruct (exists_last Hne) as (init & l & ->). unfold Heapq.heappop.
  rewrite last_snoc, removelast_last. destruct init as [|r rest].
  - exists l, []. split; [done|]. split; [intros k x y _ _ _; by rewrite lookup_nil|]. split; [done|].
    intros y Hy. by eapply (heap_root [l]).
  - apply Forall_app in HU as [HUi HUl]. apply Forall_cons in HUi as [HUr HUrest]. apply Forall_cons in HUl as [HUl _].
    destruct (siftup_ok (l :: rest) 0) as (h' & -> & He & Hp).
    + cbn. lia.
    + by constructor.
    + intros k x y Hk Hsp _ Hx Hy. pose proof (parent_spec k Hk).
      destruct k as [|k]; [lia|]. destruct (parent (S k)) as [|pk] eqn:E; [lia|]. cbn in Hx, Hy.
      apply (Hh (S k) x y); try lia; [rewrite E; cbn; by apply lookup_app_l_Some|cbn; by apply lookup_app_l_Some].
    + cbn [bind]. exists r, h'. split; [done|]. split; [done|]. split.
      * rewrite Hp. cbn. by rewrite <-Permutation_cons_append.
      * intros y Hy. apply (heap_root ((r :: rest) ++ [l])); [|done|done|done].
        apply Forall_app. split; [by constructor|]. constructor; [done|constructor].
Qed.

Lemma heapify_ok h :
  Forall U h -> exists h', Heapq.heapify lt h = Ok h' /\ heap h' /\ h' ≡ₚ h.
Proof.
  unfold Heapq.heapify. intros HU.
  assert (Hgen : forall i h0, i <= length h0 -> Forall U h0 -> edges i (fun _ => False) h0 ->
            exists h', Heapq.heapify_loop lt i h0 = Ok h' /\ heap h' /\ h' ≡ₚ h0).
  { induction i as [|i IH]; intros h0 Hi HU0 He; cbn [Heapq.heapify_loop]; [eauto|].
    destruct (siftup_ok h0 i) as (h1 & -> & He1 & Hp1); [lia|done|done|]. cbn [bind].
    destruct (IH h1) as (h' & -> & Hh & Hp).
    - rewrite Hp1. lia.
    - rewrite Forall_forall in HU0 |- *. intros y Hy. apply HU0. by rewrite <-Hp1.
    - done.
    - exists h'. split; [done|]. split; [done|]. by rewrite Hp. }
  apply Hgen; [|done|].
  - pose proof (Nat.div_mod (length h) 2 ltac:(lia)). lia.
  - intros k x y Hk Hsp _ _ Hy. apply lookup_lt_Some in Hy. pose proof (parent_spec k Hk).
    pose proof (Nat.div_mod (length h) 2 ltac:(lia)). pose proof (Nat.mod_upper_bound (length h) 2 ltac:(lia)). lia.
Qed.
End heap.

(** ** The priority queue *)

Section priority.
Context {R : Type} `{EqDecision R} (priority : R -> Z) (arrival_time : R -> Q).

(** Key order: priority, then arrival time. *)
Definition key_le (a b : R) : Prop :=
  (priority a < priority b)%Z \/ (priority a = priority b /\ (arrival_time a <= arrival_time b)%Q).

Lemma key_le_refl a : key_le a a.
Proof. right. split; [done|apply Qle_refl]. Qed.

Lemma key_le_trans a b c : key_le a b -> key_le b c -> key_le a c.
Proof.
  intros [H1|[H1 H2]] [H3|[H3 H4]]; [left; lia|left; lia|left; lia|right].
  split; [congruence|by eapply Qle_trans].
Qed.

(** No two distinct requests of [l] share a key. *)
Definition distinct_keys (l : list R) : Prop :=
  forall a b, a ∈ l -> b ∈ l -> priority a = priority b -> (arrival_time a == arrival_time b)%Q -> a = b.

Lemma item_lt_ok l a b :
  distinct_keys l -> a ∈ l -> b ∈ l ->
  exists v, Priority.item_lt priority arrival_time a b = Ok v /\ if v then key_le a b else key_le b a.
Proof.
  intros Hd Ha Hb. unfold Priority.item_lt. destruct (Z.eqb_spec (priority a) (priority b)) as [Hp|Hp]; cbn [negb].
  2:{ eexists. split; [done|]. destruct (Z.ltb_spec (priority a) (priority b)); left; lia. }
  destruct (Qeq_bool (arrival_time a) (arrival_time b)) eqn:Hq; cbn [negb].
  - apply Qeq_bool_iff in Hq. rewrite (decide_True (P := a = b)) by by apply Hd.
    exists false. split; [done|]. right. split; [done|]. rewrite Hq. apply Qle_refl.
  - eexists. split; [done|]. destruct (Qle_bool (arrival_time b) (arrival_time a)) eqn:Hle; cbn [negb].
    + apply Qle_bool_iff in Hle. by right.
    + right. split; [done|]. destruct (Qlt_le_dec (arrival_time a) (arrival_time b)) as [?|Hba]; [by apply Qlt_le_weak|].
      apply Qle_bool_iff in Hba. congruence.
Qed.

(** A well-formed priority queue. *)
Definition pq_heap : list R -> Prop := heap key_le.

Lemma distinct_keys_perm l l' : l ≡ₚ l' -> distinct_keys l -> distinct_keys l'.
Proof. intros Hp Hd a b Ha Hb. apply Hd; by rewrite Hp. Qed.

Lemma Forall_in (l : list R) : Forall (fun x => x ∈ l) l.
Proof. by apply Forall_forall. Qed.

Lemma pq_add_ok h r :
  distinct_keys (r :: h) -> pq_heap h ->
  exists h', Priority.add priority arrival_time h r = Ok h' /\ pq_heap h' /\ h' ≡ₚ r :: h.
Proof.
  intros Hd Hh. apply (heappush_ok _ key_le (fun x => x ∈ r :: h)); try done.
  - intros a b c _ _ _. apply key_le_trans.
  - intros a b. by apply item_lt_ok.
  - apply Forall_forall. intros x Hx. by right.
  - left.
Qed.

Lemma pq_pop_ok h :
  distinct_keys h -> pq_heap h -> h <> [] ->
  exists r h', Heapq.heappop (Priority.item_lt priority arrival_time) h = Ok (r, h') /\
    pq_heap h' /\ h ≡ₚ r :: h' /\ forall y, y ∈ h -> key_le r y.
Proof.
  intros Hd Hh Hne. apply (heappop_ok _ key_le (fun x => x ∈ h)); try done.
  - intros a _. apply key_le_refl.
  - intros a b c _ _ _. apply key_le_trans.
  - intros a b. by apply item_lt_ok.
  - apply Forall_in.
Qed.

Lemma pq_drain_ok fuel h :
  length h <= fuel -> distinct_keys h -> pq_heap h ->
  exists l, Priority.drain priority arrival_time fuel h = Ok l /\ l ≡ₚ h /\ StronglySorted key_le l.
Proof.
  revert h. induction fuel as [|fuel IH]; intros h Hf Hd Hh.
  - destruct h; [|cbn in Hf; lia]. exists []. split; [done|]. split; [done|constructor].
  - destruct h as [|x h0] eqn:E; [exists []; split; [done|split; [done|constructor]]|]. rewrite <-E in *.
    destruct (pq_pop_ok h Hd Hh) as (r & h' & Hpop & Hh' & Hp & Hmin); [by rewrite E|].
    destruct (IH h') as (l & Hl & Hlp & Hs); [|eapply distinct_keys_perm in Hd; [|exact Hp]|done|].
    { apply Permutation_length in Hp. cbn in Hp. lia. }
    { intros a b Ha Hb. apply Hd; by right. }
    exists (r :: l). rewrite E at 1. cbn [Priority.drain]. rewrite <-E, Hpop. cbn [bind]. rewrite Hl. cbn [bind].
    split; [done|]. split; [by rewrite Hp, Hlp|]. constructor; [done|].
    apply Forall_forall. intros y Hy. apply Hmin. rewrite Hp, <-Hlp. by right.
Qed.

(** C39. The priority queue is a correct priority queue as long as no two
    requests share a priority and arrival time: adding keeps the heap and adds
    exactly the request; popping returns a request of least (priority, arrival
    time) and removes exactly it; iterating lists all requests in key order;
    and none of these comparisons raises. *)
Theorem priority_queue_ok h r :
  distinct_keys (r :: h) -> pq_heap h ->
  let Q := Priority.priority_queue priority arrival_time in
  (exists h', @add_request _ _ Q h r = Ok h' /\ pq_heap h' /\ h' ≡ₚ r :: h) /\
  (h <> [] -> exists x h', @pop_request _ _ Q h = Ok (x, h') /\ pq_heap h' /\ h ≡ₚ x :: h' /\
     forall y, y ∈ h -> key_le x y) /\
  (exists l, @queue_iter _ _ Q h = Ok l /\ l ≡ₚ h /\ StronglySorted key_le l) /\
  (exists h', @remove_request _ _ Q h r = Ok h' /\ pq_heap h' /\
     h' ≡ₚ List.filter (fun x => negb (bool_decide (x = r))) h).
Proof.
  intros Hd Hh Q.
  assert (Hd' : distinct_keys h) by (intros a b Ha Hb; apply Hd; by right).
  split; [by apply pq_add_ok|]. split; [|split].
  - intros Hne. destruct h as [|x0 h0] eqn:E; [done|]. rewrite <-E in *. cbn.
    unfold Priority.pop. rewrite E. rewrite <-E. by apply pq_pop_ok.
  - by apply pq_drain_ok.
  - cbn. unfold Priority.remove.
    apply (heapify_ok _ key_le (fun x => x ∈ h)).
    + intros a _. apply key_le_refl.
    + intros a b c _ _ _. apply key_le_trans.
    + intros a b. by apply item_lt_ok.
    + apply Forall_forall. intros x [Hx _]%list_elem_of_In%filter_In. by apply list_elem_of_In.
Qed.

(** Two distinct requests with the same priority and arrival time break
    the queue: pushing the second one raises [TypeError], because the tuple
    comparison falls through to the requests, which have no order. *)
Theorem priority_queue_tie a b :
  a <> b -> priority a = priority b -> (arrival_time a == arrival_time b)%Q ->
  @add_request _ _ (Priority.priority_queue priority arrival_time) [a] b = Raise TypeError.
Proof.
  intros Hab Hp Hq. cbn. unfold Priority.add, Heapq.heappush, Heapq.siftdown, Heapq.get. cbn.
  unfold Priority.item_lt. rewrite Hp, Z.eqb_refl. cbn.
  assert (Qeq_bool (arrival_time b) (arrival_time a) = true) as -> by (apply Qeq_bool_iff; by symmetry).
  cbn. by rewrite decide_False.
Qed.
End priority.

(** Requests 7, 8 and 9, request 8 with the larger priority value. *)
Definition demo_priority (r : Z) : Z := if Z.eqb r 8 then 2%Z else 1%Z.
Definition demo_arrival (r : Z) : Q := inject_Z r.

Lemma priority_queue_ok_witness :
  exists h', @add_request _ _ (Priority.priority_queue demo_priority demo_arrival) [9; 8]%Z 7%Z = Ok h' /\
    pq_heap demo_priority demo_arrival h' /\ h' ≡ₚ [7; 9; 8]%Z.
Proof.
  assert (Hd : distinct_keys demo_priority demo_arrival [7; 9; 8]%Z).
  { intros a b Ha Hb Hp Hq. set_unfold in Ha. set_unfold in Hb.
    destruct Ha as [->|[->|[->|[]]]], Hb as [->|[->|[->|[]]]]; try reflexivity;
      first [discriminate Hp|unfold Qeq in Hq; discriminate Hq]. }
  assert (Hh : pq_heap demo_priority demo_arrival [9; 8]%Z).
  { intros k x y Hk _ _ Hx Hy. destruct k as [|[|k]]; [lia| |discriminate Hy].
    cbn in Hx, Hy. injection Hx as <-. injection Hy as <-. left. cbn. lia. }
  destruct (priority_queue_ok demo_priority demo_arrival [9; 8]%Z 7%Z Hd Hh) as ((h' & Ha & Hh' & Hp) & _).
  exists h'. auto.
Defined.

Lemma priority_queue_tie_witness :
  @add_request _ _ (Priority.priority_queue (fun _ : Z => 1%Z) (fun _ => 0%Q)) [7]%Z 8%Z = Raise TypeError.
Proof. apply priority_queue_tie; [discriminate|reflexivity|reflexivity]. Defined.
