(* ===== verification/Diffusion.v ===== *)
(** * The diffusion scheduler ([vllm/v1/diffusion/scheduler.py], [types.py])

    Iteration-level scheduling of diffusion requests: a FCFS waiting queue, the
    list of running request ids and their runtime states.  Requests migrate
    from waiting to running, one step of each running request is sent to the
    model runner, and the updates it returns advance (block, step) counters
    until the generation area holds no mask or the step budget is used up. *)

From stdpp Require Import base gmap strings list sorting fin_maps fin_sets.
From Stdlib Require Import ZArith Lia QArith.
From S2P Require Import Prelude RequestQueue.
Open Scope string_scope.
Open Scope list_scope.
Open Scope Z_scope.

#[local] Existing Instance Fcfs.fcfs_queue.

(** ** Types *)

Record DiffusionParams : Type := {
  steps : Z;
  gen_length : Z;
  block_length : Z;
  temperature : Q;
  cfg_scale : Q;
  remasking : string;
  mask_id : Z;
  prompt_length : option Z;
  output_length : option Z }.

(** The dataclass defaults. *)
Definition default_params : DiffusionParams :=
  {| steps := 128; gen_length := 128; block_length := 32; temperature := 0; cfg_scale := 0;
     remasking := "low_confidence"; mask_id := 126336; prompt_length := None; output_length := None |}.

Record DiffusionRequest : Type := {
  r_id : string;
  input_token_ids : list Z;
  r_params : DiffusionParams }.

Record DiffusionRuntimeState : Type := {
  s_id : string;
  x : list Z;
  prompt_len : Z;
  total_len : Z;
  params : DiffusionParams;
  block_idx : Z;
  step_idx_in_block : Z }.

(** [DiffusionStepRequest] has the same fields; [x] is a copy. *)
Notation DiffusionStepRequest := DiffusionRuntimeState (only parsing).

Record DiffusionStepUpdate : Type := {
  u_id : string; new_x : list Z; u_block_idx : Z; u_step_idx : Z }.

Record FinishedDiffusionItem : Type := { f_id : string; tail_token_ids : list Z }.

#[export] Instance Q_eq_dec : EqDecision Q.
Proof. intros [a b] [c d]. solve_decision. Defined.
#[export] Instance params_eq_dec : EqDecision DiffusionParams.
Proof. solve_decision. Defined.
#[export] Instance request_eq_dec : EqDecision DiffusionRequest.
Proof. solve_decision. Defined.

(** ** The scheduler *)

(** [activation_pool] is [None] when no model runner with an activation pool
    has been set, otherwise the pool's [_initialized] flag. *)
Record DiffusionScheduler : Type := {
  max_batch_size : Z;
  activation_pool : option bool;
  waiting : list DiffusionRequest;
  states : gmap string DiffusionRuntimeState;
  running : list string;
  finished_req_ids : gset string }.

Definition make_scheduler (max_batch_size : Z) : DiffusionScheduler :=
  {| max_batch_size := max_batch_size; activation_pool := None;
     waiting := @new_queue DiffusionRequest _ Fcfs.fcfs_queue;
     states := ∅; running := []; finished_req_ids := ∅ |}.

(** [set_model_runner] *)
Definition set_model_runner (s : DiffusionScheduler) (pool : option bool) : DiffusionScheduler :=
  {| max_batch_size := max_batch_size s; activation_pool := pool; waiting := waiting s;
     states := states s; running := running s; finished_req_ids := finished_req_ids s |}.

Definition set_queues (s : DiffusionScheduler) (w : list DiffusionRequest)
    (st : gmap string DiffusionRuntimeState) (run : list string) : DiffusionScheduler :=
  {| max_batch_size := max_batch_size s; activation_pool := activation_pool s; waiting := w;
     states := st; running := run; finished_req_ids := finished_req_ids s |}.

(** [_can_add_more_requests] *)
Definition _can_add_more_requests (s : DiffusionScheduler) : bool :=
  let room := Z.of_nat (length (running s)) <? max_batch_size s in
  match activation_pool s with
  | None => room
  | Some false => room
  | Some true => if negb (queue_bool (R := DiffusionRequest) (waiting s)) then false else room
  end.

(** The runtime state of a fresh request: prompt, then masks. *)
Definition initial_state (req : DiffusionRequest) : DiffusionRuntimeState :=
  let prompt_len := Z.of_nat (length (input_token_ids req)) in
  {| s_id := r_id req;
     x := input_token_ids req ++ py_repeat (mask_id (r_params req)) (gen_length (r_params req));
     prompt_len := prompt_len;
     total_len := prompt_len + gen_length (r_params req);
     params := r_params req;
     block_idx := 0;
     step_idx_in_block := 0 |}.

(** [add_request] *)
Definition add_diffusion_request (s : DiffusionScheduler) (req : DiffusionRequest) : res DiffusionScheduler :=
  let! w := add_request (waiting s) req in
  Ok (set_queues s w (<[r_id req := initial_state req]> (states s)) (running s)).

(** The body of the [while] loop of [_ensure_running_capacity]. *)
Definition admit_request (s : DiffusionScheduler) (req : DiffusionRequest)
    (w : list DiffusionRequest) : DiffusionScheduler :=
  let st := match states s !! r_id req with
            | Some _ => states s
            | None => <[r_id req := initial_state req]> (states s)
            end in
  let run := if bool_decide (r_id req ∈ running s) then running s else running s ++ [r_id req] in
  set_queues s w st run.

(** [_ensure_running_capacity]; every round pops the queue, so the loop is
    structural in it.  Popping an empty queue raises [IndexError]. *)
Fixpoint ensure_loop (w : list DiffusionRequest) (s : DiffusionScheduler) : res DiffusionScheduler :=
  if _can_add_more_requests (set_queues s w (states s) (running s)) then
    match w with
    | [] => Raise IndexError
    | req :: w => ensure_loop w (admit_request s req w)
    end
  else Ok (set_queues s w (states s) (running s)).
Definition _ensure_running_capacity (s : DiffusionScheduler) : res DiffusionScheduler :=
  ensure_loop (waiting s) s.

(** The loop of [schedule_step] that packs the running requests. *)
Fixpoint pack_steps (max_batch : Z) (st : gmap string DiffusionRuntimeState) (ids : list string)
    (acc : list DiffusionStepRequest) : list DiffusionStepRequest :=
  match ids with
  | [] => acc
  | req_id :: ids =>
      match st !! req_id with
      | None => pack_steps max_batch st ids acc
      | Some state =>
          let acc := acc ++ [state] in
          if max_batch <=? Z.of_nat (length acc) then acc else pack_steps max_batch st ids acc
      end
  end.

(** [schedule_step]: [None] when there is nothing to run. *)
Definition schedule_step (s : DiffusionScheduler) :
    res (option (list DiffusionStepRequest) * DiffusionScheduler) :=
  let! s := _ensure_running_capacity s in
  let step_reqs := pack_steps (max_batch_size s) (states s) (running s) [] in
  Ok (match step_reqs with [] => None | _ => Some step_reqs end, s).

(** Blocks and steps per block of a request. *)
Definition num_blocks_of (p : DiffusionParams) : Z := Z.max 1 (gen_length p / Z.max 1 (block_length p)).
Definition steps_per_block_of (p : DiffusionParams) : Z := Z.max 1 (steps p / num_blocks_of p).

(** [list.count] *)
Definition py_count (l : list Z) (v : Z) : nat := length (List.filter (Z.eqb v) l).

(** [list.remove] of the first occurrence; absent is ignored ([except ValueError]). *)
Fixpoint remove_first (l : list string) (v : string) : list string :=
  match l with
  | [] => []
  | y :: l => if decide (y = v) then l else y :: remove_first l v
  end.

(** The state after one update: replace [x], advance the counters. *)
Definition advance (st : DiffusionRuntimeState) (new_x : list Z) : DiffusionRuntimeState :=
  let step1 := step_idx_in_block st + 1 in
  let wrap := steps_per_block_of (params st) <=? step1 in
  {| s_id := s_id st; x := new_x; prompt_len := prompt_len st; total_len := total_len st; params := params st;
     block_idx := if wrap then block_idx st + 1 else block_idx st;
     step_idx_in_block := if wrap then 0 else step1 |}.

Definition finished_by_mask (st : DiffusionRuntimeState) : bool :=
  (py_count (py_from (x st) (prompt_len st)) (mask_id (params st)) =? 0)%nat.
Definition finished_by_budget (st : DiffusionRuntimeState) : bool :=
  num_blocks_of (params st) <=? block_idx st.
Definition is_finished (st : DiffusionRuntimeState) : bool := finished_by_mask st || finished_by_budget st.
Definition tail_of (st : DiffusionRuntimeState) : list Z :=
  py_slice (x st) (prompt_len st) (prompt_len st + gen_length (params st)).

(** One iteration of [apply_updates_and_collect_finished]. *)
Definition apply_update (s : DiffusionScheduler) (up : DiffusionStepUpdate) :
    DiffusionScheduler * list FinishedDiffusionItem :=
  match states s !! u_id up with
  | None => (s, [])
  | Some st =>
      let st' := advance st (new_x up) in
      let sts := <[u_id up := st']> (states s) in
      if is_finished st' then
        ({| max_batch_size := max_batch_size s; activation_pool := activation_pool s; waiting := waiting s;
            states := sts; running := remove_first (running s) (s_id st');
            finished_req_ids := finished_req_ids s ∪ {[s_id st']} |},
         [{| f_id := s_id st'; tail_token_ids := tail_of st' |}])
      else (set_queues s (waiting s) sts (running s), [])
  end.

Fixpoint apply_updates_and_collect_finished (s : DiffusionScheduler) (ups : list DiffusionStepUpdate) :
    DiffusionScheduler * list FinishedDiffusionItem :=
  match ups with
  | [] => (s, [])
  | up :: ups =>
      let '(s1, items1) := apply_update s up in
      let '(s2, items2) := apply_updates_and_collect_finished s1 ups in
      (s2, items1 ++ items2)
  end.

(** [schedule], the batch interface: pop up to [max_batch_size] requests. *)
Fixpoint pop_batch (w : list DiffusionRequest) (max_batch : Z) (acc : list DiffusionRequest) :
    list DiffusionRequest * list DiffusionRequest :=
  match w with
  | [] => (acc, [])
  | req :: w' => if Z.of_nat (length acc) <? max_batch then pop_batch w' max_batch (acc ++ [req]) else (acc, w)
  end.
Definition schedule (s : DiffusionScheduler) : option (list DiffusionRequest) * DiffusionScheduler :=
  if negb (queue_bool (R := DiffusionRequest) (waiting s)) then (None, s)
  else
    let '(batch, w) := pop_batch (waiting s) (max_batch_size s) [] in
    (Some batch, set_queues s w (states s) (running s)).

(** [has_active_requests] *)
Definition has_active_requests (s : DiffusionScheduler) : bool :=
  queue_bool (R := DiffusionRequest) (waiting s) || (0 <? Z.of_nat (length (running s))).
