(* ===== verification/DiffusionStep.v ===== *)
(** * One denoising step ([execute_diffusion_once] of [gpu_model_runner.py], [diffusion/utils.py])

    The runner flattens the batch, runs the model on it and unmasks, in the
    first request of the batch, the most confident masked positions of its
    current block.  The model forward, [torch.topk] and the contents of
    uninitialised tensors are parameters.  The classifier-free guidance branch
    ([cfg_scale > 0]) raises [NameError]: it uses [block_table], whose
    definition is commented out. *)

From stdpp Require Import base gmap strings list sorting fin_maps fin_sets.
From Stdlib Require Import ZArith Lia QArith.
From S2P Require Import Prelude RequestQueue Diffusion.
Open Scope string_scope.
Open Scope list_scope.
Open Scope Z_scope.

(** One row of [_get_num_transfer_tokens]: [mask_num] tokens over [steps] steps. *)
Definition transfer_row (mask_num steps : Z) : list Z :=
  let base := mask_num / steps in
  let remainder := mask_num mod steps in
  map (fun j => base + (if Z.of_nat j <? remainder then 1 else 0)) (seq 0 (Z.to_nat steps)).

(** [_get_num_transfer_tokens] on a batch of boolean rows. *)
Definition count_true (row : list bool) : Z := Z.of_nat (length (List.filter id row)).
Definition _get_num_transfer_tokens (mask_index : list (list bool)) (steps : Z) : list (list Z) :=
  map (fun row => transfer_row (count_true row) steps) mask_index.

(** Confidence of a position; [None] is minus infinity. *)
Notation Conf := (option Q) (only parsing).

(** [base[positions] = values] *)
Fixpoint scatter {A} (base : list A) (positions : list nat) (values : list A) : list A :=
  match positions, values with
  | p :: positions, v :: values => scatter (<[p := v]> base) positions values
  | _, _ => base
  end.

(** [row[s:e] = True] on a row of [False]. *)
Definition mark (n s e : nat) : list bool := map (fun j => (s <=? j)%nat && (j <? e)%nat) (seq 0 n).

Section runner.
(** The model's answer for the flattened tokens and the masked output
    positions: one token and one confidence per position. *)
Context (forward : list Z -> list nat -> list Z * list Q).
(** [torch.topk(values, k)]: the selected indices. *)
Context (topk : list Conf -> nat -> list nat).
(** [torch.empty(n)] *)
Context (uninit : nat -> list Z).

(** The row of a request in the padded matrix of width [w]. *)
Definition padded_row (mask : Z) (w : nat) (r : DiffusionStepRequest) : list Z :=
  x r ++ repeat mask (w - length (x r)).

(** The static mask of the current block of a request in a row of width [w]. *)
Definition block_row (w : nat) (r : DiffusionStepRequest) : list bool :=
  let bl := block_length (params r) in
  let s := prompt_len r + block_idx r * bl in
  let e := Z.min (s + bl) (total_len r) in
  if s <? e then
    mark w (Z.to_nat (py_index (Z.of_nat w) s)) (Z.to_nat (py_index (Z.of_nat w) e))
  else repeat false w.

(** The per-request transfer quota, with its two assertions. *)
Definition request_quota (w : nat) (r : DiffusionStepRequest) : res (list Z) :=
  let bl := if block_length (params r) <=? 0 then 1 else block_length (params r) in
  let gl := gen_length (params r) in
  py_assert (gl mod bl =? 0) ;;!
  (let nb := Z.max 1 (gl / bl) in
   py_assert (steps (params r) mod nb =? 0) ;;!
   (let spb := Z.max 1 (steps (params r) / nb) in
    of_option IndexError (_get_num_transfer_tokens [block_row w r] spb !! 0%nat))).
Fixpoint all_quotas (w : nat) (rs : list DiffusionStepRequest) : res (list (list Z)) :=
  match rs with
  | [] => Ok []
  | r :: rs => let! q := request_quota w r in let! qs := all_quotas w rs in Ok (q :: qs)
  end.

(** The flattened input: the first [total_len] entries of every row. *)
Definition flat_input_ids (mask : Z) (w : nat) (rs : list DiffusionStepRequest) : list Z :=
  concat (map (fun r => take (Z.to_nat (total_len r)) (padded_row mask w r)) rs).

(** Positions of the mask id in the part after the first prompt. *)
Definition mask_positions (mask : Z) (l : list Z) : list nat :=
  List.filter (fun j => match l !! j with Some t => t =? mask | None => false end) (seq 0 (length l)).

(** The post-processing of request 0: [flat] is the flattened input, [tok] and
    [conf] the model's answer for the masked positions [pos] after the prompt,
    [k] the quota of this step. *)
Definition post_process (r0 : DiffusionStepRequest) (flat : list Z) (row0 : list Z)
    (pos : list nat) (tok : list Z) (conf : list Q) (k : Z) : res (list Z) :=
  let n := length flat in
  let mask := mask_id (params r0) in
  let t := Z.to_nat (total_len r0) in
  let p := Z.to_nat (prompt_len r0) in
  let flat_x := take t row0 ++ drop t (uninit n) in
  let mask_2d := map (fun j => match take t row0 !! j with Some y => y =? mask | None => false end) (seq 0 n) in
  let bl := block_length (params r0) in
  let block_start := prompt_len r0 + block_idx r0 * bl in
  let block_end := Z.min (block_start + bl) (total_len r0) in
  let block_2d :=
    if (block_start <? block_end) && (block_start <? total_len r0)
    then mark n (Z.to_nat (Z.max 0 block_start)) (Z.to_nat (Z.min (total_len r0) block_end))
    else repeat false n in
  let positions_2d := map (fun j => (p + j)%nat) pos in
  let has_output := 0 <? total_len r0 - prompt_len r0 in
  if has_output && negb ((length tok =? length pos)%nat && (length conf =? length pos)%nat)
   then Raise RuntimeError
   else
     let x0_2d := if has_output then scatter (uninit n) positions_2d tok else uninit n in
     let masked j := match mask_2d !! j, block_2d !! j with Some a, Some b => a && b | _, _ => false end in
     let confidence_2d :=
       if has_output
       then scatter (replicate n None) positions_2d
              (zip_with (fun j c => if masked j then Some c else None) positions_2d conf)
       else replicate n None in
     let seq_confidence := take t confidence_2d in
     let available := length (List.filter (fun c => match c with Some _ => true | None => false end) seq_confidence) in
     let sel := if 0 <? k then topk seq_confidence (Z.to_nat (Z.min k (Z.of_nat available))) else [] in
     let final_x := imap (fun j y => if bool_decide (j ∈ sel) then nth j x0_2d y else y) flat_x in
     Ok (take t final_x).

(** [execute_diffusion_once]; the guidance branch reads the undefined
    name [block_table]. *)
Definition execute_diffusion_once (batch : list DiffusionStepRequest) : res (list DiffusionStepUpdate) :=
  match batch with
  | [] => Ok []
  | r0 :: _ =>
      let p0 := params r0 in
      let mask := mask_id p0 in
      let w := Z.to_nat (fold_left Z.max (map total_len batch) (total_len r0)) in
      if existsb (fun r => (w <? length (x r))%nat) batch then Raise RuntimeError
      else
        let flat := flat_input_ids mask w batch in
        let! gl_mod := py_mod (gen_length p0) (block_length p0) in
        py_assert (gl_mod =? 0) ;;!
        (let! num_blocks := py_div (gen_length p0) (block_length p0) in
         let! st_mod := py_mod (steps p0) num_blocks in
         py_assert (st_mod =? 0) ;;!
         (let! quotas := all_quotas w batch in
          let pos := mask_positions mask (py_from flat (prompt_len r0)) in
          if negb (Qle_bool (cfg_scale p0) 0) then Raise NameError
          else
            let '(tok, conf) := forward flat pos in
            let! tokens_0 := of_option IndexError (quotas !! 0%nat) in
            let si := step_idx_in_block r0 in
            let! k := (if si <? Z.of_nat (length tokens_0)
                       then of_option IndexError (tokens_0 !! Z.to_nat si) else Ok 0) in
            let! new := post_process r0 flat (padded_row mask w r0) pos tok conf k in
            Ok [{| u_id := s_id r0; new_x := new; u_block_idx := block_idx r0;
                   u_step_idx := step_idx_in_block r0 |}]))
  end.
End runner.

(** ** The quota *)

Lemma transfer_row_length m n : length (transfer_row m n) = Z.to_nat n.
Proof. unfold transfer_row. by rewrite length_map, length_seq. Qed.

Lemma transfer_row_lookup m n j :
  Z.of_nat j < n -> transfer_row m n !! j = Some (m / n + (if Z.of_nat j <? m mod n then 1 else 0)).
Proof.
  intros Hj. unfold transfer_row. rewrite list_lookup_fmap. 
  rewrite lookup_seq_lt by lia. done.
Qed.

(** Sum of the first [i] quotas. *)
Lemma transfer_row_prefix m n i :
  0 <= m -> 0 < n -> Z.of_nat i <= n ->
  zsum (take i (transfer_row m n)) = m / n * Z.of_nat i + Z.min (Z.of_nat i) (m mod n).
Proof.
  intros Hm Hn. pose proof (Z.mod_pos_bound m n Hn) as Hr. induction i as [|i IH]; intros Hi.
  - rewrite take_0. cbn. lia.
  - rewrite (take_S_r _ _ _ (transfer_row_lookup m n i ltac:(lia))), zsum_app, IH by lia.
    cbn [zsum]. destruct (Z.ltb_spec (Z.of_nat i) (m mod n)); lia.
Qed.

Lemma transfer_row_sum m n : 0 <= m -> 0 < n -> zsum (transfer_row m n) = m.
Proof.
  intros Hm Hn. rewrite <-(take_ge (transfer_row m n) (Z.to_nat n)) by (rewrite transfer_row_length; lia).
  rewrite transfer_row_prefix by lia. rewrite Z2Nat.id by lia.
  pose proof (Z.mod_pos_bound m n Hn). pose proof (Z.div_mod m n). lia.
Qed.

(** The transfer quota distributes the masked positions of a block evenly
    over its steps: one entry per step, entries differ by at most one and never
    increase, and they sum up to the number of positions. *)
Theorem num_transfer_tokens_ok rows n i q :
  0 < n -> _get_num_transfer_tokens rows n !! i = Some q ->
  exists row, rows !! i = Some row /\ Z.of_nat (length q) = n /\ zsum q = count_true row /\
    forall j1 j2 a b, (j1 <= j2)%nat -> q !! j1 = Some a -> q !! j2 = Some b ->
      0 <= b <= a /\ a <= b + 1.
Proof.
  intros Hn. unfold _get_num_transfer_tokens. rewrite list_lookup_fmap. intros (row & -> & Hrow)%fmap_Some.
  assert (Hm : 0 <= count_true row) by (unfold count_true; lia).
  exists row. split; [done|]. rewrite Hrow. rewrite transfer_row_length, transfer_row_sum by lia. split; [lia|]. split; [done|].
  intros j1 j2 a b Hj Ha Hb. apply lookup_lt_Some in Ha as H1. apply lookup_lt_Some in Hb as H2.
  rewrite transfer_row_length in H1, H2. rewrite transfer_row_lookup in Ha, Hb by lia.
  injection Ha as <-. injection Hb as <-. pose proof (Z.div_pos (count_true row) n Hm Hn).
  destruct (Z.ltb_spec (Z.of_nat j1) (count_true row mod n)), (Z.ltb_spec (Z.of_nat j2) (count_true row mod n)); lia.
Qed.

(** ** Scatter and marks *)

Lemma scatter_length {A} (base : list A) pos vals : length (scatter base pos vals) = length base.
Proof.
  revert base vals. induction pos as [|p pos IH]; intros base [|v vals]; cbn; try done.
  by rewrite IH, length_insert.
Qed.

Lemma scatter_other {A} (base : list A) pos vals j :
  j ∉ pos -> scatter base pos vals !! j = base !! j.
Proof.
  revert base vals. induction pos as [|p pos IH]; intros base [|v vals] Hj; cbn; try done.
  apply not_elem_of_cons in Hj as [Hne Hj]. rewrite IH by done. by rewrite list_lookup_insert_ne.
Qed.

Lemma scatter_at {A} (base : list A) pos vals i j v :
  NoDup pos -> pos !! i = Some j -> vals !! i = Some v -> (j < length base)%nat ->
  scatter base pos vals !! j = Some v.
Proof.
  revert base vals i. induction pos as [|p pos IH]; intros base vals i Hnd Hp Hv Hj; [done|].
  apply NoDup_cons in Hnd as [Hn Hnd]. destruct vals as [|w vals]; [done|]. cbn.
  destruct i as [|i]; cbn in Hp, Hv.
  - injection Hp as ->. injection Hv as ->. rewrite scatter_other by done. by rewrite list_lookup_insert_eq.
  - eapply IH; eauto. by rewrite length_insert.
Qed.

Lemma mark_lookup n s e j :
  mark n s e !! j = if decide (j < n)%nat then Some ((s <=? j)%nat && (j <? e)%nat) else None.
Proof.
  unfold mark. rewrite list_lookup_fmap. case_decide.
  - by rewrite lookup_seq_lt by done.
  - by rewrite lookup_seq_ge by lia.
Qed.

Lemma count_mark n s e : (s <= e <= n)%nat -> count_true (mark n s e) = Z.of_nat (e - s).
Proof.
  intros H. unfold count_true, mark. f_equal.
  replace n with (s + ((e - s) + (n - e)))%nat by lia. rewrite !seq_app, !map_app, !List.filter_app, !length_app.
  assert (Hf : forall a k, (forall j, (a <= j < a + k)%nat -> (s <=? j)%nat && (j <? e)%nat = false) ->
            length (List.filter id (map (fun j => (s <=? j)%nat && (j <? e)%nat) (seq a k))) = 0%nat).
  { intros a k. revert a. induction k as [|k IH]; intros a Ha; cbn [seq map List.filter]; [done|].
    rewrite Ha by lia. cbn. apply IH. intros j Hj. apply Ha. lia. }
  assert (Ht : forall a k, (forall j, (a <= j < a + k)%nat -> (s <=? j)%nat && (j <? e)%nat = true) ->
            length (List.filter id (map (fun j => (s <=? j)%nat && (j <? e)%nat) (seq a k))) = k).
  { intros a k. revert a. induction k as [|k IH]; intros a Ha; cbn [seq map List.filter]; [done|].
    rewrite Ha by lia. cbn. f_equal. apply IH. intros j Hj. apply Ha. lia. }
  rewrite Hf, Ht, Hf; [lia| | |]; intros j Hj;
    destruct (Nat.leb_spec s j), (Nat.ltb_spec j e); cbn; try done; lia.
Qed.

(** ** What a step does *)

(** Parameters that satisfy the runner's assertions. *)
Record wf_params (p : DiffusionParams) : Prop := {
  wp_block : 0 < block_length p;
  wp_gen : 0 < gen_length p;
  wp_div : gen_length p mod block_length p = 0;
  wp_steps : 0 < steps p;
  wp_steps_div : steps p mod (gen_length p / block_length p) = 0 }.

(** A runtime state that still has steps to do. *)
Record wf_state (r : DiffusionRuntimeState) : Prop := {
  ws_params : wf_params (params r);
  ws_prompt : 0 <= prompt_len r;
  ws_total : total_len r = prompt_len r + gen_length (params r);
  ws_x : Z.of_nat (length (x r)) = total_len r;
  ws_block : 0 <= block_idx r < num_blocks_of (params r);
  ws_step : 0 <= step_idx_in_block r < steps_per_block_of (params r) }.

Lemma wf_params_facts p :
  wf_params p ->
  gen_length p / block_length p = num_blocks_of p /\ 1 <= num_blocks_of p /\
  gen_length p = num_blocks_of p * block_length p /\
  steps p / num_blocks_of p = steps_per_block_of p /\ 1 <= steps_per_block_of p /\
  steps p = num_blocks_of p * steps_per_block_of p.
Proof.
  intros [H1 H2 H3 H4 H5]. unfold steps_per_block_of, num_blocks_of. rewrite (Z.max_r 1 (block_length p)) by lia.
  pose proof (Z.div_mod (gen_length p) (block_length p) ltac:(lia)) as Hd.
  set (nb := gen_length p / block_length p) in *.
  assert (Hnb : 1 <= nb) by nia. rewrite (Z.max_r 1 nb) by done.
  pose proof (Z.div_mod (steps p) nb ltac:(lia)) as Hs. set (sp := steps p / nb) in *.
  assert (Hsp : 1 <= sp) by nia. rewrite Z.max_r by done. split_and!; lia.
Qed.

(** First and last position of the current block. *)
Definition block_lo (r : DiffusionRuntimeState) : nat :=
  Z.to_nat (prompt_len r + block_idx r * block_length (params r)).
Definition block_hi (r : DiffusionRuntimeState) : nat :=
  Z.to_nat (prompt_len r + (block_idx r + 1) * block_length (params r)).

(** Positions of the current block that hold the mask. *)
Definition block_masked (r : DiffusionRuntimeState) (j : nat) : bool :=
  (block_lo r <=? j)%nat && (j <? block_hi r)%nat && bool_decide (x r !! j = Some (mask_id (params r))).
Definition num_block_masked (r : DiffusionRuntimeState) : nat :=
  length (List.filter (block_masked r) (seq 0 (length (x r)))).

(** The quota of the current step. *)
Definition current_quota (r : DiffusionRuntimeState) : Z :=
  nth (Z.to_nat (step_idx_in_block r)) (transfer_row (block_length (params r)) (steps_per_block_of (params r))) 0.

Lemma block_bounds r :
  wf_state r -> (Z.to_nat (prompt_len r) <= block_lo r <= block_hi r)%nat /\ (block_hi r <= length (x r))%nat /\
  Z.of_nat (block_lo r) = prompt_len r + block_idx r * block_length (params r) /\
  Z.of_nat (block_hi r) = prompt_len r + block_idx r * block_length (params r) + block_length (params r).
Proof.
  intros [Hp H0 Ht Hx Hb Hs]. destruct (wf_params_facts _ Hp) as (_ & Hnb & Hgl & _).
  pose proof (wp_block _ Hp). unfold block_lo, block_hi.
  assert (H1 : 0 <= block_idx r * block_length (params r)) by nia.
  assert (H2 : (block_idx r + 1) * block_length (params r) <= gen_length (params r)) by nia.
  assert (H3 : (block_idx r + 1) * block_length (params r) =
            block_idx r * block_length (params r) + block_length (params r)) by lia.
  lia.
Qed.

(** [topk values k] with [k] at most the number of finite values returns [k]
    distinct positions of finite values, none smaller than an unselected one. *)
Definition is_finite (c : Conf) : bool := match c with Some _ => true | None => false end.
Definition topk_ok (topk : list Conf -> nat -> list nat) : Prop :=
  forall vals k, (k <= length (List.filter is_finite vals))%nat ->
    NoDup (topk vals k) /\ length (topk vals k) = k /\
    forall j, j ∈ topk vals k -> exists c, vals !! j = Some (Some c) /\
      forall i c', vals !! i = Some (Some c') -> i ∉ topk vals k -> (c' <= c)%Q.

(** The model answers for every masked position. *)
Definition forward_ok (forward : list Z -> list nat -> list Z * list Q) : Prop :=
  forall flat pos, length (fst (forward flat pos)) = length pos /\ length (snd (forward flat pos)) = length pos.
Definition uninit_ok (uninit : nat -> list Z) : Prop := forall n, length (uninit n) = n.

Lemma filter_positions {A} (f : A -> bool) (g : nat -> bool) (l : list A) (i0 : nat) :
  (forall j y, l !! j = Some y -> g (i0 + j)%nat = f y) ->
  length (List.filter f l) = length (List.filter g (seq i0 (length l))).
Proof.
  revert i0. induction l as [|y l IH]; intros i0 H; cbn; [done|].
  rewrite <-(H 0%nat y eq_refl), Nat.add_0_r.
  assert (IH' : length (List.filter f l) = length (List.filter g (seq (S i0) (length l)))).
  2:{ destruct (g i0); cbn; by rewrite IH'. }
  apply IH. intros j z Hz. rewrite <-(H (S j) z Hz). f_equal. lia.
Qed.

Lemma mask_positions_elem mask l j : j ∈ mask_positions mask l <-> l !! j = Some mask.
Proof.
  unfold mask_positions. rewrite list_elem_of_In, filter_In, in_seq. split.
  - intros [_ H]. destruct (l !! j) as [t|]; [|done]. apply Z.eqb_eq in H. congruence.
  - intros H. rewrite H, Z.eqb_refl. apply lookup_lt_Some in H. split; [lia|done].
Qed.

Lemma mask_positions_nodup mask l : NoDup (mask_positions mask l).
Proof. unfold mask_positions. apply NoDup_ListNoDup, List.NoDup_filter, seq_NoDup. Qed.

Section post.
Context (topk : list Conf -> nat -> list nat) (uninit : nat -> list Z).
Context (Htopk : topk_ok topk) (Huninit : uninit_ok uninit).
Context (r0 : DiffusionRuntimeState) (Hwf : wf_state r0).
Context (flat row0 : list Z) (pos : list nat) (tok : list Z) (conf : list Q) (k : Z).
Let mask := mask_id (params r0).
Let t := Z.to_nat (total_len r0).
Let p := Z.to_nat (prompt_len r0).
Context (Hflat : take t flat = x r0) (Hrow : take t row0 = x r0) (Hn : (t <= length flat)%nat).
Context (Hpos : pos = mask_positions mask (drop p flat)).
Context (Htok : length tok = length pos) (Hconf : length conf = length pos).
Context (Hk : 0 <= k).

Let positions_2d := map (fun j => (p + j)%nat) pos.

Lemma positions_2d_elem j : j ∈ positions_2d <-> (p <= j)%nat /\ flat !! j = Some mask.
Proof.
  unfold positions_2d. rewrite list_elem_of_fmap. setoid_rewrite Hpos. setoid_rewrite mask_positions_elem.
  setoid_rewrite lookup_drop. split.
  - intros (i & -> & Hi). split; [lia|done].
  - intros [Hp Hj]. exists (j - p)%nat. split; [lia|]. by replace (p + (j - p))%nat with j by lia.
Qed.

Lemma positions_2d_nodup : NoDup positions_2d.
Proof. unfold positions_2d. apply NoDup_fmap_2; [intros a b; lia|]. rewrite Hpos. apply mask_positions_nodup. Qed.

Lemma t_length : t = length (x r0).
Proof. unfold t. pose proof (ws_x _ Hwf). lia. Qed.

(** The model's token and score for a position. *)
Definition pred (j : nat) : Z := nth j (scatter (uninit (length flat)) positions_2d tok) 0.
Definition score (j : nat) : Q :=
  match scatter (replicate (length flat) None) positions_2d (map Some conf) !! j with
  | Some (Some c) => c
  | _ => 0%Q
  end.

Lemma pred_score i j :
  positions_2d !! i = Some j -> tok !! i = Some (pred j) /\ conf !! i = Some (score j) /\
  scatter (uninit (length flat)) positions_2d tok !! j = Some (pred j).
Proof.
  intros Hi. assert (Hlt : (i < length pos)%nat).
  { apply lookup_lt_Some in Hi. unfold positions_2d in Hi. by rewrite length_map in Hi. }
  destruct (lookup_lt_is_Some_2 tok i ltac:(lia)) as [a Ha]. destruct (lookup_lt_is_Some_2 conf i ltac:(lia)) as [c Hc].
  assert (Hj : (j < length flat)%nat).
  { apply list_elem_of_lookup_2 in Hi. apply positions_2d_elem in Hi as [_ Hj]. by apply lookup_lt_Some in Hj. }
  pose proof (scatter_at (uninit (length flat)) positions_2d tok i j a positions_2d_nodup Hi Ha) as Hs.
  rewrite Huninit in Hs. specialize (Hs Hj).
  pose proof (scatter_at (replicate (length flat) None) positions_2d (map Some conf) i j (Some c) positions_2d_nodup Hi) as Hs2.
  rewrite length_replicate, list_lookup_fmap, Hc in Hs2. specialize (Hs2 eq_refl Hj).
  unfold pred, score. rewrite Hs2. rewrite Ha, Hc, Hs. rewrite (nth_lookup_Some _ _ _ _ Hs). done.
Qed.

(** The block test of the post-processing is [block_masked]. *)
Lemma masked_iff j :
  (match map (fun j => match take t row0 !! j with Some y => y =? mask | None => false end) (seq 0 (length flat)) !! j,
         (if (prompt_len r0 + block_idx r0 * block_length (params r0) <?
               Z.min (prompt_len r0 + block_idx r0 * block_length (params r0) + block_length (params r0)) (total_len r0))
             && (prompt_len r0 + block_idx r0 * block_length (params r0) <? total_len r0)
          then mark (length flat) (Z.to_nat (Z.max 0 (prompt_len r0 + block_idx r0 * block_length (params r0))))
                 (Z.to_nat (Z.min (total_len r0)
                    (Z.min (prompt_len r0 + block_idx r0 * block_length (params r0) + block_length (params r0)) (total_len r0))))
          else repeat false (length flat)) !! j
   with Some a, Some b => a && b | _, _ => false end) = block_masked r0 j.
Proof.
  destruct (block_bounds _ Hwf) as ((Hb1 & Hb2) & Hb3 & Hlo & Hhi). pose proof (ws_x _ Hwf) as Hx.
  pose proof (wp_block _ (ws_params _ Hwf)) as Hbl.
  rewrite Hrow. rewrite Z.min_l by lia. rewrite (proj2 (Z.ltb_lt _ _)) by lia.
  rewrite (proj2 (Z.ltb_lt _ (total_len r0))) by lia. cbn [andb].
  rewrite Z.max_r, Z.min_r by lia. rewrite <-Hhi, <-Hlo, !Nat2Z.id, mark_lookup, list_lookup_fmap.
  unfold block_masked. case_decide as Hj.
  - rewrite lookup_seq_lt by done. cbn [fmap option_fmap option_map]. rewrite Nat.add_0_l.
    destruct (x r0 !! j) as [y|] eqn:Hy.
    + destruct (Z.eqb_spec y mask) as [->|Hne]; [rewrite bool_decide_true by done|rewrite bool_decide_false by (intros [= Heq]; by apply Hne)];
        destruct (_ <=? _)%nat, (_ <? _)%nat; done.
    + rewrite bool_decide_false by done. destruct (_ <=? _)%nat, (_ <? _)%nat; done.
  - rewrite lookup_seq_ge by lia. cbn. symmetry. apply andb_false_iff. right.
    apply bool_decide_false. intros Hc. apply lookup_lt_Some in Hc. rewrite t_length in Hn. lia.
Qed.

Lemma block_masked_position j : block_masked r0 j = true -> j ∈ positions_2d /\ (j < t)%nat.
Proof.
  unfold block_masked. rewrite !andb_true_iff, bool_decide_eq_true. intros [[Hlo Hhi] Hx].
  apply Nat.leb_le in Hlo. destruct (block_bounds _ Hwf) as ((Hb1 & _) & _).
  apply lookup_lt_Some in Hx as Hlt. rewrite <-t_length in Hlt. split; [|done].
  apply positions_2d_elem. split; [unfold p; lia|]. rewrite <-Hflat in Hx. by apply lookup_take_Some in Hx as [? _].
Qed.
End post.

Section post_spec.
Context (topk : list Conf -> nat -> list nat) (uninit : nat -> list Z).
Context (Htopk : topk_ok topk) (Huninit : uninit_ok uninit).

Lemma post_process_ok r0 flat row0 pos tok conf k :
  wf_state r0 ->
  take (Z.to_nat (total_len r0)) flat = x r0 -> take (Z.to_nat (total_len r0)) row0 = x r0 ->
  (Z.to_nat (total_len r0) <= length flat)%nat ->
  pos = mask_positions (mask_id (params r0)) (drop (Z.to_nat (prompt_len r0)) flat) ->
  length tok = length pos -> length conf = length pos -> 0 <= k ->
  exists sel new,
    post_process topk uninit r0 flat row0 pos tok conf k = Ok new /\
    length new = length (x r0) /\ NoDup sel /\
    Z.of_nat (length sel) = Z.min k (Z.of_nat (num_block_masked r0)) /\
    (forall j, j ∈ sel -> block_masked r0 j = true) /\
    (forall i j, j ∈ sel -> block_masked r0 i = true -> i ∉ sel ->
       (score r0 flat pos conf i <= score r0 flat pos conf j)%Q) /\
    (forall j y, x r0 !! j = Some y ->
       new !! j = Some (if bool_decide (j ∈ sel) then pred uninit r0 flat pos tok j else y)).
Proof.
  intros Hwf Hflat Hrow Hn Hpos Htok Hconf Hk. unfold post_process.
  set (t := Z.to_nat (total_len r0)) in *. set (p := Z.to_nat (prompt_len r0)) in *.
  pose proof (ws_x _ Hwf) as Hx. pose proof (ws_total _ Hwf) as Ht.
  pose proof (wp_gen _ (ws_params _ Hwf)) as Hg.
  rewrite (proj2 (Z.ltb_lt 0 (total_len r0 - prompt_len r0))) by lia.
  rewrite Htok, Hconf, !Nat.eqb_refl. cbn [andb negb].
  set (positions_2d := map (fun j => (p + j)%nat) pos).
  set (conf2d := scatter _ _ (zip_with _ _ _)).
  assert (Htl : length (x r0) = t) by lia.
  assert (Hc2 : length conf2d = length flat) by (unfold conf2d; by rewrite scatter_length, length_replicate).
  (* the finite confidences are those of the masked block positions *)
  assert (Hcj : forall j, (j < t)%nat -> conf2d !! j =
            Some (if block_masked r0 j then Some (score r0 flat pos conf j) else None)).
  { intros j Hj. destruct (decide (j ∈ positions_2d)) as [Hin|Hout].
    - apply list_elem_of_lookup_1 in Hin as [i Hi].
      destruct (pred_score uninit Huninit r0 flat pos tok conf Hn Hpos Htok Hconf i j Hi) as (_ & Hs & _).
      unfold conf2d. eapply scatter_at.
      + by apply (positions_2d_nodup r0 flat pos tok conf).
      + exact Hi.
      + rewrite lookup_zip_with, Hi, Hs. cbn [mbind option_bind].
        pose proof (masked_iff r0 Hwf flat row0 pos tok conf Hrow Hn Htok Hconf j) as Hmi.
        fold t in Hmi. cbv beta. rewrite Hmi. done.
      + rewrite length_replicate. lia.
    - unfold conf2d. rewrite scatter_other by done. rewrite lookup_replicate_2 by lia.
      destruct (block_masked r0 j) eqn:Hm; [|done]. exfalso. apply Hout.
      by apply (block_masked_position r0 Hwf flat pos tok conf Hflat Hn Hpos Htok Hconf j Hm). }
  assert (Hav : length (List.filter is_finite (take t conf2d)) = num_block_masked r0).
  { unfold num_block_masked. rewrite Htl.
    rewrite (filter_positions is_finite (block_masked r0) (take t conf2d) 0).
    - do 3 f_equal. rewrite length_take. lia.
    - intros j c Hc. apply lookup_take_Some in Hc as [Hc Hlt]. rewrite (Hcj j Hlt) in Hc. injection Hc as <-.
      cbn. by destruct (block_masked r0 j). }
  unfold is_finite in Hav. rewrite Hav.
  set (kk := Z.to_nat (Z.min k (Z.of_nat (num_block_masked r0)))).
  set (sel := if 0 <? k then topk (take t conf2d) kk else []).
  assert (Hsel : NoDup sel /\ Z.of_nat (length sel) = Z.min k (Z.of_nat (num_block_masked r0)) /\
            forall j, j ∈ sel -> exists c, take t conf2d !! j = Some (Some c) /\
              forall i c', take t conf2d !! i = Some (Some c') -> i ∉ sel -> (c' <= c)%Q).
  { unfold sel. destruct (Z.ltb_spec 0 k) as [Hpos0|Hz].
    - destruct (Htopk (take t conf2d) kk) as (H1 & H2 & H3).
      { unfold is_finite. rewrite Hav. unfold kk. lia. }
      split; [done|]. split; [rewrite H2; unfold kk; lia|done].
    - split; [constructor|]. split; [cbn; lia|]. intros j Hj. by apply elem_of_nil in Hj. }
  destruct Hsel as (Hnd & Hlen & Hdom).
  assert (Hselm : forall j, j ∈ sel -> (j < t)%nat /\ block_masked r0 j = true /\
            forall i c', take t conf2d !! i = Some (Some c') -> i ∉ sel -> (c' <= score r0 flat pos conf j)%Q).
  { intros j Hj. destruct (Hdom j Hj) as (c & Hc & Hle). apply lookup_take_Some in Hc as [Hc Hlt].
    split; [done|]. rewrite (Hcj j Hlt) in Hc. destruct (block_masked r0 j); [|done]. injection Hc as ->. done. }
  eexists sel, _. split; [reflexivity|]. split_and!; try done.
  - rewrite length_take, length_imap, length_app, Hrow, length_drop, Huninit. lia.
  - intros j Hj. by apply Hselm.
  - intros i j Hj Hi Hni. destruct (Hselm j Hj) as (_ & _ & Hle). apply (Hle i); [|done].
    destruct (block_masked_position r0 Hwf flat pos tok conf Hflat Hn Hpos Htok Hconf i Hi) as [_ Hit].
    apply lookup_take_Some. split; [|done]. by rewrite (Hcj i Hit), Hi.
  - intros j y Hj. apply lookup_lt_Some in Hj as Hlt.
    rewrite lookup_take_lt by lia. rewrite list_lookup_imap, Hrow.
    rewrite lookup_app_l by done. rewrite Hj. cbn. f_equal. case_bool_decide as Hin; [|done].
    destruct (Hselm j Hin) as (_ & Hm & _).
    destruct (block_masked_position r0 Hwf flat pos tok conf Hflat Hn Hpos Htok Hconf j Hm) as [Hp _].
    apply list_elem_of_lookup_1 in Hp as [i Hi].
    destruct (pred_score uninit Huninit r0 flat pos tok conf Hn Hpos Htok Hconf i j Hi) as (_ & _ & Hs).
    by rewrite (nth_lookup_Some _ _ _ _ Hs).
Qed.
End post_spec.

(** ** The runner on a batch *)

Lemma fold_max_ge (l : list Z) a : a <= fold_left Z.max l a /\ forall v, v ∈ l -> v <= fold_left Z.max l a.
Proof.
  revert a. induction l as [|v l IH]; intros a; cbn; [split; [lia|intros v Hv; by apply elem_of_nil in Hv]|].
  destruct (IH (Z.max a v)) as [H1 H2]. split; [lia|]. intros u [->|Hu]%elem_of_cons; [lia|auto].
Qed.

Lemma request_quota_ok w r :
  wf_state r -> (length (x r) <= w)%nat ->
  request_quota w r = Ok (transfer_row (block_length (params r)) (steps_per_block_of (params r))).
Proof.
  intros Hwf Hw. destruct (wf_params_facts _ (ws_params _ Hwf)) as (Hnb & Hnb1 & _ & Hspb & _).
  pose proof (ws_params _ Hwf) as [Hbl Hg Hdiv _ Hsd]. unfold request_quota.
  destruct (Z.leb_spec (block_length (params r)) 0); [lia|].
  rewrite Hdiv, Hnb, Z.max_r by lia. rewrite Hnb in Hsd. rewrite Hsd. cbn.
  rewrite Hspb, Z.max_r by (unfold steps_per_block_of; lia). do 2 f_equal.
  destruct (block_bounds r Hwf) as ((H1 & H2) & H3 & Hlo & Hhi). pose proof (ws_x _ Hwf).
  unfold block_row. rewrite Z.min_l by lia. rewrite (proj2 (Z.ltb_lt _ _)) by lia.
  unfold py_index. destruct (Z.ltb_spec (prompt_len r + block_idx r * block_length (params r)) 0); [lia|].
  destruct (Z.ltb_spec (prompt_len r + block_idx r * block_length (params r) + block_length (params r)) 0); [lia|].
  rewrite count_mark by lia. lia.
Qed.

Lemma all_quotas_ok w rs :
  Forall (fun r => wf_state r /\ (length (x r) <= w)%nat) rs ->
  all_quotas w rs = Ok (map (fun r => transfer_row (block_length (params r)) (steps_per_block_of (params r))) rs).
Proof. induction 1 as [|r rs [Hr Hw] _ IH]; cbn [all_quotas map]; [done|]. rewrite request_quota_ok, IH by done. done. Qed.

(** The flattened input of a batch and the masked positions after the first prompt. *)
Definition batch_width (r0 : DiffusionStepRequest) (batch : list DiffusionStepRequest) : nat :=
  Z.to_nat (fold_left Z.max (map total_len batch) (total_len r0)).
Definition batch_flat (r0 : DiffusionStepRequest) (batch : list DiffusionStepRequest) : list Z :=
  flat_input_ids (mask_id (params r0)) (batch_width r0 batch) batch.
Definition batch_pos (r0 : DiffusionStepRequest) (batch : list DiffusionStepRequest) : list nat :=
  mask_positions (mask_id (params r0)) (py_from (batch_flat r0 batch) (prompt_len r0)).

Section execute.
Context (forward : list Z -> list nat -> list Z * list Q) (topk : list Conf -> nat -> list nat)
        (uninit : nat -> list Z).
Context (Hforward : forward_ok forward) (Htopk : topk_ok topk) (Huninit : uninit_ok uninit).

Lemma execute_ok r0 rest :
  Forall wf_state (r0 :: rest) -> (cfg_scale (params r0) <= 0)%Q ->
  let flat := batch_flat r0 (r0 :: rest) in
  let pos := batch_pos r0 (r0 :: rest) in
  let '(tok, conf) := forward flat pos in
  exists sel u, execute_diffusion_once forward topk uninit (r0 :: rest) = Ok [u] /\
    u_id u = s_id r0 /\ length (new_x u) = length (x r0) /\ NoDup sel /\
    Z.of_nat (length sel) = Z.min (current_quota r0) (Z.of_nat (num_block_masked r0)) /\
    (forall j, j ∈ sel -> block_masked r0 j = true) /\
    (forall i j, j ∈ sel -> block_masked r0 i = true -> i ∉ sel ->
       (score r0 flat pos conf i <= score r0 flat pos conf j)%Q) /\
    (forall j y, x r0 !! j = Some y ->
       new_x u !! j = Some (if bool_decide (j ∈ sel) then pred uninit r0 flat pos tok j else y)) /\
    (forall j, j ∈ sel -> pred uninit r0 flat pos tok j ∈ tok).
Proof.
  intros Hwfs Hcfg flat pos. destruct (forward flat pos) as [tok conf] eqn:Hfw.
  destruct (Hforward flat pos) as [Htok Hconf]. rewrite Hfw in Htok, Hconf. cbn in Htok, Hconf.
  apply Forall_cons in Hwfs as Hwf'. destruct Hwf' as [Hwf _].
  pose proof (fold_max_ge (map total_len (r0 :: rest)) (total_len r0)) as [Hw0 Hw].
  assert (Hlen : forall r, r ∈ r0 :: rest -> wf_state r /\ (length (x r) <= batch_width r0 (r0 :: rest))%nat).
  { intros r Hr. rewrite Forall_forall in Hwfs. pose proof (Hwfs r Hr) as Hwr. split; [done|].
    pose proof (ws_x _ Hwr). specialize (Hw (total_len r)). unfold batch_width.
    assert (total_len r ∈ map total_len (r0 :: rest)) by (apply list_elem_of_fmap; eauto).
    specialize (Hw ltac:(done)). lia. }
  destruct (wf_params_facts _ (ws_params _ Hwf)) as (Hnb & Hnb1 & _ & Hspb & Hspb1 & _).
  pose proof (ws_params _ Hwf) as [Hbl Hg Hdiv _ Hsd]. pose proof (ws_step _ Hwf) as Hst.
  pose proof (ws_x _ Hwf) as Hx. pose proof (ws_total _ Hwf) as Htot. pose proof (ws_prompt _ Hwf) as Hpr.
  (* the first request's row is its [x] *)
  assert (Hrow : take (Z.to_nat (total_len r0)) (padded_row (mask_id (params r0)) (batch_width r0 (r0 :: rest)) r0) = x r0).
  { unfold padded_row. rewrite take_app_le by lia. apply take_ge. lia. }
  assert (Hfl : exists more, flat = x r0 ++ more).
  { unfold flat, batch_flat, flat_input_ids. cbn [map concat]. rewrite Hrow. eauto. }
  destruct Hfl as [more Hfl].
  assert (Hpos : pos = mask_positions (mask_id (params r0)) (drop (Z.to_nat (prompt_len r0)) flat)).
  { unfold pos, batch_pos. fold flat. f_equal.
    rewrite <-(Z2Nat.id (prompt_len r0)) at 1 by done. apply py_from_drop. rewrite Hfl, length_app. lia. }
  set (k := current_quota r0).
  assert (Hq : transfer_row (block_length (params r0)) (steps_per_block_of (params r0)) !! Z.to_nat (step_idx_in_block r0) = Some k).
  { unfold k, current_quota. destruct (lookup_lt_is_Some_2 (transfer_row (block_length (params r0)) (steps_per_block_of (params r0))) (Z.to_nat (step_idx_in_block r0))) as [v Hv]; [rewrite transfer_row_length; lia|].
    rewrite Hv. by rewrite (nth_lookup_Some _ _ _ _ Hv). }
  assert (Hk : 0 <= k).
  { rewrite transfer_row_lookup in Hq by lia. injection Hq as <-.
    pose proof (Z.div_pos (block_length (params r0)) (steps_per_block_of (params r0))).
    destruct (_ <? _); lia. }
  destruct (post_process_ok topk uninit Htopk Huninit r0 flat
    (padded_row (mask_id (params r0)) (batch_width r0 (r0 :: rest)) r0) pos tok conf k)
    as (sel & new & Hpp & Hl & Hnd & Hsl & Hm & Hsc & Hnew); try done.
  { rewrite Hfl, take_app_le by lia. apply take_ge. lia. }
  { rewrite Hfl, length_app. lia. }
  exists sel, {| u_id := s_id r0; new_x := new; u_block_idx := block_idx r0; u_step_idx := step_idx_in_block r0 |}.
  split.
  - unfold execute_diffusion_once. fold (batch_width r0 (r0 :: rest)).
    replace (existsb _ (r0 :: rest)) with false.
    2:{ symmetry. apply not_true_iff_false. intros (r & Hr & Hlt)%existsb_exists. apply list_elem_of_In in Hr.
        apply Nat.ltb_lt in Hlt. destruct (Hlen r Hr). lia. }
    fold (batch_flat r0 (r0 :: rest)). fold flat. unfold py_mod, py_div.
    destruct (Z.eqb_spec (block_length (params r0)) 0); [lia|]. cbn [bind]. rewrite Hdiv. cbn [Z.eqb py_assert bind].
    rewrite Hnb. destruct (Z.eqb_spec (num_blocks_of (params r0)) 0); [lia|]. cbn [bind].
    rewrite Hnb in Hsd. rewrite Hsd. cbn [Z.eqb py_assert bind].
    rewrite all_quotas_ok by (apply Forall_forall; auto). cbn [bind].
    rewrite (proj2 (Qle_bool_iff _ _) Hcfg). cbn [negb].
    change (mask_positions (mask_id (params r0)) (py_from flat (prompt_len r0))) with pos. rewrite Hfw.
    cbn [map lookup list_lookup of_option bind]. rewrite transfer_row_length, Z2Nat.id by lia.
    rewrite (proj2 (Z.ltb_lt _ _)) by lia. rewrite Hq. cbn [of_option bind]. rewrite Hpp. done.
  - cbn. split_and!; try done. intros j Hj.
    destruct (block_masked_position r0 Hwf flat pos tok conf) with (j := j) as [Hp _]; try done.
    { rewrite Hfl, take_app_le by lia. apply take_ge. lia. }
    { rewrite Hfl, length_app. lia. }
    { auto. }
    apply list_elem_of_lookup_1 in Hp as [i Hi].
    destruct (pred_score uninit Huninit r0 flat pos tok conf) with (i := i) (j := j) as (Ht & _); try done.
    { rewrite Hfl, length_app. lia. }
    by eapply list_elem_of_lookup_2.
Qed.
End execute.

(** C31. One denoising step of a well-formed batch changes only the first
    request, and in it only masked positions of the current block: exactly
    [min(quota, masked)] of them receive the model's token, these are the ones
    with the highest confidence, and everything else, the prompt included, is
    returned as it was. *)
Theorem step_transfers forward topk uninit r0 rest :
  forward_ok forward -> topk_ok topk -> uninit_ok uninit ->
  Forall wf_state (r0 :: rest) -> (cfg_scale (params r0) <= 0)%Q ->
  let flat := batch_flat r0 (r0 :: rest) in
  let pos := batch_pos r0 (r0 :: rest) in
  let '(tok, conf) := forward flat pos in
  exists sel u, execute_diffusion_once forward topk uninit (r0 :: rest) = Ok [u] /\
    u_id u = s_id r0 /\ length (new_x u) = length (x r0) /\ NoDup sel /\
    Z.of_nat (length sel) = Z.min (current_quota r0) (Z.of_nat (num_block_masked r0)) /\
    (forall j, j ∈ sel -> block_masked r0 j = true) /\
    (forall i j, j ∈ sel -> block_masked r0 i = true -> i ∉ sel ->
       (score r0 flat pos conf i <= score r0 flat pos conf j)%Q) /\
    (forall j y, x r0 !! j = Some y ->
       new_x u !! j = Some (if bool_decide (j ∈ sel) then pred uninit r0 flat pos tok j else y)) /\
    (forall j, j ∈ sel -> pred uninit r0 flat pos tok j ∈ tok).
Proof. intros Hf Ht Hu. by apply execute_ok. Qed.
