(* ===== verification/DiffusionEngine.v ===== *)
(** * The diffusion engine loop ([EngineCore.step] and [add_request] of [v1/engine/core.py])

    Composes the scheduler and the runner: one engine step schedules, executes
    and collects.  The main result: every admitted request finishes, in arrival
    order, within its step budget and without masks left. *)

From stdpp Require Import base gmap strings list sorting fin_maps fin_sets.
From Stdlib Require Import ZArith Lia QArith.
From S2P Require Import Prelude RequestQueue Diffusion DiffusionStep.
Open Scope string_scope.
Open Scope list_scope.
Open Scope Z_scope.

#[local] Existing Instance Fcfs.fcfs_queue.

(** The diffusion fields of the sampling parameters; a missing attribute is [None]. *)
Record SamplingFields : Type := {
  sp_steps : option Z; sp_gen_length : option Z; sp_block_length : option Z;
  sp_temperature : option Q; sp_cfg_scale : option Q; sp_remasking : option string;
  sp_mask_id : option Z; sp_prompt_length : option Z; sp_output_length : option Z }.

(** The diffusion branch of [EngineCore.add_request]: defaults for the missing
    fields, prompt length and generation length for the P/O split. *)
Definition to_diffusion_request (request_id : string) (prompt_token_ids : list Z)
    (sp : option SamplingFields) : DiffusionRequest :=
  let field {A} (f : SamplingFields -> option A) (d : A) : A :=
    match sp with Some s => default d (f s) | None => d end in
  let opt (f : SamplingFields -> option Z) : option Z := match sp with Some s => f s | None => None end in
  let gl := field sp_gen_length 128 in
  {| r_id := request_id;
     input_token_ids := prompt_token_ids;
     r_params := {| steps := field sp_steps 128; gen_length := gl;
                    block_length := field sp_block_length 32;
                    temperature := field sp_temperature 0%Q; cfg_scale := field sp_cfg_scale 0%Q;
                    remasking := field sp_remasking "low_confidence"; mask_id := field sp_mask_id 126336;
                    prompt_length := Some (default (Z.of_nat (length prompt_token_ids)) (opt sp_prompt_length));
                    output_length := Some (default gl (opt sp_output_length)) |} |}.
Definition engine_add_request (s : DiffusionScheduler) (request_id : string) (prompt : list Z)
    (sp : option SamplingFields) : res DiffusionScheduler :=
  add_diffusion_request s (to_diffusion_request request_id prompt sp).

Section engine.
Context (forward : list Z -> list nat -> list Z * list Q) (topk : list Conf -> nat -> list nat)
        (uninit : nat -> list Z).

(** [EngineCore.step] in diffusion mode: the finished items (the outputs of
    client 0), whether the model was executed, and the new state. *)
Definition engine_step (s : DiffusionScheduler) : res (list FinishedDiffusionItem * bool * DiffusionScheduler) :=
  if negb (has_active_requests s) then Ok ([], false, s)
  else
    let! '(step_batch, s1) := schedule_step s in
    match step_batch with
    | None => Ok ([], false, s1)
    | Some batch =>
        let! step_updates := execute_diffusion_once forward topk uninit batch in
        let '(s2, finished_items) := apply_updates_and_collect_finished s1 step_updates in
        Ok (finished_items, true, s2)
    end.

(** The busy loop: step until nothing is active, collecting the outputs. *)
Fixpoint engine_run (fuel : nat) (s : DiffusionScheduler) : fueled (res (list FinishedDiffusionItem * DiffusionScheduler)) :=
  if negb (has_active_requests s) then Done (Ok ([], s))
  else
    match fuel with
    | 0%nat => OutOfFuel
    | S fuel =>
        match engine_step s with
        | Raise e => Done (Raise e)
        | Ok (items, _, s1) =>
            match engine_run fuel s1 with
            | Done (Ok (more, s2)) => Done (Ok (items ++ more, s2))
            | r => r
            end
        end
    end.
End engine.

(** ** Progress of one request *)

(** Rounds until the budget is used up. *)
Definition remaining (r : DiffusionRuntimeState) : Z :=
  (num_blocks_of (params r) - block_idx r) * steps_per_block_of (params r) - step_idx_in_block r.

(** The finished blocks hold no mask and the current one at most what its
    remaining quotas cover. *)
Record on_track (r : DiffusionRuntimeState) : Prop := {
  ot_done : forall j, prompt_len r <= Z.of_nat j < prompt_len r + block_idx r * block_length (params r) ->
              x r !! j <> Some (mask_id (params r));
  ot_block : Z.of_nat (num_block_masked r) <=
    block_length (params r) -
    zsum (take (Z.to_nat (step_idx_in_block r))
      (transfer_row (block_length (params r)) (steps_per_block_of (params r)))) }.

(** Splitting a list by membership in a sublist. *)
Lemma length_split_sel (l sel : list nat) :
  NoDup l -> NoDup sel -> (forall j, j ∈ sel -> j ∈ l) ->
  length l = (length sel + length (List.filter (fun j => negb (bool_decide (j ∈ sel))) l))%nat.
Proof.
  intros Hl Hs Hin. rewrite <-length_app. apply Permutation_length, NoDup_Permutation; [done| |].
  - apply NoDup_app. split; [done|]. split.
    + intros j Hj Hj2. apply list_elem_of_In, filter_In in Hj2 as [_ Hb].
      rewrite bool_decide_true in Hb by done. done.
    + by apply NoDup_ListNoDup, List.NoDup_filter, NoDup_ListNoDup.
  - intros j. rewrite elem_of_app, (list_elem_of_In (List.filter _ _)), filter_In, <-list_elem_of_In.
    destruct (decide (j ∈ sel)) as [Hj|Hj].
    + split; [by left|]. intros _. by apply Hin.
    + rewrite bool_decide_false by done. cbn. tauto.
Qed.

(** A block holds at most [block_length] masks. *)
Lemma num_block_masked_le r : wf_state r -> Z.of_nat (num_block_masked r) <= block_length (params r).
Proof.
  intros Hwf. destruct (block_bounds _ Hwf) as (_ & _ & Hlo & Hhi). pose proof (wp_block _ (ws_params _ Hwf)).
  assert (Hcnt : (num_block_masked r <= length (seq (block_lo r) (block_hi r - block_lo r)))%nat).
  { apply NoDup_incl_length; [apply List.NoDup_filter, seq_NoDup|]. intros j [_ Hj]%filter_In.
    unfold block_masked in Hj. rewrite !andb_true_iff in Hj. destruct Hj as [[H1%Nat.leb_le H2%Nat.ltb_lt] _].
    apply in_seq. lia. }
  rewrite length_seq in Hcnt. lia.
Qed.

Section progress.
Context (r : DiffusionRuntimeState) (new : list Z) (sel : list nat) (pr : nat -> Z).
Context (Hwf : wf_state r) (Hlen : length new = length (x r)) (Hnd : NoDup sel).
Context (Hsl : Z.of_nat (length sel) = Z.min (current_quota r) (Z.of_nat (num_block_masked r))).
Context (Hm : forall j, j ∈ sel -> block_masked r j = true).
Context (Hnew : forall j y, x r !! j = Some y ->
           new !! j = Some (if bool_decide (j ∈ sel) then pr j else y)).
Context (Hpr : forall j, j ∈ sel -> pr j <> mask_id (params r)).

Lemma new_masked j :
  new !! j = Some (mask_id (params r)) <-> x r !! j = Some (mask_id (params r)) /\ j ∉ sel.
Proof using Hlen Hnew Hpr.
  split.
  - intros H. assert (Hlt : (j < length (x r))%nat) by (rewrite <-Hlen; by eapply lookup_lt_Some).
    destruct (lookup_lt_is_Some_2 _ _ Hlt) as [y Hy]. rewrite (Hnew j y Hy) in H.
    case_bool_decide as Hs; injection H as H; [by destruct (Hpr j Hs)|]. by rewrite <-H.
  - intros [H Hs]. rewrite (Hnew j _ H). by rewrite bool_decide_false.
Qed.

(** The masked positions that the step leaves in the block. *)
Lemma remaining_masked :
  Z.of_nat (length (List.filter
    (fun j => (block_lo r <=? j)%nat && (j <? block_hi r)%nat && bool_decide (new !! j = Some (mask_id (params r))))
    (seq 0 (length new)))) = Z.of_nat (num_block_masked r) - Z.min (current_quota r) (Z.of_nat (num_block_masked r)).
Proof.
  set (L := List.filter (block_masked r) (seq 0 (length (x r)))).
  assert (HL : NoDup L) by (apply NoDup_ListNoDup, List.NoDup_filter, seq_NoDup).
  assert (Hsub : forall j, j ∈ sel -> j ∈ L).
  { intros j Hj. pose proof (Hm j Hj) as Hb. apply list_elem_of_In, filter_In. split; [|done].
    apply in_seq. unfold block_masked in Hb. rewrite !andb_true_iff, bool_decide_eq_true in Hb.
    destruct Hb as [_ Hb]. apply lookup_lt_Some in Hb. lia. }
  pose proof (length_split_sel L sel HL Hnd Hsub) as Hsplit.
  assert (Hf : List.filter (fun j => (block_lo r <=? j)%nat && (j <? block_hi r)%nat &&
                 bool_decide (new !! j = Some (mask_id (params r)))) (seq 0 (length new))
            = List.filter (fun j => negb (bool_decide (j ∈ sel))) L).
  { unfold L. rewrite Hlen. clear L HL Hsub Hsplit. induction (seq 0 (length (x r))) as [|j l IH]; [done|]. cbn [List.filter].
    change (block_masked r j) with ((block_lo r <=? j)%nat && (j <? block_hi r)%nat && bool_decide (x r !! j = Some (mask_id (params r)))).
    destruct ((block_lo r <=? j)%nat && (j <? block_hi r)%nat); cbn [andb].
    2:{ exact IH. }
    destruct (decide (x r !! j = Some (mask_id (params r)))) as [Hx|Hx].
    - rewrite (bool_decide_true (x r !! j = _)) by done. cbn [List.filter].
      destruct (decide (j ∈ sel)) as [Hs|Hs].
      + rewrite (bool_decide_true (j ∈ sel)) by done. cbn [negb].
        rewrite bool_decide_false by (rewrite new_masked; tauto). done.
      + rewrite (bool_decide_false (j ∈ sel)) by done. cbn [negb].
        rewrite bool_decide_true by (by apply new_masked). by rewrite IH.
    - rewrite (bool_decide_false (x r !! j = _)) by done. cbn [List.filter].
      rewrite bool_decide_false by (rewrite new_masked; tauto). done. }
  rewrite Hf. unfold num_block_masked in *. fold L in Hsl |- *. lia.
Qed.

Let r' := advance r new.

Lemma advance_counters :
  (step_idx_in_block r + 1 < steps_per_block_of (params r) /\
     block_idx r' = block_idx r /\ step_idx_in_block r' = step_idx_in_block r + 1) \/
  (step_idx_in_block r + 1 = steps_per_block_of (params r) /\
     block_idx r' = block_idx r + 1 /\ step_idx_in_block r' = 0).
Proof using Hwf. clear Hlen Hnd Hsl Hm Hnew Hpr.
  pose proof (ws_step _ Hwf). unfold r', advance. cbn.
  destruct (Z.leb_spec (steps_per_block_of (params r)) (step_idx_in_block r + 1)); [right|left]; lia.
Qed.

Lemma advance_remaining : remaining r' = remaining r - 1.
Proof using Hwf. clear Hlen Hnd Hsl Hm Hnew Hpr.
  unfold remaining. change (params r') with (params r).
  destruct advance_counters as [(? & -> & ->)|(? & -> & ->)]; lia.
Qed.

(** What the quotas leave after this step. *)
Lemma masked_after (Hot : on_track r) :
  Z.of_nat (num_block_masked r) - Z.min (current_quota r) (Z.of_nat (num_block_masked r)) <=
  Z.max 0 (block_length (params r) - zsum (take (Z.to_nat (step_idx_in_block r + 1))
    (transfer_row (block_length (params r)) (steps_per_block_of (params r))))).
Proof using Hwf. clear Hlen Hnd Hsl Hm Hnew Hpr.
  pose proof (ws_step _ Hwf) as Hst. pose proof (ot_block _ Hot) as Hb.
  set (row := transfer_row (block_length (params r)) (steps_per_block_of (params r))) in *.
  destruct (lookup_lt_is_Some_2 row (Z.to_nat (step_idx_in_block r))) as [v Hv];
    [unfold row; rewrite transfer_row_length; lia|].
  replace (Z.to_nat (step_idx_in_block r + 1)) with (S (Z.to_nat (step_idx_in_block r))) by lia.
  rewrite (take_S_r _ _ _ Hv), zsum_app. cbn [zsum].
  assert (current_quota r = v) as -> by (unfold current_quota; by apply nth_lookup_Some).
  lia.
Qed.

Lemma new_masked_in j : new !! j = Some (mask_id (params r)) -> x r !! j = Some (mask_id (params r)).
Proof using Hlen Hnew Hpr. intros H. by apply new_masked in H as [? _]. Qed.

Lemma advance_wf : block_idx r' < num_blocks_of (params r) -> wf_state r'.
Proof using Hwf Hlen. clear Hnd Hsl Hm Hnew Hpr sel pr.
  intros Hb. destruct Hwf as [H1 H2 H3 H4 H5 H6]. pose proof (wf_params_facts _ H1) as (_ & _ & _ & _ & Hs & _).
  pose proof advance_counters as Hc. split; try done.
  - change (x r') with new. change (total_len r') with (total_len r). by rewrite Hlen.
  - change (params r') with (params r). lia.
  - change (params r') with (params r). lia.
Qed.

Lemma advance_on_track :
  on_track r ->
  (forall j, prompt_len r <= Z.of_nat j < prompt_len r + block_idx r' * block_length (params r) ->
     new !! j <> Some (mask_id (params r))) /\
  (block_idx r' < num_blocks_of (params r) -> on_track r').
Proof.
  intros Hot. pose proof (ws_step _ Hwf) as Hst. pose proof (wp_block _ (ws_params _ Hwf)) as Hbl.
  pose proof (masked_after Hot) as Hma. pose proof remaining_masked as Hrm.
  destruct (block_bounds r Hwf) as (_ & _ & Hlo & Hhi).
  assert (Hdone : forall j, prompt_len r <= Z.of_nat j < prompt_len r + block_idx r' * block_length (params r) ->
            new !! j <> Some (mask_id (params r))).
  { intros j Hj Hmask. destruct advance_counters as [(? & Hbi & _)|(Hlast & Hbi & _)]; rewrite Hbi in Hj.
    - by apply (ot_done _ Hot j Hj), new_masked_in.
    - destruct (Z.lt_ge_cases (Z.of_nat j) (prompt_len r + block_idx r * block_length (params r))) as [?|Hge].
      { apply (ot_done _ Hot j ltac:(lia)). by apply new_masked_in. }
      rewrite Hlast in Hma. rewrite <-transfer_row_length with (m := block_length (params r)) in Hma.
      rewrite firstn_all in Hma. rewrite transfer_row_sum in Hma by lia.
      assert (H0 : List.filter (fun j => (block_lo r <=? j)%nat && (j <? block_hi r)%nat &&
                bool_decide (new !! j = Some (mask_id (params r)))) (seq 0 (length new)) = []).
      { apply length_zero_iff_nil. lia. }
      assert (Hin : j ∈ List.filter (fun j => (block_lo r <=? j)%nat && (j <? block_hi r)%nat &&
                bool_decide (new !! j = Some (mask_id (params r)))) (seq 0 (length new))).
      { apply list_elem_of_In, filter_In. apply lookup_lt_Some in Hmask as Hlt. split; [apply in_seq; lia|].
        rewrite bool_decide_true by done. rewrite (proj2 (Nat.leb_le _ _)), (proj2 (Nat.ltb_lt _ _)) by lia. done. }
      rewrite H0 in Hin. by apply elem_of_nil in Hin. }
  split; [done|]. intros Hb. pose proof (advance_wf Hb) as Hwf'. split; [done|].
  change (params r') with (params r).
  destruct advance_counters as [(? & Hbi & Hsi)|(Hlast & Hbi & Hsi)].
  - rewrite Hsi. unfold num_block_masked, block_masked.
    assert (block_lo r' = block_lo r) as -> by (unfold block_lo; change (params r') with (params r); by rewrite Hbi).
    assert (block_hi r' = block_hi r) as -> by (unfold block_hi; change (params r') with (params r); by rewrite Hbi).
    change (x r') with new. change (params r') with (params r). rewrite Hrm.
    rewrite transfer_row_prefix in Hma |- * by lia.
    pose proof (Z.mod_pos_bound (block_length (params r)) (steps_per_block_of (params r)) ltac:(lia)).
    pose proof (Z.div_mod (block_length (params r)) (steps_per_block_of (params r)) ltac:(lia)).
    pose proof (Z.div_pos (block_length (params r)) (steps_per_block_of (params r)) ltac:(lia) ltac:(lia)).
    rewrite Z2Nat.id in * by lia.
    assert (block_length (params r) / steps_per_block_of (params r) * (step_idx_in_block r + 1) <=
            block_length (params r) / steps_per_block_of (params r) * steps_per_block_of (params r)) by nia.
    lia.
  - rewrite Hsi. cbn [Z.to_nat take zsum]. rewrite Z.sub_0_r.
    change (block_length (params r)) with (block_length (params r')). by apply num_block_masked_le.
Qed.

(** The generation area has the full length, and of a finished request no mask. *)
Lemma tail_drop : tail_of r' = drop (Z.to_nat (prompt_len r)) new /\ Z.of_nat (length (tail_of r')) = gen_length (params r).
Proof using Hwf Hlen. clear Hnd Hsl Hm Hnew Hpr sel pr.
  destruct Hwf as [H1 H2 H3 H4 H5 H6]. pose proof (wp_gen _ H1) as Hg.
  assert (Htail : tail_of r' = drop (Z.to_nat (prompt_len r)) new).
  { unfold tail_of. change (x r') with new. change (prompt_len r') with (prompt_len r).
    change (params r') with (params r).
    rewrite <-(py_from_drop new (Z.to_nat (prompt_len r))) by lia. unfold py_from. f_equal; lia. }
  split; [exact Htail|]. rewrite Htail, length_drop. lia.
Qed.
Lemma finished_tail : on_track r -> is_finished r' = true -> mask_id (params r) ∉ tail_of r'.
Proof.
  intros Hot Hfin. destruct Hwf as [H1 H2 H3 H4 H5 H6].
  destruct (wf_params_facts _ H1) as (_ & _ & Hgl & _). pose proof (wp_gen _ H1) as Hg.
  rewrite (proj1 tail_drop).
  intros [j Hj]%list_elem_of_lookup_1. rewrite lookup_drop in Hj.
  unfold is_finished in Hfin. apply orb_true_iff in Hfin as [Hf|Hf].
  - unfold finished_by_mask, py_count in Hf. apply Nat.eqb_eq, length_zero_iff_nil in Hf.
    change (x r') with new in Hf. change (prompt_len r') with (prompt_len r) in Hf. change (params r') with (params r) in Hf.
    rewrite <-(Z2Nat.id (prompt_len r)) in Hf by done. rewrite py_from_drop in Hf by lia.
    assert (Hin : mask_id (params r) ∈ List.filter (Z.eqb (mask_id (params r))) (drop (Z.to_nat (prompt_len r)) new)).
    { apply list_elem_of_In, filter_In. rewrite Z.eqb_refl. split; [|done]. apply list_elem_of_In.
      eapply list_elem_of_lookup_2. by rewrite lookup_drop. }
    rewrite Hf in Hin. by apply elem_of_nil in Hin.
  - unfold finished_by_budget in Hf. apply Z.leb_le in Hf. change (params r') with (params r) in Hf.
    apply (proj1 (advance_on_track Hot) (Z.to_nat (prompt_len r) + j)%nat); [|done].
    apply lookup_lt_Some in Hj.
    assert (gen_length (params r) <= block_idx r' * block_length (params r)); [|lia].
    rewrite Hgl. apply Z.mul_le_mono_nonneg_r; [pose proof (wp_block _ H1); lia|done].
Qed.

Lemma unfinished_block : is_finished r' = false -> block_idx r' < num_blocks_of (params r).
Proof using. clear Hlen Hnd Hsl Hm Hnew Hpr Hwf.
  unfold is_finished. rewrite orb_false_iff. intros [_ Hf]. unfold finished_by_budget in Hf.
  apply Z.leb_gt in Hf. done.
Qed.
End progress.

Lemma remaining_pos r : wf_state r -> 0 < remaining r.
Proof.
  intros [H1 _ _ _ H5 H6]. destruct (wf_params_facts _ H1) as (_ & _ & _ & _ & Hs & _). unfold remaining. nia.
Qed.

(** A fresh request is on track. *)
Lemma initial_wf req : wf_params (r_params req) -> wf_state (initial_state req).
Proof.
  intros Hp. destruct (wf_params_facts _ Hp) as (_ & Hn & _ & _ & Hs & _). pose proof (wp_gen _ Hp).
  split; cbn; try done; try lia. unfold py_repeat. rewrite length_app, repeat_length. lia.
Qed.

Lemma initial_on_track req : wf_params (r_params req) -> on_track (initial_state req).
Proof.
  intros Hp. pose proof (initial_wf req Hp) as Hwf. split; [cbn; lia|].
  cbn [step_idx_in_block initial_state params Z.to_nat take zsum]. rewrite Z.sub_0_r.
  by apply num_block_masked_le.
Qed.

(** ** The scheduler loop *)

Definition ids (s : DiffusionScheduler) : list string := running s ++ (r_id <$> waiting s).

Lemma ensure_loop_ok w s :
  activation_pool s = Some true -> NoDup (running s ++ (r_id <$> w)) ->
  (forall req, req ∈ w -> is_Some (states s !! r_id req)) ->
  exists s', ensure_loop w s = Ok s' /\ states s' = states s /\ ids s' = running s ++ (r_id <$> w) /\
    activation_pool s' = Some true /\ max_batch_size s' = max_batch_size s /\
    (1 <= max_batch_size s -> ids s' <> [] -> running s' <> []).
Proof.
  revert s. induction w as [|req w IH]; intros s Hpool Hnd Hst; cbn [ensure_loop].
  - unfold _can_add_more_requests. cbn. rewrite Hpool. cbn.
    eexists. split; [done|]. cbn. split_and!; try done. intros _. rewrite app_nil_r. done.
  - unfold _can_add_more_requests. cbn [activation_pool set_queues waiting running max_batch_size].
    rewrite Hpool. cbn [queue_bool Fcfs.fcfs_queue Fcfs.nonempty length].
    unfold Fcfs.nonempty. cbn [length]. destruct (Z.eqb_spec (Z.of_nat (S (length w))) 0) as [|_]; [lia|]. cbn [negb].
    destruct (Z.ltb_spec (Z.of_nat (length (running s))) (max_batch_size s)) as [Hroom|Hfull].
    + assert (Hni : r_id req ∉ running s).
      { cbn in Hnd. apply NoDup_app in Hnd as (_ & Hd & _). intros Hin. apply (Hd _ Hin). left. }
      destruct (Hst req ltac:(left)) as [r Hr].
      assert (Hadm : states (admit_request s req w) = states s) by (unfold admit_request; by rewrite Hr).
      assert (Hrun : running (admit_request s req w) = running s ++ [r_id req])
        by (unfold admit_request; cbn; by rewrite bool_decide_false).
      destruct (IH (admit_request s req w)) as (s' & -> & H1 & H2 & H3 & H4 & H5).
      * done.
      * rewrite Hrun, <-app_assoc. done.
      * intros q Hq. rewrite Hadm. apply Hst. by right.
      * exists s'. split; [done|]. rewrite H1, H2, Hadm, Hrun, <-app_assoc. split_and!; try done.
        intros Hm Hne. apply H5; [done|]. by rewrite H2, Hrun, <-app_assoc.
    + eexists. split; [done|]. unfold ids. cbn. split_and!; try done.
      intros Hm _ Hnil. rewrite Hnil in Hfull. cbn in Hfull. lia.
Qed.

Lemma pack_steps_forall P max st l acc :
  Forall P acc -> (forall id r, id ∈ l -> st !! id = Some r -> P r) -> Forall P (pack_steps max st l acc).
Proof.
  revert acc. induction l as [|id l IH]; intros acc Ha Hl; cbn; [done|].
  destruct (st !! id) as [r|] eqn:Hr; [|apply IH; [done|intros; eapply Hl; eauto; by right]].
  assert (Ha' : Forall P (acc ++ [r])).
  { apply Forall_app. split; [done|]. constructor; [|done]. by eapply Hl; [left|]. }
  destruct (_ <=? _); [done|]. apply IH; [done|]. intros; eapply Hl; eauto. by right.
Qed.

Lemma pack_steps_acc max st l acc : exists more, pack_steps max st l acc = acc ++ more.
Proof.
  revert acc. induction l as [|id l IH]; intros acc; cbn; [exists []; by rewrite app_nil_r|].
  destruct (st !! id) as [r|]; [|apply IH]. destruct (_ <=? _); [eauto|].
  destruct (IH (acc ++ [r])) as [more ->]. rewrite <-app_assoc. eauto.
Qed.

Section engine_ok.
Context (forward : list Z -> list nat -> list Z * list Q) (topk : list Conf -> nat -> list nat)
        (uninit : nat -> list Z) (M : Z).
Context (Hforward : forward_ok forward) (Htopk : topk_ok topk) (Huninit : uninit_ok uninit).
(** The model never answers the mask token; only the claims on masks rely on it. *)
Definition answers_no_mask : Prop := forall flat pos, M ∉ fst (forward flat pos).

Record live (s : DiffusionScheduler) (id : string) (r : DiffusionRuntimeState) : Prop := {
  lv_state : states s !! id = Some r;
  lv_id : s_id r = id;
  lv_wf : wf_state r;
  lv_track : answers_no_mask -> on_track r;
  lv_mask : mask_id (params r) = M;
  lv_cfg : (cfg_scale (params r) <= 0)%Q }.

Record engine_inv (s : DiffusionScheduler) : Prop := {
  ei_pool : activation_pool s = Some true;
  ei_max : 1 <= max_batch_size s;
  ei_nodup : NoDup (ids s);
  ei_live : forall id, id ∈ ids s -> exists r, live s id r }.

(** The rounds left, over all active requests. *)
Definition rounds (st : gmap string DiffusionRuntimeState) (l : list string) : Z :=
  zsum (map (fun id => match st !! id with Some r => remaining r | None => 0 end) l).

Lemma rounds_insert st l id r : id ∉ l -> rounds (<[id := r]> st) l = rounds st l.
Proof.
  intros Hid. unfold rounds. f_equal. apply list_fmap_ext. intros i k Hk.
  rewrite lookup_insert_ne; [done|]. intros ->. apply Hid. by eapply list_elem_of_lookup_2.
Qed.

Lemma has_active_ids s : has_active_requests s = true <-> ids s <> [].
Proof.
  unfold has_active_requests, ids. cbn. unfold Fcfs.nonempty.
  destruct (running s) as [|a l], (waiting s) as [|b w]; cbn; split; try done; intros _;
    rewrite ?orb_true_iff; auto.
Qed.

(** The outcome of an executed step for the request at the head. *)
Definition step_outcome (s : DiffusionScheduler) (id0 : string) (rest : list string)
    (items : list FinishedDiffusionItem) (s' : DiffusionScheduler) : Prop :=
  engine_inv s' /\ rounds (states s') (ids s') <= rounds (states s) (ids s) - 1 /\
  (forall id r', id ∈ ids s' -> states s' !! id = Some r' ->
     exists r, states s !! id = Some r /\ params r = params r') /\
  ((items = [] /\ ids s' = id0 :: rest) \/
   (exists tail r, items = [{| f_id := id0; tail_token_ids := tail |}] /\ ids s' = rest /\
      states s !! id0 = Some r /\ Z.of_nat (length tail) = gen_length (params r) /\ (answers_no_mask -> M ∉ tail))).

Lemma engine_step_ok s id0 rest :
  engine_inv s -> ids s = id0 :: rest ->
  exists items s', engine_step forward topk uninit s = Ok (items, true, s') /\ step_outcome s id0 rest items s'.
Proof.
  intros [Hpool Hmax Hnd Hlive] Hids. unfold engine_step.
  rewrite (proj2 (has_active_ids s)) by (by rewrite Hids). cbn [negb].
  unfold schedule_step, _ensure_running_capacity.
  destruct (ensure_loop_ok (waiting s) s Hpool Hnd) as (s1 & -> & Hst1 & Hids1 & Hpool1 & Hmax1 & Hrun1).
  { intros req Hreq. destruct (Hlive (r_id req)) as [r Hr]; [|exists r; apply Hr].
    unfold ids. apply elem_of_app. right. apply list_elem_of_fmap. eauto. }
  fold (ids s) in Hids1. cbn [bind]. rewrite Hids in Hids1.
  specialize (Hrun1 Hmax ltac:(by rewrite Hids1)).
  destruct (running s1) as [|id1 run] eqn:Erun; [done|]. clear Hrun1.
  assert (Hids1' := Hids1). unfold ids in Hids1'. rewrite Erun in Hids1'. cbn in Hids1'. injection Hids1' as Hid Hrest.
  subst id1. destruct (Hlive id0) as [r [Hr Hrid Hwf Hot Hmask Hcfg]]; [rewrite Hids; left|].
  assert (Hpacked : exists more, pack_steps (max_batch_size s1) (states s1) (id0 :: run) [] = r :: more /\
            Forall wf_state (r :: more)).
  { assert (Hall : Forall wf_state (pack_steps (max_batch_size s1) (states s1) (id0 :: run) [])).
    { apply pack_steps_forall; [constructor|]. rewrite Hst1. intros id r2 Hin Hr2.
      destruct (Hlive id) as [r2' [Hl2 _ ? _ _ _]]; [|assert (r2' = r2) as <- by congruence; done].
      rewrite Hids, <-Hrest. apply elem_of_cons in Hin as [->|Hin]; [left|right; apply elem_of_app; by left]. }
    assert (Hm : exists more, pack_steps (max_batch_size s1) (states s1) (id0 :: run) [] = r :: more).
    { unfold pack_steps. rewrite Hst1, Hr. fold pack_steps. rewrite app_nil_l. destruct (_ <=? _); [eauto|].
      destruct (pack_steps_acc (max_batch_size s1) (states s) run [r]) as [m ->]. eauto. }
    destruct Hm as [m Hm]. exists m. rewrite <-Hm. done. }
  destruct Hpacked as (more & -> & Hwfs). cbn [bind].
  pose proof (execute_ok forward topk uninit Hforward Htopk Huninit r more Hwfs Hcfg) as Hex.
  cbv zeta in Hex. set (flat := batch_flat r (r :: more)) in *. set (pos := batch_pos r (r :: more)) in *.
  assert (Hnomask : answers_no_mask -> M ∉ fst (forward flat pos)) by (intros H; apply H).
  destruct (forward flat pos) as [tok conf]. cbn [fst] in Hnomask.
  destruct Hex as (sel & u & -> & Huid & Hlen & Hnds & Hsl & Hm & _ & Hnew & Hpr). cbn [bind].
  assert (Hpr' : answers_no_mask -> forall j, j ∈ sel -> pred uninit r flat pos tok j <> mask_id (params r)).
  { intros Hno j Hj. rewrite Hmask. intros Heq. apply (Hnomask Hno). rewrite <-Heq. by apply Hpr. }
  cbn [apply_updates_and_collect_finished]. unfold apply_update. rewrite Huid, Hrid, Hst1, Hr.
  set (r' := advance r (new_x u)).
  pose proof (advance_remaining r (new_x u) Hwf) as Hrem. fold r' in Hrem.
  assert (Hni : id0 ∉ rest) by (rewrite Hids in Hnd; by apply NoDup_cons in Hnd as [? _]).
  assert (Hndr : NoDup rest) by (rewrite Hids in Hnd; by apply NoDup_cons in Hnd as [_ ?]).
  pose proof (remaining_pos r Hwf) as Hpos.
  assert (Hround : rounds (states s) (ids s) = remaining r + rounds (states s) rest).
  { rewrite Hids. unfold rounds. cbn. by rewrite Hr. }
  assert (Hlive' : forall s2, states s2 = <[id0 := r']> (states s) -> forall id, id ∈ rest -> exists r2, live s2 id r2).
  { intros s2 Hs2 id Hin. destruct (Hlive id) as [r2 [? ? ? ? ? ?]]; [rewrite Hids; by right|]. exists r2.
    split; try done. rewrite Hs2, lookup_insert_ne by congruence. done. }
  destruct (is_finished r') eqn:Hfin.
  - eexists _, _. split; [reflexivity|]. cbn [app].
    pose proof (proj2 (tail_drop r (new_x u) Hwf Hlen)) as Htl.
    assert (Htm : answers_no_mask -> mask_id (params r) ∉ tail_of r').
    { intros Hno. exact (finished_tail r (new_x u) sel _ Hwf Hlen Hnds Hsl Hm Hnew (Hpr' Hno) (Hot Hno) Hfin). }
    set (s2 := Build_DiffusionScheduler _ _ _ _ _ _).
    assert (Hids2 : ids s2 = rest).
    { unfold ids, s2. cbn [running waiting]. rewrite Erun. cbn [remove_first].
      change (s_id r') with (s_id r). rewrite Hrid, decide_True by done. done. }
    split; [|split; [|split]].
    + split; [done| |by rewrite Hids2|rewrite Hids2; by apply Hlive'].
      change (max_batch_size s2) with (max_batch_size s1). lia.
    + rewrite Hids2, Hround. cbn [states s2]. rewrite rounds_insert by done. lia.
    + rewrite Hids2. intros id r2 Hin. cbn [states s2]. rewrite lookup_insert_ne by congruence. eauto.
    + right. exists (tail_of r'), r. rewrite Hmask in Htm. change (s_id r') with (s_id r). rewrite Hrid. done.
  - eexists _, _. split; [reflexivity|]. cbn [app].
    pose proof (unfinished_block r (new_x u) Hfin) as Hb.
    set (s2 := set_queues _ _ _ _).
    assert (Hids2 : ids s2 = id0 :: rest).
    { unfold ids, s2, set_queues. cbn [running waiting]. rewrite Erun. cbn. by rewrite Hrest. }
    split; [|split; [|split]].
    + split; [done| |by rewrite Hids2, <-Hids|rewrite Hids2].
      { change (max_batch_size s2) with (max_batch_size s1). lia. }
      intros id [->|Hin]%elem_of_cons; [|by apply Hlive'].
      exists r'. split; try done.
      * unfold s2, set_queues. cbn. by rewrite lookup_insert_eq.
      * by eapply advance_wf.
      * intros Hno. eapply (advance_on_track r (new_x u) sel); eauto.
    + rewrite Hids2, Hround. unfold rounds at 1. cbn [map states s2 set_queues].
      rewrite lookup_insert_eq. cbn [zsum].
      change (zsum (map _ rest)) with (rounds (<[id0 := r']> (states s)) rest). rewrite rounds_insert by done. lia.
    + rewrite Hids2. intros id r2 Hin. unfold s2, set_queues. cbn [states].
      rewrite lookup_insert. case_decide as Hd; [|eauto]. intros [= <-]. exists r. subst id. done.
    + left. done.
Qed.

Lemma rounds_pos s : engine_inv s -> ids s <> [] -> 0 < rounds (states s) (ids s).
Proof.
  intros [_ _ _ Hlive]. assert (Hge : forall l, (forall id, id ∈ l -> exists r, live s id r) -> 0 <= rounds (states s) l).
  { induction l as [|id l IH]; intros Hl; [done|]. destruct (Hl id ltac:(left)) as [r Hr].
    unfold rounds. cbn. rewrite (lv_state _ _ _ Hr). pose proof (remaining_pos r (lv_wf _ _ _ Hr)).
    pose proof (IH ltac:(intros i Hi; apply Hl; by right)) as IH'. unfold rounds in IH'. lia. }
  destruct (ids s) as [|id l]; [done|]. intros _. destruct (Hlive id ltac:(left)) as [r Hr].
  pose proof (Hge l ltac:(intros i Hi; apply Hlive; by right)) as IH'. unfold rounds in *. cbn.
  rewrite (lv_state _ _ _ Hr). pose proof (remaining_pos r (lv_wf _ _ _ Hr)). lia.
Qed.

(** The item that ends request [id] of [s]. *)
Definition served (s : DiffusionScheduler) (id : string) (it : FinishedDiffusionItem) : Prop :=
  f_id it = id /\ (answers_no_mask -> M ∉ tail_token_ids it) /\
  exists r, states s !! id = Some r /\ Z.of_nat (length (tail_token_ids it)) = gen_length (params r).

Lemma engine_run_ok fuel s :
  engine_inv s -> rounds (states s) (ids s) < Z.of_nat fuel ->
  exists items s', engine_run forward topk uninit fuel s = Done (Ok (items, s')) /\
    has_active_requests s' = false /\ Forall2 (served s) (ids s) items.
Proof.
  revert s. induction fuel as [|fuel IH]; intros s Hinv Hfuel.
  all: cbn [engine_run]; destruct (ids s) as [|id0 rest] eqn:Hids.
  1,3: destruct (has_active_requests s) eqn:Hact; [apply has_active_ids in Hact; done|]; cbn [negb];
    exists [], s; split; [done|]; split; [done|constructor].
  { pose proof (rounds_pos s Hinv ltac:(by rewrite Hids)). rewrite Hids in *. lia. }
  rewrite (proj2 (has_active_ids s)) by (by rewrite Hids). cbn [negb].
  destruct (engine_step_ok s id0 rest Hinv Hids) as (items & s1 & -> & Hinv1 & Hr & Hsame & Hout).
  rewrite Hids in Hr. destruct (IH s1 Hinv1 ltac:(lia)) as (more & s2 & -> & Hidle & Hserved).
  exists (items ++ more), s2. split; [done|]. split; [done|].
  assert (Hlift : forall l m, (forall id, id ∈ l -> id ∈ ids s1) -> Forall2 (served s1) l m -> Forall2 (served s) l m).
  { intros l m Hin Hall. induction Hall as [|id it l m (Hid & Hm & r' & Hr' & Hlen) Hall IHa]; constructor.
    - split; [done|]. split; [done|]. destruct (Hsame id r' (Hin id ltac:(left)) Hr') as (r & Hr0 & Hp).
      exists r. split; [done|]. by rewrite Hp.
    - apply IHa. intros i Hi. apply Hin. by right. }
  apply Hlift in Hserved; [|done].
  destruct Hout as [[-> Hi]|(tail & r & -> & Hi & Hst & Hlen & Hm)]; rewrite Hi in Hserved; [done|].
  constructor; [|done]. split; [done|]. split; [done|]. eauto.
Qed.

(** ** Admission *)

Definition good_request (req : DiffusionRequest) : Prop :=
  wf_params (r_params req) /\ mask_id (r_params req) = M /\ (cfg_scale (r_params req) <= 0)%Q.

Lemma add_ok s req :
  engine_inv s -> good_request req -> r_id req ∉ ids s ->
  exists s', add_diffusion_request s req = Ok s' /\ engine_inv s' /\ ids s' = ids s ++ [r_id req] /\
    states s' = <[r_id req := initial_state req]> (states s).
Proof.
  intros [Hp Hm Hnd Hlive] (Hwf & Hmask & Hcfg) Hni. eexists. split; [reflexivity|].
  assert (Hids : ids (set_queues s (waiting s ++ [req]) (<[r_id req := initial_state req]> (states s)) (running s))
                 = ids s ++ [r_id req]).
  { unfold ids. cbn [running waiting set_queues]. by rewrite fmap_app, app_assoc. }
  split; [|split; [exact Hids|done]]. split; [done|done| |].
  - change (NoDup (ids (set_queues s (waiting s ++ [req]) (<[r_id req := initial_state req]> (states s)) (running s)))).
    rewrite Hids. apply NoDup_app. split; [done|]. split; [|apply NoDup_singleton].
    intros i Hi Hin%list_elem_of_singleton. congruence.
  - intros id Hid. change (id ∈ ids (set_queues s (waiting s ++ [req]) (<[r_id req := initial_state req]> (states s)) (running s))) in Hid.
    rewrite Hids in Hid. apply elem_of_app in Hid as [Hin|Hin].
    + destruct (Hlive id Hin) as [r [? ? ? ? ? ?]]. exists r. split; try done.
      cbn [states set_queues]. rewrite lookup_insert_ne by congruence. done.
    + apply list_elem_of_singleton in Hin as ->. exists (initial_state req).
      split; try done; [cbn [states set_queues]; by rewrite lookup_insert_eq|by apply initial_wf|intros _; by apply initial_on_track].
Qed.

Lemma remaining_initial req : wf_params (r_params req) -> remaining (initial_state req) = steps (r_params req).
Proof.
  intros Hp. destruct (wf_params_facts _ Hp) as (Hn & H1 & H2 & H3 & H4 & H5). pose proof (wp_steps_div _ Hp) as Hd.
  pose proof (wp_steps _ Hp). unfold remaining. cbn [params initial_state block_idx step_idx_in_block].
  lia.
Qed.

(** Adding requests in order. *)
Fixpoint add_all (s : DiffusionScheduler) (reqs : list DiffusionRequest) : res DiffusionScheduler :=
  match reqs with
  | [] => Ok s
  | req :: reqs => let! s := add_diffusion_request s req in add_all s reqs
  end.

Lemma add_all_ok reqs s :
  engine_inv s -> Forall good_request reqs -> NoDup (ids s ++ (r_id <$> reqs)) ->
  exists s', add_all s reqs = Ok s' /\ engine_inv s' /\ ids s' = ids s ++ (r_id <$> reqs) /\
    (forall id, id ∉ r_id <$> reqs -> states s' !! id = states s !! id) /\
    (forall req, req ∈ reqs -> states s' !! r_id req = Some (initial_state req)).
Proof.
  revert s. induction reqs as [|req reqs IH]; intros s Hinv Hgood Hnd; cbn [add_all].
  - exists s. rewrite app_nil_r. split_and!; try done. intros req Hreq. by apply elem_of_nil in Hreq.
  - inversion Hgood as [|? ? Hg Hgs]; subst. cbn in Hnd.
    assert (Hnd2 : NoDup ((ids s ++ [r_id req]) ++ (r_id <$> reqs))) by (by rewrite <-app_assoc).
    destruct (add_ok s req Hinv Hg) as (s1 & -> & Hinv1 & Hids1 & Hst1).
    { intros Hin. apply NoDup_app in Hnd as (_ & Hd & _). apply (Hd _ Hin). left. }
    cbn [bind]. rewrite <-Hids1 in Hnd2.
    destruct (IH s1 Hinv1 Hgs Hnd2) as (s2 & -> & Hinv2 & Hids2 & Hother & Hin2).
    exists s2. split; [done|]. split; [done|]. rewrite Hids2, Hids1, <-app_assoc. split; [done|].
    apply NoDup_app in Hnd as (_ & _ & Hnd). cbn in Hnd. apply NoDup_cons in Hnd as [Hni _].
    split.
    + intros id Hid. cbn in Hid. apply not_elem_of_cons in Hid as [Hne Hid]. rewrite Hother, Hst1 by done.
      by rewrite lookup_insert_ne.
    + intros q [->|Hq]%elem_of_cons; [|by apply Hin2]. rewrite Hother, Hst1 by done. by rewrite lookup_insert_eq.
Qed.

Lemma start_inv mbs : 1 <= mbs -> engine_inv (set_model_runner (make_scheduler mbs) (Some true)).
Proof.
  intros Hm. split; [done|done|constructor|]. intros id Hid. by apply elem_of_nil in Hid.
Qed.

Lemma rounds_initial reqs st :
  Forall good_request reqs -> (forall req, req ∈ reqs -> st !! r_id req = Some (initial_state req)) ->
  rounds st (r_id <$> reqs) = zsum (map (fun req => steps (r_params req)) reqs).
Proof.
  intros Hg Hst. induction Hg as [|req reqs Hg Hgs IH]; [done|]. unfold rounds. cbn.
  rewrite (Hst req) by left. rewrite remaining_initial by apply Hg.
  unfold rounds in IH. rewrite <-IH; [done|]. intros q Hq. apply Hst. by right.
Qed.
End engine_ok.

(** From any state of a working engine, whatever mix of waiting and
    running requests at whatever progress, the step loop terminates without an
    exception within the steps the requests have left, and finishes every
    request exactly once, in queue order, with the full generation length and, from a
    model that never answers the mask token, no mask left. *)
Theorem engine_drains forward topk uninit M fuel s :
  forward_ok forward -> topk_ok topk -> uninit_ok uninit ->
  engine_inv forward M s -> rounds (states s) (ids s) < Z.of_nat fuel ->
  exists items s', engine_run forward topk uninit fuel s = Done (Ok (items, s')) /\
    has_active_requests s' = false /\ Forall2 (served forward M s) (ids s) items.
Proof. intros Hf Ht Hu. by apply engine_run_ok. Qed.

(** C8. End to end: well-formed requests with distinct ids, the same mask token and no
    classifier-free guidance, added to a fresh scheduler with an initialised pool, are all answered in
    arrival order, each with exactly its generation length, after at most as many rounds
    as the requests have steps in total.  If the model never answers the mask token,
    which the code does not enforce (see [mask_answer_left]), no answer has a mask left. *)
Theorem engine_serves forward topk uninit M mbs reqs fuel :
  forward_ok forward -> topk_ok topk -> uninit_ok uninit ->
  1 <= mbs -> Forall (good_request M) reqs -> NoDup (r_id <$> reqs) ->
  zsum (map (fun req => steps (r_params req)) reqs) < Z.of_nat fuel ->
  exists s items s', add_all (set_model_runner (make_scheduler mbs) (Some true)) reqs = Ok s /\
    engine_run forward topk uninit fuel s = Done (Ok (items, s')) /\ has_active_requests s' = false /\
    Forall2 (fun req it => f_id it = r_id req /\ ((forall flat pos, M ∉ fst (forward flat pos)) -> M ∉ tail_token_ids it) /\
      Z.of_nat (length (tail_token_ids it)) = gen_length (r_params req)) reqs items.
Proof.
  intros Hf Ht Hu Hmbs Hgood Hnd Hfuel.
  destruct (add_all_ok forward M reqs _ (start_inv forward M mbs Hmbs) Hgood Hnd) as (s & Hadd & Hinv & Hids & _ & Hst).
  cbn [app] in Hids. change (ids (set_model_runner (make_scheduler mbs) (Some true))) with (@nil string) in Hids.
  cbn [app] in Hids.
  destruct (engine_run_ok forward topk uninit M Hf Ht Hu fuel s Hinv) as (items & s' & Hrun & Hidle & Hserved).
  { rewrite Hids, (rounds_initial M) by done. done. }
  exists s, items, s'. split; [done|]. split; [done|]. split; [done|].
  rewrite Hids in Hserved. apply (Forall2_fmap_l r_id) in Hserved. clear -Hserved Hst.
  induction Hserved as [|req it reqs1 items1 (Hid & Hmask & r & Hr & Hlen) Hall IH]; constructor.
  - rewrite (Hst req) in Hr by left. injection Hr as <-. done.
  - apply IH. intros q Hq. apply Hst. by right.
Qed.

(** Without an initialised activation pool the admission loop does not look
    at the queue, so it pops the empty queue and fails as soon as the batch has
    more room than there are waiting requests. *)
Theorem uninitialised_pool_fails s w :
  activation_pool s <> Some true ->
  Z.of_nat (length (running s)) + Z.of_nat (length w) < max_batch_size s ->
  ensure_loop w s = Raise IndexError.
Proof.
  intros Hp. revert s Hp. induction w as [|req w IH]; intros s Hp Hroom; cbn [ensure_loop].
  all: assert (Hcan : forall w', _can_add_more_requests (set_queues s w' (states s) (running s)) = true)
    by (intros w'; unfold _can_add_more_requests; cbn [activation_pool set_queues running max_batch_size];
        destruct (activation_pool s) as [[]|]; [done| |]; apply Z.ltb_lt; cbn [length] in Hroom; lia).
  all: rewrite Hcan; try done.
  apply IH; [done|]. unfold admit_request. cbn [running max_batch_size set_queues]. cbn [length] in Hroom.
  case_bool_decide; [lia|]. rewrite length_app. cbn [length]. lia.
Qed.
