(* ===== verification/DiffusionExamples.v ===== *)
(** * Concrete runs of the diffusion engine

    A reference top-k that satisfies the contract the runner relies on, a toy
    model, and the witnesses of the theorems on the scheduler, the runner step
    and the engine loop. *)

From stdpp Require Import base gmap strings list sorting.
From Stdlib Require Import ZArith Lia QArith.
From S2P Require Import Prelude RequestQueue Diffusion DiffusionStep DiffusionEngine.
Open Scope string_scope.
Open Scope list_scope.
Open Scope Z_scope.

(** ** A reference top-k *)

(** The finite entries with their positions. *)
Fixpoint finite_from (i : nat) (vals : list (option Q)) : list (nat * Q) :=
  match vals with
  | [] => []
  | Some q :: vals => (i, q) :: finite_from (S i) vals
  | None :: vals => finite_from (S i) vals
  end.

(** Larger confidences first. *)
Definition larger (a b : nat * Q) : Prop := Qle (snd b) (snd a).
#[export] Instance larger_dec : RelDecision larger.
Proof. intros [i a] [j b]. unfold larger. cbn.
  destruct (Qlt_le_dec a b) as [H|H]; [right; by apply Qlt_not_le|by left].
Defined.
#[export] Instance larger_trans : Transitive larger.
Proof. intros a b c H1 H2. unfold larger in *. by eapply Qle_trans. Qed.
#[export] Instance larger_total : Total larger.
Proof. intros a b. unfold larger. destruct (Qlt_le_dec (snd a) (snd b)) as [H|H]; [right; by apply Qlt_le_weak|by left]. Qed.

Definition topk_ref (vals : list (option Q)) (k : nat) : list nat :=
  take k (map fst (merge_sort larger (finite_from 0 vals))).

Lemma elem_of_finite_from i vals j q :
  (j, q) ∈ finite_from i vals <-> (i <= j)%nat /\ vals !! (j - i)%nat = Some (Some q).
Proof.
  revert i. induction vals as [|[p|] vals IH]; intros i; cbn [finite_from].
  - rewrite elem_of_nil. rewrite lookup_nil. naive_solver.
  - rewrite elem_of_cons, IH. split.
    + intros [[= -> ->]|[Hle Hj]]; [by rewrite Nat.sub_diag|]. split; [lia|].
      replace (j - i)%nat with (S (j - S i)) by lia. done.
    + intros [Hle Hj]. destruct (decide (j = i)) as [->|Hne].
      * left. rewrite Nat.sub_diag in Hj. cbn in Hj. congruence.
      * right. split; [lia|]. replace (j - i)%nat with (S (j - S i)) in Hj by lia. done.
  - rewrite IH. split.
    + intros [Hle Hj]. split; [lia|]. replace (j - i)%nat with (S (j - S i)) by lia. done.
    + intros [Hle Hj]. destruct (decide (j = i)) as [->|Hne]; [by rewrite Nat.sub_diag in Hj|].
      split; [lia|]. replace (j - i)%nat with (S (j - S i)) in Hj by lia. done.
Qed.

Lemma finite_from_length i vals : length (finite_from i vals) = length (List.filter is_finite vals).
Proof. revert i. induction vals as [|[p|] vals IH]; intros i; cbn; [done| |]; by rewrite IH. Qed.

Lemma finite_from_nodup i vals : NoDup (map fst (finite_from i vals)).
Proof.
  revert i. induction vals as [|[p|] vals IH]; intros i; cbn; [constructor| |by apply IH].
  constructor; [|by apply IH]. intros Hin. apply list_elem_of_fmap in Hin as ([j q] & -> & Hin).
  apply elem_of_finite_from in Hin. cbn in Hin. lia.
Qed.

Lemma sorted_take_drop (l : list (nat * Q)) k a b :
  StronglySorted larger l -> a ∈ take k l -> b ∈ drop k l -> larger a b.
Proof.
  intros Hs. revert k. induction Hs as [|c l Hs IH Hall]; intros [|k]; cbn; rewrite ?elem_of_nil; try done.
  intros [->|Ha]%elem_of_cons Hb; [|by eapply IH].
  rewrite Forall_forall in Hall. apply Hall. rewrite <-(take_drop k l). apply elem_of_app. by right.
Qed.

Lemma topk_ref_ok : topk_ok topk_ref.
Proof.
  intros vals k Hk. unfold topk_ref. set (l := merge_sort larger (finite_from 0 vals)).
  assert (Hp : l ≡ₚ finite_from 0 vals) by apply merge_sort_Permutation.
  assert (Hs : StronglySorted larger l) by (apply (StronglySorted_merge_sort larger)).
  assert (Hlen : length l = length (List.filter is_finite vals))
    by (rewrite <-(finite_from_length 0); by apply Permutation_length).
  assert (Hnd : NoDup (map fst l)) by (eapply NoDup_Permutation_proper; [by apply Permutation_map|apply finite_from_nodup]).
  assert (Hel : forall j q, (j, q) ∈ l <-> vals !! j = Some (Some q)).
  { intros j q. rewrite Hp, elem_of_finite_from, Nat.sub_0_r. split; [tauto|]. intros ?. split; [lia|done]. }
  split; [|split].
  - eapply sublist_NoDup; [exact Hnd|apply sublist_take].
  - rewrite length_take, length_map. lia.
  - intros j Hj. rewrite firstn_map in Hj. apply list_elem_of_fmap in Hj as ([j' c] & -> & Hin). cbn.
    exists c. split.
    { apply Hel. rewrite <-(take_drop k l). apply elem_of_app. by left. }
    intros i c' Hi Hni. apply Hel in Hi. rewrite <-(take_drop k l) in Hi. apply elem_of_app in Hi as [Hi|Hi].
    + destruct Hni. rewrite firstn_map. apply list_elem_of_fmap. by exists (i, c').
    + exact (sorted_take_drop l k (j', c) (i, c') Hs Hin Hi).
Qed.

(** ** A toy model: every masked position answers [7 + position], later
    positions with more confidence. *)

Definition toy_forward (flat : list Z) (pos : list nat) : list Z * list Q :=
  (map (fun j => 7 + Z.of_nat j) pos, map (fun j => inject_Z (Z.of_nat j)) pos).
Definition toy_uninit (n : nat) : list Z := repeat 0 n.

Lemma toy_forward_ok : forward_ok toy_forward.
Proof. intros flat pos. cbn. by rewrite !length_map. Qed.
Lemma toy_uninit_ok : uninit_ok toy_uninit.
Proof. intros n. apply repeat_length. Qed.
Lemma toy_no_mask flat pos : (-1) ∉ fst (toy_forward flat pos).
Proof. cbn. intros Hin. apply list_elem_of_fmap in Hin as (j & Hj & _). lia. Qed.

(** Six steps over two blocks of four tokens. *)
Definition toy_params : DiffusionParams :=
  {| steps := 6; gen_length := 8; block_length := 4; temperature := 0; cfg_scale := 0;
     remasking := "low_confidence"; mask_id := -1; prompt_length := None; output_length := None |}.
Definition toy_request (id : string) : DiffusionRequest :=
  {| r_id := id; input_token_ids := [5; 6]; r_params := toy_params |}.

Lemma toy_params_wf : wf_params toy_params.
Proof. split; by vm_compute. Qed.
Lemma toy_good id : good_request (-1) (toy_request id).
Proof. split; [exact toy_params_wf|]. split; [done|by vm_compute]. Qed.

Definition toy_scheduler : DiffusionScheduler := set_model_runner (make_scheduler 2) (Some true).
Definition toy_loaded : DiffusionScheduler :=
  match add_all toy_scheduler [toy_request "a"; toy_request "b"] with Ok s => s | Raise _ => toy_scheduler end.

(** The first step of the first block moves the two most confident of its four
    positions. *)
Example toy_first_step :
  option_map (fun r => match r with Ok us => map new_x us | Raise _ => [] end)
    (match schedule_step toy_loaded with
     | Ok (Some batch, _) => Some (execute_diffusion_once toy_forward topk_ref toy_uninit batch)
     | _ => None end)
  = Some [[5; 6; -1; -1; 9; 10; -1; -1; -1; -1]].
Proof. vm_compute. reflexivity. Qed.

Example toy_run :
  match engine_run toy_forward topk_ref toy_uninit 13 toy_loaded with
  | Done (Ok (items, _)) => items
  | _ => []
  end = [{| f_id := "a"; tail_token_ids := [7; 8; 9; 10; 11; 12; 13; 14] |};
         {| f_id := "b"; tail_token_ids := [7; 8; 9; 10; 11; 12; 13; 14] |}].
Proof. vm_compute. reflexivity. Qed.

Lemma toy_loaded_inv : engine_inv toy_forward (-1) toy_loaded /\ ids toy_loaded = ["a"; "b"].
Proof.
  destruct (add_all_ok toy_forward (-1) [toy_request "a"; toy_request "b"] toy_scheduler) as (s & Hs & Hinv & Hids & _).
  - by apply start_inv.
  - repeat constructor; apply toy_params_wf || by vm_compute.
  - apply (bool_decide_unpack _). by vm_compute.
  - unfold toy_loaded. rewrite Hs. done.
Qed.

(** ** Witnesses *)

Lemma num_transfer_tokens_ok_witness :
  exists q, _get_num_transfer_tokens [[true; true; false; true; true; true]] 3 !! 0%nat = Some q /\ q = [2; 2; 1] /\
  exists row, [[true; true; false; true; true; true]] !! 0%nat = Some row /\ Z.of_nat (length q) = 3 /\
    zsum q = count_true row /\
    forall j1 j2 a b, (j1 <= j2)%nat -> q !! j1 = Some a -> q !! j2 = Some b -> 0 <= b <= a /\ a <= b + 1.
Proof.
  eexists. split; [reflexivity|]. split; [reflexivity|].
  apply (num_transfer_tokens_ok [[true; true; false; true; true; true]] 3 0); [lia|reflexivity].
Defined.

Lemma step_transfers_witness :
  let r0 := initial_state (toy_request "a") in
  exists sel u, execute_diffusion_once toy_forward topk_ref toy_uninit [r0] = Ok [u] /\
    u_id u = s_id r0 /\ length (new_x u) = length (x r0) /\ NoDup sel /\
    Z.of_nat (length sel) = Z.min (current_quota r0) (Z.of_nat (num_block_masked r0)) /\
    (forall j, j ∈ sel -> block_masked r0 j = true).
Proof.
  intros r0.
  pose proof (step_transfers toy_forward topk_ref toy_uninit r0 [] toy_forward_ok topk_ref_ok toy_uninit_ok) as H.
  specialize (H (Forall_cons_2 _ _ _ (initial_wf (toy_request "a") toy_params_wf) (Forall_nil_2 _))).
  specialize (H ltac:(vm_compute; discriminate)). cbv zeta in H.
  destruct (toy_forward _ _) as [tok conf] in H. destruct H as (sel & u & H1 & H2 & H3 & H4 & H5 & H6 & _).
  exists sel, u. split; [exact H1|]. split; [exact H2|]. split; [exact H3|]. split; [exact H4|]. split; [exact H5|exact H6].
Defined.

Lemma engine_drains_witness :
  exists items s', engine_run toy_forward topk_ref toy_uninit 13 toy_loaded = Done (Ok (items, s')) /\
    has_active_requests s' = false /\ Forall2 (served toy_forward (-1) toy_loaded) (ids toy_loaded) items.
Proof.
  apply (engine_drains toy_forward topk_ref toy_uninit (-1) 13 toy_loaded
           toy_forward_ok topk_ref_ok toy_uninit_ok (proj1 toy_loaded_inv)).
  rewrite (proj2 toy_loaded_inv). vm_compute. reflexivity.
Defined.

Lemma engine_serves_witness :
  exists s items s', add_all toy_scheduler [toy_request "a"; toy_request "b"] = Ok s /\
    engine_run toy_forward topk_ref toy_uninit 13 s = Done (Ok (items, s')) /\ has_active_requests s' = false /\
    Forall2 (fun req it => f_id it = r_id req /\ ((forall flat pos, (-1) ∉ fst (toy_forward flat pos)) -> (-1) ∉ tail_token_ids it) /\
      Z.of_nat (length (tail_token_ids it)) = gen_length (r_params req)) [toy_request "a"; toy_request "b"] items.
Proof.
  apply (engine_serves toy_forward topk_ref toy_uninit (-1) 2 [toy_request "a"; toy_request "b"] 13
           toy_forward_ok topk_ref_ok toy_uninit_ok).
  - lia.
  - constructor; [apply toy_good|constructor; [apply toy_good|constructor]].
  - apply (bool_decide_unpack _). vm_compute. exact I.
  - vm_compute. reflexivity.
Defined.

(** The toy model meets the condition on masks. *)
Lemma toy_answers_no_mask : answers_no_mask toy_forward (-1).
Proof. exact toy_no_mask. Qed.
(** A model that answers the mask token: nothing takes it out of the candidates, the
    steps are used up, and the answer goes out with masks in it. *)
Definition masked_forward (flat : list Z) (pos : list nat) : list Z * list Q :=
  (map (fun j => if (j =? 2)%nat then -1 else 7) pos, map (fun j => inject_Z (Z.of_nat j)) pos).
Lemma mask_answer_left :
  match engine_run masked_forward topk_ref toy_uninit 13 toy_loaded with
  | Done (Ok (items, _)) => map tail_token_ids items
  | _ => []
  end = [[-1; -1; -1; 7; 7; 7; 7; 7]; [-1; -1; -1; 7; 7; 7; 7; 7]].
Proof. vm_compute. reflexivity. Qed.

Lemma uninitialised_pool_fails_witness : ensure_loop [toy_request "a"] (make_scheduler 2) = Raise IndexError.
Proof. apply (uninitialised_pool_fails (make_scheduler 2) [toy_request "a"]); [discriminate|reflexivity]. Defined.
