(* ===== verification/FreeQueue.v ===== *)
(** * The free block queue ([FreeKVCacheBlockQueue] of [v1/core/kv_cache_utils.py])

    A doubly linked list threaded through the block objects, with a fake head
    and a fake tail.  The link fields are modelled as they are mutated; the
    relation [free_list q l] says that the links represent the list [l], and
    every operation is shown to refine its list counterpart. *)

From stdpp Require Import base functions list.
From Stdlib Require Import ZArith Lia.
From S2P Require Import Prelude.
Open Scope list_scope.
Open Scope Z_scope.

(** A block object: the fake head and tail, or the block with that index. *)
Inductive Ref : Set := FakeHead | FakeTail | Blk (n : nat).
#[export] Instance Ref_eq_dec : EqDecision Ref.
Proof. solve_decision. Defined.

(** [block_id] of an object; the fakes have -1. *)
Definition block_id (r : Ref) : Z := match r with Blk n => Z.of_nat n | _ => -1 end.

(** The fields [next_free_block] and [prev_free_block] of all objects, and the counter. *)
Record FreeQueue : Type := {
  next_free_block : Ref -> option Ref;
  prev_free_block : Ref -> option Ref;
  num_free_blocks : Z }.

Definition set_next (q : FreeQueue) (r : Ref) (v : option Ref) : FreeQueue :=
  {| next_free_block := <[r := v]> (next_free_block q); prev_free_block := prev_free_block q;
     num_free_blocks := num_free_blocks q |}.
Definition set_prev (q : FreeQueue) (r : Ref) (v : option Ref) : FreeQueue :=
  {| next_free_block := next_free_block q; prev_free_block := <[r := v]> (prev_free_block q);
     num_free_blocks := num_free_blocks q |}.
Definition add_free (q : FreeQueue) (n : Z) : FreeQueue :=
  {| next_free_block := next_free_block q; prev_free_block := prev_free_block q;
     num_free_blocks := num_free_blocks q + n |}.

(** The loop of [__init__] over consecutive blocks, on fresh objects. *)
Fixpoint link_consecutive (q : FreeQueue) (blocks : list Ref) : FreeQueue :=
  match blocks with
  | a :: ((b :: _) as rest) => link_consecutive (set_next (set_prev q b (Some a)) a (Some b)) rest
  | _ => q
  end.
Definition make_queue (blocks : list Ref) : FreeQueue :=
  let q := link_consecutive {| next_free_block := fun _ => None; prev_free_block := fun _ => None;
                               num_free_blocks := Z.of_nat (length blocks) |} blocks in
  match blocks with
  | [] => set_prev (set_next q FakeHead (Some FakeTail)) FakeTail (Some FakeHead)
  | first :: _ =>
      let last := List.last blocks first in
      set_next (set_prev (set_prev (set_next q FakeHead (Some first)) first (Some FakeHead))
                  FakeTail (Some last)) last (Some FakeTail)
  end.

(** [popleft] *)
Definition popleft (q : FreeQueue) : res (Ref * FreeQueue) :=
  let empty := py_assert (num_free_blocks q =? 0) ;;! Raise ValueError in
  match next_free_block q FakeHead with
  | None | Some FakeTail => empty
  | Some first_block =>
      match next_free_block q first_block with
      | None => Raise RuntimeError
      | Some second =>
          let q := set_next q FakeHead (Some second) in
          let q := set_prev q second (Some FakeHead) in
          let q := set_next (set_prev q first_block None) first_block None in
          Ok (first_block, add_free q (-1))
      end
  end.

(** The loop of [popleft_n]: the popped objects and [curr_block]. *)
Fixpoint popleft_loop (n : nat) (q : FreeQueue) (curr_block : option Ref) :
    res (list Ref * option Ref * FreeQueue) :=
  match n with
  | 0%nat => Ok ([], curr_block, q)
  | S n =>
      match curr_block with
      | None => Raise AssertionError
      | Some last_block =>
          let curr_block := next_free_block q last_block in
          let q := set_next (set_prev q last_block None) last_block None in
          let! '(ret, curr, q) := popleft_loop n q curr_block in
          Ok (last_block :: ret, curr, q)
      end
  end.
Definition popleft_n (q : FreeQueue) (n : Z) : res (list Ref * FreeQueue) :=
  if n =? 0 then Ok ([], q)
  else
    py_assert (n <=? num_free_blocks q) ;;!
    (let q := add_free q (-n) in
     let! '(ret, curr_block, q) := popleft_loop (Z.to_nat n) q (next_free_block q FakeHead) in
     match curr_block with
     | None => Ok (ret, q)
     | Some c => Ok (ret, set_prev (set_next q FakeHead (Some c)) c (Some FakeHead))
     end).

(** [remove] *)
Definition remove (q : FreeQueue) (block : Ref) : res FreeQueue :=
  match prev_free_block q block, next_free_block q block with
  | Some p, Some n =>
      let q := set_next q p (Some n) in
      let q := set_prev q n (Some p) in
      let q := set_next (set_prev q block None) block None in
      Ok (add_free q (-1))
  | _, _ => Raise RuntimeError
  end.

(** [append] *)
Definition append (q : FreeQueue) (block : Ref) : res FreeQueue :=
  match prev_free_block q FakeTail with
  | None => Raise RuntimeError
  | Some last_block =>
      let q := set_next q last_block (Some block) in
      let q := set_prev q block (Some last_block) in
      let q := set_next q block (Some FakeTail) in
      let q := set_prev q FakeTail (Some block) in
      Ok (add_free q 1)
  end.

(** [append_n] *)
Fixpoint append_loop (q : FreeQueue) (last_block : Ref) (blocks : list Ref) : FreeQueue * Ref :=
  match blocks with
  | [] => (q, last_block)
  | block :: blocks =>
      append_loop (set_next (set_prev q block (Some last_block)) last_block (Some block)) block blocks
  end.
Definition append_n (q : FreeQueue) (blocks : list Ref) : res FreeQueue :=
  match blocks with
  | [] => Ok q
  | _ =>
      let q := add_free q (Z.of_nat (length blocks)) in
      match prev_free_block q FakeTail with
      | None => Raise AssertionError
      | Some last_block =>
          let '(q, last_block) := append_loop q last_block blocks in
          Ok (set_prev (set_next q last_block (Some FakeTail)) FakeTail (Some last_block))
      end
  end.

(** [get_all_free_blocks]: follow the links up to the tail. *)
Fixpoint collect (fuel : nat) (q : FreeQueue) (curr_block : Ref) : fueled (list Ref) :=
  match fuel with
  | 0%nat => OutOfFuel
  | S fuel =>
      match next_free_block q curr_block with
      | None => Done []
      | Some n => match collect fuel q n with Done l => Done (curr_block :: l) | OutOfFuel => OutOfFuel end
      end
  end.
Definition get_all_free_blocks (fuel : nat) (q : FreeQueue) : fueled (res (list Ref)) :=
  match next_free_block q FakeHead with
  | None => Done (Raise RuntimeError)
  | Some first => match collect fuel q first with Done l => Done (Ok l) | OutOfFuel => OutOfFuel end
  end.

(** ** The list that the links represent *)

Fixpoint linked (nx pv : Ref -> option Ref) (xs : list Ref) : Prop :=
  match xs with
  | a :: ((b :: _) as rest) => nx a = Some b /\ pv b = Some a /\ linked nx pv rest
  | _ => True
  end.

Definition path (l : list nat) : list Ref := FakeHead :: map Blk l ++ [FakeTail].

Record free_list (q : FreeQueue) (l : list nat) : Prop := {
  fl_linked : linked (next_free_block q) (prev_free_block q) (path l);
  fl_tail : next_free_block q FakeTail = None;
  fl_nodup : NoDup l;
  fl_num : num_free_blocks q = Z.of_nat (length l);
  fl_out : forall n, n ∉ l -> next_free_block q (Blk n) = None /\ prev_free_block q (Blk n) = None }.

Lemma linked_ext nx pv nx' pv' xs :
  linked nx pv xs -> (forall a, a ∈ removelast xs -> nx' a = nx a) -> (forall b, b ∈ tail xs -> pv' b = pv b) ->
  linked nx' pv' xs.
Proof.
  induction xs as [|a [|b rest] IH]; [done..|]. intros (H1 & H2 & H3) Hn Hp. cbn in Hn, Hp.
  split; [rewrite Hn; [done|left]|]. split; [rewrite Hp; [done|left]|].
  apply IH; [done| |].
  - intros c Hc. apply Hn. by right.
  - intros c Hc. apply Hp. by right.
Qed.

Lemma linked_app nx pv xs a ys :
  linked nx pv (xs ++ a :: ys) <-> linked nx pv (xs ++ [a]) /\ linked nx pv (a :: ys).
Proof.
  induction xs as [|x [|x' xs] IH]; [cbn; tauto|cbn; tauto|].
  change ((x :: x' :: xs) ++ a :: ys) with (x :: (x' :: xs) ++ a :: ys).
  change ((x :: x' :: xs) ++ [a]) with (x :: (x' :: xs) ++ [a]).
  cbn [app linked] in *. rewrite IH. tauto.
Qed.

Lemma elem_of_removelast {A} (a : A) xs : a ∈ removelast xs -> a ∈ xs.
Proof.
  induction xs as [|x [|y xs] IH]; cbn; [done|by intros ?%elem_of_nil|].
  intros [->|H]%elem_of_cons; [left|right; by apply IH].
Qed.

(** Joining two chains. *)
Lemma linked_join nx pv xs a b ys :
  linked nx pv (xs ++ [a]) -> linked nx pv (b :: ys) -> nx a = Some b -> pv b = Some a ->
  linked nx pv (xs ++ a :: b :: ys).
Proof. intros H1 H2 H3 H4. apply linked_app. split; [done|]. done. Qed.

Lemma NoDup_path l : NoDup l -> NoDup (path l).
Proof.
  intros Hl. constructor.
  - intros [Hin|Hin]%elem_of_app.
    + by apply list_elem_of_fmap in Hin as (n & ? & _).
    + by apply list_elem_of_singleton in Hin.
  - apply NoDup_app. split; [|split].
    + apply NoDup_fmap_2; [by intros ?? [= ->]|done].
    + intros r Hr Hin%list_elem_of_singleton. subst r. by apply list_elem_of_fmap in Hr as (n & ? & _).
    + apply NoDup_singleton.
Qed.

Lemma elem_of_path n l : Blk n ∈ path l <-> n ∈ l.
Proof.
  unfold path. rewrite elem_of_cons, elem_of_app, list_elem_of_fmap, list_elem_of_singleton.
  split; [intros [?|[(m & [= ->] & ?)|?]]; done|]. intros H. right; left. eauto.
Qed.

Lemma linked_next nx pv xs a b ys : linked nx pv (xs ++ a :: b :: ys) -> nx a = Some b /\ pv b = Some a.
Proof. intros [_ H]%linked_app. by destruct H as (? & ? & _). Qed.

(** Evaluating the fields after updates. *)
Ltac fn := cbn [next_free_block prev_free_block num_free_blocks set_next set_prev add_free];
  repeat first [rewrite fn_lookup_insert | rewrite fn_lookup_insert_ne by congruence].

(** A member of a [NoDup] list that is split at [a] is not in the other parts. *)
Lemma nodup_split {A} (xs : list A) a ys :
  NoDup (xs ++ a :: ys) -> (a ∉ xs) /\ (a ∉ ys) /\ NoDup (xs ++ ys) /\ (forall b, b ∈ xs -> b ∉ ys).
Proof.
  intros (H1 & H2 & H3)%NoDup_app. apply NoDup_cons in H3 as [H3 H4].
  split; [intros H; apply (H2 _ H); left|]. split; [done|]. split.
  - apply NoDup_app. split; [done|]. split; [|done]. intros b Hb Hb'. apply (H2 _ Hb). by right.
  - intros b Hb Hb'. apply (H2 _ Hb). by right.
Qed.

Lemma path_split l1 b l2 :
  exists X p n Y, path (l1 ++ b :: l2) = X ++ p :: Blk b :: n :: Y /\ path (l1 ++ l2) = X ++ p :: n :: Y.
Proof.
  assert (HX : exists X p, FakeHead :: map Blk l1 = X ++ [p]).
  { destruct (map Blk l1) as [|c m] using rev_ind; [by exists [], FakeHead|]. by exists (FakeHead :: m), c. }
  assert (HY : exists n Y, map Blk l2 ++ [FakeTail] = n :: Y) by (destruct l2; cbn; eauto).
  destruct HX as (X & p & HX), HY as (n & Y & HY). exists X, p, n, Y. unfold path.
  rewrite !map_app, map_cons, <-!app_assoc. cbn [app]. rewrite HY.
  change (FakeHead :: map Blk l1 ++ Blk b :: n :: Y) with ((FakeHead :: map Blk l1) ++ Blk b :: n :: Y).
  change (FakeHead :: map Blk l1 ++ n :: Y) with ((FakeHead :: map Blk l1) ++ n :: Y).
  rewrite HX, <-!app_assoc. done.
Qed.

(** Taking one block out of the chain. *)
Definition unlink (q : FreeQueue) (p block n : Ref) : FreeQueue :=
  let q := set_next q p (Some n) in
  let q := set_prev q n (Some p) in
  add_free (set_next (set_prev q block None) block None) (-1).

Lemma free_list_nonnil q l1 b l2 :
  free_list q (l1 ++ b :: l2) ->
  exists p n, prev_free_block q (Blk b) = Some p /\ next_free_block q (Blk b) = Some n /\
    (l1 = [] -> p = FakeHead) /\ free_list (unlink q p (Blk b) n) (l1 ++ l2).
Proof.
  intros [Hl Ht Hnd Hnum Hout]. destruct (path_split l1 b l2) as (X & p & n & Y & HP & HP').
  pose proof (NoDup_path _ Hnd) as Hndp. pose proof Hl as Hl'. rewrite HP in Hl', Hndp.
  destruct (linked_next _ _ X p (Blk b) (n :: Y) Hl') as [Hpb Hbp].
  change (X ++ p :: Blk b :: n :: Y) with (X ++ [p] ++ Blk b :: n :: Y) in Hl', Hndp. rewrite app_assoc in Hl', Hndp.
  destruct (linked_next _ _ (X ++ [p]) (Blk b) n Y Hl') as [Hbn Hnb].
  destruct (nodup_split _ _ _ Hnd) as (Hb1 & Hb2 & Hnd' & _).
  destruct (nodup_split _ _ _ Hndp) as (HbX & HbY & HndX & Hdisj).
  exists p, n. split; [done|]. split; [done|]. split.
  { intros ->. destruct Hl as (_ & Hhead & _). congruence. }
  assert (Hpb' : p <> Blk b) by (intros ->; apply HbX, elem_of_app; right; left).
  assert (Hnb' : n <> Blk b) by (intros ->; apply HbY; left).
  split; unfold unlink; cbn [next_free_block prev_free_block num_free_blocks set_next set_prev add_free].
  - rewrite HP'. rewrite linked_app in Hl'. destruct Hl' as [Hl1 Hl2].
    rewrite <-app_assoc in Hl1. cbn [app] in Hl1. apply linked_app in Hl1 as [Hl1 _].
    assert (Hl3 : linked (next_free_block q) (prev_free_block q) (n :: Y)) by (destruct Hl2 as (_ & _ & ?); done).
    apply linked_join.
    + eapply linked_ext; [exact Hl1| |].
      * intros a Ha. rewrite removelast_last in Ha.
        assert (a <> p) by (intros ->; rewrite <-app_assoc in HndX; cbn in HndX; by apply nodup_split in HndX as [? _]).
        assert (a <> Blk b) by (intros ->; apply HbX, elem_of_app; by left). fn. done.
      * intros c Hc. assert (Hc' : c ∈ X ++ [p]) by (destruct X; [by apply elem_of_nil in Hc|by right]).
        assert (c <> n) by (intros ->; apply (Hdisj _ Hc'); left).
        assert (c <> Blk b) by (intros ->; done). fn. done.
    + eapply linked_ext; [exact Hl3| |].
      * intros a Ha. assert (Ha' : a ∈ n :: Y) by (by apply elem_of_removelast).
        assert (a <> p) by (intros ->; eapply Hdisj; [|exact Ha']; apply elem_of_app; right; left).
        assert (a <> Blk b) by (intros ->; done). fn. done.
      * intros c Hc. cbn in Hc. assert (c <> n).
        { intros ->. apply nodup_split in HndX as (_ & HnY & _). done. }
        assert (c <> Blk b) by (intros ->; apply HbY; by right). fn. done.
    + fn. done.
    + fn. done.
  - assert (p <> FakeTail).
    { intros ->. rewrite Ht in Hpb. done. }
    fn. done.
  - done.
  - rewrite Hnum, !length_app. cbn [length]. lia.
  - intros m Hm. destruct (decide (m = b)) as [->|Hne]; [fn; done|].
    assert (Hm' : m ∉ l1 ++ b :: l2).
    { rewrite elem_of_app, elem_of_cons in *. naive_solver. }
    assert (Hmp : Blk m ∉ path (l1 ++ b :: l2)) by (by rewrite elem_of_path).
    rewrite HP in Hmp. assert (p <> Blk m) by (intros ->; apply Hmp, elem_of_app; right; left).
    assert (n <> Blk m) by (intros ->; apply Hmp, elem_of_app; right; right; right; left).
    fn. by apply Hout.
Qed.

Lemma remove_ok q l1 b l2 :
  free_list q (l1 ++ b :: l2) -> exists q', remove q (Blk b) = Ok q' /\ free_list q' (l1 ++ l2).
Proof.
  intros H. destruct (free_list_nonnil _ _ _ _ H) as (p & n & Hp & Hn & _ & H').
  exists (unlink q p (Blk b) n). split; [|done]. unfold remove. by rewrite Hp, Hn.
Qed.

Lemma remove_invalid q l b : free_list q l -> b ∉ l -> remove q (Blk b) = Raise RuntimeError.
Proof. intros H Hb. unfold remove. destruct (fl_out _ _ H b Hb) as [_ ->]. done. Qed.

Lemma popleft_ok q b l :
  free_list q (b :: l) -> exists q', popleft q = Ok (Blk b, q') /\ free_list q' l.
Proof.
  intros H. destruct (free_list_nonnil q [] b l H) as (p & n & Hp & Hn & Hhead & H').
  specialize (Hhead eq_refl). subst p. exists (unlink q FakeHead (Blk b) n). split; [|done].
  destruct (fl_linked _ _ H) as (Hf & _). unfold popleft. by rewrite Hf, Hn.
Qed.

Lemma popleft_empty q : free_list q [] -> popleft q = Raise ValueError.
Proof. intros H. destruct (fl_linked _ _ H) as (Hf & _). unfold popleft. by rewrite Hf, (fl_num _ _ H). Qed.

(** The loop of [popleft_n] detaches a prefix of the chain. *)
Lemma popleft_loop_ok q l1 n Y :
  linked (next_free_block q) (prev_free_block q) (map Blk l1 ++ n :: Y) -> NoDup (map Blk l1 ++ n :: Y) ->
  exists q', popleft_loop (length l1) q (Some (hd n (map Blk l1))) = Ok (map Blk l1, Some n, q') /\
    (forall r, next_free_block q' r = if bool_decide (r ∈ map Blk l1) then None else next_free_block q r) /\
    (forall r, prev_free_block q' r = if bool_decide (r ∈ map Blk l1) then None else prev_free_block q r) /\
    num_free_blocks q' = num_free_blocks q.
Proof.
  revert q. induction l1 as [|b l1 IH]; intros q Hl Hnd; cbn [length popleft_loop map hd].
  - exists q. split; [done|]. split; [|split; [|done]]; intros r; by rewrite bool_decide_false by (by intros ?%elem_of_nil).
  - cbn [map app] in Hl, Hnd. apply NoDup_cons in Hnd as [Hb Hnd].
    assert (Hnext : next_free_block q (Blk b) = Some (hd n (map Blk l1)))
      by (destruct (map Blk l1); destruct Hl as (? & _); done).
    rewrite Hnext.
    destruct (IH (set_next (set_prev q (Blk b) None) (Blk b) None)) as (q' & -> & Hn & Hp & Hnum); [|done|].
    { eapply linked_ext.
      - destruct (map Blk l1); destruct Hl as (_ & _ & Hl); exact Hl.
      - intros a Ha%elem_of_removelast. fn. done.
      - intros a Ha. assert (a ∈ map Blk l1 ++ n :: Y) by (destruct (map Blk l1); by right). fn. done. }
    exists q'. split; [done|]. split; [|split; [|done]]; intros r; rewrite ?Hn, ?Hp.
    all: destruct (decide (r = Blk b)) as [->|Hne]; fn;
      [rewrite (bool_decide_true (Blk b ∈ Blk b :: _)) by left; by case_bool_decide|].
    all: erewrite (bool_decide_ext (r ∈ Blk b :: _)); [done|]; rewrite elem_of_cons; naive_solver.
Qed.

Lemma popleft_n_ok q l1 l2 :
  free_list q (l1 ++ l2) ->
  exists q', popleft_n q (Z.of_nat (length l1)) = Ok (map Blk l1, q') /\ free_list q' l2.
Proof.
  intros H. unfold popleft_n. destruct (Z.eqb_spec (Z.of_nat (length l1)) 0) as [H0|H0].
  { destruct l1; [|done]. by exists q. }
  rewrite (fl_num _ _ H), length_app, (proj2 (Z.leb_le _ _)) by lia. cbn [py_assert bind]. rewrite Nat2Z.id.
  pose proof (fl_linked _ _ H) as Hl. pose proof (NoDup_path _ (fl_nodup _ _ H)) as Hnd.
  assert (HY : exists n Y, map Blk l2 ++ [FakeTail] = n :: Y) by (destruct l2; cbn; eauto).
  destruct HY as (n & Y & HY). unfold path in Hl, Hnd. rewrite map_app, <-app_assoc, HY in Hl, Hnd.
  assert (Hfirst : next_free_block q FakeHead = Some (hd n (map Blk l1)))
    by (destruct (map Blk l1); destruct Hl as (? & _); done).
  change (FakeHead :: map Blk l1 ++ n :: Y) with ([FakeHead] ++ map Blk l1 ++ n :: Y) in Hnd.
  apply NoDup_app in Hnd as (_ & Hhead & Hnd).
  assert (Hh : FakeHead ∉ map Blk l1 ++ n :: Y) by (apply Hhead; left).
  destruct (popleft_loop_ok (add_free q (- Z.of_nat (length l1))) l1 n Y) as (q' & Hloop & Hn & Hp & Hnum); [|done|].
  { cbn [add_free next_free_block prev_free_block]. destruct (map Blk l1); destruct Hl as (_ & _ & Hl); exact Hl. }
  cbn [add_free next_free_block] in Hloop |- *. rewrite Hfirst, Hloop. cbn [bind].
  assert (Hni : forall r, r ∈ n :: Y -> r ∉ map Blk l1)
    by (intros r Hr Hr'; apply NoDup_app in Hnd as (_ & Hd & _); by apply (Hd r)).
  eexists. split; [reflexivity|]. split.
  - unfold path. rewrite HY. split; [fn; done|]. split; [fn; done|].
    assert (Hl2 : linked (next_free_block q) (prev_free_block q) (n :: Y)).
    { change (FakeHead :: map Blk l1 ++ n :: Y) with ((FakeHead :: map Blk l1) ++ n :: Y) in Hl.
      by apply linked_app in Hl as [_ ?]. }
    assert (HnY : n ∉ Y) by (apply NoDup_app in Hnd as (_ & _ & Hnd); by apply NoDup_cons in Hnd as [? _]).
    eapply linked_ext; [exact Hl2| |].
    + intros a Ha%elem_of_removelast. assert (a <> FakeHead) by (intros ->; apply Hh, elem_of_app; by right).
      fn. rewrite Hn, bool_decide_false by (by apply Hni). done.
    + intros a Ha. cbn in Ha. assert (a <> n) by congruence. fn. rewrite Hp, bool_decide_false; [done|].
      apply Hni. by right.
  - fn. rewrite Hn. case_bool_decide; [done|]. apply (fl_tail _ _ H).
  - pose proof (fl_nodup _ _ H) as Hd. by apply NoDup_app in Hd as (_ & _ & ?).
  - cbn. rewrite Hnum. cbn. rewrite (fl_num _ _ H), length_app. lia.
  - intros m Hm.
    assert (n <> Blk m).
    { intros ->. destruct l2 as [|c l2]; [done|]. injection HY as -> _. apply Hm. left. }
    fn. rewrite Hn, Hp. case_bool_decide as Hd; [done|]. apply (fl_out _ _ H). rewrite elem_of_app. intros [Hm'|?]; [|done].
    apply Hd, list_elem_of_fmap. eauto.
Qed.

(** The loop of [append_n] extends the chain behind [last]. *)
Lemma append_loop_ok q xs last bs :
  linked (next_free_block q) (prev_free_block q) (xs ++ [last]) -> NoDup (xs ++ last :: bs) ->
  exists q' zs last', append_loop q last bs = (q', last') /\ xs ++ last :: bs = zs ++ [last'] /\
    linked (next_free_block q') (prev_free_block q') (xs ++ last :: bs) /\
    (forall r, r ∉ last :: bs -> next_free_block q' r = next_free_block q r) /\
    (forall r, r ∉ bs -> prev_free_block q' r = prev_free_block q r) /\
    num_free_blocks q' = num_free_blocks q.
Proof.
  revert q xs last. induction bs as [|b bs IH]; intros q xs last Hl Hnd; cbn [append_loop].
  - exists q, xs, last. done.
  - destruct (nodup_split _ _ _ Hnd) as (Hlx & Hlb & _ & Hd).
    assert (Hlast : last <> b) by (intros ->; apply Hlb; left).
    assert (Hnd' : NoDup ((xs ++ [last]) ++ b :: bs)) by (by rewrite <-app_assoc).
    destruct (nodup_split _ _ _ Hnd') as (Hbx & Hbb & _ & _).
    destruct (IH (set_next (set_prev q b (Some last)) last (Some b)) (xs ++ [last]) b) as (q' & zs & last' & -> & Hz & Hl' & Hn & Hp & Hnum).
    + rewrite <-app_assoc. cbn [app]. apply linked_join; [|done|fn; done|fn; done].
      eapply linked_ext; [exact Hl| |].
      * intros a Ha. rewrite removelast_last in Ha. assert (a <> last) by congruence. fn. done.
      * intros a Ha. assert (a <> b); [|fn; done]. intros ->. apply Hbx. destruct xs; [by apply elem_of_nil in Ha|by right].
    + done.
    + rewrite <-app_assoc in Hz, Hl'. cbn [app] in Hz, Hl'. exists q', zs, last'. split_and!; try done.
      * intros r Hr. rewrite !not_elem_of_cons in Hr. rewrite Hn by (rewrite not_elem_of_cons; tauto).
        destruct Hr as (? & ? & ?). fn. done.
      * intros r Hr. rewrite not_elem_of_cons in Hr. rewrite Hp by tauto. destruct Hr as (? & ?). fn. done.
Qed.

Lemma path_last l : path l = (FakeHead :: map Blk l) ++ [FakeTail].
Proof. done. Qed.

Lemma append_n_ok q l bs :
  free_list q l -> NoDup bs -> (forall b, b ∈ bs -> b ∉ l) ->
  exists q', append_n q (map Blk bs) = Ok q' /\ free_list q' (l ++ bs).
Proof.
  intros H Hbs Hd. destruct bs as [|b0 bs0]; [exists q; by rewrite app_nil_r|]. remember (b0 :: bs0) as bs eqn:Hb.
  assert (Hmb : map Blk bs = Blk b0 :: map Blk bs0) by (by subst). unfold append_n.
  assert (Hnd : NoDup (l ++ bs)) by (apply NoDup_app; split; [exact (fl_nodup _ _ H)|]; split; [|done]; intros x Hx Hx'; by apply (Hd x)).
  assert (HX : exists X p, FakeHead :: map Blk l = X ++ [p]).
  { destruct (map Blk l) as [|c m] using rev_ind; [by exists [], FakeHead|]. by exists (FakeHead :: m), c. }
  destruct HX as (X & p & HX).
  pose proof (fl_linked _ _ H) as Hl. pose proof (NoDup_path _ Hnd) as Hndp. rewrite path_last, HX, <-app_assoc in Hl. cbn [app] in Hl.
  destruct (linked_next _ _ _ _ _ _ Hl) as [_ Htail].
  rewrite path_last, map_app in Hndp. change (FakeHead :: map Blk l ++ map Blk bs) with ((FakeHead :: map Blk l) ++ map Blk bs) in Hndp.
  rewrite HX in Hndp. apply NoDup_app in Hndp as (Hndp & Htl & _). rewrite <-app_assoc in Hndp. cbn [app] in Hndp.
  cbn [add_free prev_free_block]. rewrite Htail.
  destruct (append_loop_ok (add_free q (Z.of_nat (length (map Blk bs)))) X p (map Blk bs)) as (q' & zs & last' & -> & Hz & Hl' & Hn & Hp & Hnum).
  { by apply linked_app in Hl as [? _]. }
  { done. }
  eexists. split; [rewrite Hmb; reflexivity|].
  assert (Hpath : path (l ++ bs) = zs ++ [last'; FakeTail]).
  { rewrite path_last, map_app. change (FakeHead :: map Blk l ++ map Blk bs) with ((FakeHead :: map Blk l) ++ map Blk bs).
    rewrite HX, <-(app_assoc X [p] (map Blk bs)). change ([p] ++ map Blk bs) with (p :: map Blk bs). by rewrite Hz, <-app_assoc. }
  assert (HTl : FakeTail ∉ X ++ p :: map Blk bs).
  { intros Hin. apply (Htl FakeTail); [|left]. by rewrite <-app_assoc. }
  assert (Hlast : last' ∈ p :: map Blk bs).
  { destruct (map Blk bs) as [|y ys] using rev_ind; apply app_inj_tail in Hz || (rewrite app_comm_cons, app_assoc in Hz; apply app_inj_tail in Hz).
    - destruct Hz as [_ <-]. left.
    - destruct Hz as [_ <-]. right. apply elem_of_app. right. left. }
  assert (Hlt : last' <> FakeTail) by (intros ->; apply HTl, elem_of_app; by right).
  split.
  - rewrite Hpath. apply linked_join; [|done|fn; done|fn; done]. rewrite Hz in Hl'.
    eapply linked_ext; [exact Hl'| |].
    + intros a Ha. rewrite removelast_last in Ha. rewrite Hz in Hndp. assert (a <> last'); [|fn; done].
      intros ->. apply NoDup_app in Hndp as (_ & Hdd & _). apply (Hdd _ Ha). left.
    + intros a Ha. assert (a <> FakeTail); [|fn; done]. intros ->. apply HTl.
      rewrite Hz. destruct zs; [by apply elem_of_nil in Ha|by right].
  - fn. rewrite Hn; [apply (fl_tail _ _ H)|]. intros Hin. apply HTl, elem_of_app. by right.
  - done.
  - cbn. rewrite Hnum. cbn. rewrite (fl_num _ _ H), length_app, length_map. lia.
  - intros m [Hm1 Hm2]%not_elem_of_app. assert (Hni : Blk m ∉ map Blk bs) by (by intros (? & [= ->] & ?)%list_elem_of_fmap).
    assert (Hpm : p <> Blk m).
    { intros ->. assert (Hin : Blk m ∈ FakeHead :: map Blk l) by (rewrite HX; apply elem_of_app; right; left).
      apply elem_of_cons in Hin as [?|(? & [= ->] & ?)%list_elem_of_fmap]; done. }
    assert (last' <> Blk m) by (intros ->; apply elem_of_cons in Hlast as [?|?]; congruence || done).
    fn. rewrite Hn, Hp by (rewrite ?not_elem_of_cons; auto). cbn. by apply (fl_out _ _ H).
Qed.

(** ** Construction, single append, traversal *)

Lemma link_consecutive_ok q blocks :
  NoDup blocks ->
  linked (next_free_block (link_consecutive q blocks)) (prev_free_block (link_consecutive q blocks)) blocks /\
  (forall r, r ∉ blocks -> next_free_block (link_consecutive q blocks) r = next_free_block q r /\
                         prev_free_block (link_consecutive q blocks) r = prev_free_block q r) /\
  (forall a rest, blocks = a :: rest -> prev_free_block (link_consecutive q blocks) a = prev_free_block q a) /\
  num_free_blocks (link_consecutive q blocks) = num_free_blocks q.
Proof.
  revert q. induction blocks as [|a [|b rest] IH]; intros q Hnd; [done|done|].
  apply NoDup_cons in Hnd as [Ha Hnd]. pose proof Ha as [Hab Har]%not_elem_of_cons.
  change (link_consecutive q (a :: b :: rest))
    with (link_consecutive (set_next (set_prev q b (Some a)) a (Some b)) (b :: rest)).
  destruct (IH (set_next (set_prev q b (Some a)) a (Some b)) Hnd) as (Hl & Ho & Hf & Hnum).
  split; [|split; [|split; [|done]]].
  - split; [rewrite (proj1 (Ho a Ha)); fn; done|]. split; [rewrite (Hf b rest eq_refl); fn; done|]. exact Hl.
  - intros r [Hra Hrb]%not_elem_of_cons. destruct (Ho r Hrb) as [-> ->]. apply not_elem_of_cons in Hrb as [Hrb _]. fn. done.
  - intros ? ? [= <- _]. rewrite (proj2 (Ho a Ha)). fn. done.
Qed.

Lemma make_queue_ok l : NoDup l -> free_list (make_queue (map Blk l)) l.
Proof.
  intros Hnd. unfold make_queue. set (q0 := {| next_free_block := fun _ => None; prev_free_block := _; num_free_blocks := _ |}).
  assert (Hndb : NoDup (map Blk l)) by (apply NoDup_fmap_2; [by intros ?? [= ->]|done]).
  destruct (link_consecutive_ok q0 _ Hndb) as (Hl & Ho & _ & Hnum). set (q := link_consecutive q0 (map Blk l)) in *.
  assert (Hfake : forall r, (forall n, r <> Blk n) -> r ∉ map Blk l) by (intros r Hr (n & ? & _)%list_elem_of_fmap; by apply (Hr n)).
  destruct l as [|b l]; [split; cbn; try done; intros n _; fn; done|].
  cbn [map].
  set (lst := List.last (Blk b :: map Blk l) (Blk b)).
  assert (Hz : exists zs, Blk b :: map Blk l = zs ++ [lst])
    by (exists (removelast (Blk b :: map Blk l)); by apply app_removelast_last).
  destruct Hz as [zs Hz].
  assert (Hlm : lst ∈ map Blk (b :: l)) by (cbn [map]; rewrite Hz; apply elem_of_app; right; left).
  assert (Hlk : exists k, lst = Blk k /\ k ∈ b :: l) by (apply list_elem_of_fmap in Hlm as (k & ? & ?); eauto).
  destruct Hlk as (k & Hk & Hkin).
  assert (Hndz : NoDup (zs ++ [lst])) by (by rewrite <-Hz).
  split.
  - assert (Hp : path (b :: l) = FakeHead :: Blk b :: map Blk l ++ [FakeTail]) by done.
    rewrite Hp. split; [rewrite Hk; fn; done|]. split; [fn; done|].
    change (Blk b :: map Blk l ++ [FakeTail]) with ((Blk b :: map Blk l) ++ [FakeTail]).
    rewrite Hz, <-app_assoc. cbn [app]. apply linked_join; [|done|rewrite Hk; fn; done|fn; done].
    rewrite <-Hz. eapply linked_ext; [exact Hl| |].
    + intros a Ha. cbn [map] in Ha. rewrite Hz, removelast_last in Ha.
      assert (a <> lst) by (intros ->; apply NoDup_app in Hndz as (_ & Hd & _); apply (Hd _ Ha); left).
      assert (a <> FakeHead).
      { intros ->. apply (Hfake FakeHead); [done|]. cbn [map]. rewrite Hz. apply elem_of_app. by left. }
      fn. done.
    + intros a Ha. cbn in Ha. assert (a <> Blk b) by (intros ->; cbn in Hndb; by apply NoDup_cons in Hndb as [? _]).
      assert (a <> FakeTail) by (intros ->; apply (Hfake FakeTail); [done|]; by right). fn. done.
  - rewrite Hk. fn. rewrite (proj1 (Ho FakeTail ltac:(by apply Hfake))). done.
  - done.
  - change (num_free_blocks q = Z.of_nat (length (b :: l))). rewrite Hnum. unfold q0. cbn [num_free_blocks].
    by rewrite length_map.
  - intros m Hm. assert (Hmm : Blk m ∉ map Blk (b :: l)) by (by intros (? & [= ->] & ?)%list_elem_of_fmap).
    assert (lst <> Blk m) by congruence. assert (Blk b <> Blk m) by (intros [= ->]; apply Hm; left).
    fn. destruct (Ho _ Hmm) as [-> ->]. done.
Qed.

Lemma append_ok q l b : free_list q l -> b ∉ l -> exists q', append q (Blk b) = Ok q' /\ free_list q' (l ++ [b]).
Proof.
  intros H Hb. destruct (append_n_ok q l [b] H) as (q' & Hq & H').
  - apply NoDup_singleton.
  - by intros c ->%list_elem_of_singleton.
  - pose proof Hq as Hq2. unfold append_n, append in *. cbn [map add_free prev_free_block] in *.
    destruct (prev_free_block q FakeTail) as [p|] eqn:Hp; [|done]. cbn [append_loop] in Hq2. injection Hq2 as Hq2.
    eexists. split; [reflexivity|]. destruct H' as [G1 G2 G3 G4 G5]. subst q'.
    split; [exact G1|exact G2|exact G3| |exact G5].
    cbn [num_free_blocks set_prev set_next add_free]. rewrite (fl_num _ _ H), length_app. cbn. lia.
Qed.

Lemma collect_ok q l fuel :
  linked (next_free_block q) (prev_free_block q) (map Blk l ++ [FakeTail]) -> next_free_block q FakeTail = None ->
  (length l < fuel)%nat -> collect fuel q (hd FakeTail (map Blk l)) = Done (map Blk l).
Proof.
  intros Hl Ht. revert fuel. induction l as [|b l IH]; intros [|fuel] Hf; try (cbn in Hf; lia); cbn [map hd collect].
  - by rewrite Ht.
  - assert (Hn : next_free_block q (Blk b) = Some (hd FakeTail (map Blk l))) by (destruct l; destruct Hl as (? & _); done).
    rewrite Hn, IH; [done| |cbn in Hf; lia]. destruct l; destruct Hl as (_ & _ & Hl); exact Hl.
Qed.

Lemma get_all_free_blocks_ok q l fuel :
  free_list q l -> (length l < fuel)%nat -> get_all_free_blocks fuel q = Done (Ok (map Blk l)).
Proof.
  intros H Hf. pose proof (fl_linked _ _ H) as Hl. unfold get_all_free_blocks.
  assert (Hh : next_free_block q FakeHead = Some (hd FakeTail (map Blk l))) by (destruct l; destruct Hl as (? & _); done).
  rewrite Hh, (collect_ok q l fuel); [done| |apply (fl_tail _ _ H)|done].
  destruct l; destruct Hl as (_ & _ & Hl); exact Hl.
Qed.

(** ** Main statement *)

(** C38. The linked list implements a FIFO list with removal from the middle:
    building it from distinct blocks gives that list; [popleft], [popleft_n],
    [remove], [append] and [append_n] act on the represented list as their names
    say and keep the links and the counter consistent; popping the empty queue
    and removing a block that is not in it raise; the traversal returns the list. *)
Theorem free_queue_refines_list :
  (forall l, NoDup l -> free_list (make_queue (map Blk l)) l) /\
  (forall q b l, free_list q (b :: l) -> exists q', popleft q = Ok (Blk b, q') /\ free_list q' l) /\
  (forall q, free_list q [] -> popleft q = Raise ValueError) /\
  (forall q l1 l2, free_list q (l1 ++ l2) ->
     exists q', popleft_n q (Z.of_nat (length l1)) = Ok (map Blk l1, q') /\ free_list q' l2) /\
  (forall q l n, free_list q l -> Z.of_nat (length l) < n -> popleft_n q n = Raise AssertionError) /\
  (forall q l1 b l2, free_list q (l1 ++ b :: l2) ->
     exists q', remove q (Blk b) = Ok q' /\ free_list q' (l1 ++ l2)) /\
  (forall q l b, free_list q l -> b ∉ l -> remove q (Blk b) = Raise RuntimeError) /\
  (forall q l b, free_list q l -> b ∉ l -> exists q', append q (Blk b) = Ok q' /\ free_list q' (l ++ [b])) /\
  (forall q l bs, free_list q l -> NoDup bs -> (forall b, b ∈ bs -> b ∉ l) ->
     exists q', append_n q (map Blk bs) = Ok q' /\ free_list q' (l ++ bs)) /\
  (forall q l fuel, free_list q l -> (length l < fuel)%nat -> get_all_free_blocks fuel q = Done (Ok (map Blk l))).
Proof.
  split; [exact make_queue_ok|]. split; [exact popleft_ok|]. split; [exact popleft_empty|].
  split; [exact popleft_n_ok|]. split.
  { intros q l n H Hn. unfold popleft_n. rewrite (fl_num _ _ H), (proj2 (Z.eqb_neq _ _)), (proj2 (Z.leb_gt _ _)) by lia. done. }
  split; [exact remove_ok|]. split; [exact remove_invalid|]. split; [exact append_ok|].
  split; [exact append_n_ok|]. exact get_all_free_blocks_ok.
Qed.
