(* ===== verification/Request.v ===== *)
(** * Requests of the autoregressive engine ([v1/request.py])

    The request object with the fields that the KV cache and the scheduler read
    and write, its constructor and its methods. *)

From stdpp Require Import base strings list.
From Stdlib Require Import ZArith QArith Lia.
From S2P Require Import Prelude.
Open Scope list_scope.
Open Scope Z_scope.

(** [RequestStatus], an [IntEnum] counting from 1. *)
Inductive RequestStatus : Set :=
| WAITING | WAITING_FOR_FSM | WAITING_FOR_REMOTE_KVS | RUNNING | PREEMPTED
| FINISHED_STOPPED | FINISHED_LENGTH_CAPPED | FINISHED_ABORTED | FINISHED_IGNORED.
#[export] Instance RequestStatus_eq_dec : EqDecision RequestStatus.
Proof. solve_decision. Defined.
Definition status_value (s : RequestStatus) : Z :=
  match s with
  | WAITING => 1 | WAITING_FOR_FSM => 2 | WAITING_FOR_REMOTE_KVS => 3 | RUNNING => 4 | PREEMPTED => 5
  | FINISHED_STOPPED => 6 | FINISHED_LENGTH_CAPPED => 7 | FINISHED_ABORTED => 8 | FINISHED_IGNORED => 9
  end.
(** [RequestStatus.is_finished] *)
Definition status_is_finished (s : RequestStatus) : bool := status_value PREEMPTED <? status_value s.

Inductive FinishReason : Set := STOP | LENGTH | ABORT.
(** [_FINISHED_REASON_MAP.get(status)] *)
Definition get_finished_reason (s : RequestStatus) : option FinishReason :=
  match s with
  | FINISHED_STOPPED => Some STOP
  | FINISHED_LENGTH_CAPPED => Some LENGTH
  | FINISHED_ABORTED => Some ABORT
  | FINISHED_IGNORED => Some LENGTH
  | _ => None
  end.

(** The fields of [SamplingParams] that are read; [guided_decoding] stands for
    "is not None". *)
Record SamplingParams : Set := {
  sp_max_tokens : option Z;
  ignore_eos : bool;
  stop_token_ids : option (list Z);
  prompt_logprobs : option Z;
  guided_decoding : bool;
  sp_temperature : Q;
  sp_top_p : Q;
  sp_top_k : Z;
  sp_min_p : Q;
  sp_frequency_penalty : Q;
  sp_presence_penalty : Q;
  sp_repetition_penalty : Q;
  sp_seed : option Z;
  sp_logprobs : option Z;
  sp_min_tokens : Z;
  sp_all_stop_token_ids : list Z;
  sp_logit_bias : list (Z * Q);
  sp_allowed_token_ids : list Z;
  sp_bad_words_token_ids : list (list Z) }.

(** A placeholder range of a multi-modal input is (offset, length); the LoRA
    request is its [lora_int_id]; [pooling_params] stands for "is not None". *)
Record Request : Type := {
  request_id : string;
  client_index : Z;
  priority : Z;
  arrival_time : Q;
  sampling_params : option SamplingParams;
  pooling_params : bool;
  eos_token_id : option Z;
  lora_request : option Z;
  cache_salt : option string;
  max_tokens : Z;
  prompt_token_ids : list Z;
  mm_positions : list (Z * Z);
  mm_hashes : list (option string);
  status : RequestStatus;
  stop_reason : option Z;
  output_token_ids : list Z;
  all_token_ids : list Z;
  spec_token_ids : list Z;
  num_computed_tokens : Z;
  num_output_placeholders : Z;
  num_cached_tokens : Z }.

(** [Request.__init__]; [num_inputs] is the length of [multi_modal_inputs]. *)
Definition make_request (request_id : string) (prompt_token_ids : list Z) (num_inputs : nat)
    (multi_modal_hashes : list (option string)) (multi_modal_placeholders : list (Z * Z))
    (sampling_params : option SamplingParams) (pooling_params : bool) (eos_token_id : option Z)
    (client_index : Z) (arrival_time : Q) (lora_request : option Z) (cache_salt : option string) (priority : Z) :
    res Request :=
  let guided := match sampling_params with Some sp => guided_decoding sp | None => false end in
  let status := if guided then WAITING_FOR_FSM else WAITING in
  let! max_tokens :=
    if pooling_params then Ok 1
    else match sampling_params with
         | Some sp => match sp_max_tokens sp with Some n => Ok n | None => Raise AssertionError end
         | None => Raise ValueError
         end in
  py_assert (num_inputs =? length multi_modal_placeholders)%nat ;;!
  py_assert (match multi_modal_hashes with [] => true | _ => (num_inputs =? length multi_modal_hashes)%nat end) ;;!
  Ok {| request_id := request_id; client_index := client_index; priority := priority; arrival_time := arrival_time;
        sampling_params := sampling_params; pooling_params := pooling_params; eos_token_id := eos_token_id;
        lora_request := lora_request; cache_salt := cache_salt; max_tokens := max_tokens;
        prompt_token_ids := prompt_token_ids; mm_positions := multi_modal_placeholders;
        mm_hashes := multi_modal_hashes; status := status; stop_reason := None; output_token_ids := [];
        all_token_ids := prompt_token_ids; spec_token_ids := []; num_computed_tokens := 0;
        num_output_placeholders := 0; num_cached_tokens := -1 |}.

(** ** Assignments to the mutable fields *)

Definition assign (r : Request) (st : RequestStatus) (reason : option Z) (out all spec : list Z)
    (computed placeholders cached : Z) : Request :=
  {| request_id := request_id r; client_index := client_index r; priority := priority r;
     arrival_time := arrival_time r; sampling_params := sampling_params r; pooling_params := pooling_params r;
     eos_token_id := eos_token_id r; lora_request := lora_request r; cache_salt := cache_salt r;
     max_tokens := max_tokens r; prompt_token_ids := prompt_token_ids r; mm_positions := mm_positions r;
     mm_hashes := mm_hashes r; status := st; stop_reason := reason; output_token_ids := out; all_token_ids := all;
     spec_token_ids := spec; num_computed_tokens := computed; num_output_placeholders := placeholders;
     num_cached_tokens := cached |}.
Definition set_status (r : Request) (st : RequestStatus) : Request :=
  assign r st (stop_reason r) (output_token_ids r) (all_token_ids r) (spec_token_ids r) (num_computed_tokens r)
    (num_output_placeholders r) (num_cached_tokens r).
Definition set_stop_reason (r : Request) (t : option Z) : Request :=
  assign r (status r) t (output_token_ids r) (all_token_ids r) (spec_token_ids r) (num_computed_tokens r)
    (num_output_placeholders r) (num_cached_tokens r).
Definition set_spec_token_ids (r : Request) (l : list Z) : Request :=
  assign r (status r) (stop_reason r) (output_token_ids r) (all_token_ids r) l (num_computed_tokens r)
    (num_output_placeholders r) (num_cached_tokens r).
Definition set_num_computed_tokens (r : Request) (n : Z) : Request :=
  assign r (status r) (stop_reason r) (output_token_ids r) (all_token_ids r) (spec_token_ids r) n
    (num_output_placeholders r) (num_cached_tokens r).
Definition set_num_output_placeholders (r : Request) (n : Z) : Request :=
  assign r (status r) (stop_reason r) (output_token_ids r) (all_token_ids r) (spec_token_ids r)
    (num_computed_tokens r) n (num_cached_tokens r).
Definition set_num_cached_tokens (r : Request) (n : Z) : Request :=
  assign r (status r) (stop_reason r) (output_token_ids r) (all_token_ids r) (spec_token_ids r)
    (num_computed_tokens r) (num_output_placeholders r) n.

(** [append_output_token_ids] *)
Definition append_output_token_ids (r : Request) (token_ids : list Z) : Request :=
  assign r (status r) (stop_reason r) (output_token_ids r ++ token_ids) (all_token_ids r ++ token_ids)
    (spec_token_ids r) (num_computed_tokens r) (num_output_placeholders r) (num_cached_tokens r).

(** ** Properties of the class *)

Definition num_prompt_tokens (r : Request) : Z := Z.of_nat (length (prompt_token_ids r)).
Definition num_tokens (r : Request) : Z := Z.of_nat (length (all_token_ids r)).
Definition num_tokens_with_spec (r : Request) : Z :=
  Z.of_nat (length (all_token_ids r)) + Z.of_nat (length (spec_token_ids r)).
Definition num_output_tokens (r : Request) : Z := Z.of_nat (length (output_token_ids r)).
(** The constructor checks that there is one placeholder per input. *)
Definition has_encoder_inputs (r : Request) : bool := negb (length (mm_positions r) =? 0)%nat.
Definition is_finished (r : Request) : bool := status_is_finished (status r).
Definition get_num_encoder_tokens (r : Request) (input_id : Z) : res Z :=
  py_assert (input_id <? Z.of_nat (length (mm_positions r))) ;;!
  (let! pos := py_nth (mm_positions r) input_id in Ok (snd pos)).
Definition use_structured_output (r : Request) : bool :=
  match sampling_params r with Some sp => guided_decoding sp | None => false end.

(** ** Invariant *)

(** All tokens are the prompt followed by the output. *)
Definition tokens_ok (r : Request) : Prop := all_token_ids r = prompt_token_ids r ++ output_token_ids r.

Lemma append_tokens_wf r l : tokens_ok r -> tokens_ok (append_output_token_ids r l).
Proof. unfold tokens_ok. cbn. intros ->. by rewrite app_assoc. Qed.
Lemma make_request_ok id prompt k hs ps sp pool eos c t lora salt prio r :
  make_request id prompt k hs ps sp pool eos c t lora salt prio = Ok r ->
  tokens_ok r /\ is_finished r = false /\ num_tokens r = Z.of_nat (length prompt) /\ length (mm_positions r) = k /\
  (mm_hashes r <> [] -> length (mm_positions r) = length (mm_hashes r)).
Proof.
  unfold make_request. intros H. inv_res H. subst r. unfold tokens_ok. cbn. rewrite app_nil_r.
  apply Nat.eqb_eq in H1. split; [done|]. split; [by destruct sp as [[? ? ? ? []]|]|]. split; [done|]. split; [done|].
  intros Hne. destruct hs; [done|]. apply Nat.eqb_eq in H2. congruence.
Qed.

Lemma num_tokens_append r l : num_tokens (append_output_token_ids r l) = num_tokens r + Z.of_nat (length l).
Proof. unfold num_tokens. cbn. rewrite length_app. lia. Qed.

(** The default sampling parameters and a text request. *)
Definition default_sampling : SamplingParams :=
  {| sp_max_tokens := Some 16; ignore_eos := false; stop_token_ids := None; prompt_logprobs := None;
     guided_decoding := false; sp_temperature := 1; sp_top_p := 1; sp_top_k := 0; sp_min_p := 0; sp_frequency_penalty := 0;
     sp_presence_penalty := 0; sp_repetition_penalty := 1; sp_seed := None; sp_logprobs := None; sp_min_tokens := 0;
     sp_all_stop_token_ids := []; sp_logit_bias := []; sp_allowed_token_ids := [];
     sp_bad_words_token_ids := [] |}.
Definition keyed_request (id : string) (l : list Z) (positions : list (Z * Z)) (hashes : list (option string))
    (lora : option Z) (salt : option string) : Request :=
  {| request_id := id; client_index := 0; priority := 0; arrival_time := 0; sampling_params := Some default_sampling;
     pooling_params := false; eos_token_id := None; lora_request := lora; cache_salt := salt; max_tokens := 16;
     prompt_token_ids := l; mm_positions := positions; mm_hashes := hashes; status := WAITING; stop_reason := None;
     output_token_ids := []; all_token_ids := l; spec_token_ids := []; num_computed_tokens := 0;
     num_output_placeholders := 0; num_cached_tokens := -1 |}.
Lemma keyed_request_made id l ps hs lora salt :
  (match hs with [] => true | _ => (length ps =? length hs)%nat end) = true ->
  make_request id l (length ps) hs ps (Some default_sampling) false None 0 0 lora salt 0
    = Ok (keyed_request id l ps hs lora salt).
Proof. intros H. unfold make_request. cbn. rewrite Nat.eqb_refl, H. done. Qed.
