(* ===== verification/BlockHash.v ===== *)
(** * Hashes of prefix blocks ([v1/core/kv_cache_utils.py])

    The chain of block hashes that prefix caching compares, with its extra keys
    (LoRA id, multi-modal inputs, cache salt), and what equal hashes say about
    the tokens. *)

From stdpp Require Import base countable strings list.
From Stdlib Require Import ZArith Lia.
From S2P Require Import Prelude Request.
Open Scope string_scope.
Open Scope list_scope.
Open Scope Z_scope.

(** A member of the extra keys tuple. *)
Inductive ExtraKey : Set := KInt (z : Z) | KStr (s : string).
#[export] Instance ExtraKey_eq_dec : EqDecision ExtraKey.
Proof. solve_decision. Defined.
#[export] Instance ExtraKey_countable : Countable ExtraKey.
Proof.
  apply (inj_countable' (fun k => match k with KInt z => inl z | KStr s => inr s end)
                        (fun k => match k with inl z => KInt z | inr s => KStr s end)).
  by intros [].
Defined.

Record BlockHash : Type := {
  hash_value : Z;
  token_ids : list Z;
  extra_keys : option (list ExtraKey) }.
#[export] Instance BlockHash_eq_dec : EqDecision BlockHash.
Proof. solve_decision. Defined.
#[export] Instance BlockHash_countable : Countable BlockHash.
Proof.
  apply (inj_countable' (fun h => (hash_value h, token_ids h, extra_keys h))
                        (fun '(v, t, k) => {| hash_value := v; token_ids := t; extra_keys := k |})).
  by intros [].
Defined.

(** [BlockHashWithGroupId] and its [get_hash_value]. *)
Record BlockHashWithGroupId : Type := { block_hash_of : BlockHash; group_id : Z }.
Definition get_hash_value (h : BlockHashWithGroupId) : Z := hash_value (block_hash_of h).
#[export] Instance BlockHashWithGroupId_eq_dec : EqDecision BlockHashWithGroupId.
Proof. solve_decision. Defined.
#[export] Instance BlockHashWithGroupId_countable : Countable BlockHashWithGroupId.
Proof.
  apply (inj_countable' (fun h => (block_hash_of h, group_id h))
                        (fun '(b, g) => {| block_hash_of := b; group_id := g |})).
  by intros [].
Defined.

(** [need_extra_keys] *)
Definition need_extra_keys (request : Request) : bool :=
  match mm_hashes request with [] => false | _ => true end
  || match lora_request request with Some _ => true | None => false end
  || match cache_salt request with Some _ => true | None => false end.

(** The loop of [_gen_mm_extra_hash_keys] over the inputs from [curr_mm_idx]. *)
Fixpoint mm_loop (items : list ((Z * Z) * option string)) (start_token_idx end_token_idx curr_mm_idx : Z) :
    res (list ExtraKey * Z) :=
  match items with
  | [] => Ok ([], curr_mm_idx)
  | ((offset, length), h) :: items =>
      match h with
      | None => Raise AssertionError
      | Some h =>
          if offset <? end_token_idx then
            if offset + length <? start_token_idx then
              mm_loop items start_token_idx end_token_idx (curr_mm_idx + 1)
            else if offset + length <=? end_token_idx then
              let! '(ks, i) := mm_loop items start_token_idx end_token_idx (curr_mm_idx + 1) in
              Ok (KStr h :: ks, i)
            else Ok ([KStr h], curr_mm_idx)
          else Ok ([], curr_mm_idx)
      end
  end.

Definition _gen_mm_extra_hash_keys (request : Request) (start_token_idx end_token_idx start_mm_idx : Z) :
    res (list ExtraKey * Z) :=
  match List.rev (mm_positions request) with
  | [] => Ok ([], start_mm_idx)
  | (last_offset, last_length) :: _ =>
      let n := Z.of_nat (length (mm_positions request)) in
      if negb (length (mm_positions request) =? length (mm_hashes request))%nat then Raise ValueError
      else if last_offset + last_length <? start_token_idx then Ok ([], start_mm_idx)
      else
        let! i := (if start_mm_idx <? 0
                   then py_assert (- start_mm_idx <=? n) ;;! Ok (n + start_mm_idx)
                   else Ok start_mm_idx) in
        mm_loop (drop (Z.to_nat i) (zip (mm_positions request) (mm_hashes request)))
          start_token_idx end_token_idx i
  end.

Definition _gen_lora_extra_hash_keys (request : Request) : list ExtraKey :=
  match lora_request request with None => [] | Some lora_int_id => [KInt lora_int_id] end.

Definition generate_block_hash_extra_keys (request : Request) (start_token_idx end_token_idx start_mm_idx : Z) :
    res (option (list ExtraKey) * Z) :=
  let! '(mm_extra_keys, new_start_mm_idx) :=
    _gen_mm_extra_hash_keys request start_token_idx end_token_idx start_mm_idx in
  let cache_salt_keys :=
    match cache_salt request with
    | Some s => if (start_token_idx =? 0) && negb (String.eqb s "") then [KStr s] else []
    | None => []
    end in
  let extra := _gen_lora_extra_hash_keys request ++ mm_extra_keys ++ cache_salt_keys in
  Ok (match extra with [] => None | _ => Some extra end, new_start_mm_idx).

Section hashing.
(** The hash function (Python's [hash] or SHA-256) and the value drawn for
    [NONE_HASH]. *)
Context (hash_function : Z * list Z * option (list ExtraKey) -> Z) (NONE_HASH : Z).

(** [hash_block_tokens]; a parent hash of 0 is falsy. *)
Definition hash_block_tokens (parent_block_hash : option Z) (curr_block_token_ids : list Z)
    (extra : option (list ExtraKey)) : BlockHash :=
  let parent := match parent_block_hash with
                | Some h => if h =? 0 then NONE_HASH else h
                | None => NONE_HASH
                end in
  {| hash_value := hash_function (parent, curr_block_token_ids, extra);
     token_ids := curr_block_token_ids;
     extra_keys := extra |}.

(** The starts of [range(0, stop, step)]. *)
Definition range_starts (stop step : Z) : res (list Z) :=
  if step =? 0 then Raise ValueError
  else if step <? 0 then Ok (map (fun i => Z.of_nat i * step) (seq 0 (Z.to_nat (cdiv (- stop) (- step)))))
  else Ok (map (fun i => Z.of_nat i * step) (seq 0 (Z.to_nat (cdiv stop step)))).

(** The loop of [hash_request_tokens]. *)
Fixpoint hash_loop (block_size : Z) (request : Request) (starts : list Z)
    (parent_block_hash_value : option Z) (curr_mm_idx : Z) : res (list BlockHash) :=
  match starts with
  | [] => Ok []
  | start :: starts =>
      let end_ := start + block_size in
      let block_token_ids := py_slice (all_token_ids request) start end_ in
      let! '(req_extra_keys, curr_mm_idx) :=
        (if need_extra_keys request
         then generate_block_hash_extra_keys request start end_ curr_mm_idx
         else Ok (None, curr_mm_idx)) in
      let block_hash := hash_block_tokens parent_block_hash_value block_token_ids req_extra_keys in
      let! ret := hash_loop block_size request starts (Some (hash_value block_hash)) curr_mm_idx in
      Ok (block_hash :: ret)
  end.
Definition hash_request_tokens (block_size : Z) (request : Request) : res (list BlockHash) :=
  let! starts := range_starts (Z.of_nat (length (all_token_ids request)) - block_size + 1) block_size in
  hash_loop block_size request starts None 0.
End hashing.

(** ** Totality *)

(** The sanity check of [Request.__init__], with every input hashed. *)
Definition mm_hashed (r : Request) : Prop :=
  length (mm_positions r) = length (mm_hashes r) /\ Forall is_Some (mm_hashes r).

Lemma mm_loop_total items s e i :
  Forall (fun it => is_Some (snd it)) items -> exists ks j, mm_loop items s e i = Ok (ks, j) /\ i <= j.
Proof.
  intros H. revert i. induction H as [|[[o l] h] items [k Hk] _ IH]; intros i; cbn [mm_loop].
  - exists [], i. split; [done|lia].
  - cbn in Hk. subst h. destruct (o <? e); [|exists [], i; split; [done|lia]].
    destruct (IH (i + 1)) as (ks & j & Hj & Hle).
    destruct (o + l <? s); [exists ks, j; split; [done|lia]|].
    destruct (o + l <=? e); [|exists [KStr k], i; split; [done|lia]].
    rewrite Hj. exists (KStr k :: ks), j. split; [done|lia].
Qed.

Lemma generate_keys_total r s e i :
  mm_hashed r -> 0 <= i -> exists ks j, generate_block_hash_extra_keys r s e i = Ok (ks, j) /\ 0 <= j.
Proof.
  intros [Hlen Hall] Hi. unfold generate_block_hash_extra_keys, _gen_mm_extra_hash_keys.
  destruct (List.rev (mm_positions r)) as [|[lo ll] ?]; [cbn; eauto|].
  rewrite Hlen, Nat.eqb_refl. cbn [negb]. destruct (lo + ll <? s); [cbn; eauto|].
  rewrite (proj2 (Z.ltb_ge i 0)) by done. cbn [bind].
  destruct (mm_loop_total (drop (Z.to_nat i) (zip (mm_positions r) (mm_hashes r))) s e i) as (ks & j & -> & Hj).
  { apply Forall_drop, Forall_forall. intros [p h] Hin. apply elem_of_zip_r in Hin.
    rewrite Forall_forall in Hall. by apply Hall. }
  cbn. eexists _, j. split; [done|lia].
Qed.

(** Starting from the last input. *)
Lemma generate_keys_last r s e :
  mm_hashed r -> exists ks j, generate_block_hash_extra_keys r s e (-1) = Ok (ks, j).
Proof.
  intros [Hlen Hall]. unfold generate_block_hash_extra_keys, _gen_mm_extra_hash_keys.
  destruct (List.rev (mm_positions r)) as [|[lo ll] ?] eqn:Hrev; [cbn; eauto|].
  rewrite Hlen, Nat.eqb_refl. cbn [negb]. destruct (lo + ll <? s); [cbn; eauto|].
  assert (Hn : (0 < length (mm_hashes r))%nat) by (rewrite <-Hlen, <-length_rev, Hrev; cbn; lia).
  cbn [Z.ltb Z.compare Z.opp]. rewrite (proj2 (Z.leb_le _ _)) by lia. cbn [py_assert bind].
  destruct (mm_loop_total (drop (Z.to_nat (Z.of_nat (length (mm_hashes r)) + -1)) (zip (mm_positions r) (mm_hashes r))) s e
              (Z.of_nat (length (mm_hashes r)) + -1)) as (ks & j & -> & _).
  { apply Forall_drop, Forall_forall. intros [p h] Hin. apply elem_of_zip_r in Hin.
    rewrite Forall_forall in Hall. by apply Hall. }
  cbn. eauto.
Qed.

Section chain.
Context (hash_function : Z * list Z * option (list ExtraKey) -> Z) (NONE_HASH : Z).
Let hash_loop := hash_loop hash_function NONE_HASH.
Let hash_block_tokens := hash_block_tokens hash_function NONE_HASH.
Let hash_request_tokens := hash_request_tokens hash_function NONE_HASH.

Lemma hash_loop_total bs r starts parent i :
  mm_hashed r -> 0 <= i -> exists hs, hash_loop bs r starts parent i = Ok hs.
Proof.
  intros Hr. revert parent i. induction starts as [|s starts IH]; intros parent i Hi; [by exists []|].
  unfold hash_loop. cbn [BlockHash.hash_loop]. destruct (need_extra_keys r).
  - destruct (generate_keys_total r s (s + bs) i Hr Hi) as (ks & j & -> & Hj). cbn [bind].
    edestruct IH as [hs Hhs]; [exact Hj|]. unfold hash_loop in Hhs. rewrite Hhs. cbn. eauto.
  - cbn [bind]. edestruct IH as [hs Hhs]; [exact Hi|]. unfold hash_loop in Hhs. rewrite Hhs. cbn. eauto.
Qed.

(** Hash [j] covers block [i0 + j] and chains to its predecessor. *)
Lemma hash_loop_spec bs r m i0 parent i hs :
  hash_loop bs r (map (fun i => Z.of_nat i * bs) (seq i0 m)) parent i = Ok hs ->
  length hs = m /\
  forall j h, hs !! j = Some h ->
    h = hash_block_tokens (match j with 0%nat => parent | S j => hash_value <$> hs !! j end)
          (py_slice (all_token_ids r) (Z.of_nat (i0 + j) * bs) (Z.of_nat (i0 + j) * bs + bs)) (extra_keys h).
Proof.
  revert i0 parent i hs. induction m as [|m IH]; intros i0 parent i hs; cbn [seq map].
  { intros [= <-]. split; [done|]. intros j h Hj. by rewrite lookup_nil in Hj. }
  unfold hash_loop. cbn [BlockHash.hash_loop].
  destruct (if need_extra_keys r then _ else _) as [[ks i']|e]; [|done]. cbn [bind].
  destruct (BlockHash.hash_loop _ _ _ _ _ _ _) as [rest|e] eqn:Hrest; [|done]. cbn [bind]. intros [= <-].
  destruct (IH _ _ _ _ Hrest) as [Hlen Hspec]. split; [cbn; by rewrite Hlen|].
  intros [|j] h Hj.
  - injection Hj as <-. by rewrite Nat.add_0_r.
  - cbn in Hj. specialize (Hspec j h Hj). rewrite Hspec at 1. replace (i0 + S j)%nat with (S i0 + j)%nat by lia.
    f_equal. by destruct j.
Qed.

Lemma hash_request_spec bs r hs :
  0 < bs -> hash_request_tokens bs r = Ok hs ->
  length hs = Z.to_nat (Z.of_nat (length (all_token_ids r)) / bs) /\
  forall j h, hs !! j = Some h ->
    h = hash_block_tokens (match j with 0%nat => None | S j => hash_value <$> hs !! j end)
          (take (Z.to_nat bs) (drop (j * Z.to_nat bs) (all_token_ids r))) (extra_keys h).
Proof.
  intros Hbs. unfold hash_request_tokens, BlockHash.hash_request_tokens, range_starts.
  destruct (Z.eqb_spec bs 0); [lia|]. destruct (Z.ltb_spec bs 0); [lia|]. cbn [bind]. intros Hhs.
  apply hash_loop_spec in Hhs as [Hlen Hspec]. set (len := Z.of_nat (length (all_token_ids r))) in *.
  assert (Hc : cdiv (len - bs + 1) bs = len / bs).
  { apply cdiv_unique; [done|]. pose proof (Z.div_mod len bs). pose proof (Z.mod_pos_bound len bs). lia. }
  rewrite Hc in Hlen. split; [done|]. intros j h Hj. rewrite (Hspec j h Hj) at 1. f_equal. cbn [Nat.add].
  assert (Hj' : Z.of_nat j < len / bs) by (apply lookup_lt_Some in Hj; lia).
  pose proof (Z.mul_div_le len bs Hbs).
  replace (Z.of_nat j * bs) with (Z.of_nat (j * Z.to_nat bs)) by lia.
  replace (Z.of_nat (j * Z.to_nat bs) + bs) with (Z.of_nat (j * Z.to_nat bs + Z.to_nat bs)) by lia.
  rewrite py_slice_drop_take by nia. f_equal. lia.
Qed.
End chain.

(** ** What equal hashes mean *)

Lemma take_next {A} (l : list A) i n : take (S i * n) l = take (i * n) l ++ take n (drop (i * n) l).
Proof. replace (S i * n)%nat with (i * n + n)%nat by lia. rewrite <-(take_drop (i * n) (take (i * n + n) l)).
  rewrite take_take, Nat.min_l by lia. f_equal. rewrite skipn_firstn_comm. f_equal. lia. Qed.

Section collision_free.
Context (hash_function : Z * list Z * option (list ExtraKey) -> Z) (NONE_HASH : Z).
Context (Hinj : forall a b, hash_function a = hash_function b -> a = b).
Context (Hnonzero : forall a, hash_function a <> 0) (Hnone : forall a, hash_function a <> NONE_HASH).
Context (bs : Z) (Hbs : 0 < bs).

Lemma chain_sound r1 r2 hs1 hs2 i k h :
  hash_request_tokens hash_function NONE_HASH bs r1 = Ok hs1 ->
  hash_request_tokens hash_function NONE_HASH bs r2 = Ok hs2 ->
  hs1 !! i = Some h -> hs2 !! k = Some h ->
  i = k /\ take (S i) hs1 = take (S i) hs2 /\
  take (S i * Z.to_nat bs) (all_token_ids r1) = take (S i * Z.to_nat bs) (all_token_ids r2).
Proof.
  intros H1 H2. destruct (hash_request_spec _ _ _ _ _ Hbs H1) as [_ S1].
  destruct (hash_request_spec _ _ _ _ _ Hbs H2) as [_ S2].
  assert (V1 : forall j g, hs1 !! j = Some g -> hash_value g <> 0 /\ hash_value g <> NONE_HASH)
    by (intros j g Hg; rewrite (S1 _ _ Hg); cbn; auto).
  assert (V2 : forall j g, hs2 !! j = Some g -> hash_value g <> 0 /\ hash_value g <> NONE_HASH)
    by (intros j g Hg; rewrite (S2 _ _ Hg); cbn; auto).
  revert k h. induction i as [|i IH]; intros k h Hi Hk.
  all: pose proof (S1 _ _ Hi) as E1; pose proof (S2 _ _ Hk) as E2.
  all: assert (Htok1 : take (Z.to_nat bs) (drop (_ * Z.to_nat bs) (all_token_ids r1)) = token_ids h) by (rewrite E1; done).
  all: assert (Htok2 : take (Z.to_nat bs) (drop (k * Z.to_nat bs) (all_token_ids r2)) = token_ids h) by (rewrite E2; done).
  all: pose proof (f_equal hash_value E1) as P; rewrite (f_equal hash_value E2) in P; apply Hinj in P;
    apply (f_equal (fun t => fst (fst t))) in P; cbn [fst] in P; clear E1 E2.
  - assert (k = 0%nat) as ->.
    { destruct k as [|k]; [done|]. destruct (lookup_lt_is_Some_2 hs2 k) as [p Hp]; [apply lookup_lt_Some in Hk; lia|].
      rewrite Hp in P. cbn in P. destruct (V2 _ _ Hp). destruct (Z.eqb_spec (hash_value p) 0); tauto. }
    split; [done|]. split.
    + by rewrite (take_S_r _ _ _ Hi), (take_S_r _ _ _ Hk).
    + rewrite (take_next _ 0), (take_next (all_token_ids r2) 0). by rewrite Htok1, Htok2.
  - destruct (lookup_lt_is_Some_2 hs1 i) as [p1 Hp1]; [apply lookup_lt_Some in Hi; lia|]. rewrite Hp1 in P. cbn in P.
    destruct (V1 _ _ Hp1) as [Z1 N1]. destruct (Z.eqb_spec (hash_value p1) 0) as [?|_]; [tauto|].
    destruct k as [|k]; [by symmetry in P|].
    destruct (lookup_lt_is_Some_2 hs2 k) as [p2 Hp2]; [apply lookup_lt_Some in Hk; lia|]. rewrite Hp2 in P. cbn in P.
    destruct (V2 _ _ Hp2) as [Z2 N2]. destruct (Z.eqb_spec (hash_value p2) 0) as [?|_]; [tauto|].
    assert (p1 = p2) as <-.
    { pose proof (S1 _ _ Hp1) as F1. pose proof (S2 _ _ Hp2) as F2.
      pose proof (f_equal hash_value F1) as Q. rewrite <-P, (f_equal hash_value F2) in Q. apply Hinj in Q.
      pose proof (f_equal (fun t => snd (fst t)) Q) as Qt. pose proof (f_equal snd Q) as Qx. cbn in Qt, Qx.
      apply (f_equal token_ids) in F1, F2. cbn in F1, F2.
      assert (Ht : token_ids p1 = token_ids p2) by congruence. clear - P Ht Qx. destruct p1, p2. cbn in *. congruence. }
    destruct (IH k p1 Hp1 Hp2) as (<- & Hpre & Htoks). split; [done|]. split.
    + rewrite (take_S_r _ _ _ Hi), (take_S_r _ _ _ Hk). by rewrite Hpre.
    + rewrite (take_next _ (S i)), (take_next (all_token_ids r2) (S i)), Htoks, Htok1, Htok2. done.
Qed.
End collision_free.

(** The inputs of the extra keys. *)
Definition same_keys (r1 r2 : Request) : Prop :=
  mm_positions r1 = mm_positions r2 /\ mm_hashes r1 = mm_hashes r2 /\
  lora_request r1 = lora_request r2 /\ cache_salt r1 = cache_salt r2.

Section agree.
Context (hash_function : Z * list Z * option (list ExtraKey) -> Z) (NONE_HASH : Z) (bs : Z).

Lemma same_keys_generate r1 r2 s e i :
  same_keys r1 r2 -> generate_block_hash_extra_keys r1 s e i = generate_block_hash_extra_keys r2 s e i.
Proof.
  intros (H1 & H2 & H3 & H4). unfold generate_block_hash_extra_keys, _gen_mm_extra_hash_keys,
    _gen_lora_extra_hash_keys. by rewrite H1, H2, H3, H4.
Qed.

Lemma hash_loop_agree r1 r2 starts1 starts2 common p i hs1 hs2 :
  same_keys r1 r2 ->
  Forall (fun s => py_slice (all_token_ids r1) s (s + bs) = py_slice (all_token_ids r2) s (s + bs)) common ->
  hash_loop hash_function NONE_HASH bs r1 (common ++ starts1) p i = Ok hs1 ->
  hash_loop hash_function NONE_HASH bs r2 (common ++ starts2) p i = Ok hs2 ->
  take (length common) hs1 = take (length common) hs2.
Proof.
  intros Hk Hc. revert p i hs1 hs2. induction Hc as [|s common Hs Hc IH]; intros p i hs1 hs2; [done|].
  cbn [app hash_loop length]. rewrite Hs.
  assert (need_extra_keys r1 = need_extra_keys r2) as ->
    by (destruct Hk as (_ & H2 & H3 & H4); unfold need_extra_keys; by rewrite H2, H3, H4).
  rewrite (same_keys_generate r1 r2) by done.
  destruct (if need_extra_keys r2 then _ else _) as [[ks i']|e]; [|done]. cbn [bind].
  destruct (hash_loop _ _ _ r1 _ _ _) as [t1|e] eqn:E1; [|done].
  destruct (hash_loop _ _ _ r2 _ _ _) as [t2|e] eqn:E2; [|done]. cbn [bind]. intros [= <-] [= <-].
  cbn [take]. f_equal. by eapply IH.
Qed.

Lemma range_starts_spec len :
  0 < bs -> range_starts (Z.of_nat len - bs + 1) bs = Ok (map (fun i => Z.of_nat i * bs) (seq 0 (len / Z.to_nat bs))).
Proof.
  intros Hbs. unfold range_starts. destruct (Z.eqb_spec bs 0); [lia|]. destruct (Z.ltb_spec bs 0); [lia|].
  do 3 f_equal. assert (cdiv (Z.of_nat len - bs + 1) bs = Z.of_nat len / bs) as ->.
  { apply cdiv_unique; [done|]. pose proof (Z.div_mod (Z.of_nat len) bs). pose proof (Z.mod_pos_bound (Z.of_nat len) bs). lia. }
  rewrite <-(Z2Nat.id bs) at 1 by lia. by rewrite <-Nat2Z.inj_div, Nat2Z.id.
Qed.

Lemma chain_complete r1 r2 hs1 hs2 n :
  0 < bs -> same_keys r1 r2 ->
  hash_request_tokens hash_function NONE_HASH bs r1 = Ok hs1 ->
  hash_request_tokens hash_function NONE_HASH bs r2 = Ok hs2 ->
  (n * Z.to_nat bs <= length (all_token_ids r1))%nat -> (n * Z.to_nat bs <= length (all_token_ids r2))%nat ->
  take (n * Z.to_nat bs) (all_token_ids r1) = take (n * Z.to_nat bs) (all_token_ids r2) ->
  take n hs1 = take n hs2 /\ (n <= length hs1)%nat.
Proof.
  intros Hbs Hk E1 E2 Hl1 Hl2 Htok.
  pose proof (proj1 (hash_request_spec _ _ _ _ _ Hbs E1)) as Hlen1.
  assert (Hn : forall r, (n * Z.to_nat bs <= length (all_token_ids r))%nat ->
             (n <= length (all_token_ids r) / Z.to_nat bs)%nat)
    by (intros r Hr; apply Nat.div_le_lower_bound; lia).
  assert (Hsplit : forall r, (n * Z.to_nat bs <= length (all_token_ids r))%nat -> exists rest,
    map (fun i => Z.of_nat i * bs) (seq 0 (length (all_token_ids r) / Z.to_nat bs)) =
    map (fun i => Z.of_nat i * bs) (seq 0 n) ++ rest).
  { intros r Hr. exists (map (fun i => Z.of_nat i * bs) (seq n (length (all_token_ids r) / Z.to_nat bs - n))).
    rewrite <-map_app. f_equal. rewrite <-seq_app. f_equal. specialize (Hn r Hr). lia. }
  unfold hash_request_tokens in E1, E2. rewrite range_starts_spec in E1, E2 by done. cbn [bind] in E1, E2.
  destruct (Hsplit r1 Hl1) as [rest1 S1]. destruct (Hsplit r2 Hl2) as [rest2 S2]. rewrite S1 in E1. rewrite S2 in E2.
  split.
  - assert (Hlm : length (map (fun i => Z.of_nat i * bs) (seq 0 n)) = n) by (by rewrite length_map, length_seq).
    enough (Hag : take (length (map (fun i => Z.of_nat i * bs) (seq 0 n))) hs1 =
                  take (length (map (fun i => Z.of_nat i * bs) (seq 0 n))) hs2) by (by rewrite Hlm in Hag).
    eapply hash_loop_agree; [done| |exact E1|exact E2].
    apply Forall_forall. intros s (j & -> & Hj%elem_of_seq)%list_elem_of_fmap.
    replace (Z.of_nat j * bs) with (Z.of_nat (j * Z.to_nat bs)) by lia.
    replace (Z.of_nat (j * Z.to_nat bs) + bs) with (Z.of_nat (j * Z.to_nat bs + Z.to_nat bs)) by lia.
    rewrite !py_slice_drop_take by nia.
    replace (j * Z.to_nat bs + Z.to_nat bs - j * Z.to_nat bs)%nat with (Z.to_nat bs) by lia.
    assert (Ht : forall r, take (Z.to_nat bs) (drop (j * Z.to_nat bs) (all_token_ids r)) =
              take (Z.to_nat bs) (drop (j * Z.to_nat bs) (take (n * Z.to_nat bs) (all_token_ids r)))).
    { intros r. rewrite skipn_firstn_comm, take_take. f_equal. nia. }
    by rewrite Ht, Htok, <-Ht.
  - rewrite Hlen1. specialize (Hn r1 Hl1). rewrite <-(Nat2Z.id (length _ / _)) in Hn. rewrite Nat2Z.inj_div, Z2Nat.id in Hn by lia.
    lia.
Qed.
End agree.

(** ** Main statements *)

(** Hashing a request: with a positive block size and every multi-modal
    input hashed, it succeeds and gives one hash per full block, each holding
    exactly the tokens of its block. *)
Theorem hash_request_tokens_ok hash_function NONE_HASH bs r :
  0 < bs -> mm_hashed r ->
  exists hs, hash_request_tokens hash_function NONE_HASH bs r = Ok hs /\
    Z.of_nat (length hs) = Z.of_nat (length (all_token_ids r)) / bs /\
    forall j h, hs !! j = Some h -> token_ids h = take (Z.to_nat bs) (drop (j * Z.to_nat bs) (all_token_ids r)).
Proof.
  intros Hbs Hr.
  assert (H : exists hs, hash_request_tokens hash_function NONE_HASH bs r = Ok hs).
  { unfold hash_request_tokens. rewrite range_starts_spec by done. by apply hash_loop_total. }
  destruct H as [hs Hhs]. exists hs. split; [done|].
  destruct (hash_request_spec _ _ _ _ _ Hbs Hhs) as [Hlen Hspec]. split.
  - rewrite Hlen. rewrite Z2Nat.id; [done|]. apply Z.div_pos; lia.
  - intros j h Hj. by rewrite (Hspec j h Hj).
Qed.

(** C37. Soundness of the prefix cache key: with a collision-free hash whose
    values are neither 0 nor the seed, two requests can only share a block hash
    at the same block index, and then all their hashes and all their tokens up to
    the end of that block agree. *)
Theorem prefix_hash_sound hash_function NONE_HASH bs r1 r2 hs1 hs2 i k h :
  (forall a b, hash_function a = hash_function b -> a = b) ->
  (forall a, hash_function a <> 0) -> (forall a, hash_function a <> NONE_HASH) -> 0 < bs ->
  hash_request_tokens hash_function NONE_HASH bs r1 = Ok hs1 ->
  hash_request_tokens hash_function NONE_HASH bs r2 = Ok hs2 ->
  hs1 !! i = Some h -> hs2 !! k = Some h ->
  i = k /\ take (S i) hs1 = take (S i) hs2 /\
  take (S i * Z.to_nat bs) (all_token_ids r1) = take (S i * Z.to_nat bs) (all_token_ids r2).
Proof. intros. by eapply chain_sound. Qed.

(** Completeness of the prefix cache key: requests with the same LoRA,
    multi-modal inputs and salt that share a prefix of whole blocks have the same
    hashes for these blocks, whatever the hash function and whatever follows. *)
Theorem prefix_hash_complete hash_function NONE_HASH bs r1 r2 hs1 hs2 n :
  0 < bs -> same_keys r1 r2 ->
  hash_request_tokens hash_function NONE_HASH bs r1 = Ok hs1 ->
  hash_request_tokens hash_function NONE_HASH bs r2 = Ok hs2 ->
  (n * Z.to_nat bs <= length (all_token_ids r1))%nat -> (n * Z.to_nat bs <= length (all_token_ids r2))%nat ->
  take (n * Z.to_nat bs) (all_token_ids r1) = take (n * Z.to_nat bs) (all_token_ids r2) ->
  take n hs1 = take n hs2 /\ (n <= length hs1)%nat.
Proof. apply chain_complete. Qed.

(** What the falsy test on the parent hash means: when the first block of a
    request hashes to 0, the hash of its second block does not depend on the
    first one; it is the hash of a request that starts with the second block. *)
Theorem zero_parent_forgets_prefix hash_function NONE_HASH bs id id' A B n :
  0 < bs -> Z.of_nat (length A) = bs -> Z.of_nat (length B) = bs ->
  hash_function (NONE_HASH, A, None) = 0 ->
  let plain i l := set_num_computed_tokens (keyed_request i l [] [] None None) n in
  exists h, hash_request_tokens hash_function NONE_HASH bs (plain id (A ++ B))
              = Ok [{| hash_value := 0; token_ids := A; extra_keys := None |}; h] /\
    hash_request_tokens hash_function NONE_HASH bs (plain id' B) = Ok [h].
Proof.
  intros Hbs HA HB H0 plain. exists {| hash_value := hash_function (NONE_HASH, B, None); token_ids := B; extra_keys := None |}.
  unfold hash_request_tokens. subst plain.
  cbn [set_num_computed_tokens assign keyed_request all_token_ids]. rewrite !range_starts_spec by done. rewrite length_app.
  replace ((length A + length B) / Z.to_nat bs)%nat with 2%nat by (apply (Nat.div_unique _ _ _ 0); lia).
  replace (length B / Z.to_nat bs)%nat with 1%nat by (apply (Nat.div_unique _ _ _ 0); lia).
  cbn [seq map bind hash_loop need_extra_keys set_num_computed_tokens assign keyed_request mm_hashes lora_request cache_salt orb hash_block_tokens hash_value all_token_ids].
  assert (E1 : py_slice (A ++ B) (Z.of_nat 0 * bs) (Z.of_nat 0 * bs + bs) = A).
  { replace (Z.of_nat 0 * bs + bs) with (Z.of_nat (length A)) by lia.
    change (Z.of_nat 0 * bs) with (Z.of_nat 0). rewrite py_slice_drop_take by (rewrite length_app; lia).
    by rewrite drop_0, Nat.sub_0_r, take_app_length. }
  assert (E2 : py_slice (A ++ B) (Z.of_nat 1 * bs) (Z.of_nat 1 * bs + bs) = B).
  { replace (Z.of_nat 1 * bs + bs) with (Z.of_nat (length A + length B)) by lia.
    replace (Z.of_nat 1 * bs) with (Z.of_nat (length A)) by lia. rewrite py_slice_drop_take by (rewrite length_app; lia).
    rewrite drop_app_length, take_ge by lia. done. }
  assert (E3 : py_slice B (Z.of_nat 0 * bs) (Z.of_nat 0 * bs + bs) = B).
  { replace (Z.of_nat 0 * bs + bs) with (Z.of_nat (length B)) by lia.
    change (Z.of_nat 0 * bs) with (Z.of_nat 0). rewrite py_slice_drop_take by lia.
    rewrite drop_0, Nat.sub_0_r, take_ge by lia. done. }
  rewrite E1, E2, E3. unfold hash_block_tokens. cbn [hash_value]. rewrite H0. done.
Qed.

(** ** Concrete inputs *)

(** A collision-free hash, and plain requests. *)
Definition coded_hash (t : Z * list Z * option (list ExtraKey)) : Z := Z.pos (encode t).
Definition plain_request (id : string) (l : list Z) : Request :=
  keyed_request id l [] [] None None.
Definition hashes_of (r : Request) : list BlockHash :=
  match hash_request_tokens coded_hash (-1) 2 r with Ok hs => hs | Raise _ => [] end.

Lemma coded_hash_inj a b : coded_hash a = coded_hash b -> a = b.
Proof. unfold coded_hash. intros [= H]. by apply (inj encode) in H. Qed.

Lemma hash_request_tokens_ok_witness :
  exists hs, hash_request_tokens coded_hash (-1) 2 (plain_request "a" [1; 2; 3; 4; 5]) = Ok hs /\
    Z.of_nat (length hs) = 2.
Proof.
  destruct (hash_request_tokens_ok coded_hash (-1) 2 (plain_request "a" [1; 2; 3; 4; 5])) as (hs & H & Hl & _);
    [lia|split; [reflexivity|constructor]|]. exists hs. split; [exact H|exact Hl].
Defined.

Lemma prefix_hash_sound_witness :
  take 2 [1; 2; 3; 4] = take 2 [1; 2; 9; 9; 9] /\
  exists h, hashes_of (plain_request "a" [1; 2; 3; 4]) !! 0%nat = Some h /\
            hashes_of (plain_request "b" [1; 2; 9; 9; 9]) !! 0%nat = Some h.
Proof.
  assert (H : exists h, hashes_of (plain_request "a" [1; 2; 3; 4]) !! 0%nat = Some h /\
            hashes_of (plain_request "b" [1; 2; 9; 9; 9]) !! 0%nat = Some h)
    by (eexists; split; vm_compute; reflexivity).
  split; [|exact H]. destruct H as (h & H1 & H2).
  destruct (prefix_hash_sound coded_hash (-1) 2 (plain_request "a" [1; 2; 3; 4]) (plain_request "b" [1; 2; 9; 9; 9])
              (hashes_of (plain_request "a" [1; 2; 3; 4])) (hashes_of (plain_request "b" [1; 2; 9; 9; 9])) 0 0 h
              coded_hash_inj) as (_ & _ & H); [discriminate|discriminate|lia|vm_compute; reflexivity|vm_compute; reflexivity|
              exact H1|exact H2|exact H].
Defined.

Lemma prefix_hash_complete_witness :
  take 1 (hashes_of (plain_request "a" [1; 2; 3; 4])) = take 1 (hashes_of (plain_request "b" [1; 2; 9; 9; 9])).
Proof.
  apply (prefix_hash_complete coded_hash (-1) 2 (plain_request "a" [1; 2; 3; 4]) (plain_request "b" [1; 2; 9; 9; 9])
           (hashes_of (plain_request "a" [1; 2; 3; 4])) (hashes_of (plain_request "b" [1; 2; 9; 9; 9])) 1).
  - lia.
  - repeat split.
  - vm_compute; reflexivity.
  - vm_compute; reflexivity.
  - cbn; lia.
  - cbn; lia.
  - reflexivity.
Defined.

Lemma zero_parent_forgets_prefix_witness :
  let hash t := if decide (t = (7, [1; 2], @None (list ExtraKey))) then 0 else 5 in
  exists h, hash_request_tokens hash 7 2 (plain_request "a" [1; 2; 3; 4])
      = Ok [{| hash_value := 0; token_ids := [1; 2]; extra_keys := None |}; h] /\
    hash_request_tokens hash 7 2 (plain_request "b" [3; 4]) = Ok [h].
Proof.
  intros hash. apply (zero_parent_forgets_prefix hash 7 2 "a" "b" [1; 2] [3; 4] 0); [lia|reflexivity|reflexivity|reflexivity].
Defined.

(** A multi-modal input of hash [s] in the first block and a cache salt [s] give
    the same extra keys, hence the same hash for the same tokens. *)
Example salt_equals_mm_hash s l :
  let mm := keyed_request "a" l [(0, 1)] [Some s] None None in
  let salted := keyed_request "b" l [] [] None (Some s) in
  s <> "" ->
  option_map fst (match generate_block_hash_extra_keys mm 0 2 0 with Ok r => Some r | Raise _ => None end) =
  option_map fst (match generate_block_hash_extra_keys salted 0 2 0 with Ok r => Some r | Raise _ => None end).
Proof.
  intros mm salted Hs. unfold generate_block_hash_extra_keys. cbn.
  destruct (String.eqb_spec s ""); [done|]. reflexivity.
Qed.

(** The keys of a block that is completed by generated tokens look only at
    the last multi-modal input: two requests that differ in the content of their
    earlier inputs get the same extra keys for it, although these inputs may lie
    in the block. *)
Theorem tail_block_last_input_only r1 r2 hs1 hs2 h s e :
  mm_positions r1 = mm_positions r2 -> lora_request r1 = lora_request r2 -> cache_salt r1 = cache_salt r2 ->
  mm_hashes r1 = hs1 ++ [h] -> mm_hashes r2 = hs2 ++ [h] -> length hs1 = length hs2 ->
  generate_block_hash_extra_keys r1 s e (-1) = generate_block_hash_extra_keys r2 s e (-1).
Proof.
  intros Hp Hl Hc H1 H2 Hlen. unfold generate_block_hash_extra_keys, _gen_lora_extra_hash_keys. rewrite Hl, Hc.
  assert (Hmm : _gen_mm_extra_hash_keys r1 s e (-1) = _gen_mm_extra_hash_keys r2 s e (-1)); [|by rewrite Hmm].
  unfold _gen_mm_extra_hash_keys. rewrite Hp, H1, H2, !length_app, Hlen.
  destruct (mm_positions r2) as [|p ps _] using rev_ind; [done|]. rewrite rev_app_distr. cbn [List.rev app].
  destruct p as [lo ll]. destruct (Nat.eqb_spec (length (ps ++ [(lo, ll)])) (length hs2 + length [h])) as [E|]; [|done].
  cbn [negb]. destruct (lo + ll <? s); [done|]. cbn [Z.ltb Z.compare Z.opp].
  destruct (- (-1) <=? Z.of_nat (length (ps ++ [(lo, ll)]))); [|reflexivity]. cbn [py_assert bind].
  rewrite !length_app in E. cbn [length] in E.
  replace (Z.to_nat (Z.of_nat (length (ps ++ [(lo, ll)])) + -1)) with (length ps) by (rewrite length_app; cbn; lia).
  rewrite !zip_with_app by lia.
  rewrite !drop_app_length' by (rewrite length_zip_with; lia). done.
Qed.

(** Two images of four tokens in a block of sixteen; only the first differs, and
    the full computation tells the requests apart. *)
Definition two_images (h1 : string) : Request :=
  keyed_request "r" (repeat 9 16) [(0, 4); (4, 4)] [Some h1; Some "same"] None None.
Lemma tail_block_last_input_only_witness :
  generate_block_hash_extra_keys (two_images "cat") 0 16 (-1) = generate_block_hash_extra_keys (two_images "dog") 0 16 (-1) /\
  generate_block_hash_extra_keys (two_images "cat") 0 16 0 <> generate_block_hash_extra_keys (two_images "dog") 0 16 0.
Proof.
  split; [|vm_compute; discriminate].
  apply (tail_block_last_input_only (two_images "cat") (two_images "dog") [Some "cat"] [Some "dog"] (Some "same") 0 16);
    reflexivity.
Defined.
