(* ===== verification/BlockPool.v ===== *)
(** * The block pool ([v1/core/block_pool.py])

    Reference counts, block hashes and the prefix cache over the free queue.
    The invariant [pool_inv p free held] ties the pool to the free list it
    represents and to the multiset [held] of references that callers hold. *)

From stdpp Require Import base functions gmap strings list.
From Stdlib Require Import ZArith Lia.
From S2P Require Import Prelude FreeQueue Request BlockHash.
Open Scope list_scope.
Open Scope Z_scope.

(** The KV cache events. *)
Inductive KVCacheEvent : Type :=
| BlockStored (block_hashes : list Z) (parent_block_hash : option Z) (token_ids : list Z)
    (block_size : Z) (lora_id : option Z)
| BlockRemoved (block_hashes : list Z)
| AllBlocksCleared.

(** The pool.  The block objects are references; their fields are functions of
    the reference.  The inner dictionary of the cache (block id to block) is the
    list of its blocks in insertion order. *)
Record BlockPool : Type := {
  num_gpu_blocks : Z;
  enable_caching : bool;
  free_block_queue : FreeQueue;
  ref_cnt : Ref -> Z;
  block_hash : Ref -> option BlockHashWithGroupId;
  is_null : Ref -> bool;
  cached_block_hash_to_block : gmap BlockHashWithGroupId (list Ref);
  null_block : Ref;
  enable_kv_cache_events : bool;
  kv_event_queue : list KVCacheEvent }.

Definition with_queue (p : BlockPool) (q : FreeQueue) : BlockPool :=
  {| num_gpu_blocks := num_gpu_blocks p; enable_caching := enable_caching p; free_block_queue := q;
     ref_cnt := ref_cnt p; block_hash := block_hash p; is_null := is_null p;
     cached_block_hash_to_block := cached_block_hash_to_block p; null_block := null_block p;
     enable_kv_cache_events := enable_kv_cache_events p; kv_event_queue := kv_event_queue p |}.
(** [block.ref_cnt += d] *)
Definition add_ref (p : BlockPool) (b : Ref) (d : Z) : BlockPool :=
  {| num_gpu_blocks := num_gpu_blocks p; enable_caching := enable_caching p;
     free_block_queue := free_block_queue p; ref_cnt := <[b := ref_cnt p b + d]> (ref_cnt p);
     block_hash := block_hash p; is_null := is_null p;
     cached_block_hash_to_block := cached_block_hash_to_block p; null_block := null_block p;
     enable_kv_cache_events := enable_kv_cache_events p; kv_event_queue := kv_event_queue p |}.
Definition with_cache (p : BlockPool) (h : Ref -> option BlockHashWithGroupId)
    (c : gmap BlockHashWithGroupId (list Ref)) : BlockPool :=
  {| num_gpu_blocks := num_gpu_blocks p; enable_caching := enable_caching p;
     free_block_queue := free_block_queue p; ref_cnt := ref_cnt p; block_hash := h; is_null := is_null p;
     cached_block_hash_to_block := c; null_block := null_block p;
     enable_kv_cache_events := enable_kv_cache_events p; kv_event_queue := kv_event_queue p |}.
Definition with_events (p : BlockPool) (ev : list KVCacheEvent) : BlockPool :=
  {| num_gpu_blocks := num_gpu_blocks p; enable_caching := enable_caching p;
     free_block_queue := free_block_queue p; ref_cnt := ref_cnt p; block_hash := block_hash p;
     is_null := is_null p; cached_block_hash_to_block := cached_block_hash_to_block p;
     null_block := null_block p; enable_kv_cache_events := enable_kv_cache_events p; kv_event_queue := ev |}.
Definition emit (p : BlockPool) (ev : KVCacheEvent) : BlockPool :=
  if enable_kv_cache_events p then with_events p (kv_event_queue p ++ [ev]) else p.

(** [BlockPool.__init__]: all blocks free, then block 0 becomes the null block. *)
Definition make_block_pool (num_blocks : Z) (caching events : bool) : res BlockPool :=
  py_assert (0 <? num_blocks) ;;!
  (let! '(null, q) := popleft (make_queue (map Blk (seq 0 (Z.to_nat num_blocks)))) in
   Ok {| num_gpu_blocks := num_blocks; enable_caching := caching; free_block_queue := q;
         ref_cnt := fun _ => 0; block_hash := fun _ => None;
         is_null := <[null := true]> (fun _ => false);
         cached_block_hash_to_block := ∅; null_block := null;
         enable_kv_cache_events := events; kv_event_queue := [] |}).

Definition get_num_free_blocks (p : BlockPool) : Z := num_free_blocks (free_block_queue p).

(** [get_cached_block] *)
Fixpoint get_cached_block (p : BlockPool) (h : BlockHash) (kv_cache_group_ids : list Z) : option (list Ref) :=
  match kv_cache_group_ids with
  | [] => Some []
  | g :: gs =>
      match cached_block_hash_to_block p !! {| block_hash_of := h; group_id := g |} with
      | None | Some [] => None
      | Some (first_block :: _) =>
          match get_cached_block p h gs with
          | None => None
          | Some l => Some (first_block :: l)
          end
      end
  end.

(** [d[block.block_id] = block] and [d.pop(block_id, None)]. *)
Fixpoint dict_set (d : list Ref) (b : Ref) : list Ref :=
  match d with
  | [] => [b]
  | c :: d => if block_id c =? block_id b then b :: d else c :: dict_set d b
  end.
Definition dict_pop (d : list Ref) (id : Z) : list Ref := List.filter (fun c => negb (block_id c =? id)) d.

Section caching.
Context (hash_fn : Z * list Z * option (list ExtraKey) -> Z) (NONE_HASH : Z).

(** The hash of the [i]-th new full block: taken over, or computed and
    appended to the request's hashes. *)
Definition full_block_hash (request : Request) (new_block_hashes : list BlockHash) (num_cached_blocks block_size : Z)
    (i : nat) (prev_block_hash_value : option Z) : res (BlockHash * list BlockHash) :=
  match new_block_hashes !! i with
  | Some h => Ok (h, [])
  | None =>
      let blk_idx := num_cached_blocks + Z.of_nat i in
      let start_token_idx := blk_idx * block_size in
      let end_token_idx := (blk_idx + 1) * block_size in
      let block_tokens := py_slice (all_token_ids request) start_token_idx end_token_idx in
      py_assert (Z.of_nat (length block_tokens) =? block_size) ;;!
      (let! '(extra_keys, _) := generate_block_hash_extra_keys request start_token_idx end_token_idx (-1) in
       let h := hash_block_tokens hash_fn NONE_HASH prev_block_hash_value block_tokens extra_keys in
       Ok (h, [h]))
  end.

(** The loop of [cache_full_blocks]: the pool, the hashes appended to
    [block_hashes], the hash values for the event. *)
Fixpoint cache_loop (p : BlockPool) (request : Request) (new_block_hashes : list BlockHash)
    (num_cached_blocks block_size kv_cache_group_id : Z) (blks : list Ref) (i : nat)
    (prev_block_hash_value : option Z) : res (BlockPool * list BlockHash * list Z) :=
  match blks with
  | [] => Ok (p, [], [])
  | blk :: blks =>
      py_assert (match block_hash p blk with None => true | Some _ => false end) ;;!
      (let! '(h, app) := full_block_hash request new_block_hashes num_cached_blocks block_size i prev_block_hash_value in
       let k := {| block_hash_of := h; group_id := kv_cache_group_id |} in
       let p := with_cache p (<[blk := Some k]> (block_hash p))
                  (<[k := dict_set (default [] (cached_block_hash_to_block p !! k)) blk]> (cached_block_hash_to_block p)) in
       let! '(p, more, values) := cache_loop p request new_block_hashes num_cached_blocks block_size
                                    kv_cache_group_id blks (S i) (Some (hash_value h)) in
       Ok (p, app ++ more, hash_value h :: values))
  end.

(** [cache_full_blocks]; the second component is the mutated [block_hashes].
    The event reads [lora_request.id], which [LoRARequest] does not have. *)
Definition cache_full_blocks (p : BlockPool) (request : Request) (blocks : list Ref) (block_hashes : list BlockHash)
    (num_cached_blocks num_full_blocks block_size kv_cache_group_id : Z) : res (BlockPool * list BlockHash) :=
  if num_cached_blocks =? num_full_blocks then Ok (p, block_hashes)
  else
    let new_full_blocks := py_slice blocks num_cached_blocks num_full_blocks in
    py_assert (num_cached_blocks <=? Z.of_nat (length block_hashes)) ;;!
    (let new_block_hashes := py_from block_hashes num_cached_blocks in
     let! prev_block_hash_value :=
       (if num_cached_blocks =? 0 then Ok None
        else let! prev_block := py_nth blocks (num_cached_blocks - 1) in
             match block_hash p prev_block with
             | None => Raise AssertionError
             | Some k => Ok (Some (get_hash_value k))
             end) in
     let! '(p, app, values) := cache_loop p request new_block_hashes num_cached_blocks block_size kv_cache_group_id
                                 new_full_blocks 0 prev_block_hash_value in
     if enable_kv_cache_events p then
       let! lora_id := match lora_request request with None => Ok None | Some _ => Raise AttributeError end in
       Ok (emit p (BlockStored values prev_block_hash_value
                     (py_slice (all_token_ids request) (num_cached_blocks * block_size) (num_full_blocks * block_size))
                     block_size lora_id), block_hashes ++ app)
     else Ok (p, block_hashes ++ app)).
End caching.

(** [_maybe_evict_cached_block] *)
Definition _maybe_evict_cached_block (p : BlockPool) (block : Ref) : bool * BlockPool :=
  match block_hash p block with
  | None => (false, p)
  | Some k =>
      match cached_block_hash_to_block p !! k with
      | None => (false, p)
      | Some blocks_by_id =>
          let d := dict_pop blocks_by_id (block_id block) in
          let p := with_cache p (<[block := None]> (block_hash p))
                     (match d with
                      | [] => delete k (cached_block_hash_to_block p)
                      | _ => <[k := d]> (cached_block_hash_to_block p)
                      end) in
          (true, emit p (BlockRemoved [get_hash_value k]))
      end
  end.

(** [get_new_blocks] *)
Definition take_block (p : BlockPool) (block : Ref) : res BlockPool :=
  let p := if enable_caching p then snd (_maybe_evict_cached_block p block) else p in
  py_assert (ref_cnt p block =? 0) ;;! Ok (add_ref p block 1).
Definition get_new_blocks (p : BlockPool) (num_blocks : Z) : res (list Ref * BlockPool) :=
  if get_num_free_blocks p <? num_blocks then Raise ValueError
  else
    let! '(ret, q) := popleft_n (free_block_queue p) num_blocks in
    let! p := res_fold take_block ret (with_queue p q) in
    Ok (ret, p).

(** [touch] *)
Definition touch_block (p : BlockPool) (block : Ref) : res BlockPool :=
  let! p := (if (ref_cnt p block =? 0) && negb (is_null p block)
             then let! q := remove (free_block_queue p) block in Ok (with_queue p q)
             else Ok p) in
  Ok (add_ref p block 1).
Definition touch (p : BlockPool) (blocks : list (list Ref)) : res BlockPool :=
  res_fold (fun p group => res_fold touch_block group p) blocks p.

(** [free_blocks] *)
Definition free_blocks (p : BlockPool) (ordered_blocks : list Ref) : res BlockPool :=
  let p := fold_left (fun p b => add_ref p b (-1)) ordered_blocks p in
  let! q := append_n (free_block_queue p)
              (List.filter (fun b => (ref_cnt p b =? 0) && negb (is_null p b)) ordered_blocks) in
  Ok (with_queue p q).

(** [reset_prefix_cache] *)
Definition reset_prefix_cache (p : BlockPool) : bool * BlockPool :=
  let num_used_blocks := num_gpu_blocks p - get_num_free_blocks p in
  if negb (num_used_blocks =? 1) then (false, p)
  else
    let h := fold_left (fun h b => <[b := None]> h) (map Blk (seq 0 (Z.to_nat (num_gpu_blocks p)))) (block_hash p) in
    (true, emit (with_cache p h ∅) AllBlocksCleared).

(** [take_events] *)
Definition take_events (p : BlockPool) : list KVCacheEvent * BlockPool :=
  if negb (enable_kv_cache_events p) then ([], p) else (kv_event_queue p, with_events p []).

(** ** The invariant *)

(** The cache and the hashes of the blocks agree. *)
Record cache_inv (num : Z) (h : Ref -> option BlockHashWithGroupId)
    (c : gmap BlockHashWithGroupId (list Ref)) : Prop := {
  ci_key : forall k l, c !! k = Some l -> l <> [] /\ NoDup l /\ forall r, r ∈ l -> h r = Some k;
  ci_in : forall r k, h r = Some k -> exists l, c !! k = Some l /\ r ∈ l;
  ci_real : forall r k, h r = Some k -> exists n, r = Blk n /\ 0 < Z.of_nat n < num }.

Notation count held n := (count_occ Nat.eq_dec held n).

(** [free] is the list of the free queue, [held] the references in use (the
    null block is not counted). *)
Record pool_inv (p : BlockPool) (free held : list nat) : Prop := {
  pi_num : 0 < num_gpu_blocks p;
  pi_queue : free_list (free_block_queue p) free;
  pi_null : null_block p = Blk 0;
  pi_is_null : forall n, is_null p (Blk n) = (n =? 0)%nat;
  pi_free : forall n, n ∈ free <-> 0 < Z.of_nat n < num_gpu_blocks p /\ n ∉ held;
  pi_held : forall n, n ∈ held -> 0 < Z.of_nat n < num_gpu_blocks p;
  pi_ref : forall n, (0 < n)%nat -> ref_cnt p (Blk n) = Z.of_nat (count held n);
  pi_cache : cache_inv (num_gpu_blocks p) (block_hash p) (cached_block_hash_to_block p) }.

(** Everything but the cache and the events. *)
Record same_core (p p' : BlockPool) : Prop := {
  sc_num : num_gpu_blocks p' = num_gpu_blocks p;
  sc_caching : enable_caching p' = enable_caching p;
  sc_queue : free_block_queue p' = free_block_queue p;
  sc_ref : ref_cnt p' = ref_cnt p;
  sc_is_null : is_null p' = is_null p;
  sc_null : null_block p' = null_block p;
  sc_events : enable_kv_cache_events p' = enable_kv_cache_events p }.

Lemma same_core_inv p p' free held :
  same_core p p' -> pool_inv p free held ->
  cache_inv (num_gpu_blocks p) (block_hash p') (cached_block_hash_to_block p') -> pool_inv p' free held.
Proof.
  intros [E1 E2 E3 E4 E5 E6 E7] [I1 I2 I3 I4 I5 I6 I7 I8] Hc.
  split; rewrite ?E1, ?E3, ?E4, ?E5, ?E6; done.
Qed.

Lemma emit_fields p ev : same_core p (emit p ev) /\ block_hash (emit p ev) = block_hash p /\
  cached_block_hash_to_block (emit p ev) = cached_block_hash_to_block p.
Proof. unfold emit. destruct (enable_kv_cache_events p) eqn:E; done. Qed.

(** ** Eviction *)

Lemma real_id_inj num h c r1 r2 k1 k2 :
  cache_inv num h c -> h r1 = Some k1 -> h r2 = Some k2 -> block_id r1 = block_id r2 -> r1 = r2.
Proof.
  intros Hc H1 H2 Hid. destruct (ci_real _ _ _ Hc _ _ H1) as (n1 & -> & _).
  destruct (ci_real _ _ _ Hc _ _ H2) as (n2 & -> & _). cbn in Hid. f_equal. lia.
Qed.

Lemma elem_of_dict_pop d id r : r ∈ dict_pop d id <-> r ∈ d /\ block_id r <> id.
Proof.
  unfold dict_pop. rewrite !list_elem_of_In, filter_In, negb_true_iff, Z.eqb_neq. done.
Qed.

Lemma cache_inv_evict num h c b k :
  cache_inv num h c -> h b = Some k ->
  exists l, c !! k = Some l /\ b ∈ l /\
    cache_inv num (<[b := None]> h)
      (match dict_pop l (block_id b) with [] => delete k c | _ => <[k := dict_pop l (block_id b)]> c end).
Proof.
  intros Hc Hb. destruct (ci_in _ _ _ Hc _ _ Hb) as (l & Hl & Hbl). exists l. split; [done|]. split; [done|].
  destruct (ci_key _ _ _ Hc _ _ Hl) as (_ & Hnd & Hlk).
  assert (Hc' : forall k', (match dict_pop l (block_id b) with [] => delete k c | _ => <[k := dict_pop l (block_id b)]> c end) !! k' =
            if decide (k' = k) then match dict_pop l (block_id b) with [] => None | _ => Some (dict_pop l (block_id b)) end else c !! k').
  { intros k'. destruct (decide (k' = k)) as [->|Hne]; destruct (dict_pop l (block_id b)).
    - by rewrite lookup_delete_eq.
    - by rewrite lookup_insert_eq.
    - by rewrite lookup_delete_ne.
    - by rewrite lookup_insert_ne. }
  assert (Hd : forall r, r ∈ dict_pop l (block_id b) <-> r ∈ l /\ r <> b).
  { intros r. rewrite elem_of_dict_pop. split; intros [H1 H2]; split; try done.
    - congruence.
    - intros Hid. apply H2. eapply real_id_inj; eauto. }
  split.
  - intros k' l'. rewrite Hc'. destruct (decide (k' = k)) as [->|Hne].
    + destruct (dict_pop l (block_id b)) as [|a d] eqn:Hdp; [done|]. intros [= <-]. split; [done|]. split.
      * rewrite <-Hdp. by apply NoDup_ListNoDup, List.NoDup_filter, NoDup_ListNoDup.
      * intros r Hr. apply Hd in Hr as [Hr Hrb]. rewrite fn_lookup_insert_ne by done. by apply Hlk.
    + intros Hl'. destruct (ci_key _ _ _ Hc _ _ Hl') as (H1 & H2 & H3). split; [done|]. split; [done|].
      intros r Hr. rewrite fn_lookup_insert_ne; [by apply H3|]. intros <-. specialize (H3 _ Hr). congruence.
  - intros r k' Hr. destruct (decide (r = b)) as [->|Hne]; [by rewrite fn_lookup_insert in Hr|].
    rewrite fn_lookup_insert_ne in Hr by done. destruct (ci_in _ _ _ Hc _ _ Hr) as (l' & Hl' & Hrl).
    rewrite Hc'. destruct (decide (k' = k)) as [->|]; [|eauto].
    assert (l' = l) as -> by congruence. assert (Hrd : r ∈ dict_pop l (block_id b)) by (by apply Hd).
    destruct (dict_pop l (block_id b)); [by apply elem_of_nil in Hrd|eauto].
  - intros r k' Hr. destruct (decide (r = b)) as [->|Hne]; [by rewrite fn_lookup_insert in Hr|].
    rewrite fn_lookup_insert_ne in Hr by done. by apply (ci_real _ _ _ Hc _ k').
Qed.

Lemma evict_ok p b :
  cache_inv (num_gpu_blocks p) (block_hash p) (cached_block_hash_to_block p) ->
  let p' := snd (_maybe_evict_cached_block p b) in
  same_core p p' /\ cache_inv (num_gpu_blocks p) (block_hash p') (cached_block_hash_to_block p') /\
  block_hash p' b = None /\ (forall r, r <> b -> block_hash p' r = block_hash p r) /\
  fst (_maybe_evict_cached_block p b) = bool_decide (is_Some (block_hash p b)).
Proof.
  intros Hc p'. unfold p', _maybe_evict_cached_block. destruct (block_hash p b) as [k|] eqn:Hb.
  - destruct (cache_inv_evict _ _ _ _ _ Hc Hb) as (l & -> & Hbl & Hc'). cbn [fst snd].
    set (p1 := with_cache _ _ _). destruct (emit_fields p1 (BlockRemoved [get_hash_value k])) as (Hs & Hh & Hcc).
    rewrite Hh, Hcc. split; [destruct Hs; by split|]. split; [exact Hc'|]. cbn [p1 with_cache block_hash].
    split; [by rewrite fn_lookup_insert|]. split; [|done]. intros r Hr. by rewrite fn_lookup_insert_ne.
  - cbn. split; [done|]. split; [done|]. split; [done|]. done.
Qed.

(** Everything but reference counts, hashes, the cache and the events. *)
Record same_shape (p p' : BlockPool) : Prop := {
  ss_num : num_gpu_blocks p' = num_gpu_blocks p;
  ss_caching : enable_caching p' = enable_caching p;
  ss_queue : free_block_queue p' = free_block_queue p;
  ss_is_null : is_null p' = is_null p;
  ss_null : null_block p' = null_block p;
  ss_events : enable_kv_cache_events p' = enable_kv_cache_events p }.

Lemma same_shape_trans p1 p2 p3 : same_shape p1 p2 -> same_shape p2 p3 -> same_shape p1 p3.
Proof. intros [] []. split; congruence. Qed.

Lemma take_block_ok p n :
  cache_inv (num_gpu_blocks p) (block_hash p) (cached_block_hash_to_block p) -> ref_cnt p (Blk n) = 0 ->
  exists p', take_block p (Blk n) = Ok p' /\ same_shape p p' /\
    cache_inv (num_gpu_blocks p) (block_hash p') (cached_block_hash_to_block p') /\
    ref_cnt p' = <[Blk n := 1]> (ref_cnt p) /\
    (enable_caching p = true -> block_hash p' (Blk n) = None) /\
    (forall r, r <> Blk n -> block_hash p' r = block_hash p r) /\
    (enable_caching p = false -> block_hash p' = block_hash p).
Proof.
  intros Hc Hr. unfold take_block. destruct (enable_caching p) eqn:Ecache.
  - destruct (evict_ok p (Blk n) Hc) as ([S1 S2 S3 S4 S5 S6 S7] & Hc' & Hn & Ho & _).
    rewrite S4, Hr. cbn [py_assert bind Z.eqb]. eexists. split; [reflexivity|].
    split; [by split|]. split; [exact Hc'|]. split; [cbn; by rewrite S4, Hr|]. split; [done|]. split; done.
  - rewrite Hr. cbn [py_assert bind Z.eqb]. eexists. split; [reflexivity|]. split; [done|]. split; [done|].
    split; [cbn; by rewrite Hr|]. done.
Qed.

Lemma take_blocks_ok p l :
  cache_inv (num_gpu_blocks p) (block_hash p) (cached_block_hash_to_block p) -> NoDup l ->
  (forall n, n ∈ l -> ref_cnt p (Blk n) = 0) ->
  exists p', res_fold take_block (map Blk l) p = Ok p' /\ same_shape p p' /\
    cache_inv (num_gpu_blocks p) (block_hash p') (cached_block_hash_to_block p') /\
    (forall r, r ∈ map Blk l -> ref_cnt p' r = 1 /\ (enable_caching p = true -> block_hash p' r = None)) /\
    (forall r, r ∉ map Blk l -> ref_cnt p' r = ref_cnt p r /\ block_hash p' r = block_hash p r) /\
    (enable_caching p = false -> block_hash p' = block_hash p).
Proof.
  intros Hc Hnd. revert p Hc. induction Hnd as [|n l Hn Hnd IH]; intros p Hc Hr; cbn [map res_fold].
  - exists p. split; [done|]. split; [done|]. split; [done|]. split; [|done]. by intros r Hr'%elem_of_nil.
  - destruct (take_block_ok p n Hc (Hr n ltac:(left))) as (p1 & -> & Hs1 & Hc1 & Hr1 & Hh1 & Ho1 & Hno1). cbn [bind].
    destruct (IH p1) as (p2 & -> & Hs2 & Hc2 & Hin2 & Hout2 & Hno2).
    + by rewrite (ss_num _ _ Hs1).
    + intros m Hm. rewrite Hr1, fn_lookup_insert_ne by (intros [= ->]; done). apply Hr. by right.
    + rewrite (ss_num _ _ Hs1), (ss_caching _ _ Hs1) in *.
      exists p2. split; [done|]. split; [by eapply same_shape_trans|]. split; [done|].
      assert (Hnl : Blk n ∉ map Blk l) by (by intros (? & [= ->] & ?)%list_elem_of_fmap).
      split; [|split; [|intros Hca; by rewrite Hno2, Hno1]].
      * intros r [->|Hin]%elem_of_cons; [|by apply Hin2]. destruct (Hout2 _ Hnl) as [-> ->].
        rewrite Hr1, fn_lookup_insert. done.
      * intros r [Hne Hni]%not_elem_of_cons. destruct (Hout2 _ Hni) as [-> ->].
        rewrite Hr1, fn_lookup_insert_ne by done. by rewrite Ho1.
Qed.

Lemma count_zero held n : n ∉ held -> count held n = 0%nat.
Proof. intros H. apply count_occ_not_In. by rewrite <-list_elem_of_In. Qed.

Lemma count_nodup l n : NoDup l -> count l n = (if decide (n ∈ l) then 1 else 0)%nat.
Proof.
  intros Hnd. destruct (decide (n ∈ l)) as [Hin|Hni]; [|by apply count_zero].
  apply NoDup_ListNoDup in Hnd. pose proof (proj1 (NoDup_count_occ Nat.eq_dec l) Hnd n).
  pose proof (proj1 (count_occ_In Nat.eq_dec l n) (proj1 (list_elem_of_In _ _) Hin)). lia.
Qed.

Lemma get_new_blocks_aux p l free held :
  pool_inv p (l ++ free) held ->
  exists p', get_new_blocks p (Z.of_nat (length l)) = Ok (map Blk l, p') /\ pool_inv p' free (l ++ held) /\
    (forall r, r ∉ map Blk l -> block_hash p' r = block_hash p r) /\
    (enable_caching p = true -> forall n, n ∈ l -> block_hash p' (Blk n) = None) /\
    enable_caching p' = enable_caching p /\ enable_kv_cache_events p' = enable_kv_cache_events p /\
    num_gpu_blocks p' = num_gpu_blocks p /\ (enable_caching p = false -> block_hash p' = block_hash p).
Proof.
  intros [I1 I2 I3 I4 I5 I6 I7 I8]. unfold get_new_blocks, get_num_free_blocks.
  rewrite (fl_num _ _ I2), length_app, (proj2 (Z.ltb_ge _ _)) by lia.
  destruct (popleft_n_ok _ _ _ I2) as (q' & -> & Hq'). cbn [bind].
  pose proof (fl_nodup _ _ I2) as Hnd. apply NoDup_app in Hnd as (Hndl & Hdisj & Hndf).
  assert (Hl : forall n, n ∈ l -> 0 < Z.of_nat n < num_gpu_blocks p /\ n ∉ held)
    by (intros n Hn; apply I5, elem_of_app; by left).
  destruct (take_blocks_ok (with_queue p q') l) as (p' & -> & Hs & Hc & Hin & Hout & Hno); cbn [with_queue]; try done.
  { intros n Hn. change (ref_cnt p (Blk n) = 0). destruct (Hl n Hn) as [? ?]. rewrite I7, count_zero by (done || lia). done. }
  cbn [bind]. exists p'. split; [done|]. destruct Hs as [E1 E2 E3 E4 E5 E6]. cbn in E1, E2, E3, E4, E5, E6, Hc.
  assert (Hmap : forall n, Blk n ∈ map Blk l <-> n ∈ l).
  { intros n. rewrite list_elem_of_fmap. split; [by intros (? & [= ->] & ?)|eauto]. }
  split; [|split; [|split]].
  - split; rewrite ?E1, ?E3, ?E4, ?E5; try done.
    + intros n. rewrite not_elem_of_app. split.
      * intros Hn. destruct (proj1 (I5 n)) as [? ?]; [apply elem_of_app; by right|]. split; [done|]. split; [|done].
        intros Hn'. by apply (Hdisj n).
      * intros (Hb & Hn1 & Hn2). assert (Hin' : n ∈ l ++ free) by (by apply I5).
        apply elem_of_app in Hin' as [?|?]; done.
    + intros n [Hn|Hn]%elem_of_app; [by apply Hl|by apply I6].
    + intros n Hn. rewrite count_occ_app, count_nodup by done. destruct (decide (n ∈ l)) as [Hnl|Hnl].
      * destruct (Hin (Blk n)) as [-> _]; [by apply Hmap|]. destruct (Hl n Hnl). by rewrite count_zero.
      * destruct (Hout (Blk n)) as [-> _]; [by rewrite Hmap|]. cbn. rewrite I7 by done. lia.
  - intros r Hr. by apply Hout.
  - intros Hcache n Hn. apply Hin; [by apply Hmap|done].
  - split; [done|]. split; done.
Qed.

(** ** Touching and freeing *)

(** The references to real blocks. *)
Definition real (l : list nat) : list nat := List.filter (fun n => negb (n =? 0)%nat) l.
Lemma elem_of_real n l : n ∈ real l <-> n ∈ l /\ n <> 0%nat.
Proof. unfold real. by rewrite !list_elem_of_In, filter_In, negb_true_iff, Nat.eqb_neq. Qed.
Lemma real_app l1 l2 : real (l1 ++ l2) = real l1 ++ real l2.
Proof. apply List.filter_app. Qed.

Definition without (free : list nat) (bs : list nat) : list nat :=
  List.filter (fun m => bool_decide (m ∉ bs)) free.
Lemma elem_of_without n free bs : n ∈ without free bs <-> n ∈ free /\ n ∉ bs.
Proof. unfold without. by rewrite !list_elem_of_In, filter_In, bool_decide_eq_true, !list_elem_of_In. Qed.

Lemma without_middle l1 n l2 : NoDup (l1 ++ n :: l2) -> without (l1 ++ n :: l2) [n] = l1 ++ l2.
Proof.
  intros (H1 & H2 & H3 & _)%nodup_split. unfold without. rewrite List.filter_app. cbn [List.filter].
  rewrite bool_decide_false by (intros H; apply H; left).
  assert (Hf : forall l, n ∉ l -> List.filter (fun m => bool_decide (m ∉ [n])) l = l).
  { induction l as [|m l IH]; [done|]. intros [Hm Hl]%not_elem_of_cons. cbn [List.filter].
    rewrite bool_decide_true by (intros Hin%list_elem_of_singleton; congruence). by rewrite IH. }
  by rewrite !Hf.
Qed.

Lemma without_id free n : n ∉ free -> without free [n] = free.
Proof.
  unfold without. induction free as [|m l IH]; [done|]. intros [Hm Hl]%not_elem_of_cons. cbn [List.filter].
  rewrite bool_decide_true by (intros Hin%list_elem_of_singleton; congruence). by rewrite IH.
Qed.

Lemma without_cons free n bs : without (without free [n]) bs = without free (n :: bs).
Proof.
  unfold without. induction free as [|m l IH]; [done|]. cbn [List.filter].
  rewrite (bool_decide_ext (m ∉ n :: bs) (m ∉ [n] /\ m ∉ bs)) by (rewrite !not_elem_of_cons, elem_of_nil; tauto).
  destruct (decide (m ∉ [n])) as [H1|H1]; [rewrite (bool_decide_true (m ∉ [n])) by done|rewrite (bool_decide_false (m ∉ [n])) by done]; cbn [List.filter].
  - destruct (decide (m ∉ bs)) as [H2|H2].
    + rewrite !bool_decide_true by done. by rewrite IH.
    + rewrite !bool_decide_false by tauto. done.
  - rewrite bool_decide_false by tauto. done.
Qed.

(** What does not change when references are counted. *)
Record same_cache (p p' : BlockPool) : Prop := {
  sca_num : num_gpu_blocks p' = num_gpu_blocks p;
  sca_caching : enable_caching p' = enable_caching p;
  sca_hash : block_hash p' = block_hash p;
  sca_cached : cached_block_hash_to_block p' = cached_block_hash_to_block p;
  sca_events : enable_kv_cache_events p' = enable_kv_cache_events p }.
Lemma same_cache_refl p : same_cache p p.
Proof. by split. Qed.
Lemma same_cache_trans p1 p2 p3 : same_cache p1 p2 -> same_cache p2 p3 -> same_cache p1 p3.
Proof. intros [] []. split; congruence. Qed.

Lemma touch_block_ok p free held n :
  pool_inv p free held -> Z.of_nat n < num_gpu_blocks p ->
  exists p', touch_block p (Blk n) = Ok p' /\ pool_inv p' (without free [n]) (real [n] ++ held) /\ same_cache p p'.
Proof.
  intros [I1 I2 I3 I4 I5 I6 I7 I8] Hn. unfold touch_block. rewrite I4.
  destruct (Nat.eqb_spec n 0) as [->|Hn0]; cbn [negb andb].
  - rewrite andb_false_r. cbn [bind]. eexists. split; [reflexivity|]. split; [|by split].
    assert (Hni : 0%nat ∉ free) by (intros [? _]%I5; lia). rewrite without_id by done. cbn [real List.filter app].
    split; try done. intros m Hm. cbn [add_ref ref_cnt]. rewrite fn_lookup_insert_ne by (intros [= <-]; lia). by apply I7.
  - rewrite andb_true_r, I7 by lia.
    assert (Hreal : real [n] = [n]) by (unfold real; cbn [List.filter]; by rewrite (proj2 (Nat.eqb_neq n 0))). rewrite Hreal. cbn [app].
    assert (Hinv : forall q, free_list q (without free [n]) ->
      pool_inv (add_ref (with_queue p q) (Blk n) 1) (without free [n]) (n :: held)).
    { intros q Hq. split; try done.
      - intros m. rewrite elem_of_without, I5, list_elem_of_singleton, not_elem_of_cons. tauto.
      - cbn [num_gpu_blocks add_ref with_queue]. intros m [->|Hm]%elem_of_cons; [lia|by apply I6].
      - intros m Hm. cbn [add_ref with_queue ref_cnt count_occ]. destruct (Nat.eq_dec n m) as [->|Hne].
        + rewrite fn_lookup_insert, I7 by done. lia.
        + rewrite fn_lookup_insert_ne by congruence. by apply I7. }
    destruct (decide (n ∈ held)) as [Hh|Hh].
    + assert (Hc : (0 < count held n)%nat) by (by apply count_occ_In, list_elem_of_In).
      destruct (Z.eqb_spec (Z.of_nat (count held n)) 0) as [?|_]; [lia|]. cbn [bind].
      assert (Hnf : n ∉ free) by (intros [_ ?]%I5; done).
      eexists. split; [reflexivity|]. split; [|by split].
      specialize (Hinv (free_block_queue p)). rewrite without_id in * by done. by apply Hinv.
    + rewrite count_zero by done. cbn [Z.of_nat Z.eqb].
      assert (Hf : n ∈ free) by (apply I5; split; [lia|done]).
      apply list_elem_of_split in Hf as (l1 & l2 & ->). destruct (remove_ok _ _ _ _ I2) as (q' & -> & Hq'). cbn [bind].
      eexists. split; [reflexivity|]. split; [|by split]. apply Hinv. rewrite without_middle; [done|]. apply I2.
Qed.

Lemma touch_blocks_ok p free held bs :
  pool_inv p free held -> (forall n, n ∈ bs -> Z.of_nat n < num_gpu_blocks p) ->
  exists p' held', res_fold touch_block (map Blk bs) p = Ok p' /\ pool_inv p' (without free bs) held' /\
    held' ≡ₚ real bs ++ held /\ same_cache p p'.
Proof.
  revert p free held. induction bs as [|n bs IH]; intros p free held Hinv Hb; cbn [map res_fold].
  - exists p, held. split; [done|]. split; [|split; [done|apply same_cache_refl]].
    assert (without free [] = free) as ->; [|done]. unfold without. clear. induction free as [|m l IH]; [done|].
    cbn [List.filter]. rewrite bool_decide_true by apply not_elem_of_nil. by rewrite IH.
  - destruct (touch_block_ok p free held n Hinv (Hb n ltac:(left))) as (p1 & -> & Hinv1 & Hs1). cbn [bind].
    destruct (IH p1 _ _ Hinv1) as (p2 & held' & -> & Hinv2 & Hp & Hs2).
    { intros m Hm. rewrite (sca_num _ _ Hs1). apply Hb. by right. }
    exists p2, held'. rewrite without_cons in Hinv2. split; [done|]. split; [done|]. split.
    + rewrite Hp. change (real (n :: bs)) with (real ([n] ++ bs)). rewrite real_app. rewrite !app_assoc.
      by rewrite (Permutation_app_comm (real bs)).
    + by eapply same_cache_trans.
Qed.

Lemma fold_release p bs :
  let p' := fold_left (fun p b => add_ref p b (-1)) (map Blk bs) p in
  same_cache p p' /\ free_block_queue p' = free_block_queue p /\ is_null p' = is_null p /\ null_block p' = null_block p /\
  forall n, ref_cnt p' (Blk n) = ref_cnt p (Blk n) - Z.of_nat (count bs n).
Proof.
  revert p. induction bs as [|b bs IH]; intros p; cbn [map fold_left].
  - split; [by split|]. split_and!; try done. intros n. cbn. lia.
  - destruct (IH (add_ref p (Blk b) (-1))) as (H1 & H2 & H3 & H4 & H5). cbv zeta. rewrite H2, H3, H4.
    split; [destruct H1; by split|]. split_and!; try done. intros n. rewrite H5. cbn [count_occ add_ref ref_cnt].
    destruct (Nat.eq_dec b n) as [->|Hne]; [rewrite fn_lookup_insert|rewrite fn_lookup_insert_ne by congruence]; lia.
Qed.

Lemma count_real l n : (0 < n)%nat -> count (real l) n = count l n.
Proof.
  intros Hn. unfold real. induction l as [|m l IH]; [done|]. cbn [List.filter count_occ].
  destruct (Nat.eqb_spec m 0) as [->|Hm]; cbn [negb]; [|cbn [count_occ]; by rewrite IH].
  destruct (Nat.eq_dec 0 n) as [<-|_]; [lia|done].
Qed.

(** The freed blocks that nobody holds any more, in the given order. *)
Definition released (bs held' : list nat) : list nat := List.filter (fun n => bool_decide (n ∉ held')) (real bs).
Lemma elem_of_released n bs held' : n ∈ released bs held' <-> n ∈ real bs /\ n ∉ held'.
Proof. unfold released. by rewrite !list_elem_of_In, filter_In, bool_decide_eq_true, !list_elem_of_In. Qed.

Lemma free_blocks_aux p free held bs held' :
  pool_inv p free held -> NoDup (real bs) -> real bs ++ held' ≡ₚ held ->
  exists p', free_blocks p (map Blk bs) = Ok p' /\ pool_inv p' (free ++ released bs held') held' /\ same_cache p p'.
Proof.
  intros [I1 I2 I3 I4 I5 I6 I7 I8] Hnd Hperm. unfold free_blocks.
  destruct (fold_release p bs) as (Hs & Hq & Hnull & Hnb & Href). set (p1 := fold_left _ _ p) in *.
  assert (Hcount : forall n, (0 < n)%nat -> ref_cnt p1 (Blk n) = Z.of_nat (count held' n)).
  { intros n Hn. rewrite Href, I7 by done.
    rewrite (Permutation_count_occ Nat.eq_dec) in Hperm. specialize (Hperm n). rewrite count_occ_app, count_real in Hperm by done. lia. }
  assert (Hf : List.filter (fun b => (ref_cnt p1 b =? 0) && negb (is_null p1 b)) (map Blk bs) = map Blk (released bs held')).
  { unfold released, real. clear Hperm Hnd. clearbody p1. clear Href Hq Hs. induction bs as [|b bs IH]; [done|].
    cbn [map List.filter]. rewrite Hnull, I4. destruct (Nat.eqb_spec b 0) as [->|Hb].
    - cbn [negb]. rewrite andb_false_r. rewrite Hnull in IH. exact IH.
    - cbn [negb List.filter]. rewrite andb_true_r, Hcount by lia. rewrite Hnull in IH.
      destruct (decide (b ∈ held')) as [Hin|Hni].
      + rewrite bool_decide_false by tauto.
        assert ((0 < count held' b)%nat) by (by apply count_occ_In, list_elem_of_In).
        destruct (Z.eqb_spec (Z.of_nat (count held' b)) 0); [lia|]. exact IH.
      + rewrite bool_decide_true, count_zero by done. cbn [Z.of_nat Z.eqb map]. f_equal. exact IH. }
  rewrite Hf, Hq.
  assert (Hreal : forall n, n ∈ real bs -> n ∈ held) by (intros n Hn; rewrite <-Hperm; apply elem_of_app; by left).
  destruct (append_n_ok (free_block_queue p) free (released bs held')) as (q' & -> & Hq').
  { done. }
  { unfold released. by apply NoDup_ListNoDup, List.NoDup_filter, NoDup_ListNoDup. }
  { intros n [Hn _]%elem_of_released Hn'. apply I5 in Hn' as [_ Hn']. by apply Hn', Hreal. }
  cbn [bind]. eexists. split; [reflexivity|]. destruct Hs as [E1 E2 E3 E4 E5]. split; [|by split].
  split; cbn [with_queue num_gpu_blocks free_block_queue null_block is_null ref_cnt block_hash cached_block_hash_to_block].
  - by rewrite E1.
  - done.
  - by rewrite Hnb.
  - by rewrite Hnull.
  - intros n. rewrite E1, elem_of_app, elem_of_released, I5, <-Hperm, not_elem_of_app. split.
    + intros [[? [? ?]]|[Hr ?]]; [done|]. split; [|done]. by apply I6, Hreal.
    + intros [Hb Hn]. destruct (decide (n ∈ real bs)); [by right|by left].
  - intros n Hn. rewrite E1. apply I6. rewrite <-Hperm. apply elem_of_app. by right.
  - done.
  - by rewrite E1, E3, E4.
Qed.

(** ** Initial pool and reset *)

Lemma cache_inv_empty num : cache_inv num (fun _ => None) ∅.
Proof. by split. Qed.

Lemma make_block_pool_aux n caching events :
  exists p, make_block_pool (Z.of_nat (S n)) caching events = Ok p /\ pool_inv p (seq 1 n) [] /\
    enable_caching p = caching /\ enable_kv_cache_events p = events /\ num_gpu_blocks p = Z.of_nat (S n).
Proof.
  unfold make_block_pool. rewrite (proj2 (Z.ltb_lt _ _)) by lia. cbn [py_assert bind]. rewrite Nat2Z.id.
  pose proof (make_queue_ok (seq 0 (S n)) (NoDup_seq _ _)) as Hq.
  destruct (popleft_ok _ _ _ Hq) as (q' & -> & Hq'). cbn [bind]. eexists. split; [reflexivity|].
  split; [|done]. split; cbn [num_gpu_blocks free_block_queue null_block is_null ref_cnt block_hash cached_block_hash_to_block].
  - lia.
  - done.
  - done.
  - intros [|m]; [by rewrite fn_lookup_insert|]. by rewrite fn_lookup_insert_ne.
  - intros m. rewrite elem_of_seq. split; [intros ?; split; [lia|apply not_elem_of_nil]|intros [? _]; lia].
  - by intros m ?%elem_of_nil.
  - done.
  - apply cache_inv_empty.
Qed.

Lemma fold_clear l (h : Ref -> option BlockHashWithGroupId) r :
  fold_left (fun h b => <[b := None]> h) l h r = if bool_decide (r ∈ l) then None else h r.
Proof.
  revert h. induction l as [|b l IH]; intros h; cbn [fold_left]; [by rewrite bool_decide_false by apply not_elem_of_nil|].
  rewrite IH. destruct (decide (r = b)) as [->|Hne].
  - rewrite fn_lookup_insert, (bool_decide_true (b ∈ b :: l)) by left. by case_bool_decide.
  - rewrite fn_lookup_insert_ne by done. erewrite (bool_decide_ext (r ∈ b :: l)); [done|]. rewrite elem_of_cons. tauto.
Qed.

Lemma reset_prefix_cache_aux p free held :
  pool_inv p free held ->
  fst (reset_prefix_cache p) = bool_decide (Z.of_nat (length free) = num_gpu_blocks p - 1) /\
  (fst (reset_prefix_cache p) = false -> snd (reset_prefix_cache p) = p) /\
  (fst (reset_prefix_cache p) = true ->
     pool_inv (snd (reset_prefix_cache p)) free held /\
     (forall r, block_hash (snd (reset_prefix_cache p)) r = None) /\
     cached_block_hash_to_block (snd (reset_prefix_cache p)) = ∅).
Proof.
  intros Hinv. unfold reset_prefix_cache, get_num_free_blocks. rewrite (fl_num _ _ (pi_queue _ _ _ Hinv)).
  destruct (Z.eqb_spec (num_gpu_blocks p - Z.of_nat (length free)) 1) as [He|He]; cbn [negb fst snd].
  2:{ split; [by rewrite bool_decide_false by lia|]. done. }
  split; [by rewrite bool_decide_true by lia|]. split; [done|]. intros _.
  set (h := fold_left _ _ _).
  assert (Hh : forall r, h r = None).
  { intros r. unfold h. rewrite fold_clear. case_bool_decide as Hr; [done|].
    destruct (block_hash p r) as [k|] eqn:E; [|done]. exfalso. apply Hr.
    destruct (ci_real _ _ _ (pi_cache _ _ _ Hinv) _ _ E) as (n & -> & Hn). apply list_elem_of_fmap.
    exists n. split; [done|]. apply elem_of_seq. lia. }
  destruct (emit_fields (with_cache p h ∅) AllBlocksCleared) as (Hs & Eh & Ec). rewrite Eh, Ec. split; [|done].
  eapply (same_core_inv p); [destruct Hs; by split|exact Hinv|]. rewrite Eh, Ec. cbn [with_cache block_hash cached_block_hash_to_block].
  split; [done| |]; intros r k Hr; by rewrite Hh in Hr.
Qed.

(** ** Caching full blocks *)

Lemma dict_set_fresh d b : (forall c, c ∈ d -> block_id c <> block_id b) -> dict_set d b = d ++ [b].
Proof.
  induction d as [|c d IH]; intros H; [done|]. cbn [dict_set]. destruct (Z.eqb_spec (block_id c) (block_id b)) as [E|_].
  - by destruct (H c ltac:(left)).
  - cbn. rewrite IH; [done|]. intros e He. apply H. by right.
Qed.

Lemma cache_inv_insert num h c n k :
  cache_inv num h c -> h (Blk n) = None -> 0 < Z.of_nat n < num ->
  cache_inv num (<[Blk n := Some k]> h) (<[k := dict_set (default [] (c !! k)) (Blk n)]> c).
Proof.
  intros Hc Hn Hb. assert (Hold : forall l, c !! k = Some l -> NoDup l /\ (forall r, r ∈ l -> h r = Some k /\ block_id r <> block_id (Blk n))).
  { intros l Hl. destruct (ci_key _ _ _ Hc _ _ Hl) as (_ & Hnd & Hlk). split; [done|]. intros r Hr. split; [by apply Hlk|].
    destruct (ci_real _ _ _ Hc _ _ (Hlk r Hr)) as (m & -> & _). cbn. intros Hid. assert (m = n) as -> by lia.
    specialize (Hlk _ Hr). congruence. }
  assert (Hset : exists l, dict_set (default [] (c !! k)) (Blk n) = l ++ [Blk n] /\ NoDup (l ++ [Blk n]) /\
            (forall r, r ∈ l -> h r = Some k) /\ (forall l', c !! k = Some l' -> l' = l)).
  { destruct (c !! k) as [l|] eqn:E; cbn [default].
    - destruct (Hold l eq_refl) as [Hnd Hl]. exists l. split; [apply dict_set_fresh; intros r Hr; by apply Hl|]. split.
      + apply NoDup_app. split; [done|]. split; [|apply NoDup_singleton]. intros r Hr ->%list_elem_of_singleton.
        destruct (Hl _ Hr) as [_ ?]. done.
      + split; [intros r Hr; by apply Hl|]. by intros l' [= ->].
    - exists []. split; [done|]. split; [apply NoDup_singleton|]. split; [by intros r ?%elem_of_nil|done]. }
  destruct Hset as (l & -> & Hnd & Hl & Hsame). split.
  - intros k' l'. destruct (decide (k' = k)) as [->|Hne].
    + rewrite lookup_insert_eq. intros [= <-]. split; [by destruct l|]. split; [done|].
      intros r [Hr| ->%list_elem_of_singleton]%elem_of_app; [|by rewrite fn_lookup_insert].
      rewrite fn_lookup_insert_ne; [by apply Hl|]. intros <-. specialize (Hl _ Hr). congruence.
    + rewrite lookup_insert_ne by done. intros Hl'. destruct (ci_key _ _ _ Hc _ _ Hl') as (H1 & H2 & H3).
      split; [done|]. split; [done|]. intros r Hr. rewrite fn_lookup_insert_ne; [by apply H3|].
      intros <-. specialize (H3 _ Hr). congruence.
  - intros r k'. destruct (decide (r = Blk n)) as [->|Hne].
    + rewrite fn_lookup_insert. intros [= <-]. exists (l ++ [Blk n]). rewrite lookup_insert_eq. split; [done|].
      apply elem_of_app. right. left.
    + rewrite fn_lookup_insert_ne by done. intros Hr. destruct (ci_in _ _ _ Hc _ _ Hr) as (l' & Hl' & Hrl).
      destruct (decide (k' = k)) as [->|Hne'].
      * rewrite (Hsame l' Hl') in Hrl. exists (l ++ [Blk n]). rewrite lookup_insert_eq. split; [done|].
        apply elem_of_app. by left.
      * exists l'. by rewrite lookup_insert_ne.
  - intros r k'. destruct (decide (r = Blk n)) as [->|Hne]; [eauto|].
    rewrite fn_lookup_insert_ne by done. apply (ci_real _ _ _ Hc).
Qed.

Section caching_ok.
Context (hash_fn : Z * list Z * option (list ExtraKey) -> Z) (NONE_HASH : Z).

(** A new full block always gets a hash: taken over or computed from its tokens. *)
Lemma full_block_hash_total r new_hashes nc bs i prev :
  mm_hashed r -> 0 <= bs -> 0 <= nc -> (nc + Z.of_nat i + 1) * bs <= Z.of_nat (length (all_token_ids r)) ->
  exists h app, full_block_hash hash_fn NONE_HASH r new_hashes nc bs i prev = Ok (h, app) /\
    match new_hashes !! i with Some h' => h = h' /\ app = [] | None => app = [h] end.
Proof.
  intros Hr Hbs Hnc Hlen. unfold full_block_hash. destruct (new_hashes !! i) as [h|]; [by exists h, []|].
  assert (Hs : py_slice (all_token_ids r) ((nc + Z.of_nat i) * bs) ((nc + Z.of_nat i + 1) * bs)
            = take (Z.to_nat bs) (drop (Z.to_nat ((nc + Z.of_nat i) * bs)) (all_token_ids r))).
  { rewrite <-(Z2Nat.id ((nc + Z.of_nat i) * bs)), <-(Z2Nat.id ((nc + Z.of_nat i + 1) * bs)) at 1 by nia.
    rewrite py_slice_drop_take by nia. f_equal. nia. }
  rewrite Hs. assert (Hl : length (take (Z.to_nat bs) (drop (Z.to_nat ((nc + Z.of_nat i) * bs)) (all_token_ids r))) = Z.to_nat bs).
  { rewrite length_take, length_drop. nia. }
  rewrite Hl, Z2Nat.id, Z.eqb_refl by done. cbn [py_assert bind].
  destruct (generate_keys_last r ((nc + Z.of_nat i) * bs) ((nc + Z.of_nat i + 1) * bs) Hr) as (ks & j & ->). cbn [bind]. eauto.
Qed.

Lemma cache_loop_ok r new_hashes nc bs g l i prev p :
  mm_hashed r -> 0 <= bs -> 0 <= nc ->
  (nc + Z.of_nat i + Z.of_nat (length l)) * bs <= Z.of_nat (length (all_token_ids r)) ->
  cache_inv (num_gpu_blocks p) (block_hash p) (cached_block_hash_to_block p) -> NoDup l ->
  (forall n, n ∈ l -> 0 < Z.of_nat n < num_gpu_blocks p /\ block_hash p (Blk n) = None) ->
  exists p' app values,
    cache_loop hash_fn NONE_HASH p r new_hashes nc bs g (map Blk l) i prev = Ok (p', app, values) /\
    same_core p p' /\ cache_inv (num_gpu_blocks p) (block_hash p') (cached_block_hash_to_block p') /\
    (forall j n, l !! j = Some n -> exists h, (drop i new_hashes ++ app) !! j = Some h /\
       block_hash p' (Blk n) = Some {| block_hash_of := h; group_id := g |}) /\
    (forall b, b ∉ map Blk l -> block_hash p' b = block_hash p b).
Proof.
  intros Hr Hbs Hnc. revert i prev p. induction l as [|n l IH]; intros i prev p Hlen Hc Hnd Hl; cbn [map cache_loop].
  { exists p, [], []. split; [done|]. split; [by split|]. split; [done|]. split; [|done]. intros j n Hj. by rewrite lookup_nil in Hj. }
  apply NoDup_cons in Hnd as [Hn Hnd]. destruct (Hl n ltac:(left)) as [Hb Hnone]. rewrite Hnone. cbn [py_assert bind].
  cbn [length] in Hlen.
  destruct (full_block_hash_total r new_hashes nc bs i prev Hr Hbs Hnc ltac:(nia)) as (h & app & -> & Happ). cbn [bind].
  set (k := {| block_hash_of := h; group_id := g |}). set (p1 := with_cache p _ _).
  destruct (IH (S i) (Some (hash_value h)) p1) as (p2 & more & values & -> & Hs & Hc2 & Hin & Hout); try done.
  - lia.
  - by apply cache_inv_insert.
  - intros m Hm. destruct (Hl m ltac:(by right)) as [? ?]. split; [done|]. cbn [p1 with_cache block_hash].
    rewrite fn_lookup_insert_ne; [done|]. intros [= ->]. done.
  - cbn [bind]. exists p2, (app ++ more), (hash_value h :: values). split; [done|].
    split; [destruct Hs; by split|]. split; [done|].
    assert (Hnl : Blk n ∉ map Blk l) by (by intros (? & [= ->] & ?)%list_elem_of_fmap).
    assert (Hstep : drop i new_hashes ++ app ++ more = h :: drop (S i) new_hashes ++ more).
    { destruct (new_hashes !! i) as [h'|] eqn:E.
      - destruct Happ as [-> ->]. rewrite (drop_S _ _ _ E). done.
      - subst app. apply lookup_ge_None in E. rewrite !drop_ge by lia. done. }
    split.
    + intros [|j] m Hj.
      * injection Hj as <-. exists h. rewrite Hstep. split; [done|]. rewrite (Hout _ Hnl). cbn [p1 with_cache block_hash].
        by rewrite fn_lookup_insert.
      * rewrite Hstep. by apply Hin.
    + intros b [Hne Hni]%not_elem_of_cons. rewrite (Hout _ Hni). cbn [p1 with_cache block_hash].
      by rewrite fn_lookup_insert_ne.
Qed.

Lemma map_Blk_slice l i j : py_slice (map Blk l) i j = map Blk (py_slice l i j).
Proof. unfold py_slice. by rewrite length_map, skipn_map, firstn_map. Qed.

Lemma cache_full_blocks_aux p free held r l hashes nc nf bs g :
  pool_inv p free held -> mm_hashed r -> 0 <= bs -> (nc <= nf <= length l)%nat -> (nc <= length hashes)%nat ->
  Z.of_nat nf * bs <= Z.of_nat (length (all_token_ids r)) ->
  NoDup (take (nf - nc) (drop nc l)) ->
  (forall n, n ∈ take (nf - nc) (drop nc l) -> 0 < Z.of_nat n < num_gpu_blocks p /\ block_hash p (Blk n) = None) ->
  (forall n, (0 < nc)%nat -> l !! (nc - 1)%nat = Some n -> is_Some (block_hash p (Blk n))) ->
  (enable_kv_cache_events p = true -> lora_request r = None) ->
  exists p' app, cache_full_blocks hash_fn NONE_HASH p r (map Blk l) hashes (Z.of_nat nc) (Z.of_nat nf) bs g
                   = Ok (p', hashes ++ app) /\
    same_core p p' /\ pool_inv p' free held /\
    (forall j n, (nc <= j < nf)%nat -> l !! j = Some n -> exists h, (hashes ++ app) !! j = Some h /\
       block_hash p' (Blk n) = Some {| block_hash_of := h; group_id := g |}) /\
    (forall b, b ∉ map Blk (take (nf - nc) (drop nc l)) -> block_hash p' b = block_hash p b).
Proof.
  intros Hinv Hr Hbs Hn Hh Htok Hnd Hl Hprev Hlora. unfold cache_full_blocks.
  destruct (Z.eqb_spec (Z.of_nat nc) (Z.of_nat nf)) as [He|He].
  { exists p, []. rewrite app_nil_r. split; [done|]. split; [by split|]. split; [done|]. split; [intros j n Hj; lia|done]. }
  rewrite map_Blk_slice, py_slice_drop_take by lia. rewrite (proj2 (Z.leb_le _ _)) by lia. cbn [py_assert bind].
  rewrite py_from_drop by done.
  assert (Hpv : exists pv, (if Z.of_nat nc =? 0 then Ok None
           else let! prev_block := py_nth (map Blk l) (Z.of_nat nc - 1) in
                match block_hash p prev_block with None => Raise AssertionError | Some k => Ok (Some (get_hash_value k)) end) = Ok pv).
  { destruct (Z.eqb_spec (Z.of_nat nc) 0) as [|H0]; [eauto|].
    replace (Z.of_nat nc - 1) with (Z.of_nat (nc - 1)) by lia. rewrite py_nth_nat.
    destruct (lookup_lt_is_Some_2 l (nc - 1)) as [m Hm]; [lia|].
    assert ((map Blk l) !! (nc - 1)%nat = Some (Blk m)) as -> by (by rewrite list_lookup_fmap, Hm). cbn [of_option bind].
    destruct (Hprev m ltac:(lia) Hm) as [k ->]. eauto. }
  destruct Hpv as [pv ->]. cbn [bind].
  destruct (cache_loop_ok r (drop nc hashes) (Z.of_nat nc) bs g (take (nf - nc) (drop nc l)) 0 pv p)
    as (p1 & app & values & -> & Hs & Hc & Hin & Hout); try done.
  { lia. }
  { rewrite length_take, length_drop. nia. }
  { apply Hinv. }
  cbn [bind]. rewrite (sc_events _ _ Hs).
  assert (Hev : exists p', (if enable_kv_cache_events p
      then let! lora_id := match lora_request r with None => Ok None | Some _ => Raise AttributeError end in
           Ok (emit p1 (BlockStored values pv (py_slice (all_token_ids r) (Z.of_nat nc * bs) (Z.of_nat nf * bs)) bs lora_id),
               hashes ++ app)
      else Ok (p1, hashes ++ app)) = Ok (p', hashes ++ app) /\ same_core p1 p' /\ block_hash p' = block_hash p1 /\
        cached_block_hash_to_block p' = cached_block_hash_to_block p1).
  { destruct (enable_kv_cache_events p); [|exists p1; split; [done|]; split; [by split|done]].
    rewrite Hlora by done. cbn [bind]. eexists. split; [reflexivity|]. apply emit_fields. }
  destruct Hev as (p' & -> & Hs' & Eh & Ec). exists p', app. split; [done|].
  assert (Hss : same_core p p') by (destruct Hs, Hs'; split; congruence). split; [done|]. split.
  { eapply (same_core_inv p); [done|done|]. by rewrite Eh, Ec. }
  rewrite Eh. split; [|done]. intros j n Hj Hlj.
  destruct (Hin (j - nc)%nat n) as (h & Hh' & Hb).
  { rewrite lookup_take_lt by lia. rewrite lookup_drop. by replace (nc + (j - nc))%nat with j by lia. }
  exists h. split; [|done]. rewrite drop_0 in Hh'. rewrite <-(take_drop nc hashes), <-app_assoc, lookup_app_r by (rewrite length_take; lia).
  by rewrite length_take, Nat.min_l by lia.
Qed.
End caching_ok.

(** Looking a hash up. *)
Lemma get_cached_block_ok p h gs :
  cache_inv (num_gpu_blocks p) (block_hash p) (cached_block_hash_to_block p) ->
  match get_cached_block p h gs with
  | Some l => Forall2 (fun g b => block_hash p b = Some {| block_hash_of := h; group_id := g |}) gs l
  | None => exists g, g ∈ gs /\ forall b, block_hash p b <> Some {| block_hash_of := h; group_id := g |}
  end.
Proof.
  intros Hc. induction gs as [|g gs IH]; cbn [get_cached_block]; [constructor|].
  set (k := {| block_hash_of := h; group_id := g |}).
  destruct (cached_block_hash_to_block p !! k) as [[|b l]|] eqn:E.
  - by destruct (ci_key _ _ _ Hc _ _ E) as [? _].
  - destruct (ci_key _ _ _ Hc _ _ E) as (_ & _ & Hl).
    destruct (get_cached_block p h gs) as [l'|].
    + constructor; [apply Hl; left|done].
    + destruct IH as (g' & Hg & Hno). exists g'. split; [by right|done].
  - exists g. split; [left|]. intros b Hb. destruct (ci_in _ _ _ Hc _ _ Hb) as (l & Hl & _). fold k in Hl. congruence.
Qed.

(** ** All reachable pools *)

Lemma pool_inv_perm p free held held' : pool_inv p free held -> held ≡ₚ held' -> pool_inv p free held'.
Proof.
  intros [I1 I2 I3 I4 I5 I6 I7 I8] Hp. split; try done.
  - intros n. by rewrite I5, Hp.
  - intros n. rewrite <-Hp. apply I6.
  - intros n Hn. rewrite I7 by done. f_equal. by apply (Permutation_count_occ Nat.eq_dec).
Qed.

Lemma touch_aux p free held bss :
  pool_inv p free held -> (forall n, n ∈ concat bss -> Z.of_nat n < num_gpu_blocks p) ->
  exists p' free' held', touch p (map (map Blk) bss) = Ok p' /\ pool_inv p' free' held' /\
    held' ≡ₚ real (concat bss) ++ held /\ same_cache p p'.
Proof.
  revert p free held. unfold touch. induction bss as [|bs bss IH]; intros p free held Hinv Hb; cbn [map res_fold concat].
  - exists p, free, held. split; [done|]. split; [done|]. split; [done|apply same_cache_refl].
  - destruct (touch_blocks_ok p free held bs Hinv) as (p1 & held1 & -> & Hinv1 & Hp1 & Hs1).
    { intros n Hn. apply Hb, elem_of_app. by left. }
    cbn [bind]. destruct (IH p1 _ _ Hinv1) as (p2 & free2 & held2 & -> & Hinv2 & Hp2 & Hs2).
    { intros n Hn. rewrite (sca_num _ _ Hs1). apply Hb, elem_of_app. by right. }
    exists p2, free2, held2. split; [done|]. split; [done|]. split; [|by eapply same_cache_trans].
    rewrite Hp2, Hp1, real_app, !app_assoc. by rewrite (Permutation_app_comm (real (concat bss))).
Qed.

Lemma cache_loop_inv hash_fn NONE_HASH p r nh nc bs g l i prev p' app values :
  cache_inv (num_gpu_blocks p) (block_hash p) (cached_block_hash_to_block p) ->
  (forall n, n ∈ l -> 0 < Z.of_nat n < num_gpu_blocks p) ->
  cache_loop hash_fn NONE_HASH p r nh nc bs g (map Blk l) i prev = Ok (p', app, values) ->
  same_core p p' /\ cache_inv (num_gpu_blocks p) (block_hash p') (cached_block_hash_to_block p').
Proof.
  revert i prev p p' app values. induction l as [|n l IH]; intros i prev p p' app values Hc Hl; cbn [map cache_loop].
  { intros [= <- _ _]. split; [by split|done]. }
  destruct (block_hash p (Blk n)) eqn:Hn; [done|]. cbn [py_assert bind].
  destruct (full_block_hash _ _ _ _ _ _ _ _) as [[h a]|e]; [|done]. cbn [bind].
  set (p1 := with_cache p _ _). destruct (cache_loop _ _ p1 _ _ _ _ _ _ _ _) as [[[p2 m] v]|e] eqn:E; [|done].
  cbn [bind]. intros [= <- _ _]. apply IH in E.
  - destruct E as [[] Hc']. split; [by split|done].
  - apply cache_inv_insert; [done|done|]. apply Hl. left.
  - intros m' Hm. apply Hl. by right.
Qed.

Lemma cache_full_blocks_inv hash_fn NONE_HASH p free held r l hashes nc nf bs g p' hashes' :
  pool_inv p free held -> (forall n, n ∈ py_slice l nc nf -> 0 < Z.of_nat n < num_gpu_blocks p) ->
  cache_full_blocks hash_fn NONE_HASH p r (map Blk l) hashes nc nf bs g = Ok (p', hashes') ->
  pool_inv p' free held.
Proof.
  intros Hinv Hl. unfold cache_full_blocks. destruct (nc =? nf); [by intros [= <- _]|].
  destruct (nc <=? _); [|done]. cbn [py_assert bind].
  destruct (if nc =? 0 then _ else _) as [pv|e]; [|done]. cbn [bind]. rewrite map_Blk_slice.
  destruct (cache_loop _ _ _ _ _ _ _ _ _ _ _) as [[[p1 app] values]|e] eqn:E; [|done]. cbn [bind].
  apply cache_loop_inv in E as [Hs Hc]; [|apply Hinv|done].
  assert (Hinv1 : pool_inv p1 free held) by (by eapply same_core_inv).
  destruct (enable_kv_cache_events p1); [|by intros [= <- _]].
  destruct (lora_request r); cbn [bind]; [done|]. intros [= <- _].
  match goal with |- pool_inv (emit _ ?ev) _ _ => destruct (emit_fields p1 ev) as (Hs' & Eh & Ec) end.
  eapply same_core_inv; [done|done|]. rewrite Eh, Ec. apply Hinv1.
Qed.

(** What the managers do with the pool.  A caller frees references it holds,
    each block once per call, and caches and touches real blocks. *)
Inductive pool_step (hash_fn : Z * list Z * option (list ExtraKey) -> Z) (NONE_HASH : Z) :
    BlockPool * list nat -> BlockPool * list nat -> Prop :=
| step_new p held n l p' :
    0 <= n -> get_new_blocks p n = Ok (map Blk l, p') ->
    pool_step hash_fn NONE_HASH (p, held) (p', l ++ held)
| step_touch p held bss p' :
    (forall n, n ∈ concat bss -> Z.of_nat n < num_gpu_blocks p) -> touch p (map (map Blk) bss) = Ok p' ->
    pool_step hash_fn NONE_HASH (p, held) (p', real (concat bss) ++ held)
| step_free p held bs held' p' :
    NoDup (real bs) -> real bs ++ held' ≡ₚ held -> free_blocks p (map Blk bs) = Ok p' ->
    pool_step hash_fn NONE_HASH (p, held) (p', held')
| step_cache p held r l hashes nc nf bs g p' hashes' :
    (forall n, n ∈ py_slice l nc nf -> 0 < Z.of_nat n < num_gpu_blocks p) ->
    cache_full_blocks hash_fn NONE_HASH p r (map Blk l) hashes nc nf bs g = Ok (p', hashes') ->
    pool_step hash_fn NONE_HASH (p, held) (p', held)
| step_reset p held : pool_step hash_fn NONE_HASH (p, held) (snd (reset_prefix_cache p), held)
| step_events p held : pool_step hash_fn NONE_HASH (p, held) (snd (take_events p), held).

Lemma get_new_blocks_split p free held n l p' :
  pool_inv p free held -> 0 <= n -> get_new_blocks p n = Ok (map Blk l, p') ->
  exists free', free = l ++ free' /\ Z.of_nat (length l) = n /\ pool_inv p' free' (l ++ held).
Proof.
  intros Hinv Hn Hget. destruct (Z.lt_ge_cases (Z.of_nat (length free)) n) as [Hlt|Hge].
  { unfold get_new_blocks, get_num_free_blocks in Hget.
    by rewrite (fl_num _ _ (pi_queue _ _ _ Hinv)), (proj2 (Z.ltb_lt _ _)) in Hget. }
  rewrite <-(take_drop (Z.to_nat n) free) in Hinv.
  destruct (get_new_blocks_aux _ _ _ _ Hinv) as (p2 & Hok & Hinv2 & _).
  rewrite length_take, Nat.min_l, Z2Nat.id in Hok by lia. rewrite Hok in Hget. injection Hget as Hl <-.
  assert (take (Z.to_nat n) free = l) as <- by (by eapply (list_fmap_eq_inj Blk); [intros ?? [= ->]|]).
  exists (drop (Z.to_nat n) free). rewrite take_drop, length_take. split; [done|]. split; [lia|done].
Qed.

Lemma pool_step_inv hash_fn NONE_HASH p held p' held' free :
  pool_inv p free held -> pool_step hash_fn NONE_HASH (p, held) (p', held') -> exists free', pool_inv p' free' held'.
Proof.
  intros Hinv Hstep. inversion Hstep as [????? Hn Hget|???? Hb Ht|????? Hnd Hp Hf|??????????? Hl Hc| |]; subst.
  - destruct (get_new_blocks_split _ _ _ _ _ _ Hinv Hn Hget) as (free' & _ & _ & H). eauto.
  - destruct (touch_aux _ _ _ _ Hinv Hb) as (p2 & free2 & held2 & Ht2 & Hinv2 & Hp2 & _).
    rewrite Ht2 in Ht. injection Ht as <-. exists free2. by eapply pool_inv_perm.
  - destruct (free_blocks_aux _ _ _ _ _ Hinv Hnd Hp) as (p2 & Hf2 & Hinv2 & _). rewrite Hf2 in Hf. injection Hf as <-. eauto.
  - exists free. by eapply cache_full_blocks_inv.
  - exists free. destruct (reset_prefix_cache_aux _ _ _ Hinv) as (_ & H1 & H2).
    destruct (fst (reset_prefix_cache p)); [by apply H2|by rewrite H1].
  - exists free. unfold take_events. destruct (enable_kv_cache_events p) eqn:E; cbn; [|done].
    destruct Hinv. by split.
Qed.

(** ** Main statements *)

(** C27. The block pool never loses, duplicates or leaks a block: in every pool
    reached from the initial one by allocating, touching, freeing, caching,
    resetting and draining events, the links of the free queue represent a list
    of distinct blocks, a block is in it exactly if nobody holds it, the
    reference count of a block is the number of references held, and the prefix
    cache lists exactly the blocks with their hashes. *)
Theorem block_pool_reachable hash_fn NONE_HASH n caching events p0 p held :
  make_block_pool (Z.of_nat (S n)) caching events = Ok p0 ->
  rtc (pool_step hash_fn NONE_HASH) (p0, []) (p, held) -> exists free, pool_inv p free held.
Proof.
  intros Hmake Hsteps. destruct (make_block_pool_aux n caching events) as (p1 & Hok & Hinv & _).
  rewrite Hok in Hmake. injection Hmake as ->.
  assert (Hgen : forall s s', rtc (pool_step hash_fn NONE_HASH) s s' ->
            (exists free, pool_inv (fst s) free (snd s)) -> exists free, pool_inv (fst s') free (snd s')).
  { intros s s' H. induction H as [|[a ha] [b hb] c Hstep _ IH]; [done|]. intros [free Hf]. apply IH.
    by eapply pool_step_inv. }
  apply (Hgen _ _ Hsteps). by exists (seq 1 n).
Qed.

(** The operations of a consistent pool: allocation hands out the least
    recently freed blocks, without hash when caching is on, or raises exactly
    when there are too few; freeing makes the blocks that nobody else holds
    available again, behind all others and in the given order, with their hashes
    kept; touching protects blocks from being handed out. *)
Theorem block_pool_ops_ok p free held :
  pool_inv p free held ->
  (forall n, 0 <= n <= Z.of_nat (length free) -> exists p',
     get_new_blocks p n = Ok (map Blk (take (Z.to_nat n) free), p') /\
     pool_inv p' (drop (Z.to_nat n) free) (take (Z.to_nat n) free ++ held) /\
     (enable_caching p = true -> forall b, b ∈ take (Z.to_nat n) free -> block_hash p' (Blk b) = None) /\
     (forall b, b ∉ take (Z.to_nat n) free -> block_hash p' (Blk b) = block_hash p (Blk b))) /\
  (forall n, Z.of_nat (length free) < n -> get_new_blocks p n = Raise ValueError) /\
  (forall bs held', NoDup (real bs) -> real bs ++ held' ≡ₚ held -> exists p',
     free_blocks p (map Blk bs) = Ok p' /\ pool_inv p' (free ++ released bs held') held' /\ block_hash p' = block_hash p) /\
  (forall bss, (forall n, n ∈ concat bss -> Z.of_nat n < num_gpu_blocks p) -> exists p' free' held',
     touch p (map (map Blk) bss) = Ok p' /\ pool_inv p' free' held' /\ held' ≡ₚ real (concat bss) ++ held /\
     block_hash p' = block_hash p).
Proof.
  intros Hinv. split; [|split; [|split]].
  - intros n Hn. pose proof Hinv as Hinv'. rewrite <-(take_drop (Z.to_nat n) free) in Hinv'.
    destruct (get_new_blocks_aux _ _ _ _ Hinv') as (p' & Hok & Hinv2 & Hh & Hnew & _).
    rewrite length_take, Nat.min_l, Z2Nat.id in Hok by lia. exists p'. split; [done|]. split; [done|].
    split; [done|]. intros b Hb. apply Hh. by intros (? & [= ->] & ?)%list_elem_of_fmap.
  - intros n Hn. unfold get_new_blocks, get_num_free_blocks.
    by rewrite (fl_num _ _ (pi_queue _ _ _ Hinv)), (proj2 (Z.ltb_lt _ _)).
  - intros bs held' Hnd Hp. destruct (free_blocks_aux _ _ _ _ _ Hinv Hnd Hp) as (p' & H1 & H2 & Hs).
    exists p'. split; [done|]. split; [done|]. apply Hs.
  - intros bss Hb. destruct (touch_aux _ _ _ _ Hinv Hb) as (p' & f' & h' & H1 & H2 & H3 & Hs).
    exists p', f', h'. split; [done|]. split; [done|]. split; [done|]. apply Hs.
Qed.

(** Caching the full blocks of a request succeeds, keeps the pool
    consistent and makes every one of them a hit: the (extended) list of hashes
    has an entry for it and looking that hash up returns a block that carries it. *)
Theorem cached_blocks_hit hash_fn NONE_HASH p free held r l hashes nc nf bs g :
  pool_inv p free held -> mm_hashed r -> 0 <= bs -> (nc <= nf <= length l)%nat -> (nc <= length hashes)%nat ->
  Z.of_nat nf * bs <= Z.of_nat (length (all_token_ids r)) ->
  NoDup (take (nf - nc) (drop nc l)) ->
  (forall n, n ∈ take (nf - nc) (drop nc l) -> 0 < Z.of_nat n < num_gpu_blocks p /\ block_hash p (Blk n) = None) ->
  (forall n, (0 < nc)%nat -> l !! (nc - 1)%nat = Some n -> is_Some (block_hash p (Blk n))) ->
  (enable_kv_cache_events p = true -> lora_request r = None) ->
  exists p' app, cache_full_blocks hash_fn NONE_HASH p r (map Blk l) hashes (Z.of_nat nc) (Z.of_nat nf) bs g
                   = Ok (p', hashes ++ app) /\
    pool_inv p' free held /\
    forall j n, (nc <= j < nf)%nat -> l !! j = Some n -> exists h b, (hashes ++ app) !! j = Some h /\
      block_hash p' (Blk n) = Some {| block_hash_of := h; group_id := g |} /\
      get_cached_block p' h [g] = Some [b] /\ block_hash p' b = Some {| block_hash_of := h; group_id := g |}.
Proof.
  intros Hinv H1 H2 H3 H4 H5 H6 H7 H8 H9.
  destruct (cache_full_blocks_aux hash_fn NONE_HASH _ _ _ _ _ _ _ _ _ g Hinv H1 H2 H3 H4 H5 H6 H7 H8 H9)
    as (p' & app & Hok & _ & Hinv' & Hin & _).
  exists p', app. split; [done|]. split; [done|]. intros j n Hj Hl. destruct (Hin j n Hj Hl) as (h & Hh & Hb).
  pose proof (get_cached_block_ok p' h [g] (pi_cache _ _ _ Hinv')) as Hget.
  destruct (get_cached_block p' h [g]) as [lb|] eqn:Eget.
  - destruct lb as [|b lb]; [by inversion Hget|]. apply Forall2_cons in Hget as [Hb' Hnil].
    apply Forall2_nil_inv_l in Hnil as ->. exists h, b. done.
  - destruct Hget as (g' & ->%list_elem_of_singleton & Hno). by destruct (Hno (Blk n)).
Qed.

(** A lookup is exact: it returns one block per group that carries the hash
    for that group, and misses only if some group has no such block. *)
Theorem get_cached_block_exact p free held h gs :
  pool_inv p free held ->
  match get_cached_block p h gs with
  | Some l => Forall2 (fun g b => block_hash p b = Some {| block_hash_of := h; group_id := g |} /\
                exists n, b = Blk n /\ 0 < Z.of_nat n < num_gpu_blocks p) gs l
  | None => exists g, g ∈ gs /\ forall b, block_hash p b <> Some {| block_hash_of := h; group_id := g |}
  end.
Proof.
  intros Hinv. pose proof (get_cached_block_ok p h gs (pi_cache _ _ _ Hinv)) as H.
  destruct (get_cached_block p h gs) as [l|]; [|done]. eapply Forall2_impl; [exact H|].
  intros g b Hb. split; [done|]. exact (ci_real _ _ _ (pi_cache _ _ _ Hinv) _ _ Hb).
Qed.

(** ** Concrete pools *)

Definition pool4 : BlockPool :=
  match make_block_pool 4 true false with Ok p => p | Raise _ =>
    {| num_gpu_blocks := 0; enable_caching := false; free_block_queue := make_queue []; ref_cnt := fun _ => 0;
       block_hash := fun _ => None; is_null := fun _ => false; cached_block_hash_to_block := ∅; null_block := FakeHead;
       enable_kv_cache_events := false; kv_event_queue := [] |} end.
Definition pool4_used : BlockPool :=
  match get_new_blocks pool4 2 with Ok (_, p) => p | Raise _ => pool4 end.

Lemma pool4_inv : pool_inv pool4 [1; 2; 3]%nat [].
Proof. destruct (make_block_pool_aux 3 true false) as (p & H & Hinv & _). change (Z.of_nat 4) with 4 in H.
  unfold pool4. rewrite H. exact Hinv. Qed.

Lemma pool4_used_ok : get_new_blocks pool4 2 = Ok ([Blk 1; Blk 2], pool4_used).
Proof.
  destruct (get_new_blocks_aux pool4 [1; 2]%nat [3]%nat [] pool4_inv) as (p & H & _).
  change (Z.of_nat (length [1; 2]%nat)) with 2 in H. unfold pool4_used. rewrite H. reflexivity.
Qed.
Lemma pool4_used_inv : pool_inv pool4_used [3]%nat [1; 2]%nat.
Proof.
  destruct (get_new_blocks_aux pool4 [1; 2]%nat [3]%nat [] pool4_inv) as (p & H & Hinv & _).
  unfold pool4_used. change (Z.of_nat (length [1; 2]%nat)) with 2 in H. rewrite H. exact Hinv.
Qed.

Lemma block_pool_reachable_witness :
  rtc (pool_step coded_hash (-1)) (pool4, []) (pool4_used, [1; 2]%nat) /\ exists free, pool_inv pool4_used free [1; 2]%nat.
Proof.
  assert (H : rtc (pool_step coded_hash (-1)) (pool4, []) (pool4_used, [1; 2]%nat)).
  { apply rtc_once. apply (step_new _ _ pool4 [] 2 [1; 2]%nat); [lia|exact pool4_used_ok]. }
  split; [exact H|]. apply (block_pool_reachable coded_hash (-1) 3 true false pool4 pool4_used [1; 2]%nat); [|exact H].
  destruct (make_block_pool_aux 3 true false) as (p & Hm & _). change (Z.of_nat 4) with 4 in Hm |- *.
  unfold pool4. rewrite Hm. reflexivity.
Defined.

Lemma block_pool_ops_ok_witness :
  exists p', get_new_blocks pool4 2 = Ok ([Blk 1; Blk 2], p') /\ pool_inv p' [3]%nat [1; 2]%nat.
Proof.
  destruct (block_pool_ops_ok pool4 [1; 2; 3]%nat [] pool4_inv) as (H & _).
  destruct (H 2 ltac:(cbn; lia)) as (p' & H1 & H2 & _). exists p'. split; [exact H1|exact H2].
Defined.

(** Block 1 filled with the tokens 5, 6. *)
Lemma cached_blocks_hit_witness :
  exists p' app, cache_full_blocks coded_hash (-1) pool4_used (plain_request "a" [5; 6; 7]) [Blk 1; Blk 2] [] 0 1 2 0
                   = Ok (p', app) /\ exists h b, app !! 0%nat = Some h /\ get_cached_block p' h [0] = Some [b].
Proof.
  destruct (cached_blocks_hit coded_hash (-1) pool4_used [3]%nat [1; 2]%nat (plain_request "a" [5; 6; 7]) [1; 2]%nat [] 0 1 2 0
              pool4_used_inv) as (p' & app & H & _ & Hin).
  - split; [reflexivity|constructor].
  - lia.
  - cbn; lia.
  - cbn; lia.
  - cbn; lia.
  - apply NoDup_singleton.
  - intros n Hn. apply list_elem_of_singleton in Hn. subst n. split; [split; reflexivity|reflexivity].
  - intros n Hn. lia.
  - intros _. reflexivity.
  - exists p', app. split; [exact H|]. destruct (Hin 0%nat 1%nat ltac:(lia) eq_refl) as (h & b & Hh & _ & Hg & _).
    exists h, b. split; [exact Hh|exact Hg].
Defined.

Lemma get_cached_block_exact_witness :
  get_cached_block pool4 {| hash_value := 1; token_ids := [5]; extra_keys := None |} [0] = None /\
  exists g, g ∈ [0] /\ forall b, block_hash pool4 b <> Some {| block_hash_of := {| hash_value := 1; token_ids := [5]; extra_keys := None |}; group_id := g |}.
Proof.
  assert (E : get_cached_block pool4 {| hash_value := 1; token_ids := [5]; extra_keys := None |} [0] = None) by reflexivity.
  split; [exact E|].
  pose proof (get_cached_block_exact pool4 [1; 2; 3]%nat [] {| hash_value := 1; token_ids := [5]; extra_keys := None |} [0] pool4_inv) as H.
  rewrite E in H. exact H.
Defined.
