(* ===== verification/KVCacheInterface.v ===== *)
(** * KV cache specifications ([v1/kv_cache_interface.py])

    The format of the KV cache of one layer: block size, page size, the memory
    that one request can need, and the merge of the layers of a group. *)

From stdpp Require Import base strings list.
From Stdlib Require Import ZArith Lia.
From S2P Require Import Prelude.
Open Scope list_scope.
Open Scope Z_scope.

(** The fields that [AttentionSpec] adds to the block size. *)
Record AttentionFields : Set := {
  num_kv_heads : Z;
  head_size : Z;
  kv_dtype : Dtype;
  use_mla : bool }.
#[export] Instance AttentionFields_eq_dec : EqDecision AttentionFields.
Proof. solve_decision. Defined.

(** The frozen dataclasses; two are equal if they have the same class and the
    same fields. *)
Inductive KVCacheSpec : Set :=
| FullAttentionSpec (block_size : Z) (att : AttentionFields) (sliding_window attention_chunk_size : option Z)
| ChunkedLocalAttentionSpec (block_size : Z) (att : AttentionFields) (attention_chunk_size : Z)
| SlidingWindowSpec (block_size : Z) (att : AttentionFields) (sliding_window : Z)
| MambaSpec (block_size : Z) (shapes : list (list Z)) (mamba_dtype : Dtype) (page_size_padded : option Z)
    (mamba_type : string).
#[export] Instance KVCacheSpec_eq_dec : EqDecision KVCacheSpec.
Proof. solve_decision. Defined.

(** [SlidingWindowSpec.__post_init__] *)
Definition mk_SlidingWindowSpec (block_size : Z) (att : AttentionFields) (sliding_window : Z) : res KVCacheSpec :=
  py_assert (negb (use_mla att)) ;;! Ok (SlidingWindowSpec block_size att sliding_window).

Definition spec_block_size (s : KVCacheSpec) : Z :=
  match s with
  | FullAttentionSpec b _ _ _ | SlidingWindowSpec b _ _ | ChunkedLocalAttentionSpec b _ _ | MambaSpec b _ _ _ _ => b
  end.

(** [math.prod] *)
Definition prod_list (l : list Z) : Z := fold_right Z.mul 1 l.

(** [page_size_bytes] of [AttentionSpec] and of [MambaSpec]. *)
Definition attention_page_size (block_size : Z) (a : AttentionFields) : Z :=
  let coef := if use_mla a then 1 else 2 in
  coef * block_size * num_kv_heads a * head_size a * get_dtype_size (kv_dtype a).
Definition page_size_bytes (s : KVCacheSpec) : res Z :=
  match s with
  | FullAttentionSpec b a _ _ | ChunkedLocalAttentionSpec b a _ | SlidingWindowSpec b a _ =>
      Ok (attention_page_size b a)
  | MambaSpec _ shapes d padded _ =>
      let num_elements := zsum (map prod_list shapes) in
      let page_size := num_elements * get_dtype_size d in
      match padded with
      | Some page_size_padded => py_assert (page_size <=? page_size_padded) ;;! Ok page_size_padded
      | None => Ok page_size
      end
  end.

(** The fields of [VllmConfig] that the KV cache configuration reads. *)
Record VllmConfig : Set := {
  max_model_len : Z;
  max_num_batched_tokens : Z;
  num_gpu_blocks_override : option Z;
  disable_hybrid_kv_cache_manager : bool }.
Definition with_max_model_len (c : VllmConfig) (n : Z) : VllmConfig :=
  {| max_model_len := n; max_num_batched_tokens := max_num_batched_tokens c;
     num_gpu_blocks_override := num_gpu_blocks_override c;
     disable_hybrid_kv_cache_manager := disable_hybrid_kv_cache_manager c |}.

(** [cdiv] of [vllm.utils]. *)
Definition py_cdiv (a b : Z) : res Z := let! q := py_div a (- b) in Ok (- q).
Lemma py_cdiv_ok a b : 0 < b -> py_cdiv a b = Ok (cdiv a b).
Proof. intros Hb. unfold py_cdiv, py_div. destruct (Z.eqb_spec (- b) 0); [lia|]. done. Qed.

(** [max_memory_usage_bytes] of the four classes. *)
Definition spec_max_memory_usage_bytes (c : VllmConfig) (s : KVCacheSpec) : res Z :=
  match s with
  | FullAttentionSpec b a _ _ =>
      let! n := py_cdiv (max_model_len c) b in Ok (n * attention_page_size b a)
  | ChunkedLocalAttentionSpec b a chunk =>
      let num_tokens := Z.min (chunk + max_num_batched_tokens c) (max_model_len c) in
      let! n := py_cdiv num_tokens b in Ok (n * attention_page_size b a)
  | SlidingWindowSpec b a window =>
      let num_tokens := Z.min (window - 1 + max_num_batched_tokens c) (max_model_len c) in
      let! n := py_cdiv num_tokens b in Ok ((n + 1) * attention_page_size b a)
  | MambaSpec _ _ _ _ _ => page_size_bytes s
  end.

(** ** Merging the layers of a group *)

(** [FullAttentionSpec.merge_window_sizes] on the set of the given sizes. *)
Definition merge_window_sizes (window_sizes : list Z) : res (option Z) :=
  match remove_dups window_sizes with
  | [] => Ok None
  | [w] => Ok (Some w)
  | _ => Raise ValueError
  end.

Definition is_full (s : KVCacheSpec) : bool := match s with FullAttentionSpec _ _ _ _ => true | _ => false end.
Definition sliding_window_of (s : KVCacheSpec) : option Z :=
  match s with FullAttentionSpec _ _ w _ => w | _ => None end.
Definition chunk_size_of (s : KVCacheSpec) : option Z :=
  match s with FullAttentionSpec _ _ _ c => c | _ => None end.
(** The fields of [AttentionSpec]. *)
Definition attention_fields (s : KVCacheSpec) : option (Z * AttentionFields) :=
  match s with
  | FullAttentionSpec b a _ _ | ChunkedLocalAttentionSpec b a _ | SlidingWindowSpec b a _ => Some (b, a)
  | MambaSpec _ _ _ _ _ => None
  end.

(** [specs[0].merge(specs)]: the class of the first spec decides. *)
Definition merge (specs : list KVCacheSpec) : res KVCacheSpec :=
  match specs with
  | [] => Raise IndexError
  | FullAttentionSpec b a _ _ :: _ =>
      py_assert (forallb is_full specs) ;;!
      (let! sliding_window := merge_window_sizes (omap sliding_window_of specs) in
       let! attention_chunk_size := merge_window_sizes (omap chunk_size_of specs) in
       py_assert (forallb (fun s => bool_decide (attention_fields s = Some (b, a))) specs) ;;!
       py_assert (negb (bool_decide (is_Some sliding_window) && bool_decide (is_Some attention_chunk_size))) ;;!
       Ok (FullAttentionSpec b a sliding_window attention_chunk_size))
  | s :: rest => py_assert (forallb (fun t => bool_decide (t = s)) rest) ;;! Ok s
  end.

(** ** The configuration of a model *)

(** [KVCacheTensor], [KVCacheGroupSpec] and [KVCacheConfig]. *)
Record KVCacheTensor : Set := { tensor_size : Z; shared_by : list string }.
Record KVCacheGroupSpec : Set := { layer_names : list string; group_spec : KVCacheSpec }.
Record KVCacheConfig : Set := {
  num_blocks : Z;
  kv_cache_tensors : list KVCacheTensor;
  kv_cache_groups : list KVCacheGroupSpec }.

(** ** Properties of specifications *)

(** A format with a positive block size and no negative memory. *)
Definition spec_ok (s : KVCacheSpec) : Prop :=
  0 < spec_block_size s /\ exists page, page_size_bytes s = Ok page /\ 0 <= page.

(** The memory of a request does not shrink when the model length grows. *)
Lemma max_memory_mono c s n n' :
  spec_ok s -> n <= n' -> exists u u', spec_max_memory_usage_bytes (with_max_model_len c n) s = Ok u /\
    spec_max_memory_usage_bytes (with_max_model_len c n') s = Ok u' /\ u <= u'.
Proof.
  intros (Hb & page & Hp & Hpage) Hn. destruct s as [b a ? ?|b a chunk|b a window|]; cbn in *.
  4: { exists page, page. rewrite Hp. done. }
  all: injection Hp as Hp; rewrite !py_cdiv_ok by done; cbn [bind]; eexists _, _; split; [done|]; split; [done|].
  all: subst page.
  - pose proof (cdiv_mono n n' b Hb Hn). nia.
  - pose proof (cdiv_mono (Z.min (chunk + max_num_batched_tokens c) n) (Z.min (chunk + max_num_batched_tokens c) n') b Hb ltac:(lia)). nia.
  - pose proof (cdiv_mono (Z.min (window - 1 + max_num_batched_tokens c) n) (Z.min (window - 1 + max_num_batched_tokens c) n') b Hb ltac:(lia)). nia.
Qed.

Lemma merge_window_sizes_in l w : merge_window_sizes l = Ok w -> forall x, x ∈ l -> w = Some x.
Proof.
  unfold merge_window_sizes. destruct (remove_dups l) as [|y [|z r]] eqn:E; [| |done]; intros [= <-] x Hx.
  all: rewrite <-elem_of_remove_dups, E in Hx.
  - by apply elem_of_nil in Hx.
  - by apply list_elem_of_singleton in Hx as ->.
Qed.

(** A merged format has the block size and page size of every layer. *)
Lemma merge_ok specs s t :
  merge specs = Ok s -> t ∈ specs ->
  is_full t = is_full s /\ (is_full s = false -> t = s) /\ attention_fields t = attention_fields s /\
  spec_block_size t = spec_block_size s /\ page_size_bytes t = page_size_bytes s.
Proof.
  intros Hm Ht. destruct specs as [|s0 rest]; [done|].
  destruct (is_full s0) eqn:Hfull.
  - destruct s0 as [b a w c| | |]; try done. cbn [merge] in Hm. remember (FullAttentionSpec b a w c :: rest) as specs.
    inv_res Hm. subst s. rewrite forallb_forall in Hm0, Hm3.
    specialize (Hm0 t (proj1 (list_elem_of_In _ _) Ht)). specialize (Hm3 t (proj1 (list_elem_of_In _ _) Ht)).
    apply bool_decide_eq_true in Hm3. destruct t as [b' a' w' c'| | |]; try done. cbn in Hm3. by injection Hm3 as -> ->.
  - assert (Hm' : (py_assert (forallb (fun t => bool_decide (t = s0)) rest) ;;! Ok s0) = Ok s) by (by destruct s0).
    inv_res Hm'. subst s. rewrite forallb_forall in Hm'0. apply elem_of_cons in Ht as [->|Ht]; [done|].
    specialize (Hm'0 t (proj1 (list_elem_of_In _ _) Ht)). apply bool_decide_eq_true in Hm'0 as ->. done.
Qed.

(** A concrete attention format. *)
Definition demo_attention : AttentionFields := {| num_kv_heads := 1; head_size := 1; kv_dtype := bfloat16; use_mla := false |}.
Definition demo_spec (b : Z) : KVCacheSpec := FullAttentionSpec b demo_attention None None.
