(* ===== verification/SingleType.v ===== *)
(** * The managers of one attention type ([v1/core/single_type_kv_cache_manager.py])

    One manager per KV cache group: which blocks a request holds, which of them
    are cached, prefix lookups and the release of blocks outside the attention
    window.  The conservation theorem frames the references of the other groups. *)

From stdpp Require Import base functions gmap strings list fin_maps.
From Stdlib Require Import ZArith Lia.
From S2P Require Import Prelude FreeQueue Request BlockHash BlockPool KVCacheInterface.
Open Scope string_scope.
Open Scope list_scope.
Open Scope Z_scope.

(** The manager classes differ in their [kv_cache_spec] ([spec_manager_map]). *)
Record Manager : Type := {
  kv_cache_spec : KVCacheSpec;
  kv_cache_group_id : Z;
  req_to_blocks : gmap string (list Ref);
  num_cached_block : gmap string Z }.
Definition get_manager_for_kv_cache_spec (spec : KVCacheSpec) (group : Z) : Manager :=
  {| kv_cache_spec := spec; kv_cache_group_id := group; req_to_blocks := ∅; num_cached_block := ∅ |}.
Definition block_size (m : Manager) : Z := spec_block_size (kv_cache_spec m).

Definition with_blocks (m : Manager) (b : gmap string (list Ref)) : Manager :=
  {| kv_cache_spec := kv_cache_spec m; kv_cache_group_id := kv_cache_group_id m; req_to_blocks := b;
     num_cached_block := num_cached_block m |}.
Definition with_num_cached (m : Manager) (c : gmap string Z) : Manager :=
  {| kv_cache_spec := kv_cache_spec m; kv_cache_group_id := kv_cache_group_id m;
     req_to_blocks := req_to_blocks m; num_cached_block := c |}.

(** [self.req_to_blocks[request_id]] on a defaultdict: reading creates the entry. *)
Definition blocks_of (m : Manager) (id : string) : list Ref := default [] (req_to_blocks m !! id).
Definition set_blocks (m : Manager) (id : string) (bl : list Ref) : Manager :=
  with_blocks m (<[id := bl]> (req_to_blocks m)).
Definition ensure (m : Manager) (id : string) : Manager := set_blocks m id (blocks_of m id).

(** [get_num_blocks_to_allocate] *)
Definition get_num_blocks_to_allocate (p : BlockPool) (m : Manager) (request_id : string) (num_tokens : Z)
    (new_computed_blocks : list Ref) : res (Z * Manager) :=
  let! num_required_blocks := py_cdiv num_tokens (block_size m) in
  let m := ensure m request_id in
  let num_new_blocks := num_required_blocks - Z.of_nat (length new_computed_blocks)
                        - Z.of_nat (length (blocks_of m request_id)) in
  let num_evictable_computed_blocks :=
    Z.of_nat (length (List.filter (fun b => (ref_cnt p b =? 0) && negb (is_null p b)) new_computed_blocks)) in
  Ok (num_new_blocks + num_evictable_computed_blocks, m).

(** [save_new_computed_blocks] *)
Definition save_new_computed_blocks (m : Manager) (request_id : string) (new_computed_blocks : list Ref) : res Manager :=
  match num_cached_block m !! request_id with
  | None =>
      let m := ensure m request_id in
      py_assert (length (blocks_of m request_id) =? 0)%nat ;;!
      (let m := set_blocks m request_id (blocks_of m request_id ++ new_computed_blocks) in
       Ok (with_num_cached m (<[request_id := Z.of_nat (length new_computed_blocks)]> (num_cached_block m))))
  | Some _ => py_assert (length new_computed_blocks =? 0)%nat ;;! Ok m
  end.

(** [allocate_new_blocks] of the base class, and with the Mamba override. *)
Definition base_allocate_new_blocks (p : BlockPool) (m : Manager) (request_id : string) (num_tokens : Z) :
    res (list Ref * BlockPool * Manager) :=
  let m := ensure m request_id in
  let req_blocks := blocks_of m request_id in
  let! num_required_blocks := py_cdiv num_tokens (block_size m) in
  let num_new_blocks := num_required_blocks - Z.of_nat (length req_blocks) in
  if num_new_blocks <=? 0 then Ok ([], p, m)
  else
    let! '(new_blocks, p) := get_new_blocks p num_new_blocks in
    Ok (new_blocks, p, set_blocks m request_id (req_blocks ++ new_blocks)).
Definition allocate_new_blocks (p : BlockPool) (m : Manager) (request_id : string) (num_tokens : Z) :
    res (list Ref * BlockPool * Manager) :=
  let! '(new_blocks, p, m) := base_allocate_new_blocks p m request_id num_tokens in
  match kv_cache_spec m with
  | MambaSpec _ _ _ _ _ => py_assert (length (blocks_of m request_id) =? 1)%nat ;;! Ok (new_blocks, p, m)
  | _ => Ok (new_blocks, p, m)
  end.

(** [free] *)
Definition free (p : BlockPool) (m : Manager) (request_id : string) : res (BlockPool * Manager) :=
  let req_blocks := blocks_of m request_id in
  let m := with_blocks m (delete request_id (req_to_blocks m)) in
  let! p := free_blocks p (List.rev req_blocks) in
  Ok (p, with_num_cached m (delete request_id (num_cached_block m))).

Section hashing.
Context (hash_fn : Z * list Z * option (list ExtraKey) -> Z) (NONE_HASH : Z).
(** [cache_blocks]; the last component is the mutated [block_hashes]. *)
Definition cache_blocks (p : BlockPool) (m : Manager) (request : Request) (block_hashes : list BlockHash)
    (num_tokens : Z) : res (BlockPool * Manager * list BlockHash) :=
  let! num_cached_blocks := of_option KeyError (num_cached_block m !! request_id request) in
  let! num_full_blocks := py_div num_tokens (block_size m) in
  let m := ensure m (request_id request) in
  let! '(p, block_hashes) := cache_full_blocks hash_fn NONE_HASH p request (blocks_of m (request_id request)) block_hashes
                               num_cached_blocks num_full_blocks (block_size m) (kv_cache_group_id m) in
  Ok (p, with_num_cached m (<[request_id request := num_full_blocks]> (num_cached_block m)), block_hashes).
End hashing.

(** [get_num_common_prefix_blocks] *)
Fixpoint common_prefix (p : BlockPool) (blocks : list Ref) (num_running_requests : Z) : Z :=
  match blocks with
  | [] => 0
  | b :: blocks => if ref_cnt p b =? num_running_requests then 1 + common_prefix p blocks num_running_requests else 0
  end.
Definition get_num_common_prefix_blocks (p : BlockPool) (m : Manager) (request_id : string)
    (num_running_requests : Z) : Z * Manager :=
  match kv_cache_spec m with
  | FullAttentionSpec _ _ _ _ =>
      let m := ensure m request_id in (common_prefix p (blocks_of m request_id) num_running_requests, m)
  | _ => (0, m)
  end.

(** ** Prefix lookups *)

(** [for computed, cached in zip(computed_blocks, cached_block): computed.append(cached)] *)
Definition append_each (computed : list (list Ref)) (cached : list Ref) : list (list Ref) :=
  zip_with (fun c b => c ++ [b]) (take (length cached) computed) cached ++ drop (length cached) computed.
Definition set_each (i : nat) (computed : list (list Ref)) (cached : list Ref) : list (list Ref) :=
  zip_with (fun c b => <[i := b]> c) (take (length cached) computed) cached ++ drop (length cached) computed.

(** [if use_eagle and computed_blocks[0]: pop the last block of every group] *)
Definition eagle_drop (use_eagle : bool) (computed : list (list Ref)) : res (list (list Ref)) :=
  if negb use_eagle then Ok computed
  else
    match computed with
    | [] => Raise IndexError
    | [] :: _ => Ok computed
    | _ => if existsb (fun c => match c with [] => true | _ => false end) computed then Raise IndexError
           else Ok (map (@removelast Ref) computed)
    end.

(** Consecutive hits from the left ([FullAttentionManager], [ChunkedLocalAttentionManager]). *)
Fixpoint hit_loop (p : BlockPool) (gids : list Z) (hashes : list BlockHash) (computed : list (list Ref)) :
    list (list Ref) :=
  match hashes with
  | [] => computed
  | h :: hashes =>
      match get_cached_block p h gids with
      | None | Some [] => computed
      | Some cached => hit_loop p gids hashes (append_each computed cached)
      end
  end.

Definition full_find_longest_cache_hit (p : BlockPool) (block_hashes : list BlockHash) (max_length : Z)
    (kv_cache_group_ids : list Z) (spec : KVCacheSpec) (use_eagle : bool) : res (list (list Ref)) :=
  py_assert (match spec with FullAttentionSpec _ _ _ _ | ChunkedLocalAttentionSpec _ _ _ => true | _ => false end) ;;!
  (let! max_num_blocks := py_div max_length (spec_block_size spec) in
   if max_num_blocks <? 0 then Raise ValueError
   else
     eagle_drop use_eagle
       (hit_loop p kv_cache_group_ids (take (Z.to_nat max_num_blocks) block_hashes)
          (map (fun _ => []) kv_cache_group_ids))).

(** The search from right to left of [SlidingWindowManager]: [Some] when a run
    of [need] hits was found, else the blocks and the length of the leading run. *)
Fixpoint window_loop (p : BlockPool) (gids : list Z) (hashes : list BlockHash) (need : Z) (n : nat)
    (computed : list (list Ref)) (contiguous : Z) : res (list (list Ref) * bool * Z) :=
  match n with
  | 0%nat => Ok (computed, false, contiguous)
  | S i =>
      let! h := of_option IndexError (hashes !! i) in
      match get_cached_block p h gids with
      | None | Some [] => window_loop p gids hashes need i computed 0
      | Some cached =>
          let computed := set_each i computed cached in
          let contiguous := contiguous + 1 in
          if need <=? contiguous
          then Ok (map (take (Z.to_nat (Z.of_nat i + contiguous))) computed, true, contiguous)
          else window_loop p gids hashes need i computed contiguous
      end
  end.
Definition window_find_longest_cache_hit (p : BlockPool) (block_hashes : list BlockHash) (max_length : Z)
    (kv_cache_group_ids : list Z) (spec : KVCacheSpec) (use_eagle : bool) : res (list (list Ref)) :=
  match spec with
  | SlidingWindowSpec bs _ window =>
      let! need := py_cdiv (window - 1) bs in
      let need := if use_eagle then need + 1 else need in
      let! max_num_blocks := py_div max_length bs in
      let computed := map (fun _ => py_repeat (null_block p) max_num_blocks) kv_cache_group_ids in
      let! '(computed, match_found, contiguous) :=
        window_loop p kv_cache_group_ids block_hashes need (Z.to_nat max_num_blocks) computed 0 in
      let computed := if match_found then computed else map (take (Z.to_nat contiguous)) computed in
      eagle_drop use_eagle computed
  | _ => Raise AssertionError
  end.

(** [block_hashes[i]] for [i] from [lo] up to [hi], stopping at the first miss. *)
Fixpoint chunk_loop (p : BlockPool) (gids : list Z) (hashes : list BlockHash) (i n : nat) (computed : list (list Ref)) :
    res (list (list Ref)) :=
  match n with
  | 0%nat => Ok computed
  | S n =>
      let! h := of_option IndexError (hashes !! i) in
      match get_cached_block p h gids with
      | None | Some [] => Ok computed
      | Some cached => chunk_loop p gids hashes (S i) n (append_each computed cached)
      end
  end.
Definition chunked_find_longest_cache_hit (p : BlockPool) (block_hashes : list BlockHash) (max_length : Z)
    (kv_cache_group_ids : list Z) (spec : KVCacheSpec) (use_eagle : bool) : res (list (list Ref)) :=
  match spec with
  | ChunkedLocalAttentionSpec bs _ chunk =>
      py_assert (negb use_eagle) ;;!
      (let! max_num_blocks := py_div max_length bs in
       let! start_idx := (if 0 <? max_length then let! c := py_div max_length chunk in Ok (c * chunk) else Ok 0) in
       let! start_block := py_div start_idx bs in
       chunk_loop p kv_cache_group_ids block_hashes (Z.to_nat start_block) (Z.to_nat (max_num_blocks - start_block))
         (map (fun _ => py_repeat (null_block p) start_block) kv_cache_group_ids))
  | _ => Raise AssertionError
  end.

Definition mamba_find_longest_cache_hit (kv_cache_group_ids : list Z) (spec : KVCacheSpec) : res (list (list Ref)) :=
  match spec with
  | MambaSpec _ _ _ _ _ => Ok (map (fun _ => []) kv_cache_group_ids)
  | _ => Raise AssertionError
  end.

Definition find_longest_cache_hit (p : BlockPool) (block_hashes : list BlockHash) (max_length : Z)
    (kv_cache_group_ids : list Z) (spec : KVCacheSpec) (use_eagle : bool) : res (list (list Ref)) :=
  match spec with
  | FullAttentionSpec _ _ _ _ => full_find_longest_cache_hit p block_hashes max_length kv_cache_group_ids spec use_eagle
  | SlidingWindowSpec _ _ _ => window_find_longest_cache_hit p block_hashes max_length kv_cache_group_ids spec use_eagle
  | ChunkedLocalAttentionSpec _ _ _ => chunked_find_longest_cache_hit p block_hashes max_length kv_cache_group_ids spec use_eagle
  | MambaSpec _ _ _ _ _ => mamba_find_longest_cache_hit kv_cache_group_ids spec
  end.

(** ** Blocks outside the attention window *)

(** [for i in range(n - 1, -1, -1)]: replace blocks by the null block until one
    is null already. *)
Fixpoint skip_loop (null : Ref) (n : nat) (blocks removed : list Ref) : res (list Ref * list Ref) :=
  match n with
  | 0%nat => Ok (blocks, removed)
  | S i =>
      let! b := of_option IndexError (blocks !! i) in
      if decide (b = null) then Ok (blocks, removed)
      else skip_loop null i (<[i := null]> blocks) (removed ++ [b])
  end.

(** [remove_skipped_blocks]: the first useful block of the sliding window and of
    the local attention chunk. *)
Definition first_useful_block (m : Manager) (request_id : string) (num_computed_tokens : Z) : res (option Z) :=
  match kv_cache_spec m with
  | FullAttentionSpec _ _ _ _ | MambaSpec _ _ _ _ _ => Ok None
  | SlidingWindowSpec bs _ window =>
      let last_useful_token := num_computed_tokens - window + 1 in
      let! b := py_div last_useful_token bs in Ok (Some b)
  | ChunkedLocalAttentionSpec bs _ chunk =>
      let num_cached_block := default 0 (num_cached_block m !! request_id) in
      let! c := py_div num_computed_tokens chunk in
      let! first_useful_block_idx := py_div (c * chunk) bs in
      Ok (Some (if 0 <? num_cached_block then Z.min first_useful_block_idx (num_cached_block - 1)
                else first_useful_block_idx))
  end.
Definition remove_skipped_blocks (p : BlockPool) (m : Manager) (request_id : string) (num_computed_tokens : Z) :
    res (BlockPool * Manager) :=
  let! useful := first_useful_block m request_id num_computed_tokens in
  match useful with
  | None => Ok (p, m)
  | Some n =>
      let m := ensure m request_id in
      let! '(blocks, removed) := skip_loop (null_block p) (Z.to_nat n) (blocks_of m request_id) [] in
      let m := set_blocks m request_id blocks in
      let! p := free_blocks p removed in
      Ok (p, m)
  end.

(** ** The references a manager holds *)

Definition ids_of (bl : list Ref) : list nat :=
  flat_map (fun r => match r with Blk n => [n] | _ => [] end) bl.
Definition held_blocks (bl : list Ref) : list nat := real (ids_of bl).
Definition held_of (m : Manager) : list nat := flat_map (fun kv => held_blocks (snd kv)) (map_to_list (req_to_blocks m)).

(** The block list of a request: real blocks, each once, and null placeholders. *)
Definition good_blocks (num : Z) (bl : list Ref) : Prop :=
  exists l, bl = map Blk l /\ (forall n, n ∈ l -> Z.of_nat n < num) /\ NoDup (real l).
Definition mgr_ok (num : Z) (m : Manager) : Prop :=
  forall id bl, req_to_blocks m !! id = Some bl -> good_blocks num bl.

Lemma ids_of_map l : ids_of (map Blk l) = l.
Proof. induction l as [|n l IH]; [done|]. cbn. by rewrite <-IH at 2. Qed.
Lemma ids_of_app a b : ids_of (a ++ b) = ids_of a ++ ids_of b.
Proof. apply flat_map_app. Qed.
Lemma held_blocks_app a b : held_blocks (a ++ b) = held_blocks a ++ held_blocks b.
Proof. unfold held_blocks. by rewrite ids_of_app, real_app. Qed.
Lemma held_blocks_map l : held_blocks (map Blk l) = real l.
Proof. unfold held_blocks. by rewrite ids_of_map. Qed.
Lemma real_id l : (forall n, n ∈ l -> (0 < n)%nat) -> real l = l.
Proof.
  unfold real. induction l as [|n l IH]; [done|]. intros H. cbn [List.filter].
  rewrite (proj2 (Nat.eqb_neq n 0)) by (specialize (H n ltac:(left)); lia). cbn [negb]. rewrite IH; [done|].
  intros k Hk. apply H. by right.
Qed.

Lemma good_nil num : good_blocks num [].
Proof. exists []. split; [done|]. split; [by intros n ?%elem_of_nil|constructor]. Qed.
Lemma blocks_of_good num m id : mgr_ok num m -> good_blocks num (blocks_of m id).
Proof.
  intros H. unfold blocks_of. destruct (req_to_blocks m !! id) as [bl|] eqn:E; cbn; [by eapply H|apply good_nil].
Qed.

(** The references of the other requests of the manager. *)
Definition held_rest (m : Manager) (id : string) : list nat :=
  held_of (with_blocks m (delete id (req_to_blocks m))).

Lemma held_split m id : held_of m ≡ₚ held_blocks (blocks_of m id) ++ held_rest m id.
Proof.
  unfold held_rest, held_of, blocks_of. cbn [with_blocks req_to_blocks].
  destruct (req_to_blocks m !! id) as [bl|] eqn:E; cbn [default].
  - rewrite <-(map_to_list_delete _ _ _ E). done.
  - by rewrite delete_id.
Qed.

Lemma held_set m id bl : held_of (set_blocks m id bl) ≡ₚ held_blocks bl ++ held_rest m id.
Proof.
  rewrite (held_split _ id). unfold blocks_of, held_rest, set_blocks, with_blocks. cbn [req_to_blocks].
  rewrite lookup_insert_eq. cbn [default]. by rewrite delete_insert_eq.
Qed.

Lemma mgr_ok_set num m id bl : mgr_ok num m -> good_blocks num bl -> mgr_ok num (set_blocks m id bl).
Proof.
  intros H Hb id' bl'. cbn. destruct (decide (id' = id)) as [->|Hne].
  - rewrite lookup_insert_eq. by intros [= <-].
  - rewrite lookup_insert_ne by done. apply H.
Qed.

Lemma blocks_of_set m id bl : blocks_of (set_blocks m id bl) id = bl.
Proof. unfold blocks_of. cbn. by rewrite lookup_insert_eq. Qed.
Lemma blocks_of_set_ne m id id' bl : id' <> id -> blocks_of (set_blocks m id bl) id' = blocks_of m id'.
Proof. intros H. unfold blocks_of. cbn. by rewrite lookup_insert_ne. Qed.
Lemma blocks_of_ensure m id id' : blocks_of (ensure m id) id' = blocks_of m id'.
Proof.
  unfold ensure. destruct (decide (id' = id)) as [->|]; [apply blocks_of_set|by apply blocks_of_set_ne].
Qed.
Lemma held_ensure m id : held_of (ensure m id) ≡ₚ held_of m.
Proof. unfold ensure. by rewrite held_set, <-held_split. Qed.
Lemma mgr_ok_ensure num m id : mgr_ok num m -> mgr_ok num (ensure m id).
Proof. intros H. apply mgr_ok_set; [done|by apply blocks_of_good]. Qed.
Lemma held_rest_set m id bl : held_rest (set_blocks m id bl) id = held_rest m id.
Proof. unfold held_rest, held_of. cbn. by rewrite delete_insert_eq. Qed.

(** ** Allocation *)

(** The pool after handing out the first [new] free blocks: only their hashes
    change. *)
Record handed_out (p p' : BlockPool) (fr fr' : list nat) (new : list Ref) : Prop := {
  ho_new : new = map Blk (take (length new) fr);
  ho_free : fr' = drop (length new) fr;
  ho_caching : enable_caching p' = enable_caching p;
  ho_events : enable_kv_cache_events p' = enable_kv_cache_events p;
  ho_other : forall r, r ∉ new -> block_hash p' r = block_hash p r;
  ho_reset : enable_caching p = true -> forall r, r ∈ new -> block_hash p' r = None;
  ho_nocache : enable_caching p = false -> block_hash p' = block_hash p }.

Lemma base_allocate_ok p m others fr id num_tokens :
  pool_inv p fr (held_of m ++ others) -> mgr_ok (num_gpu_blocks p) m -> 0 < block_size m ->
  let need := cdiv num_tokens (block_size m) - Z.of_nat (length (blocks_of m id)) in
  (need <= Z.of_nat (length fr) -> exists new p' m' fr',
     base_allocate_new_blocks p m id num_tokens = Ok (new, p', m') /\
     pool_inv p' fr' (held_of m' ++ others) /\ mgr_ok (num_gpu_blocks p') m' /\
     num_gpu_blocks p' = num_gpu_blocks p /\ kv_cache_spec m' = kv_cache_spec m /\
     blocks_of m' id = blocks_of m id ++ new /\ Z.of_nat (length new) = Z.max 0 need /\
     (forall id', id' <> id -> blocks_of m' id' = blocks_of m id') /\ handed_out p p' fr fr' new /\
     num_cached_block m' = num_cached_block m /\ kv_cache_group_id m' = kv_cache_group_id m /\
     held_of m' ≡ₚ held_blocks new ++ held_of m) /\
  (Z.of_nat (length fr) < need -> base_allocate_new_blocks p m id num_tokens = Raise ValueError).
Proof.
  intros Hinv Hm Hbs need. unfold base_allocate_new_blocks. rewrite blocks_of_ensure.
  change (block_size (ensure m id)) with (block_size m). rewrite py_cdiv_ok by done. cbn [bind]. fold need. split.
  - intros Hn. destruct (Z.leb_spec need 0) as [Hle|Hgt].
    + exists [], p, (ensure m id), fr. rewrite blocks_of_ensure, app_nil_r. split; [done|].
      split; [eapply pool_inv_perm; [exact Hinv|by rewrite held_ensure]|]. split; [by apply mgr_ok_ensure|].
      split; [done|]. split; [done|]. split; [done|]. split; [cbn; lia|]. split; [intros id' _; apply blocks_of_ensure|].
      split; [split; try done; by intros _ r ?%elem_of_nil|]. split; [done|]. split; [done|]. by rewrite held_ensure.
    + pose proof Hinv as Hinv2. rewrite <-(take_drop (Z.to_nat need) fr) in Hinv2.
      destruct (get_new_blocks_aux _ _ _ _ Hinv2) as (p' & Hget & Hinv' & Hother & Hreset & Hca & Hev & Hnum & Hno).
      rewrite length_take, Nat.min_l, Z2Nat.id in Hget by lia. rewrite Hget. cbn [bind].
      set (l := take (Z.to_nat need) fr) in *.
      assert (Hl : forall n, n ∈ l -> 0 < Z.of_nat n < num_gpu_blocks p /\ n ∉ held_of m ++ others).
      { intros n Hin. apply (pi_free _ _ _ Hinv). rewrite <-(take_drop (Z.to_nat need) fr). apply elem_of_app. by left. }
      assert (Hreal : real l = l) by (apply real_id; intros n Hin; specialize (Hl n Hin); lia).
      assert (Hndl : NoDup l).
      { pose proof (fl_nodup _ _ (pi_queue _ _ _ Hinv)) as Hnd. rewrite <-(take_drop (Z.to_nat need) fr) in Hnd.
        by apply NoDup_app in Hnd as [? _]. }
      assert (Hheld : held_of (set_blocks (ensure m id) id (blocks_of m id ++ map Blk l)) ≡ₚ l ++ held_of m).
      { rewrite held_set, held_blocks_app, held_blocks_map, Hreal. unfold ensure.
        rewrite held_rest_set, (held_split m id). by rewrite (Permutation_app_comm (held_blocks _) l), <-app_assoc. }
      eexists _, p', _, (drop (Z.to_nat need) fr). split; [reflexivity|]. split.
      { eapply pool_inv_perm; [exact Hinv'|]. by rewrite Hheld, app_assoc. }
      split.
      { rewrite Hnum. apply mgr_ok_set; [by apply mgr_ok_ensure|].
        destruct (blocks_of_good _ _ id Hm) as (l0 & Hl0 & Hb0 & Hnd0). rewrite Hl0. exists (l0 ++ l).
        rewrite map_app. split; [done|]. split.
        - intros n [Hin|Hin]%elem_of_app; [by apply Hb0|]. specialize (Hl n Hin). lia.
        - rewrite real_app, Hreal. apply NoDup_app. split; [done|]. split; [|done]. intros n Hin Hin'.
          destruct (Hl n Hin') as [_ Hno3]. apply Hno3, elem_of_app. left. rewrite (held_split m id), Hl0, held_blocks_map.
          apply elem_of_app. by left. }
      split; [done|]. split; [done|]. split; [apply blocks_of_set|]. split.
      { rewrite length_map. unfold l. rewrite length_take. lia. }
      split; [intros id' Hne; rewrite blocks_of_set_ne by done; apply blocks_of_ensure|].
      split; [|split; [done|]; split; [done|]; by rewrite held_blocks_map, Hreal].
      assert (Hll : length (map Blk l) = Z.to_nat need) by (rewrite length_map; unfold l; rewrite length_take; lia).
      split; rewrite ?Hll; try done. intros Hcache r (k & -> & Hk)%list_elem_of_fmap. by apply Hreset.
  - intros Hlt. destruct (Z.leb_spec need 0); [lia|]. unfold get_new_blocks, get_num_free_blocks.
    by rewrite (fl_num _ _ (pi_queue _ _ _ Hinv)), (proj2 (Z.ltb_lt _ _)).
Qed.

(** ** Release *)

Lemma real_rev l : real (List.rev l) ≡ₚ real l.
Proof. unfold real. rewrite List.filter_rev. symmetry. apply Permutation_rev. Qed.

Lemma free_ok p m others fr id :
  pool_inv p fr (held_of m ++ others) -> mgr_ok (num_gpu_blocks p) m ->
  exists p' m' fr', free p m id = Ok (p', m') /\ pool_inv p' (fr ++ fr') (held_of m' ++ others) /\
    mgr_ok (num_gpu_blocks p') m' /\ num_gpu_blocks p' = num_gpu_blocks p /\
    kv_cache_spec m' = kv_cache_spec m /\ blocks_of m' id = [] /\
    num_cached_block m' !! id = None /\ (forall id', id' <> id -> blocks_of m' id' = blocks_of m id') /\
    (forall n, n ∈ fr' <-> n ∈ held_blocks (blocks_of m id) /\ n ∉ held_of m' ++ others) /\
    same_cache p p' /\ held_of m ≡ₚ held_blocks (blocks_of m id) ++ held_of m' /\
    num_cached_block m' = delete id (num_cached_block m) /\ kv_cache_group_id m' = kv_cache_group_id m.
Proof.
  intros Hinv Hm. unfold free. destruct (blocks_of_good _ _ id Hm) as (l & Hl & Hb & Hnd). rewrite Hl.
  assert (Hperm : real (List.rev l) ++ held_rest m id ++ others ≡ₚ held_of m ++ others).
  { rewrite real_rev, (held_split m id), Hl, held_blocks_map. by rewrite app_assoc. }
  rewrite <-map_rev.
  destruct (free_blocks_aux p fr _ (List.rev l) (held_rest m id ++ others) Hinv) as (p' & -> & Hinv' & Hs).
  { by rewrite real_rev. }
  { exact Hperm. }
  cbn [bind]. eexists p', _, (released (List.rev l) (held_rest m id ++ others)). split; [reflexivity|].
  split; [exact Hinv'|]. rewrite (sca_num _ _ Hs). split.
  { intros id' bl'. cbn. destruct (decide (id' = id)) as [->|Hne]; [by rewrite lookup_delete_eq|].
    rewrite lookup_delete_ne by done. apply Hm. }
  split; [done|]. split; [done|]. split; [unfold blocks_of; cbn; by rewrite lookup_delete_eq|].
  split; [cbn; by rewrite lookup_delete_eq|]. split.
  - intros id' Hne. unfold blocks_of. cbn. by rewrite lookup_delete_ne.
  - split; [intros n; by rewrite elem_of_released, held_blocks_map, real_rev|]. split; [done|]. split; [|done].
    rewrite <-Hl. apply held_split.
Qed.

Lemma real_replace l i n :
  l !! i = Some n -> n <> 0%nat -> real l ≡ₚ n :: real (<[i := 0%nat]> l).
Proof.
  intros Hi Hn. rewrite <-(take_drop_middle _ _ _ Hi) at 1.
  rewrite insert_take_drop by (by eapply lookup_lt_Some). rewrite !real_app. unfold real at 2 4. cbn [List.filter].
  rewrite (proj2 (Nat.eqb_neq n 0)) by done. cbn [negb Nat.eqb]. fold (real (drop (S i) l)).
  by rewrite Permutation_middle.
Qed.

Lemma skip_loop_ok n l removed :
  (n <= length l)%nat -> exists l' rm, skip_loop (Blk 0) n (map Blk l) (map Blk removed) = Ok (map Blk l', map Blk (removed ++ rm)) /\
    real l ≡ₚ rm ++ real l' /\ Forall (fun k => k <> 0%nat) rm /\ length l' = length l /\
    (forall k, k ∈ l' -> k = 0%nat \/ k ∈ l) /\ (forall j, (n <= j)%nat -> l' !! j = l !! j).
Proof.
  revert l removed. induction n as [|i IH]; intros l removed Hn; cbn [skip_loop].
  - exists l, []. rewrite app_nil_r. split_and!; try done. auto.
  - destruct (lookup_lt_is_Some_2 l i) as [b Hb]; [lia|].
    assert ((map Blk l) !! i = Some (Blk b)) as -> by (by rewrite list_lookup_fmap, Hb). cbn [of_option bind].
    destruct (decide (Blk b = Blk 0)) as [E|Hne].
    { exists l, []. rewrite app_nil_r. split_and!; try done. auto. }
    assert (Hb0 : b <> 0%nat) by congruence.
    assert (<[i := Blk 0]> (map Blk l) = map Blk (<[i := 0%nat]> l)) as -> by (symmetry; apply list_fmap_insert).
    change (map Blk removed ++ [Blk b]) with (map Blk removed ++ map Blk [b]). rewrite <-map_app.
    destruct (IH (<[i := 0%nat]> l) (removed ++ [b])) as (l' & rm & -> & Hp & Hf & Hlen & Hin & Hsame); [rewrite length_insert; lia|].
    exists l', (b :: rm). rewrite <-app_assoc. split; [done|]. split.
    { rewrite (real_replace _ _ _ Hb Hb0), Hp. done. }
    split; [by constructor|]. split; [by rewrite Hlen, length_insert|]. split.
    + intros k Hk. destruct (Hin k Hk) as [?|Hk']; [by left|].
      apply list_elem_of_lookup_1 in Hk' as [j Hj]. destruct (decide (j = i)) as [->|Hji].
      * rewrite list_lookup_insert_eq in Hj by lia. injection Hj as <-. by left.
      * rewrite list_lookup_insert_ne in Hj by done. right. by eapply list_elem_of_lookup_2.
    + intros j Hj. rewrite Hsame by lia. rewrite list_lookup_insert_ne by lia. done.
Qed.

Lemma remove_skipped_ok p m others fr id nc :
  pool_inv p fr (held_of m ++ others) -> mgr_ok (num_gpu_blocks p) m -> 0 < block_size m ->
  (match kv_cache_spec m with ChunkedLocalAttentionSpec _ _ c => 0 < c | _ => True end) ->
  (forall k, first_useful_block m id nc = Ok (Some k) -> k <= Z.of_nat (length (blocks_of m id))) ->
  exists p' m' fr', remove_skipped_blocks p m id nc = Ok (p', m') /\
    pool_inv p' (fr ++ fr') (held_of m' ++ others) /\ mgr_ok (num_gpu_blocks p') m' /\
    num_gpu_blocks p' = num_gpu_blocks p /\ kv_cache_spec m' = kv_cache_spec m /\
    num_cached_block m' = num_cached_block m /\
    length (blocks_of m' id) = length (blocks_of m id) /\
    (forall id', id' <> id -> blocks_of m' id' = blocks_of m id') /\
    (forall k j, first_useful_block m id nc = Ok (Some k) -> k <= Z.of_nat j -> blocks_of m' id !! j = blocks_of m id !! j) /\
    same_cache p p' /\ (exists rm, held_of m ≡ₚ rm ++ held_of m') /\ kv_cache_group_id m' = kv_cache_group_id m.
Proof.
  intros Hinv Hm Hbs Hchunk Hlen. unfold remove_skipped_blocks.
  assert (Huse : exists u, first_useful_block m id nc = Ok u).
  { unfold first_useful_block, block_size in *. destruct (kv_cache_spec m); cbn in Hbs; unfold py_div; eauto.
    - destruct (Z.eqb_spec attention_chunk_size 0); [lia|]. destruct (Z.eqb_spec block_size0 0); [lia|]. cbn. eauto.
    - destruct (Z.eqb_spec block_size0 0); [lia|]. cbn. eauto. }
  destruct Huse as [u Hu]. rewrite Hu. cbn [bind]. destruct u as [k|].
  2:{ exists p, m, []. rewrite app_nil_r. split_and!; try done. by exists []. }
  rewrite blocks_of_ensure, (pi_null _ _ _ Hinv).
  destruct (blocks_of_good _ _ id Hm) as (l & Hl & Hb & Hnd). rewrite Hl.
  specialize (Hlen k Hu). rewrite Hl, length_map in Hlen.
  destruct (skip_loop_ok (Z.to_nat k) l []) as (l' & rm & Hskip & Hp & Hrm & Hlen' & Hin & Hsame); [lia|].
  cbn [map] in Hskip. rewrite Hskip. cbn [bind app].
  assert (Hrr : real rm = rm) by (apply real_id; intros n Hn; rewrite Forall_forall in Hrm; specialize (Hrm n Hn); lia).
  assert (Hndr : NoDup (rm ++ real l')) by (by rewrite <-Hp).
  destruct (free_blocks_aux p fr _ rm (real l' ++ held_rest m id ++ others) Hinv) as (p' & -> & Hinv' & Hs).
  { rewrite Hrr. by apply NoDup_app in Hndr as [? _]. }
  { rewrite Hrr, (held_split m id), Hl, held_blocks_map, Hp. by rewrite <-!app_assoc. }
  cbn [bind]. eexists p', _, (released rm _). split; [reflexivity|]. rewrite (sca_num _ _ Hs). split.
  { eapply pool_inv_perm; [exact Hinv'|]. rewrite held_set, held_blocks_map. unfold ensure. by rewrite held_rest_set, app_assoc. }
  split.
  { apply mgr_ok_set; [by apply mgr_ok_ensure|]. exists l'. split; [done|]. split.
    - intros n Hn. destruct (Hin n Hn) as [->|Hn']; [pose proof (pi_num _ _ _ Hinv); cbn; lia|by apply Hb].
    - by apply NoDup_app in Hndr as (_ & _ & ?). }
  split; [done|]. split; [done|]. split; [done|]. rewrite blocks_of_set, !length_map, Hlen'. split; [done|]. split.
  - intros id' Hne. rewrite blocks_of_set_ne by done. apply blocks_of_ensure.
  - split; [intros k' j [= <-] Hj; by rewrite !list_lookup_fmap, Hsame by lia|]. split; [done|]. split; [|done].
    exists rm. rewrite (held_split m id), Hl, held_blocks_map, Hp, held_set, held_blocks_map. unfold ensure.
    by rewrite held_rest_set, app_assoc.
Qed.

(** ** Prefix hits become the request's blocks *)

Lemma save_ok num m others id l (H : mgr_ok num m) :
  good_blocks num (map Blk l) -> num_cached_block m !! id = None -> blocks_of m id = [] ->
  exists m', save_new_computed_blocks m id (map Blk l) = Ok m' /\ mgr_ok num m' /\
    held_of m' ++ others ≡ₚ real l ++ held_of m ++ others /\ blocks_of m' id = map Blk l /\
    num_cached_block m' = <[id := Z.of_nat (length l)]> (num_cached_block m) /\ kv_cache_spec m' = kv_cache_spec m /\
    kv_cache_group_id m' = kv_cache_group_id m /\ (forall id', id' <> id -> blocks_of m' id' = blocks_of m id').
Proof.
  intros Hg Hn Hb. unfold save_new_computed_blocks. rewrite Hn, blocks_of_ensure, Hb. cbn [length Nat.eqb py_assert bind app].
  rewrite length_map. eexists. split; [reflexivity|]. split.
  { intros id' bl. apply (mgr_ok_set num (ensure m id) id); [by apply mgr_ok_ensure|done]. }
  split.
  { change (held_of (with_num_cached (set_blocks (ensure m id) id (map Blk l)) _)) with (held_of (set_blocks (ensure m id) id (map Blk l))).
    rewrite held_set. unfold ensure. rewrite held_rest_set, held_blocks_map, (held_split m id), Hb. by rewrite app_assoc. }
  split; [apply blocks_of_set|]. split; [done|]. split; [done|]. split; [done|].
  intros id' Hne. change (blocks_of (with_num_cached ?a ?b) id') with (blocks_of a id').
  rewrite blocks_of_set_ne by done. apply blocks_of_ensure.
Qed.

(** ** The longest hit of full attention *)

Lemma append_each_length computed cached :
  length cached = length computed -> length (append_each computed cached) = length computed.
Proof.
  intros H. unfold append_each. rewrite length_app, length_zip_with, length_take, length_drop. lia.
Qed.
Lemma append_each_lookup computed cached i c b :
  length cached = length computed -> computed !! i = Some c -> cached !! i = Some b ->
  append_each computed cached !! i = Some (c ++ [b]).
Proof.
  intros H Hc Hb. unfold append_each. rewrite lookup_app_l.
  - rewrite lookup_zip_with, lookup_take_lt, Hc, Hb by (by eapply lookup_lt_Some). done.
  - rewrite length_zip_with, length_take. apply lookup_lt_Some in Hb. lia.
Qed.

Lemma hit_loop_ok p gids hashes computed :
  cache_inv (num_gpu_blocks p) (block_hash p) (cached_block_hash_to_block p) ->
  gids <> [] -> length computed = length gids ->
  exists k, (k <= length hashes)%nat /\ length (hit_loop p gids hashes computed) = length gids /\
    (forall gi g c, gids !! gi = Some g -> computed !! gi = Some c -> exists bl,
       hit_loop p gids hashes computed !! gi = Some (c ++ bl) /\ length bl = k /\
       forall j b, bl !! j = Some b -> exists h, hashes !! j = Some h /\
         block_hash p b = Some {| block_hash_of := h; group_id := g |}) /\
    (forall h, hashes !! k = Some h ->
       exists g, g ∈ gids /\ forall b, block_hash p b <> Some {| block_hash_of := h; group_id := g |}).
Proof.
  intros Hc Hg. revert computed. induction hashes as [|h hashes IH]; intros computed Hlen; cbn [hit_loop].
  - exists 0%nat. split; [done|]. split; [done|]. split; [|done]. intros gi g c _ Hci. exists []. rewrite app_nil_r.
    split; [done|]. split; [done|]. intros j b Hj. by rewrite lookup_nil in Hj.
  - pose proof (get_cached_block_ok p h gids Hc) as Hget. destruct (get_cached_block p h gids) as [cached|].
    2:{ exists 0%nat. split; [lia|]. split; [done|]. split.
        - intros gi g c _ Hci. exists []. rewrite app_nil_r. split; [done|]. split; [done|].
          intros j b Hj. by rewrite lookup_nil in Hj.
        - intros h' [= <-]. exact Hget. }
    pose proof (Forall2_length _ _ _ Hget) as Hlc. destruct cached as [|b0 cached0] eqn:Ecached; [by destruct gids|].
    rewrite <-Ecached in *. clear Ecached b0 cached0.
    destruct (IH (append_each computed cached)) as (k & Hk & Hl & Hin & Hmiss); [rewrite append_each_length; lia|].
    exists (S k). split; [cbn; lia|]. split; [done|]. split; [|done].
    intros gi g c Hgi Hci. destruct (lookup_lt_is_Some_2 cached gi) as [b Hb]; [rewrite <-Hlc; by eapply lookup_lt_Some|].
    destruct (Hin gi g (c ++ [b]) Hgi) as (bl & Hbl & Hbll & Hb2); [apply append_each_lookup; [lia|done|done]|].
    exists (b :: bl). rewrite Hbl, <-app_assoc. split; [done|]. split; [cbn; lia|].
    intros [|j] b' Hj; [|by apply Hb2]. injection Hj as <-. exists h. split; [done|].
    by eapply (Forall2_lookup_lr _ _ _ _ _ _ Hget).
Qed.

(** ** Main statements *)

(** C32. A manager never loses or leaks a block.  With the pool holding exactly
    the references of the manager and of the other groups: allocation tops a
    request up to the blocks its tokens need, leaving its block table a prefix
    and every other request alone, or raises exactly when the pool is short;
    freeing gives back all blocks of the request that nobody else uses; removing
    skipped blocks gives back blocks outside the window and keeps the rest in
    place.  In every case the pool again holds exactly the managers' references. *)
Theorem manager_ops_conserve p m others fr :
  pool_inv p fr (held_of m ++ others) -> mgr_ok (num_gpu_blocks p) m -> 0 < block_size m ->
  (forall id num_tokens, (match kv_cache_spec m with MambaSpec _ _ _ _ _ => False | _ => True end) ->
     let need := cdiv num_tokens (block_size m) - Z.of_nat (length (blocks_of m id)) in
     (need <= Z.of_nat (length fr) -> exists new p' m' fr',
        allocate_new_blocks p m id num_tokens = Ok (new, p', m') /\
        pool_inv p' fr' (held_of m' ++ others) /\ mgr_ok (num_gpu_blocks p') m' /\
        blocks_of m' id = blocks_of m id ++ new /\ Z.of_nat (length new) = Z.max 0 need /\
        (forall id', id' <> id -> blocks_of m' id' = blocks_of m id')) /\
     (Z.of_nat (length fr) < need -> allocate_new_blocks p m id num_tokens = Raise ValueError)) /\
  (forall id, exists p' m' fr', free p m id = Ok (p', m') /\ pool_inv p' (fr ++ fr') (held_of m' ++ others) /\
     mgr_ok (num_gpu_blocks p') m' /\ blocks_of m' id = [] /\
     (forall id', id' <> id -> blocks_of m' id' = blocks_of m id') /\
     (forall n, n ∈ fr' <-> n ∈ held_blocks (blocks_of m id) /\ n ∉ held_of m' ++ others)) /\
  (forall id nc, (match kv_cache_spec m with ChunkedLocalAttentionSpec _ _ c => 0 < c | _ => True end) ->
     (forall k, first_useful_block m id nc = Ok (Some k) -> k <= Z.of_nat (length (blocks_of m id))) ->
     exists p' m' fr', remove_skipped_blocks p m id nc = Ok (p', m') /\ pool_inv p' (fr ++ fr') (held_of m' ++ others) /\
       mgr_ok (num_gpu_blocks p') m' /\ length (blocks_of m' id) = length (blocks_of m id) /\
       (forall id', id' <> id -> blocks_of m' id' = blocks_of m id') /\
       (forall k j, first_useful_block m id nc = Ok (Some k) -> k <= Z.of_nat j ->
          blocks_of m' id !! j = blocks_of m id !! j)).
Proof.
  intros Hinv Hm Hbs. split; [|split].
  - intros id nt Hspec need. destruct (base_allocate_ok p m others fr id nt Hinv Hm Hbs) as [H1 H2]. fold need in H1, H2.
    unfold allocate_new_blocks. split.
    + intros Hn. destruct (H1 Hn) as (new & p' & m' & fr' & -> & I1 & I2 & _ & Hs & I3 & I4 & I5 & _). cbn [bind].
      exists new, p', m', fr'. rewrite Hs. destruct (kv_cache_spec m); [done..|by destruct Hspec].
    + intros Hn. by rewrite (H2 Hn).
  - intros id. destruct (free_ok p m others fr id Hinv Hm) as (p' & m' & fr' & H1 & H2 & H3 & _ & _ & H4 & _ & H5 & H6 & _).
    exists p', m', fr'. done.
  - intros id nc Hc Hl. destruct (remove_skipped_ok p m others fr id nc Hinv Hm Hbs Hc Hl)
      as (p' & m' & fr' & H1 & H2 & H3 & _ & _ & _ & H4 & H5 & H6 & _). exists p', m', fr'. done.
Qed.

(** The prefix lookup of full attention returns the longest common prefix
    hit: the same number of blocks for every group, each carrying the hash of its
    position, at most as many as whole blocks fit into [max_length], and it stops
    short of that only at a hash that some group does not have. *)
Theorem full_attention_hit_longest p fr held hashes max_length gids bs att sw ac :
  pool_inv p fr held -> 0 < bs -> 0 <= max_length -> gids <> [] ->
  exists k computed, full_find_longest_cache_hit p hashes max_length gids (FullAttentionSpec bs att sw ac) false = Ok computed /\
    length computed = length gids /\ (k <= Nat.min (Z.to_nat (max_length / bs)) (length hashes))%nat /\
    (forall gi g, gids !! gi = Some g -> exists bl, computed !! gi = Some bl /\ length bl = k /\
       forall j b, bl !! j = Some b -> exists h, hashes !! j = Some h /\
         block_hash p b = Some {| block_hash_of := h; group_id := g |}) /\
    (forall h, (k < Z.to_nat (max_length / bs))%nat -> hashes !! k = Some h ->
       exists g, g ∈ gids /\ forall b, block_hash p b <> Some {| block_hash_of := h; group_id := g |}).
Proof.
  intros Hinv Hbs Hml Hg. unfold full_find_longest_cache_hit, py_div. cbn [spec_block_size py_assert bind].
  destruct (Z.eqb_spec bs 0); [lia|]. cbn [bind]. pose proof (Z.div_pos max_length bs Hml Hbs).
  destruct (Z.ltb_spec (max_length / bs) 0); [lia|]. unfold eagle_drop. cbn [negb].
  destruct (hit_loop_ok p gids (take (Z.to_nat (max_length / bs)) hashes) (map (fun _ => []) gids)
              (pi_cache _ _ _ Hinv) Hg ltac:(by rewrite length_map)) as (k & Hk & Hl & Hin & Hmiss).
  rewrite length_take in Hk. eexists k, _. split; [reflexivity|]. split; [done|]. split; [lia|]. split.
  - intros gi g Hgi. destruct (Hin gi g [] Hgi) as (bl & Hbl & Hbll & Hb).
    { rewrite list_lookup_fmap, Hgi. done. }
    exists bl. split; [done|]. split; [done|]. intros j b Hj. destruct (Hb j b Hj) as (h & Hh & Hbh). exists h. split; [|done].
    apply lookup_take_Some in Hh. tauto.
  - intros h Hlt Hh. apply Hmiss. by rewrite lookup_take_lt.
Qed.

(** ** Concrete managers *)

Definition demo_manager : Manager := get_manager_for_kv_cache_spec (demo_spec 2) 0.

Lemma demo_inv : pool_inv pool4 [1; 2; 3]%nat (held_of demo_manager ++ []) /\ mgr_ok (num_gpu_blocks pool4) demo_manager.
Proof.
  split; [exact pool4_inv|]. intros id bl H. unfold demo_manager, get_manager_for_kv_cache_spec in H. cbn in H.
  by rewrite lookup_empty in H.
Qed.

(** A request of three tokens takes two blocks of the four. *)
Lemma manager_ops_conserve_witness :
  exists new p' m', allocate_new_blocks pool4 demo_manager "a" 3 = Ok (new, p', m') /\ length new = 2%nat.
Proof.
  destruct (manager_ops_conserve pool4 demo_manager [] [1; 2; 3]%nat (proj1 demo_inv) (proj2 demo_inv) ltac:(reflexivity))
    as (H & _). destruct (H "a"%string 3 I) as [H1 _].
  destruct H1 as (new & p' & m' & fr' & Hok & _ & _ & _ & Hlen & _); [vm_compute; discriminate|].
  exists new, p', m'. split; [exact Hok|]. change (Z.max 0 _) with 2 in Hlen. lia.
Defined.

Lemma full_attention_hit_longest_witness :
  exists computed, full_find_longest_cache_hit pool4 (hashes_of (plain_request "a" [1; 2; 3; 4])) 3 [0] (demo_spec 2) false
                     = Ok computed /\ length computed = 1%nat.
Proof.
  destruct (full_attention_hit_longest pool4 [1; 2; 3]%nat [] (hashes_of (plain_request "a" [1; 2; 3; 4])) 3 [0] 2 demo_attention None None pool4_inv)
    as (k & computed & H & Hl & _); [lia|lia|discriminate|]. exists computed. split; [exact H|exact Hl].
Defined.
