(* ===== verification/PrefixLookup.v ===== *)
(** * Prefix lookups of the attention types

    What the lookups of [v1/core/single_type_kv_cache_manager.py] return: a sound
    prefix for every group ([lookup_sound], the contract that the coordinator
    uses), and the longest one for a sliding window. *)

From stdpp Require Import base functions gmap strings list.
From Stdlib Require Import ZArith Lia.
From S2P Require Import Prelude FreeQueue Request BlockHash BlockPool KVCacheInterface SingleType.
Open Scope list_scope.
Open Scope Z_scope.

(** Block [b] is cached under the hash of position [j] for group [g]. *)
Definition hit_at (p : BlockPool) (g : Z) (hashes : list BlockHash) (j : nat) (b : Ref) : Prop :=
  exists h, hashes !! j = Some h /\ block_hash p b = Some {| block_hash_of := h; group_id := g |}.

(** One list of [k] blocks per group; each is the null block or the cached block
    of its position. *)
Definition lookup_sound (p : BlockPool) (hashes : list BlockHash) (gids : list Z) (k : nat)
    (computed : list (list Ref)) : Prop :=
  Forall2 (fun g bl => length bl = k /\
             forall j b, bl !! j = Some b -> b = null_block p \/ hit_at p g hashes j b) gids computed.

Section lookup.
Context (p : BlockPool) (free held : list nat) (Hinv : pool_inv p free held).
Context (gids : list Z) (Hg : gids <> []) (hashes : list BlockHash).

(** The blocks of one position for all groups. *)
Lemma get_cached_hit i h l :
  hashes !! i = Some h -> get_cached_block p h gids = Some l -> Forall2 (fun g b => hit_at p g hashes i b) gids l.
Proof.
  intros Hh Hl. pose proof (get_cached_block_ok p h gids (pi_cache _ _ _ Hinv)) as H. rewrite Hl in H.
  eapply Forall2_impl; [exact H|]. intros g b Hb. by exists h.
Qed.

Lemma get_cached_nonempty h : get_cached_block p h gids <> Some [].
Proof.
  intros H. pose proof (get_cached_block_ok p h gids (pi_cache _ _ _ Hinv)) as H'. rewrite H in H'.
  by apply Forall2_nil_inv_r in H'.
Qed.

(** A position is a hit if every group has its block. *)
Definition hit (i : nat) : Prop := exists h l, hashes !! i = Some h /\ get_cached_block p h gids = Some l.

(** ** Extending the lists of all groups *)

Lemma append_each_sound k computed cached :
  lookup_sound p hashes gids k computed -> Forall2 (fun g b => hit_at p g hashes k b) gids cached ->
  lookup_sound p hashes gids (S k) (append_each computed cached).
Proof.
  intros Hc Hb. unfold append_each, lookup_sound. clear Hg.
  rewrite <-(Forall2_length _ _ _ Hb), (Forall2_length _ _ _ Hc), take_ge, drop_ge, app_nil_r by done.
  revert cached Hb. induction Hc as [|g bl gs computed [Hlen Hbl] _ IH]; intros cached Hb.
  { by apply Forall2_nil_inv_l in Hb as ->. }
  apply Forall2_cons_inv_l in Hb as (b & cached' & Hb & Hbs & ->). cbn [zip_with]. constructor; [|by apply IH].
  rewrite length_app, Hlen. split; [cbn; lia|]. intros j b' Hj.
  apply lookup_app_Some in Hj as [Hj|[Hge Hj]]; [by apply Hbl|]. apply list_lookup_singleton_Some in Hj as [Hj <-].
  replace j with k by lia. by right.
Qed.

Lemma null_sound k : lookup_sound p hashes gids k (map (fun _ => py_repeat (null_block p) (Z.of_nat k)) gids).
Proof.
  unfold lookup_sound, py_repeat. rewrite Nat2Z.id. clear Hg. induction gids as [|g gs IH]; constructor; [|done].
  rewrite repeat_length. split; [done|]. intros j b Hj. left. apply list_elem_of_lookup_2, list_elem_of_In in Hj. by eapply repeat_spec.
Qed.

Lemma sound_take k n computed :
  lookup_sound p hashes gids k computed -> lookup_sound p hashes gids (Nat.min n k) (map (take n) computed).
Proof.
  intros H. unfold lookup_sound. apply Forall2_fmap_r. eapply Forall2_impl; [exact H|]. intros g bl [Hlen Hb].
  unfold compose. rewrite length_take, Hlen. split; [done|]. intros j b [Hj _]%lookup_take_Some. by apply Hb.
Qed.

Lemma sound_pop k computed :
  lookup_sound p hashes gids k computed -> lookup_sound p hashes gids (Nat.pred k) (map (@removelast Ref) computed).
Proof.
  intros H. replace (map (@removelast Ref) computed) with (map (take (Nat.pred k)) computed).
  { replace (Nat.pred k) with (Nat.min (Nat.pred k) k) at 1 by lia. by apply sound_take. }
  apply map_ext_in. intros bl Hbl%list_elem_of_In. apply list_elem_of_lookup_1 in Hbl as [i Hi].
  destruct (Forall2_lookup_r _ _ _ _ _ H Hi) as (g & _ & Hlen & _). by rewrite removelast_firstn_len, Hlen.
Qed.

Lemma eagle_sound use_eagle k computed :
  lookup_sound p hashes gids k computed -> exists computed' k', eagle_drop use_eagle computed = Ok computed' /\
    lookup_sound p hashes gids k' computed' /\ (k' <= k)%nat /\ (use_eagle = false -> k' = k /\ computed' = computed).
Proof.
  intros H. unfold eagle_drop. destruct use_eagle; cbn [negb]; [|by exists computed, k].
  pose proof H as H0. unfold lookup_sound in H. destruct computed as [|[|b bl] cs].
  - by apply Forall2_nil_inv_r in H.
  - exists ([] :: cs), k. done.
  - assert (Hk : k = S (length bl)).
    { apply Forall2_cons_inv_r in H as (g & gs & [Hlen _] & _ & _). cbn in Hlen. lia. }
    assert (existsb (fun c => match c with [] => true | _ => false end) ((b :: bl) :: cs) = false) as ->.
    { apply not_true_is_false. intros (c & Hc & Hnil)%existsb_exists. apply list_elem_of_In, list_elem_of_lookup_1 in Hc as [i Hi].
      destruct (Forall2_lookup_r _ _ _ _ _ H Hi) as (g & _ & Hlen & _). destruct c; [|done]. cbn in Hlen. lia. }
    eexists _, (Nat.pred k). split; [reflexivity|]. split; [by apply sound_pop|]. split; [lia|done].
Qed.

(** ** Full attention *)

Lemma hit_loop_sound k n computed :
  lookup_sound p hashes gids k computed ->
  exists k', lookup_sound p hashes gids k' (hit_loop p gids (take n (drop k hashes)) computed) /\
    (k <= k' <= k + n)%nat /\ (k' <= Nat.max k (length hashes))%nat.
Proof.
  revert k computed. induction n as [|n IH]; intros k computed Hs; cbn [take hit_loop].
  { exists k. split; [done|lia]. }
  destruct (drop k hashes) as [|h rest] eqn:Hd; cbn [take hit_loop]; [exists k; split; [done|lia]|].
  assert (Hh : hashes !! k = Some h) by (rewrite <-(Nat.add_0_r k), <-lookup_drop, Hd; done).
  destruct (get_cached_block p h gids) as [cached|] eqn:Hc; [|exists k; split; [done|lia]].
  assert (Hrest : rest = drop (S k) hashes) by (rewrite (drop_S _ _ _ Hh) in Hd; by injection Hd).
  destruct (IH (S k) (append_each computed cached)) as (k' & Hk & Hb & Hl).
  { apply append_each_sound; [done|]. by eapply get_cached_hit. }
  pose proof (get_cached_nonempty h) as Hne. rewrite Hc in Hne. rewrite Hrest.
  exists k'. destruct cached; [done|]. split; [done|]. apply lookup_lt_Some in Hh. lia.
Qed.

Lemma full_sound max_length spec use_eagle :
  0 < spec_block_size spec -> 0 <= max_length ->
  match spec with FullAttentionSpec _ _ _ _ | ChunkedLocalAttentionSpec _ _ _ => True | _ => False end ->
  exists computed k, full_find_longest_cache_hit p hashes max_length gids spec use_eagle = Ok computed /\
    lookup_sound p hashes gids k computed /\ Z.of_nat k <= max_length / spec_block_size spec.
Proof.
  intros Hbs Hml Hspec. unfold full_find_longest_cache_hit, py_div.
  replace (match spec with FullAttentionSpec _ _ _ _ | ChunkedLocalAttentionSpec _ _ _ => true | _ => false end) with true
    by (by destruct spec).
  cbn [py_assert bind]. destruct (Z.eqb_spec (spec_block_size spec) 0); [lia|]. cbn [bind].
  pose proof (Z.div_pos max_length _ Hml Hbs) as Hpos. destruct (Z.ltb_spec (max_length / spec_block_size spec) 0); [lia|].
  destruct (hit_loop_sound 0 (Z.to_nat (max_length / spec_block_size spec)) (map (fun _ => []) gids)) as (k & Hk & Hb & _).
  { apply (null_sound 0). }
  rewrite drop_0 in Hk. destruct (eagle_sound use_eagle k _ Hk) as (c & k' & -> & Hs & Hk' & _).
  exists c, k'. split; [done|]. split; [done|]. lia.
Qed.

(** ** Chunked local attention *)

Lemma chunk_loop_sound i n computed :
  lookup_sound p hashes gids i computed -> (i + n <= length hashes)%nat ->
  exists c k, chunk_loop p gids hashes i n computed = Ok c /\ lookup_sound p hashes gids k c /\ (i <= k <= i + n)%nat.
Proof.
  revert i computed. induction n as [|n IH]; intros i computed Hs Hn; cbn [chunk_loop].
  { exists computed, i. split; [done|]. split; [done|lia]. }
  destruct (lookup_lt_is_Some_2 hashes i) as [h Hh]; [lia|]. rewrite Hh. cbn [of_option bind].
  destruct (get_cached_block p h gids) as [cached|] eqn:Hc; [|exists computed, i; split; [done|]; split; [done|lia]].
  pose proof (get_cached_nonempty h) as Hne. rewrite Hc in Hne. destruct cached as [|b cached]; [done|].
  destruct (IH (S i) (append_each computed (b :: cached))) as (c & k & Hl & Hk & Hb); [|lia|].
  { apply append_each_sound; [done|]. by eapply get_cached_hit. }
  exists c, k. split; [done|]. split; [done|lia].
Qed.

Lemma chunked_sound max_length bs att chunk :
  0 < bs -> 0 < chunk -> 0 <= max_length -> max_length / bs <= Z.of_nat (length hashes) ->
  exists computed k,
    chunked_find_longest_cache_hit p hashes max_length gids (ChunkedLocalAttentionSpec bs att chunk) false = Ok computed /\
    lookup_sound p hashes gids k computed /\ max_length / chunk * chunk / bs <= Z.of_nat k <= max_length / bs.
Proof.
  intros Hbs Hch Hml Hlen. unfold chunked_find_longest_cache_hit, py_div. cbn [negb py_assert bind].
  destruct (Z.eqb_spec bs 0); [lia|]. destruct (Z.eqb_spec chunk 0); [lia|]. cbn [bind].
  assert (Hstart : (if 0 <? max_length then Ok (max_length / chunk * chunk) else Ok 0) = Ok (max_length / chunk * chunk)).
  { destruct (Z.ltb_spec 0 max_length); [done|]. replace max_length with 0 by lia. by rewrite Z.div_0_l. }
  rewrite Hstart. cbn [bind].
  pose proof (Z.mul_div_le max_length chunk Hch) as Hle. pose proof (Z.div_pos max_length chunk Hml Hch).
  assert (Hs : 0 <= max_length / chunk * chunk / bs <= max_length / bs) by (split; [apply Z.div_pos; lia|apply Z.div_le_mono; lia]).
  destruct (chunk_loop_sound (Z.to_nat (max_length / chunk * chunk / bs))
              (Z.to_nat (max_length / bs - max_length / chunk * chunk / bs))
              (map (fun _ => py_repeat (null_block p) (max_length / chunk * chunk / bs)) gids)) as (c & k & -> & Hk & Hb); [|lia|].
  { pose proof (null_sound (Z.to_nat (max_length / chunk * chunk / bs))) as Hn. by rewrite Z2Nat.id in Hn by lia. }
  exists c, k. split; [done|]. split; [done|lia].
Qed.

(** ** Sliding window *)

(** The lists of the groups while the search is at position [n]: null blocks
    below [n] and hits in the run of [c] positions from [n]. *)
Definition window_state (N n c : nat) (computed : list (list Ref)) : Prop :=
  Forall2 (fun g bl => length bl = N /\ (forall j, (j < n)%nat -> bl !! j = Some (null_block p)) /\
             forall j, (n <= j < n + c)%nat -> exists b, bl !! j = Some b /\ hit_at p g hashes j b) gids computed.

Lemma set_each_state N n c computed cached :
  window_state N (S n) c computed -> (n < N)%nat -> Forall2 (fun g b => hit_at p g hashes n b) gids cached ->
  window_state N n (S c) (set_each n computed cached).
Proof.
  intros Hc Hn Hb. unfold set_each, window_state. clear Hg.
  rewrite <-(Forall2_length _ _ _ Hb), (Forall2_length _ _ _ Hc), take_ge, drop_ge, app_nil_r by done.
  revert cached Hb. induction Hc as [|g bl gs computed (Hlen & Hlow & Hrun) _ IH]; intros cached Hb.
  { by apply Forall2_nil_inv_l in Hb as ->. }
  apply Forall2_cons_inv_l in Hb as (b & cached' & Hb & Hbs & ->). cbn [zip_with]. constructor; [|by apply IH].
  rewrite length_insert. split; [done|]. split.
  - intros j Hj. rewrite list_lookup_insert_ne by lia. apply Hlow. lia.
  - intros j Hj. destruct (decide (j = n)) as [->|Hne].
    + exists b. rewrite list_lookup_insert_eq by lia. done.
    + rewrite list_lookup_insert_ne by lia. apply Hrun. lia.
Qed.

(** The prefix of length [k] can be reused: the last [need] positions hit. *)
Definition window_hit (need : Z) (k : nat) : Prop :=
  forall i, (i < k)%nat -> Z.of_nat k - need <= Z.of_nat i -> hit i.

Lemma state_miss N n c computed : window_state N (S n) c computed -> window_state N n 0 computed.
Proof.
  intros H. eapply Forall2_impl; [exact H|]. intros g bl (? & Hlow & _). split; [done|]. split; [|lia].
  intros j Hj. apply Hlow. lia.
Qed.

Lemma state_hits N n c computed i :
  window_state N n c computed -> (n <= i < n + c)%nat -> hit i.
Proof.
  intros Hs Hi. assert (Hall : Forall (fun g => exists b, hit_at p g hashes i b) gids).
  { clear Hg. induction Hs as [|g bl gs cs (_ & _ & Hrun) _ IH]; constructor; [|done]. destruct (Hrun i Hi) as (b & _ & Hb). eauto. }
  assert (Hh : exists h, hashes !! i = Some h).
  { destruct gids; [done|]. apply Forall_cons in Hall as [(b & h & ? & _) _]. eauto. }
  destruct Hh as [h Hh]. exists h. destruct (get_cached_block p h gids) as [l|] eqn:E; [eauto|].
  pose proof (get_cached_block_ok p h gids (pi_cache _ _ _ Hinv)) as Hno. rewrite E in Hno. destruct Hno as (g & Hgin & Hno).
  rewrite Forall_forall in Hall. destruct (Hall g Hgin) as (b & h' & Hh' & Hb). rewrite Hh in Hh'. injection Hh' as <-.
  by destruct (Hno b).
Qed.

(** Cutting the lists behind the run gives a sound result. *)
Lemma state_take N n c computed k :
  window_state N n c computed -> k = (n + c)%nat -> (k <= N)%nat ->
  lookup_sound p hashes gids k (map (take k) computed).
Proof.
  intros Hs -> Hk. unfold lookup_sound. apply Forall2_fmap_r. eapply Forall2_impl; [exact Hs|].
  intros g bl (Hlen & Hlow & Hrun). unfold compose. rewrite length_take, Hlen. split; [lia|].
  intros j b [Hj Hlt]%lookup_take_Some. destruct (decide (j < n)%nat) as [Hn|Hn].
  - left. specialize (Hlow j Hn). congruence.
  - right. destruct (Hrun j ltac:(lia)) as (b' & Hb' & ?). by replace b with b' by congruence.
Qed.

(** The search ends with the greatest reusable prefix of at most [N] blocks. *)
Lemma window_loop_ok need N n computed c :
  1 <= need -> window_state N n c computed -> Z.of_nat c < need -> (n + c <= N)%nat -> (N <= length hashes)%nat ->
  (forall k, (n + c < k <= N)%nat -> ~ window_hit need k) ->
  exists computed' found c' k, window_loop p gids hashes need n computed (Z.of_nat c) = Ok (computed', found, Z.of_nat c') /\
    lookup_sound p hashes gids k (if found then computed' else map (take c') computed') /\ (found = false -> k = c') /\
    (k <= N)%nat /\ window_hit need k /\ (forall k', (k < k' <= N)%nat -> ~ window_hit need k').
Proof.
  intros Hneed. revert computed c. induction n as [|i IH]; intros computed c Hs Hc Hn HN Hmax; cbn [window_loop].
  - exists computed, false, c, c. split; [done|]. split; [by eapply state_take|]. split; [done|]. split; [lia|].
    split; [|intros k' Hk'; apply Hmax; lia]. intros i Hi _. eapply state_hits; [exact Hs|lia].
  - destruct (lookup_lt_is_Some_2 hashes i) as [h Hh]; [lia|]. rewrite Hh. cbn [of_option bind].
    destruct (get_cached_block p h gids) as [cached|] eqn:Hget.
    2:{ apply (IH computed 0%nat); [by eapply state_miss|lia|lia|done|]. intros k Hk Hw.
        destruct (decide (S i + c < k)%nat) as [Hlt|Hge]; [by apply (Hmax k); [lia|]|].
        destruct (Hw i) as (h' & l & Hh' & Hl); [lia|lia|]. congruence. }
    pose proof (get_cached_nonempty h) as Hne. rewrite Hget in Hne. destruct cached as [|b cached]; [done|].
    pose proof (set_each_state N i c computed (b :: cached) Hs ltac:(lia) (get_cached_hit _ _ _ Hh Hget)) as Hs'.
    replace (Z.of_nat c + 1) with (Z.of_nat (S c)) by lia.
    destruct (Z.leb_spec need (Z.of_nat (S c))) as [Hle|Hgt].
    + eexists _, true, (S c), (i + S c)%nat. split; [reflexivity|].
      replace (Z.to_nat (Z.of_nat i + Z.of_nat (S c))) with (i + S c)%nat by lia.
      split; [eapply state_take; [exact Hs'|done|lia]|]. split; [done|]. split; [lia|]. split; [|intros k' Hk'; apply Hmax; lia].
      intros j Hj Hge. eapply state_hits; [exact Hs'|lia].
    + apply (IH _ (S c)); [done|lia|lia|done|]. intros k Hk. apply Hmax. lia.
Qed.

Lemma null_state N : window_state N N 0 (map (fun _ => py_repeat (null_block p) (Z.of_nat N)) gids).
Proof.
  unfold window_state, py_repeat. rewrite Nat2Z.id. clear Hg. induction gids as [|g gs IH]; constructor; [|done].
  rewrite repeat_length. split; [done|]. split; [|intros j Hj; lia]. intros j Hj. by rewrite repeat_lookup.
Qed.

(** The number of blocks in front of a token that its window touches. *)
Definition window_blocks (bs window : Z) : Z := cdiv (window - 1) bs.

Lemma window_sound max_length bs att window use_eagle :
  0 < bs -> 2 <= window -> 0 <= max_length -> max_length / bs <= Z.of_nat (length hashes) ->
  exists computed computed0 k k0,
    window_find_longest_cache_hit p hashes max_length gids (SlidingWindowSpec bs att window) use_eagle = Ok computed /\
    lookup_sound p hashes gids k computed /\ Z.of_nat k <= max_length / bs /\
    lookup_sound p hashes gids k0 computed0 /\ eagle_drop use_eagle computed0 = Ok computed /\
    Z.of_nat k0 <= max_length / bs /\
    window_hit (window_blocks bs window + if use_eagle then 1 else 0) k0 /\
    (forall k', (k0 < k')%nat -> Z.of_nat k' <= max_length / bs ->
       ~ window_hit (window_blocks bs window + if use_eagle then 1 else 0) k').
Proof.
  intros Hbs Hw Hml Hlen. unfold window_find_longest_cache_hit. rewrite py_cdiv_ok by done. cbn [bind].
  unfold py_div. destruct (Z.eqb_spec bs 0); [lia|]. cbn [bind]. fold (window_blocks bs window).
  assert (Hwb : 1 <= window_blocks bs window) by (unfold window_blocks; pose proof (cdiv_spec (window - 1) bs Hbs); nia).
  replace (if use_eagle then window_blocks bs window + 1 else window_blocks bs window)
    with (window_blocks bs window + if use_eagle then 1 else 0) by (destruct use_eagle; lia).
  set (need := window_blocks bs window + if use_eagle then 1 else 0).
  assert (Hneed : 1 <= need) by (unfold need; destruct use_eagle; lia).
  pose proof (Z.div_pos max_length bs Hml Hbs) as Hpos. set (N := Z.to_nat (max_length / bs)).
  replace (max_length / bs) with (Z.of_nat N) by lia.
  destruct (window_loop_ok need N N _ 0%nat Hneed (null_state N)) as (c1 & found & c' & k & Hl & Hs & Hk & HkN & Hhit & Hbest); [lia..|].
  change (Z.of_nat 0) with 0 in Hl. rewrite Hl. cbn [bind]. rewrite Nat2Z.id.
  destruct (eagle_sound use_eagle k _ Hs) as (c2 & k2 & He & Hs2 & Hk2 & _).
  exists c2, (if found then c1 else map (take c') c1), k2, k. split; [done|]. split; [done|]. split; [lia|].
  split; [done|]. split; [done|]. split; [lia|]. split; [done|]. intros k' ? ?. apply Hbest. lia.
Qed.

(** ** The last block of a prefix *)

(** A sound prefix whose last block is cached: the condition under which the
    blocks after it can be committed. *)
Definition lookup_exact (k : nat) (computed : list (list Ref)) : Prop :=
  lookup_sound p hashes gids k computed /\
  Forall2 (fun g bl => forall j b, S j = k -> bl !! j = Some b -> hit_at p g hashes j b) gids computed.

(** Every block of the prefix is cached. *)
Definition lookup_hits (k : nat) (computed : list (list Ref)) : Prop :=
  Forall2 (fun g bl => length bl = k /\ forall j b, bl !! j = Some b -> hit_at p g hashes j b) gids computed.
Lemma hits_exact k computed : lookup_hits k computed -> lookup_exact k computed.
Proof.
  intros H. split; (eapply Forall2_impl; [exact H|]); intros g bl [Hlen Hb]; [split; [done|auto]|auto].
Qed.
Lemma hits_take k n computed : lookup_hits k computed -> lookup_hits (Nat.min n k) (map (take n) computed).
Proof.
  intros H. apply Forall2_fmap_r. eapply Forall2_impl; [exact H|]. intros g bl [Hlen Hb]. unfold compose.
  rewrite length_take, Hlen. split; [done|]. intros j b [Hj _]%lookup_take_Some. by apply Hb.
Qed.
Lemma exact_length k computed : lookup_exact k computed -> (k <= length hashes)%nat.
Proof.
  intros [Hs He]. destruct k as [|k]; [lia|]. unfold lookup_sound in Hs. destruct gids as [|g gs]; [done|].
  apply Forall2_cons_inv_l in Hs as (bl & cs & [Hlen _] & _ & ->). apply Forall2_cons in He as [He _].
  destruct (lookup_lt_is_Some_2 bl k) as [b Hb]; [lia|]. destruct (He k b eq_refl Hb) as (h & Hh & _).
  apply lookup_lt_Some in Hh. lia.
Qed.

(** Cutting inside the run of hits. *)
Lemma run_exact N n c computed k :
  window_state N n c computed -> (n + c <= N)%nat -> (k <= n + c)%nat -> k = 0%nat \/ (n < k)%nat ->
  lookup_exact k (map (take k) computed).
Proof.
  intros Hs HN Hk Hn. split.
  - unfold lookup_sound. apply Forall2_fmap_r. eapply Forall2_impl; [exact Hs|].
    intros g bl (Hlen & Hlow & Hrun). unfold compose. rewrite length_take, Hlen. split; [lia|].
    intros j b [Hj Hlt]%lookup_take_Some. destruct (decide (j < n)%nat) as [Hj'|Hj'].
    + left. specialize (Hlow j Hj'). congruence.
    + right. destruct (Hrun j ltac:(lia)) as (b' & Hb' & ?). by replace b with b' by congruence.
  - apply Forall2_fmap_r. eapply Forall2_impl; [exact Hs|]. intros g bl (Hlen & _ & Hrun) j b Hjk Hj.
    unfold compose in Hj. apply lookup_take_Some in Hj as [Hj _]. destruct (Hrun j ltac:(lia)) as (b' & Hb' & ?).
    by replace b with b' by congruence.
Qed.

Lemma eagle_take use_eagle k N n c computed computed' :
  window_state N n c computed -> (k <= N)%nat -> eagle_drop use_eagle (map (take k) computed) = Ok computed' ->
  computed' = map (take (if use_eagle then Nat.pred k else k)) computed.
Proof.
  intros Hs Hk He. unfold eagle_drop in He. destruct use_eagle; cbn [negb] in He; [|by injection He].
  assert (Hlen : forall bl, bl ∈ computed -> length (take k bl) = k).
  { intros bl [i Hi]%list_elem_of_lookup_1. destruct (Forall2_lookup_r _ _ _ _ _ Hs Hi) as (g & _ & Hl & _).
    rewrite length_take. lia. }
  destruct (decide (k = 0%nat)) as [->|Hk0].
  { destruct computed as [|bl cs]; [done|]. cbn in He. by injection He. }
  rewrite (map_ext_in (take (Nat.pred k)) (fun bl => removelast (take k bl))).
  2:{ intros bl Hbl%list_elem_of_In. rewrite removelast_firstn_len, Hlen by done. rewrite take_take. f_equal. lia. }
  rewrite <-map_map. destruct (map (take k) computed) as [|[|b bl] cs] eqn:E; [done| |].
  - assert (Hin : [] ∈ map (take k) computed) by (rewrite E; left).
    apply list_elem_of_fmap in Hin as (bl & Hbl & Hin). specialize (Hlen bl Hin). rewrite <-Hbl in Hlen. cbn in Hlen. lia.
  - destruct (existsb _ _) in He; [done|]. by injection He.
Qed.

Lemma window_loop_run need N n computed c computed' found c' :
  1 <= need -> (n + c <= N)%nat -> window_state N n c computed ->
  window_loop p gids hashes need n computed (Z.of_nat c) = Ok (computed', found, c') ->
  exists n1 c1 comp, window_state N n1 c1 comp /\ (n1 + c1 <= N)%nat /\ c' = Z.of_nat c1 /\
    if found then need <= c' /\ computed' = map (take (n1 + c1)) comp else n1 = 0%nat /\ computed' = comp.
Proof.
  intros Hneed. revert computed c. induction n as [|i IH]; intros computed c HN Hs; cbn [window_loop].
  - intros [= <- <- <-]. exists 0%nat, c, computed. done.
  - destruct (hashes !! i) as [h|] eqn:Hh; [|done]. cbn [of_option bind].
    destruct (get_cached_block p h gids) as [cached|] eqn:Hget.
    2:{ intros H. apply (IH computed 0%nat); [lia|by eapply state_miss|done]. }
    pose proof (get_cached_nonempty h) as Hne. rewrite Hget in Hne. destruct cached as [|b cached]; [done|].
    pose proof (set_each_state N i c computed (b :: cached) Hs ltac:(lia) (get_cached_hit _ _ _ Hh Hget)) as Hs'.
    replace (Z.of_nat c + 1) with (Z.of_nat (S c)) by lia. destruct (Z.leb_spec need (Z.of_nat (S c))).
    + intros [= <- <- <-]. exists i, (S c), (set_each i computed (b :: cached)). split; [done|]. split; [lia|]. split; [done|]. split; [done|].
      f_equal. f_equal. lia.
    + apply IH; [lia|done].
Qed.

Lemma hits_state k computed : lookup_hits k computed -> window_state k 0 k computed.
Proof.
  intros H. eapply Forall2_impl; [exact H|]. intros g bl [Hlen Hb]. split; [done|]. split; [lia|].
  intros j Hj. destruct (lookup_lt_is_Some_2 bl j) as [b Hbl]; [lia|]. exists b. auto.
Qed.

Lemma full_hits max_length spec use_eagle :
  0 < spec_block_size spec -> 0 <= max_length ->
  match spec with FullAttentionSpec _ _ _ _ | ChunkedLocalAttentionSpec _ _ _ => True | _ => False end ->
  exists computed k, full_find_longest_cache_hit p hashes max_length gids spec use_eagle = Ok computed /\
    lookup_hits k computed /\ Z.of_nat k <= max_length / spec_block_size spec.
Proof.
  intros Hbs Hml Hspec. destruct (full_sound max_length spec use_eagle Hbs Hml Hspec) as (computed & k0 & Hok & Hs0 & Hk0).
  unfold full_find_longest_cache_hit, py_div in Hok.
  replace (match spec with FullAttentionSpec _ _ _ _ | ChunkedLocalAttentionSpec _ _ _ => true | _ => false end) with true in Hok
    by (by destruct spec).
  cbn [py_assert bind] in Hok. destruct (Z.eqb_spec (spec_block_size spec) 0); [lia|]. cbn [bind] in Hok.
  pose proof (Z.div_pos max_length _ Hml Hbs) as Hpos. destruct (Z.ltb_spec (max_length / spec_block_size spec) 0); [lia|].
  unfold full_find_longest_cache_hit. exists computed.
  destruct (hit_loop_ok p gids (take (Z.to_nat (max_length / spec_block_size spec)) hashes) (map (fun _ => []) gids)
              (pi_cache _ _ _ Hinv) Hg ltac:(by rewrite length_map)) as (k & Hk & Hl & Hin & _).
  rewrite length_take in Hk. set (res := hit_loop _ _ _ _) in *.
  assert (Hhits : lookup_hits k res).
  { apply Forall2_same_length_lookup_2; [done|]. intros i g bl Hi Hbl.
    destruct (Hin i g [] Hi) as (bl' & Hbl' & Hlen & Hb); [by rewrite list_lookup_fmap, Hi|].
    rewrite Hbl in Hbl'. injection Hbl' as ->. split; [done|]. intros j b Hj. destruct (Hb j b Hj) as (h & Hh & Hbh).
    exists h. split; [|done]. apply lookup_take_Some in Hh. tauto. }
  assert (Hres : res = map (take k) res).
  { rewrite <-(map_id res) at 1. apply map_ext_in. intros bl Hbl%list_elem_of_In. apply list_elem_of_lookup_1 in Hbl as [i Hi].
    destruct (Forall2_lookup_r _ _ _ _ _ Hhits Hi) as (g & _ & Hlen & _). by rewrite take_ge by lia. }
  rewrite Hres in Hok at 1. pose proof (eagle_take _ _ _ _ _ _ _ (hits_state _ _ Hhits) (Nat.le_refl k) Hok) as ->.
  exists (Nat.min (if use_eagle then Nat.pred k else k) k). split.
  { replace (match spec with FullAttentionSpec _ _ _ _ | ChunkedLocalAttentionSpec _ _ _ => true | _ => false end) with true
      by (by destruct spec). cbn [py_assert bind]. unfold py_div. destruct (Z.eqb_spec (spec_block_size spec) 0); [lia|]. cbn [bind].
    destruct (Z.ltb_spec (max_length / spec_block_size spec) 0); [lia|]. fold res. by rewrite Hres at 1. }
  split; [by apply hits_take|]. lia.
Qed.

Lemma window_exact max_length bs att window use_eagle :
  0 < bs -> 2 <= window -> 0 <= max_length -> max_length / bs <= Z.of_nat (length hashes) ->
  exists computed k,
    window_find_longest_cache_hit p hashes max_length gids (SlidingWindowSpec bs att window) use_eagle = Ok computed /\
    lookup_exact k computed /\ Z.of_nat k <= max_length / bs.
Proof.
  intros Hbs Hw Hml Hlen.
  destruct (window_sound max_length bs att window use_eagle Hbs Hw Hml Hlen) as (computed & _ & k0 & _ & Hok & _).
  exists computed. pose proof Hok as Hok'. unfold window_find_longest_cache_hit in Hok'. rewrite py_cdiv_ok in Hok' by done.
  cbn [bind] in Hok'. unfold py_div in Hok'. destruct (Z.eqb_spec bs 0); [lia|]. cbn [bind] in Hok'.
  pose proof (Z.div_pos max_length bs Hml Hbs) as Hpos. set (N := Z.to_nat (max_length / bs)) in *.
  set (need := if use_eagle then cdiv (window - 1) bs + 1 else cdiv (window - 1) bs) in *.
  assert (Hneed : 1 <= need /\ (use_eagle = true -> 2 <= need)).
  { pose proof (cdiv_spec (window - 1) bs Hbs). unfold need. destruct use_eagle; nia. }
  destruct (window_loop p gids hashes need N _ 0) as [[[c1 found] c']|e] eqn:El; [|done]. cbn [bind] in Hok'.
  replace (max_length / bs) with (Z.of_nat N) in El by lia.
  destruct (window_loop_run need N N (map (fun _ => py_repeat (null_block p) (Z.of_nat N)) gids) 0%nat c1 found c') as (n1 & c1' & comp & Hst & HN & -> & Hres); [lia|lia|apply null_state|exact El|].
  set (k := (n1 + c1')%nat) in *.
  assert (E : (if found then c1 else map (take (Z.to_nat (Z.of_nat c1'))) c1) = map (take k) comp).
  { destruct found; [by destruct Hres as [_ ->]|]. destruct Hres as [-> ->]. by rewrite Nat2Z.id. }
  rewrite E in Hok'. pose proof (eagle_take use_eagle k N _ _ _ _ Hst HN Hok') as Hc.
  eexists. split; [exact Hok|]. rewrite Hc. split; [eapply run_exact; [exact Hst|lia|destruct use_eagle; lia|]|destruct use_eagle; lia].
  destruct found; [|destruct Hres; lia]. right. destruct Hres as [Hn _], use_eagle; [specialize (proj2 Hneed eq_refl)|]; lia.
Qed.
End lookup.

(** ** All attention types *)

(** The inputs that the lookups expect: positive sizes, and as many hashes as
    whole blocks fit into [max_length] (full attention copes with fewer). *)
Definition lookup_pre (hashes : list BlockHash) (max_length : Z) (spec : KVCacheSpec) (use_eagle : bool) : Prop :=
  0 < spec_block_size spec /\ 0 <= max_length /\
  match spec with
  | FullAttentionSpec _ _ _ _ | MambaSpec _ _ _ _ _ => True
  | SlidingWindowSpec bs _ window => 2 <= window /\ max_length / bs <= Z.of_nat (length hashes)
  | ChunkedLocalAttentionSpec bs _ chunk =>
      0 < chunk /\ use_eagle = false /\ max_length / bs <= Z.of_nat (length hashes)
  end.

Lemma find_longest_cache_hit_sound p free held gids hashes max_length spec use_eagle :
  pool_inv p free held -> gids <> [] -> lookup_pre hashes max_length spec use_eagle ->
  exists computed k, find_longest_cache_hit p hashes max_length gids spec use_eagle = Ok computed /\
    lookup_sound p hashes gids k computed /\ Z.of_nat k <= max_length / spec_block_size spec.
Proof.
  intros Hinv Hg (Hbs & Hml & Hspec). destruct spec as [bs att ? ?|bs att chunk|bs att window|bs shapes d pad ty]; cbn [find_longest_cache_hit].
  - by eapply full_sound.
  - destruct Hspec as (Hch & -> & Hlen). cbn in Hbs.
    destruct (chunked_sound _ _ _ Hinv gids Hg hashes max_length bs att chunk Hbs Hch Hml Hlen) as (c & k & H1 & H2 & H3).
    exists c, k. split; [done|]. split; [done|]. cbn. lia.
  - destruct Hspec as [Hw Hlen]. cbn in Hbs.
    destruct (window_sound _ _ _ Hinv gids Hg hashes max_length bs att window use_eagle Hbs Hw Hml Hlen)
      as (c & _ & k & _ & H1 & H2 & H3 & _). exists c, k. done.
  - exists (map (fun _ => []) gids), 0%nat. split; [done|]. split; [apply (null_sound p gids hashes 0)|].
    pose proof (Z.div_pos max_length bs Hml Hbs). cbn. lia.
Qed.

(** The prefix of every attention type but chunked local attention ends in a
    cached block. *)
Lemma find_longest_cache_hit_exact p free held gids hashes max_length spec use_eagle :
  pool_inv p free held -> gids <> [] -> lookup_pre hashes max_length spec use_eagle ->
  (match spec with ChunkedLocalAttentionSpec _ _ _ => False | _ => True end) ->
  exists computed k, find_longest_cache_hit p hashes max_length gids spec use_eagle = Ok computed /\
    lookup_exact p gids hashes k computed /\ Z.of_nat k <= max_length / spec_block_size spec.
Proof.
  intros Hinv Hg (Hbs & Hml & Hspec) Hnc. destruct spec as [bs att ? ?|bs att chunk|bs att window|bs shapes d pad ty]; cbn [find_longest_cache_hit].
  - destruct (full_hits _ _ _ Hinv gids Hg hashes max_length _ use_eagle Hbs Hml I) as (c & k & H1 & H2 & H3).
    exists c, k. split; [done|]. split; [by apply hits_exact|done].
  - done.
  - destruct Hspec as [Hw Hlen]. by apply (window_exact _ _ _ Hinv).
  - exists (map (fun _ => []) gids), 0%nat. split; [done|]. split.
    + split; [apply (null_sound p gids hashes 0)|]. clear Hg. induction gids; constructor; [intros j b [=]|done].
    + pose proof (Z.div_pos max_length bs Hml Hbs). cbn. lia.
Qed.

(** ** Main statements *)

(** The lookup of a sliding window returns, for every group, the longest
    prefix that can be reused: the whole blocks that the window of the next token
    touches are all cached for all groups, the blocks in front of them are cached
    blocks or null, and no longer prefix within [max_length] has this property. *)
Theorem window_hit_longest p free held gids hashes max_length bs att window :
  pool_inv p free held -> gids <> [] -> 0 < bs -> 2 <= window -> 0 <= max_length ->
  max_length / bs <= Z.of_nat (length hashes) ->
  exists computed k,
    window_find_longest_cache_hit p hashes max_length gids (SlidingWindowSpec bs att window) false = Ok computed /\
    lookup_sound p hashes gids k computed /\ Z.of_nat k <= max_length / bs /\
    window_hit p gids hashes (window_blocks bs window) k /\
    (forall k', (k < k')%nat -> Z.of_nat k' <= max_length / bs -> ~ window_hit p gids hashes (window_blocks bs window) k').
Proof.
  intros Hinv Hg Hbs Hw Hml Hlen.
  destruct (window_sound _ _ _ Hinv gids Hg hashes max_length bs att window false Hbs Hw Hml Hlen)
    as (c & c0 & k & k0 & H1 & H2 & H3 & H4 & [= ->] & H5 & H6 & H7).
  rewrite Z.add_0_r in H6, H7. exists c, k0. done.
Qed.

(** With fewer hashes than whole blocks in [max_length] (a preempted request
    whose last tokens were accepted drafts, for which no hash was computed) the
    sliding-window lookup raises [IndexError] where full attention just stops. *)
Theorem window_lookup_short_hashes p gids hashes max_length bs att window use_eagle :
  0 < bs -> 0 <= max_length -> Z.of_nat (length hashes) < max_length / bs ->
  window_find_longest_cache_hit p hashes max_length gids (SlidingWindowSpec bs att window) use_eagle = Raise IndexError /\
  exists computed,
    full_find_longest_cache_hit p hashes max_length gids (FullAttentionSpec bs att (Some window) None) false = Ok computed.
Proof.
  intros Hbs Hml Hlen. split.
  - unfold window_find_longest_cache_hit. rewrite py_cdiv_ok by done. cbn [bind]. unfold py_div.
    destruct (Z.eqb_spec bs 0); [lia|]. cbn [bind]. destruct (Z.to_nat (max_length / bs)) as [|m] eqn:En; [lia|].
    cbn [window_loop]. rewrite lookup_ge_None_2 by lia. done.
  - unfold full_find_longest_cache_hit, py_div. cbn [py_assert bind spec_block_size]. destruct (Z.eqb_spec bs 0); [lia|]. cbn [bind].
    destruct (Z.ltb_spec (max_length / bs) 0); [lia|]. cbn. eauto.
Qed.

(** ** Concrete lookups *)

(** Window 3, blocks of 2: one block in front of the token is enough. *)
Lemma window_hit_longest_witness :
  exists computed, window_find_longest_cache_hit pool4 (hashes_of (plain_request "a" [1; 2; 3; 4])) 3 [0]
                     (SlidingWindowSpec 2 demo_attention 3) false = Ok computed.
Proof.
  destruct (window_hit_longest pool4 [1; 2; 3]%nat [] [0] (hashes_of (plain_request "a" [1; 2; 3; 4])) 3 2 demo_attention 3
              pool4_inv) as (computed & k & H & _); [discriminate|lia|lia|lia|vm_compute; discriminate|].
  exists computed. exact H.
Defined.

Lemma window_lookup_short_hashes_witness :
  window_find_longest_cache_hit pool4 (hashes_of (plain_request "a" [1; 2])) 5 [0]
    (SlidingWindowSpec 2 demo_attention 3) false = Raise IndexError.
Proof.
  apply (window_lookup_short_hashes pool4 [0] (hashes_of (plain_request "a" [1; 2])) 5 2 demo_attention 3 false);
    [lia|lia|vm_compute; reflexivity].
Defined.
