(* ===== verification/KVCoordinator.v ===== *)
(** * The coordinator of the KV cache groups ([v1/core/kv_cache_coordinator.py])

    One manager per KV cache group over a single block pool.  Every operation of
    the coordinator visits the managers in order ([each]); the prefix lookup
    depends on the kind of coordinator. *)

From stdpp Require Import base functions gmap strings list.
From Stdlib Require Import ZArith Lia.
From S2P Require Import Prelude FreeQueue Request BlockHash BlockPool KVCacheInterface SingleType PrefixLookup.
Open Scope list_scope.
Open Scope Z_scope.

(** ** State *)

(** The three classes with the fields they add. *)
Inductive CoordinatorKind : Type :=
| NoPrefixCache (num_single_type_manager : nat)
| Unitary (unitary_spec : KVCacheSpec)
| Hybrid (full_attention_group_ids other_group_ids : list Z) (full_attention_spec other_spec : KVCacheSpec)
    (full_attn_first : bool).

Record KVCacheCoordinator : Type := {
  kind : CoordinatorKind;
  kv_cache_config : KVCacheConfig;
  coordinator_caching : bool;
  block_pool : BlockPool;
  use_eagle : bool;
  single_type_managers : list Manager }.
Definition with_state (c : KVCacheCoordinator) (p : BlockPool) (ms : list Manager) : KVCacheCoordinator :=
  {| kind := kind c; kv_cache_config := kv_cache_config c; coordinator_caching := coordinator_caching c;
     block_pool := p; use_eagle := use_eagle c; single_type_managers := ms |}.

(** ** Construction *)

(** The loop of [verify_and_split_kv_cache_groups]. *)
Fixpoint split_groups (i : Z) (groups : list KVCacheGroupSpec) (full other : option KVCacheSpec)
    (full_ids other_ids : list Z) : res (option KVCacheSpec * option KVCacheSpec * list Z * list Z) :=
  match groups with
  | [] => Ok (full, other, full_ids, other_ids)
  | g :: groups =>
      let s := group_spec g in
      if is_full s then
        py_assert (match full with None => true | Some f => bool_decide (f = s) end) ;;!
        split_groups (i + 1) groups (Some (default s full)) other (full_ids ++ [i]) other_ids
      else
        py_assert (match other with None => true | Some o => bool_decide (o = s) end) ;;!
        split_groups (i + 1) groups full (Some (default s other)) full_ids (other_ids ++ [i])
  end.
Definition verify_and_split_kv_cache_groups (enable_caching : bool) (groups : list KVCacheGroupSpec) :
    res CoordinatorKind :=
  let! '(full, other, full_ids, other_ids) := split_groups 0 groups None None [] [] in
  let! full_spec := of_option AssertionError full in
  let! other_spec := of_option AssertionError other in
  (if enable_caching
   then let! r := py_mod (spec_block_size other_spec) (spec_block_size full_spec) in py_assert (r =? 0)
   else Ok tt) ;;!
  (let! max_full := py_max full_ids in
   let! min_other := py_min other_ids in
   if max_full <? min_other then Ok (Hybrid full_ids other_ids full_spec other_spec true)
   else
     let! max_other := py_max other_ids in
     let! min_full := py_min full_ids in
     if max_other <? min_full then Ok (Hybrid full_ids other_ids full_spec other_spec false)
     else Raise ValueError).

(** [KVCacheCoordinator.__init__] and [get_kv_cache_coordinator]. *)
Definition make_managers (groups : list KVCacheGroupSpec) : list Manager :=
  imap (fun i g => get_manager_for_kv_cache_spec (group_spec g) (Z.of_nat i)) groups.
Definition get_kv_cache_coordinator (config : KVCacheConfig) (eagle enable_caching events : bool) :
    res KVCacheCoordinator :=
  let groups := kv_cache_groups config in
  let base caching k :=
    let! pool := make_block_pool (num_blocks config) caching events in
    let! kd := k in
    Ok {| kind := kd; kv_cache_config := config; coordinator_caching := caching; block_pool := pool;
          use_eagle := eagle; single_type_managers := make_managers groups |} in
  if negb enable_caching then base false (Ok (NoPrefixCache (length (make_managers groups))))
  else
    match groups with
    | [g] => base enable_caching (Ok (Unitary (group_spec g)))
    | _ => base enable_caching (verify_and_split_kv_cache_groups enable_caching groups)
    end.

(** ** Operations *)

(** [for i, manager in enumerate(self.single_type_managers)] with a state. *)
Section each.
Context {S A : Type} (f : nat -> S -> Manager -> res (A * S * Manager)).
Fixpoint each (i : nat) (s : S) (ms : list Manager) : res (list A * S * list Manager) :=
  match ms with
  | [] => Ok ([], s, [])
  | m :: ms =>
      let! '(a, s, m) := f i s m in
      let! '(as_, s, ms) := each (Datatypes.S i) s ms in
      Ok (a :: as_, s, m :: ms)
  end.
End each.

Definition get_num_blocks_to_allocate (c : KVCacheCoordinator) (request_id : string) (num_tokens : Z)
    (new_computed_blocks : list (list Ref)) : res (Z * KVCacheCoordinator) :=
  let! '(counts, p, ms) := each (fun i p m =>
      let! blocks := of_option IndexError (new_computed_blocks !! i) in
      let! '(n, m) := SingleType.get_num_blocks_to_allocate p m request_id num_tokens blocks in
      Ok (n, p, m)) 0 (block_pool c) (single_type_managers c) in
  Ok (zsum counts, with_state c p ms).

Definition save_new_computed_blocks (c : KVCacheCoordinator) (request_id : string)
    (new_computed_blocks : list (list Ref)) : res KVCacheCoordinator :=
  let! '(_, p, ms) := each (fun i p m =>
      let! blocks := of_option IndexError (new_computed_blocks !! i) in
      let! m := SingleType.save_new_computed_blocks m request_id blocks in
      Ok (tt, p, m)) 0 (block_pool c) (single_type_managers c) in
  Ok (with_state c p ms).

Definition allocate_new_blocks (c : KVCacheCoordinator) (request_id : string) (num_tokens : Z) :
    res (list (list Ref) * KVCacheCoordinator) :=
  let! '(new, p, ms) := each (fun _ p m => SingleType.allocate_new_blocks p m request_id num_tokens)
                          0 (block_pool c) (single_type_managers c) in
  Ok (new, with_state c p ms).

Section hashing.
Context (hash_fn : Z * list Z * option (list ExtraKey) -> Z) (NONE_HASH : Z).
(** All managers append to the same list of hashes. *)
Definition cache_blocks (c : KVCacheCoordinator) (request : Request) (block_hashes : list BlockHash)
    (num_computed_tokens : Z) : res (KVCacheCoordinator * list BlockHash) :=
  let! '(_, (p, hashes), ms) := each (fun _ s m =>
      let! '(p, m, hashes) := SingleType.cache_blocks hash_fn NONE_HASH (fst s) m request (snd s) num_computed_tokens in
      Ok (tt, (p, hashes), m)) 0 (block_pool c, block_hashes) (single_type_managers c) in
  Ok (with_state c p ms, hashes).
End hashing.

Definition free (c : KVCacheCoordinator) (request_id : string) : res KVCacheCoordinator :=
  let! '(_, p, ms) := each (fun _ p m => let! '(p, m) := SingleType.free p m request_id in Ok (tt, p, m))
                        0 (block_pool c) (single_type_managers c) in
  Ok (with_state c p ms).

Definition get_num_common_prefix_blocks (c : KVCacheCoordinator) (request_id : string) (num_running_requests : Z) :
    res (list Z * KVCacheCoordinator) :=
  match kind c with
  | NoPrefixCache n => Ok (py_repeat 0 (Z.of_nat n), c)
  | _ =>
      let! '(counts, p, ms) := each (fun _ p m =>
          let '(n, m) := SingleType.get_num_common_prefix_blocks p m request_id num_running_requests in Ok (n, p, m))
          0 (block_pool c) (single_type_managers c) in
      Ok (counts, with_state c p ms)
  end.

Definition remove_skipped_blocks (c : KVCacheCoordinator) (request_id : string) (num_computed_tokens : Z) :
    res KVCacheCoordinator :=
  let! '(_, p, ms) := each (fun _ p m =>
      let! '(p, m) := SingleType.remove_skipped_blocks p m request_id num_computed_tokens in Ok (tt, p, m))
      0 (block_pool c) (single_type_managers c) in
  Ok (with_state c p ms).

Definition get_blocks (c : KVCacheCoordinator) (request_id : string) : list (list Ref) :=
  map (fun m => blocks_of m request_id) (single_type_managers c).

(** [find_longest_cache_hit] of the three classes. *)
Definition hybrid_find_longest_cache_hit (p : BlockPool) (eagle : bool) (full_ids other_ids : list Z)
    (full_spec other_spec : KVCacheSpec) (full_first : bool) (block_hashes : list BlockHash)
    (max_cache_hit_length : Z) : res (list (list Ref) * Z) :=
  let! hit_full := full_find_longest_cache_hit p block_hashes max_cache_hit_length full_ids full_spec eagle in
  let! first_full := of_option IndexError (hit_full !! 0%nat) in
  let hit_length := Z.of_nat (length first_full) * spec_block_size full_spec in
  let! hit_other := find_longest_cache_hit p block_hashes hit_length other_ids other_spec eagle in
  let! first_other := of_option IndexError (hit_other !! 0%nat) in
  let hit_length := Z.of_nat (length first_other) * spec_block_size other_spec in
  let! r := py_mod hit_length (spec_block_size full_spec) in
  py_assert (r =? 0) ;;!
  (let! n := py_div hit_length (spec_block_size full_spec) in
   let hit_full := map (take (Z.to_nat n)) hit_full in
   Ok (if full_first then hit_full ++ hit_other else hit_other ++ hit_full, hit_length)).
Definition find_longest_cache_hit (c : KVCacheCoordinator) (block_hashes : list BlockHash) (max_cache_hit_length : Z) :
    res (list (list Ref) * Z) :=
  match kind c with
  | NoPrefixCache n => Ok (repeat [] n, 0)
  | Unitary spec =>
      let! hit_blocks := SingleType.find_longest_cache_hit (block_pool c) block_hashes max_cache_hit_length [0] spec (use_eagle c) in
      let! first := of_option IndexError (hit_blocks !! 0%nat) in
      Ok (hit_blocks, Z.of_nat (length first) * spec_block_size spec)
  | Hybrid full_ids other_ids full_spec other_spec full_first =>
      hybrid_find_longest_cache_hit (block_pool c) (use_eagle c) full_ids other_ids full_spec other_spec full_first
        block_hashes max_cache_hit_length
  end.
