(* ===== verification/CoordinatorInv.v ===== *)
(** * The invariant of the KV cache coordinator

    [kv_core p ms fr extra]: the pool holds exactly the references of the block
    tables of all managers (and [extra]), a block that two tables share carries a
    hash, and every table is cached up to its recorded length.  Each operation of
    one manager preserves it for the whole list of managers. *)

From stdpp Require Import base functions gmap strings list.
From Stdlib Require Import ZArith Lia.
From S2P Require Import Prelude FreeQueue Request BlockHash BlockPool KVCacheInterface SingleType PrefixLookup KVCoordinator.
Open Scope list_scope.
Open Scope Z_scope.

Definition held_all (ms : list Manager) : list nat := flat_map held_of ms.

(** The blocks from position [nc] on are real and not yet hashed, and block
    [nc - 1] has a hash. *)
Record table_ok (h : Ref -> option BlockHashWithGroupId) (bl : list Ref) (nc : Z) : Prop := {
  to_range : 0 <= nc <= Z.of_nat (length bl);
  to_new : forall j n, nc <= Z.of_nat j -> bl !! j = Some (Blk n) -> (0 < n)%nat /\ h (Blk n) = None;
  to_last : 0 < nc -> exists n, bl !! Z.to_nat (nc - 1) = Some (Blk n) /\ is_Some (h (Blk n)) }.

Definition spec_pos (s : KVCacheSpec) : Prop :=
  0 < spec_block_size s /\ match s with ChunkedLocalAttentionSpec _ _ c => 0 < c | _ => True end.

Record kv_core (p : BlockPool) (ms : list Manager) (fr extra : list nat) : Prop := {
  kc_pool : pool_inv p fr (held_all ms ++ extra);
  kc_mgr : forall m, m ∈ ms -> mgr_ok (num_gpu_blocks p) m /\ spec_pos (kv_cache_spec m);
  kc_shared : forall n, (0 < n)%nat -> (2 <= count (held_all ms ++ extra) n)%nat -> is_Some (block_hash p (Blk n));
  kc_nocache : enable_caching p = false -> forall r, block_hash p r = None;
  kc_tables : enable_caching p = true -> forall m id nc, m ∈ ms -> num_cached_block m !! id = Some nc ->
    table_ok (block_hash p) (blocks_of m id) nc }.

Lemma held_at ms1 m ms2 extra :
  held_all (ms1 ++ m :: ms2) ++ extra ≡ₚ held_of m ++ held_all ms1 ++ held_all ms2 ++ extra.
Proof.
  unfold held_all. rewrite flat_map_app. cbn [flat_map]. rewrite <-!app_assoc.
  rewrite (app_assoc _ (held_of m)), (Permutation_app_comm _ (held_of m)), <-app_assoc. done.
Qed.

Lemma in_middle {A} (m' m : A) ms1 ms2 : m ∈ ms1 ++ m' :: ms2 <-> m = m' \/ m ∈ ms1 ++ ms2.
Proof. rewrite !elem_of_app, elem_of_cons. tauto. Qed.

#[export] Instance count_proper : Proper ((≡ₚ) ==> (=) ==> (=)) (count_occ Nat.eq_dec).
Proof. intros l l' H n _ <-. by apply (Permutation_count_occ Nat.eq_dec). Qed.

(** A real block in a table is held. *)
Lemma in_table_held m id j n : blocks_of m id !! j = Some (Blk n) -> (0 < n)%nat -> n ∈ held_of m.
Proof.
  intros Hj Hn. rewrite (held_split m id). apply elem_of_app. left. unfold held_blocks. apply elem_of_real. split; [|lia].
  unfold ids_of. apply list_elem_of_In, in_flat_map. exists (Blk n). split; [|by left].
  apply list_elem_of_In. by eapply list_elem_of_lookup_2.
Qed.
Lemma held_of_all m ms n : m ∈ ms -> n ∈ held_of m -> n ∈ held_all ms.
Proof. intros Hm Hn. unfold held_all. apply list_elem_of_In, in_flat_map. exists m. by rewrite <-!list_elem_of_In. Qed.

(** A block that is held and in a table a second time is counted twice. *)
Lemma count_two l1 l2 n : n ∈ l1 -> n ∈ l2 -> (2 <= count (l1 ++ l2) n)%nat.
Proof.
  intros H1 H2. rewrite count_occ_app.
  pose proof (proj1 (count_occ_In Nat.eq_dec l1 n) (proj1 (list_elem_of_In _ _) H1)).
  pose proof (proj1 (count_occ_In Nat.eq_dec l2 n) (proj1 (list_elem_of_In _ _) H2)). lia.
Qed.

Section focus.
Context (p : BlockPool) (ms1 ms2 : list Manager) (m : Manager) (fr extra : list nat).
Context (Hcore : kv_core p (ms1 ++ m :: ms2) fr extra).
Notation rest := (held_all ms1 ++ held_all ms2 ++ extra).

Lemma focus_pool : pool_inv p fr (held_of m ++ rest).
Proof. eapply pool_inv_perm; [apply Hcore|]. by rewrite held_at. Qed.
Lemma focus_mgr : mgr_ok (num_gpu_blocks p) m /\ spec_pos (kv_cache_spec m).
Proof. apply Hcore, in_middle. by left. Qed.
Lemma focus_size : 0 < block_size m.
Proof. apply focus_mgr. Qed.

(** Operations that keep the hashes and give references back. *)
Lemma core_released p' m' fr' :
  pool_inv p' fr' (held_of m' ++ rest) -> same_cache p p' -> mgr_ok (num_gpu_blocks p') m' ->
  kv_cache_spec m' = kv_cache_spec m -> (exists rm, held_of m ≡ₚ rm ++ held_of m') ->
  (enable_caching p = true -> forall id nc, num_cached_block m' !! id = Some nc ->
     table_ok (block_hash p) (blocks_of m' id) nc) ->
  kv_core p' (ms1 ++ m' :: ms2) fr' extra.
Proof.
  intros Hp Hs Hm Hspec [rm Hrm] Ht. destruct Hs as [E1 E2 E3 E4 E5]. split.
  - eapply pool_inv_perm; [exact Hp|]. by rewrite held_at.
  - intros m0 [->|Hm0]%in_middle; [rewrite Hspec; split; [done|apply focus_mgr]|].
    rewrite E1. apply Hcore, in_middle. by right.
  - intros n Hn Hc. rewrite E3. apply (kc_shared _ _ _ _ Hcore n Hn).
    rewrite held_at, Hrm. rewrite held_at in Hc.
    rewrite <-app_assoc, count_occ_app. lia.
  - rewrite E2, E3. apply Hcore.
  - rewrite E2, E3. intros Hca m0 id nc [->|Hm0]%in_middle; [by apply Ht|].
    apply (kc_tables _ _ _ _ Hcore Hca), in_middle. by right.
Qed.

Lemma core_ensure id : kv_core p (ms1 ++ ensure m id :: ms2) fr extra.
Proof.
  eapply core_released; [|apply same_cache_refl|by apply mgr_ok_ensure, focus_mgr|done| |].
  - eapply pool_inv_perm; [apply focus_pool|]. by rewrite held_ensure.
  - exists []. by rewrite held_ensure.
  - intros Hca id' nc Hnc. rewrite blocks_of_ensure. apply (kc_tables _ _ _ _ Hcore Hca); [|exact Hnc]. apply in_middle. by left.
Qed.

Lemma core_free id :
  exists p' m' fr', SingleType.free p m id = Ok (p', m') /\ kv_core p' (ms1 ++ m' :: ms2) (fr ++ fr') extra /\
    same_cache p p' /\ blocks_of m' id = [] /\ num_cached_block m' = delete id (num_cached_block m) /\
    kv_cache_spec m' = kv_cache_spec m /\ kv_cache_group_id m' = kv_cache_group_id m /\
    (forall id', id' <> id -> blocks_of m' id' = blocks_of m id').
Proof.
  destruct (free_ok p m rest fr id focus_pool (proj1 focus_mgr))
    as (p' & m' & fr' & Hok & Hp & Hm & _ & Hspec & Hb & _ & Hother & _ & Hs & Hperm & Hnc & Hgid).
  exists p', m', fr'. split; [done|]. split.
  - eapply core_released; [exact Hp|done|done|done|by eexists|].
    intros Hca id' nc Hid'. rewrite Hnc in Hid'. apply lookup_delete_Some in Hid' as [Hne Hid'].
    rewrite Hother by done. apply (kc_tables _ _ _ _ Hcore Hca); [|done]. apply in_middle. by left.
  - done.
Qed.

(** The blocks to skip are cached, and the last cached block is kept. *)
Definition skip_ok (caching : bool) (m : Manager) (id : string) (n : Z) : Prop :=
  forall k, first_useful_block m id n = Ok (Some k) -> k <= Z.of_nat (length (blocks_of m id)) /\
    (caching = true -> k <= 0 \/ exists nc, num_cached_block m !! id = Some nc /\ k < nc).

Lemma core_skip id n :
  skip_ok (enable_caching p) m id n ->
  exists p' m' fr', SingleType.remove_skipped_blocks p m id n = Ok (p', m') /\
    kv_core p' (ms1 ++ m' :: ms2) (fr ++ fr') extra /\ same_cache p p' /\
    num_cached_block m' = num_cached_block m /\ kv_cache_spec m' = kv_cache_spec m /\
    kv_cache_group_id m' = kv_cache_group_id m /\ length (blocks_of m' id) = length (blocks_of m id) /\
    (forall id', id' <> id -> blocks_of m' id' = blocks_of m id') /\
    (forall k j, first_useful_block m id n = Ok (Some k) -> k <= Z.of_nat j -> blocks_of m' id !! j = blocks_of m id !! j) /\
    (first_useful_block m id n = Ok None -> blocks_of m' id = blocks_of m id).
Proof.
  intros Hskip. destruct focus_mgr as [Hm [Hbs Hspec]].
  destruct (remove_skipped_ok p m rest fr id n focus_pool Hm Hbs) as
    (p' & m' & fr' & Hok & Hp & Hm' & _ & Hs' & Hnc & Hlen & Hother & Hkeep & Hsame & Hperm & Hgid).
  { by destruct (kv_cache_spec m). }
  { intros k Hk. by apply Hskip. }
  assert (Hnone : first_useful_block m id n = Ok None -> blocks_of m' id = blocks_of m id).
  { intros E. unfold SingleType.remove_skipped_blocks in Hok. rewrite E in Hok. cbn in Hok. by injection Hok as _ <-. }
  exists p', m', fr'. split; [done|]. split; [|done].
  eapply core_released; [exact Hp|done|done|done|done|].
  intros Hca id' nc Hid'. rewrite Hnc in Hid'.
  assert (Ht : table_ok (block_hash p) (blocks_of m id') nc).
  { apply (kc_tables _ _ _ _ Hcore Hca); [|done]. apply in_middle. by left. }
  destruct (decide (id' = id)) as [->|Hne]; [|by rewrite Hother].
  destruct (first_useful_block m id n) as [[k|]|e] eqn:Eu; [|by rewrite Hnone|].
  2:{ unfold SingleType.remove_skipped_blocks in Hok. by rewrite Eu in Hok. }
  destruct (Hskip k Eu) as [_ Hk]. specialize (Hk Hca). destruct Ht as [T1 T2 T3]. rewrite Hid' in Hk.
  assert (Hk' : k <= 0 \/ k < nc) by (destruct Hk as [?|(? & [= <-] & ?)]; lia).
  split.
  - by rewrite Hlen.
  - intros j b Hj. rewrite (Hkeep k) by (done || lia). by apply T2.
  - intros Hpos. rewrite (Hkeep k) by (done || lia). by apply T3.
Qed.

(** ** Allocation *)

Lemma table_handed_out p' fr' new bl nc held :
  pool_inv p fr held -> handed_out p p' fr fr' new -> enable_caching p = true ->
  (forall j n, bl !! j = Some (Blk n) -> (0 < n)%nat -> n ∈ held) ->
  table_ok (block_hash p) bl nc -> table_ok (block_hash p') bl nc.
Proof.
  intros Hinv Ho Hca Hheld [T1 T2 T3]. split; [done| |].
  - intros j n Hj Hn. destruct (T2 j n Hj Hn) as [? Hnone]. split; [done|].
    destruct (decide (Blk n ∈ new)) as [Hin|Hni]; [by apply (ho_reset _ _ _ _ _ Ho)|]. by rewrite (ho_other _ _ _ _ _ Ho).
  - intros Hpos. destruct (T3 Hpos) as (n & Hn & [k Hk]). exists n. split; [done|].
    rewrite (ho_other _ _ _ _ _ Ho); [by exists k|]. rewrite (ho_new _ _ _ _ _ Ho).
    intros (n' & [= <-] & Hin)%list_elem_of_fmap.
    assert (Hreal : (0 < n)%nat) by (destruct (ci_real _ _ _ (pi_cache _ _ _ Hinv) _ _ Hk) as (? & [= <-] & ?); lia).
    assert (Hfr : n ∈ fr) by (rewrite <-(take_drop (length new) fr); apply elem_of_app; by left).
    apply (pi_free _ _ _ Hinv) in Hfr as [_ Hfr]. by apply Hfr, (Hheld (Z.to_nat (nc - 1))).
Qed.

Definition missing_blocks (m : Manager) (id : string) (num_tokens : Z) : Z :=
  cdiv num_tokens (block_size m) - Z.of_nat (length (blocks_of m id)).

Lemma core_allocate id num_tokens :
  missing_blocks m id num_tokens <= Z.of_nat (length fr) ->
  (match kv_cache_spec m with
   | MambaSpec _ _ _ _ _ => Z.max (cdiv num_tokens (block_size m)) (Z.of_nat (length (blocks_of m id))) = 1
   | _ => True end) ->
  exists new p' m' fr', SingleType.allocate_new_blocks p m id num_tokens = Ok (new, p', m') /\
    kv_core p' (ms1 ++ m' :: ms2) fr' extra /\ handed_out p p' fr fr' new /\ num_gpu_blocks p' = num_gpu_blocks p /\
    blocks_of m' id = blocks_of m id ++ new /\ Z.of_nat (length new) = Z.max 0 (missing_blocks m id num_tokens) /\
    (forall id', id' <> id -> blocks_of m' id' = blocks_of m id') /\
    num_cached_block m' = num_cached_block m /\ kv_cache_spec m' = kv_cache_spec m /\
    kv_cache_group_id m' = kv_cache_group_id m.
Proof.
  intros Hneed Hmamba. destruct focus_mgr as [Hm Hspec]. pose proof focus_pool as Hp0.
  destruct (base_allocate_ok p m rest fr id num_tokens Hp0 Hm (proj1 Hspec)) as [H _].
  destruct (H Hneed) as (new & p' & m' & fr' & Hok & Hp & Hm' & Hnum & Hs' & Hb & Hlen & Hother & Ho & Hnc & Hgid & Hheld).
  exists new, p', m', fr'. split.
  { unfold SingleType.allocate_new_blocks. rewrite Hok. cbn [bind]. rewrite Hs'. destruct (kv_cache_spec m); try done.
    rewrite Hb, length_app. destruct (Nat.eqb_spec (length (blocks_of m id) + length new) 1); [done|]. unfold missing_blocks in *. lia. }
  split; [|done]. split.
  - eapply pool_inv_perm; [exact Hp|]. by rewrite held_at.
  - intros m0 [->|Hm0]%in_middle; [by rewrite Hs'|]. rewrite Hnum. apply Hcore, in_middle. by right.
  - intros n Hn Hc. rewrite held_at, Hheld, <-app_assoc, count_occ_app in Hc.
    destruct (decide (n ∈ held_blocks new)) as [Hin|Hni].
    + exfalso. pose proof (ho_new _ _ _ _ _ Ho) as Hnew. rewrite Hnew, held_blocks_map in Hin, Hc.
      assert (Hfr : n ∈ fr).
      { apply elem_of_real in Hin as [Hin _]. rewrite <-(take_drop (length new) fr). apply elem_of_app. by left. }
      rewrite count_real in Hc by done. apply (pi_free _ _ _ Hp0) in Hfr as [_ Hfr]. rewrite (count_zero _ _ Hfr) in Hc.
      pose proof (fl_nodup _ _ (pi_queue _ _ _ Hp0)) as Hnd. rewrite <-(take_drop (length new) fr) in Hnd.
      apply NoDup_app in Hnd as [Hnd _]. rewrite (count_nodup _ _ Hnd) in Hc. case_decide; lia.
    + rewrite count_zero in Hc by done. rewrite (ho_other _ _ _ _ _ Ho).
      * apply (kc_shared _ _ _ _ Hcore n Hn). by rewrite held_at.
      * intros Hin. apply Hni. rewrite (ho_new _ _ _ _ _ Ho) in Hin |- *. apply list_elem_of_fmap in Hin as (n' & [= <-] & Hin).
        rewrite held_blocks_map. apply elem_of_real. split; [done|lia].
  - rewrite (ho_caching _ _ _ _ _ Ho). intros Hca r. rewrite (ho_nocache _ _ _ _ _ Ho Hca). by apply Hcore.
  - rewrite (ho_caching _ _ _ _ _ Ho). intros Hca m0 id0 nc [->|Hm0]%in_middle Hid0.
    + rewrite Hnc in Hid0. assert (Hin : m ∈ ms1 ++ m :: ms2) by (apply in_middle; by left).
      pose proof (kc_tables _ _ _ _ Hcore Hca m id0 nc Hin Hid0) as Ht.
      assert (Ht' : table_ok (block_hash p') (blocks_of m id0) nc).
      { eapply table_handed_out; [exact Hp0|done|done| |done]. intros j n Hj Hn. apply elem_of_app. left. by eapply in_table_held. }
      destruct (decide (id0 = id)) as [->|Hne]; [|by rewrite Hother]. rewrite Hb. destruct Ht' as [T1 T2 T3]. split.
      * rewrite length_app. lia.
      * intros j n Hj [Hn|[Hge Hn]]%lookup_app_Some; [by apply (T2 j)|].
        assert (Hin' : Blk n ∈ new) by (by eapply list_elem_of_lookup_2).
        split; [|by apply (ho_reset _ _ _ _ _ Ho)]. rewrite (ho_new _ _ _ _ _ Ho) in Hin'.
        apply list_elem_of_fmap in Hin' as (n' & [= <-] & Hin').
        assert (Hfr : n ∈ fr) by (rewrite <-(take_drop (length new) fr); apply elem_of_app; by left).
        apply (pi_free _ _ _ Hp0) in Hfr as [? _]. lia.
      * intros Hpos. destruct (T3 Hpos) as (n & Hn & ?). exists n. split; [|done]. rewrite lookup_app_l; [done|]. by eapply lookup_lt_Some.
    + assert (Hin : m0 ∈ ms1 ++ m :: ms2) by (apply in_middle; by right).
      eapply table_handed_out; [exact (kc_pool _ _ _ _ Hcore)|done|done| |by apply (kc_tables _ _ _ _ Hcore Hca)].
      intros j n Hj Hn. apply elem_of_app. left. eapply held_of_all; [done|]. by eapply in_table_held.
Qed.

(** ** Prefix hits *)

Lemma core_save id l :
  good_blocks (num_gpu_blocks p) (map Blk l) -> num_cached_block m !! id = None -> blocks_of m id = [] ->
  (enable_caching p = true -> table_ok (block_hash p) (map Blk l) (Z.of_nat (length l))) ->
  forall extra', extra ≡ₚ real l ++ extra' ->
  exists m', SingleType.save_new_computed_blocks m id (map Blk l) = Ok m' /\ kv_core p (ms1 ++ m' :: ms2) fr extra' /\
    blocks_of m' id = map Blk l /\ num_cached_block m' = <[id := Z.of_nat (length l)]> (num_cached_block m) /\
    kv_cache_spec m' = kv_cache_spec m /\ kv_cache_group_id m' = kv_cache_group_id m /\
    (forall id', id' <> id -> blocks_of m' id' = blocks_of m id').
Proof.
  intros Hg Hnc Hb Ht extra' He. destruct focus_mgr as [Hm Hspec].
  destruct (save_ok _ m (held_all ms1 ++ held_all ms2 ++ extra') id l Hm Hg Hnc Hb)
    as (m' & Hok & Hm' & Hperm & Hb' & Hnc' & Hs' & Hgid & Hother).
  exists m'. split; [done|]. split; [|done].
  assert (Hall : held_all (ms1 ++ m' :: ms2) ++ extra' ≡ₚ held_all (ms1 ++ m :: ms2) ++ extra).
  { rewrite !held_at, Hperm, He. rewrite (Permutation_app_comm (real l)), <-!app_assoc. apply Permutation_app_head.
    rewrite (app_assoc _ _ (extra' ++ _)), (app_assoc _ _ (real l ++ _)). apply Permutation_app_head. apply Permutation_app_comm. }
  split.
  - eapply pool_inv_perm; [apply Hcore|]. by rewrite Hall.
  - intros m0 [->|Hm0]%in_middle; [by rewrite Hs'|]. apply Hcore, in_middle. by right.
  - intros n Hn. rewrite Hall. by apply Hcore.
  - apply Hcore.
  - intros Hca m0 id0 nc [->|Hm0]%in_middle Hid0; [|apply (kc_tables _ _ _ _ Hcore Hca); [apply in_middle; by right|done]].
    rewrite Hnc' in Hid0. destruct (decide (id0 = id)) as [->|Hne].
    + rewrite lookup_insert_eq in Hid0. injection Hid0 as <-. rewrite Hb'. by apply Ht.
    + rewrite lookup_insert_ne in Hid0 by done. rewrite Hother by done.
      apply (kc_tables _ _ _ _ Hcore Hca); [apply in_middle; by left|done].
Qed.
End focus.

(** ** Touching prefix hits *)

Lemma core_touch p ms fr extra bss :
  kv_core p ms fr extra -> (forall n, n ∈ concat bss -> Z.of_nat n < num_gpu_blocks p) ->
  (forall n, n ∈ real (concat bss) -> is_Some (block_hash p (Blk n))) ->
  exists p' fr', touch p (map (map Blk) bss) = Ok p' /\ kv_core p' ms fr' (real (concat bss) ++ extra) /\ same_cache p p'.
Proof.
  intros Hc Hb Hh. destruct (touch_aux _ _ _ bss (kc_pool _ _ _ _ Hc) Hb) as (p' & fr' & held' & Hok & Hp & Hperm & Hs).
  exists p', fr'. split; [done|]. split; [|done].
  assert (Hall : held_all ms ++ real (concat bss) ++ extra ≡ₚ held').
  { rewrite Hperm, !app_assoc. apply Permutation_app_tail, Permutation_app_comm. }
  destruct Hs as [E1 E2 E3 E4 E5]. split.
  - eapply pool_inv_perm; [exact Hp|]. by rewrite Hall.
  - rewrite E1. apply Hc.
  - intros n Hn Hcount. rewrite E3. rewrite Hall, Hperm, count_occ_app in Hcount.
    destruct (decide (n ∈ real (concat bss))) as [Hin|Hni]; [by apply Hh|].
    rewrite (count_zero _ _ Hni) in Hcount. by apply (kc_shared _ _ _ _ Hc).
  - rewrite E2, E3. apply Hc.
  - rewrite E2, E3. apply Hc.
Qed.

(** ** Caching full blocks *)

Lemma take_drop3 {A} (l : list A) a b : (a <= b)%nat -> l = take a l ++ take (b - a) (drop a l) ++ drop b l.
Proof.
  intros H. rewrite <-(take_drop a l) at 1. f_equal. rewrite <-(take_drop (b - a) (drop a l)) at 1. f_equal.
  rewrite drop_drop. f_equal. lia.
Qed.

Section cache.
Context (hash_fn : Z * list Z * option (list ExtraKey) -> Z) (NONE_HASH : Z).
Context (p : BlockPool) (ms1 ms2 : list Manager) (m : Manager) (fr extra : list nat).
Context (Hcore : kv_core p (ms1 ++ m :: ms2) fr extra) (Hca : enable_caching p = true).

(** The uncached blocks of a table are in no other table. *)
Lemma uncached_exclusive id nc j n :
  num_cached_block m !! id = Some nc -> nc <= Z.of_nat j -> blocks_of m id !! j = Some (Blk n) ->
  (0 < n)%nat /\ block_hash p (Blk n) = None /\ (count (held_all (ms1 ++ m :: ms2) ++ extra) n < 2)%nat.
Proof.
  intros Hnc Hj Hn. assert (Hin : m ∈ ms1 ++ m :: ms2) by (apply in_middle; by left).
  destruct (to_new _ _ _ (kc_tables _ _ _ _ Hcore Hca m id nc Hin Hnc) j n Hj Hn) as [Hpos Hnone].
  split; [done|]. split; [done|]. destruct (le_lt_dec 2 (count (held_all (ms1 ++ m :: ms2) ++ extra) n)) as [H|H]; [|lia].
  destruct (kc_shared _ _ _ _ Hcore n Hpos H). congruence.
Qed.

Lemma other_table_counts id m0 id0 j j0 n :
  (0 < n)%nat -> blocks_of m id !! j = Some (Blk n) -> blocks_of m0 id0 !! j0 = Some (Blk n) ->
  m0 ∈ ms1 ++ ms2 \/ (m0 = m /\ id0 <> id) -> (2 <= count (held_all (ms1 ++ m :: ms2) ++ extra) n)%nat.
Proof.
  intros Hpos Hj Hj0 Ho. rewrite held_at. destruct Ho as [Hm0|[-> Hne]].
  - apply count_two; [by eapply in_table_held|]. rewrite app_assoc. apply elem_of_app. left.
    apply in_table_held in Hj0; [|done]. apply elem_of_app in Hm0 as [Hm0|Hm0]; apply elem_of_app; [left|right]; by eapply held_of_all.
  - rewrite (held_split m id), <-app_assoc. apply count_two.
    + unfold held_blocks. apply elem_of_real. split; [|lia]. unfold ids_of. apply list_elem_of_In, in_flat_map.
      exists (Blk n). split; [|by left]. apply list_elem_of_In. by eapply list_elem_of_lookup_2.
    + apply elem_of_app. left. unfold held_rest. eapply (in_table_held _ id0); [|done].
      unfold blocks_of in *. cbn. by rewrite lookup_delete_ne.
Qed.

(** Replacing the hashes of exclusively held blocks keeps the other tables. *)
Lemma table_other p' id nc nf m0 id0 nc0 :
  num_cached_block m !! id = Some nc ->
  (forall r, r ∉ take (nf - Z.to_nat nc) (drop (Z.to_nat nc) (blocks_of m id)) -> block_hash p' r = block_hash p r) ->
  m0 ∈ ms1 ++ ms2 \/ (m0 = m /\ id0 <> id) -> num_cached_block m0 !! id0 = Some nc0 ->
  table_ok (block_hash p') (blocks_of m0 id0) nc0.
Proof.
  intros Hnc Hh Ho Hnc0. assert (Hin : m0 ∈ ms1 ++ m :: ms2) by (apply in_middle; destruct Ho as [?|[-> _]]; auto).
  pose proof (kc_tables _ _ _ _ Hcore Hca m0 id0 nc0 Hin Hnc0) as Ht.
  assert (Hnew : forall n j0, (0 < n)%nat -> blocks_of m0 id0 !! j0 = Some (Blk n) -> block_hash p' (Blk n) = block_hash p (Blk n)).
  { intros n j0 Hpos Hj0. apply Hh. intros Hin'. apply list_elem_of_lookup_1 in Hin' as [i Hi].
    apply lookup_take_Some in Hi as [Hi _]. rewrite lookup_drop in Hi.
    assert (Hm : m ∈ ms1 ++ m :: ms2) by (apply in_middle; by left).
    pose proof (to_range _ _ _ (kc_tables _ _ _ _ Hcore Hca m id nc Hm Hnc)).
    destruct (uncached_exclusive id nc (Z.to_nat nc + i) n Hnc ltac:(lia) Hi) as (_ & _ & Hc).
    pose proof (other_table_counts id m0 id0 _ _ n Hpos Hi Hj0 Ho). lia. }
  destruct Ht as [T1 T2 T3]. split; [done| |].
  - intros j n Hj Hn. destruct (T2 j n Hj Hn). by rewrite (Hnew n j).
  - intros Hpos. destruct (T3 Hpos) as (n & Hn & [k Hk]). exists n. split; [done|]. rewrite (Hnew n _) by (try done;
      destruct (ci_real _ _ _ (pi_cache _ _ _ (kc_pool _ _ _ _ Hcore)) _ _ Hk) as (? & [= <-] & ?); lia). by exists k.
Qed.

Lemma core_cache r nc hashes num_tokens :
  num_cached_block m !! request_id r = Some nc -> mm_hashed r ->
  nc <= num_tokens / block_size m <= Z.of_nat (length (blocks_of m (request_id r))) -> nc <= Z.of_nat (length hashes) ->
  num_tokens <= Request.num_tokens r -> (enable_kv_cache_events p = true -> lora_request r = None) ->
  exists p' m' app, SingleType.cache_blocks hash_fn NONE_HASH p m r hashes num_tokens = Ok (p', m', hashes ++ app) /\
    kv_core p' (ms1 ++ m' :: ms2) fr extra /\ same_core p p' /\
    (forall id, blocks_of m' id = blocks_of m id) /\
    num_cached_block m' = <[request_id r := num_tokens / block_size m]> (num_cached_block m) /\
    kv_cache_spec m' = kv_cache_spec m /\ kv_cache_group_id m' = kv_cache_group_id m /\
    (forall j b, nc <= Z.of_nat j < num_tokens / block_size m -> blocks_of m (request_id r) !! j = Some b ->
       hit_at p' (kv_cache_group_id m) (hashes ++ app) j b).
Proof.
  set (id := request_id r). set (nf := num_tokens / block_size m). intros Hnc Hmm Hrange Hh Htok Hlora.
  destruct (focus_mgr _ _ _ _ _ _ Hcore) as [Hm [Hbs Hspec]]. fold (block_size m) in Hbs.
  assert (Hin : m ∈ ms1 ++ m :: ms2) by (apply in_middle; by left).
  destruct (kc_tables _ _ _ _ Hcore Hca m id nc Hin Hnc) as [T1 T2 T3].
  destruct (blocks_of_good _ _ id Hm) as (l & Hl & Hlb & Hnd).
  assert (Hlen : length (blocks_of m id) = length l) by (by rewrite Hl, length_map).
  assert (Hlk : forall j n, l !! j = Some n -> blocks_of m id !! j = Some (Blk n)) by (intros j n Hj; by rewrite Hl, list_lookup_fmap, Hj).
  set (a := Z.to_nat nc). set (b := Z.to_nat nf). pose proof (take_drop3 l a b ltac:(lia)) as Hsplit.
  set (slice := take (b - a) (drop a l)) in *.
  assert (Hslice : forall n, n ∈ slice -> exists j, (a <= j < b)%nat /\ l !! j = Some n).
  { intros n [i Hi]%list_elem_of_lookup_1. apply lookup_take_Some in Hi as [Hi Hlt]. rewrite lookup_drop in Hi.
    exists (a + i)%nat. split; [lia|done]. }
  assert (Hnew : forall n, n ∈ slice -> (0 < n)%nat /\ block_hash p (Blk n) = None).
  { intros n Hn. destruct (Hslice n Hn) as (j & Hj & Hjn). apply (T2 j); [lia|by apply Hlk]. }
  assert (Hreal : real slice = slice) by (apply real_id; intros n Hn; by apply Hnew).
  assert (Hnds : NoDup slice /\ forall n, n ∈ slice -> n ∉ real (drop b l)).
  { rewrite Hsplit, !real_app, Hreal in Hnd. apply NoDup_app in Hnd as (_ & _ & Hnd). apply NoDup_app in Hnd as (? & ? & _). done. }
  destruct Hnds as [Hnds Hdisj].
  destruct (cache_full_blocks_aux hash_fn NONE_HASH p fr _ r l hashes a b (block_size m) (kv_cache_group_id m) (kc_pool _ _ _ _ Hcore))
    as (p' & app & Hok & Hs & Hp & Hnewh & Hother); try done; [lia|lia|lia| | | |].
  { unfold Request.num_tokens in Htok. pose proof (Z.mul_div_le num_tokens (block_size m) Hbs). fold nf in H. nia. }
  { intros n Hn. destruct (Hnew n Hn). split; [|done]. destruct (Hslice n Hn) as (j & _ & Hj). split; [lia|].
    apply Hlb. by eapply list_elem_of_lookup_2. }
  { intros n Hpos Hn. destruct (T3 ltac:(lia)) as (n' & Hn' & Hk). rewrite (Hlk _ n) in Hn'; [by injection Hn' as ->|].
    by replace (Z.to_nat (nc - 1)) with (a - 1)%nat by lia. }
  exists p', (with_num_cached (ensure m id) (<[id := nf]> (num_cached_block m))), app. split.
  { unfold SingleType.cache_blocks. fold id. rewrite Hnc. cbn [of_option bind]. unfold py_div.
    destruct (Z.eqb_spec (block_size m) 0); [lia|]. cbn [bind]. fold nf. rewrite blocks_of_ensure, Hl.
    change (block_size (ensure m id)) with (block_size m). replace nc with (Z.of_nat a) by lia. replace nf with (Z.of_nat b) by lia.
    change (kv_cache_group_id (ensure m id)) with (kv_cache_group_id m). rewrite Hok. done. }
  assert (Hbl : forall id', blocks_of (with_num_cached (ensure m id) (<[id := nf]> (num_cached_block m))) id' = blocks_of m id')
    by (intros id'; apply (blocks_of_ensure m id id')).
  assert (Hheld : held_of (with_num_cached (ensure m id) (<[id := nf]> (num_cached_block m))) ≡ₚ held_of m)
    by (apply (held_ensure m id)).
  assert (Hother' : forall c, c ∉ take (b - Z.to_nat nc) (drop (Z.to_nat nc) (blocks_of m id)) -> block_hash p' c = block_hash p c).
  { intros c Hc. apply Hother. by rewrite Hl, <-fmap_drop, <-fmap_take in Hc. }
  pose proof Hs as [E1 E2 E3 E4 E5 E6 E7].
  split; [|split; [done|]; split; [done|]; split; [done|]; split; [done|]; split; [done|]].
  2:{ intros j c Hj Hc. rewrite Hl, list_lookup_fmap in Hc. apply fmap_Some in Hc as (n & Hn & ->).
      destruct (Hnewh j n ltac:(lia) Hn) as (h & Hh1 & Hh2). by exists h. }
  split.
  - eapply pool_inv_perm; [exact Hp|]. by rewrite !held_at, Hheld.
  - rewrite E1. intros m0 [->|Hm0]%in_middle; [|apply Hcore, in_middle; by right]. split; [|done].
    intros id' bl. apply (mgr_ok_ensure _ m id Hm id').
  - intros n Hn Hc. rewrite held_at, Hheld, <-held_at in Hc. destruct (kc_shared _ _ _ _ Hcore n Hn Hc) as [k Hk].
    rewrite Hother; [by exists k|]. intros (n' & [= <-] & Hin')%list_elem_of_fmap. destruct (Hnew n Hin'). congruence.
  - rewrite E2. congruence.
  - intros _ m0 id0 nc0 [->|Hm0]%in_middle Hnc0; [|eapply table_other; [exact Hnc|exact Hother'|by left|done]].
    rewrite Hbl. cbn in Hnc0. destruct (decide (id0 = id)) as [->|Hne].
    2:{ rewrite lookup_insert_ne in Hnc0 by done. eapply table_other; [exact Hnc|exact Hother'|by right|done]. }
    rewrite lookup_insert_eq in Hnc0. injection Hnc0 as <-. split; [lia| |].
    + intros j n Hj Hn. destruct (T2 j n ltac:(lia) Hn) as [Hpos Hnone]. split; [done|]. rewrite Hother; [done|].
      intros (n' & [= <-] & Hin')%list_elem_of_fmap. apply (Hdisj n Hin'), elem_of_real. split; [|lia].
      rewrite Hl, list_lookup_fmap in Hn. apply fmap_Some in Hn as (n' & Hn & [= <-]).
      apply (list_elem_of_lookup_2 _ (j - b)). rewrite lookup_drop. by replace (b + (j - b))%nat with j by lia.
    + intros Hpos. destruct (decide (nf = nc)) as [E|Hne].
      * rewrite E in *. destruct (T3 Hpos) as (n & Hn & Hk). exists n. split; [done|]. rewrite Hother; [done|].
        unfold slice, a, b. rewrite E, Nat.sub_diag. cbn. apply not_elem_of_nil.
      * destruct (lookup_lt_is_Some_2 l (b - 1)) as [n Hn]; [lia|]. exists n.
        replace (Z.to_nat (nf - 1)) with (b - 1)%nat by lia. split; [by apply Hlk|].
        destruct (Hnewh (b - 1)%nat n ltac:(lia) Hn) as (h & _ & ->). by eexists.
Qed.
End cache.
