(* ===== verification/CoordinatorOk.v ===== *)
(** * The coordinator's operations are correct

    Each loop over the managers succeeds from a consistent state and keeps
    [kv_core]; what it does to each block table is stated group by group. *)

From stdpp Require Import base functions gmap strings list.
From Stdlib Require Import ZArith Lia.
From S2P Require Import Prelude FreeQueue Request BlockHash BlockPool KVCacheInterface SingleType PrefixLookup KVCoordinator CoordinatorInv.
Open Scope list_scope.
Open Scope Z_scope.

(** ** The loop over the managers *)

(** Manager [j] of [ms] became manager [j] of [ms'] with result [j] of [as_]. *)
Definition related {A} (R : nat -> Manager -> A -> Manager -> Prop) (i : nat) (ms : list Manager) (as_ : list A)
    (ms' : list Manager) : Prop :=
  length as_ = length ms /\ length ms' = length ms /\
  forall j m, ms !! j = Some m -> exists a m', as_ !! j = Some a /\ ms' !! j = Some m' /\ R (i + j)%nat m a m'.

Lemma each_ok {S A} (f : nat -> S -> Manager -> res (A * S * Manager)) (I : list Manager -> S -> list Manager -> Prop) R :
  (forall pre s m todo, I pre s (m :: todo) -> exists a s' m',
     f (length pre) s m = Ok (a, s', m') /\ I (pre ++ [m']) s' todo /\ R (length pre) m a m') ->
  forall ms pre s, I pre s ms -> exists as_ s' ms',
    each f (length pre) s ms = Ok (as_, s', ms') /\ I (pre ++ ms') s' [] /\ related R (length pre) ms as_ ms'.
Proof.
  intros Hstep ms. induction ms as [|m ms IH]; intros pre s HI; cbn [each].
  - exists [], s, []. rewrite app_nil_r. split; [done|]. split; [done|]. split; [done|]. split; [done|]. intros j m Hj. by rewrite lookup_nil in Hj.
  - destruct (Hstep pre s m ms HI) as (a & s1 & m1 & -> & HI1 & HR). cbn [bind].
    destruct (IH (pre ++ [m1]) s1 HI1) as (as_ & s2 & ms' & Hok & HI2 & H1 & H2 & H3).
    rewrite length_app in Hok, H3. cbn [length] in Hok, H3. rewrite Nat.add_1_r in Hok, H3. rewrite Hok. cbn [bind].
    rewrite <-app_assoc in HI2. exists (a :: as_), s2, (m1 :: ms'). split; [done|]. split; [done|].
    split; [cbn; lia|]. split; [cbn; lia|]. intros [|j] m0 Hj.
    + injection Hj as <-. exists a, m1. by rewrite Nat.add_0_r.
    + destruct (H3 j m0 Hj) as (a0 & m0' & ? & ? & HR0). exists a0, m0'.
      replace (length pre + Datatypes.S j)%nat with (Datatypes.S (length pre) + j)%nat by lia. done.
Qed.

(** The same manager up to its block tables. *)
Definition same_group (m m' : Manager) : Prop :=
  kv_cache_spec m' = kv_cache_spec m /\ kv_cache_group_id m' = kv_cache_group_id m.
Definition others_kept (id : string) (m m' : Manager) : Prop :=
  forall id', id' <> id -> blocks_of m' id' = blocks_of m id' /\ num_cached_block m' !! id' = num_cached_block m !! id'.


(** Skipping keeps the useful blocks of the request. *)
Definition skipped (id : string) (n : Z) (_ : nat) (m : Manager) (_ : unit) (m' : Manager) : Prop :=
  same_group m m' /\ others_kept id m m' /\ num_cached_block m' = num_cached_block m /\
  length (blocks_of m' id) = length (blocks_of m id) /\
  (forall k j, first_useful_block m id n = Ok (Some k) -> k <= Z.of_nat j -> blocks_of m' id !! j = blocks_of m id !! j) /\
  (first_useful_block m id n = Ok None -> blocks_of m' id = blocks_of m id).

Definition freed (id : string) (_ : nat) (m : Manager) (_ : unit) (m' : Manager) : Prop :=
  same_group m m' /\ others_kept id m m' /\ blocks_of m' id = [] /\ num_cached_block m' !! id = None.

(** The blocks that a manager needs for the request, before it has any. *)
Definition counted (p : BlockPool) (id : string) (num_tokens : Z) (comp : list (list Ref)) (i : nat) (m : Manager)
    (n : Z) (m' : Manager) : Prop :=
  m' = ensure m id /\ exists bl, comp !! i = Some bl /\
  n = missing_blocks m id num_tokens - Z.of_nat (length bl)
      + Z.of_nat (length (List.filter (fun b => (ref_cnt p b =? 0) && negb (is_null p b)) bl)).

(** A new request takes over the blocks of the prefix; a running one has none. *)
Definition saved (id : string) (comp : list (list Ref)) (i : nat) (m : Manager) (_ : unit) (m' : Manager) : Prop :=
  same_group m m' /\ others_kept id m m' /\ exists bl, comp !! i = Some bl /\
  match num_cached_block m !! id with
  | Some nc => bl = [] /\ m' = m
  | None => blocks_of m' id = bl /\ num_cached_block m' !! id = Some (Z.of_nat (length bl))
  end.

Definition allocated (id : string) (num_tokens : Z) (_ : nat) (m : Manager) (new : list Ref) (m' : Manager) : Prop :=
  same_group m m' /\ others_kept id m m' /\ num_cached_block m' = num_cached_block m /\
  blocks_of m' id = blocks_of m id ++ new /\ Z.of_nat (length new) = Z.max 0 (missing_blocks m id num_tokens).

Section ops.
Context (p0 : BlockPool) (ms0 : list Manager) (fr0 : list nat) (Hcore : kv_core p0 ms0 fr0 []) (id : string).

Lemma skip_all n :
  (forall m, m ∈ ms0 -> skip_ok (enable_caching p0) m id n) ->
  exists us p ms fr, each (fun (_ : nat) p m =>
      let! '(p, m) := SingleType.remove_skipped_blocks p m id n in Ok (tt, p, m)) 0 p0 ms0 = Ok (us, p, ms) /\
    kv_core p ms (fr0 ++ fr) [] /\ same_cache p0 p /\ related (skipped id n) 0 ms0 us ms.
Proof.
  intros Hskip.
  destruct (each_ok (fun (_ : nat) p m => let! '(p, m) := SingleType.remove_skipped_blocks p m id n in Ok (tt, p, m))
    (fun pre p todo => same_cache p0 p /\ (forall m, m ∈ todo -> skip_ok (enable_caching p0) m id n) /\
       exists fr, kv_core p (pre ++ todo) (fr0 ++ fr) []) (skipped id n))
    with (ms := ms0) (pre := @nil Manager) (s := p0) as (us & p & ms & Hok & (Hs & _ & fr & Hc) & Hrel).
  - intros pre p m todo (Hs & Hsk & fr & Hc).
    destruct (core_skip p pre todo m (fr0 ++ fr) [] Hc id n) as (p' & m' & fr' & Hok & Hc' & Hs' & Hnc & Hsp & Hg & Hl & Ho & Hk & Hn).
    { rewrite (sca_caching _ _ Hs). apply Hsk. left. }
    exists tt, p', m'. rewrite Hok. split; [done|]. split.
    + split; [by eapply same_cache_trans|]. split; [intros m0 ?; apply Hsk; by right|]. exists (fr ++ fr').
      by rewrite (app_assoc fr0), <-(app_assoc pre).
    + split; [done|]. split; [|done]. intros id' Hne. by rewrite Hnc, Ho.
  - split; [apply same_cache_refl|]. split; [done|]. exists []. by rewrite app_nil_r.
  - rewrite app_nil_r in Hc. exists us, p, ms, fr. done.
Qed.

Lemma free_all :
  exists us p ms fr, each (fun (_ : nat) p m => let! '(p, m) := SingleType.free p m id in Ok (tt, p, m)) 0 p0 ms0
      = Ok (us, p, ms) /\
    kv_core p ms (fr0 ++ fr) [] /\ same_cache p0 p /\ related (freed id) 0 ms0 us ms.
Proof.
  destruct (each_ok (fun (_ : nat) p m => let! '(p, m) := SingleType.free p m id in Ok (tt, p, m))
    (fun pre p todo => same_cache p0 p /\ exists fr, kv_core p (pre ++ todo) (fr0 ++ fr) []) (freed id))
    with (ms := ms0) (pre := @nil Manager) (s := p0) as (us & p & ms & Hok & (Hs & fr & Hc) & Hrel).
  - intros pre p m todo (Hs & fr & Hc).
    destruct (core_free p pre todo m (fr0 ++ fr) [] Hc id) as (p' & m' & fr' & Hok & Hc' & Hs' & Hb & Hnc & Hsp & Hg & Ho).
    exists tt, p', m'. rewrite Hok. split; [done|]. split.
    + split; [by eapply same_cache_trans|]. exists (fr ++ fr'). by rewrite (app_assoc fr0), <-(app_assoc pre).
    + split; [done|]. split; [|split; [done|by rewrite Hnc, lookup_delete_eq]].
      intros id' Hne. by rewrite Hnc, Ho, lookup_delete_ne.
  - split; [apply same_cache_refl|]. exists []. by rewrite app_nil_r.
  - rewrite app_nil_r in Hc. exists us, p, ms, fr. done.
Qed.

Lemma count_all num_tokens comp :
  length comp = length ms0 ->
  exists counts ms, each (fun i p m =>
      let! blocks := of_option IndexError (comp !! i) in
      let! '(n, m) := SingleType.get_num_blocks_to_allocate p m id num_tokens blocks in
      Ok (n, p, m)) 0 p0 ms0 = Ok (counts, p0, ms) /\
    kv_core p0 ms fr0 [] /\ related (counted p0 id num_tokens comp) 0 ms0 counts ms.
Proof.
  intros Hlen. pose (f := fun (i : nat) (p : BlockPool) (m : Manager) =>
      let! blocks := of_option IndexError (comp !! i) in
      let! '(n, m) := SingleType.get_num_blocks_to_allocate p m id num_tokens blocks in Ok (n, p, m)).
  destruct (each_ok f (fun pre p todo => p = p0 /\ (length pre + length todo)%nat = length ms0 /\ kv_core p0 (pre ++ todo) fr0 [])
    (counted p0 id num_tokens comp)) with (ms := ms0) (pre := @nil Manager) (s := p0) as (us & p & ms & Hok & (-> & _ & Hc) & Hrel).
  - intros pre p m todo (-> & Hl & Hc). cbn [length] in Hl.
    destruct (lookup_lt_is_Some_2 comp (length pre)) as [bl Hbl]; [lia|].
    eexists _, p0, (ensure m id). split.
    { unfold f. rewrite Hbl. cbn [of_option bind]. unfold SingleType.get_num_blocks_to_allocate.
      rewrite py_cdiv_ok by (by eapply focus_size). cbn [bind]. rewrite blocks_of_ensure. reflexivity. }
    split.
    + rewrite length_app, <-app_assoc. cbn. split; [done|]. split; [lia|]. by apply core_ensure.
    + split; [done|]. exists bl. split; [done|]. unfold missing_blocks. lia.
  - done.
  - rewrite app_nil_r in Hc. exists us, ms. done.
Qed.

(** ** Allocation *)

Definition mamba_ok (m : Manager) (num_tokens : Z) : Prop :=
  match kv_cache_spec m with
  | MambaSpec _ _ _ _ _ => Z.max (cdiv num_tokens (block_size m)) (Z.of_nat (length (blocks_of m id))) = 1
  | _ => True
  end.

Lemma allocate_all num_tokens :
  zsum (map (fun m => Z.max 0 (missing_blocks m id num_tokens)) ms0) <= Z.of_nat (length fr0) ->
  (forall m, m ∈ ms0 -> mamba_ok m num_tokens) ->
  exists new p ms fr, each (fun _ p m => SingleType.allocate_new_blocks p m id num_tokens) 0 p0 ms0 = Ok (new, p, ms) /\
    kv_core p ms fr [] /\ enable_caching p = enable_caching p0 /\ num_gpu_blocks p = num_gpu_blocks p0 /\
    enable_kv_cache_events p = enable_kv_cache_events p0 /\
    related (allocated id num_tokens) 0 ms0 new ms.
Proof.
  intros Hsum Hmamba. pose (f := fun (_ : nat) p m => SingleType.allocate_new_blocks p m id num_tokens).
  destruct (each_ok f (fun pre p todo => enable_caching p = enable_caching p0 /\ num_gpu_blocks p = num_gpu_blocks p0 /\
      enable_kv_cache_events p = enable_kv_cache_events p0 /\
      (forall m, m ∈ todo -> mamba_ok m num_tokens) /\ exists fr, kv_core p (pre ++ todo) fr [] /\
      zsum (map (fun m => Z.max 0 (missing_blocks m id num_tokens)) todo) <= Z.of_nat (length fr))
    (allocated id num_tokens)) with (ms := ms0) (pre := @nil Manager) (s := p0)
    as (us & p & ms & Hok & (Hca & Hnum & Hev & _ & fr & Hc & _) & Hrel).
  - intros pre p m todo (Hca & Hnum & Hev & Hma & fr & Hc & Hz). cbn [map zsum] in Hz.
    assert (Hz0 : 0 <= zsum (map (fun m => Z.max 0 (missing_blocks m id num_tokens)) todo)).
    { apply zsum_nonneg, Forall_forall. intros x (? & -> & _)%list_elem_of_fmap. lia. }
    destruct (core_allocate p pre todo m fr [] Hc id num_tokens) as
      (new & p' & m' & fr' & Hok & Hc' & Ho & Hn' & Hb & Hl & Hother & Hnc & Hsp & Hg); [lia|by apply Hma; left|].
    exists new, p', m'. split; [exact Hok|]. split.
    + rewrite (ho_caching _ _ _ _ _ Ho), (ho_events _ _ _ _ _ Ho), Hn'. split; [done|]. split; [done|]. split; [done|].
      split; [intros m0 ?; apply Hma; by right|]. exists fr'. rewrite <-app_assoc. split; [done|].
      rewrite (ho_free _ _ _ _ _ Ho), length_drop. lia.
    + split; [done|]. split; [|done]. intros id' Hne. by rewrite Hnc, Hother.
  - split; [done|]. split; [done|]. split; [done|]. split; [done|]. exists fr0. done.
  - rewrite app_nil_r in Hc. exists us, p, ms, fr. done.
Qed.
End ops.

(** ** New requests *)

Section save.
Context (p0 : BlockPool) (ms0 : list Manager) (fr0 : list nat) (id : string) (bss : list (list nat)).
Context (Hcore : kv_core p0 ms0 fr0 (real (concat bss))).

(** What the prefix of group [i] must be: nothing for a running request, a
    cached prefix for a new one. *)
Definition save_pre (i : nat) (m : Manager) : Prop :=
  exists l, bss !! i = Some l /\
  match num_cached_block m !! id with
  | Some _ => l = []
  | None => blocks_of m id = [] /\ good_blocks (num_gpu_blocks p0) (map Blk l) /\
            (enable_caching p0 = true -> table_ok (block_hash p0) (map Blk l) (Z.of_nat (length l)))
  end.

Lemma save_all :
  length bss = length ms0 -> (forall i m, ms0 !! i = Some m -> save_pre i m) ->
  exists us ms, each (fun i p m =>
      let! blocks := of_option IndexError (map (map Blk) bss !! i) in
      let! m := SingleType.save_new_computed_blocks m id blocks in Ok (tt, p, m)) 0 p0 ms0 = Ok (us, p0, ms) /\
    kv_core p0 ms fr0 [] /\ related (saved id (map (map Blk) bss)) 0 ms0 us ms.
Proof.
  intros Hlen Hpre. pose (f := fun (i : nat) (p : BlockPool) m =>
      let! blocks := of_option IndexError (map (map Blk) bss !! i) in
      let! m := SingleType.save_new_computed_blocks m id blocks in Ok (tt, p, m)).
  destruct (each_ok f (fun pre p todo => p = p0 /\ (length pre + length todo)%nat = length ms0 /\
      kv_core p0 (pre ++ todo) fr0 (real (concat (drop (length pre) bss))) /\
      forall j m, todo !! j = Some m -> save_pre (length pre + j) m)
    (saved id (map (map Blk) bss))) with (ms := ms0) (pre := @nil Manager) (s := p0)
    as (us & p & ms & Hok & (-> & Hl & Hc & _) & Hrel).
  - intros pre p m todo (-> & Hl & Hc & Hp). cbn [length] in Hl.
    destruct (Hp 0%nat m eq_refl) as (l & Hbl & Hm). rewrite Nat.add_0_r in Hbl.
    rewrite (drop_S _ _ _ Hbl) in Hc. cbn [concat] in Hc. rewrite real_app in Hc.
    assert (Hfl : (map (map Blk) bss) !! length pre = Some (map Blk l)) by (by rewrite list_lookup_fmap, Hbl).
    assert (Hrest : forall m', (length (pre ++ [m']) + length todo)%nat = length ms0 /\
       forall j m, todo !! j = Some m -> save_pre (length (pre ++ [m']) + j) m).
    { intros m'. rewrite length_app. cbn. split; [lia|]. intros j m0 Hj.
      replace (length pre + 1 + j)%nat with (length pre + S j)%nat by lia. by apply Hp. }
    unfold f. rewrite Hfl. cbn [of_option bind]. destruct (num_cached_block m !! id) as [nc|] eqn:Enc.
    + subst l. exists tt, p0, m. unfold SingleType.save_new_computed_blocks. rewrite Enc. split; [done|]. split.
      * split; [done|]. split; [apply Hrest|]. split; [|apply Hrest].
        rewrite length_app, Nat.add_1_r, <-app_assoc. exact Hc.
      * split; [done|]. split; [done|]. exists []. rewrite Enc. done.
    + destruct Hm as (Hb & Hg & Ht).
      destruct (core_save p0 pre todo m fr0 _ Hc id l Hg Enc Hb Ht (real (concat (drop (S (length pre)) bss))))
        as (m' & Hok & Hc' & Hb' & Hnc' & Hs & Hgid & Ho); [done|].
      exists tt, p0, m'. rewrite Hok. split; [done|]. split.
      * split; [done|]. split; [apply Hrest|]. split; [|apply Hrest].
        rewrite length_app, Nat.add_1_r, <-app_assoc. exact Hc'.
      * split; [done|]. split; [intros id' Hne; split; [by apply Ho|by rewrite Hnc', lookup_insert_ne]|].
        exists (map Blk l). rewrite Enc, Hnc', lookup_insert_eq, length_map. done.
  - split; [done|]. split; [done|]. split; [exact Hcore|exact Hpre].
  - rewrite app_nil_r in Hc. cbn [app length] in Hl, Hc. rewrite (drop_ge bss) in Hc by lia. exists us, ms. done.
Qed.
End save.

(** ** Caching *)

Section cache.
Context (hash_fn : Z * list Z * option (list ExtraKey) -> Z) (NONE_HASH : Z).
Context (p0 : BlockPool) (ms0 : list Manager) (fr0 : list nat) (Hcore : kv_core p0 ms0 fr0 []).
Context (Hca : enable_caching p0 = true) (r : Request) (hashes0 : list BlockHash) (num_tokens : Z).

Definition cache_pre (m : Manager) : Prop :=
  exists nc, num_cached_block m !! request_id r = Some nc /\
    nc <= num_tokens / block_size m <= Z.of_nat (length (blocks_of m (request_id r))) /\ nc <= Z.of_nat (length hashes0).
(** The recorded number of cached blocks becomes the number of full blocks. *)
Definition committed (_ : nat) (m : Manager) (_ : unit) (m' : Manager) : Prop :=
  same_group m m' /\ others_kept (request_id r) m m' /\ blocks_of m' (request_id r) = blocks_of m (request_id r) /\
  num_cached_block m' !! request_id r = Some (num_tokens / block_size m).

Lemma cache_all :
  mm_hashed r -> num_tokens <= Request.num_tokens r -> (enable_kv_cache_events p0 = true -> lora_request r = None) ->
  (forall m, m ∈ ms0 -> cache_pre m) ->
  exists us p hashes ms, each (fun _ s m =>
      let! '(p, m, hashes) := SingleType.cache_blocks hash_fn NONE_HASH (fst s) m r (snd s) num_tokens in
      Ok (tt, (p, hashes), m)) 0 (p0, hashes0) ms0 = Ok (us, (p, hashes), ms) /\
    kv_core p ms fr0 [] /\ enable_caching p = true /\ num_gpu_blocks p = num_gpu_blocks p0 /\
    enable_kv_cache_events p = enable_kv_cache_events p0 /\ (exists app, hashes = hashes0 ++ app) /\
    (forall x, x ∈ ms -> num_tokens / block_size x <= Z.of_nat (length hashes)) /\ related committed 0 ms0 us ms.
Proof.
  intros Hmm Htok Hlora Hpre. pose (f := fun (_ : nat) (s : BlockPool * list BlockHash) m =>
      let! '(p, m, hashes) := SingleType.cache_blocks hash_fn NONE_HASH (fst s) m r (snd s) num_tokens in
      Ok (tt, (p, hashes), m)).
  destruct (each_ok f (fun pre s todo => kv_core (fst s) (pre ++ todo) fr0 [] /\ enable_caching (fst s) = true /\
      num_gpu_blocks (fst s) = num_gpu_blocks p0 /\
      enable_kv_cache_events (fst s) = enable_kv_cache_events p0 /\ (exists app, snd s = hashes0 ++ app) /\
      (forall x, x ∈ pre -> num_tokens / block_size x <= Z.of_nat (length (snd s))) /\
      forall m, m ∈ todo -> cache_pre m) committed) with (ms := ms0) (pre := @nil Manager) (s := (p0, hashes0))
    as (us & [p hashes] & ms & Hok & (Hc & Hca' & Hnum & Hev & Happ & Hcov & _) & Hrel).
  - intros pre [p hashes] m todo (Hc & Hca' & Hnum & Hev & [app0 Happ] & Hcov & Hp). cbn [fst snd] in *.
    destruct (Hp m ltac:(left)) as (nc & Hnc & Hrange & Hh).
    destruct (core_cache hash_fn NONE_HASH p pre todo m fr0 [] Hc Hca' r nc hashes num_tokens Hnc Hmm Hrange)
      as (p' & m' & app & Hok & Hc' & Hs & Hb & Hnc' & Hsp & Hg & Hhit).
    { rewrite Happ, length_app. lia. } { done. } { by rewrite Hev. }
    exists tt, (p', hashes ++ app), m'. unfold f. cbn [fst snd]. rewrite Hok. split; [done|]. destruct Hs. split.
    + split; [by rewrite <-app_assoc|]. split; [congruence|]. split; [congruence|]. split; [congruence|].
      split; [exists (app0 ++ app); by rewrite Happ, app_assoc|]. split; [|intros m0 ?; apply Hp; by right].
      intros x [Hx|Hx]%elem_of_app; [specialize (Hcov x Hx); rewrite length_app; lia|]. apply list_elem_of_singleton in Hx as ->.
      unfold block_size in *. rewrite Hsp. set (nf := num_tokens / spec_block_size (kv_cache_spec m)) in *.
      destruct (Z.eq_dec nf nc) as [->|Hne]; [rewrite length_app, Happ, length_app; lia|].
      destruct (lookup_lt_is_Some_2 (blocks_of m (request_id r)) (Z.to_nat (nf - 1))) as [b Hb']; [destruct (kc_tables _ _ _ _ Hc Hca' m _ nc ltac:(apply in_middle; by left) Hnc) as [[? _] _ _]; lia|].
      destruct (Hhit (Z.to_nat (nf - 1)) b) as (h & Hh' & _); [destruct (kc_tables _ _ _ _ Hc Hca' m _ nc ltac:(apply in_middle; by left) Hnc) as [[? _] _ _]; lia|done|]. apply lookup_lt_Some in Hh'. lia.
    + split; [done|]. split; [intros id' Hne; split; [apply Hb|by rewrite Hnc', lookup_insert_ne]|].
      split; [apply Hb|]. by rewrite Hnc', lookup_insert_eq.
  - cbn [fst snd app]. split; [exact Hcore|]. split; [done|]. split; [done|]. split; [done|]. split; [exists []; by rewrite app_nil_r|].
    split; [by intros x ?%elem_of_nil|done].
  - rewrite app_nil_r in Hc. exists us, p, hashes, ms. done.
Qed.
End cache.
