(* ===== verification/KVCacheManager.v ===== *)
(** * The KV cache manager ([v1/core/kv_cache_manager.py])

    What the scheduler calls: the prefix lookup of a request, the allocation of
    slots for its next tokens, release and reset. *)

From stdpp Require Import base functions gmap strings list.
From Stdlib Require Import ZArith Lia.
From S2P Require Import Prelude FreeQueue Request BlockHash BlockPool KVCacheInterface SingleType KVCoordinator.
Open Scope list_scope.
Open Scope Z_scope.

(** ** [KVCacheBlocks]: the blocks per group *)

Definition KVCacheBlocks : Type := list (list Ref).
(** [__add__] *)
Definition add_blocks (a b : KVCacheBlocks) : KVCacheBlocks := zip_with app a b.
Definition get_block_ids (b : KVCacheBlocks) : list (list Z) := map (map block_id) b.
Definition get_unhashed_block_ids (p : BlockPool) (b : KVCacheBlocks) : res (list Z) :=
  py_assert (length b =? 1)%nat ;;!
  (let! group := of_option IndexError (b !! 0%nat) in
   Ok (map block_id (List.filter (fun r => match block_hash p r with None => true | Some _ => false end) group))).
Definition new_empty (b : KVCacheBlocks) : KVCacheBlocks := map (fun _ => []) b.

(** [PrefixCacheStats] of [v1/metrics/stats.py]. *)
Record PrefixCacheStats : Set := {
  stats_reset : bool;
  stats_requests : Z;
  stats_queries : Z;
  stats_hits : Z }.
Definition new_stats : PrefixCacheStats :=
  {| stats_reset := false; stats_requests := 0; stats_queries := 0; stats_hits := 0 |}.

(** ** State *)

Record KVCacheManager : Type := {
  manager_max_model_len : Z;
  manager_caching : bool;
  log_stats : bool;
  prefix_cache_stats : option PrefixCacheStats;
  manager_block_size : option Z;
  coordinator : KVCacheCoordinator;
  num_kv_cache_groups : nat;
  req_to_block_hashes : gmap string (list BlockHash) }.

Definition with_coordinator (m : KVCacheManager) (c : KVCacheCoordinator) : KVCacheManager :=
  {| manager_max_model_len := manager_max_model_len m; manager_caching := manager_caching m; log_stats := log_stats m;
     prefix_cache_stats := prefix_cache_stats m; manager_block_size := manager_block_size m; coordinator := c;
     num_kv_cache_groups := num_kv_cache_groups m; req_to_block_hashes := req_to_block_hashes m |}.
Definition with_stats (m : KVCacheManager) (s : option PrefixCacheStats) : KVCacheManager :=
  {| manager_max_model_len := manager_max_model_len m; manager_caching := manager_caching m; log_stats := log_stats m;
     prefix_cache_stats := s; manager_block_size := manager_block_size m; coordinator := coordinator m;
     num_kv_cache_groups := num_kv_cache_groups m; req_to_block_hashes := req_to_block_hashes m |}.
Definition with_hashes (m : KVCacheManager) (h : gmap string (list BlockHash)) : KVCacheManager :=
  {| manager_max_model_len := manager_max_model_len m; manager_caching := manager_caching m; log_stats := log_stats m;
     prefix_cache_stats := prefix_cache_stats m; manager_block_size := manager_block_size m; coordinator := coordinator m;
     num_kv_cache_groups := num_kv_cache_groups m; req_to_block_hashes := h |}.
Definition pool_of (m : KVCacheManager) : BlockPool := block_pool (coordinator m).
Definition with_pool (m : KVCacheManager) (p : BlockPool) : KVCacheManager :=
  with_coordinator m (with_state (coordinator m) p (single_type_managers (coordinator m))).

(** [KVCacheManager.__init__] *)
Definition make_kv_cache_manager (config : KVCacheConfig) (max_model_len : Z) (enable_caching eagle log_stats events : bool) :
    res KVCacheManager :=
  let groups := kv_cache_groups config in
  let enable_caching := match groups with [] => false | _ => enable_caching end in
  let! block_size :=
    (if enable_caching then
       py_assert (length (remove_dups (map (fun g => spec_block_size (group_spec g)) groups)) =? 1)%nat ;;!
       (let! g := of_option IndexError (groups !! 0%nat) in Ok (Some (spec_block_size (group_spec g))))
     else Ok None) in
  let! c := get_kv_cache_coordinator config eagle enable_caching events in
  Ok {| manager_max_model_len := max_model_len; manager_caching := enable_caching; log_stats := log_stats;
        prefix_cache_stats := if log_stats then Some new_stats else None; manager_block_size := block_size;
        coordinator := c; num_kv_cache_groups := length groups; req_to_block_hashes := ∅ |}.

(** [create_empty_block_list] *)
Definition create_empty_block_list (m : KVCacheManager) : KVCacheBlocks := repeat [] (num_kv_cache_groups m).

(** [make_prefix_cache_stats] *)
Definition make_prefix_cache_stats (m : KVCacheManager) : option PrefixCacheStats * KVCacheManager :=
  if negb (log_stats m) then (None, m) else (prefix_cache_stats m, with_stats m (Some new_stats)).

(** [self.req_to_block_hashes[id]] of the defaultdict. *)
Definition hashes_of_request (m : KVCacheManager) (id : string) : list BlockHash := default [] (req_to_block_hashes m !! id).
Definition set_hashes (m : KVCacheManager) (id : string) (h : list BlockHash) : KVCacheManager :=
  with_hashes m (<[id := h]> (req_to_block_hashes m)).

(** ** Operations *)

Section hashing.
Context (hash_fn : Z * list Z * option (list ExtraKey) -> Z) (NONE_HASH : Z).

(** The statistics of [get_computed_blocks]. *)
Definition record_lookup (m : KVCacheManager) (queries hits : Z) : res KVCacheManager :=
  if log_stats m then
    let! s := of_option AssertionError (prefix_cache_stats m) in
    Ok (with_stats m (Some {| stats_reset := stats_reset s; stats_requests := stats_requests s + 1;
                              stats_queries := stats_queries s + queries; stats_hits := stats_hits s + hits |}))
  else Ok m.
Definition get_computed_blocks (m : KVCacheManager) (request : Request) : res (KVCacheBlocks * Z * KVCacheManager) :=
  let wants_logprobs := match sampling_params request with
                        | Some sp => match prompt_logprobs sp with Some _ => true | None => false end
                        | None => false
                        end in
  if negb (manager_caching m) || wants_logprobs then Ok (create_empty_block_list m, 0, m)
  else
    let id := request_id request in
    let m := set_hashes m id (hashes_of_request m id) in
    let! '(block_hashes, m) :=
      match hashes_of_request m id with
      | [] =>
          let! bs := of_option AssertionError (manager_block_size m) in
          let! h := hash_request_tokens hash_fn NONE_HASH bs request in
          Ok (h, set_hashes m id h)
      | h => Ok (h, m)
      end in
    let max_cache_hit_length := num_tokens request - 1 in
    let! '(computed_blocks, num_new_computed_tokens) :=
      find_longest_cache_hit (coordinator m) block_hashes max_cache_hit_length in
    let! m := record_lookup m (num_tokens request) num_new_computed_tokens in
    Ok (computed_blocks, num_new_computed_tokens, m).

(** [cache_blocks]; also the end of [allocate_slots]. *)
Definition commit_blocks (m : KVCacheManager) (request : Request) (num_tokens : Z) : res KVCacheManager :=
  let id := request_id request in
  let! '(c, h) := KVCoordinator.cache_blocks hash_fn NONE_HASH (coordinator m) request (hashes_of_request m id) num_tokens in
  Ok (set_hashes (with_coordinator m c) id h).
Definition cache_blocks (m : KVCacheManager) (request : Request) (num_computed_tokens : Z) : res KVCacheManager :=
  if manager_caching m then commit_blocks m request num_computed_tokens else Ok m.

Definition allocate_slots (m : KVCacheManager) (request : Request) (num_new_tokens num_new_computed_tokens : Z)
    (new_computed_blocks : option KVCacheBlocks) (num_lookahead_tokens : Z) (delay_cache_blocks : bool) :
    res (option KVCacheBlocks * KVCacheManager) :=
  if num_new_tokens =? 0 then Raise ValueError
  else
    let id := request_id request in
    let new_computed_block_list := match new_computed_blocks with
                                   | Some b => b
                                   | None => repeat [] (num_kv_cache_groups m)
                                   end in
    let! c := remove_skipped_blocks (coordinator m) id (num_computed_tokens request) in
    let num_computed_tokens := num_computed_tokens request + num_new_computed_tokens in
    let num_tokens_need_slot :=
      Z.min (num_computed_tokens + num_new_tokens + num_lookahead_tokens) (manager_max_model_len m) in
    let! '(num_blocks_to_allocate, c) := get_num_blocks_to_allocate c id num_tokens_need_slot new_computed_block_list in
    if get_num_free_blocks (block_pool c) <? num_blocks_to_allocate then Ok (None, with_coordinator m c)
    else
      let! c :=
        (if manager_caching m then
           let! p := touch (block_pool c) new_computed_block_list in Ok (with_state c p (single_type_managers c))
         else
           py_assert (forallb (fun l => match l with [] => true | _ => false end) new_computed_block_list) ;;! Ok c) in
      let! c := save_new_computed_blocks c id new_computed_block_list in
      let! '(new_blocks, c) := allocate_new_blocks c id num_tokens_need_slot in
      let m := with_coordinator m c in
      if negb (manager_caching m) || delay_cache_blocks then Ok (Some new_blocks, m)
      else
        let num_tokens_to_cache := Z.min (num_computed_tokens + num_new_tokens) (num_tokens request) in
        let! m := commit_blocks m request num_tokens_to_cache in
        Ok (Some new_blocks, m).
End hashing.

Definition free (m : KVCacheManager) (request : Request) : res KVCacheManager :=
  let! c := KVCoordinator.free (coordinator m) (request_id request) in Ok (with_coordinator m c).

Definition reset_prefix_cache (m : KVCacheManager) : res (bool * KVCacheManager) :=
  let '(ok, p) := BlockPool.reset_prefix_cache (pool_of m) in
  let m := with_pool m p in
  if negb ok then Ok (false, m)
  else if log_stats m then
    let! s := of_option AssertionError (prefix_cache_stats m) in
    Ok (true, with_stats m (Some {| stats_reset := true; stats_requests := stats_requests s;
                                    stats_queries := stats_queries s; stats_hits := stats_hits s |}))
  else Ok (true, m).

Definition get_num_common_prefix_blocks (m : KVCacheManager) (request : Request) (num_running_requests : Z) :
    res (list Z * KVCacheManager) :=
  py_assert (bool_decide (status request = RUNNING)) ;;!
  (let! '(l, c) := KVCoordinator.get_num_common_prefix_blocks (coordinator m) (request_id request) num_running_requests in
   Ok (l, with_coordinator m c)).

Definition free_block_hashes (m : KVCacheManager) (request : Request) : KVCacheManager :=
  with_hashes m (delete (request_id request) (req_to_block_hashes m)).

Definition take_events (m : KVCacheManager) : list KVCacheEvent * KVCacheManager :=
  let '(ev, p) := BlockPool.take_events (pool_of m) in (ev, with_pool m p).

Definition request_block_ids (m : KVCacheManager) (request_id : string) : list (list Z) :=
  get_block_ids (get_blocks (coordinator m) request_id).
