(* ===== verification/KVManagerOk.v ===== *)
(** * The KV cache manager is correct

    [kv_inv] is the invariant of the manager.  [allocate_slots] never raises under
    the conditions the scheduler guarantees, gives every group the blocks its
    tokens need, or reports exactly that the pool is short. *)

From stdpp Require Import base functions gmap strings list.
From Stdlib Require Import ZArith Lia.
From S2P Require Import Prelude FreeQueue Request BlockHash BlockPool KVCacheInterface SingleType PrefixLookup.
From S2P Require Import KVCoordinator CoordinatorInv CoordinatorOk KVCacheManager.
Open Scope list_scope.
Open Scope Z_scope.

Definition managers (m : KVCacheManager) : list Manager := single_type_managers (coordinator m).

(** ** Managers before and after *)

Definition evolves (id : string) : list Manager -> list Manager -> Prop :=
  Forall2 (fun x x' => same_group x x' /\ others_kept id x x').
#[export] Instance evolves_preorder id : PreOrder (evolves id).
Proof.
  split.
  - intros ms. induction ms as [|x ms IH]; constructor; [done|exact IH].
  - intros ms1 ms2 ms3 H12. revert ms3. induction H12 as [|x1 x2 ms1 ms2 [[E1 E2] K12] _ IH]; intros ms3 H23.
    + apply Forall2_nil_inv_l in H23 as ->. constructor.
    + apply Forall2_cons_inv_l in H23 as (x3 & ms3' & [[E3 E4] K23] & H & ->). constructor; [|by apply IH].
      split; [split; congruence|]. intros id' Hne. destruct (K12 id' Hne), (K23 id' Hne). split; congruence.
Qed.

Lemma related_evolves {A} (R : nat -> Manager -> A -> Manager -> Prop) id ms as_ ms' :
  (forall j x a x', R j x a x' -> same_group x x' /\ others_kept id x x') ->
  related R 0 ms as_ ms' -> evolves id ms ms'.
Proof.
  intros HR (Hl1 & Hl2 & H). apply Forall2_same_length_lookup_2; [done|]. intros j x x' Hx Hx'.
  destruct (H j x Hx) as (a & x2 & _ & Hx2 & Hr). rewrite Hx' in Hx2. injection Hx2 as <-. by eapply HR.
Qed.
Lemma related_back {A} (R : nat -> Manager -> A -> Manager -> Prop) ms as_ ms' j x' :
  related R 0 ms as_ ms' -> ms' !! j = Some x' ->
  exists x a, ms !! j = Some x /\ as_ !! j = Some a /\ R j x a x'.
Proof.
  intros (Hl1 & Hl2 & H) Hx'. destruct (lookup_lt_is_Some_2 ms j) as [x Hx]; [rewrite <-Hl2; by eapply lookup_lt_Some|].
  destruct (H j x Hx) as (a & x2 & Ha & Hx2 & Hr). exists x, a. rewrite Hx' in Hx2. injection Hx2 as <-. done.
Qed.

(** ** The invariant *)

(** A request is unknown to all groups, or known to all with enough hashes for
    its cached blocks. *)
Definition unknown (ms : list Manager) (id : string) : Prop :=
  forall x, x ∈ ms -> num_cached_block x !! id = None /\ blocks_of x id = [].
Definition known (m : KVCacheManager) (id : string) : Prop :=
  forall x, x ∈ managers m -> exists nc, num_cached_block x !! id = Some nc /\
    (manager_caching m = true -> nc <= Z.of_nat (length (hashes_of_request m id))).

(** The block tables of all groups cover the same number of tokens. *)
Definition covers (ms : list Manager) (id : string) (t : Z) : Prop :=
  forall x, x ∈ ms -> Z.of_nat (length (blocks_of x id)) = cdiv t (block_size x).

Record kv_inv (m : KVCacheManager) (fr : list nat) : Prop := {
  ki_core : kv_core (pool_of m) (managers m) fr [];
  ki_caching : manager_caching m = enable_caching (pool_of m);
  ki_groups : num_kv_cache_groups m = length (managers m);
  ki_known : forall id, unknown (managers m) id \/ known m id;
  ki_cover : forall id, exists t, 0 <= t /\ covers (managers m) id t }.

(** An operation on one request. *)
Lemma kv_inv_step m fr m' fr' id :
  kv_inv m fr -> kv_core (pool_of m') (managers m') fr' [] -> manager_caching m' = manager_caching m ->
  enable_caching (pool_of m') = enable_caching (pool_of m) -> num_kv_cache_groups m' = num_kv_cache_groups m ->
  (forall id', id' <> id -> hashes_of_request m' id' = hashes_of_request m id') ->
  evolves id (managers m) (managers m') ->
  unknown (managers m') id \/ known m' id -> (exists t, 0 <= t /\ covers (managers m') id t) ->
  kv_inv m' fr'.
Proof.
  intros [K1 K2 K3 K4 K5] Hc Hca Hca' Hg Hh He Hk Ht.
  assert (Hback : forall x', x' ∈ managers m' -> exists x, x ∈ managers m /\ same_group x x' /\ others_kept id x x').
  { intros x' Hx'. apply list_elem_of_lookup_1 in Hx' as [j Hj]. destruct (Forall2_lookup_r _ _ _ _ _ He Hj) as (x & Hx & ?).
    exists x. split; [by eapply list_elem_of_lookup_2|done]. }
  split; [done|congruence| | |].
  - rewrite Hg, K3. by eapply Forall2_length.
  - intros id'. destruct (decide (id' = id)) as [->|Hne]; [done|]. destruct (K4 id') as [H|H]; [left|right].
    + intros x' Hx'. destruct (Hback x' Hx') as (x & Hx & _ & Ho). destruct (Ho id' Hne) as [-> ->]. by apply H.
    + intros x' Hx'. destruct (Hback x' Hx') as (x & Hx & _ & Ho). destruct (Ho id' Hne) as [_ ->].
      rewrite Hca, Hh by done. by apply H.
  - intros id'. destruct (decide (id' = id)) as [->|Hne]; [done|]. destruct (K5 id') as (t & Ht0 & Hcov).
    exists t. split; [done|]. intros x' Hx'. destruct (Hback x' Hx') as (x & Hx & [Hs _] & Ho).
    destruct (Ho id' Hne) as [-> _]. unfold block_size. rewrite Hs. by apply Hcov.
Qed.

(** ** Counting the free blocks *)

(** Touching takes exactly the touched free blocks out of the queue. *)
Lemma touched_free p fr held p' fr' l :
  pool_inv p fr held -> num_gpu_blocks p' = num_gpu_blocks p -> pool_inv p' fr' (l ++ held) -> NoDup l ->
  (length fr' + length (List.filter (fun n => bool_decide (n ∈ fr)) l) = length fr)%nat.
Proof.
  intros Hp Hnum Hp' Hnd. rewrite <-length_app. apply Permutation_length. symmetry.
  apply NoDup_Permutation.
  - apply Hp.
  - apply NoDup_app. split; [apply Hp'|]. split; [|by apply NoDup_ListNoDup, List.NoDup_filter, NoDup_ListNoDup].
    intros n Hn Hn'. apply (pi_free _ _ _ Hp') in Hn as [_ Hn]. apply Hn, elem_of_app. left.
    apply list_elem_of_In, filter_In in Hn' as [Hn' _]. by apply list_elem_of_In.
  - intros n. rewrite elem_of_app, (pi_free _ _ _ Hp'), (list_elem_of_In (List.filter _ _)), filter_In, bool_decide_eq_true, <-list_elem_of_In.
    rewrite not_elem_of_app, Hnum. pose proof (pi_free _ _ _ Hp n). destruct (decide (n ∈ l)); tauto.
Qed.

(** The blocks that [get_num_blocks_to_allocate] counts as evictable. *)
Lemma evictable_free p fr held l :
  pool_inv p fr held -> (forall n, n ∈ l -> Z.of_nat n < num_gpu_blocks p) ->
  length (List.filter (fun b => (ref_cnt p b =? 0) && negb (is_null p b)) (map Blk l))
    = length (List.filter (fun n => bool_decide (n ∈ fr)) (real l)).
Proof.
  intros Hp Hl. unfold real. induction l as [|n l IH]; [done|]. cbn [map List.filter].
  rewrite (pi_is_null _ _ _ Hp). assert (IH' := IH ltac:(intros k ?; apply Hl; by right)).
  destruct (Nat.eqb_spec n 0) as [->|Hn]; cbn [negb]; [by rewrite andb_false_r|]. rewrite andb_true_r. cbn [List.filter].
  rewrite (pi_ref _ _ _ Hp) by lia. pose proof (Hl n ltac:(left)) as Hb.
  destruct (decide (n ∈ held)) as [Hin|Hni].
  - rewrite (bool_decide_false (n ∈ fr)) by (intros [_ ?]%(pi_free _ _ _ Hp); done).
    pose proof (proj1 (count_occ_In Nat.eq_dec held n) (proj1 (list_elem_of_In _ _) Hin)).
    destruct (Z.eqb_spec (Z.of_nat (count held n)) 0); [lia|done].
  - rewrite (bool_decide_true (n ∈ fr)) by (apply (pi_free _ _ _ Hp); split; [lia|done]).
    rewrite count_zero by done. change (Z.of_nat 0 =? 0) with true. cbn [length]. by rewrite IH'.
Qed.

(** ** Sums over the groups *)

Lemma zsum_zip_add {A B} (f g : A -> B -> Z) l k :
  zsum (zip_with (fun a b => f a b + g a b) l k) = zsum (zip_with f l k) + zsum (zip_with g l k).
Proof. revert k. induction l as [|a l IH]; intros [|b k]; cbn; [done..|]. rewrite IH. lia. Qed.
Lemma zip_snd {A B C} (f : B -> C) (l : list A) (k : list B) :
  length l = length k -> zip_with (fun _ b => f b) l k = map f k.
Proof. revert k. induction l as [|a l IH]; intros [|b k] H; cbn in *; [done..|]. f_equal. apply IH. lia. Qed.

Definition evictable (p : BlockPool) (bl : list Ref) : Z :=
  Z.of_nat (length (List.filter (fun b => (ref_cnt p b =? 0) && negb (is_null p b)) bl)).
(** The blocks that the request takes from the free queue for group [x]. *)
Definition group_demand (p : BlockPool) (id : string) (T : Z) (x : Manager) (bl : list Ref) : Z :=
  missing_blocks x id T - Z.of_nat (length bl) + evictable p bl.
Definition demand (p : BlockPool) (id : string) (T : Z) (ms : list Manager) (comp : list (list Ref)) : Z :=
  zsum (zip_with (group_demand p id T) ms comp).

Lemma counted_demand p id T comp ms counts ms' :
  length comp = length ms -> related (counted p id T comp) 0 ms counts ms' -> zsum counts = demand p id T ms comp.
Proof.
  intros Hlen Hr. unfold demand. f_equal. apply list_eq. intros j. rewrite lookup_zip_with.
  destruct Hr as (Hl & _ & H). destruct (ms !! j) as [x|] eqn:Hx.
  - destruct (H j x Hx) as (n & x' & -> & _ & _ & bl & Hbl & ->). cbn in Hbl |- *. rewrite Hbl. done.
  - cbn. apply lookup_ge_None in Hx. apply lookup_ge_None. lia.
Qed.

Lemma evictable_concat p fr held bss :
  pool_inv p fr held -> (forall n, n ∈ concat bss -> Z.of_nat n < num_gpu_blocks p) ->
  zsum (map (evictable p) (map (map Blk) bss))
    = Z.of_nat (length (List.filter (fun n => bool_decide (n ∈ fr)) (real (concat bss)))).
Proof.
  intros Hp. induction bss as [|l bss IH]; intros Hb; [done|]. cbn [map zsum concat]. rewrite IH.
  - unfold evictable. rewrite (evictable_free p fr held) by (try done; intros n Hn; apply Hb, elem_of_app; by left).
    rewrite real_app, List.filter_app, length_app. lia.
  - intros n Hn. apply Hb, elem_of_app. by right.
Qed.

(** ** The prefix of a request *)

(** A prefix that may be given to group [i] of a new request. *)
Record new_prefix (m : KVCacheManager) (id : string) (computed : Z) (i : nat) (x : Manager) (l : list nat) : Prop := {
  np_blocks : good_blocks (num_gpu_blocks (pool_of m)) (map Blk l);
  np_len : Z.of_nat (length l) * block_size x = computed;
  np_hit : forall n, n ∈ real l -> exists h, block_hash (pool_of m) (Blk n) = Some {| block_hash_of := h; group_id := Z.of_nat i |};
  np_last : forall n, last l = Some n -> (0 < n)%nat;
  np_hashes : manager_caching m = true -> (length l <= length (hashes_of_request m id))%nat;
  np_nocache : manager_caching m = false -> l = [] }.

(** A running request gets no prefix, a new one a valid prefix for every group. *)
Definition prefix_pre (m : KVCacheManager) (id : string) (computed : Z) (bss : list (list nat)) : Prop :=
  length bss = length (managers m) /\
  ((known m id /\ (forall l, l ∈ bss -> l = []) /\ computed = 0) \/
   (unknown (managers m) id /\
    forall i x l, managers m !! i = Some x -> bss !! i = Some l -> new_prefix m id computed i x l)).

Lemma tagged_nodup (tag : nat -> option Z) k bss :
  (forall i l, bss !! i = Some l -> NoDup (real l) /\ forall n, n ∈ real l -> tag n = Some (Z.of_nat (k + i))) ->
  NoDup (real (concat bss)).
Proof.
  revert k. induction bss as [|l bss IH]; intros k H; [constructor|]. cbn [concat]. rewrite real_app.
  destruct (H 0%nat l eq_refl) as [Hnd Htag]. apply NoDup_app. split; [done|]. split.
  - intros n Hn Hn'. specialize (Htag n Hn). apply elem_of_real in Hn' as [Hn' Hpos].
    apply list_elem_of_In, in_concat in Hn' as (l' & Hl' & Hn'). apply list_elem_of_In, list_elem_of_lookup_1 in Hl' as [j Hj].
    destruct (H (S j) l' Hj) as [_ Htag']. rewrite (Htag' n) in Htag; [injection Htag; lia|].
    apply elem_of_real. split; [by apply list_elem_of_In|done].
  - apply (IH (S k)). intros i l' Hl'. destruct (H (S i) l' Hl') as [? Ht]. split; [done|]. intros n Hn. rewrite Ht by done. f_equal. lia.
Qed.

Section prefix.
Context (m : KVCacheManager) (fr : list nat) (Hinv : kv_inv m fr) (id : string) (computed : Z) (bss : list (list nat)).
Context (Hpre : prefix_pre m id computed bss).

Lemma prefix_len : length bss = length (managers m).
Proof. apply Hpre. Qed.

Lemma prefix_at i l : bss !! i = Some l -> l = [] \/ exists x, managers m !! i = Some x /\ new_prefix m id computed i x l.
Proof.
  intros Hl. destruct (proj2 Hpre) as [(_ & H & _)|[_ H]]; [left; apply H; by eapply list_elem_of_lookup_2|].
  destruct (lookup_lt_is_Some_2 (managers m) i) as [x Hx]; [rewrite <-prefix_len; by eapply lookup_lt_Some|].
  right. exists x. split; [done|by apply H].
Qed.

Lemma prefix_bounds n : n ∈ concat bss -> Z.of_nat n < num_gpu_blocks (pool_of m).
Proof.
  intros Hn. apply list_elem_of_In, in_concat in Hn as (l & Hl & Hn). apply list_elem_of_In, list_elem_of_lookup_1 in Hl as [i Hi].
  destruct (prefix_at i l Hi) as [->|(x & Hx & Hnp)]; [done|]. destruct (np_blocks _ _ _ _ _ _ Hnp) as (l' & Hl' & Hb & _).
  assert (l = l') as -> by (by eapply (list_fmap_eq_inj Blk); [intros ?? [= ->]|]). apply Hb. by apply list_elem_of_In.
Qed.

Lemma prefix_hashed n : n ∈ real (concat bss) -> is_Some (block_hash (pool_of m) (Blk n)).
Proof.
  intros Hn. apply elem_of_real in Hn as [Hn Hpos].
  apply list_elem_of_In, in_concat in Hn as (l & Hl & Hn). apply list_elem_of_In, list_elem_of_lookup_1 in Hl as [i Hi].
  destruct (prefix_at i l Hi) as [->|(x & Hx & Hnp)]; [done|].
  destruct (np_hit _ _ _ _ _ _ Hnp n) as [h ->]; [apply elem_of_real; split; [by apply list_elem_of_In|done]|by eexists].
Qed.

Lemma prefix_nodup : NoDup (real (concat bss)).
Proof.
  apply (tagged_nodup (fun n => group_id <$> block_hash (pool_of m) (Blk n)) 0). intros i l Hi.
  destruct (prefix_at i l Hi) as [->|(x & Hx & Hnp)]; [split; [constructor|by intros n ?%elem_of_nil]|]. split.
  - destruct (np_blocks _ _ _ _ _ _ Hnp) as (l' & Hl' & _ & Hnd).
    by assert (l = l') as -> by (by eapply (list_fmap_eq_inj Blk); [intros ?? [= ->]|]).
  - intros n Hn. by destruct (np_hit _ _ _ _ _ _ Hnp n Hn) as [h ->].
Qed.

(** What [save_new_computed_blocks] needs, in any state with the same hashes. *)
Lemma prefix_save p (ms : list Manager) :
  num_gpu_blocks p = num_gpu_blocks (pool_of m) -> enable_caching p = enable_caching (pool_of m) ->
  block_hash p = block_hash (pool_of m) ->
  (forall i x, ms !! i = Some x -> exists x0, managers m !! i = Some x0 /\ num_cached_block x !! id = num_cached_block x0 !! id /\
     (blocks_of x0 id = [] -> blocks_of x id = [])) ->
  forall i x, ms !! i = Some x -> save_pre p id bss i x.
Proof.
  intros Hnum Hca Hh Hms i x Hx. destruct (Hms i x Hx) as (x0 & Hx0 & Hnc & Hb).
  destruct (lookup_lt_is_Some_2 bss i) as [l Hl]; [rewrite prefix_len; by eapply lookup_lt_Some|]. exists l. split; [done|].
  assert (Hin : x0 ∈ managers m) by (by eapply list_elem_of_lookup_2). rewrite Hnc, Hnum, Hca, Hh.
  destruct Hpre as [_ [(Hk & Hnil & _)|[Hu Hnp]]].
  - destruct (Hk x0 Hin) as (nc & -> & _). apply Hnil. by eapply list_elem_of_lookup_2.
  - destruct (Hu x0 Hin) as [-> Hb0]. specialize (Hnp i x0 l Hx0 Hl). split; [by apply Hb|]. split; [apply Hnp|].
    intros _. split.
    + rewrite length_map. lia.
    + intros j n Hj Hn. apply lookup_lt_Some in Hn. rewrite length_map in Hn. lia.
    + intros Hpos. destruct (lookup_lt_is_Some_2 l (length l - 1)) as [n Hn]; [lia|]. exists n.
      replace (Z.to_nat (Z.of_nat (length l) - 1)) with (length l - 1)%nat by lia. rewrite list_lookup_fmap, Hn. split; [done|].
      assert (Hpn : (0 < n)%nat).
      { apply (np_last _ _ _ _ _ _ Hnp). rewrite last_lookup. by replace (Nat.pred (length l)) with (length l - 1)%nat by lia. }
      destruct (np_hit _ _ _ _ _ _ Hnp n) as [h ->]; [|by eexists]. apply elem_of_real.
      split; [by eapply list_elem_of_lookup_2|lia].
Qed.
End prefix.

(** ** [allocate_slots] stage by stage *)

(** Skipped blocks are dropped, nothing else changes. *)
Definition prepared (id : string) (n : Z) (x x' : Manager) : Prop :=
  same_group x x' /\ others_kept id x x' /\ num_cached_block x' = num_cached_block x /\
  length (blocks_of x' id) = length (blocks_of x id) /\
  (forall k j, first_useful_block x id n = Ok (Some k) -> k <= Z.of_nat j -> blocks_of x' id !! j = blocks_of x id !! j) /\
  (first_useful_block x id n = Ok None -> blocks_of x' id = blocks_of x id).

Lemma ensure_others id x : others_kept id x (ensure x id).
Proof. intros id' _. split; [apply blocks_of_ensure|done]. Qed.
Lemma missing_ensure x id T : missing_blocks (ensure x id) id T = missing_blocks x id T.
Proof. unfold missing_blocks. by rewrite blocks_of_ensure. Qed.

Section slots.
Context (m : KVCacheManager) (fr : list nat) (Hinv : kv_inv m fr) (id : string).

Lemma prepare_ok n T comp :
  (forall x, x ∈ managers m -> skip_ok (manager_caching m) x id n) -> length comp = length (managers m) ->
  exists c1 c2 fr2, remove_skipped_blocks (coordinator m) id n = Ok c1 /\
    get_num_blocks_to_allocate c1 id T comp
      = Ok (demand (block_pool c2) id T (single_type_managers c2) comp, c2) /\
    kv_core (block_pool c2) (single_type_managers c2) (fr ++ fr2) [] /\ same_cache (pool_of m) (block_pool c2) /\
    Forall2 (prepared id n) (managers m) (single_type_managers c2).
Proof.
  intros Hskip Hlen. rewrite (ki_caching _ _ Hinv) in Hskip.
  destruct (skip_all _ _ _ (ki_core _ _ Hinv) id n Hskip) as (us & p1 & ms1 & fr2 & Hs1 & Hc1 & Hsame & Hr1).
  pose proof Hr1 as (_ & Hl1 & Hr1').
  destruct (count_all _ _ _ Hc1 id T comp) as (counts & ms2 & Hs2 & Hc2 & Hr2); [congruence|].
  exists (with_state (coordinator m) p1 ms1), (with_state (with_state (coordinator m) p1 ms1) p1 ms2), fr2.
  cbn [block_pool single_type_managers with_state]. split.
  { unfold remove_skipped_blocks. fold (managers m) (pool_of m). rewrite Hs1. done. }
  split.
  { unfold get_num_blocks_to_allocate. cbn [block_pool single_type_managers with_state]. rewrite Hs2. cbn [bind]. do 3 f_equal.
    rewrite (counted_demand p1 id T comp ms1 counts ms2); [|congruence|done]. unfold demand. f_equal. apply list_eq. intros j.
    rewrite !lookup_zip_with. destruct (ms2 !! j) as [x2|] eqn:Hx2.
    - destruct (related_back _ _ _ _ _ _ Hr2 Hx2) as (x1 & a & -> & _ & -> & _). cbn.
      destruct (comp !! j); [|done]. cbn. unfold group_demand. by rewrite missing_ensure.
    - apply lookup_ge_None in Hx2. destruct Hr2 as (_ & Hl2 & _). rewrite (lookup_ge_None_2 ms1) by lia. done. }
  split; [done|]. split; [done|]. apply Forall2_same_length_lookup_2; [destruct Hr2 as (_ & Hl2 & _); congruence|].
  intros j x x2 Hx Hx2. destruct (related_back _ _ _ _ _ _ Hr2 Hx2) as (x1 & a & Hx1 & _ & -> & _).
  destruct (related_back _ _ _ _ _ _ Hr1 Hx1) as (x0 & u & Hx0 & _ & Hg & Ho & Hnc & Hl & Hk & Hn).
  rewrite Hx in Hx0. injection Hx0 as <-. split; [done|]. split; [|rewrite blocks_of_ensure; done].
  intros id' Hne. rewrite blocks_of_ensure. by apply Ho.
Qed.

(** Touching and saving the prefix. *)
Definition prefixed (bss : list (list nat)) (i : nat) (x x' : Manager) : Prop :=
  same_group x x' /\ others_kept id x x' /\ exists l, bss !! i = Some l /\
  blocks_of x' id = blocks_of x id ++ map Blk l /\
  num_cached_block x' !! id = Some (default (Z.of_nat (length l)) (num_cached_block x !! id)).

Lemma take_prefix_ok n computed bss c2 fr2 :
  prefix_pre m id computed bss ->
  kv_core (block_pool c2) (single_type_managers c2) fr2 [] -> same_cache (pool_of m) (block_pool c2) ->
  Forall2 (prepared id n) (managers m) (single_type_managers c2) ->
  exists c3 c4 fr4,
    (if manager_caching m then
       let! p := touch (block_pool c2) (map (map Blk) bss) in Ok (with_state c2 p (single_type_managers c2))
     else py_assert (forallb (fun l => match l with [] => true | _ => false end) (map (map Blk) bss)) ;;! Ok c2) = Ok c3 /\
    save_new_computed_blocks c3 id (map (map Blk) bss) = Ok c4 /\
    kv_core (block_pool c4) (single_type_managers c4) fr4 [] /\ same_cache (pool_of m) (block_pool c4) /\
    Z.of_nat (length fr4) = Z.of_nat (length fr2) - zsum (map (evictable (block_pool c2)) (map (map Blk) bss)) /\
    length (single_type_managers c4) = length (single_type_managers c2) /\
    forall i x x', single_type_managers c2 !! i = Some x -> single_type_managers c4 !! i = Some x' -> prefixed bss i x x'.
Proof.
  intros Hpre Hc Hs Hprep. pose proof (prefix_len _ _ _ _ Hpre) as Hlen.
  set (p2 := block_pool c2) in *. set (ms2 := single_type_managers c2) in *.
  assert (Hb : forall k, k ∈ concat bss -> Z.of_nat k < num_gpu_blocks p2).
  { rewrite (sca_num _ _ Hs). by apply (prefix_bounds m id computed). }
  assert (Htouch : exists c3 fr4, (if manager_caching m then
       let! p := touch p2 (map (map Blk) bss) in Ok (with_state c2 p ms2)
     else py_assert (forallb (fun l => match l with [] => true | _ => false end) (map (map Blk) bss)) ;;! Ok c2) = Ok c3 /\
     kv_core (block_pool c3) ms2 fr4 (real (concat bss)) /\ single_type_managers c3 = ms2 /\ same_cache p2 (block_pool c3)).
  { destruct (manager_caching m) eqn:Eca.
    - destruct (core_touch p2 ms2 fr2 [] bss Hc Hb) as (p3 & fr4 & -> & Hc3 & Hs3).
      { rewrite (sca_hash _ _ Hs). by apply (prefix_hashed m id computed). }
      rewrite app_nil_r in Hc3. cbn [bind]. exists (with_state c2 p3 ms2), fr4. done.
    - assert (Hnil : forall l, l ∈ bss -> l = []).
      { intros l [i Hi]%list_elem_of_lookup_1. destruct (prefix_at m id computed bss Hpre i l Hi) as [->|(x & _ & Hnp)]; [done|].
        by apply (np_nocache _ _ _ _ _ _ Hnp). }
      assert (concat bss = []) as ->.
      { clear -Hnil. induction bss as [|l bss IH]; [done|]. cbn. rewrite (Hnil l) by left. apply IH. intros l' ?. apply Hnil. by right. }
      assert (forallb (fun l => match l with [] => true | _ => false end) (map (map Blk) bss) = true) as ->.
      { apply forallb_forall. intros l (l' & <- & Hl')%in_map_iff. by rewrite (Hnil l') by (by apply list_elem_of_In). }
      exists c2, fr2. split; [done|]. split; [done|]. split; [done|]. apply same_cache_refl. }
  destruct Htouch as (c3 & fr4 & -> & Hc3 & Hms3 & Hs3).
  assert (Hsave : forall i x, ms2 !! i = Some x -> save_pre (block_pool c3) id bss i x).
  { pose proof (same_cache_trans _ _ _ Hs Hs3) as [E1 E2 E3 _ _]. apply (prefix_save m id computed bss Hpre); try done.
    intros i x Hx. destruct (Forall2_lookup_r _ _ _ _ _ Hprep Hx) as (x0 & Hx0 & _ & _ & Hnc & Hl & _). exists x0.
    split; [done|]. rewrite Hnc. split; [done|]. intros E. apply length_zero_iff_nil. by rewrite Hl, E. }
  assert (Hlen2 : length ms2 = length bss) by (rewrite Hlen; symmetry; by eapply Forall2_length).
  destruct (save_all (block_pool c3) ms2 fr4 id bss Hc3 ltac:(done) Hsave) as (us & ms4 & Hok & Hc4 & Hr).
  exists c3, (with_state c3 (block_pool c3) ms4), fr4. split; [done|]. split.
  { unfold save_new_computed_blocks. rewrite Hms3, Hok. done. }
  cbn [block_pool single_type_managers with_state]. split; [done|]. split; [by eapply same_cache_trans|]. split.
  { rewrite (evictable_concat p2 fr2 _ bss (kc_pool _ _ _ _ Hc) Hb).
    pose proof (kc_pool _ _ _ _ Hc3) as Hp3. eapply pool_inv_perm in Hp3; [|apply Permutation_app_comm].
    pose proof (kc_pool _ _ _ _ Hc) as Hp2. rewrite app_nil_r in Hp2.
    pose proof (touched_free _ _ _ _ _ _ Hp2 (sca_num _ _ Hs3) Hp3 (prefix_nodup m id computed bss Hpre)). lia. }
  split; [apply Hr|]. intros i x x' Hx Hx'. destruct (related_back _ _ _ _ _ _ Hr Hx') as (x0 & u & Hx0 & _ & Hg & Ho & bl & Hbl & Hm).
  rewrite Hx in Hx0. injection Hx0 as <-. rewrite list_lookup_fmap in Hbl. apply fmap_Some in Hbl as (l & Hl & ->).
  split; [done|]. split; [done|]. exists l. split; [done|]. destruct (Hsave i x Hx) as (l' & Hl' & Hcase). rewrite Hl in Hl'. injection Hl' as <-.
  destruct (num_cached_block x !! id) as [nc|] eqn:Enc.
  - destruct Hm as [Hnil ->]. destruct l; [|done]. cbn. rewrite app_nil_r, Enc. done.
  - destruct Hm as [Hb' Hnc']. destruct Hcase as [Hb0 _]. rewrite Hb', Hb0, Hnc', length_map. done.
Qed.
End slots.

(** ** [allocate_slots] *)

Section main.
Context (hash_fn : Z * list Z * option (list ExtraKey) -> Z) (NONE_HASH : Z).

(** The number of tokens that need a slot, and that may be cached. *)
Definition slot_tokens (m : KVCacheManager) (r : Request) (computed new look : Z) : Z :=
  Z.min (num_computed_tokens r + computed + new + look) (manager_max_model_len m).
Definition commit_tokens (r : Request) (computed new : Z) : Z :=
  Z.min (num_computed_tokens r + computed + new) (num_tokens r).

(** When the blocks to skip may be skipped ([skip_ok]): the table covers the computed
    tokens, and, with prefix caching, their full blocks are committed.  A window must be
    longer than a block, a chunked-local group must have a committed block. *)
Lemma window_skip_ok caching x id n nc bs ps window :
  kv_cache_spec x = SlidingWindowSpec bs ps window -> 0 < bs < window -> 0 <= n -> cdiv n bs <= Z.of_nat (length (blocks_of x id)) ->
  (caching = true -> num_cached_block x !! id = Some nc /\ n / bs <= nc) -> skip_ok caching x id n.
Proof.
  intros Hs Hw Hn Hl Hc k. unfold first_useful_block, py_div. rewrite Hs. destruct (Z.eqb_spec bs 0); [lia|]. cbn [bind]. intros [= <-].
  assert (Hk : (n - window + 1) / bs <= n / bs - 1).
  { replace (n / bs - 1) with ((n + -1 * bs) / bs) by (rewrite Z.div_add; lia). apply Z.div_le_mono; lia. }
  assert (Hd : n / bs <= cdiv n bs) by (rewrite <-div_up_cdiv by lia; apply Z.div_le_mono; lia).
  split; [lia|]. intros Hca. right. destruct (Hc Hca) as [? ?]. exists nc. split; [done|]. lia.
Qed.
Lemma chunked_skip_ok caching x id n nc bs ps chunk :
  kv_cache_spec x = ChunkedLocalAttentionSpec bs ps chunk -> 0 < bs -> 0 < chunk ->
  num_cached_block x !! id = Some nc -> 0 < nc <= Z.of_nat (length (blocks_of x id)) -> skip_ok caching x id n.
Proof.
  intros Hs Hb Hch Hnc Hl k. unfold first_useful_block, py_div. rewrite Hs. destruct (Z.eqb_spec chunk 0); [lia|]. cbn [bind].
  destruct (Z.eqb_spec bs 0); [lia|]. cbn [bind]. rewrite Hnc. change (default 0 (Some nc)) with nc. destruct (Z.ltb_spec 0 nc); [|lia]. intros [= <-].
  split; [lia|]. intros _. right. exists nc. split; [done|]. lia.
Qed.

(** The conditions of a call of [allocate_slots].  The scheduler's calls meet them for
    full-attention groups, see [cached_slots_pre] and [paged_allocate]; for the skipped
    blocks of other groups see [window_skip_ok] and [chunked_skip_ok].  They are not met by
    every call for a chunked-local group, whose prefix hits can end in null blocks
    ([sp_prefix], see [long_chunked_request_raises]), or for a Mamba group, which must need
    one block ([sp_mamba]). *)
Record slots_pre (m : KVCacheManager) (r : Request) (new computed : Z) (bss : list (list nat)) (look : Z) (delay : bool) : Prop := {
  sp_new : 0 < new;
  sp_look : 0 <= look;
  sp_nonneg : 0 <= num_computed_tokens r /\ 0 <= computed;
  sp_len : num_computed_tokens r + computed <= manager_max_model_len m;
  sp_skip : forall x, x ∈ managers m -> skip_ok (manager_caching m) x (request_id r) (num_computed_tokens r);
  sp_prefix : prefix_pre m (request_id r) computed bss;
  sp_mamba : forall i x l, managers m !! i = Some x -> bss !! i = Some l ->
    match kv_cache_spec x with
    | MambaSpec _ _ _ _ _ => Z.max (cdiv (slot_tokens m r computed new look) (block_size x))
                               (Z.of_nat (length (blocks_of x (request_id r)) + length l)) = 1
    | _ => True
    end;
  sp_commit : manager_caching m = true -> delay = false ->
    mm_hashed r /\ num_tokens r <= manager_max_model_len m /\ computed <= num_tokens r /\
    (enable_kv_cache_events (pool_of m) = true -> lora_request r = None) /\
    (forall x nc, x ∈ managers m -> num_cached_block x !! request_id r = Some nc ->
       nc <= commit_tokens r computed new / block_size x) }.

(** The tokens that the block tables cover once the prefix is saved. *)
Lemma prefix_covers m fr id n computed bss ms2 ms4 :
  kv_inv m fr -> prefix_pre m id computed bss -> 0 <= computed ->
  Forall2 (prepared id n) (managers m) ms2 -> length ms4 = length ms2 ->
  (forall i x x', ms2 !! i = Some x -> ms4 !! i = Some x' -> prefixed id bss i x x') ->
  exists t, 0 <= t /\ covers ms4 id t.
Proof.
  intros Hinv Hpre Hcomp Hprep Hlen4 Hpx.
  assert (Hback : forall x4, x4 ∈ ms4 -> exists i x l, managers m !! i = Some x /\ bss !! i = Some l /\ block_size x4 = block_size x /\
            length (blocks_of x4 id) = (length (blocks_of x id) + length l)%nat).
  { intros x4 [i Hi]%list_elem_of_lookup_1. destruct (lookup_lt_is_Some_2 ms2 i) as [x2 Hx2]; [rewrite <-Hlen4; by eapply lookup_lt_Some|].
    destruct (Hpx i x2 x4 Hx2 Hi) as ([E1 _] & _ & l & Hl & Hb & _).
    destruct (Forall2_lookup_r _ _ _ _ _ Hprep Hx2) as (x & Hx & [E2 _] & _ & _ & Hlen & _).
    exists i, x, l. split; [done|]. split; [done|]. unfold block_size. rewrite E1, E2, Hb, length_app, length_map, Hlen. done. }
  destruct Hpre as [_ [(_ & Hnil & _)|[Hu Hnp]]].
  - destruct (ki_cover _ _ Hinv id) as (t & Ht & Hc). exists t. split; [done|].
    intros x4 Hx4. destruct (Hback x4 Hx4) as (i & x & l & Hx & Hl & -> & ->). rewrite (Hnil l) by (by eapply list_elem_of_lookup_2).
    cbn. rewrite Nat.add_0_r. apply Hc. by eapply list_elem_of_lookup_2.
  - exists computed. split; [lia|].
    intros x4 Hx4. destruct (Hback x4 Hx4) as (i & x & l & Hx & Hl & -> & ->).
    destruct (Hu x) as [_ ->]; [by eapply list_elem_of_lookup_2|]. cbn.
    destruct (kc_mgr _ _ _ _ (ki_core _ _ Hinv) x) as [_ [Hbs _]]; [by eapply list_elem_of_lookup_2|].
    pose proof (np_len _ _ _ _ _ _ (Hnp i x l Hx Hl)). symmetry. apply cdiv_unique; [done|]. unfold block_size in *. nia.
Qed.

(** With the prefix in place the free blocks are enough. *)
Lemma missing_sum id n T bss ms ms2 ms4 p2 (fr2 fr4 : list nat) t :
  Forall2 (prepared id n) ms ms2 -> length bss = length ms -> length ms4 = length ms2 ->
  (forall i x x', ms2 !! i = Some x -> ms4 !! i = Some x' -> prefixed id bss i x x') ->
  (forall x, x ∈ ms4 -> 0 < block_size x) -> covers ms4 id t -> 0 <= t ->
  demand p2 id T ms2 (map (map Blk) bss) <= Z.of_nat (length fr2) ->
  Z.of_nat (length fr4) = Z.of_nat (length fr2) - zsum (map (evictable p2) (map (map Blk) bss)) ->
  zsum (map (fun x => Z.max 0 (missing_blocks x id T)) ms4) <= Z.of_nat (length fr4).
Proof.
  intros Hprep Hlen Hlen4 Hpx Hbs Hcov Ht Hdem Hfr.
  assert (Hlen2 : length ms2 = length bss) by (rewrite Hlen; symmetry; by eapply Forall2_length).
  assert (Hmiss : zsum (map (fun x => missing_blocks x id T) ms4) <= Z.of_nat (length fr4)).
  { assert (E : map (fun x => missing_blocks x id T) ms4
              = zip_with (fun x bl => missing_blocks x id T - Z.of_nat (length bl)) ms2 (map (map Blk) bss)).
    { apply list_eq. intros i. rewrite list_lookup_fmap, lookup_zip_with, list_lookup_fmap.
      destruct (ms4 !! i) as [x4|] eqn:Hx4; cbn.
      - destruct (lookup_lt_is_Some_2 ms2 i) as [x2 Hx2]; [rewrite <-Hlen4; by eapply lookup_lt_Some|]. rewrite Hx2. cbn.
        destruct (Hpx i x2 x4 Hx2 Hx4) as ([E1 _] & _ & l & -> & Hb & _). cbn. f_equal. unfold missing_blocks, block_size.
        rewrite E1, Hb, length_app, !length_map. lia.
      - apply lookup_ge_None in Hx4. rewrite (lookup_ge_None_2 ms2) by lia. done. }
    rewrite E, Hfr. unfold demand, group_demand in Hdem. rewrite zsum_zip_add, zip_snd in Hdem by (by rewrite length_map).
    lia. }
  destruct (Z.le_gt_cases t T) as [Hle|Hgt].
  - rewrite (map_ext_in _ (fun x => missing_blocks x id T)); [done|]. intros x Hx%list_elem_of_In.
    unfold missing_blocks. rewrite (Hcov x Hx). pose proof (cdiv_mono t T (block_size x) (Hbs x Hx) Hle). lia.
  - rewrite (map_ext_in _ (fun _ => 0)); [|intros x Hx%list_elem_of_In; unfold missing_blocks; rewrite (Hcov x Hx);
      pose proof (cdiv_mono T t (block_size x) (Hbs x Hx) ltac:(lia)); lia].
    assert (zsum (map (fun _ : Manager => 0) ms4) = 0) as ->; [|lia]. clear. induction ms4; cbn; lia.
Qed.

(** Committing the full blocks of a known request. *)
Lemma commit_ok m fr r C :
  kv_inv m fr -> manager_caching m = true -> known m (request_id r) -> mm_hashed r -> C <= num_tokens r ->
  (enable_kv_cache_events (pool_of m) = true -> lora_request r = None) ->
  (forall x nc, x ∈ managers m -> num_cached_block x !! request_id r = Some nc ->
     nc <= C / block_size x <= Z.of_nat (length (blocks_of x (request_id r)))) ->
  exists m', commit_blocks hash_fn NONE_HASH m r C = Ok m' /\ kv_inv m' fr /\ known m' (request_id r) /\
    evolves (request_id r) (managers m) (managers m') /\
    manager_max_model_len m' = manager_max_model_len m /\
    (forall i x x', managers m !! i = Some x -> managers m' !! i = Some x' ->
       blocks_of x' (request_id r) = blocks_of x (request_id r) /\
       num_cached_block x' !! request_id r = Some (C / block_size x)).
Proof.
  intros Hinv Hca Hk Hmm HC Hlora Hb. set (id := request_id r) in *.
  destruct (cache_all hash_fn NONE_HASH (pool_of m) (managers m) fr (ki_core _ _ Hinv)) with (r := r)
    (hashes0 := hashes_of_request m id) (num_tokens := C) as
    (us & p & hashes & ms & Hok & Hc & Hca' & Hnum & Hev & [app Happ] & Hcov & Hr); try done.
  { by rewrite <-(ki_caching _ _ Hinv). }
  { intros x Hx. destruct (Hk x Hx) as (nc & Hnc & Hh). exists nc. split; [done|]. split; [by apply Hb|by apply Hh]. }
  eexists. split.
  { unfold commit_blocks, KVCoordinator.cache_blocks. fold id (pool_of m) (managers m). rewrite Hok. cbn [bind]. reflexivity. }
  set (m' := set_hashes _ _ _). assert (He : evolves id (managers m) (managers m')).
  { eapply (related_evolves (committed r C)); [|exact Hr]. intros j x a x' (Hg & Ho & _). done. }
  assert (Hback : forall x', x' ∈ ms -> exists x, x ∈ managers m /\ committed r C 0 x tt x').
  { intros x' [i Hi]%list_elem_of_lookup_1. destruct (related_back _ _ _ _ _ _ Hr Hi) as (x & [] & Hx & _ & Hcm).
    exists x. split; [by eapply list_elem_of_lookup_2|exact Hcm]. }
  assert (Hhash : hashes_of_request m' id = hashes) by (unfold hashes_of_request; cbn; by rewrite lookup_insert_eq).
  assert (Hk' : known m' id).
  { intros x' Hx'. destruct (Hback x' Hx') as (x & Hx & [Hs _] & _ & _ & Hnc). exists (C / block_size x). split; [done|].
    intros _. rewrite Hhash. specialize (Hcov x' Hx'). unfold block_size in *. by rewrite Hs in Hcov. }
  split; [|split; [done|split; [done|split; [done|]]]].
  - eapply (kv_inv_step m fr m' fr id Hinv); [exact Hc|done| |done| |done|by right|].
    + change (enable_caching p = enable_caching (pool_of m)). rewrite Hca', <-(ki_caching _ _ Hinv). done.
    + intros id' Hne. unfold hashes_of_request. cbn. by rewrite lookup_insert_ne.
    + destruct (ki_cover _ _ Hinv id) as (t & Ht & Hct). exists t. split; [done|]. intros x' Hx'.
      destruct (Hback x' Hx') as (x & Hx & [Hs _] & _ & E & _). unfold block_size. rewrite Hs. unfold id. rewrite E. by apply Hct.
  - intros i x x' Hx Hx'. destruct (related_back _ _ _ _ _ _ Hr Hx') as (x0 & u & Hx0 & _ & _ & _ & Hbl & Hnc).
    rewrite Hx in Hx0. injection Hx0 as <-. done.
Qed.

(** The group of a request after its slots are allocated. *)
Definition granted (id : string) (T : Z) (bss : list (list nat)) (i : nat) (x : Manager) (new : list Ref) (x' : Manager) : Prop :=
  exists b0 l, bss !! i = Some l /\ blocks_of x' id = b0 ++ map Blk l ++ new /\ length b0 = length (blocks_of x id) /\
  Z.of_nat (length (blocks_of x' id)) = Z.max (Z.of_nat (length b0 + length l)) (cdiv T (block_size x)) /\
  num_cached_block x' !! id = Some (default (Z.of_nat (length l)) (num_cached_block x !! id)).

(** From the saved prefix to the allocated blocks. *)
Lemma allocate_ok m fr r new computed bss look delay c2 c4 fr4 :
  kv_inv m fr -> slots_pre m r new computed bss look delay ->
  Forall2 (prepared (request_id r) (num_computed_tokens r)) (managers m) (single_type_managers c2) ->
  kv_core (block_pool c4) (single_type_managers c4) fr4 [] -> same_cache (pool_of m) (block_pool c4) ->
  length (single_type_managers c4) = length (single_type_managers c2) ->
  (forall i x x', single_type_managers c2 !! i = Some x -> single_type_managers c4 !! i = Some x' ->
     prefixed (request_id r) bss i x x') ->
  zsum (map (fun x => Z.max 0 (missing_blocks x (request_id r) (slot_tokens m r computed new look))) (single_type_managers c4))
    <= Z.of_nat (length fr4) ->
  exists nbs c5 fr5, allocate_new_blocks c4 (request_id r) (slot_tokens m r computed new look) = Ok (nbs, c5) /\
    kv_inv (with_coordinator m c5) fr5 /\ known (with_coordinator m c5) (request_id r) /\
    evolves (request_id r) (managers m) (single_type_managers c5) /\
    enable_kv_cache_events (block_pool c5) = enable_kv_cache_events (pool_of m) /\
    length nbs = length (managers m) /\
    forall i x x', managers m !! i = Some x -> single_type_managers c5 !! i = Some x' ->
      exists nb, nbs !! i = Some nb /\
      granted (request_id r) (slot_tokens m r computed new look) bss i x nb x'.
Proof.
  set (id := request_id r). set (T := slot_tokens m r computed new look).
  intros Hinv Hsp Hprep Hc4 Hs4 Hl4 Hpx Hsum. pose proof (Forall2_length _ _ _ Hprep) as Hl2.
  pose proof (prefix_len _ _ _ _ (sp_prefix _ _ _ _ _ _ _ Hsp)) as Hlb.
  assert (Hback : forall i x4, single_type_managers c4 !! i = Some x4 -> exists x l, managers m !! i = Some x /\ bss !! i = Some l /\
            same_group x x4 /\ others_kept id x x4 /\
            (exists b0, blocks_of x4 id = b0 ++ map Blk l /\ length b0 = length (blocks_of x id)) /\
            num_cached_block x4 !! id = Some (default (Z.of_nat (length l)) (num_cached_block x !! id))).
  { intros i x4 Hi. destruct (lookup_lt_is_Some_2 (single_type_managers c2) i) as [x2 Hx2]; [rewrite <-Hl4; by eapply lookup_lt_Some|].
    destruct (Hpx i x2 x4 Hx2 Hi) as ([E1 E2] & Ho & l & Hl & Hb & Hnc).
    destruct (Forall2_lookup_r _ _ _ _ _ Hprep Hx2) as (x & Hx & [E3 E4] & Ho' & Hnc' & Hlen & _).
    exists x, l. split; [done|]. split; [done|]. split; [split; congruence|]. split.
    { intros id' Hne. destruct (Ho id' Hne), (Ho' id' Hne). split; congruence. }
    split; [by exists (blocks_of x2 id)|]. by rewrite Hnc, Hnc'. }
  destruct (allocate_all (block_pool c4) (single_type_managers c4) fr4 Hc4 id T Hsum) as
    (nbs & p5 & ms5 & fr5 & Hok & Hc5 & Hca5 & Hnum5 & Hev5 & Hr5).
  { intros x4 [i Hi]%list_elem_of_lookup_1. destruct (Hback i x4 Hi) as (x & l & Hx & Hl & [E _] & _ & (b0 & Hb0 & Hlb0) & _).
    pose proof (sp_mamba _ _ _ _ _ _ _ Hsp i x l Hx Hl) as Hm. unfold mamba_ok, block_size in *. rewrite E, Hb0.
    rewrite length_app, length_map, Hlb0. exact Hm. }
  assert (Hg : forall i x5, ms5 !! i = Some x5 -> exists x nb, managers m !! i = Some x /\ nbs !! i = Some nb /\
             same_group x x5 /\ others_kept id x x5 /\ granted id T bss i x nb x5).
  { intros i x5 Hi. destruct (related_back _ _ _ _ _ _ Hr5 Hi) as (x4 & nb & Hx4 & Hnb & [E1 E2] & Ho & Hnc & Hb & Hlen).
    destruct (Hback i x4 Hx4) as (x & l & Hx & Hl & [E3 E4] & Ho' & (b0 & Hb0 & Hlb0) & Hnc').
    exists x, nb. split; [done|]. split; [done|]. split; [split; congruence|]. split.
    { intros id' Hne. destruct (Ho id' Hne), (Ho' id' Hne). split; congruence. }
    exists b0, l. split; [done|]. split; [by rewrite Hb, Hb0, <-app_assoc|]. split; [done|]. split; [|by rewrite Hnc].
    unfold missing_blocks, block_size in *. rewrite Hb, Hb0, E3, length_app in *. rewrite length_app, length_map in *. lia. }
  assert (Hl5 : length ms5 = length (managers m)) by (destruct Hr5 as (_ & -> & _); lia).
  assert (He : evolves id (managers m) ms5).
  { apply Forall2_same_length_lookup_2; [done|]. intros i x x5 Hx Hx5. destruct (Hg i x5 Hx5) as (x0 & nb & Hx0 & _ & ? & ? & _).
    rewrite Hx in Hx0. injection Hx0 as <-. done. }
  set (c5 := with_state c4 p5 ms5). assert (Hk : known (with_coordinator m c5) id).
  { intros x5 [i Hi]%list_elem_of_lookup_1. destruct (Hg i x5 Hi) as (x & nb & Hx & _ & _ & _ & b0 & l & Hl & _ & _ & _ & Hnc).
    eexists. split; [exact Hnc|]. intros Hca. change (hashes_of_request (with_coordinator m c5) id) with (hashes_of_request m id).
    change (manager_caching (with_coordinator m c5)) with (manager_caching m) in Hca.
    assert (Hxin : x ∈ managers m) by (by eapply list_elem_of_lookup_2).
    destruct (proj2 (sp_prefix _ _ _ _ _ _ _ Hsp)) as [(Hkn & _)|[Hun Hnp]].
    - destruct (Hkn x Hxin) as (nc & E & Hh). fold id in E, Hh. rewrite E. by apply Hh.
    - destruct (Hun x Hxin) as [E _]. fold id in E. rewrite E. cbn. pose proof (np_hashes _ _ _ _ _ _ (Hnp i x l Hx Hl) Hca). fold id in H. lia. }
  exists nbs, c5, fr5. split; [unfold allocate_new_blocks; by rewrite Hok|]. split; [|split; [done|split; [done|split; [|split]]]].
  - eapply (kv_inv_step m fr (with_coordinator m c5) fr5 id Hinv); [exact Hc5|done| |done|done|exact He|by right|].
    + change (enable_caching p5 = enable_caching (pool_of m)). by rewrite Hca5, (sca_caching _ _ Hs4).
    + destruct (prefix_covers m fr id _ computed bss _ _ Hinv (sp_prefix _ _ _ _ _ _ _ Hsp) (proj2 (sp_nonneg _ _ _ _ _ _ _ Hsp)) Hprep Hl4 Hpx)
        as (t & Ht & Hcov). exists (Z.max t T). split; [lia|]. intros x5 [i Hi]%list_elem_of_lookup_1.
      destruct (related_back _ _ _ _ _ _ Hr5 Hi) as (x4 & nb & Hx4 & _ & [E1 _] & _ & _ & Hb & Hlen).
      apply list_elem_of_lookup_2 in Hx4. specialize (Hcov x4 Hx4).
      assert (Hbs : 0 < block_size x4) by (apply (kc_mgr _ _ _ _ Hc4 x4 Hx4)).
      assert (block_size x5 = block_size x4) as -> by (unfold block_size; by rewrite E1).
      rewrite Hb, length_app. unfold missing_blocks in Hlen. rewrite Hcov in Hlen.
      destruct (Z.le_ge_cases t T) as [H|H]; [rewrite Z.max_r by lia|rewrite Z.max_l by lia];
        pose proof (cdiv_mono _ _ (block_size x4) Hbs H); lia.
  - change (enable_kv_cache_events p5 = enable_kv_cache_events (pool_of m)). rewrite Hev5. apply Hs4.
  - destruct Hr5 as (-> & _). lia.
  - intros i x x5 Hx Hx5. destruct (Hg i x5 Hx5) as (x0 & nb & Hx0 & Hnb & _ & _ & Hgr). rewrite Hx in Hx0. injection Hx0 as <-.
    by exists nb.
Qed.

(** A state in which only skipped blocks are gone. *)
Lemma prepared_inv m fr id n c2 fr2 :
  kv_inv m fr -> kv_core (block_pool c2) (single_type_managers c2) fr2 [] -> same_cache (pool_of m) (block_pool c2) ->
  Forall2 (prepared id n) (managers m) (single_type_managers c2) -> kv_inv (with_coordinator m c2) fr2.
Proof.
  intros Hinv Hc Hs Hprep. eapply (kv_inv_step m fr (with_coordinator m c2) fr2 id Hinv); [exact Hc|done|apply Hs|done|done| | |].
  - eapply Forall2_impl; [exact Hprep|]. intros x x' (? & ? & _). done.
  - destruct (ki_known _ _ Hinv id) as [H|H]; [left|right]; intros x' [i Hi]%list_elem_of_lookup_1;
      destruct (Forall2_lookup_r _ _ _ _ _ Hprep Hi) as (x & Hx & _ & _ & Hnc & Hl & _); apply list_elem_of_lookup_2 in Hx.
    + destruct (H x Hx) as [E1 E2]. rewrite Hnc. split; [done|]. apply length_zero_iff_nil. by rewrite Hl, E2.
    + rewrite Hnc. by apply H.
  - destruct (ki_cover _ _ Hinv id) as (t & Ht & Hcov). exists t. split; [done|]. intros x' [i Hi]%list_elem_of_lookup_1.
    destruct (Forall2_lookup_r _ _ _ _ _ Hprep Hi) as (x & Hx & [Es _] & _ & _ & Hl & _). apply list_elem_of_lookup_2 in Hx.
    unfold block_size. rewrite Hl, Es. by apply Hcov.
Qed.

(** The commit at the end of [allocate_slots]. *)
Lemma commit_after m fr r new computed bss look c5 fr5 (nbs : list (list Ref)) :
  kv_inv m fr -> manager_caching m = true -> slots_pre m r new computed bss look false ->
  kv_inv (with_coordinator m c5) fr5 -> known (with_coordinator m c5) (request_id r) ->
  evolves (request_id r) (managers m) (single_type_managers c5) ->
  enable_kv_cache_events (block_pool c5) = enable_kv_cache_events (pool_of m) ->
  (forall i x x', managers m !! i = Some x -> single_type_managers c5 !! i = Some x' ->
     exists nb, nbs !! i = Some nb /\ granted (request_id r) (slot_tokens m r computed new look) bss i x nb x') ->
  exists m', commit_blocks hash_fn NONE_HASH (with_coordinator m c5) r (commit_tokens r computed new) = Ok m' /\
    kv_inv m' fr5 /\ known m' (request_id r) /\ evolves (request_id r) (single_type_managers c5) (managers m') /\
    forall i x x', single_type_managers c5 !! i = Some x -> managers m' !! i = Some x' ->
       blocks_of x' (request_id r) = blocks_of x (request_id r) /\
       num_cached_block x' !! request_id r = Some (commit_tokens r computed new / block_size x).
Proof.
  intros Hinv Hca Hsp Hinv5 Hk5 He5 Hev5 Hg.
  destruct (sp_commit _ _ _ _ _ _ _ Hsp Hca eq_refl) as (Hmm & Hmax & Hcn & Hlora & Hncs).
  destruct (sp_nonneg _ _ _ _ _ _ _ Hsp) as [Hn1 Hn2]. pose proof (sp_new _ _ _ _ _ _ _ Hsp). pose proof (sp_look _ _ _ _ _ _ _ Hsp).
  set (C := commit_tokens r computed new) in *. set (T := slot_tokens m r computed new look) in *.
  assert (HCT : C <= T) by (unfold C, T, commit_tokens, slot_tokens; lia).
  destruct (commit_ok (with_coordinator m c5) fr5 r C Hinv5 Hca Hk5 Hmm) as (m' & H1 & H2 & H3 & H4 & _ & H5).
  - unfold C, commit_tokens. lia.
  - change (enable_kv_cache_events (block_pool c5) = true -> lora_request r = None). by rewrite Hev5.
  - intros x5 nc [i Hi]%list_elem_of_lookup_1 Hnc5. destruct (Forall2_lookup_r _ _ _ _ _ He5 Hi) as (x & Hx & [Es _] & _).
    destruct (Hg i x x5 Hx Hi) as (nb & _ & b0 & l & Hl & _ & Hlb0 & Hlen & Hnc). rewrite Hnc in Hnc5. injection Hnc5 as <-.
    assert (Hxin : x ∈ managers m) by (by eapply list_elem_of_lookup_2).
    assert (Hbs : 0 < block_size x) by (apply (kc_mgr _ _ _ _ (ki_core _ _ Hinv) x Hxin)).
    replace (block_size x5) with (block_size x) by (unfold block_size; by rewrite Es).
    split.
    + destruct (proj2 (sp_prefix _ _ _ _ _ _ _ Hsp)) as [(Hkn & _)|[Hun Hnp]].
      * destruct (Hkn x Hxin) as (nc & E & _). rewrite E. by apply (Hncs x nc).
      * destruct (Hun x Hxin) as [E _]. rewrite E. cbn. pose proof (np_len _ _ _ _ _ _ (Hnp i x l Hx Hl)).
        apply Z.div_le_lower_bound; [done|]. unfold C, commit_tokens. lia.
    + pose proof (cdiv_spec T (block_size x) Hbs). pose proof (Z.mul_div_le C (block_size x) Hbs).
      assert (C / block_size x <= cdiv T (block_size x)) by nia. lia.
  - exists m'. done.
Qed.

(** The number of cached blocks after [allocate_slots]. *)
Definition cached_after (m : KVCacheManager) (r : Request) (new computed : Z) (delay : bool) (x x' : Manager) : Prop :=
  manager_caching m = true -> delay = false ->
  num_cached_block x' !! request_id r = Some (commit_tokens r computed new / block_size x).

Lemma allocate_slots_spec m fr r new computed bss look delay :
  kv_inv m fr -> slots_pre m r new computed bss look delay ->
  exists res m' fr', allocate_slots hash_fn NONE_HASH m r new computed (Some (map (map Blk) bss)) look delay = Ok (res, m') /\
    kv_inv m' fr' /\ evolves (request_id r) (managers m) (managers m') /\
    let T := slot_tokens m r computed new look in
    match res with
    | None => Z.of_nat (length fr') < demand (pool_of m') (request_id r) T (managers m') (map (map Blk) bss) /\
              Forall2 (prepared (request_id r) (num_computed_tokens r)) (managers m) (managers m')
    | Some nbs => known m' (request_id r) /\ length nbs = length (managers m) /\
        forall i x x', managers m !! i = Some x -> managers m' !! i = Some x' ->
          cached_after m r new computed delay x x' /\
          exists nb b0 l, nbs !! i = Some nb /\ bss !! i = Some l /\
            blocks_of x' (request_id r) = b0 ++ map Blk l ++ nb /\ length b0 = length (blocks_of x (request_id r)) /\
            Z.of_nat (length (blocks_of x' (request_id r)))
              = Z.max (Z.of_nat (length b0 + length l)) (cdiv T (block_size x))
    end.
Proof.
  intros Hinv Hsp. cbv zeta. set (id := request_id r). set (T := slot_tokens m r computed new look).
  pose proof (prefix_len _ _ _ _ (sp_prefix _ _ _ _ _ _ _ Hsp)) as Hlb.
  destruct (prepare_ok m fr Hinv id (num_computed_tokens r) T (map (map Blk) bss) (sp_skip _ _ _ _ _ _ _ Hsp))
    as (c1 & c2 & fr2 & Hrem & Hcount & Hc2 & Hs2 & Hprep); [by rewrite length_map|].
  unfold allocate_slots. pose proof (sp_new _ _ _ _ _ _ _ Hsp). destruct (Z.eqb_spec new 0); [lia|].
  fold id. rewrite Hrem. cbn [bind]. change (Z.min _ (manager_max_model_len m)) with T. rewrite Hcount. cbn [bind].
  unfold get_num_free_blocks. rewrite (fl_num _ _ (pi_queue _ _ _ (kc_pool _ _ _ _ Hc2))).
  destruct (Z.ltb_spec (Z.of_nat (length (fr ++ fr2))) (demand (block_pool c2) id T (single_type_managers c2) (map (map Blk) bss))) as [Hlt|Hge].
  - exists None, (with_coordinator m c2), (fr ++ fr2). split; [done|]. split; [by eapply prepared_inv|]. split; [|done].
    eapply Forall2_impl; [exact Hprep|]. intros x x' (? & ? & _). done.
  - destruct (take_prefix_ok m id (num_computed_tokens r) computed bss c2 _ (sp_prefix _ _ _ _ _ _ _ Hsp) Hc2 Hs2 Hprep)
      as (c3 & c4 & fr4 & Htouch & Hsave & Hc4 & Hs4 & Hfr4 & Hl4 & Hpx).
    rewrite Htouch. cbn [bind]. rewrite Hsave. cbn [bind].
    destruct (prefix_covers m fr id _ computed bss _ _ Hinv (sp_prefix _ _ _ _ _ _ _ Hsp) (proj2 (sp_nonneg _ _ _ _ _ _ _ Hsp)) Hprep Hl4 Hpx)
      as (t & Ht & Hcov).
    assert (Hbs : forall x, x ∈ single_type_managers c4 -> 0 < block_size x) by (intros x Hx; apply (kc_mgr _ _ _ _ Hc4 x Hx)).
    pose proof (missing_sum id _ T bss _ _ _ _ _ fr4 t Hprep Hlb Hl4 Hpx Hbs Hcov Ht Hge Hfr4) as Hsum.
    destruct (allocate_ok m fr r new computed bss look delay c2 c4 fr4 Hinv Hsp Hprep Hc4 Hs4 Hl4 Hpx Hsum)
      as (nbs & c5 & fr5 & Hal & Hinv5 & Hk5 & He5 & Hev5 & Hln & Hg). fold id T in Hal. rewrite Hal. cbn [bind].
    change (manager_caching (with_coordinator m c5)) with (manager_caching m).
    destruct (manager_caching m) eqn:Eca; [destruct delay eqn:Ed|]; cbn [negb orb].
    1, 3: exists (Some nbs), (with_coordinator m c5), fr5; split; [reflexivity|]; split; [exact Hinv5|]; split; [exact He5|]; split; [exact Hk5|]; split; [exact Hln|];
          intros i x x' Hx Hx'; destruct (Hg i x x' Hx Hx') as (nb & Hnb & b0 & l & Hl & Hb & Hlb0 & Hlen & Hnc);
          split; [unfold cached_after; congruence|by exists nb, b0, l].
    destruct (commit_after m fr r new computed bss look c5 fr5 nbs) as (m' & Hcm & Hinv' & Hk' & He' & Hb'); try done.
    unfold commit_tokens in Hcm. rewrite Hcm. cbn [bind]. exists (Some nbs), m', fr5. split; [done|]. split; [done|]. split; [by etransitivity|].
    split; [done|]. split; [done|]. intros i x x' Hx Hx'.
    destruct (Forall2_lookup_l _ _ _ _ _ He5 Hx) as (x5 & Hx5 & [Es _] & _).
    destruct (Hb' i x5 x' Hx5 Hx') as [Hbl Hnc']. destruct (Hg i x x5 Hx Hx5) as (nb & Hnb & b0 & l & Hl & Hb & Hlb0 & Hlen & Hnc).
    split; [unfold cached_after, block_size in *; by rewrite <-Es|]. exists nb, b0, l. unfold id. rewrite Hbl. done.
Qed.

End main.
