(* ===== verification/KVLookup.v ===== *)
(** * Construction and prefix lookup of the KV cache manager

    The manager that [make_kv_cache_manager] builds is consistent, and the prefix
    that [get_computed_blocks] finds is one that [allocate_slots] accepts, for the
    unitary and the hybrid coordinator. *)

From stdpp Require Import base functions gmap strings list sorting.
From Stdlib Require Import ZArith Lia.
From S2P Require Import Prelude FreeQueue Request BlockHash BlockPool KVCacheInterface SingleType PrefixLookup.
From S2P Require Import KVCoordinator CoordinatorInv CoordinatorOk KVCacheManager KVManagerOk.
Open Scope list_scope.
Open Scope Z_scope.

(** ** Splitting the groups *)

(** What the loop of [verify_and_split_kv_cache_groups] has added when it visited
    [groups] from id [i]. *)
Record split_state (i : Z) (groups : list KVCacheGroupSpec) (full other full' other' : option KVCacheSpec)
    (a b : list Z) : Prop := {
  ss_perm : a ++ b ≡ₚ seqZ i (Z.of_nat (length groups));
  ss_full_sorted : StronglySorted Z.le a;
  ss_other_sorted : StronglySorted Z.le b;
  ss_full : forall j, j ∈ a -> exists g, groups !! Z.to_nat (j - i) = Some g /\ full' = Some (group_spec g) /\ is_full (group_spec g) = true;
  ss_other : forall j, j ∈ b -> exists g, groups !! Z.to_nat (j - i) = Some g /\ other' = Some (group_spec g) /\ is_full (group_spec g) = false;
  ss_keep_full : forall s, full = Some s -> full' = Some s;
  ss_keep_other : forall s, other = Some s -> other' = Some s;
  ss_empty_full : a = [] -> full' = full;
  ss_empty_other : b = [] -> other' = other }.

Lemma seq_bounds i n a b j : a ++ b ≡ₚ seqZ i n -> j ∈ a \/ j ∈ b -> i <= j < i + n.
Proof. intros H Hj. apply elem_of_seqZ. rewrite <-H. by apply elem_of_app. Qed.

Lemma split_groups_ok i groups full other fids oids full' other' fids' oids' :
  split_groups i groups full other fids oids = Ok (full', other', fids', oids') ->
  exists a b, fids' = fids ++ a /\ oids' = oids ++ b /\ split_state i groups full other full' other' a b.
Proof.
  revert i full other fids oids. induction groups as [|g groups IH]; intros i full other fids oids; cbn [split_groups].
  { intros [= <- <- <- <-]. exists [], []. rewrite !app_nil_r. split; [done|]. split; [done|]. split; try done; try constructor; by intros j ?%elem_of_nil. }
  assert (Hshift : forall j, i + 1 <= j -> (g :: groups) !! Z.to_nat (j - i) = groups !! Z.to_nat (j - (i + 1))).
  { intros j Hj. by replace (Z.to_nat (j - i)) with (S (Z.to_nat (j - (i + 1)))) by lia. }
  assert (Hseq : seqZ i (Z.of_nat (length (g :: groups))) = i :: seqZ (i + 1) (Z.of_nat (length groups))).
  { cbn [length]. rewrite seqZ_cons by lia. f_equal. f_equal; lia. }
  destruct (is_full (group_spec g)) eqn:Ef.
  - destruct (match full with None => _ | Some f => _ end) eqn:Ea; [cbn [py_assert bind]|done]. intros H.
    destruct (IH _ _ _ _ _ H) as (a & b & -> & -> & [P1 P2 P3 P4 P5 P6 P7 P8 P9]).
    assert (Hfull' : full' = Some (group_spec g)).
    { destruct full as [f|]; cbn in *; [apply bool_decide_eq_true in Ea as ->|]; by apply P6. }
    exists (i :: a), b. rewrite <-app_assoc. split; [done|]. split; [done|]. split; try done.
    + rewrite Hseq. cbn. by rewrite P1.
    + constructor; [done|]. apply Forall_forall. intros j Hj. pose proof (seq_bounds _ _ _ _ j P1 (or_introl Hj)). lia.
    + intros j [->|Hj]%elem_of_cons; [exists g; by rewrite Z.sub_diag|].
      rewrite Hshift by (pose proof (seq_bounds _ _ _ _ j P1 (or_introl Hj)); lia). by apply P4.
    + intros j Hj. rewrite Hshift by (pose proof (seq_bounds _ _ _ _ j P1 (or_intror Hj)); lia). by apply P5.
    + intros s ->. cbn in Ea. apply bool_decide_eq_true in Ea as ->. done.
  - destruct (match other with None => _ | Some o => _ end) eqn:Ea; [cbn [py_assert bind]|done]. intros H.
    destruct (IH _ _ _ _ _ H) as (a & b & -> & -> & [P1 P2 P3 P4 P5 P6 P7 P8 P9]).
    assert (Hother' : other' = Some (group_spec g)).
    { destruct other as [o|]; cbn in *; [apply bool_decide_eq_true in Ea as ->|]; by apply P7. }
    exists a, (i :: b). rewrite <-app_assoc. split; [done|]. split; [done|]. split; try done.
    + rewrite Hseq, <-P1. by rewrite Permutation_middle.
    + constructor; [done|]. apply Forall_forall. intros j Hj. pose proof (seq_bounds _ _ _ _ j P1 (or_intror Hj)). lia.
    + intros j Hj. rewrite Hshift by (pose proof (seq_bounds _ _ _ _ j P1 (or_introl Hj)); lia). by apply P4.
    + intros j [->|Hj]%elem_of_cons; [exists g; by rewrite Z.sub_diag|].
      rewrite Hshift by (pose proof (seq_bounds _ _ _ _ j P1 (or_intror Hj)); lia). by apply P5.
    + intros s ->. cbn in Ea. apply bool_decide_eq_true in Ea as ->. done.
Qed.

Lemma seqZ_sorted i n : StronglySorted Z.le (seqZ i n).
Proof.
  destruct (Z.le_gt_cases n 0) as [H|H]; [rewrite seqZ_nil by done; constructor|].
  rewrite <-(Z2Nat.id n) by lia. clear H. generalize (Z.to_nat n) as k. clear n. intros k. revert i. induction k as [|k IH]; intros i.
  - rewrite seqZ_nil by lia. constructor.
  - rewrite seqZ_cons by lia. replace (Z.pred (Z.of_nat (S k))) with (Z.of_nat k) by lia. constructor; [apply IH|].
    apply Forall_seqZ. lia.
Qed.

(** The order of the two kinds of groups makes the joined ids the ids of all groups. *)
Lemma split_order i n a b :
  a ++ b ≡ₚ seqZ i n -> StronglySorted Z.le a -> StronglySorted Z.le b -> (forall x y, x ∈ a -> y ∈ b -> x <= y) ->
  a ++ b = seqZ i n.
Proof.
  intros Hp Ha Hb Hab. apply (StronglySorted_unique Z.le); [|apply seqZ_sorted|done]. by apply StronglySorted_app_2.
Qed.

(** ** Coordinators that fit their managers *)

Inductive kind_ok (ms : list Manager) : CoordinatorKind -> Prop :=
| kind_none : kind_ok ms (NoPrefixCache (length ms))
| kind_unitary x : ms = [x] -> kind_ok ms (Unitary (kv_cache_spec x))
| kind_hybrid fids oids fs os (first : bool) :
    (if first then fids ++ oids else oids ++ fids) = seqZ 0 (Z.of_nat (length ms)) -> fids <> [] -> oids <> [] ->
    is_full fs = true -> is_full os = false -> (spec_block_size os) mod (spec_block_size fs) = 0 ->
    (forall i x, ms !! i = Some x -> (Z.of_nat i ∈ fids -> kv_cache_spec x = fs) /\ (Z.of_nat i ∈ oids -> kv_cache_spec x = os)) ->
    kind_ok ms (Hybrid fids oids fs os first).

Lemma split_kind_ok groups k :
  verify_and_split_kv_cache_groups true groups = Ok k -> kind_ok (make_managers groups) k.
Proof.
  unfold verify_and_split_kv_cache_groups. destruct (split_groups 0 groups None None [] []) as [[[[full other] fids] oids]|e] eqn:Es; [|done].
  cbn [bind]. destruct (split_groups_ok _ _ _ _ _ _ _ _ _ _ Es) as (a & b & -> & -> & [P1 P2 P3 P4 P5 _ _ P8 P9]). cbn [app].
  destruct full as [fs|]; [|done]. destruct other as [os|]; [|done]. cbn [of_option bind].
  assert (Ha : a <> []) by (intros E; by specialize (P8 E)). assert (Hb : b <> []) by (intros E; by specialize (P9 E)).
  destruct (py_mod _ _) as [r|] eqn:Er; [|done]. cbn [bind]. destruct (Z.eqb_spec r 0) as [->|]; [cbn [py_assert bind]|done].
  assert (Hmod : spec_block_size os mod spec_block_size fs = 0).
  { unfold py_mod in Er. destruct (_ =? 0); [done|]. by injection Er. }
  assert (Hfs : is_full fs = true).
  { destruct a as [|j a]; [done|]. destruct (P4 j ltac:(left)) as (g & _ & [= ->] & ?). done. }
  assert (Hos : is_full os = false).
  { destruct b as [|j b]; [done|]. destruct (P5 j ltac:(left)) as (g & _ & [= ->] & ?). done. }
  assert (Hlen : length (make_managers groups) = length groups) by apply length_imap.
  assert (Hspec : forall i x, make_managers groups !! i = Some x ->
            (Z.of_nat i ∈ a -> kv_cache_spec x = fs) /\ (Z.of_nat i ∈ b -> kv_cache_spec x = os)).
  { intros i x Hx. unfold make_managers in Hx. rewrite list_lookup_imap in Hx. apply fmap_Some in Hx as (g & Hg & ->).
    split; intros Hin; [destruct (P4 _ Hin) as (g' & Hg' & [= ->] & _)|destruct (P5 _ Hin) as (g' & Hg' & [= ->] & _)];
      rewrite Z.sub_0_r, Nat2Z.id, Hg in Hg'; by injection Hg' as ->. }
  rewrite <-Hlen in P1.
  destruct (py_max a) as [ma|] eqn:Ema; [|done]. cbn [bind]. destruct (py_min b) as [mb|] eqn:Emb; [|done]. cbn [bind].
  destruct (Z.ltb_spec ma mb) as [Hlt|_].
  - intros [= <-]. apply kind_hybrid; try done. apply split_order; try done. intros x y Hx Hy.
    pose proof (proj2 (py_max_ok _ _ Ema) x Hx). pose proof (proj2 (py_min_ok _ _ Emb) y Hy). lia.
  - destruct (py_max b) as [mb'|] eqn:Emb'; [|done]. cbn [bind]. destruct (py_min a) as [ma'|] eqn:Ema'; [|done]. cbn [bind].
    destruct (Z.ltb_spec mb' ma') as [Hlt|_]; [|done]. intros [= <-]. apply kind_hybrid; try done.
    apply split_order; try done; [by rewrite Permutation_app_comm|]. intros x y Hx Hy.
    pose proof (proj2 (py_max_ok _ _ Emb') x Hx). pose proof (proj2 (py_min_ok _ _ Ema') y Hy). lia.
Qed.

(** ** The lookup of the coordinator *)

(** The prefix of group [i]: null or cached blocks, the last one cached. *)
Record group_prefix (p : BlockPool) (hashes : list BlockHash) (computed : Z) (i : nat) (x : Manager) (bl : list Ref) : Prop := {
  gp_len : Z.of_nat (length bl) * block_size x = computed;
  gp_hit : forall j b, bl !! j = Some b -> b = null_block p \/ hit_at p (Z.of_nat i) hashes j b;
  gp_last : forall j b, S j = length bl -> bl !! j = Some b -> hit_at p (Z.of_nat i) hashes j b;
  gp_hashes : (length bl <= length hashes)%nat }.
Definition prefix_for (p : BlockPool) (hashes : list BlockHash) (computed : Z) (ms : list Manager) (g : Z) (bl : list Ref) : Prop :=
  forall x, ms !! Z.to_nat g = Some x -> group_prefix p hashes computed (Z.to_nat g) x bl.

Definition ends_cached (s : KVCacheSpec) : Prop := match s with ChunkedLocalAttentionSpec _ _ _ => False | _ => True end.
(** The hashes and the length that the lookup expects. *)
Definition lookup_ready (c : KVCacheCoordinator) (hashes : list BlockHash) (max_length : Z) : Prop :=
  match kind c with
  | NoPrefixCache _ => True
  | Unitary s => lookup_pre hashes max_length s (use_eagle c) /\ ends_cached s
  | Hybrid _ _ fs os _ => lookup_pre hashes max_length fs (use_eagle c) /\ lookup_pre hashes max_length os (use_eagle c) /\ ends_cached os
  end.

Lemma lookup_pre_mono hashes l l' s eagle :
  0 <= l' <= l -> lookup_pre hashes l s eagle -> lookup_pre hashes l' s eagle.
Proof.
  intros Hl (Hbs & Hml & Hs). split; [done|]. split; [lia|].
  pose proof (Z.div_le_mono l' l _ Hbs (proj2 Hl)) as Hd. destruct s; cbn in *; try done.
  - destruct Hs as (? & ? & ?). split; [done|]. split; [done|lia].
  - destruct Hs as (? & ?). split; [done|lia].
Qed.

Lemma prefix_of_exact p gids hashes k comp ms computed :
  lookup_exact p gids hashes k comp -> gids <> [] -> (forall g, g ∈ gids -> 0 <= g) ->
  (forall g x, g ∈ gids -> ms !! Z.to_nat g = Some x -> Z.of_nat k * block_size x = computed) ->
  Forall2 (prefix_for p hashes computed ms) gids comp.
Proof.
  intros He Hg Hpos Hlen. pose proof (exact_length p gids Hg hashes k comp He) as Hk. destruct He as [Hs He].
  apply Forall2_same_length_lookup_2; [by eapply Forall2_length|]. intros i g bl Hi Hbl x Hx.
  destruct (Forall2_lookup_lr _ _ _ _ _ _ Hs Hi Hbl) as [Hl Hb]. pose proof (Forall2_lookup_lr _ _ _ _ _ _ He Hi Hbl) as Hlast.
  assert (Hin : g ∈ gids) by (by eapply list_elem_of_lookup_2). specialize (Hpos g Hin).
  split; rewrite ?Z2Nat.id by done; [rewrite Hl; by apply (Hlen g)|done|rewrite Hl; done|lia].
Qed.

Lemma prefixes_lookup p hashes computed ms n comp i x bl :
  Forall2 (prefix_for p hashes computed ms) (seqZ 0 n) comp -> ms !! i = Some x -> comp !! i = Some bl ->
  group_prefix p hashes computed i x bl.
Proof.
  intros H Hx Hbl. destruct (Forall2_lookup_r _ _ _ _ _ H Hbl) as (g & Hg & Hp). apply lookup_seqZ in Hg as [-> _].
  unfold prefix_for in Hp. rewrite Z.add_0_l, Nat2Z.id in Hp. by apply Hp.
Qed.

Section lookup.
Context (p : BlockPool) (fr held : list nat) (Hinv : pool_inv p fr held) (ms : list Manager) (hashes : list BlockHash).

Lemma hybrid_lookup_ok fids oids fs os (first : bool) eagle max_length :
  kind_ok ms (Hybrid fids oids fs os first) -> lookup_pre hashes max_length fs eagle -> lookup_pre hashes max_length os eagle ->
  ends_cached os ->
  exists comp computed, hybrid_find_longest_cache_hit p eagle fids oids fs os first hashes max_length = Ok (comp, computed) /\
    Forall2 (prefix_for p hashes computed ms) (seqZ 0 (Z.of_nat (length ms))) comp /\ 0 <= computed <= max_length.
Proof.
  intros Hk Hpf Hpo He. inversion Hk as [| |f o s1 s2 fst0 Hids Hf Ho Hfull Hother Hmod Hspec]; subst. destruct Hpf as (Hbf & Hml & _).
  pose proof Hpo as (Hbo & _ & _).
  assert (Hpos : forall g, g ∈ fids \/ g ∈ oids -> 0 <= g).
  { intros g Hg. assert (Hin : g ∈ seqZ 0 (Z.of_nat (length ms))) by (rewrite <-Hids; destruct first; apply elem_of_app; tauto).
    apply elem_of_seqZ in Hin. lia. }
  assert (Hsp : forall g x, ms !! Z.to_nat g = Some x -> (g ∈ fids -> kv_cache_spec x = fs) /\ (g ∈ oids -> kv_cache_spec x = os)).
  { intros g x Hx. split; intros Hg; (specialize (Hspec _ _ Hx); rewrite Z2Nat.id in Hspec by (apply Hpos; tauto)); by apply Hspec. }
  unfold hybrid_find_longest_cache_hit.
  destruct (full_hits p fr held Hinv fids Hf hashes max_length fs eagle Hbf Hml) as (cf & kf & -> & Hhits & Hkf); [by destruct fs|].
  cbn [bind]. destruct fids as [|g0 fids']; [done|]. set (fids := g0 :: fids') in *.
  destruct cf as [|c0 cf']; [by apply Forall2_nil_inv_r in Hhits|]. set (cf := c0 :: cf') in *.
  assert (Hl0 : length c0 = kf) by (apply Forall2_cons in Hhits as [[? _] _]; done).
  cbn [list_lookup lookup of_option bind cf]. fold cf. rewrite Hl0.
  assert (Hkb : Z.of_nat kf * spec_block_size fs <= max_length).
  { pose proof (Z.mul_div_le max_length _ Hbf). nia. }
  destruct (find_longest_cache_hit_exact p fr held oids hashes (Z.of_nat kf * spec_block_size fs) os eagle Hinv Ho) as
    (co & ko & -> & Hexo & Hko); [eapply lookup_pre_mono; [|exact Hpo]; nia|done|].
  cbn [bind]. destruct oids as [|o0 oids']; [done|]. set (oids := o0 :: oids') in *.
  destruct co as [|d0 co']; [destruct Hexo as [Hx _]; by apply Forall2_nil_inv_r in Hx|]. set (co := d0 :: co') in *.
  assert (Hl1 : length d0 = ko) by (destruct Hexo as [Hx _]; apply Forall2_cons in Hx as [[? _] _]; done).
  cbn [list_lookup lookup of_option bind co]. fold co. rewrite Hl1. unfold py_mod, py_div.
  destruct (Z.eqb_spec (spec_block_size fs) 0); [lia|]. cbn [bind].
  apply Z.mod_divide in Hmod as [q Hq]; [|done].
  assert (Hdiv : Z.of_nat ko * spec_block_size os = Z.of_nat ko * q * spec_block_size fs) by (rewrite Hq; ring).
  rewrite Hdiv, Z.mod_mul, Z.div_mul by done. cbn [Z.eqb py_assert bind].
  eexists _, _. split; [reflexivity|]. rewrite <-Hdiv.
  assert (Hkk : Z.of_nat ko * spec_block_size os <= Z.of_nat kf * spec_block_size fs).
  { pose proof (Z.mul_div_le (Z.of_nat kf * spec_block_size fs) _ Hbo). nia. }
  assert (Hq0 : 0 < q) by nia. assert (Hn : 0 <= Z.of_nat ko * q <= Z.of_nat kf) by nia.
  assert (HF : Forall2 (prefix_for p hashes (Z.of_nat ko * spec_block_size os) ms) fids (map (take (Z.to_nat (Z.of_nat ko * q))) cf)).
  { apply (prefix_of_exact p fids hashes (Nat.min (Z.to_nat (Z.of_nat ko * q)) kf)); [by apply hits_exact, hits_take|done|intros g Hg; apply Hpos; tauto|].
    intros g x Hg Hx. unfold block_size. rewrite (proj1 (Hsp g x Hx) Hg), Hdiv. rewrite Nat.min_l by lia. lia. }
  assert (HO : Forall2 (prefix_for p hashes (Z.of_nat ko * spec_block_size os) ms) oids co).
  { apply (prefix_of_exact p oids hashes ko); [done|done|intros g Hg; apply Hpos; tauto|].
    intros g x Hg Hx. unfold block_size. by rewrite (proj2 (Hsp g x Hx) Hg). }
  split; [|nia]. rewrite <-Hids. destruct first; by apply Forall2_app.
Qed.
End lookup.

Lemma coordinator_lookup_ok c fr held hashes max_length :
  pool_inv (block_pool c) fr held -> kind_ok (single_type_managers c) (kind c) -> lookup_ready c hashes max_length -> 0 <= max_length ->
  exists comp computed, find_longest_cache_hit c hashes max_length = Ok (comp, computed) /\
    Forall2 (prefix_for (block_pool c) hashes computed (single_type_managers c))
            (seqZ 0 (Z.of_nat (length (single_type_managers c)))) comp /\ 0 <= computed <= max_length.
Proof.
  intros Hinv Hk Hr Hml. unfold find_longest_cache_hit, lookup_ready in *. destruct (kind c) as [n|s|fids oids fs os first] eqn:Ek.
  - inversion Hk; subst. eexists _, 0. split; [reflexivity|]. split; [|lia].
    apply Forall2_same_length_lookup_2; [rewrite length_seqZ, repeat_length; lia|].
    intros i g bl _ Hbl x Hx. apply list_elem_of_lookup_2, list_elem_of_In, repeat_spec in Hbl as ->.
    split; cbn; [done|intros j b; by rewrite lookup_nil|done|lia].
  - destruct Hr as [Hp He]. inversion Hk as [|x Hms Hsp|]; subst.
    destruct (find_longest_cache_hit_exact (block_pool c) fr held [0] hashes max_length _ (use_eagle c) Hinv ltac:(done) Hp He)
      as (co & k & -> & Hex & Hle). cbn [bind].
    pose proof Hp as (Hbs & _). pose proof (Z.mul_div_le max_length _ Hbs).
    destruct co as [|d0 co']; [destruct Hex as [Hx _]; by apply Forall2_nil_inv_r in Hx|].
    assert (Hl1 : length d0 = k) by (destruct Hex as [Hx _]; apply Forall2_cons in Hx as [[? _] _]; done).
    cbn [lookup list_lookup of_option bind]. rewrite Hl1. eexists _, _. split; [reflexivity|]. split; [|nia].
    rewrite Hms. change (seqZ 0 (Z.of_nat (length [x]))) with [0]. apply (prefix_of_exact _ _ _ k); [done|done| |].
    + intros g ->%list_elem_of_singleton. done.
    + intros g x' ->%list_elem_of_singleton [= <-]. done.
  - destruct Hr as (Hf & Ho & He). by eapply hybrid_lookup_ok.
Qed.

(** ** The lookup of the manager *)

Lemma all_blocks (bl : list Ref) : (forall b, b ∈ bl -> exists n, b = Blk n) -> exists l, bl = map Blk l.
Proof.
  induction bl as [|b bl IH]; intros H; [by exists []|]. destruct (H b ltac:(left)) as [n ->].
  destruct IH as [l ->]; [intros b' ?; apply H; by right|]. by exists (n :: l).
Qed.

Lemma prefix_refs p fr held hashes computed ms gids comp :
  pool_inv p fr held -> (forall g, g ∈ gids -> is_Some (ms !! Z.to_nat g)) ->
  Forall2 (prefix_for p hashes computed ms) gids comp -> exists bss, comp = map (map Blk) bss.
Proof.
  intros Hinv Hms H. induction H as [|g bl gids comp Hp _ IH]; [by exists []|].
  destruct IH as [bss ->]; [intros g' ?; apply Hms; by right|]. destruct (Hms g ltac:(left)) as [x Hx]. specialize (Hp x Hx).
  destruct (all_blocks bl) as [l ->]; [|by exists (l :: bss)].
  intros b [j Hj]%list_elem_of_lookup_1. destruct (gp_hit _ _ _ _ _ _ Hp j b Hj) as [->|(h & _ & Hb)].
  - exists 0%nat. apply (pi_null _ _ _ Hinv).
  - destruct (ci_real _ _ _ (pi_cache _ _ _ Hinv) _ _ Hb) as (n & -> & _). by exists n.
Qed.

Lemma group_new_prefix m fr held id computed i x l :
  pool_inv (pool_of m) fr held -> NoDup (hashes_of_request m id) -> (manager_caching m = false -> l = []) ->
  group_prefix (pool_of m) (hashes_of_request m id) computed i x (map Blk l) ->
  new_prefix m id computed i x l.
Proof.
  intros Hinv Hnd Hca [G1 G2 G3 G4]. rewrite length_map in *.
  assert (Hreal : forall h n g, block_hash (pool_of m) (Blk n) = Some {| block_hash_of := h; group_id := g |} -> 0 < Z.of_nat n < num_gpu_blocks (pool_of m)).
  { intros h n g Hb. by destruct (ci_real _ _ _ (pi_cache _ _ _ Hinv) _ _ Hb) as (? & [= <-] & ?). }
  assert (Hat : forall j n, l !! j = Some n -> n = 0%nat \/ (0 < n)%nat /\ hit_at (pool_of m) (Z.of_nat i) (hashes_of_request m id) j (Blk n)).
  { intros j n Hj. destruct (G2 j (Blk n)) as [Hn|Hh]; [by rewrite list_lookup_fmap, Hj| |].
    - rewrite (pi_null _ _ _ Hinv) in Hn. injection Hn as ->. by left.
    - right. split; [|done]. destruct Hh as (h & _ & Hb). specialize (Hreal _ _ _ Hb). lia. }
  split.
  - exists l. split; [done|]. split.
    + intros n [j Hj]%list_elem_of_lookup_1. pose proof (pi_num _ _ _ Hinv).
      destruct (Hat j n Hj) as [->|[_ (h & _ & Hb)]]; [lia|]. specialize (Hreal _ _ _ Hb). lia.
    + clear G1 G3 G4. assert (Hat' : forall j n, l !! j = Some n -> n = 0%nat \/ exists h, hashes_of_request m id !! j = Some h /\
             block_hash (pool_of m) (Blk n) = Some {| block_hash_of := h; group_id := Z.of_nat i |}).
      { intros j n Hj. destruct (Hat j n Hj) as [?|[_ ?]]; [by left|by right]. }
      clear Hat G2. revert Hat' Hnd. generalize (hashes_of_request m id) as hs. clear Hca. induction l as [|n l IH]; intros hs Hat Hnd; [constructor|].
      assert (Htl : NoDup (real l)).
      { destruct hs as [|h0 hs].
        - apply (IH []); [|constructor]. intros j n' Hj. destruct (Hat (S j) n' Hj) as [?|(h & Hh & _)]; [by left|done].
        - apply NoDup_cons in Hnd as [_ Hnd]. apply (IH hs); [|done]. intros j n' Hj. exact (Hat (S j) n' Hj). }
      unfold real in *. cbn [List.filter]. destruct (Nat.eqb_spec n 0) as [->|Hn]; cbn [negb]; [done|]. constructor; [|done].
      intros Hin%list_elem_of_In%filter_In. destruct Hin as [Hin _]. apply list_elem_of_In, list_elem_of_lookup_1 in Hin as [j Hj].
      destruct (Hat 0%nat n eq_refl) as [?|(h & Hh & Hb)]; [done|]. destruct (Hat (S j) n Hj) as [?|(h' & Hh' & Hb')]; [done|].
      rewrite Hb in Hb'. injection Hb' as <-. by pose proof (NoDup_lookup _ _ _ _ Hnd Hh Hh').
  - done.
  - intros n [[j Hj]%list_elem_of_lookup_1 Hpos]%elem_of_real. destruct (Hat j n Hj) as [->|[_ (h & _ & Hb)]]; [done|by exists h].
  - intros n Hn. rewrite last_lookup in Hn. destruct l as [|a l'] eqn:El; [done|]. rewrite <-El in *.
    destruct (G3 (Nat.pred (length l)) (Blk n)) as (h & _ & Hb); [subst l; done|by rewrite list_lookup_fmap, Hn|].
    specialize (Hreal _ _ _ Hb). lia.
  - done.
  - done.
Qed.

Section computed.
Context (hash_fn : Z * list Z * option (list ExtraKey) -> Z) (NONE_HASH : Z).

(** The hashes that the lookup uses: the recorded ones, or those of the tokens. *)
Definition request_hashes (m : KVCacheManager) (r : Request) : res (list BlockHash) :=
  match hashes_of_request m (request_id r) with
  | [] => let! bs := of_option AssertionError (manager_block_size m) in hash_request_tokens hash_fn NONE_HASH bs r
  | h => Ok h
  end.

Lemma record_lookup_ok m q h :
  (log_stats m = true -> is_Some (prefix_cache_stats m)) ->
  exists s, record_lookup m q h = Ok (with_stats m s).
Proof.
  intros Hs. unfold record_lookup. destruct (log_stats m) eqn:E.
  - destruct (Hs eq_refl) as [s ->]. cbn [of_option bind]. eauto.
  - exists (prefix_cache_stats m). destruct m; cbn in *; by subst.
Qed.

Lemma empty_prefix_ok m fr id :
  kv_inv m fr -> unknown (managers m) id -> prefix_pre m id 0 (repeat [] (num_kv_cache_groups m)).
Proof.
  intros Hinv Hu. split; [by rewrite repeat_length, (ki_groups _ _ Hinv)|]. right. split; [done|]. intros i x l Hx Hl.
  apply list_elem_of_lookup_2, list_elem_of_In, repeat_spec in Hl as ->. split; cbn; try done; [|by intros n ?%elem_of_nil|lia].
  exists []. split; [done|]. split; [by intros n ?%elem_of_nil|constructor].
Qed.

Lemma seqZ_managers (ms : list Manager) g : g ∈ seqZ 0 (Z.of_nat (length ms)) -> is_Some (ms !! Z.to_nat g).
Proof. intros Hg%elem_of_seqZ. apply lookup_lt_is_Some_2. lia. Qed.

(** Recording hashes for a request that has no blocks. *)
Lemma kv_inv_hashes m fr id hs : kv_inv m fr -> unknown (managers m) id -> kv_inv (set_hashes m id hs) fr.
Proof.
  intros Hinv Hu. apply (kv_inv_step m fr _ fr id Hinv); [apply Hinv|done|done|done| |reflexivity|by left|apply Hinv].
  intros id' Hne. unfold hashes_of_request. cbn. by rewrite lookup_insert_ne.
Qed.
Lemma kv_inv_stats m fr s : kv_inv m fr -> kv_inv (with_stats m s) fr.
Proof. by intros [? ? ? ? ?]. Qed.

Lemma computed_blocks_spec m fr r hs :
  kv_inv m fr -> kind_ok (managers m) (kind (coordinator m)) -> unknown (managers m) (request_id r) ->
  (log_stats m = true -> is_Some (prefix_cache_stats m)) -> 1 <= num_tokens r ->
  (manager_caching m = true -> request_hashes m r = Ok hs /\ NoDup hs /\ lookup_ready (coordinator m) hs (num_tokens r - 1)) ->
  exists bss computed m', get_computed_blocks hash_fn NONE_HASH m r = Ok (map (map Blk) bss, computed, m') /\
    kv_inv m' fr /\ coordinator m' = coordinator m /\ prefix_pre m' (request_id r) computed bss /\
    0 <= computed <= num_tokens r - 1 /\
    (forall id, id <> request_id r -> hashes_of_request m' id = hashes_of_request m id) /\
    (hashes_of_request m' (request_id r) = hs \/ m' = m /\ forall l, l ∈ bss -> l = []) /\
    (forall i l j n, bss !! i = Some l -> l !! j = Some n -> S j = length l ->
       hit_at (pool_of m') (Z.of_nat i) (hashes_of_request m' (request_id r)) j (Blk n)).
Proof.
  intros Hinv Hk Hu Hst Htok Hca. set (id := request_id r) in *. unfold get_computed_blocks.
  set (wants := match sampling_params r with Some _ => _ | None => _ end).
  destruct (manager_caching m) eqn:Eca; [destruct wants|]; cbn [negb orb].
  1, 3: exists (repeat [] (num_kv_cache_groups m)), 0, m; split; [unfold create_empty_block_list; by rewrite map_repeat|];
    split; [done|]; split; [done|]; split; [by eapply empty_prefix_ok|]; split; [lia|]; split; [done|];
    split; [right; split; [done|]; intros l Hl; apply list_elem_of_In in Hl; by apply repeat_spec in Hl|];
    intros i l j n Hl Hj; apply list_elem_of_lookup_2, list_elem_of_In, repeat_spec in Hl as ->; by rewrite lookup_nil in Hj.
  destruct (Hca eq_refl) as (Hhs & Hnd & Hready). fold id. unfold request_hashes in Hhs. fold id in Hhs.
  set (m1 := set_hashes m id (hashes_of_request m id)).
  assert (Hh1 : hashes_of_request m1 id = hashes_of_request m id) by (unfold hashes_of_request; cbn; by rewrite lookup_insert_eq).
  rewrite Hh1. assert (Hpair : exists m2, (match hashes_of_request m id with
      | [] => let! bs := of_option AssertionError (manager_block_size m1) in
              let! h := hash_request_tokens hash_fn NONE_HASH bs r in Ok (h, set_hashes m1 id h)
      | h => Ok (h, m1) end) = Ok (hs, m2) /\ kv_inv m2 fr /\ coordinator m2 = coordinator m /\ hashes_of_request m2 id = hs /\
      (forall id', id' <> id -> hashes_of_request m2 id' = hashes_of_request m id') /\ manager_caching m2 = true /\
      log_stats m2 = log_stats m /\ prefix_cache_stats m2 = prefix_cache_stats m).
  { assert (Hset : forall m0 h, coordinator m0 = coordinator m -> kv_inv m0 fr -> kv_inv (set_hashes m0 id h) fr).
    { intros m0 h E H0. apply kv_inv_hashes; [done|]. unfold managers. by rewrite E. }
    assert (H1 : kv_inv m1 fr) by (by apply Hset).
    assert (Hothers : forall m0 h id', id' <> id -> hashes_of_request (set_hashes m0 id h) id' = hashes_of_request m0 id').
    { intros m0 h id' Hne. unfold hashes_of_request. cbn. by rewrite lookup_insert_ne. }
    destruct (hashes_of_request m id) as [|h0 h] eqn:Eh.
    - change (manager_block_size m1) with (manager_block_size m). destruct (manager_block_size m) as [bs|]; [|done]. cbn [of_option bind] in *.
      rewrite Hhs. cbn [bind]. eexists. split; [reflexivity|]. split; [by apply Hset|]. split; [done|]. split.
      { unfold hashes_of_request. cbn. by rewrite lookup_insert_eq. }
      split; [intros id' Hne; rewrite Hothers by done; by apply Hothers|done].
    - injection Hhs as <-. exists m1. split; [done|]. split; [done|]. split; [done|]. split; [done|]. split; [|done].
      intros id' Hne. by apply Hothers. }
  destruct Hpair as (m2 & Hpair & Hinv2 & Hc2 & Hh2 & Ho2 & Hca2 & Hl2 & Hs2). rewrite Hpair. cbn [bind]. rewrite Hc2.
  destruct (coordinator_lookup_ok (coordinator m) fr _ hs (num_tokens r - 1) (kc_pool _ _ _ _ (ki_core _ _ Hinv)) Hk Hready)
    as (comp & computed & -> & Hpre & Hbound); [lia|]. cbn [bind].
  destruct (record_lookup_ok m2 (num_tokens r) computed) as [s ->]; [by rewrite Hl2, Hs2|]. cbn [bind].
  destruct (prefix_refs _ _ _ _ _ _ _ _ (kc_pool _ _ _ _ (ki_core _ _ Hinv)) (fun g Hg => seqZ_managers (managers m) g Hg) Hpre)
    as [bss ->].
  exists bss, computed, (with_stats m2 s). split; [done|]. split; [by apply kv_inv_stats|]. split; [done|].
  split; [|split; [done|split; [exact Ho2|split; [by left|]]]].
  2:{ intros i l j n Hl Hj Hlast. assert (Hi : (i < length (managers m))%nat).
      { pose proof (Forall2_length _ _ _ Hpre) as Hl'. rewrite length_seqZ, Nat2Z.id, length_map in Hl'. apply lookup_lt_Some in Hl.
        unfold managers. lia. }
      destruct (lookup_lt_is_Some_2 (managers m) i Hi) as [x Hx].
      change (hashes_of_request (with_stats m2 s) id) with (hashes_of_request m2 id). rewrite Hh2.
      assert (Hp : pool_of (with_stats m2 s) = block_pool (coordinator m)) by (unfold pool_of; cbn; by rewrite Hc2). rewrite Hp.
      apply (gp_last _ _ computed _ x (map Blk l)); [eapply prefixes_lookup; [exact Hpre|exact Hx|by rewrite list_lookup_fmap, Hl]|by rewrite length_map|].
      by rewrite list_lookup_fmap, Hj. }
  assert (Hms : managers (with_stats m2 s) = managers m) by (unfold managers; cbn; by rewrite Hc2).
  split.
  { pose proof (Forall2_length _ _ _ Hpre) as Hl. rewrite length_seqZ, Nat2Z.id, length_map in Hl. by rewrite Hms. }
  right. split; [by rewrite Hms|]. intros i x l Hx Hl. rewrite Hms in Hx.
  assert (Hp : pool_of (with_stats m2 s) = block_pool (coordinator m)) by (unfold pool_of; cbn; by rewrite Hc2).
  assert (Hh : hashes_of_request (with_stats m2 s) id = hs) by done.
  eapply group_new_prefix; [rewrite Hp; apply Hinv|by rewrite Hh|cbn; by rewrite Hca2|]. rewrite Hp, Hh.
  eapply prefixes_lookup; [exact Hpre|exact Hx|by rewrite list_lookup_fmap, Hl].
Qed.

(** C26. The prefix that [get_computed_blocks] finds for a request without blocks, in a
    manager without prefix caching or whose groups are full-attention, sliding-window or
    Mamba groups under the unitary or hybrid coordinator (chunked-local groups are left
    out: their hits can end in null blocks, see [chunk_boundary_hit_raises]), for a request
    whose full blocks have different hashes, is one that [allocate_slots] accepts
    ([prefix_pre]): for every group it has the same number of tokens, at most all tokens
    but the last; its blocks are null or cached for that group under the hashes of the
    request, without repetition, and its last block is cached.  Nothing but the recorded
    hashes and the statistics changes. *)
Theorem get_computed_blocks_ok m fr r hs :
  kv_inv m fr -> kind_ok (managers m) (kind (coordinator m)) -> unknown (managers m) (request_id r) ->
  (log_stats m = true -> is_Some (prefix_cache_stats m)) -> 1 <= num_tokens r ->
  (manager_caching m = true -> request_hashes m r = Ok hs /\ NoDup hs /\ lookup_ready (coordinator m) hs (num_tokens r - 1)) ->
  exists bss computed m', get_computed_blocks hash_fn NONE_HASH m r = Ok (map (map Blk) bss, computed, m') /\
    kv_inv m' fr /\ coordinator m' = coordinator m /\ prefix_pre m' (request_id r) computed bss /\
    0 <= computed <= num_tokens r - 1 /\
    (forall id, id <> request_id r -> hashes_of_request m' id = hashes_of_request m id).
Proof.
  intros Hinv Hk Hu Hst Htok Hca. destruct (computed_blocks_spec m fr r hs Hinv Hk Hu Hst Htok Hca) as (bss & c & m' & H1 & H2 & H3 & H4 & H5 & H6 & _).
  by exists bss, c, m'.
Qed.
End computed.

(** ** Construction *)

Lemma fresh_managers groups x :
  x ∈ make_managers groups -> exists g i, g ∈ groups /\ x = get_manager_for_kv_cache_spec (group_spec g) i.
Proof.
  intros [i Hi]%list_elem_of_lookup_1. unfold make_managers in Hi. rewrite list_lookup_imap in Hi.
  apply fmap_Some in Hi as (g & Hg & ->). exists g, (Z.of_nat i). split; [by eapply list_elem_of_lookup_2|done].
Qed.
Lemma fresh_held ms : (forall x, x ∈ ms -> req_to_blocks x = ∅) -> held_all ms = [].
Proof.
  induction ms as [|x ms IH]; intros H; [done|]. change (held_all (x :: ms)) with (held_of x ++ held_all ms).
  rewrite IH by (intros y ?; apply H; by right).
  unfold held_of. rewrite (H x) by left. by rewrite map_to_list_empty.
Qed.

Lemma make_manager_spec config max_len caching eagle stats events m n :
  num_blocks config = Z.of_nat (S n) -> (forall g, g ∈ kv_cache_groups config -> spec_pos (group_spec g)) ->
  make_kv_cache_manager config max_len caching eagle stats events = Ok m ->
  kv_inv m (seq 1 n) /\ kind_ok (managers m) (kind (coordinator m)) /\ (forall id, unknown (managers m) id) /\
  (log_stats m = true -> is_Some (prefix_cache_stats m)) /\
  (manager_caching m = true -> exists bs, manager_block_size m = Some bs /\ forall x, x ∈ managers m -> block_size x = bs).
Proof.
  intros Hn Hsp. unfold make_kv_cache_manager. set (ca := match kv_cache_groups config with [] => false | _ => caching end).
  set (sizes := map (fun g => spec_block_size (group_spec g)) (kv_cache_groups config)).
  destruct (if ca then _ else Ok None) as [bs|] eqn:Ebs; [|done]. cbn [bind].
  destruct (get_kv_cache_coordinator config eagle ca events) as [c|] eqn:Ec; [|done]. cbn [bind]. intros [= <-].
  assert (Hc : exists p, make_block_pool (num_blocks config) ca events = Ok p /\ block_pool c = p /\
             single_type_managers c = make_managers (kv_cache_groups config) /\ kind_ok (single_type_managers c) (kind c)).
  { unfold get_kv_cache_coordinator in Ec. destruct ca eqn:Eca; cbn [negb] in Ec.
    - destruct (kv_cache_groups config) as [|g [|g' gs]] eqn:Eg; [done| |];
        (destruct (make_block_pool (num_blocks config) true events) as [p|]; [cbn [bind] in Ec|done]).
      + injection Ec as <-. exists p. split; [done|]. split; [done|]. split; [done|]. by apply (kind_unitary _ (get_manager_for_kv_cache_spec (group_spec g) 0)).
      + destruct (verify_and_split_kv_cache_groups true (g :: g' :: gs)) as [k|] eqn:Ek; [|done]. injection Ec as <-.
        exists p. split; [done|]. split; [done|]. split; [done|]. by apply split_kind_ok.
    - destruct (make_block_pool (num_blocks config) false events) as [p|]; [cbn [bind] in Ec|done]. injection Ec as <-.
      exists p. split; [done|]. split; [done|]. split; [done|]. apply kind_none. }
  destruct Hc as (p & Hp & Hbp & Hms & Hk). rewrite Hn in Hp.
  destruct (make_block_pool_aux n ca events) as (p' & Hp' & Hinv & Hca & _ & Hnum). rewrite Hp in Hp'. injection Hp' as <-.
  assert (Hfresh : forall x, x ∈ single_type_managers c -> req_to_blocks x = ∅ /\ num_cached_block x = ∅ /\
            exists g, g ∈ kv_cache_groups config /\ kv_cache_spec x = group_spec g).
  { intros x Hx. rewrite Hms in Hx. destruct (fresh_managers _ _ Hx) as (g & i & Hg & ->). split; [done|]. split; [done|]. by exists g. }
  assert (Hun : forall id, unknown (single_type_managers c) id).
  { intros id x Hx. destruct (Hfresh x Hx) as (E1 & E2 & _). unfold blocks_of. by rewrite E1, E2, !lookup_empty. }
  split; [|split; [done|split; [exact Hun|split]]].
  - split; unfold managers, pool_of; cbn [coordinator manager_caching num_kv_cache_groups].
    + rewrite Hbp. split.
      * rewrite fresh_held; [exact Hinv|]. intros x Hx. by apply Hfresh.
      * intros x Hx. destruct (Hfresh x Hx) as (E1 & _ & g & Hg & E). rewrite E. split; [|by apply Hsp].
        intros id bl. by rewrite E1, lookup_empty.
      * intros k _. rewrite fresh_held by (intros x Hx; by apply Hfresh). cbn. lia.
      * intros _ r. unfold make_block_pool in Hp. rewrite (proj2 (Z.ltb_lt _ _)) in Hp by lia. cbn [py_assert bind] in Hp.
        destruct (popleft _) as [[? ?]|]; [|done]. cbn [bind] in Hp. by injection Hp as <-.
      * intros _ x id nc Hx. destruct (Hfresh x Hx) as (_ & E & _). by rewrite E, lookup_empty.
    + by rewrite Hbp, Hca.
    + rewrite Hms. unfold make_managers. by rewrite length_imap.
    + intros id. left. apply Hun.
    + intros id. exists 0. split; [done|]. intros x Hx. destruct (Hun id x Hx) as [_ ->]. cbn.
      destruct (Hfresh x Hx) as (_ & _ & g & Hg & E). unfold block_size. rewrite E, cdiv_0; [done|]. by apply Hsp.
  - cbn. intros ->. by eexists.
  - cbn [manager_caching manager_block_size managers coordinator]. intros Eca. rewrite Eca in Ebs.
    destruct (Nat.eqb_spec (length (remove_dups sizes)) 1) as [E1|]; [cbn [py_assert bind] in Ebs|done].
    destruct (remove_dups sizes) as [|s [|]] eqn:Er; [done| |done].
    assert (Hall : forall g, g ∈ kv_cache_groups config -> spec_block_size (group_spec g) = s).
    { intros g Hg. assert (Hin : spec_block_size (group_spec g) ∈ remove_dups sizes).
      { apply elem_of_remove_dups, list_elem_of_fmap. by exists g. }
      rewrite Er in Hin. by apply list_elem_of_singleton in Hin. }
    destruct (kv_cache_groups config !! 0%nat) as [g0|] eqn:E0; [|done]. cbn [of_option bind] in Ebs. injection Ebs as <-.
    eexists. split; [reflexivity|]. intros x Hx. destruct (Hfresh x Hx) as (_ & _ & g & Hg & E). unfold block_size. rewrite E.
    rewrite (Hall g Hg). symmetry. apply Hall. by eapply list_elem_of_lookup_2.
Qed.

(** The manager built for any accepted configuration of KV cache groups is
    consistent: all blocks but the null block are free, no request is known, and
    the kind of the coordinator fits the groups (the full-attention groups and the
    others are contiguous, so that the hybrid lookup answers in group order). *)
Theorem make_kv_cache_manager_ok config max_len caching eagle stats events m n :
  num_blocks config = Z.of_nat (S n) -> (forall g, g ∈ kv_cache_groups config -> spec_pos (group_spec g)) ->
  make_kv_cache_manager config max_len caching eagle stats events = Ok m ->
  kv_inv m (seq 1 n) /\ kind_ok (managers m) (kind (coordinator m)) /\ (forall id, unknown (managers m) id) /\
  (log_stats m = true -> is_Some (prefix_cache_stats m)) /\
  (manager_caching m = true -> exists bs, manager_block_size m = Some bs /\ forall x, x ∈ managers m -> block_size x = bs).
Proof. apply make_manager_spec. Qed.

(** ** Release *)

Lemma free_spec m fr r :
  kv_inv m fr -> exists m' fr', free m r = Ok m' /\ kv_inv m' (fr ++ fr') /\ unknown (managers m') (request_id r) /\
    evolves (request_id r) (managers m) (managers m') /\ same_cache (pool_of m) (pool_of m') /\
    req_to_block_hashes m' = req_to_block_hashes m /\ kind (coordinator m') = kind (coordinator m).
Proof.
  intros Hinv. set (id := request_id r).
  destruct (free_all _ _ _ (ki_core _ _ Hinv) id) as (us & p & ms & fr' & Hok & Hc & Hs & Hr).
  exists (with_coordinator m (with_state (coordinator m) p ms)), fr'.
  assert (He : evolves id (managers m) ms) by (eapply related_evolves; [|exact Hr]; intros j x a x' (? & ? & _); done).
  assert (Hu : unknown ms id).
  { intros x' [j Hj]%list_elem_of_lookup_1. destruct (related_back _ _ _ _ _ _ Hr Hj) as (x & a & _ & _ & _ & _ & ? & ?). done. }
  split; [unfold free, KVCoordinator.free; fold (managers m) (pool_of m) id; by rewrite Hok|]. split; [|done].
  apply (kv_inv_step m fr _ (fr ++ fr') id Hinv); [exact Hc|done|apply Hs|done|done|exact He|by left|].
  exists 0. split; [done|]. intros x Hx. destruct (Hu x Hx) as [_ ->]. rewrite cdiv_0; [done|]. apply (kc_mgr _ _ _ _ Hc x Hx).
Qed.

(** [free] gives back every block of the request and forgets it, in all
    groups; what the blocks cache stays valid for later prefix hits, and no other
    request is touched. *)
Theorem free_request_ok m fr r :
  kv_inv m fr -> exists m' fr', free m r = Ok m' /\ kv_inv m' (fr ++ fr') /\ unknown (managers m') (request_id r) /\
    evolves (request_id r) (managers m) (managers m') /\ same_cache (pool_of m) (pool_of m') /\
    req_to_block_hashes m' = req_to_block_hashes m /\ kind (coordinator m') = kind (coordinator m).
Proof. apply free_spec. Qed.

(** ** A concrete manager *)

Definition demo_config : KVCacheConfig :=
  {| num_blocks := 4; kv_cache_tensors := []; kv_cache_groups := [{| layer_names := ["l0"%string]; group_spec := demo_spec 2 |}] |}.

Lemma demo_manager_ok : exists m, make_kv_cache_manager demo_config 16 true false true false = Ok m /\
  managers m = [get_manager_for_kv_cache_spec (demo_spec 2) 0] /\ manager_max_model_len m = 16 /\ manager_caching m = true /\
  manager_block_size m = Some 2 /\ enable_kv_cache_events (pool_of m) = false /\ use_eagle (coordinator m) = false.
Proof. eexists. split; [reflexivity|done]. Qed.
