(* ===== verification/KVCacheConfig.v ===== *)
(** * From layer specifications to the KV cache configuration

    The second half of [v1/core/kv_cache_utils.py]: the memory check with its
    binary search for the longest model length, the grouping of the layers and the
    assignment of tensors to layers. *)

From stdpp Require Import base strings list.
From Stdlib Require Import ZArith Lia.
From S2P Require Import Prelude BlockHash KVCacheInterface.
Open Scope list_scope.
Open Scope Z_scope.

(** The dict from layer names to specifications, in insertion order. *)
Definition LayerSpecs : Type := list (string * KVCacheSpec).
Fixpoint spec_of (kv : LayerSpecs) (name : string) : res KVCacheSpec :=
  match kv with
  | [] => Raise KeyError
  | (n, s) :: kv => if String.eqb n name then Ok s else spec_of kv name
  end.

(** ** Memory checks *)

Definition max_memory_usage_bytes (c : VllmConfig) (specs : list KVCacheSpec) : res Z :=
  let! l := res_map (spec_max_memory_usage_bytes c) specs in Ok (zsum l).

(** [fits_in_memory], which leaves [model_len] in the configuration. *)
Definition fits_in_memory (c : VllmConfig) (specs : list KVCacheSpec) (available_memory model_len : Z) :
    res (bool * VllmConfig) :=
  let c := with_max_model_len c model_len in
  let! memory_needed := max_memory_usage_bytes c specs in
  Ok (memory_needed <=? available_memory, c).

(** The loop of the binary search, bounded by [fuel]. *)
Fixpoint search_model_len (fuel : nat) (c : VllmConfig) (specs : list KVCacheSpec)
    (available_memory left right result : Z) : res (fueled (Z * VllmConfig)) :=
  if left <=? right then
    match fuel with
    | 0%nat => Ok OutOfFuel
    | S fuel =>
        let mid := (left + right) / 2 in
        let! '(fits, c) := fits_in_memory c specs available_memory mid in
        if fits then search_model_len fuel c specs available_memory (mid + 1) right mid
        else search_model_len fuel c specs available_memory left (mid - 1) result
    end
  else Ok (Done (result, c)).
Definition estimate_max_model_len (c : VllmConfig) (kv : LayerSpecs) (available_memory : Z) :
    res (fueled (Z * VllmConfig)) :=
  let current_max := max_model_len c in
  let! '(fits, c) := fits_in_memory c (map snd kv) available_memory 1 in
  if negb fits then Ok (Done (0, c))
  else search_model_len (Z.to_nat current_max) c (map snd kv) available_memory 1 current_max 1.

Definition check_enough_kv_cache_memory (c : VllmConfig) (kv : LayerSpecs) (available_memory : Z) : res unit :=
  match kv with
  | [] => Ok tt
  | _ =>
      if available_memory <=? 0 then Raise ValueError
      else
        let! needed_memory := max_memory_usage_bytes c (map snd kv) in
        if available_memory <? needed_memory
        then let! _ := estimate_max_model_len c kv available_memory in Raise ValueError
        else Ok tt
  end.

(** ** Groups *)

Definition create_kv_cache_group_specs (kv : LayerSpecs) (grouped_layer_names : list (list string)) :
    res (list KVCacheGroupSpec) :=
  res_map (fun names =>
    let! layer_specs := res_map (spec_of kv) names in
    let! merged := merge layer_specs in
    Ok {| layer_names := names; group_spec := merged |}) grouped_layer_names.

(** Only the assertions of [merge] are caught. *)
Definition is_kv_cache_type_uniform (kv : LayerSpecs) : res bool :=
  match merge (map snd kv) with
  | Ok _ => Ok true
  | Raise AssertionError => Ok false
  | Raise e => Raise e
  end.

(** The numerator and denominator of the quotient. *)
Definition get_max_concurrency_for_kv_cache_config (c : VllmConfig) (config : KVCacheConfig) : res (Z * Z) :=
  let groups := kv_cache_groups config in
  let! num_layer_per_group := py_max (map (fun g => Z.of_nat (length (layer_names g))) groups) in
  let! usage := max_memory_usage_bytes c (map group_spec groups) in
  let! g0 := of_option IndexError (groups !! 0%nat) in
  let! page_size := page_size_bytes (group_spec g0) in
  let! num_block_per_request := py_cdiv (num_layer_per_group * usage) (page_size * num_layer_per_group) in
  if num_block_per_request =? 0 then Raise ZeroDivisionError else Ok (num_blocks config, num_block_per_request).

Definition get_num_blocks (c : VllmConfig) (num_layers available_memory page_size : Z) : res Z :=
  let! q := py_div available_memory page_size in
  let! n := py_div q num_layers in
  Ok (match num_gpu_blocks_override c with Some k => k | None => Z.max n 0 end).

Definition page_sizes (kv : LayerSpecs) : res (list Z) :=
  let! l := res_map (fun s => page_size_bytes (snd s)) kv in Ok (remove_dups l).
Definition get_uniform_page_size (kv : LayerSpecs) : res Z :=
  let! sizes := page_sizes kv in
  match sizes with [p] => Ok p | _ => Raise AssertionError end.
Definition is_kv_cache_page_size_uniform (kv : LayerSpecs) : res bool :=
  let! sizes := page_sizes kv in Ok (length sizes =? 1)%nat.
Definition is_kv_cache_type_attention_free (kv : LayerSpecs) : bool := match kv with [] => true | _ => false end.

(** ** Configurations *)

Definition _get_kv_cache_config_uniform_type (c : VllmConfig) (kv : LayerSpecs) (available_memory : Z) : res KVCacheConfig :=
  let! page_size := get_uniform_page_size kv in
  let! n := get_num_blocks c (Z.of_nat (length kv)) available_memory page_size in
  let! groups := create_kv_cache_group_specs kv [map fst kv] in
  let config := {| num_blocks := n;
                   kv_cache_tensors := map (fun l => {| tensor_size := page_size * n; shared_by := [fst l] |}) kv;
                   kv_cache_groups := groups |} in
  let! _ := get_max_concurrency_for_kv_cache_config c config in
  Ok config.

(** [same_type_layers]: the layers of each specification, in insertion order. *)
Fixpoint add_layer (d : list (KVCacheSpec * list string)) (s : KVCacheSpec) (name : string) :
    list (KVCacheSpec * list string) :=
  match d with
  | [] => [(s, [name])]
  | (s', l) :: d => if decide (s' = s) then (s', l ++ [name]) :: d else (s', l) :: add_layer d s name
  end.
Definition same_type_layers (kv : LayerSpecs) : list (KVCacheSpec * list string) :=
  fold_left (fun d l => add_layer d (snd l) (fst l)) kv [].

(** [layers[i:i + group_size] for i in range(0, len(layers), group_size)]; the
    modulo of the padding comes first. *)
Definition split_layers (group_size : Z) (layers : list string) : res (list (list string)) :=
  let! _ := py_mod (Z.of_nat (length layers)) group_size in
  let! starts := range_starts (Z.of_nat (length layers)) group_size in
  Ok (map (fun i => py_slice layers i (i + group_size)) starts).

Definition _get_kv_cache_config_uniform_page_size (c : VllmConfig) (kv : LayerSpecs) (available_memory : Z) :
    res KVCacheConfig :=
  let same_type := map snd (same_type_layers kv) in
  let! group_size := py_min (map (fun l => Z.of_nat (length l)) same_type) in
  let! split := res_map (split_layers group_size) same_type in
  let grouped_layers := concat split in
  let! groups := create_kv_cache_group_specs kv grouped_layers in
  let! page_size := get_uniform_page_size kv in
  let! n := get_num_blocks c group_size available_memory page_size in
  let tensor i := {| tensor_size := page_size * n;
                     shared_by := omap (fun g => g !! i) (take (length groups) grouped_layers) |} in
  let config := {| num_blocks := n;
                   kv_cache_tensors := map tensor (seq 0 (Z.to_nat group_size));
                   kv_cache_groups := groups |} in
  let! _ := py_min (map (fun g => spec_block_size (group_spec g)) groups) in
  let! _ := py_div n (Z.of_nat (length grouped_layers)) in
  let! _ := get_max_concurrency_for_kv_cache_config c config in
  Ok config.

Definition _get_kv_cache_config_attention_free : KVCacheConfig :=
  {| num_blocks := 1; kv_cache_tensors := []; kv_cache_groups := [] |}.

(** The windowed layers of a hybrid model as full attention. *)
Definition as_full (s : KVCacheSpec) : KVCacheSpec :=
  match s with
  | SlidingWindowSpec b a w => FullAttentionSpec b a (Some w) None
  | ChunkedLocalAttentionSpec b a k => FullAttentionSpec b a None (Some k)
  | s => s
  end.
Definition is_sliding (s : KVCacheSpec) : bool := match s with SlidingWindowSpec _ _ _ => true | _ => false end.
Definition is_chunked (s : KVCacheSpec) : bool := match s with ChunkedLocalAttentionSpec _ _ _ => true | _ => false end.
(** The result is the mutated dict. *)
Definition unify_hybrid_kv_cache_specs (kv : LayerSpecs) : res LayerSpecs :=
  let! uniform := is_kv_cache_type_uniform kv in
  if uniform then Ok kv
  else
    let specs := map snd kv in
    let kv := if existsb is_full specs && (existsb is_sliding specs || existsb is_chunked specs)
              then map (fun l => (fst l, as_full (snd l))) kv else kv in
    let! uniform := is_kv_cache_type_uniform kv in
    if uniform then Ok kv else Raise ValueError.

Definition get_kv_cache_config (c : VllmConfig) (kv : LayerSpecs) (available_memory : Z) : res (KVCacheConfig * LayerSpecs) :=
  check_enough_kv_cache_memory c kv available_memory ;;!
  (let! kv := (if disable_hybrid_kv_cache_manager c then unify_hybrid_kv_cache_specs kv else Ok kv) in
   if is_kv_cache_type_attention_free kv then Ok (_get_kv_cache_config_attention_free, kv)
   else
     let! uniform_type := is_kv_cache_type_uniform kv in
     if uniform_type then let! config := _get_kv_cache_config_uniform_type c kv available_memory in Ok (config, kv)
     else
       let! uniform_page := is_kv_cache_page_size_uniform kv in
       if uniform_page then let! config := _get_kv_cache_config_uniform_page_size c kv available_memory in Ok (config, kv)
       else Raise NotImplementedError).

(** ** The longest model length *)

Section estimate.
Context (c : VllmConfig) (specs : list KVCacheSpec) (available : Z) (Hok : Forall spec_ok specs).

(** The memory of a request of [n] tokens is within the available memory. *)
Definition fits (n : Z) : Prop :=
  exists u, max_memory_usage_bytes (with_max_model_len c n) specs = Ok u /\ u <= available.

Lemma usage_mono n n' :
  n <= n' -> exists u u', max_memory_usage_bytes (with_max_model_len c n) specs = Ok u /\
    max_memory_usage_bytes (with_max_model_len c n') specs = Ok u' /\ u <= u'.
Proof.
  intros Hn. unfold max_memory_usage_bytes. clear available. revert Hok. generalize specs as l. clear specs. intros l Hok.
  induction Hok as [|s specs Hs Hrest IH]; [by exists 0, 0|].
  destruct (max_memory_mono c s n n' Hs Hn) as (v & v' & Hv & Hv' & Hle). destruct IH as (u & u' & Hu & Hu' & Hle').
  cbn [res_map]. rewrite Hv, Hv'. cbn [bind].
  destruct (res_map _ specs) as [l|] eqn:E; [|done]. destruct (res_map (spec_max_memory_usage_bytes (with_max_model_len c n')) specs) as [l'|]; [|done].
  cbn [bind] in *. injection Hu as <-. injection Hu' as <-. eexists _, _. split; [done|]. split; [done|]. cbn. lia.
Qed.
Lemma fits_mono n n' : n <= n' -> fits n' -> fits n.
Proof.
  intros Hn (u & Hu & Hle). destruct (usage_mono n n' Hn) as (v & v' & Hv & Hv' & ?). exists v. split; [done|].
  rewrite Hu in Hv'. injection Hv' as <-. lia.
Qed.
Lemma fits_in_memory_ok c' n :
  (forall k, with_max_model_len c' k = with_max_model_len c k) ->
  exists b, fits_in_memory c' specs available n = Ok (b, with_max_model_len c n) /\ (b = true <-> fits n).
Proof.
  intros Hc. unfold fits_in_memory. rewrite Hc. destruct (usage_mono n n (Z.le_refl n)) as (u & _ & Hu & _). rewrite Hu. cbn [bind].
  eexists. split; [reflexivity|]. rewrite Z.leb_le. split; [intros ?; by exists u|]. intros (u' & Hu' & ?). congruence.
Qed.

Lemma search_model_len_ok fuel c' left right result :
  (forall k, with_max_model_len c' k = with_max_model_len c k) -> 1 <= left -> right - left < Z.of_nat fuel ->
  fits result -> 1 <= result -> left - 1 <= result -> result <= Z.max right (left - 1) \/ result = 1 ->
  exists n k, search_model_len fuel c' specs available left right result = Ok (Done (n, with_max_model_len c' k)) /\
    1 <= n /\ fits n /\ (n <= Z.max right (left - 1) \/ n = 1) /\ forall k, fits k -> k <= right -> k <= n.
Proof.
  revert c' left right result. induction fuel as [|fuel IH]; intros c' left right result Hc Hl Hf Hr Hr1 Hlr Hrr; cbn [search_model_len].
  - destruct (Z.leb_spec left right); [lia|]. exists result, (max_model_len c'). destruct c'. split; [done|]. split; [done|]. split; [done|].
    split; [done|]. intros k _ Hk. lia.
  - destruct (Z.leb_spec left right) as [Hle|Hgt].
    2:{ exists result, (max_model_len c'). destruct c'. split; [done|]. split; [done|]. split; [done|]. split; [done|]. intros k _ Hk. lia. }
    set (mid := (left + right) / 2). assert (Hmid : left <= mid <= right).
    { unfold mid. split; [apply Z.div_le_lower_bound; lia|apply Z.div_le_upper_bound; lia]. }
    destruct (fits_in_memory_ok c' mid Hc) as (b & -> & Hb). cbn [bind]. destruct b.
    + destruct (IH (with_max_model_len c mid) (mid + 1) right mid) as (n & k & Hs & H1 & H2 & H3 & H4); [done|lia|lia|by apply Hb|lia|lia|lia|].
      exists n, k. split; [by rewrite Hs, Hc|]. split; [done|]. split; [done|]. split; [lia|done].
    + destruct (IH (with_max_model_len c mid) left (mid - 1) result) as (n & k & Hs & H1 & H2 & H3 & H4); [done|lia|lia|done|lia|lia| |].
      { destruct (Z.le_gt_cases mid result) as [Hmr|Hmr]; [|lia]. assert (fits mid) by (by eapply fits_mono). apply Hb in H. done. }
      exists n, k. split; [by rewrite Hs, Hc|]. split; [done|]. split; [done|]. split; [lia|]. intros j Hj Hjr.
      destruct (Z.le_gt_cases j (mid - 1)) as [|Hgt]; [by apply H4|]. assert (fits mid) by (by apply (fits_mono mid j); [lia|]).
      apply Hb in H. done.
Qed.
End estimate.

(** ** Splitting and grouping the layers *)

Lemma add_layer_perm d s n : concat (map snd (add_layer d s n)) ≡ₚ n :: concat (map snd d).
Proof.
  induction d as [|[s' l] d IH]; [done|]. cbn [add_layer]. case_decide; cbn.
  - rewrite <-app_assoc. cbn. by rewrite Permutation_middle.
  - rewrite IH. by rewrite Permutation_middle.
Qed.
Lemma add_layer_in d s n t l :
  (t, l) ∈ add_layer d s n -> l <> [] /\ (forall x, x ∈ l -> (exists l', (t, l') ∈ d /\ x ∈ l') \/ (x = n /\ t = s)) \/ (t, l) ∈ d.
Proof.
  induction d as [|[s' l'] d IH]; cbn [add_layer].
  - intros [= -> ->]%list_elem_of_singleton. left. split; [done|]. intros x ->%list_elem_of_singleton. by right.
  - case_decide as Hs.
    + intros [[= -> ->]|H]%elem_of_cons; [|right; by right]. left. split; [by destruct l'|].
      intros x [Hx| ->%list_elem_of_singleton]%elem_of_app; [left; exists l'; split; [left|done]|by right].
    + intros [[= -> ->]|H]%elem_of_cons; [right; left|]. destruct (IH H) as [[Hl Hx]|Hin]; [left|right; by right].
      split; [done|]. intros x Hx'. destruct (Hx x Hx') as [(l'' & ? & ?)|?]; [left; exists l''; split; [by right|done]|by right].
Qed.

Lemma same_type_perm kv : concat (map snd (same_type_layers kv)) ≡ₚ map fst kv.
Proof.
  unfold same_type_layers.
  assert (H : forall d, concat (map snd (fold_left (fun d l => add_layer d (snd l) (fst l)) kv d)) ≡ₚ concat (map snd d) ++ map fst kv).
  { induction kv as [|[n s] kv IH]; intros d; cbn; [by rewrite app_nil_r|]. rewrite IH, add_layer_perm. cbn. by rewrite Permutation_middle. }
  apply (H []).
Qed.
Lemma same_type_in kv s l : (s, l) ∈ same_type_layers kv -> l <> [] /\ forall n, n ∈ l -> (n, s) ∈ kv.
Proof.
  unfold same_type_layers.
  assert (H : forall kv0 d, (forall s l, (s, l) ∈ d -> l <> [] /\ forall n, n ∈ l -> (n, s) ∈ kv0 ++ kv) ->
            (forall x, x ∈ kv -> x ∈ kv0 ++ kv) -> forall s l,
            (s, l) ∈ fold_left (fun d l => add_layer d (snd l) (fst l)) kv d -> l <> [] /\ forall n, n ∈ l -> (n, s) ∈ kv0 ++ kv).
  2:{ apply (H []); [by intros ? ? ?%elem_of_nil|done]. }
  induction kv as [|[n0 s0] kv IH]; intros kv0 d Hd Hsub; [exact Hd|]. cbn [fold_left].
  assert (E : kv0 ++ (n0, s0) :: kv = (kv0 ++ [(n0, s0)]) ++ kv) by (by rewrite <-app_assoc). rewrite E in *.
  apply IH; [|intros x Hx; apply elem_of_app; by right]. intros t l0 Hin. destruct (add_layer_in _ _ _ _ _ Hin) as [[Hl Hx]|Hin']; [|by apply Hd].
  split; [done|]. intros n Hn. destruct (Hx n Hn) as [(l' & Hl' & Hn')|[-> ->]]; [by apply (Hd t l')|]. apply Hsub. left.
Qed.

Lemma py_index_nat n i : py_index (Z.of_nat n) (Z.of_nat i) = Z.of_nat (Nat.min n i).
Proof. unfold py_index. destruct (Z.ltb_spec (Z.of_nat i) 0); lia. Qed.
Lemma slices_concat {A} (l : list A) k m i :
  (0 < k)%nat -> (length l <= (i + m) * k)%nat ->
  concat (map (fun j => py_slice l (Z.of_nat j * Z.of_nat k) (Z.of_nat j * Z.of_nat k + Z.of_nat k)) (seq i m)) = drop (i * k) l.
Proof.
  intros Hk. revert i. induction m as [|m IH]; intros i Hl; cbn [seq map concat].
  - by rewrite drop_ge by lia.
  - rewrite IH by lia. replace (Z.of_nat i * Z.of_nat k) with (Z.of_nat (i * k)) by lia.
    replace (Z.of_nat (i * k) + Z.of_nat k) with (Z.of_nat (i * k + k)) by lia.
    assert (Hs : py_slice l (Z.of_nat (i * k)) (Z.of_nat (i * k + k)) = take k (drop (i * k) l)).
    { unfold py_slice. rewrite !py_index_nat, <-Nat2Z.inj_sub, !Nat2Z.id by lia.
      destruct (Nat.le_gt_cases (length l) (i * k)) as [H1|H1].
      - rewrite (drop_ge l (i * k)), (drop_ge l (Nat.min _ _)) by lia. by rewrite !take_nil.
      - rewrite (Nat.min_r _ (i * k)) by lia. destruct (Nat.le_gt_cases (length l) (i * k + k)) as [H2|H2].
        + rewrite !take_ge; [done|rewrite length_drop; lia|rewrite length_drop; lia].
        + f_equal. lia. }
    rewrite Hs. replace (S i * k)%nat with (i * k + k)%nat by lia. rewrite <-drop_drop. apply take_drop.
Qed.

Lemma split_layers_ok (k : nat) layers parts :
  split_layers (Z.of_nat k) layers = Ok parts -> concat parts = layers /\ forall p, p ∈ parts -> (length p <= k)%nat.
Proof.
  unfold split_layers, py_mod. destruct (Z.eqb_spec (Z.of_nat k) 0) as [|Hk]; [done|]. cbn [bind].
  unfold range_starts. destruct (Z.eqb_spec (Z.of_nat k) 0); [lia|]. destruct (Z.ltb_spec (Z.of_nat k) 0); [lia|]. cbn [bind]. intros [= <-].
  rewrite map_map. split.
  - rewrite slices_concat by (try lia; pose proof (cdiv_spec (Z.of_nat (length layers)) (Z.of_nat k) ltac:(lia)); nia). done.
  - intros p (j & -> & _)%list_elem_of_fmap. unfold py_slice. rewrite length_take. unfold py_index.
    destruct (Z.ltb_spec (Z.of_nat j * Z.of_nat k) 0), (Z.ltb_spec (Z.of_nat j * Z.of_nat k + Z.of_nat k) 0); lia.
Qed.

(** Row [i] of all groups, for all [i], is the same as all groups. *)
Lemma rows_perm {A} (ls : list (list A)) n :
  (forall l, l ∈ ls -> (length l <= n)%nat) -> concat (map (fun i => omap (fun l => l !! i) ls) (seq 0 n)) ≡ₚ concat ls.
Proof.
  induction ls as [|l ls IH]; intros H.
  - cbn. induction (seq 0 n); [done|]. by cbn.
  - cbn [concat]. rewrite <-IH by (intros l' ?; apply H; by right).
    transitivity (concat (map (fun i => option_list (l !! i)) (seq 0 n)) ++ concat (map (fun i => omap (fun l => l !! i) ls) (seq 0 n))).
    { generalize (seq 0 n) as js. intros js. induction js as [|j js IHj]; [done|]. cbn [map concat].
      rewrite IHj. change (omap (fun l0 => l0 !! j) (l :: ls)) with (match l !! j with Some y => y :: omap (fun l0 => l0 !! j) ls | None => omap (fun l0 => l0 !! j) ls end).
      destruct (l !! j) as [y|]; cbn [option_list app].
      - apply Permutation_skip, Permutation_app_swap_app.
      - apply Permutation_app_swap_app. }
    apply Permutation_app_tail. assert (Hl : (length l <= n)%nat) by (apply H; left). clear -Hl.
    assert (Hg : forall i, concat (map (fun j => option_list (l !! j)) (seq i n)) = take n (drop i l)).
    { clear Hl. induction n as [|n IH]; intros i; [done|]. cbn [seq map concat]. rewrite IH.
      destruct (l !! i) as [y|] eqn:E; cbn [option_list app].
      - by rewrite (drop_S _ _ _ E).
      - apply lookup_ge_None in E. rewrite !drop_ge by lia. by rewrite take_nil. }
    rewrite Hg, drop_0, take_ge by done. done.
Qed.

(** ** What a configuration must satisfy *)

Record config_ok (c : VllmConfig) (kv : LayerSpecs) (available : Z) (config : KVCacheConfig) : Prop := {
  co_groups : concat (map layer_names (kv_cache_groups config)) ≡ₚ map fst kv;
  co_specs : forall g n, g ∈ kv_cache_groups config -> n ∈ layer_names g -> exists s, spec_of kv n = Ok s /\
    is_full s = is_full (group_spec g) /\ (is_full (group_spec g) = false -> s = group_spec g) /\
    attention_fields s = attention_fields (group_spec g) /\
    spec_block_size s = spec_block_size (group_spec g) /\ page_size_bytes s = page_size_bytes (group_spec g);
  co_tensors : concat (map shared_by (kv_cache_tensors config)) ≡ₚ map fst kv;
  co_share : forall t g n1 n2, t ∈ kv_cache_tensors config -> g ∈ kv_cache_groups config ->
    n1 ∈ shared_by t -> n2 ∈ shared_by t -> n1 ∈ layer_names g -> n2 ∈ layer_names g -> n1 = n2;
  co_size : exists page, (forall l, l ∈ kv -> page_size_bytes (snd l) = Ok page) /\
    forall t, t ∈ kv_cache_tensors config -> tensor_size t = page * num_blocks config;
  co_memory : num_gpu_blocks_override c = None -> 0 < available ->
    zsum (map tensor_size (kv_cache_tensors config)) <= available }.

Lemma create_groups_ok kv grouped groups :
  create_kv_cache_group_specs kv grouped = Ok groups ->
  map layer_names groups = grouped /\
  forall g n, g ∈ groups -> n ∈ layer_names g -> exists s, spec_of kv n = Ok s /\
    is_full s = is_full (group_spec g) /\ (is_full (group_spec g) = false -> s = group_spec g) /\
    attention_fields s = attention_fields (group_spec g) /\
    spec_block_size s = spec_block_size (group_spec g) /\ page_size_bytes s = page_size_bytes (group_spec g).
Proof.
  intros H%res_map_ok. induction H as [|names g grouped groups Hg _ [IH1 IH2]]; [split; [done|by intros ? ? ?%elem_of_nil]|].
  apply bind_ok in Hg as (specs & Hs & Hg). apply bind_ok in Hg as (merged & Hm & [= <-]). apply res_map_ok in Hs. split.
  - cbn. by rewrite IH1.
  - intros g n [->|Hin]%elem_of_cons Hn; [|by apply (IH2 g)]. cbn [layer_names group_spec] in *.
    apply list_elem_of_lookup_1 in Hn as [i Hi]. destruct (Forall2_lookup_l _ _ _ _ _ Hs Hi) as (s & Hsi & Hsn).
    exists s. split; [done|]. apply list_elem_of_lookup_2 in Hsi. destruct (merge_ok _ _ _ Hm Hsi) as (? & Heq & ? & ? & ?).
    split; [done|]. split; [done|]. done.
Qed.

Lemma uniform_page kv p : get_uniform_page_size kv = Ok p -> forall l, l ∈ kv -> page_size_bytes (snd l) = Ok p.
Proof.
  unfold get_uniform_page_size, page_sizes. intros (sizes & (ps & Hps & [= <-])%bind_ok & Hp)%bind_ok l Hl.
  apply res_map_ok in Hps. apply list_elem_of_lookup_1 in Hl as [i Hi]. destruct (Forall2_lookup_l _ _ _ _ _ Hps Hi) as (q & Hq & ->).
  destruct (remove_dups ps) as [|p' [|]] eqn:E; try done. injection Hp as ->. f_equal.
  apply list_elem_of_lookup_2 in Hq. rewrite <-elem_of_remove_dups, E in Hq. by apply list_elem_of_singleton in Hq.
Qed.

Lemma num_blocks_memory c layers available page n :
  get_num_blocks c layers available page = Ok n -> num_gpu_blocks_override c = None -> 0 < available -> 0 <= page -> 0 <= layers ->
  layers * (page * n) <= available.
Proof.
  unfold get_num_blocks. intros (q & (Hp & ->)%py_div_ok & H)%bind_ok Ho Ha Hpage Hl.
  apply bind_ok in H as (m & (Hl' & ->)%py_div_ok & [= <-]). rewrite Ho.
  pose proof (Z.div_pos available page ltac:(lia) ltac:(lia)) as H1. pose proof (Z.div_pos (available / page) layers H1 ltac:(lia)) as H2.
  rewrite Z.max_l by done. pose proof (Z.mul_div_le available page ltac:(lia)). pose proof (Z.mul_div_le (available / page) layers ltac:(lia)). nia.
Qed.

Lemma zsum_const {A} (f : A -> Z) k (l : list A) : (forall x, x ∈ l -> f x = k) -> zsum (map f l) = Z.of_nat (length l) * k.
Proof.
  induction l as [|x l IH]; intros H; [done|]. cbn [map zsum length]. rewrite IH by (intros y ?; apply H; by right).
  rewrite (H x) by left. lia.
Qed.

Lemma page_nonneg kv p (l : string * KVCacheSpec) : Forall spec_ok (map snd kv) -> l ∈ kv -> page_size_bytes (snd l) = Ok p -> 0 <= p.
Proof.
  intros Hok Hl Hp. rewrite Forall_forall in Hok. destruct (Hok (snd l)) as (_ & q & Hq & ?); [by apply list_elem_of_fmap_2|]. congruence.
Qed.

(** Two names in the same row and the same group are equal. *)
Lemma row_unique {A} (ls : list (list A)) i l x y :
  NoDup (concat ls) -> x ∈ omap (fun l => l !! i) ls -> y ∈ omap (fun l => l !! i) ls -> l ∈ ls -> x ∈ l -> y ∈ l -> x = y.
Proof.
  intros Hnd Hx Hy Hl Hxl Hyl.
  assert (H : forall z, z ∈ omap (fun l => l !! i) ls -> z ∈ l -> l !! i = Some z).
  { clear x y Hx Hy Hxl Hyl. revert Hnd Hl. induction ls as [|l0 ls IH]; intros Hnd Hl z Hz Hzl; [by apply elem_of_nil in Hl|].
    cbn [concat] in Hnd. apply NoDup_app in Hnd as (_ & Hdis & Hnd).
    assert (Hin : forall l' z, l' ∈ ls -> z ∈ l' -> z ∈ concat ls).
    { intros l' w Hl' Hw. apply list_elem_of_In, in_concat. exists l'. by rewrite <-!list_elem_of_In. }
    apply list_elem_of_omap in Hz as (l1 & Hl1 & Hz1). apply list_elem_of_lookup_2 in Hz1 as Hz2.
    apply elem_of_cons in Hl as [->|Hl]; apply elem_of_cons in Hl1 as [->|Hl1].
    - done.
    - destruct (Hdis z Hzl). by eapply Hin.
    - destruct (Hdis z Hz2). by eapply Hin.
    - apply IH; try done. apply list_elem_of_omap. by exists l1. }
  pose proof (H x Hx Hxl). pose proof (H y Hy Hyl). congruence.
Qed.

Lemma uniform_type_ok c kv available config :
  _get_kv_cache_config_uniform_type c kv available = Ok config -> Forall spec_ok (map snd kv) ->
  config_ok c kv available config.
Proof.
  unfold _get_kv_cache_config_uniform_type. intros (page & Hpage & H)%bind_ok Hok. apply bind_ok in H as (n & Hn & H).
  apply bind_ok in H as (groups & Hg & H). apply bind_ok in H as (conc & _ & [= <-]).
  destruct (create_groups_ok _ _ _ Hg) as [Hnames Hspecs]. pose proof (uniform_page _ _ Hpage) as Hp. split; cbn.
  - rewrite Hnames. cbn. by rewrite app_nil_r.
  - exact Hspecs.
  - rewrite map_map. cbn. clear. induction kv as [|l kv IH]; [done|]. cbn. by rewrite IH.
  - intros t g n1 n2 (l & -> & _)%list_elem_of_fmap _. cbn. by intros ->%list_elem_of_singleton ->%list_elem_of_singleton.
  - exists page. split; [done|]. by intros t (l & -> & _)%list_elem_of_fmap.
  - intros Ho Ha. rewrite map_map. rewrite (zsum_const _ (page * n)) by done.
    destruct kv as [|l kv']; [done|]. eapply num_blocks_memory; [exact Hn|done|done| |lia]. eapply page_nonneg; [exact Hok|left|]. apply Hp. left.
Qed.

Lemma uniform_page_ok c kv available config :
  _get_kv_cache_config_uniform_page_size c kv available = Ok config -> NoDup (map fst kv) -> Forall spec_ok (map snd kv) ->
  config_ok c kv available config.
Proof.
  unfold _get_kv_cache_config_uniform_page_size. set (st := map snd (same_type_layers kv)).
  intros (gs & Hgs & H)%bind_ok Hnd Hok. apply bind_ok in H as (split & Hsplit & H). apply bind_ok in H as (groups & Hg & H).
  apply bind_ok in H as (page & Hpage & H). apply bind_ok in H as (n & Hn & H).
  apply bind_ok in H as (? & _ & H). apply bind_ok in H as (? & _ & H). apply bind_ok in H as (? & _ & [= <-]).
  destruct (create_groups_ok _ _ _ Hg) as [Hnames Hspecs]. pose proof (uniform_page _ _ Hpage) as Hp.
  destruct (py_min_ok _ _ Hgs) as [(l0 & Hl0 & Hst)%list_elem_of_fmap _]. subst gs. set (k := length l0) in *.
  apply res_map_ok in Hsplit.
  assert (Hcat : concat (concat split) = concat st /\ forall p, p ∈ concat split -> (length p <= k)%nat).
  { clear -Hsplit. induction Hsplit as [|l ps st split Hps _ [IH1 IH2]]; [split; [done|by intros ? ?%elem_of_nil]|].
    destruct (split_layers_ok _ _ _ Hps) as [Hc Hlen]. cbn. rewrite concat_app, Hc, IH1. split; [done|].
    intros p [Hin|Hin]%elem_of_app; auto. }
  destruct Hcat as [Hcat Hlen].
  assert (Hall : concat (concat split) ≡ₚ map fst kv) by (rewrite Hcat; apply same_type_perm).
  assert (Hlg : length groups = length (concat split)) by (by rewrite <-Hnames, length_map).
  rewrite Nat2Z.id, Hlg, (take_ge (concat split)) by done. split; cbn.
  - by rewrite Hnames.
  - exact Hspecs.
  - rewrite map_map. cbn. by rewrite rows_perm.
  - intros t g n1 n2 (i & -> & _)%list_elem_of_fmap Hgin. cbn. intros H1 H2 H3 H4.
    apply (row_unique (concat split) i (layer_names g)); try done; [by rewrite Hall|]. rewrite <-Hnames. by apply list_elem_of_fmap_2.
  - exists page. split; [done|]. by intros t (i & -> & _)%list_elem_of_fmap.
  - intros Ho Ha. rewrite map_map. rewrite (zsum_const _ (page * n)) by done. rewrite length_seq.
    eapply num_blocks_memory; [exact Hn|done|done| |lia].
    destruct kv as [|l kv']; [done|]. eapply page_nonneg; [exact Hok|left|]. apply Hp. left.
Qed.

Lemma unify_ok kv kv' :
  unify_hybrid_kv_cache_specs kv = Ok kv' -> kv' = kv \/ kv' = map (fun l => (fst l, as_full (snd l))) kv.
Proof.
  unfold unify_hybrid_kv_cache_specs. intros (u & _ & H)%bind_ok. destruct u; [injection H; auto|].
  apply bind_ok in H as (u & _ & H). destruct u; [|done]. injection H as <-. destruct (_ && _); auto.
Qed.
Lemma as_full_ok s : spec_ok s -> spec_ok (as_full s).
Proof. by destruct s. Qed.

(** ** Main statements *)

Lemma estimate_spec c kv available :
  Forall spec_ok (map snd kv) -> 1 <= max_model_len c ->
  exists n c', estimate_max_model_len c kv available = Ok (Done (n, c')) /\ 0 <= n <= max_model_len c /\
    (1 <= n -> fits c (map snd kv) available n) /\
    (forall k, 1 <= k <= max_model_len c -> fits c (map snd kv) available k -> k <= n).
Proof.
  intros Hok Hmax. unfold estimate_max_model_len.
  destruct (fits_in_memory_ok c (map snd kv) available Hok c 1 ltac:(done)) as (b & -> & Hb). cbn [bind]. destruct b; cbn [negb].
  - destruct (search_model_len_ok c (map snd kv) available Hok (Z.to_nat (max_model_len c)) (with_max_model_len c 1) 1 (max_model_len c) 1)
      as (n & k & Hs & H1 & H2 & H3 & H4); [done|lia|lia|by apply Hb|lia|lia|lia|].
    exists n, (with_max_model_len (with_max_model_len c 1) k). split; [exact Hs|]. split; [lia|]. split; [done|].
    intros j Hj Hf. apply H4; [done|lia].
  - exists 0, (with_max_model_len c 1). split; [done|]. split; [lia|]. split; [lia|]. intros k Hk Hf.
    assert (fits c (map snd kv) available 1) by (by eapply fits_mono; [exact Hok| |exact Hf]; lia). apply Hb in H. done.
Qed.

(** The binary search terminates within its fuel and finds the greatest model
    length, up to the configured one, whose request fits into the available
    memory; 0 if not even one token fits. *)
Theorem estimate_max_model_len_ok c kv available :
  Forall spec_ok (map snd kv) -> 1 <= max_model_len c ->
  exists n c', estimate_max_model_len c kv available = Ok (Done (n, c')) /\ 0 <= n <= max_model_len c /\
    (1 <= n -> fits c (map snd kv) available n) /\
    (forall k, 1 <= k <= max_model_len c -> fits c (map snd kv) available k -> k <= n).
Proof. apply estimate_spec. Qed.

(** C33. For a model whose layers have different names, positive block sizes and
    defined, non-negative page sizes ([spec_ok]), every configuration that
    [get_kv_cache_config] produces is consistent, for models with one attention type
    and for hybrid models: every layer is in exactly one group, whose format has its
    block and page size, and has exactly one tensor; layers that share a tensor are
    in different groups, so their block tables do not collide; and all tensors have
    one page per block.  The tensors fit together into the available memory if the
    number of blocks is not overridden ([num_gpu_blocks_override]); an override is
    not compared with the memory, see [override_exceeds_memory].  A configuration is
    only produced when a request of the maximal length fits into the memory. *)
Theorem kv_cache_config_ok c kv available config kv' :
  get_kv_cache_config c kv available = Ok (config, kv') -> NoDup (map fst kv) -> Forall spec_ok (map snd kv) ->
  config_ok c kv' available config /\ map fst kv' = map fst kv /\
  (kv <> [] -> 0 < available /\ fits c (map snd kv) available (max_model_len c)).
Proof.
  unfold get_kv_cache_config. intros (u & Hcheck & H)%bind_ok Hnd Hok. apply bind_ok in H as (kv1 & Hu & H).
  assert (Hkv : map fst kv1 = map fst kv /\ Forall spec_ok (map snd kv1)).
  { destruct (disable_hybrid_kv_cache_manager c); [|injection Hu as <-; done]. destruct (unify_ok _ _ Hu) as [->| ->]; [done|].
    rewrite !map_map. split; [done|]. rewrite Forall_forall in *. intros s (l & -> & Hl)%list_elem_of_fmap. cbn.
    apply as_full_ok, Hok. by apply list_elem_of_fmap_2. }
  destruct Hkv as [Hnames Hok1]. assert (Hnd1 : NoDup (map fst kv1)) by (by rewrite Hnames).
  assert (Hfit : kv <> [] -> 0 < available /\ fits c (map snd kv) available (max_model_len c)).
  { intros Hne. unfold check_enough_kv_cache_memory in Hcheck. destruct kv as [|l kv0]; [done|].
    destruct (Z.leb_spec available 0); [done|]. apply bind_ok in Hcheck as (need & Hneed & Hcheck).
    destruct (Z.ltb_spec available need); [apply bind_ok in Hcheck as (? & _ & [=])|]. split; [done|].
    exists need. split; [|done]. destruct c. exact Hneed. }
  destruct (is_kv_cache_type_attention_free kv1) eqn:Ef.
  - injection H as <- <-. split; [|done]. destruct kv1; [|done].
    split; cbn; try done; [by intros g n ?%elem_of_nil|by intros t g n1 n2 ?%elem_of_nil| |lia].
    exists 0. split; by intros ? ?%elem_of_nil.
  - apply bind_ok in H as (ut & _ & H). destruct ut.
    + apply bind_ok in H as (cf & Hcf & [= <- <-]). split; [|done]. by apply uniform_type_ok.
    + apply bind_ok in H as (up & _ & H). destruct up; [|done]. apply bind_ok in H as (cf & Hcf & [= <- <-]). split; [|done].
      by apply uniform_page_ok.
Qed.

(** The memory check answers with a value error exactly when a request of the
    maximal length does not fit, and with nothing else. *)
Theorem check_enough_kv_cache_memory_ok c kv available :
  Forall spec_ok (map snd kv) -> 1 <= max_model_len c ->
  check_enough_kv_cache_memory c kv available = Ok tt /\ (kv = [] \/ (0 < available /\ fits c (map snd kv) available (max_model_len c))) \/
  check_enough_kv_cache_memory c kv available = Raise ValueError /\ kv <> [] /\
    (available <= 0 \/ ~ fits c (map snd kv) available (max_model_len c)).
Proof.
  intros Hok Hmax. unfold check_enough_kv_cache_memory. destruct kv as [|l kv0] eqn:Ekv; [left; auto|]. rewrite <-Ekv in *.
  destruct (Z.leb_spec available 0); [right; subst; auto|].
  destruct (usage_mono c (map snd kv) Hok (max_model_len c) (max_model_len c) (Z.le_refl _)) as (u & _ & Hu & _).
  assert (E : with_max_model_len c (max_model_len c) = c) by (by destruct c). rewrite E in Hu. rewrite Hu. cbn [bind].
  destruct (Z.ltb_spec available u).
  - destruct (estimate_spec c kv available Hok Hmax) as (n & c' & -> & _). cbn [bind]. right. split; [done|].
    split; [by subst|]. right. intros (u' & Hu' & Hle). rewrite E, Hu in Hu'. injection Hu' as <-. lia.
  - left. split; [done|]. right. split; [lia|]. exists u. rewrite E. done.
Qed.

(** A model without attention layers gets the empty configuration, but with
    the hybrid manager disabled it is an [IndexError]: the conversion of the
    specifications looks at the first one. *)
Theorem attention_free_config c available :
  get_kv_cache_config c [] available
    = if disable_hybrid_kv_cache_manager c then Raise IndexError else Ok (_get_kv_cache_config_attention_free, []).
Proof. unfold get_kv_cache_config. cbn. by destruct (disable_hybrid_kv_cache_manager c). Qed.

(** ** A concrete hybrid model *)

Definition demo_vllm_config : VllmConfig :=
  {| max_model_len := 8; max_num_batched_tokens := 4; num_gpu_blocks_override := None; disable_hybrid_kv_cache_manager := false |}.
(** Two full-attention layers and three with a window of four tokens, all with
    pages of eight bytes. *)
Definition hybrid_layers : LayerSpecs :=
  [("f0"%string, demo_spec 2); ("w0"%string, SlidingWindowSpec 2 demo_attention 4); ("w1"%string, SlidingWindowSpec 2 demo_attention 4);
   ("f1"%string, demo_spec 2); ("w2"%string, SlidingWindowSpec 2 demo_attention 4)].

Lemma hybrid_layers_ok : NoDup (map fst hybrid_layers) /\ Forall spec_ok (map snd hybrid_layers).
Proof.
  split; [apply (bool_decide_unpack _); vm_compute; exact I|].
  repeat constructor; cbn; (eexists; split; [reflexivity|vm_compute; discriminate]).
Qed.

Lemma estimate_max_model_len_ok_witness :
  exists n c', estimate_max_model_len demo_vllm_config hybrid_layers 120 = Ok (Done (n, c')) /\ 0 <= n <= 8.
Proof.
  destruct (estimate_max_model_len_ok demo_vllm_config hybrid_layers 120 (proj2 hybrid_layers_ok)) as (n & c' & H & Hb & _); [cbn; lia|].
  exists n, c'. split; [exact H|exact Hb].
Defined.

Lemma kv_cache_config_ok_witness :
  exists config kv', get_kv_cache_config demo_vllm_config hybrid_layers 300 = Ok (config, kv') /\
    config_ok demo_vllm_config kv' 300 config /\ length (kv_cache_groups config) = 3%nat.
Proof.
  assert (H : exists config kv', get_kv_cache_config demo_vllm_config hybrid_layers 300 = Ok (config, kv') /\
            length (kv_cache_groups config) = 3%nat) by (eexists _, _; split; vm_compute; reflexivity).
  destruct H as (config & kv' & H & Hl). exists config, kv'. split; [exact H|]. split; [|exact Hl].
  exact (proj1 (kv_cache_config_ok demo_vllm_config hybrid_layers 300 config kv' H (proj1 hybrid_layers_ok) (proj2 hybrid_layers_ok))).
Defined.

Definition overridden_config : VllmConfig :=
  {| max_model_len := 8; max_num_batched_tokens := 4; num_gpu_blocks_override := Some 1000; disable_hybrid_kv_cache_manager := false |}.
(** With an override of a thousand blocks the tensors need far more than the memory
    that is available. *)
Lemma override_exceeds_memory :
  match get_kv_cache_config overridden_config hybrid_layers 300 with
  | Ok (config, _) => num_blocks config = 1000 /\ 300 < zsum (map tensor_size (kv_cache_tensors config))
  | Raise _ => False
  end.
Proof. vm_compute. split; reflexivity. Qed.

Lemma check_enough_kv_cache_memory_ok_witness :
  check_enough_kv_cache_memory demo_vllm_config hybrid_layers 100 = Raise ValueError.
Proof.
  destruct (check_enough_kv_cache_memory_ok demo_vllm_config hybrid_layers 100 (proj2 hybrid_layers_ok)) as [[H _]|[H _]]; [cbn; lia| |exact H].
  exfalso. revert H. vm_compute. discriminate.
Defined.
