(* ===== verification/KVCapacity.v ===== *)
(** * Capacity and error behaviour of the KV cache manager

    Where the checks in front of the manager and the manager itself disagree: the
    null block is not part of the memory check, and a chunked-local prefix can end
    in a block that the commit rejects.
    First concrete runs: a manager over one full-attention group with blocks of two
    tokens and a pool of four blocks. *)

From stdpp Require Import base functions gmap strings list.
From Stdlib Require Import ZArith Lia.
From S2P Require Import Prelude FreeQueue Request BlockHash BlockPool KVCacheInterface SingleType PrefixLookup KVCoordinator CoordinatorInv CoordinatorOk KVCacheManager KVManagerOk KVLookup KVCacheConfig.
Open Scope list_scope.
Open Scope Z_scope.

Lemma demo_groups_pos g : g ∈ kv_cache_groups demo_config -> spec_pos (group_spec g).
Proof. by intros ->%list_elem_of_singleton. Qed.

Lemma make_kv_cache_manager_ok_witness :
  exists m, make_kv_cache_manager demo_config 16 true false true false = Ok m /\ kv_inv m [1; 2; 3]%nat.
Proof.
  destruct demo_manager_ok as (m & Hm & _). exists m. split; [exact Hm|].
  exact (proj1 (make_kv_cache_manager_ok demo_config 16 true false true false m 3 eq_refl demo_groups_pos Hm)).
Defined.

(** The manager before any request. *)
Lemma demo_start : exists m, make_kv_cache_manager demo_config 16 true false true false = Ok m /\
  managers m = [get_manager_for_kv_cache_spec (demo_spec 2) 0] /\ manager_max_model_len m = 16 /\ manager_caching m = true /\
  manager_block_size m = Some 2 /\ enable_kv_cache_events (pool_of m) = false /\
  kv_inv m [1; 2; 3]%nat /\ kind_ok (managers m) (kind (coordinator m)) /\ (forall id, unknown (managers m) id) /\
  (log_stats m = true -> is_Some (prefix_cache_stats m)).
Proof.
  destruct demo_manager_ok as (m & Hm & H1 & H2 & H3 & H4 & H5 & _). exists m.
  destruct (make_manager_spec demo_config 16 true false true false m 3 eq_refl demo_groups_pos Hm) as (K1 & K2 & K3 & K4 & _).
  done.
Qed.

Definition demo_request : Request := plain_request "a" [1; 2; 3; 4].

Lemma get_computed_blocks_ok_witness :
  exists m, make_kv_cache_manager demo_config 16 true false true false = Ok m /\
  exists bss computed m', get_computed_blocks coded_hash (-1) m demo_request = Ok (map (map Blk) bss, computed, m') /\
    prefix_pre m' "a" computed bss /\ 0 <= computed <= 3.
Proof.
  destruct demo_start as (m & Hm & H1 & _ & _ & H4 & _ & K1 & K2 & K3 & K4). exists m. split; [exact Hm|].
  destruct (get_computed_blocks_ok coded_hash (-1) m [1; 2; 3]%nat demo_request (hashes_of demo_request) K1 K2 (K3 _) K4)
    as (bss & c & m' & Hok & _ & _ & Hp & Hb & _).
  - vm_compute. discriminate.
  - intros _. assert (Hh : hashes_of_request m "a" = []).
    { unfold hashes_of_request. revert Hm. vm_compute make_kv_cache_manager. intros [= <-]. reflexivity. }
    split; [unfold request_hashes; change (request_id demo_request) with "a"%string; rewrite Hh, H4; vm_compute; reflexivity|].
    split; [apply (bool_decide_unpack _); vm_compute; exact I|].
    unfold lookup_ready. revert Hm. vm_compute make_kv_cache_manager. intros [= <-].
    split; [split; [reflexivity|split; [vm_compute; discriminate|exact I]]|exact I].
  - exists bss, c, m'. split; [exact Hok|split; [exact Hp|exact Hb]].
Defined.

Lemma demo_slots m :
  managers m = [get_manager_for_kv_cache_spec (demo_spec 2) 0] -> manager_max_model_len m = 16 ->
  enable_kv_cache_events (pool_of m) = false -> kv_inv m [1; 2; 3]%nat -> (forall id, unknown (managers m) id) ->
  slots_pre m demo_request 4 0 [[]] 0 false.
Proof.
  intros H1 H2 H5 Hinv Hu. split; try (cbn; lia).
  - rewrite H1. intros x ->%list_elem_of_singleton k Hk. discriminate Hk.
  - pose proof (empty_prefix_ok m _ "a" Hinv (Hu _)) as H. rewrite (ki_groups _ _ Hinv), H1 in H. exact H.
  - rewrite H1. by intros [|[]] x l [= <-].
  - intros _ _. split; [split; [reflexivity|constructor]|]. split; [rewrite H2; vm_compute; discriminate|].
    split; [vm_compute; discriminate|]. split; [by rewrite H5|]. intros x nc Hx Hnc. destruct (Hu "a"%string x Hx) as [E _].
    change (request_id demo_request) with "a"%string in Hnc. by rewrite E in Hnc.
Qed.


Lemma free_request_ok_witness :
  exists m, make_kv_cache_manager demo_config 16 true false true false = Ok m /\
  exists m' fr', free m demo_request = Ok m' /\ kv_inv m' ([1; 2; 3]%nat ++ fr') /\ unknown (managers m') "a".
Proof.
  destruct demo_start as (m & Hm & H1 & H2 & H3 & H4 & H5 & K1 & _). exists m. split; [exact Hm|].
  destruct (free_request_ok m [1; 2; 3]%nat demo_request K1) as (m' & fr' & Hok & Hinv & Hu & _).
  exists m', fr'. split; [exact Hok|split; [exact Hinv|exact Hu]].
Defined.

(** ** Where the checks disagree *)
(** The free blocks are fewer than the blocks: the null block is never free. *)
Lemma free_below p fr held : pool_inv p fr held -> Z.of_nat (length fr) < num_gpu_blocks p.
Proof.
  intros Hinv. pose proof (pi_num _ _ _ Hinv) as Hn.
  assert (Hsub : fr ⊆+ seq 1 (Z.to_nat (num_gpu_blocks p) - 1)).
  { apply NoDup_submseteq; [apply (fl_nodup _ _ (pi_queue _ _ _ Hinv))|]. intros n Hin%(pi_free _ _ _ Hinv).
    apply elem_of_seq. lia. }
  apply submseteq_length in Hsub. rewrite length_seq in Hsub. lia.
Qed.

Section refused.
Context (hash_fn : Z * list Z * option (list ExtraKey) -> Z) (NONE_HASH : Z).

(** The memory check accepts a model whose longest request is then never
    served.  With exactly the memory of one request of [max_model_len] tokens the
    configuration has as many blocks as this request needs, but one of them is the
    null block: [allocate_slots] for all tokens of such a request is refused in
    every consistent state, even when nothing else runs. *)
Theorem full_length_request_refused c name b a w ch kv' config m fr r delay :
  0 < b -> 0 < attention_page_size b a -> 1 <= max_model_len c -> num_gpu_blocks_override c = None ->
  get_kv_cache_config c [(name, FullAttentionSpec b a w ch)] (cdiv (max_model_len c) b * attention_page_size b a) = Ok (config, kv') ->
  kv_inv m fr -> num_gpu_blocks (pool_of m) = num_blocks config -> manager_max_model_len m = max_model_len c ->
  (exists x, managers m = [x] /\ kv_cache_spec x = FullAttentionSpec b a w ch) ->
  unknown (managers m) (request_id r) -> num_computed_tokens r = 0 ->
  num_blocks config = cdiv (max_model_len c) b /\
  exists m', allocate_slots hash_fn NONE_HASH m r (max_model_len c) 0 None 0 delay = Ok (None, m').
Proof.
  intros Hb Hpage Hmax Hov Hcfg Hinv Hnum Hml (x & Hms & Hx) Hu Hcomp. set (page := attention_page_size b a) in *.
  assert (Hn : num_blocks config = cdiv (max_model_len c) b).
  { set (kv := [(name, FullAttentionSpec b a w ch)]) in *.
    assert (Hmerge : is_kv_cache_type_uniform kv = Ok true \/ is_kv_cache_type_uniform kv = Ok false).
    { unfold is_kv_cache_type_uniform. destruct (merge (map snd kv)) as [|[]] eqn:E; auto; exfalso; revert E; cbn [kv map snd merge];
        unfold merge_window_sizes; destruct w, ch; cbn; repeat case_bool_decide; done. }
    assert (Hgn : get_num_blocks c 1 (cdiv (max_model_len c) b * page) page = Ok (cdiv (max_model_len c) b)).
    { unfold get_num_blocks, py_div. rewrite (proj2 (Z.eqb_neq page 0)) by lia. cbn [bind].
      rewrite Z.div_mul by lia. change (1 =? 0) with false. cbn [bind]. rewrite Z.div_1_r, Hov. f_equal. pose proof (cdiv_nonneg (max_model_len c) b Hb ltac:(lia)). lia. }
    unfold get_kv_cache_config in Hcfg. apply bind_ok in Hcfg as (u & _ & H). apply bind_ok in H as (kv1 & Hun & H).
    assert (kv1 = kv) as ->.
    { destruct (disable_hybrid_kv_cache_manager c); [|by injection Hun]. unfold unify_hybrid_kv_cache_specs in Hun.
      destruct Hmerge as [E|E]; rewrite E in Hun; cbn in Hun; [by injection Hun|]. rewrite E in Hun. done. }
    cbn [is_kv_cache_type_attention_free kv] in H. fold kv in H. apply bind_ok in H as (ut & Hut & H). destruct ut.
    - apply bind_ok in H as (cf & Hcf & [= <- _]). unfold _get_kv_cache_config_uniform_type in Hcf.
      apply bind_ok in Hcf as (pg & Hpg & Hcf). assert (pg = page) as -> by (cbn in Hpg; by injection Hpg).
      apply bind_ok in Hcf as (n & Hgn' & Hcf). change (Z.of_nat (length kv)) with 1 in Hgn'. rewrite Hgn in Hgn'. injection Hgn' as <-.
      apply bind_ok in Hcf as (? & _ & Hcf). by apply bind_ok in Hcf as (? & _ & [= <-]).
    - apply bind_ok in H as (up & _ & H). destruct up; [|done]. apply bind_ok in H as (cf & Hcf & [= <- _]).
      exfalso. unfold _get_kv_cache_config_uniform_page_size in Hcf. apply bind_ok in Hcf as (gs & Hgs & Hcf). injection Hgs as <-.
      apply bind_ok in Hcf as (sp & Hsp & Hcf). injection Hsp as <-. apply bind_ok in Hcf as (groups & Hgr & _).
      unfold create_kv_cache_group_specs, kv in Hgr. 
      change (py_slice [name] _ _) with [name] in Hgr. cbn -[merge String.eqb] in Hgr. rewrite String.eqb_refl in Hgr. cbn -[merge] in Hgr.
      unfold is_kv_cache_type_uniform in Hut. change (map snd kv) with [FullAttentionSpec b a w ch] in Hut.
      by destruct (merge [FullAttentionSpec b a w ch]). }
  split; [done|]. set (T := max_model_len c) in *.
  assert (Hsk : forall y, y ∈ managers m -> skip_ok (manager_caching m) y (request_id r) 0).
  { rewrite Hms. intros y ->%list_elem_of_singleton k Hk. unfold first_useful_block in Hk. by rewrite Hx in Hk. }
  destruct (prepare_ok m fr Hinv (request_id r) 0 T (map (map Blk) [[]]) Hsk) as (c1 & c2 & fr2 & Hrem & Hcount & Hc2 & Hs2 & Hprep);
    [by rewrite Hms|].
  unfold allocate_slots. destruct (Z.eqb_spec T 0); [lia|]. rewrite Hcomp, Hrem. cbn [bind].
  rewrite (ki_groups _ _ Hinv), Hms, Hml. cbn [length repeat]. replace (Z.min (0 + 0 + T + 0) T) with T by lia.
  cbn [map] in Hcount. rewrite Hcount. cbn [bind]. unfold get_num_free_blocks. rewrite (fl_num _ _ (pi_queue _ _ _ (kc_pool _ _ _ _ Hc2))).
  pose proof (free_below _ _ _ (kc_pool _ _ _ _ Hc2)) as Hfr. rewrite (sca_num _ _ Hs2), Hnum, Hn in Hfr.
  rewrite Hms in Hprep. apply Forall2_cons_inv_l in Hprep as (x2 & ms2 & (Hg & _ & _ & Hl & _) & Hnil & ->). apply Forall2_nil_inv_l in Hnil as ->.
  destruct (Hu x) as [_ Hb0]; [rewrite Hms; left|]. rewrite Hb0 in Hl. cbn in Hl.
  rewrite (proj2 (Z.ltb_lt _ _)); [by eexists|]. unfold demand, group_demand, missing_blocks, evictable, block_size. cbn.
  rewrite (proj1 Hg), Hx, Hl. cbn. lia.
Qed.
End refused.

(** ** A chunked-local prefix of null blocks *)

(** A request gets its prefix and slots for all its remaining tokens. *)
Definition admit_request (m : KVCacheManager) (r : Request) : res (KVCacheBlocks * Z * KVCacheManager) :=
  let! '(blocks, computed, m) := get_computed_blocks coded_hash (-1) m r in
  let! '(_, m) := allocate_slots coded_hash (-1) m r (num_tokens r - computed) computed (Some blocks) 0 false in
  Ok (blocks, computed, m).

Definition llama4_config : KVCacheConfig :=
  {| num_blocks := 16; kv_cache_tensors := [];
     kv_cache_groups := [{| layer_names := ["f"%string]; group_spec := demo_spec 2 |};
                         {| layer_names := ["c"%string]; group_spec := ChunkedLocalAttentionSpec 2 demo_attention 4 |}] |}.
Definition chunked_config : KVCacheConfig :=
  {| num_blocks := 16; kv_cache_tensors := [];
     kv_cache_groups := [{| layer_names := ["c"%string]; group_spec := ChunkedLocalAttentionSpec 2 demo_attention 4 |}] |}.

(** Request "a" is served and released, then request "b", which shares its first
    chunk of four tokens, looks up its prefix and asks for slots. *)
Definition second_request (config : KVCacheConfig) (b : list Z) : res (KVCacheBlocks * Z * res unit) :=
  let! m := make_kv_cache_manager config 64 true false false false in
  let! '(_, _, m) := admit_request m (plain_request "a" [1; 2; 3; 4]) in
  let! m := free m (plain_request "a" [1; 2; 3; 4]) in
  let! '(blocks, computed, _) := get_computed_blocks coded_hash (-1) m (plain_request "b" b) in
  Ok (blocks, computed, let! _ := admit_request m (plain_request "b" b) in Ok tt).

(** With prefix caching, a chunked-local group breaks the commit of full
    blocks: when the hit ends at a chunk boundary the group's prefix consists of
    null blocks only, and the assertion that the block before the first new one
    has a hash fails.  In a hybrid model (full and chunked-local attention) this
    happens to the second request with the same first chunk; a shorter second
    request is served. *)
Theorem chunk_boundary_hit_raises :
  second_request llama4_config [1; 2; 3; 4; 5; 6]
    = Ok ([[Blk 1; Blk 2]; [Blk 0; Blk 0]], 4, Raise AssertionError) /\
  second_request llama4_config [1; 2; 3; 5; 5; 6]
    = Ok ([[Blk 1]; [Blk 3]], 2, Ok tt).
Proof. split; vm_compute; reflexivity. Qed.

(** In a model with chunked-local attention only, the first request that is
    longer than a chunk already fails this way. *)
Theorem long_chunked_request_raises :
  (let! m := make_kv_cache_manager chunked_config 64 true false false false in
   let! _ := admit_request m (plain_request "a" [1; 2; 3; 4; 5; 6]) in Ok tt) = Raise AssertionError.
Proof. vm_compute. reflexivity. Qed.

(** The premises of the refused request hold for the demo pool. *)
Lemma full_length_request_refused_witness :
  exists m, make_kv_cache_manager demo_config 8 true false true false = Ok m /\
  exists m', allocate_slots coded_hash (-1) m (plain_request "a" [1; 2; 3; 4; 5; 6; 7; 8]) 8 0 None 0 false = Ok (None, m').
Proof.
  assert (H : exists m, make_kv_cache_manager demo_config 8 true false true false = Ok m /\
    managers m = [get_manager_for_kv_cache_spec (demo_spec 2) 0] /\ num_gpu_blocks (pool_of m) = 4 /\ manager_max_model_len m = 8)
    by (eexists; split; [reflexivity|split; [reflexivity|split; reflexivity]]).
  destruct H as (m & Hm & H1 & H2 & H3). exists m. split; [exact Hm|].
  destruct (make_manager_spec demo_config 8 true false true false m 3 eq_refl) as (K1 & K2 & K3 & _); [|exact Hm|].
  { intros g Hg. apply list_elem_of_singleton in Hg. subst g. split; [reflexivity|exact I]. }
  assert (Hc : exists config kv', get_kv_cache_config demo_vllm_config [("l0"%string, demo_spec 2)] (cdiv 8 2 * attention_page_size 2 demo_attention)
            = Ok (config, kv') /\ num_blocks config = 4) by (eexists _, _; split; vm_compute; reflexivity).
  destruct Hc as (config & kv' & Hc & Hn).
  apply (full_length_request_refused coded_hash (-1) demo_vllm_config "l0" 2 demo_attention None None kv' config m [1; 2; 3]%nat
           (plain_request "a" [1; 2; 3; 4; 5; 6; 7; 8]) false); try reflexivity; try exact Hc; try exact K1; try exact (K3 _).
  - vm_compute. discriminate.
  - rewrite H2, Hn. reflexivity.
  - exact H3.
  - exists (get_manager_for_kv_cache_spec (demo_spec 2) 0). split; [exact H1|reflexivity].
Defined.
