(* ===== verification/EncoderCache.v ===== *)
(** * The encoder cache manager ([v1/core/encoder_cache_manager.py])

    Which multi-modal inputs of which requests have their encoder output in the
    cache, counted in tokens.  The cached sets are iterated in the order of
    [elements]; Python leaves that order open. *)

From stdpp Require Import base gmap strings list fin_sets.
From Stdlib Require Import ZArith Lia.
From S2P Require Import Prelude Request.
Open Scope list_scope.
Open Scope Z_scope.

Record EncoderCacheManager : Type := {
  cache_size : Z;
  num_free_slots : Z;
  cached : gmap string (gset Z);
  freed : list (string * Z) }.
Definition make_encoder_cache_manager (size : Z) : EncoderCacheManager :=
  {| cache_size := size; num_free_slots := size; cached := ∅; freed := [] |}.

Definition has_cache (e : EncoderCacheManager) (request : Request) (input_id : Z) : bool :=
  match cached e !! request_id request with Some ids => bool_decide (input_id ∈ ids) | None => false end.
Definition can_allocate (e : EncoderCacheManager) (request : Request) (input_id : Z) : res bool :=
  let! n := get_num_encoder_tokens request input_id in Ok (n <=? num_free_slots e).

Definition allocate (e : EncoderCacheManager) (request : Request) (input_id : Z) : res EncoderCacheManager :=
  let id := request_id request in
  let! n := get_num_encoder_tokens request input_id in
  Ok {| cache_size := cache_size e; num_free_slots := num_free_slots e - n;
        cached := <[id := default ∅ (cached e !! id) ∪ {[input_id]}]> (cached e); freed := freed e |}.

Definition get_cached_input_ids (e : EncoderCacheManager) (request : Request) : gset Z :=
  default ∅ (cached e !! request_id request).

Definition free_encoder_input (e : EncoderCacheManager) (request : Request) (input_id : Z) : res EncoderCacheManager :=
  let id := request_id request in
  match cached e !! id with
  | None => Ok e
  | Some ids =>
      let ids := ids ∖ {[input_id]} in
      let! n := get_num_encoder_tokens request input_id in
      Ok {| cache_size := cache_size e; num_free_slots := num_free_slots e + n;
            cached := if decide (size ids = 0%nat) then delete id (cached e) else <[id := ids]> (cached e);
            freed := freed e ++ [(id, input_id)] |}
  end.

Definition free_inputs (e : EncoderCacheManager) (request : Request) (ids : list Z) : res EncoderCacheManager :=
  res_fold (fun e i => free_encoder_input e request i) ids e.
Definition free (e : EncoderCacheManager) (request : Request) : res EncoderCacheManager :=
  free_inputs e request (elements (get_cached_input_ids e request)).

Definition get_freed_ids (e : EncoderCacheManager) : list (string * Z) * EncoderCacheManager :=
  (freed e, {| cache_size := cache_size e; num_free_slots := num_free_slots e; cached := cached e; freed := [] |}).

(** ** Budgets *)

(** The first item with the greatest value, as [max(..., key=...)]. *)
Fixpoint max_tokens_item (best : Z) (items : list (string * Z)) : Z :=
  match items with [] => best | (_, n) :: items => max_tokens_item (if best <? n then n else best) items end.

(** [get_max_tokens_per_item_by_nonzero_modality] of the registry is an argument;
    [None] stands for a model without multi-modal inputs. *)
Definition compute_encoder_budget (max_tokens_by_modality : option (list (string * Z))) (disable_chunked_mm_input : bool)
    (max_num_batched_tokens max_num_encoder_input_tokens encoder_cache_size : Z) : res (Z * Z) :=
  match max_tokens_by_modality with
  | None | Some [] => Ok (0, 0)
  | Some ((_, n) :: items) =>
      let max_tokens_per_mm_item := max_tokens_item n items in
      if disable_chunked_mm_input && (max_num_batched_tokens <? max_tokens_per_mm_item) then Raise ValueError
      else Ok (Z.max max_num_encoder_input_tokens max_tokens_per_mm_item, Z.max encoder_cache_size max_tokens_per_mm_item)
  end.

(** ** Accounting *)

(** The tokens of input [i]; its length in the request. *)
Definition input_tokens (r : Request) (i : Z) : Z := default 0 (snd <$> (mm_positions r !! Z.to_nat i)).
Definition inputs_ok (r : Request) (ids : gset Z) : Prop := forall i, i ∈ ids -> 0 <= i < Z.of_nat (length (mm_positions r)).

Definition set_tokens (r : Request) (ids : gset Z) : Z := zsum (map (input_tokens r) (elements ids)).
Definition cached_tokens (reqs : gmap string Request) (e : EncoderCacheManager) : Z :=
  zsum (map (fun kv => match reqs !! kv.1 with Some r => set_tokens r kv.2 | None => 0 end) (map_to_list (cached e))).

(** Every entry belongs to a known request, names inputs of it and is not empty;
    the free slots are what the cached inputs leave. *)
Record enc_inv (reqs : gmap string Request) (e : EncoderCacheManager) : Prop := {
  ei_known : forall id ids, cached e !! id = Some ids -> ids ≠ ∅ /\ exists r, reqs !! id = Some r /\ request_id r = id /\ inputs_ok r ids;
  ei_slots : num_free_slots e + cached_tokens reqs e = cache_size e }.

Lemma tokens_of_input r i :
  0 <= i < Z.of_nat (length (mm_positions r)) -> get_num_encoder_tokens r i = Ok (input_tokens r i).
Proof.
  intros Hi. unfold get_num_encoder_tokens, input_tokens. rewrite (proj2 (Z.ltb_lt _ _)) by lia. cbn [py_assert bind].
  destruct (lookup_lt_is_Some_2 (mm_positions r) (Z.to_nat i)) as [p Hp]; [lia|].
  unfold py_nth. rewrite (proj2 (Z.ltb_ge i 0)) by lia. rewrite (proj2 (Z.ltb_ge i 0)) by lia. by rewrite Hp.
Qed.

Lemma set_tokens_add r ids i : i ∉ ids -> set_tokens r (ids ∪ {[i]}) = set_tokens r ids + input_tokens r i.
Proof.
  intros Hi. unfold set_tokens. rewrite (union_comm_L ids). rewrite elements_union_singleton by done. cbn. lia.
Qed.
Lemma set_tokens_remove r ids i : i ∈ ids -> set_tokens r (ids ∖ {[i]}) = set_tokens r ids - input_tokens r i.
Proof.
  intros Hi. assert (E : ids = (ids ∖ {[i]}) ∪ {[i]}).
  { apply set_eq. intros x. rewrite elem_of_union, elem_of_difference, elem_of_singleton. destruct (decide (x = i)) as [->|]; tauto. }
  rewrite E at 2. rewrite set_tokens_add; [lia|]. set_solver.
Qed.
Lemma set_tokens_empty r ids : size ids = 0%nat -> set_tokens r ids = 0.
Proof. intros H. apply size_empty_inv, leibniz_equiv in H. subst. unfold set_tokens. by rewrite elements_empty. Qed.

Lemma cached_tokens_insert reqs e id ids r m :
  reqs !! id = Some r -> cached e = m ->
  cached_tokens reqs {| cache_size := cache_size e; num_free_slots := num_free_slots e; cached := <[id := ids]> m; freed := freed e |}
    = cached_tokens reqs e - set_tokens r (default ∅ (m !! id)) + set_tokens r ids.
Proof.
  intros Hr <-. unfold cached_tokens. cbn [cached].
  assert (H0 : set_tokens r ∅ = 0) by (unfold set_tokens; by rewrite elements_empty).
  set (f := fun kv : string * gset Z => match reqs !! kv.1 with Some r => set_tokens r kv.2 | None => 0 end).
  assert (Hins : forall c, c !! id = None -> zsum (map f (map_to_list (<[id := ids]> c))) = set_tokens r ids + zsum (map f (map_to_list c))).
  { intros c Hc. rewrite (zsum_perm _ (map f ((id, ids) :: map_to_list c))).
    - cbn [map zsum]. unfold f at 1. cbn [fst snd]. by rewrite Hr.
    - apply Permutation_map, map_to_list_insert. done. }
  assert (Hdel : zsum (map f (map_to_list (cached e))) = set_tokens r (default ∅ (cached e !! id)) + zsum (map f (map_to_list (delete id (cached e))))).
  { destruct (cached e !! id) as [old|] eqn:E.
    - rewrite (zsum_perm _ (map f ((id, old) :: map_to_list (delete id (cached e))))).
      + cbn [map zsum default]. unfold f at 1. cbn [fst snd]. by rewrite Hr.
      + apply Permutation_map. symmetry. by apply map_to_list_delete.
    - cbn. rewrite H0, delete_id by done. lia. }
  rewrite Hdel, <-insert_delete_eq, Hins by apply lookup_delete_eq. lia.
Qed.

Lemma cached_tokens_delete reqs e id r n :
  reqs !! id = Some r ->
  cached_tokens reqs {| cache_size := cache_size e; num_free_slots := n; cached := delete id (cached e); freed := freed e |}
    = cached_tokens reqs e - set_tokens r (default ∅ (cached e !! id)).
Proof.
  intros Hr. pose proof (cached_tokens_insert reqs e id ∅ r (cached e) Hr eq_refl) as H.
  assert (H0 : set_tokens r ∅ = 0) by (unfold set_tokens; by rewrite elements_empty). rewrite H0 in H.
  unfold cached_tokens in *. cbn [cached] in *.
  set (f := fun kv : string * gset Z => match reqs !! kv.1 with Some r => set_tokens r kv.2 | None => 0 end) in *.
  assert (E : zsum (map f (map_to_list (<[id:=∅]> (cached e)))) = zsum (map f (map_to_list (delete id (cached e))))).
  { rewrite <-insert_delete_eq. rewrite (zsum_perm _ (map f ((id, ∅) :: map_to_list (delete id (cached e))))).
    - cbn [map zsum]. unfold f at 1. cbn [fst snd]. rewrite Hr. lia.
    - apply Permutation_map, map_to_list_insert, lookup_delete_eq. }
  lia.
Qed.

(** ** Operations keep the accounting *)

Lemma encoder_allocate_ok reqs e r i :
  enc_inv reqs e -> reqs !! request_id r = Some r -> 0 <= i < Z.of_nat (length (mm_positions r)) ->
  i ∉ get_cached_input_ids e r ->
  exists e', allocate e r i = Ok e' /\ enc_inv reqs e' /\ num_free_slots e' = num_free_slots e - input_tokens r i /\
    cache_size e' = cache_size e /\ freed e' = freed e /\ get_cached_input_ids e' r = get_cached_input_ids e r ∪ {[i]} /\
    forall id, id <> request_id r -> cached e' !! id = cached e !! id.
Proof.
  intros [Hk Hs] Hr Hi Hni. unfold allocate. rewrite tokens_of_input by done. cbn [bind]. eexists. split; [reflexivity|].
  cbn [num_free_slots cache_size freed]. split; [|split; [done|split; [done|split; [done|split]]]].
  - split.
    + intros id ids. cbn [cached]. destruct (decide (id = request_id r)) as [->|Hne].
      * rewrite lookup_insert_eq. intros [= <-]. split; [set_solver|]. exists r. split; [done|]. split; [done|].
        intros j [Hj|Hj%elem_of_singleton]%elem_of_union; [|by subst].
        destruct (cached e !! request_id r) as [ids|] eqn:E; [|by apply elem_of_empty in Hj].
        destruct (Hk _ _ E) as (_ & r' & Hr' & _ & Hok). rewrite Hr in Hr'. injection Hr' as <-. by apply Hok.
      * rewrite lookup_insert_ne by done. apply Hk.
    + cbn [num_free_slots cache_size]. pose proof (cached_tokens_insert reqs e (request_id r) (default ∅ (cached e !! request_id r) ∪ {[i]}) r _ Hr eq_refl) as H.
      rewrite set_tokens_add in H by done. unfold cached_tokens in *. cbn [cached] in *. lia.
  - unfold get_cached_input_ids. cbn [cached]. by rewrite lookup_insert_eq.
  - intros id Hne. cbn [cached]. by rewrite lookup_insert_ne.
Qed.

Lemma free_encoder_input_ok reqs e r i :
  enc_inv reqs e -> reqs !! request_id r = Some r -> i ∈ get_cached_input_ids e r ->
  exists e', free_encoder_input e r i = Ok e' /\ enc_inv reqs e' /\ num_free_slots e' = num_free_slots e + input_tokens r i /\
    cache_size e' = cache_size e /\ freed e' = freed e ++ [(request_id r, i)] /\
    get_cached_input_ids e' r = get_cached_input_ids e r ∖ {[i]} /\
    forall id, id <> request_id r -> cached e' !! id = cached e !! id.
Proof.
  intros [Hk Hs] Hr Hi. unfold free_encoder_input, get_cached_input_ids in *.
  destruct (cached e !! request_id r) as [ids|] eqn:E; cbn [default] in *; [|by apply elem_of_empty in Hi].
  destruct (Hk _ _ E) as (_ & r' & Hr' & _ & Hok). rewrite Hr in Hr'. injection Hr' as <-.
  rewrite tokens_of_input by (by apply Hok). cbn [bind]. eexists. split; [reflexivity|]. cbn [num_free_slots cache_size freed].
  pose proof (set_tokens_remove r ids i Hi) as Hrm.
  assert (Htok : forall c, c = (if decide (size (ids ∖ {[i]}) = 0%nat) then delete (request_id r) (cached e)
                                else <[request_id r := ids ∖ {[i]}]> (cached e)) ->
            cached_tokens reqs {| cache_size := cache_size e; num_free_slots := num_free_slots e; cached := c; freed := freed e |}
              = cached_tokens reqs e - input_tokens r i).
  { intros c ->. case_decide as Hsz.
    - rewrite (cached_tokens_delete reqs e (request_id r) r) by done. rewrite E. cbn. rewrite (set_tokens_empty _ _ Hsz) in Hrm. lia.
    - rewrite (cached_tokens_insert reqs e (request_id r) _ r _ Hr eq_refl), E. cbn. lia. }
  split; [|split; [done|split; [done|split; [done|split]]]].
  - split.
    + intros id ids'. cbn [cached]. case_decide as Hsz.
      * intros [Hne H]%lookup_delete_Some. by apply Hk.
      * destruct (decide (id = request_id r)) as [->|Hne]; [|rewrite lookup_insert_ne by done; apply Hk].
        rewrite lookup_insert_eq. intros [= <-]. split; [intros H0; apply Hsz; by rewrite H0, size_empty|]. exists r.
        split; [done|]. split; [done|]. intros j [Hj _]%elem_of_difference. by apply Hok.
    + cbn [num_free_slots cache_size]. specialize (Htok _ eq_refl). unfold cached_tokens in *. cbn [cached] in *. lia.
  - cbn [cached]. case_decide as Hsz; [rewrite lookup_delete_eq; cbn|by rewrite lookup_insert_eq].
    symmetry. by apply size_empty_inv, leibniz_equiv in Hsz.
  - intros id Hne. cbn [cached]. case_decide; [by rewrite lookup_delete_ne|by rewrite lookup_insert_ne].
Qed.

Lemma free_inputs_ok reqs r l : forall e,
  enc_inv reqs e -> reqs !! request_id r = Some r -> NoDup l -> (forall i, i ∈ l -> i ∈ get_cached_input_ids e r) ->
  exists e', free_inputs e r l = Ok e' /\ enc_inv reqs e' /\
    num_free_slots e' = num_free_slots e + zsum (map (input_tokens r) l) /\ cache_size e' = cache_size e /\
    freed e' = freed e ++ map (fun i => (request_id r, i)) l /\
    get_cached_input_ids e' r = get_cached_input_ids e r ∖ list_to_set l /\
    forall id, id <> request_id r -> cached e' !! id = cached e !! id.
Proof.
  induction l as [|i l IH]; intros e Hinv Hr Hnd Hl; unfold free_inputs; cbn [res_fold].
  - exists e. split; [done|]. split; [done|]. cbn. rewrite app_nil_r. split; [lia|]. split; [done|]. split; [done|]. split; [set_solver|done].
  - apply NoDup_cons in Hnd as [Hni Hnd].
    destruct (free_encoder_input_ok reqs e r i Hinv Hr) as (e1 & -> & Hinv1 & Hf1 & Hc1 & Hd1 & Hg1 & Ho1); [apply Hl; left|]. cbn [bind].
    destruct (IH e1 Hinv1 Hr Hnd) as (e2 & Hok & Hinv2 & Hf2 & Hc2 & Hd2 & Hg2 & Ho2).
    { intros j Hj. rewrite Hg1. apply elem_of_difference. split; [apply Hl; by right|]. intros ->%elem_of_singleton. done. }
    exists e2. split; [exact Hok|]. split; [done|]. split; [cbn; lia|]. split; [congruence|].
    split; [by rewrite Hd2, Hd1, <-app_assoc|]. split; [rewrite Hg2, Hg1; set_solver|].
    intros id Hne. by rewrite Ho2, Ho1.
Qed.

(** The encoder cache never loses track of its space.  If the free slots are
    what the cached inputs leave, then allocating an input that is not cached
    takes exactly its tokens, and freeing a request gives back exactly the tokens
    of its cached inputs, reports all of them as freed and keeps those of the
    other requests; the free slots are then again what the cached inputs leave. *)
Theorem encoder_cache_accounting reqs e r :
  enc_inv reqs e -> reqs !! request_id r = Some r ->
  (forall i, 0 <= i < Z.of_nat (length (mm_positions r)) -> has_cache e r i = false ->
     exists e', allocate e r i = Ok e' /\ enc_inv reqs e' /\ num_free_slots e' = num_free_slots e - input_tokens r i /\
       has_cache e' r i = true) /\
  (exists e', free e r = Ok e' /\ enc_inv reqs e' /\ cached e' !! request_id r = None /\
     num_free_slots e' = num_free_slots e + set_tokens r (get_cached_input_ids e r) /\
     freed e' = freed e ++ map (fun i => (request_id r, i)) (elements (get_cached_input_ids e r)) /\
     forall id, id <> request_id r -> cached e' !! id = cached e !! id).
Proof.
  intros Hinv Hr. split.
  - intros i Hi Hc. assert (Hni : i ∉ get_cached_input_ids e r).
    { unfold has_cache, get_cached_input_ids in *. destruct (cached e !! request_id r); cbn; [by apply bool_decide_eq_false in Hc|set_solver]. }
    destruct (encoder_allocate_ok reqs e r i Hinv Hr Hi Hni) as (e' & H1 & H2 & H3 & _ & _ & H4 & _).
    exists e'. split; [done|]. split; [done|]. split; [done|]. unfold has_cache, get_cached_input_ids in *.
    destruct (cached e' !! request_id r); cbn in H4; [apply bool_decide_eq_true; set_solver|set_solver].
  - destruct (free_inputs_ok reqs r (elements (get_cached_input_ids e r)) e Hinv Hr) as (e' & H1 & H2 & H3 & _ & H4 & H5 & H6).
    { apply NoDup_elements. } { intros i. by rewrite elem_of_elements. }
    exists e'. split; [exact H1|]. split; [done|]. split; [|done].
    destruct (cached e' !! request_id r) as [ids|] eqn:E; [|done]. destruct (ei_known _ _ H2 _ _ E) as [Hne _].
    unfold get_cached_input_ids in H5. rewrite E in H5. cbn in H5. rewrite list_to_set_elements_L in H5. set_solver.
Qed.

(** [free_encoder_input] credits the tokens of an input that is not cached
    when another input of the request is: the free slots then exceed what the
    cached inputs leave. *)
Theorem free_uncached_input_overcounts reqs e r i :
  enc_inv reqs e -> reqs !! request_id r = Some r -> 0 <= i < Z.of_nat (length (mm_positions r)) ->
  0 < input_tokens r i -> is_Some (cached e !! request_id r) -> has_cache e r i = false ->
  exists e', free_encoder_input e r i = Ok e' /\ cache_size e' < num_free_slots e' + cached_tokens reqs e'.
Proof.
  intros [Hk Hs] Hr Hi Hpos [ids E] Hc. unfold free_encoder_input. rewrite E, tokens_of_input by done. cbn [bind].
  eexists. split; [reflexivity|]. cbn [cache_size num_free_slots]. unfold has_cache in Hc. rewrite E in Hc. apply bool_decide_eq_false in Hc.
  assert (Hids : ids ∖ {[i]} = ids) by set_solver. rewrite Hids. destruct (Hk _ _ E) as [Hne _].
  rewrite decide_False by (intros Hsz; apply Hne; by apply size_empty_inv, leibniz_equiv in Hsz).
  assert (Hid : <[request_id r := ids]> (cached e) = cached e) by (by apply insert_id). rewrite Hid.
  unfold cached_tokens in *. cbn [cached]. lia.
Qed.

(** ** A request with two images *)

Definition two_image_request : Request := keyed_request "a" [1; 2; 3; 4] [(0, 3); (3, 5)] [None; None] None None.
Definition demo_cache : EncoderCacheManager :=
  {| cache_size := 8; num_free_slots := 5; cached := {[ "a"%string := {[0]} ]}; freed := [] |}.
Lemma demo_cache_inv : enc_inv {[ "a"%string := two_image_request ]} demo_cache.
Proof.
  split.
  - intros id ids H. cbn in H. apply lookup_singleton_Some in H as [<- <-]. split; [set_solver|]. exists two_image_request.
    split; [apply lookup_singleton_eq|]. split; [done|]. intros i ->%elem_of_singleton. cbn. lia.
  - vm_compute. reflexivity.
Qed.
Lemma encoder_cache_accounting_witness :
  exists e', free demo_cache two_image_request = Ok e' /\ num_free_slots e' = 8.
Proof.
  destruct (encoder_cache_accounting {[ "a"%string := two_image_request ]} demo_cache two_image_request demo_cache_inv) as [_ (e' & H & _ & _ & Hf & _)];
    [apply lookup_singleton_eq|]. exists e'. split; [exact H|]. rewrite Hf. vm_compute. reflexivity.
Defined.
Lemma free_uncached_input_overcounts_witness :
  exists e', free_encoder_input demo_cache two_image_request 1 = Ok e' /\ cache_size e' < num_free_slots e' + 3.
Proof.
  destruct (free_uncached_input_overcounts {[ "a"%string := two_image_request ]} demo_cache two_image_request 1 demo_cache_inv) as (e' & H & Hlt);
    [apply lookup_singleton_eq|cbn; lia|vm_compute; reflexivity|exists {[0]}; apply lookup_singleton_eq|vm_compute; reflexivity|].
  exists e'. split; [exact H|]. revert Hlt. injection H as <-. vm_compute. intros Hlt. exact Hlt.
Defined.
