(* ===== verification/SchedulerTypes.v ===== *)
(** * Data and interfaces of the autoregressive scheduler

    What the scheduler keeps ([v1/core/sched/scheduler.py]), what it hands out
    ([v1/core/sched/output.py]) and takes back, and the interfaces of the KV cache
    manager and the KV connector it calls. *)

From stdpp Require Import base gmap strings list fin_sets.
From Stdlib Require Import ZArith QArith.
From S2P Require Import Prelude RequestQueue Request BlockHash BlockPool KVCacheManager.
From S2P Require EncoderCache.
Open Scope list_scope.
Open Scope Z_scope.

(** A Python dict in insertion order. *)
Section dict.
Context {A B : Type} `{EqDecision A}.
Fixpoint dict_get (d : list (A * B)) (k : A) : option B :=
  match d with [] => None | (k', v) :: d => if decide (k' = k) then Some v else dict_get d k end.
Fixpoint dict_set (d : list (A * B)) (k : A) (v : B) : list (A * B) :=
  match d with [] => [(k, v)] | (k', v') :: d => if decide (k' = k) then (k', v) :: d else (k', v') :: dict_set d k v end.
End dict.

(** ** The calls to the KV cache manager *)

Class KVManager (K : Type) := {
  kv_get_computed_blocks : K -> Request -> res (KVCacheBlocks * Z * K);
  kv_allocate_slots : K -> Request -> Z -> Z -> option KVCacheBlocks -> Z -> bool -> res (option KVCacheBlocks * K);
  kv_free : K -> Request -> res K;
  kv_free_block_hashes : K -> Request -> K;
  kv_cache_blocks : K -> Request -> Z -> res K;
  kv_get_block_ids : K -> string -> list (list Z);
  kv_create_empty_block_list : K -> KVCacheBlocks;
  kv_get_num_common_prefix_blocks : K -> Request -> Z -> res (list Z * K);
  kv_take_events : K -> list KVCacheEvent * K;
  kv_reset_prefix_cache : K -> res (bool * K);
  kv_make_prefix_cache_stats : K -> option PrefixCacheStats * K }.

(** The manager of this library, for a hash function and its seed. *)
Definition paged_manager (hash_fn : Z * list Z * option (list ExtraKey) -> Z) (NONE_HASH : Z) : KVManager KVCacheManager := {|
  kv_get_computed_blocks := get_computed_blocks hash_fn NONE_HASH;
  kv_allocate_slots := allocate_slots hash_fn NONE_HASH;
  kv_free := free;
  kv_free_block_hashes := free_block_hashes;
  kv_cache_blocks := cache_blocks hash_fn NONE_HASH;
  kv_get_block_ids := request_block_ids;
  kv_create_empty_block_list := create_empty_block_list;
  kv_get_num_common_prefix_blocks := get_num_common_prefix_blocks;
  kv_take_events := take_events;
  kv_reset_prefix_cache := reset_prefix_cache;
  kv_make_prefix_cache_stats := make_prefix_cache_stats |}.

(** ** What a step hands to the workers *)

(** [NewRequestData]; the multi-modal inputs are passed through and left out. *)
Record NewRequestData : Type := {
  new_req_id : string;
  new_prompt_token_ids : list Z;
  new_sampling_params : option SamplingParams;
  new_pooling_params : bool;
  new_block_ids_of : list (list Z);
  new_num_computed_tokens : Z;
  new_lora_request : option Z }.
Definition from_request (r : Request) (block_ids : list (list Z)) : NewRequestData :=
  {| new_req_id := request_id r; new_prompt_token_ids := prompt_token_ids r; new_sampling_params := sampling_params r;
     new_pooling_params := pooling_params r; new_block_ids_of := block_ids;
     new_num_computed_tokens := num_computed_tokens r; new_lora_request := lora_request r |}.

Record CachedRequestData : Type := {
  req_ids : list string;
  resumed_from_preemption : list bool;
  cached_new_token_ids : list (list Z);
  cached_new_block_ids : list (list (list Z));
  cached_num_computed_tokens : list Z }.

(** [SchedulerOutput] without the grammar bitmask and the connector's metadata,
    which only the workers read. *)
Record SchedulerOutput : Type := {
  scheduled_new_reqs : list NewRequestData;
  scheduled_cached_reqs : CachedRequestData;
  num_scheduled_tokens : list (string * Z);
  total_num_scheduled_tokens : Z;
  scheduled_spec_decode_tokens : list (string * list Z);
  scheduled_encoder_inputs : list (string * list Z);
  num_common_prefix_blocks : list Z;
  out_finished_req_ids : gset string;
  free_encoder_input_ids : list (string * Z);
  structured_output_request_ids : list (string * Z) }.

(** The connector of [distributed/kv_transfer]; the pair of [request_finished] is
    whether the blocks are freed later and whether there are transfer parameters. *)
Class KVConnector (C : Type) := {
  get_num_new_matched_tokens : C -> Request -> Z -> Z * bool * C;
  update_state_after_alloc : C -> Request -> KVCacheBlocks -> Z -> C;
  build_connector_meta : C -> SchedulerOutput -> C;
  request_finished : C -> Request -> list Z -> bool * bool * C;
  update_connector_output : C -> list string * list string -> C }.

(** ** What comes back *)

(** [ModelRunnerOutput]: a pooler output stands for "is not None", a request in
    [prompt_logprobs_of] has prompt logprobs.  The sampled logprobs and the NaN
    counts are passed through and left out. *)
Record ModelRunnerOutput : Type := {
  req_id_to_index : gmap string nat;
  sampled_token_ids : list (list Z);
  runner_spec_token_ids : option (list (list Z));
  pooler_output : list bool;
  prompt_logprobs_of : gset string;
  kv_connector_output : option (list string * list string) }.

(** [EngineCoreOutput] without the logprobs, the events and the contents of the
    pooling output and of the transfer parameters. *)
Record EngineCoreOutput : Type := {
  eco_request_id : string;
  eco_new_token_ids : list Z;
  eco_finish_reason : option FinishReason;
  eco_stop_reason : option Z;
  eco_pooling_output : bool;
  eco_num_cached_tokens : Z }.

(** [SpecDecodingStats] of [v1/spec_decode/metrics.py]. *)
Record SpecDecodingStats : Type := {
  stats_num_spec_tokens : Z;
  num_drafts : Z;
  num_draft_tokens : Z;
  num_accepted_tokens : Z;
  num_accepted_tokens_per_pos : list Z }.
Definition new_spec_stats (n : Z) : SpecDecodingStats :=
  {| stats_num_spec_tokens := n; num_drafts := 0; num_draft_tokens := 0; num_accepted_tokens := 0;
     num_accepted_tokens_per_pos := py_repeat 0 n |}.
(** The first [n] counters grow by one; past the end is an [IndexError]. *)
Fixpoint bump (n : nat) (l : list Z) : res (list Z) :=
  match n, l with
  | 0%nat, l => Ok l
  | S n, x :: l => let! l := bump n l in Ok (x + 1 :: l)
  | S _, [] => Raise IndexError
  end.
Definition observe_draft (s : SpecDecodingStats) (draft accepted : Z) : res SpecDecodingStats :=
  py_assert (accepted <=? stats_num_spec_tokens s) ;;!
  (let! per_pos := bump (Z.to_nat accepted) (num_accepted_tokens_per_pos s) in
   Ok {| stats_num_spec_tokens := stats_num_spec_tokens s; num_drafts := num_drafts s + 1;
         num_draft_tokens := num_draft_tokens s + draft; num_accepted_tokens := num_accepted_tokens s + accepted;
         num_accepted_tokens_per_pos := per_pos |}).

(** [SchedulerStats] without the usage (a float) and the counters of the data
    parallel coordinator, and [EngineCoreOutputs] with the fields that the
    scheduler sets. *)
Record SchedulerStats : Type := {
  num_running_reqs : Z;
  num_waiting_reqs : Z;
  stats_prefix_cache : PrefixCacheStats;
  spec_decoding_stats : option SpecDecodingStats }.
Record EngineCoreOutputs : Type := {
  outputs : list EngineCoreOutput;
  finished_requests : option (gset string);
  scheduler_stats : option SchedulerStats }.

(** ** The scheduler *)

(** The settings, fixed by [__init__]; [max_loras] is [None] without a LoRA
    configuration. *)
Record Settings : Type := {
  max_num_running_reqs : nat;
  max_num_scheduled_tokens : Z;
  sched_max_model_len : Z;
  sched_policy : SchedulingPolicy;
  long_prefill_token_threshold : Z;
  chunked_prefill_enabled : bool;
  disable_chunked_mm_input : bool;
  max_loras : option nat;
  max_num_encoder_input_tokens : Z;
  num_spec_tokens : Z;
  num_lookahead_tokens : Z;
  use_pp : bool;
  async_scheduling : bool;
  sched_block_size : Z;
  num_groups : nat;
  sched_log_stats : bool }.

(** The state.  [objs] holds the request objects, identified by their ids: the
    queues, the dict [requests] and the running list refer to the same objects. *)
Record Scheduler (K C : Type) : Type := {
  objs : gmap string Request;
  requests : gset string;
  waiting : list string;
  running : list string;
  finished_req_ids : gset string;
  finished_req_ids_dict : option (list (Z * gset string));
  finished_recving_kv_req_ids : gset string;
  encoder_cache : EncoderCache.EncoderCacheManager;
  kv : K;
  connector : option C }.
Arguments objs {K C}. Arguments requests {K C}. Arguments waiting {K C}. Arguments running {K C}.
Arguments finished_req_ids {K C}. Arguments finished_req_ids_dict {K C}. Arguments finished_recving_kv_req_ids {K C}.
Arguments encoder_cache {K C}. Arguments kv {K C}. Arguments connector {K C}.

(** [Scheduler.__init__] with the manager, the connector and the size of the encoder
    cache that it creates. *)
Definition make_scheduler {K C : Type} (kv_cache_manager : K) (kv_connector : option C) (encoder_cache_size : Z)
    (include_finished_set : bool) : Scheduler K C :=
  {| objs := ∅; requests := ∅; waiting := []; running := []; finished_req_ids := ∅;
     finished_req_ids_dict := if include_finished_set then Some [] else None; finished_recving_kv_req_ids := ∅;
     encoder_cache := EncoderCache.make_encoder_cache_manager encoder_cache_size; kv := kv_cache_manager;
     connector := kv_connector |}.

Section setters.
Context {K C : Type}.
Implicit Type s : Scheduler K C.
Definition set_objs s o : Scheduler K C :=
  {| objs := o; requests := requests s; waiting := waiting s; running := running s; finished_req_ids := finished_req_ids s;
     finished_req_ids_dict := finished_req_ids_dict s; finished_recving_kv_req_ids := finished_recving_kv_req_ids s;
     encoder_cache := encoder_cache s; kv := kv s; connector := connector s |}.
Definition set_requests s q : Scheduler K C :=
  {| objs := objs s; requests := q; waiting := waiting s; running := running s; finished_req_ids := finished_req_ids s;
     finished_req_ids_dict := finished_req_ids_dict s; finished_recving_kv_req_ids := finished_recving_kv_req_ids s;
     encoder_cache := encoder_cache s; kv := kv s; connector := connector s |}.
Definition set_lists s w r : Scheduler K C :=
  {| objs := objs s; requests := requests s; waiting := w; running := r; finished_req_ids := finished_req_ids s;
     finished_req_ids_dict := finished_req_ids_dict s; finished_recving_kv_req_ids := finished_recving_kv_req_ids s;
     encoder_cache := encoder_cache s; kv := kv s; connector := connector s |}.
Definition set_finished s f d : Scheduler K C :=
  {| objs := objs s; requests := requests s; waiting := waiting s; running := running s; finished_req_ids := f;
     finished_req_ids_dict := d; finished_recving_kv_req_ids := finished_recving_kv_req_ids s;
     encoder_cache := encoder_cache s; kv := kv s; connector := connector s |}.
Definition set_recving s f : Scheduler K C :=
  {| objs := objs s; requests := requests s; waiting := waiting s; running := running s; finished_req_ids := finished_req_ids s;
     finished_req_ids_dict := finished_req_ids_dict s; finished_recving_kv_req_ids := f;
     encoder_cache := encoder_cache s; kv := kv s; connector := connector s |}.
Definition set_encoder s e : Scheduler K C :=
  {| objs := objs s; requests := requests s; waiting := waiting s; running := running s; finished_req_ids := finished_req_ids s;
     finished_req_ids_dict := finished_req_ids_dict s; finished_recving_kv_req_ids := finished_recving_kv_req_ids s;
     encoder_cache := e; kv := kv s; connector := connector s |}.
Definition set_kv s k : Scheduler K C :=
  {| objs := objs s; requests := requests s; waiting := waiting s; running := running s; finished_req_ids := finished_req_ids s;
     finished_req_ids_dict := finished_req_ids_dict s; finished_recving_kv_req_ids := finished_recving_kv_req_ids s;
     encoder_cache := encoder_cache s; kv := k; connector := connector s |}.
Definition set_connector s c : Scheduler K C :=
  {| objs := objs s; requests := requests s; waiting := waiting s; running := running s; finished_req_ids := finished_req_ids s;
     finished_req_ids_dict := finished_req_ids_dict s; finished_recving_kv_req_ids := finished_recving_kv_req_ids s;
     encoder_cache := encoder_cache s; kv := kv s; connector := c |}.

Definition obj s (id : string) : res Request := of_option KeyError (objs s !! id).
Definition set_obj s (id : string) (r : Request) : Scheduler K C := set_objs s (<[id := r]> (objs s)).
(** The waiting queue of the configured policy; its order reads the keys of the objects. *)
Definition waiting_queue (cfg : Settings) s : RequestQueue string (list string) :=
  create_request_queue (fun id => match objs s !! id with Some r => priority r | None => 0 end)
    (fun id => match objs s !! id with Some r => arrival_time r | None => 0%Q end) (sched_policy cfg).
End setters.

(** What one call of [schedule] collects. *)
Record Step : Type := {
  token_budget : Z;
  encoder_budget : Z;
  new_reqs : list string;
  resumed_reqs : list string;
  running_reqs : list string;
  preempted_reqs : list string;
  structured : list (string * Z);
  block_ids : list (string * list (list Z));
  tokens : list (string * Z);
  spec_tokens : list (string * list Z);
  encoder_inputs : list (string * list Z) }.
