(* ===== verification/Scheduler.v ===== *)
(** * The autoregressive scheduler ([v1/core/sched/scheduler.py])

    [schedule] builds the batch of a step from the running and the waiting
    requests, [update_from_output] applies the sampled tokens, [finish_requests]
    aborts requests.  [AsyncScheduler] overrides two methods; the flag
    [async_scheduling] selects them. *)

From stdpp Require Import base gmap strings list fin_sets.
From Stdlib Require Import ZArith QArith.
From S2P Require Import Prelude RequestQueue Request BlockHash BlockPool KVCacheManager SchedulerTypes.
From S2P Require EncoderCache.
Open Scope string_scope.
Open Scope list_scope.
Open Scope Z_scope.

(** ** [check_stop] of [sched/utils.py] *)

(** The answer and the request with its new status. *)
Definition check_stop (request : Request) (max_model_len : Z) (pooler_output : bool) : res (bool * Request) :=
  if (max_model_len <=? num_tokens request) || (max_tokens request <=? num_output_tokens request)
  then Ok (true, set_status request FINISHED_LENGTH_CAPPED)
  else if pooling_params request then
    if pooler_output then Ok (true, set_status request FINISHED_STOPPED) else Ok (false, request)
  else
    let! sp := of_option AssertionError (sampling_params request) in
    let! last_token_id := of_option IndexError (last (output_token_ids request)) in
    if negb (ignore_eos sp) && bool_decide (Some last_token_id = eos_token_id request)
    then Ok (true, set_status request FINISHED_STOPPED)
    else if bool_decide (last_token_id ∈ default [] (stop_token_ids sp))
    then Ok (true, set_stop_reason (set_status request FINISHED_STOPPED) (Some last_token_id))
    else Ok (false, request).

Section scheduler.
Context {K C : Type} {KM : KVManager K} {KC : KVConnector C}.
(** Structured output: whether the grammar of a request is compiled, whether it
    advances, and the drafts that it accepts. *)
Context (grammar_ready : string -> bool) (should_advance : Request -> bool).
Context (validate_tokens : Request -> list Z -> list Z).
Context (cfg : Settings).
Notation State := (Scheduler K C).
Implicit Type s : State.
Implicit Type st : Step.

(** ** Encoder inputs *)

(** The loop of [_try_schedule_encoder_inputs] over [enumerate(mm_positions)]. *)
Fixpoint encoder_loop (e : EncoderCache.EncoderCacheManager) (request : Request) (num_computed_tokens : Z) (i : Z)
    (positions : list (Z * Z)) (to_schedule : list Z) (num_new_tokens budget : Z) : res (list Z * Z * Z) :=
  match positions with
  | [] => Ok (to_schedule, num_new_tokens, budget)
  | (start_pos, num_encoder_tokens) :: positions =>
      if num_computed_tokens + num_new_tokens <=? start_pos then Ok (to_schedule, num_new_tokens, budget)
      else if start_pos + num_encoder_tokens <=? num_computed_tokens
      then encoder_loop e request num_computed_tokens (i + 1) positions to_schedule num_new_tokens budget
      else if EncoderCache.has_cache e request i
      then encoder_loop e request num_computed_tokens (i + 1) positions to_schedule num_new_tokens budget
      else if disable_chunked_mm_input cfg && (num_computed_tokens <? start_pos)
                && (num_computed_tokens + num_new_tokens <? start_pos + num_encoder_tokens)
      then Ok (to_schedule, start_pos - num_computed_tokens, budget)
      else
        let! can := EncoderCache.can_allocate e request i in
        if negb can || (budget <? num_encoder_tokens)
        then Ok (to_schedule, if num_computed_tokens <? start_pos then start_pos - num_computed_tokens else 0, budget)
        else encoder_loop e request num_computed_tokens (i + 1) positions (to_schedule ++ [i]) num_new_tokens
               (budget - num_encoder_tokens)
  end.
Definition _try_schedule_encoder_inputs s (request : Request) (num_computed_tokens num_new_tokens budget : Z) :
    res (list Z * Z * Z) :=
  if (num_new_tokens =? 0) || negb (has_encoder_inputs request) then Ok ([], num_new_tokens, budget)
  else encoder_loop (encoder_cache s) request num_computed_tokens 0 (mm_positions request) [] num_new_tokens budget.
(** The encoder inputs of a request, if it has any. *)
Definition plan_encoder s (request : Request) (num_computed_tokens num_new_tokens budget : Z) : res (list Z * Z * Z) :=
  if has_encoder_inputs request then _try_schedule_encoder_inputs s request num_computed_tokens num_new_tokens budget
  else Ok ([], num_new_tokens, budget).

(** The end of the handling of a scheduled request. *)
Definition commit_encoder s st (id : string) (request : Request) (inputs : list Z) (new_budget : Z) : res (State * Step) :=
  match inputs with
  | [] => Ok (s, st)
  | _ =>
      let! e := res_fold (fun e i => EncoderCache.allocate e request i) inputs (encoder_cache s) in
      Ok (set_encoder s e,
          {| token_budget := token_budget st; encoder_budget := new_budget; new_reqs := new_reqs st;
             resumed_reqs := resumed_reqs st; running_reqs := running_reqs st; preempted_reqs := preempted_reqs st;
             structured := structured st; block_ids := block_ids st; tokens := tokens st; spec_tokens := spec_tokens st;
             encoder_inputs := dict_set (encoder_inputs st) id inputs |})
  end.

Definition _free_encoder_inputs s (request : Request) : res State :=
  let! e := res_fold (fun e input_id =>
      let! '(start_pos, num_tokens) := py_nth (mm_positions request) input_id in
      if start_pos + num_tokens <=? num_computed_tokens request
      then EncoderCache.free_encoder_input e request input_id else Ok e)
    (elements (EncoderCache.get_cached_input_ids (encoder_cache s) request)) (encoder_cache s) in
  Ok (set_encoder s e).

(** ** The RUNNING requests *)

(** [max(self.running, key=lambda r: (r.priority, r.arrival_time))]: the first maximum. *)
Definition key_lt (a b : Request) : bool :=
  (priority a <? priority b) || ((priority a =? priority b) && negb (Qle_bool (arrival_time b) (arrival_time a))).
Fixpoint max_key s (best : string * Request) (ids : list string) : res string :=
  match ids with
  | [] => Ok best.1
  | id :: ids => let! r := obj s id in max_key s (if key_lt best.2 r then (id, r) else best) ids
  end.
(** [l.remove(x)] and [l.pop()] *)
Fixpoint list_remove (l : list string) (x : string) : res (list string) :=
  match l with
  | [] => Raise ValueError
  | y :: l => if String.eqb y x then Ok l else let! l := list_remove l x in Ok (y :: l)
  end.
Definition list_pop (l : list string) : res (string * list string) :=
  match last l with Some x => Ok (x, removelast l) | None => Raise IndexError end.
Definition choose_preempted s : res (string * list string) :=
  match sched_policy cfg with
  | PRIORITY =>
      match running s with
      | [] => Raise ValueError
      | id :: ids =>
          let! r := obj s id in
          let! victim := max_key s (id, r) ids in
          let! rest := list_remove (running s) victim in
          Ok (victim, rest)
      end
  | FCFS => list_pop (running s)
  end.
Definition preempt s st : res (string * State * Step) :=
  let! '(victim, rest) := choose_preempted s in
  let! r := obj s victim in
  let! k := kv_free (kv s) r in
  let s := set_obj (set_kv (set_lists s (waiting s) rest) k) victim (set_num_computed_tokens (set_status r PREEMPTED) 0) in
  let! w := @prepend_request string (list string) (waiting_queue cfg s) (waiting s) victim in
  Ok (victim, set_lists s w (running s),
      {| token_budget := token_budget st; encoder_budget := encoder_budget st; new_reqs := new_reqs st;
         resumed_reqs := resumed_reqs st; running_reqs := running_reqs st; preempted_reqs := preempted_reqs st ++ [victim];
         structured := structured st; block_ids := block_ids st; tokens := tokens st; spec_tokens := spec_tokens st;
         encoder_inputs := encoder_inputs st |}).
(** The inner loop.  Every round but the last preempts a request, so the length of
    the running list bounds the rounds: with an empty list there is nothing left
    to preempt. *)
Fixpoint allocate_or_preempt (n : nat) s st (id : string) (request : Request) (num_new_tokens : Z) :
    res (option KVCacheBlocks * State * Step) :=
  let! '(new_blocks, k) := kv_allocate_slots (kv s) request num_new_tokens 0 None (num_lookahead_tokens cfg) false in
  let s := set_kv s k in
  match new_blocks with
  | Some b => Ok (Some b, s, st)
  | None =>
      match n with
      | 0%nat => let! _ := choose_preempted s in Raise RuntimeError
      | S n =>
          let! '(victim, s, st) := preempt s st in
          if String.eqb victim id then Ok (None, s, st)
          else allocate_or_preempt n s st id request num_new_tokens
      end
  end.

(** The number of tokens that a running request gets. *)
Definition running_tokens (request : Request) (budget : Z) : Z :=
  let n := num_tokens_with_spec request + num_output_placeholders request - num_computed_tokens request in
  let n := if (0 <? long_prefill_token_threshold cfg) && (long_prefill_token_threshold cfg <? n)
           then long_prefill_token_threshold cfg else n in
  let n := Z.min n budget in
  Z.min n (sched_max_model_len cfg - 1 - num_computed_tokens request).

Definition record_running st (id : string) (request : Request) (req_index : nat) (blocks : KVCacheBlocks) (n : Z)
    (spec : option (list Z)) : Step :=
  {| token_budget := token_budget st - n; encoder_budget := encoder_budget st; new_reqs := new_reqs st;
     resumed_reqs := resumed_reqs st; running_reqs := running_reqs st ++ [id]; preempted_reqs := preempted_reqs st;
     structured := if use_structured_output request then dict_set (structured st) id (Z.of_nat req_index) else structured st;
     block_ids := dict_set (block_ids st) id (get_block_ids blocks); tokens := dict_set (tokens st) id n;
     spec_tokens := match spec with Some l => dict_set (spec_tokens st) id l | None => spec_tokens st end;
     encoder_inputs := encoder_inputs st |}.
(** The drafts that fit into the scheduled tokens. *)
Definition scheduled_drafts (request : Request) (n : Z) : option (list Z) :=
  match spec_token_ids request with
  | [] => None
  | l =>
      let k := n + num_computed_tokens request - num_tokens request in
      if 0 <? k then Some (take (Z.to_nat k) l) else None
  end.

(** One round; the answer says whether the loop goes on. *)
Definition running_step s st (req_index : nat) (id : string) : res (bool * State * Step * nat) :=
  let! request := obj s id in
  let n := running_tokens request (token_budget st) in
  let! '(inputs, n, new_budget) := plan_encoder s request (num_computed_tokens request) n (encoder_budget st) in
  if n =? 0 then Ok (true, s, st, S req_index)
  else
    let! '(new_blocks, s, st) := allocate_or_preempt (length (running s)) s st id request n in
    match new_blocks with
    | None => Ok (false, s, st, req_index)
    | Some blocks =>
        let spec := scheduled_drafts request n in
        let st := record_running st id request req_index blocks n spec in
        let s := match spec with Some l => set_obj s id (set_spec_token_ids request l) | None => s end in
        let! '(s, st) := commit_encoder s st id request inputs new_budget in
        Ok (true, s, st, S req_index)
    end.
(** Every round but the last advances the index. *)
Fixpoint running_loop (fuel : nat) s st (req_index : nat) : res (State * Step * nat) :=
  match fuel with
  | 0%nat => Ok (s, st, req_index)
  | S fuel =>
      match running s !! req_index with
      | Some id =>
          if 0 <? token_budget st then
            let! '(go, s, st, req_index) := running_step s st req_index id in
            if (go : bool) then running_loop fuel s st req_index else Ok (s, st, req_index)
          else Ok (s, st, req_index)
      | None => Ok (s, st, req_index)
      end
  end.

Fixpoint lora_ids s (ids : list string) : res (gset Z) :=
  match ids with
  | [] => Ok ∅
  | id :: ids =>
      let! r := obj s id in
      let! l := lora_ids s ids in
      Ok (match lora_request r with Some k => if 0 <? k then {[k]} ∪ l else l | None => l end)
  end.
Definition running_loras s st : res (gset Z) :=
  match max_loras cfg with
  | None => Ok ∅
  | Some m => let! l := lora_ids s (running_reqs st) in py_assert (size l <=? m)%nat ;;! Ok l
  end.

(** ** The WAITING requests *)

Definition _update_waiting_for_remote_kv s (id : string) (request : Request) : res (bool * State) :=
  match connector s with
  | None => Raise AssertionError
  | Some _ =>
      if negb (bool_decide (id ∈ finished_recving_kv_req_ids s)) then Ok (false, s)
      else
        match kv_get_block_ids (kv s) id with
        | [ids] =>
            let n := Z.min (Z.of_nat (length ids) * sched_block_size cfg) (num_tokens request) in
            let n := if n =? num_tokens request then n - 1 else n in
            let! k := kv_cache_blocks (kv s) request n in
            let s := set_obj (set_kv s k) id (set_num_computed_tokens request n) in
            Ok (true, set_recving s (finished_recving_kv_req_ids s ∖ {[id]}))
        | _ => Raise ValueError
        end
  end.

(** Whether the peeked request must be skipped in this step. *)
Definition must_skip s (loras : gset Z) (id : string) : res (bool * State) :=
  let! request := obj s id in
  let! '(blocked, s) :=
    (if bool_decide (status request = WAITING_FOR_REMOTE_KVS) then
       let! '(is_ready, s) := _update_waiting_for_remote_kv s id request in
       if is_ready then let! r := obj s id in Ok (false, set_obj s id (set_status r WAITING)) else Ok (true, s)
     else Ok (false, s)) in
  if (blocked : bool) then Ok (true, s)
  else
    let! request := obj s id in
    let '(blocked, s) :=
      if bool_decide (status request = WAITING_FOR_FSM) then
        if grammar_ready id then (false, set_obj s id (set_status request WAITING)) else (true, s)
      else (false, s) in
    if blocked then Ok (true, s)
    else
      Ok (match max_loras cfg, lora_request request with
          | Some m, Some l => (size loras =? m)%nat && negb (bool_decide (l ∈ loras))
          | _, _ => false
          end, s).

(** Take the head of the waiting queue. *)
Definition pop_waiting s : res (string * State) :=
  let! '(id, w) := @pop_request string (list string) (waiting_queue cfg s) (waiting s) in
  Ok (id, set_lists s w (running s)).
(** Move the head of the waiting queue to the skipped requests. *)
Definition skip_head s (skipped : list string) : res (State * list string) :=
  let! '(id, s) := pop_waiting s in
  let! skipped := @prepend_request string (list string) (waiting_queue cfg s) skipped id in
  Ok (s, skipped).

(** The computed tokens of a waiting request: the blocks of a local prefix hit,
    its length, the external tokens, whether they load asynchronously. *)
Definition lookup_prefix s (request : Request) : res (KVCacheBlocks * Z * Z * bool * Z * State) :=
  if num_computed_tokens request =? 0 then
    let! '(blocks, local, k) := kv_get_computed_blocks (kv s) request in
    let s := set_kv s k in
    match connector s with
    | Some c =>
        let '(external, async, c) := get_num_new_matched_tokens c request local in
        Ok (blocks, local, external, async, local + external, set_connector s (Some c))
    | None => Ok (blocks, local, 0, false, local, s)
    end
  else Ok (kv_create_empty_block_list (kv s), 0, 0, false, num_computed_tokens request, s).

Definition record_admitted st (id : string) (request : Request) (req_index : nat) (blocks : list (list Z)) (n : Z)
    (resumed : bool) : Step :=
  {| token_budget := token_budget st - n; encoder_budget := encoder_budget st;
     new_reqs := if resumed then new_reqs st else new_reqs st ++ [id];
     resumed_reqs := if resumed then resumed_reqs st ++ [id] else resumed_reqs st;
     running_reqs := running_reqs st; preempted_reqs := preempted_reqs st;
     structured := if use_structured_output request then dict_set (structured st) id (Z.of_nat req_index) else structured st;
     block_ids := dict_set (block_ids st) id blocks; tokens := dict_set (tokens st) id n;
     spec_tokens := spec_tokens st; encoder_inputs := encoder_inputs st |}.

(** The loop state of the waiting requests. *)
Record Admission : Type := { adm_state : State; adm_step : Step; adm_index : nat; adm_skipped : list string; adm_loras : gset Z }.
Definition mk_admission s st i sk lo : Admission := {| adm_state := s; adm_step := st; adm_index := i; adm_skipped := sk; adm_loras := lo |}.

(** The request has its slots: it leaves the waiting queue for the running list
    (or, when its KV cache is loaded asynchronously, for the skipped requests). *)
Definition admit_waiting (a : Admission) (request : Request) (num_computed_tokens external : Z) (async : bool)
    (hit_blocks new_blocks : KVCacheBlocks) (n : Z) (inputs : list Z) (new_budget : Z) : res Admission :=
  let s := adm_state a in
  let s := match connector s with
           | Some c => set_connector s (Some (update_state_after_alloc c request (add_blocks hit_blocks new_blocks) external))
           | None => s
           end in
  let! '(id, s) := pop_waiting s in
  if (async : bool) then
    let! skipped := @prepend_request string (list string) (waiting_queue cfg s) (adm_skipped a) id in
    let! r := obj s id in
    Ok (mk_admission (set_obj s id (set_status r WAITING_FOR_REMOTE_KVS)) (adm_step a) (adm_index a) skipped (adm_loras a))
  else
    let! request := obj s id in
    let s := set_lists s (waiting s) (running s ++ [id]) in
    let! resumed := match status request with WAITING => Ok false | PREEMPTED => Ok true | _ => Raise RuntimeError end in
    let loras := match max_loras cfg, lora_request request with
                 | Some _, Some l => {[l]} ∪ adm_loras a
                 | _, _ => adm_loras a
                 end in
    let st := record_admitted (adm_step a) id request (adm_index a) (kv_get_block_ids (kv s) id) n resumed in
    let r := set_num_computed_tokens (set_status request RUNNING) num_computed_tokens in
    let r := if num_cached_tokens r <? 0 then set_num_cached_tokens r num_computed_tokens else r in
    let s := set_obj s id r in
    let! '(s, st) := commit_encoder s st id r inputs new_budget in
    Ok (mk_admission s st (S (adm_index a)) (adm_skipped a) loras).

(** The number of tokens that a waiting request gets; [None] when it must wait
    for a step with a larger budget. *)
Definition waiting_tokens (request : Request) (num_computed_tokens budget : Z) : option Z :=
  let n := num_tokens request - num_computed_tokens in
  let n := if (0 <? long_prefill_token_threshold cfg) && (long_prefill_token_threshold cfg <? n)
           then long_prefill_token_threshold cfg else n in
  if negb (chunked_prefill_enabled cfg) && (budget <? n) then None else Some (Z.min n budget).

(** One round; the answer says whether the loop goes on. *)
Definition waiting_step (a : Admission) : res (bool * Admission) :=
  let s := adm_state a in let st := adm_step a in
  let! id := @peek_request string (list string) (waiting_queue cfg s) (waiting s) in
  let skip s := let! '(s, skipped) := skip_head s (adm_skipped a) in
                Ok (true, mk_admission s st (adm_index a) skipped (adm_loras a)) in
  let! '(blocked, s) := must_skip s (adm_loras a) id in
  if (blocked : bool) then skip s
  else
    let! request := obj s id in
    let! '(hit_blocks, local, external, async, num_computed, s) := lookup_prefix s request in
    let! plan :=
      (if (async : bool) then py_assert (0 <? external) ;;! Ok (Some ([], 0, encoder_budget st))
       else
         match waiting_tokens request num_computed (token_budget st) with
         | None => Ok None
         | Some n =>
             py_assert (0 <? n) ;;!
             (let! p := plan_encoder s request num_computed n (encoder_budget st) in Ok (Some p))
         end) in
    match plan with
    | None => skip s
    | Some (inputs, n, new_budget) =>
        if negb async && (n =? 0) then Ok (false, mk_admission s st (adm_index a) (adm_skipped a) (adm_loras a))
        else
          let lookahead := if num_computed_tokens request =? 0 then 0 else num_lookahead_tokens cfg in
          let! '(new_blocks, k) := kv_allocate_slots (kv s) request (n + external) local (Some hit_blocks) lookahead async in
          let s := set_kv s k in
          let a := mk_admission s st (adm_index a) (adm_skipped a) (adm_loras a) in
          match new_blocks with
          | None => Ok (false, a)
          | Some new_blocks =>
              let! a := admit_waiting a request num_computed external async hit_blocks new_blocks n inputs new_budget in
              Ok (true, a)
          end
    end.
(** Every round but the last takes a request from the waiting queue. *)
Fixpoint waiting_loop (fuel : nat) (a : Admission) : res Admission :=
  match fuel with
  | 0%nat => Ok a
  | S fuel =>
      if @queue_bool string (list string) (waiting_queue cfg (adm_state a)) (waiting (adm_state a)) && (0 <? token_budget (adm_step a)) then
        if (length (running (adm_state a)) =? max_num_running_reqs cfg)%nat then Ok a
        else
          let! '(go, a) := waiting_step a in
          if (go : bool) then waiting_loop fuel a else Ok a
      else Ok a
  end.

(** ** The output of a step *)

Fixpoint cached_rows s st (ids : list string) : res (list (list Z * list (list Z) * Z)) :=
  match ids with
  | [] => Ok []
  | id :: ids =>
      let! r := obj s id in
      let! n := of_option KeyError (dict_get (tokens st) id) in
      let n := n - Z.of_nat (length (default [] (dict_get (spec_tokens st) id))) in
      let! b := of_option KeyError (dict_get (block_ids st) id) in
      let! rows := cached_rows s st ids in
      Ok ((py_slice (all_token_ids r) (num_computed_tokens r) (num_computed_tokens r + n), b, num_computed_tokens r) :: rows)
  end.
Definition _make_cached_request_data s st : res CachedRequestData :=
  let ids := running_reqs st ++ resumed_reqs st in
  let! rows := cached_rows s st ids in
  Ok {| req_ids := ids;
        resumed_from_preemption := repeat false (length (running_reqs st)) ++ repeat true (length (resumed_reqs st));
        cached_new_token_ids := if use_pp cfg then map (fun r => r.1.1) rows
                                else match connector s with Some _ => map (fun _ => []) rows | None => [] end;
        cached_new_block_ids := map (fun r => r.1.2) rows;
        cached_num_computed_tokens := map snd rows |}.

Fixpoint new_rows s st (ids : list string) : res (list NewRequestData) :=
  match ids with
  | [] => Ok []
  | id :: ids =>
      let! r := obj s id in
      let! b := of_option KeyError (dict_get (block_ids st) id) in
      let! rows := new_rows s st ids in
      Ok (from_request r b :: rows)
  end.

(** [_update_after_schedule] of [Scheduler] and of [AsyncScheduler]. *)
Definition advance s (id : string) (n : Z) : res State :=
  if negb (bool_decide (id ∈ requests s)) then Raise KeyError
  else
    let! r := obj s id in
    let r := set_num_computed_tokens r (num_computed_tokens r + n) in
    let s := set_obj s id r in
    if has_encoder_inputs r then _free_encoder_inputs s r else Ok s.
Definition add_placeholder s (id : string) : res State :=
  if negb (bool_decide (id ∈ requests s)) then Raise KeyError
  else
    let! r := obj s id in
    if num_computed_tokens r =? num_tokens r + num_output_placeholders r
    then Ok (set_obj s id (set_num_output_placeholders r (num_output_placeholders r + 1)))
    else Ok s.
Definition _update_after_schedule s (scheduled : list (string * Z)) : res State :=
  let! s := res_fold (fun s e => advance s e.1 e.2) scheduled s in
  let s := set_finished s ∅ (finished_req_ids_dict s) in
  if async_scheduling cfg then res_fold (fun s e => add_placeholder s e.1) scheduled s else Ok s.

Definition empty_step : Step :=
  {| token_budget := max_num_scheduled_tokens cfg; encoder_budget := max_num_encoder_input_tokens cfg; new_reqs := [];
     resumed_reqs := []; running_reqs := []; preempted_reqs := []; structured := []; block_ids := []; tokens := [];
     spec_tokens := []; encoder_inputs := [] |}.

(** The assertions between the two loops and the output. *)
Definition check_step s st : res unit :=
  py_assert (zsum (map snd (tokens st)) <=? max_num_scheduled_tokens cfg) ;;!
  py_assert (0 <=? token_budget st) ;;!
  py_assert (length (running s) <=? max_num_running_reqs cfg)%nat ;;!
  py_assert (length (new_reqs st) + length (resumed_reqs st) + length (running_reqs st) <=? length (running s))%nat.

Definition make_output s st : res (SchedulerOutput * State) :=
  let! '(common, s) :=
    match running s with
    | [] => Ok (repeat 0 (num_groups cfg), s)
    | id :: _ =>
        let! r := obj s id in
        let! '(l, k) := kv_get_num_common_prefix_blocks (kv s) r (Z.of_nat (length (running s))) in
        Ok (l, set_kv s k)
    end in
  let! new_data := new_rows s st (new_reqs st) in
  let! cached := _make_cached_request_data s st in
  let '(freed, e) := EncoderCache.get_freed_ids (encoder_cache s) in
  let s := set_encoder s e in
  Ok ({| scheduled_new_reqs := new_data; scheduled_cached_reqs := cached; num_scheduled_tokens := tokens st;
         total_num_scheduled_tokens := zsum (map snd (tokens st)); scheduled_spec_decode_tokens := spec_tokens st;
         scheduled_encoder_inputs := encoder_inputs st; num_common_prefix_blocks := common;
         out_finished_req_ids := finished_req_ids s; free_encoder_input_ids := freed;
         structured_output_request_ids := structured st |}, s).

(** [schedule]; the events are what the publisher gets. *)
Definition schedule s : res (SchedulerOutput * list KVCacheEvent * State) :=
  let! '(s, st, req_index) := running_loop (length (running s)) s empty_step 0 in
  let! loras := running_loras s st in
  let! a :=
    (match preempted_reqs st with
     | [] => waiting_loop (length (waiting s)) (mk_admission s st req_index [] loras)
     | _ => Ok (mk_admission s st req_index [] loras)
     end) in
  let s := adm_state a in let st := adm_step a in
  let! w := (if @queue_bool string (list string) (waiting_queue cfg s) (adm_skipped a)
             then @prepend_requests string (list string) (waiting_queue cfg s) (waiting s) (adm_skipped a) else Ok (waiting s)) in
  let s := set_lists s w (running s) in
  check_step s st ;;!
  (let! '(out, s) := make_output s st in
   let s := match connector s with Some c => set_connector s (Some (build_connector_meta c out)) | None => s end in
   let '(events, k) := kv_take_events (kv s) in
   let! s := _update_after_schedule (set_kv s k) (num_scheduled_tokens out) in
   Ok (out, events, s)).
End scheduler.
