(* ===== verification/SchedulerUpdate.v ===== *)
(** * Results, aborts and arrivals of the autoregressive scheduler

    The rest of [v1/core/sched/scheduler.py]: [update_from_output] applies what the
    model runner returned, [finish_requests] ends requests from outside,
    [add_request] queues new ones. *)

From stdpp Require Import base gmap strings list fin_sets.
From Stdlib Require Import ZArith QArith.
From S2P Require Import Prelude RequestQueue Request BlockHash BlockPool KVCacheManager SchedulerTypes Scheduler.
From S2P Require EncoderCache.
Open Scope list_scope.
Open Scope Z_scope.

Section update.
Context {K C : Type} {KM : KVManager K} {KC : KVConnector C}.
Context (should_advance : Request -> bool) (validate_tokens : Request -> list Z -> list Z).
Context (cfg : Settings).
Notation State := (Scheduler K C).
Implicit Type s : State.

(** ** Ending a request *)

Definition _connector_finished s (request : Request) : res (bool * bool * State) :=
  match connector s with
  | None => Ok (false, false, s)
  | Some c =>
      match kv_get_block_ids (kv s) (request_id request) with
      | [ids] => let '(delay, params, c) := request_finished c request ids in Ok (delay, params, set_connector s (Some c))
      | _ => Raise ValueError
      end
  end.

Definition _free_blocks s (request : Request) : res State :=
  py_assert (is_finished request) ;;!
  (let! k := kv_free (kv s) request in
   let s := set_kv s (kv_free_block_hashes k request) in
   if bool_decide (request_id request ∈ requests s) then Ok (set_requests s (requests s ∖ {[request_id request]}))
   else Raise KeyError).

(** The answer is whether there are transfer parameters. *)
Definition _free_request s (request : Request) : res (bool * State) :=
  py_assert (is_finished request) ;;!
  (let! '(delay_free_blocks, params, s) := _connector_finished s request in
   let! e := EncoderCache.free (encoder_cache s) request in
   let s := set_encoder s e in
   let id := request_id request in
   let dict := match finished_req_ids_dict s with
               | Some d => Some (dict_set d (client_index request) (default ∅ (dict_get d (client_index request)) ∪ {[id]}))
               | None => None
               end in
   let s := set_finished s (finished_req_ids s ∪ {[id]}) dict in
   if (delay_free_blocks : bool) then Ok (params, s)
   else let! s := _free_blocks s request in Ok (params, s)).

(** ** New tokens *)

(** The loop over the sampled tokens: the kept tokens, whether the request
    stopped, and the request. *)
Fixpoint append_tokens (request : Request) (todo kept : list Z) : res (list Z * bool * Request) :=
  match todo with
  | [] => Ok (kept, false, request)
  | t :: todo =>
      let request := append_output_token_ids request [t] in
      let! '(stopped, request) := check_stop request (sched_max_model_len cfg) false in
      if (stopped : bool) then Ok (kept ++ [t], true, request) else append_tokens request todo (kept ++ [t])
  end.
(** [_update_request_with_output] of [Scheduler] and of [AsyncScheduler]. *)
Definition _update_request_with_output s (id : string) (request : Request) (new_token_ids : list Z) :
    res (list Z * bool * State) :=
  let! '(new_token_ids, stopped, r) := append_tokens request new_token_ids [] in
  if async_scheduling cfg then
    let r := set_num_output_placeholders r (num_output_placeholders r - Z.of_nat (length new_token_ids)) in
    py_assert (0 <=? num_output_placeholders r) ;;!
    (let s := set_obj s id r in
     if bool_decide (status request = RUNNING) then
       let! k := kv_cache_blocks (kv s) r (num_computed_tokens r - num_output_placeholders r) in
       Ok (new_token_ids, stopped, set_kv s k)
     else Ok (new_token_ids, stopped, s))
  else Ok (new_token_ids, stopped, set_obj s id r).

(** ** [update_from_output] *)

Definition make_spec_decoding_stats (stats : option SpecDecodingStats) (draft accepted : Z) : res (option SpecDecodingStats) :=
  if negb (sched_log_stats cfg) then Ok None
  else
    let stats := default (new_spec_stats (num_spec_tokens cfg)) stats in
    let! stats := observe_draft stats draft accepted in Ok (Some stats).

(** What the loop over the scheduled requests collects. *)
Record Update : Type := {
  upd_outputs : list (Z * list EngineCoreOutput);
  upd_stats : option SpecDecodingStats;
  stopped_running : list string;
  stopped_preempted : list string }.

Definition add_output (d : list (Z * list EngineCoreOutput)) (client : Z) (o : EngineCoreOutput) :=
  dict_set d client (default [] (dict_get d client) ++ [o]).

(** Rejected drafts are not computed. *)
Definition apply_rejections (request : Request) (drafts : option (list Z)) (generated : list Z)
    (stats : option SpecDecodingStats) : res (Request * option SpecDecodingStats) :=
  match drafts with
  | None | Some [] => Ok (request, stats)
  | Some l =>
      let num_tokens_rejected := Z.of_nat (length l) + 1 - Z.of_nat (length generated) in
      let! stats := make_spec_decoding_stats stats (Z.of_nat (length l)) (Z.of_nat (length generated) - 1) in
      Ok (set_num_computed_tokens request (num_computed_tokens request - num_tokens_rejected), stats)
  end.

(** The new tokens and the pooler's answer: kept tokens, whether the request
    stopped, whether it has a pooler output. *)
Definition apply_tokens s (id : string) (mro : ModelRunnerOutput) (req_index : nat) (generated : list Z) :
    res (list Z * bool * bool * State) :=
  let! request := obj s id in
  let! '(new_token_ids, stopped, s) :=
    match generated with [] => Ok ([], false, s) | _ => _update_request_with_output s id request generated end in
  match pooler_output mro with
  | [] => Ok (new_token_ids, stopped, false, s)
  | l =>
      let! p := of_option IndexError (l !! req_index) in
      let! request := obj s id in
      let! '(stopped, request) := check_stop request (sched_max_model_len cfg) p in
      Ok (new_token_ids, stopped, p, set_obj s id request)
  end.

(** The output of a request, if there is anything to report. *)
Definition deliver (mro : ModelRunnerOutput) (outs : list (Z * list EngineCoreOutput)) (id : string) (request : Request)
    (new_token_ids : list Z) (pooled params : bool) : res (list (Z * list EngineCoreOutput)) :=
  match new_token_ids, pooled, params with
  | [], false, false => py_assert (negb (bool_decide (id ∈ prompt_logprobs_of mro))) ;;! Ok outs
  | _, _, _ =>
      Ok (add_output outs (client_index request)
            {| eco_request_id := id; eco_new_token_ids := new_token_ids; eco_finish_reason := get_finished_reason (status request);
               eco_stop_reason := stop_reason request; eco_pooling_output := pooled; eco_num_cached_tokens := num_cached_tokens request |})
  end.

Definition update_request (out : SchedulerOutput) (mro : ModelRunnerOutput) s (u : Update) (id : string) (n : Z) :
    res (State * Update) :=
  py_assert (0 <? n) ;;!
  (if negb (bool_decide (id ∈ requests s)) then Ok (s, u)
   else
     let! request := obj s id in
     let! req_index := of_option KeyError (req_id_to_index mro !! id) in
     let! generated := match sampled_token_ids mro with [] => Ok [] | l => of_option IndexError (l !! req_index) end in
     let! '(request, stats) := apply_rejections request (dict_get (scheduled_spec_decode_tokens out) id) generated (upd_stats u) in
     let status_before_stop := status request in
     let s := set_obj s id request in
     let! '(new_token_ids, stopped, pooled, s) := apply_tokens s id mro req_index generated in
     let! request := obj s id in
     let! '(params, s) := (if (stopped : bool) then _free_request s request else Ok (false, s)) in
     let was_running := bool_decide (status_before_stop = RUNNING) in
     let! request :=
       match runner_spec_token_ids mro with
       | None => Ok request
       | Some l =>
           let! drafts := of_option IndexError (l !! req_index) in
           Ok (set_spec_token_ids request (if should_advance request then validate_tokens request drafts else drafts))
       end in
     let s := set_obj s id request in
     let! outs := deliver mro (upd_outputs u) id request new_token_ids pooled params in
     Ok (s, {| upd_outputs := outs; upd_stats := stats;
               stopped_running := if stopped && was_running then stopped_running u ++ [id] else stopped_running u;
               stopped_preempted := if stopped && negb was_running then stopped_preempted u ++ [id] else stopped_preempted u |})).

(** [_update_from_kv_xfer_finished] *)
Definition _update_from_kv_xfer_finished s (kco : list string * list string) : res State :=
  let s := match connector s with Some c => set_connector s (Some (update_connector_output c kco)) | None => s end in
  let s := set_recving s (finished_recving_kv_req_ids s ∪ list_to_set kco.1) in
  res_fold (fun s id =>
    if negb (bool_decide (id ∈ requests s)) then Raise KeyError
    else let! r := obj s id in _free_blocks s r) kco.2 s.

Definition make_stats s (spec : option SpecDecodingStats) : res (option SchedulerStats * State) :=
  if negb (sched_log_stats cfg) then Ok (None, s)
  else
    let '(p, k) := kv_make_prefix_cache_stats (kv s) in
    let! p := of_option AssertionError p in
    Ok (Some {| num_running_reqs := Z.of_nat (length (running s)); num_waiting_reqs := Z.of_nat (length (waiting s));
                stats_prefix_cache := p; spec_decoding_stats := spec |}, set_kv s k).

(** The finished ids of every client, added to its outputs. *)
Fixpoint add_finished (ecos : list (Z * EngineCoreOutputs)) (d : list (Z * gset string)) : list (Z * EngineCoreOutputs) :=
  match d with
  | [] => ecos
  | (client, ids) :: d =>
      let eco := match dict_get ecos client with
                 | Some eco => {| outputs := outputs eco; finished_requests := Some ids; scheduler_stats := scheduler_stats eco |}
                 | None => {| outputs := []; finished_requests := Some ids; scheduler_stats := None |}
                 end in
      add_finished (dict_set ecos client eco) d
  end.

Definition update_from_output s (out : SchedulerOutput) (mro : ModelRunnerOutput) : res (list (Z * EngineCoreOutputs) * State) :=
  let! '(s, u) := res_fold (fun su e => update_request out mro su.1 su.2 e.1 e.2) (num_scheduled_tokens out)
    (s, {| upd_outputs := []; upd_stats := None; stopped_running := []; stopped_preempted := [] |}) in
  let s := match stopped_running u with
           | [] => s
           | l => set_lists s (waiting s) (List.filter (fun id => negb (bool_decide (id ∈ l))) (running s))
           end in
  let! s := match stopped_preempted u with
            | [] => Ok s
            | l => let! w := @remove_requests string (list string) (waiting_queue cfg s) (waiting s) l in Ok (set_lists s w (running s))
            end in
  let! s := match kv_connector_output mro with None => Ok s | Some kco => _update_from_kv_xfer_finished s kco end in
  let ecos := map (fun o => (o.1, {| outputs := o.2; finished_requests := None; scheduler_stats := None |})) (upd_outputs u) in
  let '(ecos, s) := match finished_req_ids_dict s with
                    | None | Some [] => (ecos, s)
                    | Some d => (add_finished ecos d, set_finished s (finished_req_ids s) (Some []))
                    end in
  match ecos with
  | [] => Ok ([], s)
  | (client, eco) :: rest =>
      let! '(stats, s) := make_stats s (upd_stats u) in
      Ok ((client, {| outputs := outputs eco; finished_requests := finished_requests eco; scheduler_stats := stats |}) :: rest, s)
  end.

(** ** Arrivals and aborts *)

Definition add_request s (request : Request) : res State :=
  let id := request_id request in
  let s := set_obj s id request in
  let! w := @RequestQueue.add_request string (list string) (waiting_queue cfg s) (waiting s) id in
  Ok (set_requests (set_lists s w (running s)) (requests s ∪ {[id]})).

(** The ids that are known, split by where their requests are. *)
Fixpoint split_valid s (ids : list string) : res (list string * list string) :=
  match ids with
  | [] => Ok ([], [])
  | id :: ids =>
      let! '(run, wait) := split_valid s ids in
      if negb (bool_decide (id ∈ requests s)) then Ok (run, wait)
      else
        let! r := obj s id in
        if bool_decide (status r = RUNNING) then Ok (id :: run, wait) else Ok (run, id :: wait)
  end.
(** [finish_requests] for the ids in the order in which the set yields them. *)
Definition finish_requests s (request_ids : list string) (finished_status : RequestStatus) : res State :=
  py_assert (status_is_finished finished_status) ;;!
  (let ids := remove_dups request_ids in
   let! '(run, wait) := split_valid s ids in
   let! running' := res_fold list_remove run (running s) in
   let s := set_lists s (waiting s) running' in
   let! s := match wait with
             | [] => Ok s
             | l => let! w := @remove_requests string (list string) (waiting_queue cfg s) (waiting s) l in Ok (set_lists s w (running s))
             end in
   res_fold (fun s id =>
       let! r := obj s id in
       let r := set_status r finished_status in
       let! '(_, s) := _free_request (set_obj s id r) r in Ok s)
     (List.filter (fun id => bool_decide (id ∈ requests s)) ids) s).

Definition get_request_counts s : Z * Z := (Z.of_nat (length (running s)), Z.of_nat (length (waiting s))).
Definition get_num_unfinished_requests s : Z := Z.of_nat (length (waiting s)) + Z.of_nat (length (running s)).
Definition has_finished_requests s : bool := negb (size (finished_req_ids s) =? 0)%nat.
Definition reset_prefix_cache s : res (bool * State) :=
  let! '(ok, k) := kv_reset_prefix_cache (kv s) in Ok (ok, set_kv s k).
End update.
