(* ===== verification/SchedulerSpec.v ===== *)
(** * What the scheduler relies on and maintains

    [KVContract] states what the scheduler expects of the KV cache manager: the
    client's theorems are proved against it, [PagedContract.v] discharges it for
    the manager of this library.  [core] is the scheduler's invariant, also inside
    a step. *)

From stdpp Require Import base gmap strings list fin_sets.
From Stdlib Require Import ZArith QArith Lia.
From S2P Require Import Prelude RequestQueue Request KVCacheManager SchedulerTypes.
From S2P Require EncoderCache.
From S2P Require Import Scheduler.
Open Scope string_scope.
Open Scope list_scope.
Open Scope Z_scope.

(** ** The contract of the KV cache manager *)

(** No multi-modal inputs. *)
Definition text_request (r : Request) : Prop := mm_positions r = [] /\ mm_hashes r = [].

(** [kv_ok k t]: the requests of [t] have slots, [t] gives the number of their
    tokens whose blocks may be shared.  [max_len] is the longest request, [stats]
    tells that the manager counts its lookups. *)
Class KVContract {K : Type} (KM : KVManager K) (max_len : Z) (stats : bool) := {
  kv_ok : K -> gmap string Z -> Prop;
  allocate_running k t r new look c :
    kv_ok k t -> t !! request_id r = Some c -> 0 <= c <= num_computed_tokens r -> c <= num_tokens r -> num_computed_tokens r <= max_len ->
    num_tokens r <= max_len -> text_request r -> 0 < new -> 0 <= look ->
    exists b k', kv_allocate_slots k r new 0 None look false = Ok (b, k') /\
      kv_ok k' (match b with
                | Some _ => <[request_id r := Z.min (num_computed_tokens r + new) (num_tokens r)]> t
                | None => t
                end);
  kv_admit k t r :
    kv_ok k t -> t !! request_id r = None -> num_computed_tokens r = 0 -> 1 <= num_tokens r <= max_len ->
    text_request r ->
    exists hit computed k', kv_get_computed_blocks k r = Ok (hit, computed, k') /\ 0 <= computed < num_tokens r /\ kv_ok k' t /\
      forall new, 0 < new ->
        exists b k'', kv_allocate_slots k' r new computed (Some hit) 0 false = Ok (b, k'') /\
          kv_ok k'' (match b with
                     | Some _ => <[request_id r := Z.min (computed + new) (num_tokens r)]> t
                     | None => t
                     end);
  free_running k t r :
    kv_ok k t -> exists k', kv_free k r = Ok k' /\ kv_ok k' (delete (request_id r) t);
  forget_hashes k t r : kv_ok k t -> t !! request_id r = None -> kv_ok (kv_free_block_hashes k r) t;
  common_prefix k t r n :
    kv_ok k t -> is_Some (t !! request_id r) -> status r = RUNNING -> 0 < n ->
    exists l k', kv_get_num_common_prefix_blocks k r n = Ok (l, k') /\ kv_ok k' t;
  events_taken k t : kv_ok k t -> kv_ok (kv_take_events k).2 t;
  stats_taken k t : kv_ok k t ->
    kv_ok (kv_make_prefix_cache_stats k).2 t /\ (stats = true -> is_Some (kv_make_prefix_cache_stats k).1) }.

(** ** Dicts *)

Section dicts.
Context {A B : Type} `{EqDecision A}.
Implicit Type d : list (A * B).

Lemma dict_get_none d k : dict_get d k = None <-> k ∉ map fst d.
Proof.
  induction d as [|[k' v] d IH]; cbn; [split; [by intros _ ?%elem_of_nil|done]|].
  rewrite elem_of_cons. destruct (decide (k' = k)) as [->|Hne]; [split; [done|tauto]|]. rewrite IH. naive_solver.
Qed.
Lemma dict_get_in d k v : dict_get d k = Some v -> (k, v) ∈ d.
Proof.
  induction d as [|[k' v'] d IH]; cbn; [done|]. destruct (decide (k' = k)) as [->|]; [intros [= ->]; left|right; by apply IH].
Qed.
Lemma dict_in_get d k v : NoDup (map fst d) -> (k, v) ∈ d -> dict_get d k = Some v.
Proof.
  induction d as [|[k' v'] d IH]; cbn; [by intros _ ?%elem_of_nil|]. rewrite NoDup_cons, elem_of_cons. intros [Hni Hnd] [[= -> ->]|Hin].
  - by rewrite decide_True.
  - rewrite decide_False; [by apply IH|]. intros ->. apply Hni. apply list_elem_of_fmap. by exists (k, v).
Qed.
Lemma dict_set_new d k v : k ∉ map fst d -> dict_set d k v = d ++ [(k, v)].
Proof.
  induction d as [|[k' v'] d IH]; cbn; [done|]. rewrite elem_of_cons. intros H. rewrite decide_False by naive_solver.
  f_equal. apply IH. tauto.
Qed.
Lemma dict_get_set d k k' v : dict_get (dict_set d k v) k' = if decide (k = k') then Some v else dict_get d k'.
Proof.
  induction d as [|[k0 v0] d IH]; cbn; [done|]. destruct (decide (k0 = k)) as [->|Hne]; cbn; [by destruct (decide (k = k'))|].
  destruct (decide (k0 = k')) as [->|]; [by rewrite decide_False|]. exact IH.
Qed.
End dicts.

(** ** The invariant *)

(** The tokens a request got in the current step. *)
Definition pending (p : list (string * Z)) (id : string) : Z := default 0 (dict_get p id).

Lemma pending_new p id n id' :
  id ∉ map fst p -> pending (dict_set p id n) id' = if decide (id = id') then n else pending p id'.
Proof. intros _. unfold pending. rewrite dict_get_set. by destruct (decide (id = id')). Qed.
Lemma pending_none p id : id ∉ map fst p -> pending p id = 0.
Proof. intros H. unfold pending. by rewrite (proj2 (dict_get_none _ _) H). Qed.

(** A running request with [c] committed and [p] pending tokens. *)
Record running_ok (max_len c p : Z) (r : Request) : Prop := {
  ro_status : status r = RUNNING;
  ro_computed : 0 <= num_computed_tokens r /\ 0 <= p;
  ro_committed : 0 <= c <= num_computed_tokens r + p /\ c <= num_tokens r;
  ro_limit : num_computed_tokens r + p <= max_len - 1;
  ro_tokens : num_computed_tokens r + p <= num_tokens_with_spec r + num_output_placeholders r;
  ro_len : 1 <= num_tokens r <= max_len - 1;
  ro_text : text_request r;
  ro_placeholders : 0 <= num_output_placeholders r;
  ro_output : num_output_tokens r < max_tokens r;
  ro_sampling : is_Some (sampling_params r) /\ pooling_params r = false }.
(** A waiting request: it is new, its grammar is not ready, or it was preempted. *)
Record waiting_ok (max_len : Z) (r : Request) : Prop := {
  wo_status : status r = WAITING \/ status r = WAITING_FOR_FSM \/ status r = PREEMPTED;
  wo_computed : num_computed_tokens r = 0;
  wo_len : 1 <= num_tokens r <= max_len - 1;
  wo_text : text_request r;
  wo_placeholders : 0 <= num_output_placeholders r;
  wo_output : num_output_tokens r < max_tokens r;
  wo_sampling : is_Some (sampling_params r) /\ pooling_params r = false }.

(** What a step never changes in a request. *)
Definition kept (r r' : Request) : Prop :=
  exists st spec computed ph cached,
    r' = assign r st (stop_reason r) (output_token_ids r) (all_token_ids r) spec computed ph cached.
#[export] Instance kept_preorder : PreOrder kept.
Proof.
  split.
  - intros r. exists (status r), (spec_token_ids r), (num_computed_tokens r), (num_output_placeholders r), (num_cached_tokens r).
    by destruct r.
  - intros r1 r2 r3 (?&?&?&?&?&->) (?&?&?&?&?&->). by repeat eexists.
Qed.
(** Unfold a change of a request into [assign]. *)
Ltac kept_step := unfold set_status, set_spec_token_ids, set_num_computed_tokens, set_num_cached_tokens, set_num_output_placeholders; by repeat eexists.

Section core.
Context {K C : Type} {KM : KVManager K} (max_len : Z) {stats : bool} {KL : KVContract KM max_len stats}.
Notation State := (Scheduler K C).
Implicit Type s : State.

Record core s (t : gmap string Z) (p : list (string * Z)) (extra : list string) : Prop := {
  c_conn : connector s = None;
  c_enc : EncoderCache.cached (encoder_cache s) = ∅;
  c_nodup : NoDup (extra ++ waiting s ++ running s);
  c_running id : id ∈ running s -> id ∈ requests s /\ exists r c, objs s !! id = Some r /\ request_id r = id /\
    t !! id = Some c /\ running_ok max_len c (pending p id) r;
  c_waiting id : id ∈ extra ++ waiting s -> id ∈ requests s /\ exists r, objs s !! id = Some r /\ request_id r = id /\ waiting_ok max_len r;
  c_tbl id : is_Some (t !! id) -> id ∈ running s;
  c_kv : kv_ok (kv s) t }.

Lemma core_running_nodup s t p e : core s t p e -> NoDup (running s).
Proof. intros Hc. pose proof (c_nodup _ _ _ _ Hc) as H. by apply NoDup_app in H as (_ & _ & (_ & _ & H)%NoDup_app). Qed.
Lemma core_disjoint s t p e id : core s t p e -> id ∈ running s -> id ∉ e ++ waiting s.
Proof.
  intros Hc Hr Hw. pose proof (c_nodup _ _ _ _ Hc) as H. rewrite app_assoc in H. apply NoDup_app in H as (_ & H & _). by apply (H id).
Qed.

(** A change of one request. *)
Lemma core_put s t p e s' t' p' e' id :
  core s t p e -> connector s' = connector s -> encoder_cache s' = encoder_cache s ->
  (forall i, i <> id -> i ∈ requests s -> i ∈ requests s') -> NoDup (e' ++ waiting s' ++ running s') ->
  (forall i, i <> id -> objs s' !! i = objs s !! i /\ t' !! i = t !! i /\ pending p' i = pending p i /\
     (i ∈ running s' <-> i ∈ running s) /\ (i ∈ e' ++ waiting s' -> i ∈ e ++ waiting s)) ->
  (id ∈ running s' -> id ∈ requests s' /\ exists r c, objs s' !! id = Some r /\ request_id r = id /\
    t' !! id = Some c /\ running_ok max_len c (pending p' id) r) ->
  (id ∈ e' ++ waiting s' -> id ∈ requests s' /\ exists r, objs s' !! id = Some r /\ request_id r = id /\ waiting_ok max_len r) ->
  (is_Some (t' !! id) -> id ∈ running s') -> kv_ok (kv s') t' -> core s' t' p' e'.
Proof.
  intros [C1 C0 C2 C3 C4 C5 C6] Hc He Hr Hnd Ho Hrun Hwait Ht Hk. split; [congruence|congruence|done| | | |done].
  - intros i Hi. destruct (decide (i = id)) as [->|Hne]; [by apply Hrun|].
    destruct (Ho i Hne) as (-> & -> & -> & Hiff & _). apply Hiff, C3 in Hi as [H1 H2]. split; [by apply Hr|done].
  - intros i Hi. destruct (decide (i = id)) as [->|Hne]; [by apply Hwait|].
    destruct (Ho i Hne) as (-> & _ & _ & _ & Hw). apply Hw, C4 in Hi as [H1 H2]. split; [by apply Hr|done].
  - intros i Hi. destruct (decide (i = id)) as [->|Hne]; [by apply Ht|].
    destruct (Ho i Hne) as (_ & E & _ & Hiff & _). rewrite E in Hi. by apply Hiff, C5.
Qed.

(** Requests keep their tokens; those in [ids] also their progress. *)
Definition frame s s' (ids : list string) : Prop :=
  forall id r, objs s !! id = Some r -> exists r', objs s' !! id = Some r' /\ kept r r' /\
    (id ∈ ids -> num_computed_tokens r' = num_computed_tokens r).
Lemma frame_refl s ids : frame s s ids.
Proof. intros id r Hr. exists r. by split. Qed.
Lemma frame_trans s1 s2 s3 ids : frame s1 s2 ids -> frame s2 s3 ids -> frame s1 s3 ids.
Proof.
  intros H12 H23 id r1 Hr1. destruct (H12 id r1 Hr1) as (r2 & Hr2 & K12 & N12). destruct (H23 id r2 Hr2) as (r3 & Hr3 & K23 & N23).
  exists r3. split; [done|]. split; [by etransitivity|]. intros Hin. by rewrite N23, N12.
Qed.
Lemma frame_sub s s' ids ids' : (forall id, id ∈ ids' -> id ∈ ids) -> frame s s' ids -> frame s s' ids'.
Proof. intros Hs H id r Hr. destruct (H id r Hr) as (r' & ? & ? & Hn). exists r'. split; [done|]. split; [done|]. intros ?. by apply Hn, Hs. Qed.
Lemma frame_put s s' id r r' ids :
  objs s !! id = Some r -> kept r r' -> (id ∈ ids -> num_computed_tokens r' = num_computed_tokens r) ->
  objs s' = <[id := r']> (objs s) -> frame s s' ids.
Proof.
  intros Hr Hk Hn Ho i ri Hi. rewrite Ho. destruct (decide (i = id)) as [->|Hne].
  - rewrite lookup_insert_eq. rewrite Hr in Hi. injection Hi as <-. by exists r'.
  - rewrite lookup_insert_ne by done. by exists ri.
Qed.
Lemma frame_objs s s' ids : objs s' = objs s -> frame s s' ids.
Proof. intros Ho id r Hr. rewrite Ho. by exists r. Qed.
End core.
