(* ===== verification/SchedulerRun.v ===== *)
(** * The running requests of a step

    The first loop of [schedule], first come first served and without a
    connector: running requests get their tokens in order, the youngest ones are
    preempted when the KV cache is short. *)

From stdpp Require Import base gmap strings list fin_sets.
From Stdlib Require Import ZArith QArith Lia.
From S2P Require Import Prelude RequestQueue Request KVCacheManager SchedulerTypes.
From S2P Require Import Scheduler SchedulerSpec.
Open Scope string_scope.
Open Scope list_scope.
Open Scope Z_scope.

(** The settings under which the theorems hold. *)
Record plain_settings (cfg : Settings) : Prop := {
  ps_fcfs : sched_policy cfg = FCFS;
  ps_loras : max_loras cfg = None;
  ps_budget : 0 <= max_num_scheduled_tokens cfg;
  ps_lookahead : 0 <= num_lookahead_tokens cfg }.

Definition add_preempted (st : Step) (vs : list string) : Step :=
  {| token_budget := token_budget st; encoder_budget := encoder_budget st; new_reqs := new_reqs st;
     resumed_reqs := resumed_reqs st; running_reqs := running_reqs st; preempted_reqs := preempted_reqs st ++ vs;
     structured := structured st; block_ids := block_ids st; tokens := tokens st; spec_tokens := spec_tokens st;
     encoder_inputs := encoder_inputs st |}.

(** The part of a step's record that both loops maintain; [front] holds the
    requests with tokens. *)
Record step_ok (cfg : Settings) (st : Step) (front : list string) : Prop := {
  so_sum : zsum (map snd (tokens st)) + token_budget st = max_num_scheduled_tokens cfg;
  so_budget : 0 <= token_budget st;
  so_pos : Forall (fun e => 0 < e.2) (tokens st);
  so_nodup : NoDup (map fst (tokens st));
  so_keys : map fst (tokens st) ≡ₚ running_reqs st ++ new_reqs st ++ resumed_reqs st;
  so_front id : id ∈ map fst (tokens st) -> id ∈ front;
  so_blocks id : id ∈ map fst (tokens st) -> is_Some (dict_get (block_ids st) id) }.

Lemma step_ok_front cfg st front front' : (forall id, id ∈ front -> id ∈ front') -> step_ok cfg st front -> step_ok cfg st front'.
Proof. intros Hf [H1 H2 H3 H4 H5 H6 H7]. split; [done..|by intros id ?; apply Hf, H6|done]. Qed.

Section run.
Context {K C : Type} {KM : KVManager K} (max_len : Z) {stats : bool} {KL : KVContract KM max_len stats}.
Context (cfg : Settings) (Hcfg : plain_settings cfg).
Notation State := (Scheduler K C).
Implicit Type s : State.
Implicit Type st : Step.

Lemma queue_fcfs s : waiting_queue cfg s = Fcfs.fcfs_queue.
Proof using Hcfg. unfold waiting_queue. by rewrite (ps_fcfs _ Hcfg). Qed.

Lemma core_kv s t p e k : core max_len s t p e -> kv_ok k t -> core max_len (set_kv s k) t p e.
Proof. intros [C1 C0 C2 C3 C4 C5 C6] Hk. by split. Qed.

(** ** Preemption *)

Lemma preempt_ok s t p e st pre v :
  core max_len s t p e -> running s = pre ++ [v] -> v ∉ map fst p ->
  exists s', preempt cfg s st = Ok (v, s', add_preempted st [v]) /\ core max_len s' (delete v t) p e /\
    running s' = pre /\ waiting s' = v :: waiting s /\ requests s' = requests s /\
    (forall i, i <> v -> objs s' !! i = objs s !! i) /\ forall ids, v ∉ ids -> frame s s' ids.
Proof using Hcfg.
  intros Hc Hr Hv. destruct (c_running _ _ _ _ _ Hc v) as (Hreq & r & c & Hobj & Hid & Ht & Hok); [rewrite Hr; apply elem_of_app; right; left|].
  unfold preempt, choose_preempted, list_pop. rewrite (ps_fcfs _ Hcfg), Hr, last_snoc, removelast_last. cbn [bind].
  unfold obj. rewrite Hobj. cbn [of_option bind].
  destruct (free_running _ t r (c_kv _ _ _ _ _ Hc)) as (k & Hk & Hk'). rewrite Hk. cbn [bind]. rewrite queue_fcfs. cbn [bind].
  eexists. split; [reflexivity|]. cbn. rewrite Hid in Hk'.
  assert (Hni : v ∉ pre) by (pose proof (core_running_nodup _ _ _ _ _ Hc) as Hnd; rewrite Hr in Hnd; apply NoDup_app in Hnd as (_ & Hnd & _); intros H; apply (Hnd v H); left).
  split; [|split; [done|split; [done|split; [done|split]]]].
  - eapply (core_put max_len s t p e _ _ _ _ v Hc); cbn.
    + done.
    + done.
    + done.
    + pose proof (c_nodup _ _ _ _ _ Hc) as Hnd. rewrite Hr in Hnd.
      assert (P : e ++ v :: waiting s ++ pre ≡ₚ e ++ waiting s ++ pre ++ [v]); [|by rewrite P].
      apply Permutation_app_head. rewrite app_assoc. apply Permutation_cons_append.
    + intros i Hne. rewrite lookup_insert_ne, lookup_delete_ne by done. split; [done|]. split; [done|]. split; [done|].
      rewrite Hr. split; set_solver.
    + by intros ?%Hni.
    + intros _. split; [done|]. exists (set_num_computed_tokens (set_status r PREEMPTED) 0). rewrite lookup_insert_eq.
      split; [done|]. split; [done|]. destruct Hok. split; cbn; [by right; right|done..].
    + rewrite lookup_delete_eq. by intros [? [=]].
    + done.
  - intros i Hne. by rewrite lookup_insert_ne.
  - intros ids Hi. apply (frame_put s _ v r (set_num_computed_tokens (set_status r PREEMPTED) 0)); [done|kept_step|by intros ?%Hi|done].
Qed.

(** ** One request *)

(** The request's object and tokens before it gets [new] more of them. *)
Record may_run (s : State) (t : gmap string Z) (p : list (string * Z)) (id : string) (r : Request) (new : Z) : Prop := {
  mr_obj : objs s !! id = Some r;
  mr_id : request_id r = id;
  mr_idle : id ∉ map fst p;
  mr_ok : exists c, t !! id = Some c /\ running_ok max_len c 0 r;
  mr_new : 0 < new <= max_len - 1 - num_computed_tokens r;
  mr_tokens : num_computed_tokens r + new <= num_tokens_with_spec r + num_output_placeholders r }.

Lemma grant_ok s t p e id r new k :
  core max_len s t p e -> id ∈ running s -> may_run s t p id r new ->
  kv_ok k (<[id := Z.min (num_computed_tokens r + new) (num_tokens r)]> t) ->
  core max_len (set_kv s k) (<[id := Z.min (num_computed_tokens r + new) (num_tokens r)]> t) (dict_set p id new) e.
Proof.
  intros Hc Hin [M1 M2 M3 (c & M4 & [O1 O2 O3 O4 O5 O6 O7 O8 O9 O10]) M5 M6] Hk.
  eapply (core_put max_len s t p e _ _ _ _ id Hc); cbn; try done.
  - apply Hc.
  - intros i Hne. rewrite lookup_insert_ne, pending_new, decide_False by done. done.
  - intros _. split; [by apply (c_running _ _ _ _ _ Hc)|]. eexists r, _. split; [done|]. split; [done|]. rewrite lookup_insert_eq.
    split; [done|]. rewrite pending_new, decide_True by done. split; try done; lia.
  - intros Hw. by apply (c_waiting _ _ _ _ _ Hc).
Qed.

Lemma set_kv_kv s k k' : set_kv (set_kv s k) k' = set_kv s k'.
Proof. done. Qed.

(** The request gets its slots, or everything from it on is preempted.  Either
    way the order of arrival, running before waiting, is kept. *)
Lemma allocate_or_preempt_ok n : forall s t p e st pre id post r new,
  core max_len s t p e -> running s = pre ++ id :: post -> may_run s t p id r new ->
  (forall i, i ∈ post -> i ∉ map fst p) -> (length post < n)%nat ->
  exists b s' vs, allocate_or_preempt cfg n s st id r new = Ok (b, s', add_preempted st vs) /\
    running s = running s' ++ rev vs /\ waiting s' = rev vs ++ waiting s /\ frame s s' (running s') /\ requests s' = requests s /\
    exists t', match b with
    | Some _ => exists post', running s' = pre ++ id :: post' /\ objs s' !! id = Some r /\ core max_len s' t' (dict_set p id new) e
    | None => vs <> [] /\ running s' = pre /\ core max_len s' t' p e
    end.
Proof using Hcfg.
  induction n as [|n IH]; intros s t p e st pre id post r new Hc Hr Hm Hpost Hn; [lia|].
  assert (Hin : id ∈ running s) by (rewrite Hr; apply elem_of_app; right; left).
  destruct (mr_ok _ _ _ _ _ _ Hm) as (c & Ht & [O1 O2 O3 O4 O5 O6 O7 O8 O9 O10]). pose proof (mr_id _ _ _ _ _ _ Hm) as Hid. pose proof (mr_new _ _ _ _ _ _ Hm) as Hnew.
  destruct (allocate_running (kv s) t r new (num_lookahead_tokens cfg) c) as (b & k & Hal & Hk);
    [by apply Hc|by rewrite Hid|lia|lia|lia|lia|done|lia|by apply Hcfg|].
  cbn [allocate_or_preempt]. rewrite Hal. cbn [bind]. rewrite Hid in Hk. destruct b as [b|].
  - exists (Some b), (set_kv s k), []. split; [unfold add_preempted; rewrite app_nil_r; by destruct st|]. split; [by rewrite app_nil_r|].
    split; [done|]. split; [by apply frame_objs|]. split; [done|]. eexists. exists post. split; [done|]. split; [apply Hm|]. by apply grant_ok.
  - apply (core_kv s t p e k) in Hc; [|done]. set (s0 := set_kv s k) in *.
    assert (Hf0 : forall ids, frame s s0 ids) by (intros ids; by apply frame_objs). pose proof (core_running_nodup _ _ _ _ _ Hc) as Hnd.
    destruct (decide (post = [])) as [->|Hne].
    + destruct (preempt_ok s0 t p e st pre id Hc Hr (mr_idle _ _ _ _ _ _ Hm)) as (s' & -> & Hc' & R1 & R2 & R3 & _ & Hf).
      cbn [bind]. rewrite String.eqb_refl. exists None, s', [id]. split; [done|]. rewrite R1, R2. split; [exact Hr|]. split; [done|].
      split; [eapply frame_trans; [apply Hf0|apply Hf]|split; [done|by exists (delete id t)]].
      intros Hni. cbn in Hnd. rewrite Hr in Hnd. apply NoDup_app in Hnd as (_ & Hnd & _). apply (Hnd id Hni). left.
    + destruct (exists_last Hne) as (post' & v & ->).
      assert (Hr' : running s0 = (pre ++ id :: post') ++ [v]) by (cbn; by rewrite Hr, <-app_assoc).
      rewrite Hr' in Hnd. apply NoDup_app in Hnd as (_ & Hnd & _).
      assert (Hv : v ∉ pre ++ id :: post') by (intros Hv; apply (Hnd v Hv); left).
      destruct (preempt_ok s0 t p e st _ v Hc Hr') as (s1 & -> & Hc1 & R1 & R2 & R3 & Ho & Hf); [apply Hpost, elem_of_app; right; left|].
      assert (Hvid : id <> v) by (intros ->; apply Hv, elem_of_app; right; left).
      cbn [bind]. destruct (String.eqb_spec v id) as [E|_]; [by symmetry in E|].
      destruct (IH s1 (delete v t) p e (add_preempted st [v]) pre id post' r new) as (b & s' & vs & Hok & Hr1 & Hw1 & Hf' & Hreq & t' & Hres).
      * done.
      * done.
      * destruct Hm as [M1 M2 M3 (c' & M4 & M5) M6 M7]. split; try done; [by rewrite Ho|]. exists c'. by rewrite lookup_delete_ne.
      * intros i Hi. apply Hpost, elem_of_app. by left.
      * rewrite length_app in Hn. cbn in Hn. lia.
      * exists b, s', (v :: vs). rewrite Hok. split; [unfold add_preempted; cbn; by rewrite <-app_assoc|].
        rewrite R1 in Hr1. rewrite R2 in Hw1. cbn [rev].
        split; [change (running s) with (running s0); by rewrite Hr', Hr1, <-app_assoc|]. split; [by rewrite Hw1, <-app_assoc|].
        split; [eapply frame_trans; [|exact Hf']; eapply frame_trans; [apply Hf0|apply Hf]; intros ?; apply Hv; rewrite Hr1; apply elem_of_app; by left|].
        split; [by rewrite Hreq|]. exists t'. destruct b; [done|]. by destruct Hres as (_ & ? & ?).
Qed.

(** ** One round of the loop *)

Context (Hlen : sched_max_model_len cfg = max_len).

Lemma running_tokens_bounds r budget c :
  running_ok max_len c 0 r -> 0 < budget ->
  let n := running_tokens cfg r budget in
  0 <= n <= budget /\ n <= max_len - 1 - num_computed_tokens r /\
  num_computed_tokens r + n <= num_tokens_with_spec r + num_output_placeholders r.
Proof.
  intros [O1 O2 O3 O4 O5 O6 O7 O8 O9 O10] Hb. cbv zeta. unfold running_tokens. rewrite Hlen.
  destruct (Z.ltb_spec 0 (long_prefill_token_threshold cfg)); cbn [andb]; [|lia].
  destruct (Z.ltb_spec (long_prefill_token_threshold cfg) (num_tokens_with_spec r + num_output_placeholders r - num_computed_tokens r)); lia.
Qed.

Lemma plan_text s r c n b : text_request r -> plan_encoder cfg s r c n b = Ok ([], n, b).
Proof. intros [H _]. unfold plan_encoder, has_encoder_inputs. by rewrite H. Qed.

(** The drafts are trimmed to the tokens that were scheduled. *)
Lemma drafts_ok r n c l :
  running_ok max_len c n r -> scheduled_drafts r n = Some l -> running_ok max_len c n (set_spec_token_ids r l).
Proof.
  intros [O1 O2 O3 O4 O5 O6 O7 O8 O9 O10] Hl. unfold scheduled_drafts in Hl. destruct (spec_token_ids r) as [|a l'] eqn:E; [done|].
  destruct (Z.ltb_spec 0 (n + num_computed_tokens r - num_tokens r)) as [Hk|]; [|done]. injection Hl as <-.
  split; try done. unfold num_tokens_with_spec in *. cbn [assign set_spec_token_ids all_token_ids spec_token_ids num_computed_tokens num_output_placeholders].
  rewrite E in O5. fold (num_tokens r) in *. rewrite length_take. lia.
Qed.

Lemma step_ok_record st id r i b n spec front :
  step_ok cfg st front -> id ∉ map fst (tokens st) -> 0 < n <= token_budget st -> id ∈ front ->
  step_ok cfg (record_running st id r i b n spec) front.
Proof.
  intros [S1 S2 S3 S4 S5 S6 S7] Hid Hn Hf. split; cbn; rewrite ?dict_set_new by done.
  - rewrite map_app, zsum_app. cbn. lia.
  - lia.
  - apply Forall_app. split; [done|]. constructor; [cbn; lia|constructor].
  - rewrite map_app. apply NoDup_app. split; [done|]. split; [set_solver|apply NoDup_singleton].
  - rewrite map_app, S5. cbn. rewrite <-!app_assoc. apply Permutation_app_head. rewrite app_assoc. symmetry. apply Permutation_cons_append.
  - rewrite map_app. set_solver.
  - intros i' Hi. rewrite dict_get_set. destruct (decide (id = i')) as [|Hne]; [done|]. apply S7. rewrite map_app in Hi.
    apply elem_of_app in Hi as [|Hi]; [done|]. cbn in Hi. apply list_elem_of_singleton in Hi. congruence.
Qed.

(** The invariant of the loop before position [idx]: the tokens went to requests
    before it, and nothing was preempted yet. *)
Record loop_ok s t st (idx : nat) : Prop := {
  lo_core : core max_len s t (tokens st) [];
  lo_step : step_ok cfg st (take idx (running s));
  lo_idx : (idx <= length (running s))%nat;
  lo_new : new_reqs st = [] /\ resumed_reqs st = [] }.
(** What the loop does from [s] and [st] on: [stop] when it preempted the request it
    was at. *)
Record ran s st s' t' st' (stop : bool) : Prop := {
  rn_core : core max_len s' t' (tokens st') [];
  rn_lists : exists vs, preempted_reqs st' = preempted_reqs st ++ vs /\ running s = running s' ++ rev vs /\ waiting s' = rev vs ++ waiting s;
  rn_frame : frame s s' (running s');
  rn_requests : requests s' = requests s;
  rn_step : step_ok cfg st' (running s');
  rn_new : new_reqs st' = [] /\ resumed_reqs st' = [];
  rn_stop : stop = true -> preempted_reqs st' <> [] }.

Lemma rn_sub s st s' t' st' stop i : ran s st s' t' st' stop -> i ∈ running s' -> i ∈ running s.
Proof. intros [_ (vs & _ & -> & _) _ _ _ _ _] Hi. apply elem_of_app. by left. Qed.
Lemma ran_refl s t st idx : loop_ok s t st idx -> ran s st s t st false.
Proof.
  intros [L1 L2 L3 L4]. split; try done; [exists []; by rewrite !app_nil_r|apply frame_refl|].
  eapply step_ok_front; [|exact L2]. intros i Hi. by eapply (subseteq_take idx (running s)).
Qed.
Lemma ran_trans s1 st1 s2 t2 st2 s3 t3 st3 b stop : ran s1 st1 s2 t2 st2 b -> ran s2 st2 s3 t3 st3 stop -> ran s1 st1 s3 t3 st3 stop.
Proof.
  intros [A1 (vs & V1 & V2 & V3) A4 A5 A6 A7 A8] Hb. assert (Hsub : forall i, i ∈ running s3 -> i ∈ running s2) by (intros i; by apply (rn_sub _ _ _ _ _ _ i Hb)).
  destruct Hb as [B1 (ws & W1 & W2 & W3) B4 B5 B6 B7 B8]. split; [done| | |congruence|done|done|done].
  - exists (vs ++ ws). rewrite W1, V1, V2, W2, W3, V3, rev_app_distr, !app_assoc. done.
  - eapply frame_trans; [eapply frame_sub; [|exact A4]; exact Hsub|exact B4].
Qed.

Lemma step_ok_preempted st vs front : step_ok cfg st front -> step_ok cfg (add_preempted st vs) front.
Proof. by intros [S1 S2 S3 S4 S5 S6 S7]. Qed.

(** Trimming the drafts of a scheduled request. *)
Lemma trim_ok s t p e id r n spec :
  core max_len s t p e -> objs s !! id = Some r -> id ∈ running s -> pending p id = n -> spec = scheduled_drafts r n ->
  let s' := match spec with Some l => set_obj s id (set_spec_token_ids r l) | None => s end in
  core max_len s' t p e /\ frame s s' (running s') /\ running s' = running s /\ waiting s' = waiting s /\ requests s' = requests s.
Proof.
  intros Hc Hobj Hin Hp Hs. cbv zeta. destruct spec as [l|]; [|split; [done|split; [apply frame_refl|done]]].
  split; [|split; [|done]].
  - destruct (c_running _ _ _ _ _ Hc id Hin) as (Hreq & r' & c & Hobj' & Hid & Ht & Hok). rewrite Hobj in Hobj'. injection Hobj' as <-.
    eapply (core_put max_len s t p e _ _ _ _ id Hc); cbn; try done; [apply Hc|by intros i Hne; rewrite lookup_insert_ne| | |apply Hc].
    + intros _. split; [done|]. exists (set_spec_token_ids r l), c. rewrite lookup_insert_eq. split; [done|]. split; [done|]. split; [done|].
      rewrite Hp in *. by apply drafts_ok.
    + intros Hw. by apply (core_disjoint _ _ _ _ _ id Hc) in Hw.
  - apply (frame_put s _ id r (set_spec_token_ids r l)); [done|kept_step|done|done].
Qed.

Lemma running_step_ok s t st idx id :
  loop_ok s t st idx -> running s !! idx = Some id -> 0 < token_budget st ->
  exists go s' st' idx' t', running_step cfg s st idx id = Ok (go, s', st', idx') /\ ran s st s' t' st' (negb go) /\
    (go = true -> loop_ok s' t' st' idx' /\ idx' = S idx).
Proof.
  intros [L1 L2 L3 L4] Hid Hb. pose proof (take_drop_middle _ _ _ Hid) as Hr. symmetry in Hr.
  set (pre := take idx (running s)) in *. set (post := drop (S idx) (running s)) in *.
  assert (Hlp : length pre = idx) by (unfold pre; rewrite length_take; lia).
  pose proof (core_running_nodup _ _ _ _ _ L1) as Hnd. rewrite Hr in Hnd. apply NoDup_app in Hnd as (_ & Hpre & [Hip _]%NoDup_cons).
  assert (Hidle : id ∉ map fst (tokens st)) by (intros H%(so_front _ _ _ L2); apply (Hpre id H); left).
  destruct (c_running _ _ _ _ _ L1 id) as (Hreq & r & c & Hobj & Hrid & Ht & Hok); [by eapply list_elem_of_lookup_2|].
  rewrite (pending_none _ _ Hidle) in Hok.
  unfold running_step, obj. rewrite Hobj. cbn [of_option bind]. rewrite plan_text by apply Hok. cbn [bind].
  destruct (running_tokens_bounds r (token_budget st) c Hok Hb) as (B1 & B2 & B3). set (n := running_tokens cfg r (token_budget st)) in *.
  destruct (Z.eqb_spec n 0) as [E|E].
  - exists true, s, st, (S idx), t. split; [done|]. split.
    + by apply (ran_refl s t st idx).
    + intros _. split; [|done]. split; [done| |by apply lookup_lt_Some in Hid|done]. eapply step_ok_front; [|exact L2].
      intros i Hi. rewrite (take_S_r _ _ _ Hid). apply elem_of_app. by left.
  - assert (Hm : may_run s t (tokens st) id r n) by (split; [done|done|done|by exists c|lia|lia]).
    destruct (allocate_or_preempt_ok (length (running s)) s t (tokens st) [] st pre id post r n L1 Hr Hm)
      as (b & s1 & vs & Hal & Hlr & Hlw & Hf & Hq & t' & Hres).
    { intros i Hi H%(so_front _ _ _ L2). apply (Hpre i H). by right. }
    { rewrite Hr, length_app. cbn. lia. }
    rewrite Hal. cbn [bind]. destruct b as [b|].
    + destruct Hres as (post' & Hr1 & Hobj1 & Hc1). set (spec := scheduled_drafts r n).
      assert (Hin1 : id ∈ running s1) by (rewrite Hr1; apply elem_of_app; right; left).
      destruct (trim_ok s1 t' _ [] id r n spec Hc1 Hobj1 Hin1) as (Hc2 & Hf2 & R1 & R2 & R3); [by rewrite pending_new, decide_True|done|].
      set (s2 := match spec with Some l => _ | None => s1 end) in *. cbn [commit_encoder bind].
      set (st1 := record_running (add_preempted st vs) id r idx b n spec).
      assert (Hst : forall front, (forall i, i ∈ pre -> i ∈ front) -> id ∈ front -> step_ok cfg st1 front).
      { intros front Hfr Hfi. apply step_ok_record; [|done|cbn; lia|done]. apply step_ok_preempted. by eapply step_ok_front. }
      exists true, s2, st1, (S idx), t'. split; [done|]. split.
      * split; [exact Hc2|exists vs; by rewrite R1, R2| |by rewrite R3| |exact L4|done].
        -- eapply frame_trans; [|exact Hf2]. rewrite R1. exact Hf.
        -- apply Hst; rewrite R1, Hr1; [|apply elem_of_app; right; left]. intros i Hi. apply elem_of_app. by left.
      * intros _. split; [|done]. split; [exact Hc2| | |exact L4].
        -- assert (Ht2 : take (S idx) (running s2) = pre ++ [id]).
           { rewrite R1, Hr1, <-Hlp. replace (pre ++ id :: post') with ((pre ++ [id]) ++ post') by (by rewrite <-app_assoc).
             rewrite take_app_le by (rewrite length_app; cbn; lia). apply take_ge. rewrite length_app. cbn. lia. }
           rewrite Ht2. apply Hst; [|apply elem_of_app; right; left]. intros i Hi. apply elem_of_app. by left.
        -- rewrite R1, Hr1, length_app. cbn. lia.
    + destruct Hres as (Hvs & Hr1 & Hc1). exists false, s1, (add_preempted st vs), idx, t'. split; [done|]. split; [|done].
      split; [exact Hc1|by exists vs|done|done| |exact L4|].
      * rewrite Hr1. by apply step_ok_preempted.
      * intros _. cbn. destruct vs; [done|]. by destruct (preempted_reqs st).
Qed.

(** The whole loop: with the length of the running list as fuel it stops because
    all running requests were seen, the budget is spent, or a request preempted
    itself. *)
Lemma running_loop_ok fuel : forall s t st idx,
  loop_ok s t st idx -> (length (running s) <= idx + fuel)%nat ->
  exists s' st' idx' t' stop, running_loop cfg fuel s st idx = Ok (s', st', idx') /\ ran s st s' t' st' stop /\
    (stop = false -> token_budget st' = 0 \/ idx' = length (running s')).
Proof.
  induction fuel as [|fuel IH]; intros s t st idx Hl Hfuel; pose proof (lo_idx _ _ _ _ Hl) as Hidx; pose proof (ran_refl _ _ _ _ Hl) as Hdone.
  - exists s, st, idx, t, false. split; [done|]. split; [done|]. intros _. right. lia.
  - cbn [running_loop]. destruct (running s !! idx) as [id|] eqn:Hid.
    + destruct (Z.ltb_spec 0 (token_budget st)) as [Hb|Hb].
      * destruct (running_step_ok s t st idx id Hl Hid Hb) as (go & s1 & st1 & idx1 & t1 & -> & Hran & Hgo). cbn [bind].
        destruct go; [|by exists s1, st1, idx1, t1, true].
        destruct (Hgo eq_refl) as [Hl1 ->].
        assert (Hlen1 : (length (running s1) <= length (running s))%nat)
          by (destruct (rn_lists _ _ _ _ _ _ Hran) as (vs & _ & -> & _); rewrite length_app; lia).
        destruct (IH s1 t1 st1 (S idx) Hl1) as (s2 & st2 & idx2 & t2 & stop & Hok & Hran2 & Hend); [lia|].
        exists s2, st2, idx2, t2, stop. split; [done|]. split; [by eapply ran_trans|done].
      * exists s, st, idx, t, false. split; [done|]. split; [done|]. intros _. left. pose proof (so_budget _ _ _ (lo_step _ _ _ _ Hl)). lia.
    + exists s, st, idx, t, false. split; [done|]. split; [done|]. intros _. right. apply lookup_ge_None in Hid. lia.
Qed.
End run.
