(* ===== verification/SchedulerAdmit.v ===== *)
(** * The waiting requests of a step

    The second loop of [schedule]: requests leave the head of the waiting queue
    for the running list while there is budget, room and memory. *)

From stdpp Require Import base gmap strings list fin_sets.
From Stdlib Require Import ZArith QArith Lia.
From S2P Require Import Prelude RequestQueue Request KVCacheManager SchedulerTypes.
From S2P Require Import Scheduler SchedulerSpec SchedulerRun.
Open Scope string_scope.
Open Scope list_scope.
Open Scope Z_scope.

Section admission.
Context {K C : Type} {KM : KVManager K} {KC : KVConnector C} (max_len : Z) {stats : bool} {KL : KVContract KM max_len stats}.
Context (grammar_ready : string -> bool).
Context (cfg : Settings) (Hcfg : plain_settings cfg).
Notation State := (Scheduler K C).
Implicit Type s : State.
Implicit Type st : Step.
Implicit Type a : Admission (K := K) (C := C).

(** A request whose grammar is not compiled is skipped. *)
Lemma must_skip_ok s t p e id loras :
  core max_len s t p e -> id ∈ waiting s ->
  exists b s', must_skip grammar_ready cfg s loras id = Ok (b, s') /\ core max_len s' t p e /\
    running s' = running s /\ waiting s' = waiting s /\ requests s' = requests s /\ (forall ids, frame s s' ids) /\
    (b = true -> grammar_ready id = false) /\
    (b = false -> exists r, objs s' !! id = Some r /\ request_id r = id /\ waiting_ok max_len r /\ status r <> WAITING_FOR_FSM).
Proof using Hcfg.
  intros Hc Hin. destruct (c_waiting _ _ _ _ _ Hc id) as (Hreq & r & Hobj & Hid & Hok); [apply elem_of_app; by right|].
  unfold must_skip, obj. rewrite Hobj. cbn [of_option bind]. rewrite (ps_loras _ Hcfg).
  rewrite bool_decide_false by (destruct (wo_status _ _ Hok) as [->|[->| ->]]; done). cbn [bind]. rewrite Hobj. cbn [of_option bind].
  destruct (decide (status r = WAITING_FOR_FSM)) as [Hs|Hs].
  - rewrite bool_decide_true by done. destruct (grammar_ready id) eqn:Hg.
    + eexists false, _. split; [reflexivity|]. split; [|split; [done|split; [done|split; [done|split; [|split; [done|]]]]]].
      * eapply (core_put max_len s t p e _ _ _ _ id Hc); cbn; try done; [apply Hc|by intros i Hne; rewrite lookup_insert_ne| | |apply Hc|apply Hc].
        -- intros Hrun. exfalso. apply (core_disjoint _ _ _ _ _ id Hc) in Hrun. apply Hrun, elem_of_app. by right.
        -- intros _. split; [done|]. rewrite lookup_insert_eq. eexists. split; [done|]. split; [done|]. destruct Hok. split; [by left|done..].
      * intros ids. apply (frame_put s _ id r (set_status r WAITING)); [done|kept_step|done|done].
      * intros _. exists (set_status r WAITING). cbn. rewrite lookup_insert_eq. split; [done|]. split; [done|]. destruct Hok. split; [by split; [left|..]|done].
    + exists true, s. split; [done|]. split; [done|]. split; [done|]. split; [done|]. split; [done|]. split; [intros ids; apply frame_refl|done].
  - rewrite bool_decide_false by done. exists false, s. split; [done|]. split; [done|]. split; [done|]. split; [done|]. split; [done|].
    split; [intros ids; apply frame_refl|]. split; [done|]. intros _. by exists r.
Qed.

(** The loop invariant. *)
Record adm_ok a (t : gmap string Z) : Prop := {
  ao_core : core max_len (adm_state a) t (tokens (adm_step a)) (adm_skipped a);
  ao_step : step_ok cfg (adm_step a) (running (adm_state a));
  ao_room : (length (running (adm_state a)) <= max_num_running_reqs cfg)%nat }.

(** What may have happened between two rounds. *)
Record admitted a a' : Prop := {
  ad_perm : running (adm_state a') ++ adm_skipped a' ++ waiting (adm_state a') ≡ₚ
            running (adm_state a) ++ adm_skipped a ++ waiting (adm_state a);
  ad_order : (forall id, id ∈ waiting (adm_state a) -> grammar_ready id = true) -> chunked_prefill_enabled cfg = true ->
    adm_skipped a' = adm_skipped a /\
    running (adm_state a') ++ waiting (adm_state a') = running (adm_state a) ++ waiting (adm_state a);
  ad_waiting id : id ∈ waiting (adm_state a') -> id ∈ waiting (adm_state a);
  ad_frame : frame (adm_state a) (adm_state a') (running (adm_state a));
  ad_running : exists l, running (adm_state a') = running (adm_state a) ++ l;
  ad_requests : requests (adm_state a') = requests (adm_state a);
  ad_scheduled : running_reqs (adm_step a') = running_reqs (adm_step a) }.

Lemma admitted_refl a : admitted a a.
Proof. split; try done; [apply frame_refl|exists []; by rewrite app_nil_r]. Qed.
Lemma admitted_trans a1 a2 a3 : admitted a1 a2 -> admitted a2 a3 -> admitted a1 a3.
Proof.
  intros [A1 A2 A3 A4 (l & A5) A6 A7] [B1 B2 B3 B4 (l' & B5) B6 B7]. split; [by etransitivity; [exact B1|exact A1]| | | | |congruence|congruence].
  - intros Hg Hch. destruct (A2 Hg Hch) as [E1 E2]. destruct B2 as [E3 E4]; [by intros id ?%A3; apply Hg|done|]. split; congruence.
  - by intros id ?%B3%A3.
  - eapply frame_trans; [exact A4|]. eapply frame_sub; [|exact B4]. intros id Hi. rewrite A5. apply elem_of_app. by left.
  - exists (l ++ l'). by rewrite B5, A5, app_assoc.
Qed.

(** Moving the head of the waiting queue to the skipped requests. *)
Lemma skip_head_ok s t p e id w :
  core max_len s t p e -> waiting s = id :: w ->
  skip_head cfg s e = Ok (set_lists s w (running s), id :: e) /\ core max_len (set_lists s w (running s)) t p (id :: e).
Proof using Hcfg.
  intros Hc Hw. split.
  - unfold skip_head, pop_waiting. rewrite (queue_fcfs cfg Hcfg). cbn. rewrite Hw. cbn. by rewrite (queue_fcfs cfg Hcfg).
  - destruct Hc as [C1 C0 C2 C3 C4 C5 C6]. rewrite Hw in *.
    assert (P : id :: e ++ w ≡ₚ e ++ id :: w) by apply Permutation_middle.
    split; cbn; [done|done| |done| |done|done].
    + rewrite app_comm_cons, app_assoc, <-app_comm_cons, P, <-app_assoc. done.
    + intros i Hi. apply C4. by rewrite <-P.
Qed.

Lemma skipped_round a t id w :
  adm_ok a t -> waiting (adm_state a) = id :: w -> grammar_ready id = false \/ chunked_prefill_enabled cfg = false ->
  let s := adm_state a in
  let a' := mk_admission (set_lists s w (running s)) (adm_step a) (adm_index a) (id :: adm_skipped a) (adm_loras a) in
  adm_ok a' t /\ admitted a a'.
Proof using Hcfg.
  intros [A1 A2 A3] Hw Hs. cbv zeta. split.
  - split; [by apply skip_head_ok|done|done].
  - split; cbn; [|intros Hg Hch|by intros i; rewrite Hw; right|by apply frame_objs|exists []; by rewrite app_nil_r|done|done].
    + rewrite Hw. apply Permutation_app_head, (Permutation_middle (adm_skipped a)).
    + destruct Hs as [Hs|Hs]; [|congruence]. specialize (Hg id). rewrite Hw, Hs in Hg. discriminate Hg. left.
Qed.

(** A change of the state that keeps the lists. *)
Lemma admitted_state a s' :
  running s' = running (adm_state a) -> waiting s' = waiting (adm_state a) -> requests s' = requests (adm_state a) ->
  (forall ids, frame (adm_state a) s' ids) ->
  admitted a (mk_admission s' (adm_step a) (adm_index a) (adm_skipped a) (adm_loras a)).
Proof.
  intros R1 R2 R3 Hf. split; cbn; [by rewrite R1, R2|intros _ _; by rewrite R1, R2|by rewrite R2|by rewrite <-R1|exists []; by rewrite app_nil_r|done|done].
Qed.

(** A request with [n] new tokens after a prefix of [computed]. *)
Lemma step_ok_admitted st id r i b n resumed front :
  step_ok cfg st front -> id ∉ map fst (tokens st) -> 0 < n <= token_budget st ->
  step_ok cfg (record_admitted st id r i b n resumed) (front ++ [id]).
Proof.
  intros [S1 S2 S3 S4 S5 S6 S7] Hid Hn. split; cbn; rewrite ?dict_set_new by done.
  - rewrite map_app, zsum_app. cbn. lia.
  - lia.
  - apply Forall_app. split; [done|]. constructor; [cbn; lia|constructor].
  - rewrite map_app. apply NoDup_app. split; [done|]. split; [set_solver|apply NoDup_singleton].
  - rewrite map_app, S5. cbn. rewrite <-!app_assoc. apply Permutation_app_head. destruct resumed; [done|].
    rewrite <-app_assoc. apply Permutation_app_head, Permutation_app_comm.
  - intros i'. rewrite map_app, !elem_of_app. intros [?|?]; [left; by apply S6|by right].
  - intros i' Hi. rewrite dict_get_set. destruct (decide (id = i')) as [|Hne]; [done|]. apply S7. rewrite map_app in Hi.
    apply elem_of_app in Hi as [|Hi]; [done|]. cbn in Hi. apply list_elem_of_singleton in Hi. congruence.
Qed.

Lemma admit_ok a t id w r computed n hit new_blocks k :
  adm_ok a t -> waiting (adm_state a) = id :: w -> objs (adm_state a) !! id = Some r -> request_id r = id ->
  waiting_ok max_len r -> status r <> WAITING_FOR_FSM -> 0 <= computed -> 0 < n <= token_budget (adm_step a) ->
  computed + n <= num_tokens r -> (length (running (adm_state a)) < max_num_running_reqs cfg)%nat ->
  kv_ok k (<[id := Z.min (computed + n) (num_tokens r)]> t) ->
  let a1 := mk_admission (set_kv (adm_state a) k) (adm_step a) (adm_index a) (adm_skipped a) (adm_loras a) in
  exists a' t', admit_waiting cfg a1 r computed 0 false hit new_blocks n [] (encoder_budget (adm_step a)) = Ok a' /\
    adm_ok a' t' /\ admitted a a' /\ waiting (adm_state a') = w /\ preempted_reqs (adm_step a') = preempted_reqs (adm_step a).
Proof using Hcfg.
  intros [A1 A2 A3] Hw Hobj Hid Hok Hs Hcp Hn Hcn Hroom Hk. cbv zeta. set (s := adm_state a) in *.
  assert (Hrid : id ∉ running s) by (intros Hr; apply (core_disjoint _ _ _ _ _ id A1) in Hr; apply Hr, elem_of_app; right; rewrite Hw; left).
  assert (Hidle : id ∉ map fst (tokens (adm_step a))) by (intros H%(so_front _ _ _ A2); done).
  unfold admit_waiting. cbn [adm_state adm_step adm_index adm_skipped adm_loras mk_admission set_kv connector]. fold s.
  rewrite (c_conn _ _ _ _ _ A1). unfold pop_waiting. rewrite (queue_fcfs cfg Hcfg).
  cbn [Fcfs.fcfs_queue RequestQueue.pop_request waiting set_lists set_kv]. rewrite Hw. cbn [Fcfs.pop bind].
  unfold obj. cbn [objs running requests waiting set_lists set_kv]. rewrite Hobj. cbn [of_option bind].
  assert (Hst : exists b, (match status r with WAITING => Ok false | PREEMPTED => Ok true | _ => Raise RuntimeError end) = Ok b).
  { destruct (wo_status _ _ Hok) as [->|[E| ->]]; [by eexists|by rewrite E in Hs|by eexists]. }
  destruct Hst as [b Hb]. rewrite Hb. cbn [bind commit_encoder]. eexists. exists (<[id := Z.min (computed + n) (num_tokens r)]> t). split; [reflexivity|].
  set (r' := if num_cached_tokens _ <? 0 then _ else _). cbn.
  assert (Hr' : kept r r' /\ request_id r' = id /\ running_ok max_len (Z.min (computed + n) (num_tokens r)) n r').
  { destruct Hok as [_ W2 W3 W4 W5 W6 W7]. unfold r'. destruct (_ <? 0); (split; [kept_step|split; [done|]]); split; try done; cbn; try lia;
      unfold num_tokens_with_spec, num_tokens in *; cbn; lia. }
  destruct Hr' as (Hkept & Hr1 & Hr2). split; [|split; [|done]].
  - pose proof (c_nodup _ _ _ _ _ A1) as Hnd. split; cbn; [|by apply step_ok_admitted|rewrite length_app; cbn; lia].
    eapply (core_put max_len s t _ _ _ _ _ _ id A1); cbn; [done|done|done| | | | | |done].
    + rewrite Hw in Hnd. assert (P : adm_skipped a ++ w ++ running s ++ [id] ≡ₚ adm_skipped a ++ (id :: w) ++ running s); [|by rewrite P].
      apply Permutation_app_head. rewrite app_assoc. symmetry. apply Permutation_cons_append.
    + intros i Hne. rewrite !lookup_insert_ne by done. rewrite pending_new, decide_False by done. rewrite Hw. set_solver.
    + intros _. split; [apply (c_waiting _ _ _ _ _ A1), elem_of_app; right; rewrite Hw; left|]. rewrite !lookup_insert_eq.
      rewrite pending_new, decide_True by done. by eexists _, _.
    + intros Hin. exfalso. rewrite Hw in Hnd.
      assert (P : adm_skipped a ++ (id :: w) ++ running s ≡ₚ id :: (adm_skipped a ++ w) ++ running s);
        [rewrite <-app_assoc; symmetry; apply (Permutation_middle (adm_skipped a))|].
      rewrite P in Hnd. apply NoDup_cons in Hnd as [Hnd _]. apply Hnd, elem_of_app. by left.
    + intros _. apply elem_of_app. right. left.
  - split; cbn; fold s; rewrite ?Hw.
    + rewrite <-app_assoc. apply Permutation_app_head. cbn. apply (Permutation_middle (adm_skipped a)).
    + intros _ _. split; [done|]. by rewrite <-app_assoc.
    + intros i Hi. by right.
    + apply (frame_put s _ id r r'); [done|done|by intros ?%Hrid|done].
    + by exists [id].
    + done.
    + done.
Qed.

(** ** One round and the loop *)

Lemma waiting_tokens_ok r computed budget :
  0 <= computed < num_tokens r -> 0 < budget ->
  match waiting_tokens cfg r computed budget with
  | Some n => 0 < n <= budget /\ computed + n <= num_tokens r
  | None => chunked_prefill_enabled cfg = false
  end.
Proof.
  intros Hc Hb. unfold waiting_tokens.
  set (n := if (0 <? long_prefill_token_threshold cfg) && _ then _ else _).
  assert (Hn : 0 < n <= num_tokens r - computed).
  { unfold n. destruct (Z.ltb_spec 0 (long_prefill_token_threshold cfg)); cbn [andb]; [|lia].
    destruct (Z.ltb_spec (long_prefill_token_threshold cfg) (num_tokens r - computed)); lia. }
  destruct (chunked_prefill_enabled cfg); cbn [negb andb]; [lia|]. destruct (Z.ltb_spec budget n); [done|lia].
Qed.

Lemma adm_ok_state a t s' :
  adm_ok a t -> core max_len s' t (tokens (adm_step a)) (adm_skipped a) -> running s' = running (adm_state a) ->
  adm_ok (mk_admission s' (adm_step a) (adm_index a) (adm_skipped a) (adm_loras a)) t.
Proof. intros [A1 A2 A3] Hc Hr. split; cbn; [done|by rewrite Hr|by rewrite Hr]. Qed.

Lemma waiting_step_ok a t id w :
  adm_ok a t -> waiting (adm_state a) = id :: w -> 0 < token_budget (adm_step a) ->
  (length (running (adm_state a)) < max_num_running_reqs cfg)%nat ->
  exists go a' t', waiting_step grammar_ready cfg a = Ok (go, a') /\ adm_ok a' t' /\ admitted a a' /\
    preempted_reqs (adm_step a') = preempted_reqs (adm_step a) /\ (go = true -> waiting (adm_state a') = w).
Proof using Hcfg.
  intros Ha Hw Hb Hroom. unfold waiting_step. rewrite (queue_fcfs cfg Hcfg). cbn [Fcfs.fcfs_queue peek_request]. rewrite Hw.
  cbn [Fcfs.peek bind].
  destruct (must_skip_ok (adm_state a) t _ _ id (adm_loras a) (ao_core _ _ Ha)) as (b & s1 & Hms & Hc1 & R1 & W1 & Q1 & F1 & Hskip & Hgo); [rewrite Hw; left|].
  rewrite Hms. cbn [bind]. set (a1 := mk_admission s1 (adm_step a) (adm_index a) (adm_skipped a) (adm_loras a)).
  assert (Ha1 : adm_ok a1 t) by by apply adm_ok_state. assert (H01 : admitted a a1) by by apply admitted_state.
  assert (Hw1 : waiting s1 = id :: w) by by rewrite W1. destruct b.
  - destruct (skip_head_ok s1 t _ _ id w Hc1 Hw1) as [-> _]. cbn [bind].
    destruct (skipped_round a1 t id w Ha1 Hw1) as [H1 H2]; [left; by apply Hskip|]. eexists true, _, t. split; [reflexivity|].
    split; [exact H1|]. split; [by eapply admitted_trans|done].
  - destruct (Hgo eq_refl) as (r & Hobj & Hid & Hok & Hs). unfold obj. rewrite Hobj. cbn [of_option bind].
    pose proof Hok as [_ V2 V3 V4 _ _ _]. unfold lookup_prefix. rewrite V2. cbn [Z.eqb].
    destruct (kv_admit (kv s1) t r) as (hit & computed & k & -> & Hcomp & Hk & Hal); [by apply Hc1| |done|lia|done|].
    { rewrite Hid. destruct (t !! id) eqn:E; [|done]. exfalso.
      apply (core_disjoint _ _ _ _ _ id Hc1); [by apply (c_tbl _ _ _ _ _ Hc1); eexists|apply elem_of_app; right; rewrite Hw1; left]. }
    cbn [bind]. set (s2 := set_kv s1 k). rewrite (c_conn _ _ _ _ _ Hc1 : connector s2 = None). cbn [bind].
    set (a2 := mk_admission s2 (adm_step a) (adm_index a) (adm_skipped a) (adm_loras a)).
    assert (Hc2 : core max_len s2 t (tokens (adm_step a)) (adm_skipped a)) by by apply core_kv.
    assert (Ha2 : adm_ok a2 t) by by apply (adm_ok_state a1).
    assert (H02 : admitted a a2) by (eapply admitted_trans; [exact H01|]; apply (admitted_state a1); try done; intros ids; by apply frame_objs).
    pose proof (waiting_tokens_ok r computed (token_budget (adm_step a)) Hcomp Hb) as Hn.
    destruct (waiting_tokens cfg r computed (token_budget (adm_step a))) as [n|]; cbn [bind].
    + destruct Hn as [Hn1 Hn2]. unfold py_assert. rewrite (proj2 (Z.ltb_lt 0 n)) by lia. cbn [bind].
      rewrite plan_text by done. cbn [bind]. rewrite (proj2 (Z.eqb_neq n 0)) by lia. cbn [negb andb].
      rewrite Z.add_0_r. destruct (Hal n) as (nb & k' & Hka & Hk'); [lia|]. change (kv s2) with k. rewrite Hka. cbn [bind]. rewrite Hid in Hk'.
      destruct nb as [nb|].
      * destruct (admit_ok a2 t id w r computed n hit nb k' Ha2 Hw1 Hobj Hid Hok Hs) as (a' & t' & Had & A1 & A2 & A3 & A4);
          [lia|done|done|cbn; by rewrite R1|done|].
        change (adm_state a2) with s2 in Had. change (adm_step a2) with (adm_step a) in Had. change (adm_index a2) with (adm_index a) in Had.
        change (adm_skipped a2) with (adm_skipped a) in Had. change (adm_loras a2) with (adm_loras a) in Had. rewrite Had. cbn [bind]. exists true, a', t'. split; [done|]. split; [done|]. split; [by eapply admitted_trans|done].
      * eexists false, _, t. split; [reflexivity|]. split; [apply (adm_ok_state a2); [done|by apply core_kv|done]|]. split; [|done].
        eapply admitted_trans; [exact H02|]. apply (admitted_state a2); try done. intros ids. by apply frame_objs.
    + destruct (skip_head_ok s2 t _ _ id w Hc2 Hw1) as [-> _]. cbn [bind].
      destruct (skipped_round a2 t id w Ha2 Hw1) as [H1 H2]; [by right|]. eexists true, _, t. split; [reflexivity|].
      split; [exact H1|]. split; [by eapply admitted_trans|done].
Qed.

(** The length of the waiting queue is enough fuel: more of it gives the same result. *)
Lemma waiting_loop_ok fuel : forall a t,
  adm_ok a t -> (length (waiting (adm_state a)) <= fuel)%nat ->
  exists a' t', (forall more, waiting_loop grammar_ready cfg (fuel + more) a = Ok a') /\ adm_ok a' t' /\ admitted a a' /\
    preempted_reqs (adm_step a') = preempted_reqs (adm_step a).
Proof using Hcfg.
  assert (Hend : forall a t (m : nat -> res (Admission (K := K) (C := C))), adm_ok a t -> (forall more, m more = Ok a) ->
    exists a' t', (forall more, m more = Ok a') /\ adm_ok a' t' /\ admitted a a' /\ preempted_reqs (adm_step a') = preempted_reqs (adm_step a))
    by (intros a t m Ha Hm; exists a, t; split; [done|]; split; [done|]; split; [apply admitted_refl|done]).
  assert (Hempty : forall fuel a, waiting (adm_state a) = [] -> waiting_loop grammar_ready cfg fuel a = Ok a).
  { intros [|k] a Hw; [done|]. cbn [waiting_loop]. rewrite (queue_fcfs cfg Hcfg), Hw. done. }
  induction fuel as [|fuel IH]; intros a t Ha Hl.
  - apply (Hend a t); [done|]. intros more. apply Hempty. destruct (waiting (adm_state a)); [done|cbn in Hl; lia].
  - destruct (waiting (adm_state a)) as [|id w] eqn:Hw; [apply (Hend a t); [done|intros more; by apply Hempty]|].
    cbn [waiting_loop Nat.add]. rewrite (queue_fcfs cfg Hcfg), Hw. cbn.
    destruct (Z.ltb_spec 0 (token_budget (adm_step a))) as [Hb|]; [|by apply (Hend a t)].
    destruct (Nat.eqb_spec (length (running (adm_state a))) (max_num_running_reqs cfg)) as [|Hne]; [by apply (Hend a t)|].
    destruct (waiting_step_ok a t id w Ha Hw Hb) as (go & a1 & t1 & -> & A1 & A2 & A3 & A4); [pose proof (ao_room _ _ Ha); lia|]. cbn [bind].
    destruct go; [|by exists a1, t1]. destruct (IH a1 t1 A1) as (a2 & t2 & Hok & B1 & B2 & B3); [rewrite A4 by done; cbn in Hl; lia|].
    exists a2, t2. split; [done|]. split; [done|]. split; [by eapply admitted_trans|congruence].
Qed.
End admission.
