(* ===== verification/SchedulerOk.v ===== *)
(** * A step of the scheduler is correct

    [schedule] never raises, hands out a batch within the budget and keeps every
    request, in order of arrival. *)

From stdpp Require Import base gmap strings list fin_sets.
From Stdlib Require Import ZArith QArith Lia.
From S2P Require Import Prelude RequestQueue Request BlockHash BlockPool KVCacheManager SchedulerTypes.
From S2P Require EncoderCache.
From S2P Require Import Scheduler SchedulerSpec SchedulerRun SchedulerAdmit.
Open Scope string_scope.
Open Scope list_scope.
Open Scope Z_scope.

Section output.
Context {K C : Type} {KM : KVManager K} {KC : KVConnector C} (max_len : Z) {stats : bool} {KL : KVContract KM max_len stats}.
Context (grammar_ready : string -> bool).
Context (cfg : Settings) (Hcfg : plain_settings cfg) (Hlen : sched_max_model_len cfg = max_len).
Notation State := (Scheduler K C).
Implicit Type s : State.
Implicit Type st : Step.

(** Between two steps. *)
Definition sched_inv s (t : gmap string Z) : Prop :=
  core max_len s t [] [] /\ (length (running s) <= max_num_running_reqs cfg)%nat.

Lemma prepend_all_app (q l : list string) : Fcfs.prepend_all q l = l ++ q.
Proof.
  unfold Fcfs.prepend_all. induction l as [|x l IH] using rev_ind; [done|].
  rewrite rev_app_distr. cbn. clear IH. revert q x. induction l as [|y l IH] using rev_ind; intros q x; [done|].
  rewrite rev_app_distr. cbn. rewrite IH. by rewrite <-!app_assoc.
Qed.

(** The skipped requests return to the head of the queue. *)
Lemma core_put_back s t p e : core max_len s t p e -> core max_len (set_lists s (e ++ waiting s) (running s)) t p [].
Proof. intros [C1 C0 C2 C3 C4 C5 C6]. split; try done. cbn. by rewrite <-app_assoc. Qed.

(** ** The output *)

Lemma new_rows_ok s st ids :
  (forall id, id ∈ ids -> (exists r, objs s !! id = Some r /\ request_id r = id) /\ is_Some (dict_get (block_ids st) id)) ->
  exists rows, new_rows s st ids = Ok rows /\ map new_req_id rows = ids.
Proof.
  induction ids as [|id ids IH]; intros H; [by exists []|].
  destruct (H id ltac:(left)) as [(r & Hr & Hid) [b Hb]]. destruct IH as (rows & Hrows & Hids); [intros i ?; apply H; by right|].
  cbn [new_rows]. unfold obj. rewrite Hr, Hb. cbn [of_option bind]. rewrite Hrows. cbn [bind]. eexists. split; [reflexivity|].
  cbn. by rewrite Hid, Hids.
Qed.
Lemma cached_rows_ok s st ids :
  (forall id, id ∈ ids -> is_Some (objs s !! id) /\ is_Some (dict_get (block_ids st) id) /\ is_Some (dict_get (tokens st) id)) ->
  exists rows, cached_rows s st ids = Ok rows.
Proof.
  induction ids as [|id ids IH]; intros H; [by exists []|].
  destruct (H id ltac:(left)) as ([r Hr] & [b Hb] & [n Hn]). destruct IH as (rows & Hrows); [intros i ?; apply H; by right|].
  cbn [cached_rows]. unfold obj. rewrite Hr, Hb, Hn. cbn [of_option bind]. rewrite Hrows. cbn [bind]. by eexists.
Qed.

Lemma make_output_ok s t st :
  core max_len s t (tokens st) [] -> step_ok cfg st (running s) ->
  exists out k e, make_output cfg s st = Ok (out, set_encoder (set_kv s k) e) /\ kv_ok k t /\ EncoderCache.cached e = ∅ /\
    num_scheduled_tokens out = tokens st /\ total_num_scheduled_tokens out = zsum (map snd (tokens st)) /\
    map new_req_id (scheduled_new_reqs out) = new_reqs st /\
    req_ids (scheduled_cached_reqs out) = running_reqs st ++ resumed_reqs st /\
    resumed_from_preemption (scheduled_cached_reqs out) = repeat false (length (running_reqs st)) ++ repeat true (length (resumed_reqs st)).
Proof.
  intros Hc Hst. unfold make_output.
  assert (Hcommon : exists l k, (match running s with
     | [] => Ok (repeat 0 (num_groups cfg), s)
     | id :: _ => let! r := obj s id in
                  let! '(l, k) := kv_get_num_common_prefix_blocks (kv s) r (Z.of_nat (length (running s))) in Ok (l, set_kv s k)
     end) = Ok (l, set_kv s k) /\ kv_ok k t).
  { destruct (running s) as [|id l0] eqn:Er.
    - exists (repeat 0 (num_groups cfg)), (kv s). split; [by destruct s|apply Hc].
    - destruct (c_running _ _ _ _ _ Hc id) as (_ & r & c & Hobj & Hid & Ht & Hok); [rewrite Er; left|].
      unfold obj. rewrite Hobj. cbn [of_option bind].
      destruct (common_prefix (kv s) t r (Z.of_nat (length (id :: l0)))) as (l & k & -> & Hk); [apply Hc|rewrite Hid, Ht; by eexists|apply Hok|cbn; lia|].
      cbn [bind]. by exists l, k. }
  destruct Hcommon as (l & k & -> & Hk). cbn [bind].
  assert (Hin : forall id, id ∈ running_reqs st ++ new_reqs st ++ resumed_reqs st -> id ∈ map fst (tokens st)) by (intros id; by rewrite (so_keys _ _ _ Hst)).
  assert (Hobj : forall id, id ∈ map fst (tokens st) -> exists r, objs s !! id = Some r /\ request_id r = id).
  { intros id Hi%(so_front _ _ _ Hst). destruct (c_running _ _ _ _ _ Hc id Hi) as (_ & r & _ & ? & ? & _). by exists r. }
  destruct (new_rows_ok (set_kv s k) st (new_reqs st)) as (rows & -> & Hrows).
  { intros id Hi. assert (Hk' : id ∈ map fst (tokens st)) by (apply Hin; set_solver). split; [by apply Hobj|by apply Hst]. }
  cbn [bind]. unfold _make_cached_request_data.
  destruct (cached_rows_ok (set_kv s k) st (running_reqs st ++ resumed_reqs st)) as (crows & ->).
  { intros id Hi. assert (Hk' : id ∈ map fst (tokens st)) by (apply Hin; set_solver).
    destruct (Hobj id Hk') as (r & Hr & _). split; [by exists r|]. split; [by apply Hst|].
    destruct (dict_get (tokens st) id) eqn:E; [by eexists|]. by apply dict_get_none in E. }
  cbn [bind]. unfold EncoderCache.get_freed_ids. eexists _, k, _. split; [reflexivity|]. split; [done|]. split; [apply (c_enc _ _ _ _ _ Hc)|done].
Qed.

(** ** After the step *)

Lemma advance_ok s t id n p :
  core max_len s t ((id, n) :: p) [] -> id ∈ running s -> id ∉ map fst p ->
  exists s' r, advance s id n = Ok s' /\ core max_len s' t p [] /\ objs s !! id = Some r /\
    objs s' = <[id := set_num_computed_tokens r (num_computed_tokens r + n)]> (objs s) /\
    running s' = running s /\ waiting s' = waiting s /\ requests s' = requests s.
Proof.
  intros Hc Hin Hni. destruct (c_running _ _ _ _ _ Hc id Hin) as (Hreq & r & c & Hobj & Hid & Ht & Hok).
  assert (Hp : pending ((id, n) :: p) id = n) by (unfold pending; cbn; by rewrite decide_True). rewrite Hp in Hok.
  unfold advance. rewrite bool_decide_true by done. unfold obj. rewrite Hobj. cbn [negb of_option bind].
  set (r' := set_num_computed_tokens r (num_computed_tokens r + n)).
  assert (He : has_encoder_inputs r' = false) by (unfold has_encoder_inputs, r'; cbn; by rewrite (proj1 (ro_text _ _ _ _ Hok))).
  rewrite He. eexists _, r. split; [reflexivity|]. split; [|done].
  eapply (core_put max_len s t _ _ _ _ _ _ id Hc); cbn; try done; [apply Hc| | | |apply Hc].
  - intros i Hne. rewrite lookup_insert_ne by done. split; [done|]. split; [done|]. split; [|done]. unfold pending. cbn. by rewrite decide_False.
  - intros _. split; [done|]. exists r', c. rewrite lookup_insert_eq. split; [done|]. split; [done|]. split; [done|]. rewrite pending_none by done.
    destruct Hok as [O1 O2 O3 O4 O5 O6 O7 O8 O9 O10]. split; try done; cbn; try lia; unfold num_tokens, num_tokens_with_spec in *; cbn in *; lia.
  - intros Hw. exfalso. by apply (core_disjoint _ _ _ _ _ id Hc) in Hw.
Qed.

(** The requests of [p] advance by their tokens, nothing else changes. *)
Lemma advance_all p : forall s t,
  core max_len s t p [] -> NoDup (map fst p) -> (forall id, id ∈ map fst p -> id ∈ running s) ->
  exists s', res_fold (fun s e => advance s e.1 e.2) p s = Ok s' /\ core max_len s' t [] [] /\
    running s' = running s /\ waiting s' = waiting s /\ requests s' = requests s /\
    forall id r, objs s !! id = Some r -> exists r', objs s' !! id = Some r' /\ kept r r' /\
      num_computed_tokens r' = num_computed_tokens r + pending p id.
Proof.
  induction p as [|[id n] p IH]; intros s t Hc Hnd Hin; cbn [res_fold map fst snd] in *.
  - exists s. split; [done|]. split; [done|]. split; [done|]. split; [done|]. split; [done|]. intros id r Hr. exists r. split; [done|]. split; [done|].
    unfold pending. cbn. lia.
  - apply NoDup_cons in Hnd as [Hni Hnd].
    destruct (advance_ok s t id n p Hc) as (s1 & r & -> & Hc1 & Hobj & Ho & R1 & W1 & Q1); [apply Hin; left|done|]. cbn [bind].
    destruct (IH s1 t Hc1 Hnd) as (s' & Hok & Hc' & R2 & W2 & Q2 & Hadv); [intros i ?; rewrite R1; apply Hin; by right|].
    exists s'. split; [done|]. split; [done|]. split; [congruence|]. split; [congruence|]. split; [congruence|]. intros i ri Hi. unfold pending. cbn [dict_get].
    destruct (decide (id = i)) as [->|Hne].
    + rewrite Hobj in Hi. injection Hi as <-. destruct (Hadv i (set_num_computed_tokens r (num_computed_tokens r + n))) as (r' & Hr' & Hk & Hn);
        [by rewrite Ho, lookup_insert_eq|]. exists r'. split; [done|]. split; [etransitivity; [|exact Hk]; kept_step|].
      rewrite Hn, pending_none by done. cbn. lia.
    + apply Hadv. by rewrite Ho, lookup_insert_ne.
Qed.

Lemma placeholders_ok l : forall s t,
  core max_len s t [] [] -> (forall id, id ∈ l -> id ∈ running s) ->
  exists s', res_fold (fun s e => add_placeholder s e) l s = Ok s' /\ core max_len s' t [] [] /\
    running s' = running s /\ waiting s' = waiting s /\ requests s' = requests s /\ frame s s' (running s).
Proof.
  induction l as [|id l IH]; intros s t Hc Hin; cbn [res_fold].
  - exists s. split; [done|]. split; [done|]. split; [done|]. split; [done|]. split; [done|]. apply frame_refl.
  - assert (Hr : id ∈ running s) by (apply Hin; left). destruct (c_running _ _ _ _ _ Hc id Hr) as (Hreq & r & c & Hobj & Hid & Ht & Hok).
    unfold add_placeholder at 1. rewrite bool_decide_true by done. unfold obj. rewrite Hobj. cbn [negb of_option bind].
    destruct (_ =? _).
    + set (r' := set_num_output_placeholders r (num_output_placeholders r + 1)). cbn [bind].
      destruct (IH (set_obj s id r') t) as (s' & Hok' & Hc' & R2 & W2 & Q2 & F2); [|intros i ?; apply Hin; by right|].
      * eapply (core_put max_len s t _ _ _ _ _ _ id Hc); cbn; try done; [apply Hc| | | |apply Hc].
        -- intros i Hne. by rewrite lookup_insert_ne.
        -- intros _. split; [done|]. exists r', c. rewrite lookup_insert_eq. split; [done|]. split; [done|]. split; [done|].
           destruct Hok as [O1 O2 O3 O4 O5 O6 O7 O8 O9 O10]. split; try done; cbn in *; try lia; unfold num_tokens, num_tokens_with_spec in *; cbn in *; lia.
        -- intros Hw. exfalso. by apply (core_disjoint _ _ _ _ _ id Hc) in Hw.
      * exists s'. split; [done|]. split; [done|]. split; [done|]. split; [done|]. split; [done|].
        eapply frame_trans; [|exact F2]. apply (frame_put s _ id r r'); [done|kept_step|done|done].
    + cbn [bind]. apply (IH s t Hc). intros i ?. apply Hin. by right.
Qed.

Lemma update_after_ok s t p :
  core max_len s t p [] -> NoDup (map fst p) -> (forall id, id ∈ map fst p -> id ∈ running s) ->
  exists s', _update_after_schedule cfg s p = Ok s' /\ core max_len s' t [] [] /\
    running s' = running s /\ waiting s' = waiting s /\ requests s' = requests s /\
    forall id r, objs s !! id = Some r -> exists r', objs s' !! id = Some r' /\ kept r r' /\
      (id ∈ running s -> num_computed_tokens r' = num_computed_tokens r + pending p id).
Proof.
  intros Hc Hnd Hin. destruct (advance_all p s t Hc Hnd Hin) as (s1 & Hok & Hc1 & R1 & W1 & Q1 & Hadv).
  unfold _update_after_schedule. rewrite Hok. cbn [bind]. set (s2 := set_finished s1 ∅ (finished_req_ids_dict s1)).
  assert (Hc2 : core max_len s2 t [] []) by (destruct Hc1; by split).
  assert (Hobjs : forall id r, objs s !! id = Some r -> exists r', objs s2 !! id = Some r' /\ kept r r' /\
      num_computed_tokens r' = num_computed_tokens r + pending p id) by exact Hadv.
  destruct (async_scheduling cfg); [|exists s2; split; [done|]; split; [done|]; split; [done|]; split; [done|]; split; [done|];
    intros id r (r' & ? & ? & ?)%Hobjs; by exists r'].
  assert (Hm : res_fold (fun s e => add_placeholder s e.1) p s2 = res_fold (fun s e => add_placeholder s e) (map fst p) s2).
  { clear. generalize s2. induction p as [|e p IH]; intros s; cbn; [done|]. destruct (add_placeholder s e.1); cbn; [apply IH|done]. }
  rewrite Hm. destruct (placeholders_ok (map fst p) s2 t Hc2) as (s3 & -> & Hc3 & R3 & W3 & Q3 & F3); [intros id ?; cbn; rewrite R1; by apply Hin|].
  exists s3. split; [done|]. split; [done|]. split; [by rewrite R3|]. split; [by rewrite W3|]. split; [by rewrite Q3|].
  intros id r Hr. destruct (Hobjs id r Hr) as (r1 & Hr1 & K1 & N1). destruct (F3 id r1 Hr1) as (r2 & Hr2 & K2 & N2).
  exists r2. split; [done|]. split; [by etransitivity|]. intros Hi. rewrite N2; [done|]. cbn. by rewrite R1.
Qed.

(** ** The step *)

(** What a step does, seen from outside; [ps] are the preempted requests. *)
Record step_spec s s' (out : SchedulerOutput) (ps : list string) : Prop := {
  ss_budget : zsum (map snd (num_scheduled_tokens out)) <= max_num_scheduled_tokens cfg /\
              total_num_scheduled_tokens out = zsum (map snd (num_scheduled_tokens out));
  ss_once : NoDup (map fst (num_scheduled_tokens out));
  ss_each id n : (id, n) ∈ num_scheduled_tokens out -> 0 < n /\ id ∈ running s';
  ss_batch : map new_req_id (scheduled_new_reqs out) ++ req_ids (scheduled_cached_reqs out) ≡ₚ map fst (num_scheduled_tokens out);
  ss_requests : requests s' = requests s;
  ss_conserved : running s' ++ waiting s' ≡ₚ running s ++ waiting s;
  ss_fifo : (forall id, id ∈ waiting s -> grammar_ready id = true) -> chunked_prefill_enabled cfg = true ->
    running s' ++ waiting s' = running s ++ waiting s;
  ss_preempted : exists front, running s = front ++ ps /\ (ps <> [] -> running s' = front /\ waiting s' = ps ++ waiting s) /\
    (ps = [] -> exists l, running s' = running s ++ l);
  ss_kept id r : objs s !! id = Some r -> exists r', objs s' !! id = Some r' /\ kept r r' /\
    (id ∈ running s -> id ∈ running s' -> num_computed_tokens r' = num_computed_tokens r + pending (num_scheduled_tokens out) id) }.

Lemma empty_loop_ok s t : core max_len s t [] [] -> loop_ok max_len cfg s t (empty_step cfg) 0.
Proof.
  intros Hc. split; [done| |lia|done]. destruct Hcfg as [_ _ Hb _]. split; cbn; try done; [apply NoDup_nil_2|by intros id ?%elem_of_nil..].
Qed.

(** The two loops and the return of the skipped requests. *)
Lemma loops_ok s t :
  sched_inv s t ->
  exists s1 st1 i1 a' t' w ps,
    running_loop cfg (length (running s)) s (empty_step cfg) 0 = Ok (s1, st1, i1) /\
    running_loras cfg s1 st1 = Ok ∅ /\
    (match preempted_reqs st1 with
     | [] => waiting_loop grammar_ready cfg (length (waiting s1)) (mk_admission s1 st1 i1 [] ∅)
     | _ => Ok (mk_admission s1 st1 i1 [] ∅)
     end) = Ok a' /\
    w = adm_skipped a' ++ waiting (adm_state a') /\
    core max_len (set_lists (adm_state a') w (running (adm_state a'))) t' (tokens (adm_step a')) [] /\
    step_ok cfg (adm_step a') (running (adm_state a')) /\ (length (running (adm_state a')) <= max_num_running_reqs cfg)%nat /\
    requests (adm_state a') = requests s /\
    running (adm_state a') ++ w ≡ₚ running s ++ waiting s /\
    ((forall id, id ∈ waiting s -> grammar_ready id = true) -> chunked_prefill_enabled cfg = true ->
       running (adm_state a') ++ w = running s ++ waiting s) /\
    (exists front, running s = front ++ ps /\ (ps <> [] -> running (adm_state a') = front /\ w = ps ++ waiting s) /\
       (ps = [] -> exists l, running (adm_state a') = running s ++ l)) /\
    frame s (adm_state a') (filter (fun id => id ∈ running (adm_state a')) (running s)).
Proof.
  intros [Hc Hroom].
  destruct (running_loop_ok max_len cfg Hcfg Hlen (length (running s)) s t (empty_step cfg) 0) as (s1 & st1 & i1 & t1 & stop & Hrun & Hran & _);
    [by apply empty_loop_ok|lia|].
  destruct (rn_lists _ _ _ _ _ _ _ _ Hran) as (vs & V1 & V2 & V3). cbn [preempted_reqs empty_step app] in V1.
  exists s1, st1, i1. rewrite V1. unfold running_loras. rewrite (ps_loras _ Hcfg). destruct Hran as [R1 _ R3 R4 R5 R6 R7].
  destruct vs as [|v vs].
  - rewrite app_nil_r in V2. cbn in V3.
    destruct (waiting_loop_ok max_len grammar_ready cfg Hcfg (length (waiting s1)) (mk_admission s1 st1 i1 [] ∅) t1)
      as (a' & t' & Hok & [A1 A2 A3] & [B1 B2 B3 B4 (l & B5) B6 B7] & _); [split; [done|done|cbn; by rewrite <-V2]|done|].
    cbn [adm_state adm_skipped mk_admission app] in *. specialize (Hok 0%nat). rewrite Nat.add_0_r in Hok.
    exists a', t', (adm_skipped a' ++ waiting (adm_state a')), []. split; [done|]. split; [done|]. split; [done|]. split; [done|].
    split; [by apply core_put_back|]. split; [done|]. split; [done|]. split; [congruence|]. split; [by rewrite B1, V2, V3|]. split.
    { intros Hg Hch. destruct B2 as [E1 E2]; [by rewrite V3|done|]. rewrite E1. cbn. by rewrite E2, V2, V3. }
    split; [exists (running s); split; [by rewrite app_nil_r|split; [done|intros _; exists l; by rewrite B5, V2]]|].
    eapply frame_trans; [eapply frame_sub; [|exact R3]|eapply frame_sub; [|exact B4]]; intros id [_ Hi]%list_elem_of_filter; by rewrite <-?V2.
  - exists (mk_admission s1 st1 i1 [] ∅), t1, (waiting s1), (rev (v :: vs)). cbn [adm_state adm_step adm_skipped mk_admission app].
    split; [done|]. split; [done|]. split; [done|]. split; [done|]. split; [destruct R1; by split|]. split; [done|].
    split; [rewrite V2, length_app in Hroom; lia|]. split; [done|].
    assert (E : running s1 ++ waiting s1 = running s ++ waiting s) by (rewrite V2, V3; by rewrite <-app_assoc).
    split; [by rewrite E|]. split; [by intros _ _|]. split; [exists (running s1); split; [done|split; [done|]]|].
    { intros E'. apply (f_equal length) in E'. rewrite length_rev in E'. done. }
    eapply frame_sub; [|exact R3]. by intros id [Hi _]%list_elem_of_filter.
Qed.

Lemma check_step_ok s st :
  step_ok cfg st (running s) -> (length (running s) <= max_num_running_reqs cfg)%nat -> check_step cfg s st = Ok tt.
Proof.
  intros Hst Hroom. unfold check_step, py_assert. pose proof (so_sum _ _ _ Hst). pose proof (so_budget _ _ _ Hst).
  rewrite (proj2 (Z.leb_le _ _)) by lia. cbn [bind]. rewrite (proj2 (Z.leb_le 0 _)) by lia. cbn [bind].
  rewrite (proj2 (Nat.leb_le _ _)) by done. cbn [bind]. rewrite (proj2 (Nat.leb_le _ _)); [done|].
  assert (Hl : (length (map fst (tokens st)) <= length (running s))%nat).
  { apply submseteq_length, NoDup_submseteq; [apply Hst|]. intros id. apply Hst. }
  rewrite (Permutation_length (so_keys _ _ _ Hst)), !length_app in Hl. lia.
Qed.

Lemma schedule_step s t :
  sched_inv s t ->
  exists out events s' t' ps, schedule grammar_ready cfg s = Ok (out, events, s') /\ sched_inv s' t' /\ step_spec s s' out ps.
Proof.
  intros Hinv. destruct (loops_ok s t Hinv) as (s1 & st1 & i1 & a' & t' & w & ps & H1 & H2 & H3 & Hw & Hc & Hst & Hroom & Hq & Hperm & Hfifo & Hpre & Hf).
  unfold schedule. rewrite H1. cbn [bind]. rewrite H2. cbn [bind]. rewrite H3. cbn [bind]. rewrite (queue_fcfs cfg Hcfg).
  assert (Hput : (if Fcfs.nonempty (adm_skipped a') then Ok (Fcfs.prepend_all (waiting (adm_state a')) (adm_skipped a')) else Ok (waiting (adm_state a'))) = Ok w).
  { rewrite prepend_all_app, Hw. by destruct (adm_skipped a'). }
  cbn [Fcfs.fcfs_queue queue_bool prepend_requests]. rewrite Hput. cbn [bind]. set (s2 := set_lists (adm_state a') w (running (adm_state a'))) in *.
  rewrite check_step_ok by done. cbn [bind].
  destruct (make_output_ok s2 t' (adm_step a') Hc Hst) as (out & k & e & -> & Hk & He & O1 & O2 & O3 & O4 & O5). cbn [bind].
  rewrite (c_conn _ _ _ _ _ Hc : connector (set_encoder (set_kv s2 k) e) = None).
  destruct (kv_take_events (kv (set_encoder (set_kv s2 k) e))) as [events k2] eqn:Ek.
  assert (Hk2 : kv_ok k2 t') by (pose proof (events_taken k t' Hk) as H; cbn in Ek; by rewrite Ek in H).
  set (s3 := set_kv (set_encoder (set_kv s2 k) e) k2).
  assert (Hc3 : core max_len s3 t' (tokens (adm_step a')) []) by (destruct Hc; by split).
  destruct (update_after_ok s3 t' (tokens (adm_step a')) Hc3) as (s' & Hup & Hc' & R & W & Q & Hadv); [apply Hst|intros id; apply Hst|].
  rewrite O1, Hup. cbn [bind]. exists out, events, s', t', ps. cbn in R, W, Q, Hadv. split; [done|]. split; [split; [done|by rewrite R]|].
  pose proof (so_sum _ _ _ Hst). pose proof (so_budget _ _ _ Hst). split; rewrite ?O1, ?R, ?W; [split; [lia|done]|apply Hst| | |by rewrite Q|done|done|done|].
  - intros id n Hin. split; [apply (proj1 (Forall_forall _ _) (so_pos _ _ _ Hst) (id, n) Hin)|].
    apply (so_front _ _ _ Hst), list_elem_of_fmap. by exists (id, n).
  - rewrite O3, O4, (so_keys _ _ _ Hst), app_assoc, (Permutation_app_comm (new_reqs _)), <-app_assoc. done.
  - intros id r Hr. destruct (Hf id r Hr) as (r1 & Hr1 & K1 & N1). destruct (Hadv id r1 Hr1) as (r2 & Hr2 & K2 & N2).
    exists r2. split; [done|]. split; [by etransitivity|]. intros Hi Hi'. rewrite N2, N1; [done| |done]. by apply list_elem_of_filter.
Qed.

End output.
