(* ===== verification/PagedContract.v ===== *)
(** * The paged KV cache manager meets the scheduler's contract

    [KVContract] for [paged_manager] over any number of full-attention groups,
    without prefix caching. *)

From stdpp Require Import base functions gmap strings list.
From Stdlib Require Import ZArith Lia.
From S2P Require Import Prelude FreeQueue Request BlockHash BlockPool KVCacheInterface SingleType PrefixLookup.
From S2P Require Import KVCoordinator CoordinatorInv CoordinatorOk KVCacheManager KVManagerOk KVLookup.
From S2P Require Import SchedulerTypes SchedulerSpec.
Open Scope list_scope.
Open Scope Z_scope.

Section paged.
Context (hash_fn : Z * list Z * option (list ExtraKey) -> Z) (NONE_HASH : Z) (max_len : Z) (stats : bool).

(** A manager that was built to count lookups has its counters. *)
Definition counts_lookups (m : KVCacheManager) : Prop := stats = true -> log_stats m = true /\ is_Some (prefix_cache_stats m).
(** The settings of the manager, which no operation changes. *)
Definition plain_manager (m : KVCacheManager) : Prop :=
  manager_caching m = false /\ counts_lookups m /\ manager_max_model_len m = max_len /\ (exists n, kind (coordinator m) = NoPrefixCache n) /\
  forall x, x ∈ managers m -> is_full (kv_cache_spec x) = true.
(** [t] holds the requests that the manager knows. *)
Definition tracked (m : KVCacheManager) (t : gmap string Z) : Prop :=
  forall id, match t !! id with Some _ => known m id | None => unknown (managers m) id end.
Definition paged_ok (m : KVCacheManager) (t : gmap string Z) : Prop :=
  plain_manager m /\ tracked m t /\ exists fr, kv_inv m fr.

Lemma evolves_back id ms ms' x' : evolves id ms ms' -> x' ∈ ms' -> exists x, x ∈ ms /\ same_group x x' /\ others_kept id x x'.
Proof.
  intros He [i Hi]%list_elem_of_lookup_1. destruct (Forall2_lookup_r _ _ _ _ _ He Hi) as (x & Hx & ?).
  exists x. split; [by eapply list_elem_of_lookup_2|done].
Qed.

(** An operation on [id] that keeps the settings. *)
Lemma paged_step m t m' fr' id t' :
  paged_ok m t -> kv_inv m' fr' -> evolves id (managers m) (managers m') ->
  manager_caching m' = manager_caching m -> (counts_lookups m -> counts_lookups m') -> manager_max_model_len m' = manager_max_model_len m ->
  kind (coordinator m') = kind (coordinator m) -> (forall i, i <> id -> t' !! i = t !! i) ->
  match t' !! id with Some _ => known m' id | None => unknown (managers m') id end -> paged_ok m' t'.
Proof.
  intros [(P1 & P0 & P2 & P3 & P4) [Ht _]] Hinv He Hca Hst Hml Hk Ho Hid. split; [|split; [|by exists fr']].
  - split; [congruence|]. split; [by apply Hst|]. split; [congruence|]. split; [by rewrite Hk|]. intros x' Hx'.
    destruct (evolves_back _ _ _ _ He Hx') as (x & Hx & [E _] & _). rewrite E. by apply P4.
  - intros i. destruct (decide (i = id)) as [->|Hne]; [done|]. rewrite (Ho i Hne). specialize (Ht i).
    destruct (t !! i); intros x' Hx'; destruct (evolves_back _ _ _ _ He Hx') as (x & Hx & _ & Hoth); destruct (Hoth i Hne) as [E1 E2].
    + rewrite E2. destruct (Ht x Hx) as (nc & Hnc & _). exists nc. split; [done|]. by rewrite Hca, P1.
    + rewrite E1, E2. by apply Ht.
Qed.

(** ** The frame of [allocate_slots] *)

Lemma remove_skipped_kind c id n c' : remove_skipped_blocks c id n = Ok c' -> kind c' = kind c.
Proof. unfold remove_skipped_blocks. destruct (each _ _ _ _) as [[[]]|]; cbn; [|done]. by intros [= <-]. Qed.
Lemma count_kind c id n comp k c' : get_num_blocks_to_allocate c id n comp = Ok (k, c') -> kind c' = kind c.
Proof. unfold get_num_blocks_to_allocate. destruct (each _ _ _ _) as [[[]]|]; cbn; [|done]. by intros [= _ <-]. Qed.
Lemma save_kind c id comp c' : save_new_computed_blocks c id comp = Ok c' -> kind c' = kind c.
Proof. unfold save_new_computed_blocks. destruct (each _ _ _ _) as [[[]]|]; cbn; [|done]. by intros [= <-]. Qed.
Lemma allocate_kind c id n nb c' : allocate_new_blocks c id n = Ok (nb, c') -> kind c' = kind c.
Proof. unfold allocate_new_blocks. destruct (each _ _ _ _) as [[[]]|]; cbn; [|done]. by intros [= _ <-]. Qed.

Lemma allocate_slots_frame m r new computed comp look delay b m' :
  manager_caching m = false -> allocate_slots hash_fn NONE_HASH m r new computed comp look delay = Ok (b, m') ->
  manager_caching m' = manager_caching m /\ (counts_lookups m -> counts_lookups m') /\ manager_max_model_len m' = manager_max_model_len m /\
  kind (coordinator m') = kind (coordinator m).
Proof.
  intros Hca. unfold allocate_slots. rewrite Hca. destruct (new =? 0); [done|].
  destruct (remove_skipped_blocks _ _ _) as [c1|] eqn:E1; cbn [bind]; [|done]. apply remove_skipped_kind in E1.
  destruct (get_num_blocks_to_allocate _ _ _ _) as [[k c2]|] eqn:E2; cbn [bind]; [|done]. apply count_kind in E2.
  destruct (_ <? _); [intros [= _ <-]; cbn; by rewrite E2, E1|].
  destruct (py_assert _); cbn [bind]; [|done]. destruct (save_new_computed_blocks _ _ _) as [c3|] eqn:E3; cbn [bind]; [|done]. apply save_kind in E3.
  destruct (allocate_new_blocks _ _ _) as [[nb c4]|] eqn:E4; cbn [bind negb orb]; [|done]. apply allocate_kind in E4.
  cbn [with_coordinator manager_caching]. rewrite Hca. cbn [negb orb]. intros [= _ <-]. cbn. split; [done|]. split; [done|]. split; [done|]. congruence.
Qed.

(** ** The contract *)

Lemma no_prefix m : (map (map Blk) (repeat [] (num_kv_cache_groups m)) : list (list Ref)) = repeat [] (num_kv_cache_groups m).
Proof. by rewrite map_repeat. Qed.

(** Slots without a prefix hit. *)
Lemma paged_allocate m t r new look :
  paged_ok m t -> 0 <= num_computed_tokens r <= max_len -> 0 < new -> 0 <= look ->
  exists b m', allocate_slots hash_fn NONE_HASH m r new 0 (Some (repeat [] (num_kv_cache_groups m))) look false = Ok (b, m') /\
    forall c, paged_ok m' (match b with Some _ => <[request_id r := c]> t | None => t end).
Proof.
  intros Hok Hn Hnew Hlook. pose proof Hok as [(P1 & P0 & P2 & P3 & P4) [Ht [fr Hinv]]].
  assert (Hsp : slots_pre m r new 0 (repeat [] (num_kv_cache_groups m)) look false).
  { split; try lia; [| | |by rewrite P1].
    - intros x Hx k Hk. specialize (P4 x Hx). unfold first_useful_block in Hk. by destruct (kv_cache_spec x).
    - specialize (Ht (request_id r)). destruct (t !! request_id r).
      + split; [by rewrite repeat_length, (ki_groups _ _ Hinv)|]. left. split; [done|]. split; [|done].
        intros l Hl. apply list_elem_of_In in Hl. by apply repeat_spec in Hl.
      + by eapply empty_prefix_ok.
    - intros i x l Hx _. specialize (P4 x (list_elem_of_lookup_2 _ _ _ Hx)). by destruct (kv_cache_spec x). }
  destruct (allocate_slots_spec hash_fn NONE_HASH m fr r new 0 _ look false Hinv Hsp) as (b & m' & fr' & Hal & Hinv' & He & Hres).
  rewrite no_prefix in Hal. exists b, m'. split; [done|]. intros c.
  destruct (allocate_slots_frame _ _ _ _ _ _ _ _ _ P1 Hal) as (F1 & F0 & F2 & F3).
  eapply (paged_step m t m' fr' (request_id r)); try done.
  - intros i Hne. destruct b; [by rewrite lookup_insert_ne|done].
  - destruct b as [b|]; [rewrite lookup_insert_eq; apply Hres|]. destruct Hres as [_ Hprep]. specialize (Ht (request_id r)).
    destruct (t !! request_id r); intros x' [i Hi]%list_elem_of_lookup_1;
      destruct (Forall2_lookup_r _ _ _ _ _ Hprep Hi) as (x & Hx%list_elem_of_lookup_2 & _ & _ & Hnc & Hl & _); rewrite Hnc.
    + destruct (Ht x Hx) as (nc & ? & _). exists nc. split; [done|]. by rewrite F1, P1.
    + destruct (Ht x Hx) as [E1 E2]. split; [done|]. apply length_zero_iff_nil. by rewrite Hl, E2.
Qed.

(** Operations that leave the managers alone. *)
Lemma paged_same m t m' fr' :
  paged_ok m t -> kv_inv m' fr' -> managers m' = managers m ->
  manager_caching m' = manager_caching m -> (counts_lookups m -> counts_lookups m') -> manager_max_model_len m' = manager_max_model_len m ->
  kind (coordinator m') = kind (coordinator m) -> paged_ok m' t.
Proof.
  intros Hok Hinv Hm H1 H0 H2 H3. eapply (paged_step m t m' fr' ""%string); try done; [by rewrite Hm|].
  pose proof Hok as [(P1 & _) [Ht _]]. specialize (Ht ""%string). rewrite Hm. destruct (t !! _); [|done].
  intros x Hx. rewrite Hm in Hx. destruct (Ht x Hx) as (nc & ? & _). exists nc. split; [done|]. by rewrite H1, P1.
Qed.

Lemma kv_inv_events m fr l : kv_inv m fr -> kv_inv (with_pool m (with_events (pool_of m) l)) fr.
Proof.
  intros [[K1 K2 K3 K4 K5] Kc Kg Kk Kt]. split; [|done..]. split; [|done..]. change (pool_inv (with_events (pool_of m) l) fr (held_all (managers m) ++ [])).
  destruct K1. by split.
Qed.
Lemma kv_inv_forget m fr id : kv_inv m fr -> unknown (managers m) id -> kv_inv (with_hashes m (delete id (req_to_block_hashes m))) fr.
Proof.
  intros Hinv Hu. apply (kv_inv_step m fr _ fr id Hinv); [apply Hinv|done|done|done| |reflexivity|by left|apply Hinv].
  intros id' Hne. unfold hashes_of_request. cbn. by rewrite lookup_delete_ne.
Qed.

#[export] Instance paged_contract : KVContract (paged_manager hash_fn NONE_HASH) max_len stats.
Proof.
  refine {| kv_ok := paged_ok : KVCacheManager -> gmap string Z -> Prop |}; cbn.
  - intros m t r new look c Hok Ht Hc _ Hn _ _ Hnew Hlook.
    destruct (paged_allocate m t r new look Hok ltac:(lia) Hnew Hlook) as (b & m' & Hal & H).
    exists b, m'. split; [|apply H]. rewrite <-Hal. done.
  - intros m t r Hok Ht Hz Hl _. pose proof Hok as [(P1 & P0 & P2 & P3 & P4) _].
    exists (create_empty_block_list m), 0, m. unfold get_computed_blocks. rewrite P1. cbn [negb orb]. split; [done|]. split; [lia|]. split; [done|].
    intros new Hnew. destruct (paged_allocate m t r new 0 Hok ltac:(lia) Hnew ltac:(lia)) as (b & m' & Hal & H). by exists b, m'.
  - intros m t r Hok. pose proof Hok as [(P1 & P0 & P2 & P3 & P4) [Ht [fr Hinv]]].
    destruct (free_spec m fr r Hinv) as (m' & fr' & Hf & Hinv' & Hu & He & _ & _ & Hk). exists m'. split; [done|].
    assert (Hm : manager_caching m' = manager_caching m /\ (counts_lookups m -> counts_lookups m') /\ manager_max_model_len m' = manager_max_model_len m).
    { unfold KVCacheManager.free in Hf. destruct (KVCoordinator.free _ _); [|done]. cbn in Hf. by injection Hf as <-. }
    eapply (paged_step m t m' _ (request_id r)); try done; [apply Hm|apply Hm|apply Hm|intros i Hne; by rewrite lookup_delete_ne|by rewrite lookup_delete_eq].
  - intros m t r Hok Hr. pose proof Hok as [_ [Ht [fr Hinv]]]. eapply (paged_same m t); try done. apply kv_inv_forget; [done|].
    specialize (Ht (request_id r)). by rewrite Hr in Ht.
  - intros m t r n Hok _ Hs Hn. unfold KVCacheManager.get_num_common_prefix_blocks. rewrite bool_decide_true by done. cbn [py_assert bind].
    pose proof Hok as [(P1 & P0 & P2 & [k P3] & P4) [Ht [fr Hinv]]]. unfold KVCoordinator.get_num_common_prefix_blocks. rewrite P3. cbn [bind].
    eexists _, _. split; [reflexivity|]. by destruct m.
  - intros m t Hok. pose proof Hok as [_ [_ [fr Hinv]]]. unfold KVCacheManager.take_events, BlockPool.take_events.
    destruct (enable_kv_cache_events (pool_of m)); cbn.
    + eapply (paged_same m t); try done. by apply kv_inv_events.
    + eapply (paged_same m t); try done. destruct m as [? ? ? ? ? []]. done.
  - intros m t Hok. pose proof Hok as [(P1 & P0 & P2 & P3 & P4) [Ht [fr Hinv]]]. unfold make_prefix_cache_stats.
    split; [|intros Hst; destruct (P0 Hst) as [-> Hs]; exact Hs].
    destruct (log_stats m) eqn:El; cbn; [|done]. apply (paged_same m t _ fr Hok); [by destruct Hinv|done..].
Defined.
End paged.
