(* ===== verification/HashChain.v ===== *)
(** * Hash chains and pinned blocks

    The hashes that the manager records for a request form a chain: each one is
    computed from its predecessor, so with a collision-free hash they are all
    different ([chained_nodup]).  The pool never changes the hash of a block that
    is in use ([pinned]).  Both are facts about runs that succeed, and need no
    invariant. *)

From stdpp Require Import base functions gmap strings list.
From Stdlib Require Import ZArith Lia.
From S2P Require Import Prelude FreeQueue Request BlockHash BlockPool.
Open Scope list_scope.
Open Scope Z_scope.

(** ** Blocks in use *)

(** A block in use stays in use and keeps its hash, and events stay on or off. *)
Definition pinned (p p' : BlockPool) : Prop :=
  enable_kv_cache_events p' = enable_kv_cache_events p /\
  forall b, 0 < ref_cnt p b -> 0 < ref_cnt p' b /\ forall k, block_hash p b = Some k -> block_hash p' b = Some k.
#[export] Instance pinned_preorder : PreOrder pinned.
Proof.
  split; [by intros p|]. intros p1 p2 p3 [E12 H12] [E23 H23]. split; [congruence|]. intros b Hb.
  destruct (H12 b Hb) as [H2 E2]. destruct (H23 b H2) as [H3 E3]. split; [done|]. intros k Hk. by apply E3, E2.
Qed.

Lemma pinned_fold {A} (f : BlockPool -> A -> res BlockPool) l :
  (forall p a p', f p a = Ok p' -> pinned p p') -> forall p p', res_fold f l p = Ok p' -> pinned p p'.
Proof.
  intros Hf. induction l as [|a l IH]; intros p p'; cbn [res_fold]; [by intros [= <-]|].
  destruct (f p a) as [p1|] eqn:E; [|done]. cbn [bind]. intros H. etransitivity; [by eapply Hf|by apply IH].
Qed.

Lemma add_ref_pinned p b : pinned p (add_ref p b 1).
Proof.
  split; [done|]. intros c Hc. cbn [add_ref ref_cnt block_hash]. split; [|done]. destruct (decide (b = c)) as [->|Hne]; [rewrite fn_lookup_insert; lia|].
  by rewrite fn_lookup_insert_ne.
Qed.
Lemma touch_pinned p bs p' : touch p bs = Ok p' -> pinned p p' /\ block_hash p' = block_hash p.
Proof.
  intros H. assert (Hstep : forall p b p', touch_block p b = Ok p' -> pinned p p' /\ block_hash p' = block_hash p).
  { intros p0 b p1. unfold touch_block. destruct (_ && _); cbn [bind].
    - destruct (remove _ _) as [q|]; [|done]. cbn [bind]. intros [= <-]. split; [exact (add_ref_pinned p0 b)|done].
    - intros [= <-]. split; [apply add_ref_pinned|done]. }
  assert (Hgroup : forall l p p', res_fold touch_block l p = Ok p' -> pinned p p' /\ block_hash p' = block_hash p).
  { induction l as [|b l IH]; intros p0 p1; cbn [res_fold]; [by intros [= <-]|]. destruct (touch_block p0 b) as [p2|] eqn:E; [|done]. cbn [bind].
    intros [H1 E1]%IH. destruct (Hstep _ _ _ E) as [H2 E2]. split; [by etransitivity|congruence]. }
  revert p p' H. unfold touch. induction bs as [|l bs IH]; intros p p'; cbn [res_fold]; [by intros [= <-]|].
  destruct (res_fold touch_block l p) as [p2|] eqn:E; [|done]. cbn [bind]. intros [H1 E1]%IH. destruct (Hgroup _ _ _ E) as [H2 E2].
  split; [by etransitivity|congruence].
Qed.

(** A touched block is in use. *)
Lemma touch_in_use p bs p' b : touch p bs = Ok p' -> 0 <= ref_cnt p b -> b ∈ concat bs -> 0 < ref_cnt p' b.
Proof.
  assert (Hstep : forall p c p', touch_block p c = Ok p' -> ref_cnt p' b = ref_cnt p b + (if decide (c = b) then 1 else 0)).
  { intros p0 c p1. unfold touch_block. assert (E : forall q, ref_cnt q = ref_cnt p0 -> ref_cnt (add_ref q c 1) b = ref_cnt p0 b + (if decide (c = b) then 1 else 0)).
    { intros q Eq. cbn [add_ref ref_cnt]. rewrite Eq. destruct (decide (c = b)) as [->|Hne]; [by rewrite fn_lookup_insert|rewrite fn_lookup_insert_ne by done; lia]. }
    destruct (_ && _); cbn [bind]; [destruct (remove _ _) as [q|]; [|done]; cbn [bind]|]; intros [= <-]; by apply E. }
  assert (Hgroup : forall l p p', res_fold touch_block l p = Ok p' -> ref_cnt p b <= ref_cnt p' b /\ (b ∈ l -> ref_cnt p b < ref_cnt p' b)).
  { induction l as [|c l IH]; intros p0 p1; cbn [res_fold]; [intros [= <-]; split; [lia|by intros ?%elem_of_nil]|].
    destruct (touch_block p0 c) as [p2|] eqn:E; [|done]. cbn [bind]. intros [H1 H2]%IH. apply Hstep in E.
    split; [destruct (decide (c = b)); lia|]. intros [<-|Hin]%elem_of_cons; [rewrite decide_True in E by done; lia|].
    specialize (H2 Hin). destruct (decide (c = b)); lia. }
  assert (Hall : forall bs p p', touch p bs = Ok p' -> ref_cnt p b <= ref_cnt p' b /\ (b ∈ concat bs -> ref_cnt p b < ref_cnt p' b)).
  { unfold touch. clear p bs p'. induction bs as [|l bs IH]; intros p p'; cbn [res_fold concat]; [intros [= <-]; split; [lia|by intros ?%elem_of_nil]|].
    destruct (res_fold touch_block l p) as [p2|] eqn:E; [|done]. cbn [bind]. intros [H1 H2]%IH. apply Hgroup in E as [E1 E2].
    split; [lia|]. intros [Hin|Hin]%elem_of_app; [specialize (E2 Hin); lia|specialize (H2 Hin); lia]. }
  intros H%Hall Hb Hin. destruct H as [_ H]. specialize (H Hin). lia.
Qed.

Lemma evict_pinned p b : ref_cnt p b = 0 -> pinned p (snd (_maybe_evict_cached_block p b)) /\
  ref_cnt (snd (_maybe_evict_cached_block p b)) = ref_cnt p.
Proof.
  intros Hb. unfold _maybe_evict_cached_block. destruct (block_hash p b) as [k|]; [|done].
  destruct (cached_block_hash_to_block p !! k) as [l|]; [|done]. cbn [snd].
  set (p1 := with_cache _ _ _). destruct (emit_fields p1 (BlockRemoved [get_hash_value k])) as ([_ _ _ Er _ _ Ee] & Eh & _).
  split; [|by rewrite Er]. split; [by rewrite Ee|]. intros c Hc. rewrite Er, Eh. split; [done|]. cbn [p1 with_cache block_hash]. intros k' Hk'.
  rewrite fn_lookup_insert_ne; [done|]. intros ->. lia.
Qed.
Lemma take_block_pinned p b p' : take_block p b = Ok p' -> pinned p p'.
Proof.
  unfold take_block. set (p1 := if enable_caching p then _ else p).
  assert (E : ref_cnt p1 = ref_cnt p /\ (ref_cnt p b = 0 -> pinned p p1)).
  { unfold p1. destruct (enable_caching p); [|done]. split; [|intros Hb; by apply evict_pinned].
    unfold _maybe_evict_cached_block. destruct (block_hash p b) as [k|]; [|done]. destruct (cached_block_hash_to_block p !! k); [|done]. cbn [snd].
    match goal with |- context [emit ?q ?ev] => destruct (emit_fields q ev) as ([_ _ _ Er _ _ _] & _) end. by rewrite Er. }
  destruct E as [E Hp]. destruct (Z.eqb_spec (ref_cnt p1 b) 0) as [H0|]; [|done]. cbn [py_assert bind]. intros [= <-].
  etransitivity; [apply Hp; congruence|apply add_ref_pinned].
Qed.
Lemma get_new_blocks_pinned p n l p' : get_new_blocks p n = Ok (l, p') -> pinned p p'.
Proof.
  unfold get_new_blocks. destruct (_ <? _); [done|]. destruct (popleft_n _ _) as [[ret q]|]; [|done]. cbn [bind].
  destruct (res_fold take_block ret (with_queue p q)) as [p1|] eqn:E; [|done]. cbn [bind]. intros [= _ <-].
  exact (pinned_fold take_block ret take_block_pinned _ _ E).
Qed.

(** ** Chains *)

Section chain.
Context (hash_fn : Z * list Z * option (list ExtraKey) -> Z) (NONE_HASH : Z).

(** Every hash is that of a block after its predecessor. *)
Definition chained (hs : list BlockHash) : Prop :=
  forall j h, hs !! j = Some h -> exists toks keys,
    h = hash_block_tokens hash_fn NONE_HASH (match j with 0%nat => None | S i => hash_value <$> hs !! i end) toks keys.

Lemma chained_nil : chained [].
Proof. intros j h Hj. by rewrite lookup_nil in Hj. Qed.
Lemma chained_snoc hs toks keys :
  chained hs -> chained (hs ++ [hash_block_tokens hash_fn NONE_HASH (hash_value <$> last hs) toks keys]).
Proof.
  intros Hc j h Hj. assert (Hpre : forall i, (i < length hs)%nat -> (hs ++ [hash_block_tokens hash_fn NONE_HASH (hash_value <$> last hs) toks keys]) !! i = hs !! i)
    by (intros i Hi; by rewrite lookup_app_l).
  apply lookup_app_Some in Hj as [Hj|[Hlen Hj]].
  - destruct (Hc j h Hj) as (t & k & ->). exists t, k. destruct j as [|j]; [done|]. rewrite Hpre; [done|]. apply lookup_lt_Some in Hj. lia.
  - apply list_lookup_singleton_Some in Hj as [Hj <-]. assert (j = length hs) as -> by lia. exists toks, keys. f_equal.
    destruct (length hs) as [|n] eqn:El; [by apply length_zero_iff_nil in El as ->|]. rewrite Hpre by lia. by rewrite last_lookup, El.
Qed.
Lemma hash_request_chained bs r hs : 0 < bs -> hash_request_tokens hash_fn NONE_HASH bs r = Ok hs -> chained hs.
Proof.
  intros Hbs H. destruct (hash_request_spec _ _ _ _ _ Hbs H) as [_ Hs]. intros j h Hj. rewrite (Hs j h Hj). eauto.
Qed.

(** ** Committing full blocks *)

(** The hash value before position [i] of a chain. *)
Definition parent_at (hs : list BlockHash) (i : nat) : option Z :=
  match i with 0%nat => None | S i => hash_value <$> hs !! i end.
Lemma parent_last hs : parent_at hs (length hs) = hash_value <$> last hs.
Proof. rewrite last_lookup. by destruct hs. Qed.

(** The hash of a full block: the recorded one, or a new link of the chain. *)
Lemma full_block_hash_chained r hs acc nc bs i h app :
  chained (hs ++ acc) -> (nc + i <= length (hs ++ acc))%nat -> (nc <= length hs)%nat -> (acc <> [] -> length (hs ++ acc) = nc + i)%nat ->
  full_block_hash hash_fn NONE_HASH r (drop nc hs) (Z.of_nat nc) bs i (parent_at (hs ++ acc) (nc + i)) = Ok (h, app) ->
  chained (hs ++ acc ++ app) /\ (hs ++ acc ++ app) !! (nc + i)%nat = Some h /\
  (acc ++ app <> [] -> length (hs ++ acc ++ app) = S (nc + i))%nat.
Proof.
  intros Hc Hle Hnc Hacc. unfold full_block_hash. rewrite lookup_drop. destruct (hs !! (nc + i)%nat) as [h'|] eqn:Eh.
  - intros [= <- <-]. rewrite app_nil_r. pose proof (lookup_lt_Some _ _ _ Eh) as Hlt. split; [done|]. split; [by rewrite lookup_app_l|].
    intros Hne. specialize (Hacc Hne). rewrite length_app in Hacc. lia.
  - apply lookup_ge_None in Eh. destruct (py_assert _); [|done]. cbn [bind].
    destruct (generate_block_hash_extra_keys _ _ _ _) as [[keys ?]|]; [|done]. cbn [bind]. intros [= <- <-].
    assert (Hlen : (nc + i = length (hs ++ acc))%nat).
    { destruct acc; [rewrite app_nil_r in *; lia|]. by rewrite Hacc. }
    rewrite app_assoc, Hlen, parent_last. split; [by apply chained_snoc|]. split; [|intros _; rewrite length_app; cbn; lia].
    by rewrite lookup_app_r, Nat.sub_diag by lia.
Qed.

(** The loop extends the chain, and the last block gets the hash of its position. *)
Lemma cache_loop_chained r hs nc bs g bl : forall p acc i prev p' app values,
  chained (hs ++ acc) -> (nc + i <= length (hs ++ acc))%nat -> (nc <= length hs)%nat -> (acc <> [] -> length (hs ++ acc) = nc + i)%nat ->
  prev = parent_at (hs ++ acc) (nc + i) ->
  cache_loop hash_fn NONE_HASH p r (drop nc hs) (Z.of_nat nc) bs g bl i prev = Ok (p', app, values) ->
  chained (hs ++ acc ++ app) /\ (ref_cnt p' = ref_cnt p /\ enable_kv_cache_events p' = enable_kv_cache_events p) /\
  (forall b k, block_hash p b = Some k -> block_hash p' b = Some k) /\
  (forall b, last bl = Some b -> exists k, block_hash p' b = Some k /\ (hs ++ acc ++ app) !! (nc + i + length bl - 1)%nat = Some (block_hash_of k)).
Proof.
  induction bl as [|b bl IH]; intros p acc i prev p' app values Hc Hle Hnc Hacc ->; cbn [cache_loop].
  { intros [= <- <- _]. rewrite app_nil_r. done. }
  destruct (block_hash p b) eqn:Eb; [done|]. cbn [py_assert bind].
  destruct (full_block_hash _ _ _ _ _ _ _ _) as [[h a]|] eqn:Ef; [|done]. cbn [bind].
  destruct (full_block_hash_chained r hs acc nc bs i h a Hc Hle Hnc Hacc Ef) as (Hc' & Hh & Hl').
  set (k := {| block_hash_of := h; group_id := g |}). set (p1 := with_cache p _ _).
  destruct (cache_loop _ _ p1 _ _ _ _ _ _ _ _) as [[[p2 more] vs]|] eqn:E; [|done]. cbn [bind]. intros [= <- <- _].
  pose proof (lookup_lt_Some _ _ _ Hh) as Hlt.
  destruct (IH p1 (acc ++ a) (S i) (Some (hash_value h)) p2 more vs) as (G1 & G2 & G3 & G4); try done.
  - lia.
  - intros Hne. rewrite Hl' by done. lia.
  - rewrite Nat.add_succ_r. cbn. by rewrite Hh.
  - rewrite <-app_assoc in G1, G4. split; [done|]. split; [done|].
    assert (Hb : block_hash p2 b = Some k) by (apply G3; cbn [p1 with_cache block_hash]; by rewrite fn_lookup_insert). split.
    + intros c k' Hk'. apply G3. cbn [p1 with_cache block_hash]. rewrite fn_lookup_insert_ne; [done|]. congruence.
    + intros c Hc0. destruct bl as [|b1 bl].
      * cbn in Hc0. injection Hc0 as <-. exists k. split; [done|]. cbn [length].
        replace (nc + i + 1 - 1)%nat with (nc + i)%nat by lia. rewrite app_assoc, app_assoc in *. by apply lookup_app_l_Some.
      * destruct (G4 c) as (k' & Hk' & Hp'); [by rewrite <-Hc0|]. exists k'. split; [done|].
        replace (nc + i + length (b :: b1 :: bl) - 1)%nat with (nc + S i + length (b1 :: bl) - 1)%nat by (cbn; lia). done.
Qed.

(** The block at the end of the cached part carries the hash of its position. *)
Definition linked (p : BlockPool) (bl : list Ref) (hs : list BlockHash) (nc : Z) : Prop :=
  0 < nc -> exists b k, bl !! Z.to_nat (nc - 1) = Some b /\ block_hash p b = Some k /\ hs !! Z.to_nat (nc - 1) = Some (block_hash_of k).

Lemma cache_full_chained p r l hs nc nf bs g p' hs' :
  chained hs -> linked p l hs nc -> 0 <= nc <= nf -> nf <= Z.of_nat (length l) ->
  cache_full_blocks hash_fn NONE_HASH p r l hs nc nf bs g = Ok (p', hs') ->
  chained hs' /\ linked p' l hs' nf /\ pinned p p' /\ exists app, hs' = hs ++ app.
Proof.
  intros Hc Hl Hn Hlen. unfold cache_full_blocks. destruct (Z.eqb_spec nc nf) as [->|Hne].
  { intros [= <- <-]. split; [done|]. split; [done|]. split; [done|]. exists []. by rewrite app_nil_r. }
  destruct (Z.leb_spec nc (Z.of_nat (length hs))) as [Hh|]; [|done]. cbn [py_assert bind].
  set (n := Z.to_nat nc). assert (Hnc : nc = Z.of_nat n) by lia. set (prev := if nc =? 0 then _ else _).
  assert (Hprev : prev = Ok (parent_at hs n) \/ exists e, prev = Raise e).
  { unfold prev, parent_at. destruct (Z.eqb_spec nc 0) as [E|E]; [left; by replace n with 0%nat by lia|].
    destruct Hl as (b & k & Hb & Hk & Hhk); [lia|]. left.
    assert (py_nth l (nc - 1) = of_option IndexError (l !! Z.to_nat (nc - 1))) as -> by (rewrite <-(Z2Nat.id (nc - 1)) at 1 by lia; apply py_nth_nat).
    rewrite Hb. cbn [of_option bind]. rewrite Hk. destruct n as [|n'] eqn:En; [lia|]. replace (Z.to_nat (nc - 1)) with n' in Hhk by lia. by rewrite Hhk. }
  destruct Hprev as [->|[e ->]]; [|done]. cbn [bind]. rewrite Hnc, py_from_drop by lia.
  destruct (cache_loop _ _ _ _ _ _ _ _ _ _ _) as [[[p1 app] values]|] eqn:E; [|done]. cbn [bind].
  apply (cache_loop_chained r hs n bs g _ p [] 0) in E as (G1 & [G2 Ge] & G3 & G4); rewrite ?app_nil_r; try done; [|lia|lia|by rewrite Nat.add_0_r].
  rewrite app_nil_l in G1, G4. assert (Hres : forall p2, enable_kv_cache_events p2 = enable_kv_cache_events p1 -> ref_cnt p2 = ref_cnt p1 -> block_hash p2 = block_hash p1 ->
    chained (hs ++ app) /\ linked p2 l (hs ++ app) nf /\ pinned p p2 /\ exists app0, hs ++ app = hs ++ app0).
  { intros p2 Ee Er Eh. split; [done|]. split; [|split; [|by exists app]].
    - intros Hpos. destruct (lookup_lt_is_Some_2 l (Z.to_nat (nf - 1))) as [b Hb]; [lia|]. exists b.
      destruct (G4 b) as (k & Hk & Hpos').
      + replace nf with (Z.of_nat (Z.to_nat nf)) by lia. rewrite py_slice_drop_take by lia.
        rewrite last_lookup, length_take, length_drop. rewrite lookup_take_lt by lia. rewrite lookup_drop, <-Hb. f_equal. lia.
      + exists k. rewrite Eh. split; [done|]. split; [done|]. rewrite <-Hpos'. f_equal.
        replace nf with (Z.of_nat (Z.to_nat nf)) by lia. rewrite py_slice_drop_take by lia. rewrite length_take, length_drop. lia.
    - split; [congruence|]. intros b Hb. rewrite Er, Eh, G2. split; [done|]. apply G3. }
  destruct (enable_kv_cache_events p1) eqn:Ev; [|intros [= <- <-]; apply Hres; congruence].
  destruct (lora_request r); cbn [bind]; [done|]. intros [= <- <-].
  match goal with |- context [emit ?q ?ev] => destruct (emit_fields q ev) as ([_ _ _ Er _ _ Ee] & Eh & _) end. apply Hres; congruence.
Qed.

(** ** Collision-free hashes *)

Context (Hinj : forall a b, hash_fn a = hash_fn b -> a = b).
Context (Hnonzero : forall a, hash_fn a <> 0) (Hnone : forall a, hash_fn a <> NONE_HASH).

Lemma chained_position hs i : forall k h h',
  chained hs -> hs !! i = Some h -> hs !! k = Some h' -> hash_value h = hash_value h' -> i = k.
Proof.
  intros k h h' Hc. revert k h h'. assert (Hv : forall j g, hs !! j = Some g -> hash_value g <> 0 /\ hash_value g <> NONE_HASH).
  { intros j g Hg. destruct (Hc j g Hg) as (t & x & ->). cbn. auto. }
  induction i as [|i IH]; intros k h h' Hi Hk Hv'; destruct (Hc _ _ Hi) as (t1 & x1 & ->); destruct (Hc _ _ Hk) as (t2 & x2 & ->);
    cbn [hash_block_tokens hash_value] in Hv'; apply Hinj in Hv'; injection Hv' as Hp _ _.
  - destruct k as [|k]; [done|]. destruct (lookup_lt_is_Some_2 hs k) as [q Hq]; [apply lookup_lt_Some in Hk; lia|].
    rewrite Hq in Hp. cbn in Hp. destruct (Hv _ _ Hq). destruct (Z.eqb_spec (hash_value q) 0); congruence.
  - destruct (lookup_lt_is_Some_2 hs i) as [q Hq]; [apply lookup_lt_Some in Hi; lia|]. rewrite Hq in Hp. cbn in Hp.
    destruct (Hv _ _ Hq) as [Z1 N1]. destruct (Z.eqb_spec (hash_value q) 0) as [?|_]; [done|].
    destruct k as [|k]; [done|]. destruct (lookup_lt_is_Some_2 hs k) as [q' Hq']; [apply lookup_lt_Some in Hk; lia|]. rewrite Hq' in Hp. cbn in Hp.
    destruct (Hv _ _ Hq') as [Z2 N2]. destruct (Z.eqb_spec (hash_value q') 0) as [?|_]; [done|]. f_equal. by eapply IH.
Qed.
Lemma chained_nodup hs : chained hs -> NoDup hs.
Proof. intros Hc. apply NoDup_alt. intros i j h Hi Hj. by eapply chained_position. Qed.
End chain.
