(* ===== verification/CachedContract.v ===== *)
(** * The scheduler's contract with prefix caching

    [KVContract] for [paged_manager] with prefix caching over one full-attention
    group, the default of the engine, and a collision-free hash.  Beyond the
    consistency of block tables and pool the manager keeps [hashes_ok]: the hashes
    recorded for every request form a chain, and the last cached block of a table
    carries the hash of its position. *)

From stdpp Require Import base functions gmap strings list.
From Stdlib Require Import ZArith Lia.
From S2P Require Import Prelude FreeQueue Request BlockHash BlockPool KVCacheInterface SingleType PrefixLookup.
From S2P Require Import KVCoordinator CoordinatorInv CoordinatorOk KVCacheManager KVManagerOk KVLookup.
From S2P Require Import SchedulerTypes SchedulerSpec PagedContract HashChain.
Open Scope list_scope.
Open Scope Z_scope.

Section cached.
Context (hash_fn : Z * list Z * option (list ExtraKey) -> Z) (NONE_HASH : Z) (max_len : Z) (stats : bool).
Notation chained := (chained hash_fn NONE_HASH).

(** ** What the manager keeps *)

Definition hashes_ok (m : KVCacheManager) : Prop :=
  forall id, chained (hashes_of_request m id) /\
    forall x nc, x ∈ managers m -> num_cached_block x !! id = Some nc ->
      linked (pool_of m) (blocks_of x id) (hashes_of_request m id) nc.

(** What no operation changes. *)
Record same_settings (m m' : KVCacheManager) : Prop := {
  ss_caching : manager_caching m' = manager_caching m;
  ss_len : manager_max_model_len m' = manager_max_model_len m;
  ss_log : log_stats m' = log_stats m;
  ss_stats : is_Some (prefix_cache_stats m) -> is_Some (prefix_cache_stats m');
  ss_block : manager_block_size m' = manager_block_size m;
  ss_kind : kind (coordinator m') = kind (coordinator m);
  ss_events : enable_kv_cache_events (pool_of m') = enable_kv_cache_events (pool_of m) }.

Record cached_manager (m : KVCacheManager) : Prop := {
  cm_caching : manager_caching m = true;
  cm_len : manager_max_model_len m = max_len;
  cm_group : exists x, managers m = [x] /\ is_full (kv_cache_spec x) = true /\ kind (coordinator m) = Unitary (kv_cache_spec x) /\
    manager_block_size m = Some (block_size x);
  cm_events : enable_kv_cache_events (pool_of m) = false;
  cm_stats : log_stats m = true -> is_Some (prefix_cache_stats m);
  cm_log : stats = true -> log_stats m = true }.
(** [t] holds the requests with slots and bounds their cached blocks. *)
Definition tracked (m : KVCacheManager) (t : gmap string Z) : Prop :=
  forall id, match t !! id with
    | Some c => known m id /\ forall x nc, x ∈ managers m -> num_cached_block x !! id = Some nc -> nc <= c / block_size x
    | None => unknown (managers m) id
    end.
Definition cached_ok (m : KVCacheManager) (t : gmap string Z) : Prop :=
  cached_manager m /\ tracked m t /\ hashes_ok m /\ exists fr, kv_inv m fr.

(** A hashed block of a table is in use. *)
Lemma table_in_use m fr x id j b k :
  kv_inv m fr -> x ∈ managers m -> blocks_of x id !! j = Some b -> block_hash (pool_of m) b = Some k -> 0 < ref_cnt (pool_of m) b.
Proof.
  intros Hinv Hx Hb Hk. pose proof (kc_pool _ _ _ _ (ki_core _ _ Hinv)) as Hp.
  destruct (ci_real _ _ _ (pi_cache _ _ _ Hp) _ _ Hk) as (n & -> & Hn & _).
  rewrite (pi_ref _ _ _ Hp) by lia.
  assert (Hin : n ∈ held_all (managers m) ++ []).
  { rewrite app_nil_r. eapply held_of_all; [exact Hx|]. eapply in_table_held; [exact Hb|lia]. }
  apply list_elem_of_In, (count_occ_In Nat.eq_dec) in Hin. lia.
Qed.
Lemma linked_pinned m fr x id hs nc p' bl' :
  kv_inv m fr -> x ∈ managers m -> pinned (pool_of m) p' -> (exists l, bl' = blocks_of x id ++ l) ->
  linked (pool_of m) (blocks_of x id) hs nc -> linked p' bl' hs nc.
Proof.
  intros Hinv Hx [_ Hp] [l ->] Hl Hpos. destruct (Hl Hpos) as (b & k & Hb & Hk & Hh). exists b, k.
  split; [by apply lookup_app_l_Some|]. split; [|done]. apply Hp; [by eapply table_in_use|done].
Qed.

(** An operation on [id] keeps everything about the other requests. *)
Lemma cached_step m t m' fr' id t' :
  cached_ok m t -> kv_inv m' fr' -> same_settings m m' -> evolves id (managers m) (managers m') ->
  (forall i, i <> id -> hashes_of_request m' i = hashes_of_request m i) ->
  pinned (pool_of m) (pool_of m') \/ block_hash (pool_of m') = block_hash (pool_of m) ->
  (forall i, i <> id -> t' !! i = t !! i) ->
  chained (hashes_of_request m' id) ->
  (forall x nc, x ∈ managers m' -> num_cached_block x !! id = Some nc -> linked (pool_of m') (blocks_of x id) (hashes_of_request m' id) nc) ->
  match t' !! id with
  | Some c => known m' id /\ forall x nc, x ∈ managers m' -> num_cached_block x !! id = Some nc -> nc <= c / block_size x
  | None => unknown (managers m') id
  end -> cached_ok m' t'.
Proof.
  intros ([C1 C2 (x & Hm & C3 & C4 & C5) C6 C7 C8] & Ht & Hh & fr & Hinv) Hinv' [S1 S2 S3 S4 S5 S6 S7] He Ho Hp Ht' Hc Hl Hid.
  rewrite Hm in He. apply Forall2_cons_inv_l in He as (x' & ms & [[E1 E2] Hk] & Hnil & Hm'). apply Forall2_nil_inv_l in Hnil as ->.
  assert (Hx : x ∈ managers m) by (rewrite Hm; left).
  split; [|split; [|split; [|by exists fr']]].
  - split; [congruence|congruence| |congruence|rewrite S3; intros Hlog; by apply S4, C7|rewrite S3; exact C8].
    exists x'. unfold block_size in *. rewrite E1. split; [done|]. split; [done|]. split; [congruence|congruence].
  - intros i. destruct (decide (i = id)) as [->|Hne]; [done|]. rewrite Ht' by done. specialize (Ht i). destruct (Hk i Hne) as [K1 K2].
    destruct (t !! i) as [c|].
    + destruct Ht as [Hkn Hb]. split.
      * intros y Hy. rewrite Hm' in Hy. apply list_elem_of_singleton in Hy as ->. destruct (Hkn x Hx) as (nc & Hnc & Hlen). exists nc.
        split; [by rewrite K2|]. rewrite S1, Ho by done. exact Hlen.
      * intros y nc Hy. rewrite Hm' in Hy. apply list_elem_of_singleton in Hy as ->. rewrite K2. unfold block_size. rewrite E1. by apply Hb.
    + intros y Hy. rewrite Hm' in Hy. apply list_elem_of_singleton in Hy as ->. rewrite K1, K2. by apply Ht.
  - intros i. destruct (decide (i = id)) as [->|Hne]; [done|]. rewrite Ho by done. destruct (Hh i) as [H1 H2]. split; [done|].
    intros y nc Hy. rewrite Hm' in Hy. apply list_elem_of_singleton in Hy as ->. destruct (Hk i Hne) as [-> ->]. intros Hnc.
    specialize (H2 x nc Hx Hnc). destruct Hp as [Hp|Hp].
    + eapply linked_pinned; [exact Hinv|exact Hx|exact Hp|exists []; by rewrite app_nil_r|done].
    + intros Hpos. destruct (H2 Hpos) as (b & k & ? & ? & ?). exists b, k. by rewrite Hp.
Qed.

(** ** [allocate_slots] *)

Lemma settings_refl m : same_settings m m.
Proof. by split. Qed.
Lemma settings_coordinator m c :
  kind c = kind (coordinator m) -> enable_kv_cache_events (block_pool c) = enable_kv_cache_events (pool_of m) ->
  same_settings m (with_coordinator m c).
Proof. intros Hk He. by split. Qed.

(** A run of [allocate_slots] that succeeds, for one full-attention group: the
    prefix is touched and saved, blocks are appended, full blocks are committed. *)
Lemma allocate_run m x r new computed (bss : list (list Ref)) look b m' :
  managers m = [x] -> is_full (kv_cache_spec x) = true -> manager_caching m = true ->
  allocate_slots hash_fn NONE_HASH m r new computed (Some bss) look false = Ok (b, m') ->
  match b with
  | None => exists c, m' = with_coordinator m c /\ kind c = kind (coordinator m) /\ block_pool c = pool_of m /\
      single_type_managers c = [ensure x (request_id r)]
  | Some _ => exists l p1 x4 nb p5 x5 p6 x6 hs c, bss !! 0%nat = Some l /\ touch (pool_of m) bss = Ok p1 /\
      SingleType.save_new_computed_blocks (ensure x (request_id r)) (request_id r) l = Ok x4 /\
      base_allocate_new_blocks p1 x4 (request_id r) (slot_tokens m r computed new look) = Ok (nb, p5, x5) /\
      SingleType.cache_blocks hash_fn NONE_HASH p5 x5 r (hashes_of_request m (request_id r)) (commit_tokens r computed new) = Ok (p6, x6, hs) /\
      m' = set_hashes (with_coordinator m c) (request_id r) hs /\ kind c = kind (coordinator m) /\ block_pool c = p6 /\
      single_type_managers c = [x6]
  end.
Proof.
  intros Hm Hfull Hca. unfold allocate_slots. destruct (new =? 0); [done|]. set (id := request_id r).
  assert (Hskip : KVCoordinator.remove_skipped_blocks (coordinator m) id (num_computed_tokens r) = Ok (with_state (coordinator m) (pool_of m) [x])).
  { unfold KVCoordinator.remove_skipped_blocks. fold (managers m) (pool_of m). rewrite Hm. cbn [each].
    unfold SingleType.remove_skipped_blocks, first_useful_block. by destruct (kv_cache_spec x). }
  rewrite Hskip. cbn [bind]. change (Z.min _ (manager_max_model_len m)) with (slot_tokens m r computed new look). set (T := slot_tokens m r computed new look).
  unfold KVCoordinator.get_num_blocks_to_allocate at 1. cbn [with_state block_pool single_type_managers each].
  destruct (bss !! 0%nat) as [l|] eqn:El; cbn [of_option bind]; [|done].
  unfold SingleType.get_num_blocks_to_allocate at 1. destruct (py_cdiv T (block_size x)) as [nr|]; cbn [bind]; [|done].
  cbn [with_state block_pool single_type_managers]. destruct (_ <? _).
  { intros [= <- <-]. eexists. split; [reflexivity|]. done. }
  rewrite Hca. destruct (touch (pool_of m) bss) as [p1|] eqn:Et; cbn [bind]; [|done].
  unfold KVCoordinator.save_new_computed_blocks. cbn [with_state block_pool single_type_managers each]. rewrite El. cbn [of_option bind].
  destruct (SingleType.save_new_computed_blocks (ensure x id) id l) as [x4|] eqn:Es; cbn [bind]; [|done].
  assert (Hsp4 : kv_cache_spec x4 = kv_cache_spec x).
  { unfold SingleType.save_new_computed_blocks in Es. destruct (num_cached_block _ !! id); (destruct (py_assert _); cbn [bind] in Es; [by injection Es as <-|done]). }
  unfold KVCoordinator.allocate_new_blocks. cbn [with_state block_pool single_type_managers each]. unfold SingleType.allocate_new_blocks.
  destruct (base_allocate_new_blocks p1 x4 id T) as [[[nb p5] x5]|] eqn:Ea; cbn [bind]; [|done].
  assert (Hsp5 : kv_cache_spec x5 = kv_cache_spec x).
  { rewrite <-Hsp4. unfold base_allocate_new_blocks in Ea. destruct (py_cdiv _ _); cbn [bind] in Ea; [|done]. destruct (_ <=? 0); [by injection Ea as _ _ <-|].
    destruct (get_new_blocks _ _) as [[? ?]|]; cbn [bind] in Ea; [|done]. by injection Ea as _ _ <-. }
  rewrite Hsp5. destruct (kv_cache_spec x) eqn:Esp; try done. cbn [bind with_state manager_caching with_coordinator negb orb]. rewrite Hca. cbn [negb orb].
  unfold commit_blocks. cbn [coordinator with_coordinator]. fold id.
  change (hashes_of_request (with_coordinator m _) id) with (hashes_of_request m id).
  unfold KVCoordinator.cache_blocks. cbn [with_state block_pool single_type_managers each fst snd].
  fold (commit_tokens r computed new).
  destruct (SingleType.cache_blocks hash_fn NONE_HASH p5 x5 r (hashes_of_request m id) (commit_tokens r computed new)) as [[[p6 x6] hs]|] eqn:Ec; cbn [bind]; [|done].
  intros [= <- <-]. eexists l, p1, x4, nb, p5, x5, p6, x6, hs, _. split; [done|]. split; [done|]. split; [done|]. split; [exact Ea|]. split; [exact Ec|].
  split; [reflexivity|done].
Qed.

Lemma grow_ok p x id T nb p' x' :
  base_allocate_new_blocks p x id T = Ok (nb, p', x') ->
  pinned p p' /\ blocks_of x' id = blocks_of x id ++ nb /\ num_cached_block x' = num_cached_block x /\ kv_cache_spec x' = kv_cache_spec x.
Proof.
  unfold base_allocate_new_blocks. rewrite blocks_of_ensure. destruct (py_cdiv _ _); cbn [bind]; [|done]. destruct (_ <=? 0).
  - intros [= <- <- <-]. split; [done|]. by rewrite blocks_of_ensure, app_nil_r.
  - destruct (get_new_blocks p _) as [[l p1]|] eqn:E; cbn [bind]; [|done]. intros [= <- <- <-]. apply get_new_blocks_pinned in E.
    split; [done|]. by rewrite blocks_of_set.
Qed.
Lemma cache_linked p x r hs n p' x' hs' nc :
  num_cached_block x !! request_id r = Some nc -> chained hs -> linked p (blocks_of x (request_id r)) hs nc ->
  0 <= nc <= n / block_size x -> 0 < block_size x ->
  SingleType.cache_blocks hash_fn NONE_HASH p x r hs n = Ok (p', x', hs') -> n / block_size x <= Z.of_nat (length (blocks_of x' (request_id r))) ->
  chained hs' /\ linked p' (blocks_of x' (request_id r)) hs' (n / block_size x) /\ pinned p p' /\
  num_cached_block x' !! request_id r = Some (n / block_size x).
Proof.
  intros Hnc Hc Hl Hr Hbs. unfold SingleType.cache_blocks. rewrite Hnc. cbn [of_option bind]. unfold py_div. destruct (Z.eqb_spec (block_size x) 0); [lia|]. cbn [bind].
  destruct (cache_full_blocks _ _ _ _ _ _ _ _ _ _) as [[p1 hs1]|] eqn:E; cbn [bind]; [|done]. intros [= <- <- <-] Hlen.
  set (x1 := with_num_cached _ _) in *. assert (Hb : blocks_of x1 (request_id r) = blocks_of x (request_id r)) by (apply (blocks_of_ensure x)).
  rewrite Hb in *. rewrite blocks_of_ensure in E. destruct (cache_full_chained _ _ _ _ _ _ _ _ _ _ _ _ Hc Hl Hr Hlen E) as (H1 & H2 & H3 & _).
  split; [done|]. split; [done|]. split; [done|]. cbn. by rewrite lookup_insert_eq.
Qed.

(** A refusal only creates the table entry. *)
Lemma cached_refused m t x id c fr' :
  cached_ok m t -> managers m = [x] -> kv_inv (with_coordinator m c) fr' -> evolves id (managers m) (single_type_managers c) ->
  kind c = kind (coordinator m) -> block_pool c = pool_of m -> single_type_managers c = [ensure x id] -> cached_ok (with_coordinator m c) t.
Proof.
  intros Hok Hm Hinv' He Ek Ep Em. pose proof Hok as (_ & Ht & Hh & _).
  assert (Hx : x ∈ managers m) by (rewrite Hm; left). eapply (cached_step m t _ fr' id t Hok Hinv'); try done.
  - apply settings_coordinator; [done|by rewrite Ep].
  - right. change (block_hash (block_pool c) = block_hash (pool_of m)). by rewrite Ep.
  - apply Hh.
  - intros y nc Hy. change (y ∈ single_type_managers c) in Hy. rewrite Em in Hy. apply list_elem_of_singleton in Hy as ->. rewrite blocks_of_ensure.
    intros Hnc. change (linked (block_pool c) (blocks_of x id) (hashes_of_request m id) nc). rewrite Ep. by apply (Hh id).
  - specialize (Ht id). destruct (t !! id) as [c0|].
    + destruct Ht as [Hkn Hb]. split.
      * intros y Hy. change (y ∈ single_type_managers c) in Hy. rewrite Em in Hy. apply list_elem_of_singleton in Hy as ->. exact (Hkn x Hx).
      * intros y nc Hy. change (y ∈ single_type_managers c) in Hy. rewrite Em in Hy. apply list_elem_of_singleton in Hy as ->. exact (Hb x nc Hx).
    + intros y Hy. change (y ∈ single_type_managers c) in Hy. rewrite Em in Hy. apply list_elem_of_singleton in Hy as ->.
      rewrite blocks_of_ensure. exact (Ht x Hx).
Qed.

(** What [allocate_slots] knows about the prefix of a request. *)
Definition prefix_linked (m : KVCacheManager) (t : gmap string Z) (id : string) (l : list nat) : Prop :=
  match t !! id with
  | Some _ => l = []
  | None => linked (pool_of m) (map Blk l) (hashes_of_request m id) (Z.of_nat (length l))
  end.

(** After the prefix is saved, the cached part of the table is linked. *)
Lemma saved_prefix m t r new computed l look x x4 p1 p5 :
  cached_ok m t -> slots_pre m r new computed [l] look false -> prefix_linked m t (request_id r) l -> managers m = [x] -> manager_caching m = true ->
  touch (pool_of m) (map (map Blk) [l]) = Ok p1 -> pinned p1 p5 ->
  SingleType.save_new_computed_blocks (ensure x (request_id r)) (request_id r) (map Blk l) = Ok x4 ->
  exists nc, num_cached_block x4 !! request_id r = Some nc /\ kv_cache_spec x4 = kv_cache_spec x /\
    linked p5 (blocks_of x4 (request_id r)) (hashes_of_request m (request_id r)) nc /\ 0 <= nc <= commit_tokens r computed new / block_size x.
Proof.
  intros Hok Hsp Hhit Hm C1 Htouch Hp5 Hsave. pose proof Hok as (_ & Ht & Hh & fr & Hinv). set (id := request_id r) in *. unfold prefix_linked in Hhit.
  assert (Hx : x ∈ managers m) by (rewrite Hm; left). destruct (touch_pinned _ _ _ Htouch) as [Hp1 Hh1].
  assert (Hbs : 0 < block_size x) by (apply (kc_mgr _ _ _ _ (ki_core _ _ Hinv) x Hx)).
  destruct (sp_commit _ _ _ _ _ _ _ Hsp C1 eq_refl) as (_ & _ & Hcn & _ & Hncs). unfold SingleType.save_new_computed_blocks in Hsave. cbn [ensure set_blocks with_blocks num_cached_block] in Hsave.
  specialize (Ht id). destruct (t !! id) as [c0|].
  - destruct Ht as [Hkn _]. destruct (Hkn x Hx) as (nc & Hnc & _). subst l. rewrite Hnc in Hsave. cbn in Hsave. injection Hsave as <-. exists nc.
    rewrite blocks_of_ensure. split; [done|]. split; [done|]. split.
    + eapply (linked_pinned m fr x id); [exact Hinv|exact Hx|by etransitivity|exists []; by rewrite app_nil_r|by apply (Hh id)].
    + split; [|by apply (Hncs x)]. by apply (kc_tables _ _ _ _ (ki_core _ _ Hinv)) in Hnc as [[? _] _ _]; [|rewrite <-(ki_caching _ _ Hinv)|].
  - destruct (Ht x Hx) as [Hnc Hbl]. rewrite Hnc in Hsave. rewrite !blocks_of_ensure in Hsave. rewrite Hbl in Hsave. cbn [length Nat.eqb py_assert bind app] in Hsave.
    injection Hsave as <-. exists (Z.of_nat (length l)). cbn [with_num_cached num_cached_block kv_cache_spec set_blocks with_blocks ensure].
    rewrite lookup_insert_eq, length_map. split; [done|]. split; [done|]. split.
    + match goal with |- linked _ ?bl _ _ => replace bl with (map Blk l) by (unfold blocks_of; cbn; by rewrite lookup_insert_eq) end.
      intros Hpos. destruct (Hhit Hpos) as (b0 & k & Hb0 & Hk & Hhk). exists b0, k. split; [done|]. split; [|done].
      apply (proj2 Hp5); [|by rewrite Hh1]. eapply (touch_in_use (pool_of m)); [exact Htouch| |cbn; rewrite app_nil_r; by eapply list_elem_of_lookup_2].
      pose proof (kc_pool _ _ _ _ (ki_core _ _ Hinv)) as Hp. destruct (ci_real _ _ _ (pi_cache _ _ _ Hp) _ _ Hk) as (n & -> & Hn & _).
      rewrite (pi_ref _ _ _ Hp) by lia. lia.
    + split; [lia|]. destruct (proj2 (sp_prefix _ _ _ _ _ _ _ Hsp)) as [(Hkn & _)|[_ Hnp]].
      * destruct (Hkn x Hx) as (nc & E & _). fold id in E. congruence.
      * pose proof (np_len _ _ _ _ _ _ (Hnp 0%nat x l ltac:(by rewrite Hm) eq_refl)). destruct (sp_nonneg _ _ _ _ _ _ _ Hsp).
        pose proof (sp_new _ _ _ _ _ _ _ Hsp). apply Z.div_le_lower_bound; [done|]. unfold commit_tokens. lia.
Qed.

Lemma cached_allocate m t r new computed l look :
  cached_ok m t -> slots_pre m r new computed [l] look false ->
  prefix_linked m t (request_id r) l ->
  exists b m', allocate_slots hash_fn NONE_HASH m r new computed (Some (map (map Blk) [l])) look false = Ok (b, m') /\
    cached_ok m' (match b with Some _ => <[request_id r := commit_tokens r computed new]> t | None => t end).
Proof.
  intros Hok Hsp Hhit. pose proof Hok as ([C1 C2 (x & Hm & C3 & C4 & C5) C6 C7 C8] & Ht & Hh & fr & Hinv). set (id := request_id r) in *.
  assert (Hx : x ∈ managers m) by (rewrite Hm; left).
  destruct (allocate_slots_spec hash_fn NONE_HASH m fr r new computed [l] look false Hinv Hsp) as (b & m' & fr' & Hal & Hinv' & He & Hres).
  exists b, m'. split; [exact Hal|]. pose proof (allocate_run _ _ _ _ _ _ _ _ _ Hm C3 C1 Hal) as Hrun. destruct b as [b|].
  2:{ destruct Hrun as (c & -> & Ek & Ep & Em). by eapply (cached_refused m t x id c fr'). }
  destruct Hrun as (l' & p1 & x4 & nb & p5 & x5 & p6 & x6 & hs & c & [= <-] & Htouch & Hsave & Hgrow & Hcache & Em' & Ek & Ep & Em). fold id in Hsave, Hgrow, Hcache, Em'.
  destruct (touch_pinned _ _ _ Htouch) as [Hp1 Hh1]. destruct (grow_ok _ _ _ _ _ _ _ Hgrow) as (Hp5 & Hb5 & Hn5 & Hs5).
  assert (Hbs : 0 < block_size x) by (apply (kc_mgr _ _ _ _ (ki_core _ _ Hinv) x Hx)).
  destruct (saved_prefix m t r new computed l look x x4 p1 p5 Hok Hsp Hhit Hm C1 Htouch Hp5 Hsave) as (nc & Hnc & Hs4 & Hl4 & Hr4). fold id in Hnc, Hl4.
  assert (Hbs5 : block_size x5 = block_size x) by (unfold block_size; congruence).
  assert (Em6 : managers m' = [x6]) by (rewrite Em'; exact Em).
  destruct (cache_linked p5 x5 r (hashes_of_request m id) (commit_tokens r computed new) p6 x6 hs nc) as (Hc6 & Hl6 & Hp6 & Hn6); rewrite ?Hbs5; try done.
  { fold id. by rewrite Hn5. } { apply Hh. }
  { fold id. rewrite Hb5. intros Hpos. destruct (Hl4 Hpos) as (b0 & k & ? & ? & ?). exists b0, k. split; [by apply lookup_app_l_Some|done]. }
  { assert (Hx6 : x6 ∈ managers m') by (rewrite Em6; left).
    destruct (kc_tables _ _ _ _ (ki_core _ _ Hinv')) with (m := x6) (id := id) (nc := commit_tokens r computed new / block_size x) as [[_ H] _ _]; try done.
    - rewrite <-(ki_caching _ _ Hinv'), Em'. exact C1.
    - unfold SingleType.cache_blocks in Hcache. fold id in Hcache. rewrite Hn5, Hnc in Hcache. cbn [of_option bind] in Hcache. unfold py_div in Hcache.
      rewrite Hbs5 in Hcache. destruct (Z.eqb_spec (block_size x) 0); [lia|]. cbn [bind] in Hcache.
      destruct (cache_full_blocks _ _ _ _ _ _ _ _ _ _) as [[? ?]|]; cbn [bind] in Hcache; [|done]. injection Hcache as _ <- _. cbn. by rewrite lookup_insert_eq. }
  assert (Hhs : hashes_of_request m' id = hs) by (rewrite Em'; unfold hashes_of_request; cbn; by rewrite lookup_insert_eq).
  assert (Hp : pool_of m' = p6) by (rewrite Em'; exact Ep).
  assert (Hpin : pinned (pool_of m) p6) by (etransitivity; [exact Hp1|]; by etransitivity).
  eapply (cached_step m t m' fr' id _ Hok Hinv'); try done.
  - split; [by rewrite Em'..| |]; [by rewrite Em'|]. rewrite Hp. apply Hpin.
  - intros i Hne. rewrite Em'. unfold hashes_of_request. cbn. by rewrite lookup_insert_ne.
  - left. by rewrite Hp.
  - intros i Hne. by rewrite lookup_insert_ne.
  - by rewrite Hhs.
  - intros y nc' Hy. rewrite Em6 in Hy. apply list_elem_of_singleton in Hy as ->. unfold id at 1. rewrite Hn6. intros [= <-]. rewrite Hp, Hhs. exact Hl6.
  - rewrite lookup_insert_eq. split; [apply Hres|]. intros y nc' Hy. rewrite Em6 in Hy. apply list_elem_of_singleton in Hy as ->. unfold id at 1.
    rewrite Hn6. intros [= <-].
    rewrite Hbs5. assert (block_size x6 = block_size x) as ->; [|reflexivity]. rewrite Hm, Em6 in He. apply Forall2_cons in He as [[[E _] _] _]. unfold block_size. by rewrite E.
Qed.

(** ** The other operations *)

Lemma full_skip x id n : is_full (kv_cache_spec x) = true -> skip_ok true x id n.
Proof. intros H k Hk. unfold first_useful_block in Hk. by destruct (kv_cache_spec x). Qed.
Lemma text_hashed r : text_request r -> mm_hashed r.
Proof. intros [H1 H2]. unfold mm_hashed. rewrite H1, H2. done. Qed.

(** What the scheduler knows gives the precondition of [allocate_slots]. *)
Lemma cached_slots_pre m t r new computed l look :
  cached_ok m t -> text_request r -> 0 < new -> 0 <= look -> 0 <= num_computed_tokens r -> 0 <= computed <= num_tokens r ->
  num_computed_tokens r + computed <= max_len -> num_tokens r <= max_len -> prefix_pre m (request_id r) computed [l] ->
  match t !! request_id r with Some c => c <= num_computed_tokens r /\ c <= num_tokens r | None => True end ->
  slots_pre m r new computed [l] look false.
Proof.
  intros ([C1 C2 (x & Hm & C3 & C4 & C5) C6 C7 C8] & Ht & Hh & fr & Hinv) Htext Hnew Hlook Hn Hcomp Hlen Htok Hpre Hc.
  assert (Hx : x ∈ managers m) by (rewrite Hm; left). split; try done; [lia| | | |].
  - lia.
  - intros y Hy. rewrite Hm in Hy. apply list_elem_of_singleton in Hy as ->. rewrite C1. by apply full_skip.
  - intros i y l' Hy _. apply list_elem_of_lookup_2 in Hy. rewrite Hm in Hy. apply list_elem_of_singleton in Hy as ->. by destruct (kv_cache_spec x).
  - intros _ _. split; [by apply text_hashed|]. split; [lia|]. split; [lia|]. split; [by rewrite C6|]. intros y nc Hy Hnc.
    specialize (Ht (request_id r)). destruct (t !! request_id r) as [c|].
    + destruct Ht as [_ Hb]. assert (0 < block_size y) by (apply (kc_mgr _ _ _ _ (ki_core _ _ Hinv) y Hy)).
      etransitivity; [by apply (Hb y)|]. apply Z.div_le_mono; [done|]. unfold commit_tokens. lia.
    + destruct (Ht y Hy) as [E _]. congruence.
Qed.

Lemma computed_settings m r b c m' :
  get_computed_blocks hash_fn NONE_HASH m r = Ok (b, c, m') -> same_settings m m'.
Proof.
  unfold get_computed_blocks. destruct (_ || _); [by intros [= _ _ <-]|]. set (m1 := set_hashes m _ _).
  assert (H1 : same_settings m m1) by by split.
  assert (Hrec : forall m0 q h m2, same_settings m m0 -> record_lookup m0 q h = Ok m2 -> same_settings m m2).
  { intros m0 q h m2 [S1 S2 S3 S4 S5 S6 S7]. unfold record_lookup. destruct (log_stats m0) eqn:El.
    - destruct (prefix_cache_stats m0) as [s|] eqn:Es; cbn [of_option bind]; [|done]. intros [= <-]. split; cbn; try done; congruence.
    - intros [= <-]. split; try done; congruence. }
  destruct (match hashes_of_request m1 (request_id r) with [] => _ | h => Ok (h, m1) end) as [[hs m2]|] eqn:E; [|done]. cbn [bind].
  assert (H2 : same_settings m m2).
  { destruct (hashes_of_request m1 _); [|by injection E as _ <-]. destruct (manager_block_size m1) as [bs|]; cbn [of_option bind] in E; [|done].
    destruct (hash_request_tokens _ _ _ _) as [h|]; cbn [bind] in E; [|done]. injection E as _ <-. by split. }
  destruct (find_longest_cache_hit _ _ _) as [[cb n]|]; cbn [bind]; [|done].
  destruct (record_lookup m2 _ _) as [m3|] eqn:Er; cbn [bind]; [|done]. intros [= _ _ <-]. by eapply Hrec.
Qed.

(** An operation that only changes the table entries of [id] by creating them. *)
Lemma cached_ensure m t x id :
  cached_ok m t -> managers m = [x] -> is_Some (t !! id) ->
  cached_ok (with_coordinator m (with_state (coordinator m) (pool_of m) [ensure x id])) t.
Proof.
  intros Hok Hm [c Hc]. pose proof Hok as (Hcm & Ht & Hh & fr & Hinv). set (c' := with_state _ _ _).
  assert (Hcore : kv_core (pool_of m) ([] ++ ensure x id :: []) fr []).
  { apply core_ensure. cbn. rewrite <-Hm. apply Hinv. }
  assert (He : evolves id (managers m) [ensure x id]).
  { rewrite Hm. constructor; [|constructor]. split; [done|]. intros i _. by rewrite blocks_of_ensure. }
  assert (Hx : x ∈ managers m) by (rewrite Hm; left). specialize (Ht id) as Htid. rewrite Hc in Htid. destruct Htid as [Hkn Hb].
  assert (Hkn' : known (with_coordinator m c') id).
  { intros y Hy. apply list_elem_of_singleton in Hy as ->. exact (Hkn x Hx). }
  eapply (cached_step m t (with_coordinator m c') fr id t Hok); try done.
  - eapply (kv_inv_step m fr (with_coordinator m c') fr id Hinv); try done; [by right|]. destruct (ki_cover _ _ Hinv id) as (n & Hn & Hcov).
    exists n. split; [done|]. intros y Hy. apply list_elem_of_singleton in Hy as ->. rewrite blocks_of_ensure. exact (Hcov x Hx).
  - by right.
  - apply (Hh id).
  - intros y nc Hy. apply list_elem_of_singleton in Hy as ->. rewrite blocks_of_ensure. intros Hnc. exact (proj2 (Hh id) x nc Hx Hnc).
  - rewrite Hc. split; [exact Hkn'|]. intros y nc Hy. apply list_elem_of_singleton in Hy as ->. intros Hnc. exact (Hb x nc Hx Hnc).
Qed.

(** ** The contract *)

Context (Hinj : forall a b, hash_fn a = hash_fn b -> a = b).
Context (Hnonzero : forall a, hash_fn a <> 0) (Hnone : forall a, hash_fn a <> NONE_HASH).

(** The hashes of a lookup: recorded or computed, they form a chain. *)
Lemma lookup_hashes m t r :
  cached_ok m t -> text_request r ->
  exists hs, request_hashes hash_fn NONE_HASH m r = Ok hs /\ chained hs.
Proof.
  intros ([C1 C2 (x & Hm & C3 & C4 & C5) C6 C7 C8] & Ht & Hh & fr & Hinv) Htext. unfold request_hashes.
  destruct (hashes_of_request m (request_id r)) as [|h hs] eqn:E.
  - rewrite C5. cbn [of_option bind]. assert (Hbs : 0 < block_size x) by (apply (kc_mgr _ _ _ _ (ki_core _ _ Hinv)); rewrite Hm; left).
    assert (H : exists hs, hash_request_tokens hash_fn NONE_HASH (block_size x) r = Ok hs).
    { unfold hash_request_tokens. rewrite range_starts_spec by done. apply hash_loop_total; [by apply text_hashed|done]. }
    destruct H as [hs Hhs]. exists hs. split; [done|]. by eapply hash_request_chained.
  - exists (h :: hs). split; [done|]. rewrite <-E. apply Hh.
Qed.

(** A prefix hit for a request without slots. *)
Lemma cached_lookup m t r :
  cached_ok m t -> t !! request_id r = None -> 1 <= num_tokens r -> text_request r ->
  exists l computed m', get_computed_blocks hash_fn NONE_HASH m r = Ok (map (map Blk) [l], computed, m') /\
    0 <= computed <= num_tokens r - 1 /\ cached_ok m' t /\ prefix_pre m' (request_id r) computed [l] /\
    linked (pool_of m') (map Blk l) (hashes_of_request m' (request_id r)) (Z.of_nat (length l)).
Proof.
  intros Hok Hr Htok Htext. pose proof Hok as ([C1 C2 (x & Hm & C3 & C4 & C5) C6 C7 C8] & Ht & Hh & fr & Hinv).
  destruct (lookup_hashes m t r Hok Htext) as (hs & Hhs & Hc). pose proof (Ht (request_id r)) as Hu. rewrite Hr in Hu.
  assert (Hbs : 0 < block_size x) by (apply (kc_mgr _ _ _ _ (ki_core _ _ Hinv)); rewrite Hm; left).
  destruct (computed_blocks_spec hash_fn NONE_HASH m fr r hs Hinv) as (bss & computed & m' & Hok' & Hinv' & Hco & Hpre & Hb & Ho & Hch & Hhit); try done.
  { rewrite C4. by apply kind_unitary. }
  { intros _. split; [done|]. split; [by eapply chained_nodup|]. unfold lookup_ready. rewrite C4. unfold block_size in Hbs.
    destruct (kv_cache_spec x); try done. cbn in *. split; [|done]. split; [done|]. split; [lia|done]. }
  assert (Hms : managers m' = managers m) by (unfold managers; by rewrite Hco).
  assert (Hbss : exists l, bss = [l]).
  { pose proof (proj1 Hpre) as Hl. rewrite Hms, Hm in Hl. destruct bss as [|l [|]]; try done. by exists l. }
  destruct Hbss as [l ->]. exists l, computed, m'. split; [exact Hok'|]. split; [done|]. split; [|split; [done|]].
  - eapply (cached_step m t m' fr (request_id r) t Hok); try done.
    + by eapply computed_settings.
    + by rewrite Hms.
    + right. unfold pool_of. by rewrite Hco.
    + destruct Hch as [->|[-> _]]; [done|apply Hh].
    + rewrite Hms. intros y nc Hy. destruct (Hu y Hy) as [E _]. congruence.
    + rewrite Hr, Hms. exact Hu.
  - intros Hpos. destruct (lookup_lt_is_Some_2 l (Z.to_nat (Z.of_nat (length l) - 1))) as [n Hn]; [lia|].
    destruct (Hhit 0%nat l _ n eq_refl Hn) as (h & Hh1 & Hh2); [lia|]. exists (Blk n), {| block_hash_of := h; group_id := Z.of_nat 0 |}.
    rewrite list_lookup_fmap, Hn. done.
Qed.

Lemma cached_free m t r :
  cached_ok m t -> exists m', free m r = Ok m' /\ cached_ok m' (delete (request_id r) t).
Proof.
  intros Hok. pose proof Hok as (Hcm & Ht & Hh & fr & Hinv).
  destruct (free_spec m fr r Hinv) as (m' & fr' & Hf & Hinv' & Hu & He & Hs & Hhs & Hk). exists m'. split; [done|].
  assert (Hset : same_settings m m').
  { unfold KVCacheManager.free in Hf. destruct (KVCoordinator.free _ _) as [c|]; [|done]. cbn in Hf. injection Hf as <-.
    apply settings_coordinator; [done|apply Hs]. }
  assert (Hho : forall i, hashes_of_request m' i = hashes_of_request m i) by (intros i; unfold hashes_of_request; by rewrite Hhs).
  eapply (cached_step m t m' _ (request_id r)); try done.
  - right. apply Hs.
  - intros i Hne. by rewrite lookup_delete_ne.
  - rewrite Hho. apply Hh.
  - intros y nc Hy. destruct (Hu y Hy) as [E _]. congruence.
  - by rewrite lookup_delete_eq.
Qed.

Lemma cached_forget m t r : cached_ok m t -> t !! request_id r = None -> cached_ok (free_block_hashes m r) t.
Proof.
  intros Hok Hr. pose proof Hok as (Hcm & Ht & Hh & fr & Hinv). pose proof (Ht (request_id r)) as Hu. rewrite Hr in Hu.
  eapply (cached_step m t _ fr (request_id r) t Hok); try done.
  - by apply kv_inv_forget.
  - intros i Hne. unfold hashes_of_request. cbn. by rewrite lookup_delete_ne.
  - by right.
  - unfold hashes_of_request. cbn. rewrite lookup_delete_eq. apply chained_nil.
  - intros y nc Hy. destruct (Hu y Hy) as [E _]. congruence.
  - by rewrite Hr.
Qed.

Lemma cached_stats m t : cached_ok m t -> cached_ok (make_prefix_cache_stats m).2 t.
Proof.
  intros Hok. unfold make_prefix_cache_stats. destruct (log_stats m) eqn:E; cbn; [|done].
  destruct Hok as ([C1 C2 C3 C6 C7 C8] & Ht & Hh & fr & Hinv). split; [|split; [exact Ht|split; [exact Hh|]]].
  - by split.
  - exists fr. destruct Hinv. by split.
Qed.

Definition cached_contract : KVContract (paged_manager hash_fn NONE_HASH) max_len stats.
Proof using Hinj Hnonzero Hnone.
  refine {| kv_ok := cached_ok : KVCacheManager -> gmap string Z -> Prop |}; cbn.
  - intros m t r new look c Hok Ht Hc Hct Hn Hl Htext Hnew Hlook. pose proof Hok as ([C1 C2 (x & Hm & _) C6 C7 C8] & Htr & _ & fr & Hinv).
    assert (Hpre : prefix_pre m (request_id r) 0 [[]]).
    { split; [by rewrite Hm|]. left. specialize (Htr (request_id r)). rewrite Ht in Htr. split; [apply Htr|]. split; [|done].
      by intros l ->%list_elem_of_singleton. }
    destruct (cached_allocate m t r new 0 [] look Hok) as (b & m' & Hal & Hok').
    + eapply cached_slots_pre; try done; try lia. rewrite Ht. lia.
    + unfold prefix_linked. by rewrite Ht.
    + exists b, m'. unfold commit_tokens in Hok'. rewrite Z.add_0_r in Hok'. split; [|exact Hok']. rewrite <-Hal. unfold allocate_slots.
      rewrite (ki_groups _ _ Hinv), Hm. done.
  - intros m t r Hok Hr Hz Hl Htext. destruct (cached_lookup m t r Hok Hr) as (l & computed & m' & Hcomp & Hb & Hok' & Hpre & Hlink); [lia|done|].
    exists (map (map Blk) [l]), computed, m'. split; [done|]. split; [lia|]. split; [done|]. intros new Hnew.
    destruct (cached_allocate m' t r new computed l 0 Hok') as (b & m'' & Hal & Hok'').
    + eapply cached_slots_pre; try done; try lia. by rewrite Hr.
    + unfold prefix_linked. by rewrite Hr.
    + exists b, m''. split; [exact Hal|]. unfold commit_tokens in Hok''. by rewrite Hz in Hok''.
  - intros m t r Hok. by apply cached_free.
  - intros m t r Hok Hr. by apply cached_forget.
  - intros m t r n Hok Hs Hst Hn. unfold KVCacheManager.get_num_common_prefix_blocks. rewrite bool_decide_true by done. cbn [py_assert bind].
    pose proof Hok as ([C1 C2 (x & Hm & C3 & C4 & C5) C6 C7 C8] & _). unfold KVCoordinator.get_num_common_prefix_blocks. rewrite C4.
    fold (managers m) (pool_of m). rewrite Hm. cbn [each]. unfold SingleType.get_num_common_prefix_blocks.
    destruct (kv_cache_spec x); try done. cbn [bind]. eexists _, _. split; [reflexivity|]. by eapply cached_ensure.
  - intros m t Hok. pose proof Hok as ([C1 C2 (x & Hm & _) C6 C7 C8] & _). unfold KVCacheManager.take_events, BlockPool.take_events. rewrite C6. cbn.
    destruct m as [? ? ? ? ? []]. exact Hok.
  - intros m t Hok. pose proof Hok as (Hcm & _ & _ & fr & Hinv). split; [by apply cached_stats|]. intros Hst.
    unfold make_prefix_cache_stats. rewrite (cm_log _ Hcm Hst). cbn. by apply Hcm, (cm_log _ Hcm).
Defined.
End cached.
