(* ===== verification/SchedulerUpdateOk.v ===== *)
(** * The results of a step are applied correctly

    [update_from_output] after a synchronous step: every sampled token that a
    request keeps is delivered to its client once, finished requests give back
    their slots and are reported, and the invariant holds again.
    First [check_stop] and the loop that appends sampled tokens to a request. *)

From stdpp Require Import base gmap strings list fin_sets.
From Stdlib Require Import ZArith QArith Lia.
From S2P Require Import Prelude RequestQueue Request BlockHash BlockPool KVCacheManager SchedulerTypes Scheduler SchedulerUpdate SchedulerSpec SchedulerRun SchedulerOk.
From S2P Require EncoderCache.
Open Scope list_scope.
Open Scope Z_scope.

(** The stop condition after the last token of [r]. *)
Definition stops (max_len : Z) (sp : SamplingParams) (r : Request) : Prop :=
  max_len <= num_tokens r \/ max_tokens r <= num_output_tokens r \/
  (ignore_eos sp = false /\ last (output_token_ids r) = eos_token_id r) \/
  exists t, last (output_token_ids r) = Some t /\ t ∈ default [] (stop_token_ids sp).
(** The request after its stop: a finished status, and the stop token if it was one. *)
Definition stopped_from (r r' : Request) : Prop :=
  exists st reason, (st = FINISHED_STOPPED \/ st = FINISHED_LENGTH_CAPPED) /\ r' = set_stop_reason (set_status r st) reason.

Section stop.
Context (cfg : Settings).
Notation max_len := (sched_max_model_len cfg).

Lemma stop_reason_id r st : set_stop_reason (set_status r st) (stop_reason r) = set_status r st.
Proof. done. Qed.

Lemma check_stop_ok r sp :
  pooling_params r = false -> sampling_params r = Some sp -> output_token_ids r <> [] ->
  exists b r', check_stop r max_len false = Ok (b, r') /\
    match b with true => stops max_len sp r /\ stopped_from r r' | false => ~ stops max_len sp r /\ r' = r end.
Proof.
  intros Hp Hs Hne. unfold check_stop. destruct (last (output_token_ids r)) as [t|] eqn:El; [|by apply last_None in El].
  destruct (Z.leb_spec max_len (num_tokens r)) as [H1|H1]; cbn [orb].
  { exists true, (set_status r FINISHED_LENGTH_CAPPED). split; [done|]. split; [by left|]. exists FINISHED_LENGTH_CAPPED, (stop_reason r). by split; [right|]. }
  destruct (Z.leb_spec (max_tokens r) (num_output_tokens r)) as [H2|H2].
  { exists true, (set_status r FINISHED_LENGTH_CAPPED). split; [done|]. split; [by right; left|]. exists FINISHED_LENGTH_CAPPED, (stop_reason r). by split; [right|]. }
  rewrite Hp, Hs. cbn [of_option bind]. unfold stops. rewrite El. cbn [of_option bind].
  destruct (decide (ignore_eos sp = false /\ Some t = eos_token_id r)) as [[E1 E2]|Hn].
  { rewrite E1, bool_decide_true by done. cbn. eexists true, _. split; [done|]. split; [right; right; by left|]. exists FINISHED_STOPPED, (stop_reason r). by split; [left|]. }
  assert (E : negb (ignore_eos sp) && bool_decide (Some t = eos_token_id r) = false).
  { destruct (ignore_eos sp); [done|]. cbn. apply bool_decide_false. tauto. }
  rewrite E. destruct (decide (t ∈ default [] (stop_token_ids sp))) as [Hin|Hni].
  - rewrite bool_decide_true by done. eexists true, _. split; [done|]. split; [right; right; right; by exists t|]. exists FINISHED_STOPPED, (Some t). by split; [left|].
  - rewrite bool_decide_false by done. exists false, r. split; [done|]. split; [|done].
    intros [?|[?|[?|(t' & [= <-] & ?)]]]; [lia|lia|tauto|done].
Qed.

Lemma append_tokens_spec r sp sampled :
  pooling_params r = false -> sampling_params r = Some sp -> num_tokens r < max_len -> num_output_tokens r < max_tokens r ->
  exists kept rest stopped r', append_tokens cfg r sampled [] = Ok (kept, stopped, r') /\ sampled = kept ++ rest /\
    (forall l l', kept = l ++ l' -> l <> [] -> l' <> [] -> ~ stops max_len sp (append_output_token_ids r l)) /\
    num_tokens r' = num_tokens r + Z.of_nat (length kept) /\ num_tokens r' <= max_len /\ num_output_tokens r' <= max_tokens r /\
    match stopped with
    | true => kept <> [] /\ stops max_len sp (append_output_token_ids r kept) /\ stopped_from (append_output_token_ids r kept) r' /\ is_finished r' = true
    | false => rest = [] /\ r' = append_output_token_ids r kept /\ (kept <> [] -> ~ stops max_len sp r')
    end.
Proof.
  intros Hp Hs. assert (Happ : forall r l l', append_output_token_ids (append_output_token_ids r l) l' = append_output_token_ids r (l ++ l')).
  { intros r0 l l'. unfold append_output_token_ids, assign. cbn. by rewrite <-!app_assoc. }
  assert (Hnil : forall r, append_output_token_ids r [] = r) by (intros []; unfold append_output_token_ids, assign; cbn; by rewrite !app_nil_r).
  assert (Hlen : forall r l, num_tokens (append_output_token_ids r l) = num_tokens r + Z.of_nat (length l) /\
                             num_output_tokens (append_output_token_ids r l) = num_output_tokens r + Z.of_nat (length l)).
  { intros r0 l. split; [apply num_tokens_append|]. unfold num_output_tokens. cbn. rewrite length_app. lia. }
  enough (G : forall kept0, num_tokens r < max_len -> num_output_tokens r < max_tokens r ->
    exists kept rest stopped r', append_tokens cfg r sampled kept0 = Ok (kept0 ++ kept, stopped, r') /\ sampled = kept ++ rest /\
    (forall l l', kept = l ++ l' -> l <> [] -> l' <> [] -> ~ stops max_len sp (append_output_token_ids r l)) /\
    num_tokens r' = num_tokens r + Z.of_nat (length kept) /\ num_tokens r' <= max_len /\ num_output_tokens r' <= max_tokens r /\
    match stopped with
    | true => kept <> [] /\ stops max_len sp (append_output_token_ids r kept) /\ stopped_from (append_output_token_ids r kept) r' /\ is_finished r' = true
    | false => rest = [] /\ r' = append_output_token_ids r kept /\ (kept <> [] -> ~ stops max_len sp r')
    end) by exact (G []).
  revert r Hp Hs. induction sampled as [|t l IH]; intros r Hp Hs kept0 H1 H2.
  { exists [], [], false, r. cbn. rewrite app_nil_r. split; [done|]. split; [done|]. split; [by intros [] ? [=]|]. repeat split; try done; lia. }
  cbn [append_tokens]. set (r1 := append_output_token_ids r [t]). destruct (Hlen r [t]) as [L1 L2]. fold r1 in L1, L2. cbn in L1, L2.
  destruct (check_stop_ok r1 sp) as (b & r2 & -> & Hb); [done|done|unfold r1; cbn; by destruct (output_token_ids r)|]. cbn [bind].
  assert (Hone : forall l0 l', [t] = l0 ++ l' -> l0 <> [] -> l' <> [] -> ~ stops max_len sp (append_output_token_ids r l0)).
  { intros [|? [|]] [|] E ? ?; by inversion E. }
  destruct b.
  - destruct Hb as [Hst Hfr]. exists [t], l, true, r2. split; [done|]. split; [done|]. split; [exact Hone|].
    destruct Hfr as (st & reason & Hfin & ->). split; [exact L1|]. split; [change (num_tokens r1 <= max_len); lia|]. split; [change (num_output_tokens r1 <= max_tokens r); lia|].
    split; [done|]. split; [done|]. split; [by exists st, reason|]. by destruct Hfin as [-> | ->].
  - destruct Hb as [Hst ->].
    assert (B1 : num_tokens r1 < max_len) by (destruct (Z.lt_ge_cases (num_tokens r1) max_len); [done|exfalso; apply Hst; by left]).
    assert (B2 : num_output_tokens r1 < max_tokens r1) by (destruct (Z.lt_ge_cases (num_output_tokens r1) (max_tokens r1)); [done|exfalso; apply Hst; right; by left]).
    destruct (IH r1 Hp Hs (kept0 ++ [t]) B1 B2) as (kept & rest & stopped & r' & Hok & Hl & Hpre & N1 & N2 & N3 & Hend).
    exists (t :: kept), rest, stopped, r'. split; [rewrite Hok; by rewrite <-app_assoc|]. split; [by rewrite Hl|].
    assert (Er : append_output_token_ids r1 kept = append_output_token_ids r (t :: kept)) by (unfold r1; by rewrite Happ).
    split; [|split; [cbn [length]; lia|split; [done|split; [done|]]]].
    + intros [|t' l0] l' E Hne Hne'; [done|]. cbn in E. injection E as <- E. destruct l0 as [|t0 l0]; [done|].
      replace (append_output_token_ids r (t :: t0 :: l0)) with (append_output_token_ids r1 (t0 :: l0)) by (unfold r1; by rewrite Happ).
      by apply (Hpre _ l').
    + rewrite Er in Hend. destruct stopped; [by destruct Hend as (_ & ?)|]. destruct Hend as (-> & -> & Hk). split; [done|]. split; [done|]. intros _.
      destruct kept; [exact Hst|by apply Hk].
Qed.

(** The tokens that a request keeps of those sampled for it: the shortest
    non-empty prefix after which it must stop (at the model length, at its own
    limit, at the end-of-sequence or a stop token), or all of them when it need
    not stop.  They are appended to its output, it gets a finished status exactly
    when it stops, and neither limit is exceeded. *)
Theorem append_tokens_ok r sp sampled :
  pooling_params r = false -> sampling_params r = Some sp -> num_tokens r < max_len -> num_output_tokens r < max_tokens r ->
  exists kept rest stopped r', append_tokens cfg r sampled [] = Ok (kept, stopped, r') /\ sampled = kept ++ rest /\
    (forall l l', kept = l ++ l' -> l <> [] -> l' <> [] -> ~ stops max_len sp (append_output_token_ids r l)) /\
    num_tokens r' = num_tokens r + Z.of_nat (length kept) /\ num_tokens r' <= max_len /\ num_output_tokens r' <= max_tokens r /\
    match stopped with
    | true => kept <> [] /\ stops max_len sp (append_output_token_ids r kept) /\ stopped_from (append_output_token_ids r kept) r' /\ is_finished r' = true
    | false => rest = [] /\ r' = append_output_token_ids r kept /\ (kept <> [] -> ~ stops max_len sp r')
    end.
Proof. apply append_tokens_spec. Qed.
End stop.

(** ** [update_from_output] *)
(** ** Deliveries *)

(** The outputs for a request among those of all clients. *)
Definition outs_of (outs : list EngineCoreOutput) (id : string) : list EngineCoreOutput :=
  List.filter (fun o => String.eqb (eco_request_id o) id) outs.
(** The tokens that they deliver. *)
Definition delivered (outs : list EngineCoreOutput) (id : string) : list Z := flat_map eco_new_token_ids (outs_of outs id).

Arguments outs_of : simpl never.
Arguments delivered : simpl never.
Arguments pending : simpl never.

Lemma add_output_insert d client o :
  exists l1 l2, flat_map snd d = l1 ++ l2 /\ flat_map snd (add_output d client o) = l1 ++ o :: l2.
Proof.
  unfold add_output. induction d as [|[c l] d IH]; cbn; [by exists [], []|].
  destruct (decide (c = client)) as [->|Hne]; cbn.
  - exists l, (flat_map snd d). split; [done|]. by rewrite <-app_assoc.
  - destruct IH as (l1 & l2 & E1 & E2). exists (l ++ l1), l2. by rewrite E1, E2, <-!app_assoc.
Qed.
Lemma add_output_others d client o id :
  eco_request_id o <> id -> outs_of (flat_map snd (add_output d client o)) id = outs_of (flat_map snd d) id.
Proof.
  intros Hne. destruct (add_output_insert d client o) as (l1 & l2 & -> & ->). unfold outs_of. rewrite !List.filter_app. cbn.
  by rewrite (proj2 (String.eqb_neq _ _) Hne).
Qed.
Lemma add_output_first d client o id :
  eco_request_id o = id -> outs_of (flat_map snd d) id = [] -> outs_of (flat_map snd (add_output d client o)) id = [o].
Proof.
  intros <-. destruct (add_output_insert d client o) as (l1 & l2 & -> & ->). unfold outs_of. rewrite !List.filter_app. cbn.
  rewrite String.eqb_refl. by intros [-> ->]%app_nil.
Qed.

(** The outputs of all clients. *)
Definition all_outputs (ecos : list (Z * EngineCoreOutputs)) : list EngineCoreOutput := flat_map (fun e => outputs e.2) ecos.
Lemma dict_set_outputs ecos client eco :
  outputs eco = default [] (outputs <$> dict_get ecos client) -> all_outputs (dict_set ecos client eco) = all_outputs ecos.
Proof.
  unfold all_outputs. induction ecos as [|[c e] ecos IH]; cbn; [by intros ->|].
  destruct (decide (c = client)) as [->|Hne]; cbn; [by intros ->|]. intros H. by rewrite IH.
Qed.
Lemma add_finished_outputs d : forall ecos, all_outputs (add_finished ecos d) = all_outputs ecos.
Proof.
  induction d as [|[client ids] d IH]; intros ecos; cbn [add_finished]; [done|]. rewrite IH. apply dict_set_outputs.
  by destruct (dict_get ecos client).
Qed.

(** New outputs are those of [id], with a reason to finish only when [P] allows it. *)
Definition brings (outs0 outs : list (Z * list EngineCoreOutput)) (id : string) (P : option FinishReason -> Prop) : Prop :=
  forall o, o ∈ flat_map snd outs -> o ∈ flat_map snd outs0 \/ (eco_request_id o = id /\ eco_pooling_output o = false /\ P (eco_finish_reason o)).
Lemma add_output_brings d client o P :
  eco_pooling_output o = false -> P (eco_finish_reason o) -> brings d (add_output d client o) (eco_request_id o) P.
Proof.
  intros Hp HP x. destruct (add_output_insert d client o) as (l1 & l2 & -> & ->). rewrite !elem_of_app, elem_of_cons. intros [?|[->|?]]; naive_solver.
Qed.

(** The outputs of a client. *)
Definition client_outputs (client : Z) (ecos : list (Z * EngineCoreOutputs)) : list EngineCoreOutput := default [] (outputs <$> dict_get ecos client).
Lemma client_outputs_set ecos c client eco :
  outputs eco = client_outputs client ecos -> client_outputs c (dict_set ecos client eco) = client_outputs c ecos.
Proof.
  unfold client_outputs. induction ecos as [|[k e] ecos IH]; cbn.
  - intros E. destruct (decide (client = c)); [exact E|done].
  - destruct (decide (k = client)) as [->|Hne]; cbn.
    + intros E. destruct (decide (client = c)); [exact E|done].
    + intros E. destruct (decide (k = c)); [done|]. by apply IH.
Qed.
Lemma add_finished_client c d : forall ecos, client_outputs c (add_finished ecos d) = client_outputs c ecos.
Proof.
  induction d as [|[client ids] d IH]; intros ecos; cbn [add_finished]; [done|]. rewrite IH. apply client_outputs_set. unfold client_outputs.
  by destruct (dict_get ecos client).
Qed.

(** A request without outputs gets the one with its new tokens. *)
Lemma deliver_ok mro outs id r kept :
  (kept = [] -> id ∉ prompt_logprobs_of mro) -> outs_of (flat_map snd outs) id = [] ->
  exists outs', deliver mro outs id r kept false false = Ok outs' /\ delivered (flat_map snd outs') id = kept /\
    (forall i, i <> id -> outs_of (flat_map snd outs') i = outs_of (flat_map snd outs) i) /\
    (kept <> [] -> exists o, o ∈ outs_of (flat_map snd outs') id /\ eco_finish_reason o = get_finished_reason (status r)) /\
    brings outs outs' id (fun f => f = get_finished_reason (status r)) /\
    (outs' = outs \/ exists o, outs' = add_output outs (client_index r) o).
Proof.
  intros Hl Hno. unfold deliver, delivered. destruct kept as [|t kept].
  - rewrite bool_decide_false by auto. cbn. exists outs. rewrite Hno. repeat (split; [done|]). split; by left.
  - eexists. split; [reflexivity|]. rewrite add_output_first by done. cbn. rewrite app_nil_r. split; [done|]. split.
    + intros i Hne. apply add_output_others. cbn. congruence.
    + split; [intros _; eexists; split; [left|done]|]. split; [by apply add_output_brings|]. right. by eexists.
Qed.

Section update.
Context {K C : Type} {KM : KVManager K} {KC : KVConnector C} (max_len : Z) {stats : bool} {KL : KVContract KM max_len stats}.
Context (should_advance : Request -> bool) (validate_tokens : Request -> list Z -> list Z).
Context (cfg : Settings) (Hcfg : plain_settings cfg) (Hlen : sched_max_model_len cfg = max_len).
Context (Hsync : async_scheduling cfg = false) (Hlog : sched_log_stats cfg = stats).
Notation State := (Scheduler K C).
Implicit Type s : State.
Implicit Type u : Update.

(** ** What the runner returns *)

Definition rejected (d : option (list Z)) (g : list Z) : Z :=
  match d with None | Some [] => 0 | Some l => Z.of_nat (length l) + 1 - Z.of_nat (length g) end.
(** The sampled tokens [g] of a request with drafts [d]: at most one more than the
    drafts, and at least one when all of its tokens were computed. *)
Definition fits (r : Request) (d : option (list Z)) (g : list Z) : Prop :=
  num_computed_tokens r - rejected d g <= num_tokens r + Z.of_nat (length g) /\
  match d with
  | None | Some [] => True
  | Some l => num_tokens r <= num_computed_tokens r - rejected d g /\ Z.of_nat (length g) <= Z.of_nat (length l) + 1
  end.
Definition sampled_for (mro : ModelRunnerOutput) (i : nat) : res (list Z) :=
  match sampled_token_ids mro with [] => Ok [] | l => of_option IndexError (l !! i) end.

(** The runner answers for every scheduled request that still exists. *)
Record result_fits s (out : SchedulerOutput) (mro : ModelRunnerOutput) : Prop := {
  rf_once : NoDup (map fst (num_scheduled_tokens out));
  rf_each id n : (id, n) ∈ num_scheduled_tokens out -> 0 < n /\ (id ∈ requests s -> id ∈ running s /\
    exists i g, req_id_to_index mro !! id = Some i /\ sampled_for mro i = Ok g /\
      (forall l, runner_spec_token_ids mro = Some l -> is_Some (l !! i)) /\
      (g = [] -> id ∉ prompt_logprobs_of mro) /\
      forall r, objs s !! id = Some r -> fits r (dict_get (scheduled_spec_decode_tokens out) id) g);
  rf_pooler : pooler_output mro = [];
  rf_connector : kv_connector_output mro = None }.

(** When statistics are kept, no more drafts are accepted for a request than the
    configuration speaks of. *)
Definition drafts_counted (out : SchedulerOutput) (mro : ModelRunnerOutput) : Prop := sched_log_stats cfg = true ->
  forall id x l i g, dict_get (scheduled_spec_decode_tokens out) id = Some (x :: l) -> req_id_to_index mro !! id = Some i ->
    sampled_for mro i = Ok g -> Z.of_nat (length g) <= num_spec_tokens cfg + 1.
(** The statistics have a counter for every position. *)
Definition counters_ok (st : option SpecDecodingStats) : Prop := forall x, st = Some x ->
  stats_num_spec_tokens x = num_spec_tokens cfg /\ length (num_accepted_tokens_per_pos x) = Z.to_nat (num_spec_tokens cfg).
Lemma bump_ok n : forall l, (n <= length l)%nat -> exists l', bump n l = Ok l' /\ length l' = length l.
Proof.
  induction n as [|n IH]; intros [|x l] Hn; cbn in *; try (by eexists); [lia|].
  destruct (IH l) as (l' & -> & E); [lia|]. cbn. eexists. split; [reflexivity|]. cbn. by rewrite E.
Qed.
Lemma observe_draft_ok st draft accepted :
  counters_ok (Some st) -> accepted <= num_spec_tokens cfg ->
  exists st', observe_draft st draft accepted = Ok st' /\ counters_ok (Some st').
Proof.
  intros Hc Ha. destruct (Hc st eq_refl) as [E1 E2]. unfold observe_draft, py_assert. rewrite E1, (proj2 (Z.leb_le _ _) Ha). cbn [bind].
  destruct (bump_ok (Z.to_nat accepted) (num_accepted_tokens_per_pos st)) as (l & -> & El); [lia|]. cbn [bind].
  eexists. split; [reflexivity|]. intros x [= <-]. cbn. split; [done|congruence].
Qed.

(** ** One request *)

(** The state without the requests that stopped. *)
Definition live s u : State :=
  set_lists s (waiting s) (List.filter (fun id => negb (bool_decide (id ∈ stopped_running u))) (running s)).

Record updated s0 s u (t : gmap string Z) (seen : list string) : Prop := {
  uo_core : core max_len (live s u) t [] [];
  uo_nodup : NoDup (running s0);
  uo_lists : running s = running s0 /\ waiting s = waiting s0 /\ stopped_preempted u = [];
  uo_stopped i : i ∈ stopped_running u -> i ∈ seen /\ i ∈ running s0 /\ i ∉ requests s /\ i ∈ finished_req_ids s /\
    exists o, o ∈ outs_of (flat_map snd (upd_outputs u)) i /\ is_Some (eco_finish_reason o);
  uo_requests i : (i ∈ requests s -> i ∈ requests s0) /\ (i ∈ requests s0 -> i ∉ stopped_running u -> i ∈ requests s);
  uo_reported o : o ∈ flat_map snd (upd_outputs u) -> eco_request_id o ∈ running s0 /\ eco_pooling_output o = false /\
    (is_Some (eco_finish_reason o) -> eco_request_id o ∈ stopped_running u);
  uo_fresh i : i ∉ seen -> objs s !! i = objs s0 !! i /\ outs_of (flat_map snd (upd_outputs u)) i = [];
  uo_client c : (forall id r, id ∈ requests s0 -> objs s0 !! id = Some r -> client_index r = c) -> upd_outputs u = [] \/ exists l, upd_outputs u = [(c, l)];
  uo_tokens i r : objs s0 !! i = Some r -> exists r', objs s !! i = Some r' /\ client_index r' = client_index r /\
    all_token_ids r' = all_token_ids r ++ delivered (flat_map snd (upd_outputs u)) i }.

(** [_free_request] of a finished text request. *)
Lemma free_request_step s t id r :
  connector s = None -> EncoderCache.cached (encoder_cache s) = ∅ -> kv_ok (kv s) t ->
  request_id r = id -> is_finished r = true -> id ∈ requests s ->
  exists s' k, _free_request s r = Ok (false, s') /\ kv_ok k (delete id t) /\
    objs s' = objs s /\ requests s' = requests s ∖ {[id]} /\ waiting s' = waiting s /\ running s' = running s /\
    finished_req_ids s' = finished_req_ids s ∪ {[id]} /\ encoder_cache s' = encoder_cache s /\ kv s' = k /\ connector s' = None.
Proof.
  intros Hconn Henc Hkv Hid Hfin Hreq. unfold _free_request. rewrite Hfin. cbn [py_assert bind]. unfold _connector_finished. rewrite Hconn. cbn [bind].
  unfold EncoderCache.free, EncoderCache.get_cached_input_ids. rewrite Henc, lookup_empty. cbn [default].
  rewrite elements_empty. cbn [EncoderCache.free_inputs res_fold bind]. unfold _free_blocks. rewrite Hfin. cbn [py_assert bind].
  destruct (free_running (kv s) t r Hkv) as (k & Hk & Hk'). cbn [kv set_finished set_encoder]. rewrite Hk. cbn [bind].
  cbn [requests set_kv set_finished set_encoder]. rewrite Hid, bool_decide_true by done. cbn [bind].
  eexists _, (kv_free_block_hashes k r). split; [reflexivity|]. split; [apply forget_hashes; [by rewrite Hid in Hk'|by rewrite Hid, lookup_delete_eq]|].
  split; [done|]. split; [done|]. split; [done|]. split; [done|]. split; [done|]. split; [done|]. split; done.
Qed.

Lemma rejections_ok r d g st :
  counters_ok st -> (sched_log_stats cfg = true -> forall x l, d = Some (x :: l) -> Z.of_nat (length g) <= num_spec_tokens cfg + 1) ->
  exists st', apply_rejections cfg r d g st = Ok (set_num_computed_tokens r (num_computed_tokens r - rejected d g), st') /\ counters_ok st'.
Proof.
  intros Hc Hd. unfold apply_rejections, make_spec_decoding_stats, rejected. destruct d as [[|a l]|].
  1, 3: exists st; rewrite Z.sub_0_r; by destruct r.
  destruct (sched_log_stats cfg) eqn:El; cbn [negb bind]; [|by exists None].
  specialize (Hd eq_refl a l eq_refl).
  assert (Hst : counters_ok (Some (default (new_spec_stats (num_spec_tokens cfg)) st))).
  { destruct st as [x|]; [exact Hc|]. intros x [= <-]. cbn. split; [done|]. unfold py_repeat. by rewrite repeat_length. }
  edestruct (observe_draft_ok _ (Z.of_nat (length (a :: l))) (Z.of_nat (length g) - 1) Hst) as (st' & -> & Hst'); [lia|].
  cbn [bind]. by exists (Some st').
Qed.

(** The kept tokens [kept] and the request [r2] after them. *)
Lemma apply_tokens_step s id mro i g r :
  objs s !! id = Some r -> pooler_output mro = [] -> is_Some (sampling_params r) /\ pooling_params r = false ->
  num_tokens r < max_len -> num_output_tokens r < max_tokens r ->
  exists kept stopped r2, apply_tokens cfg s id mro i g = Ok (kept, stopped, false, set_obj s id r2) /\
    all_token_ids r2 = all_token_ids r ++ kept /\ (request_id r2 = request_id r /\ client_index r2 = client_index r) /\
    (kept = [] -> g = []) /\ (stopped = true -> kept <> [] /\ is_finished r2 = true /\ is_Some (get_finished_reason (status r2))) /\
    (stopped = false -> r2 = append_output_token_ids r g /\ num_tokens r2 < max_len /\ num_output_tokens r2 < max_tokens r).
Proof using Hlen Hsync.
  intros Hobj Hpool [[sp Hs] Hp] Hn Ho. unfold apply_tokens, obj. rewrite Hobj. cbn [of_option bind]. rewrite Hpool.
  destruct g as [|a g].
  { exists [], false, r. cbn [bind]. unfold set_obj. rewrite insert_id by done. split; [by destruct s|]. rewrite app_nil_r.
    split; [done|]. split; [done|]. split; [done|]. split; [done|]. intros _. split; [|done].
    destruct r. unfold append_output_token_ids, assign. cbn. by rewrite !app_nil_r. }
  unfold _update_request_with_output. rewrite Hsync.
  destruct (append_tokens_spec cfg r sp (a :: g) Hp Hs) as (kept & rest & stopped & r2 & -> & Hg & _ & N1 & N2 & N3 & Hend); [by rewrite Hlen|done|].
  cbn [bind]. exists kept, stopped, r2. split; [done|]. destruct stopped.
  - destruct Hend as (Hk & _ & (st & reason & Hst & ->) & Hfin). split; [done|]. split; [done|]. split; [done|]. split; [|done].
    intros _. split; [done|]. split; [done|]. cbn. by destruct Hst as [-> | ->]; eexists.
  - destruct Hend as (-> & -> & Hns). rewrite app_nil_r in Hg. rewrite Hg. split; [done|]. split; [done|]. split; [done|]. split; [done|].
    intros _. split; [done|]. specialize (Hns ltac:(by rewrite <-Hg)). rewrite <-Hlen. unfold stops in Hns.
    change (max_tokens (append_output_token_ids r kept)) with (max_tokens r) in Hns. split; apply Znot_ge_lt; intros H; apply Hns; lia.
Qed.

Lemma updated_seen s0 s u t seen id : updated s0 s u t seen -> updated s0 s u t (id :: seen).
Proof.
  intros [U1 U0 U2 U3 U4 U7 U5 U8 U6]. split; try done; [intros i Hi; destruct (U3 i Hi) as (? & ?); split; [by right|done]|].
  intros i Hi. apply U5. intros ?. apply Hi. by right.
Qed.

(** The lists of a live state. *)
Lemma live_running s u i : i ∈ running (live s u) <-> i ∈ running s /\ i ∉ stopped_running u.
Proof. cbn. rewrite list_elem_of_In, filter_In, <-list_elem_of_In, negb_true_iff, bool_decide_eq_false. done. Qed.

(** A request that goes on. *)
Lemma continues_ok r d g c l :
  running_ok max_len c 0 r -> fits r d g ->
  let r2 := append_output_token_ids (set_num_computed_tokens r (num_computed_tokens r - rejected d g)) g in
  num_tokens r2 < max_len -> num_output_tokens r2 < max_tokens r ->
  running_ok max_len c 0 (match l with Some l => set_spec_token_ids r2 l | None => r2 end).
Proof.
  intros [O1 O2 O3 O4 O5 O6 O7 O8 O9 O10] [F1 F2] r2 Hn Ho.
  assert (Hlen2 : num_tokens r2 = num_tokens r + Z.of_nat (length g)) by (unfold r2; by rewrite num_tokens_append).
  assert (Hc2 : num_computed_tokens r2 = num_computed_tokens r - rejected d g) by done.
  assert (Hb : c <= num_computed_tokens r2 /\ 0 <= num_computed_tokens r2 <= max_len - 1).
  { rewrite Hc2. unfold rejected in *. destruct d as [[|a d]|]; lia. }
  assert (Hs : forall r3, all_token_ids r3 = all_token_ids r2 -> num_computed_tokens r3 = num_computed_tokens r2 ->
                 num_output_placeholders r3 = num_output_placeholders r ->
                 num_tokens r3 = num_tokens r2 /\ num_computed_tokens r3 + 0 <= num_tokens_with_spec r3 + num_output_placeholders r3).
  { intros r3 E1 E2 E3. unfold num_tokens_with_spec. rewrite E1, E2, E3. fold (num_tokens r2). split; [unfold num_tokens; by rewrite E1|]. lia. }
  set (r3 := match l with Some l => _ | None => r2 end).
  destruct (Hs r3) as [E1 E2]; [by unfold r3; destruct l..|].
  assert (Hc3 : num_computed_tokens r3 = num_computed_tokens r2) by (unfold r3; by destruct l).
  split; rewrite ?E1, ?Hc3; try lia; unfold r3; by destruct l.
Qed.

(** The outputs after those of [id] were added. *)
Definition adds (outs0 outs : list (Z * list EngineCoreOutput)) (id : string) : Prop :=
  forall i, i <> id -> outs_of (flat_map snd outs) i = outs_of (flat_map snd outs0) i.

(** The tokens of every request after those of [id]. *)
Lemma tokens_after s0 s u t seen id r r3 kept outs :
  updated s0 s u t seen -> id ∉ seen -> objs s !! id = Some r -> all_token_ids r3 = all_token_ids r ++ kept -> client_index r3 = client_index r ->
  adds (upd_outputs u) outs id -> delivered (flat_map snd outs) id = kept ->
  forall i r0, objs s0 !! i = Some r0 -> exists r', <[id := r3]> (objs s) !! i = Some r' /\ client_index r' = client_index r0 /\
    all_token_ids r' = all_token_ids r0 ++ delivered (flat_map snd outs) i.
Proof.
  intros [U1 U0 U2 U3 U4 U7 U5 U8 U6] Hns Hobj Hall Hcl Ho Hd i r0 Hi. destruct (U5 id Hns) as [Hobj0 _]. destruct (decide (i = id)) as [->|Hne].
  - rewrite lookup_insert_eq, Hd. exists r3. split; [done|]. split; congruence.
  - rewrite lookup_insert_ne by done. destruct (U6 i r0 Hi) as (r' & ? & ? & E). exists r'. split; [done|]. split; [done|]. unfold delivered in *. by rewrite Ho.
Qed.
Lemma fresh_after s0 s u t seen id r3 outs :
  updated s0 s u t seen -> adds (upd_outputs u) outs id ->
  forall i, i ∉ id :: seen -> <[id := r3]> (objs s) !! i = objs s0 !! i /\ outs_of (flat_map snd outs) i = [].
Proof.
  intros [U1 U0 U2 U3 U4 U7 U5 U8 U6] Ho i [Hne Hi]%not_elem_of_cons. destruct (U5 i Hi) as [E1 E2]. by rewrite lookup_insert_ne, Ho.
Qed.

(** The outputs of a single client stay its own. *)
Lemma client_after s0 s u t seen id r outs c cl :
  updated s0 s u t seen -> id ∉ seen -> id ∈ requests s -> objs s !! id = Some r -> cl = client_index r ->
  (outs = upd_outputs u \/ exists o, outs = add_output (upd_outputs u) cl o) ->
  (forall id r, id ∈ requests s0 -> objs s0 !! id = Some r -> client_index r = c) -> outs = [] \/ exists l, outs = [(c, l)].
Proof.
  intros [U1 U0 U2 U3 U4 U7 U5 U8 U6] Hns Hreq Hobj -> Hout Hc. destruct (U5 id Hns) as [Hobj0 _].
  assert (client_index r = c) as E by (apply (Hc id); [by apply U4|congruence]). destruct Hout as [->|[o ->]]; [by apply U8|]. right. rewrite E.
  destruct (U8 c Hc) as [->|[l ->]]; unfold add_output; cbn; [by eexists|]. rewrite decide_True by done. by eexists.
Qed.

Lemma updated_goes_on s0 s u t seen id r r3 c kept outs st s' :
  updated s0 s u t seen -> id ∉ seen -> id ∈ running (live s u) -> id ∈ requests s -> objs s !! id = Some r -> t !! id = Some c ->
  running_ok max_len c 0 r3 -> request_id r3 = id -> all_token_ids r3 = all_token_ids r ++ kept ->
  adds (upd_outputs u) outs id -> brings (upd_outputs u) outs id (fun f => f = None) -> client_index r3 = client_index r ->
  (outs = upd_outputs u \/ exists o, outs = add_output (upd_outputs u) (client_index r) o) -> delivered (flat_map snd outs) id = kept ->
  s' = set_objs s (<[id := r3]> (objs s)) ->
  updated s0 s' {| upd_outputs := outs; upd_stats := st; stopped_running := stopped_running u; stopped_preempted := stopped_preempted u |} t (id :: seen).
Proof.
  intros Hu Hns Hlive Hreq Hobj Ht Hok Hid Hall Ho Hb Hcl Hcl2 Hd ->. pose proof Hu as [U1 U0 U2 U3 U4 U7 U5 U8 U6]. split; cbn; [|done|..].
  - eapply (core_put max_len (live s u) t [] [] _ _ _ _ id U1); cbn; try done; [apply U1|by intros i Hne; rewrite lookup_insert_ne| | |apply U1].
    + intros _. split; [done|]. exists r3, c. rewrite lookup_insert_eq. rewrite (pending_none [] id) by apply not_elem_of_nil. done.
    + intros Hw. exfalso. by apply (core_disjoint _ _ _ _ _ id U1) in Hlive.
  - done.
  - intros i Hi. destruct (U3 i Hi) as (H1 & H2 & H3 & H4 & o & H5 & H6). split; [by right|]. split; [done|]. split; [done|]. split; [done|].
    exists o. split; [|done]. rewrite Ho; [done|]. intros ->. done.
  - exact U4.
  - intros o [?|(-> & Hp & Hf)]%Hb; [by apply U7|]. split; [destruct U2 as (<- & _); by apply live_running in Hlive as [? _]|]. split; [done|]. rewrite Hf. by intros [? [=]].
  - by eapply fresh_after.
  - intros c0. exact (client_after s0 s u t seen id r outs c0 _ Hu Hns Hreq Hobj eq_refl Hcl2).
  - by eapply tokens_after.
Qed.

Lemma updated_stops s0 s u t seen id r r3 kept outs st s' k :
  updated s0 s u t seen -> id ∉ seen -> id ∈ running s0 -> id ∈ running (live s u) -> objs s !! id = Some r -> all_token_ids r3 = all_token_ids r ++ kept ->
  adds (upd_outputs u) outs id -> brings (upd_outputs u) outs id (fun _ => True) -> id ∈ requests s -> client_index r3 = client_index r ->
  (outs = upd_outputs u \/ exists o, outs = add_output (upd_outputs u) (client_index r) o) -> delivered (flat_map snd outs) id = kept ->
  (exists o, o ∈ outs_of (flat_map snd outs) id /\ is_Some (eco_finish_reason o)) ->
  kv_ok k (delete id t) -> objs s' = <[id := r3]> (objs s) -> requests s' = requests s ∖ {[id]} -> waiting s' = waiting s ->
  running s' = running s -> finished_req_ids s' = finished_req_ids s ∪ {[id]} -> encoder_cache s' = encoder_cache s -> kv s' = k ->
  connector s' = None ->
  updated s0 s' {| upd_outputs := outs; upd_stats := st; stopped_running := stopped_running u ++ [id]; stopped_preempted := stopped_preempted u |}
    (delete id t) (id :: seen).
Proof.
  intros Hu Hns Hrun Hlive Hobj Hall Ho Hb Hreq Hcl Hcl2 Hd Hout Hk E1 E2 E3 E4 E5 E6 E7 E8. pose proof Hu as [U1 U0 U2 U3 U4 U7 U5 U8 U6].
  set (u' := {| upd_outputs := outs; upd_stats := st; stopped_running := stopped_running u ++ [id]; stopped_preempted := stopped_preempted u |}).
  assert (Hr' : forall i, i ∈ running (live s' u') <-> i ∈ running (live s u) /\ i <> id).
  { intros i. rewrite !live_running, E4. cbn. rewrite not_elem_of_app, list_elem_of_singleton. tauto. }
  split; [|done|..].
  - eapply (core_put max_len (live s u) t [] [] _ _ _ _ id U1).
    + cbn. rewrite E8. symmetry. apply U1.
    + exact E6.
    + cbn. rewrite E2. set_solver.
    + pose proof (c_nodup _ _ _ _ _ U1) as Hnd. cbn [live waiting set_lists app] in *. rewrite E3. apply NoDup_app in Hnd as (N1 & N2 & N3).
      apply NoDup_app. split; [done|]. split; [intros i Hi Hi'; apply (N2 i Hi); by apply Hr' in Hi' as [? _]|].
      unfold live. cbn [running set_lists]. rewrite E4. apply NoDup_ListNoDup, List.NoDup_filter, NoDup_ListNoDup. destruct U2 as (-> & _). exact U0.
    + intros i Hne. cbn [live objs set_lists waiting]. rewrite E1, E3, lookup_insert_ne, lookup_delete_ne by done. split; [done|]. split; [done|]. split; [done|].
      split; [|done]. rewrite (Hr' i). tauto.
    + by intros [_ ?]%Hr'.
    + cbn [live waiting set_lists app]. rewrite E3. intros Hw. exfalso. by apply (core_disjoint _ _ _ _ _ id U1) in Hlive.
    + rewrite lookup_delete_eq. by intros [? [=]].
    + cbn. by rewrite E7.
  - destruct U2 as (U21 & U22 & U23). cbn. split; [congruence|]. split; [congruence|done].
  - cbn. rewrite E2, E5. intros i [Hi| ->%list_elem_of_singleton]%elem_of_app.
    + destruct (U3 i Hi) as (H1 & H2 & H3 & H4 & o & H5 & H6). split; [by right|]. split; [done|]. split; [set_solver|]. split; [set_solver|].
      exists o. split; [|done]. rewrite Ho; [done|]. by intros ->.
    + split; [left|]. split; [done|]. split; [set_solver|]. split; [set_solver|done].
  - cbn. rewrite E2. intros i. destruct (U4 i) as [H1 H2]. split; [set_solver|]. intros Hi [H3 H4]%not_elem_of_app.
    apply elem_of_difference. split; [by apply H2|]. set_solver.
  - cbn. intros o [Hin|(-> & Hp & _)]%Hb; [destruct (U7 o Hin) as (? & ? & H); split; [done|]; split; [done|]; intros Hf; apply elem_of_app; left; by apply H|].
    split; [done|]. split; [done|]. intros _. apply elem_of_app. right. by apply list_elem_of_singleton.
  - cbn. rewrite E1. by eapply fresh_after.
  - intros c0. exact (client_after s0 s u t seen id r outs c0 _ Hu Hns Hreq Hobj eq_refl Hcl2).
  - cbn. rewrite E1. by eapply tokens_after.
Qed.

Lemma update_request_step s0 s u t seen out mro id n :
  result_fits s0 out mro -> drafts_counted out mro -> updated s0 s u t seen -> counters_ok (upd_stats u) -> id ∉ seen -> (id, n) ∈ num_scheduled_tokens out ->
  exists s' u' t', update_request should_advance validate_tokens cfg out mro s u id n = Ok (s', u') /\ updated s0 s' u' t' (id :: seen) /\ counters_ok (upd_stats u').
Proof.
  intros Hrf Hdc Hu Hco Hns Hin. destruct (rf_each _ _ _ Hrf id n Hin) as [Hn Hreq]. unfold update_request, py_assert.
  rewrite (proj2 (Z.ltb_lt 0 n)) by done. cbn [bind].
  destruct (decide (id ∈ requests s)) as [Hr|Hr]; [rewrite bool_decide_true by done; cbn [negb]|
    rewrite bool_decide_false by done; exists s, u, t; split; [done|]; split; [by apply updated_seen|done]].
  pose proof Hu as [U1 U0 U2 U3 U4 U7 U5 U8 U6]. destruct U2 as (L1 & L2 & L3).
  destruct (Hreq (proj1 (U4 id) Hr)) as (Hrun & i & g & Hi & Hg & Hspec & Hlp & Hfits).
  assert (Hnst : id ∉ stopped_running u) by (intros [H _]%U3; done).
  assert (Hlive : id ∈ running (live s u)) by (apply live_running; split; [by rewrite L1|done]).
  destruct (c_running _ _ _ _ _ U1 id Hlive) as (_ & r & c & Hobj & Hid & Ht & Hok). cbn [live objs set_lists] in Hobj.
  rewrite (pending_none [] id) in Hok by apply not_elem_of_nil.
  destruct (U5 id Hns) as [Hobj0 Hno]. assert (Hf := Hfits r (eq_trans (eq_sym Hobj0) Hobj)).
  set (d := dict_get (scheduled_spec_decode_tokens out) id) in *. unfold obj. rewrite Hobj, Hi. cbn [of_option bind].
  change (match sampled_token_ids mro with [] => Ok [] | l => _ end) with (sampled_for mro i). rewrite Hg. cbn [bind].
  destruct (rejections_ok r d g (upd_stats u) Hco) as (st & -> & Hst); [intros Hl x l0 Ed; by eapply (Hdc Hl id)|]. cbn [bind]. set (r1 := set_num_computed_tokens r _).
  set (s1 := set_obj s id r1).
  destruct (apply_tokens_step s1 id mro i g r1) as (kept & stopped & r2 & -> & Hall & [Hid2 Hcl2] & Hkn & Hstop & Hgo);
    [cbn; by rewrite lookup_insert_eq|apply Hrf|apply Hok|pose proof (ro_len _ _ _ _ Hok); change (num_tokens r1) with (num_tokens r); lia|apply Hok|].
  cbn [bind]. set (s2 := set_obj s1 id r2). cbn [objs s2 set_obj set_objs]. rewrite lookup_insert_eq. cbn [of_option bind].
  rewrite (bool_decide_true (status r1 = RUNNING)) by apply Hok. rewrite andb_true_r, andb_false_r.
  assert (Hr3 : exists r3 l, (match runner_spec_token_ids mro with
      | Some l => let! drafts := of_option IndexError (l !! i) in
                  Ok (set_spec_token_ids r2 (if should_advance r2 then validate_tokens r2 drafts else drafts))
      | None => Ok r2 end) = Ok r3 /\ r3 = match l with Some l => set_spec_token_ids r2 l | None => r2 end).
  { destruct (runner_spec_token_ids mro) as [l|]; [|by exists r2, None]. destruct (Hspec l eq_refl) as [x ->]. cbn [of_option bind].
    eexists _, (Some _). split; reflexivity. }
  destruct Hr3 as (r3 & l & Er3 & Hr3).
  assert (Hr3' : status r3 = status r2 /\ all_token_ids r3 = all_token_ids r ++ kept /\ request_id r3 = id /\ client_index r3 = client_index r).
  { rewrite Hr3. destruct l; (split; [done|split; [exact Hall|]]); cbn; by rewrite Hid2, Hcl2. }
  destruct Hr3' as (Hst3 & Hall3 & Hid3 & Hcl3).
  destruct (deliver_ok mro (upd_outputs u) id r3 kept) as (outs & Hdel & D1 & D2 & D3 & D4 & D5); [by intros E%Hkn; apply Hlp|done|]. rewrite Hcl3 in D5.
  assert (Hobjs : forall o, <[id := r3]> (<[id := r2]> (<[id := r1]> o)) = <[id := r3]> o) by (intros o; by rewrite !insert_insert_eq).
  destruct stopped; cbn [andb].
  - destruct (Hstop eq_refl) as (Hk & Hfin & Hreason).
    destruct (free_request_step s2 t id r2) as (s3 & k & -> & Hkv & F1 & F2 & F3 & F4 & F5 & F6 & F7 & F8);
      [apply U1|apply U1|apply U1|by rewrite Hid2|done|done|]. cbn [bind]. rewrite Er3. cbn [bind]. rewrite Hdel. cbn [bind].
    eexists _, _, (delete id t). split; [reflexivity|]. split; [|exact Hst].
    eapply (updated_stops s0 s u t seen id r r3 kept); try done; [by intros o [?|(? & ? & _)]%D4; [left|right]| |cbn; rewrite F1; apply Hobjs].
    destruct (D3 Hk) as (o & Ho & Eo). exists o. split; [done|]. by rewrite Eo, Hst3.
  - destruct (Hgo eq_refl) as (Er2 & Hn2 & Ho2). cbn [bind]. rewrite Er3. cbn [bind]. rewrite Hdel. cbn [bind].
    eexists _, _, t. split; [reflexivity|]. split; [|exact Hst].
    assert (Hok3 : running_ok max_len c 0 r3) by (rewrite Er2 in Hn2, Ho2; rewrite Hr3, Er2; by apply continues_ok).
    eapply (updated_goes_on s0 s u t seen id r r3 c kept); try done.
    + intros o [?|(? & ? & Hnone)]%D4; [by left|right]. split; [done|]. split; [done|]. rewrite Hnone, (ro_status _ _ _ _ Hok3). done.
    + change (set_obj s2 id r3) with (set_objs s (<[id := r3]> (<[id := r2]> (<[id := r1]> (objs s))))). by rewrite Hobjs.
Qed.

(** ** All requests of the step *)

Lemma update_loop_ok s0 out mro l : forall s u t seen,
  result_fits s0 out mro -> drafts_counted out mro -> updated s0 s u t seen -> counters_ok (upd_stats u) -> NoDup (map fst l) ->
  (forall e, e ∈ l -> e ∈ num_scheduled_tokens out /\ e.1 ∉ seen) ->
  exists s' u' t' seen', res_fold (fun su e => update_request should_advance validate_tokens cfg out mro su.1 su.2 e.1 e.2) l (s, u) = Ok (s', u') /\
    updated s0 s' u' t' seen'.
Proof.
  induction l as [|[id n] l IH]; intros s u t seen Hrf Hdc Hu Hco Hnd Hl; cbn [res_fold map fst snd] in *; [by exists s, u, t, seen|].
  apply NoDup_cons in Hnd as [Hni Hnd]. destruct (Hl (id, n)) as [Hin Hns]; [left|].
  destruct (update_request_step s0 s u t seen out mro id n Hrf Hdc Hu Hco Hns Hin) as (s1 & u1 & t1 & -> & Hu1 & Hco1). cbn [bind].
  apply (IH s1 u1 t1 (id :: seen) Hrf Hdc Hu1 Hco1 Hnd). intros e He. destruct (Hl e) as [H1 H2]; [by right|]. split; [done|].
  intros [E|?]%elem_of_cons; [|done]. apply Hni. rewrite <-E. apply list_elem_of_fmap. by exists e.
Qed.

Lemma live_all s u : stopped_running u = [] -> live s u = s.
Proof.
  intros E. unfold live. rewrite E. rewrite (List.filter_ext_in _ (fun _ => true)) by (intros i _; by rewrite bool_decide_false by apply not_elem_of_nil).
  rewrite List.filter_true. by destruct s.
Qed.
Definition empty_update : Update := {| upd_outputs := []; upd_stats := None; stopped_running := []; stopped_preempted := [] |}.
Lemma updated_start s t : core max_len s t [] [] -> updated s s empty_update t [].
Proof.
  intros Hc. split; try done; [by rewrite live_all|by eapply core_running_nodup|by intros i ?%elem_of_nil|by intros o ?%elem_of_nil|by left|].
  intros i r Hi. exists r. split; [done|]. split; [done|]. unfold delivered, outs_of. cbn. by rewrite app_nil_r.
Qed.

(** What the update does, seen from outside. *)
Record update_spec s s' (ecos : list (Z * EngineCoreOutputs)) : Prop := {
  us_waiting : waiting s' = waiting s;
  us_running : running s' = List.filter (fun id => bool_decide (id ∈ requests s')) (running s);
  us_requests id : id ∈ requests s' -> id ∈ requests s;
  us_finished id : id ∈ running s -> id ∉ running s' ->
    id ∈ finished_req_ids s' /\ exists o, o ∈ outs_of (all_outputs ecos) id /\ is_Some (eco_finish_reason o);
  us_reported o : o ∈ all_outputs ecos -> eco_request_id o ∈ running s /\ eco_pooling_output o = false /\
    (is_Some (eco_finish_reason o) -> eco_request_id o ∉ running s');
  us_client c : (forall id r, id ∈ requests s -> objs s !! id = Some r -> client_index r = c) -> client_outputs c ecos = all_outputs ecos;
  us_tokens id r : objs s !! id = Some r -> exists r', objs s' !! id = Some r' /\ client_index r' = client_index r /\
    all_token_ids r' = all_token_ids r ++ delivered (all_outputs ecos) id }.

Lemma updated_spec s s1 u t seen d ecos :
  (forall id, id ∈ running s -> id ∈ requests s) -> updated s s1 u t seen -> all_outputs ecos = flat_map snd (upd_outputs u) ->
  (forall c, client_outputs c ecos = default [] (dict_get (upd_outputs u) c)) ->
  update_spec s (set_finished (live s1 u) (finished_req_ids s1) d) ecos.
Proof.
  intros Hreq [U1 U0 (U21 & U22 & U23) U3 U4 U7 U5 U8 U6] Hec Hcl.
  assert (Hrun : running (live s1 u) = List.filter (fun id => bool_decide (id ∈ requests s1)) (running s)).
  { unfold live. cbn [running set_lists]. rewrite U21. apply List.filter_ext_in. intros i Hi%list_elem_of_In. destruct (U4 i) as [H1 H2].
    destruct (decide (i ∈ stopped_running u)) as [Hs|Hs].
    - rewrite (bool_decide_true (i ∈ stopped_running u)) by done. rewrite bool_decide_false; [done|]. by apply U3 in Hs as (_ & _ & ? & _).
    - rewrite (bool_decide_false (i ∈ stopped_running u)) by done. rewrite bool_decide_true; [done|]. by apply H2; [apply Hreq|]. }
  split; rewrite ?Hec; [exact U22|exact Hrun|apply U4| | | |exact U6].
  3:{ intros c Hc. rewrite Hcl. destruct (U8 c Hc) as [->|[l ->]]; cbn; [done|]. rewrite decide_True by done. cbn. by rewrite app_nil_r. }
  2:{ intros o Ho. destruct (U7 o Ho) as (H1 & H2 & H3). split; [done|]. split; [done|]. intros Hf. apply H3 in Hf.
      change (running (set_finished _ _ _)) with (running (live s1 u)). by intros [_ ?]%live_running. }
  intros id Hi Hni. change (running (set_finished _ _ _)) with (running (live s1 u)) in Hni.
  destruct (decide (id ∈ stopped_running u)) as [Hs|Hs]; [by destruct (U3 id Hs) as (_ & _ & _ & ? & ?)|].
  exfalso. apply Hni, live_running. by rewrite U21.
Qed.

Lemma update_step s t out mro :
  sched_inv max_len cfg s t -> result_fits s out mro -> drafts_counted out mro ->
  exists ecos s' t', update_from_output should_advance validate_tokens cfg s out mro = Ok (ecos, s') /\
    sched_inv max_len cfg s' t' /\ update_spec s s' ecos.
Proof.
  intros [Hc Hroom] Hrf Hdc.
  destruct (update_loop_ok s out mro (num_scheduled_tokens out) s empty_update t [] Hrf Hdc (updated_start s t Hc))
    as (s1 & u & t1 & seen & Hloop & Hu); [done|apply Hrf|by intros e He; split; [|apply not_elem_of_nil]|].
  unfold update_from_output. fold empty_update. rewrite Hloop. cbn [bind].
  assert (El : (match stopped_running u with [] => s1 | l => set_lists s1 (waiting s1) (List.filter (fun id => negb (bool_decide (id ∈ l))) (running s1)) end) = live s1 u).
  { destruct (stopped_running u) eqn:E; [by rewrite live_all|unfold live; by rewrite E]. }
  rewrite El. destruct (uo_lists _ _ _ _ _ Hu) as (L1 & L2 & L3). rewrite L3. cbn [bind]. rewrite (rf_connector _ _ _ Hrf). cbn [bind].
  set (ecos0 := map _ (upd_outputs u)).
  assert (H0 : all_outputs ecos0 = flat_map snd (upd_outputs u)).
  { unfold ecos0, all_outputs. clear. induction (upd_outputs u) as [|[c l] d IH]; cbn; [done|]. by rewrite IH. }
  assert (H1 : forall c, client_outputs c ecos0 = default [] (dict_get (upd_outputs u) c)).
  { intros c. unfold ecos0, client_outputs. clear. induction (upd_outputs u) as [|[k l] d IH]; cbn; [done|]. by destruct (decide (k = c)). }
  set (fin := match finished_req_ids_dict (live s1 u) with None | Some [] => _ | Some d => _ end).
  assert (Hfin : exists ecos d, fin = (ecos, set_finished (live s1 u) (finished_req_ids s1) d) /\ all_outputs ecos = flat_map snd (upd_outputs u) /\
            forall c, client_outputs c ecos = default [] (dict_get (upd_outputs u) c)).
  { unfold fin. destruct (finished_req_ids_dict (live s1 u)) as [[|e d]|] eqn:E.
    - exists ecos0, (Some []). split; [|done]. f_equal. rewrite <-E. by destruct s1.
    - exists (add_finished ecos0 (e :: d)), (Some []). split; [done|]. rewrite add_finished_outputs. split; [done|]. intros c. by rewrite add_finished_client.
    - exists ecos0, None. split; [|done]. f_equal. rewrite <-E. by destruct s1. }
  destruct Hfin as (ecos & d & -> & Hec & Hcl). set (s' := set_finished (live s1 u) (finished_req_ids s1) d).
  assert (Hinv : sched_inv max_len cfg s' t1).
  { split; [destruct (uo_core _ _ _ _ _ Hu); by split|]. cbn. etransitivity; [apply List.filter_length_le|]. by rewrite L1. }
  assert (Hsp : forall ecos', all_outputs ecos' = all_outputs ecos -> (forall c, client_outputs c ecos' = client_outputs c ecos) -> update_spec s s' ecos').
  { intros ecos' E Ec. eapply updated_spec; [|exact Hu|congruence|]; [|intros c; by rewrite Ec]. intros id Hi. by apply (c_running _ _ _ _ _ Hc). }
  destruct ecos as [|[client eco] rest]; [exists [], s', t1; split; [done|]; split; [done|by apply Hsp]|].
  assert (Hcl' : forall st c, client_outputs c ((client, {| outputs := outputs eco; finished_requests := finished_requests eco; scheduler_stats := st |}) :: rest) = client_outputs c ((client, eco) :: rest)).
  { intros st c. unfold client_outputs. cbn. by destruct (decide (client = c)). }
  unfold make_stats. destruct (sched_log_stats cfg) eqn:Elog; cbn [negb].
  2:{ cbn [bind]. eexists _, s', t1. split; [reflexivity|]. split; [done|]. apply Hsp; [done|apply Hcl']. }
  destruct Hinv as [Hc' Hroom']. destruct (stats_taken (kv s') t1 (c_kv _ _ _ _ _ Hc')) as [Hk Hs].
  destruct (kv_make_prefix_cache_stats (kv s')) as [p k]. destruct (Hs (eq_sym Hlog)) as [x Ex]. cbn in Hk, Ex. rewrite Ex. cbn [of_option bind].
  eexists _, (set_kv s' k), t1. split; [reflexivity|]. split; [split; [|exact Hroom']; destruct Hc'; by split|].
  destruct (Hsp _ eq_refl (fun c => eq_refl)) as [W R Q F P HC T]. split; try done. intros c Hc1. rewrite Hcl'. by apply HC.
Qed.

(** C11. Applying the results of a synchronous step, with or without statistics, in a
    scheduler with the policy "first come, first served", without a KV connector and
    without pooling requests: [update_from_output] never raises for a runner that answers
    for every scheduled request, with at most one token more than its drafts (and, when
    statistics are kept, at most [num_spec_tokens] accepted drafts), no pooler output and
    nothing for a connector; and it restores the invariant.  The waiting queue does not
    change, the running list keeps exactly the requests that still exist, in order; the
    others are finished, have given back their slots and are reported with a reason.  The
    tokens of every request grow by exactly what the clients are sent for it: nothing is
    lost, delivered twice or delivered to a request that did not ask; and a reported
    reason to finish means that the request is gone. *)
Theorem update_from_output_ok s t out mro :
  sched_inv max_len cfg s t -> result_fits s out mro -> drafts_counted out mro ->
  exists ecos s' t', update_from_output should_advance validate_tokens cfg s out mro = Ok (ecos, s') /\
    sched_inv max_len cfg s' t' /\ update_spec s s' ecos.
Proof. apply update_step. Qed.
End update.
