(* ===== verification/SchedulerServe.v ===== *)
(** * The life of the scheduler

    Arrivals, steps and aborts in any order: no operation raises in any state that
    the scheduler can reach. *)

From stdpp Require Import base functions gmap strings list fin_sets relations.
From Stdlib Require Import ZArith QArith Lia.
From S2P Require Import Prelude FreeQueue RequestQueue Request BlockHash BlockPool KVCacheInterface SingleType KVCoordinator CoordinatorInv CoordinatorOk KVCacheManager KVManagerOk KVLookup SchedulerTypes Scheduler SchedulerUpdate SchedulerSpec PagedContract HashChain CachedContract SchedulerRun SchedulerOk SchedulerUpdateOk.
From S2P Require EncoderCache.
Open Scope list_scope.
Open Scope Z_scope.

(** ** Removal from lists *)

Definition excluding (l ids : list string) : list string := List.filter (fun id => negb (bool_decide (id ∈ ids))) l.
Lemma elem_of_excluding l ids i : i ∈ excluding l ids <-> i ∈ l /\ i ∉ ids.
Proof. unfold excluding. rewrite list_elem_of_In, filter_In, <-list_elem_of_In, negb_true_iff, bool_decide_eq_false. done. Qed.
Lemma excluding_nodup l ids : NoDup l -> NoDup (excluding l ids).
Proof. intros H. by apply NoDup_ListNoDup, List.NoDup_filter, NoDup_ListNoDup. Qed.
Lemma excluding_all l : excluding l [] = l.
Proof.
  unfold excluding. rewrite (List.filter_ext_in _ (fun _ => true)); [apply List.filter_true|].
  intros i _. by rewrite bool_decide_false by apply not_elem_of_nil.
Qed.
Lemma excluding_ext l ids ids' : (forall i, i ∈ l -> i ∈ ids <-> i ∈ ids') -> excluding l ids = excluding l ids'.
Proof.
  intros H. apply List.filter_ext_in. intros i Hi%list_elem_of_In. f_equal. apply bool_decide_ext. by apply H.
Qed.
Lemma excluding_cons l x ids : excluding l (x :: ids) = excluding (excluding l [x]) ids.
Proof.
  unfold excluding. induction l as [|y l IH]; cbn [List.filter]; [done|].
  destruct (decide (y = x)) as [->|Hne].
  - rewrite !bool_decide_true by left. cbn [negb]. exact IH.
  - rewrite (bool_decide_false (y ∈ [x])) by (by rewrite list_elem_of_singleton). cbn [negb List.filter].
    rewrite (bool_decide_ext (y ∈ x :: ids) (y ∈ ids)) by (rewrite elem_of_cons; naive_solver). destruct (negb _); [by rewrite IH|exact IH].
Qed.

Lemma list_remove_ok l x : NoDup l -> x ∈ l -> list_remove l x = Ok (excluding l [x]).
Proof.
  unfold excluding. induction l as [|y l IH]; [by intros _ ?%elem_of_nil|]. intros [Hy Hnd]%NoDup_cons [->|Hx]%elem_of_cons; cbn [list_remove List.filter].
  - rewrite String.eqb_refl, bool_decide_true by left. cbn [negb]. f_equal. rewrite (List.filter_ext_in _ (fun _ => true)); [symmetry; apply List.filter_true|].
    intros i Hi%list_elem_of_In. rewrite bool_decide_false; [done|]. by intros ->%list_elem_of_singleton.
  - assert (y <> x) by congruence. rewrite (proj2 (String.eqb_neq _ _)), IH by done. cbn [bind]. rewrite bool_decide_false by (by rewrite list_elem_of_singleton). done.
Qed.
Lemma remove_each_ok ids : forall l, NoDup l -> NoDup ids -> (forall i, i ∈ ids -> i ∈ l) -> res_fold list_remove ids l = Ok (excluding l ids).
Proof.
  induction ids as [|x ids IH]; intros l Hl Hids Hin; cbn [res_fold]; [by rewrite excluding_all|]. apply NoDup_cons in Hids as [Hx Hids].
  rewrite (list_remove_ok l x Hl) by (apply Hin; left). cbn [bind]. rewrite IH, <-excluding_cons; [done|by apply excluding_nodup|done|].
  intros i Hi. apply elem_of_excluding. split; [apply Hin; by right|]. intros ->%list_elem_of_singleton. done.
Qed.

Section serve.
Context {K C : Type} {KM : KVManager K} {KC : KVConnector C} (max_len : Z) {stats : bool} {KL : KVContract KM max_len stats}.
Context (cfg : Settings) (Hcfg : plain_settings cfg).
Notation State := (Scheduler K C).
Implicit Type s : State.

(** The invariant with the dict of requests: it holds the queued requests only. *)
Definition serve_inv s : Prop :=
  (exists t, sched_inv max_len cfg s t) /\ forall id, id ∈ requests s -> id ∈ running s ++ waiting s.

Lemma start_ok (k : K) n b : kv_ok k ∅ -> serve_inv (make_scheduler k None n b).
Proof.
  intros Hk. split; [|by intros id ?%elem_of_empty]. exists ∅. split; [|cbn; lia]. split; cbn; try done.
  - apply NoDup_nil_2.
  - by intros id ?%elem_of_nil.
  - by intros id ?%elem_of_nil.
  - intros id. rewrite lookup_empty. by intros [? [=]].
Qed.

(** ** Arrival *)

Lemma add_request_ok s r :
  serve_inv s -> waiting_ok max_len r -> request_id r ∉ requests s ->
  exists s', add_request cfg s r = Ok s' /\ serve_inv s' /\ running s' = running s /\ waiting s' = waiting s ++ [request_id r].
Proof.
  intros [(t & Hc & Hroom) Hreq] Hr Hnew. set (id := request_id r) in *. unfold add_request. rewrite (queue_fcfs cfg Hcfg). cbn [bind]. fold id.
  eexists. split; [reflexivity|]. split; [|done].
  assert (Hrun : id ∉ running s) by (intros H; apply Hnew; by apply (c_running _ _ _ _ _ Hc)).
  assert (Hwait : id ∉ waiting s) by (intros H; apply Hnew; by apply (c_waiting _ _ _ _ _ Hc)).
  split; [exists t; split; [|done]|].
  - eapply (core_put max_len s t [] [] _ _ _ _ id Hc); cbn; try done.
    + intros i _ Hi. apply elem_of_union. by left.
    + pose proof (c_nodup _ _ _ _ _ Hc) as Hnd. cbn in Hnd. apply (NoDup_Permutation_proper _ (id :: waiting s ++ running s)).
      * rewrite <-app_assoc. symmetry. apply (Permutation_middle (waiting s)).
      * apply NoDup_cons. split; [|done]. by intros [?|?]%elem_of_app.
    + intros i Hne. rewrite lookup_insert_ne by done. split; [done|]. split; [done|]. split; [done|]. split; [done|].
      intros [?|?%list_elem_of_singleton]%elem_of_app; done.
    + intros _. split; [apply elem_of_union; right; by apply elem_of_singleton|]. exists r. by rewrite lookup_insert_eq.
    + intros H. exfalso. by apply Hrun, (c_tbl _ _ _ _ _ Hc).
    + apply Hc.
  - cbn. intros i [Hi| ->%elem_of_singleton]%elem_of_union.
    + apply Hreq in Hi. apply elem_of_app in Hi as [?|?]; apply elem_of_app; [by left|right]. apply elem_of_app. by left.
    + apply elem_of_app. right. apply elem_of_app. right. left.
Qed.

(** ** Aborts *)

(** The known ids of a list, running and waiting. *)
Lemma split_valid_ok s t ids :
  core max_len s t [] [] -> (forall id, id ∈ requests s -> id ∈ running s ++ waiting s) -> NoDup ids ->
  exists run wait, split_valid s ids = Ok (run, wait) /\ NoDup run /\ (forall i, i ∈ run <-> i ∈ ids /\ i ∈ running s) /\
    (forall i, i ∈ wait <-> i ∈ ids /\ i ∈ waiting s).
Proof.
  intros Hc Hreq. assert (Hr : forall i, i ∈ running s -> i ∈ requests s) by (intros i Hi; by apply (c_running _ _ _ _ _ Hc)).
  assert (Hw : forall i, i ∈ waiting s -> i ∈ requests s) by (intros i Hi; by apply (c_waiting _ _ _ _ _ Hc)).
  induction ids as [|id ids IH]; intros Hnd.
  { exists [], []. split; [done|]. split; [apply NoDup_nil_2|]. split; intros i; (split; [by intros ?%elem_of_nil|by intros [?%elem_of_nil _]]). }
  apply NoDup_cons in Hnd as [Hni Hnd]. destruct (IH Hnd) as (run & wait & Hok & Hndr & H1 & H2). cbn [split_valid]. rewrite Hok. cbn [bind].
  destruct (decide (id ∈ requests s)) as [Hin|Hin].
  - rewrite bool_decide_true by done. cbn [negb]. unfold obj. apply Hreq, elem_of_app in Hin as [Hin|Hin].
    + destruct (c_running _ _ _ _ _ Hc id Hin) as (_ & r & c & -> & _ & _ & Hrun). cbn [of_option bind]. rewrite bool_decide_true by apply Hrun.
      exists (id :: run), wait. split; [done|]. split; [apply NoDup_cons; split; [by intros [? _]%H1|done]|].
      split; intros i; rewrite !elem_of_cons, ?H1, ?H2; [naive_solver|]. split; [naive_solver|]. intros [[->|?] Hi]; [|naive_solver].
      exfalso. by apply (core_disjoint _ _ _ _ _ id Hc) in Hin.
    + destruct (c_waiting _ _ _ _ _ Hc id Hin) as (_ & r & -> & _ & Hwo). cbn [of_option bind].
      rewrite bool_decide_false by (destruct (wo_status _ _ Hwo) as [->|[->| ->]]; done).
      exists run, (id :: wait). split; [done|]. split; [done|].
      split; intros i; rewrite !elem_of_cons, ?H1, ?H2; [|naive_solver]. split; [naive_solver|]. intros [[->|?] Hi]; [|naive_solver].
      exfalso. by apply (core_disjoint _ _ _ _ _ id Hc) in Hi.
  - rewrite bool_decide_false by done. cbn [negb]. exists run, wait. split; [done|]. split; [done|].
    split; intros i; rewrite elem_of_cons, ?H1, ?H2; (split; [naive_solver|]); intros [[->|?] Hi]; naive_solver.
Qed.

(** The second pass: every request of [todo] gets its status and is freed. *)
Lemma free_each_ok st todo : forall s t,
  status_is_finished st = true -> NoDup todo -> connector s = None -> EncoderCache.cached (encoder_cache s) = ∅ -> kv_ok (kv s) t ->
  (forall id, id ∈ todo -> id ∈ requests s /\ exists r, objs s !! id = Some r /\ request_id r = id) ->
  exists s' t', res_fold (fun s id =>
       let! r := obj s id in
       let r := set_status r st in
       let! '(_, s) := _free_request (set_obj s id r) r in Ok s) todo s = Ok s' /\
    kv_ok (kv s') t' /\ connector s' = None /\ EncoderCache.cached (encoder_cache s') = ∅ /\
    running s' = running s /\ waiting s' = waiting s /\
    (forall i, i ∉ todo -> t' !! i = t !! i /\ objs s' !! i = objs s !! i) /\
    (forall i, i ∈ todo -> t' !! i = None /\ i ∈ finished_req_ids s' /\ exists r, objs s' !! i = Some r /\ status r = st) /\
    (forall i, i ∈ requests s' <-> i ∈ requests s /\ i ∉ todo) /\ (forall i, i ∈ finished_req_ids s -> i ∈ finished_req_ids s').
Proof.
  induction todo as [|id todo IH]; intros s t Hst Hnd Hconn Henc Hkv Htodo; cbn [res_fold].
  { exists s, t. split; [done|]. split; [done|]. split; [done|]. split; [done|]. split; [done|]. split; [done|]. split; [done|].
    split; [by intros i ?%elem_of_nil|]. split; [|done]. intros i. split; [intros ?; split; [done|apply not_elem_of_nil]|by intros [? _]]. }
  apply NoDup_cons in Hnd as [Hni Hnd]. destruct (Htodo id) as (Hreq & r & Hobj & Hid); [left|]. unfold obj at 1. rewrite Hobj. cbn [of_option bind].
  set (r' := set_status r st). destruct (free_request_step max_len (set_obj s id r') t id r') as (s1 & k & -> & Hk & F1 & F2 & F3 & F4 & F5 & F6 & F7 & F8); try done.
  cbn [bind]. cbn in F1, F2, F3, F4, F5, F6.
  destruct (IH s1 (delete id t)) as (s' & t' & Hok & G1 & G2 & G3 & G4 & G5 & G6 & G7 & G8 & G9); [done|done|done|by rewrite F6|by rewrite F7| |].
  { intros i Hi. assert (i <> id) by congruence. rewrite F1, F2, lookup_insert_ne by done. destruct (Htodo i) as [H1 H2]; [by right|].
    split; [|done]. apply elem_of_difference. split; [done|]. by rewrite elem_of_singleton. }
  exists s', t'. split; [exact Hok|]. split; [done|]. split; [done|]. split; [done|]. split; [congruence|]. split; [congruence|]. split; [|split; [|split]].
  - intros i [Hne Hi]%not_elem_of_cons. destruct (G6 i Hi) as [-> ->]. rewrite F1. by rewrite lookup_delete_ne, lookup_insert_ne.
  - intros i [->|Hi]%elem_of_cons; [|by apply G7]. destruct (G6 id Hni) as [-> ->]. rewrite F1, lookup_delete_eq, lookup_insert_eq.
    split; [done|]. split; [|by exists r']. apply G9. rewrite F5. apply elem_of_union. right. by apply elem_of_singleton.
  - intros i. rewrite G8, F2, elem_of_difference, elem_of_singleton, not_elem_of_cons. tauto.
  - intros i Hi. apply G9. rewrite F5. apply elem_of_union. by left.
Qed.

(** The invariant once the requests in [ids] are gone. *)
Lemma abort_inv s t ids s' t' :
  sched_inv max_len cfg s t -> (forall id, id ∈ requests s -> id ∈ running s ++ waiting s) ->
  kv_ok (kv s') t' -> connector s' = None -> EncoderCache.cached (encoder_cache s') = ∅ ->
  running s' = excluding (running s) ids -> waiting s' = excluding (waiting s) ids ->
  (forall i, (i ∈ ids -> i ∉ requests s) -> t' !! i = t !! i /\ objs s' !! i = objs s !! i) ->
  (forall i, i ∈ ids -> i ∈ requests s -> t' !! i = None) ->
  (forall i, i ∈ requests s' <-> i ∈ requests s /\ i ∉ ids) -> serve_inv s'.
Proof.
  intros [Hc Hroom] Hreq Hk Hconn Henc Hr Hw Ho Hgone Hq. split.
  - exists t'. split; [|rewrite Hr; etransitivity; [apply List.filter_length_le|done]]. split; try done.
    + cbn. rewrite Hr, Hw. pose proof (c_nodup _ _ _ _ _ Hc) as Hnd. cbn in Hnd. apply NoDup_app in Hnd as (N1 & N2 & N3).
      apply NoDup_app. split; [by apply excluding_nodup|]. split; [|by apply excluding_nodup].
      intros i [Hi _]%elem_of_excluding [Hi' _]%elem_of_excluding. by apply (N2 i).
    + rewrite Hr. intros i [Hi Hni]%elem_of_excluding. destruct (c_running _ _ _ _ _ Hc i Hi) as (H1 & H2).
      destruct (Ho i) as [-> ->]; [done|]. split; [by apply Hq|done].
    + cbn. rewrite Hw. intros i [Hi Hni]%elem_of_excluding. destruct (c_waiting _ _ _ _ _ Hc i Hi) as (H1 & H2).
      destruct (Ho i) as [_ ->]; [done|]. split; [by apply Hq|done].
    + intros i Hi. rewrite Hr. apply elem_of_excluding. destruct (decide (i ∈ ids /\ i ∈ requests s)) as [[Hin Hq']|Hni]; [rewrite Hgone in Hi by done; by destruct Hi|].
      destruct (Ho i) as [E _]; [tauto|]. rewrite E in Hi. apply (c_tbl _ _ _ _ _ Hc) in Hi. split; [done|]. intros Hin. apply Hni.
      split; [done|]. by apply (c_running _ _ _ _ _ Hc).
  - intros i [Hi Hni]%Hq. rewrite Hr, Hw. apply Hreq in Hi. apply elem_of_app. rewrite !elem_of_excluding. apply elem_of_app in Hi. tauto.
Qed.

Lemma finish_step s ids st :
  serve_inv s -> status_is_finished st = true ->
  exists s', finish_requests cfg s ids st = Ok s' /\ serve_inv s' /\
    running s' = excluding (running s) ids /\ waiting s' = excluding (waiting s) ids /\
    (forall id, id ∈ requests s' <-> id ∈ requests s /\ id ∉ ids) /\
    (forall id, id ∈ ids -> id ∈ requests s -> id ∈ finished_req_ids s' /\ exists r, objs s' !! id = Some r /\ status r = st) /\
    (forall id, id ∉ ids -> objs s' !! id = objs s !! id).
Proof.
  intros [(t & Hc & Hroom) Hreq] Hst. unfold finish_requests. rewrite Hst. cbn [py_assert bind].
  destruct (split_valid_ok s t (remove_dups ids) Hc Hreq) as (run & wait & -> & Hnd & Hrun & Hwait); [apply NoDup_remove_dups|]. cbn [bind].
  rewrite (remove_each_ok run (running s)); [|by eapply core_running_nodup|done|by intros i [_ ?]%Hrun]. cbn [bind].
  rewrite (excluding_ext (running s) run ids) by (intros i Hi; rewrite Hrun, elem_of_remove_dups; tauto).
  set (s1 := set_lists s (waiting s) (excluding (running s) ids)).
  assert (Hw : (match wait with [] => Ok s1 | l => let! w := @remove_requests string (list string) (waiting_queue cfg s1) (waiting s1) l in Ok (set_lists s1 w (running s1)) end)
               = Ok (set_lists s (excluding (waiting s) ids) (excluding (running s) ids))).
  { rewrite <-(excluding_ext (waiting s) wait ids) by (intros i Hi; rewrite Hwait, elem_of_remove_dups; tauto).
    destruct wait as [|i0 wait]; [by rewrite excluding_all|]. by rewrite (queue_fcfs cfg Hcfg). }
  rewrite Hw. cbn [bind]. set (s2 := set_lists s _ _). set (todo := List.filter (fun id => bool_decide (id ∈ requests s2)) (remove_dups ids)).
  assert (Htodo : forall i, i ∈ todo <-> i ∈ ids /\ i ∈ requests s).
  { intros i. unfold todo. rewrite list_elem_of_In, filter_In, <-list_elem_of_In, bool_decide_eq_true, elem_of_remove_dups. done. }
  assert (Hnobj : forall i, i ∈ requests s -> exists r, objs s !! i = Some r /\ request_id r = i).
  { intros i Hi%Hreq. apply elem_of_app in Hi as [Hi|Hi]; [apply (c_running _ _ _ _ _ Hc) in Hi as (_ & r & _ & ? & ? & _)|apply (c_waiting _ _ _ _ _ Hc) in Hi as (_ & r & ? & ? & _)]; by exists r. }
  destruct (free_each_ok st todo s2 t) as (s' & t' & Hok & G1 & G2 & G3 & G4 & G5 & G6 & G7 & G8 & _); try done; try apply Hc.
  { apply NoDup_ListNoDup, List.NoDup_filter, NoDup_ListNoDup, NoDup_remove_dups. }
  { intros i [Hi1 Hi2]%Htodo. split; [done|by apply Hnobj]. }
  cbn [running waiting s2 set_lists] in G4, G5. exists s'. split; [exact Hok|]. split; [|split; [done|split; [done|split; [|split]]]].
  - eapply (abort_inv s t ids s' t'); try done.
    + intros i Hi. apply G6. intros [? ?]%Htodo. by apply Hi.
    + intros i Hi Hr. apply G7, Htodo. by split.
    + intros i. rewrite G8, Htodo. tauto.
  - intros i. rewrite G8, Htodo. tauto.
  - intros i Hi Hr. apply G7, Htodo. by split.
  - intros i Hi. apply G6. by intros [? _]%Htodo.
Qed.

(** C40. An abort from outside, for any list of ids, with repetitions and unknown
    ones, in any state that the serving scheduler reaches ([serve_inv]; plain
    settings, text requests, no connector, any cache manager that keeps
    [KVContract]): the requests that exist leave their queue, give back their slots,
    get the given status and are reported as finished to the next step; the unknown
    ids are ignored; the other requests keep their order and their data; the
    scheduler's invariant holds again, and the call does not raise. *)
Theorem finish_requests_ok s ids st :
  serve_inv s -> status_is_finished st = true ->
  exists s', finish_requests cfg s ids st = Ok s' /\ serve_inv s' /\
    running s' = excluding (running s) ids /\ waiting s' = excluding (waiting s) ids /\
    (forall id, id ∈ requests s' <-> id ∈ requests s /\ id ∉ ids) /\
    (forall id, id ∈ ids -> id ∈ requests s -> id ∈ finished_req_ids s' /\ exists r, objs s' !! id = Some r /\ status r = st) /\
    (forall id, id ∉ ids -> objs s' !! id = objs s !! id).
Proof. apply finish_step. Qed.

(** ** Reachable states *)

Context (grammar_ready : string -> bool) (should_advance : Request -> bool) (validate_tokens : Request -> list Z -> list Z).
Context (Hlen : sched_max_model_len cfg = max_len) (Hsync : async_scheduling cfg = false) (Hlog : sched_log_stats cfg = stats).
Notation schedule := (Scheduler.schedule grammar_ready cfg).
Notation update := (update_from_output should_advance validate_tokens cfg).

(** What a runner may answer. *)
Definition answers s (out : SchedulerOutput) (mro : ModelRunnerOutput) : Prop := result_fits s out mro /\ drafts_counted cfg out mro.
(** The calls of the engine: arrivals of new requests, steps with a runner that
    answers, and aborts. *)
Inductive serving : State -> State -> Prop :=
| serve_arrival s r s' :
    waiting_ok max_len r -> request_id r ∉ requests s -> add_request cfg s r = Ok s' -> serving s s'
| serve_batch s out events s1 mro ecos s2 :
    schedule s = Ok (out, events, s1) -> answers s1 out mro -> update s1 out mro = Ok (ecos, s2) -> serving s s2
| serve_abort s ids st s' :
    status_is_finished st = true -> finish_requests cfg s ids st = Ok s' -> serving s s'.

Lemma schedule_serve s out events s1 : serve_inv s -> schedule s = Ok (out, events, s1) -> serve_inv s1.
Proof.
  intros [(t & Hinv) Hreq] Hs. destruct (schedule_step max_len grammar_ready cfg Hcfg Hlen s t Hinv) as (out' & ev' & s' & t' & ps & Hs' & Hinv' & Hsp).
  rewrite Hs in Hs'. injection Hs' as <- <- <-. split; [by exists t'|]. intros i. rewrite (ss_requests _ _ _ _ _ _ Hsp), (ss_conserved _ _ _ _ _ _ Hsp). apply Hreq.
Qed.
Lemma update_serve s out mro ecos s1 : serve_inv s -> answers s out mro -> update s out mro = Ok (ecos, s1) -> serve_inv s1.
Proof.
  intros [(t & Hinv) Hreq] [Hrf Hdc] Hs. destruct (update_step max_len should_advance validate_tokens cfg Hcfg Hlen Hsync Hlog s t out mro Hinv Hrf Hdc) as (ecos' & s' & t' & Hs' & Hinv' & Hsp).
  rewrite Hs in Hs'. injection Hs' as <- <-. split; [by exists t'|]. intros i Hi. destruct Hsp as [W R Q _ _ _ _].
  rewrite W, R. pose proof (Hreq i (Q i Hi)) as H. apply elem_of_app in H. apply elem_of_app. rewrite list_elem_of_In, filter_In, <-list_elem_of_In, bool_decide_eq_true. tauto.
Qed.
Lemma serving_inv s s' : serving s s' -> serve_inv s -> serve_inv s'.
Proof.
  intros [? r ? Hr Hnew Hok|? out events s1 mro ecos ? Hs Hrf Hu|? ids st ? Hst Hok] Hinv.
  - destruct (add_request_ok _ r Hinv Hr Hnew) as (s1 & Hok' & H & _). rewrite Hok in Hok'. by injection Hok' as <-.
  - eapply update_serve; [|exact Hrf|exact Hu]. by eapply schedule_serve.
  - destruct (finish_step _ ids st Hinv Hst) as (s1 & Hok' & H & _). rewrite Hok in Hok'. by injection Hok' as <-.
Qed.

(** What holds at every moment: the calls of the engine succeed, and the queues
    hold the requests of the dict, each once. *)
Record healthy s : Prop := {
  he_arrival r : waiting_ok max_len r -> request_id r ∉ requests s -> exists s', add_request cfg s r = Ok s';
  he_step : exists out events s1, schedule s = Ok (out, events, s1) /\
     forall mro, answers s1 out mro -> exists ecos s2, update s1 out mro = Ok (ecos, s2);
  he_abort ids st : status_is_finished st = true -> exists s', finish_requests cfg s ids st = Ok s';
  he_once : NoDup (running s ++ waiting s);
  he_dict id : id ∈ requests s <-> id ∈ running s ++ waiting s }.

Lemma serving_healthy (k : K) size b s :
  kv_ok k ∅ -> rtc serving (make_scheduler k None size b) s -> healthy s.
Proof.
  intros Hk Hr. assert (Hinv : serve_inv s).
  { assert (H0 := start_ok k size b Hk). revert H0. induction Hr as [|s1 s2 s3 Hs _ IH]; [done|]. intros H. by eapply IH, serving_inv. }
  pose proof Hinv as [(t & Hc & Hroom) Hreq]. split.
  - intros r Hw Hn. destruct (add_request_ok s r Hinv Hw Hn) as (s' & ? & _). by exists s'.
  - destruct (schedule_step max_len grammar_ready cfg Hcfg Hlen s t (conj Hc Hroom)) as (out & ev & s1 & t1 & ps & Hs & Hi1 & _).
    exists out, ev, s1. split; [done|]. intros mro [Hrf Hdc].
    destruct (update_step max_len should_advance validate_tokens cfg Hcfg Hlen Hsync Hlog s1 t1 out mro Hi1 Hrf Hdc) as (ecos & s2 & _ & ? & _). by exists ecos, s2.
  - intros ids st Hst. destruct (finish_step s ids st Hinv Hst) as (s' & ? & _). by exists s'.
  - rewrite Permutation_app_comm. apply (c_nodup _ _ _ _ _ Hc).
  - intros id. split; [apply Hreq|]. intros [H|H]%elem_of_app; [by apply (c_running _ _ _ _ _ Hc)|by apply (c_waiting _ _ _ _ _ Hc)].
Qed.

(** C1. A synchronous scheduler with the policy "first come, first served", no limit on
    LoRAs and no KV connector, over a KV cache manager that meets its contract, for text
    requests, with or without statistics: whatever the arrivals of requests with new
    names, the steps and the aborts since its start, no operation raises.  New requests
    are taken, a batch is built, the results of a runner that answers for every
    scheduled request are applied, any ids can be aborted.  At every moment the request
    objects are in exactly one of the two queues, which hold exactly the requests of the
    dict.  (Under the policy "priority" [schedule] can raise, see
    [priority_preempts_scheduled].) *)
Theorem serving_never_raises (k : K) size b s :
  kv_ok k ∅ -> rtc serving (make_scheduler k None size b) s -> healthy s.
Proof. apply serving_healthy. Qed.
End serve.

(** ** Serving with the KV cache manager of the engine

    The scheduler over the manager that [make_kv_cache_manager] builds, with and
    without prefix caching: the contract of [SchedulerSpec] is discharged, and
    nothing raises. *)
(** ** What the constructors fix *)

Lemma make_pool_events n caching events p : make_block_pool n caching events = Ok p -> enable_kv_cache_events p = events.
Proof. intros H. unfold make_block_pool in H. destruct (py_assert _); [|done]. cbn [bind] in H. destruct (popleft _) as [[r q]|]; [|done]. by injection H as <-. Qed.

Lemma made_fields config g max_len caching eagle stats m :
  kv_cache_groups config = [g] -> make_kv_cache_manager config max_len caching eagle stats false = Ok m ->
  manager_caching m = caching /\ log_stats m = stats /\ manager_max_model_len m = max_len /\ managers m = [get_manager_for_kv_cache_spec (group_spec g) 0] /\
  enable_kv_cache_events (pool_of m) = false /\ req_to_block_hashes m = ∅ /\
  kind (coordinator m) = (if caching then Unitary (group_spec g) else NoPrefixCache 1) /\
  manager_block_size m = (if caching then Some (spec_block_size (group_spec g)) else None).
Proof.
  intros Hg. unfold make_kv_cache_manager, get_kv_cache_coordinator. rewrite Hg.
  destruct caching; cbn;
    (destruct (make_block_pool _ _ _) as [p|] eqn:Ep; cbn; [|done]; apply make_pool_events in Ep; by intros [= <-]).
Qed.

(** The manager that the engine builds meets the contract: prefix caching on or off. *)
Section built.
Context (hash_fn : Z * list Z * option (list ExtraKey) -> Z) (NONE_HASH : Z).
Context (config : KVCacheConfig) (g : KVCacheGroupSpec) (n : nat) (eagle stats : bool) (max_len : Z) (m : KVCacheManager).
Context (Hg : kv_cache_groups config = [g]) (Hspec : spec_pos (group_spec g)) (Hn : num_blocks config = Z.of_nat (S n)).
Context (Hfull : is_full (group_spec g) = true).

Lemma made_spec caching :
  make_kv_cache_manager config max_len caching eagle stats false = Ok m ->
  (exists fr, kv_inv m fr) /\ (forall id, unknown (managers m) id) /\ (log_stats m = true -> is_Some (prefix_cache_stats m)).
Proof using Hg Hspec Hn.
  intros Hm. destruct (make_manager_spec config max_len caching eagle stats false m n Hn) as (Hi & _ & Hu & Hst & _); [|exact Hm|by eauto].
  rewrite Hg. by intros g' ->%list_elem_of_singleton.
Qed.
Lemma made_paged : make_kv_cache_manager config max_len false eagle stats false = Ok m -> paged_ok max_len stats m ∅.
Proof using All.
  intros Hm. destruct (made_spec _ Hm) as (Hi & Hu & Hs). destruct (made_fields _ _ _ _ _ _ _ Hg Hm) as (F1 & F0 & F2 & F3 & _ & _ & F6 & _).
  split; [|split; [|done]].
  - split; [done|]. split; [intros Hst; rewrite F0; split; [done|by apply Hs; rewrite F0]|]. split; [done|]. split; [by eexists|]. rewrite F3. by intros x ->%list_elem_of_singleton.
  - intros id. rewrite lookup_empty. apply Hu.
Qed.
Lemma made_cached :
  make_kv_cache_manager config max_len true eagle stats false = Ok m -> cached_ok hash_fn NONE_HASH max_len stats m ∅.
Proof using All.
  intros Hm. destruct (made_spec _ Hm) as (Hi & Hu & Hst). destruct (made_fields _ _ _ _ _ _ _ Hg Hm) as (F1 & F0 & F2 & F3 & F4 & F5 & F6 & F7).
  split; [|split; [|split; [|done]]].
  - split; try done; [|by rewrite F0]. eexists. split; [exact F3|]. done.
  - intros id. rewrite lookup_empty. apply Hu.
  - intros id. split; [unfold hashes_of_request; rewrite F5; apply chained_nil|]. intros x nc Hx. destruct (Hu id x Hx) as [E _]. congruence.
Qed.
End built.

(** ** Serving *)

(** C2. The scheduler of C1 over the KV cache manager that the engine builds for one
    full-attention group, with or without prefix caching (whose block hash is
    collision-free) and statistics, without KV cache events: whatever the arrivals of text
    requests with new names, the steps and the aborts, although requests share, evict and
    re-use cached blocks, no operation raises and the queues hold every request once. *)
Theorem prefix_caching_serves {C : Type} {KC : KVConnector C} hash_fn NONE_HASH config g n caching eagle stats max_len m cfg
    grammar_ready should_advance validate_tokens size b (s : Scheduler KVCacheManager C) :
  kv_cache_groups config = [g] -> spec_pos (group_spec g) -> is_full (group_spec g) = true -> num_blocks config = Z.of_nat (S n) ->
  make_kv_cache_manager config max_len caching eagle stats false = Ok m ->
  (forall x y, hash_fn x = hash_fn y -> x = y) -> (forall x, hash_fn x <> 0) -> (forall x, hash_fn x <> NONE_HASH) ->
  plain_settings cfg -> sched_max_model_len cfg = max_len -> async_scheduling cfg = false -> sched_log_stats cfg = stats ->
  rtc (serving (KM := paged_manager hash_fn NONE_HASH) max_len cfg grammar_ready should_advance validate_tokens) (make_scheduler m None size b) s ->
  healthy (KM := paged_manager hash_fn NONE_HASH) max_len cfg grammar_ready should_advance validate_tokens s.
Proof.
  intros Hg Hsp Hf Hn Hm Hinj Hz Hne Hcfg Hlen Has Hls.
  destruct caching.
  - apply (serving_healthy max_len (KL := cached_contract hash_fn NONE_HASH max_len stats Hinj Hz Hne) cfg Hcfg); try done. by eapply made_cached.
  - apply (serving_healthy max_len (KL := paged_contract hash_fn NONE_HASH max_len stats) cfg Hcfg); try done. by eapply made_paged.
Qed.
