(* ===== verification/SchedulerExamples.v ===== *)
(** * Concrete runs of the scheduler

    The scheduler over the paged manager with one full-attention group, blocks of
    two tokens and a pool of three usable blocks. *)

From stdpp Require Import base functions gmap strings list relations fin_sets.
From Stdlib Require Import ZArith QArith Lia.
From S2P Require Import Prelude RequestQueue Request BlockHash BlockPool KVCacheInterface SingleType KVCoordinator KVCacheManager KVManagerOk KVLookup SchedulerTypes Scheduler SchedulerUpdate SchedulerSpec SchedulerRun SchedulerOk SchedulerUpdateOk SchedulerServe PagedContract.
From S2P Require EncoderCache.
Open Scope string_scope.
Open Scope list_scope.
Open Scope Z_scope.

(** No KV connector is configured. *)
#[export] Instance no_connector : KVConnector Empty_set := {|
  get_num_new_matched_tokens := fun c : Empty_set => match c with end;
  build_connector_meta := fun c : Empty_set => match c with end;
  update_state_after_alloc := fun c : Empty_set => match c with end;
  request_finished := fun c : Empty_set => match c with end;
  update_connector_output := fun c : Empty_set => match c with end |}.
#[export] Instance demo_kv : KVManager KVCacheManager := paged_manager coded_hash (-1).
#[export] Instance demo_contract : KVContract demo_kv 16 true := paged_contract coded_hash (-1) 16 true.

Definition demo_settings : Settings :=
  {| max_num_running_reqs := 2; max_num_scheduled_tokens := 8; sched_max_model_len := 16; sched_policy := FCFS;
     long_prefill_token_threshold := 0; chunked_prefill_enabled := true; disable_chunked_mm_input := false; max_loras := None;
     max_num_encoder_input_tokens := 0; num_spec_tokens := 0; num_lookahead_tokens := 0; use_pp := false;
     async_scheduling := false; sched_block_size := 2; num_groups := 1; sched_log_stats := true |}.
Lemma demo_plain : plain_settings demo_settings.
Proof. split; [done|done|cbn; lia|cbn; lia]. Qed.

Definition demo_manager : res KVCacheManager := make_kv_cache_manager demo_config 16 false false true false.
Lemma demo_manager_paged : exists m, demo_manager = Ok m /\ paged_ok 16 true m ∅.
Proof.
  destruct demo_manager as [m|] eqn:Hm; [|by vm_compute in Hm]. exists m. split; [done|]. unfold demo_manager in Hm.
  destruct (make_manager_spec demo_config 16 false false true false m 3 eq_refl) as (K1 & _ & K3 & _); [by intros g ->%list_elem_of_singleton|exact Hm|].
  assert (H : manager_caching m = false /\ counts_lookups true m /\ manager_max_model_len m = 16 /\ (exists n, kind (coordinator m) = NoPrefixCache n) /\
              managers m = [get_manager_for_kv_cache_spec (demo_spec 2) 0]).
  { revert Hm. vm_compute make_kv_cache_manager. intros [= <-]. split; [done|]. split; [by split; [|eexists]|]. split; [done|]. split; [by eexists|done]. }
  destruct H as (H1 & H0 & H2 & H3 & H4). split; [|split; [|by exists [1; 2; 3]%nat]].
  - split; [done|]. split; [done|]. split; [done|]. split; [done|]. rewrite H4. by intros x ->%list_elem_of_singleton.
  - intros id. rewrite lookup_empty. apply K3.
Qed.

(** A request waits in an otherwise empty scheduler. *)
Definition demo_request (id : string) (l : list Z) : Request := plain_request id l.
Lemma demo_waiting id l : 1 <= Z.of_nat (length l) <= 15 -> waiting_ok 16 (demo_request id l).
Proof. intros H. split; [by left|done|exact H|done|by vm_compute|by vm_compute|split; [by eexists|done]]. Qed.

Definition demo_start (m : KVCacheManager) : Scheduler KVCacheManager Empty_set := make_scheduler m None 0 false.
Definition ready : string -> bool := fun _ => true.
Definition advances : Request -> bool := fun _ => false.
Definition all_valid : Request -> list Z -> list Z := fun _ l => l.

Lemma demo_queued : exists m s, demo_manager = Ok m /\ add_request demo_settings (demo_start m) (demo_request "a" [1; 2; 3]) = Ok s /\
  serve_inv 16 demo_settings s /\ running s = [] /\ waiting s = ["a"].
Proof.
  destruct demo_manager_paged as (m & Hm & Hok). exists m.
  destruct (add_request_ok 16 demo_settings demo_plain (demo_start m) (demo_request "a" [1; 2; 3])) as (s & Hs & Hinv & Hr & Hw);
    [by apply start_ok|by apply demo_waiting|by intros ?%elem_of_empty|]. by exists s.
Qed.


Lemma finish_requests_ok_witness : exists m s, demo_manager = Ok m /\ add_request demo_settings (demo_start m) (demo_request "a" [1; 2; 3]) = Ok s /\
  exists s', finish_requests demo_settings s ["a"; "b"] FINISHED_ABORTED = Ok s' /\ waiting s' = [].
Proof.
  destruct demo_queued as (m & s & Hm & Hs & Hinv & Hr & Hw). exists m, s. split; [exact Hm|]. split; [exact Hs|].
  destruct (finish_requests_ok 16 demo_settings demo_plain s ["a"; "b"] FINISHED_ABORTED Hinv eq_refl) as (s' & Hok & _ & _ & Hw' & _).
  exists s'. split; [exact Hok|]. rewrite Hw', Hw. reflexivity.
Defined.

Lemma append_tokens_ok_witness :
  exists kept rest stopped r', append_tokens demo_settings (demo_request "a" [1; 2; 3]) [7; 8] [] = Ok (kept, stopped, r') /\ [7; 8] = kept ++ rest.
Proof.
  destruct (append_tokens_ok demo_settings (demo_request "a" [1; 2; 3]) default_sampling [7; 8] eq_refl eq_refl)
    as (kept & rest & stopped & r' & Hok & Hl & _); [by vm_compute|by vm_compute|].
  exists kept, rest, stopped, r'. split; [exact Hok|exact Hl].
Defined.

(** After an arrival the next step works. *)
Lemma serving_never_raises_witness : exists m s, demo_manager = Ok m /\
  rtc (serving 16 demo_settings ready advances all_valid) (demo_start m) s /\ waiting s = ["a"] /\
  exists out events s1, schedule ready demo_settings s = Ok (out, events, s1).
Proof.
  destruct demo_manager_paged as (m & Hm & Hok). exists m.
  destruct (add_request_ok 16 demo_settings demo_plain (demo_start m) (demo_request "a" [1; 2; 3])) as (s & Hs & _ & _ & Hw);
    [by apply start_ok|by apply demo_waiting|by intros ?%elem_of_empty|].
  assert (Hr : rtc (serving 16 demo_settings ready advances all_valid) (demo_start m) s).
  { apply rtc_once. eapply serve_arrival; [|apply not_elem_of_empty|exact Hs]. by apply demo_waiting. }
  exists s. split; [exact Hm|]. split; [exact Hr|]. split; [exact Hw|].
  destruct (serving_never_raises 16 (KL:=demo_contract) demo_settings demo_plain ready advances all_valid eq_refl eq_refl eq_refl m 0 false s Hok Hr)
    as [_ (out & ev & s1 & Hs1 & _) _ _ _]. exists out, ev, s1. exact Hs1.
Defined.

(** One step of a request with three tokens, and the token 9 as its result. *)
Definition demo_result : ModelRunnerOutput :=
  {| req_id_to_index := {["a" := 0%nat]}; sampled_token_ids := [[9]]; runner_spec_token_ids := None; pooler_output := [];
     prompt_logprobs_of := ∅; kv_connector_output := None |}.
Lemma update_from_output_ok_witness : exists m s out events s1 ecos s2, demo_manager = Ok m /\
  add_request demo_settings (demo_start m) (demo_request "a" [1; 2; 3]) = Ok s /\
  schedule ready demo_settings s = Ok (out, events, s1) /\ result_fits s1 out demo_result /\
  update_from_output advances all_valid demo_settings s1 out demo_result = Ok (ecos, s2) /\ update_spec s1 s2 ecos.
Proof.
  destruct demo_queued as (m & s & Hm & Hs & [(t & Hinv) _] & _).
  destruct (schedule_step 16 ready demo_settings demo_plain eq_refl s t Hinv) as (out & events & s1 & t1 & ps & Hok & Hinv1 & _).
  assert (Hr : exists r, num_scheduled_tokens out = [("a", 3)] /\ running s1 = ["a"] /\ objs s1 !! "a" = Some r /\
                num_computed_tokens r = 3 /\ num_tokens r = 3 /\ scheduled_spec_decode_tokens out = []).
  { unfold demo_manager in Hm. revert Hm. vm_compute make_kv_cache_manager. intros [= <-]. revert Hs. vm_compute add_request. intros [= <-].
    revert Hok. vm_compute schedule. intros [= <- _ <-]. eexists. repeat (split; [vm_compute; reflexivity|]). vm_compute; reflexivity. }
  destruct Hr as (r & H1 & H2 & H3 & H4 & H5 & H6).
  assert (Hrf : result_fits s1 out demo_result).
  { split; rewrite ?H1; [apply NoDup_singleton| |done|done]. intros id n [= -> ->]%list_elem_of_singleton. split; [lia|]. intros _.
    split; [rewrite H2; left|]. exists 0%nat, [9]. split; [done|]. split; [done|]. split; [done|]. split; [done|].
    intros r' Hr'. rewrite H3 in Hr'. injection Hr' as <-. rewrite H6. split; [cbn; lia|done]. }
  assert (Hdc : drafts_counted demo_settings out demo_result) by (intros _ id x l i g; by rewrite H6).
  destruct (update_from_output_ok 16 advances all_valid demo_settings demo_plain eq_refl eq_refl eq_refl s1 t1 out demo_result Hinv1 Hrf Hdc)
    as (ecos & s2 & _ & Hu & _ & Hus).
  by exists m, s, out, events, s1, ecos, s2.
Defined.

(** ** With prefix caching *)

Definition cached_demo : res KVCacheManager := make_kv_cache_manager demo_config 16 true false true false.
Section two_prompts.
Context (m0 : res KVCacheManager).
Definition cached_first : res _ := let! m := m0 in add_request demo_settings (demo_start m) (demo_request "a" [1; 2; 3]).
Definition cached_step1 := let! s := cached_first in schedule ready demo_settings s.
Definition cached_result := let! '(out, _, s) := cached_step1 in update_from_output advances all_valid demo_settings s out demo_result.
Definition cached_second := let! '(_, s) := cached_result in add_request demo_settings s (demo_request "b" [1; 2; 8]).
Definition cached_step2 := let! s := cached_second in schedule ready demo_settings s.
End two_prompts.

(** The result [9] fits a batch of the three tokens of [a]. *)
Lemma demo_result_fits (s : Scheduler KVCacheManager Empty_set) out :
  (num_scheduled_tokens out, running s, scheduled_spec_decode_tokens out, option_map (fun r => (num_computed_tokens r, num_tokens r)) (objs s !! "a"))
    = ([("a", 3)], ["a"], [], Some (3, 3)) -> answers demo_settings s out demo_result.
Proof.
  intros [= H1 H2 H3 H4]. split; [|intros _ id x l i g; by rewrite H3]. split; rewrite ?H1; [apply NoDup_singleton| |done|done]. intros id n [= -> ->]%list_elem_of_singleton. split; [lia|]. intros _.
  split; [rewrite H2; left|]. exists 0%nat, [9]. split; [done|]. split; [done|]. split; [done|]. split; [done|].
  intros r' Hr'. rewrite Hr' in H4. injection H4 as ? ?. rewrite H3. split; [cbn; lia|done].
Qed.
Lemma demo_two_requests m s1 out ev s2 ecos s3 s4 :
  add_request demo_settings (demo_start m) (demo_request "a" [1; 2; 3]) = Ok s1 -> schedule ready demo_settings s1 = Ok (out, ev, s2) ->
  answers demo_settings s2 out demo_result -> update_from_output advances all_valid demo_settings s2 out demo_result = Ok (ecos, s3) ->
  "b" ∉ requests s3 -> add_request demo_settings s3 (demo_request "b" [1; 2; 8]) = Ok s4 ->
  rtc (serving 16 demo_settings ready advances all_valid) (demo_start m) s4.
Proof.
  intros H1 H2 Hf H3 Hb H4. eapply rtc_l; [apply (serve_arrival _ _ _ _ _ _ (demo_request "a" [1; 2; 3])); [by apply demo_waiting|apply not_elem_of_empty|exact H1]|].
  eapply rtc_l; [eapply serve_batch; [exact H2|exact Hf|exact H3]|]. eapply rtc_once, (serve_arrival _ _ _ _ _ _ (demo_request "b" [1; 2; 8])); [by apply demo_waiting|exact Hb|exact H4].
Qed.

Lemma demo_cached_run m0 :
  match cached_step2 m0 with Ok (out, _, _) => Some (num_scheduled_tokens out) | _ => None end = Some [("a", 1); ("b", 1)] ->
  match cached_step1 m0 with
  | Ok (out, _, s) => (num_scheduled_tokens out, running s, scheduled_spec_decode_tokens out, option_map (fun r => (num_computed_tokens r, num_tokens r)) (objs s !! "a"))
  | _ => ([], [], [], None) end = ([("a", 3)], ["a"], [], Some (3, 3)) ->
  match cached_result m0 with Ok (_, s) => bool_decide ("b" ∈ requests s) | _ => true end = false ->
  exists m s, m0 = Ok m /\ rtc (serving 16 demo_settings ready advances all_valid) (demo_start m) s /\
    exists out events s', schedule ready demo_settings s = Ok (out, events, s') /\ num_scheduled_tokens out = [("a", 1); ("b", 1)].
Proof.
  unfold cached_step2, cached_second. intros Hall Hfit Hnew. destruct (cached_result m0) as [[ecos s3]|] eqn:E3; [|done]. unfold cached_result in E3.
  destruct (cached_step1 m0) as [[[out1 ev1] s2]|] eqn:E2; [|done]. unfold cached_step1 in E2.
  destruct (cached_first m0) as [s1|] eqn:E1; [|done]. unfold cached_first in E1. destruct m0 as [m|]; [|done]. cbn [bind] in *.
  destruct (add_request _ s3 _) as [s4|] eqn:E4; [|done]. cbn [bind] in Hall. destruct (schedule _ _ s4) as [[[out ev] s5]|] eqn:E5; [|done].
  exists m, s4. split; [done|]. split; [|exists out, ev, s5; split; [done|by injection Hall]].
  eapply demo_two_requests; [exact E1|exact E2|by apply demo_result_fits|exact E3|by apply bool_decide_eq_false in Hnew|exact E4].
Qed.

(** The second prompt finds the first block of the running request, and only its
    last token is computed. *)
Lemma prefix_caching_serves_witness : exists m s, cached_demo = Ok m /\
  rtc (serving 16 demo_settings ready advances all_valid) (demo_start m) s /\ healthy 16 demo_settings ready advances all_valid s /\
  exists out events s', schedule ready demo_settings s = Ok (out, events, s') /\ num_scheduled_tokens out = [("a", 1); ("b", 1)].
Proof.
  destruct (demo_cached_run cached_demo) as (m & s & E0 & Hr & Hs); [vm_compute; reflexivity..|].
  exists m, s. split; [exact E0|]. split; [exact Hr|]. split; [|exact Hs].
  exact (prefix_caching_serves coded_hash (-1) demo_config {| layer_names := ["l0"]; group_spec := demo_spec 2 |} 3 true false true 16 m
    demo_settings ready advances all_valid 0 false s eq_refl (conj eq_refl I) eq_refl eq_refl E0 coded_hash_inj
    (fun x H => ltac:(discriminate H)) (fun x H => ltac:(discriminate H)) demo_plain eq_refl eq_refl eq_refl Hr).
Defined.

(** ** Corner cases of the scheduler

    Concrete runs outside the conditions of the theorems of [SchedulerOk] and
    [SchedulerServe]: a configuration and a short sequence of calls each, evaluated
    by the definitions themselves. *)
Definition DemoState : Type := Scheduler KVCacheManager Empty_set.

(** Settings of a small scheduler. *)
Definition small_settings (pol : SchedulingPolicy) (pp : bool) (loras : option nat) (len encoder : Z) : Settings :=
  {| max_num_running_reqs := 2; max_num_scheduled_tokens := 8; sched_max_model_len := len; sched_policy := pol;
     long_prefill_token_threshold := 0; chunked_prefill_enabled := true; disable_chunked_mm_input := false; max_loras := loras;
     max_num_encoder_input_tokens := encoder; num_spec_tokens := 0; num_lookahead_tokens := 0; use_pp := pp;
     async_scheduling := false; sched_block_size := 2; num_groups := 1; sched_log_stats := false |}.

(** A request with the fields that matter here. *)
Definition small_request (id : string) (prio : Z) (lora : option Z) (mm : list (Z * Z)) (st : RequestStatus) (l : list Z) : Request :=
  {| request_id := id; client_index := 0; priority := prio; arrival_time := 0; sampling_params := Some default_sampling;
     pooling_params := false; eos_token_id := None; lora_request := lora; cache_salt := None; max_tokens := 16;
     prompt_token_ids := l; mm_positions := mm; mm_hashes := map (fun _ => None) mm; status := st; stop_reason := None; output_token_ids := [];
     all_token_ids := l; spec_token_ids := []; num_computed_tokens := 0; num_output_placeholders := 0; num_cached_tokens := -1 |}.

(** What the engine does between two looks at the scheduler: arrivals, steps whose
    batch is in flight (with pipeline parallelism), and their results. *)
Inductive Call : Type :=
| Arrive (r : Request)
| Batch
| Results (ids : list string).
(** The runner samples the token 7 for each of the ids. *)
Definition sevens (ids : list string) : ModelRunnerOutput :=
  {| req_id_to_index := list_to_map (zip ids (seq 0 (length ids))); sampled_token_ids := map (fun _ => [7]) ids;
     runner_spec_token_ids := None; pooler_output := []; prompt_logprobs_of := ∅; kv_connector_output := None |}.

Section calls.
Context (grammar_ready : string -> bool) (cfg : Settings).
Definition call (s : DemoState * list SchedulerOutput) (c : Call) : res (DemoState * list SchedulerOutput) :=
  let '(s, flying) := s in
  match c with
  | Arrive r => let! s := add_request cfg s r in Ok (s, flying)
  | Batch => let! '(out, _, s) := schedule grammar_ready cfg s in Ok (s, flying ++ [out])
  | Results ids =>
      match flying with
      | [] => Raise IndexError
      | out :: flying => let! '(_, s) := update_from_output advances all_valid cfg s out (sevens ids) in Ok (s, flying)
      end
  end.
Definition calls (encoder_size : Z) (l : list Call) : res (DemoState * list SchedulerOutput) :=
  let! m := make_kv_cache_manager demo_config (sched_max_model_len cfg) false false false false in
  res_fold call l (make_scheduler m None encoder_size false, []).
End calls.
Definition never : string -> bool := fun _ => false.


(** ** Preemption by priority *)

(** [A] has the lower priority and runs first, [B] arrives later. *)
Definition prio_calls : list Call :=
  [Arrive (small_request "A" 5 None [] WAITING [1; 2]); Batch; Results ["A"];
   Arrive (small_request "B" 0 None [] WAITING [3; 4]); Batch; Results ["A"; "B"]].
(** Under the priority policy a running request without free blocks preempts
    the request with the greatest key, which may already be in the batch of this
    step: the final assertion of [schedule] fails and the engine dies.  First come,
    first served preempts from the end of the list and serves the same calls. *)
Theorem priority_preempts_scheduled :
  (let! p := calls ready (small_settings PRIORITY false None 16 0) 0 prio_calls in Ok (running p.1)) = Ok ["A"; "B"] /\
  (let! p := calls ready (small_settings PRIORITY false None 16 0) 0 (prio_calls ++ [Batch]) in Ok (running p.1)) = Raise AssertionError /\
  (let! p := calls ready (small_settings FCFS false None 16 0) 0 (prio_calls ++ [Batch]) in Ok (running p.1, waiting p.1)) = Ok (["A"], ["B"]).
Proof. vm_compute. done. Qed.

(** ** A prompt as long as the model allows *)

Definition full_calls : list Call := [Arrive (small_request "A" 0 None [] WAITING [1; 2; 3; 4]); Batch; Batch].
(** A prompt of exactly [max_model_len] tokens is accepted by the front end.
    With two batches in flight its second batch holds minus one token, and applying
    the results of that batch fails on an assertion. *)
Theorem full_prompt_negative_tokens :
  (let! p := calls ready (small_settings FCFS true None 4 0) 0 full_calls in Ok (map num_scheduled_tokens p.2))
    = Ok [[("A", 4)]; [("A", -1)]] /\
  (let! p := calls ready (small_settings FCFS true None 4 0) 0 (full_calls ++ [Results ["A"]; Results ["A"]]) in Ok (running p.1))
    = Raise AssertionError.
Proof. vm_compute. done. Qed.

(** ** The limit on LoRA adapters *)

Definition lora_calls : list Call :=
  [Arrive (small_request "A" 0 (Some 1) [] WAITING [1]); Batch;
   Arrive (small_request "B" 0 (Some 2) [] WAITING [3]); Batch; Results ["A"]; Results ["B"]].
(** The limit of one adapter counts the adapters of the running requests that
    are in the batch.  A running request whose results are in flight is not in it, a
    request with another adapter is admitted, and the next step with both fails on
    the assertion about the limit. *)
Theorem lora_limit_exceeded :
  (let! p := calls ready (small_settings FCFS true (Some 1%nat) 16 0) 0 lora_calls in Ok (running p.1)) = Ok ["A"; "B"] /\
  (let! p := calls ready (small_settings FCFS true (Some 1%nat) 16 0) 0 (lora_calls ++ [Batch]) in Ok (running p.1)) = Raise AssertionError.
Proof. vm_compute. done. Qed.

(** ** Encoder inputs of one request *)

(** The cache has four slots.  Both inputs of the request are scheduled in one
    step, two and four tokens, because each is compared with the slots that were
    free before the step: minus two slots are left. *)
Theorem encoder_slots_negative :
  let r := small_request "A" 0 None [(0, 2); (2, 4)] WAITING [1; 2; 3; 4; 5; 6] in
  let cfg := small_settings FCFS false None 16 8 in
  let s : Scheduler unit Empty_set := make_scheduler tt None 4 false in
  (let! '(inputs, n, budget) := plan_encoder cfg s r 0 6 8 in
   let! '(s, st) := commit_encoder s (empty_step cfg) "A" r inputs budget in
   Ok (inputs, n, budget, EncoderCache.num_free_slots (encoder_cache s))) = Ok ([0; 1], 6, 2, -2).
Proof. vm_compute. done. Qed.

(** ** Skipped requests *)

Definition fsm_calls : list Call :=
  [Arrive (small_request "A" 0 None [] WAITING_FOR_FSM [1; 2]); Arrive (small_request "B" 0 None [] WAITING_FOR_FSM [1; 2]);
   Arrive (small_request "C" 0 None [] WAITING_FOR_FSM [1; 2]); Batch].
(** Three requests wait for their grammars, in the order of their arrival.  A
    step skips them and puts them back in the opposite order. *)
Theorem skipped_requests_reversed :
  (let! p := calls never (small_settings FCFS false None 16 0) 0 fsm_calls in Ok (waiting p.1)) = Ok ["C"; "B"; "A"].
Proof. vm_compute. done. Qed.

(** ** A request from arrival to end *)

Definition ask_calls : list Call :=
  [Arrive (small_request "A" 0 None [] WAITING [1; 2; 3]); Batch; Results ["A"]; Batch; Results ["A"]].
(** A model of five tokens and a prompt of three: the prompt is one batch, the
    first sampled token another, and the second sampled token reaches the limit, so
    that the request is gone from the queues, the dict and the block tables. *)
Theorem request_runs_to_its_end :
  (let! p := calls ready (small_settings FCFS false None 5 0) 0 ask_calls in
   let! r := obj p.1 "A" in
   Ok (all_token_ids r, status r, running p.1, waiting p.1, elements (requests p.1), elements (finished_req_ids p.1),
       request_block_ids (kv p.1) "A")) =
  Ok ([1; 2; 3; 7; 7], FINISHED_LENGTH_CAPPED, [], [], [], ["A"], [[]]).
Proof. vm_compute. done. Qed.
