(* ===== verification/BlockTable.v ===== *)
(** * Block tables of the model runner

    [vllm/v1/worker/block_table.py]: one table of block ids per KV cache group with
    a row for every request of the batch, and the slots of the KV cache that the
    tokens of a step are written to.
    First what the model runner uses of numpy: assignment to slices with its
    broadcasting rule, [repeat], [cumsum], flat indexing of a matrix, and 32-bit
    products.  An array with a fixed number of rows is a function of the row; the
    rows themselves are lists. *)

From stdpp Require Import base functions list.
From Stdlib Require Import ZArith Lia.
From S2P Require Import Prelude.
Open Scope list_scope.
Open Scope Z_scope.

(** ** Slices *)

(** [a[s:e] = vals]: the bounds are cut to the length, a single value fills the
    slice, and any other difference in size is a [ValueError]. *)
Definition np_slice_set {A} (a : list A) (s e : nat) (vals : list A) : res (list A) :=
  let n := length a in
  let s := Nat.min s n in
  let e := Nat.max s (Nat.min e n) in
  match vals with
  | [v] => Ok (take s a ++ repeat v (e - s) ++ drop e a)
  | _ => if (length vals =? e - s)%nat then Ok (take s a ++ vals ++ drop e a) else Raise ValueError
  end.

(** [a[:n] = b[:n]] for rows of the same length. *)
Definition np_copy_prefix {A} (a b : list A) (n : nat) : list A := take n b ++ drop n a.

(** [np.repeat(values, counts)] *)
Fixpoint np_repeat {A} (values : list A) (counts : list Z) : list A :=
  match values, counts with
  | v :: values, n :: counts => repeat v (Z.to_nat n) ++ np_repeat values counts
  | _, _ => []
  end.

(** [np.cumsum] *)
Fixpoint cumsum_from (acc : Z) (l : list Z) : list Z :=
  match l with
  | [] => []
  | x :: l => acc + x :: cumsum_from (acc + x) l
  end.
Definition np_cumsum (l : list Z) : list Z := cumsum_from 0 l.

(** [np.arange(n)] *)
Definition np_arange (n : Z) : list Z := map Z.of_nat (seq 0 (Z.to_nat n)).

(** Element-wise operations on arrays of the same length. *)
Definition np_map2 (f : Z -> Z -> Z) (a b : list Z) : list Z := zip_with f a b.

(** [a.flatten()[i]] for a matrix with [rows] rows of [cols] elements. *)
Definition flat_lookup {A} (m : nat -> list A) (rows cols : nat) (i : Z) : res A :=
  let n := Z.of_nat (rows * cols) in
  let i := if i <? 0 then i + n else i in
  if (0 <=? i) && (i <? n) then of_option IndexError (m (Z.to_nat i / cols)%nat !! (Z.to_nat i mod cols)%nat) else Raise IndexError.

(** A product of int32 values. *)
Definition wrap32 (z : Z) : Z := (z + 2 ^ 31) mod 2 ^ 32 - 2 ^ 31.

(** ** Lemmas *)

Lemma wrap32_id z : - 2 ^ 31 <= z < 2 ^ 31 -> wrap32 z = z.
Proof. intros. unfold wrap32. rewrite Z.mod_small; lia. Qed.

Lemma slice_set_fits {A} (a : list A) s vals :
  (s + length vals <= length a)%nat -> np_slice_set a s (s + length vals) vals = Ok (take s a ++ vals ++ drop (s + length vals) a).
Proof.
  intros H. unfold np_slice_set. replace (Nat.min s (length a)) with s by lia. replace (Nat.max s (Nat.min (s + length vals) (length a))) with (s + length vals)%nat by lia.
  replace (s + length vals - s)%nat with (length vals) by lia. rewrite Nat.eqb_refl. by destruct vals as [|v [|]].
Qed.

Lemma slice_set_length {A} (a b : list A) s e vals : np_slice_set a s e vals = Ok b -> length b = length a.
Proof.
  unfold np_slice_set. set (s' := Nat.min s _). set (e' := Nat.max s' _). assert (s' <= e' <= length a)%nat by lia.
  assert (G : forall x : list A, length x = (e' - s')%nat -> length (take s' a ++ x ++ drop e' a) = length a).
  { intros x Hx. rewrite !length_app, length_take, length_drop. lia. }
  destruct vals as [|v [|w l]]; intros H1.
  - destruct (Nat.eqb_spec (length (@nil A)) (e' - s')); [|done]. injection H1 as <-. by apply (G []).
  - injection H1 as <-. apply G. by rewrite repeat_length.
  - destruct (Nat.eqb_spec (length (v :: w :: l)) (e' - s')); [|done]. injection H1 as <-. by apply (G (v :: w :: l)).
Qed.

Lemma take_after_slice {A} (a vals : list A) s : (s <= length a)%nat -> take (s + length vals) (take s a ++ vals ++ drop (s + length vals) a) = take s a ++ vals.
Proof.
  intros H. rewrite app_assoc. rewrite take_app_length'; [done|]. rewrite length_app, length_take. lia.
Qed.

Lemma length_cumsum acc l : length (cumsum_from acc l) = length l.
Proof. revert acc. induction l; intros acc; cbn; [done|by rewrite IHl]. Qed.

Lemma np_arange_lookup n i : (i < Z.to_nat n)%nat -> np_arange n !! i = Some (Z.of_nat i).
Proof. intros H. unfold np_arange. rewrite list_lookup_fmap, lookup_seq_lt by lia. done. Qed.
Lemma length_arange n : length (np_arange n) = Z.to_nat n.
Proof. unfold np_arange. by rewrite length_map, length_seq. Qed.

Lemma flat_lookup_row {A} (m : nat -> list A) rows cols r c :
  (r < rows)%nat -> (c < cols)%nat -> flat_lookup m rows cols (Z.of_nat (r * cols + c)) = of_option IndexError (m r !! c).
Proof.
  intros Hr Hc. unfold flat_lookup. destruct (Z.ltb_spec (Z.of_nat (r * cols + c)) 0); [lia|].
  replace ((0 <=? Z.of_nat (r * cols + c)) && (Z.of_nat (r * cols + c) <? Z.of_nat (rows * cols))) with true by
    (symmetry; apply andb_true_iff; split; [apply Z.leb_le; lia|apply Z.ltb_lt; nia]).
  rewrite Nat2Z.id. replace ((r * cols + c) / cols)%nat with r by (rewrite Nat.div_add_l by lia; rewrite Nat.div_small by lia; lia).
  replace ((r * cols + c) mod cols)%nat with c by (rewrite Nat.add_comm, Nat.Div0.mod_add, Nat.mod_small by lia; done). done.
Qed.

(** ** Block tables *)
(** [BlockTable]; the fields with [_dev] are the tensors on the device. *)
Record BlockTable : Type := {
  bt_block_size : Z;
  bt_max_num_reqs : nat;
  max_num_blocks_per_req : nat;
  bt_max_num_batched_tokens : nat;
  block_table_np : nat -> list Z;
  block_table_dev : nat -> list Z;
  num_blocks_per_row : nat -> nat;
  slot_mapping_np : list Z;
  slot_mapping_dev : list Z }.

Definition make_block_table (block_size : Z) (max_num_reqs max_num_blocks max_num_batched_tokens : nat) : BlockTable :=
  {| bt_block_size := block_size; bt_max_num_reqs := max_num_reqs; max_num_blocks_per_req := max_num_blocks;
     bt_max_num_batched_tokens := max_num_batched_tokens; block_table_np := fun _ => repeat 0 max_num_blocks;
     block_table_dev := fun _ => repeat 0 max_num_blocks; num_blocks_per_row := fun _ => 0%nat;
     slot_mapping_np := repeat 0 max_num_batched_tokens; slot_mapping_dev := repeat 0 max_num_batched_tokens |}.

Definition with_table (t : BlockTable) (table : nat -> list Z) (rows : nat -> nat) : BlockTable :=
  {| bt_block_size := bt_block_size t; bt_max_num_reqs := bt_max_num_reqs t; max_num_blocks_per_req := max_num_blocks_per_req t;
     bt_max_num_batched_tokens := bt_max_num_batched_tokens t; block_table_np := table; block_table_dev := block_table_dev t;
     num_blocks_per_row := rows; slot_mapping_np := slot_mapping_np t; slot_mapping_dev := slot_mapping_dev t |}.
Definition with_slots (t : BlockTable) (slots : list Z) : BlockTable :=
  {| bt_block_size := bt_block_size t; bt_max_num_reqs := bt_max_num_reqs t; max_num_blocks_per_req := max_num_blocks_per_req t;
     bt_max_num_batched_tokens := bt_max_num_batched_tokens t; block_table_np := block_table_np t; block_table_dev := block_table_dev t;
     num_blocks_per_row := num_blocks_per_row t; slot_mapping_np := slots; slot_mapping_dev := slot_mapping_dev t |}.
Definition with_device (t : BlockTable) (table : nat -> list Z) (slots : list Z) : BlockTable :=
  {| bt_block_size := bt_block_size t; bt_max_num_reqs := bt_max_num_reqs t; max_num_blocks_per_req := max_num_blocks_per_req t;
     bt_max_num_batched_tokens := bt_max_num_batched_tokens t; block_table_np := block_table_np t; block_table_dev := table;
     num_blocks_per_row := num_blocks_per_row t; slot_mapping_np := slot_mapping_np t; slot_mapping_dev := slots |}.

(** ** Rows *)

Definition append_row (t : BlockTable) (block_ids : list Z) (row_idx : nat) : res BlockTable :=
  match block_ids with
  | [] => Ok t
  | _ =>
      let num_blocks := length block_ids in
      let start := num_blocks_per_row t row_idx in
      let! row := np_slice_set (block_table_np t row_idx) start (start + num_blocks) block_ids in
      Ok (with_table t (<[row_idx := row]> (block_table_np t)) (<[row_idx := (start + num_blocks)%nat]> (num_blocks_per_row t)))
  end.

Definition add_row (t : BlockTable) (block_ids : list Z) (row_idx : nat) : res BlockTable :=
  append_row (with_table t (block_table_np t) (<[row_idx := 0%nat]> (num_blocks_per_row t))) block_ids row_idx.

Definition move_row (t : BlockTable) (src tgt : nat) : BlockTable :=
  let num_blocks := num_blocks_per_row t src in
  with_table t (<[tgt := np_copy_prefix (block_table_np t tgt) (block_table_np t src) num_blocks]> (block_table_np t))
    (<[tgt := num_blocks]> (num_blocks_per_row t)).

Definition swap_row (t : BlockTable) (src tgt : nat) : BlockTable :=
  with_table t (<[tgt := block_table_np t src]> (<[src := block_table_np t tgt]> (block_table_np t)))
    (<[tgt := num_blocks_per_row t src]> (<[src := num_blocks_per_row t tgt]> (num_blocks_per_row t))).

(** ** Slots *)

(** The slot of one token; the block numbers are int32 and so is their product. *)
Definition token_slot (t : BlockTable) (req_index position : Z) : res Z :=
  let! block_number := flat_lookup (block_table_np t) (bt_max_num_reqs t) (max_num_blocks_per_req t)
                         (req_index * Z.of_nat (max_num_blocks_per_req t) + position / bt_block_size t) in
  Ok (wrap32 (block_number * bt_block_size t) + position mod bt_block_size t).
Fixpoint token_slots (t : BlockTable) (req_indices positions : list Z) : res (list Z) :=
  match req_indices, positions with
  | r :: req_indices, p :: positions =>
      let! s := token_slot t r p in
      let! l := token_slots t req_indices positions in
      Ok (s :: l)
  | [], [] => Ok []
  | _, _ => Raise ValueError
  end.
Definition compute_slot_mapping (t : BlockTable) (req_indices positions : list Z) : res BlockTable :=
  let! slots := token_slots t req_indices positions in
  if (length req_indices <=? length (slot_mapping_np t))%nat then
    Ok (with_slots t (slots ++ drop (length req_indices) (slot_mapping_np t)))
  else Raise ValueError.

Definition commit_block_table (t : BlockTable) (num_reqs : nat) : BlockTable :=
  with_device t (fun i => if (i <? num_reqs)%nat then block_table_np t i else block_table_dev t i) (slot_mapping_dev t).
Definition commit_slot_mapping (t : BlockTable) (num_tokens : nat) : BlockTable :=
  with_device t (block_table_dev t) (np_copy_prefix (slot_mapping_dev t) (slot_mapping_np t) num_tokens).
(** [blk_table.slot_mapping[num_tokens:].fill_(-1)] *)
Definition pad_slot_mapping (t : BlockTable) (num_tokens : nat) : BlockTable :=
  with_device t (block_table_dev t) (take num_tokens (slot_mapping_dev t) ++ repeat (-1) (length (slot_mapping_dev t) - num_tokens)).
(** [clear]; the numbers of blocks stay. *)
Definition clear (t : BlockTable) : BlockTable :=
  with_device (with_table t (fun _ => repeat 0 (max_num_blocks_per_req t)) (num_blocks_per_row t))
    (fun _ => repeat 0 (max_num_blocks_per_req t)) (slot_mapping_dev t).

(** ** All groups: [MultiGroupBlockTable] *)

Definition make_tables (max_num_reqs : nat) (max_model_len : Z) (max_num_batched_tokens : nat) (block_sizes : list Z) : list BlockTable :=
  map (fun b => make_block_table b max_num_reqs (Z.to_nat (cdiv max_model_len b)) max_num_batched_tokens) block_sizes.

(** [for i, table in enumerate(self.block_tables): table.f(block_ids[i])] *)
Section groups.
Context (f : BlockTable -> list Z -> res BlockTable).
Fixpoint each_table (ts : list BlockTable) (block_ids : list (list Z)) : res (list BlockTable) :=
  match ts with
  | [] => Ok []
  | t :: ts =>
      match block_ids with
      | [] => Raise IndexError
      | ids :: block_ids =>
          let! t := f t ids in
          let! ts := each_table ts block_ids in
          Ok (t :: ts)
      end
  end.
End groups.
Definition append_rows (ts : list BlockTable) (block_ids : list (list Z)) (row_idx : nat) : res (list BlockTable) :=
  each_table (fun t ids => append_row t ids row_idx) ts block_ids.
Definition add_rows (ts : list BlockTable) (block_ids : list (list Z)) (row_idx : nat) : res (list BlockTable) :=
  each_table (fun t ids => add_row t ids row_idx) ts block_ids.
Definition move_rows (ts : list BlockTable) (src tgt : nat) : list BlockTable := map (fun t => move_row t src tgt) ts.
Definition swap_rows (ts : list BlockTable) (src tgt : nat) : list BlockTable := map (fun t => swap_row t src tgt) ts.
Definition commit_block_tables (ts : list BlockTable) (num_reqs : nat) : list BlockTable := map (fun t => commit_block_table t num_reqs) ts.
Definition commit_slot_mappings (ts : list BlockTable) (n : nat) : list BlockTable := map (fun t => commit_slot_mapping t n) ts.
Fixpoint compute_slot_mappings (ts : list BlockTable) (req_indices positions : list Z) : res (list BlockTable) :=
  match ts with
  | [] => Ok []
  | t :: ts =>
      let! t := compute_slot_mapping t req_indices positions in
      let! ts := compute_slot_mappings ts req_indices positions in
      Ok (t :: ts)
  end.

(** ** The rows of a table *)

(** The blocks of a row. *)
Definition table_row (t : BlockTable) (i : nat) : list Z := take (num_blocks_per_row t i) (block_table_np t i).
Definition table_ok (t : BlockTable) : Prop :=
  forall i, length (block_table_np t i) = max_num_blocks_per_req t /\ (num_blocks_per_row t i <= max_num_blocks_per_req t)%nat.
(** Only the rows differ: row [i] is [ids]. *)
Definition row_updated (i : nat) (t : BlockTable) (ids : list Z) (t' : BlockTable) : Prop :=
  (exists table rows, t' = with_table t table rows) /\ table_ok t' /\ table_row t' i = ids /\ forall j, j <> i -> table_row t' j = table_row t j.

Lemma with_table_id t : with_table t (block_table_np t) (num_blocks_per_row t) = t.
Proof. by destruct t. Qed.
Lemma with_table_ok t table rows :
  (forall i, length (table i) = max_num_blocks_per_req t /\ (rows i <= max_num_blocks_per_req t)%nat) -> table_ok (with_table t table rows).
Proof. done. Qed.

Lemma append_row_ok t ids i :
  table_ok t -> (num_blocks_per_row t i + length ids <= max_num_blocks_per_req t)%nat ->
  exists t', append_row t ids i = Ok t' /\ row_updated i t (table_row t i ++ ids) t'.
Proof.
  intros Ht Hn. unfold append_row. destruct (Ht i) as [Hl Hi].
  assert (Hnil : ids = [] -> exists t', Ok t = Ok t' /\ row_updated i t (table_row t i ++ ids) t').
  { intros ->. exists t. split; [done|]. split; [do 2 eexists; symmetry; apply with_table_id|]. split; [done|]. by rewrite app_nil_r. }
  destruct ids as [|x ids]; [by apply Hnil|]. rewrite slice_set_fits by (cbn in *; lia). cbn [bind]. eexists. split; [reflexivity|].
  split; [by do 2 eexists|]. split; [|split].
  - apply with_table_ok. intros j. destruct (decide (j = i)) as [->|Hne].
    + rewrite !fn_lookup_insert. split; [|done]. rewrite !length_app, length_take, length_drop. cbn in *. lia.
    + rewrite !fn_lookup_insert_ne by done. apply Ht.
  - unfold table_row at 1. cbn [with_table block_table_np num_blocks_per_row]. rewrite !fn_lookup_insert. by apply take_after_slice; rewrite Hl.
  - intros j Hj. unfold table_row. cbn [with_table block_table_np num_blocks_per_row]. by rewrite !fn_lookup_insert_ne.
Qed.
Lemma add_row_ok t ids i :
  table_ok t -> (length ids <= max_num_blocks_per_req t)%nat -> exists t', add_row t ids i = Ok t' /\ row_updated i t ids t'.
Proof.
  intros Ht Hn. unfold add_row. set (t0 := with_table _ _ _).
  assert (H0 : table_ok t0).
  { apply with_table_ok. intros j. split; [apply Ht|]. destruct (decide (j = i)) as [->|Hne]; [rewrite fn_lookup_insert; lia|].
    rewrite fn_lookup_insert_ne by done. apply Ht. }
  destruct (append_row_ok t0 ids i H0) as (t' & Ha & (tb & rs & ->) & H1 & H2 & H3).
  { cbn. rewrite fn_lookup_insert. exact Hn. }
  eexists. split; [exact Ha|]. split; [by do 2 eexists|]. split; [exact H1|]. split.
  - rewrite H2. unfold table_row at 1. cbn. by rewrite fn_lookup_insert.
  - intros j Hj. rewrite H3 by done. unfold table_row. cbn. by rewrite fn_lookup_insert_ne.
Qed.
Lemma move_row_ok t src tgt :
  table_ok t -> row_updated tgt t (table_row t src) (move_row t src tgt).
Proof.
  intros Ht. split; [by do 2 eexists|]. split; [|split].
  - apply with_table_ok. intros j. destruct (decide (j = tgt)) as [->|Hne].
    + rewrite !fn_lookup_insert. destruct (Ht src), (Ht tgt). split; [|done]. unfold np_copy_prefix. rewrite length_app, length_take, length_drop. lia.
    + rewrite !fn_lookup_insert_ne by done. apply Ht.
  - unfold table_row at 1. cbn. rewrite !fn_lookup_insert. unfold np_copy_prefix. destruct (Ht src). rewrite take_app_length'; [done|]. rewrite length_take. lia.
  - intros j Hj. unfold table_row. cbn. by rewrite !fn_lookup_insert_ne.
Qed.
Lemma swap_row_ok t i1 i2 :
  table_ok t -> table_ok (swap_row t i1 i2) /\ (exists table rows, swap_row t i1 i2 = with_table t table rows) /\
  table_row (swap_row t i1 i2) i1 = table_row t i2 /\ table_row (swap_row t i1 i2) i2 = table_row t i1 /\
  forall j, j <> i1 -> j <> i2 -> table_row (swap_row t i1 i2) j = table_row t j.
Proof.
  intros Ht. unfold swap_row. split; [|split; [by do 2 eexists|]].
  - apply with_table_ok. intros j. destruct (decide (j = i2)) as [->|H2]; [by rewrite !fn_lookup_insert|]. rewrite !(fn_lookup_insert_ne _ i2) by done.
    destruct (decide (j = i1)) as [->|H1]; [by rewrite !fn_lookup_insert|]. by rewrite !fn_lookup_insert_ne.
  - unfold table_row. cbn. rewrite !fn_lookup_insert. split; [|split; [done|]].
    + destruct (decide (i1 = i2)) as [->|Hne]; [by rewrite !fn_lookup_insert|]. by rewrite !(fn_lookup_insert_ne _ i2), !fn_lookup_insert.
    + intros j H1 H2. by rewrite !fn_lookup_insert_ne.
Qed.

Lemma each_table_ok f (P : BlockTable -> list Z -> BlockTable -> Prop) ts idss :
  Forall2 (fun t ids => exists t', f t ids = Ok t' /\ P t ids t') ts idss -> exists ts', each_table f ts idss = Ok ts' /\ Forall3 P ts idss ts'.
Proof.
  induction 1 as [|t ids ts idss (t' & Hf & HP) _ (ts' & Hts & IH)]; [exists []; by repeat constructor|].
  exists (t' :: ts'). cbn. rewrite Hf. cbn. rewrite Hts. by repeat constructor.
Qed.
Lemma updated_rows i ts idss ts' : Forall3 (row_updated i) ts idss ts' ->
  map (fun t => table_row t i) ts' = idss /\ (forall j, j <> i -> map (fun t => table_row t j) ts' = map (fun t => table_row t j) ts) /\
  Forall table_ok ts' /\ Forall2 (fun t t' => exists table rows, t' = with_table t table rows) ts ts'.
Proof.
  induction 1 as [|t ids t' ts idss ts' (H1 & H2 & H3 & H4) _ (I1 & I2 & I3 & I4)]; [by repeat constructor|]. cbn. split; [|split; [|split]].
  - by rewrite H3, I1.
  - intros j Hj. by rewrite H4, I2.
  - by constructor.
  - by constructor.
Qed.
