(* ===== verification/LogitsProcessors.v ===== *)
(** * Batch updates and logits processors

    [vllm/v1/sample/logits_processor.py]: the builder that records how the batch
    changes in a step, and the processors that keep state per row of the batch and
    replay the record. *)

From stdpp Require Import base functions gmap strings list sorting.
From Stdlib Require Import ZArith QArith Lia.
From S2P Require Import Prelude Request.
Open Scope list_scope.
Open Scope Z_scope.

(** ** The builder *)

Inductive MoveDirectionality : Set := UNIDIRECTIONAL | SWAP.

(** An added request: its row, its sampling parameters ([None] for pooling
    parameters) and its id, which stands for its list of output tokens. *)
Definition AddedRequest : Type := nat * option SamplingParams * string.
Definition MovedRequest : Type := nat * nat * MoveDirectionality.

Record BatchUpdate : Type := {
  batch_size : nat;
  upd_removed : list nat;
  upd_moved : list MovedRequest;
  upd_added : list AddedRequest }.

Record BatchUpdateBuilder : Type := {
  removed_ : list nat;
  is_removed_sorted : bool;
  moved : list MovedRequest;
  added : list AddedRequest }.
Definition new_builder : BatchUpdateBuilder := {| removed_ := []; is_removed_sorted := false; moved := []; added := [] |}.

(** [list.sort(reverse=True)] *)
Definition sort_desc (l : list nat) : list nat := rev (merge_sort Nat.le l).
Definition _ensure_removed_sorted (u : BatchUpdateBuilder) : BatchUpdateBuilder :=
  if is_removed_sorted u then u
  else {| removed_ := sort_desc (removed_ u); is_removed_sorted := true; moved := moved u; added := added u |}.

Definition removed_append (u : BatchUpdateBuilder) (index : nat) : res BatchUpdateBuilder :=
  if is_removed_sorted u then Raise RuntimeError
  else Ok {| removed_ := removed_ u ++ [index]; is_removed_sorted := false; moved := moved u; added := added u |}.

Definition has_removed (u : BatchUpdateBuilder) : bool := negb (bool_decide (removed_ u = [])).
Definition peek_removed (u : BatchUpdateBuilder) : option nat * BatchUpdateBuilder :=
  if has_removed u then let u := _ensure_removed_sorted u in (last (removed_ u), u) else (None, u).
Definition pop_removed (u : BatchUpdateBuilder) : option nat * BatchUpdateBuilder :=
  if has_removed u then
    let u := _ensure_removed_sorted u in
    (last (removed_ u), {| removed_ := removelast (removed_ u); is_removed_sorted := true; moved := moved u; added := added u |})
  else (None, u).
Definition moved_append (u : BatchUpdateBuilder) (m : MovedRequest) : BatchUpdateBuilder :=
  {| removed_ := removed_ u; is_removed_sorted := is_removed_sorted u; moved := moved u ++ [m]; added := added u |}.
Definition added_append (u : BatchUpdateBuilder) (a : AddedRequest) : BatchUpdateBuilder :=
  {| removed_ := removed_ u; is_removed_sorted := is_removed_sorted u; moved := moved u; added := added u ++ [a] |}.

Definition get_and_reset (u : BatchUpdateBuilder) (size : nat) : option BatchUpdate * BatchUpdateBuilder :=
  let no_sort := {| removed_ := removed_ u; is_removed_sorted := false; moved := moved u; added := added u |} in
  match removed_ u, moved u, added u with
  | [], [], [] => (None, no_sort)
  | _, _, _ => (Some {| batch_size := size; upd_removed := removed_ u; upd_moved := moved u; upd_added := added u |}, new_builder)
  end.

(** ** Dictionaries by row

    [LogitBiasLogitsProcessor] and [MinTokensLogitsProcessor] treat the record in
    the same way; they differ in the entry of an added request. *)
Section by_row.
Context {E : Type}.
Implicit Type d : gmap nat E.

Definition add_entry (entry : AddedRequest -> option E) d (a : AddedRequest) : gmap nat E :=
  match entry a with
  | Some e => <[a.1.1 := e]> d
  | None => delete a.1.1 d
  end.
Definition move_entry d (m : MovedRequest) : gmap nat E :=
  let '(a, b, direct) := m in
  match direct with
  | UNIDIRECTIONAL =>
      match d !! a with
      | None => delete b d
      | Some e => <[b := e]> (delete a d)
      end
  | SWAP =>
      let a_entry := d !! a in
      let b_entry := delete a d !! b in
      let d := delete b (delete a d) in
      let d := match b_entry with Some e => <[a := e]> d | None => d end in
      match a_entry with Some e => <[b := e]> d | None => d end
  end.
(** [update_state] on the dictionary. *)
Definition replay (entry : AddedRequest -> option E) d (u : BatchUpdate) : gmap nat E :=
  let d := fold_left (add_entry entry) (upd_added u) d in
  if (size d =? 0)%nat then d
  else
    let d := fold_left (fun d i => delete i d) (upd_removed u) d in
    fold_left move_entry (upd_moved u) d.
End by_row.

(** [LogitBiasLogitsProcessor.update_state]: the biases by row. *)
Definition bias_entry (a : AddedRequest) : option (list (Z * Q)) :=
  match a.1.2 with
  | Some p => match sp_logit_bias p with [] => None | lb => Some lb end
  | None => None
  end.
Definition bias_update_state (biases : gmap nat (list (Z * Q))) (u : option BatchUpdate) : gmap nat (list (Z * Q)) :=
  match u with
  | None => biases
  | Some u => replay bias_entry biases u
  end.

(** [MinTokensLogitsProcessor.update_state]: the minimum, the id whose output
    tokens are counted, and the stop tokens; [out_len] is the number of output
    tokens of a request. *)
Definition MinTokens : Type := Z * string * list Z.
Definition min_tokens_entry (out_len : string -> Z) (a : AddedRequest) : option MinTokens :=
  match a.1.2 with
  | Some p =>
      if negb (sp_min_tokens p =? 0) && (out_len a.2 <? sp_min_tokens p) then Some (sp_min_tokens p, a.2, sp_all_stop_token_ids p) else None
  | None => None
  end.
Definition min_tokens_update_state (out_len : string -> Z) (min_toks : gmap nat MinTokens) (u : option BatchUpdate) : gmap nat MinTokens :=
  let d := match u with None => min_toks | Some u => replay (min_tokens_entry out_len) min_toks u end in
  filter (fun kv => out_len kv.2.1.2 < kv.2.1.1) d.

(** [MinPLogitsProcessor.update_state]: the values by row and their count. *)
Definition q_true (q : Q) : bool := negb (Qeq_bool q 0).
Record MinPState : Type := { min_p_cpu : nat -> Q; min_p_count : Z }.
Definition min_p_of (a : AddedRequest) : Q := match a.1.2 with Some p => sp_min_p p | None => 0%Q end.
Definition min_p_add (s : MinPState) (a : AddedRequest) : MinPState :=
  let v := min_p_of a in
  {| min_p_cpu := if Qeq_bool (min_p_cpu s a.1.1) v then min_p_cpu s else <[a.1.1 := v]> (min_p_cpu s);
     min_p_count := if q_true v then min_p_count s + 1 else min_p_count s |}.
Definition min_p_remove (s : MinPState) (i : nat) : MinPState :=
  {| min_p_cpu := min_p_cpu s; min_p_count := if q_true (min_p_cpu s i) then min_p_count s - 1 else min_p_count s |}.
Definition min_p_move (s : MinPState) (m : MovedRequest) : MinPState :=
  let '(a, b, direct) := m in
  let min_p_a := min_p_cpu s a in
  let min_p_b := min_p_cpu s b in
  if Qeq_bool min_p_a min_p_b then s
  else
    let cpu := <[b := min_p_a]> (min_p_cpu s) in
    {| min_p_cpu := match direct with SWAP => <[a := min_p_b]> cpu | UNIDIRECTIONAL => cpu end; min_p_count := min_p_count s |}.
Definition min_p_update_state (s : MinPState) (u : option BatchUpdate) : MinPState :=
  match u with
  | None => s
  | Some u =>
      let s := fold_left min_p_add (upd_added u) s in
      if min_p_count s =? 0 then s
      else fold_left min_p_move (upd_moved u) (fold_left min_p_remove (upd_removed u) s)
  end.

(** [init_builtin_logitsprocs] *)
Record LogitsProcs : Type := {
  min_toks : gmap nat MinTokens;
  biases : gmap nat (list (Z * Q));
  min_p : MinPState }.
Definition new_logitsprocs : LogitsProcs := {| min_toks := ∅; biases := ∅; min_p := {| min_p_cpu := fun _ => 0%Q; min_p_count := 0 |} |}.
Definition update_logitsprocs (out_len : string -> Z) (p : LogitsProcs) (u : option BatchUpdate) : LogitsProcs :=
  {| min_toks := min_tokens_update_state out_len (min_toks p) u; biases := bias_update_state (biases p) u;
     min_p := min_p_update_state (min_p p) u |}.
