(* ===== verification/InputBatch.v ===== *)
(** * The persistent batch of the model runner

    [vllm/v1/worker/gpu_input_batch.py]: the requests of the current batch with one
    row each in a set of arrays.  Requests are added to the lowest free row, and
    [condense] moves rows down into the holes that removals leave.

    The lists of output tokens are shared with the runner's states of the requests;
    a list is identified by the id of its request. *)

From stdpp Require Import base functions gmap strings list.
From Stdlib Require Import ZArith QArith Lia.
From S2P Require Import Prelude BlockTable Request LogitsProcessors.
Open Scope list_scope.
Open Scope Z_scope.

(** ** Data *)

(** [CachedRequestState]; multi-modal inputs and M-RoPE positions are left out.
    [cr_pooling] is [requires_token_ids] of the pooling parameters, if any, the
    generator is its seed. *)
Record CachedRequestState : Type := {
  cr_req_id : string;
  cr_prompt_token_ids : list Z;
  cr_sampling_params : option SamplingParams;
  cr_pooling : option bool;
  cr_generator : option Z;
  cr_block_ids : list (list Z);
  cr_num_computed_tokens : Z;
  cr_output_token_ids : list Z;
  cr_lora_request : option Z }.
Definition cr_num_tokens (r : CachedRequestState) : nat := (length (cr_prompt_token_ids r) + length (cr_output_token_ids r))%nat.
(** [get_token_id] *)
Definition get_token_id (r : CachedRequestState) (idx : Z) : res Z :=
  let n := Z.of_nat (length (cr_prompt_token_ids r)) in
  if idx <? n then py_nth (cr_prompt_token_ids r) idx else py_nth (cr_output_token_ids r) (idx - n).

(** The arrays with a row per request. *)
Record Columns : Type := {
  token_ids_cpu : nat -> list Z;
  ib_num_tokens : nat -> nat;
  num_tokens_no_spec : nat -> nat;
  num_prompt_tokens : nat -> nat;
  num_computed_tokens_cpu : nat -> Z;
  temperature_cpu : nat -> Q;
  top_p_cpu : nat -> Q;
  top_k_cpu : nat -> Z;
  frequency_penalties_cpu : nat -> Q;
  presence_penalties_cpu : nat -> Q;
  repetition_penalties_cpu : nat -> Q;
  request_lora_mapping : nat -> Z;
  logits_processing_needs_token_ids : nat -> bool;
  allowed_token_ids_mask_cpu : option (nat -> list bool) }.

(** The sets and dictionaries by request id. *)
Record ReqSets : Type := {
  greedy_reqs : gset string;
  random_reqs : gset string;
  top_p_reqs : gset string;
  top_k_reqs : gset string;
  spec_decode_unsupported_reqs : gset string;
  frequency_penalties_reqs : gset string;
  presence_penalties_reqs : gset string;
  repetition_penalties_reqs : gset string;
  has_allowed_token_ids : gset string;
  num_logprobs : gmap string Z;
  num_prompt_logprobs : gmap string Z;
  in_progress_prompt_logprobs_cpu : gset string;
  ib_pooling_params : gset string }.

(** [SamplingMetadata]: [None] for the tensors that are not copied to the device.
    The generators, bad words and output tokens are the batch's own objects. *)
Record SamplingMetadata : Type := {
  md_temperature : option (list Q);
  md_all_greedy : bool;
  md_all_random : bool;
  md_top_p : option (list Q);
  md_top_k : option (list Z);
  md_max_num_logprobs : option Z;
  md_prompt_token_ids : option (list (list Z));
  md_penalties : option (list Q * list Q * list Q);
  md_allowed_token_ids_mask : option (list (list bool)) }.

Record InputBatch : Type := {
  is_spec_decode : bool;
  max_num_reqs : nat;
  max_model_len : nat;
  vocab_size : nat;
  _req_ids : list (option string);
  req_id_to_index : gmap string nat;
  req_output_token_ids : list (option string);
  cols : Columns;
  block_table : list BlockTable;
  sets : ReqSets;
  lora_id_to_request_ids : gmap Z (gset string);
  lora_id_to_lora_request : gset Z;
  generators : gmap nat Z;
  bad_words_token_ids : gmap nat (list (list Z));
  batch_update_builder : BatchUpdateBuilder;
  logitsprocs : LogitsProcs;
  sampling_metadata : SamplingMetadata }.

Definition num_reqs (b : InputBatch) : nat := size (req_id_to_index b).

(** ** Updates of the record *)

Definition with_rows (b : InputBatch) (ids : list (option string)) (index : gmap string nat) (outs : list (option string)) : InputBatch :=
  {| is_spec_decode := is_spec_decode b; max_num_reqs := max_num_reqs b; max_model_len := max_model_len b; vocab_size := vocab_size b;
     _req_ids := ids; req_id_to_index := index; req_output_token_ids := outs; cols := cols b; block_table := block_table b;
     sets := sets b; lora_id_to_request_ids := lora_id_to_request_ids b; lora_id_to_lora_request := lora_id_to_lora_request b;
     generators := generators b; bad_words_token_ids := bad_words_token_ids b; batch_update_builder := batch_update_builder b;
     logitsprocs := logitsprocs b; sampling_metadata := sampling_metadata b |}.
Definition with_cols (b : InputBatch) (c : Columns) (t : list BlockTable) : InputBatch :=
  {| is_spec_decode := is_spec_decode b; max_num_reqs := max_num_reqs b; max_model_len := max_model_len b; vocab_size := vocab_size b;
     _req_ids := _req_ids b; req_id_to_index := req_id_to_index b; req_output_token_ids := req_output_token_ids b; cols := c;
     block_table := t; sets := sets b; lora_id_to_request_ids := lora_id_to_request_ids b;
     lora_id_to_lora_request := lora_id_to_lora_request b; generators := generators b; bad_words_token_ids := bad_words_token_ids b;
     batch_update_builder := batch_update_builder b; logitsprocs := logitsprocs b; sampling_metadata := sampling_metadata b |}.
Definition with_sets (b : InputBatch) (s : ReqSets) : InputBatch :=
  {| is_spec_decode := is_spec_decode b; max_num_reqs := max_num_reqs b; max_model_len := max_model_len b; vocab_size := vocab_size b;
     _req_ids := _req_ids b; req_id_to_index := req_id_to_index b; req_output_token_ids := req_output_token_ids b; cols := cols b;
     block_table := block_table b; sets := s; lora_id_to_request_ids := lora_id_to_request_ids b;
     lora_id_to_lora_request := lora_id_to_lora_request b; generators := generators b; bad_words_token_ids := bad_words_token_ids b;
     batch_update_builder := batch_update_builder b; logitsprocs := logitsprocs b; sampling_metadata := sampling_metadata b |}.
Definition with_lora (b : InputBatch) (ids : gmap Z (gset string)) (reqs : gset Z) : InputBatch :=
  {| is_spec_decode := is_spec_decode b; max_num_reqs := max_num_reqs b; max_model_len := max_model_len b; vocab_size := vocab_size b;
     _req_ids := _req_ids b; req_id_to_index := req_id_to_index b; req_output_token_ids := req_output_token_ids b; cols := cols b;
     block_table := block_table b; sets := sets b; lora_id_to_request_ids := ids; lora_id_to_lora_request := reqs;
     generators := generators b; bad_words_token_ids := bad_words_token_ids b; batch_update_builder := batch_update_builder b;
     logitsprocs := logitsprocs b; sampling_metadata := sampling_metadata b |}.
Definition with_dicts (b : InputBatch) (gens : gmap nat Z) (bad : gmap nat (list (list Z))) : InputBatch :=
  {| is_spec_decode := is_spec_decode b; max_num_reqs := max_num_reqs b; max_model_len := max_model_len b; vocab_size := vocab_size b;
     _req_ids := _req_ids b; req_id_to_index := req_id_to_index b; req_output_token_ids := req_output_token_ids b; cols := cols b;
     block_table := block_table b; sets := sets b; lora_id_to_request_ids := lora_id_to_request_ids b;
     lora_id_to_lora_request := lora_id_to_lora_request b; generators := gens; bad_words_token_ids := bad;
     batch_update_builder := batch_update_builder b; logitsprocs := logitsprocs b; sampling_metadata := sampling_metadata b |}.
Definition with_builder (b : InputBatch) (u : BatchUpdateBuilder) : InputBatch :=
  {| is_spec_decode := is_spec_decode b; max_num_reqs := max_num_reqs b; max_model_len := max_model_len b; vocab_size := vocab_size b;
     _req_ids := _req_ids b; req_id_to_index := req_id_to_index b; req_output_token_ids := req_output_token_ids b; cols := cols b;
     block_table := block_table b; sets := sets b; lora_id_to_request_ids := lora_id_to_request_ids b;
     lora_id_to_lora_request := lora_id_to_lora_request b; generators := generators b; bad_words_token_ids := bad_words_token_ids b;
     batch_update_builder := u; logitsprocs := logitsprocs b; sampling_metadata := sampling_metadata b |}.
Definition with_metadata (b : InputBatch) (p : LogitsProcs) (md : SamplingMetadata) : InputBatch :=
  {| is_spec_decode := is_spec_decode b; max_num_reqs := max_num_reqs b; max_model_len := max_model_len b; vocab_size := vocab_size b;
     _req_ids := _req_ids b; req_id_to_index := req_id_to_index b; req_output_token_ids := req_output_token_ids b; cols := cols b;
     block_table := block_table b; sets := sets b; lora_id_to_request_ids := lora_id_to_request_ids b;
     lora_id_to_lora_request := lora_id_to_lora_request b; generators := generators b; bad_words_token_ids := bad_words_token_ids b;
     batch_update_builder := batch_update_builder b; logitsprocs := p; sampling_metadata := md |}.

(** [l[i] = x] on a Python list. *)
Definition list_set {A} (l : list A) (i : nat) (x : A) : res (list A) :=
  if (i <? length l)%nat then Ok (<[i := x]> l) else Raise IndexError.

(** ** Sampling metadata *)

Definition all_greedy (b : InputBatch) : bool := bool_decide (random_reqs (sets b) = ∅).
Definition all_random (b : InputBatch) : bool := bool_decide (greedy_reqs (sets b) = ∅).
Definition no_top_p (b : InputBatch) : bool := bool_decide (top_p_reqs (sets b) = ∅).
Definition no_top_k (b : InputBatch) : bool := bool_decide (top_k_reqs (sets b) = ∅).
Definition no_penalties (b : InputBatch) : bool :=
  bool_decide (presence_penalties_reqs (sets b) = ∅) && bool_decide (frequency_penalties_reqs (sets b) = ∅) &&
  bool_decide (repetition_penalties_reqs (sets b) = ∅).
Definition max_num_logprobs (b : InputBatch) : option Z :=
  match (map_to_list (num_logprobs (sets b))).*2 with [] => None | n :: l => Some (zmax_list n l) end.
Definition no_allowed_token_ids (b : InputBatch) : bool := bool_decide (has_allowed_token_ids (sets b) = ∅).

(** [a[:n]] of an array with rows. *)
Definition first_rows {A} (f : nat -> A) (n : nat) : list A := map f (seq 0 n).

(** The prompts, padded with [vocab_size]; the maximum of no rows is a [ValueError]. *)
Definition _make_prompt_token_ids_tensor (b : InputBatch) : res (list (list Z)) :=
  let n := num_reqs b in
  match first_rows (num_prompt_tokens (cols b)) n with
  | [] => Raise ValueError
  | _ =>
      let max_prompt_len := list_max (first_rows (num_prompt_tokens (cols b)) n) in
      let row i :=
        let r := take max_prompt_len (token_ids_cpu (cols b) i) in
        let k := num_prompt_tokens (cols b) i in
        take k r ++ repeat (Z.of_nat (vocab_size b)) (length r - k) in
      Ok (first_rows row n)
  end.

Definition _make_sampling_metadata (b : InputBatch) : res SamplingMetadata :=
  let n := num_reqs b in
  let c := cols b in
  let needs := negb (no_penalties b) || existsb (logits_processing_needs_token_ids c) (seq 0 n) in
  let! prompts := (if needs then let! t := _make_prompt_token_ids_tensor b in Ok (Some t) else Ok None) in
  let! mask :=
    (if no_allowed_token_ids b then Ok None
     else match allowed_token_ids_mask_cpu c with
          | Some m => Ok (Some (first_rows m n))
          | None => Raise AssertionError
          end) in
  Ok {| md_temperature := if all_greedy b then None else Some (first_rows (temperature_cpu c) n);
        md_all_greedy := all_greedy b; md_all_random := all_random b;
        md_top_p := if no_top_p b then None else Some (first_rows (top_p_cpu c) n);
        md_top_k := if no_top_k b then None else Some (first_rows (top_k_cpu c) n);
        md_max_num_logprobs := max_num_logprobs b; md_prompt_token_ids := prompts;
        md_penalties := if no_penalties b then None
                        else Some (first_rows (frequency_penalties_cpu c) n, first_rows (presence_penalties_cpu c) n,
                                   first_rows (repetition_penalties_cpu c) n);
        md_allowed_token_ids_mask := mask |}.

(** ** Adding a request *)

Definition _get_next_add_index (b : InputBatch) : nat * InputBatch :=
  let '(i, u) := pop_removed (batch_update_builder b) in
  (default (num_reqs b) i, with_builder b u).
Definition _register_add_request (b : InputBatch) (r : CachedRequestState) : res (nat * InputBatch) :=
  let '(req_index, b) := _get_next_add_index b in
  py_assert (req_index <? max_num_reqs b)%nat ;;!
  Ok (req_index, with_builder b (added_append (batch_update_builder b) (req_index, cr_sampling_params r, cr_req_id r))).

Inductive SamplingType : Set := GREEDY | RANDOM | RANDOM_SEED.
Definition sampling_type (p : SamplingParams) : SamplingType :=
  if negb (Qle_bool (1 # 100000) (sp_temperature p)) then GREEDY
  else match sp_seed p with Some _ => RANDOM_SEED | None => RANDOM end.
Definition is_greedy (p : SamplingParams) : bool := match sampling_type p with GREEDY => true | _ => false end.
(** [is_spec_decode_unsupported] of [v1/spec_decode/utils.py] *)
Definition is_spec_decode_unsupported (p : SamplingParams) : bool :=
  negb (Qeq_bool (sp_frequency_penalty p) 0) || negb (Qeq_bool (sp_presence_penalty p) 0) ||
  negb (Qeq_bool (sp_repetition_penalty p) 1) || negb (Qle_bool (sp_min_p p) (1 # 100000)) ||
  match sp_logprobs p with Some _ => true | None => false end.

(** [s.add(x)] under a condition. *)
Definition add_if (c : bool) (x : string) (s : gset string) : gset string := if c then {[x]} ∪ s else s.

Definition uses_top_k (vocab : nat) (p : SamplingParams) : bool := (0 <? sp_top_k p) && (sp_top_k p <? Z.of_nat vocab).
Definition add_to_sets (b : InputBatch) (id : string) (p : SamplingParams) (s : ReqSets) : ReqSets :=
  {| greedy_reqs := add_if (is_greedy p) id (greedy_reqs s);
     random_reqs := add_if (negb (is_greedy p)) id (random_reqs s);
     top_p_reqs := add_if (negb (Qle_bool 1 (sp_top_p p))) id (top_p_reqs s);
     top_k_reqs := add_if (uses_top_k (vocab_size b) p) id (top_k_reqs s);
     spec_decode_unsupported_reqs := add_if (is_spec_decode b && is_spec_decode_unsupported p) id (spec_decode_unsupported_reqs s);
     frequency_penalties_reqs := add_if (negb (Qeq_bool (sp_frequency_penalty p) 0)) id (frequency_penalties_reqs s);
     presence_penalties_reqs := add_if (negb (Qeq_bool (sp_presence_penalty p) 0)) id (presence_penalties_reqs s);
     repetition_penalties_reqs := add_if (negb (Qeq_bool (sp_repetition_penalty p) 1)) id (repetition_penalties_reqs s);
     has_allowed_token_ids := add_if (negb (bool_decide (sp_allowed_token_ids p = []))) id (has_allowed_token_ids s);
     num_logprobs := match sp_logprobs p with
                     | Some n => <[id := if n =? -1 then Z.of_nat (vocab_size b) else n]> (num_logprobs s)
                     | None => num_logprobs s
                     end;
     num_prompt_logprobs := match prompt_logprobs p with Some n => <[id := n]> (num_prompt_logprobs s) | None => num_prompt_logprobs s end;
     in_progress_prompt_logprobs_cpu := in_progress_prompt_logprobs_cpu s;
     ib_pooling_params := ib_pooling_params s |}.

(** [mask[row][ids] = False] with indices from either end. *)
Definition py_list_set {A} (l : list A) (i : Z) (x : A) : res (list A) :=
  let i := if i <? 0 then i + Z.of_nat (length l) else i in
  if i <? 0 then Raise IndexError else list_set l (Z.to_nat i) x.
Fixpoint allow_ids (row : list bool) (ids : list Z) : res (list bool) :=
  match ids with
  | [] => Ok row
  | i :: ids => let! row := py_list_set row i false in allow_ids row ids
  end.
Definition add_to_mask (b : InputBatch) (i : nat) (p : SamplingParams) : res (option (nat -> list bool)) :=
  match sp_allowed_token_ids p with
  | [] => Ok (allowed_token_ids_mask_cpu (cols b))
  | ids =>
      let mask := default (fun _ => repeat false (vocab_size b)) (allowed_token_ids_mask_cpu (cols b)) in
      let! row := allow_ids (repeat true (vocab_size b)) ids in
      Ok (Some (<[i := row]> mask))
  end.

(** The prompt and the output are copied to the row, with the counters. *)
Definition copy_request (c : Columns) (i : nat) (r : CachedRequestState) : res Columns :=
  let n := length (cr_prompt_token_ids r) in
  let! row := np_slice_set (token_ids_cpu c i) 0 n (cr_prompt_token_ids r) in
  let! row := np_slice_set row n (n + length (cr_output_token_ids r)) (cr_output_token_ids r) in
  Ok {| token_ids_cpu := <[i := row]> (token_ids_cpu c);
        ib_num_tokens := <[i := cr_num_tokens r]> (ib_num_tokens c);
        num_tokens_no_spec := <[i := cr_num_tokens r]> (num_tokens_no_spec c);
        num_prompt_tokens := <[i := n]> (num_prompt_tokens c);
        num_computed_tokens_cpu := <[i := cr_num_computed_tokens r]> (num_computed_tokens_cpu c);
        temperature_cpu := temperature_cpu c; top_p_cpu := top_p_cpu c; top_k_cpu := top_k_cpu c;
        frequency_penalties_cpu := frequency_penalties_cpu c; presence_penalties_cpu := presence_penalties_cpu c;
        repetition_penalties_cpu := repetition_penalties_cpu c; request_lora_mapping := request_lora_mapping c;
        logits_processing_needs_token_ids := logits_processing_needs_token_ids c;
        allowed_token_ids_mask_cpu := allowed_token_ids_mask_cpu c |}.

(** The sampling parameters of the row. *)
Definition copy_sampling (vocab : nat) (c : Columns) (i : nat) (p : SamplingParams) (mask : option (nat -> list bool)) : Columns :=
  {| token_ids_cpu := token_ids_cpu c; ib_num_tokens := ib_num_tokens c; num_tokens_no_spec := num_tokens_no_spec c;
     num_prompt_tokens := num_prompt_tokens c; num_computed_tokens_cpu := num_computed_tokens_cpu c;
     temperature_cpu := <[i := if is_greedy p then (-1)%Q else sp_temperature p]> (temperature_cpu c);
     top_p_cpu := <[i := sp_top_p p]> (top_p_cpu c);
     top_k_cpu := <[i := if uses_top_k vocab p then sp_top_k p else Z.of_nat vocab]> (top_k_cpu c);
     frequency_penalties_cpu := <[i := sp_frequency_penalty p]> (frequency_penalties_cpu c);
     presence_penalties_cpu := <[i := sp_presence_penalty p]> (presence_penalties_cpu c);
     repetition_penalties_cpu := <[i := sp_repetition_penalty p]> (repetition_penalties_cpu c);
     request_lora_mapping := request_lora_mapping c;
     logits_processing_needs_token_ids := logits_processing_needs_token_ids c; allowed_token_ids_mask_cpu := mask |}.

Definition set_needs_token_ids (c : Columns) (i : nat) (v : bool) : Columns :=
  {| token_ids_cpu := token_ids_cpu c; ib_num_tokens := ib_num_tokens c; num_tokens_no_spec := num_tokens_no_spec c;
     num_prompt_tokens := num_prompt_tokens c; num_computed_tokens_cpu := num_computed_tokens_cpu c;
     temperature_cpu := temperature_cpu c; top_p_cpu := top_p_cpu c; top_k_cpu := top_k_cpu c;
     frequency_penalties_cpu := frequency_penalties_cpu c; presence_penalties_cpu := presence_penalties_cpu c;
     repetition_penalties_cpu := repetition_penalties_cpu c; request_lora_mapping := request_lora_mapping c;
     logits_processing_needs_token_ids := <[i := v]> (logits_processing_needs_token_ids c);
     allowed_token_ids_mask_cpu := allowed_token_ids_mask_cpu c |}.
Definition set_lora_row (c : Columns) (i : nat) (lora_id : Z) : Columns :=
  {| token_ids_cpu := token_ids_cpu c; ib_num_tokens := ib_num_tokens c; num_tokens_no_spec := num_tokens_no_spec c;
     num_prompt_tokens := num_prompt_tokens c; num_computed_tokens_cpu := num_computed_tokens_cpu c;
     temperature_cpu := temperature_cpu c; top_p_cpu := top_p_cpu c; top_k_cpu := top_k_cpu c;
     frequency_penalties_cpu := frequency_penalties_cpu c; presence_penalties_cpu := presence_penalties_cpu c;
     repetition_penalties_cpu := repetition_penalties_cpu c; request_lora_mapping := <[i := lora_id]> (request_lora_mapping c);
     logits_processing_needs_token_ids := logits_processing_needs_token_ids c;
     allowed_token_ids_mask_cpu := allowed_token_ids_mask_cpu c |}.

(** The sampling branch of [add_request]. *)
Definition add_sampling (b : InputBatch) (i : nat) (r : CachedRequestState) (p : SamplingParams) : res InputBatch :=
  let! mask := add_to_mask b i p in
  let b := with_sets b (add_to_sets b (cr_req_id r) p (sets b)) in
  let b := with_cols b (copy_sampling (vocab_size b) (cols b) i p mask) (block_table b) in
  Ok (with_dicts b (match cr_generator r with Some g => <[i := g]> (generators b) | None => generators b end)
        (match sp_bad_words_token_ids p with [] => bad_words_token_ids b | w => <[i := w]> (bad_words_token_ids b) end)).
Definition add_pooling (b : InputBatch) (i : nat) (r : CachedRequestState) (requires_token_ids : bool) : InputBatch :=
  let s := sets b in
  let b := with_sets b
    {| greedy_reqs := greedy_reqs s; random_reqs := random_reqs s; top_p_reqs := top_p_reqs s; top_k_reqs := top_k_reqs s;
       spec_decode_unsupported_reqs := spec_decode_unsupported_reqs s; frequency_penalties_reqs := frequency_penalties_reqs s;
       presence_penalties_reqs := presence_penalties_reqs s; repetition_penalties_reqs := repetition_penalties_reqs s;
       has_allowed_token_ids := has_allowed_token_ids s; num_logprobs := num_logprobs s; num_prompt_logprobs := num_prompt_logprobs s;
       in_progress_prompt_logprobs_cpu := in_progress_prompt_logprobs_cpu s; ib_pooling_params := {[cr_req_id r]} ∪ ib_pooling_params s |} in
  with_cols b (set_needs_token_ids (cols b) i requires_token_ids) (block_table b).

(** The LoRA part of [add_request]. *)
Definition add_lora (b : InputBatch) (i : nat) (r : CachedRequestState) : InputBatch :=
  match cr_lora_request r with
  | Some lora_id =>
      let ids := default ∅ (lora_id_to_request_ids b !! lora_id) in
      let b := with_lora b (<[lora_id := {[cr_req_id r]} ∪ ids]> (lora_id_to_request_ids b)) ({[lora_id]} ∪ lora_id_to_lora_request b) in
      with_cols b (set_lora_row (cols b) i lora_id) (block_table b)
  | None => with_cols b (set_lora_row (cols b) i 0) (block_table b)
  end.

Definition add_request (b : InputBatch) (r : CachedRequestState) : res (nat * InputBatch) :=
  let! '(req_index, b) := _register_add_request b r in
  let req_id := cr_req_id r in
  let! '(ids, outs) :=
    (if (req_index =? length (_req_ids b))%nat then Ok (_req_ids b ++ [Some req_id], req_output_token_ids b ++ [Some req_id])
     else let! ids := list_set (_req_ids b) req_index (Some req_id) in
          let! outs := list_set (req_output_token_ids b) req_index (Some req_id) in
          Ok (ids, outs)) in
  let b := with_rows b ids (<[req_id := req_index]> (req_id_to_index b)) outs in
  let! c := copy_request (cols b) req_index r in
  let! t := add_rows (block_table b) (cr_block_ids r) req_index in
  let b := with_cols b c t in
  let! b :=
    match cr_sampling_params r, cr_pooling r with
    | Some p, _ => add_sampling b req_index r p
    | None, Some needs => Ok (add_pooling b req_index r needs)
    | None, None => Raise NotImplementedError
    end in
  Ok (req_index, add_lora b req_index r).

(** ** Removing a request *)

Definition remove_from_sets (s : ReqSets) (id : string) : ReqSets :=
  {| greedy_reqs := greedy_reqs s ∖ {[id]}; random_reqs := random_reqs s ∖ {[id]}; top_p_reqs := top_p_reqs s ∖ {[id]};
     top_k_reqs := top_k_reqs s ∖ {[id]}; spec_decode_unsupported_reqs := spec_decode_unsupported_reqs s ∖ {[id]};
     frequency_penalties_reqs := frequency_penalties_reqs s ∖ {[id]}; presence_penalties_reqs := presence_penalties_reqs s ∖ {[id]};
     repetition_penalties_reqs := repetition_penalties_reqs s ∖ {[id]}; has_allowed_token_ids := has_allowed_token_ids s ∖ {[id]};
     num_logprobs := delete id (num_logprobs s); num_prompt_logprobs := delete id (num_prompt_logprobs s);
     in_progress_prompt_logprobs_cpu := in_progress_prompt_logprobs_cpu s ∖ {[id]}; ib_pooling_params := ib_pooling_params s ∖ {[id]} |}.

(** The LoRA part of [remove_request]. *)
Definition remove_lora (b : InputBatch) (i : nat) (id : string) : res InputBatch :=
  let lora_id := request_lora_mapping (cols b) i in
  if lora_id =? 0 then Ok b
  else
    let! ids := of_option KeyError (lora_id_to_request_ids b !! lora_id) in
    let ids := ids ∖ {[id]} in
    let! b :=
      (if bool_decide (ids = ∅) then
         if bool_decide (lora_id ∈ lora_id_to_lora_request b) then
           Ok (with_lora b (delete lora_id (lora_id_to_request_ids b)) (lora_id_to_lora_request b ∖ {[lora_id]}))
         else Raise KeyError
       else Ok (with_lora b (<[lora_id := ids]> (lora_id_to_request_ids b)) (lora_id_to_lora_request b))) in
    Ok (with_cols b (set_lora_row (cols b) i 0) (block_table b)).

Definition clear_mask_row (c : Columns) (vocab : nat) (i : nat) : Columns :=
  {| token_ids_cpu := token_ids_cpu c; ib_num_tokens := ib_num_tokens c; num_tokens_no_spec := num_tokens_no_spec c;
     num_prompt_tokens := num_prompt_tokens c; num_computed_tokens_cpu := num_computed_tokens_cpu c;
     temperature_cpu := temperature_cpu c; top_p_cpu := top_p_cpu c; top_k_cpu := top_k_cpu c;
     frequency_penalties_cpu := frequency_penalties_cpu c; presence_penalties_cpu := presence_penalties_cpu c;
     repetition_penalties_cpu := repetition_penalties_cpu c; request_lora_mapping := request_lora_mapping c;
     logits_processing_needs_token_ids := logits_processing_needs_token_ids c;
     allowed_token_ids_mask_cpu :=
       match allowed_token_ids_mask_cpu c with Some m => Some (<[i := repeat false vocab]> m) | None => None end |}.

Definition remove_request (b : InputBatch) (id : string) : res (option nat * InputBatch) :=
  match req_id_to_index b !! id with
  | None => Ok (None, b)
  | Some i =>
      let! u := removed_append (batch_update_builder b) i in
      let b := with_builder b u in
      let! ids := list_set (_req_ids b) i None in
      let! outs := list_set (req_output_token_ids b) i None in
      let b := with_rows b ids (delete id (req_id_to_index b)) outs in
      let b := with_sets b (remove_from_sets (sets b) id) in
      let b := with_dicts b (delete i (generators b)) (bad_words_token_ids b) in
      let! b := remove_lora b i id in
      let b := with_cols b (clear_mask_row (cols b) (vocab_size b) i) (block_table b) in
      Ok (Some i, with_dicts b (generators b) (delete i (bad_words_token_ids b)))
  end.

(** ** Exchanging two rows *)

Definition fswap {A} (f : nat -> A) (i1 i2 : nat) : nat -> A := <[i2 := f i1]> (<[i1 := f i2]> f).
(** [swap_dict_values] of [vllm/utils] *)
Definition swap_dict_values {A} (d : gmap nat A) (k1 k2 : nat) : gmap nat A :=
  let v1 := d !! k1 in
  let v2 := d !! k2 in
  let d := match v1 with Some v => <[k2 := v]> d | None => delete k2 d end in
  match v2 with Some v => <[k1 := v]> d | None => delete k1 d end.
(** The parallel assignment of two rows of a tensor reads views, so that the
    second assignment sees the result of the first. *)
Definition mask_swap (m : nat -> list bool) (i1 i2 : nat) : nat -> list bool :=
  let m := <[i1 := m i2]> m in
  <[i2 := m i1]> m.

Definition swap_columns (c : Columns) (i1 i2 : nat) : Columns :=
  {| token_ids_cpu := fswap (token_ids_cpu c) i1 i2; ib_num_tokens := fswap (ib_num_tokens c) i1 i2;
     num_tokens_no_spec := fswap (num_tokens_no_spec c) i1 i2; num_prompt_tokens := fswap (num_prompt_tokens c) i1 i2;
     num_computed_tokens_cpu := fswap (num_computed_tokens_cpu c) i1 i2; temperature_cpu := fswap (temperature_cpu c) i1 i2;
     top_p_cpu := fswap (top_p_cpu c) i1 i2; top_k_cpu := fswap (top_k_cpu c) i1 i2;
     frequency_penalties_cpu := fswap (frequency_penalties_cpu c) i1 i2;
     presence_penalties_cpu := fswap (presence_penalties_cpu c) i1 i2;
     repetition_penalties_cpu := fswap (repetition_penalties_cpu c) i1 i2;
     request_lora_mapping := fswap (request_lora_mapping c) i1 i2;
     logits_processing_needs_token_ids := logits_processing_needs_token_ids c;
     allowed_token_ids_mask_cpu := match allowed_token_ids_mask_cpu c with Some m => Some (mask_swap m i1 i2) | None => None end |}.

Definition swap_states (b : InputBatch) (i1 i2 : nat) : res InputBatch :=
  let b := with_builder b (moved_append (batch_update_builder b) (i1, i2, SWAP)) in
  let! old_id_i1 := of_option IndexError (_req_ids b !! i1) in
  let! old_id_i2 := of_option IndexError (_req_ids b !! i2) in
  let! out_i1 := of_option IndexError (req_output_token_ids b !! i1) in
  let! out_i2 := of_option IndexError (req_output_token_ids b !! i2) in
  let ids := <[i2 := old_id_i1]> (<[i1 := old_id_i2]> (_req_ids b)) in
  let outs := <[i2 := out_i1]> (<[i1 := out_i2]> (req_output_token_ids b)) in
  match old_id_i1, old_id_i2 with
  | Some id1, Some id2 =>
      let! x1 := of_option KeyError (req_id_to_index b !! id1) in
      let! x2 := of_option KeyError (req_id_to_index b !! id2) in
      let b := with_rows b ids (<[id2 := x1]> (<[id1 := x2]> (req_id_to_index b))) outs in
      let b := with_cols b (swap_columns (cols b) i1 i2) (swap_rows (block_table b) i1 i2) in
      Ok (with_dicts b (swap_dict_values (generators b) i1 i2) (swap_dict_values (bad_words_token_ids b) i1 i2))
  | _, _ => Raise AssertionError
  end.

(** ** Condensing *)

Definition move_columns (c : Columns) (src tgt : nat) : Columns :=
  let n := ib_num_tokens c src in
  {| token_ids_cpu := <[tgt := np_copy_prefix (token_ids_cpu c tgt) (token_ids_cpu c src) n]> (token_ids_cpu c);
     ib_num_tokens := <[tgt := n]> (ib_num_tokens c);
     num_tokens_no_spec := <[tgt := num_tokens_no_spec c src]> (num_tokens_no_spec c);
     num_prompt_tokens := <[tgt := num_prompt_tokens c src]> (num_prompt_tokens c);
     num_computed_tokens_cpu := <[tgt := num_computed_tokens_cpu c src]> (num_computed_tokens_cpu c);
     temperature_cpu := <[tgt := temperature_cpu c src]> (temperature_cpu c);
     top_p_cpu := <[tgt := top_p_cpu c src]> (top_p_cpu c);
     top_k_cpu := <[tgt := top_k_cpu c src]> (top_k_cpu c);
     frequency_penalties_cpu := <[tgt := frequency_penalties_cpu c src]> (frequency_penalties_cpu c);
     presence_penalties_cpu := <[tgt := presence_penalties_cpu c src]> (presence_penalties_cpu c);
     repetition_penalties_cpu := <[tgt := repetition_penalties_cpu c src]> (repetition_penalties_cpu c);
     request_lora_mapping := <[tgt := request_lora_mapping c src]> (request_lora_mapping c);
     logits_processing_needs_token_ids := logits_processing_needs_token_ids c;
     allowed_token_ids_mask_cpu := match allowed_token_ids_mask_cpu c with Some m => Some (<[tgt := m src]> m) | None => None end |}.

(** [d.pop(src, None)], and the value, if any, under [tgt]. *)
Definition move_key {A} (d : gmap nat A) (src tgt : nat) : gmap nat A :=
  match d !! src with Some v => <[tgt := v]> (delete src d) | None => d end.

(** The body of the loop: the request of row [src] moves to row [tgt]. *)
Definition move_state (b : InputBatch) (src tgt : nat) : res InputBatch :=
  let b := with_builder b (moved_append (batch_update_builder b) (src, tgt, UNIDIRECTIONAL)) in
  let! req_id := of_option IndexError (_req_ids b !! src) in
  let! out := of_option IndexError (req_output_token_ids b !! src) in
  let! id := match req_id with Some id => Ok id | None => Raise AssertionError end in
  let! ids := list_set (_req_ids b) tgt (Some id) in
  let! ids := list_set ids src None in
  let! outs := list_set (req_output_token_ids b) tgt out in
  let! outs := list_set outs src None in
  let b := with_rows b ids (<[id := tgt]> (req_id_to_index b)) outs in
  let b := with_cols b (move_columns (cols b) src tgt) (move_rows (block_table b) src tgt) in
  Ok (with_dicts b (move_key (generators b) src tgt) (move_key (bad_words_token_ids b) src tgt)).

(** [while last_req_index in empty_req_indices: last_req_index -= 1] *)
Fixpoint skip_empty (fuel : nat) (empty : list nat) (last_req_index : Z) : Z :=
  match fuel with
  | O => last_req_index
  | S fuel =>
      if bool_decide (0 <= last_req_index /\ Z.to_nat last_req_index ∈ empty) then skip_empty fuel empty (last_req_index - 1)
      else last_req_index
  end.

(** Every round takes one of the empty indices. *)
Fixpoint condense_loop (fuel : nat) (b : InputBatch) (last_req_index : Z) : res InputBatch :=
  match fuel with
  | O => Ok b
  | S fuel =>
      let empty := removed_ (batch_update_builder b) in
      match empty with
      | [] => Ok b
      | _ =>
          let last_req_index := skip_empty (length empty) empty last_req_index in
          match peek_removed (batch_update_builder b) with
          | (None, _) => Raise AssertionError
          | (Some empty_index, u) =>
              let b := with_builder b u in
              if last_req_index <=? Z.of_nat empty_index then Ok b
              else
                let b := with_builder b (pop_removed (batch_update_builder b)).2 in
                let! b := move_state b (Z.to_nat last_req_index) empty_index in
                condense_loop fuel b (last_req_index - 1)
          end
      end
  end.

Definition condense (b : InputBatch) : res InputBatch :=
  let b := with_builder b (_ensure_removed_sorted (batch_update_builder b)) in
  match removed_ (batch_update_builder b) with
  | [] => Ok b
  | empty =>
      let n := num_reqs b in
      if (n =? 0)%nat then Ok (with_rows b [] (req_id_to_index b) [])
      else
        let! b := condense_loop (length empty) b (Z.of_nat n + Z.of_nat (length empty) - 1) in
        Ok (with_rows b (take (num_reqs b) (_req_ids b)) (req_id_to_index b) (take (num_reqs b) (req_output_token_ids b)))
  end.

(** [refresh_metadata]; [out_len] is the number of output tokens of a request. *)
Definition refresh_metadata (out_len : string -> Z) (b : InputBatch) : res InputBatch :=
  let '(upd, u) := get_and_reset (batch_update_builder b) (num_reqs b) in
  let b := with_builder b u in
  let p := update_logitsprocs out_len (logitsprocs b) upd in
  match upd with
  | Some _ => let! md := _make_sampling_metadata b in Ok (with_metadata b p md)
  | None => Ok (with_metadata b p (sampling_metadata b))
  end.

(** [make_lora_inputs] *)
Definition make_lora_inputs (b : InputBatch) (num_scheduled_tokens : list Z) : list Z * list Z * gset Z :=
  let m := first_rows (request_lora_mapping (cols b)) (num_reqs b) in
  (m, np_repeat m num_scheduled_tokens, lora_id_to_lora_request b).

(** [InputBatch.__init__] *)
Definition empty_sets : ReqSets :=
  {| greedy_reqs := ∅; random_reqs := ∅; top_p_reqs := ∅; top_k_reqs := ∅; spec_decode_unsupported_reqs := ∅; frequency_penalties_reqs := ∅;
     presence_penalties_reqs := ∅; repetition_penalties_reqs := ∅; has_allowed_token_ids := ∅; num_logprobs := ∅; num_prompt_logprobs := ∅;
     in_progress_prompt_logprobs_cpu := ∅; ib_pooling_params := ∅ |}.
Definition zero_columns (max_model_len : nat) : Columns :=
  {| token_ids_cpu := fun _ => repeat 0 max_model_len; ib_num_tokens := fun _ => 0%nat; num_tokens_no_spec := fun _ => 0%nat;
     num_prompt_tokens := fun _ => 0%nat; num_computed_tokens_cpu := fun _ => 0; temperature_cpu := fun _ => 0%Q; top_p_cpu := fun _ => 0%Q;
     top_k_cpu := fun _ => 0; frequency_penalties_cpu := fun _ => 0%Q; presence_penalties_cpu := fun _ => 0%Q;
     repetition_penalties_cpu := fun _ => 0%Q; request_lora_mapping := fun _ => 0; logits_processing_needs_token_ids := fun _ => false;
     allowed_token_ids_mask_cpu := None |}.
Definition empty_metadata : SamplingMetadata :=
  {| md_temperature := None; md_all_greedy := true; md_all_random := true; md_top_p := None; md_top_k := None; md_max_num_logprobs := None;
     md_prompt_token_ids := None; md_penalties := None; md_allowed_token_ids_mask := None |}.
Definition make_input_batch (max_num_reqs max_model_len max_num_batched_tokens vocab_size : nat) (block_sizes : list Z) (is_spec_decode : bool) :
    InputBatch :=
  {| is_spec_decode := is_spec_decode; max_num_reqs := max_num_reqs; max_model_len := max_model_len; vocab_size := vocab_size;
     _req_ids := []; req_id_to_index := ∅; req_output_token_ids := []; cols := zero_columns max_model_len;
     block_table := make_tables max_num_reqs (Z.of_nat max_model_len) max_num_batched_tokens block_sizes; sets := empty_sets;
     lora_id_to_request_ids := ∅; lora_id_to_lora_request := ∅; generators := ∅; bad_words_token_ids := ∅;
     batch_update_builder := new_builder; logitsprocs := new_logitsprocs; sampling_metadata := empty_metadata |}.
Lemma make_input_batch_metadata n l k v bs sd :
  _make_sampling_metadata (make_input_batch n l k v bs sd) = Ok (sampling_metadata (make_input_batch n l k v bs sd)).
Proof. reflexivity. Qed.
