(* ===== verification/InputBatchOk.v ===== *)
(** * The persistent batch refines a dictionary of requests

    [contents] reads the batch as a map from request ids to what the arrays say of
    the request.  Adding a request inserts, removing deletes, and exchanging rows
    or condensing changes nothing: whatever moves between the arrays, every
    request keeps its own data.  Two arrays do not obey this and are kept out of
    [contents]: the mask of allowed tokens, read by [masks], and the flags of the
    pooling requests that need the prompt, [needs_prompt]. *)

From stdpp Require Import base functions gmap strings list sorting.
From Stdlib Require Import ZArith QArith Lia.
From S2P Require Import Prelude BlockTable Request LogitsProcessors InputBatch.
Open Scope list_scope.
Open Scope Z_scope.

(** ** What the batch says of a request *)

Record SamplingRow : Type := {
  rw_temperature : Q; rw_top_p : Q; rw_top_k : Z; rw_frequency : Q; rw_presence : Q; rw_repetition : Q }.
(** The sets that an id is in. *)
Record Flags : Type := {
  fl_greedy : bool; fl_random : bool; fl_top_p : bool; fl_top_k : bool; fl_no_spec : bool; fl_frequency : bool; fl_presence : bool;
  fl_repetition : bool; fl_allowed : bool; fl_logprobs : option Z; fl_prompt_logprobs : option Z; fl_pooling : bool }.
Record Row : Type := {
  rw_tokens : list Z;
  rw_num_tokens : nat;
  rw_num_tokens_no_spec : nat;
  rw_num_prompt_tokens : nat;
  rw_num_computed : Z;
  rw_blocks : list (list Z);
  rw_lora : Z;
  rw_generator : option Z;
  rw_bad_words : option (list (list Z));
  rw_sampling : option SamplingRow;
  rw_flags : Flags }.

Definition flags (s : ReqSets) (id : string) : Flags :=
  {| fl_greedy := bool_decide (id ∈ greedy_reqs s); fl_random := bool_decide (id ∈ random_reqs s); fl_top_p := bool_decide (id ∈ top_p_reqs s);
     fl_top_k := bool_decide (id ∈ top_k_reqs s); fl_no_spec := bool_decide (id ∈ spec_decode_unsupported_reqs s);
     fl_frequency := bool_decide (id ∈ frequency_penalties_reqs s); fl_presence := bool_decide (id ∈ presence_penalties_reqs s);
     fl_repetition := bool_decide (id ∈ repetition_penalties_reqs s); fl_allowed := bool_decide (id ∈ has_allowed_token_ids s);
     fl_logprobs := num_logprobs s !! id; fl_prompt_logprobs := num_prompt_logprobs s !! id;
     fl_pooling := bool_decide (id ∈ ib_pooling_params s) |}.
Definition no_flags : Flags :=
  {| fl_greedy := false; fl_random := false; fl_top_p := false; fl_top_k := false; fl_no_spec := false; fl_frequency := false;
     fl_presence := false; fl_repetition := false; fl_allowed := false; fl_logprobs := None; fl_prompt_logprobs := None; fl_pooling := false |}.
Definition sampling_row (c : Columns) (i : nat) : SamplingRow :=
  {| rw_temperature := temperature_cpu c i; rw_top_p := top_p_cpu c i; rw_top_k := top_k_cpu c i;
     rw_frequency := frequency_penalties_cpu c i; rw_presence := presence_penalties_cpu c i; rw_repetition := repetition_penalties_cpu c i |}.
Definition row (b : InputBatch) (id : string) (i : nat) : Row :=
  let c := cols b in
  {| rw_tokens := take (ib_num_tokens c i) (token_ids_cpu c i); rw_num_tokens := ib_num_tokens c i;
     rw_num_tokens_no_spec := num_tokens_no_spec c i; rw_num_prompt_tokens := num_prompt_tokens c i;
     rw_num_computed := num_computed_tokens_cpu c i; rw_blocks := map (fun t => table_row t i) (block_table b);
     rw_lora := request_lora_mapping c i; rw_generator := generators b !! i; rw_bad_words := bad_words_token_ids b !! i;
     rw_sampling := if bool_decide (id ∈ ib_pooling_params (sets b)) then None else Some (sampling_row c i);
     rw_flags := flags (sets b) id |}.
(** What the arrays say of every request, except [allowed_token_ids_mask_cpu_tensor]
    and [logits_processing_needs_token_ids]. *)
Definition contents (b : InputBatch) : gmap string Row := map_imap (fun id i => Some (row b id i)) (req_id_to_index b).

(** *** The two arrays that do not follow the requests *)

(** The mask of every request; a mask that was never allocated forbids nothing. *)
Definition mask_row (b : InputBatch) (i : nat) : list bool :=
  match allowed_token_ids_mask_cpu (cols b) with Some m => m i | None => repeat false (vocab_size b) end.
Definition masks (b : InputBatch) : gmap string (list bool) := mask_row b <$> req_id_to_index b.
Definition needs_prompt (b : InputBatch) : nat -> bool := logits_processing_needs_token_ids (cols b).
(** The mask that the parameters ask for: [true] forbids a token. *)
Definition own_mask (vocab : nat) (ids : list Z) : list bool := map (fun j => negb (bool_decide (Z.of_nat j ∈ ids))) (seq 0 vocab).
Definition wanted_mask (b : InputBatch) (r : CachedRequestState) : option (list bool) :=
  match cr_sampling_params r with
  | Some p => match sp_allowed_token_ids p with [] => None | ids => Some (own_mask (vocab_size b) ids) end
  | None => None
  end.
Definition same_masks (b b' : InputBatch) : Prop := masks b' = masks b /\ needs_prompt b' = needs_prompt b.
Lemma same_masks_trans b1 b2 b3 : same_masks b1 b2 -> same_masks b2 b3 -> same_masks b1 b3.
Proof. unfold same_masks. intuition congruence. Qed.
Lemma masks_lookup b id : masks b !! id = mask_row b <$> req_id_to_index b !! id.
Proof. apply lookup_fmap. Qed.

Lemma row_is b id i (w : Row) :
  take (ib_num_tokens (cols b) i) (token_ids_cpu (cols b) i) = rw_tokens w -> ib_num_tokens (cols b) i = rw_num_tokens w ->
  num_tokens_no_spec (cols b) i = rw_num_tokens_no_spec w -> num_prompt_tokens (cols b) i = rw_num_prompt_tokens w ->
  num_computed_tokens_cpu (cols b) i = rw_num_computed w -> map (fun t => table_row t i) (block_table b) = rw_blocks w ->
  request_lora_mapping (cols b) i = rw_lora w -> generators b !! i = rw_generator w -> bad_words_token_ids b !! i = rw_bad_words w ->
  (if bool_decide (id ∈ ib_pooling_params (sets b)) then None else Some (sampling_row (cols b) i)) = rw_sampling w ->
  flags (sets b) id = rw_flags w -> row b id i = w.
Proof. destruct w. cbn. intros. subst. done. Qed.

Lemma contents_lookup b id : contents b !! id = (fun i => row b id i) <$> req_id_to_index b !! id.
Proof. unfold contents. rewrite map_lookup_imap. by destruct (req_id_to_index b !! id). Qed.
Lemma contents_ext b b' :
  (forall id i', req_id_to_index b' !! id = Some i' -> exists i, req_id_to_index b !! id = Some i /\ row b' id i' = row b id i) ->
  (forall id, req_id_to_index b' !! id = None -> req_id_to_index b !! id = None) -> contents b' = contents b.
Proof.
  intros H1 H2. apply map_eq. intros id. rewrite !contents_lookup. destruct (req_id_to_index b' !! id) as [i'|] eqn:E.
  - destruct (H1 id i' E) as (i & -> & Hr). cbn. by rewrite Hr.
  - by rewrite (H2 id E).
Qed.

(** ** The removed rows *)

Definition builder_ok (u : BatchUpdateBuilder) : Prop :=
  NoDup (removed_ u) /\ (is_removed_sorted u = true -> StronglySorted (fun x y => y <= x)%nat (removed_ u)).

Lemma sort_desc_perm l : sort_desc l ≡ₚ l.
Proof. unfold sort_desc. etransitivity; [symmetry; apply Permutation_rev|]. apply merge_sort_Permutation. Qed.
Lemma sorted_snoc (R : nat -> nat -> Prop) l x : StronglySorted R l -> Forall (fun y => R y x) l -> StronglySorted R (l ++ [x]).
Proof.
  induction 1 as [|y l Hl IH Hy]; cbn; [by repeat constructor|]. intros [H1 H2]%Forall_cons. constructor; [by apply IH|].
  apply Forall_app. split; [done|by constructor].
Qed.
Lemma sorted_rev l : StronglySorted Nat.le l -> StronglySorted (fun x y => y <= x)%nat (rev l).
Proof.
  induction 1 as [|x l Hl IH Hx]; cbn; [constructor|]. apply sorted_snoc; [done|]. rewrite Forall_forall in Hx |- *.
  intros y Hy. apply Hx. by rewrite list_elem_of_In, in_rev, <-list_elem_of_In.
Qed.
Lemma ensure_sorted_ok u :
  builder_ok u -> builder_ok (_ensure_removed_sorted u) /\ is_removed_sorted (_ensure_removed_sorted u) = true /\
  removed_ (_ensure_removed_sorted u) ≡ₚ removed_ u /\ moved (_ensure_removed_sorted u) = moved u /\ added (_ensure_removed_sorted u) = added u.
Proof.
  intros [Hn Hs]. unfold _ensure_removed_sorted. destruct (is_removed_sorted u) eqn:E; [by repeat split; auto|]. cbn.
  pose proof (sort_desc_perm (removed_ u)) as Hp. split; [|done]. split; cbn; [by rewrite Hp|]. intros _. apply sorted_rev, StronglySorted_merge_sort; [intros ???; apply Nat.le_trans|intros ??; apply Nat.le_ge_cases].
Qed.
Lemma sorted_last l x : StronglySorted (fun x y => y <= x)%nat (l ++ [x]) -> Forall (fun y => x <= y)%nat l.
Proof.
  induction l as [|y l IH]; cbn; intros H; [constructor|]. inversion H as [|? ? H1 H2]; subst. constructor; [|by apply IH].
  rewrite Forall_forall in H2. apply H2, elem_of_app. right. left.
Qed.
Lemma sorted_init l x : StronglySorted (fun x y => y <= x)%nat (l ++ [x]) -> StronglySorted (fun x y => y <= x)%nat l.
Proof.
  induction l as [|y l IH]; cbn; intros H; [constructor|]. inversion H as [|? ? H1 H2]; subst. constructor; [by apply IH|].
  rewrite Forall_app in H2. apply H2.
Qed.

(** The lowest removed row is taken. *)
Lemma pop_removed_ok u :
  builder_ok u ->
  match pop_removed u with
  | (Some i, u') => i ∈ removed_ u /\ (forall j, j ∈ removed_ u -> (i <= j)%nat) /\ builder_ok u' /\ removed_ u ≡ₚ i :: removed_ u' /\
                    moved u' = moved u /\ added u' = added u /\ peek_removed u = (Some i, _ensure_removed_sorted u)
  | (None, u') => u' = u /\ removed_ u = [] /\ peek_removed u = (None, u)
  end.
Proof.
  intros Hok. destruct (ensure_sorted_ok u Hok) as ([Hn Hs] & Hf & Hp & Hm & Ha). unfold pop_removed, peek_removed, has_removed.
  destruct (bool_decide_reflect (removed_ u = [])) as [E|E]; cbn [negb]; [done|].
  set (v := _ensure_removed_sorted u) in *. specialize (Hs Hf). destruct (exists_last (l := removed_ v)) as (l & i & El).
  { intros H. rewrite H in Hp. by apply Permutation_nil in Hp. }
  rewrite El in *. rewrite last_snoc, removelast_last. cbn.
  assert (Hin : forall j, j ∈ removed_ u <-> j ∈ l \/ j = i).
  { intros j. by rewrite <-Hp, elem_of_app, list_elem_of_singleton. }
  split; [apply Hin; by right|]. split; [|split; [|split; [|done]]].
  - apply sorted_last in Hs. rewrite Forall_forall in Hs. intros j [Hj| ->]%Hin; [by apply Hs|done].
  - split; [by apply NoDup_app in Hn as [? _]|]. intros _. by eapply sorted_init.
  - by rewrite <-Hp, Permutation_app_comm.
Qed.

(** ** The invariant *)

(** The LoRA dictionaries list the adapters of the batch and their requests. *)
Definition lora_ok (rows : gmap string Row) (ids : gmap Z (gset string)) (reqs : gset Z) : Prop :=
  forall l, match ids !! l with
    | Some s => l ∈ reqs /\ s <> ∅ /\ l <> 0 /\ forall id, id ∈ s <-> exists r, rows !! id = Some r /\ rw_lora r = l
    | None => l ∉ reqs /\ forall id r, rows !! id = Some r -> rw_lora r = l -> l = 0
    end.
(** The arrays have their sizes. *)
Record shape_ok (c : Columns) (ts : list BlockTable) (len : nat) : Prop := {
  sh_tokens i : length (token_ids_cpu c i) = len;
  sh_num i : (ib_num_tokens c i <= len)%nat;
  sh_tables : Forall table_ok ts }.
(** [hole] are the empty rows. *)
Record rows_inv (b : InputBatch) (hole : nat -> Prop) : Prop := {
  ri_index id i : req_id_to_index b !! id = Some i <-> _req_ids b !! i = Some (Some id);
  ri_hole i : hole i <-> _req_ids b !! i = Some None;
  ri_outs : req_output_token_ids b = _req_ids b;
  ri_max : (length (_req_ids b) <= max_num_reqs b)%nat;
  ri_builder : builder_ok (batch_update_builder b);
  ri_dicts i : is_Some (generators b !! i) \/ is_Some (bad_words_token_ids b !! i) -> exists id, _req_ids b !! i = Some (Some id);
  ri_flags id : req_id_to_index b !! id = None -> flags (sets b) id = no_flags;
  ri_lora : lora_ok (contents b) (lora_id_to_request_ids b) (lora_id_to_lora_request b);
  ri_shape : shape_ok (cols b) (block_table b) (max_model_len b) }.
(** Between the operations on a batch the empty rows are the removed ones. *)
Definition batch_ok (b : InputBatch) : Prop := rows_inv b (fun i => i ∈ removed_ (batch_update_builder b)).

Lemma index_inj b hole id1 id2 i : rows_inv b hole -> req_id_to_index b !! id1 = Some i -> req_id_to_index b !! id2 = Some i -> id1 = id2.
Proof. intros H H1 H2. apply (ri_index _ _ H) in H1, H2. congruence. Qed.

Lemma rows_count b hole l : rows_inv b hole -> NoDup l -> (forall i, i ∈ l <-> hole i) -> (num_reqs b + length l = length (_req_ids b))%nat.
Proof.
  intros H Hnd Hl. set (live := (map_to_list (req_id_to_index b)).*2).
  assert (Hlive : forall i, i ∈ live <-> exists id, req_id_to_index b !! id = Some i).
  { intros i. unfold live. rewrite list_elem_of_fmap. split.
    - intros ([id i'] & -> & Hin%elem_of_map_to_list). by exists id.
    - intros [id Hid]. exists (id, i). split; [done|by apply elem_of_map_to_list]. }
  assert (Hp : live ++ l ≡ₚ seq 0 (length (_req_ids b))).
  { apply NoDup_Permutation; [|apply NoDup_seq|].
    - apply NoDup_app. split; [|split; [|done]].
      + apply NoDup_fmap_2_strong; [|apply NoDup_map_to_list]. intros [id1 i1] [id2 i2] H1%elem_of_map_to_list H2%elem_of_map_to_list. cbn. intros ->.
        by rewrite (index_inj b hole id1 id2 i2).
      + intros i [id Hid]%Hlive Hi%Hl. apply (ri_index _ _ H) in Hid. apply (ri_hole _ _ H) in Hi. congruence.
    - intros i. rewrite elem_of_app, Hlive, Hl, elem_of_seq. split.
      + intros [[id Hid%(ri_index _ _ H)]|Hi%(ri_hole _ _ H)]; [apply lookup_lt_Some in Hid|apply lookup_lt_Some in Hi]; lia.
      + intros [_ Hi]. destruct (lookup_lt_is_Some_2 (_req_ids b) i ltac:(lia)) as [[id|] Hid].
        * left. exists id. by apply (ri_index _ _ H).
        * right. by apply (ri_hole _ _ H). }
  apply Permutation_length in Hp. rewrite length_app, length_seq in Hp. rewrite <-Hp. unfold live. rewrite length_fmap, length_map_to_list. done.
Qed.

(** The batch whose rows are left alone by a change of the other fields. *)
Lemma with_builder_inv b u hole : rows_inv b hole -> builder_ok u -> rows_inv (with_builder b u) hole.
Proof. intros [] Hu. by split. Qed.
Lemma contents_builder b u : contents (with_builder b u) = contents b.
Proof. done. Qed.

(** ** Adding *)

Definition flags_of (b : InputBatch) (p : SamplingParams) : Flags :=
  {| fl_greedy := is_greedy p; fl_random := negb (is_greedy p); fl_top_p := negb (Qle_bool 1 (sp_top_p p)); fl_top_k := uses_top_k (vocab_size b) p;
     fl_no_spec := is_spec_decode b && is_spec_decode_unsupported p; fl_frequency := negb (Qeq_bool (sp_frequency_penalty p) 0);
     fl_presence := negb (Qeq_bool (sp_presence_penalty p) 0); fl_repetition := negb (Qeq_bool (sp_repetition_penalty p) 1);
     fl_allowed := negb (bool_decide (sp_allowed_token_ids p = []));
     fl_logprobs := (fun n => if n =? -1 then Z.of_nat (vocab_size b) else n) <$> sp_logprobs p; fl_prompt_logprobs := prompt_logprobs p; fl_pooling := false |}.
Definition pooling_flags : Flags :=
  {| fl_greedy := false; fl_random := false; fl_top_p := false; fl_top_k := false; fl_no_spec := false; fl_frequency := false;
     fl_presence := false; fl_repetition := false; fl_allowed := false; fl_logprobs := None; fl_prompt_logprobs := None; fl_pooling := true |}.
Definition sampling_of (vocab : nat) (p : SamplingParams) : SamplingRow :=
  {| rw_temperature := if is_greedy p then (-1)%Q else sp_temperature p; rw_top_p := sp_top_p p;
     rw_top_k := if uses_top_k vocab p then sp_top_k p else Z.of_nat vocab; rw_frequency := sp_frequency_penalty p;
     rw_presence := sp_presence_penalty p; rw_repetition := sp_repetition_penalty p |}.
(** What the batch says of a request that was just added. *)
Definition row_of (b : InputBatch) (r : CachedRequestState) : Row :=
  {| rw_tokens := cr_prompt_token_ids r ++ cr_output_token_ids r; rw_num_tokens := cr_num_tokens r; rw_num_tokens_no_spec := cr_num_tokens r;
     rw_num_prompt_tokens := length (cr_prompt_token_ids r); rw_num_computed := cr_num_computed_tokens r; rw_blocks := cr_block_ids r;
     rw_lora := default 0 (cr_lora_request r);
     rw_generator := match cr_sampling_params r with Some _ => cr_generator r | None => None end;
     rw_bad_words := match cr_sampling_params r with
                     | Some p => match sp_bad_words_token_ids p with [] => None | w => Some w end
                     | None => None
                     end;
     rw_sampling := sampling_of (vocab_size b) <$> cr_sampling_params r;
     rw_flags := match cr_sampling_params r with Some p => flags_of b p | None => pooling_flags end |}.

(** The request fits into a row. *)
Record fits_row (b : InputBatch) (r : CachedRequestState) : Prop := {
  fr_tokens : (cr_num_tokens r <= max_model_len b)%nat;
  fr_blocks : Forall2 (fun t ids => (length ids <= max_num_blocks_per_req t)%nat) (block_table b) (cr_block_ids r);
  fr_params : is_Some (cr_sampling_params r) \/ is_Some (cr_pooling r);
  fr_allowed p : cr_sampling_params r = Some p -> forall i, i ∈ sp_allowed_token_ids p -> 0 <= i < Z.of_nat (vocab_size b);
  fr_lora : cr_lora_request r <> Some 0 }.

Lemma elem_of_add_if c x y (s : gset string) : y ∈ add_if c x s <-> (c = true /\ y = x) \/ y ∈ s.
Proof. unfold add_if. destruct c; [rewrite elem_of_union, elem_of_singleton|]; naive_solver. Qed.
Lemma add_if_decide c x (s : gset string) : bool_decide (x ∈ s) = false -> bool_decide (x ∈ add_if c x s) = c.
Proof.
  intros H%bool_decide_eq_false. destruct c; [apply bool_decide_eq_true|apply bool_decide_eq_false]; rewrite elem_of_add_if; naive_solver.
Qed.
Lemma add_if_other c x y (s : gset string) : y <> x -> bool_decide (y ∈ add_if c x s) = bool_decide (y ∈ s).
Proof. intros H. apply bool_decide_ext. rewrite elem_of_add_if. naive_solver. Qed.
Lemma no_flags_inv s id : flags s id = no_flags ->
  bool_decide (id ∈ greedy_reqs s) = false /\ bool_decide (id ∈ random_reqs s) = false /\ bool_decide (id ∈ top_p_reqs s) = false /\
  bool_decide (id ∈ top_k_reqs s) = false /\ bool_decide (id ∈ spec_decode_unsupported_reqs s) = false /\
  bool_decide (id ∈ frequency_penalties_reqs s) = false /\ bool_decide (id ∈ presence_penalties_reqs s) = false /\
  bool_decide (id ∈ repetition_penalties_reqs s) = false /\ bool_decide (id ∈ has_allowed_token_ids s) = false /\
  num_logprobs s !! id = None /\ num_prompt_logprobs s !! id = None /\ bool_decide (id ∈ ib_pooling_params s) = false.
Proof. intros [= ]. by repeat split. Qed.
Lemma add_to_sets_flags b id p s : flags s id = no_flags -> flags (add_to_sets b id p s) id = flags_of b p.
Proof.
  intros (H1 & H2 & H3 & H4 & H5 & H6 & H7 & H8 & H9 & H10 & H11 & H12)%no_flags_inv. unfold flags, flags_of. cbn.
  rewrite !add_if_decide by done. f_equal; [| |done].
  - destruct (sp_logprobs p); [by rewrite lookup_insert_eq|done].
  - destruct (prompt_logprobs p); [by rewrite lookup_insert_eq|done].
Qed.
Lemma add_to_sets_other b id id' p s : id' <> id -> flags (add_to_sets b id p s) id' = flags s id'.
Proof.
  intros H. unfold flags. cbn. rewrite !add_if_other by done. f_equal.
  - destruct (sp_logprobs p); [by rewrite lookup_insert_ne|done].
  - destruct (prompt_logprobs p); [by rewrite lookup_insert_ne|done].
Qed.

Lemma allow_ids_ok ids : forall row, (forall i, i ∈ ids -> 0 <= i < Z.of_nat (length row)) -> exists row', allow_ids row ids = Ok row'.
Proof.
  induction ids as [|i ids IH]; intros row H; [by eexists|]. cbn. assert (Hi : 0 <= i < Z.of_nat (length row)) by (apply H; left).
  unfold py_list_set, list_set. destruct (Z.ltb_spec i 0); [lia|]. destruct (Z.ltb_spec i 0); [lia|].
  destruct (Nat.ltb_spec (Z.to_nat i) (length row)); [|lia]. cbn. apply IH. rewrite length_insert. intros j Hj. apply H. by right.
Qed.

Lemma copy_request_ok c ts len i r :
  shape_ok c ts len -> (cr_num_tokens r <= len)%nat ->
  exists row', copy_request c i r = Ok
    {| token_ids_cpu := <[i := row']> (token_ids_cpu c); ib_num_tokens := <[i := cr_num_tokens r]> (ib_num_tokens c);
       num_tokens_no_spec := <[i := cr_num_tokens r]> (num_tokens_no_spec c);
       num_prompt_tokens := <[i := length (cr_prompt_token_ids r)]> (num_prompt_tokens c);
       num_computed_tokens_cpu := <[i := cr_num_computed_tokens r]> (num_computed_tokens_cpu c);
       temperature_cpu := temperature_cpu c; top_p_cpu := top_p_cpu c; top_k_cpu := top_k_cpu c;
       frequency_penalties_cpu := frequency_penalties_cpu c; presence_penalties_cpu := presence_penalties_cpu c;
       repetition_penalties_cpu := repetition_penalties_cpu c; request_lora_mapping := request_lora_mapping c;
       logits_processing_needs_token_ids := logits_processing_needs_token_ids c;
       allowed_token_ids_mask_cpu := allowed_token_ids_mask_cpu c |} /\
    length row' = len /\ take (cr_num_tokens r) row' = cr_prompt_token_ids r ++ cr_output_token_ids r.
Proof.
  intros [H1 H2 H3] Hn. unfold copy_request. unfold cr_num_tokens in *. set (n := length (cr_prompt_token_ids r)) in *.
  change n with (0 + n)%nat at 1. unfold n at 1. rewrite slice_set_fits by (rewrite H1; cbn; lia). cbn [bind].
  set (row1 := take 0 _ ++ _ ++ _). assert (Hr1 : length row1 = len).
  { unfold row1. rewrite !length_app, length_take, length_drop, H1. cbn. lia. }
  rewrite slice_set_fits by (rewrite Hr1; lia). cbn [bind]. eexists. split; [reflexivity|].
  assert (Ht : take n row1 = cr_prompt_token_ids r) by (unfold row1, n; rewrite take_0, app_nil_l; apply take_app_length).
  split.
  - rewrite !length_app, length_take, length_drop, Hr1. lia.
  - rewrite take_after_slice by lia. by rewrite Ht.
Qed.

(** The row of the next request: the lowest empty one, or a new one. *)
Lemma next_row b :
  batch_ok b -> (num_reqs b < max_num_reqs b)%nat ->
  exists idx u, _get_next_add_index b = (idx, with_builder b u) /\ builder_ok u /\ (idx < max_num_reqs b)%nat /\
    (forall j, j ∈ removed_ u <-> j ∈ removed_ (batch_update_builder b) /\ j <> idx) /\
    (_req_ids b !! idx = Some None \/ idx = length (_req_ids b)) /\
    moved u = moved (batch_update_builder b) /\ added u = added (batch_update_builder b).
Proof.
  intros Hok Hroom. pose proof (ri_builder _ _ Hok) as Hu. unfold _get_next_add_index. pose proof (pop_removed_ok _ Hu) as Hp.
  destruct (pop_removed _) as [[i|] u'].
  - destruct Hp as (Hi & Hlow & Hu' & Hperm & Hm & Ha & _). exists i, u'. split; [done|]. split; [done|].
    apply (ri_hole _ _ Hok) in Hi. pose proof (lookup_lt_Some _ _ _ Hi). pose proof (ri_max _ _ Hok). split; [lia|]. split; [|by split; [left|]].
    destruct Hu as [Hnd _]. rewrite Hperm in Hnd. apply NoDup_cons in Hnd as [Hni _]. intros j. rewrite Hperm, elem_of_cons. naive_solver.
  - destruct Hp as (-> & Hnil & _). pose proof (rows_count b _ [] Hok ltac:(constructor)) as Hc. cbn in Hc. rewrite Hnil in Hc.
    specialize (Hc ltac:(done)). rewrite Nat.add_0_r in Hc. exists (num_reqs b), (batch_update_builder b). split; [done|]. split; [done|]. split; [done|].
    split; [|by split; [right|]]. intros j. rewrite Hnil. split; [by intros ?%elem_of_nil|by intros [?%elem_of_nil _]].
Qed.

Lemma place_row {A} (l : list A) i x :
  (i <= length l)%nat ->
  let l' := if (i =? length l)%nat then l ++ [x] else <[i := x]> l in
  l' !! i = Some x /\ (forall j, j <> i -> l' !! j = l !! j) /\ (length l' = Nat.max (S i) (length l))%nat.
Proof.
  intros Hi. cbn. destruct (Nat.eqb_spec i (length l)) as [->|Hne].
  - split; [by apply list_lookup_middle|]. split.
    + intros j Hj. destruct (decide (j < length l)%nat); [by apply lookup_app_l|]. rewrite !lookup_ge_None_2; [done|lia|]. rewrite length_app. cbn. lia.
    + rewrite length_app. cbn. lia.
  - split; [apply list_lookup_insert_eq; lia|]. split; [intros j Hj; by apply list_lookup_insert_ne|]. rewrite length_insert. lia.
Qed.

Lemma lora_add rows ids reqs id rw :
  lora_ok rows ids reqs -> rows !! id = None ->
  lora_ok (<[id := rw]> rows)
    (if rw_lora rw =? 0 then ids else <[rw_lora rw := {[id]} ∪ default ∅ (ids !! rw_lora rw)]> ids)
    (if rw_lora rw =? 0 then reqs else {[rw_lora rw]} ∪ reqs).
Proof.
  intros H Hid l. set (k := rw_lora rw).
  assert (Hrows : forall i r, <[id := rw]> rows !! i = Some r <-> (i = id /\ r = rw) \/ (rows !! i = Some r)).
  { intros i r. destruct (decide (i = id)) as [->|Hne]; [rewrite lookup_insert_eq|rewrite lookup_insert_ne by done]; naive_solver. }
  specialize (H l). destruct (Z.eqb_spec k 0) as [Hk|Hk].
  - destruct (ids !! l) as [s|].
    + destruct H as (H1 & H2 & H3 & H4). split; [done|]. split; [done|]. split; [done|]. intros i. rewrite H4. setoid_rewrite Hrows. naive_solver.
    + destruct H as [H1 H2]. split; [done|]. intros i r [[-> ->]|Hr]%Hrows Hl; [by rewrite <-Hl|by eapply H2].
  - destruct (decide (l = k)) as [->|Hne].
    + rewrite lookup_insert_eq. split; [set_solver|]. split; [set_solver|]. split; [done|]. intros i. rewrite elem_of_union, elem_of_singleton.
      setoid_rewrite Hrows. destruct (ids !! k) as [s|]; cbn.
      * destruct H as (H1 & H2 & H3 & H4). rewrite H4. split; [intros [->|(r & ? & ?)]; [by exists rw; auto|by exists r; auto]|intros (r & [[-> ->]|?] & ?); eauto].
      * destruct H as [H1 H2]. split; [intros [->|?]; [by exists rw; auto|set_solver]|]. intros (r & [[-> ->]|Hr] & Hl); [by left|]. by destruct (Hk (H2 i r Hr Hl)).
    + rewrite lookup_insert_ne by done. destruct (ids !! l) as [s|].
      * destruct H as (H1 & H2 & H3 & H4). split; [set_solver|]. split; [done|]. split; [done|]. intros i. rewrite H4. setoid_rewrite Hrows.
        split; [intros (r & ? & ?); by exists r; auto|]. intros (r & [[-> ->]|?] & Hl); [by destruct Hne|by exists r].
      * destruct H as [H1 H2]. split; [set_solver|]. intros i r [[-> ->]|Hr]%Hrows Hl; [by destruct Hne|by eapply H2].
Qed.

(** The batch after a request was placed in row [idx]. *)
Lemma added_ok b b' idx id :
  batch_ok b -> req_id_to_index b !! id = None -> (_req_ids b !! idx = Some None \/ idx = length (_req_ids b)) -> (idx < max_num_reqs b)%nat ->
  max_num_reqs b' = max_num_reqs b -> builder_ok (batch_update_builder b') ->
  (forall j, j ∈ removed_ (batch_update_builder b') <-> j ∈ removed_ (batch_update_builder b) /\ j <> idx) ->
  _req_ids b' = (if (idx =? length (_req_ids b))%nat then _req_ids b ++ [Some id] else <[idx := Some id]> (_req_ids b)) ->
  req_output_token_ids b' = _req_ids b' -> req_id_to_index b' = <[id := idx]> (req_id_to_index b) ->
  (forall j, j <> idx -> generators b' !! j = generators b !! j /\ bad_words_token_ids b' !! j = bad_words_token_ids b !! j) ->
  (forall i, i <> id -> flags (sets b') i = flags (sets b) i) ->
  (forall i j, i <> id -> j <> idx -> row b' i j = row b i j) ->
  (let l := rw_lora (row b' id idx) in
   lora_id_to_request_ids b' = (if l =? 0 then lora_id_to_request_ids b else <[l := {[id]} ∪ default ∅ (lora_id_to_request_ids b !! l)]> (lora_id_to_request_ids b)) /\
   lora_id_to_lora_request b' = (if l =? 0 then lora_id_to_lora_request b else {[l]} ∪ lora_id_to_lora_request b)) ->
  shape_ok (cols b') (block_table b') (max_model_len b') ->
  batch_ok b' /\ contents b' = <[id := row b' id idx]> (contents b).
Proof.
  intros Hok Hid Hidx Hmax Hmax' Hu Hrem Hids Houts Hind Hd Hf Hrow [Hl1 Hl2] Hsh. pose proof (ri_max _ _ Hok) as Hm.
  assert (Hle : (idx <= length (_req_ids b))%nat) by (destruct Hidx as [?%lookup_lt_Some| ->]; lia).
  destruct (place_row (_req_ids b) idx (Some id) Hle) as (P1 & P2 & P3). rewrite <-Hids in P1, P2, P3.
  assert (Hfree : forall i, req_id_to_index b !! i <> Some idx).
  { intros i Hi%(ri_index _ _ Hok). destruct Hidx as [?| ->]; [congruence|]. apply lookup_lt_Some in Hi. lia. }
  assert (Hcont : contents b' = <[id := row b' id idx]> (contents b)).
  { apply map_eq. intros i. rewrite contents_lookup, Hind. destruct (decide (i = id)) as [->|Hne]; [by rewrite !lookup_insert_eq|].
    rewrite !lookup_insert_ne, contents_lookup by done. destruct (req_id_to_index b !! i) as [j|] eqn:Ej; [|done]. cbn. f_equal. apply Hrow; [done|].
    intros ->. by apply (Hfree i). }
  split; [|done]. split; try done.
  - intros i j. rewrite Hind. destruct (decide (i = id)) as [->|Hne].
    + rewrite lookup_insert_eq. destruct (decide (j = idx)) as [->|Hj]; [naive_solver|]. rewrite P2 by done. rewrite <-(ri_index _ _ Hok), Hid. split; [congruence|done].
    + rewrite lookup_insert_ne by done. destruct (decide (j = idx)) as [->|Hj]; [rewrite P1; split; [by intros ?%Hfree|congruence]|]. rewrite P2 by done. apply (ri_index _ _ Hok).
  - intros j. rewrite Hrem. destruct (decide (j = idx)) as [->|Hj]; [rewrite P1; naive_solver|]. rewrite P2 by done. rewrite <-(ri_hole _ _ Hok). tauto.
  - rewrite P3, Hmax'. lia.
  - intros j Hj. destruct (decide (j = idx)) as [->|Hne]; [by eexists|]. rewrite P2 by done. destruct (Hd j Hne) as [E1 E2]. rewrite E1, E2 in Hj. by apply (ri_dicts _ _ Hok).
  - intros i. rewrite Hind. destruct (decide (i = id)) as [->|Hne]; [by rewrite lookup_insert_eq|]. rewrite lookup_insert_ne, Hf by done. apply (ri_flags _ _ Hok).
  - rewrite Hcont, Hl1, Hl2. apply lora_add; [apply (ri_lora _ _ Hok)|]. by rewrite contents_lookup, Hid.
Qed.

(** What no operation on the batch changes. *)
Definition table_settings (t : BlockTable) : Z * nat * nat * nat * (nat * nat) :=
  (bt_block_size t, bt_max_num_reqs t, max_num_blocks_per_req t, bt_max_num_batched_tokens t, (length (slot_mapping_np t), length (slot_mapping_dev t))).
Definition settings (b : InputBatch) : bool * nat * nat * nat * list (Z * nat * nat * nat * (nat * nat)) :=
  (is_spec_decode b, max_num_reqs b, max_model_len b, vocab_size b, map table_settings (block_table b)).
Lemma settings_limits b b' : settings b' = settings b -> max_num_reqs b' = max_num_reqs b /\ max_model_len b' = max_model_len b /\ vocab_size b' = vocab_size b /\ is_spec_decode b' = is_spec_decode b.
Proof. unfold settings. by intros [= -> -> -> -> _]. Qed.
Lemma fits_settings b b' r : settings b' = settings b -> fits_row b r -> fits_row b' r.
Proof.
  intros [= H1 H2 H3 H4 H5] [F1 F2 F3 F4 F5]. split; [by rewrite H3| |done|by rewrite H4|done].
  assert (Hm : map max_num_blocks_per_req (block_table b') = map max_num_blocks_per_req (block_table b)).
  { pose proof (f_equal (map (fun x : Z * nat * nat * nat * (nat * nat) => x.1.1.2)) H5) as H. by rewrite !map_map in H. }
  apply (Forall2_fmap_l max_num_blocks_per_req (fun n (ids : list Z) => (length ids <= n)%nat)) in F2.
  change (max_num_blocks_per_req <$> block_table b) with (map max_num_blocks_per_req (block_table b)) in F2. rewrite <-Hm in F2.
  by apply (Forall2_fmap_l max_num_blocks_per_req (fun n (ids : list Z) => (length ids <= n)%nat)) in F2.
Qed.
Lemma row_of_settings b b' r : settings b' = settings b -> row_of b' r = row_of b r.
Proof. intros (_ & _ & H1 & H2)%settings_limits. unfold row_of, flags_of. by rewrite H1, H2. Qed.
Lemma tables_settings ts ts' : Forall2 (fun t t' => exists table rows, t' = with_table t table rows) ts ts' -> map table_settings ts' = map table_settings ts.
Proof. induction 1 as [|t t' ts ts' (tb & rs & ->) _ IH]; [done|]. cbn. by rewrite IH. Qed.

Lemma add_rows_ok ts idss i :
  Forall table_ok ts -> Forall2 (fun t ids => (length ids <= max_num_blocks_per_req t)%nat) ts idss ->
  exists ts', add_rows ts idss i = Ok ts' /\ map (fun t => table_row t i) ts' = idss /\
    (forall j, j <> i -> map (fun t => table_row t j) ts' = map (fun t => table_row t j) ts) /\ Forall table_ok ts' /\ map table_settings ts' = map table_settings ts.
Proof.
  intros Hts Hf. destruct (each_table_ok (fun t ids => add_row t ids i) (row_updated i) ts idss) as (ts' & Ha & H3).
  { induction Hf; inversion Hts; subst; constructor; [by apply add_row_ok|auto]. }
  destruct (updated_rows _ _ _ _ H3) as (H1 & H2 & H4 & H5). exists ts'. split; [exact Ha|]. split; [done|]. split; [done|]. split; [done|]. by apply tables_settings.
Qed.

Lemma add_sampling_ok b i r p :
  (forall j, j ∈ sp_allowed_token_ids p -> 0 <= j < Z.of_nat (vocab_size b)) ->
  exists mk, add_sampling b i r p = Ok
    (with_dicts (with_cols (with_sets b (add_to_sets b (cr_req_id r) p (sets b))) (copy_sampling (vocab_size b) (cols b) i p mk) (block_table b))
      (match cr_generator r with Some g => <[i := g]> (generators b) | None => generators b end)
      (match sp_bad_words_token_ids p with [] => bad_words_token_ids b | w => <[i := w]> (bad_words_token_ids b) end)).
Proof.
  intros Hal. unfold add_sampling, add_to_mask. destruct (sp_allowed_token_ids p) as [|x l]; [by eexists|].
  destruct (allow_ids_ok (x :: l) (repeat true (vocab_size b))) as (row & ->); [|by eexists]. by rewrite repeat_length.
Qed.

(** Adding a request inserts it. *)
Lemma add_request_spec b r :
  batch_ok b -> (num_reqs b < max_num_reqs b)%nat -> req_id_to_index b !! cr_req_id r = None -> fits_row b r ->
  exists idx b', add_request b r = Ok (idx, b') /\ batch_ok b' /\ contents b' = <[cr_req_id r := row_of b r]> (contents b) /\
    req_id_to_index b' = <[cr_req_id r := idx]> (req_id_to_index b) /\ settings b' = settings b /\
    logitsprocs b' = logitsprocs b /\ moved (batch_update_builder b') = moved (batch_update_builder b) /\
    added (batch_update_builder b') = added (batch_update_builder b) ++ [(idx, cr_sampling_params r, cr_req_id r)] /\
    (forall j, j ∈ removed_ (batch_update_builder b') <-> j ∈ removed_ (batch_update_builder b) /\ j <> idx) /\
    (_req_ids b !! idx = Some None \/ idx = length (_req_ids b)).
Proof.
  intros Hok Hroom Hid [F1 F2 F3 F4 F5]. set (id := cr_req_id r) in *.
  destruct (next_row b Hok Hroom) as (idx & u & Hnext & Hu & Hidx & Hrem & Hfree & Hmv & Had).
  destruct (copy_request_ok (cols b) (block_table b) (max_model_len b) idx r (ri_shape _ _ Hok) F1) as (row' & Hcopy & Hlen & Htake).
  destruct (add_rows_ok (block_table b) (cr_block_ids r) idx (sh_tables _ _ _ (ri_shape _ _ Hok)) F2) as (ts & Hts & T1 & T2 & T3 & T4).
  assert (Hle : (idx <= length (_req_ids b))%nat) by (destruct Hfree as [?%lookup_lt_Some| ->]; lia).
  set (ids' := if (idx =? length (_req_ids b))%nat then _req_ids b ++ [Some id] else <[idx := Some id]> (_req_ids b)).
  assert (Hplace : (if (idx =? length (_req_ids b))%nat then Ok (_req_ids b ++ [Some id], req_output_token_ids b ++ [Some id])
     else let! ids := list_set (_req_ids b) idx (Some id) in let! outs := list_set (req_output_token_ids b) idx (Some id) in Ok (ids, outs)) = Ok (ids', ids')).
  { rewrite (ri_outs _ _ Hok). unfold ids', list_set. destruct (Nat.eqb_spec idx (length (_req_ids b))); [done|].
    destruct (Nat.ltb_spec idx (length (_req_ids b))); [done|lia]. }
  destruct (no_flags_inv _ _ (ri_flags _ _ Hok _ Hid)) as (_ & _ & _ & _ & _ & _ & _ & _ & _ & _ & _ & Hnp).
  assert (Hnone : generators b !! idx = None /\ bad_words_token_ids b !! idx = None).
  { split; apply eq_None_not_Some; intros Hs; destruct (ri_dicts _ _ Hok idx) as [i Hi]; auto; destruct Hfree as [?| ->]; try congruence; apply lookup_lt_Some in Hi; lia. }
  unfold add_request, _register_add_request. rewrite Hnext. cbn [with_builder max_num_reqs].
  replace (idx <? max_num_reqs b)%nat with true by (symmetry; by apply Nat.ltb_lt). cbn [py_assert bind].
  cbn [with_builder _req_ids req_output_token_ids with_rows cols block_table]. fold id. rewrite Hplace. cbn [bind]. cbn [with_rows with_builder cols block_table].
  rewrite Hcopy. cbn [bind]. rewrite Hts. cbn [bind].
  destruct (cr_sampling_params r) as [p|] eqn:Ep.
  - match goal with |- context [add_sampling ?b0 ?i0 r p] => destruct (add_sampling_ok b0 i0 r p) as (mk & Hadd); [by apply F4|] end.
    rewrite Hadd. cbn [bind]. match goal with |- context [add_lora ?x idx r] => set (b' := add_lora x idx r) end.
    clear Hadd Hcopy Hnext Hts Hplace.
    destruct (added_ok b b' idx id) as [Hok' Hc]; try (unfold b', add_lora; destruct (cr_lora_request r); done); try done.
    + intros j Hj. unfold b', add_lora. destruct (cr_lora_request r), (cr_generator r), (sp_bad_words_token_ids p); cbn; by rewrite ?lookup_insert_ne.
    + intros i Hi. unfold b', add_lora. destruct (cr_lora_request r); cbn; by apply add_to_sets_other.
    + intros i j Hi Hj. apply row_is; unfold b', add_lora, sampling_row; destruct (cr_lora_request r); cbn; rewrite ?fn_lookup_insert_ne by done; try done;
        first [by apply T2|by apply add_to_sets_other|by destruct (cr_generator r); rewrite ?lookup_insert_ne|by destruct (sp_bad_words_token_ids p); rewrite ?lookup_insert_ne].
    + cbn. unfold b', add_lora. destruct (cr_lora_request r) as [l|]; cbn; rewrite fn_lookup_insert; [|done]. destruct (Z.eqb_spec l 0); [congruence|done].
    + destruct (ri_shape _ _ Hok) as [S1 S2 S3]. unfold b', add_lora.
      destruct (cr_lora_request r); (split; cbn; [intros j; by destruct (decide (j = idx)) as [->|Hj]; [rewrite fn_lookup_insert|rewrite fn_lookup_insert_ne by done]|
        intros j; by destruct (decide (j = idx)) as [->|Hj]; [rewrite fn_lookup_insert|rewrite fn_lookup_insert_ne by done]|done]).
    + exists idx, b'. split; [done|]. split; [done|]. split.
      { rewrite Hc. f_equal. destruct Hnone as [Hn1 Hn2]. apply row_is; unfold row_of; rewrite Ep; fold id; unfold b', add_lora, sampling_row; destruct (cr_lora_request r);
          cbn; rewrite ?fn_lookup_insert, ?Hnp; try done;
          first [by destruct (cr_generator r); rewrite ?lookup_insert_eq|by destruct (sp_bad_words_token_ids p); rewrite ?lookup_insert_eq|etransitivity; [by apply add_to_sets_flags, (ri_flags _ _ Hok)|reflexivity]]. }
      unfold b', add_lora, settings. destruct (cr_lora_request r); cbn; rewrite T4, Had, Hmv; done.
  - destruct (cr_pooling r) as [needs|] eqn:Eq; [|by destruct F3 as [[? ?]|[? ?]]]. cbn [bind].
    match goal with |- context [add_lora ?x idx r] => set (b' := add_lora x idx r) end. clear Hcopy Hnext Hts Hplace.
    destruct (added_ok b b' idx id) as [Hok' Hc]; try (unfold b', add_lora; destruct (cr_lora_request r); done); try done.
    + intros i Hi. unfold b', add_lora, flags. destruct (cr_lora_request r); cbn; f_equal; apply bool_decide_ext; set_solver.
    + intros i j Hi Hj. unfold row, sampling_row, b', add_lora, flags.
      rewrite (bool_decide_ext (i ∈ ib_pooling_params (sets b)) (i ∈ {[id]} ∪ ib_pooling_params (sets b))) by set_solver.
      destruct (cr_lora_request r); cbn; rewrite ?fn_lookup_insert_ne, T2 by done; done.
    + cbn. unfold b', add_lora. destruct (cr_lora_request r) as [l|]; cbn; rewrite fn_lookup_insert; [|done]. destruct (Z.eqb_spec l 0); [congruence|done].
    + destruct (ri_shape _ _ Hok) as [S1 S2 S3]. unfold b', add_lora.
      destruct (cr_lora_request r); (split; cbn; [intros j; by destruct (decide (j = idx)) as [->|Hj]; [rewrite fn_lookup_insert|rewrite fn_lookup_insert_ne by done]|
        intros j; by destruct (decide (j = idx)) as [->|Hj]; [rewrite fn_lookup_insert|rewrite fn_lookup_insert_ne by done]|done]).
    + exists idx, b'. split; [done|]. split; [done|]. split.
      { rewrite Hc. f_equal. pose proof (ri_flags _ _ Hok _ Hid) as Hfl. unfold row, row_of, sampling_row, sampling_of, b', add_lora. rewrite Ep. fold id.
        destruct Hnone as [Hn1 Hn2].
        destruct (cr_lora_request r); cbn; rewrite ?fn_lookup_insert, ?Hn1, ?Hn2, T1, Htake, bool_decide_true by set_solver; cbn; f_equal.
        all: unfold pooling_flags, flags; cbn; apply no_flags_inv in Hfl as (? & ? & ? & ? & ? & ? & ? & ? & ? & ? & ? & ?); f_equal; try done; apply bool_decide_true; set_solver. }
      unfold b', add_lora, settings. destruct (cr_lora_request r); cbn; rewrite T4, Had, Hmv; done.
Qed.

(** ** Removing *)

Lemma list_set_ok {A} (l : list A) i x : (i < length l)%nat -> list_set l i x = Ok (<[i := x]> l).
Proof. intros H. unfold list_set. by destruct (Nat.ltb_spec i (length l)); [|lia]. Qed.

Lemma remove_from_sets_flags s id : flags (remove_from_sets s id) id = no_flags.
Proof. unfold flags, no_flags. cbn. rewrite !lookup_delete_eq. f_equal; apply bool_decide_false; set_solver. Qed.
Lemma remove_from_sets_other s id i : i <> id -> flags (remove_from_sets s id) i = flags s i.
Proof. intros H. unfold flags. cbn. rewrite !lookup_delete_ne by done. f_equal; apply bool_decide_ext; set_solver. Qed.

Lemma lora_remove rows ids reqs id rw :
  lora_ok rows ids reqs -> rows !! id = Some rw ->
  if rw_lora rw =? 0 then lora_ok (delete id rows) ids reqs
  else exists s, ids !! rw_lora rw = Some s /\ rw_lora rw ∈ reqs /\
    lora_ok (delete id rows) (if bool_decide (s ∖ {[id]} = ∅) then delete (rw_lora rw) ids else <[rw_lora rw := s ∖ {[id]}]> ids)
      (if bool_decide (s ∖ {[id]} = ∅) then reqs ∖ {[rw_lora rw]} else reqs).
Proof.
  intros H Hid. set (k := rw_lora rw).
  assert (Hrows : forall i r, delete id rows !! i = Some r <-> i <> id /\ rows !! i = Some r).
  { intros i r. rewrite lookup_delete_Some. naive_solver. }
  assert (Hother : forall l, l <> k \/ l = 0 -> match ids !! l with
    | Some s => l ∈ reqs /\ s <> ∅ /\ l <> 0 /\ forall i, i ∈ s <-> exists r, delete id rows !! i = Some r /\ rw_lora r = l
    | None => l ∉ reqs /\ forall i r, delete id rows !! i = Some r -> rw_lora r = l -> l = 0 end).
  { intros l Hl. specialize (H l). destruct (ids !! l) as [s|].
    - destruct H as (H1 & H2 & H3 & H4). split; [done|]. split; [done|]. split; [done|]. intros i. rewrite H4. setoid_rewrite Hrows. split.
      + intros (r & Hr & Hrl). exists r. split; [|done]. split; [|done]. intros ->. rewrite Hid in Hr. injection Hr as <-. destruct Hl as [Hl|Hl]; [by apply Hl|done].
      + intros (r & [_ Hr] & Hrl). by exists r.
    - destruct H as [H1 H2]. split; [done|]. intros i r [_ Hr]%Hrows Hrl. by eapply H2. }
  destruct (Z.eqb_spec k 0) as [Hk|Hk].
  - intros l. apply Hother. destruct (decide (l = 0)); [by right|left; congruence].
  - pose proof (H k) as Hl. destruct (ids !! k) as [s|] eqn:Es; [|destruct Hl as [_ Hl]; by destruct (Hk (Hl id rw Hid eq_refl))].
    destruct Hl as (Hk1 & Hk2 & _ & Hk4). exists s. split; [done|]. split; [done|].
    assert (Hs : forall i, i ∈ s ∖ {[id]} <-> exists r, delete id rows !! i = Some r /\ rw_lora r = k).
    { intros i. rewrite elem_of_difference, elem_of_singleton, Hk4. setoid_rewrite Hrows. naive_solver. }
    intros l. destruct (bool_decide_reflect (s ∖ {[id]} = ∅)) as [He|He].
    + destruct (decide (l = k)) as [->|Hne].
      * rewrite lookup_delete_eq. split; [set_solver|]. intros i r Hr Hrl. assert (Hi : i ∈ s ∖ {[id]}) by (apply Hs; by exists r). set_solver.
      * rewrite lookup_delete_ne by done. pose proof (Hother l ltac:(by left)) as Ho. destruct (ids !! l); [|split; [set_solver|by apply Ho]].
        destruct Ho as (? & ? & ? & ?). split; [set_solver|done].
    + destruct (decide (l = k)) as [->|Hne].
      * rewrite lookup_insert_eq. done.
      * rewrite lookup_insert_ne by done. apply Hother. by left.
Qed.

(** The batch after row [i] of request [id] was emptied. *)
Lemma removed_ok b b' i id :
  batch_ok b -> req_id_to_index b !! id = Some i -> max_num_reqs b' = max_num_reqs b -> builder_ok (batch_update_builder b') ->
  (forall j, j ∈ removed_ (batch_update_builder b') <-> j ∈ removed_ (batch_update_builder b) \/ j = i) ->
  _req_ids b' = <[i := None]> (_req_ids b) -> req_output_token_ids b' = _req_ids b' -> req_id_to_index b' = delete id (req_id_to_index b) ->
  generators b' = delete i (generators b) -> bad_words_token_ids b' = delete i (bad_words_token_ids b) ->
  flags (sets b') id = no_flags -> (forall j, j <> id -> flags (sets b') j = flags (sets b) j) ->
  (forall k j, k <> id -> j <> i -> row b' k j = row b k j) ->
  lora_ok (delete id (contents b)) (lora_id_to_request_ids b') (lora_id_to_lora_request b') ->
  shape_ok (cols b') (block_table b') (max_model_len b') -> batch_ok b' /\ contents b' = delete id (contents b).
Proof.
  intros Hok Hi Hmax Hu Hrem Hids Houts Hind Hg Hb Hf1 Hf2 Hrow Hl Hsh.
  assert (Hi' := proj1 (ri_index _ _ Hok id i) Hi). pose proof (lookup_lt_Some _ _ _ Hi') as Hlt.
  assert (Hcont : contents b' = delete id (contents b)).
  { apply map_eq. intros k. rewrite contents_lookup, Hind. destruct (decide (k = id)) as [->|Hne]; [by rewrite !lookup_delete_eq|].
    rewrite !lookup_delete_ne, contents_lookup by done. destruct (req_id_to_index b !! k) as [j|] eqn:Ej; [|done]. cbn. f_equal. apply Hrow; [done|].
    intros ->. apply Hne. by eapply index_inj. }
  split; [|done]. split; try done.
  - intros k j. rewrite Hind, Hids. destruct (decide (j = i)) as [->|Hj].
    + rewrite list_lookup_insert_eq by done. split; [|done]. intros [Hne Hk]%lookup_delete_Some. destruct Hne. symmetry. by eapply index_inj.
    + rewrite list_lookup_insert_ne by done. rewrite <-(ri_index _ _ Hok), lookup_delete_Some. split; [by intros [_ ?]|]. intros Hk. split; [|done]. intros ->. congruence.
  - intros j. rewrite Hrem, Hids. destruct (decide (j = i)) as [->|Hj]; [rewrite list_lookup_insert_eq by done; naive_solver|].
    rewrite list_lookup_insert_ne, <-(ri_hole _ _ Hok) by done. naive_solver.
  - rewrite Hids, length_insert, Hmax. apply (ri_max _ _ Hok).
  - intros j. rewrite Hg, Hb, Hids. destruct (decide (j = i)) as [->|Hj]; [rewrite !lookup_delete_eq; by intros [[? ?]|[? ?]]|].
    rewrite !lookup_delete_ne, list_lookup_insert_ne by done. apply (ri_dicts _ _ Hok).
  - intros k. rewrite Hind. destruct (decide (k = id)) as [->|Hne]; [done|]. rewrite lookup_delete_ne, Hf2 by done. apply (ri_flags _ _ Hok).
  - by rewrite Hcont.
Qed.

(** Removing a request deletes it; an unknown id is ignored. *)
Lemma remove_request_spec b id :
  batch_ok b -> is_removed_sorted (batch_update_builder b) = false ->
  exists b', remove_request b id = Ok (req_id_to_index b !! id, b') /\ batch_ok b' /\ contents b' = delete id (contents b) /\
    req_id_to_index b' = delete id (req_id_to_index b) /\ settings b' = settings b /\ is_removed_sorted (batch_update_builder b') = false /\
    logitsprocs b' = logitsprocs b /\ moved (batch_update_builder b') = moved (batch_update_builder b) /\
    added (batch_update_builder b') = added (batch_update_builder b) /\
    removed_ (batch_update_builder b') = removed_ (batch_update_builder b) ++ match req_id_to_index b !! id with Some i => [i] | None => [] end.
Proof.
  intros Hok Hns. unfold remove_request. destruct (req_id_to_index b !! id) as [i|] eqn:Hi.
  2:{ exists b. rewrite app_nil_r, !delete_id; [done|done|]. by rewrite contents_lookup, Hi. }
  assert (Hi' := proj1 (ri_index _ _ Hok id i) Hi). pose proof (lookup_lt_Some _ _ _ Hi') as Hlt.
  unfold removed_append. rewrite Hns. cbn [bind with_builder _req_ids req_output_token_ids]. rewrite (ri_outs _ _ Hok), list_set_ok by done. cbn [bind].
  pose proof (lora_remove _ _ _ id (row b id i) (ri_lora _ _ Hok)) as Hl. rewrite contents_lookup, Hi in Hl. specialize (Hl eq_refl). cbn [row rw_lora] in Hl.
  assert (Hnew : builder_ok {| removed_ := removed_ (batch_update_builder b) ++ [i]; is_removed_sorted := false; moved := moved (batch_update_builder b);
                               added := added (batch_update_builder b) |}).
  { split; [|done]. cbn. apply NoDup_app. split; [apply (ri_builder _ _ Hok)|]. split; [|apply NoDup_singleton]. intros j Hj ->%list_elem_of_singleton.
    apply (ri_hole _ _ Hok) in Hj. congruence. }
  assert (Hrem : forall j, j ∈ removed_ (batch_update_builder b) ++ [i] <-> j ∈ removed_ (batch_update_builder b) \/ j = i).
  { intros j. by rewrite elem_of_app, list_elem_of_singleton. }
  unfold remove_lora. cbn [with_dicts with_sets with_rows with_builder cols request_lora_mapping lora_id_to_request_ids lora_id_to_lora_request].
  destruct (Z.eqb_spec (request_lora_mapping (cols b) i) 0) as [H0|H0]; [cbn [bind]|destruct Hl as (s & Hs & Hk & Hl); rewrite Hs; cbn [of_option bind]].
  - match goal with |- context [Ok (Some i, ?x)] => set (b' := x) end. destruct (removed_ok b b' i id) as [Hok' Hc]; try done.
    + apply remove_from_sets_flags.
    + intros j Hj. by apply remove_from_sets_other.
    + intros k j Hk Hj. apply row_is; cbn; rewrite ?lookup_delete_ne by done; try done; [|by apply remove_from_sets_other].
      rewrite (bool_decide_ext (k ∈ ib_pooling_params (sets b) ∖ {[id]}) (k ∈ ib_pooling_params (sets b))) by set_solver. done.
    + destruct (ri_shape _ _ Hok) as [S1 S2 S3]. by split.
    + by exists b'.
  - rewrite (bool_decide_true (request_lora_mapping (cols b) i ∈ lora_id_to_lora_request b)) by done.
    destruct (bool_decide (s ∖ {[id]} = ∅)) eqn:Es; cbn [bind];
      (match goal with |- context [Ok (Some i, ?x)] => set (b' := x) end; destruct (removed_ok b b' i id) as [Hok' Hc]; try done;
       [apply remove_from_sets_flags|intros j Hj; by apply remove_from_sets_other| | |by exists b']).
    1,3: intros k j Hk2 Hj; apply row_is; cbn; rewrite ?lookup_delete_ne, ?fn_lookup_insert_ne by done; try done; [|by apply remove_from_sets_other];
      rewrite (bool_decide_ext (k ∈ ib_pooling_params (sets b) ∖ {[id]}) (k ∈ ib_pooling_params (sets b))) by set_solver; done.
    all: destruct (ri_shape _ _ Hok) as [S1 S2 S3]; by split.
Qed.
