(* ===== verification/BatchMoves.v ===== *)
(** * Moving rows of the persistent batch

    Exchanging two rows, moving a row into a hole and condensing leave what the
    batch says of every request unchanged. *)

From stdpp Require Import base functions gmap strings list sorting.
From Stdlib Require Import ZArith QArith Lia.
From S2P Require Import Prelude BlockTable Request LogitsProcessors InputBatch InputBatchOk.
Open Scope list_scope.
Open Scope Z_scope.

(** ** Exchanging two rows *)

Lemma fswap_l {A} (f : nat -> A) i j : i <> j -> fswap f i j i = f j.
Proof. intros H. unfold fswap. by rewrite fn_lookup_insert_ne, fn_lookup_insert. Qed.
Lemma fswap_r {A} (f : nat -> A) i j : fswap f i j j = f i.
Proof. unfold fswap. by rewrite fn_lookup_insert. Qed.
Lemma fswap_ne {A} (f : nat -> A) i j k : k <> i -> k <> j -> fswap f i j k = f k.
Proof. intros H1 H2. unfold fswap. by rewrite !fn_lookup_insert_ne. Qed.
Lemma swap_dict_lookup {A} (d : gmap nat A) k1 k2 k :
  k1 <> k2 -> swap_dict_values d k1 k2 !! k = if decide (k = k1) then d !! k2 else if decide (k = k2) then d !! k1 else d !! k.
Proof.
  intros Hne. unfold swap_dict_values.
  destruct (d !! k1) as [v1|] eqn:E1, (d !! k2) as [v2|] eqn:E2; (destruct (decide (k = k1)) as [->|H1]; [|destruct (decide (k = k2)) as [->|H2]]);
    by simplify_map_eq.
Qed.
(** The row that row [k] shows after the exchange. *)
Definition exchanged (i1 i2 k : nat) : nat := if decide (k = i1) then i2 else if decide (k = i2) then i1 else k.
Lemma fswap_exchanged {A} (f : nat -> A) i1 i2 k : i1 <> i2 -> fswap f i1 i2 k = f (exchanged i1 i2 k).
Proof.
  intros H. unfold exchanged. destruct (decide (k = i1)) as [->|H1]; [by apply fswap_l|]. destruct (decide (k = i2)) as [->|H2]; [apply fswap_r|by apply fswap_ne].
Qed.
Lemma exchanged_exchanged i1 i2 k : exchanged i1 i2 (exchanged i1 i2 k) = k.
Proof. unfold exchanged. repeat destruct (decide _); congruence. Qed.

Lemma swap_rows_ok ts i1 i2 k :
  Forall table_ok ts -> i1 <> i2 ->
  map (fun t => table_row t k) (swap_rows ts i1 i2) = map (fun t => table_row t (exchanged i1 i2 k)) ts /\
  Forall table_ok (swap_rows ts i1 i2) /\ map table_settings (swap_rows ts i1 i2) = map table_settings ts.
Proof.
  intros Hts Hne. unfold swap_rows. induction Hts as [|t ts Ht _ (I1 & I2 & I3)]; [by repeat constructor|]. cbn.
  destruct (swap_row_ok t i1 i2 Ht) as (H1 & (tb & rs & H2) & H3 & H4 & H5). split; [|split].
  - rewrite I1. f_equal. unfold exchanged. destruct (decide (k = i1)) as [->|]; [done|]. destruct (decide (k = i2)) as [->|]; [done|]. by apply H5.
  - by constructor.
  - rewrite I3. f_equal.
Qed.

(** Exchanging the rows of two requests: each of them moves with all its data. *)
Lemma swap_states_spec b hole i1 i2 id1 id2 :
  rows_inv b hole -> _req_ids b !! i1 = Some (Some id1) -> _req_ids b !! i2 = Some (Some id2) -> i1 <> i2 ->
  exists b', swap_states b i1 i2 = Ok b' /\ rows_inv b' hole /\ contents b' = contents b /\ settings b' = settings b /\
    _req_ids b' = <[i2 := Some id1]> (<[i1 := Some id2]> (_req_ids b)) /\
    req_id_to_index b' = <[id2 := i1]> (<[id1 := i2]> (req_id_to_index b)) /\
    batch_update_builder b' = moved_append (batch_update_builder b) (i1, i2, SWAP) /\ logitsprocs b' = logitsprocs b /\ sets b' = sets b /\
    masks b' = <[id1 := mask_row b i2]> (masks b) /\ needs_prompt b' = needs_prompt b.
Proof.
  intros Hinv Hi1 Hi2 Hne. pose proof (ri_shape _ _ Hinv) as [S1 S2 S3].
  assert (Hid : id1 <> id2) by (intros ->; apply Hne; apply (ri_index _ _ Hinv) in Hi1, Hi2; congruence).
  unfold swap_states. cbn [with_builder _req_ids req_output_token_ids]. rewrite (ri_outs _ _ Hinv), Hi1, Hi2. cbn [of_option bind].
  pose proof (proj2 (ri_index _ _ Hinv _ _) Hi1) as Hx1. pose proof (proj2 (ri_index _ _ Hinv _ _) Hi2) as Hx2.
  cbn [req_id_to_index with_builder]. rewrite Hx1, Hx2. cbn [of_option bind].
  match goal with |- context [Ok ?x] => set (b' := x) end. exists b'. split; [done|].
  assert (Hids : forall k, <[i2 := Some id1]> (<[i1 := Some id2]> (_req_ids b)) !! k = _req_ids b !! exchanged i1 i2 k).
  { intros k. apply lookup_lt_Some in Hi1 as L1. apply lookup_lt_Some in Hi2 as L2. unfold exchanged.
    destruct (decide (k = i1)) as [->|N1]; [by rewrite list_lookup_insert_ne, list_lookup_insert_eq|].
    destruct (decide (k = i2)) as [->|N2]; [rewrite list_lookup_insert_eq by (by rewrite length_insert); done|]. by rewrite !list_lookup_insert_ne. }
  assert (Hind : forall id k, <[id2 := i1]> (<[id1 := i2]> (req_id_to_index b)) !! id = Some k <-> req_id_to_index b !! id = Some (exchanged i1 i2 k)).
  { intros id k. destruct (decide (id = id2)) as [->|N2].
    - rewrite lookup_insert_eq, Hx2. unfold exchanged. repeat destruct (decide _); naive_solver congruence.
    - rewrite lookup_insert_ne by done. destruct (decide (id = id1)) as [->|N1].
      + rewrite lookup_insert_eq, Hx1. unfold exchanged. repeat destruct (decide _); naive_solver congruence.
      + rewrite lookup_insert_ne by done. rewrite (ri_index _ _ Hinv), (ri_index _ _ Hinv). unfold exchanged.
        repeat destruct (decide _); subst; try done; split; congruence. }
  assert (Hcont : contents b' = contents b).
  { apply contents_ext.
    - intros id k Hk. apply Hind in Hk. exists (exchanged i1 i2 k). split; [done|]. apply row_is; cbn; rewrite ?fswap_exchanged, ?swap_dict_lookup by done; try done.
      + by apply swap_rows_ok.
      + unfold exchanged. by repeat destruct (decide _).
      + unfold exchanged. by repeat destruct (decide _).
      + unfold sampling_row. cbn. by rewrite !fswap_exchanged.
    - intros id Hk. destruct (req_id_to_index b !! id) as [k|] eqn:Ek; [|done]. rewrite <-(exchanged_exchanged i1 i2 k) in Ek. apply Hind in Ek. cbn in Hk. congruence. }
  assert (Hmask : masks b' = <[id1 := mask_row b i2]> (masks b)).
  { apply map_eq. intros id. rewrite masks_lookup. cbn. unfold mask_row at 1. cbn. destruct (decide (id = id2)) as [->|N2].
    - rewrite lookup_insert_eq, lookup_insert_ne, masks_lookup, Hx2 by congruence. cbn. unfold mask_row. destruct (allowed_token_ids_mask_cpu (cols b)) as [m|]; [|done].
      unfold mask_swap. by rewrite fn_lookup_insert_ne, fn_lookup_insert.
    - rewrite lookup_insert_ne by done. destruct (decide (id = id1)) as [->|N1].
      + rewrite !lookup_insert_eq. cbn. unfold mask_row. destruct (allowed_token_ids_mask_cpu (cols b)) as [m|]; [|done]. unfold mask_swap. by rewrite !fn_lookup_insert.
      + rewrite !lookup_insert_ne, masks_lookup by done. destruct (req_id_to_index b !! id) as [k|] eqn:Ek; [|done]. cbn. unfold mask_row.
        destruct (allowed_token_ids_mask_cpu (cols b)) as [m|]; [|done]. f_equal. unfold mask_swap.
        rewrite !fn_lookup_insert_ne; [done| |]; intros ->; apply (ri_index _ _ Hinv) in Ek; congruence. }
  split; [|split; [done|split; [|done]]].
  - split; try done.
    + intros id k. cbn. by rewrite Hind, Hids, (ri_index _ _ Hinv).
    + intros k. cbn. rewrite (ri_hole _ _ Hinv), Hids. unfold exchanged. repeat destruct (decide _); subst; split; congruence.
    + cbn. rewrite !length_insert. apply (ri_max _ _ Hinv).
    + cbn. split; apply (ri_builder _ _ Hinv).
    + intros k. cbn. rewrite Hids, !swap_dict_lookup by done. pose proof (ri_dicts _ _ Hinv (exchanged i1 i2 k)) as Hd. revert Hd. unfold exchanged. by repeat destruct (decide _).
    + intros id Hk. apply (ri_flags _ _ Hinv). destruct (req_id_to_index b !! id) as [k|] eqn:Ek; [|done]. rewrite <-(exchanged_exchanged i1 i2 k) in Ek. apply Hind in Ek. cbn in Hk. congruence.
    + rewrite Hcont. apply (ri_lora _ _ Hinv).
    + split; cbn; [intros k; by rewrite fswap_exchanged|intros k; by rewrite fswap_exchanged|by apply swap_rows_ok].
  - pose proof (proj2 (proj2 (swap_rows_ok (block_table b) i1 i2 0%nat S3 Hne))) as Hs. unfold settings. f_equal. exact Hs.
Qed.

(** ** Moving a row into a hole *)

Lemma move_key_lookup {A} (d : gmap nat A) src tgt k :
  src <> tgt -> d !! tgt = None -> move_key d src tgt !! k = if decide (k = tgt) then d !! src else if decide (k = src) then None else d !! k.
Proof.
  intros Hne Ht. unfold move_key. destruct (d !! src) as [v|] eqn:E.
  - destruct (decide (k = tgt)) as [->|H1]; [by rewrite lookup_insert_eq|]. rewrite lookup_insert_ne by done.
    destruct (decide (k = src)) as [->|H2]; [by rewrite lookup_delete_eq|by rewrite lookup_delete_ne].
  - destruct (decide (k = tgt)) as [->|H1]; [done|]. by destruct (decide (k = src)) as [->|H2].
Qed.
Lemma move_rows_ok ts src tgt :
  Forall table_ok ts ->
  map (fun t => table_row t tgt) (move_rows ts src tgt) = map (fun t => table_row t src) ts /\
  (forall k, k <> tgt -> map (fun t => table_row t k) (move_rows ts src tgt) = map (fun t => table_row t k) ts) /\
  Forall table_ok (move_rows ts src tgt) /\ map table_settings (move_rows ts src tgt) = map table_settings ts.
Proof.
  intros Hts. unfold move_rows. induction Hts as [|t ts Ht _ (I1 & I2 & I3 & I4)]; [by repeat constructor|]. cbn [map].
  destruct (move_row_ok t src tgt Ht) as ((tb & rs & H2) & H3 & H4 & H5). split; [|split; [|split]].
  - by rewrite I1, H4.
  - intros k Hk. by rewrite I2, H5.
  - by constructor.
  - rewrite I4. f_equal.
Qed.

Lemma move_state_spec b hole src tgt id :
  rows_inv b hole -> _req_ids b !! src = Some (Some id) -> _req_ids b !! tgt = Some None ->
  exists b', move_state b src tgt = Ok b' /\ rows_inv b' (fun k => k = src \/ (hole k /\ k <> tgt)) /\ contents b' = contents b /\
    settings b' = settings b /\ _req_ids b' = <[src := None]> (<[tgt := Some id]> (_req_ids b)) /\
    req_id_to_index b' = <[id := tgt]> (req_id_to_index b) /\
    batch_update_builder b' = moved_append (batch_update_builder b) (src, tgt, UNIDIRECTIONAL) /\ logitsprocs b' = logitsprocs b /\ sets b' = sets b /\
    same_masks b b'.
Proof.
  intros Hinv Hs Ht. pose proof (ri_shape _ _ Hinv) as [S1 S2 S3]. assert (Hne : src <> tgt) by congruence.
  pose proof (lookup_lt_Some _ _ _ Hs) as Ls. pose proof (lookup_lt_Some _ _ _ Ht) as Lt.
  unfold move_state. cbn [with_builder _req_ids req_output_token_ids]. rewrite (ri_outs _ _ Hinv), Hs. cbn [of_option bind].
  cbn [bind]. rewrite (list_set_ok (_req_ids b) tgt) by done. cbn [bind]. rewrite list_set_ok by (by rewrite length_insert). cbn [bind].
  pose proof (proj2 (ri_index _ _ Hinv _ _) Hs) as Hx.
  match goal with |- context [Ok ?x] => set (b' := x) end. exists b'. split; [done|].
  assert (Hgen : generators b !! tgt = None /\ bad_words_token_ids b !! tgt = None).
  { split; apply eq_None_not_Some; intros Hi; destruct (ri_dicts _ _ Hinv tgt) as [i Hi']; auto; congruence. }
  assert (Hids : forall k, <[src := None]> (<[tgt := Some id]> (_req_ids b)) !! k = if decide (k = src) then Some None else if decide (k = tgt) then Some (Some id) else _req_ids b !! k).
  { intros k. destruct (decide (k = src)) as [->|N1]; [by rewrite list_lookup_insert_eq by (by rewrite length_insert)|].
    rewrite list_lookup_insert_ne by done. destruct (decide (k = tgt)) as [->|N2]; [by rewrite list_lookup_insert_eq|by rewrite list_lookup_insert_ne]. }
  assert (Hind : forall i k, i <> id -> req_id_to_index b !! i = Some k -> k <> src /\ k <> tgt).
  { intros i k Hi Hk. split; intros ->; [apply Hi; by eapply index_inj|]. apply (ri_index _ _ Hinv) in Hk. congruence. }
  assert (Hcont : contents b' = contents b).
  { apply contents_ext.
    - intros i k. cbn. destruct (decide (i = id)) as [->|Hi].
      + rewrite lookup_insert_eq. intros [= <-]. exists src. split; [done|]. destruct Hgen as [G1 G2].
        apply row_is; cbn; rewrite ?fn_lookup_insert, ?move_key_lookup, ?decide_True by done; try done.
        * unfold np_copy_prefix. rewrite take_app_length'; [done|]. rewrite length_take, S1. specialize (S2 src). lia.
        * by apply move_rows_ok.
        * unfold sampling_row. cbn. by rewrite !fn_lookup_insert.
      + rewrite lookup_insert_ne by done. intros Hk. exists k. split; [done|]. destruct (Hind i k Hi Hk) as [N1 N2]. destruct Hgen as [G1 G2].
        apply row_is; cbn; rewrite ?fn_lookup_insert_ne, ?move_key_lookup, ?decide_False by done; try done.
        * by apply move_rows_ok.
        * unfold sampling_row. cbn. by rewrite !fn_lookup_insert_ne.
    - intros i. cbn. destruct (decide (i = id)) as [->|Hi]; [by rewrite lookup_insert_eq|by rewrite lookup_insert_ne]. }
  assert (Hmask : same_masks b b').
  { split; [|done]. apply map_eq. intros i. rewrite !masks_lookup. cbn. unfold mask_row. destruct (decide (i = id)) as [->|Hi].
    - rewrite lookup_insert_eq, Hx. cbn. destruct (allowed_token_ids_mask_cpu (cols b)); [by rewrite fn_lookup_insert|done].
    - rewrite lookup_insert_ne by done. destruct (req_id_to_index b !! i) as [k|] eqn:Ek; [|done]. destruct (Hind i k Hi Ek) as [_ N2]. cbn.
      destruct (allowed_token_ids_mask_cpu (cols b)); [by rewrite fn_lookup_insert_ne|done]. }
  split; [|split; [done|split; [|done]]].
  - split; try done.
    + intros i k. cbn. rewrite Hids. destruct (decide (i = id)) as [->|Hi].
      * rewrite lookup_insert_eq. destruct (decide (k = src)); [naive_solver congruence|]. destruct (decide (k = tgt)); [naive_solver|].
        rewrite <-(ri_index _ _ Hinv), Hx. naive_solver congruence.
      * rewrite lookup_insert_ne by done. destruct (decide (k = src)) as [->|N1]; [split; [by intros [? _]%(Hind _ _ Hi)|done]|].
        destruct (decide (k = tgt)) as [->|N2]; [split; [by intros [_ ?]%(Hind _ _ Hi)|congruence]|]. apply (ri_index _ _ Hinv).
    + intros k. cbn. rewrite Hids, (ri_hole _ _ Hinv). destruct (decide (k = src)); [tauto|]. destruct (decide (k = tgt)); [naive_solver congruence|]. naive_solver.
    + cbn. rewrite !length_insert. apply (ri_max _ _ Hinv).
    + cbn. split; apply (ri_builder _ _ Hinv).
    + intros k. cbn. destruct Hgen as [G1 G2]. rewrite Hids, !move_key_lookup by done. pose proof (ri_dicts _ _ Hinv k) as Hd.
      destruct (decide (k = tgt)) as [->|N2]; [rewrite decide_False by done; by exists id|]. destruct (decide (k = src)) as [->|N1]; [|done]. by intros [[? ?]|[? ?]].
    + intros i Hk. apply (ri_flags _ _ Hinv). cbn in Hk. destruct (decide (i = id)) as [->|Hi]; [by rewrite lookup_insert_eq in Hk|by rewrite lookup_insert_ne in Hk].
    + rewrite Hcont. apply (ri_lora _ _ Hinv).
    + split; cbn; [| |by apply move_rows_ok].
      * intros k. destruct (decide (k = tgt)) as [->|Hk]; [rewrite fn_lookup_insert|by rewrite fn_lookup_insert_ne].
        unfold np_copy_prefix. rewrite length_app, length_take, length_drop, !S1. specialize (S2 src). lia.
      * intros k. destruct (decide (k = tgt)) as [->|Hk]; [by rewrite fn_lookup_insert|by rewrite fn_lookup_insert_ne].
  - pose proof (proj2 (proj2 (proj2 (move_rows_ok (block_table b) src tgt S3)))) as Hst. unfold settings. f_equal. exact Hst.
Qed.

(** ** Condensing *)

Definition removed (b : InputBatch) : list nat := removed_ (batch_update_builder b).

(** One round of the loop: the request of a row moves to a removed row, and the
    move is recorded. *)
Record moves (b b' : InputBatch) (src tgt : nat) : Prop := {
  mv_src : exists id, _req_ids b !! src = Some (Some id) /\ _req_ids b' = <[src := None]> (<[tgt := Some id]> (_req_ids b)) /\
             req_id_to_index b' = <[id := tgt]> (req_id_to_index b);
  mv_tgt : tgt ∈ removed b;
  mv_removed k : k ∈ removed b' <-> k ∈ removed b /\ k <> tgt;
  mv_moved : moved (batch_update_builder b') = moved (batch_update_builder b) ++ [(src, tgt, UNIDIRECTIONAL)];
  mv_added : added (batch_update_builder b') = added (batch_update_builder b);
  mv_procs : logitsprocs b' = logitsprocs b;
  mv_sets : sets b' = sets b;
  mv_contents : contents b' = contents b;
  mv_settings : settings b' = settings b;
  mv_masks : same_masks b b' }.
Definition move_step (b b' : InputBatch) : Prop := exists src tgt, moves b b' src tgt.

Lemma skip_empty_ok empty : forall fuel last,
  (length empty <= fuel)%nat -> NoDup empty ->
  let l := skip_empty fuel empty last in
  l <= last /\ (forall k, l < Z.of_nat k <= last -> k ∈ empty) /\ ~ (0 <= l /\ Z.to_nat l ∈ empty).
Proof.
  assert (Hgen : forall fuel last used, NoDup used -> (forall k, k ∈ used -> last < Z.of_nat k /\ k ∈ empty) -> (length empty <= fuel + length used)%nat ->
    let l := skip_empty fuel empty last in
    l <= last /\ (forall k, l < Z.of_nat k <= last -> k ∈ empty) /\ ~ (0 <= l /\ Z.to_nat l ∈ empty)).
  { induction fuel as [|fuel IH]; intros last used Hnd Hu Hlen; cbn.
    - split; [lia|]. split; [intros k; lia|]. intros [Hl Hin]. assert (Hsub : Z.to_nat last :: used ⊆+ empty).
      { apply NoDup_submseteq.
        - apply NoDup_cons. split; [|done]. intros Hk%Hu. lia.
        - intros k [->|Hk]%elem_of_cons; [done|by apply Hu]. }
      apply submseteq_length in Hsub. cbn in Hsub. lia.
    - destruct (bool_decide_reflect (0 <= last /\ Z.to_nat last ∈ empty)) as [[Hl Hin]|Hn].
      + destruct (IH (last - 1) (Z.to_nat last :: used)) as (H1 & H2 & H3).
        * apply NoDup_cons. split; [|done]. intros Hk%Hu. lia.
        * intros k [->|Hk]%elem_of_cons; [split; [lia|done]|]. destruct (Hu k Hk). split; [lia|done].
        * cbn. lia.
        * split; [lia|]. split; [|exact H3]. intros k Hk. destruct (decide (Z.of_nat k <= last - 1)); [apply H2; lia|].
          assert (k = Z.to_nat last) as -> by lia. done.
      + split; [lia|]. split; [intros k; lia|exact Hn]. }
  intros fuel last Hlen _. apply (Hgen fuel last []); [constructor|by intros k ?%elem_of_nil|cbn; lia].
Qed.

Lemma rows_inv_hole b h1 h2 : rows_inv b h1 -> (forall k, h1 k <-> h2 k) -> rows_inv b h2.
Proof. intros [] H. split; try done. intros i. by rewrite <-H. Qed.

(** The loop fills every hole below the last request. *)
Lemma condense_loop_spec : forall fuel b last,
  rows_inv b (fun k => k ∈ removed b \/ (last < Z.of_nat k /\ (k < length (_req_ids b))%nat)) ->
  (length (removed b) <= fuel)%nat -> last < Z.of_nat (length (_req_ids b)) -> (0 < num_reqs b)%nat -> is_removed_sorted (batch_update_builder b) = true ->
  exists b' n, condense_loop fuel b last = Ok b' /\ rows_inv b' (fun k => (n <= k < length (_req_ids b))%nat) /\ (n <= length (_req_ids b))%nat /\
    length (_req_ids b') = length (_req_ids b) /\ rtc move_step b b'.
Proof.
  induction fuel as [|fuel IH]; intros b last Hinv Hlen Hlast Hpos Hsort.
  - assert (Hnil : removed b = []) by (apply length_zero_iff_nil; lia). exists b, (Z.to_nat (last + 1)). split; [done|].
    split; [|split; [lia|split; [done|apply rtc_refl]]]. eapply rows_inv_hole; [exact Hinv|]. intros k. rewrite Hnil.
    split; [intros [?%elem_of_nil|]; [done|lia]|intros ?; right; lia].
  - cbn [condense_loop]. fold (removed b). pose proof (ri_builder _ _ Hinv) as Hu. destruct Hu as [Hnd Hst].
    assert (Hu := ri_builder _ _ Hinv). pose proof (pop_removed_ok _ Hu) as Hpop.
    assert (Hens : _ensure_removed_sorted (batch_update_builder b) = batch_update_builder b) by (unfold _ensure_removed_sorted; by rewrite Hsort).
    destruct (removed b) as [|x l0] eqn:Er.
    { exists b, (Z.to_nat (last + 1)). split; [done|]. split; [|split; [lia|split; [done|apply rtc_refl]]].
      eapply rows_inv_hole; [exact Hinv|]. intros k. split; [intros [?%elem_of_nil|]; [done|lia]|intros ?; right; lia]. }
    rewrite <-Er in *. destruct (skip_empty_ok (removed b) (length (removed b)) last) as (L1 & L2 & L3); [done|done|]. set (last' := skip_empty _ _ _) in *.
    assert (Hinv' : rows_inv b (fun k => k ∈ removed b \/ (last' < Z.of_nat k /\ (k < length (_req_ids b))%nat))).
    { eapply rows_inv_hole; [exact Hinv|]. intros k. split.
      - intros [?|[? ?]]; [by left|right; split; [lia|done]].
      - intros [?|[? ?]]; [by left|]. destruct (decide (last < Z.of_nat k)); [by right|]. left. apply L2. lia. }
    assert (Hlast' : 0 <= last').
    { destruct (decide (0 <= last')); [done|]. exfalso. unfold num_reqs in Hpos. destruct (map_choose (req_id_to_index b)) as (id & i & Hi).
      { intros He. rewrite He, map_size_empty in Hpos. lia. }
      apply (ri_index _ _ Hinv') in Hi. assert (Hh : _req_ids b !! i = Some None) by (apply (ri_hole _ _ Hinv'); right; split; [lia|by eapply lookup_lt_Some]). congruence. }
    destruct (pop_removed (batch_update_builder b)) as [[tgt|] u] eqn:Ep.
    2:{ destruct Hpop as (_ & Hnil & _). unfold removed in Er. congruence. }
    destruct Hpop as (Ht & Hlow & Hu' & Hperm & Hm & Ha & Hpeek). rewrite Hpeek, Hens. cbv zeta.
    destruct (Z.leb_spec last' (Z.of_nat tgt)) as [Hle|Hgt].
    { exists (with_builder b (batch_update_builder b)), (Z.to_nat (last' + 1)). split; [done|].
      split; [|split; [lia|split; [done|]]].
      - apply with_builder_inv; [|done]. eapply rows_inv_hole; [exact Hinv'|]. intros k. split; [|intros ?; right; lia].
        intros [Hk|?]; [|lia]. pose proof (Hlow k Hk). assert (Z.of_nat k <> last') by (intros He; apply L3; split; [done|]; rewrite <-He, Nat2Z.id; done).
        assert (Hk' : _req_ids b !! k = Some None) by (apply (ri_hole _ _ Hinv'); by left). apply lookup_lt_Some in Hk'. lia.
      - replace (with_builder b (batch_update_builder b)) with b by (by destruct b). apply rtc_refl. }
    cbn [batch_update_builder with_builder]. rewrite Ep. cbn [snd].
    assert (Hsrc : exists id, _req_ids b !! Z.to_nat last' = Some (Some id)).
    { destruct (lookup_lt_is_Some_2 (_req_ids b) (Z.to_nat last')) as [[id|] Hid]; [lia|by exists id|]. exfalso. apply (ri_hole _ _ Hinv') in Hid.
      destruct Hid as [?|?]; [by apply L3|lia]. }
    destruct Hsrc as (id & Hsrc). assert (Htgt : _req_ids b !! tgt = Some None) by (apply (ri_hole _ _ Hinv'); by left).
    destruct (move_state_spec (with_builder (with_builder b (batch_update_builder b)) u) _ (Z.to_nat last') tgt id
      (with_builder_inv _ u _ (with_builder_inv _ _ _ Hinv' Hu) Hu') Hsrc Htgt) as (b1 & Hmv & Hinv1 & Hc1 & Hs1 & Hids1 & Hind1 & Hb1 & Hp1 & Hse1 & Hmk1).
    rewrite Hmv. cbn [bind].
    assert (Hrem1 : forall k, k ∈ removed b1 <-> k ∈ removed b /\ k <> tgt).
    { intros k. unfold removed. rewrite Hb1. cbn. rewrite Hperm in Hnd |- *. apply NoDup_cons in Hnd as [Hni _]. rewrite elem_of_cons. naive_solver. }
    assert (Hlen1 : length (_req_ids b1) = length (_req_ids b)) by (rewrite Hids1, !length_insert; done).
    destruct (IH b1 (last' - 1)) as (b' & n & Hl & Hi' & Hn & Hln & Hr).
    + eapply rows_inv_hole; [exact Hinv1|]. intros k. cbn beta. rewrite Hrem1, Hlen1. split.
      * intros [->|[[?|[? ?]] ?]]; [right|by left|right]; lia.
      * intros [[? ?]|[H1 H2]]; [right; split; [by left|done]|]. destruct (decide (k = Z.to_nat last')); [by left|right]. split; [right; split; [lia|done]|lia].
    + unfold removed in *. rewrite Hb1. cbn. rewrite Hperm in Hlen. cbn in Hlen. lia.
    + rewrite Hlen1. lia.
    + unfold num_reqs. rewrite Hind1. cbn. rewrite map_size_insert. destruct (req_id_to_index b !! id); [exact Hpos|]. cbn. lia.
    + rewrite Hb1. cbn. pose proof Ep as Ep'. unfold pop_removed in Ep'. destruct (has_removed _); [by injection Ep' as _ <-|done].
    + exists b', n. rewrite Hlen1 in *. split; [done|]. split; [done|]. split; [done|]. split; [done|]. eapply rtc_l; [|exact Hr].
      exists (Z.to_nat last'), tgt. split; try done; [by exists id| |]; rewrite Hb1; cbn; by rewrite ?Hm, ?Ha.
Qed.

Lemma num_reqs_contents b : num_reqs b = size (contents b).
Proof.
  unfold num_reqs. rewrite <-!(size_dom (D := gset string)). f_equal. apply set_eq. intros id. rewrite !elem_of_dom, contents_lookup.
  by rewrite fmap_is_Some.
Qed.
Lemma move_steps_same b b' : rtc move_step b b' -> contents b' = contents b /\ settings b' = settings b /\ sets b' = sets b /\
  logitsprocs b' = logitsprocs b /\ added (batch_update_builder b') = added (batch_update_builder b) /\ same_masks b b'.
Proof.
  induction 1 as [|b1 b2 b3 (src & tgt & [M1 M2 M3 M4 M5 M6 M7 M8 M9 M10]) _ (I1 & I2 & I3 & I4 & I5 & I6)]; [done|].
  rewrite I1, I2, I3, I4, I5, M5, M6, M7, M8, M9. do 5 (split; [done|]). by eapply same_masks_trans.
Qed.

(** Cutting the empty rows off the end. *)
Lemma cut_rows b n :
  rows_inv b (fun k => (n <= k < length (_req_ids b))%nat) -> (n <= length (_req_ids b))%nat ->
  let b' := with_rows b (take n (_req_ids b)) (req_id_to_index b) (take n (req_output_token_ids b)) in
  num_reqs b = n /\ rows_inv b' (fun _ => False) /\ exists ids, take n (_req_ids b) = map Some ids /\ NoDup ids /\ length ids = n.
Proof.
  intros Hinv Hn. cbn zeta.
  pose proof (rows_count b _ (seq n (length (_req_ids b) - n)) Hinv (NoDup_seq _ _)) as Hc. rewrite length_seq in Hc.
  assert (Hnum : num_reqs b = n) by (enough (num_reqs b + (length (_req_ids b) - n) = length (_req_ids b))%nat by lia; apply Hc; intros i; rewrite elem_of_seq; lia).
  assert (Hlive : forall k, (k < n)%nat -> exists id, _req_ids b !! k = Some (Some id)).
  { intros k Hk. destruct (lookup_lt_is_Some_2 (_req_ids b) k) as [[id|] Hid]; [lia|by exists id|]. apply (ri_hole _ _ Hinv) in Hid. lia. }
  assert (Hlook : forall k, take n (_req_ids b) !! k = if decide (k < n)%nat then _req_ids b !! k else None).
  { intros k. destruct (decide (k < n)%nat); [by apply lookup_take_lt|apply lookup_take_ge; lia]. }
  split; [done|]. split.
  - split; try done; try apply Hinv.
    + intros id k. cbn. rewrite Hlook, (ri_index _ _ Hinv). destruct (decide (k < n)%nat) as [?|Hk]; [done|]. split; [|done]. intros Hid.
      assert (Hh : _req_ids b !! k = Some None); [|congruence]. apply (ri_hole _ _ Hinv). apply lookup_lt_Some in Hid. lia.
    + intros k. cbn. rewrite Hlook. split; [done|]. destruct (decide (k < n)%nat) as [Hk|?]; [|done]. intros Hk'. destruct (Hlive k Hk). congruence.
    + cbn. by rewrite (ri_outs _ _ Hinv).
    + cbn. rewrite length_take. pose proof (ri_max _ _ Hinv). lia.
    + intros k Hk. destruct (ri_dicts _ _ Hinv k Hk) as (id & Hid). exists id. cbn. rewrite Hlook, decide_True; [done|].
      destruct (decide (k < n)%nat); [done|]. assert (Hh : _req_ids b !! k = Some None); [|congruence]. apply (ri_hole _ _ Hinv). apply lookup_lt_Some in Hid. lia.
  - assert (Hall : Forall is_Some (take n (_req_ids b))).
    { apply Forall_lookup. intros k o. rewrite Hlook. destruct (decide (k < n)%nat) as [Hk|]; [|done]. destruct (Hlive k Hk) as (id & ->). intros [= <-]. by eexists. }
    exists (omap id (take n (_req_ids b))). assert (Hm : take n (_req_ids b) = map Some (omap id (take n (_req_ids b)))).
    { clear -Hall. induction Hall as [|o l [x ->] _ IH]; [done|]. cbn. by rewrite <-IH. }
    split; [done|]. split.
    + apply (NoDup_fmap_1 Some). change (Some <$> omap id (take n (_req_ids b))) with (map Some (omap id (take n (_req_ids b)))). rewrite <-Hm.
      apply NoDup_alt. intros i j x. rewrite !Hlook. destruct (decide (i < n)%nat) as [Hi|]; [|done]. destruct (decide (j < n)%nat); [|done].
      destruct (Hlive i Hi) as (id & Hid). rewrite Hid. intros [= <-] Hj. apply (ri_index _ _ Hinv) in Hid, Hj. congruence.
    + rewrite <-(length_map Some), <-Hm, length_take. lia.
Qed.

(** After [condense] the rows of the requests are the first ones, and every request
    keeps its data. *)
Lemma condense_spec b :
  batch_ok b ->
  exists b', condense b = Ok b' /\ contents b' = contents b /\ settings b' = settings b /\ sets b' = sets b /\
    (exists ids, _req_ids b' = map Some ids /\ NoDup ids /\ length ids = num_reqs b) /\
    rows_inv b' (fun _ => False) /\ same_masks b b' /\
    exists b1, rtc move_step (with_builder b (_ensure_removed_sorted (batch_update_builder b))) b1 /\
      batch_update_builder b' = batch_update_builder b1 /\ logitsprocs b' = logitsprocs b1 /\ contents b1 = contents b /\
      forall k id, _req_ids b' !! k = Some (Some id) <-> _req_ids b1 !! k = Some (Some id).
Proof.
  intros Hok. destruct (ensure_sorted_ok _ (ri_builder _ _ Hok)) as (Hu & Hsort & Hperm & Hm & Ha). unfold condense.
  set (b0 := with_builder b (_ensure_removed_sorted (batch_update_builder b))).
  assert (Hok0 : rows_inv b0 (fun k => k ∈ removed b0)).
  { apply with_builder_inv; [|done]. eapply rows_inv_hole; [exact Hok|]. intros k. unfold removed. cbn. by rewrite Hperm. }
  fold (removed b0). destruct (removed b0) as [|x l0] eqn:Er.
  { destruct (cut_rows b0 (length (_req_ids b0))) as (H1 & H2 & H3); [|lia|].
    { eapply rows_inv_hole; [exact Hok0|]. intros k. split; [by intros ?%elem_of_nil|lia]. }
    rewrite (take_ge (_req_ids b0)) in H2, H3 by done. rewrite take_ge in H2 by (by rewrite (ri_outs _ _ Hok0)).
    replace (with_rows b0 (_req_ids b0) (req_id_to_index b0) (req_output_token_ids b0)) with b0 in H2 by (by destruct b). exists b0. split; [done|]. split; [done|]. split; [done|]. split; [done|].
    split; [destruct H3 as (ids & ? & ? & ?); exists ids; split; [done|]; split; [done|]; by rewrite <-H1 in *|]. split; [exact H2|].
    split; [done|]. exists b0. by split; [apply rtc_refl|]. }
  rewrite <-Er in *. clear Er. pose proof (rows_count b0 _ (removed b0) Hok0 (proj1 (ri_builder _ _ Hok0)) ltac:(done)) as Hc.
  destruct (Nat.eqb_spec (num_reqs b0) 0) as [Hz|Hz].
  { assert (Hempty : req_id_to_index b0 = ∅) by (by apply map_size_empty_iff). exists (with_rows b0 [] (req_id_to_index b0) []). split; [done|].
    split; [done|]. split; [done|]. split; [done|]. split; [exists []; split; [done|]; split; [constructor|by change (num_reqs b) with (num_reqs b0)]|].
    split; [|split; [done|exists b0; split; [apply rtc_refl|split; [done|split; [done|split; [done|]]]]]].
    - split; try done; try apply Hok0.
      + intros id k. cbn. change (req_id_to_index b) with (req_id_to_index b0). rewrite Hempty. split; done.
      + cbn. lia.
      + intros k Hk. destruct (ri_dicts _ _ Hok0 k Hk) as (id & Hid). apply (ri_index _ _ Hok0) in Hid. by rewrite Hempty in Hid.
    - intros k id. split; [done|]. intros Hid%(ri_index _ _ Hok0). by rewrite Hempty in Hid. }
  destruct (condense_loop_spec (length (removed b0)) b0 (Z.of_nat (num_reqs b0) + Z.of_nat (length (removed b0)) - 1)) as (b1 & n & Hl & Hinv1 & Hn & Hlen & Hr); try done.
  { eapply rows_inv_hole; [exact Hok0|]. intros k. split; [by left|]. intros [?|?]; [done|lia]. }
  { lia. } { lia. }
  rewrite Hl. cbn [bind]. destruct (move_steps_same _ _ Hr) as (S1 & S2 & S3 & S4 & S5 & S6). rewrite <-Hlen in *.
  destruct (cut_rows b1 n Hinv1 Hn) as (H1 & H2 & H3). rewrite H1. eexists. split; [reflexivity|]. split; [exact S1|]. split; [exact S2|]. split; [exact S3|].
  split; [destruct H3 as (ids & ? & ? & Hi); exists ids; split; [done|]; split; [done|]; change (num_reqs b) with (num_reqs b0);
    rewrite Hi, <-H1, !num_reqs_contents; by rewrite S1|]. split; [exact H2|].
  split; [exact S6|]. exists b1. split; [exact Hr|]. split; [done|]. split; [done|]. split; [exact S1|]. intros k id. cbn. destruct (decide (k < n)%nat) as [Hk|Hk]; [by rewrite lookup_take_lt|].
  rewrite lookup_take_ge by lia. split; [done|]. intros Hid. assert (Hh : _req_ids b1 !! k = Some None); [|congruence]. apply (ri_hole _ _ Hinv1). apply lookup_lt_Some in Hid. lia.
Qed.
