(* ===== verification/BatchMask.v ===== *)
(** * The mask of allowed tokens

    What the operations on the batch do to [masks] and [needs_prompt], exactly.  A
    request that restricts its tokens gets its own mask when it joins, and keeps it
    when others join or leave and when the batch is condensed.  A request that does
    not restrict them takes what its row shows, and [swap_states] copies one of the
    two masks over the other. *)

From stdpp Require Import base functions gmap strings list sorting.
From Stdlib Require Import ZArith QArith Lia.
From S2P Require Import Prelude BlockTable Request LogitsProcessors InputBatch InputBatchOk BatchMoves.
Open Scope list_scope.
Open Scope Z_scope.

(** ** The mask of a request *)

Lemma own_mask_nil n : own_mask n [] = repeat true n.
Proof.
  unfold own_mask. generalize 0%nat. induction n as [|n IH]; intros k; cbn; [done|]. by rewrite IH.
Qed.
Lemma own_mask_lookup n ids j : own_mask n ids !! j = if decide (j < n)%nat then Some (negb (bool_decide (Z.of_nat j ∈ ids))) else None.
Proof.
  unfold own_mask. rewrite list_lookup_fmap. destruct (decide (j < n)%nat) as [H|H].
  - by rewrite lookup_seq_lt.
  - by rewrite lookup_seq_ge by lia.
Qed.
Lemma own_mask_snoc n ids i :
  0 <= i < Z.of_nat n -> <[Z.to_nat i := false]> (own_mask n ids) = own_mask n (i :: ids).
Proof.
  intros Hi. apply list_eq. intros j. destruct (decide (j = Z.to_nat i)) as [->|Hne].
  - rewrite list_lookup_insert_eq by (unfold own_mask; rewrite length_map, length_seq; lia). rewrite own_mask_lookup, decide_True by lia.
    rewrite bool_decide_true; [done|]. rewrite elem_of_cons. left. lia.
  - rewrite list_lookup_insert_ne, !own_mask_lookup by done. destruct (decide _); [|done]. do 2 f_equal. apply bool_decide_ext. rewrite elem_of_cons.
    split; [by right|intros [?|?]; [lia|done]].
Qed.
Lemma own_mask_perm n ids ids' : (forall i, i ∈ ids <-> i ∈ ids') -> own_mask n ids = own_mask n ids'.
Proof. intros H. unfold own_mask. apply map_ext. intros j. f_equal. apply bool_decide_ext, H. Qed.
(** The row that is filled in is the mask asked for. *)
Lemma allow_ids_own n ids : forall done_ids,
  (forall i, i ∈ ids -> 0 <= i < Z.of_nat n) -> allow_ids (own_mask n done_ids) ids = Ok (own_mask n (ids ++ done_ids)).
Proof.
  induction ids as [|i ids IH]; intros l H; cbn [allow_ids app]; [done|]. assert (Hi : 0 <= i < Z.of_nat n) by (apply H; left).
  assert (Hset : py_list_set (own_mask n l) i false = Ok (own_mask n (i :: l))).
  { unfold py_list_set. destruct (Z.ltb_spec i 0); [lia|]. destruct (Z.ltb_spec i 0); [lia|]. rewrite list_set_ok by (unfold own_mask; rewrite length_map, length_seq; lia).
    by rewrite own_mask_snoc. }
  rewrite Hset. cbn [bind]. rewrite IH by (intros j Hj; apply H; by right). f_equal. apply own_mask_perm. intros j. set_solver.
Qed.

(** ** Joining *)

(** The two arrays after a request was added in row [i]. *)
Lemma add_request_columns b q i b' :
  (forall p, cr_sampling_params q = Some p -> forall j, j ∈ sp_allowed_token_ids p -> 0 <= j < Z.of_nat (vocab_size b)) ->
  add_request b q = Ok (i, b') ->
  (forall k, mask_row b' k = if decide (k = i) then default (mask_row b i) (wanted_mask b q) else mask_row b k) /\
  needs_prompt b' = match cr_sampling_params q, cr_pooling q with None, Some v => <[i := v]> (needs_prompt b) | _, _ => needs_prompt b end.
Proof.
  intros Hids H. unfold add_request in H. apply bind_ok in H as ([idx b0] & Hreg & H).
  assert (Hb0 : sets b0 = sets b /\ cols b0 = cols b /\ vocab_size b0 = vocab_size b).
  { unfold _register_add_request, _get_next_add_index in Hreg. destruct (pop_removed _). apply bind_ok in Hreg as (? & _ & [= _ <-]). done. }
  destruct Hb0 as (_ & Hc0 & Hv0). apply bind_ok in H as ([ids outs] & _ & H). apply bind_ok in H as (c & Hc & H). apply bind_ok in H as (t & _ & H).
  assert (Hcm : allowed_token_ids_mask_cpu c = allowed_token_ids_mask_cpu (cols b) /\
                logits_processing_needs_token_ids c = logits_processing_needs_token_ids (cols b)).
  { unfold copy_request in Hc. apply bind_ok in Hc as (? & _ & Hc). apply bind_ok in Hc as (? & _ & [= <-]). cbn. by rewrite Hc0. }
  destruct Hcm as [Hcm Hcn]. apply bind_ok in H as (b1 & Hb1 & H). injection H as -> <-.
  assert (Hlora : forall x, mask_row (add_lora x i q) = mask_row x /\ needs_prompt (add_lora x i q) = needs_prompt x).
  { intros x. unfold add_lora. by destruct (cr_lora_request q). }
  destruct (Hlora b1) as [Hl1 Hl2]. rewrite Hl1, Hl2. clear Hlora Hl1 Hl2. unfold wanted_mask.
  destruct (cr_sampling_params q) as [p|] eqn:Ep.
  - unfold add_sampling in Hb1. apply bind_ok in Hb1 as (mask & Hmask & [= <-]). split; [|exact Hcn].
    unfold add_to_mask in Hmask. unfold mask_row. cbn in *. rewrite Hv0 in *. rewrite Hcm in Hmask. destruct (sp_allowed_token_ids p) as [|x l] eqn:Ea.
    + injection Hmask as <-. intros k. by destruct (decide (k = i)) as [->|_].
    + rewrite <-own_mask_nil in Hmask. specialize (Hids p eq_refl). rewrite Ea in Hids.
      pose proof (allow_ids_own (vocab_size b) (x :: l) [] Hids) as Hrow. rewrite app_nil_r in Hrow. cbn [allow_ids] in Hrow. rewrite Hrow in Hmask. injection Hmask as <-.
      intros k. destruct (decide (k = i)) as [->|Hk]; [by rewrite fn_lookup_insert|]. rewrite fn_lookup_insert_ne by done. by destruct (allowed_token_ids_mask_cpu (cols b)).
  - destruct (cr_pooling q) as [v|]; [|done]. injection Hb1 as <-. unfold mask_row, needs_prompt. cbn. rewrite Hcm, Hcn, Hv0. split; [|done].
    intros k. by destruct (decide (k = i)) as [->|_].
Qed.

Lemma masks_added b b' id idx m :
  (forall i, req_id_to_index b !! i <> Some idx) -> req_id_to_index b' = <[id := idx]> (req_id_to_index b) ->
  (forall k, mask_row b' k = if decide (k = idx) then m else mask_row b k) -> masks b' = <[id := m]> (masks b).
Proof.
  intros Hfree Hind Hrow. apply map_eq. intros i. rewrite masks_lookup, Hind. destruct (decide (i = id)) as [->|Hne].
  - rewrite !lookup_insert_eq. cbn. by rewrite Hrow, decide_True.
  - rewrite !lookup_insert_ne, masks_lookup by done. destruct (req_id_to_index b !! i) as [k|] eqn:Ek; [|done]. cbn.
    rewrite Hrow, decide_False; [done|]. intros ->. by apply (Hfree i).
Qed.
Lemma add_request_masks b q i b' :
  batch_ok b -> (num_reqs b < max_num_reqs b)%nat -> req_id_to_index b !! cr_req_id q = None -> fits_row b q -> add_request b q = Ok (i, b') ->
  masks b' = <[cr_req_id q := default (mask_row b i) (wanted_mask b q)]> (masks b) /\
  needs_prompt b' = match cr_sampling_params q, cr_pooling q with None, Some v => <[i := v]> (needs_prompt b) | _, _ => needs_prompt b end.
Proof.
  intros Hok Hroom Hid Hfit H. destruct (add_request_spec b q Hok Hroom Hid Hfit) as (idx & b1 & H1 & _ & _ & Hind & _ & _ & _ & _ & _ & Hfree).
  rewrite H in H1. injection H1 as <- <-. destruct (add_request_columns b q i b' (fr_allowed _ _ Hfit) H) as [Hrow Hn]. split; [|done].
  eapply masks_added; [|done|exact Hrow]. intros k Hk. apply (ri_index _ _ Hok) in Hk. destruct Hfree as [?| ->]; [congruence|]. apply lookup_lt_Some in Hk. lia.
Qed.

(** ** Leaving *)

Lemma remove_request_masks b id i b' :
  batch_ok b -> remove_request b id = Ok (i, b') -> masks b' = delete id (masks b) /\ needs_prompt b' = needs_prompt b.
Proof.
  unfold remove_request. intros Hok H. destruct (req_id_to_index b !! id) as [k|] eqn:Ek.
  2:{ injection H as _ <-. split; [|done]. rewrite delete_id; [done|]. by rewrite masks_lookup, Ek. }
  apply bind_ok in H as (u & _ & H). apply bind_ok in H as (ids & _ & H). apply bind_ok in H as (outs & _ & H). apply bind_ok in H as (b1 & H1 & [= _ <-]).
  assert (Hb1 : req_id_to_index b1 = delete id (req_id_to_index b) /\ allowed_token_ids_mask_cpu (cols b1) = allowed_token_ids_mask_cpu (cols b) /\
                needs_prompt b1 = needs_prompt b /\ vocab_size b1 = vocab_size b).
  { unfold remove_lora in H1. cbn in H1. destruct (_ =? 0); [by injection H1 as <-|]. apply bind_ok in H1 as (s & _ & H1). apply bind_ok in H1 as (b2 & H2 & [= <-]). cbn.
    destruct (bool_decide (s ∖ _ = ∅)); [destruct (bool_decide (_ ∈ _)); [|done]|]; by injection H2 as <-. }
  destruct Hb1 as (E1 & E2 & E3 & E4). split; [|exact E3]. apply map_eq. intros j. rewrite masks_lookup. cbn. rewrite E1.
  destruct (decide (j = id)) as [->|Hne]; [by rewrite !lookup_delete_eq|]. rewrite !lookup_delete_ne, masks_lookup by done.
  destruct (req_id_to_index b !! j) as [k'|] eqn:Ej; [|done]. cbn. f_equal. unfold mask_row. cbn. rewrite E2, E4. destruct (allowed_token_ids_mask_cpu (cols b)); [|done].
  rewrite fn_lookup_insert_ne; [done|]. intros ->. apply Hne. by eapply index_inj.
Qed.

(** ** Moving *)

Lemma condense_masks b b' : batch_ok b -> condense b = Ok b' -> same_masks b b'.
Proof.
  intros Hok H. destruct (condense_spec b Hok) as (b1 & H1 & _ & _ & _ & _ & _ & Hm & _). rewrite H in H1. by injection H1 as <-.
Qed.
Lemma swap_states_masks b hole i1 i2 id1 id2 b' :
  rows_inv b hole -> _req_ids b !! i1 = Some (Some id1) -> _req_ids b !! i2 = Some (Some id2) -> i1 <> i2 -> swap_states b i1 i2 = Ok b' ->
  masks b' = <[id1 := mask_row b i2]> (masks b) /\ needs_prompt b' = needs_prompt b.
Proof.
  intros Hinv H1 H2 Hne H. destruct (swap_states_spec b hole i1 i2 id1 id2 Hinv H1 H2 Hne) as (b1 & Hb1 & _ & _ & _ & _ & _ & _ & _ & _ & Hm).
  rewrite H in Hb1. by injection Hb1 as <-.
Qed.

(** ** What the sampler sees *)

(** The mask goes to the sampler when some request of the batch restricts its
    tokens; then every request is masked by its row. *)
Lemma metadata_mask b md :
  _make_sampling_metadata b = Ok md ->
  md_allowed_token_ids_mask md = if bool_decide (has_allowed_token_ids (sets b) = ∅) then None else Some (map (mask_row b) (seq 0 (num_reqs b))).
Proof.
  unfold _make_sampling_metadata. intros H. apply bind_ok in H as (t & _ & H). apply bind_ok in H as (m & Hm & [= <-]). cbn. unfold no_allowed_token_ids in Hm.
  destruct (bool_decide _); [by injection Hm as <-|]. unfold mask_row. destruct (allowed_token_ids_mask_cpu (cols b)); [|done]. by injection Hm as <-.
Qed.
Lemma no_restriction b hole :
  rows_inv b hole -> (forall id w, contents b !! id = Some w -> fl_allowed (rw_flags w) = false) -> has_allowed_token_ids (sets b) = ∅.
Proof.
  intros Hinv H. apply elem_of_equiv_empty_L. intros id. apply (bool_decide_eq_false_1 (id ∈ has_allowed_token_ids (sets b))).
  destruct (req_id_to_index b !! id) as [i|] eqn:Ei.
  - apply (H id (row b id i)). by rewrite contents_lookup, Ei.
  - by destruct (no_flags_inv _ _ (ri_flags _ _ Hinv id Ei)) as (_ & _ & _ & _ & _ & _ & _ & _ & ? & _).
Qed.
