(* ===== verification/NgramProposer.v ===== *)
(** * The n-gram drafter

    [vllm/v1/spec_decode/ngram_proposer.py]: drafts for speculative decoding are the
    tokens that followed an earlier occurrence of the last tokens of the context.
    The occurrence is searched by the algorithm of Knuth, Morris and Pratt, which is
    shown equal to a search that tries every position. *)

From stdpp Require Import base list.
From Stdlib Require Import ZArith Lia.
From S2P Require Import Prelude.
Open Scope list_scope.
Open Scope Z_scope.

(** ** The code *)

Record NgramProposer : Type := {
  min_n : Z;
  max_n : Z;
  draft_k : Z;
  drafter_max_model_len : Z }.

(** The window sizes that [SpeculativeConfig.__post_init__] settles on. *)
Definition lookup_window (prompt_lookup_min prompt_lookup_max : option Z) : res (Z * Z) :=
  let '(lo, hi) :=
    match prompt_lookup_min, prompt_lookup_max with
    | None, None => (5, 5)
    | None, Some hi => (hi, hi)
    | Some lo, None => (lo, lo)
    | Some lo, Some hi => (lo, hi)
    end in
  if lo <? 1 then Raise ValueError
  else if hi <? 1 then Raise ValueError
  else if lo >? hi then Raise ValueError
  else Ok (lo, hi).

(** The loop of [_kmp_lps_array].  Compiled code does not check indices; an index
    out of range raises here, which is shown not to happen. *)
Fixpoint lps_loop (fuel : nat) (pattern : list Z) (lps : list nat) (prev_lps i : nat) : fueled (res (list nat)) :=
  if (i <? length pattern)%nat then
    match fuel with
    | O => OutOfFuel
    | S fuel =>
        match pattern !! i, pattern !! prev_lps with
        | Some x, Some y =>
            if x =? y then lps_loop fuel pattern (<[i := S prev_lps]> lps) (S prev_lps) (S i)
            else if (prev_lps =? 0)%nat then lps_loop fuel pattern (<[i := 0%nat]> lps) prev_lps (S i)
            else match lps !! (prev_lps - 1)%nat with
                 | Some prev_lps => lps_loop fuel pattern lps prev_lps i
                 | None => Done (Raise IndexError)
                 end
        | _, _ => Done (Raise IndexError)
        end
    end
  else Done (Ok lps).
Definition _kmp_lps_array (pattern : list Z) : fueled (res (list nat)) :=
  lps_loop (2 * length pattern) pattern (repeat 0%nat (length pattern)) 0 1.

(** The loop of [_find_subarray_kmp]. *)
Fixpoint kmp_loop (fuel : nat) (context_token_ids pattern : list Z) (lps : list nat) (n k : Z) (i j : nat) :
    fueled (res (option (list Z))) :=
  if Z.of_nat i <? Z.of_nat (length context_token_ids) - n then
    match fuel with
    | O => OutOfFuel
    | S fuel =>
        match context_token_ids !! i, pattern !! j with
        | Some x, Some y =>
            if x =? y then
              if Z.of_nat (S j) =? n then Done (Ok (Some (py_slice context_token_ids (Z.of_nat (S i)) (Z.of_nat (S i) + k))))
              else kmp_loop fuel context_token_ids pattern lps n k (S i) (S j)
            else if (j =? 0)%nat then kmp_loop fuel context_token_ids pattern lps n k (S i) j
            else match lps !! (j - 1)%nat with
                 | Some j => kmp_loop fuel context_token_ids pattern lps n k i j
                 | None => Done (Raise IndexError)
                 end
        | _, _ => Done (Raise IndexError)
        end
    end
  else Done (Ok None).
Definition _find_subarray_kmp (context_token_ids : list Z) (n k : Z) : fueled (res (option (list Z))) :=
  if 0 <? n then
    let pattern := py_from context_token_ids (- n) in
    match _kmp_lps_array pattern with
    | OutOfFuel => OutOfFuel
    | Done (Raise e) => Done (Raise e)
    | Done (Ok lps) => kmp_loop (2 * length context_token_ids) context_token_ids pattern lps n k 0 0
    end
  else Done (Raise AssertionError).

(** [for n in range(max_n, min_n - 1, -1)]: [d] sizes are left. *)
Fixpoint propose_loop (d : nat) (context_token_ids : list Z) (n k : Z) : fueled (res (option (list Z))) :=
  match d with
  | O => Done (Ok None)
  | S d =>
      match _find_subarray_kmp context_token_ids n k with
      | Done (Ok None) => propose_loop d context_token_ids (n - 1) k
      | r => r
      end
  end.
Definition propose (p : NgramProposer) (context_token_ids : list Z) : fueled (res (option (list Z))) :=
  let k := Z.min (draft_k p) (drafter_max_model_len p - Z.of_nat (length context_token_ids)) in
  if k <=? 0 then Done (Ok None)
  else propose_loop (Z.to_nat (max_n p - min_n p + 1)) context_token_ids (max_n p) k.

(** ** The reference: try every position *)

(** The first place where the last [n] tokens occur within the others. *)
Definition first_match (ctx : list Z) (n : nat) : option nat :=
  snd <$> list_find (fun s => take n (drop s ctx) = drop (length ctx - n) ctx) (seq 0 (length ctx + 1 - 2 * n)).
Definition drafts (ctx : list Z) (k : nat) (n : nat) : option (list Z) :=
  (fun s => take k (drop (s + n) ctx)) <$> first_match ctx n.
(** The drafts for the largest window that occurs. *)
Definition longest_drafts (p : NgramProposer) (ctx : list Z) : option (list Z) :=
  let k := Z.to_nat (Z.min (draft_k p) (drafter_max_model_len p - Z.of_nat (length ctx))) in
  if (k =? 0)%nat then None
  else head (omap (drafts ctx k) (rev (seq (Z.to_nat (min_n p)) (Z.to_nat (max_n p - min_n p + 1))))).

(** ** Borders *)

(** The first [n] elements of [p] are those of [c] from [s] on. *)
Definition agrees (p : list Z) (s : nat) (c : list Z) (n : nat) : Prop := forall t, (t < n)%nat -> c !! (s + t)%nat = p !! t.
Definition border (p : list Z) (m b : nat) : Prop := (b < m)%nat /\ agrees p (m - b) p b.
Definition longest_border (p : list Z) (m b : nat) : Prop := border p m b /\ forall b', border p m b' -> (b' <= b)%nat.
Definition lps_ok (p : list Z) (lps : list nat) (i : nat) : Prop :=
  forall m, (1 <= m <= i)%nat -> exists b, lps !! (m - 1)%nat = Some b /\ longest_border p m b.

Lemma agrees_shift p s c n d : agrees p s c n -> (d <= n)%nat -> forall t, (t < n - d)%nat -> c !! (s + d + t)%nat = p !! (d + t)%nat.
Proof. intros H Hd t Ht. rewrite <-Nat.add_assoc. apply H. lia. Qed.
(** Matching the border [b] of the first [j] elements. *)
Lemma agrees_border p s c j b : agrees p s c j -> border p j b -> agrees p (s + (j - b)) c b.
Proof. intros H [Hb Hp] t Ht. rewrite <-Nat.add_assoc, H by lia. by apply Hp. Qed.
(** Two overlapping matches give a border. *)
Lemma overlap_border p s c j s' : agrees p s c j -> (s < s' <= s + j)%nat -> agrees p s' c (s + j - s') -> border p j (s + j - s').
Proof.
  intros H Hs H'. split; [lia|]. intros t Ht. rewrite <-(H' t) by lia. rewrite <-(H (j - (s + j - s') + t)%nat) by lia. f_equal. lia.
Qed.
Lemma agrees_le p s c n n' : agrees p s c n -> (n' <= n)%nat -> agrees p s c n'.
Proof. intros H Hn t Ht. apply H. lia. Qed.
Lemma agrees_S p s c n : agrees p s c n -> c !! (s + n)%nat = p !! n -> agrees p s c (S n).
Proof. intros H Hn t Ht. destruct (decide (t = n)) as [->|]; [done|]. apply H. lia. Qed.
Lemma border_S p m b : border p (S m) (S b) -> border p m b /\ p !! m = p !! b.
Proof.
  intros [Hb H]. split; [split; [lia|]|].
  - intros t Ht. rewrite <-(H t) by lia. done.
  - rewrite <-(H b) by lia. f_equal. lia.
Qed.
Lemma S_border p m b : border p m b -> p !! m = p !! b -> border p (S m) (S b).
Proof. intros [Hb H] Hm. split; [lia|]. apply agrees_S; [exact H|]. rewrite <-Hm. f_equal. lia. Qed.
Lemma border_0 p m : (0 < m)%nat -> border p m 0.
Proof. intros H. split; [done|]. intros t Ht. lia. Qed.

Lemma lps_ok_next p lps i b :
  lps_ok p lps i -> (i < length lps)%nat -> longest_border p (S i) b -> lps_ok p (<[i := b]> lps) (S i).
Proof.
  intros H Hi Hb m Hm. destruct (decide (m = S i)) as [->|Hne].
  - exists b. replace (S i - 1)%nat with i by lia. by rewrite list_lookup_insert_eq.
  - rewrite list_lookup_insert_ne by lia. apply H. lia.
Qed.

(** Every round lowers [2 * (length p - i) + prev]. *)
Lemma lps_loop_ok p : forall fuel lps prev i,
  length lps = length p -> (1 <= i)%nat -> border p i prev -> lps_ok p lps i ->
  (forall b, border p (S i) (S b) -> (b <= prev)%nat) -> (2 * (length p - i) + prev <= fuel)%nat ->
  exists out, lps_loop fuel p lps prev i = Done (Ok out) /\ lps_ok p out (Nat.max i (length p)).
Proof.
  induction fuel as [|fuel IH]; intros lps prev i Hlen Hi Hb Hok Hmax Hf; cbn [lps_loop]; destruct (Nat.ltb_spec i (length p)) as [Hlt|Hge].
  1: lia. 1,3: exists lps; by replace (Nat.max i (length p)) with i by lia.
  destruct (lookup_lt_is_Some_2 p i Hlt) as [x Hx]. destruct Hb as [Hb1 Hb2].
  destruct (lookup_lt_is_Some_2 p prev ltac:(lia)) as [y Hy]. rewrite Hx, Hy. destruct (Z.eqb_spec x y) as [->|Hne].
  - assert (Hl : longest_border p (S i) (S prev)).
    { split; [apply S_border; [by split|congruence]|]. intros [|b] Hb'; [lia|]. by apply Hmax in Hb'; lia. }
    replace (Nat.max i (length p)) with (Nat.max (S i) (length p)) by lia. apply IH; rewrite ?length_insert; try lia; try apply Hl.
    + apply lps_ok_next; [done|lia|done].
    + intros b [Hb' _]%border_S. by apply Hl.
  - destruct (Nat.eqb_spec prev 0) as [->|Hp].
    + assert (Hl : longest_border p (S i) 0).
      { split; [apply border_0; lia|]. intros [|b] Hb'; [lia|]. pose proof (Hmax b Hb'). apply border_S in Hb' as [_ Hb']. replace b with 0%nat in Hb' by lia. congruence. }
      replace (Nat.max i (length p)) with (Nat.max (S i) (length p)) by lia. apply IH; rewrite ?length_insert; try lia; try apply Hl.
      * apply lps_ok_next; [done|lia|done].
      * intros b [Hb' _]%border_S. by apply Hl.
    + destruct (Hok prev ltac:(lia)) as (b & Eb & [Hb3 Hb4] & Hb5). rewrite Eb. apply IH; try lia; try done.
      * split; [lia|]. replace (i - b)%nat with (i - prev + (prev - b))%nat by lia. apply agrees_border with (j := prev); [done|by split].
      * intros b' Hb'. pose proof (Hmax b' Hb') as Hle. apply border_S in Hb' as [[Hb' Hag] Heq].
        assert (b' <> prev) by congruence. apply Hb5. replace b' with (i - prev + prev - (i - b'))%nat by lia.
        apply (overlap_border p (i - prev) p prev (i - b')); [done|lia|]. by replace (i - prev + prev - (i - b'))%nat with b' by lia.
Qed.

Lemma kmp_lps_array_ok p : exists lps, _kmp_lps_array p = Done (Ok lps) /\ lps_ok p lps (length p).
Proof.
  destruct p as [|x p]; [exists []; split; [done|]; intros m Hm; cbn in Hm; lia|]. set (q := x :: p).
  destruct (lps_loop_ok q (2 * length q) (repeat 0%nat (length q)) 0 1) as (out & Hout & Hok).
  - apply repeat_length.
  - done.
  - apply border_0. lia.
  - intros m Hm. exists 0%nat. replace m with 1%nat by lia. split; [done|]. split; [apply border_0; lia|]. intros b [Hb _]. lia.
  - intros b [[Hb _] _]%border_S. lia.
  - lia.
  - exists out. split; [exact Hout|]. replace (length q) with (Nat.max 1 (length q)); [done|]. cbn. lia.
Qed.

(** ** The search *)

(** An occurrence of the pattern of [n] tokens at [s], within all but the last [n]. *)
Definition occurs (ctx p : list Z) (n s : nat) : Prop := (s + n <= length ctx - n)%nat /\ agrees p s ctx n.
Definition first_occurrence (ctx p : list Z) (n : nat) (o : option nat) : Prop :=
  match o with
  | Some s => occurs ctx p n s /\ forall s', (s' < s)%nat -> ~ occurs ctx p n s'
  | None => forall s, ~ occurs ctx p n s
  end.
Definition following (ctx : list Z) (k n : nat) (s : nat) : list Z := take k (drop (s + n) ctx).

Lemma slice_take {A} (l : list A) (i k : nat) : (i <= length l)%nat -> py_slice l (Z.of_nat i) (Z.of_nat (i + k)) = take k (drop i l).
Proof.
  intros Hi. destruct (Nat.le_gt_cases (i + k) (length l)).
  - rewrite py_slice_drop_take by lia. f_equal. lia.
  - unfold py_slice, py_index. rewrite !(proj2 (Z.ltb_ge _ 0)) by lia. rewrite Z.min_l, Z.min_r by lia. rewrite Nat2Z.id.
    rewrite !take_ge; [done|rewrite length_drop; lia|rewrite length_drop; lia].
Qed.

(** Every round lowers [2 * (length ctx - n - i) + j]. *)
Lemma kmp_loop_ok ctx p lps (n k : nat) :
  length p = n -> lps_ok p lps n -> forall fuel i j,
  (j <= i)%nat -> (j < n)%nat -> agrees p (i - j) ctx j -> (forall s, (s < i - j)%nat -> ~ occurs ctx p n s) ->
  (2 * (length ctx - n - i) + j <= fuel)%nat ->
  exists o, kmp_loop fuel ctx p lps (Z.of_nat n) (Z.of_nat k) i j = Done (Ok (following ctx k n <$> o)) /\ first_occurrence ctx p n o.
Proof.
  intros Hlen Hlps. induction fuel as [|fuel IH]; intros i j Hj Hjn Hag Hno Hf; cbn [kmp_loop];
    destruct (Z.ltb_spec (Z.of_nat i) (Z.of_nat (length ctx) - Z.of_nat n)) as [Hlt|Hge].
  1: lia. 1,3: exists None; split; [done|]; intros s [Hs Ha]; apply (Hno s); [lia|done].
  destruct (lookup_lt_is_Some_2 ctx i ltac:(lia)) as [x Hx]. destruct (lookup_lt_is_Some_2 p j ltac:(lia)) as [y Hy]. rewrite Hx, Hy.
  destruct (Z.eqb_spec x y) as [->|Hne].
  - assert (Hag' : agrees p (i - j) ctx (S j)).
    { apply agrees_S; [done|]. rewrite Hy, <-Hx. f_equal. lia. }
    destruct (Z.eqb_spec (Z.of_nat (S j)) (Z.of_nat n)) as [He|He].
    + exists (Some (i - j)%nat). split; [|split; [split; [lia|by replace n with (S j) by lia]|done]].
      cbn. unfold following. do 3 f_equal. replace (Z.of_nat (S i) + Z.of_nat k) with (Z.of_nat (S i + k)) by lia.
      rewrite slice_take by lia. do 2 f_equal. lia.
    + apply IH; try lia; [by replace (S i - S j)%nat with (i - j)%nat by lia|by replace (S i - S j)%nat with (i - j)%nat by lia].
  - destruct (Nat.eqb_spec j 0) as [->|Hj0].
    + apply IH; try lia; [intros t Ht; lia|]. intros s Hs [Hs1 Hs2]. destruct (decide (s = i)) as [->|]; [|by apply (Hno s); [lia|]].
      specialize (Hs2 0%nat ltac:(lia)). rewrite Nat.add_0_r in Hs2. congruence.
    + destruct (Hlps j ltac:(lia)) as (b & Eb & [Hb1 Hb2] & Hb3). rewrite Eb. apply IH; try lia.
      * replace (i - b)%nat with (i - j + (j - b))%nat by lia. apply agrees_border with (j := j); [done|by split].
      * intros s Hs [Hs1 Hs2]. destruct (Nat.lt_trichotomy s (i - j)) as [Hlt'|[->|Hgt]]; [by apply (Hno s)| |].
        -- specialize (Hs2 j ltac:(lia)). replace (i - j + j)%nat with i in Hs2 by lia. congruence.
        -- assert (Hbd : border p j (i - j + j - s)) by (apply (overlap_border p (i - j) ctx j s); [done|lia|by apply (agrees_le _ _ _ n); [|lia]]).
           apply Hb3 in Hbd. lia.
Qed.

Lemma occurs_iff ctx n s :
  occurs ctx (drop (length ctx - n) ctx) n s <-> (s < length ctx + 1 - 2 * n)%nat /\ take n (drop s ctx) = drop (length ctx - n) ctx \/ (s + n <= length ctx - n)%nat /\ n = 0%nat.
Proof.
  split.
  - intros [Hs Ha]. destruct (decide (n = 0%nat)) as [->|Hn]; [by right|]. left. split; [lia|]. apply list_eq. intros t. destruct (Nat.lt_ge_cases t n).
    + rewrite lookup_take_lt, lookup_drop by done. by apply Ha.
    + rewrite lookup_take_ge, lookup_drop by done. symmetry. apply lookup_ge_None. lia.
  - intros [[Hs He]|[Hs ->]]; [|split; [done|intros t Ht; lia]]. split; [lia|]. intros t Ht. by rewrite <-lookup_drop, <-(lookup_take_lt _ n), He.
Qed.

Lemma first_match_ok ctx n o : (0 < n)%nat -> first_occurrence ctx (drop (length ctx - n) ctx) n o -> first_match ctx n = o.
Proof.
  intros Hn. unfold first_match. destruct o as [s|]; cbn; intros H.
  - destruct H as [Hs Hmin]. apply occurs_iff in Hs as [[Hs He]|[_ ?]]; [|lia].
    rewrite (proj2 (list_find_Some _ _ s s)); [done|]. split; [apply lookup_seq; lia|]. split; [done|]. intros s' y [-> Hy]%lookup_seq Hlt Hy'.
    apply (Hmin s' Hlt). apply occurs_iff. left. by split; [lia|].
  - rewrite (proj2 (list_find_None _ _)); [done|]. apply Forall_forall. intros s Hs%elem_of_seq He. apply (H s). apply occurs_iff. left. by split; [lia|].
Qed.

(** The search for a window of any size finds what the reference finds. *)
Lemma find_subarray_ok ctx (n k : nat) : (0 < n)%nat -> _find_subarray_kmp ctx (Z.of_nat n) (Z.of_nat k) = Done (Ok (drafts ctx k n)).
Proof.
  intros Hn. unfold _find_subarray_kmp. rewrite (proj2 (Z.ltb_lt 0 (Z.of_nat n))) by lia.
  assert (Hp : py_from ctx (- Z.of_nat n) = drop (length ctx - n) ctx).
  { unfold py_from, py_slice, py_index. rewrite (proj2 (Z.ltb_lt (- Z.of_nat n) 0)) by lia. rewrite (proj2 (Z.ltb_ge _ 0)) by lia. rewrite Z.min_id, take_ge; [f_equal; lia|].
    rewrite length_drop. lia. }
  rewrite Hp. destruct (kmp_lps_array_ok (drop (length ctx - n) ctx)) as (lps & -> & Hlps). destruct (Nat.lt_ge_cases (length ctx) n) as [Hlt|Hge].
  - assert (Hnone : first_match ctx n = None).
    { unfold first_match. replace (length ctx + 1 - 2 * n)%nat with 0%nat by lia. done. }
    unfold drafts. rewrite Hnone. by destruct (2 * length ctx)%nat; cbn [kmp_loop]; rewrite (proj2 (Z.ltb_ge _ _)) by lia.
  - destruct (kmp_loop_ok ctx (drop (length ctx - n) ctx) lps n k) with (fuel := (2 * length ctx)%nat) (i := 0%nat) (j := 0%nat) as (o & -> & Ho);
      try lia; [rewrite length_drop; lia|by replace (length (drop (length ctx - n) ctx)) with n in Hlps by (rewrite length_drop; lia)|intros t Ht; lia|].
    unfold drafts. by rewrite (first_match_ok ctx n o Hn Ho).
Qed.

Lemma propose_loop_ok ctx (k : nat) : forall d lo, (0 < lo)%nat ->
  propose_loop d ctx (Z.of_nat (lo + d) - 1) (Z.of_nat k) = Done (Ok (head (omap (drafts ctx k) (rev (seq lo d))))).
Proof.
  induction d as [|d IH]; intros lo Hlo; [done|]. rewrite seq_S, rev_app_distr. cbn [rev app propose_loop].
  replace (Z.of_nat (lo + S d) - 1) with (Z.of_nat (lo + d)) by lia. rewrite find_subarray_ok by lia. cbn [omap list_omap].
  destruct (drafts ctx k (lo + d)) as [l|]; [done|]. by apply IH.
Qed.
Lemma propose_reference p ctx : 0 < min_n p -> min_n p <= max_n p + 1 -> propose p ctx = Done (Ok (longest_drafts p ctx)).
Proof.
  intros Hlo Hhi. unfold propose, longest_drafts. set (k := Z.min _ _). destruct (Z.leb_spec k 0) as [Hk|Hk]; [by replace (Z.to_nat k) with 0%nat by lia|].
  destruct (Nat.eqb_spec (Z.to_nat k) 0); [lia|]. rewrite <-(propose_loop_ok ctx (Z.to_nat k)) by lia. f_equal; lia.
Qed.

Lemma lookup_window_ok lo hi a b : lookup_window lo hi = Ok (a, b) -> 0 < a <= b.
Proof.
  unfold lookup_window. destruct (match lo with Some _ => _ | None => _ end) as [x y]. zcases; try done. intros [= <- <-]. lia.
Qed.
Lemma first_match_spec ctx n s : first_match ctx n = Some s -> (s + 2 * n <= length ctx)%nat /\ take n (drop s ctx) = drop (length ctx - n) ctx.
Proof.
  unfold first_match. destruct (list_find _ _) as [[i s']|] eqn:E; [|done]. intros [= <-]. apply list_find_Some in E as ([-> Hi]%lookup_seq & He & _).
  cbn in *. split; [lia|done].
Qed.
(** What a draft is: the tokens after an earlier occurrence of the last [n] tokens. *)
Definition is_draft (p : NgramProposer) (ctx l : list Z) : Prop :=
  exists n s, min_n p <= Z.of_nat n <= max_n p /\ (s + 2 * n <= length ctx)%nat /\ take n (drop s ctx) = drop (length ctx - n) ctx /\
    l = take (length l) (drop (s + n) ctx).
Lemma longest_drafts_spec p ctx l :
  0 < min_n p -> longest_drafts p ctx = Some l ->
  0 < Z.of_nat (length l) <= draft_k p /\ Z.of_nat (length ctx + length l) <= drafter_max_model_len p /\ is_draft p ctx l.
Proof.
  intros Hmin. unfold longest_drafts. set (k := Z.min _ _). destruct (Nat.eqb_spec (Z.to_nat k) 0) as [|Hk]; [done|]. intros Hl%head_Some_elem_of.
  apply list_elem_of_omap in Hl as (n & Hn & Hd). rewrite list_elem_of_In, <-in_rev, <-list_elem_of_In in Hn. apply elem_of_seq in Hn.
  unfold drafts in Hd. destruct (first_match ctx n) as [s|] eqn:Es; [|done]. injection Hd as <-. apply first_match_spec in Es as [Hs He].
  assert (Hlen : length (take (Z.to_nat k) (drop (s + n) ctx)) = Nat.min (Z.to_nat k) (length ctx - (s + n))) by (by rewrite length_take, length_drop).
  split; [lia|]. split; [lia|]. exists n, s. split; [lia|]. split; [done|]. split; [done|]. rewrite Hlen.
  destruct (Nat.le_gt_cases (Z.to_nat k) (length ctx - (s + n))); [by rewrite Nat.min_l|]. rewrite Nat.min_r by lia. by rewrite !take_ge by (rewrite length_drop; lia).
Qed.

(** C25. With window sizes that the configuration accepts the drafter stops,
    raises nothing and returns what trying every window size and every position
    returns: the tokens after the first earlier occurrence of the last [n] tokens,
    for the largest [n] of the window that occurs.  Drafts are never empty, there
    are at most [k] of them, and they stay within the model length. *)
Theorem propose_is_search p ctx lo hi :
  lookup_window lo hi = Ok (min_n p, max_n p) ->
  propose p ctx = Done (Ok (longest_drafts p ctx)) /\
  forall l, longest_drafts p ctx = Some l ->
    0 < Z.of_nat (length l) <= draft_k p /\ Z.of_nat (length ctx + length l) <= drafter_max_model_len p /\ is_draft p ctx l.
Proof.
  intros Hw%lookup_window_ok. split; [apply propose_reference; lia|]. intros l. apply longest_drafts_spec. lia.
Qed.
(** The example of the docstring, and a pattern with a border. *)
Definition demo_drafter : NgramProposer := {| min_n := 2; max_n := 3; draft_k := 4; drafter_max_model_len := 100 |}.
Lemma propose_is_search_witness :
  lookup_window (Some 2) (Some 3) = Ok (2, 3) /\ propose demo_drafter [1; 2; 3; 4; 2; 3] = Done (Ok (Some [4; 2; 3])) /\
  propose demo_drafter [1; 1; 2; 1; 1; 1; 2; 5; 1; 1; 2] = Done (Ok (longest_drafts demo_drafter [1; 1; 2; 1; 1; 1; 2; 5; 1; 1; 2])).
Proof. split; [reflexivity|]. split; [vm_compute; reflexivity|]. by apply (propose_is_search demo_drafter _ (Some 2) (Some 3)). Defined.

(** The smallest window defaults to the largest one, not to 1. *)
Lemma lookup_min_default : lookup_window None (Some 4) = Ok (4, 4) /\ lookup_window None None = Ok (5, 5).
Proof. split; reflexivity. Qed.
