(* ===== verification/ModelRunner.v ===== *)
(** * The autoregressive step of the model runner

    [vllm/v1/worker/gpu_model_runner.py]: the cached states of the requests, how a
    scheduler output updates them and the persistent batch ([_update_states]), and
    the reordering of the batch for backends that treat decodes and prefills
    differently ([v1/attention/backends/utils.py]).

    Multi-modal inputs and M-RoPE are left out. *)

From stdpp Require Import base functions gmap strings list fin_sets.
From Stdlib Require Import ZArith QArith Lia.
From S2P Require Import Prelude BlockTable Request SchedulerTypes LogitsProcessors InputBatch NgramProposer.
Open Scope list_scope.
Open Scope Z_scope.

(** ** Data *)

(** The buffers that are reused in every step: [arange_np], and the arrays with
    their copies on the device. *)
Record Buffers : Type := {
  arange_np : list Z;
  input_ids_cpu : list Z;
  input_ids : list Z;
  positions_np : list Z;
  positions : list Z;
  query_start_loc_np : list Z;
  query_start_loc : list Z;
  seq_lens_np : list Z;
  seq_lens : list Z }.

(** [GPUModelRunner]: [cached_requests] is [self.requests], [encoder_outputs] the
    keys of [self.encoder_cache]. *)
Record Runner : Type := {
  cached_requests : gmap string CachedRequestState;
  encoder_outputs : gmap string (gset Z);
  input_batch : InputBatch;
  buffers : Buffers;
  num_kv_cache_groups : nat;
  reorder_batch_threshold : option Z;
  is_last_rank : bool;
  drafter : option NgramProposer;
  runner_max_model_len : Z }.

Definition with_requests (r : Runner) (reqs : gmap string CachedRequestState) : Runner :=
  {| cached_requests := reqs; encoder_outputs := encoder_outputs r; input_batch := input_batch r; buffers := buffers r;
     num_kv_cache_groups := num_kv_cache_groups r; reorder_batch_threshold := reorder_batch_threshold r; is_last_rank := is_last_rank r;
     drafter := drafter r; runner_max_model_len := runner_max_model_len r |}.
Definition with_encoder (r : Runner) (enc : gmap string (gset Z)) : Runner :=
  {| cached_requests := cached_requests r; encoder_outputs := enc; input_batch := input_batch r; buffers := buffers r;
     num_kv_cache_groups := num_kv_cache_groups r; reorder_batch_threshold := reorder_batch_threshold r; is_last_rank := is_last_rank r;
     drafter := drafter r; runner_max_model_len := runner_max_model_len r |}.
Definition with_batch (r : Runner) (b : InputBatch) : Runner :=
  {| cached_requests := cached_requests r; encoder_outputs := encoder_outputs r; input_batch := b; buffers := buffers r;
     num_kv_cache_groups := num_kv_cache_groups r; reorder_batch_threshold := reorder_batch_threshold r; is_last_rank := is_last_rank r;
     drafter := drafter r; runner_max_model_len := runner_max_model_len r |}.
Definition with_buffers (r : Runner) (u : Buffers) : Runner :=
  {| cached_requests := cached_requests r; encoder_outputs := encoder_outputs r; input_batch := input_batch r; buffers := u;
     num_kv_cache_groups := num_kv_cache_groups r; reorder_batch_threshold := reorder_batch_threshold r; is_last_rank := is_last_rank r;
     drafter := drafter r; runner_max_model_len := runner_max_model_len r |}.

(** [GPUModelRunner.__init__] *)
Definition make_buffers (max_num_reqs max_model_len max_num_tokens : nat) : Buffers :=
  let tokens := repeat 0 max_num_tokens in
  {| arange_np := np_arange (Z.of_nat (Nat.max (max_num_reqs + 1) (Nat.max max_model_len max_num_tokens)));
     input_ids_cpu := tokens; input_ids := tokens; positions_np := tokens; positions := tokens;
     query_start_loc_np := repeat 0 (max_num_reqs + 1); query_start_loc := repeat 0 (max_num_reqs + 1);
     seq_lens_np := repeat 0 max_num_reqs; seq_lens := repeat 0 max_num_reqs |}.
Definition make_runner (max_num_reqs max_model_len max_num_tokens vocab_size : nat) (block_sizes : list Z)
    (reorder_batch_threshold : option Z) (is_last_rank : bool) (drafter : option NgramProposer) : Runner :=
  {| cached_requests := ∅; encoder_outputs := ∅;
     input_batch := make_input_batch max_num_reqs max_model_len max_num_tokens vocab_size block_sizes
                      (match drafter with Some _ => true | None => false end);
     buffers := make_buffers max_num_reqs max_model_len max_num_tokens; num_kv_cache_groups := length block_sizes;
     reorder_batch_threshold := reorder_batch_threshold; is_last_rank := is_last_rank; drafter := drafter;
     runner_max_model_len := Z.of_nat max_model_len |}.

(** ** Changes of a cached state *)

Definition cr_update (q : CachedRequestState) (blocks : list (list Z)) (computed : Z) (output : list Z) : CachedRequestState :=
  {| cr_req_id := cr_req_id q; cr_prompt_token_ids := cr_prompt_token_ids q; cr_sampling_params := cr_sampling_params q;
     cr_pooling := cr_pooling q; cr_generator := cr_generator q; cr_block_ids := blocks; cr_num_computed_tokens := computed;
     cr_output_token_ids := output; cr_lora_request := cr_lora_request q |}.
(** The number of output tokens of a request, for the lists that the batch shares. *)
Definition out_len (reqs : gmap string CachedRequestState) (id : string) : Z :=
  match reqs !! id with Some q => Z.of_nat (length (cr_output_token_ids q)) | None => 0 end.

(** ** Leaving the batch *)

(** [for req_id in ids: self.input_batch.remove_request(req_id)] *)
Fixpoint remove_requests (b : InputBatch) (ids : list string) : res InputBatch :=
  match ids with
  | [] => Ok b
  | id :: ids => let! '(_, b) := remove_request b id in remove_requests b ids
  end.
(** The finished requests leave the cached states and the batch. *)
Definition drop_finished (r : Runner) (finished : gset string) : res Runner :=
  let r := with_requests r (foldr delete (cached_requests r) (elements finished)) in
  let r := with_encoder r (foldr delete (encoder_outputs r) (elements finished)) in
  let! b := remove_requests (input_batch r) (elements finished) in
  Ok (with_batch r b).
Definition free_encoder_output (c : gmap string (gset Z)) (e : string * Z) : gmap string (gset Z) :=
  match c !! e.1 with
  | Some ids => let ids := ids ∖ {[e.2]} in if bool_decide (ids = ∅) then delete e.1 c else <[e.1 := ids]> c
  | None => c
  end.
(** [cached_req_ids - scheduled_req_ids] *)
Definition unscheduled_req_ids (b : InputBatch) (out : SchedulerOutput) : gset string :=
  dom (req_id_to_index b) ∖ list_to_set (map fst (num_scheduled_tokens out)).

(** ** New requests *)

Section update.
(** What [pooler.get_pooling_updates] makes of the pooling parameters of a request:
    [requires_token_ids], or [None] without a task. *)
Context (pooling_update : string -> option bool).

Definition new_state (d : NewRequestData) : res CachedRequestState :=
  let generator :=
    match new_sampling_params d with
    | Some p => match sampling_type p with RANDOM_SEED => sp_seed p | _ => None end
    | None => None
    end in
  let! pooling :=
    (if new_pooling_params d then let! needs := of_option AssertionError (pooling_update (new_req_id d)) in Ok (Some needs) else Ok None) in
  Ok {| cr_req_id := new_req_id d; cr_prompt_token_ids := new_prompt_token_ids d; cr_sampling_params := new_sampling_params d;
        cr_pooling := pooling; cr_generator := generator; cr_block_ids := new_block_ids_of d;
        cr_num_computed_tokens := SchedulerTypes.new_num_computed_tokens d; cr_output_token_ids := [];
        cr_lora_request := new_lora_request d |}.
(** The new states, and the ids to add to the batch. *)
Fixpoint add_new_states (reqs : gmap string CachedRequestState) (l : list NewRequestData) : res (gmap string CachedRequestState * list string) :=
  match l with
  | [] => Ok (reqs, [])
  | d :: l =>
      let! q := new_state d in
      let! '(reqs, ids) := add_new_states (<[new_req_id d := q]> reqs) l in
      Ok (reqs, new_req_id d :: ids)
  end.

(** ** Running and resumed requests *)

(** [zip(req_state.block_ids, new_block_ids)] with [extend] *)
Fixpoint extend_blocks (block_ids new_block_ids : list (list Z)) : list (list Z) :=
  match block_ids, new_block_ids with
  | ids :: block_ids, new_ids :: new_block_ids => (ids ++ new_ids) :: extend_blocks block_ids new_block_ids
  | _, _ => block_ids
  end.
(** The tokens sampled in the previous step, sent back by the scheduler. *)
Definition extend_output (q : CachedRequestState) (num_computed_tokens : Z) (new_token_ids : list Z) : res (list Z) :=
  let num_new_tokens := num_computed_tokens + Z.of_nat (length new_token_ids) - Z.of_nat (cr_num_tokens q) in
  if num_new_tokens =? 1 then
    let! x := py_nth new_token_ids (-1) in
    Ok (cr_output_token_ids q ++ [x])
  else if 0 <? num_new_tokens then Ok (cr_output_token_ids q ++ py_from new_token_ids (- num_new_tokens))
  else Ok (cr_output_token_ids q).

(** [token_ids_cpu[i, start:end] = ids] *)
Definition write_tokens (c : Columns) (i : nat) (s e : nat) (ids : list Z) : res Columns :=
  let! row := np_slice_set (token_ids_cpu c i) s e ids in
  Ok {| token_ids_cpu := <[i := row]> (token_ids_cpu c); ib_num_tokens := ib_num_tokens c; num_tokens_no_spec := num_tokens_no_spec c;
        num_prompt_tokens := num_prompt_tokens c; num_computed_tokens_cpu := num_computed_tokens_cpu c;
        temperature_cpu := temperature_cpu c; top_p_cpu := top_p_cpu c; top_k_cpu := top_k_cpu c;
        frequency_penalties_cpu := frequency_penalties_cpu c; presence_penalties_cpu := presence_penalties_cpu c;
        repetition_penalties_cpu := repetition_penalties_cpu c; request_lora_mapping := request_lora_mapping c;
        logits_processing_needs_token_ids := logits_processing_needs_token_ids c;
        allowed_token_ids_mask_cpu := allowed_token_ids_mask_cpu c |}.
Definition set_counts (c : Columns) (i : nat) (num_tokens no_spec : nat) (computed : Z) : Columns :=
  {| token_ids_cpu := token_ids_cpu c; ib_num_tokens := <[i := num_tokens]> (ib_num_tokens c);
     num_tokens_no_spec := <[i := no_spec]> (num_tokens_no_spec c);
     num_prompt_tokens := num_prompt_tokens c; num_computed_tokens_cpu := <[i := computed]> (num_computed_tokens_cpu c);
     temperature_cpu := temperature_cpu c; top_p_cpu := top_p_cpu c; top_k_cpu := top_k_cpu c;
     frequency_penalties_cpu := frequency_penalties_cpu c; presence_penalties_cpu := presence_penalties_cpu c;
     repetition_penalties_cpu := repetition_penalties_cpu c; request_lora_mapping := request_lora_mapping c;
     logits_processing_needs_token_ids := logits_processing_needs_token_ids c;
     allowed_token_ids_mask_cpu := allowed_token_ids_mask_cpu c |}.

(** The persistent batch's part: request [id] is in row [i]. *)
Definition update_row (last_rank : bool) (b : InputBatch) (i : nat) (id : string) (num_computed_tokens : Z) (new_block_ids : list (list Z))
    (new_token_ids spec_token_ids : list Z) : res InputBatch :=
  let c := set_counts (cols b) i (ib_num_tokens (cols b) i) (num_tokens_no_spec (cols b) i) num_computed_tokens in
  let! t := append_rows (block_table b) new_block_ids i in
  let! c :=
    (if last_rank then Ok c
     else
       let start := Z.to_nat num_computed_tokens in
       let stop := (start + length new_token_ids)%nat in
       let! c := write_tokens c i start stop new_token_ids in
       Ok (set_counts c i stop stop num_computed_tokens)) in
  let! c :=
    (match spec_token_ids with
     | [] => Ok c
     | _ =>
         let start := num_tokens_no_spec c i in
         let num_spec_tokens := length spec_token_ids in
         let! c := write_tokens c i start (start + num_spec_tokens) spec_token_ids in
         Ok (set_counts c i (ib_num_tokens c i + num_spec_tokens) (num_tokens_no_spec c i) num_computed_tokens)
     end) in
  Ok (with_cols b c t).

(** One request of [scheduled_cached_reqs]; the flag tells that it has to be added
    to the batch. *)
Definition update_cached_request (r : Runner) (out : SchedulerOutput) (i : nat) (req_id : string) : res (bool * Runner) :=
  let req_data := scheduled_cached_reqs out in
  let! q := of_option KeyError (cached_requests r !! req_id) in
  let! num_computed_tokens := of_option IndexError (cached_num_computed_tokens req_data !! i) in
  let! new_block_ids := of_option IndexError (cached_new_block_ids req_data !! i) in
  let! resumed := of_option IndexError (resumed_from_preemption req_data !! i) in
  let! new_token_ids := (if is_last_rank r then Ok [] else of_option IndexError (cached_new_token_ids req_data !! i)) in
  let! output := (if is_last_rank r then Ok (cr_output_token_ids q) else extend_output q num_computed_tokens new_token_ids) in
  let blocks := if resumed : bool then new_block_ids else extend_blocks (cr_block_ids q) new_block_ids in
  let r := with_requests r (<[req_id := cr_update q blocks num_computed_tokens output]> (cached_requests r)) in
  match req_id_to_index (input_batch r) !! req_id with
  | None => Ok (true, r)
  | Some row =>
      let spec_token_ids := default [] (dict_get (scheduled_spec_decode_tokens out) req_id) in
      let! b := update_row (is_last_rank r) (input_batch r) row req_id num_computed_tokens new_block_ids new_token_ids spec_token_ids in
      Ok (false, with_batch r b)
  end.
Fixpoint update_cached_requests (r : Runner) (out : SchedulerOutput) (i : nat) (ids : list string) : res (Runner * list string) :=
  match ids with
  | [] => Ok (r, [])
  | id :: ids =>
      let! '(add, r) := update_cached_request r out i id in
      let! '(r, to_add) := update_cached_requests r out (S i) ids in
      Ok (r, if add : bool then id :: to_add else to_add)
  end.

(** [for req_id in req_ids_to_add: self.input_batch.add_request(self.requests[req_id])] *)
Fixpoint add_requests (b : InputBatch) (reqs : gmap string CachedRequestState) (ids : list string) : res InputBatch :=
  match ids with
  | [] => Ok b
  | id :: ids =>
      let! q := of_option KeyError (reqs !! id) in
      let! '(_, b) := add_request b q in
      add_requests b reqs ids
  end.

(** ** Reordering *)

(** The rows of decodes and of prefills, in ascending order. *)
Fixpoint split_decodes (ids : list (option string)) (scheduled : list (string * Z)) (threshold : Z) (i : nat) : res (list nat * list nat) :=
  match ids with
  | [] => Ok ([], [])
  | id :: ids =>
      let! n := of_option KeyError (match id with Some id => dict_get scheduled id | None => None end) in
      let! '(decodes, prefills) := split_decodes ids scheduled threshold (S i) in
      Ok (if n <=? threshold then (i :: decodes, prefills) else (decodes, i :: prefills))
  end.
(** The decodes from the last one down against the prefills from the first one up. *)
Fixpoint swap_loop (b : InputBatch) (decodes_desc prefills : list nat) (num_decodes : nat) : res (bool * InputBatch) :=
  match decodes_desc, prefills with
  | decode_idx :: decodes_desc, prefill_idx :: prefills =>
      if (decode_idx <? num_decodes)%nat then Ok (false, b)
      else
        let! b := swap_states b prefill_idx decode_idx in
        let! '(_, b) := swap_loop b decodes_desc prefills num_decodes in
        Ok (true, b)
  | _, _ => Ok (false, b)
  end.
Definition reorder_batch_to_split_decodes_and_prefills (b : InputBatch) (out : SchedulerOutput) (decode_threshold : Z) : res (bool * InputBatch) :=
  let! '(decodes, prefills) := split_decodes (_req_ids b) (num_scheduled_tokens out) decode_threshold 0 in
  swap_loop b (rev decodes) prefills (length decodes).
Definition _may_reorder_batch (r : Runner) (out : SchedulerOutput) : res Runner :=
  if (num_kv_cache_groups r =? 0)%nat then Ok r
  else
    match reorder_batch_threshold r with
    | Some threshold =>
        let! '(_, b) := reorder_batch_to_split_decodes_and_prefills (input_batch r) out threshold in
        Ok (with_batch r b)
    | None => Ok r
    end.

(** ** The update *)

Definition _update_states (r : Runner) (out : SchedulerOutput) : res Runner :=
  let! r := drop_finished r (out_finished_req_ids out) in
  let r := with_encoder r (fold_left free_encoder_output (free_encoder_input_ids out) (encoder_outputs r)) in
  let! b := remove_requests (input_batch r) (elements (unscheduled_req_ids (input_batch r) out)) in
  let! '(reqs, new_ids) := add_new_states (cached_requests r) (scheduled_new_reqs out) in
  let r := with_batch (with_requests r reqs) b in
  let! '(r, resumed_ids) := update_cached_requests r out 0 (req_ids (scheduled_cached_reqs out)) in
  let! b := add_requests (input_batch r) (cached_requests r) (new_ids ++ resumed_ids) in
  let! b := condense b in
  let! r := _may_reorder_batch (with_batch r b) out in
  let! b := refresh_metadata (out_len (cached_requests r)) (input_batch r) in
  Ok (with_batch r b).
End update.
