(* ===== verification/RunnerUpdate.v ===== *)
(** * Updating the persistent batch

    The operations of [ModelRunner.v] on a batch, each against [contents]: leaving,
    advancing and joining requests, and reordering.  The sampling metadata of the
    batch is refreshed only when the batch changed; [good] states that it is always
    what a new computation would give. *)

From stdpp Require Import base functions gmap strings list fin_sets sorting.
From Stdlib Require Import ZArith QArith Lia.
From S2P Require Import Prelude BlockTable Request SchedulerTypes LogitsProcessors InputBatch InputBatchOk BatchMoves BatchMask ModelRunner.
Open Scope list_scope.
Open Scope Z_scope.

(** ** The mask of allowed tokens and the sampling metadata *)

Definition mask_ok (b : InputBatch) : Prop := has_allowed_token_ids (sets b) = ∅ \/ is_Some (allowed_token_ids_mask_cpu (cols b)).
(** Some change of the batch is recorded. *)
Definition recorded (u : BatchUpdateBuilder) : Prop := removed_ u <> [] \/ moved u <> [] \/ added u <> [].
Definition fresh (b : InputBatch) : Prop := _make_sampling_metadata b = Ok (sampling_metadata b).

Record good (b : InputBatch) : Prop := {
  g_ok : batch_ok b;
  g_mask : mask_ok b;
  g_md : recorded (batch_update_builder b) \/ fresh b }.

Lemma snoc_ne {A} (l : list A) x : l ++ [x] <> [].
Proof. destruct l; discriminate. Qed.
Lemma flags_none s : (forall id, flags s id = no_flags) ->
  has_allowed_token_ids s = ∅ /\ frequency_penalties_reqs s = ∅ /\ presence_penalties_reqs s = ∅ /\ repetition_penalties_reqs s = ∅.
Proof.
  intros H. repeat split; apply elem_of_equiv_empty_L; intros id; destruct (no_flags_inv _ _ (H id)) as (_&_&_&_&_&?&?&?&?&_); by eapply bool_decide_eq_false_1.
Qed.

(** The metadata can always be computed. *)
Lemma metadata_total b hole : rows_inv b hole -> mask_ok b -> exists md, _make_sampling_metadata b = Ok md.
Proof.
  intros Hinv Hmask. unfold _make_sampling_metadata. set (needs := negb (no_penalties b) || _).
  assert (Hp : exists p, (if needs then let! t := _make_prompt_token_ids_tensor b in Ok (Some t) else Ok None) = Ok p).
  { destruct needs eqn:En; [|by eexists]. unfold _make_prompt_token_ids_tensor. destruct (num_reqs b) as [|n] eqn:Hn; [|by eexists]. exfalso.
    apply map_size_empty_inv in Hn. destruct (flags_none (sets b)) as (_ & H1 & H2 & H3).
    { intros id. apply (ri_flags _ _ Hinv). by rewrite Hn, lookup_empty. }
    revert En. unfold needs, num_reqs, no_penalties. rewrite H1, H2, H3. by rewrite !bool_decide_true. }
  destruct Hp as (p & ->). cbn [bind]. unfold no_allowed_token_ids. destruct (bool_decide_reflect (has_allowed_token_ids (sets b) = ∅)) as [E|E]; [by eexists|].
  destruct Hmask as [?|[m ->]]; [done|]. by eexists.
Qed.

(** What the record and the metadata are computed from. *)
Definition same_record (b b' : InputBatch) : Prop :=
  batch_update_builder b' = batch_update_builder b /\ _make_sampling_metadata b' = _make_sampling_metadata b /\ sampling_metadata b' = sampling_metadata b.
Lemma good_same b b' : good b -> same_record b b' -> mask_ok b' -> batch_ok b' -> good b'.
Proof.
  intros [G1 G2 G3] (H1 & H2 & H3) Hm Hok. split; [done|done|]. rewrite H1. unfold fresh in *. rewrite H2, H3. done.
Qed.
Lemma good_recorded b : batch_ok b -> mask_ok b -> recorded (batch_update_builder b) -> good b.
Proof. intros. split; [done|done|by left]. Qed.

(** *** The mask under the operations *)

Lemma add_request_mask b q i b' : add_request b q = Ok (i, b') -> mask_ok b -> mask_ok b'.
Proof.
  unfold add_request, mask_ok. intros H Hm. apply bind_ok in H as ([idx b0] & Hreg & H).
  assert (Hb0 : sets b0 = sets b /\ cols b0 = cols b).
  { unfold _register_add_request, _get_next_add_index in Hreg. destruct (pop_removed _). apply bind_ok in Hreg as (? & _ & [= _ <-]). done. }
  apply bind_ok in H as ([ids outs] & _ & H). apply bind_ok in H as (c & Hc & H). apply bind_ok in H as (t & _ & H).
  assert (Hcm : allowed_token_ids_mask_cpu c = allowed_token_ids_mask_cpu (cols b)).
  { unfold copy_request in Hc. apply bind_ok in Hc as (? & _ & Hc). apply bind_ok in Hc as (? & _ & [= <-]). cbn. by destruct Hb0 as [_ ->]. }
  apply bind_ok in H as (b1 & Hb1 & H). injection H as _ <-.
  assert (H1 : has_allowed_token_ids (sets b1) = ∅ \/ is_Some (allowed_token_ids_mask_cpu (cols b1))).
  { destruct (cr_sampling_params q) as [p|].
    - unfold add_sampling in Hb1. apply bind_ok in Hb1 as (mask & Hmask & [= <-]). cbn. unfold add_to_mask in Hmask. cbn in Hmask.
      destruct (sp_allowed_token_ids p) as [|x l] eqn:Ea.
      + injection Hmask as <-. rewrite Hcm. rewrite bool_decide_true by done. cbn. by destruct Hb0 as [-> _].
      + right. apply bind_ok in Hmask as (? & _ & [= <-]). by eexists.
    - destruct (cr_pooling q); [|done]. injection Hb1 as <-. cbn. rewrite Hcm. by destruct Hb0 as [-> _]. }
  unfold add_lora. destruct (cr_lora_request q); exact H1.
Qed.

Lemma remove_request_mask b id i b' : remove_request b id = Ok (i, b') -> mask_ok b -> mask_ok b'.
Proof.
  unfold remove_request, mask_ok. destruct (req_id_to_index b !! id) as [k|]; [|by intros [= _ <-]]. intros H Hm.
  apply bind_ok in H as (u & _ & H). apply bind_ok in H as (ids & _ & H). apply bind_ok in H as (outs & _ & H). apply bind_ok in H as (b1 & H1 & [= _ <-]). cbn.
  assert (Hb1 : sets b1 = remove_from_sets (sets b) id /\ allowed_token_ids_mask_cpu (cols b1) = allowed_token_ids_mask_cpu (cols b)).
  { unfold remove_lora in H1. cbn in H1. destruct (_ =? 0); [by injection H1 as <-|]. apply bind_ok in H1 as (s & _ & H1). apply bind_ok in H1 as (b2 & H2 & [= <-]). cbn.
    destruct (bool_decide (s ∖ _ = ∅)); [destruct (bool_decide (_ ∈ _)); [|done]|]; by injection H2 as <-. }
  destruct Hb1 as [-> ->]. cbn. destruct Hm as [-> |[m ->]]; [left; set_solver|right; by eexists].
Qed.

Lemma swap_states_mask b i1 i2 b' : swap_states b i1 i2 = Ok b' -> mask_ok b -> mask_ok b'.
Proof.
  unfold swap_states, mask_ok. intros H Hm. repeat (apply bind_ok in H as (? & _ & H)).
  destruct x as [id1|]; [|done]. destruct x0 as [id2|]; [|done]. repeat (apply bind_ok in H as (? & _ & H)). injection H as <-. cbn.
  destruct Hm as [?|[m ->]]; [by left|right; by eexists].
Qed.
Lemma move_state_mask b src tgt b' : move_state b src tgt = Ok b' -> mask_ok b -> mask_ok b'.
Proof.
  unfold move_state, mask_ok. intros H Hm. repeat (apply bind_ok in H as (? & _ & H)). injection H as <-. cbn.
  destruct Hm as [?|[m ->]]; [by left|right; by eexists].
Qed.
Lemma condense_loop_mask fuel : forall b last b', condense_loop fuel b last = Ok b' -> mask_ok b -> mask_ok b'.
Proof.
  induction fuel as [|fuel IH]; intros b last b'; cbn [condense_loop]; [by intros [= <-]|].
  destruct (removed_ (batch_update_builder b)) as [|x l]; [by intros [= <-]|]. destruct (peek_removed _) as [[e|] u]; [|done].
  destruct (_ <=? _); [by intros [= <-]|]. intros H Hm. apply bind_ok in H as (b1 & H1 & H). eapply IH; [exact H|]. by eapply move_state_mask.
Qed.
Lemma condense_mask b b' : condense b = Ok b' -> mask_ok b -> mask_ok b'.
Proof.
  unfold condense. intros H Hm. destruct (removed_ _) as [|x l]; [by injection H as <-|]. destruct (_ =? 0)%nat; [by injection H as <-|].
  apply bind_ok in H as (b1 & H1 & [= <-]). exact (condense_loop_mask _ _ _ _ H1 Hm).
Qed.

(** ** Leaving *)

Lemma in_batch b id : req_id_to_index b !! id = None <-> contents b !! id = None.
Proof. rewrite contents_lookup. by rewrite fmap_None. Qed.

Lemma remove_request_good b id :
  good b -> is_removed_sorted (batch_update_builder b) = false ->
  exists b', remove_request b id = Ok (req_id_to_index b !! id, b') /\ good b' /\ contents b' = delete id (contents b) /\ settings b' = settings b /\
    is_removed_sorted (batch_update_builder b') = false /\ masks b' = delete id (masks b).
Proof.
  intros Hg Hs. destruct (remove_request_spec b id (g_ok _ Hg) Hs) as (b' & H1 & Hok & Hc & _ & Hst & Hs1 & _ & _ & _ & Hr). exists b'.
  destruct (remove_request_masks _ _ _ _ (g_ok _ Hg) H1) as [Hm _]. split; [done|]. split; [|done].
  destruct (req_id_to_index b !! id) as [k|] eqn:Ek.
  - apply good_recorded; [done|by eapply remove_request_mask, Hg|]. left. rewrite Hr. apply snoc_ne.
  - unfold remove_request in H1. rewrite Ek in H1. by injection H1 as <-.
Qed.
Lemma remove_requests_ok ids : forall b,
  good b -> is_removed_sorted (batch_update_builder b) = false ->
  exists b', remove_requests b ids = Ok b' /\ good b' /\ is_removed_sorted (batch_update_builder b') = false /\ settings b' = settings b /\
    (forall id, contents b' !! id = if decide (id ∈ ids) then None else contents b !! id) /\
    forall id, masks b' !! id = if decide (id ∈ ids) then None else masks b !! id.
Proof.
  assert (Hdel : forall A (m : gmap string A) i l id, (if decide (id ∈ l) then None else delete i m !! id) = if decide (id ∈ i :: l) then None else m !! id).
  { intros A m i l id. destruct (decide (id ∈ l)) as [Hin|Hin]; [by rewrite decide_True by (by right)|].
    destruct (decide (id = i)) as [->|Hne]; [rewrite decide_True by left; by rewrite lookup_delete_eq|]. rewrite decide_False by (by rewrite not_elem_of_cons).
    by rewrite lookup_delete_ne. }
  induction ids as [|i ids IH]; intros b Hg Hs; cbn [remove_requests].
  { exists b. do 4 (split; [done|]). split; intros id; (rewrite decide_False; [done|apply not_elem_of_nil]). }
  destruct (remove_request_good b i Hg Hs) as (b1 & H1 & Hg1 & Hc & Hst & Hs1 & Hm). rewrite H1. cbn [bind].
  destruct (IH b1 Hg1 Hs1) as (b' & -> & Hg' & Hs' & Hst' & Hc' & Hm'). exists b'. split; [done|]. split; [done|]. split; [done|]. split; [congruence|].
  split; intros id; [rewrite Hc', Hc|rewrite Hm', Hm]; apply Hdel.
Qed.

(** ** Joining *)

Lemma add_request_good b q :
  good b -> (num_reqs b < max_num_reqs b)%nat -> contents b !! cr_req_id q = None -> fits_row b q ->
  exists i b', add_request b q = Ok (i, b') /\ good b' /\ contents b' = <[cr_req_id q := row_of b q]> (contents b) /\ settings b' = settings b /\
    masks b' = <[cr_req_id q := default (mask_row b i) (wanted_mask b q)]> (masks b).
Proof.
  intros Hg Hroom Hnone Hfit. destruct (add_request_spec b q (g_ok _ Hg) Hroom) as (idx & b' & H1 & Hok & Hc & _ & Hst & _ & _ & Ha & _); [by apply in_batch|done|].
  exists idx, b'. destruct (add_request_masks b q idx b' (g_ok _ Hg) Hroom (proj2 (in_batch _ _) Hnone) Hfit H1) as [Hm _]. split; [done|]. split; [|done]. apply good_recorded; [done|by eapply add_request_mask, Hg|]. right; right. rewrite Ha. apply snoc_ne.
Qed.
Lemma add_requests_ok reqs ids : forall b,
  good b -> NoDup ids -> (num_reqs b + length ids <= max_num_reqs b)%nat ->
  (forall id, id ∈ ids -> contents b !! id = None /\ exists q, reqs !! id = Some q /\ cr_req_id q = id /\ fits_row b q) ->
  exists b', add_requests b reqs ids = Ok b' /\ good b' /\ settings b' = settings b /\
    (forall id, contents b' !! id = if decide (id ∈ ids) then row_of b <$> reqs !! id else contents b !! id) /\
    (forall id, id ∉ ids -> masks b' !! id = masks b !! id) /\
    forall id q m, id ∈ ids -> reqs !! id = Some q -> wanted_mask b q = Some m -> masks b' !! id = Some m.
Proof.
  induction ids as [|i ids IH]; intros b Hg Hnd Hroom Hids; cbn [add_requests].
  { exists b. split; [done|]. split; [done|]. split; [done|]. split; [intros id; rewrite decide_False; [done|apply not_elem_of_nil]|].
    split; [done|]. by intros id q m ?%elem_of_nil. }
  apply NoDup_cons in Hnd as [Hni Hnd]. destruct (Hids i) as (Hnone & q & Hq & Hqi & Hfit); [left|]. rewrite Hq. cbn [of_option bind]. cbn in Hroom.
  destruct (add_request_good b q Hg) as (idx & b1 & H1 & Hg1 & Hc & Hst & Hm); [lia|by rewrite Hqi|done|]. rewrite H1. cbn [bind].
  destruct (settings_limits _ _ Hst) as (Hmax & _ & Hvoc & _). rewrite Hqi in Hm.
  assert (Hother : forall id, id <> i -> contents b1 !! id = contents b !! id) by (intros id Hne; rewrite Hc, Hqi; by rewrite lookup_insert_ne).
  destruct (IH b1 Hg1 Hnd) as (b' & Hb' & Hg' & Hst' & Hc' & Hm1 & Hm2).
  { rewrite Hmax, num_reqs_contents, Hc, Hqi, map_size_insert_None by done. rewrite <-num_reqs_contents. lia. }
  { intros id Hid. destruct (Hids id) as (Hn & q' & Hq' & ? & ?); [by right|]. rewrite Hother by congruence. split; [done|].
    exists q'. split; [done|]. split; [done|]. by eapply fits_settings. }
  exists b'. split; [exact Hb'|]. split; [done|]. split; [congruence|]. split; [|split].
  - intros id. rewrite Hc'. destruct (decide (id ∈ ids)) as [Hin|Hin].
  + rewrite decide_True by (by right). destruct (reqs !! id); [|done]. cbn. f_equal. by apply row_of_settings.
  + destruct (decide (id = i)) as [->|Hne]; [rewrite decide_True by left; rewrite Hc, Hqi, lookup_insert_eq, Hq; done|].
    rewrite decide_False by (by rewrite not_elem_of_cons). by apply Hother.
  - intros id [Hne Hid]%not_elem_of_cons. rewrite Hm1, Hm by done. by rewrite lookup_insert_ne.
  - intros id q' m [->|Hid]%elem_of_cons Hq' Hw.
    + rewrite Hm1, Hm, lookup_insert_eq by done. rewrite Hq in Hq'. injection Hq' as <-. by rewrite Hw.
    + apply (Hm2 id q' m); [done|done|]. unfold wanted_mask in *. by rewrite Hvoc.
Qed.

(** ** Condensing *)

Lemma move_steps_recorded b b' : rtc move_step b b' -> recorded (batch_update_builder b) -> recorded (batch_update_builder b').
Proof.
  induction 1 as [|b1 b2 b3 (src & tgt & Hm) _ IH]; [done|]. intros _. apply IH. right; left. rewrite (mv_moved _ _ _ _ Hm). apply snoc_ne.
Qed.
(** A batch without empty rows, before the record of its changes is reset. *)
Record dense (b : InputBatch) : Prop := {
  de_rows : exists ids, _req_ids b = map Some ids /\ NoDup ids;
  de_inv : rows_inv b (fun _ => False);
  de_mask : mask_ok b;
  de_md : recorded (batch_update_builder b) \/ fresh b }.

Lemma condense_ok b : good b -> exists b', condense b = Ok b' /\ dense b' /\ contents b' = contents b /\ settings b' = settings b.
Proof.
  intros Hg. destruct (condense_spec b (g_ok _ Hg)) as (b' & Hb' & Hc & Hst & _ & (ids & Hids & Hnd & _) & Hinv & _ & b1 & Hr & Hu & _). exists b'. split; [done|].
  split; [|done]. split; [by exists ids|done|by eapply condense_mask, Hg|].
  destruct (ensure_sorted_ok _ (ri_builder _ _ (g_ok _ Hg))) as (_ & _ & Hp & Hm & Ha). set (b0 := with_builder b _) in Hr.
  assert (H0 : recorded (batch_update_builder b0) -> recorded (batch_update_builder b')) by (rewrite Hu; by apply move_steps_recorded).
  destruct (removed_ (batch_update_builder b0)) as [|x l] eqn:Er.
  - unfold condense in Hb'. fold b0 in Hb'. rewrite Er in Hb'. injection Hb' as <-. destruct (g_md _ Hg) as [Hrec|Hf]; [left|right; exact Hf].
    revert Hrec. unfold recorded. cbn. rewrite Hm, Ha. intros [Hrec|?]; [|by right]. exfalso. apply Hrec. cbn in Er. rewrite Er in Hp. by apply Permutation_nil_l in Hp.
  - left. apply H0. left. by rewrite Er.
Qed.

(** ** Reordering *)

Lemma swap_states_dense b i1 i2 :
  dense b -> (i1 < length (_req_ids b))%nat -> (i2 < length (_req_ids b))%nat -> i1 <> i2 ->
  exists b', swap_states b i1 i2 = Ok b' /\ dense b' /\ contents b' = contents b /\ settings b' = settings b /\
    length (_req_ids b') = length (_req_ids b) /\ forall k, _req_ids b' !! k = _req_ids b !! exchanged i1 i2 k.
Proof.
  intros [(ids & Hids & Hnd) Hinv Hm Hmd] H1 H2 Hne. rewrite Hids, length_map in H1, H2.
  destruct (lookup_lt_is_Some_2 ids i1 H1) as [id1 E1]. destruct (lookup_lt_is_Some_2 ids i2 H2) as [id2 E2].
  destruct (swap_states_spec b _ i1 i2 id1 id2 Hinv) as (b' & Hb' & Hinv' & Hc & Hst & Hids' & _ & Hu & _); [by rewrite Hids, list_lookup_fmap, E1|by rewrite Hids, list_lookup_fmap, E2|done|].
  exists b'. split; [done|].
  assert (Hl : length (_req_ids b') = length (_req_ids b)) by (by rewrite Hids', !length_insert).
  assert (Hk : forall k, _req_ids b' !! k = _req_ids b !! exchanged i1 i2 k).
  { intros k. rewrite Hids', Hids. unfold exchanged. destruct (decide (k = i1)) as [->|N1].
    - rewrite list_lookup_insert_ne, list_lookup_insert_eq by (try done; by rewrite length_map). by rewrite list_lookup_fmap, E2.
    - destruct (decide (k = i2)) as [->|N2]; [rewrite list_lookup_insert_eq by (by rewrite length_insert, length_map); by rewrite list_lookup_fmap, E1|].
      by rewrite !list_lookup_insert_ne. }
  split; [|by split; [|split; [|split]]].
  assert (Hids2 : _req_ids b' = map Some (<[i2 := id1]> (<[i1 := id2]> ids))) by (rewrite Hids', Hids, !list_fmap_insert; done).
  split; [|done|by eapply swap_states_mask|].
  - exists (<[i2 := id1]> (<[i1 := id2]> ids)). split; [done|]. apply NoDup_alt. intros k1 k2 x Hx1 Hx2.
    assert (G : forall k, <[i2:=id1]> (<[i1:=id2]> ids) !! k = Some x -> ids !! exchanged i1 i2 k = Some x).
    { intros k Hkx. assert (Hs : _req_ids b' !! k = Some (Some x)) by (rewrite Hids2, list_lookup_fmap, Hkx; done). rewrite Hk, Hids, list_lookup_fmap in Hs.
      destruct (ids !! exchanged i1 i2 k); [by injection Hs as ->|done]. }
    apply G in Hx1, Hx2. pose proof (NoDup_lookup _ _ _ _ Hnd Hx1 Hx2) as He. by rewrite <-(exchanged_exchanged i1 i2 k1), He, exchanged_exchanged.
  - left. rewrite Hu. right; left. apply snoc_ne.
Qed.

(** The rows of decodes, [f], and of prefills. *)
Section decodes_first.
Context (n nd : nat).
Implicit Type f : nat -> bool.
Definition count f : nat := length (List.filter f (seq 0 n)).

Lemma count_split f : (nd <= n)%nat -> count f = (length (List.filter f (seq 0 nd)) + length (List.filter f (seq nd (n - nd))))%nat.
Proof. intros H. unfold count. replace n with (nd + (n - nd))%nat at 1 by lia. by rewrite seq_app, List.filter_app, length_app. Qed.
Lemma filter_full f l : length (List.filter f l) = length l <-> forall k, k ∈ l -> f k = true.
Proof.
  induction l as [|x l IH]; cbn; [split; [by intros _ k ?%elem_of_nil|done]|]. pose proof (List.filter_length_le f l). destruct (f x) eqn:E; cbn.
  - split; [intros [= Hl] k [->|Hk]%elem_of_cons; [done|by apply IH]|intros Hk; f_equal; apply IH; intros k ?; apply Hk; by right].
  - split; [lia|]. intros Hk. rewrite Hk in E by left. done.
Qed.
Lemma filter_empty f l : length (List.filter f l) = 0%nat <-> forall k, k ∈ l -> f k = false.
Proof.
  induction l as [|x l IH]; cbn; [split; [by intros _ k ?%elem_of_nil|done]|]. destruct (f x) eqn:E; cbn.
  - split; [done|]. intros Hk. rewrite Hk in E by left. done.
  - rewrite IH. split; [intros H k [->|Hk]%elem_of_cons; [done|by apply H]|intros H k ?; apply H; by right].
Qed.
(** With [nd] decodes in all, the front is full of them when none is behind. *)
Lemma front_full f : (nd <= n)%nat -> count f = nd ->
  (forall k, (nd <= k < n)%nat -> f k = false) <-> (forall k, (k < nd)%nat -> f k = true).
Proof.
  intros Hn Hc. rewrite count_split in Hc by done. pose proof (filter_full f (seq 0 nd)) as H1. pose proof (filter_empty f (seq nd (n - nd))) as H2.
  rewrite length_seq in H1. setoid_rewrite elem_of_seq in H1. setoid_rewrite elem_of_seq in H2. split; intros H k Hk.
  - apply H1; [|lia]. enough (length (List.filter f (seq nd (n - nd))) = 0%nat) by lia. apply H2. intros j Hj. apply H. lia.
  - apply H2; [|lia]. enough (length (List.filter f (seq 0 nd)) = nd) by lia. apply H1. intros j Hj. apply H. lia.
Qed.
Lemma count_exchanged f i1 i2 : (i1 < n)%nat -> (i2 < n)%nat -> count (fun k => f (exchanged i1 i2 k)) = count f.
Proof.
  intros H1 H2. unfold count. assert (Hp : map (exchanged i1 i2) (seq 0 n) ≡ₚ seq 0 n).
  { apply NoDup_Permutation; [apply NoDup_fmap_2_strong; [|apply NoDup_seq]|apply NoDup_seq|].
    - intros x y _ _ Hxy. rewrite <-(exchanged_exchanged i1 i2 x), <-(exchanged_exchanged i1 i2 y). by f_equal.
    - intros k. rewrite list_elem_of_fmap. setoid_rewrite elem_of_seq. split.
      + intros (j & -> & Hj). unfold exchanged. repeat destruct (decide _); lia.
      + intros Hk. exists (exchanged i1 i2 k). rewrite exchanged_exchanged. split; [done|]. unfold exchanged. repeat destruct (decide _); lia. }
  assert (Hl : forall l, length (List.filter (fun k => f (exchanged i1 i2 k)) l) = length (List.filter f (map (exchanged i1 i2) l))).
  { induction l as [|x l IH]; cbn; [done|]. destruct (f (exchanged i1 i2 x)); cbn; by rewrite IH. }
  rewrite Hl. assert (Hpl : forall l l', l ≡ₚ l' -> length (List.filter f l) = length (List.filter f l')).
  { intros l l'. induction 1 as [|x l1 l2 _ IH|x y l1|l1 l2 l3 _ IH1 _ IH2]; cbn; [done|by destruct (f x); cbn; rewrite IH|by destruct (f x), (f y)|congruence]. }
  by apply Hpl.
Qed.
End decodes_first.

(** The exchanges put the decodes in front.  [f b k] tells a decode in row [k]. *)
Lemma swap_loop_ok (f : InputBatch -> nat -> bool) n nd ds : forall ps b,
  (forall b b' k i1 i2, _req_ids b' !! k = _req_ids b !! exchanged i1 i2 k -> f b' k = f b (exchanged i1 i2 k)) ->
  dense b -> length (_req_ids b) = n -> (nd <= n)%nat -> count n (f b) = nd ->
  StronglySorted (fun x y => y < x)%nat ds -> StronglySorted lt ps ->
  (forall k, k ∈ ds -> f b k = true /\ (k < n)%nat) -> (forall k, k ∈ ps -> f b k = false /\ (k < n)%nat) ->
  (forall k, (nd <= k < n)%nat -> f b k = true -> k ∈ ds) -> (forall k, (k < nd)%nat -> f b k = false -> k ∈ ps) ->
  exists m b', swap_loop b ds ps nd = Ok (m, b') /\ dense b' /\ contents b' = contents b /\ settings b' = settings b /\ length (_req_ids b') = n /\
    (m = false -> b' = b) /\ (forall k, (nd <= k < n)%nat -> f b' k = false) /\ (forall k, (k < nd)%nat -> f b' k = true).
Proof.
  induction ds as [|d ds IH]; intros ps b Hf Hd Hlen Hn Hc Sd Sp Fd Fp Cd Cp; cbn [swap_loop].
  { assert (Hb : forall k, (nd <= k < n)%nat -> f b k = false) by (intros k Hk; destruct (f b k) eqn:E; [by apply Cd, elem_of_nil in E|done]).
    exists false, b. do 6 (split; [done|]). split; [done|]. by apply (front_full n nd (f b)). }
  destruct ps as [|p ps].
  { assert (Hb : forall k, (k < nd)%nat -> f b k = true) by (intros k Hk; destruct (f b k) eqn:E; [done|by apply Cp, elem_of_nil in E]).
    exists false, b. do 6 (split; [done|]). split; [|done]. by apply (front_full n nd (f b)). }
  inversion Sd as [|? ? Sd1 Sd2]; inversion Sp as [|? ? Sp1 Sp2]; subst. rewrite Forall_forall in Sd2, Sp2. set (n := length (_req_ids b)) in *. set (nd := count n (f b)) in *.
  destruct (Nat.ltb_spec d nd) as [Hlt|Hge].
  { assert (Hb : forall k, (nd <= k < n)%nat -> f b k = false).
    { intros k Hk. destruct (f b k) eqn:E; [|done]. apply Cd, elem_of_cons in E as [->|E]; [lia| |lia]. apply Sd2 in E. lia. }
    exists false, b. do 6 (split; [done|]). split; [done|]. by apply (front_full n nd (f b)). }
  destruct (Fd d) as [Fd1 Fd2]; [left|]. destruct (Fp p) as [Fp1 Fp2]; [left|].
  assert (Hp : (p < nd)%nat).
  { destruct (Nat.lt_ge_cases p nd) as [|Hpn]; [done|]. exfalso. assert (Hall : forall k, (k < nd)%nat -> f b k = true).
    { intros k Hk. destruct (f b k) eqn:E; [done|]. apply Cp, elem_of_cons in E as [->|E]; [lia| |done]. apply Sp2 in E. lia. }
    rewrite (proj2 (front_full n nd (f b) Hn eq_refl) Hall d) in Fd1; [done|lia]. }
  destruct (swap_states_dense b p d Hd) as (b1 & H1 & Hd1 & Hc1 & Hs1 & Hl1 & Hk1); [done|done|lia|]. rewrite H1. cbn [bind].
  assert (Hf1 : forall k, f b1 k = f b (exchanged p d k)) by (intros k; by apply Hf).
  assert (Hne : forall k, k <> p -> k <> d -> f b1 k = f b k) by (intros k N1 N2; rewrite Hf1; unfold exchanged; by rewrite !decide_False).
  assert (Hp1 : f b1 p = true) by (rewrite Hf1; unfold exchanged; by rewrite decide_True).
  assert (Hd1' : f b1 d = false) by (rewrite Hf1; unfold exchanged; rewrite decide_False, decide_True by (try done; lia); done).
  destruct (IH ps b1) as (m & b' & Hb' & Hd' & Hc' & Hs' & Hl' & _ & R1 & R2); try done.
  - transitivity (count n (fun k => f b (exchanged p d k))); [|by apply count_exchanged]. unfold count. f_equal. apply List.filter_ext. exact Hf1.
  - intros k Hk. destruct (Fd k) as [F1 F2]; [by right|]. split; [|done]. pose proof (Sd2 k Hk). rewrite Hne; [done| |lia]. intros ->. congruence.
  - intros k Hk. destruct (Fp k) as [F1 F2]; [by right|]. split; [|done]. pose proof (Sp2 k Hk). rewrite Hne; [done|lia|]. intros ->. congruence.
  - intros k Hk E. destruct (decide (k = d)) as [->|N2]; [congruence|]. assert (k <> p) by lia. rewrite Hne in E by done. by apply Cd, elem_of_cons in E as [?|?].
  - intros k Hk E. destruct (decide (k = p)) as [->|N1]; [congruence|]. assert (k <> d) by lia. rewrite Hne in E by done. by apply Cp, elem_of_cons in E as [?|?].
  - rewrite Hb'. cbn [bind]. exists true, b'. split; [done|]. split; [done|]. split; [congruence|]. split; [congruence|]. done.
Qed.

(** A request with at most [threshold] tokens in the step. *)
Definition is_decode (scheduled : list (string * Z)) (threshold : Z) (id : string) : bool :=
  match dict_get scheduled id with Some n => n <=? threshold | None => false end.
Definition row_decodes (scheduled : list (string * Z)) (threshold : Z) (b : InputBatch) (k : nat) : bool :=
  match _req_ids b !! k with Some (Some id) => is_decode scheduled threshold id | _ => false end.

Lemma split_decodes_ok scheduled threshold ids : forall i,
  (forall id, id ∈ ids -> is_Some (dict_get scheduled id)) ->
  let f k := match ids !! (k - i)%nat with Some id => is_decode scheduled threshold id | None => false end in
  split_decodes (map Some ids) scheduled threshold i = Ok (List.filter f (seq i (length ids)), List.filter (fun k => negb (f k)) (seq i (length ids))).
Proof.
  induction ids as [|id ids IH]; intros i Hall; cbn zeta; cbn [map split_decodes length seq]; [done|].
  destruct (Hall id) as [n Hn]; [left|]. rewrite Hn. cbn [of_option bind]. rewrite IH by (intros ? ?; apply Hall; by right). cbn [bind List.filter].
  rewrite Nat.sub_diag. cbn [lookup list_lookup]. assert (Hdec : is_decode scheduled threshold id = (n <=? threshold)) by (unfold is_decode; by rewrite Hn). rewrite Hdec.
  assert (Hext : forall k, k ∈ seq (S i) (length ids) -> (id :: ids) !! (k - i)%nat = ids !! (k - S i)%nat).
  { intros k Hk%elem_of_seq. by replace (k - i)%nat with (S (k - S i)) by lia. }
  rewrite (List.filter_ext_in (fun k => match (id :: ids) !! (k - i)%nat with Some id => is_decode scheduled threshold id | None => false end)
             (fun k => match ids !! (k - S i)%nat with Some id => is_decode scheduled threshold id | None => false end)) by (intros k Hk%list_elem_of_In; by rewrite Hext).
  rewrite (List.filter_ext_in (fun k => negb (match (id :: ids) !! (k - i)%nat with Some id => is_decode scheduled threshold id | None => false end))
             (fun k => negb (match ids !! (k - S i)%nat with Some id => is_decode scheduled threshold id | None => false end))) by (intros k Hk%list_elem_of_In; by rewrite Hext).
  by destruct (n <=? threshold).
Qed.

Lemma filter_seq_sorted f i n : StronglySorted lt (List.filter f (seq i n)).
Proof.
  revert i. induction n as [|n IH]; intros i; cbn; [constructor|]. destruct (f i); [|apply IH]. constructor; [apply IH|]. rewrite Forall_forall.
  intros k Hk%list_elem_of_In%filter_In. destruct Hk as [Hk%list_elem_of_In%elem_of_seq _]. lia.
Qed.
Lemma sorted_rev_lt l : StronglySorted lt l -> StronglySorted (fun x y => y < x)%nat (rev l).
Proof.
  induction 1 as [|x l Hl IH Hx]; cbn; [constructor|]. apply sorted_snoc; [done|]. rewrite Forall_forall in Hx |- *.
  intros y Hy. apply Hx. by rewrite list_elem_of_In, in_rev, <-list_elem_of_In.
Qed.

(** Reordering keeps what the batch says of every request and puts the requests
    with at most [threshold] tokens in front. *)
Lemma reorder_ok b out threshold :
  dense b -> (forall id i, req_id_to_index b !! id = Some i -> is_Some (dict_get (num_scheduled_tokens out) id)) ->
  exists m b' nd, reorder_batch_to_split_decodes_and_prefills b out threshold = Ok (m, b') /\ dense b' /\ contents b' = contents b /\
    settings b' = settings b /\ (m = false -> b' = b) /\
    forall k id, _req_ids b' !! k = Some (Some id) -> ((k < nd)%nat <-> is_decode (num_scheduled_tokens out) threshold id = true).
Proof.
  intros Hd Hall. pose proof (de_rows _ Hd) as (ids & Hids & Hnd). unfold reorder_batch_to_split_decodes_and_prefills. rewrite Hids.
  set (scheduled := num_scheduled_tokens out) in *. pose proof (split_decodes_ok scheduled threshold ids 0%nat) as Hsplit. cbn zeta in Hsplit.
  rewrite Hsplit. 2:{ intros id [k Hk]%list_elem_of_lookup. apply (Hall id k). apply (ri_index _ _ (de_inv _ Hd)). by rewrite Hids, list_lookup_fmap, Hk. }
  cbn [bind]. clear Hsplit. set (f := row_decodes scheduled threshold). set (n := length ids).
  assert (Hf : forall k, match ids !! (k - 0)%nat with Some id => is_decode scheduled threshold id | None => false end = f b k).
  { intros k. rewrite Nat.sub_0_r. unfold f, row_decodes. rewrite Hids, list_lookup_fmap. by destruct (ids !! k). }
  rewrite (List.filter_ext _ (f b) Hf), (List.filter_ext _ (fun k => negb (f b k)) (fun k => f_equal negb (Hf k))).
  assert (Hle : (length (List.filter (f b) (seq 0 n)) <= n)%nat) by (etransitivity; [apply List.filter_length_le|by rewrite length_seq]).
  destruct (swap_loop_ok f n (count n (f b)) (rev (List.filter (f b) (seq 0 n))) (List.filter (fun k => negb (f b k)) (seq 0 n)) b)
    as (m & b' & Hb' & Hd' & Hc & Hs & Hl & Hm & R1 & R2); try done.
  - intros b1 b2 k i1 i2 E. unfold f, row_decodes. by rewrite E.
  - by rewrite Hids, length_map.
  - apply sorted_rev_lt, filter_seq_sorted.
  - apply filter_seq_sorted.
  - intros k. rewrite list_elem_of_In, <-in_rev, filter_In, <-list_elem_of_In, elem_of_seq. intros [? ?]. split; [done|lia].
  - intros k. rewrite list_elem_of_In, filter_In, <-list_elem_of_In, elem_of_seq, negb_true_iff. intros [? ?]. split; [done|lia].
  - intros k Hk E. rewrite list_elem_of_In, <-in_rev, filter_In, <-list_elem_of_In, elem_of_seq. split; [lia|done].
  - intros k Hk E. rewrite list_elem_of_In, filter_In, <-list_elem_of_In, elem_of_seq, negb_true_iff. unfold count in Hk. split; [lia|done].
  - exists m, b', (count n (f b)). split; [exact Hb'|]. split; [done|]. split; [done|]. split; [done|]. split; [done|].
    intros k id Hk. assert (Hkn : (k < n)%nat) by (rewrite <-Hl; by eapply lookup_lt_Some). assert (E : f b' k = is_decode scheduled threshold id) by (unfold f, row_decodes; by rewrite Hk).
    rewrite <-E. split; [apply R2|]. intros Ht. destruct (Nat.lt_ge_cases k (count n (f b))) as [|Hge]; [done|]. rewrite R1 in Ht; [done|lia].
Qed.

(** C19. The persistent batch is a map from requests to their data, however its rows
    move.  [add_request] inserts what the state of the request says, [remove_request]
    deletes (an unknown id is ignored), [condense] fills the empty rows and
    [swap_states] exchanges two rows without a change of the map: tokens, counters,
    block tables, the sampling parameters of [Row], generators and set memberships
    follow their request, and none of the operations raises on a consistent batch
    with room for the request.  The mask of allowed tokens is not part of this map;
    it is exactly this: a request that joins gets its own mask if it restricts its
    tokens and otherwise inherits what its row shows; leaving deletes, condensing
    keeps every mask, but [swap_states i1 i2] gives the request of row [i1] the mask
    of row [i2].  The flag of the pooling requests that need the prompt is set when
    they join and then stays with the row. *)
Theorem persistent_batch_is_map b :
  good b ->
  (forall q, (num_reqs b < max_num_reqs b)%nat -> contents b !! cr_req_id q = None -> fits_row b q ->
     exists i b', add_request b q = Ok (i, b') /\ good b' /\ contents b' = <[cr_req_id q := row_of b q]> (contents b) /\
       masks b' = <[cr_req_id q := default (mask_row b i) (wanted_mask b q)]> (masks b) /\
       needs_prompt b' = match cr_sampling_params q, cr_pooling q with None, Some v => <[i := v]> (needs_prompt b) | _, _ => needs_prompt b end) /\
  (forall id, is_removed_sorted (batch_update_builder b) = false ->
     exists b', remove_request b id = Ok (req_id_to_index b !! id, b') /\ good b' /\ contents b' = delete id (contents b) /\
       masks b' = delete id (masks b) /\ needs_prompt b' = needs_prompt b) /\
  (exists b', condense b = Ok b' /\ dense b' /\ contents b' = contents b /\ masks b' = masks b /\ needs_prompt b' = needs_prompt b) /\
  (dense b -> forall i1 i2, (i1 < length (_req_ids b))%nat -> (i2 < length (_req_ids b))%nat -> i1 <> i2 ->
     exists id1 b', _req_ids b !! i1 = Some (Some id1) /\ swap_states b i1 i2 = Ok b' /\ dense b' /\ contents b' = contents b /\
       masks b' = <[id1 := mask_row b i2]> (masks b) /\ needs_prompt b' = needs_prompt b).
Proof.
  intros Hg. split; [|split; [|split]].
  - intros q H1 H2 H3. destruct (add_request_good b q Hg H1 H2 H3) as (i & b' & Hb' & ? & ? & _). exists i, b'.
    destruct (add_request_masks b q i b' (g_ok _ Hg) H1 (proj2 (in_batch _ _) H2) H3 Hb') as [-> ->]. done.
  - intros id Hs. destruct (remove_request_good b id Hg Hs) as (b' & Hb' & ? & ? & _). exists b'.
    destruct (remove_request_masks b id _ b' (g_ok _ Hg) Hb') as [-> ->]. done.
  - destruct (condense_ok b Hg) as (b' & Hb' & ? & ? & _). exists b'. destruct (condense_masks b b' (g_ok _ Hg) Hb') as [-> ->]. done.
  - intros Hd i1 i2 H1 H2 Hne. destruct (swap_states_dense b i1 i2 Hd H1 H2 Hne) as (b' & Hb' & ? & ? & _). destruct (de_rows _ Hd) as (ids & Hids & _).
    assert (Hrow : forall k, (k < length (_req_ids b))%nat -> exists id, _req_ids b !! k = Some (Some id)).
    { intros k [o Ho]%lookup_lt_is_Some_2. rewrite Hids, list_lookup_fmap in Ho |- *. destruct (ids !! k) as [id|]; [by exists id|done]. }
    destruct (Hrow i1 H1) as [id1 E1]. destruct (Hrow i2 H2) as [id2 E2]. exists id1, b'.
    destruct (swap_states_masks b _ i1 i2 id1 id2 b' (de_inv _ Hd) E1 E2 Hne Hb') as [-> ->]. done.
Qed.
