(* ===== verification/RunnerAdvance.v ===== *)
(** * Advancing the requests of the batch

    [update_row] gives a request of the batch its new blocks, its progress and its
    draft tokens; [update_cached_requests] does so for all requests that keep
    running, and collects those that have to join. *)

From stdpp Require Import base functions gmap strings list fin_sets.
From Stdlib Require Import ZArith QArith Lia.
From S2P Require Import Prelude BlockTable Request SchedulerTypes LogitsProcessors InputBatch InputBatchOk BatchMoves ModelRunner RunnerUpdate.
Open Scope list_scope.
Open Scope Z_scope.

(** ** One row *)

(** What the batch says of a request with draft tokens. *)
Definition row_with (b : InputBatch) (q : CachedRequestState) (drafts : list Z) : Row :=
  let w := row_of b q in
  {| rw_tokens := rw_tokens w ++ drafts; rw_num_tokens := (rw_num_tokens w + length drafts)%nat;
     rw_num_tokens_no_spec := rw_num_tokens_no_spec w; rw_num_prompt_tokens := rw_num_prompt_tokens w; rw_num_computed := rw_num_computed w;
     rw_blocks := rw_blocks w; rw_lora := rw_lora w; rw_generator := rw_generator w; rw_bad_words := rw_bad_words w;
     rw_sampling := rw_sampling w; rw_flags := rw_flags w |}.
Lemma row_with_nil b q : row_with b q [] = row_of b q.
Proof. unfold row_with, row_of. cbn. by rewrite app_nil_r, Nat.add_0_r. Qed.
Lemma row_with_settings b b' q l : settings b' = settings b -> row_with b' q l = row_with b q l.
Proof. intros H. unfold row_with. by rewrite (row_of_settings b b' q H). Qed.

(** Only the tokens, the counters and the block tables of the batch change. *)
Record tokens_changed (c c' : Columns) : Prop := {
  tc_prompt k : length (token_ids_cpu c' k) = length (token_ids_cpu c k) /\
     take (num_prompt_tokens c k) (token_ids_cpu c' k) = take (num_prompt_tokens c k) (token_ids_cpu c k);
  tc_rest : exists tokens num no_spec computed,
     c' = {| token_ids_cpu := tokens; ib_num_tokens := num; num_tokens_no_spec := no_spec; num_prompt_tokens := num_prompt_tokens c;
             num_computed_tokens_cpu := computed; temperature_cpu := temperature_cpu c; top_p_cpu := top_p_cpu c; top_k_cpu := top_k_cpu c;
             frequency_penalties_cpu := frequency_penalties_cpu c; presence_penalties_cpu := presence_penalties_cpu c;
             repetition_penalties_cpu := repetition_penalties_cpu c; request_lora_mapping := request_lora_mapping c;
             logits_processing_needs_token_ids := logits_processing_needs_token_ids c;
             allowed_token_ids_mask_cpu := allowed_token_ids_mask_cpu c |} }.

Lemma metadata_tokens b c t : tokens_changed (cols b) c -> _make_sampling_metadata (with_cols b c t) = _make_sampling_metadata b.
Proof.
  intros [Hp (tokens & num & nos & cmp & ->)]. unfold _make_sampling_metadata.
  assert (Hprompt : forall c', num_prompt_tokens c' = num_prompt_tokens (cols b) -> token_ids_cpu c' = tokens ->
    _make_prompt_token_ids_tensor (with_cols b c' t) = _make_prompt_token_ids_tensor b).
  { intros c' E1 E2. unfold _make_prompt_token_ids_tensor. change (num_reqs (with_cols b c' t)) with (num_reqs b). cbn [cols with_cols vocab_size]. rewrite E1, E2.
    destruct (first_rows (num_prompt_tokens (cols b)) (num_reqs b)) as [|x l] eqn:E; [done|]. f_equal. unfold first_rows. apply map_ext. intros k.
    destruct (Hp k) as [H1 H2]. cbn in H1, H2. rewrite !length_take, H1. f_equal. rewrite !take_take, !(Nat.min_comm (num_prompt_tokens (cols b) k)), <-!take_take. by rewrite H2. }
  rewrite Hprompt by done. done.
Qed.

Lemma lora_ok_ext rows rows' ids reqs : (forall id, rw_lora <$> rows' !! id = rw_lora <$> rows !! id) -> lora_ok rows ids reqs -> lora_ok rows' ids reqs.
Proof.
  intros He H l. specialize (H l).
  assert (Hiff : forall id, (exists r, rows' !! id = Some r /\ rw_lora r = l) <-> (exists r, rows !! id = Some r /\ rw_lora r = l)).
  { intros id. specialize (He id). destruct (rows' !! id) as [r'|], (rows !! id) as [r|]; cbn in He; try done.
    injection He as He. split; intros (x & [= <-] & Hx); [exists r|exists r']; split; congruence. }
  destruct (ids !! l) as [s|].
  - destruct H as (? & ? & ? & Hs). split; [done|]. split; [done|]. split; [done|]. intros id. by rewrite Hs.
  - destruct H as [? Hs]. split; [done|]. intros id r Hr Hl. assert (Hx : exists r, rows !! id = Some r /\ rw_lora r = l) by (apply Hiff; by exists r).
    destruct Hx as (x & ? & ?). by eapply Hs.
Qed.

(** Changing the tokens of the row of [id]. *)
Lemma change_row b c t i id w :
  good b -> req_id_to_index b !! id = Some i -> tokens_changed (cols b) c -> shape_ok c t (max_model_len b) ->
  map table_settings t = map table_settings (block_table b) ->
  row (with_cols b c t) id i = w -> (forall k id', k <> i -> row (with_cols b c t) id' k = row b id' k) ->
  let b' := with_cols b c t in
  good b' /\ contents b' = <[id := w]> (contents b) /\ settings b' = settings b.
Proof.
  intros Hg Hi Hc Hsh Hset Hw Ho. cbn zeta. pose proof (g_ok _ Hg) as Hok.
  assert (Hcont : contents (with_cols b c t) = <[id := w]> (contents b)).
  { apply map_eq. intros k. rewrite contents_lookup. cbn [req_id_to_index with_cols]. destruct (decide (k = id)) as [->|Hne].
    - rewrite lookup_insert_eq, Hi. cbn. by f_equal.
    - rewrite lookup_insert_ne, contents_lookup by done. destruct (req_id_to_index b !! k) as [j|] eqn:Ej; [|done]. cbn. f_equal. apply Ho.
      intros ->. apply Hne. by eapply index_inj. }
  destruct Hc as [Hp (tokens & num & nos & cmp & Ec)].
  split; [|split; [done|unfold settings; f_equal; exact Hset]]. apply (good_same b); [done| | |].
  - split; [done|]. split; [|done]. apply metadata_tokens. split; [exact Hp|]. rewrite Ec. by do 4 eexists.
  - destruct (g_mask _ Hg) as [?|?]; [by left|right]. cbn. by rewrite Ec.
  - destruct Hok. split; try done. rewrite Hcont. eapply lora_ok_ext; [|exact ri_lora]. intros k. destruct (decide (k = id)) as [->|Hne]; [|by rewrite lookup_insert_ne].
    rewrite lookup_insert_eq, contents_lookup, Hi. cbn. f_equal. rewrite <-Hw. cbn. by rewrite Ec.
Qed.

(** ** New blocks, progress and drafts *)

Lemma extend_blocks_zip l l' : length l' = length l -> extend_blocks l l' = zip_with app l l'.
Proof. revert l'. induction l as [|x l IH]; intros [|x' l']; cbn; try done. intros [= H]. by rewrite IH. Qed.

Lemma append_rows_ok ts blocks nb i :
  Forall table_ok ts -> map (fun t => table_row t i) ts = blocks -> length nb = length blocks ->
  Forall2 (fun t ids => (length ids <= max_num_blocks_per_req t)%nat) ts (extend_blocks blocks nb) ->
  exists ts', append_rows ts nb i = Ok ts' /\ map (fun t => table_row t i) ts' = extend_blocks blocks nb /\
    (forall j, j <> i -> map (fun t => table_row t j) ts' = map (fun t => table_row t j) ts) /\ Forall table_ok ts' /\
    map table_settings ts' = map table_settings ts.
Proof.
  intros Hts <- Hlen Hfit. rewrite length_map in Hlen. unfold append_rows.
  destruct (each_table_ok (fun t ids => append_row t ids i) (fun t ids t' => row_updated i t (table_row t i ++ ids) t') ts nb) as (ts' & Hok & Hall).
  { revert nb Hlen Hfit. induction Hts as [|t ts Ht _ IH]; intros [|ids nb]; cbn; try done. intros [= Hlen] [Hf1 Hf2]%Forall2_cons. constructor; [|by apply IH].
    apply append_row_ok; [done|]. rewrite length_app in Hf1. unfold table_row in Hf1. rewrite length_take in Hf1. destruct (Ht i). lia. }
  exists ts'. split; [done|].
  assert (H3 : Forall3 (row_updated i) ts (extend_blocks (map (fun t => table_row t i) ts) nb) ts').
  { clear Hok Hfit Hts Hlen. induction Hall; cbn; by constructor. }
  destruct (updated_rows _ _ _ _ H3) as (H4 & H5 & H6 & H7). split; [done|]. split; [done|]. split; [done|]. by apply tables_settings.
Qed.

(** A running request: more blocks, and its progress. *)
Definition advance_state (q : CachedRequestState) (new_block_ids : list (list Z)) (computed : Z) : CachedRequestState :=
  cr_update q (extend_blocks (cr_block_ids q) new_block_ids) computed (cr_output_token_ids q).

Lemma update_row_ok b i id q computed nb drafts :
  good b -> req_id_to_index b !! id = Some i -> contents b !! id = Some (row_of b q) ->
  length nb = length (cr_block_ids q) -> fits_row b (advance_state q nb computed) -> (cr_num_tokens q + length drafts <= max_model_len b)%nat ->
  exists b', update_row true b i id computed nb [] drafts = Ok b' /\ good b' /\
    contents b' = <[id := row_with b (advance_state q nb computed) drafts]> (contents b) /\ settings b' = settings b /\
    req_id_to_index b' = req_id_to_index b /\ batch_update_builder b' = batch_update_builder b /\ same_masks b b'.
Proof.
  intros Hg Hi Hrow Hlen Hfit Hroom. pose proof (ri_shape _ _ (g_ok _ Hg)) as [S1 S2 S3]. rewrite contents_lookup, Hi in Hrow. apply (inj Some) in Hrow.
  pose proof (f_equal rw_tokens Hrow) as E1. pose proof (f_equal rw_num_tokens Hrow) as E2. pose proof (f_equal rw_num_tokens_no_spec Hrow) as E3.
  pose proof (f_equal rw_num_prompt_tokens Hrow) as E4. pose proof (f_equal rw_blocks Hrow) as E5. cbn in E1, E2, E3, E4, E5.
  destruct (append_rows_ok (block_table b) (cr_block_ids q) nb i) as (ts & Hts & T1 & T2 & T3 & T4); [done|done|done|apply (fr_blocks _ _ Hfit)|].
  unfold update_row. rewrite Hts. cbn [bind]. set (c0 := set_counts (cols b) i _ _ _).
  assert (Hc : exists c, match drafts with
     | [] => Ok c0
     | _ => let! c := write_tokens c0 i (num_tokens_no_spec c0 i) (num_tokens_no_spec c0 i + length drafts) drafts in
            Ok (set_counts c i (ib_num_tokens c i + length drafts) (num_tokens_no_spec c i) computed) end = Ok c /\
     tokens_changed (cols b) c /\ (forall k, k <> i -> token_ids_cpu c k = token_ids_cpu (cols b) k /\ ib_num_tokens c k = ib_num_tokens (cols b) k /\
       num_tokens_no_spec c k = num_tokens_no_spec (cols b) k /\ num_computed_tokens_cpu c k = num_computed_tokens_cpu (cols b) k) /\
     take (ib_num_tokens c i) (token_ids_cpu c i) = cr_prompt_token_ids q ++ cr_output_token_ids q ++ drafts /\
     ib_num_tokens c i = (cr_num_tokens q + length drafts)%nat /\ num_tokens_no_spec c i = cr_num_tokens q /\ num_computed_tokens_cpu c i = computed).
  { destruct (decide (drafts = [])) as [->|Hd].
    - exists c0. split; [done|]. split; [split; [done|by do 4 eexists]|]. split; [intros k Hk; cbn; by rewrite !fn_lookup_insert_ne|].
      cbn. rewrite !fn_lookup_insert, app_nil_r. split; [exact E1|]. split; [lia|]. by split.
    - assert (Hns : num_tokens_no_spec c0 i = cr_num_tokens q) by (cbn; rewrite fn_lookup_insert; exact E3). rewrite Hns.
      assert (Hlen0 : length (token_ids_cpu c0 i) = max_model_len b) by apply S1.
      assert (Hw : write_tokens c0 i (cr_num_tokens q) (cr_num_tokens q + length drafts) drafts = Ok
        {| token_ids_cpu := <[i := take (cr_num_tokens q) (token_ids_cpu (cols b) i) ++ drafts ++ drop (cr_num_tokens q + length drafts) (token_ids_cpu (cols b) i)]> (token_ids_cpu (cols b));
           ib_num_tokens := ib_num_tokens c0; num_tokens_no_spec := num_tokens_no_spec c0; num_prompt_tokens := num_prompt_tokens c0;
           num_computed_tokens_cpu := num_computed_tokens_cpu c0; temperature_cpu := temperature_cpu c0; top_p_cpu := top_p_cpu c0; top_k_cpu := top_k_cpu c0;
           frequency_penalties_cpu := frequency_penalties_cpu c0; presence_penalties_cpu := presence_penalties_cpu c0;
           repetition_penalties_cpu := repetition_penalties_cpu c0; request_lora_mapping := request_lora_mapping c0;
           logits_processing_needs_token_ids := logits_processing_needs_token_ids c0; allowed_token_ids_mask_cpu := allowed_token_ids_mask_cpu c0 |}).
      { unfold write_tokens. rewrite slice_set_fits by lia. done. }
      match goal with |- exists c, ?m = _ /\ _ => assert (Hm : m = let! c := write_tokens c0 i (cr_num_tokens q) (cr_num_tokens q + length drafts) drafts in
            Ok (set_counts c i (ib_num_tokens c i + length drafts) (num_tokens_no_spec c i) computed)) by (by destruct drafts) end.
      rewrite Hm, Hw. clear Hm Hw. cbn [bind]. eexists. split; [reflexivity|]. split; [split; [|by do 4 eexists]|].
      + intros k. cbn. destruct (decide (k = i)) as [->|Hk]; [|by rewrite !fn_lookup_insert_ne]. rewrite !fn_lookup_insert. split.
        * rewrite !length_app, length_take, length_drop, S1. lia.
        * rewrite E4. unfold cr_num_tokens in *. rewrite take_app_le by (rewrite length_take, S1; lia). rewrite take_take. f_equal. lia.
      + split; [intros k Hk; cbn; by rewrite !fn_lookup_insert_ne|]. cbn. rewrite !fn_lookup_insert. rewrite E2, E3. split; [|done].
        rewrite take_after_slice by (rewrite S1; lia). rewrite app_assoc. f_equal. by rewrite <-E1, E2. }
  destruct Hc as (c & Hc & Htc & Hother & C1 & C2 & C3 & C4). rewrite Hc. cbn [bind]. exists (with_cols b c ts). split; [done|].
  assert (Hmask : same_masks b (with_cols b c ts)).
  { destruct Htc as [_ (tokens & num & nos & cmp & ->)]. done. }
  destruct (change_row b c ts i id (row_with b (advance_state q nb computed) drafts) Hg Hi Htc) as (G1 & G2 & G3); try done.
  - split; [intros k; by rewrite (proj1 (tc_prompt _ _ Htc k))| |done]. intros k. destruct (decide (k = i)) as [->|Hk]; [rewrite C2; lia|]. by rewrite (proj1 (proj2 (Hother k Hk))).
  - destruct Htc as [_ (tokens & num & nos & cmp & Ec)].
    pose proof (f_equal rw_lora Hrow) as E6. pose proof (f_equal rw_generator Hrow) as E7. pose proof (f_equal rw_bad_words Hrow) as E8.
    pose proof (f_equal rw_sampling Hrow) as E9. pose proof (f_equal rw_flags Hrow) as E10. cbn in E6, E7, E8, E9, E10.
    apply row_is; cbn [cols with_cols block_table generators bad_words_token_ids sets]; try done.
    + rewrite C1. cbn. by rewrite app_assoc.
    + rewrite Ec. exact E4.
    + rewrite Ec. exact E6.
    + rewrite Ec. exact E9.
  - intros k id' Hk. destruct Htc as [_ (tokens & num & nos & cmp & Ec)]. destruct (Hother k Hk) as (O1 & O2 & O3 & O4).
    apply row_is; cbn [cols with_cols block_table generators bad_words_token_ids sets]; rewrite ?O1, ?O2, ?O3, ?O4; try done; [by rewrite Ec|by apply T2|by rewrite Ec..].
Qed.

(** ** All running and resumed requests *)

Definition cached_entry (d : CachedRequestData) (i : nat) (id : string) (computed : Z) (nb : list (list Z)) (resumed : bool) : Prop :=
  req_ids d !! i = Some id /\ cached_num_computed_tokens d !! i = Some computed /\ cached_new_block_ids d !! i = Some nb /\
  resumed_from_preemption d !! i = Some resumed.
Lemma cached_entry_fun d i id c nb rs id' c' nb' rs' :
  cached_entry d i id c nb rs -> cached_entry d i id' c' nb' rs' -> id' = id /\ c' = c /\ nb' = nb /\ rs' = rs.
Proof. intros (?&?&?&?) (?&?&?&?). repeat split; congruence. Qed.

(** The state after the step's data: a resumed request has all its blocks anew. *)
Definition join_state (q : CachedRequestState) (nb : list (list Z)) (computed : Z) (resumed : bool) : CachedRequestState :=
  cr_update q (if resumed then nb else extend_blocks (cr_block_ids q) nb) computed (cr_output_token_ids q).
Definition drafts_of (out : SchedulerOutput) (id : string) : list Z := default [] (dict_get (scheduled_spec_decode_tokens out) id).

(** The data of a step fit the request: one that is in the batch keeps running, its
    drafts fit behind its tokens; any other has no drafts. *)
Definition cached_fits (r : Runner) (out : SchedulerOutput) (i : nat) (id : string) : Prop :=
  exists q c nb rs, cached_entry (scheduled_cached_reqs out) i id c nb rs /\ cached_requests r !! id = Some q /\ cr_req_id q = id /\
    fits_row (input_batch r) (join_state q nb c rs) /\ length nb = length (cr_block_ids q) /\
    match contents (input_batch r) !! id with
    | None => drafts_of out id = []
    | Some w => rs = false /\ w = row_of (input_batch r) q /\ (cr_num_tokens q + length (drafts_of out id) <= max_model_len (input_batch r))%nat
    end.
(** Only the states and the batch of the runner change. *)
Definition same_runner (r r' : Runner) : Prop := r' = with_batch (with_requests r (cached_requests r')) (input_batch r').

Definition absent (b : InputBatch) (id : string) : bool := match contents b !! id with None => true | Some _ => false end.
(** What became of the request of row [i] of the data. *)
Definition cached_done (r r' : Runner) (out : SchedulerOutput) (i : nat) (id : string) : Prop :=
  exists q c nb rs, cached_entry (scheduled_cached_reqs out) i id c nb rs /\ cached_requests r !! id = Some q /\
    cached_requests r' !! id = Some (join_state q nb c rs) /\
    contents (input_batch r') !! id = if absent (input_batch r) id then None
                                      else Some (row_with (input_batch r) (join_state q nb c rs) (drafts_of out id)).

Lemma update_cached_one r out i id :
  is_last_rank r = true -> good (input_batch r) -> cached_fits r out i id ->
  exists r', update_cached_request r out i id = Ok (absent (input_batch r) id, r') /\ same_runner r r' /\ good (input_batch r') /\
    settings (input_batch r') = settings (input_batch r) /\ is_removed_sorted (batch_update_builder (input_batch r')) = is_removed_sorted (batch_update_builder (input_batch r)) /\
    cached_done r r' out i id /\ same_masks (input_batch r) (input_batch r') /\
    forall k, k <> id -> cached_requests r' !! k = cached_requests r !! k /\ contents (input_batch r') !! k = contents (input_batch r) !! k.
Proof.
  intros Hlast Hg (q & c & nb & rs & He & Hq & Hqi & Hfit & Hlen & Hrow). pose proof He as (E1 & E2 & E3 & E4).
  unfold update_cached_request. rewrite Hq, E2, E3, E4, Hlast. cbn [of_option bind with_requests input_batch]. fold (join_state q nb c rs).
  unfold cached_done, absent. destruct (req_id_to_index (input_batch r) !! id) as [row|] eqn:Erow.
  - assert (Hc : contents (input_batch r) !! id <> None) by (rewrite <-in_batch; congruence). destruct (contents (input_batch r) !! id) as [w|] eqn:Ew; [|done].
    destruct Hrow as (-> & -> & Hroom). destruct (update_row_ok (input_batch r) row id q c nb (drafts_of out id) Hg Erow Ew Hlen Hfit Hroom) as (b' & Hb' & Hg' & Hc' & Hs' & _ & Hu' & Hm').
    cbn [is_last_rank with_requests]. rewrite Hlast. unfold drafts_of in Hb'. rewrite Hb'. cbn [bind]. eexists. split; [reflexivity|]. split; [done|]. split; [done|]. split; [done|]. split; [by cbn; rewrite Hu'|].
    split.
    + exists q, c, nb, false. split; [done|]. split; [done|]. cbn. rewrite lookup_insert_eq. split; [done|]. by rewrite Hc', lookup_insert_eq.
    + split; [exact Hm'|]. intros k Hk. cbn. rewrite Hc', !lookup_insert_ne by done. done.
  - pose proof (proj1 (in_batch _ _) Erow) as Ew. rewrite Ew. eexists. split; [reflexivity|]. split; [done|]. split; [done|]. split; [done|]. split; [done|]. split.
    + exists q, c, nb, rs. split; [done|]. split; [done|]. cbn. rewrite lookup_insert_eq. by split.
    + split; [done|]. intros k Hk. cbn. by rewrite lookup_insert_ne.
Qed.

(** A request that the loop has not reached yet. *)
Lemma fits_later r r' out i id :
  same_runner r r' -> settings (input_batch r') = settings (input_batch r) ->
  cached_requests r' !! id = cached_requests r !! id -> contents (input_batch r') !! id = contents (input_batch r) !! id ->
  cached_fits r out i id -> cached_fits r' out i id.
Proof.
  intros _ Hs Hr Hc (q & c & nb & rs & He & Hq & Hqi & Hfit & Hlen & Hrow). exists q, c, nb, rs. split; [done|]. split; [by rewrite Hr|]. split; [done|].
  split; [by eapply fits_settings|]. split; [done|]. rewrite Hc. destruct (contents (input_batch r) !! id); [|done]. destruct (settings_limits _ _ Hs) as (_ & -> & _).
  by rewrite (row_of_settings _ _ q Hs).
Qed.

Lemma update_cached_ok out ids : forall r i,
  is_last_rank r = true -> good (input_batch r) -> NoDup ids ->
  (forall j id, ids !! j = Some id -> cached_fits r out (i + j) id) ->
  exists r', update_cached_requests r out i ids = Ok (r', List.filter (absent (input_batch r)) ids) /\ same_runner r r' /\ good (input_batch r') /\
    settings (input_batch r') = settings (input_batch r) /\
    (forall j id, ids !! j = Some id -> cached_done r r' out (i + j) id) /\ same_masks (input_batch r) (input_batch r') /\
    forall k, k ∉ ids -> cached_requests r' !! k = cached_requests r !! k /\ contents (input_batch r') !! k = contents (input_batch r) !! k.
Proof.
  induction ids as [|id ids IH]; intros r i Hlast Hg Hnd Hfit; cbn [update_cached_requests List.filter].
  { exists r. split; [done|]. split; [by destruct r|]. split; [done|]. split; [done|]. split; [by intros j id Hj; rewrite lookup_nil in Hj|]. by split. }
  apply NoDup_cons in Hnd as [Hni Hnd]. pose proof (Hfit 0%nat id eq_refl) as Hf0. rewrite Nat.add_0_r in Hf0.
  destruct (update_cached_one r out i id Hlast Hg Hf0) as (r1 & H1 & Hsame & Hg1 & Hs1 & _ & Hdone & Hm1 & Hother). rewrite H1. cbn [bind].
  assert (Hlast1 : is_last_rank r1 = true) by (by rewrite Hsame).
  destruct (IH r1 (S i) Hlast1 Hg1 Hnd) as (r' & H' & Hsame' & Hg' & Hs' & Hdone' & Hm' & Hother').
  { intros j k Hk. assert (k <> id) by (intros ->; by apply Hni, list_elem_of_lookup_2 with j). destruct (Hother k ltac:(done)).
    eapply fits_later; try done. replace (S i + j)%nat with (i + S j)%nat by lia. by apply Hfit. }
  assert (Habs : List.filter (absent (input_batch r1)) ids = List.filter (absent (input_batch r)) ids).
  { apply List.filter_ext_in. intros k Hk%list_elem_of_In. unfold absent. destruct (Hother k) as [_ ->]; [congruence|done]. }
  exists r'. rewrite H'. cbn [bind]. rewrite Habs. split; [by destruct (absent (input_batch r) id)|]. split; [rewrite Hsame', Hsame; done|].
  split; [done|]. split; [congruence|]. split; [|split; [by eapply same_masks_trans|]].
  - intros [|j] k Hk.
    + injection Hk as ->. rewrite Nat.add_0_r. destruct Hdone as (q & c & nb & rs & D1 & D2 & D3 & D4). exists q, c, nb, rs.
      destruct (Hother' k Hni) as [-> ->]. done.
    + cbn in Hk. replace (i + S j)%nat with (S i + j)%nat by lia. destruct (Hdone' j k Hk) as (q & c & nb & rs & D1 & D2 & D3 & D4). exists q, c, nb, rs.
      assert (k <> id) by (intros ->; by apply Hni, list_elem_of_lookup_2 with j). destruct (Hother k ltac:(done)) as [E1 E2]. rewrite <-E1. split; [done|]. split; [done|]. split; [done|].
      rewrite D4. unfold absent. rewrite E2. by rewrite (row_with_settings _ _ _ _ Hs1).
  - intros k [Hne Hk]%not_elem_of_cons. destruct (Hother' k Hk) as [-> ->]. by apply Hother.
Qed.

(** ** New requests *)

Lemma add_new_states_ok pooling_update l : forall reqs,
  NoDup (map new_req_id l) -> (forall d, d ∈ l -> exists q, new_state pooling_update d = Ok q) ->
  exists reqs', add_new_states pooling_update reqs l = Ok (reqs', map new_req_id l) /\
    (forall id, id ∉ map new_req_id l -> reqs' !! id = reqs !! id) /\
    forall d q, d ∈ l -> new_state pooling_update d = Ok q -> reqs' !! new_req_id d = Some q.
Proof.
  induction l as [|d l IH]; intros reqs; cbn [map add_new_states].
  { exists reqs. split; [done|]. split; [done|]. by intros d q ?%elem_of_nil. }
  intros [Hni Hnd]%NoDup_cons Hall. destruct (Hall d) as [q Hq]; [left|]. rewrite Hq. cbn [bind].
  destruct (IH (<[new_req_id d := q]> reqs) Hnd) as (reqs' & -> & H1 & H2); [intros d' ?; apply Hall; by right|]. cbn [bind]. exists reqs'. split; [done|]. split.
  - intros id [Hne Hid]%not_elem_of_cons. rewrite H1, lookup_insert_ne by done. done.
  - intros d' q' [->|Hd]%elem_of_cons Hq'; [|by apply H2]. rewrite H1, lookup_insert_eq by done. congruence.
Qed.
Lemma new_state_id pooling_update d q : new_state pooling_update d = Ok q -> cr_req_id q = new_req_id d.
Proof. unfold new_state. destruct (new_pooling_params d); intros H; inv_res H; by subst. Qed.
