(* ===== verification/RunnerOk.v ===== *)
(** * The update of the model runner

    [_update_states] against its contract: after it the batch holds exactly the
    scheduled requests, each with the row of its own state, decodes in front when
    the backend wants them there, and the sampling metadata is up to date. *)

From stdpp Require Import base functions gmap strings list fin_sets.
From Stdlib Require Import ZArith QArith Lia.
From S2P Require SchedulerSpec.
From S2P Require Import Prelude BlockTable Request SchedulerTypes LogitsProcessors InputBatch InputBatchOk BatchMoves BatchMask ModelRunner RunnerUpdate RunnerAdvance.
Open Scope list_scope.
Open Scope Z_scope.

(** ** Between the steps *)

(** No change is pending. *)
Record steady (b : InputBatch) : Prop := {
  st_ok : batch_ok b;
  st_mask : mask_ok b;
  st_builder : batch_update_builder b = new_builder;
  st_fresh : fresh b }.
(** The batch shows the states of its requests. *)
Record runner_ok (r : Runner) : Prop := {
  ru_batch : steady (input_batch r);
  ru_last : is_last_rank r = true;
  ru_ids id q : cached_requests r !! id = Some q -> cr_req_id q = id;
  ru_rows id w : contents (input_batch r) !! id = Some w -> exists q, cached_requests r !! id = Some q /\ w = row_of (input_batch r) q }.

Lemma steady_good b : steady b -> good b.
Proof. intros []. split; [done|done|by right]. Qed.

Lemma refresh_ok f b : dense b ->
  exists b', refresh_metadata f b = Ok b' /\ steady b' /\ contents b' = contents b /\ settings b' = settings b /\ _req_ids b' = _req_ids b /\
    same_masks b b'.
Proof.
  intros [_ Hinv Hmask Hmd]. unfold refresh_metadata. destruct (get_and_reset (batch_update_builder b) (num_reqs b)) as [upd u] eqn:Eg.
  assert (Hu : u = new_builder).
  { unfold get_and_reset in Eg. destruct (removed_ _) as [|], (moved _) as [|], (added _) as [|]; by injection Eg as _ <-. }
  subst u.
  assert (Hok : forall p md, batch_ok (with_metadata (with_builder b new_builder) p md)).
  { intros p md. assert (H : rows_inv (with_builder b new_builder) (fun i => i ∈ removed_ new_builder)).
    { apply with_builder_inv; [|by split; [apply NoDup_nil_2|]]. eapply rows_inv_hole; [exact Hinv|]. intros k. split; [done|by intros ?%elem_of_nil]. }
    destruct H. by split. }
  destruct upd as [upd|].
  - destruct (metadata_total b _ Hinv Hmask) as (md & Emd). change (_make_sampling_metadata (with_builder b new_builder)) with (_make_sampling_metadata b).
    rewrite Emd. cbn [bind]. eexists. split; [reflexivity|]. split; [|done]. split; [apply Hok|done|done|exact Emd].
  - eexists. split; [reflexivity|]. split; [|done]. split; [apply Hok|done|done|]. destruct Hmd as [Hrec|Hf]; [|exact Hf]. exfalso.
    unfold get_and_reset in Eg. destruct (removed_ _) as [|] eqn:E1, (moved _) as [|] eqn:E2, (added _) as [|] eqn:E3; try done.
    destruct Hrec as [?|[?|?]]; congruence.
Qed.

(** ** Leaving and returning *)

(** What a step does to the batch when one request leaves or joins it. *)
Definition leave (out_len : string -> Z) (b : InputBatch) (id : string) : res InputBatch :=
  let! '(_, b) := remove_request b id in
  let! b := condense b in
  refresh_metadata out_len b.
Definition join (out_len : string -> Z) (b : InputBatch) (q : CachedRequestState) : res InputBatch :=
  let! '(_, b) := add_request b q in
  let! b := condense b in
  refresh_metadata out_len b.

Lemma leave_ok f b id : steady b ->
  exists b', leave f b id = Ok b' /\ steady b' /\ contents b' = delete id (contents b) /\ settings b' = settings b /\
    masks b' = delete id (masks b).
Proof.
  intros Hs. unfold leave. destruct (remove_request_good b id (steady_good _ Hs)) as (b1 & -> & Hg1 & Hc1 & Hst1 & _ & Hm1); [by rewrite (st_builder _ Hs)|]. cbn [bind].
  destruct (condense_ok b1 Hg1) as (b2 & H2 & Hd2 & Hc2 & Hst2). rewrite H2. cbn [bind].
  destruct (condense_masks _ _ (g_ok _ Hg1) H2) as [Hm2 _]. destruct (refresh_ok f b2 Hd2) as (b3 & -> & Hs3 & Hc3 & Hst3 & _ & Hm3 & _).
  exists b3. split; [done|]. split; [done|]. split; [congruence|]. split; congruence.
Qed.
Lemma join_ok f b q : steady b -> (num_reqs b < max_num_reqs b)%nat -> contents b !! cr_req_id q = None -> fits_row b q ->
  exists b', join f b q = Ok b' /\ steady b' /\ contents b' = <[cr_req_id q := row_of b q]> (contents b) /\ settings b' = settings b /\
    exists m, masks b' = <[cr_req_id q := default m (wanted_mask b q)]> (masks b).
Proof.
  intros Hs H1 H2 H3. unfold join. destruct (add_request_good b q (steady_good _ Hs) H1 H2 H3) as (i & b1 & -> & Hg1 & Hc1 & Hst1 & Hm1). cbn [bind].
  destruct (condense_ok b1 Hg1) as (b2 & E2 & Hd2 & Hc2 & Hst2). rewrite E2. cbn [bind].
  destruct (condense_masks _ _ (g_ok _ Hg1) E2) as [Hm2 _]. destruct (refresh_ok f b2 Hd2) as (b3 & -> & Hs3 & Hc3 & Hst3 & _ & Hm3 & _).
  exists b3. split; [done|]. split; [done|]. split; [congruence|]. split; [congruence|]. exists (mask_row b i). congruence.
Qed.

(** The mask that goes to the sampler. *)
Definition shown_mask (b : InputBatch) : option (list (list bool)) := md_allowed_token_ids_mask (sampling_metadata b).
Lemma shown_mask_ok b : steady b ->
  shown_mask b = if bool_decide (has_allowed_token_ids (sets b) = ∅) then None else Some (map (mask_row b) (seq 0 (num_reqs b))).
Proof. intros Hs. apply metadata_mask, (st_fresh _ Hs). Qed.
(** The batch restricts no request. *)
Definition unrestricted (b : InputBatch) : Prop := forall id w, contents b !! id = Some w -> fl_allowed (rw_flags w) = false.
Lemma shown_none b : steady b -> unrestricted b -> shown_mask b = None.
Proof. intros Hs Hn. rewrite shown_mask_ok by done. by rewrite bool_decide_true by (by eapply no_restriction; [apply (st_ok _ Hs)|]). Qed.
Lemma shown_row b l id i : steady b -> shown_mask b = Some l -> req_id_to_index b !! id = Some i -> l !! i = masks b !! id.
Proof.
  intros Hs. rewrite shown_mask_ok by done. destruct (bool_decide _); [done|]. intros [= <-] Hi. rewrite masks_lookup, Hi, list_lookup_fmap. cbn.
  rewrite lookup_seq_lt; [done|]. pose proof (rows_count b _ [] (st_ok _ Hs) ltac:(constructor)) as Hc. rewrite (st_builder _ Hs) in Hc. cbn in Hc.
  specialize (Hc ltac:(done)). rewrite Nat.add_0_r in Hc. rewrite Hc. apply (ri_index _ _ (st_ok _ Hs)) in Hi. by eapply lookup_lt_Some.
Qed.

(** C20. A request that is preempted or not scheduled leaves the batch while the
    runner keeps its state, and when it returns the batch is the same map again:
    the tokens, counters, block tables, generators, set memberships and the sampling
    parameters of [Row] of every request are those from before, whatever rows have
    moved.  And a request that joins and leaves again has left no trace in it.  Of
    the mask of allowed tokens this holds with an exception: the other requests keep
    their masks, a returning request that restricts its tokens has its own mask, and
    no mask is applied while no request of the batch restricts its tokens; but a
    returning request that does not restrict them shows whatever mask its new row
    has, so that it can inherit one when another request restricts its tokens. *)
Theorem rejoining_restores f b q :
  steady b -> fits_row b q ->
  (contents b !! cr_req_id q = Some (row_of b q) -> (num_reqs b <= max_num_reqs b)%nat ->
     exists b1 b2, leave f b (cr_req_id q) = Ok b1 /\ contents b1 = delete (cr_req_id q) (contents b) /\
       join f b1 q = Ok b2 /\ contents b2 = contents b /\ steady b2 /\
       (exists m, masks b2 = <[cr_req_id q := default m (wanted_mask b q)]> (masks b)) /\ (unrestricted b -> shown_mask b2 = None)) /\
  (contents b !! cr_req_id q = None -> (num_reqs b < max_num_reqs b)%nat ->
     exists b1 b2, join f b q = Ok b1 /\ contents b1 !! cr_req_id q = Some (row_of b q) /\
       leave f b1 (cr_req_id q) = Ok b2 /\ contents b2 = contents b /\ steady b2 /\ masks b2 = masks b).
Proof.
  intros Hs Hfit. split; intros Hin Hroom.
  - destruct (leave_ok f b (cr_req_id q) Hs) as (b1 & H1 & Hs1 & Hc1 & Hst1 & Hm1). destruct (settings_limits _ _ Hst1) as (Hmax & _ & Hvoc & _).
    destruct (join_ok f b1 q Hs1) as (b2 & H2 & Hs2 & Hc2 & _ & m & Hm2).
    + rewrite Hmax. rewrite num_reqs_contents in *. rewrite Hc1. rewrite map_size_delete, Hin. enough (size (contents b) <> 0%nat) by lia. intros E%map_size_empty_inv. by rewrite E, lookup_empty in Hin.
    + rewrite Hc1. apply lookup_delete_eq.
    + by eapply fits_settings.
    + assert (Hc : contents b2 = contents b) by (rewrite Hc2, Hc1, (row_of_settings b b1) by done; by rewrite insert_delete_id).
      exists b1, b2. split; [done|]. split; [done|]. split; [done|]. split; [done|]. split; [done|]. split.
      * exists m. rewrite Hm2, Hm1, insert_delete_eq. unfold wanted_mask. by rewrite Hvoc.
      * intros Hn. apply shown_none; [done|]. unfold unrestricted. by rewrite Hc.
  - destruct (join_ok f b q Hs Hroom Hin Hfit) as (b1 & H1 & Hs1 & Hc1 & _ & m & Hm1). destruct (leave_ok f b1 (cr_req_id q) Hs1) as (b2 & H2 & Hs2 & Hc2 & _ & Hm2).
    exists b1, b2. split; [done|]. split; [rewrite Hc1; apply lookup_insert_eq|]. split; [done|]. split; [rewrite Hc2, Hc1; by apply delete_insert_id|]. split; [done|].
    rewrite Hm2, Hm1, delete_insert_eq. apply delete_id. apply in_batch in Hin. by rewrite masks_lookup, Hin.
Qed.

(** ** The contract *)

Section update.
Context (pooling_update : string -> option bool).
Notation new_state := (new_state pooling_update).

(** The data for a running or resumed request. *)
Definition running_fits (r : Runner) (out : SchedulerOutput) (i : nat) (id : string) : Prop :=
  exists q c nb rs, cached_entry (scheduled_cached_reqs out) i id c nb rs /\ cached_requests r !! id = Some q /\
    fits_row (input_batch r) (join_state q nb c rs) /\ length nb = length (cr_block_ids q) /\
    match contents (input_batch r) !! id with
    | None => drafts_of out id = []
    | Some _ => rs = false /\ (cr_num_tokens q + length (drafts_of out id) <= max_model_len (input_batch r))%nat
    end.
Record output_fits (r : Runner) (out : SchedulerOutput) : Prop := {
  of_nodup : NoDup (map fst (num_scheduled_tokens out));
  of_ids : map fst (num_scheduled_tokens out) ≡ₚ map new_req_id (scheduled_new_reqs out) ++ req_ids (scheduled_cached_reqs out);
  of_room : (length (num_scheduled_tokens out) <= max_num_reqs (input_batch r))%nat;
  of_new d : d ∈ scheduled_new_reqs out ->
    (contents (input_batch r) !! new_req_id d = None \/ new_req_id d ∈ out_finished_req_ids out) /\ drafts_of out (new_req_id d) = [] /\
    exists q, new_state d = Ok q /\ fits_row (input_batch r) q;
  of_running i id : req_ids (scheduled_cached_reqs out) !! i = Some id -> id ∉ out_finished_req_ids out /\ running_fits r out i id }.

(** What the step leaves in the runner. *)
Record states_updated (r : Runner) (out : SchedulerOutput) (r' : Runner) : Prop := {
  su_rows id : contents (input_batch r') !! id =
    match dict_get (num_scheduled_tokens out) id with
    | Some _ => (fun q => row_with (input_batch r) q (drafts_of out id)) <$> cached_requests r' !! id
    | None => None
    end;
  su_known id : id ∈ map fst (num_scheduled_tokens out) -> is_Some (cached_requests r' !! id);
  su_new d q : d ∈ scheduled_new_reqs out -> new_state d = Ok q -> cached_requests r' !! new_req_id d = Some q;
  su_running i id q c nb rs : cached_entry (scheduled_cached_reqs out) i id c nb rs -> cached_requests r !! id = Some q ->
    cached_requests r' !! id = Some (join_state q nb c rs);
  su_finished id : id ∈ out_finished_req_ids out -> id ∉ map fst (num_scheduled_tokens out) -> cached_requests r' !! id = None;
  su_other id : id ∉ out_finished_req_ids out -> id ∉ map fst (num_scheduled_tokens out) -> cached_requests r' !! id = cached_requests r !! id;
  su_front threshold : num_kv_cache_groups r <> 0%nat -> reorder_batch_threshold r = Some threshold ->
    exists nd, forall k id, _req_ids (input_batch r') !! k = Some (Some id) -> ((k < nd)%nat <-> is_decode (num_scheduled_tokens out) threshold id = true);
  su_batch : steady (input_batch r');
  su_settings : settings (input_batch r') = settings (input_batch r);
  su_same : exists enc, r' = with_batch (with_requests (with_encoder r enc) (cached_requests r')) (input_batch r') }.

(** ** The proof *)

Lemma foldr_delete_lookup {A} (m : gmap string A) (s : gset string) id :
  foldr delete m (elements s) !! id = if decide (id ∈ s) then None else m !! id.
Proof.
  rewrite (decide_ext (id ∈ s) (id ∈ elements s)) by (by rewrite elem_of_elements). induction (elements s) as [|x l IH]; cbn.
  - rewrite decide_False; [done|]. apply not_elem_of_nil.
  - destruct (decide (id = x)) as [->|Hne]; [rewrite lookup_delete_eq; by rewrite decide_True by left|]. rewrite lookup_delete_ne by done. rewrite IH.
    apply decide_ext. rewrite elem_of_cons. naive_solver.
Qed.

Lemma drop_finished_ok r finished :
  steady (input_batch r) ->
  exists r', drop_finished r finished = Ok r' /\ good (input_batch r') /\ is_removed_sorted (batch_update_builder (input_batch r')) = false /\
    settings (input_batch r') = settings (input_batch r) /\
    (forall id, contents (input_batch r') !! id = if decide (id ∈ finished) then None else contents (input_batch r) !! id) /\
    (forall id, cached_requests r' !! id = if decide (id ∈ finished) then None else cached_requests r !! id) /\
    (forall id, masks (input_batch r') !! id = if decide (id ∈ finished) then None else masks (input_batch r) !! id) /\
    exists enc, r' = with_batch (with_requests (with_encoder r enc) (cached_requests r')) (input_batch r').
Proof.
  intros Hst. unfold drop_finished. destruct (remove_requests_ok (elements finished) (input_batch r) (steady_good _ Hst)) as (b' & Hb' & Hg & Hs & Hset & Hc & Hm).
  { by rewrite (st_builder _ Hst). }
  cbn [with_encoder with_requests input_batch]. rewrite Hb'. cbn [bind]. eexists. split; [reflexivity|]. split; [done|]. split; [done|]. split; [done|].
  split; [|split; [|split; [|by eexists]]].
  - intros id. cbn. rewrite Hc. apply decide_ext. by rewrite elem_of_elements.
  - intros id. cbn. apply foldr_delete_lookup.
  - intros id. cbn. rewrite Hm. apply decide_ext. by rewrite elem_of_elements.
Qed.

(** The requests that are not scheduled leave the batch. *)
Lemma drop_unscheduled_ok b out :
  good b -> is_removed_sorted (batch_update_builder b) = false ->
  exists b', remove_requests b (elements (unscheduled_req_ids b out)) = Ok b' /\ good b' /\ settings b' = settings b /\
    (forall id, contents b' !! id = if decide (id ∈ map fst (num_scheduled_tokens out)) then contents b !! id else None) /\
    forall id, id ∈ map fst (num_scheduled_tokens out) -> masks b' !! id = masks b !! id.
Proof.
  intros Hg Hs. destruct (remove_requests_ok (elements (unscheduled_req_ids b out)) b Hg Hs) as (b' & Hb' & Hg' & _ & Hset & Hc & Hm).
  exists b'. split; [done|]. split; [done|]. split; [done|].
  assert (Hin : forall id, id ∈ elements (unscheduled_req_ids b out) <-> is_Some (req_id_to_index b !! id) /\ id ∉ map fst (num_scheduled_tokens out)).
  { intros id. rewrite elem_of_elements. unfold unscheduled_req_ids. by rewrite elem_of_difference, elem_of_dom, elem_of_list_to_set. }
  split; [|intros id H; rewrite Hm, decide_False; [done|]; rewrite Hin; tauto]. intros id. rewrite Hc. specialize (Hin id).
  destruct (decide (id ∈ map fst _)) as [H|H]; [rewrite decide_False; [done|]; tauto|].
  destruct (decide (id ∈ elements _)) as [H'|H']; [done|]. apply in_batch. rewrite eq_None_not_Some. tauto.
Qed.

Lemma size_le_list (m : gmap string Row) (l : list string) : NoDup l -> (forall id, is_Some (m !! id) -> id ∈ l) -> (size m <= length l)%nat.
Proof.
  intros Hnd H. rewrite <-(size_dom (D := gset string)), <-(size_list_to_set (C := gset string) l Hnd). apply subseteq_size.
  intros id Hid%elem_of_dom. apply elem_of_list_to_set. by apply H.
Qed.
Lemma elem_of_lfilter {A} (f : A -> bool) l x : x ∈ List.filter f l <-> x ∈ l /\ f x = true.
Proof. rewrite !list_elem_of_In. apply filter_In. Qed.
Lemma filter_parts {A} (f : A -> bool) l : (length (List.filter f l) + length (List.filter (fun x => negb (f x)) l) = length l)%nat.
Proof. induction l as [|x l IH]; cbn; [done|]. destruct (f x); cbn; lia. Qed.

(** The batch after all requests have joined. *)
Lemma requests_joined r out :
  runner_ok r -> output_fits r out ->
  exists r1 b1 reqs r2 b2,
    drop_finished r (out_finished_req_ids out) = Ok r1 /\
    remove_requests (input_batch r1) (elements (unscheduled_req_ids (input_batch r1) out)) = Ok b1 /\
    add_new_states pooling_update (cached_requests r1) (scheduled_new_reqs out) = Ok (reqs, map new_req_id (scheduled_new_reqs out)) /\
    (let r1' := with_encoder r1 (fold_left free_encoder_output (free_encoder_input_ids out) (encoder_outputs r1)) in
     let start := with_batch (with_requests r1' reqs) b1 in
     update_cached_requests start out 0 (req_ids (scheduled_cached_reqs out)) = Ok (r2, List.filter (absent b1) (req_ids (scheduled_cached_reqs out))) /\
     same_runner start r2) /\
    add_requests (input_batch r2) (cached_requests r2) (map new_req_id (scheduled_new_reqs out) ++ List.filter (absent b1) (req_ids (scheduled_cached_reqs out))) = Ok b2 /\
    good b2 /\ settings b2 = settings (input_batch r) /\
    (exists enc, r1 = with_batch (with_requests (with_encoder r enc) (cached_requests r1)) (input_batch r1)) /\
    (forall d q, d ∈ scheduled_new_reqs out -> new_state d = Ok q -> cached_requests r2 !! new_req_id d = Some q) /\
    (forall i id q c nb rs, cached_entry (scheduled_cached_reqs out) i id c nb rs -> cached_requests r !! id = Some q ->
       cached_requests r2 !! id = Some (join_state q nb c rs)) /\
    (forall id, id ∉ map fst (num_scheduled_tokens out) -> cached_requests r2 !! id = if decide (id ∈ out_finished_req_ids out) then None else cached_requests r !! id) /\
    (forall id, id ∈ map fst (num_scheduled_tokens out) -> contents b2 !! id = (fun q => row_with (input_batch r) q (drafts_of out id)) <$> cached_requests r2 !! id) /\
    (forall id, id ∈ map fst (num_scheduled_tokens out) -> is_Some (cached_requests r2 !! id)) /\
    (forall id, id ∉ map fst (num_scheduled_tokens out) -> contents b2 !! id = None) /\
    (forall id, id ∈ map fst (num_scheduled_tokens out) -> contents (input_batch r) !! id <> None -> id ∉ out_finished_req_ids out ->
       masks b2 !! id = masks (input_batch r) !! id) /\
    (forall id q m, id ∈ map fst (num_scheduled_tokens out) -> contents (input_batch r) !! id = None \/ id ∈ out_finished_req_ids out ->
       cached_requests r2 !! id = Some q -> wanted_mask (input_batch r) q = Some m -> masks b2 !! id = Some m).
Proof.
  intros Hok Hfit. set (fin := out_finished_req_ids out). set (new_ids := map new_req_id (scheduled_new_reqs out)). set (ids := req_ids (scheduled_cached_reqs out)).
  set (sched := map fst (num_scheduled_tokens out)).
  pose proof (of_nodup _ _ Hfit) as Hnd. rewrite (of_ids _ _ Hfit) in Hnd. fold new_ids ids in Hnd. apply NoDup_app in Hnd as (Nnew & Ndis & Nids).
  assert (Hsched : forall id, id ∈ sched <-> id ∈ new_ids \/ id ∈ ids) by (intros id; unfold sched; rewrite (of_ids _ _ Hfit); apply elem_of_app).
  destruct (drop_finished_ok r fin (ru_batch _ Hok)) as (r1 & H1 & Hg1 & Hs1 & Hset1 & Hc1 & Hq1 & Hm1 & Henc).
  destruct (drop_unscheduled_ok (input_batch r1) out Hg1 Hs1) as (b1 & H2 & Hg2 & Hset2 & Hc2 & Hm2).
  destruct (add_new_states_ok pooling_update (scheduled_new_reqs out) (cached_requests r1) Nnew) as (reqs & H3 & Hold & Hnew).
  { intros d Hd. destruct (of_new _ _ Hfit d Hd) as (_ & _ & q & Hq & _). by exists q. }
  set (start := with_batch (with_requests (with_encoder r1 (fold_left free_encoder_output (free_encoder_input_ids out) (encoder_outputs r1))) reqs) b1).
  assert (Hset : settings b1 = settings (input_batch r)) by congruence.
  (* the running requests see the state and the row that they had before *)
  assert (Hkeep : forall id, id ∈ ids -> id ∉ fin -> reqs !! id = cached_requests r !! id /\ contents b1 !! id = contents (input_batch r) !! id).
  { intros id Hid Hfin. assert (Hn : id ∉ new_ids) by (intros Hn; by apply (Ndis id)). assert (Hs : id ∈ sched) by (apply Hsched; by right).
    rewrite Hold, Hq1, Hc2 by done. rewrite (decide_True (P := id ∈ sched)), Hc1, !(decide_False (P := id ∈ fin)) by done. done. }
  destruct (update_cached_ok out ids start 0) as (r2 & H4 & Hsame & Hg4 & Hset4 & Hdone & [Hm4 _] & Hother); [|done|done| |].
  { destruct Henc as [enc E]. unfold start. cbn [is_last_rank with_batch with_requests with_encoder]. rewrite E. apply (ru_last _ Hok). }
  { intros j id Hj. destruct (of_running _ _ Hfit j id Hj) as (Hfin & q & c & nb & rs & He & Hq & Hf & Hl & Hrow). cbn [Nat.add].
    destruct (Hkeep id (list_elem_of_lookup_2 _ _ _ Hj) Hfin) as [K1 K2]. exists q, c, nb, rs. split; [done|]. cbn. split; [by rewrite K1|]. split; [by eapply ru_ids|].
    split; [by eapply fits_settings|]. split; [done|]. rewrite K2. destruct (contents (input_batch r) !! id) as [w|] eqn:Ew; [|done]. destruct Hrow as [-> Hroom].
    split; [done|]. destruct (settings_limits _ _ Hset) as (_ & -> & _). split; [|done]. destruct (ru_rows _ Hok id w Ew) as (q' & Hq' & ->).
    rewrite Hq in Hq'. injection Hq' as <-. symmetry. by apply row_of_settings. }
  change (input_batch start) with b1 in *. change (cached_requests start) with reqs in *.
  set (joining := new_ids ++ List.filter (absent b1) ids).
  assert (Hdone' : forall i id q c nb rs, cached_entry (scheduled_cached_reqs out) i id c nb rs -> cached_requests r !! id = Some q ->
    id ∉ fin /\ cached_requests r2 !! id = Some (join_state q nb c rs) /\
    contents (input_batch r2) !! id = (if absent b1 id then None else Some (row_with b1 (join_state q nb c rs) (drafts_of out id)))).
  { intros i id q c nb rs He Hq. pose proof (proj1 He) as Hi. destruct (of_running _ _ Hfit i id Hi) as [Hfin _]. split; [done|].
    destruct (Hdone i id Hi) as (q' & c' & nb' & rs' & D1 & D2 & D3 & D4). cbn [Nat.add] in D1.
    destruct (cached_entry_fun _ _ _ _ _ _ _ _ _ _ He D1) as (_ & -> & -> & ->). destruct (Hkeep id (list_elem_of_lookup_2 _ _ _ Hi) Hfin) as [K1 _].
    assert (q' = q) as -> by (change (reqs !! id = Some q') in D2; congruence). done. }
  assert (Hrun : forall id, id ∈ ids -> exists i q c nb rs, cached_entry (scheduled_cached_reqs out) i id c nb rs /\ cached_requests r !! id = Some q /\
      fits_row (input_batch r) (join_state q nb c rs) /\ (absent b1 id = true -> drafts_of out id = [])).
  { intros id [i Hi]%list_elem_of_lookup. destruct (of_running _ _ Hfit i id Hi) as (Hfin & q & c & nb & rs & He & Hq & Hf & Hl & Hrow).
    exists i, q, c, nb, rs. split; [done|]. split; [done|]. split; [done|]. unfold absent. destruct (Hkeep id (list_elem_of_lookup_2 _ _ _ Hi) Hfin) as [_ ->].
    by destruct (contents (input_batch r) !! id). }
  assert (Hnone_new : forall id, id ∈ new_ids -> contents (input_batch r2) !! id = None).
  { intros id Hid. pose proof Hid as (d & -> & Hd)%list_elem_of_fmap. destruct (Hother (new_req_id d)) as [_ ->]; [by apply Ndis|].
    rewrite Hc2, decide_True by (apply Hsched; by left). rewrite Hc1. destruct (of_new _ _ Hfit d Hd) as ([E|E] & _); [by destruct (decide _)|by rewrite decide_True]. }
  assert (Hnew2 : forall d q, d ∈ scheduled_new_reqs out -> new_state d = Ok q -> cached_requests r2 !! new_req_id d = Some q).
  { intros d q Hd Hq. assert (Hin : new_req_id d ∈ new_ids) by (apply list_elem_of_fmap; by exists d). destruct (Hother (new_req_id d)) as [-> _]; [by apply Ndis|]. by apply Hnew. }
  assert (Hjoin : forall id, id ∈ joining <-> id ∈ new_ids \/ (id ∈ ids /\ absent b1 id = true)).
  { intros id. unfold joining. by rewrite elem_of_app, elem_of_lfilter. }
  destruct (add_requests_ok (cached_requests r2) joining (input_batch r2)) as (b2 & H5 & Hg5 & Hset5 & Hc5 & Hm5 & Hw5); [done| | | |].
  { apply NoDup_app. split; [done|]. split; [|by apply NoDup_ListNoDup, List.NoDup_filter, NoDup_ListNoDup].
    intros id Hid. intros Hf%elem_of_lfilter. apply (Ndis id Hid), Hf. }
  { (* the rows suffice *)
    destruct (settings_limits _ _ (eq_trans Hset4 Hset)) as (-> & _). rewrite num_reqs_contents.
    assert (Hsz : (size (contents (input_batch r2)) <= length (List.filter (fun id => negb (absent b1 id)) ids))%nat).
    { apply size_le_list; [by apply NoDup_ListNoDup, List.NoDup_filter, NoDup_ListNoDup|]. intros id Hid. rewrite elem_of_lfilter.
      destruct (decide (id ∈ ids)) as [Hin|Hin].
      - split; [done|]. destruct (Hrun id Hin) as (i & q & c & nb & rs & He & Hq & _). destruct (Hdone' _ _ _ _ _ _ He Hq) as (_ & _ & E). rewrite E in Hid.
        destruct (absent b1 id); [by destruct Hid|done].
      - exfalso. destruct (decide (id ∈ new_ids)) as [Hn|Hn]; [rewrite (Hnone_new id Hn) in Hid; by destruct Hid|].
        destruct (Hother id Hin) as [_ E]. rewrite E, Hc2, decide_False in Hid by (intros [?|?]%Hsched; done). by destruct Hid. }
    pose proof (filter_parts (absent b1) ids) as Hp. pose proof (Permutation_length (of_ids _ _ Hfit)) as Hlen. rewrite length_app, length_map in Hlen.
    unfold joining. rewrite length_app. pose proof (of_room _ _ Hfit). fold new_ids ids in Hlen. lia. }
  { intros id [Hid|[Hid Ha]]%Hjoin.
    - split; [by apply Hnone_new|]. pose proof Hid as (d & -> & Hd)%list_elem_of_fmap. destruct (of_new _ _ Hfit d Hd) as (_ & _ & q & Hq & Hf). exists q.
      split; [by apply Hnew2|]. split; [by eapply new_state_id|]. eapply fits_settings; [|exact Hf]. congruence.
    - destruct (Hrun id Hid) as (i & q & c & nb & rs & He & Hq & Hf & _). destruct (Hdone' _ _ _ _ _ _ He Hq) as (_ & E1 & E2). rewrite Ha in E2. split; [done|].
      exists (join_state q nb c rs). split; [done|]. split; [exact (ru_ids _ Hok _ _ Hq)|]. eapply fits_settings; [|exact Hf]. congruence. }
  assert (Hset5' : settings b2 = settings (input_batch r)) by congruence.
  exists r1, b1, reqs, r2, b2. split; [done|]. split; [done|]. split; [done|]. split; [done|]. split; [exact H5|]. split; [done|]. split; [done|]. split; [done|]. split; [done|].
  split; [intros i id q c nb rs He Hq; by apply (Hdone' i id q c nb rs)|]. split; [|split; [|split; [|split; [|split]]]].
  - intros id Hid. destruct (Hother id) as [-> _]; [intros ?; apply Hid, Hsched; by right|]. rewrite Hold; [apply Hq1|]. intros ?. apply Hid, Hsched. by left.
  - intros id Hid. rewrite Hc5. destruct (decide (id ∈ joining)) as [Hj|Hj].
    + assert (Hd : drafts_of out id = []).
      { apply Hjoin in Hj as [Hj|[Hj Ha]]; [|by destruct (Hrun id Hj) as (i & q & c & nb & rs & _ & _ & _ & Hd); auto].
        apply list_elem_of_fmap in Hj as (d & -> & Hd). by destruct (of_new _ _ Hfit d Hd) as (_ & ? & _). }
      rewrite Hd. destruct (cached_requests r2 !! id) as [q|]; [|done]. cbn. f_equal. rewrite row_with_nil. apply row_of_settings. congruence.
    + assert (Hin : id ∈ ids /\ absent b1 id = false).
      { apply Hsched in Hid as [Hid|Hid]; [exfalso; apply Hj, Hjoin; by left|]. split; [done|]. destruct (absent b1 id) eqn:Ea; [|done]. exfalso. apply Hj, Hjoin. by right. }
      destruct Hin as [Hin Ha]. destruct (Hrun id Hin) as (i & q & c & nb & rs & He & Hq & Hf & _). destruct (Hdone' _ _ _ _ _ _ He Hq) as (_ & E1 & E2).
      rewrite E1, E2, Ha. cbn. f_equal. by apply row_with_settings.
  - intros id [Hid|Hid]%Hsched.
    + apply list_elem_of_fmap in Hid as (d & -> & Hd). destruct (of_new _ _ Hfit d Hd) as (_ & _ & q & Hq & _). exists q. by apply Hnew2.
    + destruct (Hrun id Hid) as (i & q & c & nb & rs & He & Hq & _). destruct (Hdone' _ _ _ _ _ _ He Hq) as (_ & E1 & _). by eexists.
  - intros id Hid. rewrite Hc5, decide_False by (intros [?|[? _]]%Hjoin; apply Hid, Hsched; tauto). destruct (Hother id) as [_ ->]; [intros ?; apply Hid, Hsched; by right|].
    by rewrite Hc2, decide_False.
  - intros id Hid Hp Hf. assert (Hb1 : absent b1 id = false).
    { unfold absent. rewrite Hc2, decide_True, Hc1, decide_False by done. by destruct (contents (input_batch r) !! id). }
    rewrite Hm5, Hm4, Hm2, Hm1, decide_False; [done|done|done|]. intros [Hn|[_ Ha]]%Hjoin; [|congruence].
    apply list_elem_of_fmap in Hn as (d & -> & Hd). destruct (of_new _ _ Hfit d Hd) as ([?|?] & _); done.
  - intros id q m Hid Ha Hq Hw. assert (Hb1 : absent b1 id = true).
    { unfold absent. rewrite Hc2, decide_True, Hc1 by done. destruct (decide (id ∈ fin)) as [|Hn]; [done|]. destruct Ha as [->|?]; done. }
    apply (Hw5 id q m); [|done|].
    + apply Hjoin. apply Hsched in Hid as [?|?]; [by left|by right].
    + unfold wanted_mask in *. destruct (settings_limits _ _ (eq_trans Hset4 Hset)) as (_ & _ & -> & _). done.
Qed.

(** Condensing, reordering and the refresh change no row's contents. *)
Lemma batch_finished r2 b2 out :
  good b2 -> (forall id, is_Some (contents b2 !! id) -> id ∈ map fst (num_scheduled_tokens out)) ->
  exists b3 r3 b4,
    condense b2 = Ok b3 /\ _may_reorder_batch (with_batch r2 b3) out = Ok r3 /\ refresh_metadata (out_len (cached_requests r3)) (input_batch r3) = Ok b4 /\
    r3 = with_batch r2 (input_batch r3) /\ steady b4 /\ contents b4 = contents b2 /\ settings b4 = settings b2 /\
    (reorder_batch_threshold r2 = None -> masks b4 = masks b2) /\
    forall threshold, num_kv_cache_groups r2 <> 0%nat -> reorder_batch_threshold r2 = Some threshold ->
      exists nd, forall k id, _req_ids b4 !! k = Some (Some id) -> ((k < nd)%nat <-> is_decode (num_scheduled_tokens out) threshold id = true).
Proof.
  intros Hg Hin. destruct (condense_ok b2 Hg) as (b3 & H3 & Hd3 & Hc3 & Hs3). destruct (condense_masks _ _ (g_ok _ Hg) H3) as [Hm3 _].
  assert (Hr : exists r3, _may_reorder_batch (with_batch r2 b3) out = Ok r3 /\ r3 = with_batch r2 (input_batch r3) /\ dense (input_batch r3) /\
    contents (input_batch r3) = contents b2 /\ settings (input_batch r3) = settings b2 /\
    (reorder_batch_threshold r2 = None -> masks (input_batch r3) = masks b2) /\
    forall threshold, num_kv_cache_groups r2 <> 0%nat -> reorder_batch_threshold r2 = Some threshold ->
      exists nd, forall k id, _req_ids (input_batch r3) !! k = Some (Some id) -> ((k < nd)%nat <-> is_decode (num_scheduled_tokens out) threshold id = true)).
  { unfold _may_reorder_batch. cbn [num_kv_cache_groups reorder_batch_threshold input_batch with_batch].
    destruct (Nat.eqb_spec (num_kv_cache_groups r2) 0) as [|_]; [exists (with_batch r2 b3); by repeat (split; [done|])|].
    destruct (reorder_batch_threshold r2) as [threshold|]; [|exists (with_batch r2 b3); by repeat (split; [done|])].
    destruct (reorder_ok b3 out threshold Hd3) as (m & b' & nd & Hb' & Hd' & Hc' & Hs' & _ & Hnd).
    { intros id i Hi. destruct (dict_get (num_scheduled_tokens out) id) as [n|] eqn:E; [by eexists|]. exfalso. apply SchedulerSpec.dict_get_none in E. apply E, Hin. rewrite <-Hc3.
      rewrite contents_lookup, Hi. by eexists. }
    rewrite Hb'. cbn [bind]. eexists. split; [reflexivity|]. split; [done|]. split; [done|]. split; [by rewrite <-Hc3, <-Hc'|]. split; [by rewrite <-Hs3, <-Hs'|]. split; [done|].
    intros t _ [= <-]. by exists nd. }
  destruct Hr as (r3 & E3 & Hr3 & Hd & Hc & Hs & Hmk & Hnd). destruct (refresh_ok (out_len (cached_requests r3)) (input_batch r3) Hd) as (b4 & H4 & Hst & Hc4 & Hs4 & Hids & Hm4 & _).
  exists b3, r3, b4. split; [done|]. split; [done|]. split; [done|]. split; [done|]. split; [done|]. split; [congruence|]. split; [congruence|]. split; [intros Hno; rewrite Hm4; by apply Hmk|].
  intros t Ht1 Ht2. destruct (Hnd t Ht1 Ht2) as (nd & H). exists nd. rewrite Hids. exact H.
Qed.

Lemma update_states_spec r out :
  runner_ok r -> output_fits r out -> exists r', _update_states pooling_update r out = Ok r' /\ states_updated r out r'.
Proof.
  intros Hok Hfit.
  destruct (requests_joined r out Hok Hfit) as (r1 & b1 & reqs & r2 & b2 & H1 & H2 & H3 & [H4 Hsame] & H5 & Hg & Hset & [enc Henc] & Hnew & Hrun & Hrest & Hrows & Hknown & Hnone & _).
  destruct (batch_finished r2 b2 out Hg) as (b3 & r3 & b4 & H6 & H7 & H8 & Hr3 & Hst & Hc & Hs & _ & Hfront).
  { intros id Hid. destruct (decide (id ∈ map fst (num_scheduled_tokens out))) as [|Hn]; [done|]. rewrite Hnone in Hid by done. by destruct Hid. }
  exists (with_batch r3 b4). unfold _update_states. rewrite H1. cbn [bind input_batch with_encoder]. rewrite H2. cbn [bind cached_requests with_encoder].
  rewrite H3. cbn [bind]. rewrite H4. cbn [bind]. rewrite H5. cbn [bind]. rewrite H6. cbn [bind]. rewrite H7. cbn [bind]. rewrite H8. cbn [bind]. split; [done|].
  assert (Hreqs : cached_requests (with_batch r3 b4) = cached_requests r2) by (cbn; by rewrite Hr3).
  assert (Hcfg : num_kv_cache_groups r2 = num_kv_cache_groups r /\ reorder_batch_threshold r2 = reorder_batch_threshold r) by (rewrite Hsame, Henc; done).
  split; rewrite ?Hreqs; cbn [input_batch with_batch]; try done.
  - intros id. rewrite Hc. destruct (dict_get (num_scheduled_tokens out) id) as [n|] eqn:E.
    + apply Hrows, list_elem_of_fmap. exists (id, n). split; [done|]. by apply SchedulerSpec.dict_get_in.
    + apply Hnone. by apply SchedulerSpec.dict_get_none.
  - intros id Hf Hn. rewrite Hrest by done. by rewrite decide_True.
  - intros id Hf Hn. rewrite Hrest by done. by rewrite decide_False.
  - intros t Ht1 Ht2. apply Hfront; by rewrite ?(proj1 Hcfg), ?(proj2 Hcfg).
  - congruence.
  - exists (fold_left free_encoder_output (free_encoder_input_ids out) (encoder_outputs r1)). rewrite Hr3, Hsame, Henc. done.
Qed.

(** What the step does to the mask of allowed tokens.  With a reordering backend the
    exchanged requests are an exception, see [swap_states_masks]. *)
Record masks_updated (r : Runner) (out : SchedulerOutput) (r' : Runner) : Prop := {
  mu_none : unrestricted (input_batch r') -> shown_mask (input_batch r') = None;
  mu_shown l id i : shown_mask (input_batch r') = Some l -> req_id_to_index (input_batch r') !! id = Some i -> l !! i = masks (input_batch r') !! id;
  mu_kept id : reorder_batch_threshold r = None -> id ∈ map fst (num_scheduled_tokens out) ->
    contents (input_batch r) !! id <> None -> id ∉ out_finished_req_ids out -> masks (input_batch r') !! id = masks (input_batch r) !! id;
  mu_joined id q m : reorder_batch_threshold r = None -> id ∈ map fst (num_scheduled_tokens out) ->
    contents (input_batch r) !! id = None \/ id ∈ out_finished_req_ids out ->
    cached_requests r' !! id = Some q -> wanted_mask (input_batch r) q = Some m -> masks (input_batch r') !! id = Some m }.

Lemma update_states_masks r out r' :
  runner_ok r -> output_fits r out -> _update_states pooling_update r out = Ok r' -> masks_updated r out r'.
Proof.
  intros Hok Hfit Hr'. destruct (update_states_spec r out Hok Hfit) as (r1' & Hr1 & Hu). rewrite Hr' in Hr1. injection Hr1 as <-. pose proof (su_batch _ _ _ Hu) as Hst'.
  destruct (requests_joined r out Hok Hfit) as (r1 & b1 & reqs & r2 & b2 & H1 & H2 & H3 & [H4 Hsame] & H5 & Hg & _ & [enc Henc] & _ & _ & _ & _ & _ & Hnone & Hkept & Hown).
  destruct (batch_finished r2 b2 out Hg) as (b3 & r3 & b4 & H6 & H7 & H8 & Hr3 & _ & _ & _ & Hm & _).
  { intros id Hid. destruct (decide (id ∈ map fst (num_scheduled_tokens out))) as [|Hn]; [done|]. rewrite Hnone in Hid by done. by destruct Hid. }
  unfold _update_states in Hr'. rewrite H1 in Hr'. cbn [bind input_batch with_encoder] in Hr'. rewrite H2 in Hr'. cbn [bind cached_requests with_encoder] in Hr'.
  rewrite H3 in Hr'. cbn [bind] in Hr'. rewrite H4 in Hr'. cbn [bind] in Hr'. rewrite H5 in Hr'. cbn [bind] in Hr'. rewrite H6 in Hr'. cbn [bind] in Hr'.
  rewrite H7 in Hr'. cbn [bind] in Hr'. rewrite H8 in Hr'. injection Hr' as <-.
  assert (Hth : reorder_batch_threshold r2 = reorder_batch_threshold r) by (rewrite Hsame, Henc; done).
  assert (Hreqs : cached_requests r3 = cached_requests r2) by (by rewrite Hr3). rewrite Hth in Hm.
  split; cbn [input_batch with_batch cached_requests] in *.
  - by apply shown_none.
  - intros l id i. by apply shown_row.
  - intros id Hno ???. rewrite Hm by done. by apply Hkept.
  - intros id q m Hno ?? Hq ?. rewrite Hm by done. rewrite Hreqs in Hq. by eapply Hown.
Qed.

(** C16. On the last pipeline rank the update of the model runner never raises on a
    scheduler output that fits its state ([output_fits]), and afterwards the
    persistent batch is a function of the cached states, the mask of allowed tokens
    apart: it holds exactly the scheduled requests, each in one row that shows its
    own state (a new one, one with more blocks and tokens, or one resumed with other
    blocks) with its drafts behind it; finished requests are forgotten, the others
    keep their state; the decodes are in front if the backend wants that; and the
    sampling metadata is what a new computation would give.  The mask: the sampler
    gets none while no request of the batch restricts its tokens, and otherwise the
    row of every request; when the backend does not reorder, a request that stays
    keeps its mask and a request that joins with a restriction has its own; one that
    joins without may inherit a mask, and reordering may exchange masks wrongly. *)
Theorem update_states_ok r out :
  runner_ok r -> output_fits r out ->
  exists r', _update_states pooling_update r out = Ok r' /\ states_updated r out r' /\ masks_updated r out r'.
Proof.
  intros Hok Hfit. destruct (update_states_spec r out Hok Hfit) as (r' & H & Hu). exists r'. split; [done|]. split; [done|]. by apply update_states_masks.
Qed.
End update.
