(* ===== verification/RunnerInputs.v ===== *)
(** * The inputs of the model

    [_prepare_inputs] of [vllm/v1/worker/gpu_model_runner.py] with its helpers: from
    the rows of the persistent batch and the number of tokens that each request got
    to the flat arrays of token ids, positions and cache slots, the boundaries of
    the requests, and the positions whose logits are sampled.

    The attention metadata of the backends, M-RoPE, cascade attention and the
    padding for shared KV caches are left out. *)

From stdpp Require Import base functions gmap strings list.
From Stdlib Require Import ZArith QArith Lia.
From S2P Require Import Prelude BlockTable SchedulerTypes InputBatch ModelRunner.
Open Scope list_scope.
Open Scope Z_scope.

(** ** Arrays *)

(** Element-wise operations: sizes agree or one of them is 1. *)
Definition np_op (f : Z -> Z -> Z) (a b : list Z) : res (list Z) :=
  if (length a =? length b)%nat then Ok (zip_with f a b)
  else match a, b with
       | [x], _ => Ok (map (f x) b)
       | _, [y] => Ok (map (fun x => f x y) a)
       | _, _ => Raise ValueError
       end.
(** [np.repeat(values, counts)] with the checks of its arguments. *)
Definition np_repeats (values counts : list Z) : res (list Z) :=
  if forallb (fun n => 0 <=? n) counts then
    if (length values =? length counts)%nat then Ok (np_repeat values counts)
    else match counts with
         | [n] => Ok (np_repeat values (map (fun _ => n) values))
         | _ => Raise ValueError
         end
  else Raise ValueError.
(** [f] for every element, or the first exception. *)
Fixpoint res_map {A B} (f : A -> res B) (l : list A) : res (list B) :=
  match l with
  | [] => Ok []
  | x :: l => let! y := f x in let! l := res_map f l in Ok (y :: l)
  end.
(** [torch.index_select] on a flattened matrix: no negative indices. *)
Definition flat_select (m : nat -> list Z) (rows cols : nat) (indices : list Z) : res (list Z) :=
  res_map (fun i => if i <? 0 then Raise IndexError else flat_lookup m rows cols i) indices.
(** [a[:n] = vals] *)
Definition set_prefix (a : list Z) (n : nat) (vals : list Z) : res (list Z) := np_slice_set a 0 n vals.
(** [a[n:].fill_(x)] *)
Definition fill_from (a : list Z) (n : nat) (x : Z) : list Z := take n a ++ repeat x (length a - n).

(** [_get_cumsum_and_arange] *)
Definition _get_cumsum_and_arange (arange_np num_tokens : list Z) : res (list Z * list Z) :=
  let cu_num_tokens := np_cumsum num_tokens in
  let! total_num_tokens := of_option IndexError (last cu_num_tokens) in
  let! cumsums_offsets := np_repeats (zip_with Z.sub cu_num_tokens num_tokens) num_tokens in
  let! arange := np_op Z.sub (py_slice arange_np 0 total_num_tokens) cumsums_offsets in
  Ok (cu_num_tokens, arange).

(** ** Speculative decoding *)

Record SpecDecodeMetadata : Type := {
  draft_token_ids : list Z;
  num_draft_tokens : list Z;
  cu_num_draft_tokens : list Z;
  target_logits_indices : list Z;
  bonus_logits_indices : list Z;
  spec_logits_indices : list Z }.

Definition _calc_spec_decode_metadata (arange_np input_ids : list Z) (num_draft_tokens cu_num_scheduled_tokens : list Z) : res SpecDecodeMetadata :=
  let num_sampled_tokens := map (fun n => n + 1) num_draft_tokens in
  let! '(cu_num_sampled_tokens, arange) := _get_cumsum_and_arange arange_np num_sampled_tokens in
  let! offsets := np_op Z.sub cu_num_scheduled_tokens num_sampled_tokens in
  let! logits_indices := np_repeats offsets num_sampled_tokens in
  let! logits_indices := np_op Z.add logits_indices arange in
  let bonus_logits_indices := map (fun x => x - 1) cu_num_sampled_tokens in
  let! '(cu_num_draft_tokens, arange) := _get_cumsum_and_arange arange_np num_draft_tokens in
  let! offsets := np_op Z.sub cu_num_sampled_tokens num_sampled_tokens in
  let! target_logits_indices := np_repeats offsets num_draft_tokens in
  let! target_logits_indices := np_op Z.add target_logits_indices arange in
  let! draft_token_ids := res_map (py_nth input_ids) logits_indices in
  let! draft_token_ids := res_map (fun i => py_nth draft_token_ids (i + 1)) target_logits_indices in
  Ok {| draft_token_ids := draft_token_ids; num_draft_tokens := num_draft_tokens; cu_num_draft_tokens := cu_num_draft_tokens;
        target_logits_indices := target_logits_indices; bonus_logits_indices := bonus_logits_indices; spec_logits_indices := logits_indices |}.

(** The number of drafts of every row. *)
Fixpoint count_drafts (index : gmap string nat) (spec : list (string * list Z)) (counts : list Z) : res (list Z) :=
  match spec with
  | [] => Ok counts
  | (req_id, ids) :: spec =>
      let! i := of_option KeyError (index !! req_id) in
      let! counts := list_set counts i (Z.of_nat (length ids)) in
      count_drafts index spec counts
  end.

(** ** The inputs of a step *)

(** [CommonAttentionMetadata] of a KV cache group. *)
Record CommonAttentionMetadata : Type := {
  am_query_start_loc : list Z;
  am_seq_lens : list Z;
  am_num_computed_tokens : list Z;
  am_num_reqs : nat;
  am_num_actual_tokens : Z;
  am_max_query_len : Z;
  am_block_table : list (list Z);
  am_slot_mapping : list Z }.
Record PreparedInputs : Type := {
  pi_input_ids : list Z;
  pi_positions : list Z;
  pi_metadata : list CommonAttentionMetadata;
  pi_logits_indices : list Z;
  pi_spec_decode : option SpecDecodeMetadata;
  pi_num_scheduled_tokens : list Z }.

Definition with_block_table (b : InputBatch) (t : list BlockTable) : InputBatch := with_cols b (cols b) t.

(** The tokens of each request of the batch. *)
Definition scheduled_tokens (b : InputBatch) (out : SchedulerOutput) : res (list Z) :=
  res_map (fun id => of_option KeyError (match id with Some id => dict_get (num_scheduled_tokens out) id | None => None end)) (_req_ids b).

Definition _prepare_inputs (r : Runner) (out : SchedulerOutput) : res (PreparedInputs * Runner) :=
  let total := total_num_scheduled_tokens out in
  let n := num_reqs (input_batch r) in
  py_assert (0 <? total) ;;!
  (py_assert (0 <? n)%nat ;;!
   let b := with_block_table (input_batch r) (commit_block_tables (block_table (input_batch r)) n) in
   let u := buffers r in
   let total_nat := Z.to_nat total in
   let! tokens := scheduled_tokens b out in
   let max_num_scheduled_tokens := zmax_list 0 tokens in
   let! req_indices := np_repeats (take n (arange_np u)) tokens in
   let! '(cu_num_tokens, arange) := _get_cumsum_and_arange (arange_np u) tokens in
   let computed := map (fun i => num_computed_tokens_cpu (cols b) (Z.to_nat i)) req_indices in
   let! pos := np_op Z.add computed arange in
   let! positions_np := set_prefix (positions_np u) total_nat pos in
   let pos := take total_nat positions_np in
   let! token_indices := np_op Z.add pos (map (fun i => i * Z.of_nat (max_model_len b)) req_indices) in
   let! ids := flat_select (token_ids_cpu (cols b)) (max_num_reqs b) (max_model_len b) token_indices in
   let! input_ids_cpu := set_prefix (input_ids_cpu u) total_nat ids in
   let! t := compute_slot_mappings (block_table b) req_indices pos in
   let t := commit_slot_mappings t total_nat in
   let! query_start_loc_np := set_prefix (query_start_loc_np u) 1 [0] in
   let! query_start_loc_np := np_slice_set query_start_loc_np 1 (n + 1) cu_num_tokens in
   let! lens := np_op Z.add (first_rows (num_computed_tokens_cpu (cols b)) n) tokens in
   let! seq_lens_np := set_prefix (seq_lens_np u) n lens in
   let input_ids := np_copy_prefix (input_ids u) input_ids_cpu total_nat in
   let positions := np_copy_prefix (positions u) positions_np total_nat in
   let! last_start := of_option IndexError (query_start_loc_np !! n) in
   let query_start_loc := fill_from (np_copy_prefix (query_start_loc u) query_start_loc_np (n + 1)) (n + 1) last_start in
   let seq_lens := fill_from (np_copy_prefix (seq_lens u) seq_lens_np n) n 0 in
   let u := {| arange_np := arange_np u; input_ids_cpu := input_ids_cpu; input_ids := input_ids; positions_np := positions_np;
               positions := positions; query_start_loc_np := query_start_loc_np; query_start_loc := query_start_loc;
               seq_lens_np := seq_lens_np; seq_lens := seq_lens |} in
   let! spec :=
     match scheduled_spec_decode_tokens out with
     | [] => Ok None
     | spec =>
         let! num_draft_tokens := count_drafts (req_id_to_index b) spec (repeat 0 n) in
         let! md := _calc_spec_decode_metadata (arange_np u) input_ids num_draft_tokens cu_num_tokens in
         Ok (Some md)
     end in
   let logits_indices :=
     match spec with
     | None => map (fun x => x - 1) (drop 1 (take (n + 1) query_start_loc))
     | Some md => spec_logits_indices md
     end in
   let metadata (t : BlockTable) :=
     {| am_query_start_loc := take (n + 1) query_start_loc; am_seq_lens := take n seq_lens;
        am_num_computed_tokens := first_rows (num_computed_tokens_cpu (cols b)) n; am_num_reqs := n; am_num_actual_tokens := total;
        am_max_query_len := max_num_scheduled_tokens; am_block_table := first_rows (block_table_dev t) n;
        am_slot_mapping := take total_nat (slot_mapping_dev t) |} in
   let t := map (fun t => pad_slot_mapping t total_nat) t in
   Ok ({| pi_input_ids := take total_nat input_ids; pi_positions := take total_nat positions; pi_metadata := map metadata t;
          pi_logits_indices := logits_indices; pi_spec_decode := spec; pi_num_scheduled_tokens := tokens |},
       with_buffers (with_batch r (with_block_table b t)) u)).
