(* ===== verification/RunnerSpec.v ===== *)
(** * Logits indices with draft tokens

    [_calc_spec_decode_metadata] against per-request ranges: of every request the
    last [d + 1] positions are sampled, the first [d] of these check its drafts, the
    last one gives the bonus token, and the draft tokens are its last [d] inputs.
    First the list lemmas of its vectorised expressions. *)

From stdpp Require Import base functions gmap strings list list_numbers.
From Stdlib Require Import ZArith Lia.
From S2P Require Import Prelude BlockTable RunnerInputs InputBatch.
From S2P Require SchedulerTypes SchedulerSpec.
Open Scope list_scope.
Open Scope Z_scope.

(** ** Concatenations *)

Lemma flat_map_ext_in' {X B} (g h : X -> list B) l : (forall x, x ∈ l -> g x = h x) -> flat_map g l = flat_map h l.
Proof.
  induction l as [|x l IH]; cbn; intros H; [done|]. rewrite H by left. f_equal. apply IH. intros y Hy. apply H. by right.
Qed.
Lemma zip_flat {X A B C} (f : A -> B -> C) (g : X -> list A) (h : X -> list B) l :
  (forall x, x ∈ l -> length (g x) = length (h x)) -> zip_with f (flat_map g l) (flat_map h l) = flat_map (fun x => zip_with f (g x) (h x)) l.
Proof.
  induction l as [|x l IH]; cbn; intros H; [done|]. rewrite zip_with_app by (apply H; left). f_equal. apply IH. intros y Hy. apply H. by right.
Qed.
Lemma flat_length {X A B} (g : X -> list A) (h : X -> list B) l :
  (forall x, x ∈ l -> length (g x) = length (h x)) -> length (flat_map g l) = length (flat_map h l).
Proof.
  induction l as [|x l IH]; cbn; intros H; [done|]. rewrite !length_app, (H x) by left. f_equal. apply IH. intros y Hy. apply H. by right.
Qed.
Lemma map_flat {X A B} (f : A -> B) (g : X -> list A) l : map f (flat_map g l) = flat_map (fun x => map f (g x)) l.
Proof. induction l as [|x l IH]; cbn; [done|]. by rewrite map_app, IH. Qed.
Lemma repeat_map {A B} (f : A -> B) x n : map f (repeat x n) = repeat (f x) n.
Proof. induction n; cbn; congruence. Qed.

(** ** Element-wise operations *)

Lemma np_op_ok f a b : length a = length b -> np_op f a b = Ok (zip_with f a b).
Proof. intros H. unfold np_op. by rewrite H, Nat.eqb_refl. Qed.
Lemma np_repeats_ok v c : Forall (fun n => 0 <= n) c -> length v = length c -> np_repeats v c = Ok (np_repeat v c).
Proof.
  intros Hc Hl. unfold np_repeats. rewrite Hl, Nat.eqb_refl. replace (forallb _ c) with true; [done|]. symmetry. apply forallb_forall.
  intros n Hn%list_elem_of_In. rewrite Forall_forall in Hc. by apply Z.leb_le, Hc.
Qed.
Lemma np_repeat_flat {X} (v c : X -> Z) l : np_repeat (map v l) (map c l) = flat_map (fun x => repeat (v x) (Z.to_nat (c x))) l.
Proof. induction l as [|x l IH]; cbn; [done|]. by rewrite IH. Qed.
Lemma length_repeat_range (x n : Z) : length (repeat x (Z.to_nat n)) = length (seqZ 0 n).
Proof. by rewrite repeat_length, length_seqZ. Qed.

(** A constant plus a range is a shifted range. *)
Lemma shift_range k n : zip_with Z.add (repeat k (Z.to_nat n)) (seqZ 0 n) = seqZ k n.
Proof.
  apply list_eq. intros i. rewrite lookup_zip_with. destruct (Z_lt_dec (Z.of_nat i) n).
  - rewrite repeat_lookup, !lookup_seqZ_lt by lia. done.
  - rewrite (lookup_seqZ_ge k) by lia. rewrite (lookup_ge_None_2 (repeat k _)) by (rewrite repeat_length; lia). done.
Qed.
Lemma unshift_range k n : zip_with Z.sub (seqZ k n) (repeat k (Z.to_nat n)) = seqZ 0 n.
Proof.
  apply list_eq. intros i. rewrite lookup_zip_with. destruct (Z_lt_dec (Z.of_nat i) n).
  - rewrite repeat_lookup, !lookup_seqZ_lt by lia. cbn. f_equal. lia.
  - rewrite !lookup_seqZ_ge by lia. done.
Qed.

(** ** Prefix sums *)

Lemma cumsum_map acc l : cumsum_from acc l = map (Z.add acc) (np_cumsum l).
Proof.
  unfold np_cumsum. revert acc. induction l as [|x l IH]; intros acc; cbn [cumsum_from map]; [done|]. f_equal.
  rewrite (IH (acc + x)), (IH (0 + x)), map_map. apply map_ext. intros y. lia.
Qed.
Lemma last_cumsum acc l : l <> [] -> last (cumsum_from acc l) = Some (acc + zsum l).
Proof.
  revert acc. induction l as [|x l IH]; intros acc; [done|]. intros _. cbn [cumsum_from zsum]. destruct l as [|y l]; [cbn; f_equal; lia|].
  rewrite last_cons, IH by done. f_equal. lia.
Qed.
(** The offset of every range. *)
Lemma range_offsets acc l : Forall (fun n => 0 <= n) l ->
  zip_with Z.sub (seqZ acc (zsum l)) (np_repeat (zip_with Z.sub (cumsum_from acc l) l) l) = flat_map (seqZ 0) l.
Proof.
  intros Hl. revert acc. induction Hl as [|n l Hn Hl IH]; intros acc; cbn [zsum cumsum_from zip_with np_repeat flat_map]; [done|].
  replace (acc + n - n) with acc by lia. rewrite seqZ_app by (try done; by apply zsum_nonneg).
  rewrite zip_with_app by (by rewrite repeat_length, length_seqZ). by rewrite unshift_range, IH.
Qed.
Lemma length_ranges l : Forall (fun n => 0 <= n) l -> Z.of_nat (length (flat_map (seqZ 0) l)) = zsum l.
Proof. induction 1 as [|n l Hn _ IH]; cbn; [done|]. rewrite length_app, length_seqZ. lia. Qed.

Lemma arange_prefix n m : 0 <= m <= n -> py_slice (np_arange n) 0 m = seqZ 0 m.
Proof.
  intros H. replace 0 with (Z.of_nat 0) by done. replace m with (Z.of_nat (Z.to_nat m)) at 1 by lia.
  rewrite py_slice_drop_take by (rewrite length_arange; lia). rewrite Nat.sub_0_r, drop_0. apply list_eq. intros i. destruct (Nat.lt_ge_cases i (Z.to_nat m)).
  - rewrite lookup_take_lt, np_arange_lookup by lia. rewrite lookup_seqZ_lt by lia. done.
  - rewrite lookup_take_ge, lookup_seqZ_ge by lia. done.
Qed.

(** [_get_cumsum_and_arange]: the prefix sums, and [np.concatenate] of the ranges,
    as its docstring says. *)
Lemma cumsum_and_arange_ok N l :
  l <> [] -> Forall (fun n => 0 <= n) l -> zsum l <= N ->
  _get_cumsum_and_arange (np_arange N) l = Ok (np_cumsum l, flat_map (seqZ 0) l).
Proof.
  intros Hne Hl HN. pose proof (zsum_nonneg l Hl). unfold _get_cumsum_and_arange, np_cumsum. rewrite last_cumsum by done. cbn [of_option bind].
  rewrite np_repeats_ok by (try done; rewrite length_zip_with, length_cumsum; lia). cbn [bind]. rewrite arange_prefix by lia.
  pose proof (range_offsets 0 l Hl) as Hr. rewrite np_op_ok; [cbn [bind]; by rewrite Z.add_0_l, Hr|].
  apply Nat2Z.inj. rewrite Z.add_0_l, length_seqZ, Z2Nat.id by lia. clear -Hl.
  assert (G : forall v : list Z, length v = length l -> Z.of_nat (length (np_repeat v l)) = zsum l).
  { induction Hl as [|n l Hn _ IH]; intros [|x v]; cbn; try done. intros [= H]. rewrite length_app, repeat_length, Nat2Z.inj_add, IH by done. lia. }
  rewrite G; [done|]. rewrite length_zip_with, length_cumsum. lia.
Qed.

(** ** Selecting *)

Lemma res_map_forall2 {A B} (f : A -> res B) l l' : Forall2 (fun x y => f x = Ok y) l l' -> res_map f l = Ok l'.
Proof. induction 1 as [|x y l l' Hx _ IH]; cbn; [done|]. by rewrite Hx, IH. Qed.
Lemma res_map_app {A B} (f : A -> res B) l1 l2 r1 r2 : res_map f l1 = Ok r1 -> res_map f l2 = Ok r2 -> res_map f (l1 ++ l2) = Ok (r1 ++ r2).
Proof.
  revert r1. induction l1 as [|x l1 IH]; cbn; intros r1; [by intros [= <-]|]. destruct (f x) as [y|]; [cbn [bind]|done].
  destruct (res_map f l1) as [r|]; [cbn [bind]|done]. intros [= <-] H2. by rewrite (IH r eq_refl H2).
Qed.
Lemma res_map_flat {X A B} (f : A -> res B) (g : X -> list A) (h : X -> list B) l :
  (forall x, x ∈ l -> res_map f (g x) = Ok (h x)) -> res_map f (flat_map g l) = Ok (flat_map h l).
Proof.
  induction l as [|x l IH]; cbn; intros H; [done|]. apply res_map_app; [apply H; left|]. apply IH. intros y Hy. apply H. by right.
Qed.
(** A range of indices selects a slice. *)
Lemma res_map_range {B} (f : Z -> res B) (l : list B) k n :
  0 <= n -> (forall j y, 0 <= j < n -> l !! Z.to_nat (k + j) = Some y -> f (k + j) = Ok y) -> 0 <= k -> k + n <= Z.of_nat (length l) ->
  res_map f (seqZ k n) = Ok (take (Z.to_nat n) (drop (Z.to_nat k) l)).
Proof.
  intros Hn Hf Hk Hl. apply res_map_forall2, Forall2_same_length_lookup_2.
  - rewrite length_seqZ, length_take, length_drop. lia.
  - intros i x y Hx Hy. apply lookup_seqZ in Hx as [-> Hi]. rewrite lookup_take_lt, lookup_drop in Hy by lia. apply Hf; [lia|].
    replace (Z.to_nat (k + Z.of_nat i)) with (Z.to_nat k + i)%nat by lia. done.
Qed.

Lemma res_map_map {A B C} (f : B -> res C) (g : A -> B) l : res_map f (map g l) = res_map (fun x => f (g x)) l.
Proof. induction l as [|x l IH]; cbn; [done|by rewrite IH]. Qed.

(** A row of a flattened matrix. *)
Lemma flat_select_row (m : nat -> list Z) rows cols i k n :
  (i < rows)%nat -> length (m i) = cols -> 0 <= k -> 0 <= n -> k + n <= Z.of_nat cols ->
  flat_select m rows cols (map (fun p => p + Z.of_nat i * Z.of_nat cols) (seqZ k n)) = Ok (take (Z.to_nat n) (drop (Z.to_nat k) (m i))).
Proof.
  intros Hi Hl Hk Hn Hkn. unfold flat_select.
  rewrite res_map_map. apply res_map_range; [done| |done|lia]. intros j y Hj Hy. destruct (Z.ltb_spec (k + j + Z.of_nat i * Z.of_nat cols) 0); [lia|].
  replace (k + j + Z.of_nat i * Z.of_nat cols) with (Z.of_nat (i * cols + Z.to_nat (k + j))) by lia. rewrite flat_lookup_row by lia. by rewrite Hy.
Qed.

(** ** [_calc_spec_decode_metadata] *)
Section requests.
Context {X : Type} (n d : X -> Z).
Implicit Type l : list X.

(** The sampled positions; [acc] is the position of the first request. *)
Fixpoint sampled_positions (acc : Z) l : list Z :=
  match l with
  | [] => []
  | x :: l => seqZ (acc + n x - (d x + 1)) (d x + 1) ++ sampled_positions (acc + n x) l
  end.
(** The indices of the drafts' logits and of the bonus logits among the sampled
    positions. *)
Fixpoint draft_targets (acc : Z) l : list Z :=
  match l with
  | [] => []
  | x :: l => seqZ acc (d x) ++ draft_targets (acc + (d x + 1)) l
  end.
Fixpoint bonus_targets (acc : Z) l : list Z :=
  match l with
  | [] => []
  | x :: l => acc + d x :: bonus_targets (acc + (d x + 1)) l
  end.

Lemma cumsum_map_n acc (f : X -> Z) x l : cumsum_from acc (map f (x :: l)) = acc + f x :: cumsum_from (acc + f x) (map f l).
Proof. done. Qed.

Lemma sampled_repeat acc l : (forall x, x ∈ l -> 0 <= d x) ->
  zip_with Z.add (np_repeat (zip_with Z.sub (cumsum_from acc (map n l)) (map (fun x => d x + 1) l)) (map (fun x => d x + 1) l))
    (flat_map (seqZ 0) (map (fun x => d x + 1) l)) = sampled_positions acc l.
Proof.
  revert acc. induction l as [|x l IH]; intros acc Hd; [done|]. cbn [map cumsum_from zip_with np_repeat flat_map sampled_positions].
  rewrite zip_with_app by (by rewrite repeat_length, length_seqZ). rewrite shift_range, IH; [done|]. intros y Hy. apply Hd. by right.
Qed.
Lemma target_repeat acc l :
  zip_with Z.add (np_repeat (zip_with Z.sub (cumsum_from acc (map (fun x => d x + 1) l)) (map (fun x => d x + 1) l)) (map d l))
    (flat_map (seqZ 0) (map d l)) = draft_targets acc l.
Proof.
  revert acc. induction l as [|x l IH]; intros acc; [done|]. cbn [map cumsum_from zip_with np_repeat flat_map draft_targets].
  rewrite zip_with_app by (by rewrite repeat_length, length_seqZ). replace (acc + (d x + 1) - (d x + 1)) with acc by lia. by rewrite shift_range, IH.
Qed.
Lemma bonus_cumsum acc l : map (fun x => x - 1) (cumsum_from acc (map (fun x => d x + 1) l)) = bonus_targets acc l.
Proof. revert acc. induction l as [|x l IH]; intros acc; [done|]. cbn [map cumsum_from bonus_targets]. rewrite IH. f_equal. lia. Qed.
Lemma repeat_ranges_length (v : list Z) (f : X -> Z) l : length v = length l ->
  length (np_repeat v (map f l)) = length (flat_map (seqZ 0) (map f l)).
Proof.
  revert v. induction l as [|x l IH]; intros [|y v]; cbn; try done. intros [= H]. rewrite !length_app, repeat_length, length_seqZ. by rewrite IH.
Qed.

(** ** The selected tokens *)

Lemma select_range {A} (pre mid post : list A) k m :
  0 <= k -> 0 <= m -> k + m <= Z.of_nat (length mid) ->
  res_map (py_nth (pre ++ mid ++ post)) (seqZ (Z.of_nat (length pre) + k) m) = Ok (take (Z.to_nat m) (drop (Z.to_nat k) mid)).
Proof.
  intros Hk Hm Hl. rewrite (res_map_range _ (pre ++ mid ++ post)); [|done| |lia|rewrite !length_app; lia].
  - f_equal. replace (Z.to_nat (Z.of_nat (length pre) + k)) with (length pre + Z.to_nat k)%nat by lia. rewrite <-drop_drop, drop_app_length.
    rewrite drop_app_le by lia. rewrite take_app_le by (rewrite length_drop; lia). done.
  - intros j y Hj Hy. replace (Z.of_nat (length pre) + k + j) with (Z.of_nat (Z.to_nat (Z.of_nat (length pre) + k + j))) at 1 by lia. by rewrite py_nth_nat, Hy.
Qed.
(** The last [k] of the inputs of every request. *)
Definition last_of {A} (k : Z) (ids : list A) : list A := drop (length ids - Z.to_nat k) ids.

Lemma sampled_tokens (ids : X -> list Z) l : forall pre post,
  (forall x, x ∈ l -> 0 <= d x /\ d x + 1 <= n x /\ Z.of_nat (length (ids x)) = n x) ->
  res_map (py_nth (pre ++ flat_map ids l ++ post)) (sampled_positions (Z.of_nat (length pre)) l) = Ok (flat_map (fun x => last_of (d x + 1) (ids x)) l).
Proof.
  induction l as [|x l IH]; intros pre post H; [done|]. destruct (H x) as (H1 & H2 & H3); [left|]. cbn [flat_map sampled_positions]. apply res_map_app.
  - rewrite <-app_assoc. replace (Z.of_nat (length pre) + n x - (d x + 1)) with (Z.of_nat (length pre) + (n x - (d x + 1))) by lia.
    rewrite select_range by lia. f_equal. unfold last_of. rewrite take_ge by (rewrite length_drop; lia). f_equal. lia.
  - specialize (IH (pre ++ ids x) post). rewrite length_app, Nat2Z.inj_add, H3 in IH. rewrite <-(app_assoc (ids x)), (app_assoc pre). apply IH.
    intros y Hy. apply H. by right.
Qed.
Lemma target_tokens (ids : X -> list Z) l : forall pre,
  (forall x, x ∈ l -> 0 <= d x /\ d x + 1 <= Z.of_nat (length (ids x))) ->
  res_map (fun i => py_nth (pre ++ flat_map (fun x => last_of (d x + 1) (ids x)) l) (i + 1)) (draft_targets (Z.of_nat (length pre)) l) =
    Ok (flat_map (fun x => last_of (d x) (ids x)) l).
Proof.
  induction l as [|x l IH]; intros pre H; [done|]. destruct (H x) as (H1 & H2); [left|]. cbn [flat_map draft_targets].
  set (tail := flat_map _ l). assert (Hlen : Z.of_nat (length (last_of (d x + 1) (ids x))) = d x + 1) by (unfold last_of; rewrite length_drop; lia).
  apply res_map_app.
  - rewrite <-(res_map_map (py_nth (pre ++ last_of (d x + 1) (ids x) ++ tail)) (fun i => i + 1)).
    assert (Hs : map (fun i => i + 1) (seqZ (Z.of_nat (length pre)) (d x)) = seqZ (Z.of_nat (length pre) + 1) (d x)).
    { apply list_eq. intros j. rewrite list_lookup_fmap. destruct (Z_lt_dec (Z.of_nat j) (d x)); [rewrite !lookup_seqZ_lt by lia; cbn; f_equal; lia|by rewrite !lookup_seqZ_ge by lia]. }
    rewrite Hs, select_range by lia. f_equal. unfold last_of. rewrite drop_drop, take_ge by (rewrite length_drop; lia). f_equal. lia.
  - specialize (IH (pre ++ last_of (d x + 1) (ids x))). rewrite length_app, Nat2Z.inj_add, Hlen, <-app_assoc in IH. apply IH. intros y Hy. apply H. by right.
Qed.

(** ** The metadata *)

Lemma calc_spec_ok N (ids : X -> list Z) post l :
  l <> [] -> (forall x, x ∈ l -> 0 <= d x /\ d x + 1 <= n x /\ Z.of_nat (length (ids x)) = n x) -> zsum (map n l) <= N ->
  _calc_spec_decode_metadata (np_arange N) (flat_map ids l ++ post) (map d l) (np_cumsum (map n l)) =
    Ok {| draft_token_ids := flat_map (fun x => last_of (d x) (ids x)) l; num_draft_tokens := map d l; cu_num_draft_tokens := np_cumsum (map d l);
          target_logits_indices := draft_targets 0 l; bonus_logits_indices := bonus_targets 0 l; spec_logits_indices := sampled_positions 0 l |}.
Proof.
  intros Hne H HN.
  assert (Hd : Forall (fun z => 0 <= z) (map d l)) by (apply Forall_forall; intros z (x & -> & Hx)%list_elem_of_fmap; by apply H).
  assert (Hs : Forall (fun z => 0 <= z) (map (fun x => d x + 1) l)) by (apply Forall_forall; intros z (x & -> & Hx)%list_elem_of_fmap; destruct (H x Hx); lia).
  assert (Hsum : zsum (map d l) <= zsum (map n l) /\ zsum (map (fun x => d x + 1) l) <= zsum (map n l)).
  { clear -H. induction l as [|x l IH]; [done|]. destruct (H x) as (? & ? & ?); [left|]. destruct IH; [intros y Hy; apply H; by right|]. cbn. lia. }
  unfold _calc_spec_decode_metadata. rewrite map_map. rewrite cumsum_and_arange_ok by (first [done|by destruct l|lia]). cbn [bind]. unfold np_cumsum.
  assert (Hcs : forall f : X -> Z, length (cumsum_from 0 (map f l)) = length l) by (intros f; by rewrite length_cumsum, length_map).
  rewrite np_op_ok by (by rewrite Hcs, length_map). cbn [bind].
  rewrite np_repeats_ok by (try done; by rewrite length_zip_with, Hcs, length_map, Nat.min_id). cbn [bind].
  rewrite np_op_ok by (apply repeat_ranges_length; by rewrite length_zip_with, Hcs, length_map, Nat.min_id). cbn [bind].
  rewrite sampled_repeat by (intros x Hx; by apply H).
  rewrite cumsum_and_arange_ok by (first [done|by destruct l|lia]). cbn [bind]. unfold np_cumsum. rewrite np_op_ok by (by rewrite Hcs, length_map). cbn [bind].
  rewrite np_repeats_ok by (try done; by rewrite length_zip_with, Hcs, !length_map, Nat.min_id). cbn [bind].
  rewrite np_op_ok by (apply repeat_ranges_length; by rewrite length_zip_with, Hcs, length_map, Nat.min_id). cbn [bind].
  rewrite target_repeat.
  pose proof (sampled_tokens ids l [] post H) as E1. change (Z.of_nat (length [])) with 0 in E1. cbn [app] in E1. rewrite E1. cbn [bind].
  pose proof (target_tokens ids l []) as E2. change (Z.of_nat (length [])) with 0 in E2. cbn [app] in E2. rewrite E2 by (intros x Hx; destruct (H x Hx) as (? & ? & ?); lia). cbn [bind].
  by rewrite bonus_cumsum.
Qed.
End requests.

(** The number of drafts of every row. *)
Lemma count_drafts_ok (index : gmap string nat) spec : forall counts,
  (forall id1 id2 i, index !! id1 = Some i -> index !! id2 = Some i -> id1 = id2) ->
  (forall id i, index !! id = Some i -> (i < length counts)%nat) ->
  (forall id, id ∈ map fst spec -> is_Some (index !! id)) -> NoDup (map fst spec) ->
  exists counts', count_drafts index spec counts = Ok counts' /\ length counts' = length counts /\
    forall id i, index !! id = Some i ->
      counts' !! i = match SchedulerTypes.dict_get spec id with Some ids => Some (Z.of_nat (length ids)) | None => counts !! i end.
Proof.
  induction spec as [|[id ids] spec IH]; intros counts Hinj Hlt Hin Hnd; cbn [count_drafts]; [by exists counts|].
  cbn in Hnd. apply NoDup_cons in Hnd as [Hni Hnd]. destruct (Hin id) as [i Hi]; [left|]. rewrite Hi. cbn [of_option bind]. unfold list_set.
  pose proof (Hlt id i Hi) as Hl. destruct (Nat.ltb_spec i (length counts)); [cbn [bind]|lia].
  destruct (IH (<[i := Z.of_nat (length ids)]> counts)) as (c & -> & Hlen & Hc); [done|by intros id' j Hj; rewrite length_insert; eapply Hlt|by intros id' Hid; apply Hin; right|done|].
  exists c. split; [done|]. split; [by rewrite Hlen, length_insert|]. intros id' j Hj. rewrite (Hc id' j Hj). cbn [SchedulerTypes.dict_get].
  destruct (decide (id = id')) as [<-|Hne].
  - rewrite Hi in Hj. injection Hj as <-. rewrite (proj2 (SchedulerSpec.dict_get_none _ _)) by done. by rewrite list_lookup_insert_eq.
  - destruct (SchedulerTypes.dict_get spec id'); [done|]. rewrite list_lookup_insert_ne; [done|]. intros ->. apply Hne. by eapply Hinj.
Qed.
