(* ===== verification/RunnerInputsOk.v ===== *)
(** * What the model is given

    [_prepare_inputs] against the rows of the batch: every request contributes its
    next tokens at their positions, its keys and values go to slots of its own
    blocks, and the boundaries and logits indices delimit the requests. *)

From stdpp Require Import base functions gmap strings list list_numbers.
From Stdlib Require Import ZArith QArith Lia.
From S2P Require Import Prelude BlockTable Request SchedulerTypes LogitsProcessors InputBatch InputBatchOk BatchMoves ModelRunner.
From S2P Require Import RunnerUpdate RunnerAdvance RunnerOk RunnerInputs RunnerSpec.
Open Scope list_scope.
Open Scope Z_scope.

(** ** The reference *)

(** The rows of the batch in order, with the tokens that they got. *)
Definition request_rows (b : InputBatch) (out : SchedulerOutput) : list (Row * Z) :=
  omap (fun id => id ← id; w ← contents b !! id; n ← dict_get (num_scheduled_tokens out) id; Some (w, n)) (_req_ids b).

Definition next_tokens (x : Row * Z) : list Z := take (Z.to_nat x.2) (drop (Z.to_nat (rw_num_computed x.1)) (rw_tokens x.1)).
Definition next_positions (x : Row * Z) : list Z := seqZ (rw_num_computed x.1) x.2.
(** The slot of a position in the blocks of a request. *)
Definition slot_of (block_size : Z) (blocks : list Z) (p : Z) : Z := nth (Z.to_nat (p / block_size)) blocks 0 * block_size + p mod block_size.
Definition next_slots (block_size : Z) (group : nat) (x : Row * Z) : list Z :=
  map (slot_of block_size (default [] (rw_blocks x.1 !! group))) (next_positions x).

(** The blocks of a group cover the tokens, their slots are 32-bit numbers. *)
Definition blocks_cover (t : BlockTable) (blocks : list Z) (x : Row * Z) : Prop :=
  0 < bt_block_size t /\ rw_num_computed x.1 + x.2 <= bt_block_size t * Z.of_nat (length blocks) /\
  forall block, block ∈ blocks -> - 2 ^ 31 <= block * bt_block_size t < 2 ^ 31.
Record fits_step (b : InputBatch) (x : Row * Z) : Prop := {
  fs_some : 0 < x.2;
  fs_computed : 0 <= rw_num_computed x.1;
  fs_tokens : rw_num_computed x.1 + x.2 <= Z.of_nat (rw_num_tokens x.1);
  fs_blocks : Forall2 (fun t blocks => blocks_cover t blocks x) (block_table b) (rw_blocks x.1) }.
(** The sizes of the buffers, for at most [T] tokens. *)
Record buffers_ok (b : InputBatch) (u : Buffers) (T : nat) : Prop := {
  bo_arange : exists N, arange_np u = np_arange N /\ Z.of_nat (max_num_reqs b) < N /\ Z.of_nat T <= N;
  bo_ids : length (input_ids_cpu u) = T /\ length (input_ids u) = T;
  bo_positions : length (positions_np u) = T /\ length (positions u) = T;
  bo_starts : length (query_start_loc_np u) = S (max_num_reqs b) /\ length (query_start_loc u) = S (max_num_reqs b);
  bo_lens : length (seq_lens_np u) = max_num_reqs b /\ length (seq_lens u) = max_num_reqs b;
  bo_slots : Forall (fun t => length (slot_mapping_np t) = T /\ length (slot_mapping_dev t) = T /\ bt_max_num_reqs t = max_num_reqs b) (block_table b) }.

(** ** Slots *)

Lemma length_positions x : length (next_positions x) = Z.to_nat x.2.
Proof. apply length_seqZ. Qed.

Lemma token_slots_zip t rs ps : length rs = length ps -> token_slots t rs ps = res_map (fun rp => token_slot t rp.1 rp.2) (zip rs ps).
Proof.
  revert ps. induction rs as [|x rs IH]; intros [|p ps]; cbn; try done. intros [= H]. by rewrite IH.
Qed.
Lemma res_map_zip_repeat {B} (f : Z * Z -> res B) r k n :
  res_map f (zip (repeat r (Z.to_nat n)) (seqZ k n)) = res_map (fun p => f (r, p)) (seqZ k n).
Proof.
  assert (H : zip (repeat r (Z.to_nat n)) (seqZ k n) = map (fun p => (r, p)) (seqZ k n)).
  { apply list_eq. intros i. rewrite lookup_zip_with, list_lookup_fmap. destruct (Z_lt_dec (Z.of_nat i) n).
    - rewrite repeat_lookup, lookup_seqZ_lt by lia. done.
    - rewrite lookup_seqZ_ge by lia. by destruct (repeat r _ !! i). }
  by rewrite H, res_map_map.
Qed.
Lemma row_slots t i x :
  table_ok t -> (i < bt_max_num_reqs t)%nat -> 0 <= rw_num_computed x.1 -> 0 <= x.2 -> blocks_cover t (table_row t i) x ->
  res_map (token_slot t (Z.of_nat i)) (next_positions x) = Ok (map (slot_of (bt_block_size t) (table_row t i)) (next_positions x)).
Proof.
  intros Ht Hi Hk Hn (Hbs & Hcov & Hint). apply res_map_forall2, Forall2_fmap_r, Forall_Forall2_diag, Forall_forall. intros p Hp.
  apply elem_of_seqZ in Hp. set (bs := bt_block_size t) in *. unfold token_slot. fold bs.
  assert (Hdiv : 0 <= p / bs < Z.of_nat (length (table_row t i))) by (split; [by apply Z.div_pos; lia|apply Z.div_lt_upper_bound; lia]).
  destruct (Ht i) as [Hl Hb]. assert (Hlr : length (table_row t i) = num_blocks_per_row t i) by (unfold table_row; rewrite length_take; lia).
  replace (Z.of_nat i * Z.of_nat (max_num_blocks_per_req t) + p / bs) with (Z.of_nat (i * max_num_blocks_per_req t + Z.to_nat (p / bs))) by lia.
  rewrite flat_lookup_row by lia. destruct (lookup_lt_is_Some_2 (table_row t i) (Z.to_nat (p / bs))) as [blk Hblk]; [lia|].
  assert (Hnp : block_table_np t i !! Z.to_nat (p / bs) = Some blk) by (unfold table_row in Hblk; by apply lookup_take_Some in Hblk as [? _]).
  rewrite Hnp. cbn [of_option bind]. rewrite wrap32_id by (apply Hint; by eapply list_elem_of_lookup_2). unfold slot_of.
  unfold compose. by rewrite (nth_lookup_Some _ _ 0 blk Hblk).
Qed.

(** The slots of all requests in one table. *)
Lemma table_slots t (segs : list (nat * (Row * Z))) T :
  table_ok t -> length (slot_mapping_np t) = T ->
  (forall s, s ∈ segs -> (s.1 < bt_max_num_reqs t)%nat /\ 0 <= rw_num_computed s.2.1 /\ 0 <= s.2.2 /\ blocks_cover t (table_row t s.1) s.2) ->
  let rs := flat_map (fun s => repeat (Z.of_nat s.1) (Z.to_nat s.2.2)) segs in
  let ps := flat_map (fun s => next_positions s.2) segs in
  (length ps <= T)%nat ->
  compute_slot_mapping t rs ps =
    Ok (with_slots t (flat_map (fun s => map (slot_of (bt_block_size t) (table_row t s.1)) (next_positions s.2)) segs ++ drop (length ps) (slot_mapping_np t))).
Proof.
  intros Ht HT Hs rs ps Hlen. assert (Hl : length rs = length ps) by (apply flat_length; intros s _; by rewrite repeat_length, length_positions).
  unfold compute_slot_mapping. rewrite token_slots_zip by done. unfold rs at 1, ps at 1.
  rewrite zip_flat by (intros s _; by rewrite repeat_length, length_positions).
  rewrite (res_map_flat _ _ (fun s => map (slot_of (bt_block_size t) (table_row t s.1)) (next_positions s.2))).
  2:{ intros s Hin. unfold next_positions at 1. rewrite res_map_zip_repeat. destruct (Hs s Hin) as (? & ? & ? & ?). by apply row_slots. }
  cbn [bind]. rewrite Hl, HT. destruct (Nat.leb_spec (length ps) T); [done|lia].
Qed.

(** ** The rows of a batch between steps *)

Lemma steady_rows b out :
  steady b -> (forall id, is_Some (contents b !! id) -> is_Some (dict_get (num_scheduled_tokens out) id)) ->
  let rows := request_rows b out in
  num_reqs b = length rows /\ length (_req_ids b) = length rows /\ (length rows <= max_num_reqs b)%nat /\
  scheduled_tokens b out = Ok (map snd rows) /\
  forall i x, rows !! i = Some x -> exists id, _req_ids b !! i = Some (Some id) /\ contents b !! id = Some x.1 /\ x.1 = row b id i /\ dict_get (num_scheduled_tokens out) id = Some x.2.
Proof.
  intros Hst Hsched. pose proof (st_ok _ Hst) as Hok. destruct (cut_rows b (length (_req_ids b))) as (Hn & _ & ids & Hids & Hnd & Hlen); [|done|].
  { eapply rows_inv_hole; [exact Hok|]. intros k. cbn beta. rewrite (st_builder _ Hst). cbn. split; [by intros ?%elem_of_nil|lia]. }
  rewrite take_ge in Hids by done.
  assert (Hall : forall k id, ids !! k = Some id -> exists n, contents b !! id = Some (row b id k) /\ dict_get (num_scheduled_tokens out) id = Some n).
  { intros k id Hk. assert (Hi : req_id_to_index b !! id = Some k) by (apply (ri_index _ _ Hok); by rewrite Hids, list_lookup_fmap, Hk).
    assert (Hc : contents b !! id = Some (row b id k)) by (by rewrite contents_lookup, Hi). destruct (Hsched id) as [n Hn']; [by rewrite Hc|]. by exists n. }
  assert (Hrows : forall l i0, (forall k id, l !! k = Some id -> exists n, contents b !! id = Some (row b id (i0 + k)) /\ dict_get (num_scheduled_tokens out) id = Some n) ->
    let rows := omap (fun id => id ← id; w ← contents b !! id; n ← dict_get (num_scheduled_tokens out) id; Some (w, n)) (map Some l) in
    length rows = length l /\
    res_map (fun id => of_option KeyError (match id with Some id => dict_get (num_scheduled_tokens out) id | None => None end)) (map Some l) = Ok (map snd rows) /\
    forall k x, rows !! k = Some x -> exists id, l !! k = Some id /\ contents b !! id = Some x.1 /\ x.1 = row b id (i0 + k) /\ dict_get (num_scheduled_tokens out) id = Some x.2).
  { induction l as [|id l IH]; intros i0 H; cbn zeta; [by repeat split|]. destruct (H 0%nat id eq_refl) as (n & Hc & Hd). rewrite Nat.add_0_r in Hc.
    destruct (IH (S i0)) as (I1 & I2 & I3). { intros k id' Hk. destruct (H (S k) id' Hk) as (n' & ? & ?). exists n'. by replace (S i0 + k)%nat with (i0 + S k)%nat by lia. }
    cbn [map omap list_omap mbind option_bind res_map]. rewrite Hc, Hd. cbn [mbind option_bind of_option bind length map]. rewrite I2. cbn [bind]. split; [by rewrite I1|]. split; [done|].
    intros [|k] x; cbn; [intros [= <-]; exists id; by rewrite Nat.add_0_r|]. intros Hk. destruct (I3 k x Hk) as (id' & ? & ? & ? & ?). exists id'.
    by replace (i0 + S k)%nat with (S i0 + k)%nat by lia. }
  destruct (Hrows ids 0%nat Hall) as (R1 & R2 & R3). rewrite <-Hids in R1, R2, R3. cbn zeta. fold (request_rows b out) in R1, R2, R3.
  rewrite R1. rewrite Hlen. split; [done|]. split; [done|]. split; [apply (ri_max _ _ Hok)|]. split; [exact R2|].
  intros i x Hx. destruct (R3 i x Hx) as (id & H1 & H2 & H3 & H4). exists id. split; [by rewrite Hids, list_lookup_fmap, H1|]. done.
Qed.

(** Rows with their indices. *)
Definition indexed (rows : list (Row * Z)) : list (nat * (Row * Z)) := zip (seq 0 (length rows)) rows.
Lemma indexed_elem rows s : s ∈ indexed rows -> rows !! s.1 = Some s.2.
Proof.
  intros [k Hk]%list_elem_of_lookup. unfold indexed in Hk. apply lookup_zip_with_Some in Hk as (i & x & -> & Hi & Hx). by apply lookup_seq in Hi as [-> _].
Qed.
Lemma indexed_snd rows : map snd (indexed rows) = rows.
Proof. apply snd_zip. by rewrite length_seq. Qed.
Lemma indexed_flat {B} (f : Row * Z -> list B) rows : flat_map (fun s => f s.2) (indexed rows) = flat_map f rows.
Proof. rewrite <-(indexed_snd rows) at 2. generalize (indexed rows). induction l as [|s l IH]; cbn; [done|by rewrite IH]. Qed.
Lemma indexed_map {B} (f : Row * Z -> B) rows : map (fun s => f s.2) (indexed rows) = map f rows.
Proof. rewrite <-(indexed_snd rows) at 2. by rewrite map_map. Qed.
Lemma indexed_fst rows : map (fun s => Z.of_nat s.1) (indexed rows) = np_arange (Z.of_nat (length rows)).
Proof.
  unfold np_arange, indexed. rewrite Nat2Z.id. rewrite <-(fst_zip (seq 0 (length rows)) rows) at 2 by (by rewrite length_seq). by rewrite map_map.
Qed.

(** The request indices: [np.repeat(arange_np[:num_reqs], num_scheduled_tokens)]. *)
Lemma request_indices rows N :
  (Z.of_nat (length rows) <= N) -> Forall (fun n => 0 <= n) (map snd rows) ->
  np_repeats (take (length rows) (np_arange N)) (map snd rows) = Ok (flat_map (fun s => repeat (Z.of_nat s.1) (Z.to_nat s.2.2)) (indexed rows)).
Proof.
  intros HN Hn. assert (Ht : take (length rows) (np_arange N) = np_arange (Z.of_nat (length rows))).
  { unfold np_arange. rewrite Nat2Z.id. change (map Z.of_nat (seq 0 (Z.to_nat N))) with (Z.of_nat <$> seq 0 (Z.to_nat N)).
    rewrite <-fmap_take, take_seq, Nat.min_l by lia. done. }
  rewrite Ht, np_repeats_ok by (try done; by rewrite length_arange, Nat2Z.id, length_map). f_equal.
  rewrite <-indexed_fst, <-(indexed_map snd). apply np_repeat_flat.
Qed.

Lemma total_positions rows : Forall (fun n => 0 <= n) (map snd rows) -> Z.of_nat (length (flat_map next_positions rows)) = zsum (map snd rows).
Proof.
  induction rows as [|x rows IH]; cbn; [done|]. intros [Hx Hr]%Forall_cons. rewrite length_app, length_positions, Nat2Z.inj_add, IH by done. lia.
Qed.
(** [num_computed_tokens_cpu[req_indices] + arange] *)
Lemma step_positions b rows :
  (forall i x, rows !! i = Some x -> rw_num_computed x.1 = num_computed_tokens_cpu (cols b) i) ->
  np_op Z.add (map (fun i => num_computed_tokens_cpu (cols b) (Z.to_nat i)) (flat_map (fun s => repeat (Z.of_nat s.1) (Z.to_nat s.2.2)) (indexed rows)))
    (flat_map (seqZ 0) (map snd rows)) = Ok (flat_map next_positions rows).
Proof.
  intros Hc. rewrite map_flat. rewrite (flat_map_ext_in' _ (fun s => repeat (rw_num_computed s.2.1) (Z.to_nat s.2.2))).
  2:{ intros s Hs%indexed_elem. rewrite repeat_map, Nat2Z.id. by rewrite (Hc _ _ Hs). }
  assert (Ha : flat_map (seqZ 0) (map snd rows) = flat_map (fun s => seqZ 0 s.2.2) (indexed rows)).
  { rewrite (indexed_flat (fun x => seqZ 0 x.2)). rewrite !flat_map_concat_map, map_map. done. }
  rewrite Ha, np_op_ok by (apply flat_length; intros s _; by rewrite repeat_length, length_seqZ).
  rewrite zip_flat by (intros s _; by rewrite repeat_length, length_seqZ). rewrite <-(indexed_flat next_positions). f_equal. apply flat_map_ext_in'.
  intros s _. apply shift_range.
Qed.
(** The selection of the token ids. *)
Lemma step_token_ids b rows rows_n :
  (length rows <= rows_n)%nat -> (forall i, length (token_ids_cpu (cols b) i) = max_model_len b) ->
  (forall i x, rows !! i = Some x -> fits_step b x /\ rw_tokens x.1 = take (ib_num_tokens (cols b) i) (token_ids_cpu (cols b) i) /\
     rw_num_tokens x.1 = ib_num_tokens (cols b) i /\ (ib_num_tokens (cols b) i <= max_model_len b)%nat) ->
  exists idx, np_op Z.add (flat_map next_positions rows)
    (map (fun i => i * Z.of_nat (max_model_len b)) (flat_map (fun s => repeat (Z.of_nat s.1) (Z.to_nat s.2.2)) (indexed rows))) = Ok idx /\
    flat_select (token_ids_cpu (cols b)) rows_n (max_model_len b) idx = Ok (flat_map next_tokens rows).
Proof.
  intros Hn Hlen Hrows. rewrite <-(indexed_flat next_positions), map_flat, np_op_ok.
  2:{ apply flat_length. intros s _. by rewrite repeat_map, repeat_length, length_positions. }
  rewrite zip_flat by (intros s _; by rewrite repeat_map, repeat_length, length_positions). eexists. split; [reflexivity|].
  rewrite <-(indexed_flat next_tokens). unfold flat_select. apply res_map_flat. intros s Hs%indexed_elem. destruct (Hrows _ _ Hs) as ([F1 F2 F3 _] & E1 & E2 & E3).
  pose proof (lookup_lt_Some _ _ _ Hs) as Hlt.
  assert (Hz : zip_with Z.add (next_positions s.2) (map (fun i => i * Z.of_nat (max_model_len b)) (repeat (Z.of_nat s.1) (Z.to_nat s.2.2))) =
    map (fun p => p + Z.of_nat s.1 * Z.of_nat (max_model_len b)) (next_positions s.2)).
  { rewrite repeat_map. unfold next_positions. apply list_eq. intros j. rewrite lookup_zip_with, list_lookup_fmap.
    destruct (Z_lt_dec (Z.of_nat j) s.2.2); [by rewrite repeat_lookup, !lookup_seqZ_lt by lia|by rewrite lookup_seqZ_ge by lia]. }
  rewrite Hz. pose proof (flat_select_row (token_ids_cpu (cols b)) rows_n (max_model_len b) s.1 (rw_num_computed s.2.1) s.2.2) as Hsel. unfold flat_select in Hsel.
  unfold next_positions. rewrite Hsel by (try done; lia). unfold next_tokens. rewrite E1, skipn_firstn_comm, take_take. do 2 f_equal. lia.
Qed.

(** Everything but the tables and the buffers is as before. *)
Lemma set_prefix_ok a vals n : length vals = n -> (n <= length a)%nat -> set_prefix a n vals = Ok (vals ++ drop n a).
Proof. intros <- H. unfold set_prefix. apply (slice_set_fits a 0 vals H). Qed.

Lemma mappings_length ts : forall rs ps ts', compute_slot_mappings ts rs ps = Ok ts' -> length ts' = length ts.
Proof.
  induction ts as [|t ts IH]; intros rs ps ts'; cbn; [by intros [= <-]|]. intros H. apply bind_ok in H as (t' & _ & H). apply bind_ok in H as (l & Hl & [= <-]).
  cbn. by rewrite (IH _ _ _ Hl).
Qed.
Lemma commit_table_row t n i : table_row (commit_block_table t n) i = table_row t i. Proof. done. Qed.
Lemma all_slots ts (blocks : Row * Z -> list (list Z)) rows T n :
  Forall table_ok ts -> Forall (fun t => length (slot_mapping_np t) = T /\ length (slot_mapping_dev t) = T /\ bt_max_num_reqs t = n) ts ->
  (length rows <= n)%nat -> (length (flat_map next_positions rows) <= T)%nat ->
  (forall i x, rows !! i = Some x -> 0 <= rw_num_computed x.1 /\ 0 <= x.2 /\ map (fun t => table_row t i) ts = blocks x /\
     Forall2 (fun t bl => blocks_cover t bl x) ts (blocks x)) ->
  let rs := flat_map (fun s => repeat (Z.of_nat s.1) (Z.to_nat s.2.2)) (indexed rows) in
  let ps := flat_map next_positions rows in
  exists ts', compute_slot_mappings ts rs ps = Ok ts' /\
    forall g t, ts !! g = Some t -> exists t', ts' !! g = Some t' /\
      t' = with_slots t (flat_map (fun x => map (slot_of (bt_block_size t) (default [] (blocks x !! g))) (next_positions x)) rows ++ drop (length ps) (slot_mapping_np t)).
Proof.
  intros Hok Hsz Hrn HT. revert blocks. induction Hok as [|t ts Ht _ IH]; intros blocks Hrows rs ps; cbn [compute_slot_mappings]; [by exists []|].
  apply Forall_cons in Hsz as [(Z1 & Z2 & Z3) Hsz].
  assert (Hps : ps = flat_map (fun s => next_positions s.2) (indexed rows)) by (symmetry; apply indexed_flat).
  assert (E0 : compute_slot_mapping t rs ps = Ok (with_slots t (flat_map (fun s => map (slot_of (bt_block_size t) (table_row t s.1)) (next_positions s.2)) (indexed rows) ++
      drop (length ps) (slot_mapping_np t)))).
  { rewrite Hps. apply (table_slots t (indexed rows) T Ht Z1); [|by rewrite <-Hps].
    intros s Hs%indexed_elem. destruct (Hrows _ _ Hs) as (R1 & R2 & R3 & R4). pose proof (lookup_lt_Some _ _ _ Hs). split; [lia|]. split; [done|]. split; [done|].
    rewrite <-R3 in R4. cbn in R4. by apply Forall2_cons in R4 as [? _]. }
  rewrite E0. cbn [bind]. destruct (IH Hsz (fun x => drop 1 (blocks x))) as (ts' & E & Hts').
  { intros i x Hx. destruct (Hrows i x Hx) as (R1 & R2 & R3 & R4). split; [done|]. split; [done|]. rewrite <-R3 in *. cbn in *. rewrite drop_0. split; [done|].
    by apply Forall2_cons in R4 as [_ ?]. }
  fold rs ps in E. rewrite E. cbn [bind]. eexists. split; [reflexivity|]. intros [|g] t' Hg; cbn in Hg.
  - injection Hg as <-. eexists. split; [reflexivity|]. f_equal. f_equal. rewrite <-(indexed_flat (fun x => map (slot_of (bt_block_size t) (default [] (blocks x !! 0%nat))) (next_positions x))).
    apply flat_map_ext_in'. intros s Hs%indexed_elem. destruct (Hrows _ _ Hs) as (_ & _ & R3 & _). by rewrite <-R3.
  - destruct (Hts' g t' Hg) as (t'' & H1 & H2). exists t''. split; [done|]. rewrite H2. f_equal. f_equal. apply flat_map_ext_in'. intros x _. by rewrite lookup_drop.
Qed.

(** ** Draft tokens *)

Definition draft_count (x : Row * Z) : Z := Z.of_nat (rw_num_tokens x.1) - Z.of_nat (rw_num_tokens_no_spec x.1).
(** The rows hold the drafts of the step. *)
Record drafts_fit (b : InputBatch) (out : SchedulerOutput) : Prop := {
  df_nodup : NoDup (map fst (scheduled_spec_decode_tokens out));
  df_known id : id ∈ map fst (scheduled_spec_decode_tokens out) -> is_Some (contents b !! id);
  df_rows id w : contents b !! id = Some w -> rw_num_tokens w = (rw_num_tokens_no_spec w + length (drafts_of out id))%nat;
  df_scheduled id n : dict_get (num_scheduled_tokens out) id = Some n -> Z.of_nat (length (drafts_of out id)) + 1 <= n }.

Lemma row_drafts b out :
  steady b -> (forall id, is_Some (contents b !! id) -> is_Some (dict_get (num_scheduled_tokens out) id)) -> drafts_fit b out ->
  count_drafts (req_id_to_index b) (scheduled_spec_decode_tokens out) (repeat 0 (num_reqs b)) = Ok (map draft_count (request_rows b out)).
Proof.
  intros Hst Hsched [D1 D2 D3 _]. pose proof (st_ok _ Hst) as Hok. destruct (steady_rows b out Hst Hsched) as (R1 & R2 & _ & _ & R5).
  destruct (count_drafts_ok (req_id_to_index b) (scheduled_spec_decode_tokens out) (repeat 0 (num_reqs b))) as (c & Hc & Hlen & Hval); [| | |done|].
  - intros id1 id2 i. by apply (index_inj b _ _ _ _ Hok).
  - intros id i Hi%(ri_index _ _ Hok). apply lookup_lt_Some in Hi. rewrite repeat_length. lia.
  - intros id Hid. apply D2 in Hid. rewrite contents_lookup in Hid. by apply fmap_is_Some in Hid.
  - rewrite Hc. f_equal. rewrite repeat_length in Hlen. apply list_eq_same_length with (n := length (request_rows b out)); [|by rewrite Hlen, R1|].
    { by rewrite length_map. }
    intros i z z' Hi Hz' Hz. rewrite list_lookup_fmap in Hz. destruct (request_rows b out !! i) as [x|] eqn:Ex; [|done]. injection Hz as <-.
    destruct (R5 i x Ex) as (id & Hid & Hcx & _). pose proof (D3 id _ Hcx) as Hd. apply (ri_index _ _ Hok) in Hid. rewrite (Hval id i Hid) in Hz'.
    unfold draft_count. rewrite Hd. unfold drafts_of. destruct (dict_get (scheduled_spec_decode_tokens out) id) as [l|]; cbn [default from_option]; [injection Hz' as <-; cbn; lia|].
    rewrite repeat_lookup in Hz' by lia. injection Hz' as <-. cbn. lia.
Qed.

(** ** The inputs of a step *)

(** The attention metadata of group [g], whose table is [t]. *)
Record metadata_spec (rows : list (Row * Z)) (g : nat) (t : BlockTable) (md : CommonAttentionMetadata) : Prop := {
  ms_starts : am_query_start_loc md = 0 :: np_cumsum (map snd rows);
  ms_lens : am_seq_lens md = map (fun x => rw_num_computed x.1 + x.2) rows;
  ms_computed : am_num_computed_tokens md = map (fun x => rw_num_computed x.1) rows;
  ms_reqs : am_num_reqs md = length rows /\ am_num_actual_tokens md = zsum (map snd rows);
  ms_longest : am_max_query_len md = zmax_list 0 (map snd rows);
  ms_blocks i x blocks : rows !! i = Some x -> rw_blocks x.1 !! g = Some blocks ->
    exists row, am_block_table md !! i = Some row /\ take (length blocks) row = blocks;
  ms_slots : am_slot_mapping md = flat_map (next_slots (bt_block_size t) g) rows }.
Definition spec_reference (rows : list (Row * Z)) : SpecDecodeMetadata :=
  {| draft_token_ids := flat_map (fun x => last_of (draft_count x) (next_tokens x)) rows; num_draft_tokens := map draft_count rows;
     cu_num_draft_tokens := np_cumsum (map draft_count rows); target_logits_indices := draft_targets draft_count 0 rows;
     bonus_logits_indices := bonus_targets draft_count 0 rows; spec_logits_indices := sampled_positions snd draft_count 0 rows |}.
Record inputs_spec (b : InputBatch) (out : SchedulerOutput) (rows : list (Row * Z)) (pi : PreparedInputs) : Prop := {
  is_ids : pi_input_ids pi = flat_map next_tokens rows;
  is_positions : pi_positions pi = flat_map next_positions rows;
  is_scheduled : pi_num_scheduled_tokens pi = map snd rows;
  is_groups g t : block_table b !! g = Some t -> exists md, pi_metadata pi !! g = Some md /\ metadata_spec rows g t md;
  is_spec : pi_spec_decode pi = match scheduled_spec_decode_tokens out with [] => None | _ => Some (spec_reference rows) end;
  is_logits : pi_logits_indices pi = match scheduled_spec_decode_tokens out with
                                     | [] => map (fun e => e - 1) (np_cumsum (map snd rows))
                                     | _ => sampled_positions snd draft_count 0 rows
                                     end }.

Lemma length_next x : 0 <= x.2 -> 0 <= rw_num_computed x.1 -> rw_num_computed x.1 + x.2 <= Z.of_nat (length (rw_tokens x.1)) -> Z.of_nat (length (next_tokens x)) = x.2.
Proof. intros. unfold next_tokens. rewrite length_take, length_drop. lia. Qed.
Lemma zip_add_rows (f : nat -> Z) (rows : list (Row * Z)) :
  (forall i x, rows !! i = Some x -> f i = rw_num_computed x.1) -> first_rows f (length rows) = map (fun x => rw_num_computed x.1) rows.
Proof.
  intros H. unfold first_rows. apply list_eq. intros i. rewrite !list_lookup_fmap. destruct (Nat.lt_ge_cases i (length rows)) as [Hi|Hi].
  - rewrite lookup_seq_lt by done. destruct (lookup_lt_is_Some_2 rows i Hi) as [x Hx]. rewrite Hx. cbn. by rewrite (H i x Hx).
  - rewrite lookup_seq_ge, (lookup_ge_None_2 rows) by done. done.
Qed.
Lemma zip_map_same (f g : Row * Z -> Z) rows : zip_with Z.add (map f rows) (map g rows) = map (fun x => f x + g x) rows.
Proof. induction rows; cbn; congruence. Qed.

(** What the code relies on before it starts. *)
Record inputs_fit (r : Runner) (out : SchedulerOutput) (T : nat) : Prop := {
  if_steady : steady (input_batch r);
  if_buffers : buffers_ok (input_batch r) (buffers r) T;
  if_scheduled id : is_Some (contents (input_batch r) !! id) -> is_Some (dict_get (num_scheduled_tokens out) id);
  if_rows x : x ∈ request_rows (input_batch r) out -> fits_step (input_batch r) x;
  if_some : request_rows (input_batch r) out <> [];
  if_total : total_num_scheduled_tokens out = zsum (map snd (request_rows (input_batch r) out));
  if_room : total_num_scheduled_tokens out <= Z.of_nat T;
  if_drafts : scheduled_spec_decode_tokens out <> [] -> drafts_fit (input_batch r) out }.

(** The copies of a prefix to the device. *)
Lemma take_set_prefix {A} (a vals : list A) n : length vals = n -> take n (vals ++ drop n a) = vals.
Proof. intros <-. by rewrite take_app_length. Qed.
Lemma take_copy_prefix {A} (a b : list A) n : (n <= length b)%nat -> take n (np_copy_prefix a b n) = take n b.
Proof. intros H. unfold np_copy_prefix. apply take_app_length'. rewrite length_take. lia. Qed.
Lemma take_fill a n x : (n <= length a)%nat -> take n (fill_from a n x) = take n a.
Proof. intros H. unfold fill_from. apply take_app_length'. rewrite length_take. lia. Qed.
Lemma length_fill a n x : (n <= length a)%nat -> length (fill_from a n x) = length a.
Proof. intros H. unfold fill_from. rewrite length_app, length_take, repeat_length. lia. Qed.
Lemma length_copy_prefix {A} (a b : list A) n : (n <= length b)%nat -> (n <= length a)%nat -> length (np_copy_prefix a b n) = length a.
Proof. intros. unfold np_copy_prefix. rewrite length_app, length_take, length_drop. lia. Qed.

(** The metadata of one table after the commits. *)
Definition committed (t : BlockTable) (n total : nat) (slots : list Z) : BlockTable :=
  pad_slot_mapping (commit_slot_mapping (with_slots (commit_block_table t n) slots) total) total.
Lemma committed_slots t n total slots : (total <= length slots)%nat -> (total <= length (slot_mapping_dev t))%nat ->
  take total (slot_mapping_dev (committed t n total slots)) = take total slots.
Proof.
  intros H1 H2. cbn. rewrite take_app_length' by (rewrite length_take, length_copy_prefix; lia). by apply take_copy_prefix.
Qed.
Lemma committed_row t n total slots i : (i < n)%nat -> block_table_dev (committed t n total slots) i = block_table_np t i.
Proof.
  intros H. change ((if (i <? n)%nat then block_table_np t i else block_table_dev t i) = block_table_np t i). by rewrite (proj2 (Nat.ltb_lt i n) H).
Qed.

(** A row of the batch as the code reads it from the arrays. *)
Lemma row_fields b out i x :
  steady b -> (forall id, is_Some (contents b !! id) -> is_Some (dict_get (num_scheduled_tokens out) id)) ->
  request_rows b out !! i = Some x ->
  rw_num_computed x.1 = num_computed_tokens_cpu (cols b) i /\ rw_tokens x.1 = take (ib_num_tokens (cols b) i) (token_ids_cpu (cols b) i) /\
  rw_num_tokens x.1 = ib_num_tokens (cols b) i /\ (ib_num_tokens (cols b) i <= max_model_len b)%nat /\ length (token_ids_cpu (cols b) i) = max_model_len b /\
  map (fun t => table_row t i) (block_table b) = rw_blocks x.1.
Proof.
  intros Hst Hsched Hx. destruct (steady_rows b out Hst Hsched) as (_ & _ & _ & _ & R5). destruct (R5 i x Hx) as (id & _ & _ & E & _).
  pose proof (ri_shape _ _ (st_ok _ Hst)) as [S1 S2 _]. by rewrite E.
Qed.

(** The slots of all groups, with the device copies. *)
Lemma committed_tables b out T :
  steady b -> (forall id, is_Some (contents b !! id) -> is_Some (dict_get (num_scheduled_tokens out) id)) ->
  let rows := request_rows b out in
  Forall (fun t => length (slot_mapping_np t) = T /\ length (slot_mapping_dev t) = T /\ bt_max_num_reqs t = max_num_reqs b) (block_table b) ->
  (forall x, x ∈ rows -> fits_step b x) -> (length (flat_map next_positions rows) <= T)%nat ->
  exists ts, compute_slot_mappings (commit_block_tables (block_table b) (length rows)) (flat_map (fun s => repeat (Z.of_nat s.1) (Z.to_nat s.2.2)) (indexed rows))
      (flat_map next_positions rows) = Ok ts /\
    forall g t, block_table b !! g = Some t -> exists t', ts !! g = Some t' /\
      t' = with_slots (commit_block_table t (length rows)) (flat_map (next_slots (bt_block_size t) g) rows ++ drop (length (flat_map next_positions rows)) (slot_mapping_np t)).
Proof.
  intros Hst Hsched rows Hsz Hfit HT. destruct (steady_rows b out Hst Hsched) as (_ & _ & R3 & _ & _). fold rows in R3.
  destruct (all_slots (commit_block_tables (block_table b) (length rows)) (fun x => rw_blocks x.1) rows T (max_num_reqs b)) as (ts & Hts & Hg); [| |done|done| |].
  - apply Forall_fmap. eapply Forall_impl; [apply (sh_tables _ _ _ (ri_shape _ _ (st_ok _ Hst)))|]. by intros t Ht.
  - by apply Forall_fmap.
  - intros i x Hx. destruct (Hfit x) as [F1 F2 F3 F4]; [by eapply list_elem_of_lookup_2|]. split; [done|]. split; [lia|].
    destruct (row_fields b out i x Hst Hsched Hx) as (_ & _ & _ & _ & _ & Hb). split.
    + rewrite <-Hb. unfold commit_block_tables. by rewrite map_map.
    + by apply Forall2_fmap_l.
  - exists ts. split; [done|]. intros g t Ht. destruct (Hg g (commit_block_table t (length rows))) as (t' & H1 & H2).
    { unfold commit_block_tables. by rewrite list_lookup_fmap, Ht. }
    by exists t'.
Qed.

Lemma prepare_inputs_spec r out T :
  inputs_fit r out T ->
  exists pi r', _prepare_inputs r out = Ok (pi, r') /\ inputs_spec (input_batch r) out (request_rows (input_batch r) out) pi /\
    exists ts u, r' = with_buffers (with_batch r (with_block_table (input_batch r) ts)) u /\ buffers_ok (input_batch r) u T /\ length ts = length (block_table (input_batch r)) /\
      forall g t, block_table (input_batch r) !! g = Some t -> exists slots,
        ts !! g = Some (committed t (num_reqs (input_batch r)) (Z.to_nat (total_num_scheduled_tokens out)) slots) /\ length slots = length (slot_mapping_np t).
Proof.
  intros [Hst Hbuf Hsched Hfit Hne Htot Hroom Hdr]. set (b := input_batch r) in *. set (rows := request_rows b out) in *. set (total := total_num_scheduled_tokens out) in *.
  destruct (steady_rows b out Hst Hsched) as (R1 & R2 & R3 & R4 & R5). fold rows in R1, R2, R3, R4, R5.
  destruct Hbuf as [(N & Ha & HN1 & HN2) [B1 B2] [B3 B4] [B5 B6] [B7 B8] B9].
  assert (Hpos : Forall (fun z => 0 <= z) (map snd rows)).
  { apply Forall_fmap, Forall_forall. intros x Hx. destruct (Hfit x Hx). cbn. lia. }
  assert (Hflat : Z.of_nat (length (flat_map next_positions rows)) = total) by (rewrite total_positions by done; by rewrite Htot).
  assert (Hrow0 : (0 < length rows)%nat) by (destruct rows; [done|cbn; lia]).
  assert (Htotal : 0 < total).
  { destruct rows as [|x l] eqn:Er; [done|]. rewrite Htot. cbn. destruct (Hfit x) as [? _ _ _]; [left|]. cbn in Hpos. apply Forall_cons in Hpos as [_ Hl]. pose proof (zsum_nonneg _ Hl). lia. }
  unfold _prepare_inputs. fold b. fold total. rewrite (proj2 (Z.ltb_lt 0 total)) by done. cbn [py_assert bind]. rewrite R1, (proj2 (Nat.ltb_lt _ _) Hrow0). cbn [py_assert bind].
  change (scheduled_tokens (with_block_table b (commit_block_tables (block_table b) (length rows))) out) with (scheduled_tokens b out). rewrite R4. cbn [bind].
  rewrite Ha, request_indices by (try done; lia). cbn [bind]. rewrite cumsum_and_arange_ok by (first [done|by destruct rows|lia]). cbn [bind].
  cbn [with_block_table with_cols cols block_table max_model_len max_num_reqs]. rewrite step_positions.
  2:{ intros i x Hx. apply (row_fields b out i x Hst Hsched Hx). }
  cbn [bind]. set (pos := flat_map next_positions rows) in *. set (tn := Z.to_nat total). assert (Htn : length pos = tn) by lia.
  rewrite (set_prefix_ok (positions_np (buffers r)) pos tn) by lia. cbn [bind]. rewrite take_set_prefix by done.
  destruct (step_token_ids b rows (max_num_reqs b)) as (idx & E1 & E2); [done|apply (ri_shape _ _ (st_ok _ Hst))| |].
  { intros i x Hx. destruct (row_fields b out i x Hst Hsched Hx) as (_ & ? & ? & ? & _). split; [|done]. apply Hfit. by eapply list_elem_of_lookup_2. }
  fold pos in E1. rewrite E1. cbn [bind]. rewrite E2. cbn [bind]. set (ids := flat_map next_tokens rows).
  assert (Hnext : forall x, x ∈ rows -> Z.of_nat (length (next_tokens x)) = x.2).
  { intros x Hx. pose proof (Hfit x Hx) as [F1 F2 F3 _]. apply list_elem_of_lookup in Hx as [i Hx]. destruct (row_fields b out i x Hst Hsched Hx) as (_ & Et & En & El & Elen & _).
    apply length_next; [lia|lia|]. rewrite Et, length_take. lia. }
  assert (Hids : length ids = tn).
  { rewrite <-Htn. apply flat_length. intros x Hx. rewrite length_positions. pose proof (Hnext x Hx). lia. }
  rewrite (set_prefix_ok (input_ids_cpu (buffers r)) ids tn) by lia. cbn [bind].
  destruct (committed_tables b out T Hst Hsched B9 Hfit) as (ts & E3 & Hts); [fold rows pos; lia|]. fold rows pos in E3, Hts. rewrite E3. cbn [bind].
  rewrite (set_prefix_ok (query_start_loc_np (buffers r)) [0] 1) by (try done; lia). cbn [bind].
  set (cu := np_cumsum (map snd rows)). assert (Hcu : length cu = length rows) by (unfold cu, np_cumsum; by rewrite length_cumsum, length_map).
  assert (E4 : np_slice_set ([0] ++ drop 1 (query_start_loc_np (buffers r))) 1 (length rows + 1) cu = Ok ((0 :: cu) ++ drop (length rows) (drop 1 (query_start_loc_np (buffers r))))).
  { replace (length rows + 1)%nat with (1 + length cu)%nat by lia. rewrite slice_set_fits by (cbn; rewrite length_drop; lia). by rewrite Hcu. }
  rewrite E4. cbn [bind]. rewrite (zip_add_rows _ rows) by (intros i x Hx; symmetry; apply (row_fields b out i x Hst Hsched Hx)).
  rewrite np_op_ok by (by rewrite !length_map). cbn [bind]. rewrite zip_map_same. set (lens := map (fun x : Row * Z => rw_num_computed x.1 + x.2) rows).
  assert (Hlens : length lens = length rows) by apply length_map. rewrite (set_prefix_ok (seq_lens_np (buffers r)) lens (length rows)) by (try done; lia). cbn [bind].
  destruct (lookup_lt_is_Some_2 ((0 :: cu) ++ drop (length rows) (drop 1 (query_start_loc_np (buffers r)))) (length rows)) as [last Hlast]; [cbn; rewrite length_app; lia|].
  rewrite Hlast. cbn [of_option bind].
  change (req_id_to_index (with_block_table b (commit_block_tables (block_table b) (length rows)))) with (req_id_to_index b).
  assert (Hin : np_copy_prefix (input_ids (buffers r)) (ids ++ drop tn (input_ids_cpu (buffers r))) tn = ids ++ drop tn (input_ids (buffers r))).
  { unfold np_copy_prefix. by rewrite take_set_prefix. }
  rewrite Hin.
  assert (Espec : match scheduled_spec_decode_tokens out with
     | [] => Ok None
     | spec => let! num_draft_tokens := count_drafts (req_id_to_index b) spec (repeat 0 (length rows)) in
               let! md := _calc_spec_decode_metadata (np_arange N) (ids ++ drop tn (input_ids (buffers r))) num_draft_tokens cu in Ok (Some md)
     end = Ok (match scheduled_spec_decode_tokens out with [] => None | _ => Some (spec_reference rows) end)).
  { destruct (scheduled_spec_decode_tokens out) as [|e l] eqn:El; [done|]. rewrite <-El in *. assert (Hnel : scheduled_spec_decode_tokens out <> []) by congruence.
    rewrite <-R1. rewrite (row_drafts b out Hst Hsched (Hdr Hnel)). cbn [bind]. fold rows. unfold cu, ids. rewrite (calc_spec_ok snd draft_count N next_tokens); [done|done| |lia].
    intros x Hx. pose proof (Hnext x Hx) as Hnx. apply list_elem_of_lookup in Hx as [i Hx]. destruct (R5 i x Hx) as (id & _ & Hc & _ & Hn). destruct (Hdr Hnel) as [_ _ D3 D4]. pose proof (D3 id _ Hc) as Hd.
    unfold draft_count. split; [lia|]. split; [|done]. apply D4 in Hn. lia. }
  cbn [arange_np]. rewrite Espec. cbn [bind]. do 2 eexists. split; [reflexivity|]. split; [|do 2 eexists; split; [reflexivity|split; [|split]]].
  2:{ split; cbn; try done; [by exists N|split..].
      all: rewrite ?length_fill; rewrite ?length_copy_prefix by (cbn; rewrite ?length_app, ?length_drop; lia); cbn; rewrite ?length_app, ?length_drop; lia. }
  2:{ unfold commit_slot_mappings. rewrite !length_map. rewrite (mappings_length _ _ _ _ E3). apply length_map. }
  2:{ intros g t Ht. destruct (Hts g t Ht) as (t' & H1 & ->). unfold commit_slot_mappings. rewrite !list_lookup_fmap, H1. cbn. eexists. split; [reflexivity|].
      rewrite length_app, length_drop. rewrite Forall_lookup in B9. destruct (B9 g t Ht) as (Z1 & _ & _). rewrite Z1, Htn.
      rewrite (flat_length _ next_positions) by (intros x _; apply length_map). fold pos. lia. }
  assert (Hstart : take (length rows + 1) (np_copy_prefix (query_start_loc (buffers r)) ((0 :: cu) ++ drop (length rows) (drop 1 (query_start_loc_np (buffers r)))) (length rows + 1)) = 0 :: cu).
  { rewrite take_copy_prefix by (cbn; rewrite length_app; lia). apply take_app_length'. cbn. lia. }
  assert (Hfs : take (length rows + 1) (fill_from (np_copy_prefix (query_start_loc (buffers r)) ((0 :: cu) ++ drop (length rows) (drop 1 (query_start_loc_np (buffers r)))) (length rows + 1)) (length rows + 1) last) = 0 :: cu).
  { rewrite take_fill; [done|]. rewrite length_copy_prefix by (cbn; rewrite ?length_app; lia). lia. }
  split; cbn [pi_input_ids pi_positions pi_num_scheduled_tokens pi_metadata pi_spec_decode pi_logits_indices].
  - by apply take_set_prefix.
  - rewrite take_copy_prefix by (rewrite length_app; lia). by apply take_set_prefix.
  - done.
  - intros g t Ht. destruct (Hts g t Ht) as (t' & H1 & H2). unfold commit_slot_mappings. rewrite !list_lookup_fmap, H1. cbn [fmap option_fmap option_map]. eexists. split; [reflexivity|]. subst t'.
    split; cbn [am_query_start_loc am_seq_lens am_num_computed_tokens am_num_reqs am_num_actual_tokens am_max_query_len am_block_table am_slot_mapping].
    + exact Hfs.
    + rewrite take_fill by (rewrite length_copy_prefix by (rewrite ?length_app; lia); lia). rewrite take_copy_prefix by (rewrite length_app; lia). by apply take_set_prefix.
    + done.
    + by split.
    + done.
    + intros i x blocks Hx Hb. pose proof (lookup_lt_Some _ _ _ Hx) as Hi. exists (block_table_np t i). split.
      * unfold first_rows. rewrite list_lookup_fmap, lookup_seq_lt by done. cbn [fmap option_fmap option_map Nat.add]. f_equal. apply (committed_row t (length rows) tn). done.
      * destruct (row_fields b out i x Hst Hsched Hx) as (_ & _ & _ & _ & _ & Hbl). rewrite <-Hbl, list_lookup_fmap, Ht in Hb. injection Hb as <-.
        pose proof (sh_tables _ _ _ (ri_shape _ _ (st_ok _ Hst))) as Htab. rewrite Forall_lookup in Htab. destruct (Htab g t Ht i) as [L1 L2].
        unfold table_row. rewrite length_take. f_equal. lia.
    + rewrite Forall_lookup in B9. destruct (B9 g t Ht) as (Z1 & Z2 & _). set (slots := flat_map _ rows).
      assert (Hsl : length slots = tn) by (rewrite <-Htn; apply flat_length; intros x _; apply length_map).
      etransitivity; [apply (committed_slots t (length rows) tn)|]; [rewrite length_app; lia|lia|]. apply take_app_length'. lia.
  - done.
  - destruct (scheduled_spec_decode_tokens out); [|done]. rewrite Hfs. done.
Qed.

(** C17. The arrays that [_prepare_inputs] computes with cumulative sums, index
    arithmetic on flattened matrices and 32-bit slots are those of the plain
    definition: request after request the next tokens of its row, their positions,
    and for every KV cache group the slots of these positions in its own blocks; the
    boundaries and lengths of the requests; and as logits the last position of every
    request, or with drafts the positions of the drafts and of the token after them.
    The runner changes in its buffers and device copies only. *)
Theorem prepare_inputs_ok r out T :
  inputs_fit r out T ->
  exists pi r', _prepare_inputs r out = Ok (pi, r') /\ inputs_spec (input_batch r) out (request_rows (input_batch r) out) pi /\
    cached_requests r' = cached_requests r /\ cols (input_batch r') = cols (input_batch r) /\ sets (input_batch r') = sets (input_batch r) /\
    req_id_to_index (input_batch r') = req_id_to_index (input_batch r) /\ buffers_ok (input_batch r) (buffers r') T.
Proof.
  intros Hfit. destruct (prepare_inputs_spec r out T Hfit) as (pi & r' & H1 & H2 & ts & u & -> & Hu & _). by exists pi, (with_buffers (with_batch r (with_block_table (input_batch r) ts)) u).
Qed.
