(* ===== verification/RunnerExecute.v ===== *)
(** * A step of the model runner

    [execute_model] of [vllm/v1/worker/gpu_model_runner.py]: update, inputs, model
    and sampler, and what the runner keeps of the sampled tokens.  The model with
    its sampler is an argument: from the inputs and the sampling metadata it gives
    the matrix of sampled tokens.  Logprobs, structured output and KV connectors
    are left out; drafts come from the n-gram drafter. *)

From stdpp Require Import base functions gmap strings list.
From Stdlib Require Import ZArith QArith Lia.
From S2P Require Import Prelude BlockTable Request SchedulerTypes InputBatch NgramProposer ModelRunner RunnerInputs.
Open Scope list_scope.
Open Scope Z_scope.

(** [PLACEHOLDER_TOKEN_ID] of [v1/sample/rejection_sampler.py] *)
Definition PLACEHOLDER_TOKEN_ID : Z := -1.
(** [RejectionSampler.parse_output] *)
Definition parse_output (output_token_ids : list (list Z)) (vocab_size : Z) : list (list Z) :=
  map (List.filter (fun t => negb (t =? PLACEHOLDER_TOKEN_ID) && (t <? vocab_size))) output_token_ids.

(** What a worker returns: hidden states for the next stage of the pipeline, or the
    output of the step. *)
Inductive RunnerResult : Type :=
| HiddenStates
| RunnerOutput (o : ModelRunnerOutput).
Definition EMPTY_MODEL_RUNNER_OUTPUT : ModelRunnerOutput :=
  {| SchedulerTypes.req_id_to_index := ∅; sampled_token_ids := []; runner_spec_token_ids := None; pooler_output := [];
     prompt_logprobs_of := ∅; kv_connector_output := None |}.

(** ** The sampled tokens *)

(** The rows of partial prefills, whose tokens are discarded. *)
Fixpoint discard_rows (reqs : gmap string CachedRequestState) (scheduled : list (string * Z)) (ids : list (option string)) (i : nat) : res (list nat) :=
  match ids with
  | [] => Ok []
  | id :: ids =>
      let! id := of_option KeyError id in
      let! q := of_option KeyError (reqs !! id) in
      let! n := of_option KeyError (dict_get scheduled id) in
      let! rest := discard_rows reqs scheduled ids (S i) in
      Ok (if cr_num_computed_tokens q + n <? Z.of_nat (cr_num_tokens q) then i :: rest else rest)
  end.
(** [for i in rows: valid_sampled_token_ids[i].clear()] *)
Fixpoint clear_rows (valid : list (list Z)) (rows : list nat) : res (list (list Z)) :=
  match rows with
  | [] => Ok valid
  | i :: rows => let! valid := list_set valid i [] in clear_rows valid rows
  end.
Definition valid_sampled (sampled : list (list Z)) (vocab_size : nat) : list (list Z) :=
  let max_gen_len := match sampled with [] => 0%nat | row :: _ => length row end in
  if (max_gen_len =? 1)%nat then sampled else parse_output sampled (Z.of_nat vocab_size).

(** The tokens are written to the row and appended to the request's output. *)
Definition cache_row (r : Runner) (i : nat) (sampled_ids : list Z) : res Runner :=
  let b := input_batch r in
  let start_idx := num_tokens_no_spec (cols b) i in
  let end_idx := (start_idx + length sampled_ids)%nat in
  py_assert (Z.of_nat end_idx <=? runner_max_model_len r) ;;!
  (let! c := write_tokens (cols b) i start_idx end_idx sampled_ids in
   let c := set_counts c i end_idx end_idx (num_computed_tokens_cpu c i) in
   let! id := of_option IndexError (_req_ids b !! i) in
   let! id := of_option KeyError id in
   let! q := of_option KeyError (cached_requests r !! id) in
   let q := cr_update q (cr_block_ids q) (cr_num_computed_tokens q) (cr_output_token_ids q ++ sampled_ids) in
   Ok (with_requests (with_batch r (with_cols b c (block_table b))) (<[id := q]> (cached_requests r)))).
Fixpoint cache_sampled (r : Runner) (i : nat) (valid : list (list Z)) : res Runner :=
  match valid with
  | [] => Ok r
  | [] :: valid => cache_sampled r (S i) valid
  | sampled_ids :: valid =>
      let! r := cache_row r i sampled_ids in
      cache_sampled r (S i) valid
  end.

(** ** Prompt logprobs *)

(** The loop of [_get_prompt_logprobs_dict]: the requests whose prompt is done; the
    logprobs themselves are left out. *)
Fixpoint prompt_logprobs_loop (reqs : gmap string CachedRequestState) (scheduled : list (string * Z)) (ids : list string) : res (list string) :=
  match ids with
  | [] => Ok []
  | id :: ids =>
      let! num_tokens := of_option KeyError (dict_get scheduled id) in
      let! q := of_option KeyError (reqs !! id) in
      let num_remaining_tokens := Z.of_nat (length (cr_prompt_token_ids q)) - (cr_num_computed_tokens q + 1) in
      let! completed := prompt_logprobs_loop reqs scheduled ids in
      Ok (if num_tokens <=? num_remaining_tokens then completed else id :: completed)
  end.
Definition with_prompt_logprobs (s : ReqSets) (num : gmap string Z) (in_progress : gset string) : ReqSets :=
  {| greedy_reqs := greedy_reqs s; random_reqs := random_reqs s; top_p_reqs := top_p_reqs s; top_k_reqs := top_k_reqs s;
     spec_decode_unsupported_reqs := spec_decode_unsupported_reqs s; frequency_penalties_reqs := frequency_penalties_reqs s;
     presence_penalties_reqs := presence_penalties_reqs s; repetition_penalties_reqs := repetition_penalties_reqs s;
     has_allowed_token_ids := has_allowed_token_ids s; num_logprobs := num_logprobs s; num_prompt_logprobs := num;
     in_progress_prompt_logprobs_cpu := in_progress; ib_pooling_params := ib_pooling_params s |}.
Definition _get_prompt_logprobs_dict (r : Runner) (out : SchedulerOutput) : res (gset string * Runner) :=
  let b := input_batch r in
  let num := num_prompt_logprobs (sets b) in
  match (map_to_list num).*1 with
  | [] => Ok (∅, r)
  | ids =>
      let! completed := prompt_logprobs_loop (cached_requests r) (num_scheduled_tokens out) ids in
      let in_progress := in_progress_prompt_logprobs_cpu (sets b) ∪ list_to_set ids in
      let s := with_prompt_logprobs (sets b) (foldr delete num completed) (in_progress ∖ list_to_set completed) in
      Ok (list_to_set completed, with_batch r (with_sets b s))
  end.

(** From the sampler's matrix to the tokens of each request. *)
Definition bookkeeping (r : Runner) (out : SchedulerOutput) (sampled : list (list Z)) : res (list (list Z) * gset string * Runner) :=
  let! rows := discard_rows (cached_requests r) (num_scheduled_tokens out) (_req_ids (input_batch r)) 0 in
  let! '(prompt_done, r) := _get_prompt_logprobs_dict r out in
  let! valid := clear_rows (valid_sampled sampled (vocab_size (input_batch r))) rows in
  let! r := cache_sampled r 0 valid in
  Ok (valid, prompt_done, r).

(** ** Drafts *)

(** [propose_ngram_draft_token_ids] *)
Definition propose_for (r : Runner) (p : NgramProposer) (i : nat) (sampled_ids : list Z) : fueled (res (list Z)) :=
  let b := input_batch r in
  match sampled_ids with
  | [] => Done (Ok [])
  | _ =>
      match _req_ids b !! i with
      | None => Done (Raise IndexError)
      | Some req_id =>
          if match req_id with Some id => bool_decide (id ∈ spec_decode_unsupported_reqs (sets b)) | None => false end then Done (Ok [])
          else
            let num_tokens := num_tokens_no_spec (cols b) i in
            if runner_max_model_len r <=? Z.of_nat num_tokens then Done (Ok [])
            else match propose p (take num_tokens (token_ids_cpu (cols b) i)) with
                 | OutOfFuel => OutOfFuel
                 | Done (Raise e) => Done (Raise e)
                 | Done (Ok drafts) => Done (Ok (default [] drafts))
                 end
      end
  end.
Fixpoint propose_ngram_draft_token_ids (r : Runner) (p : NgramProposer) (i : nat) (sampled : list (list Z)) : fueled (res (list (list Z))) :=
  match sampled with
  | [] => Done (Ok [])
  | sampled_ids :: sampled =>
      match propose_for r p i sampled_ids with
      | Done (Ok drafts) =>
          match propose_ngram_draft_token_ids r p (S i) sampled with
          | Done (Ok l) => Done (Ok (drafts :: l))
          | e => e
          end
      | Done (Raise e) => Done (Raise e)
      | OutOfFuel => OutOfFuel
      end
  end.

(** ** Pooling *)

(** [_pool]: a request has an output once its whole prompt was computed. *)
Definition _pool (r : Runner) : res ModelRunnerOutput :=
  let b := input_batch r in
  let n := num_reqs b in
  py_assert (n =? size (ib_pooling_params (sets b)))%nat ;;!
  Ok {| SchedulerTypes.req_id_to_index := req_id_to_index b; sampled_token_ids := []; runner_spec_token_ids := None;
        pooler_output := zip_with (fun seq_len prompt_len => seq_len =? Z.of_nat prompt_len) (take n (seq_lens (buffers r))) (first_rows (num_prompt_tokens (cols b)) n);
        prompt_logprobs_of := ∅; kv_connector_output := None |}.

(** ** The step *)

Section execute.
Context (pooling_update : string -> option bool) (sample : PreparedInputs -> SamplingMetadata -> list (list Z)).

Definition execute_model (r : Runner) (out : SchedulerOutput) : fueled (res (RunnerResult * Runner)) :=
  match _update_states pooling_update r out with
  | Raise e => Done (Raise e)
  | Ok r =>
      if total_num_scheduled_tokens out =? 0 then Done (Ok (RunnerOutput EMPTY_MODEL_RUNNER_OUTPUT, r))
      else
        match _prepare_inputs r out with
        | Raise e => Done (Raise e)
        | Ok (inputs, r) =>
            if negb (is_last_rank r) then Done (Ok (HiddenStates, r))
            else if negb (bool_decide (ib_pooling_params (sets (input_batch r)) = ∅)) then
              Done (let! o := _pool r in Ok (RunnerOutput o, r))
            else
              match bookkeeping r out (sample inputs (sampling_metadata (input_batch r))) with
              | Raise e => Done (Raise e)
              | Ok (valid, done, r) =>
                  let output spec :=
                    {| SchedulerTypes.req_id_to_index := req_id_to_index (input_batch r); sampled_token_ids := valid;
                       runner_spec_token_ids := spec; pooler_output := []; prompt_logprobs_of := done; kv_connector_output := None |} in
                  match drafter r with
                  | None => Done (Ok (RunnerOutput (output None), r))
                  | Some p =>
                      match propose_ngram_draft_token_ids r p 0 valid with
                      | OutOfFuel => OutOfFuel
                      | Done (Raise e) => Done (Raise e)
                      | Done (Ok l) => Done (Ok (RunnerOutput (output (Some l)), r))
                      end
                  end
              end
        end
  end.
End execute.
