(* ===== verification/RunnerBooks.v ===== *)
(** * The books of a step

    What [execute_model] does with the sampled tokens, against [contents]: the
    committed block tables change no row, the tokens of partial prefills are
    dropped, and every other request has its tokens in its row and in its state. *)

From stdpp Require Import base functions gmap strings list fin_sets.
From Stdlib Require Import ZArith QArith Lia.
From S2P Require SchedulerSpec.
From S2P Require Import Prelude BlockTable Request SchedulerTypes LogitsProcessors InputBatch InputBatchOk BatchMoves NgramProposer ModelRunner.
From S2P Require Import RunnerUpdate RunnerAdvance RunnerOk RunnerInputs RunnerSpec RunnerInputsOk RunnerExecute.
Open Scope list_scope.
Open Scope Z_scope.

(** ** The batch with its committed tables *)

Lemma steady_same b b' : steady b -> good b' -> batch_update_builder b' = batch_update_builder b -> steady b'.
Proof.
  intros [Hok Hm Hu Hf] [Hok' Hm' Hr] E. split; [done|done|congruence|]. destruct Hr as [Hr|Hr]; [|done]. rewrite E, Hu in Hr. by destruct Hr as [?|[?|?]].
Qed.
Lemma tokens_unchanged c : tokens_changed c c.
Proof. split; [done|]. destruct c. by do 4 eexists. Qed.

Lemma committed_settings t n total slots :
  length slots = length (slot_mapping_np t) -> (total <= length (slot_mapping_np t))%nat -> (total <= length (slot_mapping_dev t))%nat ->
  table_settings (committed t n total slots) = table_settings t.
Proof.
  intros H1 H2 H3. unfold table_settings. cbn. rewrite H1. do 2 f_equal. rewrite length_app, length_take, repeat_length.
  rewrite length_copy_prefix by lia. lia.
Qed.
Lemma commit_batch b ts n total :
  steady b -> length ts = length (block_table b) ->
  Forall (fun t => (total <= length (slot_mapping_np t))%nat /\ (total <= length (slot_mapping_dev t))%nat) (block_table b) ->
  (forall g t, block_table b !! g = Some t -> exists slots, ts !! g = Some (committed t n total slots) /\ length slots = length (slot_mapping_np t)) ->
  steady (with_block_table b ts) /\ contents (with_block_table b ts) = contents b /\ settings (with_block_table b ts) = settings b.
Proof.
  intros Hst Hlen Hsz Hts. pose proof (st_ok _ Hst) as Hok.
  assert (H2 : Forall2 (fun t t' => exists slots, t' = committed t n total slots /\ length slots = length (slot_mapping_np t)) (block_table b) ts).
  { apply Forall2_same_length_lookup. split; [done|]. intros g t t' Ht Ht'. destruct (Hts g t Ht) as (slots & Hs & Hl). exists slots. split; [congruence|done]. }
  assert (Hrows : forall i, map (fun t => table_row t i) ts = map (fun t => table_row t i) (block_table b)).
  { intros i. clear -H2. induction H2 as [|t t' l l' (slots & -> & _) _ IH]; [done|]. cbn [map]. by rewrite IH. }
  assert (Hset : map table_settings ts = map table_settings (block_table b)).
  { clear -H2 Hsz. revert Hsz. induction H2 as [|t t' l l' (slots & -> & Hl) _ IH]; [done|]. intros [[? ?] Hsz]%Forall_cons. cbn [map]. by rewrite IH, committed_settings. }
  assert (Hrow : forall id i, row (with_block_table b ts) id i = row b id i).
  { intros id i. unfold row. cbn [cols with_block_table with_cols block_table generators bad_words_token_ids sets]. by rewrite Hrows. }
  assert (Hc : contents (with_block_table b ts) = contents b).
  { apply contents_ext; [|done]. intros id i Hi. exists i. by split. }
  split; [|split; [done|unfold settings; by f_equal]]. apply (steady_same b); [done| |done]. apply (good_same b); [by apply steady_good| | |].
  - split; [done|]. split; [|done]. apply metadata_tokens, tokens_unchanged.
  - exact (st_mask _ Hst).
  - destruct Hok as [R1 R2 R3 R4 R5 R6 R7 R8 [S1 S2 S3]]. split; try done; [by rewrite Hc|]. split; [done|done|]. cbn.
    clear -H2 S3. induction H2 as [|t t' l l' (slots & -> & _) _ IH]; [done|]. apply Forall_cons in S3 as [? ?]. constructor; [done|by apply IH].
Qed.
Lemma buffers_settings b b' u T : settings b' = settings b -> buffers_ok b u T -> buffers_ok b' u T.
Proof.
  intros Hs [B1 B2 B3 B4 B5 B6]. destruct (settings_limits _ _ Hs) as (Hn & _). split; rewrite ?Hn; try done.
  assert (Hm : map table_settings (block_table b') = map table_settings (block_table b)) by (unfold settings in Hs; by injection Hs).
  clear -Hm B6. revert Hm. generalize (block_table b'). induction B6 as [|t l Ht _ IH]; intros [|t' l'] Hm; try done. cbn in Hm. constructor; [|apply IH; congruence].
  injection Hm as _ E1 _ _ E2 E3 _. rewrite E1, E2, E3. exact Ht.
Qed.

(** ** The sampled tokens *)

(** A request with more output tokens. *)
Definition grow (q : CachedRequestState) (ids : list Z) : CachedRequestState :=
  cr_update q (cr_block_ids q) (cr_num_computed_tokens q) (cr_output_token_ids q ++ ids).
Lemma grow_nil q : grow q [] = q.
Proof. unfold grow, cr_update. rewrite app_nil_r. by destruct q. Qed.
Lemma grow_tokens q ids : cr_num_tokens (grow q ids) = (cr_num_tokens q + length ids)%nat.
Proof. unfold cr_num_tokens. cbn. rewrite length_app. lia. Qed.

(** Writing the tokens over the drafts of a row. *)
Lemma written_row b i id q drafts ids :
  steady b -> req_id_to_index b !! id = Some i -> contents b !! id = Some (row_with b q drafts) ->
  (cr_num_tokens q + length ids <= max_model_len b)%nat ->
  exists c, write_tokens (cols b) i (num_tokens_no_spec (cols b) i) (num_tokens_no_spec (cols b) i + length ids) ids = Ok c /\
    let n := (num_tokens_no_spec (cols b) i + length ids)%nat in
    let b' := with_cols b (set_counts c i n n (num_computed_tokens_cpu c i)) (block_table b) in
    n = cr_num_tokens (grow q ids) /\ steady b' /\ contents b' = <[id := row_of b (grow q ids)]> (contents b) /\ settings b' = settings b.
Proof.
  intros Hst Hi Hrow Hfit. pose proof (ri_shape _ _ (st_ok _ Hst)) as [S1 S2 S3]. rewrite contents_lookup, Hi in Hrow. apply (inj Some) in Hrow.
  pose proof (f_equal rw_tokens Hrow) as E1. pose proof (f_equal rw_num_tokens Hrow) as E2. pose proof (f_equal rw_num_tokens_no_spec Hrow) as E3.
  pose proof (f_equal rw_num_prompt_tokens Hrow) as E4. pose proof (f_equal rw_blocks Hrow) as E5. pose proof (f_equal rw_num_computed Hrow) as E6.
  cbn in E1, E2, E3, E4, E5, E6. rewrite E3.
  assert (Htake : take (cr_num_tokens q) (token_ids_cpu (cols b) i) = cr_prompt_token_ids q ++ cr_output_token_ids q).
  { apply (f_equal (take (cr_num_tokens q))) in E1. rewrite take_take, Nat.min_l in E1 by lia. rewrite E1. apply take_app_length'. by rewrite length_app. }
  unfold write_tokens. rewrite slice_set_fits by (rewrite S1; lia). cbn [bind]. eexists. split; [reflexivity|]. cbn zeta.
  set (c := set_counts _ i _ _ _). split; [by rewrite grow_tokens|].
  assert (Htc : tokens_changed (cols b) c).
  { split; [|unfold c, set_counts; cbn; by do 4 eexists]. intros k. unfold c, set_counts. cbn. destruct (decide (k = i)) as [->|Hk]; [|by rewrite !fn_lookup_insert_ne].
    rewrite !fn_lookup_insert, E4. split; [rewrite !length_app, length_take, length_drop, S1; lia|]. unfold cr_num_tokens in *.
    rewrite take_app_le by (rewrite length_take, S1; lia). rewrite take_take. f_equal. lia. }
  destruct (change_row b c (block_table b) i id (row_of b (grow q ids)) (steady_good _ Hst) Hi Htc) as (G1 & G2 & G3); try done.
  - split; [intros k; by rewrite (proj1 (tc_prompt _ _ Htc k))| |done]. intros k. unfold c, set_counts. cbn.
    destruct (decide (k = i)) as [->|Hk]; [rewrite fn_lookup_insert; lia|]. by rewrite fn_lookup_insert_ne.
  - pose proof (f_equal rw_lora Hrow) as E7. pose proof (f_equal rw_generator Hrow) as E8. pose proof (f_equal rw_bad_words Hrow) as E9.
    pose proof (f_equal rw_sampling Hrow) as E10. pose proof (f_equal rw_flags Hrow) as E11. cbn in E7, E8, E9, E10, E11.
    apply row_is; unfold c, set_counts; cbn; rewrite ?fn_lookup_insert; try done; try (symmetry; apply grow_tokens).
    rewrite take_after_slice by (rewrite S1; lia). by rewrite Htake, <-app_assoc.
  - intros k id' Hk. apply row_is; unfold c, set_counts; cbn; rewrite ?fn_lookup_insert_ne by done; done.
  - split; [by apply (steady_same b)|]. by split.
Qed.

(** What the writes keep. *)
Record same_batch (b b' : InputBatch) : Prop := {
  sb_ids : _req_ids b' = _req_ids b;
  sb_index : req_id_to_index b' = req_id_to_index b;
  sb_sets : sets b' = sets b;
  sb_settings : settings b' = settings b;
  sb_tables : block_table b' = block_table b }.
Definition runner_with (r : Runner) (b : InputBatch) (reqs : gmap string CachedRequestState) : Runner := with_requests (with_batch r b) reqs.
(** A row of the batch that tokens can be written to. *)
Definition can_write (r : Runner) (i : nat) (ids : list Z) : Prop :=
  exists id q drafts, _req_ids (input_batch r) !! i = Some (Some id) /\ cached_requests r !! id = Some q /\
    contents (input_batch r) !! id = Some (row_with (input_batch r) q drafts) /\ (ids = [] -> drafts = []) /\
    (cr_num_tokens q + length ids <= max_model_len (input_batch r))%nat.

Lemma cache_row_ok r i ids :
  steady (input_batch r) -> runner_max_model_len r = Z.of_nat (max_model_len (input_batch r)) -> can_write r i ids ->
  exists id q b', _req_ids (input_batch r) !! i = Some (Some id) /\ cached_requests r !! id = Some q /\
    cache_row r i ids = Ok (runner_with r b' (<[id := grow q ids]> (cached_requests r))) /\
    steady b' /\ same_batch (input_batch r) b' /\ contents b' = <[id := row_of (input_batch r) (grow q ids)]> (contents (input_batch r)).
Proof.
  intros Hst Hmax (id & q & drafts & Hid & Hq & Hrow & _ & Hfit). pose proof (proj2 (ri_index _ _ (st_ok _ Hst) id i) Hid) as Hi.
  destruct (written_row _ i id q drafts ids Hst Hi Hrow Hfit) as (c & Hw & Hn & Hst' & Hc & Hs). cbn zeta in Hn, Hst', Hc, Hs.
  exists id, q. eexists. split; [done|]. split; [done|]. unfold cache_row.
  assert (Hle : Z.of_nat (num_tokens_no_spec (cols (input_batch r)) i + length ids) <=? runner_max_model_len r = true).
  { apply Z.leb_le. rewrite Hmax, Hn, grow_tokens. lia. }
  rewrite Hle. cbn [py_assert bind]. rewrite Hw. cbn [bind]. rewrite Hid. cbn [of_option bind]. rewrite Hq. cbn [of_option bind]. split; [reflexivity|].
  split; [done|]. split; [by split|done].
Qed.

Lemma runner_with_same r : runner_with r (input_batch r) (cached_requests r) = r.
Proof. by destruct r. Qed.
Lemma req_ids_inj b i j id : steady b -> _req_ids b !! i = Some (Some id) -> _req_ids b !! j = Some (Some id) -> i = j.
Proof. intros Hst Hi Hj. apply (ri_index _ _ (st_ok _ Hst)) in Hi, Hj. congruence. Qed.
Lemma same_batch_trans b1 b2 b3 : same_batch b1 b2 -> same_batch b2 b3 -> same_batch b1 b3.
Proof. intros [] []. split; congruence. Qed.

(** What became of the request in row [i]. *)
Definition written (r : Runner) (b' : InputBatch) (reqs : gmap string CachedRequestState) (i : nat) (ids : list Z) : Prop :=
  forall id q, _req_ids (input_batch r) !! i = Some (Some id) -> cached_requests r !! id = Some q ->
    reqs !! id = Some (grow q ids) /\ contents b' !! id = Some (row_of (input_batch r) (grow q ids)).

Lemma cache_one r i ids :
  steady (input_batch r) -> runner_max_model_len r = Z.of_nat (max_model_len (input_batch r)) -> can_write r i ids ->
  exists b' reqs, match ids with [] => Ok r | _ => cache_row r i ids end = Ok (runner_with r b' reqs) /\ steady b' /\ same_batch (input_batch r) b' /\
    written r b' reqs i ids /\
    forall id, _req_ids (input_batch r) !! i <> Some (Some id) -> reqs !! id = cached_requests r !! id /\ contents b' !! id = contents (input_batch r) !! id.
Proof.
  intros Hst Hmax Hw. destruct ids as [|x l].
  - exists (input_batch r), (cached_requests r). split; [by rewrite runner_with_same|]. split; [done|]. split; [done|]. split; [|done].
    destruct Hw as (id & q & drafts & Hid & Hq & Hrow & Hd & _). rewrite Hd, row_with_nil in Hrow by done.
    intros id' q' Hid' Hq'. assert (id' = id) as -> by congruence. rewrite Hq in Hq'. injection Hq' as <-. by rewrite grow_nil.
  - destruct (cache_row_ok r i (x :: l) Hst Hmax Hw) as (id & q & b' & Hid & Hq & Hok & Hst' & Hsame & Hc). do 2 eexists. split; [exact Hok|]. split; [done|]. split; [done|]. split.
    + intros id' q' Hid' Hq'. assert (id' = id) as -> by congruence. rewrite Hq in Hq'. injection Hq' as <-. by rewrite Hc, !lookup_insert_eq.
    + intros k Hk. assert (id <> k) by congruence. by rewrite Hc, !lookup_insert_ne.
Qed.

Lemma cache_sampled_ok valid : forall r i,
  steady (input_batch r) -> runner_max_model_len r = Z.of_nat (max_model_len (input_batch r)) ->
  (forall j ids, valid !! j = Some ids -> can_write r (i + j) ids) ->
  exists b' reqs, cache_sampled r i valid = Ok (runner_with r b' reqs) /\ steady b' /\ same_batch (input_batch r) b' /\
    (forall j ids, valid !! j = Some ids -> written r b' reqs (i + j) ids) /\
    forall id, (forall j, (j < length valid)%nat -> _req_ids (input_batch r) !! (i + j)%nat <> Some (Some id)) ->
      reqs !! id = cached_requests r !! id /\ contents b' !! id = contents (input_batch r) !! id.
Proof.
  induction valid as [|ids valid IH]; intros r i Hst Hmax Hall.
  { exists (input_batch r), (cached_requests r). split; [by rewrite runner_with_same|]. split; [done|]. split; [done|]. by split; [intros j ids ?|]. }
  pose proof (Hall 0%nat ids eq_refl) as Hw. rewrite Nat.add_0_r in Hw.
  destruct (cache_one r i ids Hst Hmax Hw) as (b1 & reqs1 & H1 & Hst1 & Hsame1 & Hdone & Hother).
  destruct Hw as (id & q & drafts & Hid & Hq & Hrow & Hd & Hfit).
  destruct (settings_limits _ _ (sb_settings _ _ Hsame1)) as (_ & Hlen & _).
  destruct (IH (runner_with r b1 reqs1) (S i)) as (b' & reqs & H2 & Hst' & Hsame & Htail & Hrest); [done|by cbn; rewrite Hlen| |].
  { intros j l Hj. destruct (Hall (S j) l Hj) as (id' & q' & d' & W1 & W2 & W3 & W4 & W5). rewrite <-Nat.add_succ_comm in W1. exists id', q', d'. cbn.
    assert (Hne : _req_ids (input_batch r) !! i <> Some (Some id')) by (intros E; pose proof (req_ids_inj _ _ _ _ Hst E W1); lia).
    destruct (Hother id' Hne) as [-> ->]. rewrite (sb_ids _ _ Hsame1), Hlen. split; [done|]. split; [done|]. split; [|done].
    rewrite W3. f_equal. symmetry. apply row_with_settings, Hsame1. }
  exists b', reqs. split.
  { transitivity (let! r := match ids with [] => Ok r | _ => cache_row r i ids end in cache_sampled r (S i) valid); [by destruct ids|]. rewrite H1. exact H2. }
  split; [done|]. split; [exact (same_batch_trans _ _ _ Hsame1 Hsame)|]. cbn [input_batch runner_with with_requests with_batch cached_requests] in *. rewrite (sb_ids _ _ Hsame1) in Hrest. split.
  - intros [|j] l Hj.
    + injection Hj as <-. rewrite Nat.add_0_r. intros id' q' Hid' Hq'. destruct (Hrest id') as [-> ->]; [|by apply Hdone].
      intros j _ E. pose proof (req_ids_inj _ _ _ _ Hst Hid' E). lia.
    + rewrite <-Nat.add_succ_comm. intros id' q' Hid' Hq'. assert (Hne : _req_ids (input_batch r) !! i <> Some (Some id')).
      { intros E. pose proof (req_ids_inj _ _ _ _ Hst E Hid'). lia. }
      destruct (Hother id' Hne) as [E1 _]. rewrite <-(row_of_settings _ _ (grow q' l) (sb_settings _ _ Hsame1)).
      apply (Htail j l Hj id' q'); cbn; [by rewrite (sb_ids _ _ Hsame1)|by rewrite E1].
  - intros id' Hn. destruct (Hrest id') as [-> ->].
    + intros j Hj. rewrite Nat.add_succ_comm. apply Hn. cbn. lia.
    + apply Hother. rewrite <-(Nat.add_0_r i). apply Hn. cbn. lia.
Qed.

(** The step computes only a part of the prompt. *)
Definition is_partial (q : CachedRequestState) (n : Z) : bool := cr_num_computed_tokens q + n <? Z.of_nat (cr_num_tokens q).
Definition kept (q : CachedRequestState) (n : Z) (ids : list Z) : list Z := if is_partial q n then [] else ids.
(** The request in row [i] and its tokens. *)
Definition row_request (r : Runner) (out : SchedulerOutput) (i : nat) (id : string) (q : CachedRequestState) (n : Z) : Prop :=
  _req_ids (input_batch r) !! i = Some (Some id) /\ cached_requests r !! id = Some q /\ dict_get (num_scheduled_tokens out) id = Some n.

Lemma discard_rows_ok reqs scheduled ids : forall i,
  (forall j o, ids !! j = Some o -> exists id q n, o = Some id /\ reqs !! id = Some q /\ dict_get scheduled id = Some n) ->
  exists rows, discard_rows reqs scheduled ids i = Ok rows /\
    forall k, k ∈ rows <-> exists j id q n, (k = i + j)%nat /\ ids !! j = Some (Some id) /\ reqs !! id = Some q /\ dict_get scheduled id = Some n /\ is_partial q n = true.
Proof.
  induction ids as [|o ids IH]; intros i H; cbn [discard_rows].
  { exists []. split; [done|]. intros k. split; [by intros ?%elem_of_nil|by intros (j & id & q & n & _ & ? & _)]. }
  destruct (H 0%nat o eq_refl) as (id & q & n & -> & Hq & Hn). cbn [of_option bind]. rewrite Hq, Hn. cbn [of_option bind].
  destruct (IH (S i)) as (rows & -> & Hrows); [intros j o Ho; by apply (H (S j))|]. cbn [bind]. eexists. split; [reflexivity|]. intros k. fold (is_partial q n).
  assert (Htail : k ∈ rows <-> exists j id q n, (k = i + S j)%nat /\ ids !! j = Some (Some id) /\ reqs !! id = Some q /\ dict_get scheduled id = Some n /\ is_partial q n = true).
  { rewrite Hrows. by setoid_rewrite Nat.add_succ_comm. }
  split.
  - intros Hk. destruct (is_partial q n) eqn:Ep; [apply elem_of_cons in Hk as [->|Hk]|].
    + exists 0%nat, id, q, n. by rewrite Nat.add_0_r.
    + apply Htail in Hk as (j & Hk). by exists (S j).
    + apply Htail in Hk as (j & Hk). by exists (S j).
  - intros ([|j] & id' & q' & n' & Hk & Hj & Hq' & Hn' & Hp).
    + rewrite Nat.add_0_r in Hk. injection Hj as <-. assert (q' = q) as -> by congruence. assert (n' = n) as -> by congruence. rewrite Hp, Hk. left.
    + assert (Hin : k ∈ rows) by (apply Htail; by exists j, id', q', n'). destruct (is_partial q n); [by right|done].
Qed.
Lemma clear_rows_ok rows : forall valid,
  (forall k, k ∈ rows -> (k < length valid)%nat) ->
  exists v, clear_rows valid rows = Ok v /\ length v = length valid /\ forall k, v !! k = if decide (k ∈ rows) then Some [] else valid !! k.
Proof.
  induction rows as [|i rows IH]; intros valid H; cbn [clear_rows].
  { exists valid. split; [done|]. split; [done|]. intros k. rewrite decide_False; [done|]. apply not_elem_of_nil. }
  rewrite list_set_ok by (apply H; left). cbn [bind]. destruct (IH (<[i := []]> valid)) as (v & -> & Hl & Hv); [intros k Hk; rewrite length_insert; apply H; by right|].
  exists v. split; [done|]. rewrite length_insert in Hl. split; [done|]. intros k. rewrite Hv. destruct (decide (k ∈ rows)) as [Hin|Hin]; [by rewrite decide_True by (by right)|].
  destruct (decide (k = i)) as [->|Hne]; [rewrite list_lookup_insert_eq by (apply H; left); by rewrite decide_True by left|].
  rewrite list_lookup_insert_ne, decide_False; [done| |done]. by rewrite not_elem_of_cons.
Qed.

(** What the books say after the step. *)
Record booked (r : Runner) (out : SchedulerOutput) (v : list (list Z)) (valid : list (list Z)) (b' : InputBatch) (reqs : gmap string CachedRequestState) : Prop := {
  bk_batch : steady b' /\ same_batch (input_batch r) b';
  bk_length : length valid = length (_req_ids (input_batch r));
  bk_rows i id q n : row_request r out i id q n -> exists ids, v !! i = Some ids /\ valid !! i = Some (kept q n ids) /\
    reqs !! id = Some (grow q (kept q n ids)) /\ contents b' !! id = Some (row_of (input_batch r) (grow q (kept q n ids)));
  bk_other id : contents (input_batch r) !! id = None -> reqs !! id = cached_requests r !! id /\ contents b' !! id = None }.

Lemma bookkeeping_ok r out m :
  steady (input_batch r) -> runner_max_model_len r = Z.of_nat (max_model_len (input_batch r)) -> num_prompt_logprobs (sets (input_batch r)) = ∅ ->
  (forall i o, _req_ids (input_batch r) !! i = Some o -> exists id q n, o = Some id /\ row_request r out i id q n) ->
  let v := valid_sampled m (vocab_size (input_batch r)) in
  length v = length (_req_ids (input_batch r)) ->
  (forall i id q n ids, row_request r out i id q n -> v !! i = Some ids -> can_write r i (kept q n ids)) ->
  exists valid b' reqs, bookkeeping r out m = Ok (valid, ∅, runner_with r b' reqs) /\ booked r out v valid b' reqs.
Proof.
  intros Hst Hmax Hnone Hrows v Hlen Hw. unfold bookkeeping.
  destruct (discard_rows_ok (cached_requests r) (num_scheduled_tokens out) (_req_ids (input_batch r)) 0) as (rows & -> & Hd).
  { intros j o Ho. destruct (Hrows j o Ho) as (id & q & n & -> & _ & ? & ?). by exists id, q, n. }
  cbn [bind]. unfold _get_prompt_logprobs_dict. rewrite Hnone. change ((map_to_list (∅ : gmap string Z)).*1) with (@nil string). cbn [bind]. fold v.
  destruct (clear_rows_ok rows v) as (valid & -> & Hl & Hv).
  { intros k Hk. apply Hd in Hk as (j & id & q & n & -> & Hj & _). apply lookup_lt_Some in Hj. cbn. lia. }
  cbn [bind].
  assert (Hval : forall i id q n, row_request r out i id q n -> exists ids, v !! i = Some ids /\ valid !! i = Some (kept q n ids)).
  { intros i id q n (Hi & Hq & Hn). destruct (lookup_lt_is_Some_2 v i) as [ids Hids]; [apply lookup_lt_Some in Hi; lia|]. exists ids. split; [done|]. rewrite Hv.
    unfold kept. destruct (decide (i ∈ rows)) as [Hin|Hin].
    - apply Hd in Hin as (j & id' & q' & n' & -> & Hj & Hq' & Hn' & Hp). cbn in Hi. assert (id' = id) as -> by congruence.
      assert (q' = q) as -> by congruence. assert (n' = n) as -> by congruence. by rewrite Hp.
    - destruct (is_partial q n) eqn:Ep; [|done]. destruct Hin. apply Hd. by exists i, id, q, n. }
  destruct (cache_sampled_ok valid r 0 Hst Hmax) as (b' & reqs & -> & Hst' & Hsame & Hdone & Hother).
  { intros j ids Hj. cbn. destruct (lookup_lt_is_Some_2 (_req_ids (input_batch r)) j) as [o Ho]; [apply lookup_lt_Some in Hj; lia|].
    destruct (Hrows j o Ho) as (id & q & n & -> & Hr). destruct (Hval _ _ _ _ Hr) as (l & Hl1 & Hl2). rewrite Hj in Hl2. injection Hl2 as ->. by eapply Hw. }
  cbn [bind]. exists valid, b', reqs. split; [done|]. split; [done|congruence| |].
  - intros i id q n Hr. destruct (Hval _ _ _ _ Hr) as (ids & H1 & H2). exists ids. split; [done|]. split; [done|]. destruct Hr as (Hi & Hq & _). by apply (Hdone i _ H2 id q).
  - intros id Hc. destruct (Hother id) as [E1 E2]; [|by rewrite E2].
    intros j _ Hj. apply (ri_index _ _ (st_ok _ Hst)) in Hj. apply in_batch in Hc. cbn in Hj. congruence.
Qed.
