(* ===== verification/RunnerExecuteOk.v ===== *)
(** * What a step of the runner returns

    [execute_model] against its contract: with a sampler that gives every request
    between one token and one more than its drafts, the step returns tokens for
    exactly the requests whose prompt is done, the states of the requests grow by
    them, and the runner is ready for the next step. *)

From stdpp Require Import base functions gmap strings list fin_sets.
From Stdlib Require Import ZArith QArith Lia.
From S2P Require SchedulerSpec.
From S2P Require Import Prelude BlockTable Request SchedulerTypes LogitsProcessors InputBatch InputBatchOk BatchMoves NgramProposer ModelRunner.
From S2P Require Import RunnerUpdate RunnerAdvance RunnerOk RunnerInputs RunnerSpec RunnerInputsOk RunnerExecute RunnerBooks.
Open Scope list_scope.
Open Scope Z_scope.

(** ** Drafts for the next step *)

(** The drafts of a request in state [q] that was just given [ids]. *)
Definition next_drafts (b : InputBatch) (p : NgramProposer) (q : CachedRequestState) (ids : list Z) : list Z :=
  match ids with
  | [] => []
  | _ => if fl_no_spec (rw_flags (row_of b q)) then []
         else if (max_model_len b <=? cr_num_tokens q)%nat then []
         else default [] (longest_drafts p (cr_prompt_token_ids q ++ cr_output_token_ids q))
  end.

Lemma propose_for_ok r p i id q ids :
  steady (input_batch r) -> runner_max_model_len r = Z.of_nat (max_model_len (input_batch r)) -> 0 < min_n p <= max_n p ->
  _req_ids (input_batch r) !! i = Some (Some id) -> contents (input_batch r) !! id = Some (row_of (input_batch r) q) ->
  propose_for r p i ids = Done (Ok (next_drafts (input_batch r) p q ids)).
Proof.
  intros Hst Hmax Hp Hid Hc. pose proof (proj2 (ri_index _ _ (st_ok _ Hst) id i) Hid) as Hi. rewrite contents_lookup, Hi in Hc. apply (inj Some) in Hc.
  pose proof (f_equal rw_tokens Hc) as E1. pose proof (f_equal rw_num_tokens Hc) as E2. pose proof (f_equal rw_num_tokens_no_spec Hc) as E3.
  pose proof (f_equal (fun w => fl_no_spec (rw_flags w)) Hc) as E4. cbn [row rw_tokens rw_num_tokens rw_num_tokens_no_spec rw_flags flags fl_no_spec] in E1, E2, E3, E4.
  unfold propose_for, next_drafts. destruct ids as [|x l]; [done|]. rewrite Hid, E4. destruct (fl_no_spec _); [done|]. rewrite E3, Hmax.
  cbn [row_of rw_num_tokens_no_spec rw_num_tokens rw_tokens] in *.
  destruct (Nat.leb_spec (max_model_len (input_batch r)) (cr_num_tokens q)), (Z.leb_spec (Z.of_nat (max_model_len (input_batch r))) (Z.of_nat (cr_num_tokens q))); try lia; [done|].
  rewrite E2 in E1. rewrite E1, propose_reference by lia. done.
Qed.
Lemma propose_all_ok r p valid : 
  steady (input_batch r) -> runner_max_model_len r = Z.of_nat (max_model_len (input_batch r)) -> 0 < min_n p <= max_n p ->
  forall i, (forall j, (j < length valid)%nat -> exists id q, _req_ids (input_batch r) !! (i + j)%nat = Some (Some id) /\
      contents (input_batch r) !! id = Some (row_of (input_batch r) q)) ->
  exists l, propose_ngram_draft_token_ids r p i valid = Done (Ok l) /\ length l = length valid /\
    forall j ids id q, valid !! j = Some ids -> _req_ids (input_batch r) !! (i + j)%nat = Some (Some id) ->
      contents (input_batch r) !! id = Some (row_of (input_batch r) q) -> l !! j = Some (next_drafts (input_batch r) p q ids).
Proof.
  intros Hst Hmax Hp. induction valid as [|ids valid IH]; intros i Hall; cbn [propose_ngram_draft_token_ids]; [by exists []|].
  destruct (Hall 0%nat ltac:(cbn; lia)) as (id & q & Hid & Hc). rewrite Nat.add_0_r in Hid. rewrite (propose_for_ok r p i id q ids) by done.
  destruct (IH (S i)) as (l & -> & Hl & Hrest); [intros j Hj; rewrite Nat.add_succ_comm; apply Hall; cbn; lia|].
  eexists. split; [reflexivity|]. split; [cbn; by rewrite Hl|]. intros [|j] ids' id' q' Hv Hid' Hc'.
  - injection Hv as <-. rewrite Nat.add_0_r in Hid'. pose proof (propose_for_ok r p i id' q' ids Hst Hmax Hp Hid' Hc') as E.
    rewrite (propose_for_ok r p i id q ids) in E by done. injection E as E. cbn. by f_equal.
  - apply (Hrest j ids' id' q'); [done| |done]. by rewrite Nat.add_succ_comm.
Qed.

(** ** The contract *)

Section execute.
Context (pooling_update : string -> option bool) (sample : PreparedInputs -> SamplingMetadata -> list (list Z)) (T : nat).

(** The state that a scheduled request has in the step. *)
Definition stepped (r : Runner) (out : SchedulerOutput) (id : string) (q : CachedRequestState) : Prop :=
  (exists d, d ∈ scheduled_new_reqs out /\ new_req_id d = id /\ new_state pooling_update d = Ok q) \/
  (exists i q0 c nb rs, cached_entry (scheduled_cached_reqs out) i id c nb rs /\ cached_requests r !! id = Some q0 /\ q = join_state q0 nb c rs).

(** The step fits the request: it computes no more than its tokens and drafts, only
    whole prompts have drafts, and one more token fits the model. *)
Record step_fits (b : InputBatch) (q : CachedRequestState) (n : Z) (drafts : list Z) : Prop := {
  sf_some : Z.of_nat (length drafts) + 1 <= n;
  sf_computed : 0 <= cr_num_computed_tokens q;
  sf_tokens : cr_num_computed_tokens q + n <= Z.of_nat (cr_num_tokens q + length drafts);
  sf_drafts : drafts <> [] -> is_partial q n = false;
  sf_room : is_partial q n = false -> (cr_num_tokens q + length drafts + 1 <= max_model_len b)%nat;
  sf_blocks : Forall2 (fun t blocks => blocks_cover t blocks (row_of b q, n)) (block_table b) (cr_block_ids q);
  sf_params : exists p, cr_sampling_params q = Some p /\ prompt_logprobs p = None }.
Record step_ok (r : Runner) (out : SchedulerOutput) : Prop := {
  so_update : output_fits pooling_update r out;
  so_some : num_scheduled_tokens out <> [];
  so_total : total_num_scheduled_tokens out = zsum (map snd (num_scheduled_tokens out));
  so_room : total_num_scheduled_tokens out <= Z.of_nat T;
  so_spec : NoDup (map fst (scheduled_spec_decode_tokens out)) /\
    forall id, id ∈ map fst (scheduled_spec_decode_tokens out) -> id ∈ map fst (num_scheduled_tokens out);
  so_rows id q n : stepped r out id q -> dict_get (num_scheduled_tokens out) id = Some n -> step_fits (input_batch r) q n (drafts_of out id) }.
(** The runner between two steps. *)
Record ready (r : Runner) : Prop := {
  rd_ok : runner_ok r;
  rd_buffers : buffers_ok (input_batch r) (buffers r) T;
  rd_len : runner_max_model_len r = Z.of_nat (max_model_len (input_batch r));
  rd_drafter p : drafter r = Some p -> 0 < min_n p <= max_n p }.
(** The sampler gives every row one token, and at most one more per draft. *)
Definition row_draft_count (pi : PreparedInputs) (i : nat) : Z :=
  match pi_spec_decode pi with None => 0 | Some md => default 0 (num_draft_tokens md !! i) end.
(** The inputs and the metadata that the sampler is given. *)
Definition inputs_wf (pi : PreparedInputs) : Prop :=
  match pi_spec_decode pi with
  | None => length (pi_logits_indices pi) = length (pi_num_scheduled_tokens pi)
  | Some s => length (num_draft_tokens s) = length (pi_num_scheduled_tokens pi) /\ length (bonus_logits_indices s) = length (pi_num_scheduled_tokens pi) /\
              Forall (fun n => 0 <= n) (num_draft_tokens s) /\ cu_num_draft_tokens s = np_cumsum (num_draft_tokens s)
  end.
Definition metadata_wf (n : nat) (md : SamplingMetadata) : Prop :=
  (md_all_greedy md = true -> md_all_random md = false) /\
  (md_all_greedy md = false -> exists temps, md_temperature md = Some temps /\ length temps = n /\
     (md_all_random md = true -> forall i t, temps !! i = Some t -> Qeq_bool t (-1) = false)).
Definition sampler_ok (vocab : nat) : Prop := forall pi md,
  inputs_wf pi -> metadata_wf (length (pi_num_scheduled_tokens pi)) md ->
  let v := valid_sampled (sample pi md) vocab in
  length v = length (pi_num_scheduled_tokens pi) /\
  forall i ids, v !! i = Some ids -> 1 <= Z.of_nat (length ids) <= 1 + Z.max 0 (row_draft_count pi i).

(** What a scheduled request gets of the step. *)
Definition row_executed (r : Runner) (out : SchedulerOutput) (o : ModelRunnerOutput) (r' : Runner) (id : string) (q : CachedRequestState) (n : Z) : Prop :=
  exists i ids, SchedulerTypes.req_id_to_index o !! id = Some i /\ sampled_token_ids o !! i = Some ids /\
    (ids = [] <-> is_partial q n = true) /\ (length ids <= 1 + length (drafts_of out id))%nat /\
    cached_requests r' !! id = Some (grow q ids) /\
    contents (input_batch r') !! id = Some (row_of (input_batch r) (grow q ids)) /\
    match drafter r with
    | None => runner_spec_token_ids o = None
    | Some p => exists l, runner_spec_token_ids o = Some l /\ l !! i = Some (next_drafts (input_batch r) p (grow q ids) ids)
    end.
Record executed (r : Runner) (out : SchedulerOutput) (o : ModelRunnerOutput) (r' : Runner) : Prop := {
  ex_ready : ready r';
  ex_settings : settings (input_batch r') = settings (input_batch r);
  ex_index id : is_Some (SchedulerTypes.req_id_to_index o !! id) <-> id ∈ map fst (num_scheduled_tokens out);
  ex_length : length (sampled_token_ids o) = length (num_scheduled_tokens out);
  ex_rows id q n : stepped r out id q -> dict_get (num_scheduled_tokens out) id = Some n -> row_executed r out o r' id q n;
  ex_finished id : id ∈ out_finished_req_ids out -> id ∉ map fst (num_scheduled_tokens out) -> cached_requests r' !! id = None;
  ex_other id : id ∉ out_finished_req_ids out -> id ∉ map fst (num_scheduled_tokens out) -> cached_requests r' !! id = cached_requests r !! id;
  ex_rest : pooler_output o = [] /\ prompt_logprobs_of o = ∅ /\ kv_connector_output o = None }.

(** ** The inputs of the step *)

Lemma stepped_now r out r1 id q : states_updated pooling_update r out r1 -> stepped r out id q -> cached_requests r1 !! id = Some q.
Proof.
  intros Hu [(d & Hd & <- & Hq)|(i & q0 & c & nb & rs & He & Hq & ->)]; [by eapply su_new|by eapply su_running].
Qed.
Lemma stepped_some r out r1 id :
  step_ok r out -> states_updated pooling_update r out r1 -> id ∈ map fst (num_scheduled_tokens out) ->
  exists q n, stepped r out id q /\ cached_requests r1 !! id = Some q /\ dict_get (num_scheduled_tokens out) id = Some n /\ step_fits (input_batch r) q n (drafts_of out id).
Proof.
  intros Hok Hu Hid. assert (Hq : exists q, stepped r out id q).
  { pose proof Hid as Hin. rewrite (of_ids _ _ _ (so_update _ _ Hok)) in Hin. apply elem_of_app in Hin as [(d & -> & Hd)%list_elem_of_fmap|[i Hi]%list_elem_of_lookup].
    - destruct (of_new _ _ _ (so_update _ _ Hok) d Hd) as (_ & _ & q & Hq & _). exists q. left. by exists d.
    - destruct (of_running _ _ _ (so_update _ _ Hok) i id Hi) as (_ & q & c & nb & rs & He & Hq & _). exists (join_state q nb c rs). right. by exists i, q, c, nb, rs. }
  destruct Hq as [q Hq]. apply list_elem_of_fmap in Hid as ([id' n] & -> & Hin). exists q, n. split; [done|]. split; [by eapply stepped_now|].
  assert (Hn : dict_get (num_scheduled_tokens out) id' = Some n) by (apply SchedulerSpec.dict_in_get; [apply (of_nodup _ _ _ (so_update _ _ Hok))|done]).
  split; [done|]. by eapply so_rows.
Qed.

(** The rows are those of the scheduled requests. *)
Lemma scheduled_iff out id : is_Some (dict_get (num_scheduled_tokens out) id) <-> id ∈ map fst (num_scheduled_tokens out).
Proof.
  destruct (dict_get (num_scheduled_tokens out) id) as [n|] eqn:E.
  - split; [|by eexists]. intros _. apply SchedulerSpec.dict_get_in in E. apply list_elem_of_fmap. by exists (id, n).
  - apply SchedulerSpec.dict_get_none in E. split; [by intros [? ?]|done].
Qed.
Lemma request_rows_perm b out :
  steady b -> NoDup (map fst (num_scheduled_tokens out)) ->
  (forall id, is_Some (contents b !! id) <-> id ∈ map fst (num_scheduled_tokens out)) ->
  map snd (request_rows b out) ≡ₚ map snd (num_scheduled_tokens out).
Proof.
  intros Hst Hnd Hc. assert (Hsched : forall id, is_Some (contents b !! id) -> is_Some (dict_get (num_scheduled_tokens out) id)) by (intros id ?%Hc; by apply scheduled_iff).
  destruct (steady_rows b out Hst Hsched) as (R1 & R2 & _ & _ & R5). set (num id := default 0 (dict_get (num_scheduled_tokens out) id)).
  destruct (cut_rows b (length (_req_ids b))) as (_ & _ & ids & Hids & Hni & _); [|done|].
  { eapply rows_inv_hole; [apply (st_ok _ Hst)|]. intros k. cbn beta. rewrite (st_builder _ Hst). cbn. split; [by intros ?%elem_of_nil|lia]. }
  rewrite take_ge in Hids by done.
  assert (E1 : map snd (request_rows b out) = map num ids).
  { apply list_eq_same_length with (n := length (request_rows b out)); [rewrite length_map, <-R2, Hids; by rewrite length_map|by rewrite length_map|].
    intros i z' z _ Hz' Hz. rewrite list_lookup_fmap in Hz'. rewrite list_lookup_fmap in Hz. destruct (request_rows b out !! i) as [x|] eqn:Ex; [|done]. injection Hz' as <-.
    destruct (R5 i x Ex) as (id & Hi & _ & _ & Hn). rewrite Hids, list_lookup_fmap in Hi. destruct (ids !! i) as [k|]; [|done]. injection Hi as ->. injection Hz as <-.
    unfold num. by rewrite Hn. }
  assert (E2 : map snd (num_scheduled_tokens out) = map num (map fst (num_scheduled_tokens out))).
  { rewrite map_map. apply map_ext_in. intros [k n] Hin%list_elem_of_In. unfold num. cbn. by rewrite (SchedulerSpec.dict_in_get _ k n Hnd Hin). }
  rewrite E1, E2. apply Permutation_map, NoDup_Permutation; [done|done|]. intros id. rewrite <-Hc, contents_lookup, fmap_is_Some. unfold is_Some. setoid_rewrite (ri_index _ _ (st_ok _ Hst)).
  rewrite Hids, list_elem_of_lookup. split; intros [i Hi]; exists i.
  - by rewrite list_lookup_fmap, Hi.
  - rewrite list_lookup_fmap in Hi. by destruct (ids !! i); [injection Hi as ->|].
Qed.

Lemma cover_settings ts ts' ll x : map table_settings ts' = map table_settings ts ->
  Forall2 (fun t blocks => blocks_cover t blocks x) ts ll -> Forall2 (fun t blocks => blocks_cover t blocks x) ts' ll.
Proof.
  intros Hm H. revert ts' Hm. induction H as [|t blocks ts ll Ht _ IH]; intros [|t' ts'] Hm; try done. cbn in Hm. injection Hm as E1 _ _ _ _ _ Hm.
  constructor; [|by apply IH]. unfold blocks_cover in *. by rewrite E1.
Qed.
Lemma updated_scheduled r out r1 id :
  step_ok r out -> states_updated pooling_update r out r1 -> is_Some (contents (input_batch r1) !! id) <-> id ∈ map fst (num_scheduled_tokens out).
Proof.
  intros Hok Hu. rewrite (su_rows _ _ _ _ Hu), <-scheduled_iff. split; [by destruct (dict_get _ id); [eexists|intros [? ?]]|].
  intros Hid. pose proof (su_known _ _ _ _ Hu id (proj1 (scheduled_iff out id) Hid)) as [q ->]. destruct Hid as [n ->]. by eexists.
Qed.
(** The row of a scheduled request. *)
Lemma updated_row r out r1 id q n :
  states_updated pooling_update r out r1 -> stepped r out id q -> dict_get (num_scheduled_tokens out) id = Some n ->
  contents (input_batch r1) !! id = Some (row_with (input_batch r) q (drafts_of out id)).
Proof. intros Hu Hq Hn. rewrite (su_rows _ _ _ _ Hu), Hn, (stepped_now _ _ _ _ _ Hu Hq). done. Qed.

Lemma inputs_ready r out r1 :
  ready r -> step_ok r out -> states_updated pooling_update r out r1 -> inputs_fit r1 out T.
Proof.
  intros Hr Hok Hu. pose proof (su_batch _ _ _ _ Hu) as Hst. pose proof (su_settings _ _ _ _ Hu) as Hset.
  assert (Hsched : forall id, is_Some (contents (input_batch r1) !! id) -> is_Some (dict_get (num_scheduled_tokens out) id)).
  { intros id Hid. by apply scheduled_iff, (updated_scheduled r out r1). }
  pose proof (request_rows_perm _ _ Hst (of_nodup _ _ _ (so_update _ _ Hok)) (fun id => updated_scheduled r out r1 id Hok Hu)) as Hperm.
  destruct (steady_rows _ _ Hst Hsched) as (_ & _ & _ & _ & R5).
  assert (Htab : map table_settings (block_table (input_batch r1)) = map table_settings (block_table (input_batch r))) by (unfold settings in Hset; by injection Hset).
  split; [done| |done| | | | |].
  - destruct (su_same _ _ _ _ Hu) as [enc E]. assert (buffers r1 = buffers r) as -> by (by rewrite E). apply (buffers_settings (input_batch r)); [done|apply Hr].
  - intros x [i Hx]%list_elem_of_lookup. destruct (R5 i x Hx) as (id & _ & Hc & _ & Hn). assert (Hid : id ∈ map fst (num_scheduled_tokens out)) by (apply scheduled_iff; by eexists).
    destruct (stepped_some r out r1 id Hok Hu Hid) as (q & n & Hq & _ & Hn' & [F1 F2 F3 _ _ F6 _]). rewrite (updated_row r out r1 id q n Hu Hq Hn') in Hc. injection Hc as Hx1.
    assert (Hn2 : x.2 = n) by congruence. split; rewrite <-?Hx1, ?Hn2; [lia|done|exact F3|]. apply (cover_settings (block_table (input_batch r))); [done|].
    eapply Forall2_impl; [exact F6|]. intros t bl (? & Hcv & ?). unfold blocks_cover in *. by rewrite <-Hx1, Hn2.
  - intros E. rewrite E in Hperm. apply Permutation_nil, map_eq_nil in Hperm. by apply (so_some _ _ Hok).
  - rewrite Hperm. apply (so_total _ _ Hok).
  - apply (so_room _ _ Hok).
  - intros _. destruct (so_spec _ _ Hok) as [S1 S2]. split; [done| | |].
    + intros id Hid. by apply (updated_scheduled r out r1), S2.
    + intros id w Hw. assert (Hid : id ∈ map fst (num_scheduled_tokens out)) by (apply (updated_scheduled r out r1); [done|done|by eexists]).
      destruct (stepped_some r out r1 id Hok Hu Hid) as (q & n & Hq & _ & Hn & _). rewrite (updated_row r out r1 id q n Hu Hq Hn) in Hw. by injection Hw as <-.
    + intros id n Hn. assert (Hid : id ∈ map fst (num_scheduled_tokens out)) by (apply scheduled_iff; by eexists).
      destruct (stepped_some r out r1 id Hok Hu Hid) as (q & n' & Hq & _ & Hn' & [F1 _ _ _ _ _ _]). assert (n' = n) as -> by congruence. lia.
Qed.

(** ** The step *)

(** The runner between the preparation of the inputs and the sampling. *)
Record prepared (r : Runner) (out : SchedulerOutput) (pi : PreparedInputs) (r2 : Runner) : Prop := {
  pr_batch : steady (input_batch r2);
  pr_settings : settings (input_batch r2) = settings (input_batch r);
  pr_scheduled id : is_Some (contents (input_batch r2) !! id) <-> id ∈ map fst (num_scheduled_tokens out);
  pr_rows id q n : stepped r out id q -> dict_get (num_scheduled_tokens out) id = Some n ->
    contents (input_batch r2) !! id = Some (row_with (input_batch r) q (drafts_of out id)) /\ cached_requests r2 !! id = Some q;
  pr_ids i o : _req_ids (input_batch r2) !! i = Some o ->
    exists id q n, o = Some id /\ row_request r2 out i id q n /\ stepped r out id q /\ step_fits (input_batch r) q n (drafts_of out id);
  pr_inputs : length (pi_num_scheduled_tokens pi) = length (_req_ids (input_batch r2)) /\ length (_req_ids (input_batch r2)) = length (num_scheduled_tokens out) /\
    forall i id, _req_ids (input_batch r2) !! i = Some (Some id) -> row_draft_count pi i = Z.of_nat (length (drafts_of out id));
  pr_wf : inputs_wf pi;
  pr_finished id : id ∈ out_finished_req_ids out -> id ∉ map fst (num_scheduled_tokens out) -> cached_requests r2 !! id = None;
  pr_other id : id ∉ out_finished_req_ids out -> id ∉ map fst (num_scheduled_tokens out) -> cached_requests r2 !! id = cached_requests r !! id;
  pr_buffers : buffers_ok (input_batch r2) (buffers r2) T;
  pr_same : is_last_rank r2 = is_last_rank r /\ drafter r2 = drafter r /\ runner_max_model_len r2 = runner_max_model_len r }.

Lemma draft_counts r out r1 pi i x :
  states_updated pooling_update r out r1 -> step_ok r out ->
  inputs_spec (input_batch r1) out (request_rows (input_batch r1) out) pi -> request_rows (input_batch r1) out !! i = Some x ->
  forall id, contents (input_batch r1) !! id = Some x.1 -> dict_get (num_scheduled_tokens out) id = Some x.2 ->
  row_draft_count pi i = Z.of_nat (length (drafts_of out id)).
Proof.
  intros Hu Hok Hpi Hx id Hc Hn. unfold row_draft_count. rewrite (is_spec _ _ _ _ Hpi). destruct (scheduled_spec_decode_tokens out) as [|e l] eqn:E.
  - unfold drafts_of. by rewrite E.
  - cbn [spec_reference num_draft_tokens]. rewrite list_lookup_fmap, Hx. cbn. assert (Hid : id ∈ map fst (num_scheduled_tokens out)) by (apply scheduled_iff; by eexists).
    destruct (stepped_some r out r1 id Hok Hu Hid) as (q & n & Hq & _ & Hn' & _). rewrite (updated_row r out r1 id q n Hu Hq Hn') in Hc. injection Hc as Hx1.
    unfold draft_count. rewrite <-Hx1. cbn. lia.
Qed.

Lemma bonus_length (d : Row * Z -> Z) l : forall k, length (bonus_targets d k l) = length l.
Proof. induction l as [|x l IH]; intros k; cbn; [done|by rewrite IH]. Qed.
Lemma prepared_inputs_wf r out r1 pi :
  states_updated pooling_update r out r1 -> step_ok r out -> steady (input_batch r1) ->
  (forall id, is_Some (contents (input_batch r1) !! id) -> is_Some (dict_get (num_scheduled_tokens out) id)) ->
  inputs_spec (input_batch r1) out (request_rows (input_batch r1) out) pi -> inputs_wf pi.
Proof.
  intros Hu Hok Hst Hsched Hpi. destruct (steady_rows _ _ Hst Hsched) as (_ & _ & _ & _ & R5). unfold inputs_wf.
  rewrite (is_spec _ _ _ _ Hpi), (is_scheduled _ _ _ _ Hpi), (is_logits _ _ _ _ Hpi). destruct (scheduled_spec_decode_tokens out) as [|e l] eqn:E.
  - unfold np_cumsum. by rewrite length_map, length_cumsum, !length_map.
  - cbn. rewrite !length_map, bonus_length. split; [done|]. split; [done|]. split; [|done]. apply Forall_fmap, Forall_forall. intros x [i Hx]%list_elem_of_lookup. cbn.
    destruct (R5 i x Hx) as (id & _ & Hc & _ & Hn). assert (Hid : id ∈ map fst (num_scheduled_tokens out)) by (apply scheduled_iff; by eexists).
    destruct (stepped_some r out r1 id Hok Hu Hid) as (q & n & Hq & _ & Hn' & _). rewrite (updated_row r out r1 id q n Hu Hq Hn') in Hc. injection Hc as Hx1.
    unfold draft_count. rewrite <-Hx1. cbn. lia.
Qed.
Lemma step_prepared r out :
  ready r -> step_ok r out ->
  exists r1 pi r2, _update_states pooling_update r out = Ok r1 /\ _prepare_inputs r1 out = Ok (pi, r2) /\ prepared r out pi r2.
Proof.
  intros Hr Hok. destruct (update_states_spec pooling_update r out (rd_ok _ Hr) (so_update _ _ Hok)) as (r1 & H1 & Hu).
  pose proof (inputs_ready r out r1 Hr Hok Hu) as Hfit. destruct (prepare_inputs_spec r1 out T Hfit) as (pi & r2 & H2 & Hpi & ts & u & -> & Hbuf & Hlen & Hts).
  pose proof (if_steady _ _ _ Hfit) as Hst. destruct (steady_rows _ _ Hst (if_scheduled _ _ _ Hfit)) as (R1 & R2 & _ & _ & R5).
  pose proof (request_rows_perm _ _ Hst (of_nodup _ _ _ (so_update _ _ Hok)) (fun id => updated_scheduled r out r1 id Hok Hu)) as Hperm.
  apply Permutation_length in Hperm. rewrite !length_map in Hperm.
  destruct (commit_batch (input_batch r1) ts (num_reqs (input_batch r1)) (Z.to_nat (total_num_scheduled_tokens out)) Hst Hlen) as (Hst2 & Hc2 & Hs2); [|exact Hts|].
  { eapply Forall_impl; [apply (bo_slots _ _ _ (if_buffers _ _ _ Hfit))|]. intros t (-> & -> & _). pose proof (so_room _ _ Hok). lia. }
  exists r1, pi. eexists. split; [done|]. split; [exact H2|].
  assert (Hsame : is_last_rank r1 = is_last_rank r /\ drafter r1 = drafter r /\ runner_max_model_len r1 = runner_max_model_len r).
  { destruct (su_same _ _ _ _ Hu) as [enc E]. by rewrite E. }
  split; cbn [input_batch with_buffers with_batch cached_requests buffers is_last_rank drafter runner_max_model_len]; try done.
  - rewrite Hs2. apply (su_settings _ _ _ _ Hu).
  - intros id. rewrite Hc2. by apply (updated_scheduled r out r1).
  - intros id q n Hq Hn. rewrite Hc2. split; [by eapply updated_row|by eapply stepped_now].
  - change (_req_ids (with_block_table (input_batch r1) ts)) with (_req_ids (input_batch r1)). intros i o Ho.
    destruct (lookup_lt_is_Some_2 (request_rows (input_batch r1) out) i) as [x Hx]; [apply lookup_lt_Some in Ho; lia|].
    destruct (R5 i x Hx) as (id & Hid & _ & _ & Hn). destruct (stepped_some r out r1 id Hok Hu) as (q & n & Hq & Hq1 & Hn' & Hf); [apply scheduled_iff; by eexists|].
    exists id, q, n. split; [congruence|]. by repeat (split; [done|]).
  - change (_req_ids (with_block_table (input_batch r1) ts)) with (_req_ids (input_batch r1)). rewrite (is_scheduled _ _ _ _ Hpi), length_map. split; [congruence|]. split; [congruence|].
    intros i id Hid. destruct (lookup_lt_is_Some_2 (request_rows (input_batch r1) out) i) as [x Hx]; [apply lookup_lt_Some in Hid; lia|].
    destruct (R5 i x Hx) as (id' & Hid' & Hc & _ & Hn). assert (id' = id) as -> by congruence. by eapply draft_counts.
  - by eapply prepared_inputs_wf, Hpi; try done; apply (if_scheduled _ _ _ Hfit).
  - apply (su_finished _ _ _ _ Hu).
  - apply (su_other _ _ _ _ Hu).
  - by apply (buffers_settings (input_batch r1)).
Qed.

(** Neither pooling nor prompt logprobs. *)
Lemma prepared_sets r out pi r2 : prepared r out pi r2 -> ib_pooling_params (sets (input_batch r2)) = ∅ /\ num_prompt_logprobs (sets (input_batch r2)) = ∅.
Proof.
  intros Hp. assert (H : forall id, fl_pooling (flags (sets (input_batch r2)) id) = false /\ fl_prompt_logprobs (flags (sets (input_batch r2)) id) = None).
  { intros id. pose proof (st_ok _ (pr_batch _ _ _ _ Hp)) as Hok. destruct (req_id_to_index (input_batch r2) !! id) as [i|] eqn:Ei; [|by rewrite (ri_flags _ _ Hok id Ei)].
    pose proof (proj1 (ri_index _ _ Hok id i) Ei) as Hi. destruct (pr_ids _ _ _ _ Hp i _ Hi) as (id' & q & n & [= <-] & (_ & _ & Hn) & Hq & Hf).
    destruct (pr_rows _ _ _ _ Hp id q n Hq Hn) as [Hc _]. rewrite contents_lookup, Ei in Hc. apply (inj Some) in Hc. apply (f_equal rw_flags) in Hc. cbn in Hc. rewrite Hc.
    destruct (sf_params _ _ _ _ Hf) as (p & -> & Hpl). done. }
  split.
  - apply elem_of_equiv_empty_L. intros id. destruct (H id) as [E _]. by apply bool_decide_eq_false in E.
  - apply map_empty. intros id. apply (H id).
Qed.

(** The metadata of a batch whose requests all generate. *)
Lemma prepared_metadata r out pi r2 :
  step_ok r out -> prepared r out pi r2 -> metadata_wf (length (pi_num_scheduled_tokens pi)) (sampling_metadata (input_batch r2)).
Proof.
  intros Hok Hp. set (b := input_batch r2). pose proof (pr_batch _ _ _ _ Hp) as Hst. fold b in Hst. destruct (pr_inputs _ _ _ _ Hp) as (L1 & L2 & _). fold b in L1, L2.
  assert (Hmd : md_all_greedy (sampling_metadata b) = all_greedy b /\ md_all_random (sampling_metadata b) = all_random b /\
    md_temperature (sampling_metadata b) = if all_greedy b then None else Some (first_rows (temperature_cpu (cols b)) (num_reqs b))).
  { pose proof (st_fresh _ Hst) as Hf. unfold fresh, _make_sampling_metadata in Hf. apply bind_ok in Hf as (p & _ & Hf). apply bind_ok in Hf as (m & _ & Hf).
    injection Hf as <-. done. }
  destruct Hmd as (M1 & M2 & M3). unfold metadata_wf. rewrite M1, M2, M3. destruct (cut_rows b (length (_req_ids b))) as (Hn & _); [|done|].
  { eapply rows_inv_hole; [apply (st_ok _ Hst)|]. intros k. cbn beta. rewrite (st_builder _ Hst). cbn. split; [by intros ?%elem_of_nil|lia]. }
  assert (Hrow : forall i, (i < length (_req_ids b))%nat -> exists id p, flags (sets b) id = flags_of (input_batch r) p /\
      temperature_cpu (cols b) i = if is_greedy p then (-1)%Q else sp_temperature p).
  { intros i Hi. apply lookup_lt_is_Some_2 in Hi as [o Ho]. destruct (pr_ids _ _ _ _ Hp i o Ho) as (id & q & n & -> & (_ & _ & Hd) & Hq & Hf).
    destruct (pr_rows _ _ _ _ Hp id q n Hq Hd) as [Hc _]. fold b in Hc. destruct (sf_params _ _ _ _ Hf) as (p & Ep & _).
    rewrite contents_lookup, (proj2 (ri_index _ _ (st_ok _ Hst) id i) Ho) in Hc. apply (inj Some) in Hc. exists id, p.
    pose proof (f_equal rw_flags Hc) as E1. pose proof (f_equal rw_sampling Hc) as E2. cbn in E1, E2. rewrite Ep in E1, E2. split; [done|].
    destruct (prepared_sets _ _ _ _ Hp) as [Hpool _]. fold b in Hpool. rewrite Hpool, bool_decide_false in E2 by (apply not_elem_of_empty). cbn in E2. injection E2 as E2 _ _ _ _ _. exact E2. }
  unfold all_greedy, all_random. split.
  - intros Hg%bool_decide_eq_true. apply bool_decide_eq_false. intros Hr. destruct (Hrow 0%nat) as (id & p & Hfl & _).
    { rewrite L2. pose proof (so_some _ _ Hok). destruct (num_scheduled_tokens out); [done|cbn; lia]. }
    pose proof (f_equal fl_greedy Hfl) as F1. pose proof (f_equal fl_random Hfl) as F2. cbn in F1, F2. rewrite Hr in F1. rewrite Hg in F2.
    rewrite !bool_decide_false in F1, F2 by (apply not_elem_of_empty). by destruct (is_greedy p).
  - intros Hg. rewrite Hg. eexists. split; [reflexivity|]. unfold first_rows. split; [rewrite length_map, length_seq; congruence|].
    intros Hr%bool_decide_eq_true i t Ht. rewrite list_lookup_fmap in Ht. destruct (seq 0 (num_reqs b) !! i) as [k|] eqn:Ek; [|done]. apply lookup_seq in Ek as [-> Hk].
    injection Ht as <-. cbn [Nat.add]. destruct (Hrow i) as (id & p & Hfl & ->); [lia|]. pose proof (f_equal fl_greedy Hfl) as F1. cbn in F1. rewrite Hr, bool_decide_false in F1 by (apply not_elem_of_empty).
    rewrite <-F1. unfold is_greedy, sampling_type in F1. destruct (Qle_bool (1 # 100000) (sp_temperature p)) eqn:Eq; cbn [negb] in F1; [|done].
    apply Qle_bool_iff in Eq. apply not_true_is_false. intros Ht%Qeq_bool_iff. rewrite Ht in Eq. by destruct Eq.
Qed.

Lemma step_booked r out pi r2 :
  step_ok r out -> ready r -> sampler_ok (vocab_size (input_batch r)) -> prepared r out pi r2 ->
  exists valid b' reqs, bookkeeping r2 out (sample pi (sampling_metadata (input_batch r2))) = Ok (valid, ∅, runner_with r2 b' reqs) /\
    booked r2 out (valid_sampled (sample pi (sampling_metadata (input_batch r2))) (vocab_size (input_batch r2))) valid b' reqs.
Proof.
  intros Hok Hr Hs Hp. destruct (prepared_sets _ _ _ _ Hp) as [_ Hnone]. destruct (settings_limits _ _ (pr_settings _ _ _ _ Hp)) as (_ & Hmax & Hv & _).
  destruct (pr_inputs _ _ _ _ Hp) as (L1 & L2 & Hd). destruct (Hs pi _ (pr_wf _ _ _ _ Hp) (prepared_metadata _ _ _ _ Hok Hp)) as [S1 S2]. rewrite <-Hv in S1, S2. destruct (pr_same _ _ _ _ Hp) as (_ & _ & Hml).
  apply bookkeeping_ok; [apply Hp|rewrite Hml, Hmax; apply Hr|done| |congruence|].
  - intros i o Ho. destruct (pr_ids _ _ _ _ Hp i o Ho) as (id & q & n & -> & Hrow & _). by exists id, q, n.
  - intros i id q n ids Hrow Hids. pose proof Hrow as (Hi & Hq & Hn). destruct (pr_ids _ _ _ _ Hp i _ Hi) as (id' & q' & n' & [= <-] & (_ & Hq' & Hn') & Hst & Hf).
    assert (q' = q) as -> by congruence. assert (n' = n) as -> by congruence. destruct (pr_rows _ _ _ _ Hp id q n Hst Hn) as [Hc _].
    pose proof (S2 i ids Hids) as Hlen. rewrite (Hd i id Hi) in Hlen. exists id, q, (drafts_of out id). split; [done|]. split; [done|].
    split; [by rewrite Hc, (row_with_settings _ _ _ _ (pr_settings _ _ _ _ Hp))|]. unfold kept. destruct (is_partial q n) eqn:Ep.
    + split; [|rewrite Hmax]. { intros _. destruct (decide (drafts_of out id = [])) as [|Hne]; [done|]. pose proof (sf_drafts _ _ _ _ Hf Hne). congruence. }
      pose proof (proj2 (ri_index _ _ (st_ok _ (pr_batch _ _ _ _ Hp)) id i) Hi) as Hi'. rewrite contents_lookup, Hi' in Hc. apply (inj Some) in Hc.
      apply (f_equal rw_num_tokens) in Hc. cbn in Hc. pose proof (sh_num _ _ _ (ri_shape _ _ (st_ok _ (pr_batch _ _ _ _ Hp))) i). cbn. lia.
    + split; [intros ->; cbn in Hlen; lia|]. rewrite Hmax. pose proof (sf_room _ _ _ _ Hf Ep). lia.
Qed.

(** The place of a request of the batch. *)
Lemma row_at b id : steady b -> is_Some (contents b !! id) <-> exists i, _req_ids b !! i = Some (Some id).
Proof.
  intros Hst. rewrite contents_lookup, fmap_is_Some. unfold is_Some. by setoid_rewrite (ri_index _ _ (st_ok _ Hst)).
Qed.
Lemma booked_row r out pi r2 v valid b' reqs id :
  prepared r out pi r2 -> booked r2 out v valid b' reqs -> is_Some (contents (input_batch r2) !! id) ->
  exists i q n ids, row_request r2 out i id q n /\ stepped r out id q /\ step_fits (input_batch r) q n (drafts_of out id) /\
    v !! i = Some ids /\ valid !! i = Some (kept q n ids) /\ reqs !! id = Some (grow q (kept q n ids)) /\
    contents b' !! id = Some (row_of (input_batch r) (grow q (kept q n ids))).
Proof.
  intros Hp [_ _ Hrows _] [i Hi]%(row_at _ _ (pr_batch _ _ _ _ Hp)). destruct (pr_ids _ _ _ _ Hp i _ Hi) as (id' & q & n & [= <-] & Hrow & Hq & Hf).
  destruct (Hrows i id q n Hrow) as (ids & H1 & H2 & H3 & H4). exists i, q, n, ids. rewrite H4, (row_of_settings _ _ _ (pr_settings _ _ _ _ Hp)). done.
Qed.

(** The runner after the books were written. *)
Lemma booked_ready r out pi r2 v valid b' reqs :
  ready r -> step_ok r out -> prepared r out pi r2 -> booked r2 out v valid b' reqs ->
  ready (runner_with r2 b' reqs) /\ settings b' = settings (input_batch r).
Proof.
  intros Hr Hok Hp Hb. pose proof Hb as [[Hst Hsame] _ _ Hother]. destruct (pr_same _ _ _ _ Hp) as (E1 & E2 & E3).
  assert (Hset : settings b' = settings (input_batch r)) by (rewrite (sb_settings _ _ Hsame); apply Hp). split; [|done].
  destruct (settings_limits _ _ Hset) as (_ & Hmax & _). split; cbn.
  - split; cbn; [done|rewrite E1; apply (rd_ok _ Hr)| |].
    + intros id q Hq. destruct (contents (input_batch r2) !! id) as [w|] eqn:Ec.
      * destruct (booked_row _ _ _ _ _ _ _ _ id Hp Hb) as (i & q0 & n & ids & _ & Hs & _ & _ & _ & Hg & _); [by eexists|]. rewrite Hq in Hg. injection Hg as ->. cbn.
        destruct Hs as [(d & _ & <- & Hd)|(j & q1 & c & nb & rs & _ & Hq1 & ->)]; [by eapply new_state_id|]. exact (ru_ids _ (rd_ok _ Hr) _ _ Hq1).
      * destruct (Hother id Ec) as [E _]. rewrite E in Hq. assert (Hn : id ∉ map fst (num_scheduled_tokens out)).
        { intros Hin%(pr_scheduled _ _ _ _ Hp). rewrite Ec in Hin. by destruct Hin. }
        destruct (decide (id ∈ out_finished_req_ids out)) as [Hf|Hf]; [by rewrite (pr_finished _ _ _ _ Hp) in Hq|].
        rewrite (pr_other _ _ _ _ Hp) in Hq by done. by apply (ru_ids _ (rd_ok _ Hr)).
    + intros id w Hw. destruct (contents (input_batch r2) !! id) as [w2|] eqn:Ec; [|destruct (Hother id Ec) as [_ E]; congruence].
      destruct (booked_row _ _ _ _ _ _ _ _ id Hp Hb) as (i & q0 & n & ids & _ & _ & _ & _ & _ & Hg & Hc); [by eexists|]. eexists. split; [exact Hg|].
      rewrite Hw in Hc. injection Hc as ->. symmetry. by apply row_of_settings.
  - apply (buffers_settings (input_batch r2)); [by apply Hsame|apply Hp].
  - rewrite E3, Hmax. apply Hr.
  - rewrite E2. apply Hr.
Qed.

(** The drafts of all requests. *)
Lemma step_drafts r out pi r2 v valid b' reqs p :
  ready r -> step_ok r out -> prepared r out pi r2 -> booked r2 out v valid b' reqs -> drafter r = Some p ->
  exists l, propose_ngram_draft_token_ids (runner_with r2 b' reqs) p 0 valid = Done (Ok l) /\
    forall i ids id q, valid !! i = Some ids -> _req_ids b' !! i = Some (Some id) -> contents b' !! id = Some (row_of (input_batch r) q) ->
      l !! i = Some (next_drafts (input_batch r) p q ids).
Proof.
  intros Hr Hok Hp Hb Hd. destruct (booked_ready _ _ _ _ _ _ _ _ Hr Hok Hp Hb) as [Hr' Hset].
  assert (Hrow : forall q, row_of b' q = row_of (input_batch r) q) by (intros q; by apply row_of_settings).
  destruct (propose_all_ok (runner_with r2 b' reqs) p valid) with (i := 0%nat) as (l & Hl & _ & Hall); [apply Hr'|apply Hr'| | |].
  - by apply (rd_drafter _ Hr).
  - intros j Hj. pose proof Hb as [[_ Hsame] Hlen _ _]. destruct (lookup_lt_is_Some_2 (_req_ids (input_batch r2)) j) as [o Ho]; [lia|].
    destruct (pr_ids _ _ _ _ Hp j o Ho) as (id & q & n & -> & Hreq & _). assert (Hc : is_Some (contents (input_batch r2) !! id)) by (apply row_at; [apply Hp|by exists j]).
    destruct (booked_row _ _ _ _ _ _ _ _ id Hp Hb Hc) as (i & q0 & n0 & ids & _ & _ & _ & _ & _ & _ & Hc'). exists id, (grow q0 (kept q0 n0 ids)). cbn.
    split; [by rewrite (sb_ids _ _ Hsame)|]. by rewrite Hc', Hrow.
  - exists l. split; [done|]. intros i ids id q Hi Hid Hc. cbn in Hall. rewrite <-Hrow in Hc. rewrite (Hall i ids id q Hi Hid Hc). f_equal. unfold next_drafts. rewrite Hrow.
    by destruct (settings_limits _ _ Hset) as (_ & -> & _).
Qed.

(** The output of the step. *)
Definition step_output (b' : InputBatch) (valid : list (list Z)) (spec : option (list (list Z))) : ModelRunnerOutput :=
  {| SchedulerTypes.req_id_to_index := req_id_to_index b'; sampled_token_ids := valid; runner_spec_token_ids := spec; pooler_output := [];
     prompt_logprobs_of := ∅; kv_connector_output := None |}.

Lemma output_executed r out pi r2 valid b' reqs spec :
  ready r -> step_ok r out -> sampler_ok (vocab_size (input_batch r)) -> prepared r out pi r2 ->
  booked r2 out (valid_sampled (sample pi (sampling_metadata (input_batch r2))) (vocab_size (input_batch r2))) valid b' reqs ->
  match drafter r with
  | None => spec = None
  | Some p => exists l, spec = Some l /\ forall i ids id q, valid !! i = Some ids -> _req_ids b' !! i = Some (Some id) ->
      contents b' !! id = Some (row_of (input_batch r) q) -> l !! i = Some (next_drafts (input_batch r) p q ids)
  end ->
  executed r out (step_output b' valid spec) (runner_with r2 b' reqs).
Proof.
  intros Hr Hok Hs Hp Hb Hd. destruct (booked_ready _ _ _ _ _ _ _ _ Hr Hok Hp Hb) as [Hr' Hset]. pose proof Hb as [[Hst Hsame] Hlen Hrows Hother].
  destruct (pr_inputs _ _ _ _ Hp) as (L1 & L2 & Hcount). split; cbn; try done.
  - intros id. rewrite (sb_index _ _ Hsame), <-(pr_scheduled _ _ _ _ Hp), contents_lookup. by rewrite fmap_is_Some.
  - congruence.
  - intros id q n Hq Hn. destruct (pr_rows _ _ _ _ Hp id q n Hq Hn) as [Hc2 Hq2].
    destruct (booked_row _ _ _ _ _ _ _ _ id Hp Hb) as (i & q' & n' & ids & (Hi & Hq' & Hn') & _ & Hf & Hv & Hval & Hg & Hc); [by eexists|].
    assert (q' = q) as -> by congruence. assert (n' = n) as -> by congruence. exists i, (kept q n ids). cbn.
    split; [rewrite (sb_index _ _ Hsame); by apply (ri_index _ _ (st_ok _ (pr_batch _ _ _ _ Hp)))|]. split; [done|].
    destruct (Hs pi _ (pr_wf _ _ _ _ Hp) (prepared_metadata _ _ _ _ Hok Hp)) as [_ S2]. destruct (settings_limits _ _ (pr_settings _ _ _ _ Hp)) as (_ & _ & Hvoc & _). rewrite <-Hvoc in S2. pose proof (S2 i ids Hv) as Hl. rewrite (Hcount i id Hi) in Hl.
    split; [|split; [|split; [done|split; [done|]]]].
    + unfold kept. destruct (is_partial q n); [done|]. split; [intros ->; cbn in Hl; lia|done].
    + unfold kept. destruct (is_partial q n); cbn; lia.
    + destruct (drafter r) as [p|]; [|done]. destruct Hd as (l & -> & Hl'). exists l. split; [done|]. apply (Hl' i _ id); [done|by rewrite (sb_ids _ _ Hsame)|done].
  - intros id Hf Hn. destruct (Hother id) as [-> _]; [|by apply (pr_finished _ _ _ _ Hp)]. apply eq_None_not_Some. by rewrite (pr_scheduled _ _ _ _ Hp).
  - intros id Hf Hn. destruct (Hother id) as [-> _]; [|by apply (pr_other _ _ _ _ Hp)]. apply eq_None_not_Some. by rewrite (pr_scheduled _ _ _ _ Hp).
Qed.

Lemma total_positive r out : ready r -> step_ok r out -> total_num_scheduled_tokens out =? 0 = false.
Proof.
  intros Hr Hok. apply Z.eqb_neq. rewrite (so_total _ _ Hok). destruct (update_states_spec pooling_update r out (rd_ok _ Hr) (so_update _ _ Hok)) as (r1 & _ & Hu).
  assert (Hall : forall e, e ∈ num_scheduled_tokens out -> 1 <= e.2).
  { intros [id n] Hin. destruct (stepped_some r out r1 id Hok Hu) as (q & n' & _ & _ & Hn & [F1 _ _ _ _ _ _]); [apply list_elem_of_fmap; by exists (id, n)|].
    rewrite (SchedulerSpec.dict_in_get _ id n) in Hn; [|apply (of_nodup _ _ _ (so_update _ _ Hok))|done]. injection Hn as <-. cbn. lia. }
  pose proof (so_some _ _ Hok) as Hne. destruct (num_scheduled_tokens out) as [|e l]; [done|]. cbn. pose proof (Hall e ltac:(left)).
  assert (0 <= zsum (map snd l)); [|lia]. apply zsum_nonneg, Forall_fmap, Forall_forall. intros x Hx. pose proof (Hall x ltac:(by right)). cbn. lia.
Qed.

Lemma execute_model_spec r out :
  ready r -> step_ok r out -> sampler_ok (vocab_size (input_batch r)) ->
  exists o r', execute_model pooling_update sample r out = Done (Ok (RunnerOutput o, r')) /\ executed r out o r'.
Proof.
  intros Hr Hok Hs. destruct (step_prepared r out Hr Hok) as (r1 & pi & r2 & H1 & H2 & Hp).
  destruct (prepared_sets _ _ _ _ Hp) as [Hpool _]. destruct (pr_same _ _ _ _ Hp) as (E1 & E2 & _).
  destruct (step_booked r out pi r2 Hok Hr Hs Hp) as (valid & b' & reqs & H3 & Hb).
  unfold execute_model. rewrite H1, (total_positive r out) by done. rewrite H2, E1, (ru_last _ (rd_ok _ Hr)). cbn [negb]. rewrite Hpool, bool_decide_true by done. cbn [negb]. rewrite H3.
  change (drafter (runner_with r2 b' reqs)) with (drafter r2). rewrite E2. destruct (drafter r) as [p|] eqn:Ed.
  - destruct (step_drafts r out pi r2 _ valid b' reqs p Hr Hok Hp Hb Ed) as (l & -> & Hl). do 2 eexists. split; [reflexivity|].
    apply (output_executed r out pi r2 valid b' reqs (Some l)); try done. rewrite Ed. by exists l.
  - do 2 eexists. split; [reflexivity|]. apply (output_executed r out pi r2 valid b' reqs None); try done. by rewrite Ed.
Qed.
End execute.
