(* ===== verification/RunnerServe.v ===== *)
(** * The life of the runner

    Steps that fit, in any number and order, starting from the runner that
    [__init__] makes: none of them raises, and each answers for exactly the
    scheduled requests.  The answers are what [update_from_output] of the
    scheduler relies on. *)

From stdpp Require Import base functions gmap strings list fin_sets relations.
From Stdlib Require Import ZArith QArith Lia.
From S2P Require SchedulerSpec Scheduler.
From S2P Require Import Prelude BlockTable Request SchedulerTypes LogitsProcessors InputBatch InputBatchOk BatchMoves NgramProposer ModelRunner.
From S2P Require Import RunnerUpdate RunnerAdvance RunnerOk RunnerInputs RunnerSpec RunnerInputsOk RunnerExecute RunnerBooks RunnerExecuteOk.
From S2P Require SchedulerUpdateOk.
Open Scope list_scope.
Open Scope Z_scope.

(** ** The start *)

Lemma make_input_batch_steady n l k v bs sd : steady (make_input_batch n l k v bs sd).
Proof.
  split; [|by left|done|apply make_input_batch_metadata]. split; cbn; try done.
  - intros i. split; [by intros ?%elem_of_nil|done].
  - lia.
  - split; [apply NoDup_nil_2|constructor].
  - intros i. rewrite !lookup_empty. by intros [[? ?]|[? ?]].
  - split; [intros i; apply repeat_length|intros; cbn; lia|]. apply Forall_fmap, Forall_forall. intros b _ i. cbn. rewrite repeat_length. lia.
Qed.
Lemma make_runner_ready n l k v bs threshold d :
  (forall p, d = Some p -> 0 < min_n p <= max_n p) -> ready k (make_runner n l k v bs threshold true d).
Proof.
  intros Hd. split; [| |done|exact Hd].
  - split; [apply make_input_batch_steady|done|by intros id q|]. intros id w H. by rewrite contents_lookup in H.
  - split; cbn; rewrite ?repeat_length, ?Nat.add_1_r; try done.
    + eexists. split; [reflexivity|]. lia.
    + apply Forall_fmap, Forall_forall. intros b _. cbn. by rewrite !repeat_length.
Qed.

Section serve.
Context (pooling_update : string -> option bool) (sample : PreparedInputs -> SamplingMetadata -> list (list Z)) (T : nat).
Notation execute := (execute_model pooling_update sample).
Notation step_ok := (step_ok pooling_update T).
Notation executed := (executed pooling_update T).
Notation ready := (ready T).

(** ** Steps without requests *)

Record idle (r : Runner) (out : SchedulerOutput) : Prop := {
  id_update : output_fits pooling_update r out;
  id_none : num_scheduled_tokens out = [];
  id_total : total_num_scheduled_tokens out = 0 }.
Lemma idle_step r out :
  ready r -> idle r out ->
  exists r', execute r out = Done (Ok (RunnerOutput EMPTY_MODEL_RUNNER_OUTPUT, r')) /\ ready r' /\ settings (input_batch r') = settings (input_batch r) /\
    contents (input_batch r') = ∅ /\
    forall id, cached_requests r' !! id = if decide (id ∈ out_finished_req_ids out) then None else cached_requests r !! id.
Proof.
  intros Hr [Hfit Hn Ht]. destruct (update_states_spec pooling_update r out (rd_ok _ _ Hr) Hfit) as (r' & H1 & Hu). exists r'.
  unfold execute_model. rewrite H1, Ht. cbn [Z.eqb]. split; [done|].
  assert (Hno : forall id, id ∉ map fst (num_scheduled_tokens out)) by (intros id; rewrite Hn; apply not_elem_of_nil).
  assert (Hc : contents (input_batch r') = ∅).
  { apply map_empty. intros id. rewrite (su_rows _ _ _ _ Hu). destruct (dict_get _ id) eqn:E; [|done]. exfalso. apply (Hno id), scheduled_iff. by eexists. }
  assert (Hq : forall id, cached_requests r' !! id = if decide (id ∈ out_finished_req_ids out) then None else cached_requests r !! id).
  { intros id. destruct (decide (id ∈ out_finished_req_ids out)); [by apply (su_finished _ _ _ _ Hu)|by apply (su_other _ _ _ _ Hu)]. }
  destruct (su_same _ _ _ _ Hu) as [enc E]. pose proof (su_settings _ _ _ _ Hu) as Hset. split; [|by repeat split]. split.
  - split; [apply Hu|rewrite E; apply (rd_ok _ _ Hr)| |by rewrite Hc]. intros id q. rewrite Hq. destruct (decide _); [done|]. apply (rd_ok _ _ Hr).
  - assert (buffers r' = buffers r) as -> by (by rewrite E). by apply (buffers_settings (input_batch r)), Hr.
  - destruct (settings_limits _ _ Hset) as (_ & -> & _). rewrite <-(rd_len _ _ Hr). by rewrite E.
  - intros p Hp. apply (rd_drafter _ _ Hr). by rewrite E in Hp.
Qed.

(** ** Any number of steps *)

Inductive runner_step (r r' : Runner) : Prop :=
| step_tokens out o : step_ok r out -> execute r out = Done (Ok (RunnerOutput o, r')) -> runner_step r r'
| step_idle out o : idle r out -> execute r out = Done (Ok (o, r')) -> runner_step r r'.

Lemma runner_steps_ready v r r' : rtc runner_step r r' -> ready r -> vocab_size (input_batch r) = v -> sampler_ok sample v ->
  ready r' /\ vocab_size (input_batch r') = v.
Proof.
  intros Hs Hr Hv Hsample. induction Hs as [r|r r1 r2 Hstep _ IH]; [done|]. destruct Hstep as [out o Hok He|out o Hok He].
  - destruct (execute_model_spec pooling_update sample T r out Hr Hok) as (o' & r1' & He' & Hex); [by rewrite Hv|]. rewrite He in He'. injection He' as <- <-.
    apply IH; [apply Hex|]. destruct (settings_limits _ _ (ex_settings _ _ _ _ _ _ Hex)) as (_ & _ & -> & _). done.
  - destruct (idle_step r out Hr Hok) as (r1' & He' & Hr1 & Hset & _). rewrite He in He'. injection He' as _ <-.
    apply IH; [done|]. by destruct (settings_limits _ _ Hset) as (_ & _ & -> & _).
Qed.

(** C3. The runner of [__init__] (on the last pipeline stage) never raises and never
    loops: after any number of steps that fit it, [execute_model] answers the next
    fitting step.  The answer has a row for exactly the scheduled requests; a request
    gets tokens unless the step computed only a part of its prompt, at most one more
    than its drafts; its state grows by them and its row in the persistent batch shows
    that state; and its drafts for the next step are those of the n-gram search. *)
Theorem runner_serves n l v bs threshold d r out :
  (forall p, d = Some p -> 0 < min_n p <= max_n p) -> sampler_ok sample v ->
  rtc runner_step (make_runner n l T v bs threshold true d) r -> step_ok r out ->
  exists o r', execute r out = Done (Ok (RunnerOutput o, r')) /\ executed r out o r'.
Proof.
  intros Hd Hs Hr Hok. destruct (runner_steps_ready v _ _ Hr (make_runner_ready n l T v bs threshold d Hd) eq_refl Hs) as [Hready Hv].
  apply execute_model_spec; [done|done|by rewrite Hv].
Qed.

(** ** What the scheduler relies on *)

(** Scheduler and runner agree on a scheduled request: the tokens, and the progress
    before the step, whose drafts are its last tokens. *)
Record agrees_on {K C} (s : Scheduler K C) (r : Runner) (out : SchedulerOutput) (id : string) (n : Z) (q : CachedRequestState) : Prop := {
  ag_state : stepped pooling_update r out id q;
  ag_running : id ∈ running s;
  ag_request x : objs s !! id = Some x -> num_tokens x = Z.of_nat (cr_num_tokens q) /\ num_computed_tokens x = cr_num_computed_tokens q + n;
  ag_drafts : drafts_of out id <> [] -> cr_num_computed_tokens q + n = Z.of_nat (cr_num_tokens q + length (drafts_of out id)) }.

Lemma agreed_result {K C} (s : Scheduler K C) r out o r' :
  ready r -> step_ok r out -> executed r out o r' ->
  (forall id n, (id, n) ∈ num_scheduled_tokens out -> id ∈ requests s -> exists q, agrees_on s r out id n q) ->
  SchedulerUpdateOk.result_fits s out o.
Proof.
  intros Hr Hok Hex Hag. destruct (ex_rest _ _ _ _ _ _ Hex) as (Hpool & Hpl & Hkv). pose proof (of_nodup _ _ _ (so_update _ _ _ _ Hok)) as Hnd. split; [done| |done|done].
  intros id n Hin. assert (Hn : dict_get (num_scheduled_tokens out) id = Some n) by (by apply SchedulerSpec.dict_in_get).
  destruct (update_states_spec pooling_update r out (rd_ok _ _ Hr) (so_update _ _ _ _ Hok)) as (r1 & _ & Hu).
  destruct (stepped_some pooling_update T r out r1 id Hok Hu) as (q0 & n0 & Hq0 & Hc0 & Hn0 & Hf0); [apply list_elem_of_fmap; by exists (id, n)|].
  assert (n0 = n) as -> by congruence. split; [pose proof (sf_some _ _ _ _ Hf0); lia|]. intros Hreq. destruct (Hag id n Hin Hreq) as (q & [A1 A2 A3 A4]). split; [done|].
  assert (q0 = q) as -> by (rewrite (stepped_now _ _ _ _ _ _ Hu A1) in Hc0; congruence).
  destruct (ex_rows _ _ _ _ _ _ Hex id q n A1 Hn) as (i & g & Hi & Hg & Hpart & Hlen & _ & _ & Hspec). exists i, g. split; [done|]. split.
  { unfold SchedulerUpdateOk.sampled_for. destruct (sampled_token_ids o); [done|]. by rewrite Hg. }
  split; [|split; [intros _; rewrite Hpl; apply not_elem_of_empty|]].
  { intros l' Hl'. destruct (drafter r); [|congruence]. destruct Hspec as (l & El & Hli). rewrite El in Hl'. injection Hl' as <-. by rewrite Hli. }
  intros x Hx. destruct (A3 x Hx) as [E1 E2]. pose proof (sf_tokens _ _ _ _ Hf0) as F3. pose proof (sf_drafts _ _ _ _ Hf0) as F4. unfold SchedulerUpdateOk.fits, SchedulerUpdateOk.rejected.
  revert F3 F4 A4 Hlen. unfold drafts_of. destruct (dict_get (scheduled_spec_decode_tokens out) id) as [[|y l]|]; cbn [default from_option Datatypes.id length]; intros F3 F4 A4 Hlen; [split; [lia|done]| |split; [lia|done]].
  specialize (A4 ltac:(done)). specialize (F4 ltac:(done)). assert (Hg1 : (1 <= length g)%nat).
  { destruct g; [|cbn; lia]. exfalso. assert (is_partial q n = true) by (by apply Hpart). congruence. }
  cbn [length] in *. split; [|split]; lia.
Qed.

(** C4. The answer of the runner is one that [update_from_output] of the scheduler
    relies on ([result_fits]): wherever scheduler and runner agree on the scheduled
    requests, each has an answer with at least one token where it is due, never more
    than the drafts allow, and no answer moves the scheduler's progress past the
    tokens that it will have. *)
Theorem runner_answers_scheduler {K C} (s : Scheduler K C) r out :
  ready r -> step_ok r out -> sampler_ok sample (vocab_size (input_batch r)) ->
  (forall id n, (id, n) ∈ num_scheduled_tokens out -> id ∈ requests s -> exists q, agrees_on s r out id n q) ->
  exists o r', execute r out = Done (Ok (RunnerOutput o, r')) /\ SchedulerUpdateOk.result_fits s out o.
Proof.
  intros Hr Hok Hs Hag. destruct (execute_model_spec pooling_update sample T r out Hr Hok Hs) as (o & r' & He & Hex). exists o, r'. split; [done|]. by eapply agreed_result.
Qed.
End serve.
