(* ===== verification/RejectionSampler.v ===== *)
(** * The rejection sampler of speculative decoding

    [vllm/v1/sample/rejection_sampler.py]: the kernels that verify the drafts of
    every request against the target model.  A program of a kernel writes the row
    of its request; loads are within the arrays.  Probabilities are rationals, and
    the random numbers are arguments. *)

From stdpp Require Import base functions list list_numbers.
From Stdlib Require Import ZArith QArith Lia.
From S2P Require Import Prelude BlockTable InputBatch RunnerInputs RunnerSpec RunnerExecute.
Open Scope list_scope.
Open Scope Z_scope.

(** [MAX_SPEC_LEN] *)
Definition MAX_SPEC_LEN : nat := 32.
Definition load {A} (d : A) (l : list A) (i : nat) : A := nth i l d.

(** ** The kernels *)

(** [start_idx] and [num_draft_tokens] of a program *)
Definition start_idx (cu_num_draft_tokens : list Z) (req_idx : nat) : nat :=
  match req_idx with O => 0%nat | S i => Z.to_nat (load 0 cu_num_draft_tokens i) end.
Definition program_drafts (cu_num_draft_tokens : list Z) (req_idx : nat) : nat :=
  (Z.to_nat (load 0%Z cu_num_draft_tokens req_idx) - start_idx cu_num_draft_tokens req_idx)%nat.

(** The loop of both kernels: [choose pos] is the token to store and whether the
    draft was rejected. *)
Fixpoint verify_loop (choose : nat -> Z * bool) (n pos : nat) (rejected : bool) (row : list Z) : bool * list Z :=
  match n with
  | O => (rejected, row)
  | S n =>
      if rejected then verify_loop choose n (S pos) rejected row
      else let '(token_id, rejected) := choose pos in verify_loop choose n (S pos) rejected (<[pos := token_id]> row)
  end.
Definition verify (choose : nat -> Z * bool) (num_draft_tokens : nat) (bonus_token_id : Z) (row : list Z) : list Z :=
  let '(rejected, row) := verify_loop choose num_draft_tokens 0 false row in
  if rejected then row else <[num_draft_tokens := bonus_token_id]> row.

Definition rejection_greedy_sample_kernel (cu_num_draft_tokens draft_token_ids target_argmax bonus_token_ids : list Z) (is_greedy : nat -> bool)
    (req_idx : nat) (row : list Z) : list Z :=
  if negb (is_greedy req_idx) then row
  else
    let start := start_idx cu_num_draft_tokens req_idx in
    let choose pos :=
      let draft_token_id := load 0 draft_token_ids (start + pos) in
      let target_argmax_id := load 0 target_argmax (start + pos) in
      (target_argmax_id, negb (draft_token_id =? target_argmax_id)) in
    verify choose (program_drafts cu_num_draft_tokens req_idx) (load 0 bonus_token_ids req_idx) row.

(** [draft_probs] is [None] for the n-gram drafter. *)
Definition rejection_random_sample_kernel (cu_num_draft_tokens draft_token_ids : list Z) (draft_probs : option (nat -> Z -> Q))
    (target_probs : nat -> Z -> Q) (bonus_token_ids recovered_token_ids : list Z) (uniform_probs : list Q) (is_greedy : nat -> bool)
    (req_idx : nat) (row : list Z) : list Z :=
  if is_greedy req_idx then row
  else
    let start := start_idx cu_num_draft_tokens req_idx in
    let choose pos :=
      let draft_token_id := load 0 draft_token_ids (start + pos) in
      let draft_prob := match draft_probs with None => 1%Q | Some p => p (start + pos)%nat draft_token_id end in
      let target_prob := target_probs (start + pos)%nat draft_token_id in
      if negb (Qle_bool draft_prob 0) && Qle_bool (load 1%Q uniform_probs (start + pos)) (target_prob / draft_prob)
      then (draft_token_id, false)
      else (load 0 recovered_token_ids (start + pos), true) in
    verify choose (program_drafts cu_num_draft_tokens req_idx) (load 0 bonus_token_ids req_idx) row.

(** [tl.argmax]: the first place of the maximum. *)
Fixpoint argmax_from (best : Q) (at_best i : nat) (l : list Q) : nat :=
  match l with
  | [] => at_best
  | x :: l => if Qle_bool x best then argmax_from best at_best (S i) l else argmax_from x i (S i) l
  end.
Definition argmax (l : list Q) : nat := match l with [] => 0%nat | x :: l => argmax_from x 0 1 l end.
(** [sample_recovered_tokens_kernel] for one draft; [q] are the exponential random
    numbers of the request, and the vocabulary is padded with zeros. *)
Definition recovered_token (draft_prob : option (Z -> Q)) (target_prob : Z -> Q) (q : Z -> Q) (vocab_size padded : nat) (draft_token_id : Z) : Z :=
  let prob t := match draft_prob with
                | None => if t =? draft_token_id then 0%Q else target_prob t
                | Some p => if Qle_bool 0 (target_prob t - p t) then (target_prob t - p t)%Q else 0%Q
                end in
  Z.of_nat (argmax (map (fun t => (prob (Z.of_nat t) / q (Z.of_nat t))%Q) (seq 0 vocab_size) ++ repeat 0%Q (padded - vocab_size))).

(** [expand_batch_to_tokens]: [init] is what the new tensor holds. *)
Definition expand_kernel {A} (replace : A -> A) (input : list A) (cu_num_tokens : list Z) (d : A) (output : list A) (req_idx : nat) : list A :=
  let start := start_idx cu_num_tokens req_idx in
  let num_tokens := program_drafts cu_num_tokens req_idx in
  let src_val := replace (load d input req_idx) in
  foldl (fun out offset => if (offset <? num_tokens)%nat then <[(start + offset)%nat := src_val]> out else out) output (seq 0 MAX_SPEC_LEN).
Definition expand_batch_to_tokens {A} (replace : A -> A) (x : list A) (cu_num_tokens : list Z) (d : A) (init : list A) : list A :=
  foldl (expand_kernel replace x cu_num_tokens d) init (seq 0 (length x)).

(** [is_greedy]: no tensor when all requests are. *)
Definition request_is_greedy (all_greedy : bool) (temperature : list Q) (i : nat) : bool :=
  if all_greedy then true else Qeq_bool (load 0%Q temperature i) (-1).
(** [rejection_sample]; [max_spec_len] is the largest number of drafts. *)
Definition rejection_sample (md : SpecDecodeMetadata) (all_greedy all_random : bool) (temperature : list Q) (draft_probs : option (nat -> Z -> Q))
    (target_probs : nat -> Z -> Q) (target_argmax bonus_token_ids recovered_token_ids : list Z) (uniform_probs : list Q) : list (list Z) :=
  let max_spec_len := Z.to_nat (zmax_list 0 (num_draft_tokens md)) in
  let output_token_ids := repeat (repeat PLACEHOLDER_TOKEN_ID (max_spec_len + 1)) (length (num_draft_tokens md)) in
  let is_greedy := request_is_greedy all_greedy temperature in
  let greedy := imap (rejection_greedy_sample_kernel (cu_num_draft_tokens md) (draft_token_ids md) target_argmax bonus_token_ids is_greedy) in
  let random := imap (rejection_random_sample_kernel (cu_num_draft_tokens md) (draft_token_ids md) draft_probs target_probs bonus_token_ids
                        recovered_token_ids uniform_probs is_greedy) in
  if negb all_random then
    let output_token_ids := greedy output_token_ids in
    if all_greedy then output_token_ids else random output_token_ids
  else random output_token_ids.

(** ** The rows that the kernels write *)

(** The tokens up to the first rejection, or all of them and the bonus token. *)
Fixpoint verified (choose : nat -> Z * bool) (n pos : nat) (bonus : Z) : list Z :=
  match n with
  | O => [bonus]
  | S n => let '(t, rejected) := choose pos in if rejected then [t] else t :: verified choose n (S pos) bonus
  end.
Lemma length_verified choose n : forall pos bonus, (1 <= length (verified choose n pos bonus) <= S n)%nat.
Proof. induction n as [|n IH]; intros pos bonus; cbn; [lia|]. destruct (choose pos) as [t []]; cbn; [lia|]. specialize (IH (S pos) bonus). lia. Qed.
Lemma verify_rejected choose n : forall pos row, verify_loop choose n pos true row = (true, row).
Proof. induction n as [|n IH]; intros; cbn; [done|]. apply IH. Qed.

Lemma verify_loop_ok choose bonus n : forall pre row, (n < length row)%nat ->
  (let '(rejected, out) := verify_loop choose n (length pre) false (pre ++ row) in if rejected then out else <[(length pre + n)%nat := bonus]> out) =
  pre ++ verified choose n (length pre) bonus ++ drop (length (verified choose n (length pre) bonus)) row.
Proof.
  induction n as [|n IH]; intros pre row Hn; destruct row as [|x row]; cbn [length] in Hn; try lia; cbn [verify_loop verified].
  - rewrite Nat.add_0_r. rewrite (insert_app_r_alt _ _ (length pre)), Nat.sub_diag by lia. done.
  - destruct (choose (length pre)) as [t rejected]. rewrite (insert_app_r_alt _ _ (length pre)), Nat.sub_diag by lia. cbn [insert list_insert].
    replace (pre ++ t :: row) with ((pre ++ [t]) ++ row) by (by rewrite <-app_assoc). destruct rejected.
    + rewrite verify_rejected. by rewrite <-app_assoc.
    + specialize (IH (pre ++ [t]) row ltac:(lia)). rewrite length_app, Nat.add_1_r in IH. rewrite <-Nat.add_succ_comm, IH, <-app_assoc. done.
Qed.
Lemma drop_repeated {A} (x : A) n k : drop k (repeat x n) = repeat x (n - k).
Proof. revert k. induction n as [|n IH]; intros [|k]; cbn; [done|done|done|apply IH]. Qed.
Lemma verify_ok choose n bonus m :
  (n <= m)%nat -> let out := verified choose n 0 bonus in
  verify choose n bonus (repeat PLACEHOLDER_TOKEN_ID (m + 1)) = out ++ repeat PLACEHOLDER_TOKEN_ID (m + 1 - length out).
Proof.
  intros Hn out. unfold verify. pose proof (verify_loop_ok choose bonus n [] (repeat PLACEHOLDER_TOKEN_ID (m + 1))) as H. cbn [length app Nat.add] in H.
  rewrite H by (rewrite repeat_length; lia). fold out. f_equal. apply drop_repeated.
Qed.

(** The tokens are ids of the vocabulary. *)
Definition in_vocab (vocab : nat) (t : Z) : Prop := 0 <= t < Z.of_nat vocab.
Lemma parse_row vocab out n :
  Forall (in_vocab vocab) out ->
  List.filter (fun t => negb (t =? PLACEHOLDER_TOKEN_ID) && (t <? Z.of_nat vocab)) (out ++ repeat PLACEHOLDER_TOKEN_ID n) = out.
Proof.
  intros Hout. rewrite List.filter_app. assert (H1 : List.filter (fun t => negb (t =? PLACEHOLDER_TOKEN_ID) && (t <? Z.of_nat vocab)) out = out).
  { induction Hout as [|t out Ht _ IH]; [done|]. cbn. unfold in_vocab, PLACEHOLDER_TOKEN_ID in *. destruct (Z.eqb_spec t (-1)), (Z.ltb_spec t (Z.of_nat vocab)); try lia. cbn. by rewrite IH. }
  rewrite H1. induction n as [|n IH]; cbn; [by rewrite app_nil_r|exact IH].
Qed.

(** ** The arrays of a batch *)

Section batch.
Context {X : Type} (f : X -> list Z).
Definition lengths (l : list X) : list Z := map (fun x => Z.of_nat (length (f x))) l.

Lemma load_cumsum l : forall acc i, (i < length l)%nat -> load 0 (cumsum_from acc l) i = acc + zsum (take (S i) l).
Proof.
  induction l as [|x l IH]; intros acc i Hi; cbn [length] in Hi; [lia|]. destruct i as [|i]; [cbn; destruct l; cbn; lia|].
  change (load 0 (cumsum_from (acc + x) l) i = acc + (x + zsum (take (S i) l))). rewrite IH by lia. lia.
Qed.
Lemma zsum_lengths l : zsum (lengths l) = Z.of_nat (length (flat_map f l)).
Proof. unfold lengths. induction l as [|x l IH]; cbn; [done|]. rewrite IH, length_app. lia. Qed.
Lemma length_lengths l : length (lengths l) = length l.
Proof. apply length_map. Qed.
Lemma take_lengths l i : take i (lengths l) = lengths (take i l).
Proof. unfold lengths. change (map ?g l) with (g <$> l). by rewrite <-fmap_take. Qed.

Lemma start_idx_batch l i : (i < length l)%nat -> start_idx (np_cumsum (lengths l)) i = length (flat_map f (take i l)).
Proof.
  intros Hi. destruct i as [|i]; cbn [start_idx]; [done|]. unfold np_cumsum. rewrite load_cumsum by (unfold lengths; rewrite length_map; lia).
  rewrite take_lengths, zsum_lengths. lia.
Qed.
Lemma program_drafts_batch l i x : l !! i = Some x -> program_drafts (np_cumsum (lengths l)) i = length (f x).
Proof.
  intros Hx. pose proof (lookup_lt_Some _ _ _ Hx) as Hi. unfold program_drafts. rewrite start_idx_batch by done. unfold np_cumsum.
  rewrite load_cumsum by (unfold lengths; by rewrite length_map). rewrite take_lengths, zsum_lengths, (take_S_r _ _ _ Hx), flat_map_app, length_app. cbn. rewrite app_nil_r. lia.
Qed.
(** A load from the concatenation of [g], as long as [f]. *)
Lemma load_batch {A} (d : A) (g : X -> list A) l i x j y :
  (forall z, length (g z) = length (f z)) -> l !! i = Some x -> g x !! j = Some y ->
  load d (flat_map g l) (start_idx (np_cumsum (lengths l)) i + j) = y.
Proof.
  intros Hg Hx Hy. pose proof (lookup_lt_Some _ _ _ Hx) as Hi. rewrite start_idx_batch by done. unfold load.
  assert (Hl : length (flat_map f (take i l)) = length (flat_map g (take i l))) by (apply flat_length; intros z _; by rewrite Hg). rewrite Hl.
  rewrite <-(take_drop_middle _ _ _ Hx) at 2. rewrite flat_map_app. cbn [flat_map]. rewrite app_nth2_plus.
  rewrite app_nth1 by (by eapply lookup_lt_Some). by apply nth_lookup_Some.
Qed.
End batch.

(** ** Greedy requests *)

Section greedy.
(** The target model with greedy sampling: the next token of a sequence. *)
Context (next : list Z -> Z) (vocab : nat) (next_vocab : forall l, in_vocab vocab (next l)).

(** [n] tokens one after another. *)
Fixpoint generate (ctx : list Z) (n : nat) : list Z :=
  match n with
  | O => []
  | S n => next ctx :: generate (ctx ++ [next ctx]) n
  end.
(** The number of drafts that the model would have generated. *)
Fixpoint accepted (ctx drafts : list Z) : nat :=
  match drafts with
  | [] => 0%nat
  | x :: drafts => if x =? next ctx then S (accepted (ctx ++ [x]) drafts) else 0%nat
  end.
Lemma generate_vocab ctx n : Forall (in_vocab vocab) (generate ctx n).
Proof. revert ctx. induction n as [|n IH]; intros ctx; cbn; by constructor. Qed.
Lemma accepted_le ctx drafts : (accepted ctx drafts <= length drafts)%nat.
Proof. revert ctx. induction drafts as [|x l IH]; intros ctx; cbn; [lia|]. destruct (x =? next ctx); [|lia]. specialize (IH (ctx ++ [x])). lia. Qed.
Lemma length_generate ctx n : length (generate ctx n) = n.
Proof. revert ctx. induction n as [|n IH]; intros ctx; cbn; [done|by rewrite IH]. Qed.

Lemma verified_greedy choose bonus drafts : forall ctx pos,
  (forall j x, drafts !! j = Some x -> choose (pos + j)%nat = (next (ctx ++ take j drafts), negb (x =? next (ctx ++ take j drafts)))) ->
  bonus = next (ctx ++ drafts) ->
  verified choose (length drafts) pos bonus = generate ctx (S (accepted ctx drafts)).
Proof.
  induction drafts as [|x drafts IH]; intros ctx pos Hc Hb; cbn [length verified accepted].
  - rewrite app_nil_r in Hb. by rewrite Hb.
  - pose proof (Hc 0%nat x eq_refl) as H0. rewrite Nat.add_0_r in H0. cbn [take] in H0. rewrite app_nil_r in H0. rewrite H0.
    destruct (Z.eqb_spec x (next ctx)) as [->|Hne]; cbn [negb]; [|done]. cbn [generate]. f_equal. apply (IH (ctx ++ [next ctx])).
    + intros j y Hy. specialize (Hc (S j) y Hy). rewrite <-Nat.add_succ_comm in Hc. cbn [take] in Hc. by rewrite <-app_assoc.
    + by rewrite <-app_assoc.
Qed.

(** Requests with their sequences and drafts, and the arrays of the step. *)
Definition target_tokens (r : list Z * list Z) : list Z := map (fun j => next (r.1 ++ take j r.2)) (seq 0 (length r.2)).
Definition spec_arrays (reqs : list (list Z * list Z)) : SpecDecodeMetadata :=
  {| draft_token_ids := flat_map snd reqs; num_draft_tokens := lengths snd reqs; cu_num_draft_tokens := np_cumsum (lengths snd reqs);
     target_logits_indices := []; bonus_logits_indices := []; spec_logits_indices := [] |}.

Lemma greedy_row reqs i r m bonus is_greedy :
  reqs !! i = Some r -> is_greedy i = true -> (length r.2 <= m)%nat -> load 0 bonus i = next (r.1 ++ r.2) ->
  let out := generate r.1 (S (accepted r.1 r.2)) in
  rejection_greedy_sample_kernel (np_cumsum (lengths snd reqs)) (flat_map snd reqs) (flat_map target_tokens reqs) bonus is_greedy i
    (repeat PLACEHOLDER_TOKEN_ID (m + 1)) = out ++ repeat PLACEHOLDER_TOKEN_ID (m + 1 - length out).
Proof.
  intros Hr Hg Hm Hb. cbn zeta. unfold rejection_greedy_sample_kernel. rewrite Hg. cbn [negb]. rewrite (program_drafts_batch snd _ _ _ Hr), Hb.
  rewrite verify_ok by done. rewrite (verified_greedy _ _ r.2 r.1 0); [done| |done].
  intros j x Hj. cbn. assert (E : load 0 (flat_map target_tokens reqs) (start_idx (np_cumsum (lengths snd reqs)) i + j) = next (r.1 ++ take j r.2)).
  { apply (load_batch snd 0 target_tokens reqs i r); [intros z; unfold target_tokens; by rewrite length_map, length_seq|done|].
    unfold target_tokens. rewrite list_lookup_fmap, lookup_seq_lt by (by eapply lookup_lt_Some). done. }
  rewrite E, (load_batch snd 0 snd reqs i r j x) by done. done.
Qed.
End greedy.

Lemma imap_rows {X} (f : nat -> list Z -> list Z) (g : X -> list Z) (l : list X) row :
  (forall i x, l !! i = Some x -> f i row = g x) -> imap f (repeat row (length l)) = map g l.
Proof.
  intros H. apply list_eq. intros i. rewrite list_lookup_imap, list_lookup_fmap. destruct (l !! i) as [x|] eqn:E.
  - rewrite repeat_lookup by (by eapply lookup_lt_Some). cbn. by rewrite (H i x E).
  - apply lookup_ge_None in E. rewrite (lookup_ge_None_2 (repeat row _)) by (by rewrite repeat_length). done.
Qed.
Lemma max_drafts (reqs : list (list Z * list Z)) r : r ∈ reqs -> (length r.2 <= Z.to_nat (zmax_list 0 (lengths snd reqs)))%nat.
Proof.
  intros Hr. assert (Z.of_nat (length r.2) <= zmax_list 0 (lengths snd reqs)); [|lia]. apply zmax_list_ge. unfold lengths. apply list_elem_of_fmap. by exists r.
Qed.

(** C18. Speculative decoding does not change what greedy requests generate.  For any
    requests with any drafts, the rejection sampler gives to each exactly the tokens
    that the target model generates one after another behind its sequence: all drafts
    that the model would have generated, and one more.  ([next] is the greedy choice
    of the model; the logits for a draft are those behind the drafts before it.) *)
Theorem greedy_speculation_is_sequential next vocab reqs draft_probs target_probs recovered uniform temperature :
  (forall l, in_vocab vocab (next l)) ->
  parse_output (rejection_sample (spec_arrays reqs) true false temperature draft_probs target_probs (flat_map (target_tokens next) reqs)
                  (map (fun r => next (r.1 ++ r.2)) reqs) recovered uniform) (Z.of_nat vocab) =
  map (fun r => generate next r.1 (S (accepted next r.1 r.2))) reqs.
Proof.
  intros Hv. unfold rejection_sample, parse_output. cbn [negb spec_arrays num_draft_tokens cu_num_draft_tokens draft_token_ids].
  rewrite length_lengths. set (m := Z.to_nat _).
  rewrite (imap_rows _ (fun r => generate next r.1 (S (accepted next r.1 r.2)) ++
      repeat PLACEHOLDER_TOKEN_ID (m + 1 - length (generate next r.1 (S (accepted next r.1 r.2)))))).
  - rewrite map_map. apply map_ext. intros r. apply parse_row. by apply generate_vocab.
  - intros i r Hr. apply (greedy_row next reqs i r m); [done|done|by apply max_drafts, (list_elem_of_lookup_2 _ i)|].
    unfold load. by rewrite (nth_lookup_Some _ _ 0 (next (r.1 ++ r.2))) by (by rewrite list_lookup_fmap, Hr).
Qed.
(** A model that counts up modulo 5: two drafts are accepted, one and none. *)
Lemma greedy_speculation_is_sequential_witness :
  let next := fun l => (load 0 l (length l - 1) + 1) mod 5 in
  (forall l, in_vocab 5 (next l)) /\
  parse_output (rejection_sample (spec_arrays [([1], [2; 3]); ([3], [4; 4; 0]); ([4], [3]); ([2], [])]) true false [] None (fun _ _ => 0%Q)
    (flat_map (target_tokens next) [([1], [2; 3]); ([3], [4; 4; 0]); ([4], [3]); ([2], [])]) [4; 0; 4; 3] [] []) 5 = [[2; 3; 4]; [4; 0]; [0]; [3]].
Proof.
  cbn zeta. assert (H : forall l, in_vocab 5 ((load 0 l (length l - 1) + 1) mod 5)) by (intros l; apply Z.mod_pos_bound; lia). split; [exact H|].
  etransitivity; [|exact (eq_trans (greedy_speculation_is_sequential _ 5 [([1], [2; 3]); ([3], [4; 4; 0]); ([4], [3]); ([2], [])] None (fun _ _ => 0%Q) [] [] [] H) eq_refl)].
  vm_compute. reflexivity.
Defined.

(** ** All requests *)

Lemma load_vocab vocab l i : (0 < vocab)%nat -> Forall (in_vocab vocab) l -> in_vocab vocab (load 0 l i).
Proof.
  intros Hv Hl. unfold load. destruct (nth_in_or_default i l 0) as [Hin| ->]; [|unfold in_vocab; lia]. apply list_elem_of_In in Hin.
  rewrite Forall_forall in Hl. by apply Hl.
Qed.
Lemma verified_vocab vocab choose n : forall pos bonus,
  (forall k, in_vocab vocab (choose k).1) -> in_vocab vocab bonus -> Forall (in_vocab vocab) (verified choose n pos bonus).
Proof.
  induction n as [|n IH]; intros pos bonus Hc Hb; cbn; [by constructor|]. specialize (Hc pos) as H. destruct (choose pos) as [t []]; cbn in H; [by constructor|]. constructor; [done|]. by apply IH.
Qed.
Lemma counts_lengths l : Forall (fun n => 0 <= n) l -> lengths (fun n => repeat 0 (Z.to_nat n)) l = l.
Proof. induction 1 as [|n l Hn _ IH]; [done|]. unfold lengths in *. cbn. rewrite repeat_length, IH. f_equal. lia. Qed.
Lemma program_counts l i n : Forall (fun n => 0 <= n) l -> l !! i = Some n -> program_drafts (np_cumsum l) i = Z.to_nat n.
Proof.
  intros Hl Hi. rewrite <-(counts_lengths l Hl). rewrite (program_drafts_batch (fun n => repeat 0 (Z.to_nat n)) l i n Hi). apply repeat_length.
Qed.

Section rows.
Context (vocab : nat) (md : SpecDecodeMetadata) (all_greedy all_random : bool) (temperature : list Q) (target_probs : nat -> Z -> Q).
Context (target_argmax bonus recovered : list Z) (uniform : list Q).
Context (Hvocab : (0 < vocab)%nat) (Hcounts : Forall (fun n => 0 <= n) (num_draft_tokens md)) (Hcu : cu_num_draft_tokens md = np_cumsum (num_draft_tokens md)).
Context (Hargmax : Forall (in_vocab vocab) target_argmax) (Hbonus : Forall (in_vocab vocab) bonus) (Hrecovered : Forall (in_vocab vocab) recovered).
(** A token outside the vocabulary has no probability that reaches the random number. *)
Context (Haccept : forall i t, Qle_bool (load 1%Q uniform i) (target_probs i t / 1) = true -> in_vocab vocab t).
Context (Hgreedy : all_greedy = true -> all_random = false).
Context (Hrandom : all_greedy = false -> all_random = true -> forall i, (i < length (num_draft_tokens md))%nat -> Qeq_bool (load 0%Q temperature i) (-1) = false).

Let m := Z.to_nat (zmax_list 0 (num_draft_tokens md)).
(** The row of a request with [n] drafts: between one and [n + 1] tokens. *)
Definition sampled_row (n : nat) (row : list Z) : Prop :=
  exists out, row = out ++ repeat PLACEHOLDER_TOKEN_ID (m + 1 - length out) /\ Forall (in_vocab vocab) out /\ (1 <= length out <= S n)%nat.
Lemma verified_row i n choose : num_draft_tokens md !! i = Some n -> (forall k, in_vocab vocab (choose k).1) ->
  sampled_row (Z.to_nat n) (verify choose (program_drafts (cu_num_draft_tokens md) i) (load 0 bonus i) (repeat PLACEHOLDER_TOKEN_ID (m + 1))).
Proof.
  intros Hi Hc. rewrite Hcu, (program_counts _ _ _ Hcounts Hi). rewrite verify_ok.
  2:{ assert (n <= zmax_list 0 (num_draft_tokens md)) by (apply zmax_list_ge; by eapply list_elem_of_lookup_2). unfold m. lia. }
  eexists. split; [reflexivity|]. split; [|apply length_verified]. apply verified_vocab; [done|]. by apply load_vocab.
Qed.

Lemma greedy_sampled_row is_greedy i n : num_draft_tokens md !! i = Some n -> is_greedy i = true ->
  sampled_row (Z.to_nat n) (rejection_greedy_sample_kernel (cu_num_draft_tokens md) (draft_token_ids md) target_argmax bonus is_greedy i (repeat PLACEHOLDER_TOKEN_ID (m + 1))).
Proof.
  intros Hi Hg. unfold rejection_greedy_sample_kernel. rewrite Hg. cbn [negb]. apply verified_row; [done|]. intros k. by apply load_vocab.
Qed.
Lemma random_sampled_row is_greedy i n : num_draft_tokens md !! i = Some n -> is_greedy i = false ->
  sampled_row (Z.to_nat n) (rejection_random_sample_kernel (cu_num_draft_tokens md) (draft_token_ids md) None target_probs bonus recovered uniform is_greedy i
    (repeat PLACEHOLDER_TOKEN_ID (m + 1))).
Proof.
  intros Hi Hg. unfold rejection_random_sample_kernel. rewrite Hg. apply verified_row; [done|]. intros k.
  destruct (negb _ && _) eqn:E; [|by apply load_vocab]. apply andb_true_iff in E as [_ E]. by apply (Haccept _ _ E).
Qed.

Lemma rejection_rows i n :
  num_draft_tokens md !! i = Some n ->
  exists row, rejection_sample md all_greedy all_random temperature None target_probs target_argmax bonus recovered uniform !! i = Some row /\ sampled_row (Z.to_nat n) row.
Proof.
  intros Hi. pose proof (lookup_lt_Some _ _ _ Hi) as Hlt. unfold rejection_sample. fold m. cbn zeta. set (g := request_is_greedy all_greedy temperature).
  assert (H0 : repeat (repeat PLACEHOLDER_TOKEN_ID (m + 1)) (length (num_draft_tokens md)) !! i = Some (repeat PLACEHOLDER_TOKEN_ID (m + 1))) by (by apply repeat_lookup).
  destruct (g i) eqn:Eg.
  - assert (Er : all_random = false).
    { unfold g, request_is_greedy in Eg. destruct all_greedy; [by apply Hgreedy|]. destruct all_random; [|done]. by rewrite Hrandom in Eg. }
    rewrite Er. cbn [negb]. exists (rejection_greedy_sample_kernel (cu_num_draft_tokens md) (draft_token_ids md) target_argmax bonus g i (repeat PLACEHOLDER_TOKEN_ID (m + 1))).
    split; [|by apply greedy_sampled_row]. destruct all_greedy; rewrite !list_lookup_imap, H0; cbn; [done|]. unfold rejection_random_sample_kernel. by rewrite Eg.
  - assert (Ea : all_greedy = false) by (unfold g, request_is_greedy in Eg; by destruct all_greedy). rewrite Ea.
    exists (rejection_random_sample_kernel (cu_num_draft_tokens md) (draft_token_ids md) None target_probs bonus recovered uniform g i (repeat PLACEHOLDER_TOKEN_ID (m + 1))).
    split; [|by apply random_sampled_row]. destruct all_random; cbn [negb]; rewrite !list_lookup_imap, H0; cbn; [done|]. unfold rejection_greedy_sample_kernel. by rewrite Eg.
Qed.
End rows.

(** ** Parameters of the drafts *)

Lemma fill_loop {A} (v : A) start : forall k out, (start + k <= length out)%nat ->
  foldl (fun out o => <[(start + o)%nat := v]> out) out (seq 0 k) = take start out ++ repeat v k ++ drop (start + k) out.
Proof.
  induction k as [|k IH]; intros out Hk; [cbn; by rewrite Nat.add_0_r, take_drop|]. rewrite seq_S, foldl_app, IH by lia. cbn [foldl Nat.add].
  rewrite insert_app_r_alt by (rewrite length_take; lia). f_equal. rewrite length_take, Nat.min_l by lia. replace (start + k - start)%nat with (length (repeat v k) + 0)%nat by (rewrite repeat_length; lia).
  rewrite insert_app_r. destruct (lookup_lt_is_Some_2 out (start + k)) as [x Hx]; [lia|]. rewrite (drop_S _ _ _ Hx).
  change (repeat v (S k)) with (v :: repeat v k). rewrite repeat_cons, <-app_assoc, Nat.add_succ_r. done.
Qed.
Lemma bounded_loop {A} (f : A -> nat -> A) n : forall k out, (n <= k)%nat ->
  foldl (fun out o => if (o <? n)%nat then f out o else out) out (seq 0 k) = foldl f out (seq 0 n).
Proof.
  induction k as [|k IH]; intros out Hn; [by replace n with 0%nat by lia|]. destruct (decide (n = S k)) as [->|].
  - assert (H : forall l out, (forall o, o ∈ l -> (o < S k)%nat) -> foldl (fun out o => if (o <? S k)%nat then f out o else out) out l = foldl f out l).
    { induction l as [|o l IHl]; intros a Hl; cbn [foldl]; [done|]. rewrite (proj2 (Nat.ltb_lt o (S k))) by (apply Hl; left). apply IHl. intros; apply Hl; by right. }
    apply H. intros o Ho. apply elem_of_seq in Ho. lia.
  - rewrite seq_S, foldl_app, IH by lia. cbn [foldl Nat.add]. rewrite (proj2 (Nat.ltb_ge k n)) by lia. done.
Qed.

Section expand.
Context {A : Type} (replace : A -> A) (d : A).
Notation counts l := (lengths (fun p : A * nat => repeat 0 p.2) l).

Lemma expand_kernel_ok (reqs : list (A * nat)) i v n out :
  reqs !! i = Some (v, n) -> (n <= MAX_SPEC_LEN)%nat -> length out = length (flat_map (fun p : A * nat => repeat 0 p.2) reqs) ->
  expand_kernel replace (map fst reqs) (np_cumsum (counts reqs)) d out i =
  take (length (flat_map (fun p : A * nat => repeat 0 p.2) (take i reqs))) out ++ repeat (replace v) n ++
    drop (length (flat_map (fun p : A * nat => repeat 0 p.2) (take i reqs)) + n) out.
Proof.
  intros Hi Hn Hlen. unfold expand_kernel. rewrite (program_drafts_batch _ _ _ _ Hi). cbn [snd]. rewrite repeat_length.
  rewrite start_idx_batch by (by eapply lookup_lt_Some). rewrite bounded_loop by done.
  assert (E : load d (map fst reqs) i = v) by (unfold load; apply nth_lookup_Some; by rewrite list_lookup_fmap, Hi). rewrite E. apply fill_loop.
  rewrite Hlen. rewrite <-(take_drop_middle _ _ _ Hi) at 2. rewrite flat_map_app, length_app. cbn [flat_map]. rewrite length_app, repeat_length. cbn. lia.
Qed.
(** Every request's value is repeated for each of its drafts. *)
Lemma expand_is_repeat (reqs : list (A * nat)) init :
  Forall (fun p => (p.2 <= MAX_SPEC_LEN)%nat) reqs -> length init = length (flat_map (fun p : A * nat => repeat 0 p.2) reqs) ->
  expand_batch_to_tokens replace (map fst reqs) (np_cumsum (counts reqs)) d init = flat_map (fun p => repeat (replace p.1) p.2) reqs.
Proof.
  intros Hmax Hlen. unfold expand_batch_to_tokens. rewrite length_map. set (size l := length (flat_map (fun p : A * nat => repeat 0 p.2) l)) in *.
  assert (Hsize : forall l, length (flat_map (fun p => repeat (replace p.1) p.2) l) = size l) by (intros l; apply flat_length; intros p _; by rewrite !repeat_length).
  assert (H : forall i, (i <= length reqs)%nat ->
    foldl (expand_kernel replace (map fst reqs) (np_cumsum (counts reqs)) d) init (seq 0 i) =
    flat_map (fun p => repeat (replace p.1) p.2) (take i reqs) ++ drop (size (take i reqs)) init).
  { induction i as [|i IH]; intros Hi; [done|]. rewrite seq_S, foldl_app, IH by lia. cbn [foldl Nat.add].
    destruct (lookup_lt_is_Some_2 reqs i) as [[v n] Hx]; [lia|]. rewrite (expand_kernel_ok reqs i v n); [|done| |].
    - fold (size (take i reqs)). rewrite take_app_length' by done. rewrite drop_app_add' by done.
      rewrite (take_S_r _ _ _ Hx), flat_map_app, <-app_assoc. cbn. rewrite app_nil_r. do 2 f_equal. rewrite drop_drop. f_equal. unfold size. rewrite flat_map_app, length_app. cbn.
      by rewrite app_nil_r, repeat_length.
    - rewrite Forall_lookup in Hmax. apply (Hmax i _ Hx).
    - change (length (flat_map (fun p => repeat 0 p.2) reqs)) with (size reqs) in *. rewrite length_app, Hsize, length_drop, Hlen. assert (size (take i reqs) <= size reqs)%nat; [|lia].
      unfold size. rewrite <-(take_drop i reqs) at 2. rewrite flat_map_app, length_app. lia. }
  rewrite H by done. rewrite firstn_all, drop_ge by (by rewrite Hlen). by rewrite app_nil_r.
Qed.
End expand.

(** ** Recovered tokens *)

Lemma argmax_from_ok l : forall best at_best i,
  (argmax_from best at_best i l = at_best /\ forall x, x ∈ l -> (x <= best)%Q) \/
  (exists k y, argmax_from best at_best i l = (i + k)%nat /\ l !! k = Some y /\ (best < y)%Q /\ (forall x, x ∈ l -> (x <= y)%Q) /\ forall j x, (j < k)%nat -> l !! j = Some x -> (x < y)%Q).
Proof.
  induction l as [|x l IH]; intros best a i; cbn [argmax_from]; [left; split; [done|]; by intros x ?%elem_of_nil|].
  destruct (Qle_bool x best) eqn:E.
  - apply Qle_bool_iff in E. destruct (IH best a (S i)) as [[-> H]|(k & y & -> & Hk & Hb & Hy & Hf)].
    + left. split; [done|]. intros z [->|Hz]%elem_of_cons; auto.
    + right. exists (S k), y. rewrite Nat.add_succ_r. split; [done|]. split; [done|]. split; [done|]. split.
      * intros z [->|Hz]%elem_of_cons; [|auto]. apply Qlt_le_weak. by eapply Qle_lt_trans.
      * intros [|j] z Hj; cbn; [intros [= <-]; by eapply Qle_lt_trans|]. intros. eapply Hf; [|done]. lia.
  - assert (Hx : (best < x)%Q) by (apply Qnot_le_lt; intros ?%Qle_bool_iff; congruence). right. destruct (IH x i (S i)) as [[-> H]|(k & y & -> & Hk & Hb & Hy & Hf)].
    + exists 0%nat, x. rewrite Nat.add_0_r. split; [done|]. split; [done|]. split; [done|]. split; [|by intros j z ?%Nat.nlt_0_r].
      intros z [->|Hz]%elem_of_cons; [apply Qle_refl|auto].
    + exists (S k), y. rewrite Nat.add_succ_r. split; [done|]. split; [done|]. split; [by eapply Qlt_trans|]. split.
      * intros z [->|Hz]%elem_of_cons; [by apply Qlt_le_weak|auto].
      * intros [|j] z Hj; cbn; [by intros [= <-]|]. intros. eapply Hf; [|done]. lia.
Qed.
(** The first place of the largest element. *)
Lemma argmax_ok l : l <> [] ->
  exists y, l !! argmax l = Some y /\ (forall x, x ∈ l -> (x <= y)%Q) /\ forall j x, (j < argmax l)%nat -> l !! j = Some x -> (x < y)%Q.
Proof.
  intros Hne. destruct l as [|x l]; [done|]. cbn [argmax]. destruct (argmax_from_ok l x 0 1) as [[-> H]|(k & y & -> & Hk & Hb & Hy & Hf)].
  - exists x. split; [done|]. split; [|by intros j z ?%Nat.nlt_0_r]. intros z [->|Hz]%elem_of_cons; [apply Qle_refl|auto].
  - exists y. split; [done|]. split; [intros z [->|Hz]%elem_of_cons; [by apply Qlt_le_weak|auto]|]. intros [|j] z Hj; cbn; [by intros [= <-]|]. intros. eapply Hf; [|done]. lia.
Qed.

(** The token that replaces a rejected draft (without draft probabilities, as for
    the n-gram drafter) is a token of the vocabulary and never the rejected draft
    itself, as long as the target model gives some other token a chance; among the
    others it is one with the largest ratio of its probability to its exponential
    random number, so the padding of the vocabulary is never chosen. *)
Theorem recovered_is_another_token target_prob q vocab padded draft t :
  (forall k, 0 < q k)%Q -> (forall k, 0 <= target_prob k)%Q -> in_vocab vocab t -> t <> draft -> (0 < target_prob t)%Q ->
  let r := recovered_token None target_prob q vocab padded draft in
  in_vocab vocab r /\ r <> draft /\ forall k, in_vocab vocab k -> k <> draft -> (target_prob k / q k <= target_prob r / q r)%Q.
Proof.
  intros Hq Hp Ht Hne Hpos. unfold recovered_token. set (ratio := fun k => (_ / q (Z.of_nat k))%Q). set (l := map ratio (seq 0 vocab) ++ repeat 0%Q (padded - vocab)).
  assert (Hr : forall k, (k < vocab)%nat -> l !! k = Some (ratio k)).
  { intros k Hk. unfold l. rewrite lookup_app_l by (by rewrite length_map, length_seq). by rewrite list_lookup_fmap, lookup_seq_lt. }
  assert (Hother : forall k, Z.of_nat k <> draft -> ratio k = (target_prob (Z.of_nat k) / q (Z.of_nat k))%Q) by (intros k Hk; unfold ratio; by destruct (Z.eqb_spec (Z.of_nat k) draft)).
  unfold in_vocab in *. pose proof (Hr (Z.to_nat t) ltac:(lia)) as Hlt. rewrite Hother, Z2Nat.id in Hlt by lia.
  assert (Hbig : (0 < target_prob t / q t)%Q) by (apply Qlt_shift_div_l; [apply Hq|by rewrite Qmult_0_l]).
  destruct (argmax_ok l) as (y & Hy & Hmax & _); [intros E; by rewrite E in Hlt|].
  assert (Hy0 : (0 < y)%Q) by (eapply Qlt_le_trans; [exact Hbig|]; apply Hmax; by eapply list_elem_of_lookup_2).
  assert (Hlt2 : (argmax l < vocab)%nat).
  { destruct (Nat.lt_ge_cases (argmax l) vocab) as [|Hge]; [done|]. clear Hmax. revert Hy Hge. generalize (argmax l). intros n Hy Hge. unfold l in Hy. rewrite lookup_app_r in Hy by (rewrite length_map, length_seq; done).
    apply list_elem_of_lookup_2, list_elem_of_In, repeat_spec in Hy. subst y. by destruct (Qlt_irrefl 0). }
  assert (Hned : Z.of_nat (argmax l) <> draft).
  { intros E. rewrite (Hr _ Hlt2) in Hy. injection Hy as Hy. unfold ratio in Hy. rewrite (proj2 (Z.eqb_eq _ _) E) in Hy. subst y. unfold Qdiv in Hy0. rewrite Qmult_0_l in Hy0. by destruct (Qlt_irrefl 0). }
  split; [lia|]. split; [done|]. intros k Hk Hkd. rewrite <-Hother by done. rewrite (Hr _ Hlt2) in Hy. injection Hy as ->. apply Hmax.
  pose proof (Hr (Z.to_nat k) ltac:(lia)) as Hk'. rewrite Hother, Z2Nat.id in Hk' by lia. by eapply list_elem_of_lookup_2.
Qed.
Lemma recovered_is_another_token_witness :
  recovered_token None (fun k => if k =? 1 then (9 # 10)%Q else (1 # 20)%Q) (fun k => if k =? 0 then 2%Q else 1%Q) 3 4 1 = 2 /\
  (forall k, in_vocab 3 k -> k <> 1 -> ((if k =? 1 then (9 # 10)%Q else (1 # 20)%Q) / (if k =? 0 then 2%Q else 1%Q) <= (1 # 20) / 1)%Q).
Proof.
  split; [vm_compute; reflexivity|].
  refine (proj2 (proj2 (recovered_is_another_token (fun k => if k =? 1 then (9 # 10)%Q else (1 # 20)%Q) (fun k => if k =? 0 then 2%Q else 1%Q) 3 4 1 0 _ _ _ _ _)));
    [intros k; by destruct (k =? 0)|intros k; by destruct (k =? 1)|split; [lia|reflexivity]|lia|reflexivity].
Defined.
