(* ===== verification/RunnerSampler.v ===== *)
(** * The sampler of the runner

    How [execute_model] samples: without drafts one token per request, with drafts
    the rejection sampler on the target logits, with tokens sampled from the bonus
    logits.  Whatever the model computes, the rejection sampler keeps what the books
    of the runner rely on. *)

From stdpp Require Import base functions gmap strings list fin_sets relations.
From Stdlib Require Import ZArith QArith Lia.
From S2P Require Import Prelude BlockTable SchedulerTypes InputBatch NgramProposer ModelRunner RunnerInputs RunnerSpec RunnerExecute RunnerBooks RunnerExecuteOk RunnerServe RejectionSampler.
Open Scope list_scope.
Open Scope Z_scope.

Section sampler.
(** What the model and the sampler compute: the tokens sampled from the logits at
    some indices, and for the drafts the most likely tokens, the probabilities, the
    recovered tokens and the uniform random numbers. *)
Context (vocab : nat) (sample_at : PreparedInputs -> SamplingMetadata -> list Z -> list Z).
Context (argmax_of : PreparedInputs -> list Z) (probs_of : PreparedInputs -> SamplingMetadata -> nat -> Z -> Q).
Context (recovered_of : PreparedInputs -> SamplingMetadata -> list Z) (uniform_of : PreparedInputs -> SamplingMetadata -> list Q).

Definition sample_tokens (pi : PreparedInputs) (md : SamplingMetadata) : list (list Z) :=
  match pi_spec_decode pi with
  | None => map (fun t => [t]) (sample_at pi md (pi_logits_indices pi))
  | Some s =>
      rejection_sample s (md_all_greedy md) (md_all_random md) (default [] (md_temperature md)) None (probs_of pi md) (argmax_of pi)
        (sample_at pi md (bonus_logits_indices s)) (recovered_of pi md) (uniform_of pi md)
  end.

Record model_ok : Prop := {
  mo_vocab : (0 < vocab)%nat;
  mo_one pi md ids : length (sample_at pi md ids) = length ids;
  mo_sampled pi md ids : Forall (in_vocab vocab) (sample_at pi md ids);
  mo_argmax pi : Forall (in_vocab vocab) (argmax_of pi);
  mo_recovered pi md : Forall (in_vocab vocab) (recovered_of pi md);
  mo_accept pi md i t : Qle_bool (load 1%Q (uniform_of pi md) i) (probs_of pi md i t / 1) = true -> in_vocab vocab t }.

Lemma length_rejection s g r t p a b rec u : length (rejection_sample s g r t None p a b rec u) = length (num_draft_tokens s).
Proof. unfold rejection_sample. destruct r, g; cbn; rewrite ?length_imap, ?repeat_length; done. Qed.

(** The rows as the runner reads them. *)
Lemma valid_rows rows (drafts : list Z) :
  length rows = length drafts -> Forall (fun n => 0 <= n) drafts ->
  (forall i n, drafts !! i = Some n -> exists row out, rows !! i = Some row /\ row = out ++ repeat PLACEHOLDER_TOKEN_ID (Z.to_nat (zmax_list 0 drafts) + 1 - length out) /\
     Forall (in_vocab vocab) out /\ (1 <= length out <= S (Z.to_nat n))%nat) ->
  length (valid_sampled rows vocab) = length drafts /\
  forall i ids n, valid_sampled rows vocab !! i = Some ids -> drafts !! i = Some n -> (1 <= length ids <= S (Z.to_nat n))%nat.
Proof.
  intros Hlen Hnn Hrows. unfold valid_sampled. set (m := Z.to_nat _) in *.
  assert (Hwidth : forall i row, rows !! i = Some row -> length row = (m + 1)%nat).
  { intros i row Hi. destruct (lookup_lt_is_Some_2 drafts i) as [n Hn]; [apply lookup_lt_Some in Hi; lia|]. destruct (Hrows i n Hn) as (row' & out & Hr & -> & _ & Ho).
    rewrite Hi in Hr. injection Hr as ->. assert (n <= zmax_list 0 drafts) by (apply zmax_list_ge; by eapply list_elem_of_lookup_2). rewrite length_app, repeat_length. lia. }
  assert (Hm : match rows with [] => 0%nat | row :: _ => length row end = match rows with [] => 0%nat | _ => (m + 1)%nat end) by (destruct rows as [|row l]; [done|by apply (Hwidth 0%nat)]).
  rewrite Hm. destruct (Nat.eqb_spec (match rows with [] => 0%nat | _ => (m + 1)%nat end) 1) as [E|E].
  - split; [done|]. intros i ids n Hi Hn. rewrite (Hwidth i ids Hi). destruct rows; [done|]. lia.
  - unfold parse_output. rewrite length_map. split; [done|]. intros i ids n Hi Hn. destruct (Hrows i n Hn) as (row & out & Hr & -> & Hv & Ho).
    rewrite list_lookup_fmap, Hr in Hi. cbn in Hi. injection Hi as <-. by rewrite parse_row.
Qed.

Lemma sample_tokens_ok : model_ok -> sampler_ok sample_tokens vocab.
Proof.
  intros [M1 M2 M3 M4 M5 M6] pi md Hpi [Hg Ht]. cbn zeta. unfold sample_tokens, row_draft_count, inputs_wf in *. destruct (pi_spec_decode pi) as [s|].
  - destruct Hpi as (L1 & L2 & Hnn & Hcu).
    assert (Hrandom : md_all_greedy md = false -> md_all_random md = true -> forall i, (i < length (num_draft_tokens s))%nat -> Qeq_bool (load 0%Q (default [] (md_temperature md)) i) (-1) = false).
    { intros H1 H2 i Hi. destruct (Ht H1) as (temps & -> & Hl & Hne). cbn. destruct (lookup_lt_is_Some_2 temps i) as [t Hti]; [lia|].
      unfold load. rewrite (nth_lookup_Some _ _ 0%Q t Hti). by apply (Hne H2 i). }
    set (rows := rejection_sample _ _ _ _ _ _ _ _ _ _). destruct (valid_rows rows (num_draft_tokens s)) as [V1 V2]; [apply length_rejection|done| |].
    { intros i n Hi. destruct (rejection_rows vocab s (md_all_greedy md) (md_all_random md) (default [] (md_temperature md)) (probs_of pi md) (argmax_of pi)
        (sample_at pi md (bonus_logits_indices s)) (recovered_of pi md) (uniform_of pi md)) with (i := i) (n := n) as (row & Hr & out & E & Ho1 & Ho2); try done.
      - apply M6.
      - by exists row, out. }
    split; [congruence|]. intros i ids Hi. destruct (lookup_lt_is_Some_2 (num_draft_tokens s) i) as [n Hn]; [apply lookup_lt_Some in Hi; congruence|].
    rewrite Hn. cbn. pose proof (V2 i ids n Hi Hn). rewrite Forall_lookup in Hnn. specialize (Hnn i n Hn). cbn in Hnn. lia.
  - set (toks := sample_at pi md (pi_logits_indices pi)). assert (E : valid_sampled (map (fun t => [t]) toks) vocab = map (fun t => [t]) toks) by (unfold valid_sampled; by destruct toks).
    rewrite E, length_map. split; [unfold toks; by rewrite M2|]. intros i ids Hi. rewrite list_lookup_fmap in Hi. destruct (toks !! i); [|done]. injection Hi as <-. cbn. lia.
Qed.
End sampler.

(** C21. The rejection sampler keeps the contract of the sampler that the runner's
    guarantees assume ([sampler_ok]): for every batch, greedy, random or mixed, and
    whatever the drafts, the books find one row per request with at least one token
    and at most one more than its drafts, once the placeholders are filtered out; a
    step without drafts has one token per request. *)
Theorem rejection_sampler_ok vocab sample_at argmax_of probs_of recovered_of uniform_of :
  model_ok vocab sample_at argmax_of probs_of recovered_of uniform_of ->
  sampler_ok (sample_tokens sample_at argmax_of probs_of recovered_of uniform_of) vocab.
Proof. apply sample_tokens_ok. Qed.

(** A model that always prefers the token 3 of ten. *)
Definition threes : PreparedInputs -> SamplingMetadata -> list Z -> list Z := fun _ _ ids => map (fun _ => 3) ids.
Definition three_is_certain : PreparedInputs -> SamplingMetadata -> nat -> Z -> Q := fun _ _ _ t => if t =? 3 then 1%Q else 0%Q.
Definition halves : PreparedInputs -> SamplingMetadata -> list Q := fun _ _ => repeat (1 # 2)%Q 100.
Lemma repeat_vocab v n : in_vocab 10 v -> Forall (in_vocab 10) (repeat v n).
Proof. intros Hv. induction n; cbn; by constructor. Qed.
Lemma threes_ok : model_ok 10 threes (fun _ => repeat 3 100) three_is_certain (fun _ _ => repeat 3 100) halves.
Proof.
  assert (H3 : in_vocab 10 3) by (unfold in_vocab; lia). split; [lia|intros; apply length_map| | | |].
  - intros pi md ids. apply Forall_fmap, Forall_forall. by intros.
  - intros pi. by apply repeat_vocab.
  - intros pi md. by apply repeat_vocab.
  - intros pi md i t. unfold three_is_certain, halves, load. destruct (Z.eqb_spec t 3) as [->|_]; [done|].
    destruct (nth_in_or_default i (repeat (1 # 2)%Q 100) 1%Q) as [->%repeat_spec| ->]; vm_compute; done.
Qed.
(** A random request with the drafts [3; 5] and a greedy one with [3], by the whole
    sampler: the first draft is accepted, the second replaced. *)
Definition two_inputs : PreparedInputs :=
  {| pi_input_ids := []; pi_positions := []; pi_metadata := []; pi_logits_indices := [0; 1; 2; 3; 4]; pi_num_scheduled_tokens := [3; 2];
     pi_spec_decode := Some {| draft_token_ids := [3; 5; 3]; num_draft_tokens := [2; 1]; cu_num_draft_tokens := [2; 3];
                               target_logits_indices := [0; 1; 3]; bonus_logits_indices := [2; 4]; spec_logits_indices := [0; 1; 2; 3; 4] |} |}.
Definition mixed_metadata : SamplingMetadata :=
  {| md_temperature := Some [1%Q; (-1)%Q]; md_all_greedy := false; md_all_random := false; md_top_p := None; md_top_k := None;
     md_max_num_logprobs := None; md_prompt_token_ids := None; md_penalties := None; md_allowed_token_ids_mask := None |}.
Lemma rejection_sampler_ok_witness :
  model_ok 10 threes (fun _ => repeat 3 100) three_is_certain (fun _ _ => repeat 3 100) halves /\
  valid_sampled (sample_tokens threes (fun _ => repeat 3 100) three_is_certain (fun _ _ => repeat 3 100) halves two_inputs mixed_metadata) 10 = [[3; 3]; [3; 3]] /\
  sampler_ok (sample_tokens threes (fun _ => repeat 3 100) three_is_certain (fun _ _ => repeat 3 100) halves) 10.
Proof. split; [exact threes_ok|]. split; [vm_compute; reflexivity|]. apply (rejection_sampler_ok 10). exact threes_ok. Defined.
