(* ===== verification/RunnerExamples.v ===== *)
(** * Concrete runs of the model runner

    A runner with two rows, blocks of two tokens and the n-gram drafter, driven by
    hand and by the scheduler of [SchedulerExamples.v]. *)

From stdpp Require Import base functions gmap strings list fin_sets relations.
From Stdlib Require Import ZArith QArith Lia.
From S2P Require Import Prelude BlockTable Request SchedulerTypes LogitsProcessors InputBatch InputBatchOk BatchMoves NgramProposer ModelRunner RunnerUpdate RunnerAdvance RunnerOk RunnerInputs RunnerSpec RunnerInputsOk RunnerExecute RunnerBooks RunnerExecuteOk RunnerServe.
From S2P Require SchedulerSpec Scheduler SchedulerUpdate KVCacheManager SchedulerUpdateOk SchedulerOk SchedulerServe SchedulerExamples.
Open Scope string_scope.
Open Scope list_scope.
Open Scope Z_scope.

Definition no_pooling : string -> option bool := fun _ => None.
Definition two_drafts : NgramProposer := {| min_n := 1; max_n := 2; draft_k := 2; drafter_max_model_len := 16 |}.
Definition demo_runner : Runner := make_runner 2 16 8 100 [2] (Some 1) true (Some two_drafts).
(** The sampler gives the token 9 to every request. *)
Definition nines : PreparedInputs -> SamplingMetadata -> list (list Z) := fun pi _ => map (fun _ => [9]) (pi_num_scheduled_tokens pi).

Definition no_cached : CachedRequestData :=
  {| req_ids := []; resumed_from_preemption := []; cached_new_token_ids := []; cached_new_block_ids := []; cached_num_computed_tokens := [] |}.
Definition new_request (id : string) (prompt : list Z) (blocks : list Z) : NewRequestData :=
  {| new_req_id := id; new_prompt_token_ids := prompt; new_sampling_params := Some default_sampling; new_pooling_params := false;
     new_block_ids_of := [blocks]; SchedulerTypes.new_num_computed_tokens := 0; new_lora_request := None |}.
Definition step_out (new : list NewRequestData) (cached : CachedRequestData) (scheduled : list (string * Z)) (spec : list (string * list Z))
    (finished : gset string) : SchedulerOutput :=
  {| scheduled_new_reqs := new; scheduled_cached_reqs := cached; num_scheduled_tokens := scheduled;
     total_num_scheduled_tokens := zsum (map snd scheduled); scheduled_spec_decode_tokens := spec; scheduled_encoder_inputs := [];
     num_common_prefix_blocks := [0]; out_finished_req_ids := finished; free_encoder_input_ids := []; structured_output_request_ids := [] |}.
(** One request with three tokens arrives. *)
Definition first_out : SchedulerOutput := step_out [new_request "a" [1; 2; 3] [1; 2]] no_cached [("a", 3)] [] ∅.

Lemma nines_ok v : sampler_ok nines v.
Proof.
  intros pi md _ _. cbn zeta. assert (E : valid_sampled (nines pi md) v = nines pi md) by (unfold valid_sampled, nines; by destruct (pi_num_scheduled_tokens pi)).
  rewrite E. unfold nines. split; [apply length_map|]. intros i ids Hi. rewrite list_lookup_fmap in Hi. destruct (pi_num_scheduled_tokens pi !! i); [|done].
  injection Hi as <-. cbn. lia.
Qed.

Lemma demo_ready : ready 8 demo_runner.
Proof. apply make_runner_ready. by intros p [= <-]. Qed.
Definition first_state : CachedRequestState :=
  {| cr_req_id := "a"; cr_prompt_token_ids := [1; 2; 3]; cr_sampling_params := Some default_sampling; cr_pooling := None; cr_generator := None;
     cr_block_ids := [[1; 2]]; cr_num_computed_tokens := 0; cr_output_token_ids := []; cr_lora_request := None |}.
Lemma first_fits : output_fits no_pooling demo_runner first_out.
Proof.
  split; cbn; [apply NoDup_singleton|done|lia| |by intros i id].
  intros d ->%list_elem_of_singleton. split; [by left|]. split; [done|]. exists first_state. split; [done|]. split; cbn; [lia| |by left; eexists| |done].
  - constructor; [vm_compute; lia|constructor].
  - intros p [= <-] i. cbn. by intros ?%elem_of_nil.
Qed.
Lemma first_stepped id q : stepped no_pooling demo_runner first_out id q -> id = "a" /\ q = first_state.
Proof.
  intros [(d & ->%list_elem_of_singleton & <- & [= <-])|(i & q0 & c & nb & rs & (H & _) & _)]; [done|done].
Qed.
Lemma first_step_fits : step_fits (input_batch demo_runner) first_state 3 [].
Proof.
  split; [cbn; lia|cbn; lia|cbn; lia|done|cbn; lia| |by exists default_sampling].
  constructor; [|constructor]. split; [done|]. split; [cbn; lia|]. intros b Hb. cbn in Hb. cbn.
  apply elem_of_cons in Hb as [->|Hb]; [lia|]. apply list_elem_of_singleton in Hb as ->. lia.
Qed.
Lemma first_step_ok : step_ok no_pooling 8 demo_runner first_out.
Proof.
  split; [apply first_fits|done|done|cbn; lia|split; [apply NoDup_nil_2|by intros id ?%elem_of_nil]|].
  intros id q n [-> ->]%first_stepped [= <-]. apply first_step_fits.
Qed.

Lemma update_states_ok_witness :
  runner_ok demo_runner /\ output_fits no_pooling demo_runner first_out /\
  exists r', _update_states no_pooling demo_runner first_out = Ok r' /\ states_updated no_pooling demo_runner first_out r' /\ masks_updated demo_runner first_out r'.
Proof.
  split; [apply demo_ready|]. split; [apply first_fits|]. apply (update_states_ok no_pooling demo_runner first_out); [apply demo_ready|apply first_fits].
Defined.

Lemma runner_serves_witness :
  rtc (runner_step no_pooling nines 8) demo_runner demo_runner /\ sampler_ok nines 100 /\
  exists o r', execute_model no_pooling nines demo_runner first_out = Done (Ok (RunnerOutput o, r')) /\ executed no_pooling 8 demo_runner first_out o r'.
Proof.
  split; [apply rtc_refl|]. split; [apply nines_ok|].
  apply (runner_serves no_pooling nines 8 2 16 100 [2] (Some 1) (Some two_drafts)); [by intros p [= <-]|apply nines_ok|apply rtc_refl|apply first_step_ok].
Defined.

Lemma prepare_inputs_ok_witness :
  exists r1, _update_states no_pooling demo_runner first_out = Ok r1 /\ inputs_fit r1 first_out 8 /\
  exists pi r', _prepare_inputs r1 first_out = Ok (pi, r') /\ inputs_spec (input_batch r1) first_out (request_rows (input_batch r1) first_out) pi.
Proof.
  destruct (update_states_spec no_pooling demo_runner first_out (rd_ok _ _ demo_ready) first_fits) as (r1 & H1 & Hu). exists r1. split; [exact H1|].
  pose proof (inputs_ready no_pooling 8 demo_runner first_out r1 demo_ready first_step_ok Hu) as Hfit. split; [exact Hfit|].
  destruct (prepare_inputs_ok r1 first_out 8 Hfit) as (pi & r' & H2 & H3 & _). exists pi, r'. split; [exact H2|exact H3].
Defined.

Lemma first_fits_row : fits_row (input_batch demo_runner) first_state.
Proof. destruct first_fits as [_ _ _ Hn _]. destruct (Hn (new_request "a" [1; 2; 3] [1; 2])) as (_ & _ & q & [= <-] & Hf); [left|exact Hf]. Qed.
Lemma persistent_batch_is_map_witness :
  good (input_batch demo_runner) /\
  exists i b', add_request (input_batch demo_runner) first_state = Ok (i, b') /\ good b' /\ contents b' = {["a" := row_of (input_batch demo_runner) first_state]}.
Proof.
  assert (Hg : good (input_batch demo_runner)) by apply steady_good, make_input_batch_steady. split; [exact Hg|].
  destruct (persistent_batch_is_map (input_batch demo_runner) Hg) as [Hadd _].
  destruct (Hadd first_state) as (i & b' & H1 & H2 & H3 & _); [apply (Nat.lt_0_succ 1)|reflexivity|exact first_fits_row|]. exists i, b'. split; [exact H1|]. split; [exact H2|]. rewrite H3. reflexivity.
Defined.

Lemma rejoining_restores_witness :
  steady (input_batch demo_runner) /\ fits_row (input_batch demo_runner) first_state /\
  exists b1 b2, join (fun _ => 0) (input_batch demo_runner) first_state = Ok b1 /\
    contents b1 !! "a" = Some (row_of (input_batch demo_runner) first_state) /\ leave (fun _ => 0) b1 "a" = Ok b2 /\ contents b2 = ∅.
Proof.
  assert (Hs : steady (input_batch demo_runner)) by apply make_input_batch_steady. split; [exact Hs|]. split; [exact first_fits_row|].
  destruct (rejoining_restores (fun _ => 0) (input_batch demo_runner) first_state Hs first_fits_row) as [_ H].
  destruct H as (b1 & b2 & H1 & H2 & H3 & H4 & _); [reflexivity|apply (Nat.lt_0_succ 1)|]. exists b1, b2. split; [exact H1|]. split; [exact H2|]. split; [exact H3|]. rewrite H4. reflexivity.
Defined.

#[local] Existing Instances SchedulerExamples.no_connector SchedulerExamples.demo_kv SchedulerExamples.demo_contract.
(** The scheduler's first step for the same request. *)
Lemma scheduler_first_out (s : Scheduler KVCacheManager.KVCacheManager Empty_set) m out events s1 :
  SchedulerExamples.demo_manager = Ok m ->
  SchedulerUpdate.add_request SchedulerExamples.demo_settings (SchedulerExamples.demo_start m) (SchedulerExamples.demo_request "a" [1; 2; 3]) = Ok s ->
  Scheduler.schedule SchedulerExamples.ready SchedulerExamples.demo_settings s = Ok (out, events, s1) ->
  out = first_out /\ running s1 = ["a"] /\ exists x, objs s1 !! "a" = Some x /\ num_tokens x = 3 /\ num_computed_tokens x = 3.
Proof.
  unfold SchedulerExamples.demo_manager. vm_compute KVCacheManager.make_kv_cache_manager. intros [= <-]. vm_compute SchedulerUpdate.add_request. intros [= <-].
  vm_compute Scheduler.schedule. intros [= <- _ <-]. split; [vm_compute; reflexivity|]. split; [reflexivity|]. eexists. split; [vm_compute; reflexivity|]. split; vm_compute; reflexivity.
Qed.
(** The scheduler hands a step to the runner, which answers what the scheduler
    expects, and the scheduler takes the answer. *)
Lemma runner_answers_scheduler_witness :
  exists m s out events s1 o r' ecos s2, SchedulerExamples.demo_manager = Ok m /\
  SchedulerUpdate.add_request SchedulerExamples.demo_settings (SchedulerExamples.demo_start m) (SchedulerExamples.demo_request "a" [1; 2; 3]) = Ok s /\
  Scheduler.schedule SchedulerExamples.ready SchedulerExamples.demo_settings s = Ok (out, events, s1) /\
  execute_model no_pooling nines demo_runner out = Done (Ok (RunnerOutput o, r')) /\ SchedulerUpdateOk.result_fits s1 out o /\
  SchedulerUpdate.update_from_output SchedulerExamples.advances SchedulerExamples.all_valid SchedulerExamples.demo_settings s1 out o = Ok (ecos, s2).
Proof.
  destruct SchedulerExamples.demo_queued as (m & s & Hm & Hs & [(t & Hinv) _] & _).
  destruct (SchedulerOk.schedule_step 16 SchedulerExamples.ready SchedulerExamples.demo_settings SchedulerExamples.demo_plain eq_refl s t Hinv) as (out & events & s1 & t1 & ps & Hok & Hinv1 & _).
  destruct (scheduler_first_out s m out events s1 Hm Hs Hok) as (-> & Hrun & x & Hx & Hx1 & Hx2).
  destruct (runner_answers_scheduler no_pooling nines 8 s1 demo_runner first_out demo_ready first_step_ok (nines_ok _)) as (o & r' & He & Hrf).
  { intros id n [= -> ->]%list_elem_of_singleton _. exists first_state. split; [left; exists (new_request "a" [1; 2; 3] [1; 2]); split; [left|split; reflexivity]|rewrite Hrun; left| |done].
    intros y Hy. rewrite Hx in Hy. injection Hy as <-. rewrite Hx1, Hx2. split; reflexivity. }
  assert (Hdc : SchedulerUpdateOk.drafts_counted SchedulerExamples.demo_settings first_out o) by (intros _ id y l i g; discriminate).
  destruct (SchedulerUpdateOk.update_step 16 SchedulerExamples.advances SchedulerExamples.all_valid SchedulerExamples.demo_settings SchedulerExamples.demo_plain eq_refl eq_refl eq_refl s1 t1 first_out o Hinv1 Hrf Hdc)
    as (ecos & s2 & t2 & Hu & _).
  exists m, s, first_out, events, s1, o, r', ecos, s2. split; [exact Hm|]. split; [exact Hs|]. split; [exact Hok|]. split; [exact He|]. split; [exact Hrf|exact Hu].
Defined.

(** ** Two steps with drafts *)

Definition sampled (rows : list (list Z)) : PreparedInputs -> SamplingMetadata -> list (list Z) := fun _ _ => rows.
Definition then_execute {A} (x : fueled (res (A * Runner))) (sample : PreparedInputs -> SamplingMetadata -> list (list Z)) (out : SchedulerOutput) :
    fueled (res (RunnerResult * Runner)) :=
  match x with Done (Ok (_, r)) => execute_model no_pooling sample r out | Done (Raise e) => Done (Raise e) | OutOfFuel => OutOfFuel end.
Definition tokens_and_drafts (x : fueled (res (RunnerResult * Runner))) : option (list (list Z) * option (list (list Z)) * list (list Z)) :=
  match x with
  | Done (Ok (RunnerOutput o, r)) => Some (sampled_token_ids o, runner_spec_token_ids o, map (fun e => cr_output_token_ids e.2) (map_to_list (cached_requests r)))
  | _ => None
  end.
(** A running request: its progress, its new blocks. *)
Definition still_running (id : string) (computed : Z) (blocks : list Z) : CachedRequestData :=
  {| req_ids := [id]; resumed_from_preemption := [false]; cached_new_token_ids := [[]]; cached_new_block_ids := [[blocks]];
     cached_num_computed_tokens := [computed] |}.
Definition prompt_step := execute_model no_pooling (sampled [[6]]) demo_runner (step_out [new_request "a" [5; 6; 5] [1; 2]] no_cached [("a", 3)] [] ∅).
Definition draft_out : SchedulerOutput := step_out [] (still_running "a" 3 [3]) [("a", 3)] [("a", [5; 6])] ∅.

(** After [5; 6; 5; 6] the drafter proposes [5; 6]; the sampler accepts the first and
    corrects the second. *)
Lemma drafted_run :
  tokens_and_drafts prompt_step = Some ([[6]], Some [[5; 6]], [[6]]) /\
  tokens_and_drafts (then_execute prompt_step (sampled [[5; 7; -1]]) draft_out) = Some ([[5; 7]], Some [[]], [[6; 5; 7]]).
Proof. split; vm_compute; reflexivity. Qed.

(** ** Corner cases of the model runner

    Runs in which the code does something that its comments or its callers do not
    expect, each evaluated on the model. *)
(** ** Drafts of a request that missed a step *)

(** The ids and the drafts that the model is given in a step. *)
Definition given_inputs (x : fueled (res (RunnerResult * Runner))) (out : SchedulerOutput) : option (list Z * option (list Z)) :=
  match x with
  | Done (Ok (_, r)) =>
      match _update_states no_pooling r out with
      | Ok r => match _prepare_inputs r out with Ok (pi, _) => Some (pi_input_ids pi, draft_token_ids <$> pi_spec_decode pi) | Raise _ => None end
      | Raise _ => None
      end
  | _ => None
  end.
(** Request "a" has drafts, but the next step is for "b" only. *)
Definition missed_step := then_execute prompt_step (sampled [[8]]) (step_out [new_request "b" [3; 4] [4]] no_cached [("b", 2)] [] ∅).

(** In the batch the drafts [5; 6] are computed; when the request had left the batch
    its row has zeros in their place, and the zeros are verified. *)
Lemma drafts_lost :
  given_inputs prompt_step draft_out = Some ([6; 5; 6], Some [5; 6]) /\
  given_inputs missed_step draft_out = Some ([6; 0; 0], Some [0; 0]).
Proof. split; vm_compute; reflexivity. Qed.

(** ** Prompt logprobs *)

Definition with_params (d : NewRequestData) (p : SamplingParams) : NewRequestData :=
  {| new_req_id := new_req_id d; new_prompt_token_ids := new_prompt_token_ids d; new_sampling_params := Some p;
     new_pooling_params := new_pooling_params d; new_block_ids_of := new_block_ids_of d;
     SchedulerTypes.new_num_computed_tokens := SchedulerTypes.new_num_computed_tokens d; new_lora_request := new_lora_request d |}.
Definition sampling_with (prompt_lp : option Z) (allowed : list Z) : SamplingParams :=
  {| sp_max_tokens := Some 16; ignore_eos := false; stop_token_ids := None; prompt_logprobs := prompt_lp;
     guided_decoding := false; sp_temperature := 1; sp_top_p := 1; sp_top_k := 0; sp_min_p := 0; sp_frequency_penalty := 0;
     sp_presence_penalty := 0; sp_repetition_penalty := 1; sp_seed := None; sp_logprobs := None; sp_min_tokens := 0;
     sp_all_stop_token_ids := []; sp_logit_bias := []; sp_allowed_token_ids := allowed; sp_bad_words_token_ids := [] |}.
Definition tokens_and_prompts (x : fueled (res (RunnerResult * Runner))) : option (list (list Z) * list string) :=
  match x with Done (Ok (RunnerOutput o, _)) => Some (sampled_token_ids o, elements (prompt_logprobs_of o)) | _ => None end.

Definition scored_prompt := execute_model no_pooling (sampled [[6]]) demo_runner
  (step_out [with_params (new_request "a" [5; 6; 5] [1; 2]) (sampling_with (Some 1) [])] no_cached [("a", 3)] [] ∅).
Definition scored_missed := then_execute scored_prompt (sampled [[8]]) (step_out [new_request "b" [3; 4] [4]] no_cached [("b", 2)] [] ∅).
Definition decode_out : SchedulerOutput := step_out [] (still_running "a" 3 [3]) [("a", 1)] [] ∅.
(** The request is preempted with five tokens, and resumed with four of them. *)
Definition resumed_out : SchedulerOutput :=
  step_out [] {| req_ids := ["a"]; resumed_from_preemption := [true]; cached_new_token_ids := [[]]; cached_new_block_ids := [[[1; 2]]];
                 cached_num_computed_tokens := [0] |} [("a", 4)] [] ∅.
Definition scored_resumed := then_execute (then_execute (then_execute scored_prompt (sampled [[7]]) decode_out)
  (sampled [[8]]) (step_out [new_request "b" [3; 4] [4]] no_cached [("b", 2)] [] ∅)) (sampled [[9]]) resumed_out.

(** The prompt's logprobs are returned with the first token and not again, unless the
    request leaves the batch for a step: then they are returned again, although no
    logits of the prompt were computed.  A resumed request that recomputes its prompt
    and only some of its output returns them without a token. *)
Lemma prompt_logprobs_again :
  tokens_and_prompts scored_prompt = Some ([[6]], ["a"]) /\
  tokens_and_prompts (then_execute scored_prompt (sampled [[7]]) decode_out) = Some ([[7]], []) /\
  tokens_and_prompts (then_execute scored_missed (sampled [[7]]) decode_out) = Some ([[7]], ["a"]) /\
  tokens_and_prompts scored_resumed = Some ([[]], ["a"]).
Proof. repeat split; vm_compute; reflexivity. Qed.

(** ** The mask of allowed tokens *)

Definition small_runner (threshold : option Z) : Runner := make_runner 2 16 8 3 [2] threshold true None.
Definition mask_after (x : fueled (res (RunnerResult * Runner))) : option (list (option string) * option (list (list bool))) :=
  match x with Done (Ok (_, r)) => Some (_req_ids (input_batch r), md_allowed_token_ids_mask (sampling_metadata (input_batch r))) | _ => None end.
Definition only_one := sampling_with None [1].
(** "a" may use every token, "b" only token 1. *)
Definition both_out : SchedulerOutput :=
  step_out [new_request "a" [0; 1] [1]; with_params (new_request "b" [1; 1] [2]) only_one] no_cached [("a", 2); ("b", 2)] [] ∅.
Definition both_step := execute_model no_pooling (sampled [[0]; [1]]) (small_runner None) both_out.
(** "a" finishes, "b" moves to its row, and "c" joins in the old row of "b". *)
Definition b_alone := then_execute both_step (sampled [[1]]) (step_out [] (still_running "b" 2 [3]) [("b", 1)] [] {["a"]}).
Definition c_joins := then_execute b_alone (sampled [[1]; [1]])
  (step_out [new_request "c" [0; 0] [4]] (still_running "b" 3 []) [("b", 1); ("c", 2)] [] ∅).

(** The row that [condense] moves away keeps its mask, and the next request inherits
    it: "c" may use token 1 only ([true] forbids). *)
Lemma stale_mask :
  mask_after both_step = Some ([Some "a"; Some "b"], Some [[false; false; false]; [true; false; true]]) /\
  mask_after b_alone = Some ([Some "b"], Some [[true; false; true]]) /\
  mask_after c_joins = Some ([Some "b"; Some "c"], Some [[true; false; true]; [true; false; true]]).
Proof. repeat split; vm_compute; reflexivity. Qed.

(** The decode of "b" moves in front of the longer prompt of "a". *)
Definition b_first := execute_model no_pooling (sampled [[1]; [0]]) (small_runner (Some 1))
  (step_out [new_request "a" [0; 1] [1]; with_params (new_request "b" [1] [2]) only_one] no_cached [("a", 2); ("b", 1)] [] ∅).
(** Exchanging two rows of the mask copies one over the other. *)
Lemma swapped_mask : mask_after b_first = Some ([Some "b"; Some "a"], Some [[true; false; true]; [true; false; true]]).
Proof. vm_compute. reflexivity. Qed.
