(* ===== verification/Detokenizer.v ===== *)
(** * Incremental detokenization and stop strings

    [vllm/v1/engine/detokenizer.py], the base class, with [check_stop_strings] of
    [vllm/engine/output_processor/stop_checker.py]: the text of a request grows with
    its tokens, is searched for stop strings, and goes out in pieces that hold back
    what a stop string could still cut off.
    First Python strings: lists of code points, with [str.find]. *)

From stdpp Require Import base list.
From Stdlib Require Import ZArith Lia.
From S2P Require Import Prelude Request.
Open Scope list_scope.
Open Scope Z_scope.

Definition text : Set := list Z.

(** The character that decoders put for bytes that are not a character (yet). *)
Definition REPLACEMENT : Z := 65533.

Fixpoint is_prefix (p s : text) : bool :=
  match p, s with
  | [], _ => true
  | x :: p, y :: s => (x =? y) && is_prefix p s
  | _ :: _, [] => false
  end.
(** The first occurrence of [p] in [s], whose first character has number [i]. *)
Fixpoint find_in (p s : text) (i : nat) : option nat :=
  if is_prefix p s then Some i
  else match s with [] => None | _ :: s => find_in p s (S i) end.
(** [s.find(p, start)]; [None] stands for -1. *)
Definition py_find (s p : text) (start : Z) : option nat :=
  let n := Z.of_nat (length s) in
  let start := if start <? 0 then Z.max 0 (n + start) else start in
  if n <? start then None else find_in p (drop (Z.to_nat start) s) (Z.to_nat start).

(** [p] stands in [s] from character [i] on. *)
Definition occurs_at (p s : text) (i : nat) : Prop := exists u v, s = u ++ p ++ v /\ length u = i.
Definition occurs_in (p s : text) : Prop := exists i, occurs_at p s i.

Lemma is_prefix_iff p : forall s, is_prefix p s = true <-> exists v, s = p ++ v.
Proof.
  induction p as [|x p IH]; intros s; cbn; [split; [by exists s|done]|]. destruct s as [|y s]; [split; [done|by intros (v & ?)]|].
  rewrite andb_true_iff, Z.eqb_eq, IH. split; [intros [-> (v & ->)]; by exists v|intros (v & [= -> ->]); split; [done|by exists v]].
Qed.
Lemma occurs_at_drop p s i : occurs_at p s i <-> (i <= length s)%nat /\ is_prefix p (drop i s) = true.
Proof.
  rewrite is_prefix_iff. split.
  - intros (u & v & -> & <-). split; [rewrite length_app; lia|]. exists v. by rewrite drop_app_length.
  - intros [Hi (v & Hv)]. exists (take i s), v. by rewrite <-Hv, take_drop, length_take_le.
Qed.
Lemma occurs_at_length p s i : occurs_at p s i -> (i + length p <= length s)%nat.
Proof. intros (u & v & -> & <-). rewrite !length_app. lia. Qed.

Lemma find_in_spec p : forall s i,
  match find_in p s i with
  | Some k => (i <= k)%nat /\ occurs_at p s (k - i) /\ forall j, occurs_at p s j -> (k - i <= j)%nat
  | None => forall j, ~ occurs_at p s j
  end.
Proof.
  induction s as [|y s IH]; intros i; cbn [find_in].
  - destruct (is_prefix p []) eqn:E; [|intros j; rewrite occurs_at_drop, drop_nil; intros [_ ?]; congruence].
    split; [lia|]. rewrite Nat.sub_diag. split; [apply occurs_at_drop; split; [lia|done]|lia].
  - destruct (is_prefix p (y :: s)) eqn:E.
    { split; [lia|]. rewrite Nat.sub_diag. split; [apply occurs_at_drop; split; [lia|done]|lia]. }
    assert (Hstep : forall j, occurs_at p (y :: s) j -> exists j', j = S j' /\ occurs_at p s j').
    { intros j. rewrite !occurs_at_drop. destruct j as [|j]; cbn; [intros [_ ?]; congruence|]. intros [? ?]. exists j. split; [done|]. rewrite occurs_at_drop. split; [lia|done]. }
    specialize (IH (S i)). destruct (find_in p s (S i)) as [k|].
    + destruct IH as (Hk & Ho & Hmin). split; [lia|]. split.
      * rewrite occurs_at_drop in *. replace (k - i)%nat with (S (k - S i)) by lia. cbn. split; [lia|apply Ho].
      * intros j (j' & -> & Hj')%Hstep. apply Hmin in Hj'. lia.
    + intros j (j' & -> & Hj')%Hstep. by apply IH in Hj'.
Qed.

Lemma occurs_at_tail p s i j : (i <= length s)%nat -> (i <= j)%nat -> occurs_at p s j <-> occurs_at p (drop i s) (j - i).
Proof.
  intros Hi Hij. rewrite !occurs_at_drop, drop_drop, length_drop. replace (i + (j - i))%nat with j by lia.
  split; [intros [? ?]; split; [lia|done]|]. intros [? Hp]. split; [lia|done].
Qed.

(** Where a search starts, as a position. *)
Lemma py_find_spec s p (i : nat) :
  (i <= length s)%nat ->
  match py_find s p (Z.of_nat i) with
  | Some k => (i <= k)%nat /\ occurs_at p s k /\ forall j, (i <= j)%nat -> occurs_at p s j -> (k <= j)%nat
  | None => forall j, (i <= j)%nat -> ~ occurs_at p s j
  end.
Proof.
  intros Hi. unfold py_find. rewrite (proj2 (Z.ltb_ge (Z.of_nat i) 0)) by lia. rewrite (proj2 (Z.ltb_ge _ _)) by lia. rewrite Nat2Z.id.
  pose proof (find_in_spec p (drop i s) i) as H. destruct (find_in p (drop i s) i) as [k|].
  - destruct H as (Hk & Ho & Hmin). split; [done|]. split; [by rewrite (occurs_at_tail p s i k)|].
    intros j Hj. rewrite (occurs_at_tail p s i j) by done. intros ?%Hmin. lia.
  - intros j Hj. rewrite (occurs_at_tail p s i j) by done. apply H.
Qed.
Lemma py_find_end s p n : 0 < n -> py_find s p (- n) = py_find s p (Z.of_nat (length s - Z.to_nat n)).
Proof.
  intros Hn. unfold py_find. rewrite (proj2 (Z.ltb_lt (- n) 0)) by lia. rewrite (proj2 (Z.ltb_ge (Z.of_nat _) 0)) by lia.
  by replace (Z.max 0 (Z.of_nat (length s) + - n)) with (Z.of_nat (length s - Z.to_nat n)) by lia.
Qed.
Lemma py_find_none s p : py_find s p 0 = None <-> ~ occurs_in p s.
Proof.
  pose proof (py_find_spec s p 0 ltac:(lia)) as H. change (Z.of_nat 0) with 0 in H. destruct (py_find s p 0) as [k|].
  - split; [done|]. intros Hn. exfalso. apply Hn. exists k. apply H.
  - split; [|done]. intros _ [j Hj]. by apply (H j); [lia|].
Qed.

(** [s[:n]] for a length. *)
Lemma py_upto {A} (s : list A) n : py_slice s 0 n = if n <? 0 then take (Z.to_nat (Z.of_nat (length s) + n)) s else take (Z.to_nat n) s.
Proof.
  unfold py_slice, py_index. change (0 <? 0) with false. cbn iota. rewrite (Z.min_r _ 0) by lia. rewrite Z.sub_0_r, drop_0. destruct (Z.ltb_spec n 0).
  - f_equal. lia.
  - destruct (Z.min_spec (Z.of_nat (length s)) n) as [[? ->]|[? ->]]; [|done]. rewrite Nat2Z.id. by rewrite !take_ge by lia.
Qed.

(** ** Incremental detokenization *)
(** ** [StopChecker.check_stop_strings] *)

(** The matched stop string, and the length to keep, -1 for everything. *)
Fixpoint stop_loop (output_text : text) (new_char_count : Z) (stop : list text) (include_in_output : bool) : option (text * Z) :=
  match stop with
  | [] => None
  | stop_str :: stop =>
      let stop_string_len := Z.of_nat (length stop_str) in
      match py_find output_text stop_str (1 - new_char_count - stop_string_len) with
      | None => stop_loop output_text new_char_count stop include_in_output
      | Some i =>
          let stop_index := Z.of_nat i in
          if include_in_output then
            let stop_index := stop_index + stop_string_len in
            if Z.of_nat (length output_text) <=? stop_index then Some (stop_str, -1) else Some (stop_str, stop_index)
          else Some (stop_str, stop_index)
      end
  end.
Definition check_stop_strings (output_text : text) (new_char_count : Z) (stop : list text) (include_in_output : bool) : option (text * Z) :=
  if (new_char_count =? 0) || bool_decide (stop = []) then None else stop_loop output_text new_char_count stop include_in_output.

(** [finish_reason == FinishReason.STOP] *)
Definition is_stop (reason : option FinishReason) : bool := match reason with Some STOP => true | _ => false end.

(** ** Detokenizers *)

(** [decode_next] of a subclass: the text of one more token. *)
Class TextDecoder (D : Type) : Type := decode_next : D -> Z -> res (text * D).

(** [BaseIncrementalDetokenizer]; [d_prompt_len] is 0 for the subclass that does not
    keep the prompt in [token_ids]. *)
Record BaseDetokenizer (D : Type) : Type := {
  d_token_ids : list Z;
  d_prompt_len : nat;
  d_stop : list text;
  d_include_stop : bool;
  stop_buffer_length : Z;
  last_output_text_offset : Z;
  output_text : text;
  decoder : D }.
Arguments d_token_ids {D} _. Arguments d_prompt_len {D} _. Arguments d_stop {D} _. Arguments d_include_stop {D} _.
Arguments stop_buffer_length {D} _. Arguments last_output_text_offset {D} _. Arguments output_text {D} _. Arguments decoder {D} _.

(** [IncrementalDetokenizer]: without a tokenizer it only keeps the tokens. *)
Inductive Detokenizer (D : Type) : Type :=
| TokensOnly (token_ids : list Z)
| WithText (b : BaseDetokenizer D).
Arguments TokensOnly {D} _. Arguments WithText {D} _.

Section detokenizer.
Context {D : Type} `{!TextDecoder D}.
Notation Base := (BaseDetokenizer D).

Definition make_base (stop : list text) (include_stop : bool) (token_ids : list Z) (prompt_len : nat) (dec : D) : Base :=
  {| d_token_ids := token_ids; d_prompt_len := prompt_len; d_stop := stop; d_include_stop := include_stop;
     stop_buffer_length := if negb (bool_decide (stop = [])) && negb include_stop then zmax_list 0 (map (fun s => Z.of_nat (length s)) stop) - 1 else 0;
     last_output_text_offset := 0; output_text := []; decoder := dec |}.
Definition with_text (d : Base) (ids : list Z) (t : text) (dec : D) : Base :=
  {| d_token_ids := ids; d_prompt_len := d_prompt_len d; d_stop := d_stop d; d_include_stop := d_include_stop d;
     stop_buffer_length := stop_buffer_length d; last_output_text_offset := last_output_text_offset d; output_text := t; decoder := dec |}.
Definition with_offset (d : Base) (o : Z) : Base :=
  {| d_token_ids := d_token_ids d; d_prompt_len := d_prompt_len d; d_stop := d_stop d; d_include_stop := d_include_stop d;
     stop_buffer_length := stop_buffer_length d; last_output_text_offset := o; output_text := output_text d; decoder := decoder d |}.

Definition base_output_token_ids (d : Base) : list Z :=
  if (d_prompt_len d =? 0)%nat then d_token_ids d else drop (d_prompt_len d) (d_token_ids d).

(** [for new_token_id in new_token_ids: ...] *)
Fixpoint decode_tokens (d : Base) (new_token_ids : list Z) : res Base :=
  match new_token_ids with
  | [] => Ok d
  | new_token_id :: new_token_ids =>
      let! '(t, dec) := decode_next (decoder d) new_token_id in
      decode_tokens (with_text d (d_token_ids d ++ [new_token_id]) (output_text d ++ t) dec) new_token_ids
  end.
Definition base_update (d : Base) (new_token_ids : list Z) (stop_terminated : bool) : res (option text * Base) :=
  if bool_decide (new_token_ids = []) then Ok (None, d)
  else
    let skip := stop_terminated && negb (d_include_stop d) in
    let! skipped_stop_token_id := (if skip then let! x := py_nth new_token_ids (-1) in Ok [x] else Ok []) in
    let new_token_ids := if skip then py_slice new_token_ids 0 (-1) else new_token_ids in
    let offset_before := Z.of_nat (length (output_text d)) in
    let! d := decode_tokens d new_token_ids in
    if stop_terminated then Ok (None, with_text d (d_token_ids d ++ skipped_stop_token_id) (output_text d) (decoder d))
    else if bool_decide (d_stop d = []) then Ok (None, d)
    else
      match check_stop_strings (output_text d) (Z.of_nat (length (output_text d)) - offset_before) (d_stop d) (d_include_stop d) with
      | None => Ok (None, d)
      | Some (stop_string, truncate_to) =>
          Ok (Some stop_string, if truncate_to =? -1 then d else with_text d (d_token_ids d) (py_slice (output_text d) 0 truncate_to) (decoder d))
      end.
Definition base_get_next_output_text (d : Base) (finished delta : bool) : text * Base :=
  let buffer_length := if finished then 0 else stop_buffer_length d in
  if negb delta then (if buffer_length =? 0 then output_text d else py_slice (output_text d) 0 (- buffer_length), d)
  else
    let len := Z.of_nat (length (output_text d)) - buffer_length in
    let last_offset := last_output_text_offset d in
    if last_offset <? len then (py_slice (output_text d) last_offset len, with_offset d len) else ([], d).

(** The three methods of [IncrementalDetokenizer]. *)
Definition output_token_ids (d : Detokenizer D) : list Z :=
  match d with TokensOnly ids => ids | WithText b => base_output_token_ids b end.
Definition update (d : Detokenizer D) (new_token_ids : list Z) (stop_terminated : bool) : res (option text * Detokenizer D) :=
  match d with
  | TokensOnly ids => Ok (None, TokensOnly (ids ++ new_token_ids))
  | WithText b => let! '(s, b) := base_update b new_token_ids stop_terminated in Ok (s, WithText b)
  end.
Definition get_next_output_text (d : Detokenizer D) (finished delta : bool) : text * Detokenizer D :=
  match d with
  | TokensOnly ids => ([], d)
  | WithText b => let '(t, b) := base_get_next_output_text b finished delta in (t, WithText b)
  end.

(** Decoding without the state around it. *)
Fixpoint decode_all (dec : D) (ids : list Z) : res (text * D) :=
  match ids with
  | [] => Ok ([], dec)
  | id :: ids => let! '(t, dec) := decode_next dec id in let! '(ts, dec) := decode_all dec ids in Ok (t ++ ts, dec)
  end.
End detokenizer.
