(* ===== verification/Streaming.v ===== *)
(** * The streamed text

    What a client receives of a request: the pieces of text of all steps, put
    together, are the text that decoding everything and cutting at the first stop
    string would give, although every step searches only the end of the text and
    sends what it holds already. *)

From stdpp Require Import base list.
From Stdlib Require Import ZArith Lia.
From S2P Require Import Prelude Request Detokenizer.
Open Scope list_scope.
Open Scope Z_scope.

(** ** The reference: search the whole text *)

(** The first string of [stop] that the text contains, and what is kept. *)
Fixpoint first_stop (stop : list text) (include_stop : bool) (t : text) : option (text * text) :=
  match stop with
  | [] => None
  | s :: stop =>
      match py_find t s 0 with
      | Some i => Some (s, take (if include_stop then i + length s else i)%nat t)
      | None => first_stop stop include_stop t
      end
  end.
Definition clean (stop : list text) (t : text) : Prop := forall s, s ∈ stop -> ~ occurs_in s t.

Lemma clean_first_stop stop inc t : first_stop stop inc t = None <-> clean stop t.
Proof.
  induction stop as [|s stop IH]; cbn; [split; [by intros _ s ?%elem_of_nil|done]|].
  destruct (py_find t s 0) as [i|] eqn:E.
  - split; [done|]. intros Hc. exfalso. apply (Hc s); [by left|]. exists i. pose proof (py_find_spec t s 0 ltac:(lia)) as H. change (Z.of_nat 0) with 0 in H. rewrite E in H. apply H.
  - rewrite IH. apply py_find_none in E. split; [intros Hc s' [->|?]%elem_of_cons; [done|by apply Hc]|intros Hc s' ?; apply Hc; by right].
Qed.

Lemma occurs_in_app_l p s t : occurs_in p s -> occurs_in p (s ++ t).
Proof. intros (i & u & v & -> & <-). exists (length u), u, (v ++ t). by rewrite <-!app_assoc. Qed.
Lemma occurs_at_app_l p s t i : occurs_at p (s ++ t) i -> (i + length p <= length s)%nat -> occurs_at p s i.
Proof.
  rewrite !occurs_at_drop, !is_prefix_iff. intros [_ (v & Hv)] Hl. split; [lia|].
  rewrite drop_app_le in Hv by lia. exists (take (length s - i - length p) v).
  apply (f_equal (take (length s - i))) in Hv. rewrite take_app_length' in Hv by (rewrite length_drop; lia).
  rewrite Hv, take_app. rewrite (take_ge p) by lia. done.
Qed.

(** The window is wide enough: what was searched before needs no second look. *)
Lemma window_find s t c :
  (0 < length s)%nat -> (0 < length c)%nat -> ~ occurs_in s t ->
  py_find (t ++ c) s (1 - Z.of_nat (length c) - Z.of_nat (length s)) = py_find (t ++ c) s 0 /\
  forall i, py_find (t ++ c) s 0 = Some i -> (i + length s <= length (t ++ c))%nat /\ (length t < i + length s)%nat.
Proof.
  intros Hs Hc Hno. replace (1 - Z.of_nat (length c) - Z.of_nat (length s)) with (- (Z.of_nat (length c) + Z.of_nat (length s) - 1)) by lia.
  rewrite py_find_end by lia. set (i0 := (length (t ++ c) - Z.to_nat (Z.of_nat (length c) + Z.of_nat (length s) - 1))%nat).
  assert (Hbefore : forall j, occurs_at s (t ++ c) j -> (length t < j + length s)%nat).
  { intros j Hj. destruct (Nat.lt_ge_cases (length t) (j + length s)) as [?|Hle]; [done|]. exfalso. apply Hno. exists j. by apply (occurs_at_app_l _ _ c). }
  assert (Hi0 : (i0 <= length (t ++ c))%nat) by (unfold i0; lia).
  assert (Hlt : forall j, occurs_at s (t ++ c) j -> (i0 <= j)%nat) by (intros j Hj%Hbefore; unfold i0; rewrite length_app; lia).
  pose proof (py_find_spec (t ++ c) s i0 Hi0) as H1. pose proof (py_find_spec (t ++ c) s 0 ltac:(lia)) as H2. change (Z.of_nat 0) with 0 in H2.
  destruct (py_find (t ++ c) s (Z.of_nat i0)) as [i|], (py_find (t ++ c) s 0) as [j|].
  - destruct H1 as (? & Ho1 & Hm1), H2 as (_ & Ho2 & Hm2). assert (i = j) as ->.
    { apply Nat.le_antisymm; [apply Hm1; [by apply Hlt|done]|apply Hm2; [lia|done]]. }
    split; [done|]. intros k [= <-]. split; [by apply occurs_at_length|by apply Hbefore].
  - destruct H1 as (? & Ho1 & _). exfalso. apply (H2 i); [lia|done].
  - destruct H2 as (_ & Ho2 & _). exfalso. apply (H1 j); [by apply Hlt|done].
  - done.
Qed.

Lemma check_is_reference stop inc t c :
  (forall s, s ∈ stop -> (0 < length s)%nat) -> clean stop t -> (0 < length c)%nat ->
  match stop_loop (t ++ c) (Z.of_nat (length c)) stop inc with
  | None => first_stop stop inc (t ++ c) = None
  | Some (s, n) => exists i, s ∈ stop /\ first_stop stop inc (t ++ c) = Some (s, if n =? -1 then t ++ c else py_slice (t ++ c) 0 n) /\
      (length t < i + length s)%nat /\ length (if n =? -1 then t ++ c else py_slice (t ++ c) 0 n) = (if inc then i + length s else i)%nat
  end.
Proof.
  intros Hne. induction stop as [|s stop IH]; [done|]. intros Hcl Hc. cbn [stop_loop first_stop].
  destruct (window_find s t c) as [Hw Hi]; [by apply Hne; left|done|by apply Hcl; left|]. rewrite Hw.
  destruct (py_find (t ++ c) s 0) as [i|].
  - destruct (Hi i eq_refl) as [H1 H2]. destruct inc.
    + destruct (Z.leb_spec (Z.of_nat (length (t ++ c))) (Z.of_nat i + Z.of_nat (length s))).
      * exists i. split; [by left|]. cbn. split; [by rewrite take_ge by lia|]. split; [done|lia].
      * exists i. split; [by left|]. rewrite (proj2 (Z.eqb_neq _ _)) by lia. rewrite py_upto, (proj2 (Z.ltb_ge _ _)) by lia.
        replace (Z.to_nat (Z.of_nat i + Z.of_nat (length s))) with (i + length s)%nat by lia. split; [done|]. split; [done|]. rewrite length_take. lia.
    + exists i. split; [by left|]. rewrite (proj2 (Z.eqb_neq _ _)) by lia. rewrite py_upto, (proj2 (Z.ltb_ge _ _)) by lia. rewrite Nat2Z.id.
      split; [done|]. split; [done|]. rewrite length_take. lia.
  - specialize (IH ltac:(intros s' ?; apply Hne; by right) ltac:(intros s' ?; apply Hcl; by right) Hc).
    destruct (stop_loop (t ++ c) (Z.of_nat (length c)) stop inc) as [[s' n]|]; [|done]. destruct IH as (j & ? & ?). exists j. split; [by right|done].
Qed.

Section stream.
Context {D : Type} `{!TextDecoder D}.
Notation Base := (BaseDetokenizer D).

(** One request's outputs of the engine: new tokens, and why it finished. *)
Notation output := (list Z * option FinishReason)%type.

(** What [process_outputs] does with the text of one request, in the streaming modes
    [DELTA] and [CUMULATIVE], until the request is finished: the texts sent, whether
    it finished, and the stop string. *)
Fixpoint stream (delta : bool) (d : Base) (outs : list output) : res (list text * (bool * option text) * Base) :=
  match outs with
  | [] => Ok ([], (false, None), d)
  | (ids, reason) :: outs =>
      let! '(stop_string, d) := base_update d ids (is_stop reason) in
      let finished := bool_decide (is_Some reason) || bool_decide (is_Some stop_string) in
      let '(t, d) := base_get_next_output_text d finished delta in
      if finished then Ok ([t], (true, stop_string), d)
      else let! '(ts, fin, d) := stream delta d outs in Ok (t :: ts, fin, d)
  end.

(** The reference decodes the tokens ([decode_all], but the stop token, unless it belongs to the
    output) and searches the whole text after every step. *)
Definition shown (include_stop : bool) (ids : list Z) (reason : option FinishReason) : list Z :=
  if is_stop reason && negb include_stop then removelast ids else ids.
Fixpoint reference (stop : list text) (include_stop : bool) (t : text) (dec : D) (outs : list output) : res (text * (bool * option text)) :=
  match outs with
  | [] => Ok (t, (false, None))
  | (ids, reason) :: outs =>
      let! '(c, dec) := decode_all dec (shown include_stop ids reason) in
      match (if is_stop reason then None else first_stop stop include_stop (t ++ c)), reason with
      | Some (s, kept), _ => Ok (kept, (true, Some s))
      | None, Some _ => Ok (t ++ c, (true, None))
      | None, None => reference stop include_stop (t ++ c) dec outs
      end
  end.

Lemma decode_tokens_ok ids : forall d : Base,
  decode_tokens d ids = let! '(t, dec) := decode_all (decoder d) ids in Ok (with_text d (d_token_ids d ++ ids) (output_text d ++ t) dec).
Proof.
  induction ids as [|id ids IH]; intros d; cbn; [rewrite !app_nil_r; by destruct d|].
  destruct (decode_next (decoder d) id) as [[t dec]|e]; cbn; [|done]. rewrite IH. cbn. destruct (decode_all dec ids) as [[ts dec']|e]; cbn; [|done].
  by rewrite <-!app_assoc.
Qed.

Lemma py_removelast {A} (l : list A) : py_slice l 0 (-1) = removelast l.
Proof.
  rewrite py_upto. change (-1 <? 0) with true. cbn iota. rewrite removelast_firstn_len. f_equal. lia.
Qed.
Lemma py_last {A} (l : list A) : l <> [] -> exists x, py_nth l (-1) = Ok x.
Proof.
  intros Hl. unfold py_nth. change (-1 <? 0) with true. cbn iota. destruct l as [|y l]; [done|]. rewrite (proj2 (Z.ltb_ge _ _)) by (cbn [length]; lia).
  destruct (lookup_lt_is_Some_2 (y :: l) (Z.to_nat (-1 + Z.of_nat (length (y :: l))))) as [x ->]; [cbn [length]; lia|]. by exists x.
Qed.

(** *** One step *)

Record sending (d : Base) (sent : text) : Prop := {
  sd_stop s : s ∈ d_stop d -> (0 < length s)%nat /\ (d_include_stop d = false -> Z.of_nat (length s) <= stop_buffer_length d + 1);
  sd_buffer : 0 <= stop_buffer_length d;
  sd_include : d_include_stop d = true -> stop_buffer_length d = 0;
  sd_clean : clean (d_stop d) (output_text d);
  sd_offset : last_output_text_offset d = Z.max 0 (Z.of_nat (length (output_text d)) - stop_buffer_length d);
  sd_sent : sent = take (Z.to_nat (last_output_text_offset d)) (output_text d) }.

(** The fields that a step leaves alone. *)
Definition same_stop (d d' : Base) : Prop :=
  d_stop d' = d_stop d /\ d_include_stop d' = d_include_stop d /\ stop_buffer_length d' = stop_buffer_length d.

Lemma base_update_step (d : Base) sent ids reason :
  sending d sent ->
  match decode_all (decoder d) (shown (d_include_stop d) ids reason) with
  | Raise e => base_update d ids (is_stop reason) = Raise e
  | Ok (c, dec) =>
      exists s d', base_update d ids (is_stop reason) = Ok (s, d') /\ same_stop d d' /\ decoder d' = dec /\ last_output_text_offset d' = last_output_text_offset d /\
        (last_output_text_offset d <= Z.of_nat (length (output_text d')))%Z /\ take (Z.to_nat (last_output_text_offset d)) (output_text d') = sent /\
        match (if is_stop reason then None else first_stop (d_stop d) (d_include_stop d) (output_text d ++ c)) with
        | Some (s', kept) => s = Some s' /\ output_text d' = kept
        | None => s = None /\ output_text d' = output_text d ++ c
        end
  end.
Proof.
  intros [S1 S2 S3 S4 S5 S6]. unfold base_update. set (o := last_output_text_offset d) in *.
  assert (Ho : 0 <= o <= Z.of_nat (length (output_text d))) by lia.
  assert (Hkeep : forall c, take (Z.to_nat o) (output_text d ++ c) = sent) by (intros c; rewrite take_app_le by lia; done).
  destruct (bool_decide_reflect (ids = [])) as [->|Hids].
  { assert (shown (d_include_stop d) [] reason = []) as -> by (unfold shown; by destruct (_ && _)). cbn. exists None, d. rewrite app_nil_r.
    repeat split; try done; try lia. destruct (is_stop reason); [done|]. by rewrite (proj2 (clean_first_stop _ _ _) S4). }
  assert (Hshown : (if is_stop reason && negb (d_include_stop d) then py_slice ids 0 (-1) else ids) = shown (d_include_stop d) ids reason).
  { unfold shown. by rewrite py_removelast. }
  rewrite Hshown. destruct (py_last ids Hids) as [x Hx].
  assert (exists l, (if is_stop reason && negb (d_include_stop d) then let! x := py_nth ids (-1) in Ok [x] else Ok []) = Ok l) as [skipped ->].
  { rewrite Hx. destruct (_ && _); by eexists. }
  cbn [bind]. rewrite decode_tokens_ok. destruct (decode_all (decoder d) _) as [[c dec]|e]; cbn [bind]; [|done].
  cbn [output_text with_text d_stop d_include_stop d_token_ids decoder].
  destruct (is_stop reason) eqn:Er.
  { eexists None, _. split; [reflexivity|]. cbn. repeat split; [rewrite length_app; lia|apply Hkeep]. }
  destruct (bool_decide_reflect (d_stop d = [])) as [E|E].
  { eexists None, _. split; [reflexivity|]. cbn. rewrite E. repeat split; [rewrite length_app; lia|apply Hkeep]. }
  rewrite length_app, Nat2Z.inj_add, Z.add_simpl_l. unfold check_stop_strings. rewrite (bool_decide_eq_false_2 _ E), orb_false_r.
  destruct (Z.eqb_spec (Z.of_nat (length c)) 0) as [Hc|Hc].
  { assert (c = []) as -> by (by destruct c). eexists None, _. split; [reflexivity|]. cbn. rewrite app_nil_r, (proj2 (clean_first_stop _ _ _) S4).
    repeat split; [lia|congruence]. }
  pose proof (check_is_reference (d_stop d) (d_include_stop d) (output_text d) c ltac:(intros; by apply S1) S4 ltac:(lia)) as H.
  destruct (stop_loop _ _ _ _) as [[s n]|].
  - destruct H as (i & Hs & -> & H1 & H2). eexists (Some s), _. split; [reflexivity|]. destruct (S1 s Hs) as [_ Hb].
    assert (Hlen : o <= Z.of_nat (if d_include_stop d then i + length s else i)).
    { destruct (d_include_stop d) eqn:Ei; [specialize (S3 eq_refl); lia|specialize (Hb eq_refl); lia]. }
    destruct (Z.eqb_spec n (-1)) as [En|En]; cbn; (split; [done|]); (split; [done|]); (split; [done|]); (split; [lia|]); (split; [|done]); [apply Hkeep|].
    rewrite py_upto in *. assert (Hn : (n <? 0) = false \/ (n <? 0) = true) by (destruct (n <? 0); tauto).
    rewrite <-(Hkeep c). destruct Hn as [Hn|Hn]; rewrite Hn in *; rewrite take_take; f_equal; rewrite length_take in H2; lia.
  - rewrite H. eexists None, _. split; [reflexivity|]. cbn. repeat split; [rewrite length_app; lia|apply Hkeep].
Qed.

(** The text of a step: up to the buffer, or everything at the end. *)
Definition due (d : Base) (finished : bool) : text :=
  if finished then output_text d else take (Z.to_nat (Z.of_nat (length (output_text d)) - stop_buffer_length d)) (output_text d).

Lemma delta_step (d : Base) sent finished :
  0 <= stop_buffer_length d -> 0 <= last_output_text_offset d <= Z.of_nat (length (output_text d)) ->
  (finished = false -> last_output_text_offset d <= Z.max 0 (Z.of_nat (length (output_text d)) - stop_buffer_length d)) ->
  take (Z.to_nat (last_output_text_offset d)) (output_text d) = sent ->
  exists t o, base_get_next_output_text d finished true = (t, with_offset d o) /\ sent ++ t = due d finished /\
    (finished = false -> o = Z.max 0 (Z.of_nat (length (output_text d)) - stop_buffer_length d)).
Proof.
  intros Hb Ho Hf Hsent. unfold base_get_next_output_text. cbn [negb]. set (o := last_output_text_offset d) in *.
  set (n := Z.of_nat (length (output_text d)) - (if finished then 0 else stop_buffer_length d)).
  assert (Hdue : due d finished = take (Z.to_nat n) (output_text d)).
  { unfold due, n. destruct finished; [|done]. rewrite Z.sub_0_r, Nat2Z.id. by rewrite take_ge. }
  destruct (Z.ltb_spec o n) as [Hlt|Hge].
  - eexists _, n. split; [reflexivity|]. rewrite Hdue, <-Hsent. split.
    + replace o with (Z.of_nat (Z.to_nat o)) at 2 by lia. replace n with (Z.of_nat (Z.to_nat n)) at 1 by lia.
      rewrite py_slice_drop_take by (destruct finished; lia). rewrite <-(take_drop (Z.to_nat o) (take (Z.to_nat n) (output_text d))).
      rewrite take_take, Nat.min_l by lia. by rewrite skipn_firstn_comm.
    + intros ->. lia.
  - exists [], o. split; [by destruct d|]. rewrite app_nil_r, Hdue, <-Hsent. split.
    + destruct finished; [rewrite !take_ge by lia; done|]. specialize (Hf eq_refl). f_equal. lia.
    + intros ->. specialize (Hf eq_refl). lia.
Qed.
Lemma cumulative_step (d : Base) finished :
  0 <= stop_buffer_length d -> base_get_next_output_text d finished false = (due d finished, d).
Proof.
  intros Hb. unfold base_get_next_output_text, due. cbn [negb]. destruct finished; [done|]. destruct (Z.eqb_spec (stop_buffer_length d) 0) as [->|Hn].
  - rewrite Z.sub_0_r, Nat2Z.id. by rewrite take_ge.
  - f_equal. rewrite py_upto, (proj2 (Z.ltb_lt _ _)) by lia. done.
Qed.

(** *** All steps *)

(** What a client has after each piece. *)
Fixpoint accumulate (sent : text) (ts : list text) : list text :=
  match ts with [] => [] | t :: ts => (sent ++ t) :: accumulate (sent ++ t) ts end.

Lemma update_offset (d : Base) o ids reason :
  base_update (with_offset d o) ids (is_stop reason) = let! '(s, d') := base_update d ids (is_stop reason) in Ok (s, with_offset d' o).
Proof.
  unfold base_update. destruct (bool_decide _); [done|]. cbn [with_offset d_include_stop output_text d_stop].
  match goal with |- bind ?m _ = _ => destruct m as [sk|e]; cbn [bind]; [|done] end.
  rewrite !decode_tokens_ok. cbn [with_offset decoder d_token_ids output_text]. destruct (decode_all _ _) as [[t dec]|e]; cbn [bind]; [|done].
  destruct (is_stop reason); [done|]. cbn. destruct (bool_decide _); [done|]. destruct (check_stop_strings _ _ _ _) as [[s n]|]; [|done]. cbn. by destruct (n =? -1).
Qed.

Lemma stream_spec outs : forall (d : Base) sent,
  sending d sent ->
  match reference (d_stop d) (d_include_stop d) (output_text d) (decoder d) outs with
  | Raise e => stream true d outs = Raise e /\ stream false (with_offset d 0) outs = Raise e
  | Ok (t, (fin, stop_string)) => exists ts d1 d2,
      stream true d outs = Ok (ts, (fin, stop_string), d1) /\ output_text d1 = t /\ sent ++ concat ts = due d1 fin /\ stop_buffer_length d1 = stop_buffer_length d /\
      stream false (with_offset d 0) outs = Ok (accumulate sent ts, (fin, stop_string), d2) /\ output_text d2 = t
  end.
Proof.
  induction outs as [|[ids reason] outs IH]; intros d sent Hs; cbn [reference stream].
  { exists [], d, (with_offset d 0). repeat split; try done. rewrite app_nil_r. destruct Hs as [_ ? _ _ So ->]. unfold due. f_equal. lia. }
  pose proof (base_update_step d sent ids reason Hs) as Hu. destruct (decode_all (decoder d) _) as [[c dec]|e]; cbn [bind].
  2:{ rewrite update_offset, Hu. done. }
  destruct Hu as (s & d' & Hu & (E1 & E2 & E3) & Edec & Eo & Hle & Hsent & Htext). rewrite update_offset, Hu. cbn [bind].
  destruct Hs as [S1 S2 S3 S4 S5 S6]. set (stopped := if is_stop reason then None else first_stop _ _ _) in *.
  set (fin := bool_decide (is_Some reason) || bool_decide (is_Some s)).
  destruct (delta_step d' sent fin) as (t & o & Ht & Happ & Hoff); [by rewrite E3|lia| |by rewrite Eo|].
  { rewrite Eo, E3, S5. intros Hfin. assert (Hs : s = None) by (unfold fin in Hfin; destruct s; [by rewrite orb_true_r in Hfin|done]).
    assert (output_text d' = output_text d ++ c) as ->; [|rewrite length_app; lia]. destruct stopped as [[]|]; [naive_solver|]. apply Htext. }
  rewrite Ht, (cumulative_step (with_offset d' 0)) by (cbn; lia). cbn.
  assert (Hdone : fin = true -> exists d1 d2,
    (if fin then Ok ([t], (true, s), with_offset d' o) else let! '(ts, fi, d) := stream true (with_offset d' o) outs in Ok (t :: ts, fi, d)) = Ok ([t], (true, s), d1) /\
    output_text d1 = output_text d' /\ sent ++ concat [t] = due d1 true /\ stop_buffer_length d1 = stop_buffer_length d /\
    (if fin then Ok ([due (with_offset d' 0) fin], (true, s), with_offset d' 0) else let! '(ts, fi, d) := stream false (with_offset d' 0) outs in Ok (due (with_offset d' 0) fin :: ts, fi, d))
      = Ok (accumulate sent [t], (true, s), d2) /\ output_text d2 = output_text d').
  { intros ->. exists (with_offset d' o), (with_offset d' 0). cbn. rewrite app_nil_r, Happ. done. }
  destruct stopped as [[s' kept]|] eqn:Est.
  - destruct Htext as [-> <-]. destruct Hdone as (d1 & d2 & H); [by unfold fin; rewrite orb_true_r|]. exists [t], d1, d2. exact H.
  - destruct Htext as [-> Htext]. destruct reason as [r|].
    + destruct Hdone as (d1 & d2 & H); [done|]. rewrite <-Htext. exists [t], d1, d2. exact H.
    + cbn in fin. unfold fin in *. cbn in Est. specialize (IH (with_offset d' o) (sent ++ t)). cbn in IH. rewrite E1, E2, Edec, Htext in IH.
      assert (Hsend : sending (with_offset d' o) (sent ++ t)).
      { split; cbn; rewrite ?E1, ?E2, ?E3; try done.
        - rewrite Htext. by apply (clean_first_stop _ (d_include_stop d)).
        - rewrite Hoff by done. by rewrite E3.
        - rewrite Happ, (Hoff eq_refl). unfold due. f_equal. lia. }
      specialize (IH Hsend). destruct (reference _ _ (output_text d ++ c) dec outs) as [[t' [fi so]]|e].
      * destruct IH as (ts & d1 & d2 & H1 & H2 & H3 & Hb & H4 & H5). exists (t :: ts), d1, d2. rewrite H1. cbn [bind].
        split; [done|]. split; [done|]. split; [cbn; by rewrite app_assoc|]. split; [by rewrite Hb|]. split; [|done]. cbn [accumulate]. rewrite Happ in *. unfold with_offset in H4 |- *. cbn in H4 |- *. rewrite H4. done.
      * destruct IH as [H1 H2]. rewrite H1. unfold with_offset in H2 |- *. cbn in H2 |- *. rewrite H2. done.
Qed.

Lemma make_base_sending stop inc ids n (dec : D) : (forall s, s ∈ stop -> s <> []) -> sending (make_base stop inc ids n dec) [].
Proof.
  intros Hne. assert (Hlen : forall s, s ∈ stop -> (0 < length s)%nat) by (intros s Hs%Hne; destruct s; [done|cbn; lia]).
  assert (Hmax : forall s, s ∈ stop -> Z.of_nat (length s) <= zmax_list 0 (map (fun s => Z.of_nat (length s)) stop)).
  { intros s Hs. apply zmax_list_ge, list_elem_of_fmap. by exists s. }
  assert (Hb : 0 <= stop_buffer_length (make_base stop inc ids n dec)).
  { cbn. destruct (bool_decide_reflect (stop = [])) as [|Hn]; [done|]. destruct inc; [done|]. cbn. destruct stop as [|s l]; [done|].
    specialize (Hmax s ltac:(left)). specialize (Hlen s ltac:(left)). lia. }
  split; cbn -[Z.max].
  - intros s Hs. split; [by apply Hlen|]. intros ->. destruct (bool_decide_reflect (stop = [])) as [->|]; [by apply elem_of_nil in Hs|]. cbn. specialize (Hmax s Hs). lia.
  - exact Hb.
  - intros ->. by rewrite andb_false_r.
  - intros s Hs [i Ho]. apply occurs_at_length in Ho. specialize (Hlen s Hs). cbn in Ho. lia.
  - cbn in Hb. lia.
  - done.
Qed.

(** C14. Streaming does not change the text.  A request is decoded step by step, each
    step searches only the end of the text for stop strings and sends only what no
    stop string can cut off any more; put together, the pieces are what decoding all
    tokens and searching the whole text after every step would give, cut at the stop
    string.  Until the end exactly the text but the buffer has been sent, the
    cumulative mode sends what the pieces add up to, so that no text that was sent is
    ever taken back, and an exception of the decoder comes at the same step. *)
Theorem streamed_text_ok stop inc ids n (dec : D) outs :
  (forall s, s ∈ stop -> s <> []) ->
  let d := make_base stop inc ids n dec in
  match reference stop inc [] dec outs with
  | Raise e => stream true d outs = Raise e /\ stream false d outs = Raise e
  | Ok (t, (finished, stop_string)) => exists ts d1 d2,
      stream true d outs = Ok (ts, (finished, stop_string), d1) /\
      stream false d outs = Ok (accumulate [] ts, (finished, stop_string), d2) /\
      concat ts = (if finished then t else take (Z.to_nat (Z.of_nat (length t) - stop_buffer_length d)) t)
  end.
Proof.
  intros Hne d. pose proof (stream_spec outs d [] (make_base_sending stop inc ids n dec Hne)) as H. cbn [d make_base d_stop d_include_stop output_text decoder] in H.
  destruct (reference stop inc [] dec outs) as [[t [fin so]]|e]; [|done]. destruct H as (ts & d1 & d2 & H1 & H2 & H3 & Hb & H4 & _). exists ts, d1, d2.
  split; [exact H1|]. split; [exact H4|]. cbn in H3. rewrite H3. unfold due. by rewrite H2, Hb.
Qed.
End stream.

(** ** Examples *)

(** One character per token. *)
Definition char_decoder : TextDecoder unit := fun d id => Ok ([id], d).
#[local] Existing Instance char_decoder.

(** The stop string [2; 3] arrives in two steps; nothing of it is sent. *)
Lemma streamed_text_ok_witness :
  (forall s, s ∈ [[2; 3]] -> s <> []) /\ exists ts d1 d2,
    stream true (make_base [[2; 3]] false [] 0 tt) [([1; 2], None); ([3; 4], None)] = Ok (ts, (true, Some [2; 3]), d1) /\
    stream false (make_base [[2; 3]] false [] 0 tt) [([1; 2], None); ([3; 4], None)] = Ok (accumulate [] ts, (true, Some [2; 3]), d2) /\ concat ts = [1].
Proof.
  assert (H : forall s, s ∈ [[2; 3]] -> s <> []) by (intros s ->%list_elem_of_singleton; discriminate). split; [exact H|].
  exact (streamed_text_ok [[2; 3]] false [] 0 tt [([1; 2], None); ([3; 4], None)] H).
Defined.

(** The order of the list decides, not the place in the text: the text that is kept
    contains another stop string. *)
Lemma stop_string_left_in_text :
  first_stop [[2]; [1]] false [1; 2] = Some ([2], [1]) /\
  exists ts d1, stream true (make_base [[2]; [1]] false [] 0 tt) [([1; 2], None)] = Ok (ts, (true, Some [2]), d1) /\ concat ts = [1].
Proof. split; [reflexivity|]. eexists _, _. split; reflexivity. Qed.
(** Tokens in front of a stop token, in the same step, are not searched. *)
Lemma stop_string_before_stop_token :
  exists ts d1, stream true (make_base [[2]] false [] 0 tt) [([1; 2; 9], Some STOP)] = Ok (ts, (true, None), d1) /\ concat ts = [1; 2].
Proof. eexists _, _. split; reflexivity. Qed.
