(* ===== verification/TextDecoders.v ===== *)
(** * The two incremental decoders

    [SlowIncrementalDetokenizer] and [FastIncrementalDetokenizer] of
    [vllm/v1/engine/detokenizer.py], with
    [vllm/transformers_utils/detokenizer_utils.py].  The tokenizer and the decode
    stream are libraries: their functions are arguments. *)

From stdpp Require Import base gmap list.
From Stdlib Require Import ZArith Lia.
From S2P Require Import Prelude Request Detokenizer.
Open Scope list_scope.
Open Scope Z_scope.

(** What the code uses of a tokenizer: [len(tokenizer)], [is_fast],
    [convert_ids_to_tokens] with [skip_special_tokens], [convert_tokens_to_string],
    [all_special_tokens], the keys of [get_added_vocab()]. *)
Record Tokenizer : Type := {
  vocab_len : Z;
  is_fast : bool;
  convert_ids_to_tokens : list Z -> bool -> list (option text);
  convert_tokens_to_string : list (option text) -> text;
  all_special_tokens : list text;
  added_vocab : list text }.

Definition INITIAL_INCREMENTAL_DETOKENIZATION_OFFSET : Z := 5.

Section slow.
Context (tokenizer : Tokenizer).

Definition _replace_none_with_empty (tokens : list (option text)) : list (option text) := map (fun t => Some (default [] t)) tokens.

(** The loop over the tokens: the finished pieces and the current one. *)
Fixpoint sub_text_loop (skip_special_tokens : bool) (output_tokens : list (option text)) (sub_texts : list text) (current_sub_text : list (option text)) :
    list text * list (option text) :=
  match output_tokens with
  | [] => (sub_texts, current_sub_text)
  | token :: output_tokens =>
      let special := match token with Some t => bool_decide (t ∈ all_special_tokens tokenizer) | None => false end in
      let added := match token with Some t => bool_decide (t ∈ added_vocab tokenizer) | None => false end in
      if skip_special_tokens && special then sub_text_loop skip_special_tokens output_tokens sub_texts current_sub_text
      else if added then
        let sub_texts := if bool_decide (current_sub_text = []) then sub_texts else sub_texts ++ [convert_tokens_to_string tokenizer current_sub_text] in
        sub_text_loop skip_special_tokens output_tokens (sub_texts ++ [default [] token]) []
      else sub_text_loop skip_special_tokens output_tokens sub_texts (current_sub_text ++ [token])
  end.
(** [sep.join(l)] *)
Fixpoint py_join (sep : text) (l : list text) : text :=
  match l with [] => [] | [t] => t | t :: l => t ++ sep ++ py_join sep l end.
Definition _convert_tokens_to_string_with_added_encoders (output_tokens : list (option text)) (skip_special_tokens spaces_between_special_tokens : bool) : text :=
  let '(sub_texts, current_sub_text) := sub_text_loop skip_special_tokens output_tokens [] [] in
  let sub_texts := if bool_decide (current_sub_text = []) then sub_texts else sub_texts ++ [convert_tokens_to_string tokenizer current_sub_text] in
  if spaces_between_special_tokens then py_join [32] sub_texts else concat sub_texts.

Definition convert_prompt_ids_to_tokens (prompt_ids : list Z) (skip_special_tokens : bool) : list (option text) * nat * nat :=
  let new_tokens := convert_ids_to_tokens tokenizer (py_from prompt_ids (- INITIAL_INCREMENTAL_DETOKENIZATION_OFFSET - 2)) skip_special_tokens in
  let read_offset := length new_tokens in
  let prefix_offset := (read_offset - Z.to_nat INITIAL_INCREMENTAL_DETOKENIZATION_OFFSET)%nat in
  (_replace_none_with_empty new_tokens, prefix_offset, read_offset).

Definition to_string (skip_special_tokens spaces_between_special_tokens : bool) (tokens : list (option text)) : text :=
  if is_fast tokenizer || bool_decide (added_vocab tokenizer = []) then convert_tokens_to_string tokenizer tokens
  else _convert_tokens_to_string_with_added_encoders tokens skip_special_tokens spaces_between_special_tokens.
Definition new_token (new_token_id : Z) (skip_special_tokens : bool) : list (option text) :=
  if (0 <=? new_token_id) && (new_token_id <? vocab_len tokenizer) then convert_ids_to_tokens tokenizer [new_token_id] skip_special_tokens
  else [Some []].
Definition ends_with_replacement (t : text) : bool := bool_decide (last t = Some REPLACEMENT).

(** The new tokens and text, and the new offsets; [prev_tokens] is [None] in the
    first iteration of callers that do not keep the tokens. *)
Definition detokenize_incrementally (all_input_ids : list Z) (prev_tokens : option (list (option text))) (prefix_offset read_offset : nat)
    (skip_special_tokens spaces_between_special_tokens : bool) : res (list (option text) * text * nat * nat) :=
  let! new_token_id := py_nth all_input_ids (-1) in
  let '(tokens, prefix_offset, read_offset) :=
    match prev_tokens with
    | Some tokens => (tokens, prefix_offset, read_offset)
    | None => convert_prompt_ids_to_tokens (py_slice all_input_ids 0 (-1)) skip_special_tokens
    end in
  let new_tokens := new_token new_token_id skip_special_tokens in
  let output_tokens := tokens ++ new_tokens in
  let new_tokens := match prev_tokens with Some _ => new_tokens | None => output_tokens end in
  let string := to_string skip_special_tokens spaces_between_special_tokens in
  let prefix_text := string (take (read_offset - prefix_offset) (drop prefix_offset output_tokens)) in
  let new_text := string (drop prefix_offset output_tokens) in
  if (length new_text <=? length prefix_text)%nat || ends_with_replacement new_text then Ok (new_tokens, [], prefix_offset, read_offset)
  else Ok (new_tokens, drop (length prefix_text) new_text, read_offset, length output_tokens).

(** The state of [SlowIncrementalDetokenizer] besides the base class. *)
Record SlowState : Type := {
  sl_tokens : list (option text);
  sl_prefix_offset : nat;
  sl_read_offset : nat;
  sl_skip_special_tokens : bool;
  sl_spaces_between_special_tokens : bool }.
Definition make_slow (prompt_token_ids : list Z) (skip_special_tokens spaces_between_special_tokens : bool) : SlowState :=
  let '(tokens, prefix_offset, read_offset) := convert_prompt_ids_to_tokens prompt_token_ids skip_special_tokens in
  {| sl_tokens := tokens; sl_prefix_offset := prefix_offset; sl_read_offset := read_offset;
     sl_skip_special_tokens := skip_special_tokens; sl_spaces_between_special_tokens := spaces_between_special_tokens |}.
(** [self.token_ids] ends with the new token. *)
Definition slow_decode_next (d : SlowState) (next_token_id : Z) : res (text * SlowState) :=
  let! '(new_tokens, decoded_text, prefix_offset, read_offset) :=
    detokenize_incrementally [next_token_id] (Some (sl_tokens d)) (sl_prefix_offset d) (sl_read_offset d) (sl_skip_special_tokens d)
      (sl_spaces_between_special_tokens d) in
  Ok (decoded_text,
      {| sl_tokens := sl_tokens d ++ new_tokens; sl_prefix_offset := prefix_offset; sl_read_offset := read_offset;
         sl_skip_special_tokens := sl_skip_special_tokens d; sl_spaces_between_special_tokens := sl_spaces_between_special_tokens d |}).
End slow.

(** ** The fast decoder *)

(** One step of a [DecodeStream]: the text, if any, or one of two exceptions. *)
Inductive StepResult (S : Type) : Type :=
| Stepped (token : option text) (s : S)
| InvalidPrefix
| OtherError.
Arguments Stepped {S} _ _. Arguments InvalidPrefix {S}. Arguments OtherError {S}.

Section fast.
Context {S : Type} (new_stream : S) (stream_step : S -> Z -> StepResult S) (decode : list Z -> text) (added_tokens : gmap Z text).

Record FastState : Type := {
  fs_stream : S;
  fs_spaces_between_special_tokens : bool;
  last_special : bool }.

Definition _protected_step (s : S) (next_token_id : Z) : res (option text * S) :=
  match stream_step s next_token_id with
  | Stepped token s => Ok (token, s)
  | InvalidPrefix =>
      match stream_step new_stream next_token_id with
      | Stepped token s => Ok (token, s)
      | _ => Raise RuntimeError
      end
  | OtherError => Raise RuntimeError
  end.
(** [for i in range(4, min(prompt_len + 1, 24))], [n] rounds from [i] on. *)
Fixpoint safe_suffix (n i : nat) (prompt_token_ids : list Z) : list Z :=
  match n with
  | O => prompt_token_ids
  | Datatypes.S n =>
      let suffix := py_from prompt_token_ids (- Z.of_nat i) in
      if bool_decide (REPLACEMENT ∈ decode suffix) then safe_suffix n (i + 1) prompt_token_ids else suffix
  end.
Definition prompt_suffix (prompt_token_ids : list Z) : list Z :=
  let prompt_len := length prompt_token_ids in
  if (4 <? prompt_len)%nat then safe_suffix (Nat.min (prompt_len + 1) 24 - 4) 4 prompt_token_ids else prompt_token_ids.
Fixpoint prime (s : S) (ids : list Z) : res S :=
  match ids with
  | [] => Ok s
  | tid :: ids => let! '(_, s) := _protected_step s tid in prime s ids
  end.
Definition make_fast (prompt_token_ids : list Z) (skip_special_tokens spaces_between_special_tokens : bool) : res FastState :=
  let! s := prime new_stream (prompt_suffix prompt_token_ids) in
  let spaces := skip_special_tokens || spaces_between_special_tokens in
  Ok {| fs_stream := s; fs_spaces_between_special_tokens := spaces || bool_decide (added_tokens = ∅); last_special := false |}.
Definition fast_decode_next (d : FastState) (next_token_id : Z) : res (text * FastState) :=
  let! '(token, s) := _protected_step (fs_stream d) next_token_id in
  if fs_spaces_between_special_tokens d then
    Ok (default [] token, {| fs_stream := s; fs_spaces_between_special_tokens := true; last_special := last_special d |})
  else
    let special_token := added_tokens !! next_token_id in
    let is_special := bool_decide (is_Some special_token) in
    let token := if is_special && last_special d then special_token else token in
    Ok (default [] token, {| fs_stream := s; fs_spaces_between_special_tokens := false; last_special := is_special |}).
End fast.

(** ** The detokenizer of a request *)

Inductive RequestOutputKind : Set := CUMULATIVE | DELTA | FINAL_ONLY.
#[export] Instance output_kind_eq_dec : EqDecision RequestOutputKind.
Proof. solve_decision. Defined.

(** The part of [SamplingParams] that the front end reads. *)
Record OutputParams : Type := {
  op_n : nat;
  op_output_kind : RequestOutputKind;
  op_detokenize : bool;
  op_stop : list text;
  op_include_stop_str_in_output : bool;
  op_skip_special_tokens : bool;
  op_spaces_between_special_tokens : bool;
  op_seed : option Z;
  op_logprobs : option Z;
  op_prompt_logprobs : option Z }.

(** A tokenizer of the library's fast kind has a decode stream. *)
Inductive DecoderState (S : Type) : Type :=
| FastDecoder (d : @FastState S)
| SlowDecoder (d : SlowState).
Arguments FastDecoder {S} _. Arguments SlowDecoder {S} _.

Section request.
Context {S : Type} (new_stream : bool -> S) (stream_step : S -> Z -> StepResult S) (decode : list Z -> text) (added_tokens : gmap Z text).
Context (tokenizer : Tokenizer).

(** [skip_special_tokens], a setting of the stream, and the state. *)
Definition RequestDecoder : Type := bool * DecoderState S.
Definition decoder_step : TextDecoder RequestDecoder := fun d id =>
  match d with
  | (skip, FastDecoder d) => let! '(t, d) := fast_decode_next (new_stream skip) stream_step added_tokens d id in Ok (t, (skip, FastDecoder d))
  | (skip, SlowDecoder d) => let! '(t, d) := slow_decode_next tokenizer d id in Ok (t, (skip, SlowDecoder d))
  end.
(** [IncrementalDetokenizer.from_new_request]; [use_fast] tells that the tokenizer
    is fast and the library new enough. *)
Definition from_new_request (has_tokenizer use_fast : bool) (prompt_token_ids : list Z) (p : OutputParams) : res (Detokenizer RequestDecoder) :=
  let skip := op_skip_special_tokens p in
  if negb has_tokenizer then Ok (TokensOnly [])
  else if use_fast then
    let! d := make_fast (new_stream skip) stream_step decode added_tokens prompt_token_ids skip (op_spaces_between_special_tokens p) in
    Ok (WithText (make_base (op_stop p) (op_include_stop_str_in_output p) [] 0 (skip, FastDecoder d)))
  else
    Ok (WithText (make_base (op_stop p) (op_include_stop_str_in_output p) prompt_token_ids (length prompt_token_ids)
                    (skip, SlowDecoder (make_slow tokenizer prompt_token_ids skip (op_spaces_between_special_tokens p))))).
End request.

(** ** Decoding goes on *)

Lemma slow_decode_total tk d id :
  exists t d', slow_decode_next tk d id = Ok (t, d') /\ sl_tokens d' = sl_tokens d ++ new_token tk id (sl_skip_special_tokens d) /\
    sl_skip_special_tokens d' = sl_skip_special_tokens d.
Proof.
  unfold slow_decode_next, detokenize_incrementally. assert (py_nth [id] (-1) = Ok id) as -> by done. cbn [bind].
  destruct (_ || _); cbn [bind]; eexists _, _; (split; [reflexivity|]); done.
Qed.

Section streams.
Context {S : Type} (new_stream : bool -> S) (stream_step : S -> Z -> StepResult S) (decode : list Z -> text) (added_tokens : gmap Z text).
Context (tokenizer : Tokenizer).

(** What the code relies on of a decode stream: the exception for an invalid prefix,
    from which it recovers, is the only one, and a new stream does not raise it. *)
Record stream_ok : Prop := {
  so_errors s id : stream_step s id <> OtherError;
  so_fresh skip id : stream_step (new_stream skip) id <> InvalidPrefix }.
Context (Hok : stream_ok).

Lemma protected_step_total skip s id : exists t s', _protected_step (new_stream skip) stream_step s id = Ok (t, s').
Proof using Hok.
  unfold _protected_step. pose proof (so_errors Hok s id). destruct (stream_step s id) as [t s'| |]; [by eexists _, _| |done].
  pose proof (so_errors Hok (new_stream skip) id). pose proof (so_fresh Hok skip id).
  destruct (stream_step (new_stream skip) id) as [t s'| |]; [by eexists _, _|done|done].
Qed.
Lemma prime_total skip ids : forall s, exists s', prime (new_stream skip) stream_step s ids = Ok s'.
Proof using Hok.
  induction ids as [|id ids IH]; intros s; cbn; [by eexists|]. destruct (protected_step_total skip s id) as (t & s' & ->). cbn. apply IH.
Qed.
Lemma decoder_step_total (d : @RequestDecoder S) id :
  exists t d', @decode_next _ (decoder_step new_stream stream_step added_tokens tokenizer) d id = Ok (t, d').
Proof using Hok.
  unfold decode_next, decoder_step. destruct d as [skip [d|d]].
  - unfold fast_decode_next. destruct (protected_step_total skip (fs_stream d) id) as (t & s' & ->). cbn [bind].
    destruct (fs_spaces_between_special_tokens d); cbn [bind]; by eexists _, _.
  - destruct (slow_decode_total tokenizer d id) as (t & d' & -> & _). cbn [bind]. by eexists _, _.
Qed.
Definition request_detokenizer (use_fast has_tokenizer : bool) : list Z -> OutputParams -> res (Detokenizer (@RequestDecoder S)) :=
  from_new_request new_stream stream_step decode added_tokens tokenizer has_tokenizer use_fast.
Lemma from_new_request_total has_tokenizer use_fast ids p :
  exists d, request_detokenizer use_fast has_tokenizer ids p = Ok d.
Proof using Hok.
  unfold request_detokenizer, from_new_request. destruct has_tokenizer; cbn [negb]; [|by eexists]. destruct use_fast; [|by eexists]. unfold make_fast.
  destruct (prime_total (op_skip_special_tokens p) (prompt_suffix decode ids) (new_stream (op_skip_special_tokens p))) as (s & ->). cbn [bind]. by eexists.
Qed.
End streams.

(** ** The slow decoder decodes everything *)

Section slow_ok.
Context (tk : Tokenizer) (skip spaces : bool).
Notation string := (to_string tk skip spaces).
Definition slow_decoder : TextDecoder SlowState := slow_decode_next tk.
#[local] Existing Instance slow_decoder.

Definition complete (t : text) : Prop := ends_with_replacement t = false.
(** What a decoder of bytes or word pieces has: where the text so far is complete,
    the text of more tokens depends on a nonempty piece before them only. *)
Record tokenizer_ok : Prop := {
  tk_empty : string [] = [];
  tk_local a b c : b <> [] -> complete (string b) -> string (a ++ b ++ c) = string (a ++ b) ++ drop (length (string b)) (string (b ++ c));
  tk_complete b c : complete (string b) -> complete (string (b ++ c)) -> complete (string c) }.

(** [sent] is the text after the prompt's [start] tokens from [from] on. *)
Record reading (from start : nat) (sent : text) (d : SlowState) : Prop := {
  rg_skip : sl_skip_special_tokens d = skip;
  rg_spaces : sl_spaces_between_special_tokens d = spaces;
  rg_order : (from <= start <= sl_read_offset d)%nat /\ (from <= sl_prefix_offset d <= sl_read_offset d)%nat /\ (sl_read_offset d <= length (sl_tokens d))%nat;
  rg_prefix : (sl_prefix_offset d = sl_read_offset d -> sl_prefix_offset d = from);
  rg_complete : complete (string (take (sl_read_offset d - sl_prefix_offset d) (drop (sl_prefix_offset d) (sl_tokens d))));
  rg_sent : string (take (sl_read_offset d - from) (drop from (sl_tokens d))) = string (take (start - from) (drop from (sl_tokens d))) ++ sent }.

Lemma segment_app {A} (l l' : list A) i j : (i <= j)%nat -> (j <= length l)%nat -> take (j - i) (drop i (l ++ l')) = take (j - i) (drop i l).
Proof. intros. rewrite drop_app_le by lia. apply take_app_le. rewrite length_drop. lia. Qed.
Lemma segment_split {A} (l : list A) i j k : (i <= j)%nat -> (j <= k)%nat -> take (k - i) (drop i l) = take (j - i) (drop i l) ++ take (k - j) (drop j l).
Proof.
  intros. rewrite <-(take_drop (j - i) (take (k - i) (drop i l))), take_take, Nat.min_l by lia. f_equal.
  rewrite skipn_firstn_comm, drop_drop. f_equal; [lia|f_equal; lia].
Qed.

Lemma reading_step from start sent d id :
  tokenizer_ok -> reading from start sent d ->
  exists t d', slow_decode_next tk d id = Ok (t, d') /\ reading from start (sent ++ t) d' /\ sl_tokens d' = sl_tokens d ++ new_token tk id skip.
Proof.
  intros [T1 T2 T3] [R1 R2 (R3a & R3b & R3c) R4 R5 R6]. unfold slow_decode_next, detokenize_incrementally. cbn [py_nth length]. cbn [bind].
  assert (py_nth [id] (-1) = Ok id) as -> by done. cbn [bind]. rewrite R1, R2. set (p := sl_prefix_offset d) in *. set (r := sl_read_offset d) in *. set (l := sl_tokens d) in *.
  set (l' := l ++ new_token tk id skip). set (n := length l').
  assert (Hn : (r <= n)%nat) by (unfold n, l'; rewrite length_app; lia).
  assert (Hseg : forall i j, (i <= j <= length l)%nat -> take (j - i) (drop i l') = take (j - i) (drop i l)) by (intros; apply segment_app; lia).
  assert (Hpr := Hseg p r ltac:(lia)). rewrite Hpr.
  assert (Hall : drop p l' = take (n - p) (drop p l')) by (symmetry; apply take_ge; rewrite length_drop; unfold n; lia).
  destruct (_ || _) eqn:E.
  { eexists _, _. split; [reflexivity|]. split; [|done]. rewrite app_nil_r. split; cbn; try done.
    - fold p r l l'. rewrite Hpr. exact R5.
    - fold r l l'. rewrite !Hseg by lia. done. }
  apply orb_false_iff in E as [E1%Nat.leb_gt E2]. eexists _, _. split; [reflexivity|]. split; [|done].
  assert (Hlt : (r < n)%nat).
  { destruct (Nat.eq_dec r n) as [->|]; [|lia]. exfalso. rewrite Hall in E1. rewrite <-Hpr in E1. lia. }
  assert (Hsplit : take (n - p) (drop p l') = take (r - p) (drop p l) ++ take (n - r) (drop r l')) by (rewrite (segment_split l' p r n) by lia; by rewrite Hpr).
  assert (Hlast : complete (string (take (n - r) (drop r l')))).
  { apply (T3 (take (r - p) (drop p l))); [exact R5|]. rewrite <-Hsplit, <-Hall. exact E2. }
  split; cbn; try done.
  - fold l' n. lia.
  - fold l' n. lia.
  - fold l' n. rewrite (Hseg from start) by lia. destruct (Nat.eq_dec p r) as [Epr|Hne].
    + specialize (R4 Epr). assert (start = from) as -> by lia. assert (Er : r = from) by lia.
      rewrite Er, Nat.sub_diag, !take_0, T1 in R6. cbn [app] in R6. replace (r - p)%nat with 0%nat by lia. rewrite Nat.sub_diag, !take_0, T1.
      cbn [app length drop]. rewrite <-R6. cbn [app]. by rewrite Hall, R4.
    + rewrite (segment_split l' from p n), Hsplit by lia. rewrite (Hseg from p) by lia.
      rewrite T2; [|intros H%(f_equal length); rewrite length_take, length_drop in H; cbn in H; lia|exact R5].
      rewrite <-(segment_split l from p r) by lia. rewrite R6, <-app_assoc. by rewrite Hall, Hsplit.
Qed.

(** The text of the pieces. *)
Lemma pieces_ok prompt ids t d' :
  let d := make_slow tk prompt skip spaces in
  let tokens := sl_tokens d ++ concat (map (fun id => new_token tk id skip) ids) in
  let from := sl_prefix_offset d in
  tokenizer_ok -> complete (string (drop from (sl_tokens d))) -> decode_all d ids = Ok (t, d') -> sl_tokens d' = tokens ->
  string (take (sl_read_offset d' - from) (drop from tokens)) = string (drop from (sl_tokens d)) ++ t /\
  (sl_read_offset d' = length tokens -> string (drop from tokens) = string (drop from (sl_tokens d)) ++ t).
Proof.
  intros d tokens from Hok Hc Hrun0 Htok0.
  assert (Hrun : forall ids d0 sent, reading from (sl_read_offset d) sent d0 ->
    exists t d', decode_all d0 ids = Ok (t, d') /\ sl_tokens d' = sl_tokens d0 ++ concat (map (fun id => new_token tk id skip) ids) /\ reading from (sl_read_offset d) (sent ++ t) d').
  { clear ids t d' tokens Hrun0 Htok0. induction ids as [|id ids IH]; intros d0 sent H; cbn [decode_all]; [exists [], d0; cbn; by rewrite !app_nil_r|]. change (decode_next d0 id) with (slow_decode_next tk d0 id).
    destruct (reading_step from _ sent d0 id Hok H) as (t & d1 & -> & H1 & Et). cbn [bind]. destruct (IH d1 (sent ++ t) H1) as (t' & d' & -> & Et' & H'). exists (t ++ t'), d'.
    cbn. rewrite Et', Et, <-!app_assoc in *. by rewrite app_assoc. }
  assert (Hstart : sl_read_offset d = length (sl_tokens d)) by (unfold d; cbn; unfold _replace_none_with_empty; by rewrite length_map).
  assert (Hfrom : (from <= sl_read_offset d)%nat) by (unfold from, d; cbn -[Nat.sub]; lia).
  assert (Hall : take (sl_read_offset d - from) (drop from (sl_tokens d)) = drop from (sl_tokens d)) by (apply take_ge; rewrite length_drop; lia).
  destruct (Hrun ids d []) as (t0 & d0 & H1 & H2 & [_ _ Ho _ _ Hsent]).
  { split; try done.
    - fold from. lia.
    - by fold from; rewrite Hall.
    - by rewrite app_nil_r. }
  rewrite Hrun0 in H1. injection H1 as -> ->. fold tokens in H2. rewrite H2 in Hsent, Ho. rewrite app_nil_l in Hsent.
  assert (Hpre : take (sl_read_offset d - from) (drop from tokens) = drop from (sl_tokens d)).
  { unfold tokens. rewrite segment_app by lia. exact Hall. }
  rewrite Hpre in Hsent. split; [exact Hsent|]. intros Hend. rewrite <-Hsent. f_equal. symmetry. apply take_ge. rewrite length_drop. lia.
Qed.

(** C24. The slow decoder never raises and keeps all tokens.  With a tokenizer whose text
    depends only on nearby tokens, and after a prompt whose last tokens decode to complete
    characters, what it gives is the text of all tokens: whatever the split into steps,
    the prompt's last tokens together with the new ones, up to the last complete
    character, decode at once to the text of the prompt's part followed by the pieces; and
    nothing is withheld when all tokens are read.  (A character that begins in the prompt
    and ends in the output can be lost, see [split_character_lost].) *)
Theorem incremental_decoding_ok prompt ids :
  let d := make_slow tk prompt skip spaces in
  let tokens := sl_tokens d ++ concat (map (fun id => new_token tk id skip) ids) in
  let from := sl_prefix_offset d in
  exists t d', decode_all d ids = Ok (t, d') /\ sl_tokens d' = tokens /\
    (tokenizer_ok -> complete (string (drop from (sl_tokens d))) ->
      string (take (sl_read_offset d' - from) (drop from tokens)) = string (drop from (sl_tokens d)) ++ t /\
      (sl_read_offset d' = length tokens -> string (drop from tokens) = string (drop from (sl_tokens d)) ++ t)).
Proof.
  intros d tokens from.
  assert (Htot : forall ids d0, sl_skip_special_tokens d0 = skip -> exists t d', decode_all d0 ids = Ok (t, d') /\
      sl_tokens d' = sl_tokens d0 ++ concat (map (fun id => new_token tk id skip) ids)).
  { clear. induction ids as [|id ids IH]; intros d0 E; cbn [decode_all]; [exists [], d0; cbn; by rewrite app_nil_r|].
    change (decode_next d0 id) with (slow_decode_next tk d0 id). destruct (slow_decode_total tk d0 id) as (t & d1 & -> & E1 & E2). cbn [bind].
    destruct (IH d1) as (t' & d' & -> & E'); [congruence|]. exists (t ++ t'), d'. cbn. by rewrite E', E1, E, <-app_assoc. }
  destruct (Htot ids d eq_refl) as (t & d' & Hd & Et). exists t, d'. split; [exact Hd|]. split; [exact Et|]. intros Hok Hc. by apply (pieces_ok prompt ids t d').
Qed.

End slow_ok.

(** A tokenizer with one character per token: token [i] is character [i], token 0 is
    special. *)
Definition char_tokenizer : Tokenizer :=
  {| vocab_len := 1000; is_fast := false;
     convert_ids_to_tokens := fun ids skip => map (fun i => Some [i]) (List.filter (fun i => negb (skip && (i =? 0))) ids);
     convert_tokens_to_string := fun l => concat (map (default []) l); all_special_tokens := [[0]]; added_vocab := [] |}.
Lemma char_tokenizer_ok skip spaces : tokenizer_ok char_tokenizer skip spaces.
Proof.
  assert (Happ : forall a b, to_string char_tokenizer skip spaces (a ++ b) = to_string char_tokenizer skip spaces a ++ to_string char_tokenizer skip spaces b).
  { intros a b. unfold to_string. cbn. by rewrite map_app, concat_app. }
  split; [done| |].
  - intros a b c _ _. rewrite !Happ. by rewrite drop_app_length, app_assoc.
  - intros b c _. unfold complete, ends_with_replacement. rewrite Happ, !bool_decide_eq_false, last_app.
    destruct (last (to_string char_tokenizer skip spaces c)); done.
Qed.
Lemma incremental_decoding_ok_witness :
  exists t d', @decode_all _ (slow_decoder char_tokenizer) (make_slow char_tokenizer [7; 8] true true) [5; 0; 6] = Ok (t, d') /\ t = [5; 6] /\
    (sl_read_offset d' = 4%nat -> to_string char_tokenizer true true [Some [7]; Some [8]; Some [5]; Some [6]] = [7; 8] ++ t).
Proof.
  destruct (incremental_decoding_ok char_tokenizer true true [7; 8] [5; 0; 6]) as (t & d' & H1 & _ & H2).
  exists t, d'. split; [exact H1|]. split; [vm_compute in H1; by injection H1 as <- _|].
  apply (H2 (char_tokenizer_ok true true)). reflexivity.
Defined.

(** A character in two tokens, 200 and 201. *)
Fixpoint pair_text (l : list Z) : text :=
  match l with
  | 200 :: 201 :: l => 233 :: pair_text l
  | x :: l => (if (x =? 200) || (x =? 201) then REPLACEMENT else x) :: pair_text l
  | [] => []
  end.
Definition pair_tokenizer : Tokenizer :=
  {| vocab_len := 1000; is_fast := false;
     convert_ids_to_tokens := fun ids skip => map (fun i => Some [i]) ids;
     convert_tokens_to_string := fun l => pair_text (concat (map (default []) l)); all_special_tokens := []; added_vocab := [] |}.
(** When the prompt ends in the middle of a character, the character is lost: neither
    the prompt's text nor the pieces have it. *)
Lemma split_character_lost : exists d',
  @decode_all _ (slow_decoder pair_tokenizer) (make_slow pair_tokenizer [97; 200] true true) [201; 120] = Ok ([120], d') /\
  to_string pair_tokenizer true true [Some [97]; Some [200]] = [97; REPLACEMENT] /\
  to_string pair_tokenizer true true [Some [97]; Some [200]; Some [201]; Some [120]] = [97; 233; 120].
Proof. eexists. repeat split; vm_compute; reflexivity. Qed.

(** A decode stream with one character per token, which never raises. *)
Definition char_stream (s : unit) (id : Z) : StepResult unit := Stepped (Some [id]) s.
Lemma char_stream_ok : stream_ok (fun _ => tt) char_stream.
Proof. by split. Qed.
