(* ===== verification/Completions.v ===== *)
(** * Completions of a request

    [vllm/v1/engine/logprobs.py], the completion and request outputs of
    [vllm/outputs.py], the children of a request with [n > 1]
    ([vllm/v1/engine/parallel_sampling.py]), and the collector between the output
    loop and a client ([RequestOutputCollector] of
    [vllm/v1/engine/output_processor.py]). *)

From stdpp Require Import base gmap strings pretty list fin_sets.
From Stdlib Require Import ZArith QArith Lia.
From S2P Require Import Prelude Request SchedulerTypes Detokenizer TextDecoders.
Open Scope list_scope.
Open Scope Z_scope.

(** ** Logprobs *)

Record Logprob : Type := {
  lp_logprob : Q;
  lp_rank : Z;
  lp_decoded_token : option text }.
(** A dictionary from token ids. *)
Definition LogprobDict : Type := list (Z * Logprob).
(** Token ids, logprobs and ranks: a row per token. *)
Definition LogprobsLists : Type := list (list Z) * list (list Q) * list Z.

Record LogprobsProcessor : Type := {
  lp_has_tokenizer : bool;
  lp_logprobs : option (list LogprobDict);
  lp_prompt_logprobs : option (list (option LogprobDict));
  cumulative_logprob : option Q;
  lp_num_logprobs : option Z;
  lp_num_prompt_logprobs : option Z }.

Section logprobs.
(** [tokenizer.decode([id])] *)
Context (decode_one : Z -> option text).

Definition make_logprobs_processor (has_tokenizer : bool) (p : OutputParams) : LogprobsProcessor :=
  {| lp_has_tokenizer := has_tokenizer; cumulative_logprob := match op_logprobs p with None => None | Some _ => Some 0%Q end;
     lp_logprobs := match op_logprobs p with None => None | Some _ => Some [] end;
     lp_prompt_logprobs := match op_prompt_logprobs p with None => None | Some _ => Some [None] end;
     lp_num_logprobs := op_logprobs p; lp_num_prompt_logprobs := op_prompt_logprobs p |}.

(** [detokenizer_utils.convert_ids_list_to_tokens] *)
Definition convert_ids_list_to_tokens (token_ids : list Z) : list text := map (fun id => default [] (decode_one id)) token_ids.
(** [NONES] without a tokenizer, as many as are needed. *)
Definition decoded_tokens (has_tokenizer : bool) (token_ids : list Z) : list (option text) :=
  if has_tokenizer then map Some (convert_ids_list_to_tokens token_ids) else map (fun _ => None) token_ids.

Fixpoint logprob_entries (token_ids : list Z) (logprobs : list Q) (ranks : list Z) (decoded : list (option text)) (d : LogprobDict) : LogprobDict :=
  match token_ids, logprobs, ranks, decoded with
  | token_id :: token_ids, logprob :: logprobs, rank :: ranks, token :: decoded =>
      logprob_entries token_ids logprobs ranks decoded (dict_set d token_id {| lp_logprob := logprob; lp_rank := rank; lp_decoded_token := token |})
  | _, _, _, _ => d
  end.
Definition _make_logprob_dict (logprobs : list Q) (logprob_token_ids : list Z) (decoded : list (option text)) (rank num_logprobs : Z) : LogprobDict :=
  let num_logprobs := if num_logprobs =? -1 then Z.of_nat (length logprobs) else num_logprobs in
  logprob_entries logprob_token_ids logprobs (rank :: seqZ 1 num_logprobs) decoded [].

(** [zip(ranks_lst, logprobs_lst, token_ids_lst)] *)
Fixpoint sample_logprobs_loop (s : LogprobsProcessor) (num : Z) (token_ids_lst : list (list Z)) (logprobs_lst : list (list Q)) (ranks_lst : list Z)
    (acc : list LogprobDict) (cumulative : Q) : res (list LogprobDict * Q) :=
  match ranks_lst, logprobs_lst, token_ids_lst with
  | rank :: ranks_lst, logprobs :: logprobs_lst, token_ids :: token_ids_lst =>
      let decoded := decoded_tokens (lp_has_tokenizer s) token_ids in
      let! sampled_token_logprob := of_option IndexError (head logprobs) in
      sample_logprobs_loop s num token_ids_lst logprobs_lst ranks_lst (acc ++ [_make_logprob_dict logprobs token_ids decoded rank num])
        (cumulative + sampled_token_logprob)%Q
  | _, _, _ => Ok (acc, cumulative)
  end.
Definition with_logprobs (s : LogprobsProcessor) (l : option (list LogprobDict)) (c : option Q) (pl : option (list (option LogprobDict))) : LogprobsProcessor :=
  {| lp_has_tokenizer := lp_has_tokenizer s; lp_logprobs := l; lp_prompt_logprobs := pl; cumulative_logprob := c;
     lp_num_logprobs := lp_num_logprobs s; lp_num_prompt_logprobs := lp_num_prompt_logprobs s |}.
Definition _update_sample_logprobs (s : LogprobsProcessor) (l : LogprobsLists) : res LogprobsProcessor :=
  let! num := of_option AssertionError (lp_num_logprobs s) in
  let! acc := of_option AssertionError (lp_logprobs s) in
  let! c := of_option AssertionError (cumulative_logprob s) in
  let '(token_ids_lst, logprobs_lst, ranks_lst) := l in
  let! '(acc, c) := sample_logprobs_loop s num token_ids_lst logprobs_lst ranks_lst acc c in
  Ok (with_logprobs s (Some acc) (Some c) (lp_prompt_logprobs s)).

(** [for pos in range(num_prompt_tokens)] over matrices of [num_logprobs] columns;
    [decoded] is flat. *)
Fixpoint prompt_logprobs_rows (num : Z) (num_logprobs pos : nat) (token_ids : list (list Z)) (logprobs : list (list Q)) (ranks : list Z)
    (decoded : list (option text)) : res (list (option LogprobDict)) :=
  match logprobs with
  | [] => Ok []
  | row :: logprobs =>
      let! ids := of_option IndexError (head token_ids) in
      let! rank := of_option IndexError (head ranks) in
      let offset := (pos * num_logprobs)%nat in
      let decoded_tokens_for_pos := take num_logprobs (drop offset decoded) in
      let! rest := prompt_logprobs_rows num num_logprobs (pos + 1) (tail token_ids) logprobs (tail ranks) decoded in
      Ok (Some (_make_logprob_dict row ids decoded_tokens_for_pos rank num) :: rest)
  end.
Definition _update_prompt_logprobs (s : LogprobsProcessor) (num_logprobs : nat) (l : LogprobsLists) : res LogprobsProcessor :=
  let! num := of_option AssertionError (lp_num_prompt_logprobs s) in
  let! acc := of_option AssertionError (lp_prompt_logprobs s) in
  let '(token_ids, logprobs, ranks) := l in
  let decoded := decoded_tokens (lp_has_tokenizer s) (concat token_ids) in
  let! rows := prompt_logprobs_rows num num_logprobs 0 token_ids logprobs ranks decoded in
  Ok (with_logprobs s (lp_logprobs s) (cumulative_logprob s) (Some (acc ++ rows))).
Definition pop_prompt_logprobs (s : LogprobsProcessor) : option (list (option LogprobDict)) * LogprobsProcessor :=
  let plp := lp_prompt_logprobs s in
  (plp, match plp with Some (_ :: _) => with_logprobs s (lp_logprobs s) (cumulative_logprob s) (Some []) | _ => s end).
(** The new logprobs, and the prompt's with the number of their columns. *)
Definition update_logprobs (s : LogprobsProcessor) (new_logprobs : option LogprobsLists) (new_prompt_logprobs_tensors : option (nat * LogprobsLists)) : res LogprobsProcessor :=
  let! s := (match new_logprobs with Some l => _update_sample_logprobs s l | None => Ok s end) in
  match new_prompt_logprobs_tensors with Some (n, l) => _update_prompt_logprobs s n l | None => Ok s end.
End logprobs.

(** ** Outputs *)

Inductive StopReason : Set := StopToken (token_id : Z) | StopString (s : text).

Record CompletionOutput : Type := {
  co_index : nat;
  co_text : text;
  co_token_ids : list Z;
  co_cumulative_logprob : option Q;
  co_logprobs : option (list LogprobDict);
  co_finish_reason : option FinishReason;
  co_stop_reason : option StopReason }.
Definition co_finished (c : CompletionOutput) : bool := bool_decide (is_Some (co_finish_reason c)).

(** The elements of [outputs] are not [None] once all children have finished. *)
Record RequestOutput : Type := {
  ro_request_id : string;
  ro_prompt : option text;
  ro_prompt_token_ids : list Z;
  ro_prompt_logprobs : option (list (option LogprobDict));
  ro_outputs : list (option CompletionOutput);
  ro_finished : bool;
  ro_num_cached_tokens : Z }.

(** The merge of two completions with the same index. *)
Definition merge_completion (completion next_completion : CompletionOutput) : res CompletionOutput :=
  let! logprobs :=
    (match co_logprobs next_completion with
     | Some (_ as l) =>
         if bool_decide (l = []) then Ok (co_logprobs completion)
         else let! l0 := of_option AssertionError (co_logprobs completion) in Ok (Some (l0 ++ l))
     | None => Ok (co_logprobs completion)
     end) in
  Ok {| co_index := co_index completion; co_text := co_text completion ++ co_text next_completion;
        co_token_ids := co_token_ids completion ++ co_token_ids next_completion;
        co_cumulative_logprob := co_cumulative_logprob next_completion; co_logprobs := logprobs;
        co_finish_reason := co_finish_reason next_completion; co_stop_reason := co_stop_reason next_completion |}.

(** [for i, completion in enumerate(self.outputs)] with its [else] *)
Fixpoint add_completion (outputs : list (option CompletionOutput)) (next_completion : CompletionOutput) (aggregate : bool) : res (list (option CompletionOutput)) :=
  match outputs with
  | [] => Ok [Some next_completion]
  | completion :: outputs =>
      let! c := of_option AttributeError completion in
      if (co_index c =? co_index next_completion)%nat then
        if aggregate then let! c := merge_completion c next_completion in Ok (Some c :: outputs)
        else Ok (Some next_completion :: outputs)
      else let! outputs := add_completion outputs next_completion aggregate in Ok (completion :: outputs)
  end.
(** [RequestOutput.add] *)
Definition add_output (o next_output : RequestOutput) (aggregate : bool) : res RequestOutput :=
  let! outputs := res_fold (fun outputs c => let! c := of_option AttributeError c in add_completion outputs c aggregate) (ro_outputs next_output) (ro_outputs o) in
  Ok {| ro_request_id := ro_request_id o; ro_prompt := ro_prompt o; ro_prompt_token_ids := ro_prompt_token_ids o;
        ro_prompt_logprobs := ro_prompt_logprobs o; ro_outputs := outputs; ro_finished := ro_finished o || ro_finished next_output;
        ro_num_cached_tokens := ro_num_cached_tokens o |}.

(** What reaches a client: [PoolingRequestOutput] has no [add]. *)
Inductive ClientOutput : Type :=
| Completions (o : RequestOutput)
| PoolingResult (request_id : string) (prompt_token_ids : list Z) (finished : bool).

(** *** [RequestOutputCollector] *)

Record Collector : Type := {
  aggregate : bool;
  collected : option (exn + ClientOutput) }.
Definition make_collector (output_kind : RequestOutputKind) : Collector :=
  {| aggregate := bool_decide (output_kind = DELTA); collected := None |}.
Definition put (q : Collector) (output : exn + ClientOutput) : res Collector :=
  match collected q, output with
  | None, _ | _, inl _ => Ok {| aggregate := aggregate q; collected := Some output |}
  | Some (inl _), _ => Ok q
  | Some (inr (Completions o)), inr (Completions next_output) =>
      let! o := add_output o next_output (aggregate q) in
      Ok {| aggregate := aggregate q; collected := Some (inr (Completions o)) |}
  | Some (inr _), inr _ => Raise AttributeError
  end.
(** What [get] and [get_nowait] leave, and what they return: nothing yet, an output,
    or the exception that they raise. *)
Definition get (q : Collector) : option (exn + ClientOutput) * Collector := (collected q, {| aggregate := aggregate q; collected := None |}).

(** ** Parallel sampling *)

Record ParentRequest : Type := {
  pr_request_id : string;
  pr_sampling_params : OutputParams;
  child_requests : gset string;
  output_aggregator : list (option CompletionOutput);
  cached_child_sampling_params : option OutputParams }.
Definition with_children (p : ParentRequest) (c : gset string) (a : list (option CompletionOutput)) (cached : option OutputParams) : ParentRequest :=
  {| pr_request_id := pr_request_id p; pr_sampling_params := pr_sampling_params p; child_requests := c; output_aggregator := a;
     cached_child_sampling_params := cached |}.

Definition make_parent (request_id : string) (p : OutputParams) : ParentRequest :=
  {| pr_request_id := request_id; pr_sampling_params := p; child_requests := ∅;
     output_aggregator := if bool_decide (op_output_kind p = FINAL_ONLY) then repeat None (op_n p) else []; cached_child_sampling_params := None |}.
(** [copy(self.sampling_params)] with [n = 1] and the seed of the child *)
Definition child_params (p : OutputParams) (seed : option Z) : OutputParams :=
  {| op_n := 1; op_output_kind := op_output_kind p; op_detokenize := op_detokenize p; op_stop := op_stop p;
     op_include_stop_str_in_output := op_include_stop_str_in_output p; op_skip_special_tokens := op_skip_special_tokens p;
     op_spaces_between_special_tokens := op_spaces_between_special_tokens p; op_seed := seed; op_logprobs := op_logprobs p;
     op_prompt_logprobs := op_prompt_logprobs p |}.
Definition _get_child_sampling_params (p : ParentRequest) (index : nat) : OutputParams * ParentRequest :=
  match cached_child_sampling_params p with
  | Some c => (c, p)
  | None =>
      match op_seed (pr_sampling_params p) with
      | None =>
          let c := child_params (pr_sampling_params p) None in
          (c, with_children p (child_requests p) (output_aggregator p) (Some c))
      | Some seed => (child_params (pr_sampling_params p) (Some (seed + Z.of_nat index)), p)
      end
  end.
(** [f"{index}_{self.request_id}"] *)
Definition child_id (index : nat) (request_id : string) : string := (pretty index +:+ "_" +:+ request_id)%string.
Definition get_child_info (p : ParentRequest) (index : nat) : string * OutputParams * ParentRequest :=
  let child_req_id := child_id index (pr_request_id p) in
  let p := with_children p ({[child_req_id]} ∪ child_requests p) (output_aggregator p) (cached_child_sampling_params p) in
  let '(c, p) := _get_child_sampling_params p index in
  (child_req_id, c, p).
Definition get_outputs (p : ParentRequest) (child_request_id : string) (completion_output : CompletionOutput) :
    res (string * list (option CompletionOutput) * bool * ParentRequest) :=
  let! children :=
    (if co_finished completion_output then
       if bool_decide (child_request_id ∈ child_requests p) then Ok (child_requests p ∖ {[child_request_id]}) else Raise KeyError
     else Ok (child_requests p)) in
  let none_left := bool_decide (children = ∅) in
  if bool_decide (op_output_kind (pr_sampling_params p) = FINAL_ONLY) then
    let i := co_index completion_output in
    if (i <? length (output_aggregator p))%nat then
      let aggregator := <[i := Some completion_output]> (output_aggregator p) in
      Ok (pr_request_id p, if none_left then aggregator else [], none_left, with_children p children aggregator (cached_child_sampling_params p))
    else Raise IndexError
  else Ok (pr_request_id p, [Some completion_output], none_left, with_children p children (output_aggregator p) (cached_child_sampling_params p)).
