(* ===== verification/CompletionsOk.v ===== *)
(** * Children and collected outputs

    Whatever the order in which the children of a request finish, and whenever the
    client reads, nothing is lost, doubled or reordered. *)

From stdpp Require Import base gmap strings pretty list fin_sets.
From Stdlib Require Import ZArith QArith Lia.
From S2P Require Import Prelude Request SchedulerTypes Detokenizer TextDecoders Completions.
Open Scope list_scope.
Open Scope Z_scope.

(** ** Names of children *)

Lemma string_length_app (s t : string) : String.length (s +:+ t)%string = (String.length s + String.length t)%nat.
Proof. induction s as [|a s IH]; [done|]. change (S (String.length (s +:+ t)%string) = S (String.length s + String.length t)). by f_equal. Qed.
Lemma string_app_inj_r (s t u : string) : (s +:+ u)%string = (t +:+ u)%string -> s = t.
Proof.
  revert t. induction s as [|a s IH]; intros [|b t]; [done| | |].
  - intros H%(f_equal String.length). rewrite !string_length_app in H. cbn in H. lia.
  - intros H%(f_equal String.length). rewrite !string_length_app in H. cbn in H. lia.
  - change (String a (s +:+ u) = String b (t +:+ u) -> String a s = String b t)%string. intros [= -> H]. f_equal. by apply IH.
Qed.
Lemma child_id_inj i j id : child_id i id = child_id j id -> i = j.
Proof. unfold child_id. intros H%string_app_inj_r. by apply (inj pretty) in H. Qed.

(** The parent with its children from 0 to [k - 1]. *)
Fixpoint register (p : ParentRequest) (k : nat) : ParentRequest :=
  match k with O => p | S k => (get_child_info (register p k) k).2 end.
Lemma registered p k :
  pr_request_id (register p k) = pr_request_id p /\ pr_sampling_params (register p k) = pr_sampling_params p /\
  output_aggregator (register p k) = output_aggregator p /\
  forall id, id ∈ child_requests (register p k) <-> id ∈ child_requests p \/ exists i, (i < k)%nat /\ id = child_id i (pr_request_id p).
Proof.
  induction k as [|k (H1 & H2 & H3 & H4)]; cbn [register].
  { repeat split; try done. - by left. - intros [?|(i & ? & _)]; [done|lia]. }
  unfold get_child_info, _get_child_sampling_params. cbn. rewrite H2.
  assert (Hset : forall id, id ∈ {[child_id k (pr_request_id (register p k))]} ∪ child_requests (register p k) <->
                            id ∈ child_requests p \/ exists i, (i < S k)%nat /\ id = child_id i (pr_request_id p)).
  { intros id. rewrite elem_of_union, elem_of_singleton, H4, H1. split.
    - intros [->|[?|(i & ? & ->)]]; [right; exists k; split; [lia|done]|by left|right; exists i; split; [lia|done]].
    - intros [?|(i & Hi & ->)]; [by right; left|]. destruct (Nat.eq_dec i k) as [->|]; [by left|]. right; right. exists i. split; [lia|done]. }
  destruct (cached_child_sampling_params (register p k)); [by repeat split; try done; apply Hset|].
  destruct (op_seed (pr_sampling_params p)); by repeat split; try done; apply Hset.
Qed.

(** The completions of one child. *)
Definition of_index (i : nat) (cs : list CompletionOutput) : list CompletionOutput := base.filter (fun c => co_index c = i) cs.

(** ** The children send their completions *)

(** The completions of the children, in the order of their arrival: one that is
    finished is the last of its child, and one that is not is followed by another. *)
Fixpoint in_turn (cs : list CompletionOutput) : Prop :=
  match cs with
  | [] => True
  | c :: cs =>
      match co_finish_reason c with
      | Some _ => co_index c ∉ map co_index cs
      | None => co_index c ∈ map co_index cs
      end /\ in_turn cs
  end.

(** The last completion of a child that has come. *)
Definition gathered (done : list CompletionOutput) (i : nat) : option CompletionOutput := last (of_index i done).
Lemma gathered_snoc done c i : gathered (done ++ [c]) i = if (co_index c =? i)%nat then Some c else gathered done i.
Proof.
  unfold gathered, of_index. rewrite filter_app, filter_cons, filter_nil. destruct (Nat.eqb_spec (co_index c) i) as [E|E].
  - by rewrite decide_True, last_snoc.
  - by rewrite decide_False, app_nil_r.
Qed.
(** At the end every child has finished. *)
Lemma gathered_finished cs i : in_turn cs -> i ∈ map co_index cs -> exists c, gathered cs i = Some c /\ is_Some (co_finish_reason c).
Proof.
  induction cs as [|c cs IH]; cbn; [by intros _ ?%elem_of_nil|]. intros [Hc Hcs] Hi.
  destruct (decide (i ∈ map co_index cs)) as [Hin|Hin].
  - destruct (IH Hcs Hin) as (d & Hd & Hf). exists d. split; [|done]. unfold gathered, of_index in *. rewrite filter_cons. destruct (decide _); [|done].
    by rewrite last_cons, Hd.
  - apply elem_of_cons in Hi as [->|?]; [|done]. exists c. unfold gathered, of_index. rewrite filter_cons, decide_True by done.
    destruct (co_finish_reason c) as [f|] eqn:Ef; [|done]. split; [|by eexists].
    assert (base.filter (fun d => co_index d = co_index c) cs = []) as ->; [|done]. clear -Hin. induction cs as [|d cs IH]; [done|].
    cbn in Hin. apply not_elem_of_cons in Hin as [H1 H2]. rewrite filter_cons_False by congruence. by apply IH.
Qed.

Section parent.
Context (id : string) (params : OutputParams).
Notation n := (op_n params).
Notation parent := (register (make_parent id params) n).

Fixpoint feed_children (p : ParentRequest) (cs : list CompletionOutput) : res (list (list (option CompletionOutput) * bool) * ParentRequest) :=
  match cs with
  | [] => Ok ([], p)
  | c :: cs =>
      let! '(_, outputs, finished, p) := get_outputs p (child_id (co_index c) id) c in
      let! '(rest, p) := feed_children p cs in
      Ok ((outputs, finished) :: rest, p)
  end.

(** The parent when the completions of [done] have come and those of [rest] have not. *)
Record awaiting (p : ParentRequest) (done rest : list CompletionOutput) : Prop := {
  wt_id : pr_request_id p = id;
  wt_params : pr_sampling_params p = params;
  wt_children x : x ∈ child_requests p <-> exists i, i ∈ map co_index rest /\ x = child_id i id;
  wt_turn : in_turn rest;
  wt_index c : c ∈ rest -> (co_index c < n)%nat;
  wt_aggregator : op_output_kind params = FINAL_ONLY -> output_aggregator p = map (gathered done) (seq 0 n) }.

(** A completion that is not finished leaves the child in the set. *)
Lemma children_left p done c rest :
  awaiting p done (c :: rest) ->
  exists children : gset string,
    (if co_finished c then if bool_decide (child_id (co_index c) id ∈ child_requests p) then Ok (child_requests p ∖ {[child_id (co_index c) id]}) else Raise KeyError
     else Ok (child_requests p)) = Ok children /\
    (forall x, x ∈ children <-> exists i, i ∈ map co_index rest /\ x = child_id i id) /\ bool_decide (children = ∅) = bool_decide (rest = []).
Proof.
  intros [W1 W2 W3 [W4 _] W5 W6].
  assert (Hnone : forall children : gset string, (forall x, x ∈ children <-> exists i, i ∈ map co_index rest /\ x = child_id i id) -> bool_decide (children = ∅) = bool_decide (rest = [])).
  { intros children Hch. apply bool_decide_ext. split; [|intros ->; apply elem_of_equiv_empty_L; intros x (i & ?%elem_of_nil & _)%Hch; done].
    intros E. destruct rest as [|c' rest]; [done|]. exfalso. assert (child_id (co_index c') id ∈ children) as H by (apply Hch; exists (co_index c'); split; [left|done]).
    rewrite E in H. by apply elem_of_empty in H. }
  unfold co_finished. destruct (co_finish_reason c) as [f|] eqn:Ef.
  - rewrite bool_decide_eq_true_2 by (by eexists). rewrite bool_decide_eq_true_2 by (apply W3; exists (co_index c); split; [left|done]).
    eexists. split; [reflexivity|]. assert (H : forall x, x ∈ child_requests p ∖ {[child_id (co_index c) id]} <-> exists i, i ∈ map co_index rest /\ x = child_id i id); [|by split; [|apply Hnone]].
    intros x. rewrite elem_of_difference, elem_of_singleton, W3. split.
    + intros [(i & [->|Hi]%elem_of_cons & ->) Hne]; [done|]. by exists i.
    + intros (i & Hi & ->). split; [exists i; split; [by right|done]|]. intros E%child_id_inj. congruence.
  - rewrite bool_decide_eq_false_2 by (by intros [? ?]). eexists. split; [reflexivity|].
    assert (H : forall x, x ∈ child_requests p <-> exists i, i ∈ map co_index rest /\ x = child_id i id); [|by split; [|apply Hnone]].
    intros x. rewrite W3. split; intros (i & Hi & ->); exists i; (split; [|done]); [apply elem_of_cons in Hi as [->|Hi]; done|by right].
Qed.

Lemma get_outputs_waiting p done c rest :
  awaiting p done (c :: rest) ->
  exists p', awaiting p' (done ++ [c]) rest /\
    get_outputs p (child_id (co_index c) id) c =
      Ok (id, if bool_decide (op_output_kind params = FINAL_ONLY) then (if bool_decide (rest = []) then map (gathered (done ++ [c])) (seq 0 n) else []) else [Some c],
          bool_decide (rest = []), p').
Proof.
  intros Hw. destruct (children_left p done c rest Hw) as (children & Hok & Hch & Hnone). destruct Hw as [W1 W2 W3 [_ W4] W5 W6].
  unfold get_outputs. rewrite Hok. cbn [bind]. rewrite W2, Hnone.
  assert (Hnew : forall a, (op_output_kind params = FINAL_ONLY -> a = map (gathered (done ++ [c])) (seq 0 n)) ->
    awaiting (with_children p children a (cached_child_sampling_params p)) (done ++ [c]) rest).
  { intros a Ha. split; cbn; try done. intros c' Hc'. apply W5. by right. }
  destruct (bool_decide_reflect (op_output_kind params = FINAL_ONLY)) as [Ek|Ek].
  - rewrite (W6 Ek). rewrite length_map, length_seq. assert (co_index c < n)%nat by (apply W5; left).
    rewrite (proj2 (Nat.ltb_lt _ _)) by done.
    assert (Ea : <[co_index c := Some c]> (map (gathered done) (seq 0 n)) = map (gathered (done ++ [c])) (seq 0 n)).
    { apply list_eq. intros i. rewrite list_lookup_fmap. destruct (decide (i = co_index c)) as [->|Hne].
      - rewrite list_lookup_insert_eq by (by rewrite length_map, length_seq). rewrite lookup_seq_lt by done. cbn. by rewrite gathered_snoc, Nat.eqb_refl.
      - rewrite list_lookup_insert_ne, list_lookup_fmap by done. destruct (seq 0 n !! i) as [j|] eqn:Ej; [|done]. apply lookup_seq in Ej as [-> ?]. cbn.
        rewrite gathered_snoc. destruct (Nat.eqb_spec (co_index c) i); [congruence|done]. }
    rewrite Ea. eexists. split; [exact (Hnew _ (fun _ => eq_refl))|]. by rewrite W1.
  - eexists. split; [apply (Hnew (output_aggregator p)); intros H; by destruct (Ek H)|]. by rewrite W1.
Qed.

Lemma feed_children_ok rest : forall p done,
  awaiting p done rest ->
  exists p', feed_children p rest =
    Ok (imap (fun k c => (if bool_decide (op_output_kind params = FINAL_ONLY)
                          then (if (S k =? length rest)%nat then map (gathered (done ++ rest)) (seq 0 n) else []) else [Some c], (S k =? length rest)%nat)) rest, p').
Proof.
  induction rest as [|c rest IH]; intros p done Hw; [by exists p|]. destruct (get_outputs_waiting p done c rest Hw) as (p1 & Hw1 & E1).
  destruct (IH p1 (done ++ [c]) Hw1) as (p' & E2). exists p'. cbn [feed_children]. rewrite E1. cbn [bind]. rewrite E2. cbn [bind]. do 2 f_equal.
  cbn [imap length]. unfold compose. rewrite <-app_assoc. cbn [app]. assert (bool_decide (rest = []) = (1 =? S (length rest))%nat) as ->.
  - destruct rest; [done|]. by rewrite bool_decide_eq_false_2.
  - f_equal. destruct rest; [done|]. by destruct (bool_decide _).
Qed.

(** C22. The [n] children of a request send their completions in any interleaving,
    each child any number of unfinished ones and then a finished one.  A streaming
    client gets every completion at once, finished or not.  A client that waits for
    the final output gets nothing until the last child is done, and then one output
    with the last, finished completion of every child, in the order of their indices.
    In both cases exactly the last output is marked as finished, and no call raises:
    an unfinished completion does not end its child. *)
Theorem parallel_sampling_ok order :
  (forall i, (i < n)%nat <-> i ∈ map co_index order) -> in_turn order ->
  (forall i, (i < n)%nat -> exists c, last (of_index i order) = Some c /\ is_Some (co_finish_reason c)) /\
  exists p', feed_children parent order =
    Ok (imap (fun k c => let finished := (S k =? length order)%nat in
                         (if bool_decide (op_output_kind params = FINAL_ONLY)
                          then (if finished then map (fun i => last (of_index i order)) (seq 0 n) else []) else [Some c], finished)) order, p').
Proof.
  intros Hidx Hturn. split; [intros i Hi%Hidx; by apply gathered_finished|].
  destruct (registered (make_parent id params) n) as (R1 & R2 & R3 & R4).
  assert (Hw : awaiting parent [] order).
  { split; try done.
    - intros x. rewrite R4. cbn. setoid_rewrite Hidx. set_solver.
    - intros c Hc. apply Hidx, list_elem_of_fmap. by exists c.
    - intros Ek. rewrite R3. cbn. rewrite bool_decide_eq_true_2 by done. apply list_eq. intros i. destruct (decide (i < n)%nat).
      + by rewrite repeat_lookup, list_lookup_fmap, lookup_seq_lt by done.
      + rewrite !(proj2 (lookup_ge_None _ _)); [done| |]; rewrite ?length_map, ?length_seq, ?repeat_length; lia. }
  exact (feed_children_ok order parent [] Hw).
Qed.
End parent.

(** ** The collector *)

Inductive CollectorOp : Type := CPut (o : RequestOutput) | CGet.
(** The outputs that the client gets, in their order. *)
Fixpoint collector_run (q : Collector) (ops : list CollectorOp) : res (list ClientOutput * Collector) :=
  match ops with
  | [] => Ok ([], q)
  | CPut o :: ops => let! q := put q (inr (Completions o)) in collector_run q ops
  | CGet :: ops =>
      match get q with
      | (Some (inl e), _) => Raise e
      | (Some (inr o), q) => let! '(got, q) := collector_run q ops in Ok (o :: got, q)
      | (None, q) => collector_run q ops
      end
  end.
Definition puts (ops : list CollectorOp) : list RequestOutput := omap (fun op => match op with CPut o => Some o | CGet => None end) ops.
Definition pending (q : Collector) : list ClientOutput := match collected q with Some (inr o) => [o] | _ => [] end.
Definition completions_of (o : RequestOutput) : list CompletionOutput := omap id (ro_outputs o).
Definition sent_completions (got : list ClientOutput) : list CompletionOutput :=
  flat_map (fun o => match o with Completions o => completions_of o | _ => [] end) got.
Definition sent_finished (got : list ClientOutput) : bool :=
  existsb (fun o => match o with Completions o => ro_finished o | PoolingResult _ _ f => f end) got.

(** What a client puts together from the completions of an index. *)
Definition whole_text (cs : list CompletionOutput) : text := concat (map co_text cs).
Definition whole_token_ids (cs : list CompletionOutput) : list Z := concat (map co_token_ids cs).
Definition whole_logprobs (cs : list CompletionOutput) : list LogprobDict := concat (map (fun c => default [] (co_logprobs c)) cs).
Definition last_status (cs : list CompletionOutput) := (fun c => (co_finish_reason c, co_stop_reason c, co_cumulative_logprob c)) <$> last cs.

Record same_delivery (agg : bool) (cs cs' : list CompletionOutput) : Prop := {
  sd_status i : last_status (of_index i cs) = last_status (of_index i cs');
  sd_delta i : agg = true -> whole_text (of_index i cs) = whole_text (of_index i cs') /\
    whole_token_ids (of_index i cs) = whole_token_ids (of_index i cs') /\ whole_logprobs (of_index i cs) = whole_logprobs (of_index i cs');
  sd_cumulative i : agg = false -> last (of_index i cs) = last (of_index i cs') }.

Lemma same_delivery_refl agg cs : same_delivery agg cs cs.
Proof. done. Qed.
Lemma same_delivery_trans agg a b c : same_delivery agg a b -> same_delivery agg b c -> same_delivery agg a c.
Proof.
  intros [A1 A2 A3] [B1 B2 B3]. split; intros i.
  - by rewrite A1.
  - intros H. destruct (A2 i H) as (-> & -> & ->). by apply B2.
  - intros H. rewrite A3 by done. by apply B3.
Qed.
Lemma last_app_fmap {A B} (f : A -> B) (l k k' : list A) : f <$> last k = f <$> last k' -> f <$> last (l ++ k) = f <$> last (l ++ k').
Proof. rewrite !last_app. by destruct (last k), (last k'). Qed.
Lemma last_app_fmap_l {A B} (f : A -> B) (l l' k : list A) : f <$> last l = f <$> last l' -> f <$> last (l ++ k) = f <$> last (l' ++ k).
Proof. rewrite !last_app. by destruct (last k). Qed.
Lemma same_delivery_app agg a a' b b' : same_delivery agg a a' -> same_delivery agg b b' -> same_delivery agg (a ++ b) (a' ++ b').
Proof.
  intros [A1 A2 A3] [B1 B2 B3]. split; intros i; unfold of_index in *; rewrite !filter_app.
  - unfold last_status in *. rewrite (last_app_fmap _ _ _ _ (B1 i)). apply last_app_fmap_l, A1.
  - intros H. destruct (A2 i H) as (E1 & E2 & E3), (B2 i H) as (F1 & F2 & F3). unfold whole_text, whole_token_ids, whole_logprobs in *.
    repeat split; erewrite !map_app, !concat_app; by f_equal.
  - intros H. by rewrite !last_app, A3, B3 by done.
Qed.

Definition has_logprobs (lp : bool) (c : CompletionOutput) : Prop := bool_decide (is_Some (co_logprobs c)) = lp.
Lemma merge_completion_ok lp c next_c :
  has_logprobs lp c -> has_logprobs lp next_c -> exists m, merge_completion c next_c = Ok m /\ has_logprobs lp m /\ co_index m = co_index c /\
    co_text m = co_text c ++ co_text next_c /\ co_token_ids m = co_token_ids c ++ co_token_ids next_c /\
    default [] (co_logprobs m) = default [] (co_logprobs c) ++ default [] (co_logprobs next_c) /\
    (co_finish_reason m, co_stop_reason m, co_cumulative_logprob m) = (co_finish_reason next_c, co_stop_reason next_c, co_cumulative_logprob next_c).
Proof.
  unfold merge_completion, has_logprobs. intros H1 H2. destruct (co_logprobs next_c) as [[|l ls]|] eqn:E2, (co_logprobs c) as [l0|] eqn:E1; cbn in *; try congruence;
    eexists; (split; [reflexivity|]); cbn; rewrite ?app_nil_r; done.
Qed.

Definition indices (cs : list CompletionOutput) : list nat := map co_index cs.
Lemma of_index_absent cs i : i ∉ indices cs -> of_index i cs = [].
Proof.
  unfold of_index. induction cs as [|c cs IH]; [done|]. intros [H1 H2]%not_elem_of_cons.
  rewrite filter_cons_False by done. by apply IH.
Qed.
Lemma of_index_cons i c cs : of_index i (c :: cs) = if decide (co_index c = i) then c :: of_index i cs else of_index i cs.
Proof. done. Qed.

(** One completion is added to those of pairwise different indices. *)
Lemma add_completion_ok agg lp next_c cs :
  NoDup (indices cs) -> Forall (has_logprobs lp) cs -> has_logprobs lp next_c ->
  exists cs', add_completion (map Some cs) next_c agg = Ok (map Some cs') /\ Forall (has_logprobs lp) cs' /\ same_delivery agg cs' (cs ++ [next_c]) /\ (indices cs' = indices cs \/ co_index next_c ∉ indices cs /\ indices cs' = indices cs ++ [co_index next_c]).
Proof.
  intros Hnd Hlp Hn. induction cs as [|c cs IH]; cbn [map add_completion].
  { exists [next_c]. repeat split; try done; [by constructor|]. right. split; [apply not_elem_of_nil|done]. }
  cbn in Hnd. apply NoDup_cons in Hnd as [Hc Hnd]. apply Forall_cons in Hlp as [Hlc Hlp]. cbn [of_option bind].
  destruct (Nat.eqb_spec (co_index c) (co_index next_c)) as [Ei|Ei].
  - assert (Hsame : forall m, co_index m = co_index c -> (agg = true -> co_text m = co_text c ++ co_text next_c /\ co_token_ids m = co_token_ids c ++ co_token_ids next_c /\ default [] (co_logprobs m) = default [] (co_logprobs c) ++ default [] (co_logprobs next_c)) -> (agg = false -> m = next_c) ->
        (co_finish_reason m, co_stop_reason m, co_cumulative_logprob m) = (co_finish_reason next_c, co_stop_reason next_c, co_cumulative_logprob next_c) ->
        same_delivery agg (m :: cs) ((c :: cs) ++ [next_c])).
    { intros m Em Hd Hr Hst. split; intros i; unfold of_index in *; rewrite filter_app, !filter_cons, filter_nil, Em, <-Ei; destruct (decide (co_index c = i)) as [<-|]; rewrite ?app_nil_r; try done.
      all: fold (of_index (co_index c) cs); rewrite of_index_absent by done; cbn [app].
      - unfold last_status. cbn. by rewrite Hst.
      - intros Ht. destruct (Hd Ht) as (E1 & E2 & E3). unfold whole_text, whole_token_ids, whole_logprobs. cbn. rewrite E1, E2, E3, !app_nil_r. done.
      - intros Hf. by rewrite (Hr Hf). }
    destruct agg.
    + destruct (merge_completion_ok lp c next_c Hlc Hn) as (m & -> & Hlm & Em & H1 & H2 & H3 & H4). exists (m :: cs). cbn [bind].
      split; [done|]. split; [by constructor|]. split; [by apply Hsame|]. left. cbn. by rewrite Em.
    + exists (next_c :: cs). split; [done|]. split; [by constructor|]. split; [by apply Hsame|]. left. cbn. by rewrite Ei.
  - destruct (IH Hnd Hlp) as (cs' & -> & Hlp' & Hs & Hi). exists (c :: cs'). cbn [bind]. split; [done|]. split; [by constructor|].
    split; [exact (same_delivery_app agg [c] [c] _ _ (same_delivery_refl _ _) Hs)|]. unfold indices in *. cbn. destruct Hi as [->|[Hi ->]]; [by left|]. right. split; [|done].
    apply not_elem_of_cons. done.
Qed.

Record output_ok (lp : bool) (o : RequestOutput) : Prop := {
  oo_some : ro_outputs o = map Some (completions_of o);
  oo_nodup : NoDup (indices (completions_of o));
  oo_logprobs : Forall (has_logprobs lp) (completions_of o) }.
Lemma completions_of_some o cs : ro_outputs o = map Some cs -> completions_of o = cs.
Proof. unfold completions_of. intros ->. induction cs as [|c cs IH]; [done|]. cbn. by rewrite IH. Qed.
Lemma add_output_ok agg lp o next_o :
  output_ok lp o -> output_ok lp next_o ->
  exists o', add_output o next_o agg = Ok o' /\ output_ok lp o' /\ same_delivery agg (completions_of o') (completions_of o ++ completions_of next_o) /\ ro_finished o' = ro_finished o || ro_finished next_o.
Proof.
  intros [O1 O2 O3] [N1 _ N3]. unfold add_output. rewrite O1, N1.
  assert (H : forall ns cs, NoDup (indices cs) -> Forall (has_logprobs lp) cs -> Forall (has_logprobs lp) ns ->
    exists cs', res_fold (fun outputs c => let! c := of_option AttributeError c in add_completion outputs c agg) (map Some ns) (map Some cs) = Ok (map Some cs') /\ NoDup (indices cs') /\ Forall (has_logprobs lp) cs' /\ same_delivery agg cs' (cs ++ ns)).
  { induction ns as [|x ns IH]; intros cs Hnd Hcs Hns; cbn.
    { exists cs. rewrite app_nil_r. done. }
    apply Forall_cons in Hns as [Hx Hns]. destruct (add_completion_ok agg lp x cs Hnd Hcs Hx) as (c1 & -> & Hl1 & Hs1 & Hi). cbn [bind].
    assert (Hnd1 : NoDup (indices c1)).
    { destruct Hi as [->|[Hi ->]]; [done|]. apply NoDup_app. split; [done|]. split; [by intros i Hx' ->%list_elem_of_singleton|apply NoDup_singleton]. }
    destruct (IH c1 Hnd1 Hl1 Hns) as (cs' & -> & Hnd' & Hl' & Hs'). exists cs'. repeat (split; [done|]). eapply same_delivery_trans; [exact Hs'|].
    change (x :: ns) with ([x] ++ ns). rewrite app_assoc. apply same_delivery_app; [done|apply same_delivery_refl]. }
  destruct (H _ _ O2 O3 N3) as (cs' & -> & Hnd & Hl & Hs). cbn [bind]. eexists. split; [reflexivity|].
  match goal with |- output_ok _ ?o' /\ _ => assert (completions_of o' = cs') as E by (by apply completions_of_some) end.
  split; [|by rewrite E]. split; rewrite E; done.
Qed.

Lemma sent_app a b : sent_completions (a ++ b) = sent_completions a ++ sent_completions b.
Proof. apply flat_map_app. Qed.
Lemma collector_run_ok lp ops : forall q,
  Forall (output_ok lp) (puts ops) -> (collected q = None \/ exists o, collected q = Some (inr (Completions o)) /\ output_ok lp o) ->
  exists got q', collector_run q ops = Ok (got, q') /\
    same_delivery (aggregate q) (sent_completions (got ++ pending q')) (sent_completions (pending q) ++ flat_map completions_of (puts ops)) /\
    sent_finished (got ++ pending q') = sent_finished (pending q) || existsb ro_finished (puts ops).
Proof.
  induction ops as [|[o|] ops IH]; intros q Hops Hq; cbn [collector_run].
  { exists [], q. cbn. rewrite app_nil_r, orb_false_r. split; [done|]. split; [apply same_delivery_refl|done]. }
  - change (puts (CPut o :: ops)) with (o :: puts ops) in *. apply Forall_cons in Hops as [Ho Hops]. cbn [flat_map existsb]. destruct Hq as [Eq|(o0 & Eq & Ho0)].
    + assert (pending q = []) as -> by (unfold pending; by rewrite Eq). unfold put. rewrite Eq. cbn [bind]. destruct (IH {| aggregate := aggregate q; collected := Some (inr (Completions o)) |} Hops) as (got & q' & E & Hs & Hf); [right; exists o; split; [reflexivity|exact Ho]|].
      exists got, q'. split; [exact E|]. cbn in Hs, Hf. rewrite app_nil_r, orb_false_r in *. done.
    + assert (pending q = [Completions o0]) as -> by (unfold pending; by rewrite Eq). unfold put. rewrite Eq. destruct (add_output_ok (aggregate q) lp o0 o Ho0 Ho) as (o' & -> & Ho' & Hs' & Hf'). cbn [bind].
      destruct (IH {| aggregate := aggregate q; collected := Some (inr (Completions o')) |} Hops) as (got & q' & E & Hs & Hf); [right; exists o'; split; [reflexivity|exact Ho']|].
      exists got, q'. split; [exact E|]. cbn in Hs, Hf |- *. rewrite app_nil_r, orb_false_r in *. split; [|by rewrite Hf, Hf', orb_assoc].
      eapply same_delivery_trans; [exact Hs|]. rewrite app_assoc. apply same_delivery_app; [exact Hs'|apply same_delivery_refl].
  - change (puts (CGet :: ops)) with (puts ops) in *. unfold get. destruct Hq as [Eq|(o0 & Eq & Ho0)]; rewrite Eq.
    + destruct (IH {| aggregate := aggregate q; collected := None |} Hops) as (got & q' & E & Hs & Hf); [left; reflexivity|]. exists got, q'. split; [exact E|]. assert (pending q = []) as -> by (unfold pending; by rewrite Eq). done.
    + edestruct (IH {| aggregate := aggregate q; collected := None |} Hops) as (got & q' & -> & Hs & Hf); [left; reflexivity|]. exists (Completions o0 :: got), q'. split; [done|].
      assert (pending q = [Completions o0]) as -> by (unfold pending; by rewrite Eq).
      change (same_delivery (aggregate q) (completions_of o0 ++ sent_completions (got ++ pending q')) ((completions_of o0 ++ []) ++ flat_map completions_of (puts ops)) /\
              ro_finished o0 || sent_finished (got ++ pending q') = ro_finished o0 || false || existsb ro_finished (puts ops)).
      rewrite Hf, app_nil_r, orb_false_r. split; [|done]. by apply same_delivery_app; [apply same_delivery_refl|].
Qed.

(** C23. However the output loop and the client take turns, nothing that is put into
    the collector is lost, doubled or reordered.  What the client has got, with what
    is still there, has for every index the finish reason, stop reason and cumulative
    logprob of the last completion that was put; in delta mode the texts, token ids
    and logprobs put together are those of all completions put, in order, and in the
    other modes the last completion itself arrives; the request is seen as finished
    when an output that was put says so.  No call raises. *)
Theorem collector_ok kind lp ops :
  Forall (output_ok lp) (puts ops) ->
  exists got q, collector_run (make_collector kind) ops = Ok (got, q) /\
    let sent := sent_completions (got ++ pending q) in
    let given := flat_map completions_of (puts ops) in
    (forall i, last_status (of_index i sent) = last_status (of_index i given) /\
       (if bool_decide (kind = DELTA)
        then whole_text (of_index i sent) = whole_text (of_index i given) /\ whole_token_ids (of_index i sent) = whole_token_ids (of_index i given) /\
             whole_logprobs (of_index i sent) = whole_logprobs (of_index i given)
        else last (of_index i sent) = last (of_index i given))) /\
    sent_finished (got ++ pending q) = existsb ro_finished (puts ops).
Proof.
  intros H. destruct (collector_run_ok lp ops (make_collector kind) H (or_introl eq_refl)) as (got & q & E & [S1 S2 S3] & Hf). exists got, q.
  split; [exact E|]. cbn in *. split; [|done]. intros i. split; [done|]. destruct (bool_decide _); [by apply S2|by apply S3].
Qed.

(** ** Examples *)

Definition two_samples : OutputParams :=
  {| op_n := 2; op_output_kind := FINAL_ONLY; op_detokenize := true; op_stop := []; op_include_stop_str_in_output := false;
     op_skip_special_tokens := true; op_spaces_between_special_tokens := true; op_seed := None; op_logprobs := None; op_prompt_logprobs := None |}.
Definition piece (i : nat) (t : text) (ids : list Z) (r : option FinishReason) : CompletionOutput :=
  {| co_index := i; co_text := t; co_token_ids := ids; co_cumulative_logprob := None; co_logprobs := None; co_finish_reason := r; co_stop_reason := None |}.
Definition piece_output (c : CompletionOutput) : RequestOutput :=
  {| ro_request_id := "r"; ro_prompt := None; ro_prompt_token_ids := [9]; ro_prompt_logprobs := None; ro_outputs := [Some c];
     ro_finished := co_finished c; ro_num_cached_tokens := 0 |}.

Definition streamed_samples : OutputParams :=
  {| op_n := 2; op_output_kind := DELTA; op_detokenize := true; op_stop := []; op_include_stop_str_in_output := false;
     op_skip_special_tokens := true; op_spaces_between_special_tokens := true; op_seed := None; op_logprobs := None; op_prompt_logprobs := None |}.
(** The second child sends a piece and finishes first, the first one sends a piece. *)
Lemma parallel_sampling_ok_witness :
  let order := [piece 1 [5] [5] None; piece 0 [4] [4] None; piece 1 [6] [6] (Some STOP); piece 0 [7] [7] (Some LENGTH)] in
  (exists p', feed_children "r" (register (make_parent "r" two_samples) 2) order =
     Ok ([([], false); ([], false); ([], false); ([Some (piece 0 [7] [7] (Some LENGTH)); Some (piece 1 [6] [6] (Some STOP))], true)], p')) /\
  (exists p', feed_children "r" (register (make_parent "r" streamed_samples) 2) order =
     Ok ([([Some (piece 1 [5] [5] None)], false); ([Some (piece 0 [4] [4] None)], false); ([Some (piece 1 [6] [6] (Some STOP))], false);
          ([Some (piece 0 [7] [7] (Some LENGTH))], true)], p')).
Proof.
  cbv zeta. set (order := [_; _; _; _]). assert (Hturn : in_turn order) by (cbn; set_solver).
  assert (Hidx : forall i, (i < 2)%nat <-> i ∈ map co_index order).
  { intros i. cbn. rewrite !elem_of_cons, elem_of_nil. lia. }
  split; [exact (proj2 (parallel_sampling_ok "r" two_samples order Hidx Hturn))|exact (proj2 (parallel_sampling_ok "r" streamed_samples order Hidx Hturn))].
Defined.
(** Two pieces of one index and one of another are put before the client reads. *)
Lemma collector_ok_witness :
  exists got q, collector_run (make_collector DELTA) [CPut (piece_output (piece 0 [1] [1] None)); CPut (piece_output (piece 1 [7] [7] None)); CPut (piece_output (piece 0 [2] [2] (Some STOP))); CGet]
    = Ok (got, q) /\ whole_text (of_index 0 (sent_completions (got ++ pending q))) = [1; 2].
Proof.
  destruct (collector_ok DELTA false [CPut (piece_output (piece 0 [1] [1] None)); CPut (piece_output (piece 1 [7] [7] None)); CPut (piece_output (piece 0 [2] [2] (Some STOP))); CGet])
    as (got & q & E & H & _).
  - repeat constructor; cbn; set_solver.
  - exists got, q. split; [exact E|]. destruct (H 0%nat) as [_ [Ht _]]. exact Ht.
Defined.
