(* ===== verification/OutputProcessor.v ===== *)
(** * The output processor

    [RequestState] and [OutputProcessor] of [vllm/v1/engine/output_processor.py]: the
    requests that the front end waits for, with their detokenizers, logprobs and the
    collector of their client, the parents of parallel samples, and the handlers that
    turn the outputs of the engine core into those of clients. *)

From stdpp Require Import base gmap strings list fin_sets.
From Stdlib Require Import ZArith QArith Lia.
From S2P Require Import Prelude Request SchedulerTypes Detokenizer TextDecoders Completions.
Open Scope list_scope.
Open Scope Z_scope.

(** The part of [EngineCoreRequest] that the output processor reads; a request
    without sampling parameters is a pooling request. *)
Record FrontRequest : Type := {
  fr_request_id : string;
  fr_prompt_token_ids : list Z;
  fr_sampling_params : option OutputParams;
  fr_pooling_kind : option RequestOutputKind }.
(** An output of the engine core with its logprobs. *)
Record CoreOutput : Type := {
  co_output : EngineCoreOutput;
  co_new_logprobs : option LogprobsLists;
  co_new_prompt_logprobs : option (nat * LogprobsLists) }.

(** [RequestState]; a parent and a queue are shared, and named by their place in the
    store of the processor. *)
Record RequestState (D : Type) : Type := {
  rs_request_id : string;
  rs_parent_req : option nat;
  rs_request_index : nat;
  rs_output_kind : RequestOutputKind;
  rs_prompt : option text;
  rs_prompt_token_ids : list Z;
  rs_logprobs_processor : option LogprobsProcessor;
  rs_detokenizer : option (Detokenizer D);
  rs_is_prefilling : bool;
  rs_queue : option nat }.
Arguments rs_request_id {D} _. Arguments rs_parent_req {D} _. Arguments rs_request_index {D} _. Arguments rs_output_kind {D} _.
Arguments rs_prompt {D} _. Arguments rs_prompt_token_ids {D} _. Arguments rs_logprobs_processor {D} _. Arguments rs_detokenizer {D} _.
Arguments rs_is_prefilling {D} _. Arguments rs_queue {D} _.

(** [OutputProcessor], with the parents and the collectors that exist. *)
Record OutputProcessor (D : Type) : Type := {
  request_states : gmap string (RequestState D);
  parent_requests : gmap string nat;
  parents : gmap nat ParentRequest;
  queues : gmap nat Collector }.
Arguments request_states {D} _. Arguments parent_requests {D} _. Arguments parents {D} _. Arguments queues {D} _.

Section processor.
Context {D : Type} `{!TextDecoder D} (decode_one : Z -> option text).
(** [IncrementalDetokenizer.from_new_request], see [TextDecoders]. *)
Context (new_detokenizer : bool -> list Z -> OutputParams -> res (Detokenizer D)).
Notation Rs := (RequestState D).
Notation Proc := (OutputProcessor D).

Definition with_output_state (r : Rs) (lp : option LogprobsProcessor) (d : option (Detokenizer D)) : Rs :=
  {| rs_request_id := rs_request_id r; rs_parent_req := rs_parent_req r; rs_request_index := rs_request_index r; rs_output_kind := rs_output_kind r;
     rs_prompt := rs_prompt r; rs_prompt_token_ids := rs_prompt_token_ids r; rs_logprobs_processor := lp; rs_detokenizer := d;
     rs_is_prefilling := false; rs_queue := rs_queue r |}.
Definition with_states (o : Proc) (s : gmap string Rs) : Proc :=
  {| request_states := s; parent_requests := parent_requests o; parents := parents o; queues := queues o |}.
Definition with_parent_requests (o : Proc) (p : gmap string nat) : Proc :=
  {| request_states := request_states o; parent_requests := p; parents := parents o; queues := queues o |}.
Definition with_parents (o : Proc) (p : gmap nat ParentRequest) : Proc :=
  {| request_states := request_states o; parent_requests := parent_requests o; parents := p; queues := queues o |}.
Definition with_queues (o : Proc) (q : gmap nat Collector) : Proc :=
  {| request_states := request_states o; parent_requests := parent_requests o; parents := parents o; queues := q |}.

(** ** [RequestState] *)

Definition request_state_from_new_request (has_tokenizer : bool) (request : FrontRequest) (prompt : option text) (parent_req : option nat)
    (request_index : nat) (queue : option nat) : res Rs :=
  let! '(output_kind, logprobs_processor, detokenizer) :=
    (match fr_sampling_params request with
     | Some p =>
         let has_tokenizer := has_tokenizer && op_detokenize p in
         let! d := new_detokenizer has_tokenizer (fr_prompt_token_ids request) p in
         Ok (op_output_kind p, Some (make_logprobs_processor has_tokenizer p), Some d)
     | None => let! k := of_option AssertionError (fr_pooling_kind request) in Ok (k, None, None)
     end) in
  Ok {| rs_request_id := fr_request_id request; rs_parent_req := parent_req; rs_request_index := request_index; rs_output_kind := output_kind;
        rs_prompt := prompt; rs_prompt_token_ids := fr_prompt_token_ids request; rs_logprobs_processor := logprobs_processor;
        rs_detokenizer := detokenizer; rs_is_prefilling := true; rs_queue := queue |}.

(** The new completion; the detokenizer remembers what it has sent. *)
Definition _new_completion_output (r : Rs) (token_ids : list Z) (finish_reason : option FinishReason) (stop_reason : option StopReason) : res (CompletionOutput * Rs) :=
  let! d := of_option AssertionError (rs_detokenizer r) in
  let! lp := of_option AssertionError (rs_logprobs_processor r) in
  let finished := bool_decide (is_Some finish_reason) in
  let delta := bool_decide (rs_output_kind r = DELTA) in
  let '(t, d) := get_next_output_text d finished delta in
  let token_ids := if delta then token_ids else output_token_ids d in
  let logprobs :=
    match lp_logprobs lp with
    | Some ((_ :: _) as l) => if delta then Some (py_from l (- Z.of_nat (length token_ids))) else Some l
    | l => l
    end in
  Ok ({| co_index := rs_request_index r; co_text := t; co_token_ids := token_ids; co_cumulative_logprob := cumulative_logprob lp; co_logprobs := logprobs;
         co_finish_reason := finish_reason; co_stop_reason := if finished then stop_reason else None |}, with_output_state r (Some lp) (Some d)).

(** For completions; pooling outputs are told apart by the caller. *)
Definition _new_request_output (r : Rs) (request_id : string) (outputs : list (option CompletionOutput)) (finished : bool) (num_cached_tokens : Z) : res (ClientOutput * Rs) :=
  let! lp := of_option AssertionError (rs_logprobs_processor r) in
  let '(prompt_logprobs, lp) := if bool_decide (rs_output_kind r = DELTA) then pop_prompt_logprobs lp else (lp_prompt_logprobs lp, lp) in
  Ok (Completions {| ro_request_id := request_id; ro_prompt := rs_prompt r; ro_prompt_token_ids := rs_prompt_token_ids r; ro_prompt_logprobs := prompt_logprobs;
                     ro_outputs := outputs; ro_finished := finished; ro_num_cached_tokens := num_cached_tokens |},
      with_output_state r (Some lp) (rs_detokenizer r)).

Definition make_request_output (ps : gmap nat ParentRequest) (r : Rs) (new_token_ids : list Z) (pooling_output : bool) (finish_reason : option FinishReason)
    (stop_reason : option StopReason) (num_cached_tokens : Z) : res (option ClientOutput * Rs * gmap nat ParentRequest) :=
  let finished := bool_decide (is_Some finish_reason) in
  if negb finished && bool_decide (rs_output_kind r = FINAL_ONLY) then Ok (None, r, ps)
  else if pooling_output then Ok (Some (PoolingResult (rs_request_id r) (rs_prompt_token_ids r) finished), r, ps)
  else
    let! '(output, r) := _new_completion_output r new_token_ids finish_reason stop_reason in
    match rs_parent_req r with
    | None =>
        let! '(o, r) := _new_request_output r (rs_request_id r) [Some output] finished num_cached_tokens in
        Ok (Some o, r, ps)
    | Some k =>
        let! p := of_option AttributeError (ps !! k) in
        let! '(request_id, outputs, finished, p) := get_outputs p (rs_request_id r) output in
        let ps := <[k := p]> ps in
        if bool_decide (outputs = []) then Ok (None, r, ps)
        else let! '(o, r) := _new_request_output r request_id outputs finished num_cached_tokens in Ok (Some o, r, ps)
    end.

(** ** [OutputProcessor] *)

Definition make_processor : Proc := {| request_states := ∅; parent_requests := ∅; parents := ∅; queues := ∅ |}.
Definition front_num_unfinished (o : Proc) : nat := size (request_states o).
Definition front_has_unfinished (o : Proc) : bool := (0 <? size (request_states o))%nat.

Definition propagate_error (o : Proc) (e : exn) : res Proc :=
  res_fold (fun o '(_, r) =>
    let! k := of_option AssertionError (rs_queue r) in
    let! q := of_option AttributeError (queues o !! k) in
    let! q := put q (inl e) in
    Ok (with_queues o (<[k := q]> (queues o)))) (map_to_list (request_states o)) o.

(** A level of fuel for every parent that is taken out of the dictionary; Python's
    own limit raises [RecursionError], a [RuntimeError]. *)
Fixpoint abort_requests_loop (fuel : nat) (o : Proc) (request_ids : list string) : res (list string * Proc) :=
  match fuel with
  | O => Raise RuntimeError
  | S fuel =>
      res_fold (fun '(to_abort, o) request_id =>
        match request_states o !! request_id with
        | Some _ => Ok (to_abort ++ [request_id], with_states o (delete request_id (request_states o)))
        | None =>
            match parent_requests o !! request_id with
            | None => Ok (to_abort, o)
            | Some k =>
                let o := with_parent_requests o (delete request_id (parent_requests o)) in
                let! parent := of_option AttributeError (parents o !! k) in
                let children := elements (child_requests parent) in
                if bool_decide (children = []) then Ok (to_abort, o)
                else let! '(_, o) := abort_requests_loop fuel o children in Ok (to_abort ++ children, o)
            end
        end) request_ids ([], o)
  end.
Definition abort_requests (o : Proc) (request_ids : list string) : res (list string * Proc) :=
  abort_requests_loop (S (size (parent_requests o))) o request_ids.

Definition processor_add_request (has_tokenizer : bool) (o : Proc) (request : FrontRequest) (prompt : option text) (parent_req : option nat) (request_index : nat)
    (queue : option nat) : res Proc :=
  let request_id := fr_request_id request in
  match request_states o !! request_id with
  | Some _ => Raise ValueError
  | None =>
      let! r := request_state_from_new_request has_tokenizer request prompt parent_req request_index queue in
      let o := with_states o (<[request_id := r]> (request_states o)) in
      match parent_req with
      | None => Ok o
      | Some k =>
          let! p := of_option AttributeError (parents o !! k) in
          Ok (with_parent_requests o (<[pr_request_id p := k]> (parent_requests o)))
      end
  end.

(** The list of outputs for [LLMEngine], and the requests to abort in the core. *)
Record Processed : Type := {
  request_outputs : list ClientOutput;
  reqs_to_abort : list string }.

(** Detokenization, stop strings and logprobs of an output: the reason to finish, the
    reason to stop, and the new state. *)
Definition absorb (r : Rs) (c : CoreOutput) : res (option FinishReason * option StopReason * Rs) :=
  let e := co_output c in
  let finish_reason := eco_finish_reason e in
  let stop_reason := StopToken <$> eco_stop_reason e in
  let r := with_output_state r (rs_logprobs_processor r) (rs_detokenizer r) in
  if eco_pooling_output e then Ok (finish_reason, stop_reason, r)
  else
    let! d := of_option AssertionError (rs_detokenizer r) in
    let! lp := of_option AssertionError (rs_logprobs_processor r) in
    let! '(stop_string, d) := update d (eco_new_token_ids e) (is_stop finish_reason) in
    let! lp := update_logprobs decode_one lp (co_new_logprobs c) (co_new_prompt_logprobs c) in
    let r := with_output_state r (Some lp) (Some d) in
    match stop_string with
    | Some ((_ :: _) as s) => Ok (Some STOP, Some (StopString s), r)
    | _ => Ok (finish_reason, stop_reason, r)
    end.
(** "Create and handle RequestOutput objects": a collector takes the output, or the
    list of outputs does. *)
Definition hand_over (o : Proc) (r : Rs) (request_output : option ClientOutput) (outputs : list ClientOutput) : res (list ClientOutput * Proc) :=
  match request_output, rs_queue r with
  | None, _ => Ok (outputs, o)
  | Some out, None => Ok (outputs ++ [out], o)
  | Some out, Some k =>
      let! q := of_option AttributeError (queues o !! k) in
      let! q := put q (inr out) in
      Ok (outputs, with_queues o (<[k := q]> (queues o)))
  end.
(** "Free completed requests", with the parent when it has no children left. *)
Definition free_completed (o : Proc) (req_id : string) (r : Rs) : res Proc :=
  let o := with_states o (delete req_id (request_states o)) in
  match rs_parent_req r with
  | None => Ok o
  | Some k =>
      let! parent := of_option AttributeError (parents o !! k) in
      if bool_decide (child_requests parent = ∅) then Ok (with_parent_requests o (delete (pr_request_id parent) (parent_requests o))) else Ok o
  end.
(** One round of the loop of [process_outputs]. *)
Definition process_output (w : Processed * Proc) (c : CoreOutput) : res (Processed * Proc) :=
  let '(p, o) := w in
  let e := co_output c in
  let req_id := eco_request_id e in
  match request_states o !! req_id with
  | None => Ok (p, o)
  | Some r =>
      let! '(finish_reason, stop_reason, r) := absorb r c in
      let! '(request_output, r, ps) := make_request_output (parents o) r (eco_new_token_ids e) (eco_pooling_output e) finish_reason stop_reason (eco_num_cached_tokens e) in
      let o := with_parents (with_states o (<[req_id := r]> (request_states o))) ps in
      let! '(outputs, o) := hand_over o r request_output (request_outputs p) in
      match finish_reason with
      | None => Ok ({| request_outputs := outputs; reqs_to_abort := reqs_to_abort p |}, o)
      | Some _ =>
          let! o := free_completed o req_id r in
          let abort := match eco_finish_reason e with None => [req_id] | Some _ => [] end in
          Ok ({| request_outputs := outputs; reqs_to_abort := reqs_to_abort p ++ abort |}, o)
      end
  end.
Definition process_outputs (o : Proc) (engine_core_outputs : list CoreOutput) : res (Processed * Proc) :=
  res_fold process_output engine_core_outputs ({| request_outputs := []; reqs_to_abort := [] |}, o).
End processor.
