(* ===== verification/OutputProcessorOk.v ===== *)
(** * Serving without collectors

    [OutputProcessor] behind [LLMEngine]: no handler raises, a request goes away
    exactly when its last output has been made, the core is told to abort exactly the
    requests that a stop string ended, and what a client gets of a request does not
    depend on the others. *)

From stdpp Require Import base gmap strings list fin_sets.
From Stdlib Require Import ZArith QArith Lia.
From S2P Require Import Prelude Request SchedulerTypes Detokenizer Streaming TextDecoders Completions CompletionsOk OutputProcessor.
Open Scope list_scope.
Open Scope Z_scope.

(** ** Logprobs *)

Record logprobs_ok (lp : LogprobsProcessor) : Prop := {
  lo_sample : is_Some (lp_num_logprobs lp) -> is_Some (lp_logprobs lp) /\ is_Some (cumulative_logprob lp);
  lo_prompt : is_Some (lp_num_prompt_logprobs lp) -> is_Some (lp_prompt_logprobs lp) }.
Definition logprobs_settings (lp : LogprobsProcessor) : option Z * option Z := (lp_num_logprobs lp, lp_num_prompt_logprobs lp).
(** The core sends logprobs only when they were asked for, with a column for the
    sampled token, and matrices whose rows go together. *)
Definition logprobs_fit (settings : option Z * option Z) (c : CoreOutput) : Prop :=
  (forall ids ls ranks, co_new_logprobs c = Some (ids, ls, ranks) -> is_Some settings.1 /\ Forall (fun row => row <> []) ls) /\
  (forall n ids ls ranks, co_new_prompt_logprobs c = Some (n, (ids, ls, ranks)) -> is_Some settings.2 /\ (length ls <= length ids)%nat /\ (length ls <= length ranks)%nat).

Lemma make_logprobs_ok b p : logprobs_ok (make_logprobs_processor b p).
Proof. split; cbn; intros [z ->]; [split|]; eauto. Qed.

Section logprobs.
Context (decode_one : Z -> option text).
Lemma sample_loop_total (s : LogprobsProcessor) num ids : forall ls ranks acc q,
  Forall (fun row => row <> []) ls -> exists acc' q', sample_logprobs_loop decode_one s num ids ls ranks acc q = Ok (acc', q').
Proof.
  induction ids as [|i ids IH]; intros [|l ls] [|rk ranks] acc q H; cbn; eauto. apply Forall_cons in H as [Hl H]. destruct l as [|x l]; [done|]. cbn. by apply IH.
Qed.
Lemma prompt_rows_total num n ls : forall pos ids ranks decoded,
  (length ls <= length ids)%nat -> (length ls <= length ranks)%nat -> exists rows, prompt_logprobs_rows num n pos ids ls ranks decoded = Ok rows.
Proof.
  induction ls as [|l ls IH]; intros pos [|i ids] [|rk ranks] decoded H1 H2; cbn in *; eauto; try lia.
  destruct (IH (pos + 1)%nat ids ranks decoded) as [rows ->]; [lia|lia|]. cbn. eauto.
Qed.
Lemma update_logprobs_ok lp c :
  logprobs_ok lp -> logprobs_fit (logprobs_settings lp) c ->
  exists lp', update_logprobs decode_one lp (co_new_logprobs c) (co_new_prompt_logprobs c) = Ok lp' /\ logprobs_ok lp' /\ logprobs_settings lp' = logprobs_settings lp.
Proof.
  intros [L1 L2] [F1 F2]. unfold update_logprobs.
  assert (exists lp1, match co_new_logprobs c with Some l => _update_sample_logprobs decode_one lp l | None => Ok lp end = Ok lp1 /\
            logprobs_ok lp1 /\ logprobs_settings lp1 = logprobs_settings lp) as (lp1 & -> & [K1 K2] & Es).
  { destruct (co_new_logprobs c) as [[[ids ls] ranks]|]; [|by exists lp]. destruct (F1 _ _ _ eq_refl) as [[num En] Hrows]. cbn in En.
    destruct L1 as [[acc Ea] [q Eq]]; [by exists num|]. unfold _update_sample_logprobs. rewrite En, Ea, Eq. cbn [of_option bind].
    destruct (sample_loop_total lp num ids ls ranks acc q Hrows) as (acc' & q' & ->). cbn [bind]. eexists. split; [reflexivity|]. split; [|done].
    split; cbn; [intros _; eauto|exact L2]. }
  cbn [bind]. destruct (co_new_prompt_logprobs c) as [[n [[ids ls] ranks]]|]; [|exists lp1; repeat split; try done; by apply K1].
  destruct (F2 _ _ _ _ eq_refl) as ([num En] & Hl1 & Hl2). cbn in En. injection Es as Es1 Es2. destruct K2 as [acc Ea]; [rewrite Es2, En; eauto|].
  unfold _update_prompt_logprobs. rewrite Es2, En, Ea. cbn [of_option bind]. edestruct (prompt_rows_total num n ls 0 ids ranks) as [rows ->]; [done|done|].
  cbn [bind]. eexists. split; [reflexivity|]. split; [split; cbn; [exact K1|intros _; eauto]|]. unfold logprobs_settings. cbn. by rewrite Es1, Es2.
Qed.
Lemma pop_prompt_logprobs_ok lp : logprobs_ok lp -> logprobs_ok (pop_prompt_logprobs lp).2 /\ logprobs_settings (pop_prompt_logprobs lp).2 = logprobs_settings lp.
Proof. intros [L1 L2]. unfold pop_prompt_logprobs. cbn. destruct (lp_prompt_logprobs lp) as [[|]|] eqn:E; (split; [split|]); cbn; rewrite ?E; eauto. Qed.
End logprobs.

(** ** One output *)

Section processor.
Context {D : Type} `{!TextDecoder D} (decode_one : Z -> option text).
Context (decode_total : forall (d : D) id, exists t d', decode_next d id = Ok (t, d')).
Context (new_detokenizer : bool -> list Z -> OutputParams -> res (Detokenizer D)).
Notation Rs := (RequestState D).
Notation Proc := (OutputProcessor D).

Lemma decode_all_total ids : forall d : D, exists t d', decode_all d ids = Ok (t, d').
Proof.
  induction ids as [|id ids IH]; intros d; cbn; [eauto|]. destruct (decode_total d id) as (t & d1 & ->). cbn. destruct (IH d1) as (ts & d2 & ->). cbn. eauto.
Qed.
Lemma update_total (d : Detokenizer D) ids stop : exists s d', update d ids stop = Ok (s, d').
Proof.
  destruct d as [l|b]; cbn; [eauto|]. unfold base_update. destruct (bool_decide_reflect (ids = [])) as [|Hne]; [cbn; eauto|].
  set (skip := stop && negb (d_include_stop b)).
  assert (exists sk, (if skip then let! x := py_nth ids (-1) in Ok [x] else Ok []) = Ok sk) as [sk ->].
  { destruct skip; [|eauto]. unfold py_nth. destruct ids as [|i ids]; [done|]. cbn [length]. rewrite (proj2 (Z.ltb_lt (-1) 0)) by lia.
    rewrite (proj2 (Z.ltb_ge _ 0)) by lia. destruct (lookup_lt_is_Some_2 (i :: ids) (Z.to_nat (-1 + Z.of_nat (S (length ids))))) as [x ->]; [cbn; lia|]. cbn. eauto. }
  cbn [bind]. rewrite decode_tokens_ok. destruct (decode_all_total (if skip then py_slice ids 0 (-1) else ids) (decoder b)) as (t & dec & ->). cbn [bind].
  destruct stop; [cbn; eauto|]. destruct (bool_decide _); [cbn; eauto|]. destruct (check_stop_strings _ _ _ _) as [[s k]|]; cbn; eauto.
Qed.

Record same_request (r r' : Rs) : Prop := {
  sr_id : rs_request_id r' = rs_request_id r;
  sr_parent : rs_parent_req r' = rs_parent_req r;
  sr_index : rs_request_index r' = rs_request_index r;
  sr_kind : rs_output_kind r' = rs_output_kind r;
  sr_queue : rs_queue r' = rs_queue r;
  sr_settings : logprobs_settings <$> rs_logprobs_processor r' = logprobs_settings <$> rs_logprobs_processor r }.
Lemma same_request_trans r1 r2 r3 : same_request r1 r2 -> same_request r2 r3 -> same_request r1 r3.
Proof. intros [] []. split; congruence. Qed.

(** A request for completions with its parts. *)
Record serving_request (r : Rs) : Prop := {
  sv_logprobs : exists lp, rs_logprobs_processor r = Some lp /\ logprobs_ok lp;
  sv_detokenizer : is_Some (rs_detokenizer r);
  sv_queue : rs_queue r = None }.
(** An output that the core may send for the request. *)
Record output_fits (r : Rs) (c : CoreOutput) : Prop := {
  of_completion : eco_pooling_output (co_output c) = false;
  of_logprobs lp : rs_logprobs_processor r = Some lp -> logprobs_fit (logprobs_settings lp) c }.

Lemma absorb_ok r c :
  serving_request r -> output_fits r c ->
  exists finish sr r', absorb decode_one r c = Ok (finish, sr, r') /\ serving_request r' /\ same_request r r' /\
    (is_Some (eco_finish_reason (co_output c)) -> is_Some finish).
Proof.
  intros [(lp & El & Hl) [d Ed] Hq] [Hp Hf]. unfold absorb. rewrite Hp. cbn [rs_detokenizer rs_logprobs_processor with_output_state]. rewrite Ed, El. cbn [of_option bind].
  destruct (update_total d (eco_new_token_ids (co_output c)) (is_stop (eco_finish_reason (co_output c)))) as (s & d' & ->). cbn [bind].
  destruct (update_logprobs_ok decode_one lp c Hl (Hf lp El)) as (lp' & -> & Hl' & Es). cbn [bind].
  assert (Hr : serving_request (with_output_state (with_output_state r (Some lp) (Some d)) (Some lp') (Some d')) /\
               same_request r (with_output_state (with_output_state r (Some lp) (Some d)) (Some lp') (Some d'))).
  { split; split; cbn; try done; eauto. rewrite El. cbn. by f_equal. }
  destruct s as [[|x s]|]; eexists _, _, _; (split; [reflexivity|]); (split; [apply Hr|]); (split; [apply Hr|]); eauto.
Qed.

(** The parent of a request counts on it. *)
Definition waits_for (ps : gmap nat ParentRequest) (r : Rs) : Prop := forall k, rs_parent_req r = Some k ->
  exists p, ps !! k = Some p /\ rs_request_id r ∈ child_requests p /\
    (op_output_kind (pr_sampling_params p) = FINAL_ONLY -> (rs_request_index r < length (output_aggregator p))%nat).
Lemma waits_same ps r r' : same_request r r' -> waits_for ps r -> waits_for ps r'.
Proof. intros [E1 E2 E3 _ _ _] H k Hk. rewrite E2 in Hk. rewrite E1, E3. by apply H. Qed.

(** Parents lose at most the finished child [gone]. *)
Definition parents_kept (gone : option string) (ps ps' : gmap nat ParentRequest) : Prop := dom ps' = dom ps /\ forall k p, ps !! k = Some p ->
  exists p', ps' !! k = Some p' /\ pr_request_id p' = pr_request_id p /\ pr_sampling_params p' = pr_sampling_params p /\
    length (output_aggregator p') = length (output_aggregator p) /\ (forall x, x ∈ child_requests p -> Some x <> gone -> x ∈ child_requests p') /\
    child_requests p' ⊆ child_requests p.
Lemma parents_kept_refl gone ps : parents_kept gone ps ps.
Proof. split; [done|]. intros k p E. by exists p. Qed.
Lemma waits_kept gone ps ps' r : parents_kept gone ps ps' -> Some (rs_request_id r) <> gone -> waits_for ps r -> waits_for ps' r.
Proof.
  intros [_ Hk] Hne H k Ek. destruct (H k Ek) as (p & Ep & Hc & Ha). destruct (Hk k p Ep) as (p' & Ep' & _ & E2 & E3 & Hc' & _). exists p'. split; [done|].
  split; [by apply Hc'|]. by rewrite E2, E3.
Qed.
Lemma get_outputs_ok p id c :
  (co_finish_reason c <> None -> id ∈ child_requests p) -> (op_output_kind (pr_sampling_params p) = FINAL_ONLY -> (co_index c < length (output_aggregator p))%nat) ->
  exists outs fin p', get_outputs p id c = Ok (pr_request_id p, outs, fin, p') /\ pr_request_id p' = pr_request_id p /\ pr_sampling_params p' = pr_sampling_params p /\
    length (output_aggregator p') = length (output_aggregator p) /\
    child_requests p' = (if co_finished c then child_requests p ∖ {[id]} else child_requests p).
Proof.
  intros H1 H2. unfold get_outputs.
  assert ((if co_finished c then if bool_decide (id ∈ child_requests p) then Ok (child_requests p ∖ {[id]}) else Raise KeyError else Ok (child_requests p))
          = Ok (if co_finished c then child_requests p ∖ {[id]} else child_requests p)) as ->.
  { unfold co_finished. case_bool_decide as E; [|done]. rewrite bool_decide_eq_true_2; [done|]. apply H1. by intros En; rewrite En in E; destruct E. }
  cbn [bind]. set (ch := if co_finished c then _ else _). destruct (bool_decide_reflect (op_output_kind (pr_sampling_params p) = FINAL_ONLY)) as [E|E].
  - rewrite (proj2 (Nat.ltb_lt _ _)) by auto. eexists _, _, _. split; [reflexivity|]. cbn. by rewrite length_insert.
  - eexists _, _, _. split; [reflexivity|]. done.
Qed.

Definition client_request_id (o : ClientOutput) : string := match o with Completions o => ro_request_id o | PoolingResult id _ _ => id end.
Lemma make_request_output_ok ps r ids finish sr cached :
  serving_request r -> waits_for ps r ->
  exists out r' ps', make_request_output ps r ids false finish sr cached = Ok (out, r', ps') /\ serving_request r' /\ same_request r r' /\
    parents_kept (match finish with Some _ => Some (rs_request_id r) | None => None end) ps ps' /\
    (rs_parent_req r = None -> ps' = ps) /\
    (forall o, out = Some o -> client_request_id o = rs_request_id r \/ exists k p, ps !! k = Some p /\ client_request_id o = pr_request_id p).
Proof.
  intros Hr Hw. unfold make_request_output. destruct (negb _ && _).
  { exists None, r, ps. repeat split; try done; [apply Hr..|apply parents_kept_refl]. }
  destruct Hr as [(lp & El & Hl) [d Ed] Hq]. unfold _new_completion_output. rewrite Ed, El. cbn [of_option bind]. destruct (get_next_output_text _ _ _) as [t d1].
  cbn [bind]. set (c := {| co_index := _ |}). set (r1 := with_output_state r (Some lp) (Some d1)).
  assert (Hout : forall id outs fin, exists o r', _new_request_output r1 id outs fin cached = Ok (o, r') /\ client_request_id o = id /\ serving_request r' /\ same_request r r').
  { intros id outs fin. unfold _new_request_output. cbn [r1 with_output_state rs_logprobs_processor of_option bind rs_output_kind].
    destruct (bool_decide _).
    - destruct (pop_prompt_logprobs_ok lp Hl) as [Hl' Es]. destruct (pop_prompt_logprobs lp) as [plp lp']. cbn in Hl', Es. eexists _, _. split; [reflexivity|].
      split; [done|]. split; split; cbn; try done; eauto. rewrite El. cbn. by f_equal.
    - eexists _, _. split; [reflexivity|]. split; [done|]. split; split; cbn; try done; eauto. by rewrite El. }
  assert (Hr1 : serving_request r1 /\ same_request r r1) by (split; split; cbn; try done; eauto; by rewrite El).
  change (rs_parent_req r1) with (rs_parent_req r). destruct (rs_parent_req r) as [k|] eqn:Ek.
  - destruct (Hw k Ek) as (p & Ep & Hc & Ha). rewrite Ep. cbn [of_option bind]. change (rs_request_id r1) with (rs_request_id r).
    destruct (get_outputs_ok p (rs_request_id r) c) as (outs & fin & p' & -> & E1 & E2 & E3 & E4); [done|exact Ha|]. cbn [bind].
    assert (Hk : parents_kept (match finish with Some _ => Some (rs_request_id r) | None => None end) ps (<[k := p']> ps)).
    { split; [apply dom_insert_lookup_L; eauto|]. intros k0 p0 E0. destruct (decide (k0 = k)) as [->|Hne]; [|exists p0; by rewrite lookup_insert_ne]. rewrite Ep in E0. injection E0 as <-.
      exists p'. rewrite lookup_insert_eq. repeat (split; [done|]). split; [|rewrite E4; destruct (co_finished c); set_solver]. intros x Hx Hne. rewrite E4. unfold co_finished. cbn. destruct finish as [f|]; [|done].
      cbn. apply elem_of_difference. split; [done|]. rewrite elem_of_singleton. congruence. }
    destruct (bool_decide (outs = [])).
    + exists None, r1, (<[k := p']> ps). split; [done|]. split; [apply Hr1|]. split; [apply Hr1|]. split; [exact Hk|]. done.
    + destruct (Hout (pr_request_id p) outs fin) as (o & r' & -> & Eo & Hs & Hsame). cbn [bind]. exists (Some o), r', (<[k := p']> ps).
      repeat (split; [done|]). intros o' [= <-]. right. eauto.
  - edestruct Hout as (o & r' & -> & Eo & Hs & Hsame). cbn [bind]. exists (Some o), r', ps. split; [done|]. repeat (split; [done|]).
    split; [apply parents_kept_refl|]. split; [done|]. intros o' [= <-]. by left.
Qed.

(** ** The loop *)

Definition proc_ok (o : Proc) : Prop := forall id r, request_states o !! id = Some r ->
  rs_request_id r = id /\ serving_request r /\ waits_for (parents o) r.
Notation id_of c := (eco_request_id (co_output c)).
Definition fits_in (o : Proc) (c : CoreOutput) : Prop := forall r, request_states o !! id_of c = Some r -> output_fits r c.
Definition ends (finish : option FinishReason) : bool := match finish with Some _ => true | None => false end.

(** What an output does to the request that it is for. *)
Record output_done (o : Proc) (p : Processed) (c : CoreOutput) (r : Rs) (p' : Processed) (o' : Proc) : Prop := {
  od_steps : exists finish sr r1 r2 out ps, absorb decode_one r c = Ok (finish, sr, r1) /\
    make_request_output (parents o) r1 (eco_new_token_ids (co_output c)) false finish sr (eco_num_cached_tokens (co_output c)) = Ok (out, r2, ps) /\
    same_request r r2 /\ (is_Some (eco_finish_reason (co_output c)) -> is_Some finish) /\
    request_states o' = (if ends finish then delete (id_of c) (request_states o) else <[id_of c := r2]> (request_states o)) /\
    parents o' = ps /\ request_outputs p' = request_outputs p ++ option_list out /\
    reqs_to_abort p' = reqs_to_abort p ++ (if ends finish && negb (ends (eco_finish_reason (co_output c))) then [id_of c] else []) /\
    (forall x, out = Some x -> client_request_id x = id_of c \/ exists k q, parents o !! k = Some q /\ client_request_id x = pr_request_id q) }.

Lemma hand_over_ok (o : Proc) r out l : rs_queue r = None -> hand_over o r out l = Ok (l ++ option_list out, o).
Proof. intros E. unfold hand_over. rewrite E. by destruct out; cbn; rewrite ?app_nil_r. Qed.
Lemma free_completed_ok (o : Proc) id r :
  (forall k, rs_parent_req r = Some k -> is_Some (parents o !! k)) ->
  exists o', free_completed o id r = Ok o' /\ request_states o' = delete id (request_states o) /\ parents o' = parents o /\ queues o' = queues o /\
    parent_requests o' ⊆ parent_requests o.
Proof.
  intros H. unfold free_completed. destruct (rs_parent_req r) as [k|]; [|by eexists]. destruct (H k eq_refl) as [p Ep]. cbn. rewrite Ep. cbn.
  destruct (bool_decide _); eexists; (split; [reflexivity|]); (repeat (split; [done|])); cbn; [apply delete_subseteq|done].
Qed.

Lemma process_output_ok p o c :
  proc_ok o -> fits_in o c ->
  exists p' o', process_output decode_one (p, o) c = Ok (p', o') /\ proc_ok o' /\ queues o' = queues o /\ parents_kept (Some (id_of c)) (parents o) (parents o') /\
    parent_requests o' ⊆ parent_requests o /\
    match request_states o !! id_of c with
    | None => p' = p /\ o' = o
    | Some r => output_done o p c r p' o'
    end.
Proof.
  intros Ho Hf. unfold process_output. destruct (request_states o !! id_of c) as [r|] eqn:Er.
  2:{ exists p, o. split; [done|]. split; [exact Ho|]. split; [done|]. split; [apply parents_kept_refl|]. done. }
  destruct (Ho _ _ Er) as (Eid & Hr & Hw). pose proof (Hf r Er) as Hc.
  destruct (absorb_ok r c Hr Hc) as (finish & sr & r1 & Ea & Hr1 & Hs1 & Hfin). rewrite Ea. cbn [bind]. rewrite (of_completion r c Hc).
  destruct (make_request_output_ok (parents o) r1 (eco_new_token_ids (co_output c)) finish sr (eco_num_cached_tokens (co_output c)) Hr1 (waits_same _ _ _ Hs1 Hw))
    as (out & r2 & ps & Em & Hr2 & Hs2 & Hk & Hps & Hid). rewrite Em. cbn [bind].
  pose proof (same_request_trans _ _ _ Hs1 Hs2) as Hs. rewrite hand_over_ok by (by rewrite (sr_queue _ _ Hs), (sv_queue r Hr)). cbn [bind].
  assert (Hps' : parents_kept (Some (id_of c)) (parents o) ps).
  { split; [apply Hk|]. intros k q Eq. destruct (proj2 Hk k q Eq) as (q' & ? & ? & ? & ? & Hch & ?). exists q'. repeat (split; [done|]). split; [|done]. intros x Hx Hne. apply Hch; [done|].
    destruct finish; [|done]. by rewrite (sr_id _ _ Hs1), Eid. }
  assert (Hothers : forall id r', id <> id_of c -> request_states o !! id = Some r' -> rs_request_id r' = id /\ serving_request r' /\ waits_for ps r').
  { intros id r' Hne E. destruct (Ho _ _ E) as (E' & ? & ?). split; [done|]. split; [done|]. eapply waits_kept; [exact Hps'| |done]. rewrite E'. congruence. }
  assert (Hdone : forall o1 ab, request_states o1 = (if ends finish then delete (id_of c) (request_states o) else <[id_of c := r2]> (request_states o)) -> parents o1 = ps ->
      ab = (if ends finish && negb (ends (eco_finish_reason (co_output c))) then [id_of c] else []) ->
      output_done o p c r {| request_outputs := request_outputs p ++ option_list out; reqs_to_abort := reqs_to_abort p ++ ab |} o1).
  { intros o1 ab E1 E2 ->. split. exists finish, sr, r1, r2, out, ps. repeat (split; [done|]). intros x Ex. rewrite <-Eid, <-(sr_id _ _ Hs1). by apply Hid. }
  destruct finish as [f|]; cbn [ends] in *.
  - set (o0 := with_parents _ ps). destruct (free_completed_ok o0 (id_of c) r2) as (o1 & -> & Est & Eps & Eq & Hreg).
    { intros k Ek. rewrite (sr_parent _ _ Hs) in Ek. destruct (Hw k Ek) as (q & Eq & _). destruct (proj2 Hps' k q Eq) as (q' & E & _). by exists q'. }
    cbn in Est, Eps, Eq. rewrite delete_insert_eq in Est. cbn [bind]. eexists _, o1. split; [reflexivity|].
    split; [|split; [done|]; split; [by rewrite Eps|]; split; [done|]; apply Hdone; [done|done|]; by destruct (eco_finish_reason _)].
    intros id r'. rewrite Est, Eps. intros [Hne E]%lookup_delete_Some. by apply Hothers.
  - eexists _, _. split; [reflexivity|]. split; [|split; [done|]; split; [done|]; split; [done|]; rewrite <-(app_nil_r (reqs_to_abort p)); by apply Hdone].
    intros id r'. cbn. intros [[<- <-]|[Hne E]]%lookup_insert_Some; [|by apply Hothers].
    split; [by rewrite (sr_id _ _ Hs)|]. split; [done|]. apply (waits_same _ r); [done|]. by eapply waits_kept; [exact Hk| |done].
Qed.

(** The parents that exist stay, with no more children. *)
Definition parents_shrink (ps ps' : gmap nat ParentRequest) : Prop := dom ps' = dom ps /\ forall k p, ps !! k = Some p ->
  exists p', ps' !! k = Some p' /\ pr_request_id p' = pr_request_id p /\ child_requests p' ⊆ child_requests p.
Lemma kept_shrink gone ps ps' : parents_kept gone ps ps' -> parents_shrink ps ps'.
Proof. intros [Hd H]. split; [done|]. intros k p Ep. destruct (H k p Ep) as (p' & ? & ? & _ & _ & _ & ?). by exists p'. Qed.
Lemma shrink_trans ps1 ps2 ps3 : parents_shrink ps1 ps2 -> parents_shrink ps2 ps3 -> parents_shrink ps1 ps3.
Proof.
  intros [D1 H1] [D2 H2]. split; [congruence|]. intros k p Ep. destruct (H1 k p Ep) as (p' & Ep' & E1 & S1). destruct (H2 k p' Ep') as (p2 & ? & ? & ?).
  exists p2. split; [done|]. split; [congruence|set_solver].
Qed.
Record outputs_done (o : Proc) (p : Processed) (cs : list CoreOutput) (p' : Processed) (o' : Proc) : Prop := {
  os_ok : proc_ok o';
  os_queues : queues o' = queues o;
  os_registered : parent_requests o' ⊆ parent_requests o;
  os_parents : parents_shrink (parents o) (parents o');
  os_sub id r' : request_states o' !! id = Some r' -> exists r, request_states o !! id = Some r /\ same_request r r';
  os_finished c : c ∈ cs -> is_Some (eco_finish_reason (co_output c)) -> request_states o' !! id_of c = None;
  os_abort id : id ∈ reqs_to_abort p' -> id ∈ reqs_to_abort p \/ (id ∈ map (fun c => id_of c) cs /\ is_Some (request_states o !! id) /\ request_states o' !! id = None);
  os_gone id : is_Some (request_states o !! id) -> request_states o' !! id = None ->
    id ∈ reqs_to_abort p' \/ exists c, c ∈ cs /\ id_of c = id /\ is_Some (eco_finish_reason (co_output c));
  os_kept id : id ∈ reqs_to_abort p -> id ∈ reqs_to_abort p';
  os_nodup : NoDup (reqs_to_abort p) -> (forall id, id ∈ reqs_to_abort p -> request_states o !! id = None) -> NoDup (reqs_to_abort p') }.

Lemma same_request_refl r : same_request r r.
Proof. done. Qed.
Lemma fits_same r r' c : same_request r r' -> output_fits r c -> output_fits r' c.
Proof.
  intros Hs [H1 H2]. split; [done|]. intros lp' E'. pose proof (sr_settings _ _ Hs) as Es. rewrite E' in Es. cbn in Es.
  destruct (rs_logprobs_processor r) as [lp|] eqn:E; [|done]. injection Es as Es1 Es2. unfold logprobs_settings. rewrite Es1, Es2. by apply H2.
Qed.
Lemma one_done p o c p' o' : proc_ok o' -> queues o' = queues o -> parent_requests o' ⊆ parent_requests o -> parents_shrink (parents o) (parents o') ->
  match request_states o !! id_of c with None => p' = p /\ o' = o | Some r => output_done o p c r p' o' end -> outputs_done o p [c] p' o'.
Proof.
  intros Hok Hq Hreg Hpar H. destruct (request_states o !! id_of c) as [r|] eqn:Er.
  2:{ destruct H as [-> ->]. split; try done; try (by left); [intros id r' E; by exists r'| |by intros id [x Ex] E; rewrite Ex in E]. by intros x ->%list_elem_of_singleton. }
  destruct H as [(finish & sr & r1 & r2 & out & ps & Ea & Em & Hs & Hfin & Est & Eps & Eout & Eab & _)].
  assert (Hone : forall id, request_states o' !! id = if decide (id = id_of c) then (if ends finish then None else Some r2) else request_states o !! id).
  { intros id. rewrite Est. destruct (decide (id = id_of c)) as [->|Hne], (ends finish);
      rewrite ?lookup_delete_eq, ?lookup_insert_eq, ?lookup_delete_ne, ?lookup_insert_ne by done; done. }
  assert (Hab : forall id, id ∈ (if ends finish && negb (ends (eco_finish_reason (co_output c))) then [id_of c] else []) -> id = id_of c /\ ends finish = true).
  { intros id. destruct (ends finish), (ends (eco_finish_reason (co_output c))); cbn; intros Hin; try by apply elem_of_nil in Hin. by apply list_elem_of_singleton in Hin. }
  split; try done.
  - intros id r'. rewrite Hone. destruct (decide _) as [->|]; [|intros E; exists r'; done]. destruct (ends finish); [done|]. intros [= <-]. by exists r.
  - intros x ->%list_elem_of_singleton [f Ef]. rewrite Hone. destruct (decide _); [|done]. destruct Hfin as [f' ->]; [eauto|]. done.
  - intros id. rewrite Eab. intros [?|[-> He]%Hab]%elem_of_app; [by left|]. right. split; [by apply list_elem_of_singleton|]. split; [by rewrite Er|]. rewrite Hone, He. by destruct (decide _).
  - intros id [x Ex]. rewrite Hone. destruct (decide _) as [->|]; [|by rewrite Ex]. destruct (ends finish) eqn:He; [|done]. intros _. rewrite Eab. cbn.
    destruct (eco_finish_reason (co_output c)) eqn:Ef; [right; exists c; split; [by left|]; split; [done|]; by rewrite Ef|left; cbn; apply elem_of_app; right; by left].
  - intros id Hin. rewrite Eab. apply elem_of_app. by left.
  - intros Hnd Hnone. rewrite Eab. apply NoDup_app. split; [done|]. split.
    + intros id Hin [-> _]%Hab. apply Hnone in Hin. congruence.
    + destruct (_ && _); [apply NoDup_singleton|apply NoDup_nil_2].
Qed.
Lemma outputs_done_cons o1 p1 c o2 p2 cs p3 o3 : outputs_done o1 p1 [c] p2 o2 -> outputs_done o2 p2 cs p3 o3 -> outputs_done o1 p1 (c :: cs) p3 o3.
Proof.
  intros A B. assert (Hnone : forall id, request_states o1 !! id = None -> request_states o2 !! id = None).
  { intros id E. destruct (request_states o2 !! id) eqn:E2; [|done]. apply (os_sub _ _ _ _ _ A) in E2 as (r1 & ? & _). congruence. }
  assert (Hnone3 : forall id, request_states o2 !! id = None -> request_states o3 !! id = None).
  { intros id E. destruct (request_states o3 !! id) eqn:E3; [|done]. apply (os_sub _ _ _ _ _ B) in E3 as (r1 & ? & _). congruence. }
  split.
  - apply B.
  - by rewrite (os_queues _ _ _ _ _ B), (os_queues _ _ _ _ _ A).
  - etransitivity; [apply (os_registered _ _ _ _ _ B)|apply (os_registered _ _ _ _ _ A)].
  - eapply shrink_trans; [apply (os_parents _ _ _ _ _ A)|apply (os_parents _ _ _ _ _ B)].
  - intros id r3 E3. destruct (os_sub _ _ _ _ _ B _ _ E3) as (r2 & E2 & S2). destruct (os_sub _ _ _ _ _ A _ _ E2) as (r1 & E1 & S1). exists r1. split; [done|]. by eapply same_request_trans.
  - intros x [->|Hx]%elem_of_cons Hf; [|by apply (os_finished _ _ _ _ _ B)]. apply Hnone3. apply (os_finished _ _ _ _ _ A); [by left|done].
  - intros id [Hin|(Hin & Hs & Hn)]%(os_abort _ _ _ _ _ B).
    + apply (os_abort _ _ _ _ _ A) in Hin as [?|(->%list_elem_of_singleton & Hs & Hn)]; [by left|]. right. split; [by left|]. split; [done|]. by apply Hnone3.
    + right. split; [by right|]. split; [|done]. destruct Hs as [r2 E2]. destruct (os_sub _ _ _ _ _ A _ _ E2) as (r1 & E1 & _). by exists r1.
  - intros id Hs Hn. destruct (request_states o2 !! id) as [r2|] eqn:E2.
    + destruct (os_gone _ _ _ _ _ B id ltac:(eauto) Hn) as [?|(x & ? & ? & ?)]; [by left|]. right. exists x. split; [by right|done].
    + destruct (os_gone _ _ _ _ _ A id Hs E2) as [Hin|(x & ->%list_elem_of_singleton & ? & ?)].
      * left. by apply (os_kept _ _ _ _ _ B).
      * right. exists c. split; [by left|done].
  - intros id Hin. by apply (os_kept _ _ _ _ _ B), (os_kept _ _ _ _ _ A).
  - intros Hnd Hn. apply (os_nodup _ _ _ _ _ B); [by apply (os_nodup _ _ _ _ _ A)|].
    intros id [Hin|(_ & _ & ?)]%(os_abort _ _ _ _ _ A); [|done]. by apply Hnone, Hn.
Qed.
Lemma process_loop_ok cs : forall p o,
  proc_ok o -> (forall c, c ∈ cs -> fits_in o c) ->
  exists p' o', res_fold (process_output decode_one) cs (p, o) = Ok (p', o') /\ outputs_done o p cs p' o'.
Proof.
  induction cs as [|c cs IH]; intros p o Ho Hf; cbn [res_fold].
  { exists p, o. split; [done|]. split; try done; try (by left); [apply (kept_shrink None), parents_kept_refl|by intros id r' E; exists r'|by intros x ?%elem_of_nil|by intros id [x Ex] E; rewrite Ex in E]. }
  destruct (process_output_ok p o c Ho (Hf c ltac:(left))) as (p1 & o1 & -> & Ho1 & Hq & Hk & Hreg & H1). cbn [bind]. apply (one_done _ _ _ _ _ Ho1 Hq Hreg (kept_shrink _ _ _ Hk)) in H1.
  destruct (IH p1 o1 Ho1) as (p' & o' & -> & H2).
  { intros x Hx r1 E1. destruct (os_sub _ _ _ _ _ H1 _ _ E1) as (r & E & Hs). apply (fits_same r); [done|]. by apply Hf; [right|]. }
  exists p', o'. split; [done|]. by eapply outputs_done_cons.
Qed.
End processor.
