(* ===== verification/FrontEnd.v ===== *)
(** * The engine of the front end

    [LLMEngine] of [vllm/v1/engine/llm_engine.py] with the in-process client of
    [core_client.py]: a request goes to the output processor and to the engine core,
    [n] samples become [n] requests, a step gets the outputs of the core and tells it
    which requests a stop string ended.  What the engine core promises to the front
    end is the class [CoreLaws]; the autoregressive scheduler keeps it. *)

From stdpp Require Import base gmap strings list fin_sets.
From Stdlib Require Import ZArith QArith Lia.
From S2P Require Import Prelude Request SchedulerTypes Detokenizer TextDecoders Completions OutputProcessor.
From S2P Require Scheduler SchedulerUpdate.
Open Scope list_scope.
Open Scope Z_scope.

(** The calls of [InprocClient], for requests [R] and answers [M] of the model. *)
Class EngineCore (C R M : Type) : Type := {
  core_request_id : R -> string;
  core_add_request : C -> R -> res C;
  core_abort_requests : C -> list string -> res C;
  core_get_output : C -> M -> res (list CoreOutput * C) }.

(** What the front end relies on: a core in a sane state takes new requests, forgets
    aborted ones, and reports a reason for exactly those that it forgets in a step. *)
Class CoreLaws {C R M : Type} (E : EngineCore C R M) : Type := {
  core_ok : C -> Prop;
  core_requests : C -> gset string;
  core_takes : R -> Prop;
  core_answers : C -> M -> Prop;
  core_add_law c r : core_ok c -> core_takes r -> core_request_id r ∉ core_requests c ->
    exists c', core_add_request c r = Ok c' /\ core_ok c' /\ core_requests c' = {[core_request_id r]} ∪ core_requests c;
  core_abort_law c ids : core_ok c ->
    exists c', core_abort_requests c ids = Ok c' /\ core_ok c' /\ forall i, i ∈ core_requests c' <-> i ∈ core_requests c /\ i ∉ ids;
  core_output_law c m : core_ok c -> core_answers c m ->
    exists outs c', core_get_output c m = Ok (outs, c') /\ core_ok c' /\
      (forall i, i ∈ core_requests c' <-> i ∈ core_requests c /\
         ~ exists o, o ∈ outs /\ eco_request_id (co_output o) = i /\ is_Some (eco_finish_reason (co_output o))) /\
      (forall o, o ∈ outs -> eco_request_id (co_output o) ∈ core_requests c /\ eco_pooling_output (co_output o) = false) }.

(** ** [LLMEngine] *)

Record LLMEngine (D C : Type) : Type := {
  output_processor : OutputProcessor D;
  engine_core : C }.
Arguments output_processor {D C} _. Arguments engine_core {D C} _.

Section engine.
Context {D : Type} `{!TextDecoder D} (decode_one : Z -> option text).
Context (new_detokenizer : bool -> list Z -> OutputParams -> res (Detokenizer D)) (has_tokenizer : bool).
Context {C R M : Type} {E : EngineCore C R M}.
(** [Request.from_engine_core_request] with the fields that the front end does not read. *)
Context (core_request : FrontRequest -> R).
Notation Engine := (LLMEngine D C).
Notation add_to_processor := (processor_add_request new_detokenizer has_tokenizer).

Definition make_engine (c : C) : Engine := {| output_processor := make_processor; engine_core := c |}.

(** The request goes to the output processor and then to the core. *)
Definition submit (e : Engine) (request : FrontRequest) (prompt : option text) (parent_req : option nat) (request_index : nat) : res Engine :=
  let! o := add_to_processor (output_processor e) request prompt parent_req request_index None in
  let! c := core_add_request (engine_core e) (core_request request) in
  Ok {| output_processor := o; engine_core := c |}.
(** [copy(request)] with another id and other parameters *)
Definition child_request (request : FrontRequest) (request_id : string) (params : OutputParams) : FrontRequest :=
  {| fr_request_id := request_id; fr_prompt_token_ids := fr_prompt_token_ids request; fr_sampling_params := Some params; fr_pooling_kind := None |}.
(** One round of [for idx in range(n)] for the parent at [k]. *)
Definition submit_child (request : FrontRequest) (prompt : option text) (k : nat) (e : Engine) (idx : nat) : res Engine :=
  let o := output_processor e in
  let! parent := of_option AttributeError (parents o !! k) in
  let '(request_id, params, parent) := get_child_info parent idx in
  let o := with_parents o (<[k := parent]> (parents o)) in
  submit {| output_processor := o; engine_core := engine_core e |} (child_request request request_id params) prompt (Some k) idx.
Definition llm_add_request (e : Engine) (request : FrontRequest) (prompt : option text) : res Engine :=
  match fr_sampling_params request with
  | None => submit e request prompt None 0
  | Some params =>
      if (op_n params =? 1)%nat then submit e request prompt None 0
      else
        let o := output_processor e in
        let k := fresh (dom (parents o)) in
        let o := with_parents o (<[k := make_parent (fr_request_id request) params]> (parents o)) in
        res_fold (submit_child request prompt k) (seq 0 (op_n params)) {| output_processor := o; engine_core := engine_core e |}
  end.

(** [InprocClient.abort_requests] *)
Definition client_abort_requests (c : C) (request_ids : list string) : res C :=
  match request_ids with [] => Ok c | _ => core_abort_requests c request_ids end.
Definition llm_abort_request (e : Engine) (request_ids : list string) : res Engine :=
  let! '(ids, o) := abort_requests (output_processor e) request_ids in
  let! c := client_abort_requests (engine_core e) ids in
  Ok {| output_processor := o; engine_core := c |}.
Definition llm_step (e : Engine) (m : M) : res (list ClientOutput * Engine) :=
  let! '(outs, c) := core_get_output (engine_core e) m in
  let! '(processed, o) := process_outputs decode_one (output_processor e) outs in
  let! c := client_abort_requests c (reqs_to_abort processed) in
  Ok (request_outputs processed, {| output_processor := o; engine_core := c |}).
End engine.

(** ** The engine core over the autoregressive scheduler *)

Section scheduler_core.
Context {K C : Type} {KM : KVManager K} {KC : KVConnector C} (cfg : Settings).
Context (grammar_ready : string -> bool) (should_advance : Request -> bool) (validate_tokens : Request -> list Z -> list Z).
(** The executor, and the logprobs that the scheduler passes on with an output. *)
Record ModelAnswers : Type := {
  executor : SchedulerOutput -> ModelRunnerOutput;
  logprobs_for : EngineCoreOutput -> option LogprobsLists * option (nat * LogprobsLists) }.

(** [SchedulerInterface.has_requests] *)
Definition has_requests (s : Scheduler K C) : bool :=
  (0 <? SchedulerUpdate.get_num_unfinished_requests s) || SchedulerUpdate.has_finished_requests s.
(** [EngineCore.step] in the autoregressive mode *)
Definition core_step (s : Scheduler K C) (m : ModelAnswers) : res (list (Z * EngineCoreOutputs) * bool * Scheduler K C) :=
  if negb (has_requests s) then Ok ([], false, s)
  else
    let! '(out, events, s) := Scheduler.schedule grammar_ready cfg s in
    let! '(ecos, s) := SchedulerUpdate.update_from_output should_advance validate_tokens cfg s out (executor m out) in
    Ok (ecos, 0 <? total_num_scheduled_tokens out, s).
(** [InprocClient.get_output] *)
Definition get_output (s : Scheduler K C) (m : ModelAnswers) : res (list CoreOutput * Scheduler K C) :=
  let! '(ecos, _, s) := core_step s m in
  let outs := default [] (outputs <$> dict_get ecos 0) in
  Ok (map (fun o => {| co_output := o; co_new_logprobs := (logprobs_for m o).1; co_new_prompt_logprobs := (logprobs_for m o).2 |}) outs, s).
Definition scheduler_core : EngineCore (Scheduler K C) Request ModelAnswers :=
  {| core_request_id := request_id;
     core_add_request := SchedulerUpdate.add_request cfg;
     core_abort_requests s ids := SchedulerUpdate.finish_requests cfg s ids FINISHED_ABORTED;
     core_get_output := get_output |}.
End scheduler_core.
