(* ===== verification/FrontEndOk.v ===== *)
(** * The front end and the engine core agree

    For an engine core that keeps its promises, whatever the arrivals, steps and
    aborts: the output processor waits for exactly the requests that the core has, no
    call raises, and a stop string ends a request on both sides. *)

From stdpp Require Import base gmap strings pretty list fin_sets.
From Stdlib Require Import ZArith QArith Lia.
From S2P Require Import Prelude Request SchedulerTypes Detokenizer Streaming TextDecoders Completions CompletionsOk OutputProcessor OutputProcessorOk FrontEnd RequestQueue KVCacheManager SchedulerUpdate SchedulerSpec SchedulerRun SchedulerOk SchedulerUpdateOk SchedulerServe PagedContract SchedulerExamples.
From S2P Require Scheduler.
Open Scope list_scope.
Open Scope Z_scope.

(** ** Aborts *)

Section abort.
Context {D : Type}.
Notation Proc := (OutputProcessor D).
Implicit Types o : Proc.

(** What has been aborted so far is in the list, and nothing else is gone. *)
Record aborting (o0 : Proc) (l : list string) (o : Proc) : Prop := {
  ab_parents : parents o = parents o0;
  ab_queues : queues o = queues o0;
  ab_registered : parent_requests o ⊆ parent_requests o0;
  ab_states id : request_states o !! id = if decide (id ∈ l) then None else request_states o0 !! id }.
Lemma aborting_refl o : aborting o [] o.
Proof. done. Qed.
Lemma aborting_states o0 l o s l' :
  aborting o0 l o -> (forall id, s !! id = if decide (id ∈ l') then None else request_states o !! id) -> aborting o0 (l ++ l') (with_states o s).
Proof.
  intros [A1 A2 A3 A4] H. split; try done; cbn. intros id. rewrite H. destruct (decide (id ∈ l')); [rewrite decide_True; [done|apply elem_of_app; by right]|]. rewrite A4.
  destruct (decide (id ∈ l)); [rewrite decide_True; [done|apply elem_of_app; by left]|]. rewrite decide_False; [done|]. by intros [?|?]%elem_of_app.
Qed.

Lemma aborting_gone o0 l o l' o' id : aborting o0 l o -> aborting o0 l' o' -> l ⊆ l' -> request_states o !! id = None -> request_states o' !! id = None.
Proof. intros [_ _ _ A] [_ _ _ A'] Hl. rewrite A, A'. destruct (decide (id ∈ l)), (decide (id ∈ l')); set_solver. Qed.
Lemma registered_before o0 l o id k : aborting o0 l o -> parent_requests o !! id = Some k -> parent_requests o0 !! id = Some k.
Proof. intros [_ _ A _] H. by eapply lookup_weaken. Qed.

Definition abort_step (again : Proc -> list string -> res (list string * Proc)) (w : list string * Proc) (request_id : string) : res (list string * Proc) :=
  let '(to_abort, o) := w in
  match request_states o !! request_id with
  | Some _ => Ok (to_abort ++ [request_id], with_states o (delete request_id (request_states o)))
  | None =>
      match parent_requests o !! request_id with
      | None => Ok (to_abort, o)
      | Some k =>
          let o := with_parent_requests o (delete request_id (parent_requests o)) in
          let! parent := of_option AttributeError (parents o !! k) in
          let children := elements (child_requests parent) in
          if bool_decide (children = []) then Ok (to_abort, o)
          else let! '(_, o) := again o children in Ok (to_abort ++ children, o)
      end
  end.
Lemma abort_loop_eq fuel o ids : abort_requests_loop (S fuel) o ids = res_fold (abort_step (abort_requests_loop fuel)) ids ([], o).
Proof.
  cbn [abort_requests_loop]. generalize (@nil string, o). induction ids as [|id ids IH]; intros [l o1]; [done|]. cbn [res_fold]. unfold abort_step at 1.
  destruct (request_states o1 !! id); [apply IH|]. destruct (parent_requests o1 !! id); [|apply IH]. destruct (of_option _ _); [|done]. cbn [bind].
  destruct (bool_decide _); [apply IH|]. destruct (abort_requests_loop _ _ _) as [[? ?]|]; [|done]. apply IH.
Qed.

Lemma delete_states o id x : delete id (request_states o) !! x = if decide (x ∈ [id]) then None else request_states o !! x.
Proof.
  destruct (decide (x ∈ [id])) as [->%list_elem_of_singleton|Hne]; [apply lookup_delete_eq|]. apply lookup_delete_ne. intros <-. apply Hne. by left.
Qed.
(** No parents among the names. *)
Lemma abort_leaves fuel o0 ids : forall l o,
  aborting o0 l o -> (forall id, id ∈ ids -> parent_requests o0 !! id = None) ->
  exists l' o', res_fold (abort_step (abort_requests_loop fuel)) ids (l, o) = Ok (l', o') /\ aborting o0 l' o' /\
    parent_requests o' = parent_requests o /\ (forall id, id ∈ ids -> request_states o' !! id = None) /\ l ⊆ l' /\ l' ⊆ l ++ ids.
Proof.
  induction ids as [|id ids IH]; intros l o Ha Hn; cbn [res_fold].
  { exists l, o. rewrite app_nil_r. repeat (split; [done|]). split; [by intros id ?%elem_of_nil|]. split; done. }
  assert (Hp : parent_requests o !! id = None).
  { destruct (parent_requests o !! id) as [k|] eqn:E; [|done]. pose proof (registered_before _ _ _ _ _ Ha E) as Hk. rewrite Hn in Hk by (by left). done. }
  assert (Hn' : forall x, x ∈ ids -> parent_requests o0 !! x = None) by (intros x Hx; apply Hn; by right).
  unfold abort_step at 1. rewrite Hp. destruct (request_states o !! id) as [r|] eqn:Er; cbn [bind].
  - destruct (IH (l ++ [id]) (with_states o (delete id (request_states o)))) as (l' & o' & -> & Ha' & Ep & Hid & Hl & Hl'); [|done|].
    { by apply aborting_states; [|intros x; apply delete_states]. }
    exists l', o'. repeat (split; [done|]). split; [|set_solver]. intros x [->|Hx]%elem_of_cons; [|by apply Hid].
    rewrite (ab_states _ _ _ Ha'), decide_True; [done|set_solver].
  - destruct (IH l o Ha Hn') as (l' & o' & -> & Ha' & Ep & Hid & Hl & Hl'). exists l', o'. repeat (split; [done|]). split; [|set_solver].
    intros x [->|Hx]%elem_of_cons; [|by apply Hid]. by apply (aborting_gone o0 l o l' o').
Qed.

(** Registered parents are there, and none is the child of another. *)
Definition parents_ok o : Prop := forall pid k, parent_requests o !! pid = Some k ->
  exists p, parents o !! k = Some p /\ pr_request_id p = pid /\ forall x, x ∈ child_requests p -> parent_requests o !! x = None.
(** The requests that the name of a parent stands for. *)
Definition stands_for o (pid x : string) : Prop := exists k p, parent_requests o !! pid = Some k /\ parents o !! k = Some p /\ x ∈ child_requests p.

Lemma abort_names fuel o0 ids : forall l o,
  parents_ok o0 -> aborting o0 l o -> ((exists pid, is_Some (parent_requests o0 !! pid)) -> (0 < fuel)%nat) ->
  (forall pid x, stands_for o0 pid x -> stands_for o pid x \/ request_states o !! x = None) ->
  exists l' o', res_fold (abort_step (abort_requests_loop fuel)) ids (l, o) = Ok (l', o') /\ aborting o0 l' o' /\ l ⊆ l' /\
    (forall id, id ∈ ids -> request_states o' !! id = None) /\
    (forall id x, id ∈ ids -> request_states o0 !! id = None -> stands_for o0 id x -> request_states o' !! x = None) /\
    (forall x, x ∈ l' -> x ∈ l \/ x ∈ ids \/ exists pid, pid ∈ ids /\ stands_for o0 pid x).
Proof.
  induction ids as [|id ids IH]; intros l o Hp0 Ha Hfuel Hst; cbn [res_fold].
  { exists l, o. repeat (split; [done|]). split; [by intros id ?%elem_of_nil|]. split; [by intros id x ?%elem_of_nil|by left]. }
  assert (Hsame : forall l1 o1, aborting o0 l1 o1 -> l ⊆ l1 -> (forall pid x, stands_for o0 pid x -> stands_for o1 pid x \/ request_states o1 !! x = None) ->
      request_states o1 !! id = None -> (forall x, request_states o0 !! id = None -> stands_for o0 id x -> request_states o1 !! x = None) ->
      (forall x, x ∈ l1 -> x ∈ l \/ x = id \/ stands_for o0 id x) ->
      exists l' o', res_fold (abort_step (abort_requests_loop fuel)) ids (l1, o1) = Ok (l', o') /\ aborting o0 l' o' /\ l ⊆ l' /\
        (forall id0, id0 ∈ id :: ids -> request_states o' !! id0 = None) /\
        (forall id0 x, id0 ∈ id :: ids -> request_states o0 !! id0 = None -> stands_for o0 id0 x -> request_states o' !! x = None) /\
        (forall x, x ∈ l' -> x ∈ l \/ x ∈ id :: ids \/ exists pid, pid ∈ id :: ids /\ stands_for o0 pid x)).
  { intros l1 o1 Ha1 Hl1 Hst1 Hid Hx Hin. destruct (IH l1 o1 Hp0 Ha1 Hfuel Hst1) as (l' & o' & E & Ha' & Hl & H1 & H2 & H3). exists l', o'.
    split; [exact E|]. split; [done|]. split; [set_solver|]. split; [|split].
    - intros x [->|?]%elem_of_cons; [|by apply H1]. by apply (aborting_gone o0 l1 o1 l' o').
    - intros y x [->|?]%elem_of_cons Hn Hs; [|by eapply H2]. apply (aborting_gone o0 l1 o1 l' o'); [done|done|done|by apply Hx].
    - intros x [Hx1|[?|(pid & ? & ?)]]%H3; [|right; left; by right|right; right; exists pid; split; [by right|done]].
      destruct (Hin x Hx1) as [?|[ ->|?]]; [by left|right; left; by left|right; right; exists id; split; [by left|done]]. }
  unfold abort_step at 1. destruct (request_states o !! id) as [r|] eqn:Er; cbn [bind].
  - apply Hsame.
    + by apply aborting_states; [|intros x; apply delete_states].
    + set_solver.
    + intros pid x Hs. destruct (Hst pid x Hs) as [?|Hn]; [by left|]. right. cbn. destruct (decide (x = id)) as [->|]; [by rewrite lookup_delete_eq|by rewrite lookup_delete_ne].
    + cbn. by rewrite lookup_delete_eq.
    + intros x Hn Hs. rewrite (ab_states _ _ _ Ha) in Er. destruct (decide _); [done|congruence].
    + intros x [?| ->%list_elem_of_singleton]%elem_of_app; [by left|by right; left].
  - destruct (parent_requests o !! id) as [k|] eqn:Ek.
    2:{ cbn [bind]. apply Hsame; try done; [|by left]. intros x Hn Hs. destruct (Hst id x Hs) as [(k & p & E & _)|]; [congruence|done]. }
    pose proof (registered_before _ _ _ _ _ Ha Ek) as Ek0. destruct (Hp0 id k Ek0) as (p & Ep & Eid & Hch). cbn [parents with_parent_requests].
    rewrite (ab_parents _ _ _ Ha), Ep. cbn [of_option bind].
    set (o1 := with_parent_requests o (delete id (parent_requests o))).
    assert (Ha1 : aborting o0 l o1).
    { destruct Ha as [A1 A2 A3 A4]. split; try done. cbn. etransitivity; [apply delete_subseteq|done]. }
    assert (Hst1 : forall pid x, pid <> id -> stands_for o0 pid x -> stands_for o1 pid x \/ request_states o1 !! x = None).
    { intros pid x Hne Hs. destruct (Hst pid x Hs) as [(k' & p' & E1 & E2 & E3)|Hn]; [left|by right]. exists k', p'. split; [cbn; by rewrite lookup_delete_ne by congruence|done]. }
    assert (Hown : forall x, stands_for o0 id x -> x ∈ child_requests p) by (intros x (k' & p' & E1 & E2 & E3); congruence).
    case_bool_decide as Hnil.
    + cbn [bind]. apply Hsame; try done; [|intros x Hn Hs%Hown|by left].
      * intros pid x Hs. destruct (decide (pid = id)) as [->|Hne]; [|by apply Hst1]. apply Hown in Hs. exfalso. apply elem_of_elements in Hs. rewrite Hnil in Hs. by apply elem_of_nil in Hs.
      * exfalso. apply elem_of_elements in Hs. rewrite Hnil in Hs. by apply elem_of_nil in Hs.
    + destruct fuel as [|fuel]; [assert (0 < 0)%nat by (apply Hfuel; eauto); lia|]. rewrite abort_loop_eq.
      destruct (abort_leaves fuel o1 (elements (child_requests p)) [] o1 (aborting_refl o1)) as (l2 & o2 & -> & Ha2 & Ep2 & Hid2 & _ & Hl2).
      { intros x Hx%elem_of_elements. cbn. destruct (delete id (parent_requests o) !! x) as [k'|] eqn:E; [|done]. apply lookup_delete_Some in E as [_ E].
        pose proof (registered_before _ _ _ _ _ Ha E) as E0. by rewrite Hch in E0. }
      cbn [bind]. assert (Hch2 : forall x, request_states o2 !! x = if decide (x ∈ elements (child_requests p)) then None else request_states o !! x).
      { intros x. destruct (decide (x ∈ elements (child_requests p))) as [Hin|Hni]; [by apply Hid2|]. rewrite (ab_states _ _ _ Ha2), decide_False; [done|set_solver]. }
      assert (E2 : o2 = with_states o1 (request_states o2)).
      { pose proof (ab_parents _ _ _ Ha2) as X1. pose proof (ab_queues _ _ _ Ha2) as X2. destruct o2 as [st pr ps qs]. unfold with_states. by f_equal. }
      apply Hsame.
      * rewrite E2. by apply aborting_states.
      * set_solver.
      * intros pid x Hs. destruct (decide (pid = id)) as [->|Hne]; [right; rewrite Hch2, decide_True; [done|by apply elem_of_elements, Hown]|].
        destruct (Hst1 pid x Hne Hs) as [(k' & p' & X1 & X2 & X3)|Hn]; [left; exists k', p'; rewrite Ep2, (ab_parents _ _ _ Ha2); done|right].
        rewrite Hch2. change (request_states o !! x = None) in Hn. by destruct (decide _).
      * rewrite Hch2. by destruct (decide _).
      * intros x _ Hs. rewrite Hch2, decide_True; [done|]. by apply elem_of_elements, Hown.
      * intros x [?|Hx%elem_of_elements]%elem_of_app; [by left|]. right; right. exists k, p. by rewrite Ek0.
Qed.
Lemma abort_requests_ok o ids :
  parents_ok o ->
  exists l o', abort_requests o ids = Ok (l, o') /\ aborting o l o' /\ (forall id, id ∈ ids -> request_states o' !! id = None) /\
    (forall id x, id ∈ ids -> request_states o !! id = None -> stands_for o id x -> request_states o' !! x = None) /\
    (forall x, x ∈ l -> x ∈ ids \/ exists pid, pid ∈ ids /\ stands_for o pid x).
Proof.
  intros Hp. unfold abort_requests. rewrite abort_loop_eq.
  destruct (abort_names (size (parent_requests o)) o ids [] o Hp (aborting_refl o)) as (l & o' & -> & Ha & _ & H1 & H2 & H3).
  - intros [pid [k E]]. destruct (decide (size (parent_requests o) = 0)%nat) as [Hs|]; [|lia]. apply map_size_empty_iff in Hs. by rewrite Hs, lookup_empty in E.
  - intros pid x Hs. by left.
  - exists l, o'. repeat (split; [done|]). intros x [?%elem_of_nil|?]%H3; done.
Qed.
End abort.

(** ** Both sides *)

Section agree.
Context {D : Type} `{!TextDecoder D} (decode_one : Z -> option text).
Context (decode_total : forall (d : D) id, exists t d', decode_next d id = Ok (t, d')).
Context (new_detokenizer : bool -> list Z -> OutputParams -> res (Detokenizer D)) (has_tokenizer : bool).
Context {C R M : Type} {E : EngineCore C R M} {L : CoreLaws E} (core_request : FrontRequest -> R).
Context (core_request_same_id : forall request, core_request_id (core_request request) = fr_request_id request).
Notation Engine := (LLMEngine D C).
Notation Rs := (RequestState D).
Notation Proc := (OutputProcessor D).

Record agree (e : Engine) : Prop := {
  ag_processor : proc_ok (output_processor e);
  ag_core : core_ok (engine_core e);
  ag_same : dom (request_states (output_processor e)) = core_requests (engine_core e);
  ag_parents : parents_ok (output_processor e) }.

(** *** Aborts and steps *)

Lemma with_fewer_states (o o' : Proc) :
  proc_ok o -> parents o' = parents o -> (forall id r, request_states o' !! id = Some r -> request_states o !! id = Some r) -> proc_ok o'.
Proof. intros H Ep Hs id r Er. rewrite Ep. by apply H, Hs. Qed.
Lemma parents_ok_shrink (o o' : Proc) : parents_ok o -> parents_shrink (parents o) (parents o') -> parent_requests o' ⊆ parent_requests o -> parents_ok o'.
Proof.
  intros H [Hd Hp] Hr pid k Ek. destruct (H pid k) as (p & Ep & Eid & Hch); [by eapply lookup_weaken|]. destruct (Hp k p Ep) as (p' & Ep' & Eid' & Hsub).
  exists p'. split; [done|]. split; [congruence|]. intros x Hx. destruct (parent_requests o' !! x) as [k'|] eqn:Ex; [|done].
  exfalso. eapply lookup_weaken in Ex; [|done]. rewrite Hch in Ex; [done|set_solver].
Qed.
Lemma client_abort_ok c ids : core_ok c ->
  exists c', client_abort_requests c ids = Ok c' /\ core_ok c' /\ forall i, i ∈ core_requests c' <-> i ∈ core_requests c /\ i ∉ ids.
Proof.
  intros Hc. destruct ids as [|id ids]; [|by apply core_abort_law]. exists c. split; [done|]. split; [done|]. intros i. split; [|tauto]. intros Hi. split; [done|]. apply not_elem_of_nil.
Qed.
Lemma abort_agrees e ids :
  agree e -> exists e', llm_abort_request e ids = Ok e' /\ agree e' /\
    request_states (output_processor e') ⊆ request_states (output_processor e) /\
    (forall id, id ∈ ids -> id ∉ core_requests (engine_core e')) /\
    (forall id x, id ∈ ids -> id ∉ core_requests (engine_core e) -> stands_for (output_processor e) id x -> x ∉ core_requests (engine_core e')) /\
    (forall x, x ∈ core_requests (engine_core e) -> x ∉ core_requests (engine_core e') ->
       x ∈ ids \/ exists pid, pid ∈ ids /\ stands_for (output_processor e) pid x).
Proof.
  intros [Hp Hc Hs Hpar]. unfold llm_abort_request. destruct (abort_requests_ok (output_processor e) ids Hpar) as (l & o' & -> & [A1 A2 A3 A4] & H1 & H2 & H3).
  cbn [bind]. destruct (client_abort_ok (engine_core e) l Hc) as (c' & -> & Hc' & Hreq). cbn [bind]. eexists. split; [reflexivity|].
  assert (Hsub : request_states o' ⊆ request_states (output_processor e)).
  { apply map_subseteq_spec. intros id r. rewrite A4. by destruct (decide (id ∈ l)). }
  assert (Hd : dom (request_states o') = core_requests c').
  { apply set_eq. intros id. rewrite elem_of_dom, A4, Hreq, <-Hs, elem_of_dom. destruct (decide (id ∈ l)); [|tauto]. split; [by intros [? [=]]|by intros [_ ?]]. }
  assert (Hnot : forall id, request_states o' !! id = None -> id ∉ core_requests c') by (intros id; rewrite <-Hd; apply not_elem_of_dom).
  split; [split; cbn; try done|split; [done|]].
  - eapply with_fewer_states; [exact Hp|done|]. intros id r Er. by eapply lookup_weaken.
  - eapply parents_ok_shrink; [exact Hpar| |done]. rewrite A1. apply (kept_shrink None), parents_kept_refl.
  - cbn. split; [intros id Hid; by apply Hnot, H1|]. split.
    + intros id x Hid Hn Hst. apply Hnot. eapply H2; [exact Hid| |exact Hst]. apply not_elem_of_dom. by rewrite Hs.
    + intros x Hx Hn. apply H3. destruct (decide (x ∈ l)); [done|]. exfalso. by apply Hn, Hreq.
Qed.

(** The logprobs of the outputs fit the requests. *)
Definition logprobs_answered (o : Proc) (outs : list CoreOutput) : Prop := forall c r lp, c ∈ outs ->
  request_states o !! eco_request_id (co_output c) = Some r -> rs_logprobs_processor r = Some lp -> logprobs_fit (logprobs_settings lp) c.
Lemma step_agrees e m :
  agree e -> core_answers (engine_core e) m ->
  (forall outs c, core_get_output (engine_core e) m = Ok (outs, c) -> logprobs_answered (output_processor e) outs) ->
  exists sent e', llm_step decode_one e m = Ok (sent, e') /\ agree e' /\ core_requests (engine_core e') ⊆ core_requests (engine_core e) /\
    parents_shrink (parents (output_processor e)) (parents (output_processor e')) /\ parent_requests (output_processor e') ⊆ parent_requests (output_processor e).
Proof.
  intros [Hp Hc Hs Hpar] Hm Hlp. unfold llm_step. destruct (core_output_law (engine_core e) m Hc Hm) as (outs & c & Eo & Hc1 & Hreq & Houts).
  specialize (Hlp outs c Eo). rewrite Eo. cbn [bind]. unfold process_outputs.
  destruct (process_loop_ok decode_one decode_total outs {| request_outputs := []; reqs_to_abort := [] |} (output_processor e) Hp) as (p & o' & -> & Hd).
  { intros x Hx r Er. split; [by apply Houts|]. intros lp El. by eapply Hlp. }
  cbn [bind]. destruct (client_abort_ok c (reqs_to_abort p) Hc1) as (c' & -> & Hc' & Hreq'). cbn [bind]. eexists _, _. split; [reflexivity|].
  assert (Hdom : dom (request_states o') = core_requests c').
  { apply set_eq. intros id. rewrite elem_of_dom, Hreq', Hreq, <-Hs, elem_of_dom. split.
    - intros [r' Er']. destruct (os_sub _ _ _ _ _ Hd id r' Er') as (r & Er & _). split; [split; [by exists r|]|].
      + intros (x & Hx & <- & Hf). by rewrite (os_finished _ _ _ _ _ Hd x Hx Hf) in Er'.
      + intros [?%elem_of_nil|(_ & _ & ?)]%(os_abort _ _ _ _ _ Hd); [done|congruence].
    - intros [[Hsome Hnf] Hna]. destruct (request_states o' !! id) as [r'|] eqn:Er'; [by exists r'|]. exfalso.
      destruct (os_gone _ _ _ _ _ Hd id Hsome Er') as [?|(x & ? & ? & ?)]; [done|]. apply Hnf. by exists x. }
  split; [split; try done|split].
  - apply Hd.
  - eapply parents_ok_shrink; [exact Hpar|apply Hd|apply Hd].
  - cbn. intros id Hid%Hreq'. destruct Hid as [Hid%Hreq _]. apply Hid.
  - cbn. split; apply Hd.
Qed.

(** *** Arrivals *)

Definition parents_grow (ps ps' : gmap nat ParentRequest) : Prop := forall k p, ps !! k = Some p ->
  exists p', ps' !! k = Some p' /\ pr_sampling_params p' = pr_sampling_params p /\
    length (output_aggregator p') = length (output_aggregator p) /\ child_requests p ⊆ child_requests p'.
Lemma waits_grow ps ps' (r : Rs) : parents_grow ps ps' -> waits_for ps r -> waits_for ps' r.
Proof.
  intros Hg H k Ek. destruct (H k Ek) as (p & Ep & Hc & Ha). destruct (Hg k p Ep) as (p' & Ep' & E1 & E2 & Hsub). exists p'. split; [done|].
  split; [set_solver|]. by rewrite E1, E2.
Qed.

(** A request that the front end can take. *)
Record front_takes (request : FrontRequest) (p : OutputParams) : Prop := {
  ft_params : fr_sampling_params request = Some p;
  ft_detokenizer : exists d, new_detokenizer (has_tokenizer && op_detokenize p) (fr_prompt_token_ids request) p = Ok d;
  ft_core : core_takes (core_request request) }.
(** Both sides without the parents. *)
Record sides (e : Engine) : Prop := {
  sd_processor : proc_ok (output_processor e);
  sd_core : core_ok (engine_core e);
  sd_same : dom (request_states (output_processor e)) = core_requests (engine_core e) }.
Lemma submit_ok e request p prompt parent_req idx :
  sides e -> front_takes request p -> fr_request_id request ∉ core_requests (engine_core e) ->
  (forall k, parent_req = Some k -> exists q, parents (output_processor e) !! k = Some q /\ fr_request_id request ∈ child_requests q /\
     (op_output_kind (pr_sampling_params q) = FINAL_ONLY -> (idx < length (output_aggregator q))%nat)) ->
  exists e', submit new_detokenizer has_tokenizer core_request e request prompt parent_req idx = Ok e' /\ sides e' /\
    core_requests (engine_core e') = {[fr_request_id request]} ∪ core_requests (engine_core e) /\
    parents (output_processor e') = parents (output_processor e) /\
    (forall pid k', parent_requests (output_processor e') !! pid = Some k' -> parent_requests (output_processor e) !! pid = Some k' \/
       exists q, parent_req = Some k' /\ parents (output_processor e) !! k' = Some q /\ pid = pr_request_id q).
Proof using core_request_same_id.
  intros [Hp Hc Hs] [Ep [d Ed] Ht] Hnew Hpar. unfold submit, processor_add_request.
  assert (request_states (output_processor e) !! fr_request_id request = None) as -> by (apply not_elem_of_dom; by rewrite Hs).
  unfold request_state_from_new_request. rewrite Ep, Ed. cbn [bind]. set (r := {| rs_request_id := _ |}). set (id := fr_request_id request) in *.
  destruct (core_add_law (engine_core e) (core_request request) Hc Ht) as (c' & Ec & Hc' & Hreq); [by rewrite core_request_same_id|].
  rewrite core_request_same_id in Hreq. fold id in Hreq.
  assert (Hproc : forall o', request_states o' = <[id := r]> (request_states (output_processor e)) -> parents o' = parents (output_processor e) -> proc_ok o').
  { intros o' E1 E2 x rx. rewrite E1, E2. intros [[<- <-]|[_ Ex]]%lookup_insert_Some; [|by apply Hp].
    split; [done|]. split; [split; cbn; [eexists; split; [reflexivity|apply make_logprobs_ok]|done|done]|]. intros k Ek. by apply Hpar. }
  assert (Hdom : dom (<[id := r]> (request_states (output_processor e))) = core_requests c') by (rewrite dom_insert_L, Hs; congruence).
  destruct parent_req as [k|].
  - destruct (Hpar k eq_refl) as (q & Eq & _). cbn [parents with_states parent_requests]. rewrite Eq. cbn [of_option bind]. rewrite Ec. cbn [bind].
    eexists. split; [reflexivity|]. cbn. split; [split; cbn; [by apply Hproc|done|done]|]. split; [done|]. split; [done|].
    intros pid k' [[<- <-]|[_ ?]]%lookup_insert_Some; [right; by exists q|by left].
  - cbn [bind]. rewrite Ec. cbn [bind]. eexists. split; [reflexivity|]. split; [split; cbn; [by apply Hproc|done|done]|]. split; [done|]. split; [done|]. by left.
Qed.

(** A request with its parameters and the names it takes: its own for one sample,
    those of its children otherwise. *)
Definition sample_params (p q : OutputParams) : Prop := q = child_params p None \/ exists seed, q = child_params p (Some seed).
Record arrives (e : Engine) (request : FrontRequest) (p : OutputParams) : Prop := {
  ar_one : op_n p = 1%nat -> front_takes request p /\ fr_request_id request ∉ core_requests (engine_core e);
  ar_params : fr_sampling_params request = Some p;
  ar_children i q : op_n p <> 1%nat -> (i < op_n p)%nat -> sample_params p q ->
    let c := child_id i (fr_request_id request) in
    front_takes (child_request request c q) q /\ c ∉ core_requests (engine_core e) /\ parent_requests (output_processor e) !! c = None;
  ar_name pid : op_n p <> 1%nat -> ~ stands_for (output_processor e) pid (fr_request_id request) }.

Lemma child_params_of (q : ParentRequest) p i :
  pr_sampling_params q = p -> (forall c, cached_child_sampling_params q = Some c -> sample_params p c) ->
  sample_params p (_get_child_sampling_params q i).1 /\
  (forall c, cached_child_sampling_params (_get_child_sampling_params q i).2 = Some c -> sample_params p c).
Proof.
  intros <- Hc. unfold _get_child_sampling_params. destruct (cached_child_sampling_params q) as [c|] eqn:Ec; cbn; [split; [by apply Hc|by rewrite Ec]|].
  destruct (op_seed (pr_sampling_params q)) as [seed|]; cbn; [split; [right; by eexists|by rewrite Ec]|]. split; [by left|]. intros c [= <-]. by left.
Qed.
Lemma register_params id p n :
  forall c, cached_child_sampling_params (register (make_parent id p) n) = Some c -> sample_params p c.
Proof.
  induction n as [|n IH]; [done|]. cbn [register]. unfold get_child_info. destruct (registered (make_parent id p) n) as (R1 & R2 & R3 & R4).
  set (q := register (make_parent id p) n) in *.
  pose proof (child_params_of (with_children q ({[child_id n (pr_request_id q)]} ∪ child_requests q) (output_aggregator q) (cached_child_sampling_params q)) p n) as H.
  destruct (_get_child_sampling_params _ n) as [c q']. apply H; [exact R2|exact IH].
Qed.

Lemma child_id_ne i id : child_id i id <> id.
Proof. unfold child_id. intros H%(f_equal String.length). rewrite !string_length_app in H. cbn in H. lia. Qed.

(** After the first [i] children of the parent at [k]. *)
Record submitting (e0 : Engine) (k : nat) (request : FrontRequest) (p : OutputParams) (i : nat) (e : Engine) : Prop := {
  sm_sides : sides e;
  sm_parent : parents (output_processor e) !! k = Some (register (make_parent (fr_request_id request) p) i);
  sm_core x : x ∈ core_requests (engine_core e) <-> x ∈ core_requests (engine_core e0) \/ exists j, (j < i)%nat /\ x = child_id j (fr_request_id request);
  sm_registered pid k' : parent_requests (output_processor e) !! pid = Some k' ->
    parent_requests (output_processor e0) !! pid = Some k' \/ (pid = fr_request_id request /\ k' = k);
  sm_others k' : k' <> k -> parents (output_processor e) !! k' = parents (output_processor e0) !! k' }.

Lemma child_step e0 k request p prompt i e :
  arrives e0 request p -> op_n p <> 1%nat -> (i < op_n p)%nat -> submitting e0 k request p i e ->
  exists e', submit_child new_detokenizer has_tokenizer core_request request prompt k e i = Ok e' /\ submitting e0 k request p (S i) e'.
Proof.
  intros Ha Hn Hi [S1 S2 S3 S4 S5]. set (id := fr_request_id request) in *. set (P := make_parent id p) in *. unfold submit_child. rewrite S2. cbn [of_option bind].
  destruct (registered P i) as (R1 & R2 & R3 & R4). destruct (registered P (S i)) as (Q1 & Q2 & Q3 & Q4). cbn [register] in Q1, Q2, Q3, Q4.
  assert (Hc : (get_child_info (register P i) i).1 = (child_id i id, (_get_child_sampling_params (with_children (register P i)
     ({[child_id i id]} ∪ child_requests (register P i)) (output_aggregator (register P i)) (cached_child_sampling_params (register P i))) i).1)).
  { unfold get_child_info. rewrite R1. cbn [P make_parent pr_request_id]. by destruct (_get_child_sampling_params _ i). }
  set (q0 := with_children _ _ _ _) in Hc. destruct (child_params_of q0 p i R2 (register_params id p i)) as [Hq _].
  destruct (get_child_info (register P i) i) as [[c q] P'] eqn:Eg. cbn [fst snd] in *. injection Hc as -> ->. set (q := (_get_child_sampling_params q0 i).1) in *.
  destruct (ar_children _ _ _ Ha i q Hn Hi Hq) as (Hft & Hnew & Hnp). fold id in Hft, Hnew, Hnp.
  set (o1 := with_parents (output_processor e) (<[k := P']> (parents (output_processor e)))).
  assert (Hs1 : sides {| output_processor := o1; engine_core := engine_core e |}).
  { destruct S1 as [H1 H2 H3]. split; try done. intros x r Er. destruct (H1 x r Er) as (? & ? & Hw). split; [done|]. split; [done|]. eapply waits_grow; [|exact Hw].
    intros k' p' Ep'. cbn. destruct (decide (k' = k)) as [->|Hne]; [|exists p'; by rewrite lookup_insert_ne].
    rewrite S2 in Ep'. injection Ep' as <-. exists P'. rewrite lookup_insert_eq. split; [done|]. split; [congruence|]. split; [congruence|].
    intros y [?|(j & ? & ->)]%R4; apply Q4; [by left|right; exists j; split; [lia|done]]. }
  edestruct (submit_ok {| output_processor := o1; engine_core := engine_core e |} (child_request request (child_id i id) q) q prompt (Some k) i Hs1 Hft)
    as (e' & -> & Hs' & Hreq & Hpar & Hreg).
  { cbn. rewrite S3. intros [?|(j & ? & Hj%child_id_inj)]; [done|lia]. }
  { intros k' [= <-]. exists P'. cbn. rewrite lookup_insert_eq. split; [done|]. split; [apply Q4; right; exists i; split; [lia|done]|].
    rewrite Q2, Q3. cbn. intros Hk. rewrite bool_decide_true by done. by rewrite repeat_length. }
  cbn in Hreq, Hpar, Hreg. exists e'. split; [done|]. split.
  - done.
  - rewrite Hpar, lookup_insert_eq. change (Some P' = Some (get_child_info (register P i) i).2). by rewrite Eg.
  - intros x. rewrite Hreq, elem_of_union, elem_of_singleton, S3. split.
    + intros [->|[?|(j & ? & ->)]]; [right; exists i; split; [lia|done]|by left|right; exists j; split; [lia|done]].
    + intros [?|(j & Hj & ->)]; [by right; left|]. destruct (decide (j = i)) as [->|]; [by left|]. right; right. exists j. split; [lia|done].
  - intros pid k' [H|(q' & [= <-] & Eq' & ->)]%Hreg; [by apply S4|]. right. rewrite lookup_insert_eq in Eq'. injection Eq' as <-. by rewrite Q1.
  - intros k' Hne. rewrite Hpar, lookup_insert_ne by done. by apply S5.
Qed.
Lemma children_loop e0 k request p prompt m : forall i e,
  arrives e0 request p -> op_n p <> 1%nat -> (i + m = op_n p)%nat -> submitting e0 k request p i e ->
  exists e', res_fold (submit_child new_detokenizer has_tokenizer core_request request prompt k) (seq i m) e = Ok e' /\ submitting e0 k request p (op_n p) e'.
Proof.
  induction m as [|m IH]; intros i e Ha Hn Hm Hs; cbn [seq res_fold].
  { exists e. split; [done|]. by replace (op_n p) with i by lia. }
  destruct (child_step e0 k request p prompt i e Ha Hn) as (e1 & -> & Hs1); [lia|done|]. cbn [bind]. apply IH; [done|done|lia|done].
Qed.

Lemma add_agrees e request p prompt :
  agree e -> arrives e request p ->
  exists e', llm_add_request new_detokenizer has_tokenizer core_request e request prompt = Ok e' /\ agree e' /\
    forall x, x ∈ core_requests (engine_core e') <-> x ∈ core_requests (engine_core e) \/
      (if (op_n p =? 1)%nat then x = fr_request_id request else exists j, (j < op_n p)%nat /\ x = child_id j (fr_request_id request)).
Proof.
  intros [A1 A2 A3 A4] Ha. unfold llm_add_request. rewrite (ar_params _ _ _ Ha). destruct (Nat.eqb_spec (op_n p) 1) as [Hn|Hn].
  { destruct (ar_one _ _ _ Ha Hn) as [Hft Hnew]. edestruct (submit_ok e request p prompt None 0) as (e' & -> & [B1 B2 B3] & Hreq & Hpar & Hreg); [by split|exact Hft|done|done|].
    exists e'. split; [done|]. split; [|intros x; rewrite Hreq; set_solver]. split; try done. intros pid k Ek. destruct (Hreg pid k Ek) as [Ek'|(q & [=] & _)].
    destruct (A4 pid k Ek') as (q & Eq & Eid & Hch). exists q. rewrite Hpar. split; [done|]. split; [done|]. intros x Hx.
    destruct (parent_requests (output_processor e') !! x) as [k'|] eqn:Ex; [|done]. apply Hreg in Ex as [Ex|(q' & [=] & _)]. by rewrite Hch in Ex. }
  set (o := output_processor e). set (k := fresh (dom (parents o))). set (id := fr_request_id request).
  assert (Hk : parents o !! k = None) by (apply not_elem_of_dom, is_fresh).
  assert (Hs0 : submitting e k request p 0 {| output_processor := with_parents o (<[k := make_parent id p]> (parents o)); engine_core := engine_core e |}).
  { split; cbn; try done.
    - split; cbn; try done. intros x r Er. destruct (A1 x r Er) as (? & ? & Hw). split; [done|]. split; [done|]. eapply waits_grow; [|exact Hw].
      intros k' p' Ep'. exists p'. cbn. rewrite lookup_insert_ne by (intros <-; fold o in Ep'; congruence). done.
    - by rewrite lookup_insert_eq.
    - intros x. split; [by left|]. intros [?|(j & ? & _)]; [done|lia].
    - by left.
    - intros k' Hne. by rewrite lookup_insert_ne. }
  destruct (children_loop e k request p prompt (op_n p) 0 _ Ha Hn eq_refl Hs0) as (e' & -> & [[B1 B2 B3] S2 S3 S4 S5]).
  exists e'. split; [done|]. split; [|exact S3]. split; try done. intros pid k' Ek.
  destruct (registered (make_parent id p) (op_n p)) as (Q1 & _ & _ & Q4).
  assert (Hnone : forall x, parent_requests o !! x = None -> x <> id -> parent_requests (output_processor e') !! x = None).
  { intros x Hx Hne. destruct (parent_requests (output_processor e') !! x) as [k2|] eqn:Ex; [|done]. apply S4 in Ex as [Ex|[-> _]]; [fold o in Ex; congruence|done]. }
  apply S4 in Ek as [Ek|[-> ->]].
  - destruct (A4 pid k' Ek) as (q & Eq & Eid & Hch). exists q. rewrite S5 by (intros ->; fold o in Eq; congruence). split; [done|]. split; [done|]. intros x Hx.
    apply Hnone; [by apply Hch|]. intros ->. apply (ar_name _ _ _ Ha pid Hn). by exists k', q.
  - eexists. split; [exact S2|]. split; [exact Q1|]. intros x [?%elem_of_empty|(j & Hj & ->)]%Q4; [done|]. apply Hnone; [|apply child_id_ne].
    apply (ar_children _ _ _ Ha j (child_params p None) Hn Hj). by left.
Qed.

(** *** Reachable states *)

Inductive front_serving : Engine -> Engine -> Prop :=
| fs_arrival e request p prompt e' :
    arrives e request p -> llm_add_request new_detokenizer has_tokenizer core_request e request prompt = Ok e' -> front_serving e e'
| fs_step e m sent e' :
    core_answers (engine_core e) m ->
    (forall outs c, core_get_output (engine_core e) m = Ok (outs, c) -> logprobs_answered (output_processor e) outs) ->
    llm_step decode_one e m = Ok (sent, e') -> front_serving e e'
| fs_abort e ids e' : llm_abort_request e ids = Ok e' -> front_serving e e'.
Lemma serving_agrees e e' : front_serving e e' -> agree e -> agree e'.
Proof using decode_total core_request_same_id.
  intros [? request p prompt ? Ha Hok|? m sent ? Hm Hlp Hok|? ids ? Hok] He.
  - destruct (add_agrees _ request p prompt He Ha) as (e2 & Hok' & H & _). rewrite Hok in Hok'. by injection Hok' as <-.
  - destruct (step_agrees _ m He Hm Hlp) as (s2 & e2 & Hok' & H & _). rewrite Hok in Hok'. by injection Hok' as _ <-.
  - destruct (abort_agrees _ ids He) as (e2 & Hok' & H & _). rewrite Hok in Hok'. by injection Hok' as <-.
Qed.
Lemma make_engine_agrees c : core_ok c -> core_requests c = ∅ -> agree (make_engine c).
Proof. intros Hc He. split; cbn; [by intros id r|done|by rewrite dom_empty_L|by intros pid k]. Qed.

(** The names that the requests take. *)
Definition taken (request : FrontRequest) (p : OutputParams) (x : string) : Prop :=
  if (op_n p =? 1)%nat then x = fr_request_id request else exists j, (j < op_n p)%nat /\ x = child_id j (fr_request_id request).
Record in_step (e : Engine) : Prop := {
  is_same : dom (request_states (output_processor e)) = core_requests (engine_core e);
  is_idle : front_has_unfinished (output_processor e) = false <-> core_requests (engine_core e) = ∅;
  is_arrival request p prompt : arrives e request p ->
    exists e', llm_add_request new_detokenizer has_tokenizer core_request e request prompt = Ok e' /\
      forall x, x ∈ core_requests (engine_core e') <-> x ∈ core_requests (engine_core e) \/ taken request p x;
  is_step m : core_answers (engine_core e) m ->
    (forall outs c, core_get_output (engine_core e) m = Ok (outs, c) -> logprobs_answered (output_processor e) outs) ->
    exists sent e', llm_step decode_one e m = Ok (sent, e') /\ core_requests (engine_core e') ⊆ core_requests (engine_core e);
  is_abort ids : exists e', llm_abort_request e ids = Ok e' /\ core_requests (engine_core e') ⊆ core_requests (engine_core e) /\
    (forall id, id ∈ ids -> id ∉ core_requests (engine_core e')) /\
    (forall id x, id ∈ ids -> id ∉ core_requests (engine_core e) -> stands_for (output_processor e) id x -> x ∉ core_requests (engine_core e')) /\
    (forall x, x ∈ core_requests (engine_core e) -> x ∉ core_requests (engine_core e') -> x ∈ ids \/ exists pid, pid ∈ ids /\ stands_for (output_processor e) pid x) }.

Lemma reachable_in_step c e :
  core_ok c -> core_requests c = ∅ -> rtc front_serving (make_engine c) e -> in_step e.
Proof using decode_total core_request_same_id.
  intros Hc H0 Hr. assert (He : agree e).
  { pose proof (make_engine_agrees c Hc H0) as H. revert H. induction Hr as [|e1 e2 e3 Hs _ IH]; [done|]. intros H. by eapply IH, serving_agrees. }
  pose proof He as [_ _ Hs _]. split.
  - done.
  - rewrite <-Hs. unfold front_has_unfinished. rewrite Nat.ltb_ge, Nat.le_0_r, <-size_dom. rewrite size_empty_iff. apply leibniz_equiv_iff.
  - intros request p prompt Ha. destruct (add_agrees e request p prompt He Ha) as (e' & ? & _ & ?). by exists e'.
  - intros m Hm Hlp. destruct (step_agrees e m He Hm Hlp) as (sent & e' & ? & _ & ? & _). by exists sent, e'.
  - intros ids. destruct (abort_agrees e ids He) as (e' & ? & He' & Hsub & H). exists e'. split; [done|]. split; [|exact H].
    destruct He' as [_ _ <- _]. rewrite <-Hs. by apply subseteq_dom.
Qed.
End agree.

(** With the decoders of the engine. *)
Section decoders.
Context {S : Type} (new_stream : bool -> S) (stream_step : S -> Z -> StepResult S) (decode : list Z -> text) (added_tokens : gmap Z text).
Context (tokenizer : Tokenizer) (Hstream : stream_ok new_stream stream_step) (use_fast has_tokenizer : bool) (decode_one : Z -> option text).
Context {C R M : Type} {E : EngineCore C R M} {L : CoreLaws E} (core_request : FrontRequest -> R).
Context (core_request_same_id : forall request, core_request_id (core_request request) = fr_request_id request).
#[local] Instance engine_decoder : TextDecoder (@RequestDecoder S) := decoder_step new_stream stream_step added_tokens tokenizer.
Notation new_detokenizer := (request_detokenizer new_stream stream_step decode added_tokens tokenizer use_fast).

(** C5. For an engine core that keeps its promises ([CoreLaws]), with the slow or the
    fast incremental decoders, over decode streams that raise nothing but the "invalid
    prefix" error and not even that when new ([stream_ok]).  Whatever the arrivals of
    requests with one or more samples whose names, or those of their children, are free
    (the engine does not check this for the children, see [reused_id_half_taken]), the
    steps of a core that sends logprobs only where they were asked for, and the aborts:
    the output processor waits for exactly the requests that the engine core has, so that
    the front end is idle only when the core is; such a new request is taken on both
    sides, with all its samples; such a step never raises and adds nothing; and an abort
    ends the named requests and the children of a named parent on both sides, and nothing
    else. *)
Theorem front_and_core_agree c (e : LLMEngine (@RequestDecoder S) C) :
  core_ok c -> core_requests c = ∅ ->
  rtc (front_serving decode_one new_detokenizer has_tokenizer core_request) (make_engine c) e ->
  in_step decode_one new_detokenizer has_tokenizer core_request e.
Proof using Hstream core_request_same_id.
  apply reachable_in_step; [|exact core_request_same_id]. by apply decoder_step_total.
Qed.
End decoders.

(** ** The autoregressive scheduler behind the front end

    The scheduler keeps the promises of [CoreLaws]: the requests of the front end's
    client are those of its dictionary, and every step reports a reason to finish for
    exactly the requests that it drops. *)
Section serve.
Context {K C : Type} {KM : KVManager K} {KC : KVConnector C} (max_len : Z) {stats : bool} {KL : KVContract KM max_len stats}.
Context (cfg : Settings) (Hcfg : plain_settings cfg).
Context (grammar_ready : string -> bool) (should_advance : Request -> bool) (validate_tokens : Request -> list Z -> list Z).
Context (Hlen : sched_max_model_len cfg = max_len) (Hsync : async_scheduling cfg = false) (Hlog : sched_log_stats cfg = stats).
Notation State := (Scheduler K C).
Notation schedule := (Scheduler.schedule grammar_ready cfg).
Notation get_output := (FrontEnd.get_output cfg grammar_ready should_advance validate_tokens).
Implicit Type s : State.

(** All requests were sent by client 0. *)
Definition own_requests s : Prop := forall id r, id ∈ requests s -> objs s !! id = Some r -> client_index r = 0.
Definition serving_ok s : Prop := serve_inv max_len cfg s /\ own_requests s.
Definition runner_answers s (m : ModelAnswers) : Prop := forall out events s1, schedule s = Ok (out, events, s1) -> answers cfg s1 out (executor m out).

Lemma kept_client r r' : kept r r' -> client_index r' = client_index r.
Proof. by intros (? & ? & ? & ? & ? & ->). Qed.
Lemma inv_queued s id : serve_inv max_len cfg s -> id ∈ requests s <-> id ∈ running s \/ id ∈ waiting s.
Proof.
  intros [(t & Hc & _) Hreq]. split; [intros Hi%Hreq; by apply elem_of_app in Hi|].
  intros [Hi|Hi]; [by apply (c_running _ _ _ _ _ Hc)|by apply (c_waiting _ _ _ _ _ Hc)].
Qed.
Lemma inv_disjoint s id : serve_inv max_len cfg s -> id ∈ running s -> id ∉ waiting s.
Proof. intros [(t & Hc & _) _] Hi. by apply (core_disjoint _ _ _ _ _ id Hc) in Hi. Qed.
Lemma inv_object s id : serve_inv max_len cfg s -> id ∈ requests s -> is_Some (objs s !! id).
Proof.
  intros Hinv Hi. pose proof Hinv as [(t & Hc & _) _]. apply inv_queued in Hi as [Hi|Hi]; [|..|done].
  - destruct (c_running _ _ _ _ _ Hc id Hi) as (_ & r & _ & E & _). by exists r.
  - destruct (c_waiting _ _ _ _ _ Hc id Hi) as (_ & r & E & _). by exists r.
Qed.

Lemma add_keeps s r :
  serving_ok s -> waiting_ok max_len r /\ client_index r = 0 -> request_id r ∉ requests s ->
  exists s', SchedulerUpdate.add_request cfg s r = Ok s' /\ serving_ok s' /\ requests s' = {[request_id r]} ∪ requests s.
Proof using Hcfg.
  intros [Hinv Hown] [Hr Hcl] Hnew. destruct (add_request_ok max_len cfg Hcfg s r Hinv Hr Hnew) as (s' & Ha & Hinv' & _). exists s'. split; [exact Ha|].
  unfold SchedulerUpdate.add_request in Ha. rewrite (queue_fcfs cfg Hcfg) in Ha. cbn [bind] in Ha.
  assert (E1 : requests s' = requests s ∪ {[request_id r]} /\ objs s' = <[request_id r := r]> (objs s)) by (injection Ha as <-; split; reflexivity).
  destruct E1 as [E1 E2]. split; [split; [done|]|by rewrite E1, union_comm_L]. intros id x. rewrite E1, E2. intros Hi [[<- <-]|[Hne Ex]]%lookup_insert_Some; [done|].
  apply elem_of_union in Hi as [Hi| ->%elem_of_singleton]; [by apply (Hown id x)|done].
Qed.
Lemma abort_keeps s ids :
  serving_ok s -> exists s', SchedulerUpdate.finish_requests cfg s ids FINISHED_ABORTED = Ok s' /\ serving_ok s' /\
    forall i, i ∈ requests s' <-> i ∈ requests s /\ i ∉ ids.
Proof using Hcfg.
  intros [Hinv Hown]. destruct (finish_step max_len cfg Hcfg s ids FINISHED_ABORTED Hinv eq_refl) as (s' & E & Hinv' & _ & _ & Hreq & _ & Ho).
  exists s'. split; [exact E|]. split; [|exact Hreq]. split; [done|]. intros id r [Hi Hn]%Hreq Er. rewrite Ho in Er by done. by apply (Hown id).
Qed.

(** A step of the core. *)
Lemma step_keeps s m :
  serving_ok s -> runner_answers s m ->
  exists outs s', get_output s m = Ok (outs, s') /\ serving_ok s' /\
    (forall i, i ∈ requests s' <-> i ∈ requests s /\ ~ exists o, o ∈ outs /\ eco_request_id (co_output o) = i /\ is_Some (eco_finish_reason (co_output o))) /\
    (forall o, o ∈ outs -> eco_request_id (co_output o) ∈ requests s /\ eco_pooling_output (co_output o) = false).
Proof using Hcfg Hlen Hsync Hlog.
  intros [Hinv Hown] Hm. unfold FrontEnd.get_output, core_step. destruct (has_requests s); cbn [negb].
  2:{ cbn. exists [], s. split; [done|]. split; [done|]. split; [|by intros o ?%elem_of_nil]. intros i. split; [|tauto]. intros Hi. split; [done|]. by intros (o & ?%elem_of_nil & _). }
  pose proof Hinv as [(t & Hsched) Hreq].
  destruct (schedule_step max_len grammar_ready cfg Hcfg Hlen s t Hsched) as (out & events & s1 & t1 & ps & Es & Hs1 & Hsp).
  pose proof (schedule_serve max_len cfg Hcfg grammar_ready Hlen s out events s1 Hinv Es) as Hinv1. rewrite Es. cbn [bind].
  pose proof (Hm out events s1 Es) as Hrf.
  destruct (update_step max_len should_advance validate_tokens cfg Hcfg Hlen Hsync Hlog s1 t1 out (executor m out) Hs1 (proj1 Hrf) (proj2 Hrf)) as (ecos & s2 & t2 & Eu & Hs2 & Hup).
  pose proof (update_serve max_len cfg Hcfg grammar_ready should_advance validate_tokens Hlen Hsync Hlog s1 out (executor m out) ecos s2 Hinv1 Hrf Eu) as Hinv2.
  rewrite Eu. cbn [bind]. pose proof (ss_requests _ _ _ _ _ _ Hsp) as Erq.
  assert (Hown1 : own_requests s1).
  { intros id r Hi Er. rewrite Erq in Hi. destruct (inv_object s id Hinv Hi) as [r0 Er0]. destruct (ss_kept _ _ _ _ _ _ Hsp id r0 Er0) as (r' & Er' & Hk & _).
    rewrite Er in Er'. injection Er' as <-. rewrite (kept_client _ _ Hk). by apply (Hown id). }
  change (default [] (outputs <$> dict_get ecos 0)) with (client_outputs 0 ecos). rewrite (us_client _ _ _ Hup 0 Hown1). eexists _, s2. split; [reflexivity|].
  split; [|split].
  - split; [done|]. intros id r Hi Er. pose proof (us_requests _ _ _ Hup id Hi) as Hi1. destruct (inv_object s1 id Hinv1 Hi1) as [r1 Er1].
    destruct (us_tokens _ _ _ Hup id r1 Er1) as (r' & Er' & Hcl & _). rewrite Er in Er'. injection Er' as <-. rewrite Hcl. by apply (Hown1 id).
  - intros i. rewrite <-Erq. split.
    + intros Hi. split; [by apply (us_requests _ _ _ Hup)|]. intros (x & (o & -> & Ho)%list_elem_of_fmap & <- & Hf). cbn in *.
      destruct (us_reported _ _ _ Hup o Ho) as (Hrun & _ & Hgone). specialize (Hgone Hf). apply inv_queued in Hi as [?|Hw]; [done| |done].
      rewrite (us_waiting _ _ _ Hup) in Hw. exact (inv_disjoint s1 _ Hinv1 Hrun Hw).
    + intros [Hi Hno]. destruct (decide (i ∈ requests s2)) as [|Hn]; [done|]. exfalso. apply Hno. apply (inv_queued s1 i Hinv1) in Hi as [Hi|Hi].
      * assert (Hn2 : i ∉ running s2) by (intros H; apply Hn, inv_queued; [done|by left]).
        destruct (us_finished _ _ _ Hup i Hi Hn2) as (_ & o & Ho & Hf). apply list_elem_of_In, filter_In in Ho as [Ho Eo]. apply String.eqb_eq in Eo.
        eexists. split; [apply list_elem_of_fmap; exists o; split; [reflexivity|by apply list_elem_of_In]|]. done.
      * exfalso. apply Hn, inv_queued; [done|]. right. by rewrite (us_waiting _ _ _ Hup).
  - intros x (o & -> & Ho)%list_elem_of_fmap. cbn. destruct (us_reported _ _ _ Hup o Ho) as (Hrun & Hp & _). split; [|done].
    rewrite <-Erq. apply inv_queued; [done|by left].
Qed.

#[export] Instance scheduler_core_laws : CoreLaws (scheduler_core cfg grammar_ready should_advance validate_tokens).
Proof using Hcfg Hlen Hsync Hlog KL.
  refine {| core_ok := serving_ok; core_requests := requests; core_takes r := waiting_ok max_len r /\ client_index r = 0; core_answers := runner_answers |}.
  - exact add_keeps.
  - exact abort_keeps.
  - exact step_keeps.
Defined.
End serve.

(** ** Examples *)

(** One character per token, in the fast decoder. *)
Definition char_detokenizer : bool -> list Z -> OutputParams -> res (Detokenizer (@RequestDecoder unit)) :=
  request_detokenizer (fun _ => tt) char_stream (fun l => l) ∅ char_tokenizer true.
#[local] Instance char_decoders : TextDecoder (@RequestDecoder unit) := decoder_step (fun _ => tt) char_stream ∅ char_tokenizer.
Lemma char_total (d : @RequestDecoder unit) id : exists t d', decode_next d id = Ok (t, d').
Proof. apply (decoder_step_total (fun _ => tt) char_stream ∅ char_tokenizer char_stream_ok). Qed.
Definition demo_core : EngineCore (Scheduler KVCacheManager Empty_set) Request ModelAnswers := scheduler_core demo_settings ready advances all_valid.
Definition demo_laws : CoreLaws demo_core := scheduler_core_laws 16 demo_settings demo_plain ready advances all_valid eq_refl eq_refl eq_refl.
Definition demo_core_request (request : FrontRequest) : Request := demo_request (fr_request_id request) (fr_prompt_token_ids request).
Definition demo_front_request : FrontRequest :=
  {| fr_request_id := "r"; fr_prompt_token_ids := [1; 2; 3]; fr_sampling_params := Some two_samples; fr_pooling_kind := None |}.

(** A request with two samples arrives. *)
Lemma front_and_core_agree_witness : exists m e, demo_manager = Ok m /\
  rtc (@front_serving (@RequestDecoder unit) char_decoders (fun _ => None) char_detokenizer true _ _ _ demo_core demo_laws demo_core_request) (make_engine (demo_start m)) e /\
  @in_step (@RequestDecoder unit) char_decoders (fun _ => None) char_detokenizer true _ _ _ demo_core demo_laws demo_core_request e /\
  "1_r"%string ∈ dom (request_states (output_processor e)).
Proof.
  destruct demo_manager_paged as (m & Hm & Hok). exists m.
  assert (Hc : @core_ok _ _ _ _ demo_laws (demo_start m)).
  { split; [by apply start_ok|]. by intros id r ?%elem_of_empty. }
  assert (Ha : @arrives (@RequestDecoder unit) char_detokenizer true _ _ _ demo_core demo_laws demo_core_request (make_engine (demo_start m)) demo_front_request two_samples).
  { split; [discriminate|reflexivity| |].
    - intros i q _ _ Hq. split; [|split; [apply not_elem_of_empty|reflexivity]]. split; [reflexivity|apply (from_new_request_total _ _ _ _ _ char_stream_ok)|]. split; [|reflexivity]. by apply demo_waiting.
    - intros pid _ (k & p & H & _). change ((∅ : gmap string nat) !! pid = Some k) in H. by rewrite lookup_empty in H. }
  destruct (@add_agrees (@RequestDecoder unit) char_decoders char_total char_detokenizer true _ _ _ demo_core demo_laws demo_core_request (fun _ => eq_refl) (make_engine (demo_start m)) demo_front_request two_samples None
              (make_engine_agrees _ Hc eq_refl) Ha) as (e & He & _ & Hin).
  exists e. split; [exact Hm|].
  assert (Hr : rtc (@front_serving (@RequestDecoder unit) char_decoders (fun _ => None) char_detokenizer true _ _ _ demo_core demo_laws demo_core_request) (make_engine (demo_start m)) e).
  { apply rtc_once. eapply fs_arrival; [exact Ha|exact He]. }
  split; [exact Hr|].
  pose proof (@front_and_core_agree unit (fun _ => tt) char_stream (fun l => l) ∅ char_tokenizer char_stream_ok true true (fun _ => None) _ _ _ demo_core demo_laws demo_core_request (fun _ => eq_refl) (demo_start m) e Hc eq_refl Hr) as H.
  split; [exact H|]. rewrite (is_same _ _ _ _ _ H). apply Hin. right. exists 1%nat. split; [cbn; lia|reflexivity].
Defined.
