(* ===== verification/ClientText.v ===== *)
(** * What a client receives

    The output processor and the detokenizers together: whatever the outputs of the
    other requests, and however they are batched, the texts that a client gets of its
    request are those of decoding all of its tokens and cutting at the stop string. *)

From stdpp Require Import base gmap strings list fin_sets pretty.
From Stdlib Require Import ZArith QArith Lia.
From S2P Require Import Prelude Request SchedulerTypes Detokenizer Streaming TextDecoders Completions CompletionsOk OutputProcessor OutputProcessorOk FrontEnd.
Open Scope string_scope.
Open Scope list_scope.
Open Scope Z_scope.

Section client.
Context {D : Type} `{!TextDecoder D} (decode_one : Z -> option text).
Context (decode_total : forall (d : D) id, exists t d', decode_next d id = Ok (t, d')).
Notation Rs := (RequestState D).
Notation Proc := (OutputProcessor D).
Notation id_of c := (eco_request_id (co_output c)).

(** The texts of a request in the outputs for clients, and its outputs of the core. *)
Definition texts_of (o : ClientOutput) : list text := match o with Completions o => map co_text (completions_of o) | PoolingResult _ _ _ => [] end.
Definition texts_for (id : string) (l : list ClientOutput) : list text :=
  flat_map (fun o => if bool_decide (client_request_id o = id) then texts_of o else []) l.
Definition outputs_for (id : string) (cs : list CoreOutput) : list (list Z * option FinishReason) :=
  omap (fun c => if bool_decide (id_of c = id) then Some (eco_new_token_ids (co_output c), eco_finish_reason (co_output c)) else None) cs.
Lemma texts_app id a b : texts_for id (a ++ b) = texts_for id a ++ texts_for id b.
Proof. apply flat_map_app. Qed.

(** ** One output of a request without a parent *)

Lemma stop_loop_member t n stop inc s k : stop_loop t n stop inc = Some (s, k) -> s ∈ stop.
Proof.
  induction stop as [|x stop IH]; cbn; [done|]. destruct (py_find _ _ _).
  - destruct inc; [destruct (_ <=? _)|]; intros [= -> _]; by left.
  - intros H. right. by apply IH.
Qed.
Lemma update_member (d d' : BaseDetokenizer D) ids stop s : base_update d ids stop = Ok (Some s, d') -> s ∈ d_stop d.
Proof.
  unfold base_update. destruct (bool_decide (ids = [])); [done|]. match goal with |- bind ?m _ = _ -> _ => destruct m; cbn [bind]; [|done] end.
  rewrite decode_tokens_ok. destruct (decode_all _ _) as [[t dec]|]; cbn [bind]; [|done]. destruct stop; [done|]. cbn [with_text d_stop d_include_stop output_text].
  destruct (bool_decide _); [done|]. unfold check_stop_strings. destruct (_ || _); [done|].
  destruct (stop_loop _ _ _ _) as [[x k]|] eqn:E; [|done]. intros [= <- _]. by eapply stop_loop_member.
Qed.
Lemma update_same_stop (d d' : BaseDetokenizer D) ids stop s : base_update d ids stop = Ok (s, d') -> d_stop d' = d_stop d.
Proof.
  unfold base_update. destruct (bool_decide (ids = [])); [by intros [= _ <-]|]. match goal with |- bind ?m _ = _ -> _ => destruct m; cbn [bind]; [|done] end.
  rewrite decode_tokens_ok. destruct (decode_all _ _) as [[t dec]|]; cbn [bind]; [|done]. destruct stop; [by intros [= _ <-]|]. cbn [with_text d_stop d_include_stop output_text].
  destruct (bool_decide _); [by intros [= _ <-]|]. destruct (check_stop_strings _ _ _ _) as [[x k]|]; [|by intros [= _ <-]]. destruct (k =? -1); by intros [= _ <-].
Qed.
Lemma get_text_same_stop (d : BaseDetokenizer D) fin delta : d_stop (base_get_next_output_text d fin delta).2 = d_stop d.
Proof. unfold base_get_next_output_text. destruct (negb delta); [done|]. by destruct (_ <? _). Qed.

Lemma absorb_text (r r1 : Rs) c d s d1 finish sr :
  rs_detokenizer r = Some (WithText d) -> output_fits r c -> (forall x, x ∈ d_stop d -> x <> []) ->
  base_update d (eco_new_token_ids (co_output c)) (is_stop (eco_finish_reason (co_output c))) = Ok (s, d1) ->
  absorb decode_one r c = Ok (finish, sr, r1) ->
  rs_detokenizer r1 = Some (WithText d1) /\ finish = match s with Some _ => Some STOP | None => eco_finish_reason (co_output c) end.
Proof.
  intros Ed [Hp _] Hne Hu. unfold absorb. rewrite Hp. cbn [with_output_state rs_detokenizer rs_logprobs_processor]. rewrite Ed. cbn [of_option bind].
  destruct (rs_logprobs_processor r) as [lp|]; cbn [of_option bind]; [|done]. cbn [update]. rewrite Hu. cbn [bind].
  destruct (update_logprobs _ _ _ _) as [lp'|]; cbn [bind]; [|done]. destruct s as [[|x s]|].
  - apply update_member in Hu. by destruct (Hne [] Hu).
  - by intros [= <- _ <-].
  - by intros [= <- _ <-].
Qed.
Lemma make_output_text ps ps' (r r2 : Rs) ids finish sr cached out d :
  rs_detokenizer r = Some (WithText d) -> rs_parent_req r = None ->
  make_request_output ps r ids false finish sr cached = Ok (out, r2, ps') ->
  let fin := ends finish in
  if negb fin && bool_decide (rs_output_kind r = FINAL_ONLY) then out = None /\ rs_detokenizer r2 = Some (WithText d)
  else
    let '(t, d2) := base_get_next_output_text d fin (bool_decide (rs_output_kind r = DELTA)) in
    exists o, out = Some o /\ client_request_id o = rs_request_id r /\ texts_of o = [t] /\ rs_detokenizer r2 = Some (WithText d2).
Proof.
  intros Ed Ep. unfold make_request_output. assert (bool_decide (is_Some finish) = ends finish) as -> by (by destruct finish). cbn [negb].
  destruct (negb (ends finish) && _); [by intros [= <- <- _]|]. unfold _new_completion_output. rewrite Ed. cbn [of_option bind].
  destruct (rs_logprobs_processor r) as [lp|]; cbn [of_option bind]; [|done].
  assert (bool_decide (is_Some finish) = ends finish) as -> by (by destruct finish). cbn [get_next_output_text].
  destruct (base_get_next_output_text d (ends finish) (bool_decide (rs_output_kind r = DELTA))) as [t d2]. cbn [bind with_output_state rs_parent_req]. rewrite Ep.
  unfold _new_request_output. cbn [with_output_state rs_logprobs_processor of_option bind rs_output_kind rs_detokenizer].
  destruct (bool_decide _); [destruct (pop_prompt_logprobs lp) as [plp lp']|]; cbn [bind]; intros [= <- <- _]; eexists; (split; [reflexivity|]); by repeat split.
Qed.

(** ** All outputs *)

Definition unnamed (o : Proc) (id : string) : Prop := forall k p, parents o !! k = Some p -> pr_request_id p <> id.
Lemma unnamed_kept gone o o' id : parents_kept gone (parents o) (parents o') -> unnamed o id -> unnamed o' id.
Proof.
  intros [Hd Hk] Hu k p' Ep'. assert (Hs : k ∈ dom (parents o)) by (rewrite <-Hd; by apply elem_of_dom_2 in Ep').
  apply elem_of_dom in Hs as [p Ep]. destruct (Hk k p Ep) as (q & Eq & Eid & _). assert (q = p') as -> by congruence. rewrite Eid. by eapply Hu.
Qed.
Lemma fits_next p (o : Proc) c cs p' (o' : Proc) :
  (forall x, x ∈ c :: cs -> fits_in o x) -> outputs_done o p [c] p' o' -> forall x, x ∈ cs -> fits_in o' x.
Proof. intros Hf H x Hx r1 E1. destruct (os_sub _ _ _ _ _ H _ _ E1) as (r & E & Hs). apply (fits_same r); [done|]. by apply Hf; [right|]. Qed.

(** An output of another request, or one for a request that is not there. *)
Lemma other_output id p (o : Proc) c :
  proc_ok o -> fits_in o c -> unnamed o id -> (id_of c = id -> request_states o !! id = None) ->
  exists p' o', process_output decode_one (p, o) c = Ok (p', o') /\ proc_ok o' /\ outputs_done o p [c] p' o' /\ unnamed o' id /\
    request_states o' !! id = request_states o !! id /\ texts_for id (request_outputs p') = texts_for id (request_outputs p) /\
    (id ∈ reqs_to_abort p' <-> id ∈ reqs_to_abort p).
Proof.
  intros Ho Hf Hun Hid. destruct (process_output_ok decode_one decode_total p o c Ho Hf) as (p' & o' & E & Ho' & Hq & Hk & Hreg & H). exists p', o'.
  split; [exact E|]. split; [done|]. split; [by apply (one_done decode_one p o c p' o' Ho' Hq Hreg (kept_shrink _ _ _ Hk))|]. split; [by eapply unnamed_kept|].
  destruct (request_states o !! id_of c) as [r|] eqn:Er; [|by destruct H as [-> ->]].
  assert (Hne : id_of c <> id) by (intros Eid; rewrite Eid, Hid in Er; done).
  destruct H as [(finish & sr & r1 & r2 & out & ps & _ & _ & _ & _ & Est & _ & Eout & Eab & Hout)]. split; [|split].
  - rewrite Est. destruct (ends finish); [by rewrite lookup_delete_ne|by rewrite lookup_insert_ne].
  - rewrite Eout, texts_app. destruct out as [x|]; cbn; [|by rewrite app_nil_r]. rewrite bool_decide_false; [by rewrite !app_nil_r|].
    destruct (Hout x eq_refl) as [->|(k & q & Eq & ->)]; [done|]. by eapply Hun.
  - rewrite Eab, elem_of_app. destruct (_ && _); [|by rewrite elem_of_nil; tauto]. rewrite list_elem_of_singleton. split; [intros [?|?]; [done|congruence]|by left].
Qed.
Lemma absent_outputs id cs : forall p (o : Proc),
  proc_ok o -> (forall c, c ∈ cs -> fits_in o c) -> unnamed o id -> request_states o !! id = None ->
  exists p' o', res_fold (process_output decode_one) cs (p, o) = Ok (p', o') /\ request_states o' !! id = None /\
    texts_for id (request_outputs p') = texts_for id (request_outputs p) /\ (id ∈ reqs_to_abort p' <-> id ∈ reqs_to_abort p).
Proof.
  induction cs as [|c cs IH]; intros p o Ho Hf Hun Hn; cbn [res_fold]; [by exists p, o|].
  destruct (other_output id p o c Ho (Hf c ltac:(left)) Hun) as (p1 & o1 & -> & Ho1 & Hd & Hun1 & Est & Et & Ea); [done|]. cbn [bind].
  destruct (IH p1 o1 Ho1 (fits_next _ _ _ _ _ _ Hf Hd) Hun1) as (p' & o' & -> & Hn' & Et' & Ea'); [by rewrite Est|]. exists p', o'. split; [done|]. split; [done|].
  split; [by rewrite Et'|]. by rewrite Ea'.
Qed.

(** What arrives of the pieces of [stream]. *)
Definition arriving (k : RequestOutputKind) (fin : bool) (ts : list text) : list text :=
  if bool_decide (k = FINAL_ONLY) then (if fin then option_list (last ts) else []) else ts.

(** The next output of the request. *)
Lemma own_output id p (o : Proc) c (r : Rs) d :
  proc_ok o -> fits_in o c -> unnamed o id -> id_of c = id -> request_states o !! id = Some r -> rs_parent_req r = None ->
  rs_detokenizer r = Some (WithText d) -> (forall x, x ∈ d_stop d -> x <> []) ->
  exists s d1 p' o', base_update d (eco_new_token_ids (co_output c)) (is_stop (eco_finish_reason (co_output c))) = Ok (s, d1) /\
    process_output decode_one (p, o) c = Ok (p', o') /\ proc_ok o' /\ outputs_done o p [c] p' o' /\ unnamed o' id /\
    let fin := bool_decide (is_Some (eco_finish_reason (co_output c))) || bool_decide (is_Some s) in
    let '(t, d2) := base_get_next_output_text d1 fin (bool_decide (rs_output_kind r = DELTA)) in
    texts_for id (request_outputs p') = texts_for id (request_outputs p) ++ (if negb fin && bool_decide (rs_output_kind r = FINAL_ONLY) then [] else [t]) /\
    (if fin then request_states o' !! id = None
     else exists r', request_states o' !! id = Some r' /\ rs_parent_req r' = None /\ rs_output_kind r' = rs_output_kind r /\ rs_detokenizer r' = Some (WithText d2)) /\
    (id ∈ reqs_to_abort p' <-> id ∈ reqs_to_abort p \/ (is_Some s /\ eco_finish_reason (co_output c) = None)).
Proof.
  intros Ho Hf Hun Eid Er Epar Ed Hne. destruct (process_output_ok decode_one decode_total p o c Ho Hf) as (p' & o' & E & Ho' & Hq & Hk & Hreg & H).
  pose proof (one_done decode_one p o c p' o' Ho' Hq Hreg (kept_shrink _ _ _ Hk) H) as Hd. rewrite Eid, Er in H. subst id.
  destruct H as [(finish & sr & r1 & r2 & out & ps & Ea & Em & Hs & _ & Est & _ & Eout & Eab & _)].
  destruct (update_total decode_total (WithText d) (eco_new_token_ids (co_output c)) (is_stop (eco_finish_reason (co_output c)))) as (s & dd & Hu).
  cbn [update] in Hu. destruct (base_update d _ _) as [[s0 d1]|] eqn:Eu; cbn [bind] in Hu; [|done]. injection Hu as -> _.
  destruct (absorb_text r r1 c d s d1 finish sr Ed (Hf r Er) Hne Eu Ea) as [Ed1 Efin].
  assert (Hs1 : rs_parent_req r1 = None /\ rs_output_kind r1 = rs_output_kind r /\ rs_request_id r1 = id_of c).
  { destruct (Ho _ _ Er) as (Eid & Hr & _). destruct (absorb_ok decode_one decode_total r c Hr (Hf r Er)) as (f' & sr' & r1' & Ea' & _ & [] & _). rewrite Ea in Ea'.
    injection Ea' as _ _ <-. repeat split; congruence. }
  destruct Hs1 as (Ep1 & Ek1 & Ei1). exists s, d1, p', o'. split; [done|]. split; [done|]. split; [done|]. split; [done|]. split; [by eapply unnamed_kept|].
  assert (ends finish = bool_decide (is_Some (eco_finish_reason (co_output c))) || bool_decide (is_Some s)) as Ef.
  { rewrite Efin. destruct s; cbn; [by rewrite orb_true_r|]. rewrite orb_false_r. by destruct (eco_finish_reason _). }
  cbv zeta. rewrite <-Ef. pose proof (make_output_text _ _ r1 r2 _ _ _ _ _ d1 Ed1 Ep1 Em) as Hm. cbv zeta in Hm. rewrite Ek1, Ei1 in Hm.
  destruct (base_get_next_output_text d1 (ends finish) (bool_decide (rs_output_kind r = DELTA))) as [t d2] eqn:Et.
  assert (Ht : texts_for (id_of c) (option_list out) = (if negb (ends finish) && bool_decide (rs_output_kind r = FINAL_ONLY) then [] else [t])).
  { destruct (negb _ && _); [by destruct Hm as [-> _]|]. destruct Hm as (x & -> & Ei & Etx & _). cbn. rewrite Ei, bool_decide_true by done. by rewrite Etx. }
  split; [by rewrite Eout, texts_app, Ht|]. split.
  - rewrite Est. destruct (ends finish) eqn:Ee; [by rewrite lookup_delete_eq|]. exists r2. rewrite lookup_insert_eq. split; [done|]. split; [by rewrite (sr_parent _ _ Hs)|].
    split; [apply Hs|]. cbn [negb andb] in Hm. destruct (bool_decide_reflect (rs_output_kind r = FINAL_ONLY)) as [Ek|Ek]; [|by destruct Hm as (? & _ & _ & _ & ?)].
    destruct Hm as [_ ->]. unfold base_get_next_output_text in Et. rewrite Ek in Et. cbn in Et. by injection Et as _ <-.
  - rewrite Eab, elem_of_app. destruct s as [x|].
    + rewrite Efin. cbn. destruct (eco_finish_reason (co_output c)); cbn; [rewrite elem_of_nil; naive_solver|]. rewrite list_elem_of_singleton. naive_solver.
    + assert (ends finish && negb (ends (eco_finish_reason (co_output c))) = false) as -> by (rewrite Efin; by destruct (eco_finish_reason _)).
      rewrite elem_of_nil. split; [naive_solver|]. intros [?|[[? [=]] _]]. by left.
Qed.

Lemma outputs_for_cons id c cs :
  outputs_for id (c :: cs) = if bool_decide (id_of c = id) then (eco_new_token_ids (co_output c), eco_finish_reason (co_output c)) :: outputs_for id cs else outputs_for id cs.
Proof. unfold outputs_for. cbn. by destruct (bool_decide _). Qed.
Lemma arriving_cons k t fin ts : (ts = [] -> fin = false) ->
  arriving k fin (t :: ts) = (if bool_decide (k = FINAL_ONLY) then [] else [t]) ++ arriving k fin ts.
Proof.
  intros H. unfold arriving. destruct (bool_decide _); [|done]. destruct fin; [|done]. cbn [app]. destruct ts as [|x ts]; [by specialize (H eq_refl)|]. done.
Qed.
Lemma stream_ends delta outs : forall (d : BaseDetokenizer D) ts fin s d', stream delta d outs = Ok (ts, (fin, s), d') -> ts = [] -> fin = false.
Proof.
  destruct outs as [|[ids reason] outs]; intros d ts fin s d'; cbn [stream]; [by intros [= <- <- _ _]|].
  destruct (base_update d ids _) as [[x d1]|]; cbn [bind]; [|done]. destruct (base_get_next_output_text _ _ _) as [t d2].
  destruct (_ || _); [by intros [= <- _ _ _]|]. destruct (stream delta d2 outs) as [[[ts' [fin' s']] d3]|]; cbn [bind]; [|done]. by intros [= <- _ _ _].
Qed.

Lemma serve_stream id cs : forall p (o : Proc) (r : Rs) d,
  proc_ok o -> (forall c, c ∈ cs -> fits_in o c) -> unnamed o id -> request_states o !! id = Some r -> rs_parent_req r = None ->
  rs_detokenizer r = Some (WithText d) -> (forall x, x ∈ d_stop d -> x <> []) ->
  exists ts fin s d' p' o', stream (bool_decide (rs_output_kind r = DELTA)) d (outputs_for id cs) = Ok (ts, (fin, s), d') /\
    res_fold (process_output decode_one) cs (p, o) = Ok (p', o') /\
    texts_for id (request_outputs p') = texts_for id (request_outputs p) ++ arriving (rs_output_kind r) fin ts /\
    (is_Some (request_states o' !! id) <-> fin = false) /\
    (id ∈ reqs_to_abort p' -> id ∈ reqs_to_abort p \/ is_Some s) /\
    (is_Some s -> Forall (fun x => x.2 = None) (outputs_for id cs) -> id ∈ reqs_to_abort p').
Proof.
  induction cs as [|c cs IH]; intros p o r d Ho Hf Hun Er Epar Ed Hne; cbn [res_fold].
  { exists [], false, None, d, p, o. split; [done|]. split; [done|]. split; [unfold arriving; destruct (bool_decide _); by rewrite app_nil_r|]. split; [by rewrite Er|].
    split; [by left|]. by intros [? [=]]. }
  rewrite outputs_for_cons. destruct (bool_decide_reflect (id_of c = id)) as [Eid|Eid].
  2:{ destruct (other_output id p o c Ho (Hf c ltac:(left)) Hun) as (p1 & o1 & -> & Ho1 & Hd & Hun1 & Est & Et & Ea); [done|]. cbn [bind].
      destruct (IH p1 o1 r d Ho1 (fits_next _ _ _ _ _ _ Hf Hd) Hun1) as (ts & fin & s & d' & p' & o' & H1 & H2 & H3 & H4 & H5 & H6); try done; [by rewrite Est|].
      exists ts, fin, s, d', p', o'. rewrite Et in H3. rewrite Ea in H5. done. }
  destruct (own_output id p o c r d Ho (Hf c ltac:(left)) Hun Eid Er Epar Ed Hne) as (s & d1 & p1 & o1 & Eu & -> & Ho1 & Hd & Hun1 & H).
  cbn [bind stream]. rewrite Eu. cbn [bind]. cbv zeta in H. set (reason := eco_finish_reason (co_output c)) in *.
  set (fin := bool_decide (is_Some reason) || bool_decide (is_Some s)) in *.
  pose proof (get_text_same_stop d1 fin (bool_decide (rs_output_kind r = DELTA))) as Hst2. rewrite (update_same_stop _ _ _ _ _ Eu) in Hst2.
  destruct (base_get_next_output_text d1 fin (bool_decide (rs_output_kind r = DELTA))) as [t d2]. cbn [snd] in Hst2. destruct H as (Ht & Hs & Ha).
  destruct fin eqn:Efin; cbn [negb andb] in Ht.
  - destruct (absent_outputs id cs p1 o1 Ho1 (fits_next _ _ _ _ _ _ Hf Hd) Hun1 Hs) as (p' & o' & E & Hn' & Et' & Ea'). exists [t], true, s, d2, p', o'.
    split; [done|]. split; [exact E|]. split; [rewrite Et', Ht; unfold arriving; by destruct (bool_decide (rs_output_kind r = FINAL_ONLY))|]. split; [rewrite Hn'; split; [by intros [? [=]]|done]|].
    rewrite Ea', Ha. split; [naive_solver|]. intros Hsome Hall%Forall_cons. right. split; [done|apply Hall].
  - destruct Hs as (r' & Er' & Ep' & Ek' & Ed'). destruct (IH p1 o1 r' d2 Ho1 (fits_next _ _ _ _ _ _ Hf Hd) Hun1 Er' Ep' Ed') as (ts & fin' & s' & d' & p' & o' & H1 & H2 & H3 & H4 & H5 & H6).
    { intros x Hx. apply Hne. by rewrite <-Hst2. }
    rewrite Ek' in H1, H3. exists (t :: ts), fin', s', d', p', o'. rewrite H1. cbn [bind]. split; [done|]. split; [exact H2|]. split.
    { rewrite H3, Ht, <-app_assoc. f_equal. symmetry. apply arriving_cons. intros Hts. exact (stream_ends _ _ _ _ _ _ _ H1 Hts). }
    split; [exact H4|]. split; [|by intros Hsome [_ Hall]%Forall_cons; apply H6].
    intros [Hin|?]%H5; [|by right]. left. apply Ha in Hin as [?|[[x Hx] _]]; [done|]. exfalso. unfold fin in Efin. rewrite Hx in Efin. cbn in Efin. by rewrite orb_true_r in Efin.
Qed.

Lemma reference_total stop inc outs : forall t (dec : D), exists t' fin s, reference stop inc t dec outs = Ok (t', (fin, s)).
Proof.
  induction outs as [|[ids reason] outs IH]; intros t dec; cbn [reference]; [by eexists _, _, _|].
  destruct (decode_all_total decode_total (shown inc ids reason) dec) as (c & dec' & ->). cbn [bind].
  destruct (if is_stop reason then None else _) as [[s kept]|]; [by eexists _, _, _|]. destruct reason; [by eexists _, _, _|]. apply IH.
Qed.
Lemma last_accumulate ts : forall sent, default sent (last (accumulate sent ts)) = sent ++ concat ts.
Proof.
  induction ts as [|t ts IH]; intros sent; cbn [accumulate concat]; [by rewrite app_nil_r|]. rewrite app_assoc, <-IH. destruct (accumulate (sent ++ t) ts) as [|x l] eqn:E; [done|].
  change (last ((sent ++ t) :: x :: l)) with (last (x :: l)). destruct (last (x :: l)) eqn:El; [done|]. by apply last_None in El.
Qed.

(** What a client makes of the texts that it gets: pieces are put together, of whole
    texts the last one counts. *)
Definition whole (k : RequestOutputKind) (texts : list text) : text := if bool_decide (k = DELTA) then concat texts else default [] (last texts).

(** The text of one client, for decoders that do not raise. *)
Lemma client_text_spec (o : Proc) cs id (r : Rs) stop inc ids n dec :
  proc_ok o -> (forall c, c ∈ cs -> fits_in o c) -> request_states o !! id = Some r -> rs_parent_req r = None ->
  (forall k p, parents o !! k = Some p -> pr_request_id p <> id) ->
  rs_detokenizer r = Some (WithText (make_base stop inc ids n dec)) -> (forall s, s ∈ stop -> s <> []) ->
  let outs := outputs_for id cs in
  exists t fin s p o', reference stop inc [] dec outs = Ok (t, (fin, s)) /\ process_outputs decode_one o cs = Ok (p, o') /\
    whole (rs_output_kind r) (texts_for id (request_outputs p)) =
      (if fin then t
       else if bool_decide (rs_output_kind r = FINAL_ONLY) then []
       else take (Z.to_nat (Z.of_nat (length t) - stop_buffer_length (make_base stop inc ids n dec))) t) /\
    (is_Some (request_states o' !! id) <-> fin = false) /\
    (id ∈ reqs_to_abort p -> is_Some s) /\ (is_Some s -> Forall (fun x => x.2 = None) outs -> id ∈ reqs_to_abort p).
Proof using decode_total.
  intros Ho Hf Er Epar Hun Ed Hne outs. destruct (serve_stream id cs {| request_outputs := []; reqs_to_abort := [] |} o r _ Ho Hf Hun Er Epar Ed Hne)
    as (ts & fin & s & d' & p & o' & H1 & H2 & H3 & H4 & H5 & H6). fold outs in H1, H6. cbn [request_outputs texts_for flat_map app] in H3.
  destruct (reference_total stop inc outs [] dec) as (t & fin' & s' & Eref).
  pose proof (stream_spec outs (make_base stop inc ids n dec) [] (make_base_sending stop inc ids n dec Hne)) as H. cbn [make_base d_stop d_include_stop output_text decoder] in H.
  rewrite Eref in H. destruct H as (ts0 & d1 & d2 & S1 & S2 & S3 & Hb & S4 & _). cbn [app] in S3.
  assert (Hwhole : concat ts0 = if fin' then t else take (Z.to_nat (Z.of_nat (length t) - stop_buffer_length (make_base stop inc ids n dec))) t).
  { rewrite S3. unfold due. by rewrite S2, Hb. }
  exists t, fin, s, p, o'. assert (Hfs : fin' = fin /\ s' = s /\ ts = if bool_decide (rs_output_kind r = DELTA) then ts0 else accumulate [] ts0).
  { change (with_offset (make_base stop inc ids n dec) 0) with (make_base stop inc ids n dec) in S4.
    destruct (bool_decide (rs_output_kind r = DELTA)); [rewrite H1 in S1; by injection S1 as -> -> -> _|rewrite H1 in S4; by injection S4 as -> -> -> _]. }
  destruct Hfs as (-> & -> & ->). split; [exact Eref|]. split; [exact H2|]. split; [|split; [exact H4|]; split; [|exact H6]].
  2:{ intros [?%elem_of_nil|?]%H5; done. }
  rewrite H3. unfold whole, arriving. destruct (bool_decide_reflect (rs_output_kind r = DELTA)) as [Ek|Ek].
  - rewrite (bool_decide_false (rs_output_kind r = FINAL_ONLY)) by (rewrite Ek; done). exact Hwhole.
  - pose proof (last_accumulate ts0 []) as Hl. cbn [app] in Hl. destruct (bool_decide (rs_output_kind r = FINAL_ONLY)).
    + destruct fin; [|done]. rewrite <-Hwhole. etransitivity; [|exact Hl]. by destruct (last (accumulate [] ts0)).
    + etransitivity; [exact Hl|exact Hwhole].
Qed.
End client.

(** With the decoders of the engine. *)
Section decoders.
Context {S : Type} (new_stream : bool -> S) (stream_step : S -> Z -> StepResult S) (added_tokens : gmap Z text).
Context (tokenizer : Tokenizer) (Hstream : stream_ok new_stream stream_step) (decode_one : Z -> option text).
#[local] Instance client_decoder : TextDecoder (@RequestDecoder S) := decoder_step new_stream stream_step added_tokens tokenizer.
Notation id_of c := (eco_request_id (co_output c)).

(** C6. The client of a request without other samples, whose name is not that of a
    living parent of samples (the engine does not check this), gets the text of its
    tokens, with the slow or the fast incremental decoder over decode streams that raise
    nothing but the "invalid prefix" error and not even that when new.  Whatever the
    outputs of the other requests and their order, for outputs that are completions with
    logprobs only where they were asked for ([fits_in]) the processor does not raise; when
    the request ends, by a reason of the core or by a stop string, the texts that were
    sent, put together in delta mode, the last one otherwise, are what decoding all of its
    tokens and cutting at the stop string gives; until then everything has been sent but
    what a stop string could still cut off, or nothing to a client that waits for the end.
    The request is forgotten exactly when it has ended, and the core is told to abort it
    only because of a stop string, and always then unless the core had ended it by itself. *)
Theorem client_text_ok (o : OutputProcessor (@RequestDecoder S)) cs id (r : RequestState (@RequestDecoder S)) stop inc ids n dec :
  proc_ok o -> (forall c, c ∈ cs -> fits_in o c) -> request_states o !! id = Some r -> rs_parent_req r = None ->
  (forall k p, parents o !! k = Some p -> pr_request_id p <> id) ->
  rs_detokenizer r = Some (WithText (make_base stop inc ids n dec)) -> (forall s, s ∈ stop -> s <> []) ->
  let outs := outputs_for id cs in
  exists t fin s p o', reference stop inc [] dec outs = Ok (t, (fin, s)) /\ process_outputs decode_one o cs = Ok (p, o') /\
    whole (rs_output_kind r) (texts_for id (request_outputs p)) =
      (if fin then t
       else if bool_decide (rs_output_kind r = FINAL_ONLY) then []
       else take (Z.to_nat (Z.of_nat (length t) - stop_buffer_length (make_base stop inc ids n dec))) t) /\
    (is_Some (request_states o' !! id) <-> fin = false) /\
    (id ∈ reqs_to_abort p -> is_Some s) /\ (is_Some s -> Forall (fun x => x.2 = None) outs -> id ∈ reqs_to_abort p).
Proof using Hstream.
  apply client_text_spec. by apply decoder_step_total.
Qed.
End decoders.

(** ** Examples *)

(** One character per token, in the fast decoder. *)
Definition streamed : @RequestDecoder unit := (true, FastDecoder {| fs_stream := tt; fs_spaces_between_special_tokens := true; last_special := false |}).
Definition front_state (id : string) (stop : list text) : RequestState (@RequestDecoder unit) :=
  {| rs_request_id := id; rs_parent_req := None; rs_request_index := 0; rs_output_kind := DELTA; rs_prompt := None; rs_prompt_token_ids := [9];
     rs_logprobs_processor := Some (make_logprobs_processor true two_samples); rs_detokenizer := Some (WithText (make_base stop false [] 0 streamed));
     rs_is_prefilling := true; rs_queue := None |}.
Definition front_pair : OutputProcessor (@RequestDecoder unit) :=
  {| request_states := {["a" := front_state "a" [[2; 3]]; "b" := front_state "b" []]}; parent_requests := ∅; parents := ∅; queues := ∅ |}.
Definition core_output (id : string) (ids : list Z) (reason : option FinishReason) : CoreOutput :=
  {| co_output := {| eco_request_id := id; eco_new_token_ids := ids; eco_finish_reason := reason; eco_stop_reason := None; eco_pooling_output := false; eco_num_cached_tokens := 0 |};
     co_new_logprobs := None; co_new_prompt_logprobs := None |}.

(** Two requests take turns; the stop string [2; 3] of the first comes in two steps. *)
Lemma client_text_ok_witness :
  exists fin s p o', @process_outputs (@RequestDecoder unit) (decoder_step (fun _ => tt) char_stream ∅ char_tokenizer) (fun _ => None) front_pair
      [core_output "a" [1; 2] None; core_output "b" [7] None; core_output "a" [3; 4] None; core_output "b" [8] (Some LENGTH)] = Ok (p, o') /\
    concat (texts_for "a" (request_outputs p)) = [1] /\ fin = true /\ s = Some [2; 3] /\ "a"%string ∈ reqs_to_abort p.
Proof.
  set (cs := [core_output "a" [1; 2] None; core_output "b" [7] None; core_output "a" [3; 4] None; core_output "b" [8] (Some LENGTH)]).
  assert (Hst : forall id r, request_states front_pair !! id = Some r -> r = front_state "a" [[2; 3]] /\ id = "a"%string \/ r = front_state "b" [] /\ id = "b"%string).
  { intros id r. cbn. intros [[<- <-]|[_ [<- <-]%lookup_singleton_Some]]%lookup_insert_Some; [by left|by right]. }
  destruct (@client_text_ok unit (fun _ => tt) char_stream ∅ char_tokenizer char_stream_ok (fun _ => None) front_pair cs "a" (front_state "a" [[2; 3]]) [[2; 3]] false [] 0%nat streamed)
    as (t & fin & s & p & o' & H1 & H2 & H3 & _ & _ & H4).
  - intros id r [[-> ->]|[-> ->]]%Hst; (split; [reflexivity|]); split; try done; split; cbn; eauto using make_logprobs_ok.
  - intros c Hc r [[-> _]|[-> _]]%Hst; split; try (by repeat (apply elem_of_cons in Hc as [->|Hc]; [reflexivity|]); apply elem_of_nil in Hc);
      intros lp _; repeat (apply elem_of_cons in Hc as [->|Hc]; [split; done|]); by apply elem_of_nil in Hc.
  - reflexivity.
  - reflexivity.
  - intros k q H. cbn in H. by rewrite lookup_empty in H.
  - reflexivity.
  - by intros x ->%list_elem_of_singleton.
  - exists fin, s, p, o'. split; [exact H2|]. vm_compute in H1. injection H1 as <- <- <-. split; [exact H3|]. split; [reflexivity|]. split; [reflexivity|].
    apply H4; [by eexists|]. repeat constructor.
Defined.

(** ** Corners of the front end

    Concrete runs of [LLMEngine] over a core that is a list of names: what the checks
    for names in use miss. *)
(** A core that only remembers names, and answers what it is told. *)
#[local] Instance list_core : EngineCore (list string) string (list CoreOutput) :=
  {| core_request_id := id; core_add_request c r := Ok (c ++ [r]);
     core_abort_requests c ids := Ok (List.filter (fun x => negb (bool_decide (x ∈ ids))) c);
     core_get_output c outs := Ok (outs, List.filter (fun x => negb (bool_decide (x ∈ map (fun o => eco_request_id (co_output o)) outs))) c) |}.
#[local] Existing Instance char_decoder.
Definition plain_detokenizer (has_tokenizer : bool) (prompt_token_ids : list Z) (p : OutputParams) : res (Detokenizer unit) :=
  Ok (WithText (make_base (op_stop p) (op_include_stop_str_in_output p) [] 0 tt)).
Definition two_streams : OutputParams :=
  {| op_n := 2; op_output_kind := DELTA; op_detokenize := true; op_stop := []; op_include_stop_str_in_output := false;
     op_skip_special_tokens := true; op_spaces_between_special_tokens := true; op_seed := None; op_logprobs := None; op_prompt_logprobs := None |}.
Definition pair_request : FrontRequest :=
  {| fr_request_id := "r"; fr_prompt_token_ids := [9]; fr_sampling_params := Some two_streams; fr_pooling_kind := None |}.
Definition add_pair (e : LLMEngine unit (list string)) : res (LLMEngine unit (list string)) :=
  llm_add_request plain_detokenizer true fr_request_id e pair_request None.
Definition step_pair (e : LLMEngine unit (list string)) (outs : list CoreOutput) : res (list ClientOutput * LLMEngine unit (list string)) :=
  llm_step (fun _ => None) e outs.
Definition finished_flags (l : list ClientOutput) : list bool := map (fun o => match o with Completions o => ro_finished o | PoolingResult _ _ f => f end) l.

(** The first sample of a request has finished; another request with the same id is
    refused, but only after its first sample was taken on both sides. *)
Lemma reused_id_half_taken : exists e1 sent e2 e3,
  add_pair (make_engine []) = Ok e1 /\ step_pair e1 [core_output "0_r" [5] (Some LENGTH)] = Ok (sent, e2) /\
  add_pair e2 = Raise ValueError /\
  submit_child plain_detokenizer true fr_request_id pair_request None 1
    {| output_processor := with_parents (output_processor e2) (<[1%nat := make_parent "r" two_streams]> (parents (output_processor e2))); engine_core := engine_core e2 |} 0 = Ok e3 /\
  engine_core e3 = ["1_r"; "0_r"].
Proof. eexists _, _, _, _. repeat (split; [vm_compute; reflexivity|]). vm_compute. reflexivity. Qed.

(** A sample is aborted under its own name: the output of the last sample is not
    marked as finished, and the parent stays registered. *)
Lemma aborted_child_unfinished : exists e1 e2 sent e3,
  add_pair (make_engine []) = Ok e1 /\ llm_abort_request e1 ["0_r"] = Ok e2 /\
  step_pair e2 [core_output "1_r" [5] (Some LENGTH)] = Ok (sent, e3) /\
  finished_flags sent = [false] /\ front_num_unfinished (output_processor e3) = 0%nat /\ parent_requests (output_processor e3) !! "r" = Some 0%nat.
Proof. eexists _, _, _, _. repeat (split; [vm_compute; reflexivity|]). vm_compute. reflexivity. Qed.
