(* ===== verification/MMCache.v ===== *)
(** * The mirrored caches of multi-modal inputs

    [LRUCache] of [vllm/utils/__init__.py] and the two caches of
    [vllm/v1/engine/mm_input_cache.py].  The client lives in the process of the front
    end and keeps sizes, the server lives in the process of the engine core and keeps
    the inputs; an input that the client knows is not sent.  The caches agree as long
    as the server replays what the client did; [step] has the ways in which the engine
    interleaves the two sides, among them those after which they disagree. *)

From stdpp Require Import base gmap strings list relations.
From Stdlib Require Import ZArith Lia.
From S2P Require Import Prelude.
Open Scope list_scope.
Open Scope Z_scope.

(** ** [LRUCache]

    The class of [cachetools] is a parameter: which keys are held, in which order they
    were used and how large they are, after reading and after writing a key.  [stored]
    is [None] for a value above the capacity ([ValueError]).  Nothing is pinned. *)
Class Cachetools : Type := {
  order : Type;
  no_items : order;
  holds : order -> string -> bool;
  used : order -> string -> order;
  stored : order -> string -> Z -> option order }.
Class CachetoolsLaws (L : Cachetools) : Prop := {
  holds_none k : holds no_items k = false;
  holds_used s k k' : holds (used s k) k' = holds s k';
  holds_stored s k n s' : stored s k n = Some s' -> holds s' k = true;
  stored_evicts s k n s' k' : stored s k n = Some s' -> k' <> k -> holds s' k' = true -> holds s k' = true }.

Section cache.
Context {L : Cachetools}.

Record LRUCache (V : Type) : Type := {
  lru_order : order;
  lru_data : gmap string V;
  lru_hits : Z;
  lru_total : Z }.
Arguments lru_order {V} _. Arguments lru_data {V} _. Arguments lru_hits {V} _. Arguments lru_total {V} _.

Definition make_lru {V} : LRUCache V := {| lru_order := no_items; lru_data := ∅; lru_hits := 0; lru_total := 0 |}.
(** [__getitem__]; the entry becomes the one used last. *)
Definition lru_getitem {V} (c : LRUCache V) (key : string) (update_info : bool) : res (V * LRUCache V) :=
  let n := if update_info then 1 else 0 in
  if holds (lru_order c) key then
    let! value := of_option KeyError (lru_data c !! key) in
    Ok (value, {| lru_order := used (lru_order c) key; lru_data := lru_data c; lru_hits := lru_hits c + n; lru_total := lru_total c + n |})
  else Raise KeyError.
(** [__setitem__] evicts what does not fit. *)
Definition lru_setitem {V} (getsizeof : V -> Z) (c : LRUCache V) (key : string) (value : V) : res (LRUCache V) :=
  let! s := of_option ValueError (stored (lru_order c) key (getsizeof value)) in
  Ok {| lru_order := s; lru_data := filter (fun kv => holds s kv.1 = true) (<[key := value]> (lru_data c));
        lru_hits := lru_hits c; lru_total := lru_total c |}.
(** [get] with the default [None] *)
Definition lru_get {V} (c : LRUCache V) (key : string) : res (option V * LRUCache V) :=
  let! '(value, c, hit) :=
    if holds (lru_order c) key then let! '(v, c) := lru_getitem c key false in Ok (Some v, c, 1) else Ok (None, c, 0) in
  Ok (value, {| lru_order := lru_order c; lru_data := lru_data c; lru_hits := lru_hits c + hit; lru_total := lru_total c + 1 |}).
(** [clear] removes every item. *)
Definition lru_clear {V} (c : LRUCache V) : LRUCache V := make_lru.

(** ** The client and the server

    A cache outlives a call that raises, so the state is returned with the result. *)
Context {W : Type} (get_item_size : W -> Z).

(** [MultiModalCacheItemMetadata] *)
Record ItemMetadata : Set := { item_size : Z }.
Definition wraps (value : W) : ItemMetadata := {| item_size := get_item_size value |}.

Record InputCacheClient : Type := { client_enabled : bool; client_cache : LRUCache ItemMetadata }.
Record InputCacheServer : Type := { server_enabled : bool; server_cache : LRUCache W }.
Definition make_client (enabled : bool) : InputCacheClient := {| client_enabled := enabled; client_cache := make_lru |}.
Definition make_server (enabled : bool) : InputCacheServer := {| server_enabled := enabled; server_cache := make_lru |}.

(** The loop of [MultiModalInputCacheClient.get_and_update]. *)
Fixpoint client_loop (c : LRUCache ItemMetadata) (items : list (W * string)) : LRUCache ItemMetadata * res (list (option W)) :=
  match items with
  | [] => (c, Ok [])
  | (mm_input, mm_hash) :: items =>
      let append v c := let '(c, rest) := client_loop c items in (c, let! rest := rest in Ok (v :: rest)) in
      match lru_get c mm_hash with
      | Raise e => (c, Raise e)
      | Ok (Some _, c) => append None c
      | Ok (None, c) =>
          match lru_setitem item_size c mm_hash (wraps mm_input) with
          | Raise e => (c, Raise e)
          | Ok c => append (Some mm_input) c
          end
      end
  end.
Definition client_get_and_update (c : InputCacheClient) (mm_inputs : list W) (mm_hashes : list string) :
    InputCacheClient * res (list (option W)) :=
  if negb (length mm_inputs =? length mm_hashes)%nat then (c, Raise AssertionError)
  else if negb (client_enabled c) then (c, Ok (map Some mm_inputs))
  else
    let '(cache, r) := client_loop (client_cache c) (zip mm_inputs mm_hashes) in
    ({| client_enabled := client_enabled c; client_cache := cache |}, r).

(** The loop of [MultiModalInputCacheServer.get_and_update]. *)
Fixpoint server_loop (c : LRUCache W) (items : list (option W * string)) : LRUCache W * res (list W) :=
  match items with
  | [] => (c, Ok [])
  | (mm_input, mm_hash) :: items =>
      match (match mm_input with
             | None => lru_getitem c mm_hash true
             | Some v => let! c := lru_setitem get_item_size c mm_hash v in Ok (v, c)
             end) with
      | Raise e => (c, Raise e)
      | Ok (v, c) => let '(c, rest) := server_loop c items in (c, let! rest := rest in Ok (v :: rest))
      end
  end.
(** [is_list_of(mm_inputs, MultiModalKwargs)] *)
Definition all_given (mm_inputs : list (option W)) : res (list W) := of_option AssertionError (mapM id mm_inputs).
Definition server_get_and_update (c : InputCacheServer) (mm_inputs : list (option W)) (mm_hashes : list string) :
    InputCacheServer * res (list W) :=
  if negb (length mm_inputs =? length mm_hashes)%nat then (c, Raise AssertionError)
  else if negb (server_enabled c) then (c, all_given mm_inputs)
  else
    let '(cache, r) := server_loop (server_cache c) (zip mm_inputs mm_hashes) in
    ({| server_enabled := server_enabled c; server_cache := cache |}, r).
Definition client_reset (c : InputCacheClient) : InputCacheClient :=
  {| client_enabled := client_enabled c; client_cache := lru_clear (client_cache c) |}.
Definition server_reset (c : InputCacheServer) : InputCacheServer :=
  {| server_enabled := server_enabled c; server_cache := lru_clear (server_cache c) |}.

(** The part of [Processor.process_inputs] and of [EngineCore.preprocess_add_request]
    with [Request.from_engine_core_request] that is about the inputs.  There are no
    hashes when neither the processor nor prefix caching wants them. *)
Definition send_mm_inputs (c : InputCacheClient) (mm_inputs : list W) (mm_hashes : option (list string)) :
    InputCacheClient * res (list (option W)) :=
  match mm_hashes with
  | Some hashes => client_get_and_update c mm_inputs hashes
  | None => (c, Ok (map Some mm_inputs))
  end.
Definition receive_mm_inputs (c : InputCacheServer) (mm_inputs : list (option W)) (mm_hashes : option (list string)) :
    InputCacheServer * res (list W) :=
  match mm_hashes with
  | Some hashes => server_get_and_update c mm_inputs hashes
  | None => (c, all_given mm_inputs)
  end.

(** ** The two processes

    Messages of the front end arrive in order.  The thread that reads them looks up the
    inputs of a request at once and puts other messages into a queue; the busy loop
    takes them from there.  [full] are the inputs of the request, for the statements. *)
Inductive Message : Type :=
| AddRequest (mm_inputs : list (option W)) (mm_hashes : option (list string)) (full : list W)
| ResetCache.
Record System : Type := {
  client : InputCacheClient;
  server : InputCacheServer;
  sent : list Message;
  queued_resets : nat }.
Definition start (enabled : bool) : System :=
  {| client := make_client enabled; server := make_server enabled; sent := []; queued_resets := 0 |}.

(** What the steps may do: raise or give up between the processor and the engine core
    ([may_reject]), let the busy loop fall behind ([may_lag]), send a request twice, as
    for two samples ([may_repeat]). *)
Record Policy : Set := { may_reject : bool; may_lag : bool; may_repeat : bool }.
Definition orderly : Policy := {| may_reject := false; may_lag := false; may_repeat := false |}.

Inductive step (p : Policy) : System -> System -> Prop :=
| st_send y mm_inputs mm_hashes c out copies :
    send_mm_inputs (client y) mm_inputs mm_hashes = (c, Ok out) -> (may_repeat p = false -> copies = 1%nat) ->
    step p y {| client := c; server := server y; sent := sent y ++ replicate copies (AddRequest out mm_hashes mm_inputs);
                queued_resets := queued_resets y |}
| st_reject y mm_inputs mm_hashes c r :
    send_mm_inputs (client y) mm_inputs mm_hashes = (c, r) -> may_reject p = true ->
    step p y {| client := c; server := server y; sent := sent y; queued_resets := queued_resets y |}
| st_receive y mm_inputs mm_hashes full rest s got :
    sent y = AddRequest mm_inputs mm_hashes full :: rest -> (may_lag p = false -> queued_resets y = 0%nat) ->
    receive_mm_inputs (server y) mm_inputs mm_hashes = (s, Ok got) ->
    step p y {| client := client y; server := s; sent := rest; queued_resets := queued_resets y |}
| st_reset y :
    step p y {| client := client_reset (client y); server := server y; sent := sent y ++ [ResetCache]; queued_resets := queued_resets y |}
| st_queue_reset y rest :
    sent y = ResetCache :: rest ->
    step p y {| client := client y; server := server y; sent := rest; queued_resets := S (queued_resets y) |}
| st_run_reset y n :
    queued_resets y = S n ->
    step p y {| client := client y; server := server_reset (server y); sent := sent y; queued_resets := n |}.

(** ** The server replays the client *)

Context {LL : CachetoolsLaws L} (content : string -> W).

(** The same keys, in the same order of use; the server has the inputs. *)
Record mirror (s : LRUCache W) (c : LRUCache ItemMetadata) : Prop := {
  mi_order : lru_order s = lru_order c;
  mi_server k : holds (lru_order c) k = true -> lru_data s !! k = Some (content k);
  mi_client k : holds (lru_order c) k = true -> is_Some (lru_data c !! k) }.

Lemma make_mirror : mirror make_lru make_lru.
Proof using LL. split; [done| |]; intros k H; cbn in H; by rewrite holds_none in H. Qed.
Lemma stored_data {V} (f : V -> Z) (c c' : LRUCache V) k v k' : lru_setitem f c k v = Ok c' -> holds (lru_order c') k' = true ->
  lru_data c' !! k' = if decide (k = k') then Some v else lru_data c !! k'.
Proof.
  unfold lru_setitem. intros (o & _ & [= <-])%bind_ok. cbn. intros Hh. destruct (decide (k = k')) as [->|Hne].
  - apply map_lookup_filter_Some. by rewrite lookup_insert_eq.
  - destruct (lru_data c !! k') eqn:E; [apply map_lookup_filter_Some; by rewrite lookup_insert_ne|].
    apply map_lookup_filter_None. left. by rewrite lookup_insert_ne.
Qed.
Lemma stored_mirror s c c' k : mirror s c -> lru_setitem item_size c k (wraps (content k)) = Ok c' ->
  exists s', lru_setitem get_item_size s k (content k) = Ok s' /\ mirror s' c'.
Proof using LL.
  intros [Ho Hs Hc] E. pose proof E as E0. apply bind_ok in E as (v & H%of_option_ok & [= Ec]). cbn in H. rewrite <-Ho in H.
  assert (Es : exists s', lru_setitem get_item_size s k (content k) = Ok s' /\ lru_order s' = v)
    by (unfold lru_setitem; rewrite H; cbn; eauto).
  destruct Es as (s' & Es & Ev). exists s'. split; [done|].
  assert (Eo : lru_order s' = lru_order c') by (subst c'; done). split; [done| |]; intros k' Hk.
  - rewrite (stored_data _ _ _ _ _ _ Es) by congruence. destruct (decide (k = k')) as [->|Hne]; [done|]. apply Hs. rewrite <-Ho.
    eapply stored_evicts; [exact H|by intros ->|congruence].
  - rewrite (stored_data _ _ _ _ _ _ E0) by done. destruct (decide (k = k')) as [->|Hne]; [by eexists|]. apply Hc. rewrite <-Ho.
    eapply stored_evicts; [exact H|by intros ->|congruence].
Qed.
Lemma used_mirror s c k : mirror s c -> holds (lru_order c) k = true -> exists m c' s', lru_get c k = Ok (Some m, c') /\
  lru_getitem s k true = Ok (content k, s') /\ mirror s' c'.
Proof using LL.
  intros [Ho Hs Hc] Hh. destruct (Hc k Hh) as [m Em]. unfold lru_get, lru_getitem. rewrite Hh, Em, Ho, Hh, (Hs k Hh). cbn.
  eexists _, _, _. split; [reflexivity|]. split; [reflexivity|]. split; cbn; [done| |]; intros k'; rewrite holds_used; auto.
Qed.
Lemma get_misses c k : holds (lru_order c) k = false -> exists c', lru_get c k = Ok (None, c') /\ forall s, mirror s c -> mirror s c'.
Proof. intros H. unfold lru_get. rewrite H. cbn. eexists. split; [reflexivity|]. intros s [? ? ?]. by split. Qed.

Lemma loop_mirror hashes : forall s c c' out, mirror s c -> client_loop c (zip (map content hashes) hashes) = (c', Ok out) ->
  length out = length hashes /\ exists s', server_loop s (zip out hashes) = (s', Ok (map content hashes)) /\ mirror s' c'.
Proof using LL.
  induction hashes as [|h hashes IH]; intros s c c' out Hm; cbn [map zip_with client_loop].
  { intros [= <- <-]. split; [done|]. eexists. by split. }
  assert (Hrest : forall v c1 s1, mirror s1 c1 -> (let '(c2, rest) := client_loop c1 (zip (map content hashes) hashes) in (c2, let! rest := rest in Ok (v :: rest))) = (c', Ok out) ->
    exists rest, out = v :: rest /\ length rest = length hashes /\ exists s', server_loop s1 (zip rest hashes) = (s', Ok (map content hashes)) /\ mirror s' c').
  { intros v c1 s1 H1. destruct (client_loop c1 _) as [c2 [rest|e]] eqn:E; cbn; [|congruence]. intros [= <- <-]. exists rest. split; [done|]. by eapply IH. }
  destruct (holds (lru_order c) h) eqn:Hh.
  - destruct (used_mirror s c h Hm Hh) as (m & c1 & s1 & -> & Es & H1). intros (rest & -> & Hl & s' & E & Hm')%(Hrest _ _ _ H1). cbn. split; [congruence|].
    rewrite Es, E. cbn. by eexists.
  - destruct (get_misses c h Hh) as (c1 & -> & Hk). destruct (lru_setitem item_size c1 h (wraps (content h))) as [c2|] eqn:E2; [|congruence].
    destruct (stored_mirror s c1 c2 h (Hk s Hm) E2) as (s1 & Es & H1). intros (rest & -> & Hl & s' & E & Hm')%(Hrest _ _ _ H1). cbn. split; [congruence|].
    rewrite Es. cbn. rewrite E. cbn. by eexists.
Qed.

(** Both sides are on and mirror each other, or both are off. *)
Definition in_sync (s : InputCacheServer) (c : InputCacheClient) : Prop :=
  server_enabled s = client_enabled c /\ mirror (server_cache s) (client_cache c).
(** With hashes, the hash determines the input. *)
Definition genuine (m : Message) : Prop :=
  match m with AddRequest _ (Some hashes) full => full = map content hashes | _ => True end.
Lemma all_given_some (l : list W) : all_given (map Some l) = Ok l.
Proof. unfold all_given. enough (mapM id (map Some l) = Some l) as -> by done. induction l as [|x l IH]; cbn in *; [done|by rewrite IH]. Qed.

Lemma sent_received s c c' inputs hashes out : in_sync s c -> genuine (AddRequest out hashes inputs) ->
  send_mm_inputs c inputs hashes = (c', Ok out) ->
  exists s', receive_mm_inputs s out hashes = (s', Ok inputs) /\ in_sync s' c'.
Proof using LL.
  intros [He Hm] Hg. destruct hashes as [hashes|]; cbn.
  2:{ intros [= <- <-]. exists s. by rewrite all_given_some. }
  cbn in Hg. subst inputs. unfold client_get_and_update, server_get_and_update. rewrite length_map, Nat.eqb_refl. cbn. rewrite He.
  destruct (client_enabled c) eqn:Een; cbn.
  - destruct (client_loop _ _) as [c1 r] eqn:E. intros [= <- ->]. destruct (loop_mirror _ _ _ _ _ Hm E) as (Hl & s1 & Es & H1).
    rewrite Hl, Nat.eqb_refl. cbn. rewrite Es. eexists. split; [reflexivity|]. by split.
  - intros [= <- <-]. rewrite !length_map, Nat.eqb_refl. cbn. rewrite all_given_some. exists s. by rewrite <-Een in *.
Qed.

(** After the messages on their way, the sides are in sync, and no lookup fails. *)
Fixpoint catches_up (s : InputCacheServer) (l : list Message) (c : InputCacheClient) : Prop :=
  match l with
  | [] => in_sync s c
  | AddRequest inputs hashes full :: l => exists s', receive_mm_inputs s inputs hashes = (s', Ok full) /\ catches_up s' l c
  | ResetCache :: l => catches_up (server_reset s) l c
  end.
Lemma catches_up_app l1 : forall s l2 c c', catches_up s l1 c -> (forall s, in_sync s c -> catches_up s l2 c') -> catches_up s (l1 ++ l2) c'.
Proof. induction l1 as [|[i h f|] l1 IH]; cbn; intros s l2 c c' H H2; [auto| |by eapply IH]. destruct H as (s' & E & H). exists s'. split; [done|by eapply IH]. Qed.
Definition synced (y : System) : Prop :=
  catches_up (match queued_resets y with O => server y | S _ => server_reset (server y) end) (sent y) (client y).
Lemma reset_again s : server_reset (server_reset s) = server_reset s.
Proof. done. Qed.

Lemma step_synced y y' : step orderly y y' -> Forall genuine (sent y') -> synced y -> synced y'.
Proof using LL.
  intros Hs Hg. unfold synced. destruct Hs as [y inputs hashes c out n E Hn|y inputs hashes c r E H|y inputs hashes full rest s got Es Hq Er|y|y rest Es|y n En]; cbn in *.
  - rewrite (Hn eq_refl) in *. cbn in *. intros H. eapply catches_up_app; [exact H|]. cbn. intros s Hsy.
    apply Forall_app in Hg as [_ [Hg _]%Forall_cons]. by eapply sent_received.
  - done.
  - rewrite (Hq eq_refl), Es. cbn. rewrite Er. by intros (s' & [= -> ->] & H).
  - intros H. eapply catches_up_app; [exact H|]. cbn. intros s [He _]. split; [done|]. apply make_mirror.
  - rewrite Es. cbn. by destruct (queued_resets y).
  - rewrite En. destruct n; [done|]. by rewrite reset_again.
Qed.
Lemma start_synced enabled : synced (start enabled).
Proof using LL. split; [done|apply make_mirror]. Qed.

(** What the two processes may rely on. *)
Record delivered (y : System) : Prop := {
  dl_request inputs hashes full rest : sent y = AddRequest inputs hashes full :: rest -> queued_resets y = 0%nat ->
    exists s, receive_mm_inputs (server y) inputs hashes = (s, Ok full);
  dl_mirror : sent y = [] -> queued_resets y = 0%nat -> mirror (server_cache (server y)) (client_cache (client y)) }.
Definition orderly_step (y y' : System) : Prop := step orderly y y' /\ Forall genuine (sent y').

(** C12. As long as every request that the front end has processed reaches the engine
    core once, the hash of an input determines it, and a reset runs before a later
    request is read: in every interleaving of requests, messages and resets, and
    whatever the caches evict, the engine core gets for every request exactly the
    inputs that the front end left out or sent, no lookup fails, and whenever nothing
    is on its way both caches hold the same keys in the same order of use. *)
Theorem mm_caches_mirror enabled y : rtc orderly_step (start enabled) y -> delivered y.
Proof using LL.
  intros Hr. assert (H : synced y).
  { pose proof (start_synced enabled) as H. revert H. induction Hr as [|y1 y2 y3 [Hs Hg] _ IH]; [done|]. intros H. by eapply IH, step_synced. }
  unfold synced in H. split.
  - intros inputs hashes full rest Es Eq. rewrite Es, Eq in H. cbn in H. destruct H as (s & E & _). by exists s.
  - intros Es Eq. rewrite Es, Eq in H. apply H.
Qed.
End cache.
Arguments lru_order {L V} _. Arguments lru_data {L V} _. Arguments AddRequest {W} _ _ _. Arguments ResetCache {W}.

(** ** A cache of a given capacity *)

Definition total_size (l : list (string * Z)) : Z := fold_right (fun e n => e.2 + n) 0 l.
Definition without (l : list (string * Z)) (k : string) : list (string * Z) := List.filter (fun e => negb (bool_decide (e.1 = k))) l.
(** Items in the order of use, the oldest first. *)
Fixpoint evict (cap : Z) (l : list (string * Z)) : list (string * Z) :=
  match l with
  | [] => []
  | e :: l' => if total_size l <=? cap then l else evict cap l'
  end.
Definition member (l : list (string * Z)) (k : string) : bool := bool_decide (k ∈ map fst l).
Definition lru_list (cap : Z) : Cachetools :=
  {| order := list (string * Z);
     no_items := [];
     holds := member;
     used l k := without l k ++ List.filter (fun e => bool_decide (e.1 = k)) l;
     stored l k n := if cap <? n then None else Some (evict (cap - n) (without l k) ++ [(k, n)]) |}.
Lemma elem_of_others l k k' : k' ∈ map fst (without l k) <-> k' ∈ map fst l /\ k' <> k.
Proof.
  unfold without. induction l as [|[a n] l IH]; cbn; [by split; [intros ?%elem_of_nil|intros [?%elem_of_nil _]]|].
  destruct (bool_decide_reflect (a = k)) as [->|Hne]; cbn; rewrite !elem_of_cons, IH; naive_solver.
Qed.
Lemma elem_of_evict cap l k : k ∈ map fst (evict cap l) -> k ∈ map fst l.
Proof. induction l as [|e l IH]; cbn [evict]; [done|]. destruct (total_size (e :: l) <=? cap); [done|]. intros ?%IH. cbn. by right. Qed.
#[export] Instance lru_list_laws cap : CachetoolsLaws (lru_list cap).
Proof.
  split; cbn; unfold member.
  - done.
  - intros l k k'. apply bool_decide_ext. rewrite map_app, elem_of_app, elem_of_others.
    induction l as [|[a n] l IH]; cbn; [tauto|]. destruct (bool_decide_reflect (a = k)) as [->|Hne]; cbn; rewrite ?elem_of_cons; [|naive_solver].
    destruct (decide (k' = k)); naive_solver.
  - intros l k n l'. destruct (cap <? n); [done|]. intros [= <-]. apply bool_decide_eq_true. rewrite map_app. apply elem_of_app. right. by left.
  - intros l k n l' k'. destruct (cap <? n); [done|]. intros [= <-] Hne. rewrite !bool_decide_eq_true, map_app, elem_of_app.
    intros [H%elem_of_evict%elem_of_others|[?|?%elem_of_nil]%elem_of_cons]; [tauto|done|done].
Qed.

(** An input is named by its hash and is as large as the name is long. *)
Definition text_size (s : string) : Z := Z.of_nat (String.length s).
Notation demo_system := (@System (lru_list 10) string).
Notation demo_step := (@step (lru_list 10) string text_size).
Definition demo_start : demo_system := @start (lru_list 10) string true.
Definition demo_send (y : demo_system) (l : list string) (copies : nat) : demo_system :=
  match @send_mm_inputs (lru_list 10) string text_size (client y) l (Some l) with
  | (c, Ok out) => {| client := c; server := server y; sent := sent y ++ replicate copies (AddRequest out (Some l) l); queued_resets := queued_resets y |}
  | (c, Raise _) => {| client := c; server := server y; sent := sent y; queued_resets := queued_resets y |}
  end.
Definition demo_receive (y : demo_system) : option (res (list string)) * demo_system :=
  match sent y with
  | AddRequest inputs hashes _ :: rest =>
      let '(s, r) := @receive_mm_inputs (lru_list 10) string text_size (server y) inputs hashes in
      (Some r, {| client := client y; server := s; sent := rest; queued_resets := queued_resets y |})
  | ResetCache :: rest => (None, {| client := client y; server := server y; sent := rest; queued_resets := S (queued_resets y) |})
  | [] => (None, y)
  end.
Definition demo_reset (y : demo_system) : demo_system :=
  {| client := client_reset (client y); server := server y; sent := sent y ++ [ResetCache]; queued_resets := queued_resets y |}.

(** The second request leaves out the input that it shares with the first. *)
Definition demo_pair : demo_system := demo_send (demo_send demo_start ["cat"; "horse"]%string 1) ["horse"; "cow"]%string 1.
Lemma mm_caches_mirror_witness : delivered text_size (fun h => h) demo_pair /\
  sent demo_pair = [AddRequest [Some "cat"; Some "horse"] (Some ["cat"; "horse"]) ["cat"; "horse"];
                    AddRequest [None; Some "cow"] (Some ["horse"; "cow"]) ["horse"; "cow"]]%string.
Proof.
  split; [|vm_compute; reflexivity]. apply (mm_caches_mirror text_size (fun h => h) true).
  apply (rtc_l _ _ (demo_send demo_start ["cat"; "horse"]%string 1)); [|apply rtc_once]; split.
  - by apply (st_send text_size orderly demo_start ["cat"; "horse"]%string (Some ["cat"; "horse"]%string) _ _ 1%nat eq_refl).
  - vm_compute. repeat constructor.
  - by apply (st_send text_size orderly (demo_send demo_start ["cat"; "horse"]%string 1) ["horse"; "cow"]%string (Some ["horse"; "cow"]%string) _ _ 1%nat eq_refl).
  - vm_compute. repeat constructor.
Defined.

(** *** Where the caches part *)

(** A request that was processed and then refused, because its id was taken: the next
    request with the same input ends the thread of the engine core that reads messages. *)
Lemma refused_request_parts_caches : exists y out,
  rtc (demo_step {| may_reject := true; may_lag := false; may_repeat := false |}) demo_start y /\
  sent y = [AddRequest out (Some ["cat"]) ["cat"]]%string /\ fst (demo_receive y) = Some (Raise KeyError).
Proof.
  pose (y1 := {| client := client (demo_send demo_start ["cat"]%string 1); server := server demo_start; sent := []; queued_resets := 0 |} : demo_system).
  exists (demo_send y1 ["cat"]%string 1). eexists. split; [|split; vm_compute; reflexivity].
  apply (rtc_l _ _ y1); [by apply (st_reject text_size _ demo_start ["cat"]%string (Some ["cat"]%string) _ _ eq_refl)|].
  apply rtc_once. by apply (st_send text_size _ y1 ["cat"]%string (Some ["cat"]%string) _ _ 1%nat eq_refl).
Qed.
(** The same when the second input of the request is too large: the first is kept. *)
Lemma large_input_parts_caches : exists c, @client_get_and_update (lru_list 10) string text_size (make_client true) ["cat"; "hippopotamus"]%string ["cat"; "hippopotamus"]%string = (c, Raise ValueError) /\
  snd (@client_get_and_update (lru_list 10) string text_size c ["cat"]%string ["cat"]%string) = Ok [None].
Proof. eexists. split; [vm_compute; reflexivity|]. vm_compute. reflexivity. Qed.
(** A reset that waits for the busy loop while a later request is read. *)
Lemma late_reset_parts_caches : exists y out,
  rtc (demo_step {| may_reject := false; may_lag := true; may_repeat := false |}) demo_start y /\
  sent y = [AddRequest out (Some ["cat"]) ["cat"]]%string /\ queued_resets y = 0%nat /\ fst (demo_receive y) = Some (Raise KeyError).
Proof.
  pose (y1 := demo_reset demo_start). pose (y2 := snd (demo_receive y1)). pose (y3 := demo_send y2 ["cat"]%string 1). pose (y4 := snd (demo_receive y3)).
  pose (y5 := {| client := client y4; server := server_reset (server y4); sent := sent y4; queued_resets := 0 |} : demo_system).
  exists (demo_send y5 ["cat"]%string 1). eexists. split; [|split; [vm_compute; reflexivity|split; vm_compute; reflexivity]].
  apply (rtc_l _ _ y1); [apply st_reset|]. apply (rtc_l _ _ y2); [by apply (st_queue_reset text_size _ y1 [])|].
  apply (rtc_l _ _ y3); [by apply (st_send text_size _ y2 ["cat"]%string (Some ["cat"]%string) _ _ 1%nat eq_refl)|].
  apply (rtc_l _ _ y4); [by eapply (st_receive text_size _ y3)|].
  apply (rtc_l _ _ y5); [by apply (st_run_reset text_size _ y4)|].
  apply rtc_once. by apply (st_send text_size _ y5 ["cat"]%string (Some ["cat"]%string) _ _ 1%nat eq_refl).
Qed.
(** Two samples of a request whose second input takes the place of the first. *)
Lemma two_samples_part_caches : exists y,
  rtc (demo_step {| may_reject := false; may_lag := false; may_repeat := true |}) demo_start y /\ client_enabled (client y) = true /\
  fst (demo_receive y) = Some (Raise KeyError).
Proof.
  pose (y1 := demo_send demo_start ["horse"]%string 1). pose (y2 := snd (demo_receive y1)). pose (y3 := demo_send y2 ["horse"; "elephant"]%string 2).
  exists (snd (demo_receive y3)). split; [|split; vm_compute; reflexivity].
  apply (rtc_l _ _ y1); [by apply (st_send text_size _ demo_start ["horse"]%string (Some ["horse"]%string) _ _ 1%nat eq_refl)|].
  apply (rtc_l _ _ y2); [by eapply (st_receive text_size _ y1)|].
  apply (rtc_l _ _ y3); [by apply (st_send text_size _ y2 ["horse"; "elephant"]%string (Some ["horse"; "elephant"]%string) _ _ 2%nat eq_refl)|].
  apply rtc_once. by eapply (st_receive text_size _ y3).
Qed.
