(* ===== verification/SamplingParams.v ===== *)
(** * Sampling parameters ([vllm/sampling_params.py])

    [SamplingParams] with the checks of its constructor and the three updates that the
    engine makes, and [GuidedDecodingParams].  Arguments have their annotated types;
    a float is a rational, an infinity or not a number.  [sampling_params_ok] says
    which parameters the constructor takes and what it makes of them. *)

From stdpp Require Import base gmap strings list fin_sets.
From Stdlib Require Import ZArith QArith Lia Lqa.
From S2P Require Import Prelude Detokenizer TextDecoders.
Open Scope list_scope.
Open Scope Z_scope.

(** ** Floats *)

Inductive Float : Set := Finite (q : Q) | Infinite (negative : bool) | NaN.
(** [a <= b] and [a < b] *)
Definition float_le (a b : Float) : bool :=
  match a, b with
  | NaN, _ | _, NaN => false
  | Infinite true, _ | _, Infinite false => true
  | Finite p, Finite q => Qle_bool p q
  | _, _ => false
  end.
Definition float_lt (a b : Float) : bool :=
  match a, b with
  | NaN, _ | _, NaN => false
  | _, _ => negb (float_le b a)
  end.
(** [max(a, b)] and [min(a, b)] keep the first argument unless the second is beyond. *)
Definition float_max (a b : Float) : Float := if float_lt a b then b else a.
Definition float_min (a b : Float) : Float := if float_lt b a then b else a.

(** ** [GuidedDecodingParams] *)

Inductive Json : Set :=
| JNull | JBool (b : bool) | JNumber (q : Q) | JString (s : text) | JArray (l : list Json) | JObject (l : list (text * Json)).
Record Guided : Set := {
  gd_json : option Json;
  gd_regex : option text;
  gd_choice : option (list text);
  gd_grammar : option text;
  gd_json_object : option bool;
  gd_backend : option string;
  gd_backend_was_auto : bool;
  gd_disable_fallback : bool;
  gd_disable_any_whitespace : bool;
  gd_disable_additional_properties : bool;
  gd_whitespace_pattern : option text;
  gd_structural_tag : option text }.
Definition given {A} (o : option A) : bool := match o with Some _ => true | None => false end.
(** [__post_init__] *)
Definition guide_count (g : Guided) : nat :=
  (Nat.b2n (given (gd_json g)) + Nat.b2n (given (gd_regex g)) + Nat.b2n (given (gd_choice g)) + Nat.b2n (given (gd_grammar g)) +
   Nat.b2n (given (gd_json_object g)))%nat.
Definition guided_post_init (g : Guided) : res Guided := if (1 <? guide_count g)%nat then Raise ValueError else Ok g.
(** [from_optional]; the schema of a pydantic model is a dictionary already. *)
Definition guided_from_optional (json : option Json) (regex : option text) (choice : option (list text)) (grammar : option text)
    (json_object : option bool) (backend : option string) (whitespace_pattern structural_tag : option text) : res (option Guided) :=
  if negb (given json || given regex || given choice || given grammar || given json_object || given structural_tag) then Ok None
  else
    let! g := guided_post_init
      {| gd_json := json; gd_regex := regex; gd_choice := choice; gd_grammar := grammar; gd_json_object := json_object;
         gd_backend := backend; gd_backend_was_auto := false; gd_disable_fallback := false; gd_disable_any_whitespace := false;
         gd_disable_additional_properties := false; gd_whitespace_pattern := whitespace_pattern; gd_structural_tag := structural_tag |} in
    Ok (Some g).

(** ** [SamplingParams]

    The fields by who writes them: [Options] are never changed after construction. *)
Inductive StopArg : Set := NoStop | OneStop (s : text) | Stops (l : list text).
Record Options : Set := {
  o_best_of : option Z;
  o_presence_penalty : Float;
  o_frequency_penalty : Float;
  o_repetition_penalty : Float;
  o_ignore_eos : bool;
  o_min_tokens : Z;
  o_logprobs : option Z;
  o_prompt_logprobs : option Z;
  o_detokenize : bool;
  o_skip_special_tokens : bool;
  o_spaces_between_special_tokens : bool;
  o_has_logits_processors : bool;
  o_include_stop_str_in_output : bool;
  o_truncate_prompt_tokens : option Z;
  o_output_kind : RequestOutputKind;
  o_logit_bias : option (list (Z * Float));
  o_allowed_token_ids : option (list Z);
  o_steps : Z;
  o_gen_length : Z;
  o_block_length : Z;
  o_cfg_scale : Float;
  o_remasking : string;
  o_mask_id : Z;
  o_token_step_schedule : option (list Z) }.
Record Counts : Set := { c_n : Z; c_real_n : option Z; c_max_tokens : option Z; c_output_length : option Z; c_prompt_length : option Z }.
Record Randomness : Set := { d_temperature : Float; d_top_p : Float; d_top_k : Z; d_min_p : Float; d_seed : option Z }.
Record StopRules : Set := {
  s_stop : StopArg;
  s_stop_token_ids : option (list Z);
  s_output_text_buffer_length : Z;
  s_all_stop_token_ids : gset Z }.
Record BadWords : Set := { b_bad_words : option (list text); b_token_ids : option (list (list Z)) }.
Record Params : Set := {
  options : Options;
  counts : Counts;
  randomness : Randomness;
  stops : StopRules;
  words : BadWords;
  guided : option Guided }.

Definition with_counts (p : Params) (c : Counts) : Params :=
  {| options := options p; counts := c; randomness := randomness p; stops := stops p; words := words p; guided := guided p |}.
Definition with_randomness (p : Params) (d : Randomness) : Params :=
  {| options := options p; counts := counts p; randomness := d; stops := stops p; words := words p; guided := guided p |}.
Definition with_stops (p : Params) (s : StopRules) : Params :=
  {| options := options p; counts := counts p; randomness := randomness p; stops := s; words := words p; guided := guided p |}.
Definition with_words (p : Params) (b : BadWords) : Params :=
  {| options := options p; counts := counts p; randomness := randomness p; stops := stops p; words := b; guided := guided p |}.
Definition with_guided (p : Params) (g : option Guided) : Params :=
  {| options := options p; counts := counts p; randomness := randomness p; stops := stops p; words := words p; guided := g |}.
Definition set_n (p : Params) (n : Z) (real_n : option Z) : Params :=
  let c := counts p in
  with_counts p {| c_n := n; c_real_n := real_n; c_max_tokens := c_max_tokens c; c_output_length := c_output_length c; c_prompt_length := c_prompt_length c |}.
Definition set_seed (p : Params) (seed : option Z) : Params :=
  let d := randomness p in
  with_randomness p {| d_temperature := d_temperature d; d_top_p := d_top_p d; d_top_k := d_top_k d; d_min_p := d_min_p d; d_seed := seed |}.

(** [0.0 < temperature < _MAX_TEMP] is raised to [_MAX_TEMP]; below [_SAMPLING_EPS]
    sampling is greedy. *)
Definition _MAX_TEMP : Float := Finite (1 # 100).
Definition _SAMPLING_EPS : Float := Finite (1 # 100000).

(** ** [__post_init__] *)

Definition truthy (o : option Z) : bool := match o with Some n => negb (n =? 0) | None => false end.
Definition use_best_of (p : Params) : res Params :=
  match o_best_of (options p) with
  | Some best_of =>
      let n := c_n (counts p) in
      if best_of =? 0 then Ok p
      else if best_of <? n then Raise ValueError
      else if negb (truthy (c_real_n (counts p))) then Ok (set_n p best_of (Some n))
      else Ok p
  | None => Ok p
  end.
Definition normal_temperature (t : Float) : Float := if float_lt (Finite 0) t && float_lt t _MAX_TEMP then float_max t _MAX_TEMP else t.
Definition normal_seed (seed : option Z) : option Z := match seed with Some s => if s =? -1 then None else Some s | None => None end.
Definition normal_stop (s : StopArg) : list text := match s with NoStop => [] | OneStop s => [s] | Stops l => l end.
(** [max(len(s) for s in self.stop) - 1], for a list that is not empty *)
Definition longest (l : list text) : Z := fold_right (fun s n => Z.max (Z.of_nat (length s)) n) 0 l.
Definition normalise (p : Params) : Params :=
  let d := randomness p in let s := stops p in let o := options p in
  let stop := normal_stop (s_stop s) in
  let buffer := match stop with
                | [] => s_output_text_buffer_length s
                | _ => if o_include_stop_str_in_output o then s_output_text_buffer_length s else longest stop - 1
                end in
  with_words
    (with_stops
      (with_randomness p {| d_temperature := normal_temperature (d_temperature d); d_top_p := d_top_p d; d_top_k := d_top_k d;
                            d_min_p := d_min_p d; d_seed := normal_seed (d_seed d) |})
      {| s_stop := Stops stop; s_stop_token_ids := Some (default [] (s_stop_token_ids s)); s_output_text_buffer_length := buffer;
         s_all_stop_token_ids := s_all_stop_token_ids s |})
    {| b_bad_words := Some (default [] (b_bad_words (words p))); b_token_ids := b_token_ids (words p) |}.

(** [if bad: raise ValueError] *)
Definition refuse (bad : bool) : res unit := if bad then Raise ValueError else Ok tt.
Definition between (lo : Q) (x : Float) (hi : Q) : bool := float_le (Finite lo) x && float_le x (Finite hi).
Definition below (o : option Z) (n : Z) : bool := match o with Some x => x <? n | None => false end.
Definition is_nil {A} (l : list A) : bool := match l with [] => true | _ => false end.
Definition _verify_args (p : Params) : res unit :=
  let o := options p in let c := counts p in let d := randomness p in
  let stop := normal_stop (s_stop (stops p)) in
  refuse (c_n c <? 1) ;;!
  refuse (below (o_best_of o) 1) ;;!
  refuse (below (o_best_of o) (c_n c)) ;;!
  refuse (negb (between (-2) (o_presence_penalty o) 2)) ;;!
  refuse (negb (between (-2) (o_frequency_penalty o) 2)) ;;!
  refuse (float_le (o_repetition_penalty o) (Finite 0)) ;;!
  refuse (float_lt (d_temperature d) (Finite 0)) ;;!
  refuse (negb (float_lt (Finite 0) (d_top_p d) && float_le (d_top_p d) (Finite 1))) ;;!
  refuse (d_top_k d <? -1) ;;!
  refuse (negb (between 0 (d_min_p d) 1)) ;;!
  refuse (below (c_max_tokens c) 1) ;;!
  refuse (o_min_tokens o <? 0) ;;!
  refuse (below (c_max_tokens c) (o_min_tokens o)) ;;!
  refuse (match o_logprobs o with Some n => negb (n =? -1) && (n <? 0) | None => false end) ;;!
  refuse (below (o_prompt_logprobs o) 0) ;;!
  refuse (below (o_truncate_prompt_tokens o) 1) ;;!
  refuse (existsb is_nil stop) ;;!
  refuse (negb (is_nil stop) && negb (o_detokenize o)) ;;!
  refuse (negb (bool_decide (o_best_of o = c_real_n c)) && bool_decide (o_output_kind o = DELTA)).
Definition _verify_greedy_sampling (p : Params) : res unit := refuse (1 <? c_n (counts p)).
(** Zero temperature means greedy sampling. *)
Definition use_greedy (p : Params) : res Params :=
  let d := randomness p in
  if float_lt (d_temperature d) _SAMPLING_EPS then
    let p := with_randomness p {| d_temperature := d_temperature d; d_top_p := Finite 1; d_top_k := 0; d_min_p := Finite 0; d_seed := d_seed d |} in
    _verify_greedy_sampling p ;;! Ok p
  else Ok p.
Definition add_stop_token_ids (p : Params) (ids : gset Z) : Params :=
  let s := stops p in
  with_stops p {| s_stop := s_stop s; s_stop_token_ids := s_stop_token_ids s; s_output_text_buffer_length := s_output_text_buffer_length s;
                  s_all_stop_token_ids := s_all_stop_token_ids s ∪ ids |}.
Definition post_init (p : Params) : res Params :=
  let! p := use_best_of p in
  let p := normalise p in
  _verify_args p ;;!
  (let! p := use_greedy p in
   Ok (add_stop_token_ids p (list_to_set (default [] (s_stop_token_ids (stops p)))))).

(** [from_optional] clamps the biases and constructs the parameters. *)
Definition clamp_bias (bias : Float) : Float := float_min (Finite 100) (float_max (Finite (-100)) bias).
Definition with_logit_bias (o : Options) (bias : option (list (Z * Float))) : Options :=
  {| o_best_of := o_best_of o; o_presence_penalty := o_presence_penalty o; o_frequency_penalty := o_frequency_penalty o;
     o_repetition_penalty := o_repetition_penalty o; o_ignore_eos := o_ignore_eos o; o_min_tokens := o_min_tokens o;
     o_logprobs := o_logprobs o; o_prompt_logprobs := o_prompt_logprobs o; o_detokenize := o_detokenize o;
     o_skip_special_tokens := o_skip_special_tokens o; o_spaces_between_special_tokens := o_spaces_between_special_tokens o;
     o_has_logits_processors := o_has_logits_processors o; o_include_stop_str_in_output := o_include_stop_str_in_output o;
     o_truncate_prompt_tokens := o_truncate_prompt_tokens o; o_output_kind := o_output_kind o; o_logit_bias := bias;
     o_allowed_token_ids := o_allowed_token_ids o; o_steps := o_steps o; o_gen_length := o_gen_length o;
     o_block_length := o_block_length o; o_cfg_scale := o_cfg_scale o; o_remasking := o_remasking o; o_mask_id := o_mask_id o;
     o_token_step_schedule := o_token_step_schedule o |}.
Definition from_optional (p : Params) : res Params :=
  let o := options p in
  let bias := (map (fun e => (e.1, clamp_bias e.2))) <$> o_logit_bias o in
  post_init {| options := with_logit_bias o bias; counts := counts p; randomness := randomness p; stops := stops p; words := words p; guided := guided p |}.

(** ** Updates by the engine *)

Inductive EosIds : Set := OneEos (id : Z) | ManyEos (ids : list Z).
Definition eos_set (e : EosIds) : gset Z := match e with OneEos id => {[id]} | ManyEos ids => list_to_set ids end.
(** [update_from_generation_config]; the list of a set is in an order of its own. *)
Definition update_from_generation_config (p : Params) (generation_eos : option EosIds) (model_eos_token_id : option Z) : Params :=
  let p := match model_eos_token_id with Some e => add_stop_token_ids p {[e]} | None => p end in
  match generation_eos with
  | None => p
  | Some e =>
      let eos_ids := eos_set e ∖ match model_eos_token_id with Some e => {[e]} | None => ∅ end in
      if bool_decide (eos_ids = ∅) then p
      else
        let p := add_stop_token_ids p eos_ids in
        if o_ignore_eos (options p) then p
        else
          let s := stops p in
          with_stops p {| s_stop := s_stop s; s_stop_token_ids := Some (elements (eos_ids ∪ list_to_set (default [] (s_stop_token_ids s))));
                          s_output_text_buffer_length := s_output_text_buffer_length s; s_all_stop_token_ids := s_all_stop_token_ids s |}
  end.

(** [str.lstrip]: the characters that Python counts as white space. *)
Definition is_space (c : Z) : bool :=
  (9 <=? c) && (c <=? 13) || (28 <=? c) && (c <=? 32) || (c =? 133) || (c =? 160) || (c =? 5760) || (8192 <=? c) && (c <=? 8202) ||
  (c =? 8232) || (c =? 8233) || (c =? 8239) || (c =? 8287) || (c =? 12288).
Fixpoint lstrip (s : text) : text := match s with c :: s' => if is_space c then lstrip s' else s | [] => [] end.

(** A tokenizer: what the front end asks of it. *)
Record WordTokenizer : Type := { wt_len : Z; wt_max_token_id : Z; wt_encode : text -> list Z }.
(** One bad word, alone and with a space in front; the second form counts when it is
    one new token in front of the same number of tokens. *)
Definition bad_word_ids (tok : WordTokenizer) (acc : list (list Z)) (bad_word : text) : res (list (list Z)) :=
  let ids := wt_encode tok (lstrip bad_word) in
  let acc := acc ++ [ids] in
  let spaced := wt_encode tok (32 :: lstrip bad_word) in
  let! a := of_option IndexError (head spaced) in
  let! b := of_option IndexError (head ids) in
  Ok (if negb (a =? b) && (length spaced =? length ids)%nat then acc ++ [spaced] else acc).
Definition update_from_tokenizer (p : Params) (tok : WordTokenizer) : res Params :=
  match default [] (b_bad_words (words p)) with
  | [] => Ok p
  | bad_words =>
      let! ids := res_fold (bad_word_ids tok) bad_words [] in
      refuse (existsb (existsb (fun t => (t <? 0) || (wt_max_token_id tok <? t))) ids) ;;!
      Ok (with_words p {| b_bad_words := b_bad_words (words p); b_token_ids := Some ids |})
  end.

(** ** Which parameters are taken *)

Lemma float_le_finite p q : float_le (Finite p) (Finite q) = true <-> (p <= q)%Q.
Proof. apply Qle_bool_iff. Qed.
Lemma float_lt_finite p q : float_lt (Finite p) (Finite q) = true <-> (p < q)%Q.
Proof. cbn. rewrite negb_true_iff, <-not_true_iff_false, Qle_bool_iff. split; [apply Qnot_le_lt|apply Qlt_not_le]. Qed.
Definition finite_with (x : Float) (P : Q -> Prop) : Prop := exists q, x = Finite q /\ P q.
Lemma between_iff lo x hi : between lo x hi = true <-> finite_with x (fun q => lo <= q <= hi)%Q.
Proof.
  unfold between. rewrite andb_true_iff. destruct x as [q|[]|]; [|split; [cbn; naive_solver|by intros (? & ? & _)]..].
  rewrite !float_le_finite. split; [intros H; by exists q|by intros (q' & [= <-] & H)].
Qed.
Lemma half_open_iff x : float_lt (Finite 0) x && float_le x (Finite 1) = true <-> finite_with x (fun q => 0 < q <= 1)%Q.
Proof.
  rewrite andb_true_iff. destruct x as [q|[]|]; [|split; [cbn; naive_solver|by intros (? & ? & _)]..].
  rewrite float_lt_finite, float_le_finite. split; [intros H; by exists q|by intros (q' & [= <-] & H)].
Qed.

(** The samples that are asked for: [best_of], when given, takes the place of [n]. *)
Definition effective_n (p : Params) : Z := match o_best_of (options p) with Some b => b | None => c_n (counts p) end.
Definition zero_temperature (p : Params) : bool := match d_temperature (randomness p) with Finite q => Qeq_bool q 0 | _ => false end.
(** Infinities and NaN pass where the code only asks for a value that is not too small. *)
Definition not_below (x : Float) (P : Q -> Prop) : Prop := match x with Finite q => P q | Infinite negative => negative = false | NaN => True end.
Definition if_given (o : option Z) (P : Z -> Prop) : Prop := forall n, o = Some n -> P n.
Record acceptable (p : Params) : Prop := {
  ac_n : 1 <= effective_n p /\ c_n (counts p) <= effective_n p;
  ac_presence : finite_with (o_presence_penalty (options p)) (fun q => -(2) <= q <= 2)%Q;
  ac_frequency : finite_with (o_frequency_penalty (options p)) (fun q => -(2) <= q <= 2)%Q;
  ac_repetition : not_below (o_repetition_penalty (options p)) (fun q => 0 < q)%Q;
  ac_temperature : not_below (d_temperature (randomness p)) (fun q => 0 <= q)%Q;
  ac_top_p : finite_with (d_top_p (randomness p)) (fun q => 0 < q <= 1)%Q;
  ac_top_k : -1 <= d_top_k (randomness p);
  ac_min_p : finite_with (d_min_p (randomness p)) (fun q => 0 <= q <= 1)%Q;
  ac_max_tokens : if_given (c_max_tokens (counts p)) (fun m => 1 <= m /\ o_min_tokens (options p) <= m);
  ac_min_tokens : 0 <= o_min_tokens (options p);
  ac_logprobs : if_given (o_logprobs (options p)) (fun m => -1 <= m);
  ac_prompt_logprobs : if_given (o_prompt_logprobs (options p)) (fun m => 0 <= m);
  ac_truncate : if_given (o_truncate_prompt_tokens (options p)) (fun m => 1 <= m);
  ac_stop : ([] : text) ∉ normal_stop (s_stop (stops p));
  ac_detokenize : normal_stop (s_stop (stops p)) <> [] -> o_detokenize (options p) = true;
  ac_delta : o_output_kind (options p) = DELTA -> c_n (counts p) = effective_n p;
  ac_greedy : zero_temperature p = true -> effective_n p = 1 }.

(** What the constructor makes of them. *)
Definition warmed (t : Float) : Float := match t with Finite q => if Qle_bool q 0 || Qle_bool (1 # 100) q then Finite q else Finite (1 # 100) | _ => t end.
Definition settled (p : Params) : Params :=
  let o := options p in let c := counts p in let d := randomness p in let s := stops p in
  let stop := normal_stop (s_stop s) in let greedy := zero_temperature p in
  {| options := o;
     counts := {| c_n := effective_n p; c_real_n := match o_best_of o with Some _ => Some (c_n c) | None => None end;
                  c_max_tokens := c_max_tokens c; c_output_length := c_output_length c; c_prompt_length := c_prompt_length c |};
     randomness := {| d_temperature := warmed (d_temperature d); d_top_p := if greedy then Finite 1 else d_top_p d;
                      d_top_k := if greedy then 0 else d_top_k d; d_min_p := if greedy then Finite 0 else d_min_p d;
                      d_seed := normal_seed (d_seed d) |};
     stops := {| s_stop := Stops stop; s_stop_token_ids := Some (default [] (s_stop_token_ids s));
                 s_output_text_buffer_length := if is_nil stop || o_include_stop_str_in_output o then s_output_text_buffer_length s else longest stop - 1;
                 s_all_stop_token_ids := s_all_stop_token_ids s ∪ list_to_set (default [] (s_stop_token_ids s)) |};
     words := {| b_bad_words := Some (default [] (b_bad_words (words p))); b_token_ids := b_token_ids (words p) |};
     guided := guided p |}.

Lemma normal_warmed t : normal_temperature t = warmed t.
Proof.
  unfold normal_temperature, warmed, float_max, _MAX_TEMP. destruct t as [q|[]|]; cbn; [|done..]. destruct (Qle_bool q 0); cbn; [done|].
  by destruct (Qle_bool (1 # 100) q).
Qed.
(** Sampling is greedy for a temperature of zero only. *)
Lemma greedy_zero t : not_below t (fun q => 0 <= q)%Q ->
  float_lt (warmed t) _SAMPLING_EPS = match t with Finite q => Qeq_bool q 0 | _ => false end.
Proof.
  unfold warmed, _SAMPLING_EPS. destruct t as [q|[]|]; cbn [not_below]; intros H; [|done..].
  destruct (Qle_bool q 0) eqn:E; [|destruct (Qle_bool (1 # 100) q) eqn:E2]; cbn [orb]; apply eq_true_iff_eq; rewrite float_lt_finite, Qeq_bool_iff.
  - apply Qle_bool_iff in E. split; [intros _; by apply Qle_antisym|intros ->; done].
  - apply Qle_bool_iff in E2. split; intros H0; [exfalso|]; lra.
  - apply not_true_iff_false in E. rewrite Qle_bool_iff in E. split; intros H0; [discriminate H0|lra].
Qed.
Lemma warmed_again t : warmed (warmed t) = warmed t.
Proof. unfold warmed. destruct t as [q|[]|]; [|done..]. destruct (Qle_bool q 0 || Qle_bool (1 # 100) q) eqn:E; [by rewrite E|done]. Qed.
Lemma warmed_below t : float_lt (warmed t) (Finite 0) = float_lt t (Finite 0).
Proof.
  unfold warmed. destruct t as [q|[]|]; [|done..]. destruct (Qle_bool q 0) eqn:E; [done|]. destruct (Qle_bool (1 # 100) q) eqn:E2; [done|]. cbn.
  apply not_true_iff_false in E. rewrite Qle_bool_iff in E. symmetry. apply negb_false_iff, Qle_bool_iff. lra.
Qed.

(** *** The checks *)

Lemma refuse_then b (m : res unit) : (refuse b ;;! m) = Ok tt <-> b = false /\ m = Ok tt.
Proof. unfold refuse. destruct b; cbn; naive_solver. Qed.
Lemma refuse_last b : refuse b = Ok tt <-> b = false.
Proof. unfold refuse. destruct b; naive_solver. Qed.
Definition checked (m : res unit) : Prop := m = Ok tt \/ m = Raise ValueError.
Lemma refuse_checked b m : checked m -> checked (refuse b ;;! m).
Proof. unfold checked, refuse. by destruct b; cbn; auto. Qed.
Lemma verify_checked p : checked (_verify_args p).
Proof. unfold _verify_args. cbv zeta. repeat apply refuse_checked. unfold checked, refuse. destruct (_ && _); auto. Qed.

Lemma below_iff o n : below o n = false <-> if_given o (fun m => n <= m).
Proof. unfold below, if_given. destruct o as [x|]; [rewrite Z.ltb_ge|]; naive_solver. Qed.
Lemma no_empty_stop (l : list text) : existsb is_nil l = false <-> ([] : text) ∉ l.
Proof.
  induction l as [|[|c s] l IH]; cbn; [split; [by intros _ ?%elem_of_nil|done]| |]; rewrite elem_of_cons; [naive_solver|]. rewrite IH. naive_solver.
Qed.
Lemma repetition_iff x : float_le x (Finite 0) = false <-> not_below x (fun q => 0 < q)%Q.
Proof. destruct x as [q|[]|]; cbn; [|done..]. rewrite <-not_true_iff_false, Qle_bool_iff. split; [apply Qnot_le_lt|apply Qlt_not_le]. Qed.
Lemma temperature_iff x : float_lt x (Finite 0) = false <-> not_below x (fun q => 0 <= q)%Q.
Proof. destruct x as [q|[]|]; cbn; [|done..]. by rewrite negb_false_iff, Qle_bool_iff. Qed.

(** The parameters as the checks see them. *)
Definition prepared (p : Params) : Params :=
  normalise (set_n p (effective_n p) (match o_best_of (options p) with Some _ => Some (c_n (counts p)) | None => None end)).
Lemma best_of_used p : c_real_n (counts p) = None ->
  (o_best_of (options p) = Some 0 /\ use_best_of p = Ok p) \/
  (c_n (counts p) > effective_n p /\ use_best_of p = Raise ValueError) \/
  (o_best_of (options p) <> Some 0 /\ c_n (counts p) <= effective_n p /\ exists q, use_best_of p = Ok q /\ normalise q = prepared p).
Proof.
  intros Hr. unfold use_best_of, prepared, effective_n. rewrite Hr. destruct (o_best_of (options p)) as [b|]; cbn [truthy negb].
  - destruct (Z.eqb_spec b 0) as [->|Hb]; [by left|]. right. destruct (Z.ltb_spec b (c_n (counts p))); [left; split; [lia|done]|].
    right. split; [congruence|]. split; [lia|]. by eexists.
  - right. right. split; [done|]. split; [lia|]. exists p. split; [done|]. destruct p as [o [n r m ol pl] d s w g]. cbn in *. by rewrite Hr.
Qed.

Lemma logprobs_iff o : (match o with Some n => negb (n =? -1) && (n <? 0) | None => false end) = false <-> if_given o (fun m => -1 <= m).
Proof.
  unfold if_given. destruct o as [n|]; [|naive_solver]. rewrite andb_false_iff, negb_false_iff, Z.eqb_eq, Z.ltb_ge.
  split; [intros H m [= <-]; lia|intros H; specialize (H n eq_refl); lia].
Qed.
Lemma detokenize_iff (l : list text) b : negb (is_nil l) && negb b = false <-> (l <> [] -> b = true).
Proof. destruct l, b; cbn; naive_solver. Qed.
Lemma delta_iff p : negb (bool_decide (o_best_of (options p) = c_real_n (counts (prepared p)))) && bool_decide (o_output_kind (options p) = DELTA) = false <->
  (o_output_kind (options p) = DELTA -> c_n (counts p) = effective_n p).
Proof.
  unfold prepared, effective_n. cbn. rewrite andb_false_iff, negb_false_iff, bool_decide_eq_true, bool_decide_eq_false.
  destruct (o_best_of (options p)) as [b|]; destruct (decide (o_output_kind (options p) = DELTA)); naive_solver.
Qed.

(** The checks of [_verify_args] on the prepared parameters. *)
Lemma verify_prepared p : c_n (counts p) <= effective_n p ->
  (_verify_args (prepared p) = Ok tt /\ (zero_temperature p = true -> effective_n p = 1)) <-> acceptable p.
Proof.
  intros Hn. unfold _verify_args. cbv zeta. rewrite !refuse_then, refuse_last.
  change (options (prepared p)) with (options p). change (c_n (counts (prepared p))) with (effective_n p).
  change (c_max_tokens (counts (prepared p))) with (c_max_tokens (counts p)).
  change (d_top_p (randomness (prepared p))) with (d_top_p (randomness p)). change (d_top_k (randomness (prepared p))) with (d_top_k (randomness p)).
  change (d_min_p (randomness (prepared p))) with (d_min_p (randomness p)). change (normal_stop (s_stop (stops (prepared p)))) with (normal_stop (s_stop (stops p))).
  change (d_temperature (randomness (prepared p))) with (normal_temperature (d_temperature (randomness p))). rewrite normal_warmed, warmed_below, temperature_iff.
  rewrite !negb_false_iff, !between_iff, half_open_iff, repetition_iff, !below_iff, no_empty_stop, !Z.ltb_ge.
  rewrite logprobs_iff, detokenize_iff, delta_iff.
  assert (Hb : 1 <= effective_n p -> if_given (o_best_of (options p)) (fun m => 1 <= m) /\ if_given (o_best_of (options p)) (fun m => effective_n p <= m))
    by (unfold if_given, effective_n; destruct (o_best_of (options p)); naive_solver lia).
  assert (Hm : (if_given (c_max_tokens (counts p)) (fun m => 1 <= m) /\ if_given (c_max_tokens (counts p)) (fun m => o_min_tokens (options p) <= m)) <->
    if_given (c_max_tokens (counts p)) (fun m => 1 <= m /\ o_min_tokens (options p) <= m)) by (unfold if_given; naive_solver).
  split; [intros [(?&?&?&?&?&?&?&?&?&?&?&?&?&?&?&?&?&?&?) ?]; split; auto; by apply Hm|].
  intros [? ? ? ? ? ? ? ? Hmt ? ? ? ? ? ? ? ?]. apply Hm in Hmt. tauto.
Qed.

Lemma use_greedy_prepared p : not_below (d_temperature (randomness p)) (fun q => 0 <= q)%Q ->
  (let! q := use_greedy (prepared p) in Ok (add_stop_token_ids q (list_to_set (default [] (s_stop_token_ids (stops q))))))
  = if zero_temperature p && (1 <? effective_n p) then Raise ValueError else Ok (settled p).
Proof.
  intros Ht. unfold use_greedy, settled. change (d_temperature (randomness (prepared p))) with (normal_temperature (d_temperature (randomness p))).
  rewrite normal_warmed, (greedy_zero _ Ht). fold (zero_temperature p). rewrite <-normal_warmed. destruct (zero_temperature p); cbn [andb].
  - unfold _verify_greedy_sampling, refuse. cbn. destruct (1 <? effective_n p); [done|]. cbn.
    f_equal. unfold add_stop_token_ids, with_stops. cbn. by destruct (normal_stop _), (o_include_stop_str_in_output _).
  - cbn. f_equal. unfold add_stop_token_ids, with_stops. cbn. by destruct (normal_stop _), (o_include_stop_str_in_output _).
Qed.
Lemma post_init_eq p : c_real_n (counts p) = None ->
  (acceptable p -> post_init p = Ok (settled p)) /\ (~ acceptable p -> post_init p = Raise ValueError).
Proof.
  intros Hr. unfold post_init. destruct (best_of_used p Hr) as [[Hz ->]|[[Hn ->]|(Hz & Hn & q & -> & Hq)]]; cbn [bind].
  - split; [intros Ha; destruct (ac_n p Ha) as [H _]; unfold effective_n in H; rewrite Hz in H; lia|]. intros _.
    assert (H : _verify_args (normalise p) <> Ok tt).
    { unfold _verify_args. cbv zeta. rewrite !refuse_then, refuse_last. change (options (normalise p)) with (options p). rewrite Hz. cbn. naive_solver. }
    by destruct (verify_checked (normalise p)) as [?| ->].
  - split; [intros Ha; destruct (ac_n p Ha) as [_ H]; lia|done].
  - rewrite Hq. pose proof (verify_prepared p Hn) as Hv. split.
    + intros Ha. destruct (proj2 Hv Ha) as [-> Hg]. cbn [bind]. rewrite use_greedy_prepared by apply Ha.
      destruct (zero_temperature p); [|done]. by rewrite (Hg eq_refl).
    + intros Hna. destruct (verify_checked (prepared p)) as [E| ->]; [|done]. rewrite E. cbn [bind].
      assert (Ht : not_below (d_temperature (randomness p)) (fun q => 0 <= q)%Q).
      { unfold _verify_args in E. cbv zeta in E. rewrite !refuse_then in E. destruct E as (_&_&_&_&_&_&E&_).
        apply temperature_iff. rewrite <-warmed_below, <-normal_warmed. exact E. }
      rewrite use_greedy_prepared by done. destruct (zero_temperature p) eqn:Ez; cbn [andb].
      * destruct (Z.ltb_spec 1 (effective_n p)); [done|]. destruct Hna. apply Hv. split; [done|]. intros _.
        unfold _verify_args in E. cbv zeta in E. rewrite !refuse_then in E. destruct E as (E&_). apply Z.ltb_ge in E. cbn in E. lia.
      * destruct Hna. apply Hv. split; [done|congruence].
Qed.


Lemma normal_seed_again s : normal_seed (normal_seed s) = normal_seed s.
Proof. unfold normal_seed. destruct s as [z|]; [|done]. destruct (z =? -1) eqn:E; [done|by rewrite E]. Qed.
Lemma normalise_settled p : normalise (settled p) = settled p.
Proof.
  unfold normalise, with_words, with_stops, with_randomness. cbn -[normal_temperature normal_seed]. rewrite normal_warmed, warmed_again, normal_seed_again.
  unfold settled. cbn -[normal_temperature normal_seed]. f_equal. f_equal. destruct (normal_stop _); cbn; [done|]. by destruct (o_include_stop_str_in_output _).
Qed.
Lemma verify_settled p : acceptable p -> _verify_args (settled p) = Ok tt.
Proof.
  intros Ha. pose proof (proj2 (ac_n p Ha)) as Hn. destruct (proj2 (verify_prepared p Hn) Ha) as [E _]. revert E.
  unfold _verify_args. cbv zeta. rewrite !refuse_then, !refuse_last.
  change (normal_temperature (d_temperature (randomness p))) with (d_temperature (randomness (prepared p))) in *.
  assert (Ht : d_temperature (randomness (settled p)) = d_temperature (randomness (prepared p))) by (cbn; by rewrite normal_warmed). rewrite Ht.
  change (stops (settled p)) with (stops (settled p)).
  intros (?&?&?&?&?&?&?&?&?&?&?&?&?&?&?&?&?&?&?).
  repeat match goal with |- _ /\ _ => split end; try assumption; cbn; destruct (zero_temperature p); done.
Qed.
Lemma post_init_settled p : acceptable p -> c_n (counts p) <> 0 -> post_init (settled p) = Ok (settled p).
Proof.
  intros Ha Hn. unfold post_init.
  assert (use_best_of (settled p) = Ok (settled p)) as ->.
  { unfold use_best_of. cbn [settled options counts c_n c_real_n]. pose proof (ac_n p Ha) as [H1 H2]. unfold effective_n in *.
    destruct (o_best_of (options p)) as [b|]; [|done]. destruct (Z.eqb_spec b 0); [done|]. rewrite Z.ltb_irrefl. cbn.
    by rewrite (proj2 (Z.eqb_neq _ _) Hn). }
  cbn [bind]. rewrite normalise_settled, verify_settled by done. cbn [bind].
  assert (use_greedy (settled p) = Ok (settled p)) as ->.
  { unfold use_greedy. cbn [settled randomness d_temperature]. rewrite greedy_zero by apply Ha. fold (zero_temperature p).
    destruct (zero_temperature p) eqn:Ez; [|done]. unfold _verify_greedy_sampling, refuse. cbn. rewrite (ac_greedy p Ha Ez). cbn.
    unfold settled. rewrite Ez. by rewrite (ac_greedy p Ha Ez). }
  cbn [bind]. f_equal. unfold add_stop_token_ids, with_stops. cbn. unfold settled at 1. do 2 f_equal. set_solver.
Qed.

(** C13. The constructor of the sampling parameters (called without the private
    [_real_n]) takes exactly the [acceptable] ones, with [best_of], if given, in the place
    of [n], and raises [ValueError] on all others.  Acceptable is what the comparisons of
    the code do not refuse: presence and frequency penalty, [top_p] and [min_p] are
    numbers in their ranges; the repetition penalty and the temperature are not zero or
    less and not below zero, which lets NaN and infinity pass (see
    [nan_temperature_taken]); the limits on tokens fit each other; stop strings are not
    empty and come with detokenization; and sampling at temperature zero has one sample.
    What the constructor makes of them is [settled]: a small temperature is raised,
    temperature zero turns the filters off, and the text held back is one character less
    than the longest stop string, unless there is no stop string or it is part of the
    output.  To check them once more, as decoding a message does, changes nothing unless
    [n] was 0 and [best_of] was given (see [no_samples_taken]). *)
Theorem sampling_params_ok p : c_real_n (counts p) = None ->
  (acceptable p -> post_init p = Ok (settled p) /\ (c_n (counts p) <> 0 -> post_init (settled p) = Ok (settled p))) /\
  (~ acceptable p -> post_init p = Raise ValueError).
Proof.
  intros Hr. destruct (post_init_eq p Hr) as [H1 H2]. split; [|done]. intros Ha. split; [by apply H1|]. intros Hn. by apply post_init_settled.
Qed.

(** ** The updates *)

(** Every end token of the generation config stops the request, the first one by
    itself; all of them are known to the processors of the logits. *)
Lemma generation_config_stops p g e :
  let q := update_from_generation_config p g e in
  s_all_stop_token_ids (stops q) = s_all_stop_token_ids (stops p) ∪ (match e with Some e => {[e]} | None => ∅ end) ∪ (match g with Some g => eos_set g | None => ∅ end) /\
  (forall id, id ∈ default [] (s_stop_token_ids (stops q)) <-> id ∈ default [] (s_stop_token_ids (stops p)) \/
     (o_ignore_eos (options p) = false /\ exists g', g = Some g' /\ id ∈ eos_set g' /\ e <> Some id)).
Proof.
  cbv zeta. unfold update_from_generation_config. set (own := match e with Some e => {[e]} | None => ∅ end).
  assert (Hown : forall id, id ∈ own <-> e = Some id) by (intros id; unfold own; destruct e; set_solver).
  set (p1 := match e with Some e => add_stop_token_ids p {[e]} | None => p end).
  assert (H1 : s_all_stop_token_ids (stops p1) = s_all_stop_token_ids (stops p) ∪ own) by (unfold p1, own; destruct e; [done|cbn; set_solver]).
  assert (H2 : s_stop_token_ids (stops p1) = s_stop_token_ids (stops p)) by (unfold p1; by destruct e).
  assert (H3 : options p1 = options p) by (unfold p1; by destruct e).
  destruct g as [g|]; [|rewrite H1, H2; split; [set_solver|naive_solver]].
  case_bool_decide as Hempty.
  - rewrite H1, H2. assert (Hsub : forall x, x ∈ eos_set g -> x ∈ own).
    { intros x Hx. destruct (decide (x ∈ own)); [done|]. destruct (not_elem_of_empty (C := gset Z) x). rewrite <-Hempty. by apply elem_of_difference. }
    split; [apply leibniz_equiv; intros x; rewrite !elem_of_union; naive_solver|].
    intros id. split; [tauto|]. intros [?|(_ & g' & [= <-] & Hin & Hne)]; [done|]. by apply Hsub, Hown in Hin.
  - cbn [options add_stop_token_ids with_stops]. rewrite H3. assert (Hall : s_all_stop_token_ids (stops p) ∪ own ∪ (eos_set g ∖ own) = s_all_stop_token_ids (stops p) ∪ own ∪ eos_set g).
    { apply leibniz_equiv. intros x. rewrite !elem_of_union, elem_of_difference. destruct (decide (x ∈ own)); tauto. }
    destruct (o_ignore_eos (options p)).
    + cbn. rewrite H1, H2. split; [done|]. naive_solver.
    + cbn. rewrite H1, H2. split; [done|]. intros id. rewrite elem_of_elements, elem_of_union, elem_of_difference, elem_of_list_to_set, Hown. naive_solver.
Qed.

(** The token ids of bad words are in the vocabulary, and each word is among them. *)
Lemma bad_words_fold tok ws : forall acc out, res_fold (bad_word_ids tok) ws acc = Ok out ->
  (forall l, l ∈ acc -> l ∈ out) /\ forall w, w ∈ ws -> wt_encode tok (lstrip w) ∈ out.
Proof.
  induction ws as [|w ws IH]; cbn; intros acc out H; [injection H as <-; split; [done|by intros w ?%elem_of_nil]|].
  apply bind_ok in H as (acc' & Ew & [H1 H2]%IH). unfold bad_word_ids in Ew. inv_res Ew.
  assert (Hsub : forall l, l ∈ acc \/ l = wt_encode tok (lstrip w) -> l ∈ out).
  { intros l Hl. apply H1. subst acc'. destruct (negb _ && _); rewrite !elem_of_app, ?list_elem_of_singleton; tauto. }
  split; [intros l ?; apply Hsub; by left|]. intros w' [->|?]%elem_of_cons; [apply Hsub; by right|by apply H2].
Qed.
Lemma tokenizer_update_ok p tok q : update_from_tokenizer p tok = Ok q ->
  options q = options p /\ counts q = counts p /\ randomness q = randomness p /\ stops q = stops p /\ guided q = guided p /\
  (default [] (b_bad_words (words p)) <> [] -> exists ids, b_token_ids (words q) = Some ids /\
     (forall l t, l ∈ ids -> t ∈ l -> 0 <= t <= wt_max_token_id tok) /\
     (forall w, w ∈ default [] (b_bad_words (words p)) -> wt_encode tok (lstrip w) ∈ ids)).
Proof.
  unfold update_from_tokenizer. destruct (default [] (b_bad_words (words p))) as [|w ws] eqn:Ew.
  { intros [= <-]. by repeat (split; [done|]). }
  intros (ids & Ef & H)%bind_ok. apply bind_ok in H as ([] & Hb%refuse_last & [= <-]). repeat (split; [done|]). intros _. exists ids. split; [done|]. split.
  - intros l t Hl Ht. apply not_true_iff_false in Hb. rewrite existsb_exists in Hb.
    destruct (decide (0 <= t <= wt_max_token_id tok)) as [?|Hne]; [done|]. destruct Hb. exists l. split; [by apply list_elem_of_In|].
    apply existsb_exists. exists t. split; [by apply list_elem_of_In|]. rewrite orb_true_iff, !Z.ltb_lt. lia.
  - by apply (bad_words_fold tok _ _ _ Ef).
Qed.

(** ** Examples *)

Definition default_options : Options :=
  {| o_best_of := None; o_presence_penalty := Finite 0; o_frequency_penalty := Finite 0; o_repetition_penalty := Finite 1; o_ignore_eos := false;
     o_min_tokens := 0; o_logprobs := None; o_prompt_logprobs := None; o_detokenize := true; o_skip_special_tokens := true;
     o_spaces_between_special_tokens := true; o_has_logits_processors := false; o_include_stop_str_in_output := false;
     o_truncate_prompt_tokens := None; o_output_kind := CUMULATIVE; o_logit_bias := None; o_allowed_token_ids := None; o_steps := 128;
     o_gen_length := 128; o_block_length := 32; o_cfg_scale := Finite 0; o_remasking := "low_confidence"; o_mask_id := 126336;
     o_token_step_schedule := None |}.
Definition default_counts : Counts := {| c_n := 1; c_real_n := None; c_max_tokens := Some 16; c_output_length := None; c_prompt_length := None |}.
Definition default_randomness : Randomness := {| d_temperature := Finite 1; d_top_p := Finite 1; d_top_k := 0; d_min_p := Finite 0; d_seed := None |}.
Definition default_stops : StopRules := {| s_stop := NoStop; s_stop_token_ids := None; s_output_text_buffer_length := 0; s_all_stop_token_ids := ∅ |}.
Definition default_params : Params :=
  {| options := default_options; counts := default_counts; randomness := default_randomness; stops := default_stops;
     words := {| b_bad_words := None; b_token_ids := None |}; guided := None |}.
(** A low temperature and two stop strings. *)
Definition cold_params : Params :=
  with_stops (with_randomness default_params {| d_temperature := Finite (1 # 1000); d_top_p := Finite (9 # 10); d_top_k := 40; d_min_p := Finite 0; d_seed := Some (-1) |})
    {| s_stop := Stops [[10]; [35; 35; 35]]; s_stop_token_ids := Some [2; 7]; s_output_text_buffer_length := 0; s_all_stop_token_ids := ∅ |}.
Lemma cold_acceptable : acceptable cold_params.
Proof.
  split; try (cbn; unfold if_given; naive_solver lia); try (cbn; eexists; split; [reflexivity|split; vm_compute; congruence]); try (vm_compute; congruence).
  cbn. rewrite !elem_of_cons. intros [?|[?|?%elem_of_nil]]; congruence.
Qed.
Lemma sampling_params_ok_witness : acceptable cold_params /\ post_init cold_params = Ok (settled cold_params) /\
  d_temperature (randomness (settled cold_params)) = Finite (1 # 100) /\ s_output_text_buffer_length (stops (settled cold_params)) = 2.
Proof. split; [exact cold_acceptable|]. split; [exact (proj1 (proj1 (sampling_params_ok cold_params eq_refl) cold_acceptable))|]. by split. Defined.

(** A temperature and a repetition penalty that are not numbers pass all checks. *)
Definition nan_params : Params :=
  with_randomness default_params {| d_temperature := NaN; d_top_p := Finite 1; d_top_k := 0; d_min_p := Finite 0; d_seed := None |}.
Lemma nan_temperature_taken : exists q, post_init nan_params = Ok q /\ d_temperature (randomness q) = NaN.
Proof. eexists. split; [vm_compute; reflexivity|done]. Qed.
(** No samples at all are refused, unless [best_of] takes their place; and then the
    parameters change when they are checked again. *)
Lemma no_samples_taken : exists q q', post_init (set_n default_params 0 None) = Raise ValueError /\
  let p := {| options := {| o_best_of := Some 1; o_presence_penalty := Finite 0; o_frequency_penalty := Finite 0; o_repetition_penalty := Finite 1;
                o_ignore_eos := false; o_min_tokens := 0; o_logprobs := None; o_prompt_logprobs := None; o_detokenize := true;
                o_skip_special_tokens := true; o_spaces_between_special_tokens := true; o_has_logits_processors := false;
                o_include_stop_str_in_output := false; o_truncate_prompt_tokens := None; o_output_kind := CUMULATIVE; o_logit_bias := None;
                o_allowed_token_ids := None; o_steps := 128; o_gen_length := 128; o_block_length := 32; o_cfg_scale := Finite 0;
                o_remasking := "low_confidence"; o_mask_id := 126336; o_token_step_schedule := None |};
              counts := {| c_n := 0; c_real_n := None; c_max_tokens := Some 16; c_output_length := None; c_prompt_length := None |};
              randomness := default_randomness; stops := default_stops; words := {| b_bad_words := None; b_token_ids := None |}; guided := None |} in
  post_init p = Ok q /\ c_n (counts q) = 1 /\ c_real_n (counts q) = Some 0 /\ post_init q = Ok q' /\ c_real_n (counts q') = Some 1.
Proof. eexists _, _. split; [vm_compute; reflexivity|]. cbn zeta. repeat split; vm_compute; reflexivity. Qed.
(** A bad word of nothing but white space has no first token. *)
Lemma blank_bad_word tok acc w : forallb is_space w = true -> wt_encode tok [] = [] -> bad_word_ids tok acc w = Raise IndexError.
Proof.
  intros Hw He. assert (lstrip w = []) as E by (induction w as [|c w IH]; cbn in *; [done|]; apply andb_prop in Hw as [-> Hw]; by apply IH).
  unfold bad_word_ids. rewrite E, He. by destruct (head (wt_encode tok [32])).
Qed.
