(* ===== verification/InputProcessor.v ===== *)
(** * From the caller to the engine

    [Processor] of [vllm/v1/engine/processor.py] with the merging of multi-modal inputs
    of [vllm/multimodal/utils.py], [Request.from_engine_core_request],
    [EngineCore.preprocess_add_request] and [LLMEngine.add_request]: what the caller
    passes is checked, completed and handed to both sides of the engine.  The tokenizer,
    the preprocessing of a prompt and the grammar checkers are parameters; encoder
    inputs are left out, the engine refuses them. *)

From stdpp Require Import base gmap strings list fin_sets.
From Stdlib Require Import ZArith QArith Lia.
From S2P Require Import Prelude Request SchedulerTypes Detokenizer TextDecoders Completions OutputProcessor FrontEnd MMCache SamplingParams.
Open Scope list_scope.
Open Scope Z_scope.

(** ** Merging the modalities of a prompt *)

(** Items in the order of their offsets, equal ones in the order of arrival. *)
Definition MMItem : Type := string * (Z * Z) * option string.
Fixpoint insert_item (x : MMItem) (l : list MMItem) : list MMItem :=
  match l with
  | [] => [x]
  | y :: l' => if x.1.2.1 <? y.1.2.1 then x :: l else y :: insert_item x l'
  end.
Definition sort_items (l : list MMItem) : list MMItem := fold_left (fun acc x => insert_item x acc) l [].
(** The items of one modality; without hashes for it each has [None]. *)
Definition modality_items (mm_hashes : option (list (string * list string))) (e : string * list (Z * Z)) : list MMItem :=
  let hash_list := match mm_hashes ≫= fun h => dict_get h e.1 with Some l => map Some l | None => repeat None (length e.2) end in
  zip_with (fun p h => (e.1, p, h)) e.2 hash_list.
(** [str(None)] for a hash that is missing *)
Definition str_hash (h : option string) : string := default "None" h.
(** [merge_and_sort_multimodal_metadata] *)
Definition merge_and_sort_multimodal_metadata (mm_positions : list (string * list (Z * Z))) (mm_hashes : option (list (string * list string))) :
    res (list string * list (Z * Z) * option (list string)) :=
  match mm_positions with
  | [] => Raise AssertionError
  | [(modality, placeholders)] =>
      let! hashes := match mm_hashes with
                     | None | Some [] => Ok None
                     | Some h => let! l := of_option KeyError (dict_get h modality) in Ok (Some l)
                     end in
      Ok (repeat modality (length placeholders), placeholders, hashes)
  | _ =>
      let all_items := sort_items (concat (map (modality_items mm_hashes) mm_positions)) in
      Ok (map (fun i => i.1.1) all_items, map (fun i => i.1.2) all_items,
          match mm_hashes with Some _ => Some (map (fun i => str_hash i.2) all_items) | None => None end)
  end.

Section items.
Context {W : Type}.
(** What the multi-modal processor found: placeholders and hashes per modality, and
    [get_items]. *)
Record MultiModalInputs : Type := {
  mm_placeholders : list (string * list (Z * Z));
  mm_hash_dict : option (list (string * list string));
  get_items : string -> list W }.
(** One item after the other, with a counter per modality. *)
Fixpoint pick_items (items : string -> list W) (used_indices : string -> nat) (modalities : list string) : res (list W) :=
  match modalities with
  | [] => Ok []
  | m :: modalities =>
      let! item := of_option IndexError (items m !! used_indices m) in
      let! rest := pick_items items (fun m' => if decide (m' = m) then S (used_indices m) else used_indices m') modalities in
      Ok (item :: rest)
  end.
Definition sorted_inputs (items : string -> list W) (modalities : list string) : res (list W) :=
  if (1 <? size (list_to_set modalities : gset string))%nat then pick_items items (fun _ => 0%nat) modalities
  else let! m := of_option IndexError (head modalities) in Ok (items m).
End items.
Arguments MultiModalInputs W : clear implicits.

(** ** The processor *)

Record ModelSettings : Type := {
  max_model_len : Z;
  max_logprobs : Z;
  vocab_size : Z;
  skip_tokenizer_init : bool;
  generation_eos : option EosIds;
  return_mm_hashes : bool;
  lora_enabled : bool;
  decoding_backend : option string;
  data_parallel_size : Z }.
(** The decoder inputs of a processed prompt. *)
Record Inputs (W : Type) : Type := {
  in_prompt : option text;
  in_prompt_token_ids : list Z;
  in_cache_salt : option string;
  in_multimodal : option (MultiModalInputs W) }.
Arguments in_prompt {W} _. Arguments in_prompt_token_ids {W} _. Arguments in_cache_salt {W} _. Arguments in_multimodal {W} _.
(** [EngineCoreRequest]; of [PoolingParams] only the output kind is read. *)
Record EngineCoreRequest (W : Type) : Type := {
  er_request_id : string;
  er_prompt_token_ids : list Z;
  er_mm_inputs : option (list (option W));
  er_mm_hashes : option (list string);
  er_mm_placeholders : option (list (Z * Z));
  er_sampling_params : option Params;
  er_pooling_kind : option RequestOutputKind;
  er_eos_token_id : option Z;
  er_arrival_time : Q;
  er_lora_request : option Z;
  er_cache_salt : option string;
  er_data_parallel_rank : option Z;
  er_priority : Z }.
Arguments er_request_id {W} _. Arguments er_prompt_token_ids {W} _. Arguments er_mm_inputs {W} _. Arguments er_mm_hashes {W} _.
Arguments er_mm_placeholders {W} _. Arguments er_sampling_params {W} _. Arguments er_pooling_kind {W} _. Arguments er_eos_token_id {W} _.
Arguments er_arrival_time {W} _. Arguments er_lora_request {W} _. Arguments er_cache_salt {W} _. Arguments er_data_parallel_rank {W} _.
Arguments er_priority {W} _.

Section processor.
Context {L : Cachetools} {W : Type} (get_item_size : W -> Z) (cfg : ModelSettings).
(** [get_lora_tokenizer], when there are tokenizers; the end token. *)
Context (tokenizer : option (option Z -> WordTokenizer)) (get_eos_token_id : option Z -> option Z).
(** [validate_xgrammar_grammar] and the like: they may rewrite the parameters, also
    when they raise. *)
Context (validate_xgrammar validate_guidance validate_outlines : Guided -> Guided * res unit).
Context {Prompt : Type} (preprocess : Prompt -> option Z -> res (Inputs W)).

Definition above (o : option Z) (limit : Z) : bool := match o with Some n => truthy o && (limit <? n) | None => false end.
Definition _validate_logprobs (p : Params) : res unit :=
  if max_logprobs cfg =? -1 then Ok tt
  else
    refuse (bool_decide (o_logprobs (options p) = Some (-1)) || above (o_logprobs (options p)) (max_logprobs cfg)) ;;!
    refuse (above (o_prompt_logprobs (options p)) (max_logprobs cfg)).
Definition set_backend (g : Guided) (backend : string) (was_auto : bool) : Guided :=
  {| gd_json := gd_json g; gd_regex := gd_regex g; gd_choice := gd_choice g; gd_grammar := gd_grammar g; gd_json_object := gd_json_object g;
     gd_backend := Some backend; gd_backend_was_auto := was_auto; gd_disable_fallback := gd_disable_fallback g;
     gd_disable_any_whitespace := gd_disable_any_whitespace g; gd_disable_additional_properties := gd_disable_additional_properties g;
     gd_whitespace_pattern := gd_whitespace_pattern g; gd_structural_tag := gd_structural_tag g |}.
Definition run_validator (validate : Guided -> Guided * res unit) (g : Guided) : res Guided := let '(g, r) := validate g in r ;;! Ok g.
(** Try one grammar checker, fall back to the other. *)
Definition validate_auto (g : Guided) : res Guided :=
  let! g := match validate_xgrammar g with
            | (g, Ok _) => Ok (set_backend g "xgrammar" (gd_backend_was_auto g))
            | (g, Raise ValueError) => let! g := run_validator validate_guidance g in Ok (set_backend g "guidance" (gd_backend_was_auto g))
            | (_, Raise e) => Raise e
            end in
  Ok (set_backend g (default ""%string (gd_backend g)) true).
Definition _validate_structured_output (p : Params) : res Params :=
  match guided p, decoding_backend cfg with
  | Some g, Some engine_level_backend =>
      refuse (skip_tokenizer_init cfg) ;;!
      (let! g := match gd_backend g with
                 | None | Some ""%string => Ok (set_backend g engine_level_backend (gd_backend_was_auto g))
                 | Some backend =>
                     refuse (negb (bool_decide (backend = engine_level_backend)) &&
                             negb (bool_decide (engine_level_backend = "auto"%string) && gd_backend_was_auto g)) ;;! Ok g
                 end in
       refuse (match gd_choice g with Some [] => true | _ => false end) ;;!
       (let! g := if String.prefix "xgrammar" engine_level_backend then run_validator validate_xgrammar g
                  else if String.prefix "guidance" engine_level_backend then run_validator validate_guidance g
                  else if bool_decide (engine_level_backend = "outlines"%string) then run_validator validate_outlines g
                  else validate_auto g in
        Ok (with_guided p (Some g))))
  | _, _ => Ok p
  end.
Definition outside (n : Z) (id : Z) : bool := (id <? 0) || (n <=? id).
Definition _validate_logit_bias (p : Params) : res unit :=
  refuse (existsb (outside (vocab_size cfg)) (map fst (default [] (o_logit_bias (options p))))).
Definition _validate_sampling_params (p : Params) (lora_request : option Z) : res Params :=
  let! p := _validate_structured_output p in
  _validate_logit_bias p ;;!
  match o_allowed_token_ids (options p) with
  | None => Ok p
  | Some ids =>
      refuse (is_nil ids) ;;!
      match tokenizer with
      | None => Ok p
      | Some get_lora_tokenizer => refuse (existsb (outside (wt_len (get_lora_tokenizer lora_request))) ids) ;;! Ok p
      end
  end.
Definition _validate_supported_sampling_params (p : Params) : res unit :=
  refuse (match o_best_of (options p) with Some n => 1 <? n | None => false end) ;;!
  refuse (o_has_logits_processors (options p)).
(** The parameters with the grammar as the checkers left it. *)
Definition _validate_params (params : Params + RequestOutputKind) (lora_request : option Z) : res (Params + RequestOutputKind) :=
  match params with
  | inr k => Ok (inr k)
  | inl p =>
      _validate_logprobs p ;;!
      (let! p := _validate_sampling_params p lora_request in
       _validate_supported_sampling_params p ;;! Ok (inl p))
  end.
Definition _validate_lora (lora_request : option Z) : res unit := refuse (given lora_request && negb (lora_enabled cfg)).

(** [max(prompt_ids, default=0)] *)
Definition max_input_id (ids : list Z) : Z := match ids with [] => 0 | x :: ids => fold_left Z.max ids x end.
(** [_validate_model_input] of a decoder prompt *)
Definition _validate_model_input (prompt_ids : list Z) (lora_request : option Z) : res unit :=
  refuse (is_nil prompt_ids) ;;!
  (if skip_tokenizer_init cfg then Ok tt
   else
     let! get_lora_tokenizer := of_option AttributeError tokenizer in
     refuse (wt_max_token_id (get_lora_tokenizer lora_request) <? max_input_id prompt_ids)) ;;!
  refuse (max_model_len cfg <? Z.of_nat (length prompt_ids)).

Definition set_max_tokens (p : Params) (n : Z) : Params :=
  let c := counts p in
  with_counts p {| c_n := c_n c; c_real_n := c_real_n c; c_max_tokens := Some n; c_output_length := c_output_length c; c_prompt_length := c_prompt_length c |}.
Definition set_lengths (p : Params) (prompt_length : Z) : Params :=
  let c := counts p in
  with_counts p {| c_n := c_n c; c_real_n := c_real_n c; c_max_tokens := c_max_tokens c;
                   c_output_length := Some (default (o_gen_length (options p)) (c_output_length c)); c_prompt_length := Some prompt_length |}.
(** The copy of the parameters that goes into the request. *)
Definition complete_params (p : Params) (prompt_ids : list Z) (eos_token_id lora_request : option Z) : res Params :=
  let n := Z.of_nat (length prompt_ids) in
  let p := match c_max_tokens (counts p) with None => set_max_tokens p (max_model_len cfg - n) | Some _ => p end in
  let p := update_from_generation_config p (generation_eos cfg) eos_token_id in
  let! p := match tokenizer with Some get_lora_tokenizer => update_from_tokenizer p (get_lora_tokenizer lora_request) | None => Ok p end in
  Ok (set_lengths p n).
(** Inputs, hashes and placeholders for the engine core. *)
Definition process_mm (c : InputCacheClient) (m : MultiModalInputs W) :
    InputCacheClient * res (list (option W) * option (list string) * list (Z * Z)) :=
  match merge_and_sort_multimodal_metadata (mm_placeholders m) (if return_mm_hashes cfg then mm_hash_dict m else None) with
  | Raise e => (c, Raise e)
  | Ok (modalities, positions, hashes) =>
      match sorted_inputs (get_items m) modalities with
      | Raise e => (c, Raise e)
      | Ok inputs => let '(c, r) := send_mm_inputs get_item_size c inputs hashes in (c, let! inputs := r in Ok (inputs, hashes, positions))
      end
  end.

(** Everything of [process_inputs] in front of the multi-modal inputs. *)
Definition checked_inputs (prompt : Prompt) (params : Params + RequestOutputKind) (lora_request : option Z) (trace_headers : bool)
    (data_parallel_rank : option Z) : res ((Params + RequestOutputKind) * Inputs W * (Params + RequestOutputKind)) :=
  _validate_lora lora_request ;;!
  (let! params := _validate_params params lora_request in
   refuse trace_headers ;;!
   refuse (match data_parallel_rank with Some r => outside (data_parallel_size cfg) r | None => false end) ;;!
   (let! inputs := preprocess prompt lora_request in
    _validate_model_input (in_prompt_token_ids inputs) lora_request ;;!
    (let! completed := match params with
                       | inl p => let! p := complete_params p (in_prompt_token_ids inputs) (get_eos_token_id lora_request) lora_request in Ok (inl p)
                       | inr k => Ok (inr k)
                       end in
     Ok (params, inputs, completed)))).
(** The parameters of the caller as they are left, the prompt and the request. *)
Definition process_inputs (c : InputCacheClient) (request_id : string) (prompt : Prompt) (params : Params + RequestOutputKind) (arrival_time : Q)
    (lora_request : option Z) (trace_headers : bool) (priority : Z) (data_parallel_rank : option Z) :
    InputCacheClient * res ((Params + RequestOutputKind) * option text * EngineCoreRequest W) :=
  match checked_inputs prompt params lora_request trace_headers data_parallel_rank with
  | Raise e => (c, Raise e)
  | Ok (params, inputs, completed) =>
      let '(c, mm) := match in_multimodal inputs with
                      | None => (c, Ok None)
                      | Some m => let '(c, r) := process_mm c m in (c, let! r := r in Ok (Some r))
                      end in
      (c, let! mm := mm in
          Ok (params, in_prompt inputs,
              {| er_request_id := request_id; er_prompt_token_ids := in_prompt_token_ids inputs;
                 er_mm_inputs := (fun r => r.1.1) <$> mm; er_mm_hashes := mm ≫= fun r => r.1.2; er_mm_placeholders := snd <$> mm;
                 er_sampling_params := match completed with inl p => Some p | inr _ => None end;
                 er_pooling_kind := match completed with inl _ => None | inr k => Some k end;
                 er_eos_token_id := get_eos_token_id lora_request; er_arrival_time := arrival_time; er_lora_request := lora_request;
                 er_cache_salt := in_cache_salt inputs; er_data_parallel_rank := data_parallel_rank; er_priority := priority |}))
  end.
End processor.

(** ** The engine core's view *)

(** A float of the request as the runner's rational; [numeric] parameters have no
    other floats. *)
Definition float_value (f : Float) : Q := match f with Finite q => q | _ => 0%Q end.
Definition is_finite (f : Float) : Prop := exists q, f = Finite q.
Record numeric (p : Params) : Prop := {
  nu_repetition : is_finite (o_repetition_penalty (options p));
  nu_temperature : is_finite (d_temperature (randomness p));
  nu_bias : Forall (fun e => is_finite e.2) (default [] (o_logit_bias (options p))) }.
(** The fields that the scheduler and the runner read. *)
Definition core_sampling (p : Params) : SamplingParams :=
  let o := options p in let d := randomness p in
  {| sp_max_tokens := c_max_tokens (counts p); ignore_eos := o_ignore_eos o; stop_token_ids := s_stop_token_ids (stops p);
     prompt_logprobs := o_prompt_logprobs o; guided_decoding := given (guided p); sp_temperature := float_value (d_temperature d);
     sp_top_p := float_value (d_top_p d); sp_top_k := d_top_k d; sp_min_p := float_value (d_min_p d);
     sp_frequency_penalty := float_value (o_frequency_penalty o); sp_presence_penalty := float_value (o_presence_penalty o);
     sp_repetition_penalty := float_value (o_repetition_penalty o); sp_seed := d_seed d; sp_logprobs := o_logprobs o;
     sp_min_tokens := o_min_tokens o; sp_all_stop_token_ids := elements (s_all_stop_token_ids (stops p));
     sp_logit_bias := map (fun e => (e.1, float_value e.2)) (default [] (o_logit_bias o));
     sp_allowed_token_ids := default [] (o_allowed_token_ids o); sp_bad_words_token_ids := default [] (b_token_ids (words p)) |}.
(** The fields that the front end reads. *)
Definition output_params (p : Params) : OutputParams :=
  let o := options p in
  {| op_n := Z.to_nat (c_n (counts p)); op_output_kind := o_output_kind o; op_detokenize := o_detokenize o; op_stop := normal_stop (s_stop (stops p));
     op_include_stop_str_in_output := o_include_stop_str_in_output o; op_skip_special_tokens := o_skip_special_tokens o;
     op_spaces_between_special_tokens := o_spaces_between_special_tokens o; op_seed := d_seed (randomness p); op_logprobs := o_logprobs o;
     op_prompt_logprobs := o_prompt_logprobs o |}.
(** [copy(params)] with [n = 1] and the seed that the parent gave. *)
Definition child_sampling (p : Params) (q : OutputParams) : Params := set_seed (set_n p 1 (c_real_n (counts p))) (op_seed q).

Section core.
Context {L : Cachetools} {W : Type} (get_item_size : W -> Z).

Definition front_view (r : EngineCoreRequest W) : FrontRequest :=
  {| fr_request_id := er_request_id r; fr_prompt_token_ids := er_prompt_token_ids r;
     fr_sampling_params := output_params <$> er_sampling_params r; fr_pooling_kind := er_pooling_kind r |}.
(** [Request.from_engine_core_request] of a request whose inputs are all there, for
    the client 0. *)
Definition from_engine_core_request (r : EngineCoreRequest W) (mm_inputs : list W) : res Request :=
  make_request (er_request_id r) (er_prompt_token_ids r) (length mm_inputs) (map Some (default [] (er_mm_hashes r)))
    (default [] (er_mm_placeholders r)) (core_sampling <$> er_sampling_params r) (given (er_pooling_kind r)) (er_eos_token_id r) 0
    (er_arrival_time r) (er_lora_request r) (er_cache_salt r) (er_priority r).
(** [EngineCore.preprocess_add_request]; the grammar starts to compile elsewhere. *)
Definition preprocess_add_request (s : InputCacheServer) (r : EngineCoreRequest W) : InputCacheServer * res Request :=
  match er_mm_inputs r with
  | None => (s, match er_mm_hashes r with Some _ => Raise AssertionError | None => from_engine_core_request r [] end)
  | Some inputs => let '(s, got) := receive_mm_inputs get_item_size s inputs (er_mm_hashes r) in (s, let! inputs := got in from_engine_core_request r inputs)
  end.

(** ** [LLMEngine.add_request] *)

Section engine.
Context {D : Type} `{!TextDecoder D} (new_detokenizer : bool -> list Z -> OutputParams -> res (Detokenizer D)) (has_tokenizer : bool).
Context {C M : Type} {E : EngineCore C Request M}.
Notation Engine := (LLMEngine D C).

(** The request as [view] goes to the output processor, the request itself to the core. *)
Definition submit_request (s : InputCacheServer) (e : Engine) (view : FrontRequest) (r : EngineCoreRequest W) (prompt : option text)
    (parent_req : option nat) (request_index : nat) : InputCacheServer * res Engine :=
  match processor_add_request new_detokenizer has_tokenizer (output_processor e) view prompt parent_req request_index None with
  | Raise x => (s, Raise x)
  | Ok o =>
      let '(s, req) := preprocess_add_request s r in
      (s, let! req := req in let! c := core_add_request (engine_core e) req in Ok {| output_processor := o; engine_core := c |})
  end.
(** [copy(request)] with the id and the parameters of a child *)
Definition child_core_request (r : EngineCoreRequest W) (request_id : string) (params : Params) : EngineCoreRequest W :=
  {| er_request_id := request_id; er_prompt_token_ids := er_prompt_token_ids r; er_mm_inputs := er_mm_inputs r; er_mm_hashes := er_mm_hashes r;
     er_mm_placeholders := er_mm_placeholders r; er_sampling_params := Some params; er_pooling_kind := er_pooling_kind r;
     er_eos_token_id := er_eos_token_id r; er_arrival_time := er_arrival_time r; er_lora_request := er_lora_request r;
     er_cache_salt := er_cache_salt r; er_data_parallel_rank := er_data_parallel_rank r; er_priority := er_priority r |}.
(** The children get copies of the caller's parameters [p], not of the completed ones. *)
Fixpoint submit_children (p : Params) (r : EngineCoreRequest W) (prompt : option text) (k : nat) (idxs : list nat) (s : InputCacheServer) (e : Engine) :
    InputCacheServer * res Engine :=
  match idxs with
  | [] => (s, Ok e)
  | idx :: idxs =>
      let o := output_processor e in
      match parents o !! k with
      | None => (s, Raise AttributeError)
      | Some parent =>
          let '(request_id, q, parent) := get_child_info parent idx in
          let e := {| output_processor := with_parents o (<[k := parent]> (parents o)); engine_core := engine_core e |} in
          match submit_request s e (child_request (front_view r) request_id q) (child_core_request r request_id (child_sampling p q)) prompt (Some k) idx with
          | (s, Raise x) => (s, Raise x)
          | (s, Ok e) => submit_children p r prompt k idxs s e
          end
      end
  end.
Definition submit_all (s : InputCacheServer) (e : Engine) (params : Params + RequestOutputKind) (r : EngineCoreRequest W) (prompt : option text) :
    InputCacheServer * res Engine :=
  match params with
  | inr _ => submit_request s e (front_view r) r prompt None 0
  | inl p =>
      if c_n (counts p) =? 1 then submit_request s e (front_view r) r prompt None 0
      else
        let o := output_processor e in
        let k := fresh (dom (parents o)) in
        let e := {| output_processor := with_parents o (<[k := make_parent (er_request_id r) (output_params p)]> (parents o)); engine_core := engine_core e |} in
        submit_children p r prompt k (seq 0 (Z.to_nat (c_n (counts p)))) s e
  end.
End engine.
End core.
