(* ===== verification/InputProcessorOk.v ===== *)
(** * What the engine takes from a caller

    A request that passes the checks of the processor has a prompt that fits the model,
    a limit on its tokens and the end tokens of the model; both sides of the engine then
    take it, with all its samples.  Multi-modal inputs stay with their placeholders. *)

From stdpp Require Import base gmap strings pretty list sorting fin_sets.
From Stdlib Require Import ZArith QArith Lia.
From S2P Require Import Prelude Request SchedulerTypes Detokenizer Streaming TextDecoders Completions CompletionsOk OutputProcessor OutputProcessorOk FrontEnd RequestQueue KVCacheManager SchedulerUpdate SchedulerSpec SchedulerRun SchedulerOk SchedulerUpdateOk SchedulerServe PagedContract SchedulerExamples FrontEndOk MMCache SamplingParams InputProcessor.
From S2P Require Scheduler Diffusion DiffusionEngine DiffusionExamples.
Open Scope list_scope.
Open Scope Z_scope.

(** ** What a taken request looks like *)

(** The parameters [q] of a request with the prompt [ids], from the caller's [p]. *)
Record completed (cfg : ModelSettings) (tok : option WordTokenizer) (eos : option Z) (p q : Params) (ids : list Z) : Prop := {
  cp_prompt : 1 <= Z.of_nat (length ids) <= max_model_len cfg;
  cp_vocab t : skip_tokenizer_init cfg = false -> tok = Some t -> Forall (fun id => id <= wt_max_token_id t) ids;
  cp_same : options q = options p /\ randomness q = randomness p /\ c_n (counts q) = c_n (counts p) /\ output_params q = output_params p;
  cp_max_tokens : c_max_tokens (counts q) = Some (default (max_model_len cfg - Z.of_nat (length ids)) (c_max_tokens (counts p)));
  cp_stops id : id ∈ default [] (s_stop_token_ids (stops q)) <-> id ∈ default [] (s_stop_token_ids (stops p)) \/
    (o_ignore_eos (options p) = false /\ exists g, generation_eos cfg = Some g /\ id ∈ eos_set g /\ eos <> Some id);
  cp_words t : tok = Some t -> default [] (b_bad_words (words p)) <> [] -> exists l, b_token_ids (words q) = Some l /\
    (forall w id, w ∈ l -> id ∈ w -> 0 <= id <= wt_max_token_id t) /\ (forall w, w ∈ default [] (b_bad_words (words p)) -> wt_encode t (lstrip w) ∈ l);
  cp_lengths : c_prompt_length (counts q) = Some (Z.of_nat (length ids)) /\
    c_output_length (counts q) = Some (default (o_gen_length (options p)) (c_output_length (counts p))) }.

Lemma generation_config_keeps p g e : let q := update_from_generation_config p g e in
  options q = options p /\ counts q = counts p /\ randomness q = randomness p /\ words q = words p /\ guided q = guided p /\ s_stop (stops q) = s_stop (stops p).
Proof. cbv zeta. unfold update_from_generation_config. destruct e, g; cbn; repeat case_match; done. Qed.
Lemma max_input_id_ge ids : Forall (fun id => id <= max_input_id ids) ids.
Proof.
  assert (H : forall l x, x <= fold_left Z.max l x /\ Forall (fun id => id <= fold_left Z.max l x) l).
  { induction l as [|y l IH]; intros x; cbn; [split; [lia|constructor]|]. destruct (IH (Z.max x y)) as [H1 H2]. split; [lia|]. constructor; [lia|done]. }
  destruct ids as [|x ids]; [constructor|]. destruct (H ids x). by constructor.
Qed.

Section completed.
Context {W : Type} (cfg : ModelSettings) (tokenizer : option (option Z -> WordTokenizer)) (get_eos_token_id : option Z -> option Z).
Context (vx vg vo : Guided -> Guided * res unit) {Prompt : Type} (preprocess : Prompt -> option Z -> res (Inputs W)).
Notation checked := (checked_inputs cfg tokenizer get_eos_token_id vx vg vo preprocess).

Lemma structured_output_keeps p q : _validate_structured_output cfg vx vg vo p = Ok q -> exists g, q = with_guided p g.
Proof.
  unfold _validate_structured_output. destruct (guided p) as [g|] eqn:Eg; [|intros [= <-]; exists None; destruct p; cbn in *; by subst].
  destruct (decoding_backend cfg) as [b|]; [|intros [= <-]; exists (Some g); destruct p; cbn in *; by subst].
  intros ([] & _ & (g1 & _ & ([] & _ & (g2 & _ & [= <-])%bind_ok)%bind_ok)%bind_ok)%bind_ok. by exists (Some g2).
Qed.
Lemma validate_params_keeps p lora q : _validate_params cfg tokenizer vx vg vo (inl p) lora = Ok q -> exists g, q = inl (with_guided p g).
Proof.
  unfold _validate_params, _validate_sampling_params. intros ([] & _ & (q1 & H & ([] & _ & [= <-])%bind_ok)%bind_ok)%bind_ok.
  apply bind_ok in H as (q2 & [g Hg]%structured_output_keeps & ([] & _ & H)%bind_ok). exists g. subst q2.
  enough (q1 = with_guided p g) by congruence. revert H. destruct (o_allowed_token_ids _) as [ids|]; [|by intros [= <-]].
  intros ([] & _ & H)%bind_ok. destruct tokenizer; [apply bind_ok in H as ([] & _ & [= <-])|injection H as <-]; done.
Qed.
Lemma complete_params_ok p ids eos lora q : complete_params cfg tokenizer p ids eos lora = Ok q ->
  1 <= Z.of_nat (length ids) <= max_model_len cfg ->
  (forall t, skip_tokenizer_init cfg = false -> (fun f => f lora) <$> tokenizer = Some t -> Forall (fun id => id <= wt_max_token_id t) ids) ->
  completed cfg ((fun f => f lora) <$> tokenizer) eos p q ids /\ guided q = guided p.
Proof.
  unfold complete_params. set (p1 := match c_max_tokens (counts p) with None => _ | Some _ => p end). set (p2 := update_from_generation_config p1 _ _).
  intros (p3 & Et & [= <-])%bind_ok Hlen Hvoc.
  assert (H1 : options p1 = options p /\ randomness p1 = randomness p /\ stops p1 = stops p /\ words p1 = words p /\ guided p1 = guided p /\
    c_n (counts p1) = c_n (counts p) /\ c_output_length (counts p1) = c_output_length (counts p) /\
    c_max_tokens (counts p1) = Some (default (max_model_len cfg - Z.of_nat (length ids)) (c_max_tokens (counts p)))).
  { unfold p1. destruct (c_max_tokens (counts p)) eqn:E; by rewrite ?E. }
  destruct H1 as (O1 & R1 & S1 & W1 & G1 & N1 & L1 & M1).
  pose proof (generation_config_keeps p1 (generation_eos cfg) eos) as (O2 & C2 & R2 & W2 & G2 & T2).
  pose proof (generation_config_stops p1 (generation_eos cfg) eos) as [_ S2]. fold p2 in O2, C2, R2, W2, G2, T2, S2.
  assert (H3 : options p3 = options p2 /\ counts p3 = counts p2 /\ randomness p3 = randomness p2 /\ stops p3 = stops p2 /\ guided p3 = guided p2 /\
    forall t, (fun f => f lora) <$> tokenizer = Some t -> default [] (b_bad_words (words p)) <> [] -> exists l, b_token_ids (words p3) = Some l /\
      (forall w id, w ∈ l -> id ∈ w -> 0 <= id <= wt_max_token_id t) /\ (forall w, w ∈ default [] (b_bad_words (words p)) -> wt_encode t (lstrip w) ∈ l)).
  { destruct tokenizer as [f|]; [|injection Et as <-; by repeat (split; [done|])].
    destruct (tokenizer_update_ok _ _ _ Et) as (A1 & A2 & A3 & A4 & A5 & A6). repeat (split; [done|]). intros t [= <-] Hw.
    rewrite W2, W1 in A6. by apply A6. }
  destruct H3 as (O3 & C3 & R3 & S3 & G3 & B3).
  split; [|cbn; congruence]. split; cbn [set_lengths with_counts options counts randomness stops words guided c_n c_max_tokens c_prompt_length c_output_length].
  - done.
  - done.
  - split; [congruence|]. split; [congruence|]. rewrite C3, C2. split; [done|]. unfold output_params. cbn. rewrite C3, C2, N1, O3, O2, O1, S3, T2, S1, R3, R2, R1. done.
  - by rewrite C3, C2, M1.
  - intros id. rewrite S3, S2, S1, O1. done.
  - exact B3.
  - split; [done|]. by rewrite C3, C2, L1, O3, O2, O1.
Qed.
Lemma checked_inputs_ok prompt p lora trace rank params inputs done_params :
  checked prompt (inl p) lora trace rank = Ok (params, inputs, done_params) ->
  exists g q, params = inl (with_guided p g) /\ done_params = inl q /\ guided q = g /\
    completed cfg ((fun f => f lora) <$> tokenizer) (get_eos_token_id lora) p q (in_prompt_token_ids inputs).
Proof.
  unfold checked_inputs. intros ([] & _ & (v & Hv & ([] & _ & ([] & _ & (i & _ & H)%bind_ok)%bind_ok)%bind_ok)%bind_ok)%bind_ok.
  destruct (validate_params_keeps _ _ _ Hv) as [g ->]. apply bind_ok in H as ([] & Hm & H). apply bind_ok in H as (v2 & Hq & [= <- <- <-]).
  apply bind_ok in Hq as (q & Hq & [= <-]). exists g, q. split; [done|]. split; [done|].
  unfold _validate_model_input in Hm. apply bind_ok in Hm as ([] & Hnil%refuse_last & Hm). apply bind_ok in Hm as ([] & Htok & Hlen%refuse_last).
  destruct (complete_params_ok _ _ _ _ _ Hq) as [[? ? ? ? ? ? ?] Hg].
  - apply Z.ltb_ge in Hlen. destruct (in_prompt_token_ids i); [done|]. cbn in *. lia.
  - intros t Hskip Ht. rewrite Hskip in Htok. destruct tokenizer as [f|]; [|done]. cbn in Htok, Ht. injection Ht as <-.
    apply refuse_last, Z.ltb_ge in Htok. eapply Forall_impl; [apply max_input_id_ge|]. cbn. lia.
  - split; [by rewrite Hg|]. by split.
Qed.
End completed.

(** ** Both sides take the request *)

(** The names that a request needs, its own or those of its children, are free. *)
Section free_names.
Context {D : Type} {C M : Type} {E : EngineCore C Request M} {CL : CoreLaws E}.
Record free_names (e : LLMEngine D C) (request_id : string) (n : nat) : Prop := {
  fn_one : n = 1%nat -> request_id ∉ core_requests (engine_core e);
  fn_children i : n <> 1%nat -> (i < n)%nat -> child_id i request_id ∉ core_requests (engine_core e) /\
    parent_requests (output_processor e) !! child_id i request_id = None;
  fn_name pid : n <> 1%nat -> ~ stands_for (output_processor e) pid request_id }.
End free_names.

Section taken.
Context {L : Cachetools} {W : Type} (get_item_size : W -> Z).
Context {D : Type} `{!TextDecoder D} (new_detokenizer : bool -> list Z -> OutputParams -> res (Detokenizer D)) (has_tokenizer : bool).
Context (decode_total : forall (d : D) id, exists t d', decode_next d id = Ok (t, d')).
Context (detokenizer_total : forall b ids p, exists d, new_detokenizer b ids p = Ok d).
Context {K C : Type} {KM : KVManager K} {KC : KVConnector C} (max_len : Z) {stats : bool} {KL : KVContract KM max_len stats}.
Context (cfg : Settings) (Hcfg : plain_settings cfg).
Context (grammar_ready : string -> bool) (should_advance : Request -> bool) (validate_tokens : Request -> list Z -> list Z).
Context (Hlen : sched_max_model_len cfg = max_len) (Hsync : async_scheduling cfg = false) (Hlog : sched_log_stats cfg = stats).
Notation E := (scheduler_core cfg grammar_ready should_advance validate_tokens).
Notation CL := (scheduler_core_laws max_len cfg Hcfg grammar_ready should_advance validate_tokens Hlen Hsync Hlog).
Notation Engine := (LLMEngine D (Scheduler K C)).

(** A text request whose limit on tokens is set fits the scheduler. *)
Lemma core_request_ok (r : EngineCoreRequest W) q m :
  er_sampling_params r = Some q -> er_pooling_kind r = None -> er_mm_hashes r = None -> er_mm_placeholders r = None ->
  c_max_tokens (counts q) = Some m -> 1 <= m -> 1 <= Z.of_nat (length (er_prompt_token_ids r)) <= max_len - 1 ->
  exists req, from_engine_core_request r [] = Ok req /\ request_id req = er_request_id r /\ waiting_ok max_len req /\ client_index req = 0.
Proof.
  intros Eq Ep Eh Ept Em Hm Hl. unfold from_engine_core_request, make_request. rewrite Eq, Ep, Eh, Ept. cbn. rewrite Em. cbn.
  eexists. split; [reflexivity|]. split; [done|]. split; [|done].
  split; unfold num_output_tokens, num_tokens; cbn.
  - destruct (given (guided q)); auto.
  - done.
  - done.
  - by split.
  - done.
  - lia.
  - split; [by eexists|done].
Qed.

Section submit.
Context (s : InputCacheServer (W := W)) (r : EngineCoreRequest W) (p q : Params) (m : Z).
Context (Hq : er_sampling_params r = Some q) (Hpool : er_pooling_kind r = None) (Hmm : er_mm_inputs r = None) (Hh : er_mm_hashes r = None)
        (Hp : er_mm_placeholders r = None) (Hout : output_params q = output_params p) (Hn : 1 <= c_n (counts p)).
Context (Hmq : c_max_tokens (counts q) = Some m) (Hm : 1 <= m) (Hmp : c_n (counts p) <> 1 -> c_max_tokens (counts p) = Some m).
Context (Hl : 1 <= Z.of_nat (length (er_prompt_token_ids r)) <= max_len - 1).

(** The request for the core that goes with a view of the front end. *)
Definition sample_of (view : FrontRequest) : EngineCoreRequest W :=
  child_core_request r (fr_request_id view)
    (if c_n (counts p) =? 1 then q else child_sampling p (default (output_params p) (fr_sampling_params view))).
Definition request_of (view : FrontRequest) : Request :=
  match from_engine_core_request (sample_of view) [] with
  | Ok req => req
  | Raise _ => keyed_request (fr_request_id view) [] [] [] None None
  end.
Lemma request_of_ok view : from_engine_core_request (sample_of view) [] = Ok (request_of view) /\ request_id (request_of view) = fr_request_id view /\
  waiting_ok max_len (request_of view) /\ client_index (request_of view) = 0.
Proof using Hq Hpool Hh Hp Hmq Hm Hmp Hl.
  assert (Hs : exists q', er_sampling_params (sample_of view) = Some q' /\ c_max_tokens (counts q') = Some m).
  { unfold sample_of. destruct (Z.eqb_spec (c_n (counts p)) 1) as [|Hne]; cbn; [by exists q|]. eexists. split; [done|]. cbn. by apply Hmp. }
  destruct Hs as (q' & E1 & E2). destruct (core_request_ok (sample_of view) q' m E1 Hpool Hh Hp E2 Hm Hl) as (req & Er & H).
  unfold request_of. rewrite Er. by split.
Qed.
Lemma request_of_id view : request_id (request_of view) = fr_request_id view.
Proof using Hq Hpool Hh Hp Hmq Hm Hmp Hl. apply request_of_ok. Qed.

Lemma submit_eq (e : Engine) view prompt k idx :
  submit_request (E := E) get_item_size new_detokenizer has_tokenizer s e view (sample_of view) prompt k idx =
  (s, submit (E := E) new_detokenizer has_tokenizer request_of e view prompt k idx).
Proof using Hq Hpool Hmm Hh Hp Hmq Hm Hmp Hl.
  unfold submit_request, submit. destruct (processor_add_request _ _ _ _ _ _ _ _) as [o|x]; [|done]. cbn [bind].
  unfold preprocess_add_request. change (er_mm_inputs (sample_of view)) with (er_mm_inputs r). change (er_mm_hashes (sample_of view)) with (er_mm_hashes r).
  rewrite Hmm, Hh. by rewrite (proj1 (request_of_ok view)).
Qed.
Lemma children_eq prompt k idxs : c_n (counts p) <> 1 -> forall e : Engine,
  submit_children (E := E) get_item_size new_detokenizer has_tokenizer p r prompt k idxs s e =
  (s, res_fold (submit_child (E := E) new_detokenizer has_tokenizer request_of (front_view r) prompt k) idxs e).
Proof using Hq Hpool Hmm Hh Hp Hmq Hm Hmp Hl.
  intros Hne. induction idxs as [|idx idxs IH]; intros e; cbn [submit_children res_fold]; [done|]. unfold submit_child at 1.
  destruct (parents (output_processor e) !! k) as [parent|]; cbn [of_option bind]; [|done].
  destruct (get_child_info parent idx) as [[id o] parent'] eqn:Ec. set (e1 := {| output_processor := _; engine_core := _ |}).
  assert (Es : child_core_request r id (child_sampling p o) = sample_of (child_request (front_view r) id o)).
  { unfold sample_of. by rewrite (proj2 (Z.eqb_neq _ _) Hne). }
  rewrite Es, submit_eq. destruct (submit _ _ _ e1 _ _ _ _) as [e2|x]; cbn [bind]; [apply IH|done].
Qed.
Lemma submit_all_eq (e : Engine) prompt :
  submit_all (E := E) get_item_size new_detokenizer has_tokenizer s e (inl p) r prompt =
  (s, llm_add_request (E := E) new_detokenizer has_tokenizer request_of e (front_view r) prompt).
Proof using Hq Hpool Hmm Hh Hp Hout Hn Hmq Hm Hmp Hl.
  unfold submit_all, llm_add_request. cbn [front_view fr_sampling_params]. rewrite Hq. cbn [fmap option_fmap option_map]. rewrite Hout.
  change (op_n (output_params p)) with (Z.to_nat (c_n (counts p))).
  destruct (Z.eqb_spec (c_n (counts p)) 1) as [E1|Hne].
  - rewrite E1. cbn [Nat.eqb Z.to_nat Pos.to_nat]. rewrite (proj2 (Nat.eqb_eq _ _)) by done.
    assert (Er : sample_of (front_view r) = r).
    { unfold sample_of. rewrite E1. cbn. unfold child_core_request. rewrite <-Hq. by destruct r. }
    rewrite <-Er at 2. change (fr_request_id (front_view r)) with (er_request_id r). by rewrite submit_eq.
  - rewrite (proj2 (Nat.eqb_neq _ _)) by lia. by rewrite children_eq.
Qed.

Lemma request_arrives (e : Engine) : free_names (CL := CL) e (er_request_id r) (Z.to_nat (c_n (counts p))) ->
  arrives new_detokenizer has_tokenizer (L := CL) request_of e (front_view r) (output_params p).
Proof using detokenizer_total Hq Hpool Hh Hp Hout Hmq Hm Hmp Hl.
  intros [F1 F2 F3].
  assert (Ht : forall view o, fr_sampling_params view = Some o -> front_takes new_detokenizer has_tokenizer (L := CL) request_of view o).
  { intros view o Eo. split; [done|apply detokenizer_total|]. destruct (request_of_ok view) as (_ & _ & Hw & Hc). by split. }
  assert (Ev : fr_sampling_params (front_view r) = Some (output_params p)) by (cbn; rewrite Hq; cbn; by rewrite Hout).
  split; [intros H1; split; [by apply Ht|by apply F1]|exact Ev| |exact F3].
  intros i o Hne Hi _. cbv zeta. destruct (F2 i Hne Hi) as [H1 H2]. split; [by apply Ht|]. by split.
Qed.
End submit.

(** ** From the caller's arguments *)

(** Parameters that the constructor made. *)
Definition constructed (p : Params) : Prop := exists p0, c_real_n (counts p0) = None /\ post_init p0 = Ok p.
Lemma constructed_limits p : constructed p -> 1 <= c_n (counts p) /\ forall m, c_max_tokens (counts p) = Some m -> 1 <= m.
Proof.
  intros (p0 & Hr & E). destruct (post_init_eq p0 Hr) as [H1 H2].
  assert (Ha : ~ ~ acceptable p0) by (intros Hn; rewrite (H2 Hn) in E; congruence).
  assert (Hp : ~ ~ (p = settled p0 /\ acceptable p0)) by (intros Hn; apply Ha; intros Hacc; apply Hn; rewrite (H1 Hacc) in E; split; congruence).
  split; [destruct (decide (1 <= c_n (counts p))) as [?|Hn]; [done|]|intros m Em; destruct (decide (1 <= m)) as [?|Hn]; [done|]]; destruct Hp; intros [-> Hacc]; apply Hn.
  - apply (ac_n p0 Hacc).
  - by apply (ac_max_tokens p0 Hacc).
Qed.

Context (fcfg : ModelSettings) (Hmodel : max_model_len fcfg = max_len).
Context (tokenizer : option (option Z -> WordTokenizer)) (get_eos_token_id : option Z -> option Z).
Context (vx vg vo : Guided -> Guided * res unit) {Prompt : Type} (preprocess : Prompt -> option Z -> res (Inputs W)).
Notation process := (process_inputs get_item_size fcfg tokenizer get_eos_token_id vx vg vo preprocess).

Lemma process_text c id prompt p t lora trace prio rank c' params txt (r : EngineCoreRequest W) :
  process c id prompt (inl p) t lora trace prio rank = (c', Ok (params, txt, r)) -> er_mm_inputs r = None ->
  exists g q, params = inl (with_guided p g) /\ er_sampling_params r = Some q /\
    completed fcfg ((fun f => f lora) <$> tokenizer) (get_eos_token_id lora) p q (er_prompt_token_ids r) /\
    er_request_id r = id /\ er_pooling_kind r = None /\ er_mm_hashes r = None /\ er_mm_placeholders r = None.
Proof.
  unfold process_inputs. destruct (checked_inputs _ _ _ _ _ _ _ _ _ _ _ _) as [[[params' inputs] done_params]|x] eqn:Ec; [|congruence].
  destruct (checked_inputs_ok _ _ _ _ _ _ _ _ _ _ _ _ _ _ _ Ec) as (g & q & -> & -> & _ & Hc).
  destruct (in_multimodal inputs) as [m|].
  - destruct (process_mm _ _ _ _) as [c1 [v|x]]; cbn [bind]; [|congruence]. intros [= <- <- <- <-]. cbn. congruence.
  - cbn [bind]. intros [= <- <- <- <-] _. exists g, q. by repeat (split; [done|]).
Qed.

(** A request that passes, for decoders that do not raise. *)
Lemma caller_request_step s (e : Engine) c id prompt p t lora trace prio rank c' params txt (r : EngineCoreRequest W) :
  constructed p -> numeric p ->
  process c id prompt (inl p) t lora trace prio rank = (c', Ok (params, txt, r)) ->
  er_mm_inputs r = None -> Z.of_nat (length (er_prompt_token_ids r)) < max_len ->
  (c_n (counts p) = 1 \/ is_Some (c_max_tokens (counts p))) ->
  agree (L := CL) e -> free_names (CL := CL) e id (Z.to_nat (c_n (counts p))) ->
  exists q e', er_sampling_params r = Some q /\
    completed fcfg ((fun f => f lora) <$> tokenizer) (get_eos_token_id lora) p q (er_prompt_token_ids r) /\
    submit_all (E := E) get_item_size new_detokenizer has_tokenizer s e params r txt = (s, Ok e') /\ agree (L := CL) e' /\
    (forall x, x ∈ core_requests (CoreLaws := CL) (engine_core e') <-> x ∈ core_requests (CoreLaws := CL) (engine_core e) \/
       (if (Z.to_nat (c_n (counts p)) =? 1)%nat then x = id else exists j, (j < Z.to_nat (c_n (counts p)))%nat /\ x = child_id j id)) /\
    (c_n (counts p) = 1 -> exists req, from_engine_core_request r [] = Ok req /\ objs (engine_core e') !! id = Some req /\
       prompt_token_ids req = er_prompt_token_ids r /\ sampling_params req = Some (core_sampling q) /\
       Request.max_tokens req = default (max_len - Z.of_nat (length (er_prompt_token_ids r))) (c_max_tokens (counts p))).
Proof using decode_total detokenizer_total Hmodel.
  intros Hcon _ Hproc Hmm Hshort Hn Hag Hfree. destruct (constructed_limits p Hcon) as [Hn1 Hlim].
  destruct (process_text _ _ _ _ _ _ _ _ _ _ _ _ _ Hproc Hmm) as (g & q & -> & Hq & Hc & Eid & Hpool & Hh & Hp). exists q.
  pose proof (cp_prompt _ _ _ _ _ _ Hc) as [Hl1 _]. pose proof (cp_max_tokens _ _ _ _ _ _ Hc) as Hmax. rewrite Hmodel in Hmax.
  set (p' := with_guided p g). set (m := default (max_len - Z.of_nat (length (er_prompt_token_ids r))) (c_max_tokens (counts p))) in *.
  assert (Hm : 1 <= m) by (unfold m; destruct (c_max_tokens (counts p)) as [m'|] eqn:E; [by apply Hlim|cbn; lia]).
  assert (Hmp : c_n (counts p') <> 1 -> c_max_tokens (counts p') = Some m).
  { intros Hne. unfold m. destruct Hn as [Hn|[m' Em]]; [done|]. change (counts p') with (counts p). by rewrite Em. }
  assert (Hout : output_params q = output_params p') by apply (cp_same _ _ _ _ _ _ Hc).
  assert (Hl : 1 <= Z.of_nat (length (er_prompt_token_ids r)) <= max_len - 1) by lia.
  rewrite <-Eid in Hfree. pose proof (request_arrives r p' q m Hq Hpool Hh Hp Hout Hmax Hm Hmp Hl e Hfree) as Harr.
  destruct (add_agrees decode_total new_detokenizer has_tokenizer (L := CL) (request_of r p' q) (request_of_id r p' q m Hq Hpool Hh Hp Hmax Hm Hmp Hl) e (front_view r) (output_params p') txt Hag Harr)
    as (e' & He & Hag' & Hin).
  exists e'. split; [done|]. split; [done|].
  pose proof (submit_all_eq s r p' q m Hq Hpool Hmm Hh Hp Hout Hn1 Hmax Hm Hmp Hl e txt) as Hsub. rewrite He in Hsub.
  split; [exact Hsub|]. split; [done|]. split; [by rewrite <-Eid|]. intros H1.
  destruct (core_request_ok r q m Hq Hpool Hh Hp Hmax Hm Hl) as (req & Er & Erid & _ & _). exists req. split; [done|]. rewrite <-Eid.
  unfold submit_all in Hsub. change (counts p') with (counts p) in Hsub. rewrite H1 in Hsub. cbn [Z.eqb Pos.eqb] in Hsub.
  unfold submit_request in Hsub. destruct (processor_add_request _ _ _ _ _ _ _ _) as [o|x]; [|congruence].
  unfold preprocess_add_request in Hsub. rewrite Hmm, Hh, Er in Hsub. cbn [bind] in Hsub.
  assert (Hsub' : exists c1, core_add_request (EngineCore := E) (engine_core e) req = Ok c1 /\ e' = {| output_processor := o; engine_core := c1 |}).
  { destruct (core_add_request (engine_core e) req) as [c1|]; cbn [bind] in Hsub; [exists c1; split; congruence|congruence]. }
  destruct Hsub' as (c1 & Ha & ->). split.
  - cbn in Ha. unfold SchedulerUpdate.add_request in Ha. apply bind_ok in Ha as (w & _ & [= <-]). cbn. rewrite <-Erid. apply lookup_insert_eq.
  - unfold from_engine_core_request, make_request in Er. rewrite Hq, Hpool, Hh, Hp in Er. cbn in Er. rewrite Hmax in Er. cbn in Er. injection Er as <-. done.
Qed.
End taken.

(** With the decoders of the engine. *)
Section decoders.
Context {S : Type} (new_stream : bool -> S) (stream_step : S -> Z -> StepResult S) (decode : list Z -> text) (added_tokens : gmap Z text).
Context (text_tokenizer : Tokenizer) (Hstream : stream_ok new_stream stream_step) (use_fast has_tokenizer : bool).
Context {L : Cachetools} {W : Type} (get_item_size : W -> Z).
Context {K C : Type} {KM : KVManager K} {KC : KVConnector C} (max_len : Z) {stats : bool} {KL : KVContract KM max_len stats}.
Context (cfg : Settings) (Hcfg : plain_settings cfg).
Context (grammar_ready : string -> bool) (should_advance : Request -> bool) (validate_tokens : Request -> list Z -> list Z).
Context (Hlen : sched_max_model_len cfg = max_len) (Hsync : async_scheduling cfg = false) (Hlog : sched_log_stats cfg = stats).
Notation E := (scheduler_core cfg grammar_ready should_advance validate_tokens).
Notation CL := (scheduler_core_laws max_len cfg Hcfg grammar_ready should_advance validate_tokens Hlen Hsync Hlog).
#[local] Instance caller_decoder : TextDecoder (@RequestDecoder S) := decoder_step new_stream stream_step added_tokens text_tokenizer.
Notation new_detokenizer := (request_detokenizer new_stream stream_step decode added_tokens text_tokenizer use_fast).
Context (fcfg : ModelSettings) (Hmodel : max_model_len fcfg = max_len).
Context (tokenizer : option (option Z -> WordTokenizer)) (get_eos_token_id : option Z -> option Z).
Context (vx vg vo : Guided -> Guided * res unit) {Prompt : Type} (preprocess : Prompt -> option Z -> res (Inputs W)).
Notation process := (process_inputs get_item_size fcfg tokenizer get_eos_token_id vx vg vo preprocess).

(** C7. A text request of a caller whose arguments pass all checks of the processor,
    whose parameters are numbers and whose name, or those of its children, are free, is
    taken by both sides of the engine, for every one of its samples, unless its text fills
    the whole context, or it asks for several samples without a limit on their tokens.
    This is for the scheduler of C1, with or without statistics, and the slow or the fast
    incremental decoders, over decode streams that raise nothing but the "invalid prefix"
    error and not even that when new.  The prompt is not empty, fits the model and has no
    token beyond the vocabulary.  In the parameters that the processor completes, the
    limit on the tokens is the caller's or what the context leaves; they stop at the
    caller's tokens and, unless end tokens are ignored, at those of the generation config;
    the bad words are in the vocabulary.  A request for one sample goes to the scheduler
    with the completed parameters, and the scheduler holds the request that was made of
    it; several samples are sent with the caller's own parameters (see
    [samples_miss_end_token]).  The front end and the engine core go on to agree. *)
Theorem caller_request_taken s (e : LLMEngine (@RequestDecoder S) (Scheduler K C)) c id prompt p t lora trace prio rank c' params txt (r : EngineCoreRequest W) :
  constructed p -> numeric p ->
  process c id prompt (inl p) t lora trace prio rank = (c', Ok (params, txt, r)) ->
  er_mm_inputs r = None -> Z.of_nat (length (er_prompt_token_ids r)) < max_len ->
  (c_n (counts p) = 1 \/ is_Some (c_max_tokens (counts p))) ->
  agree (L := CL) e -> free_names (CL := CL) e id (Z.to_nat (c_n (counts p))) ->
  exists q e', er_sampling_params r = Some q /\
    completed fcfg ((fun f => f lora) <$> tokenizer) (get_eos_token_id lora) p q (er_prompt_token_ids r) /\
    submit_all (E := E) get_item_size new_detokenizer has_tokenizer s e params r txt = (s, Ok e') /\ agree (L := CL) e' /\
    (forall x, x ∈ core_requests (CoreLaws := CL) (engine_core e') <-> x ∈ core_requests (CoreLaws := CL) (engine_core e) \/
       (if (Z.to_nat (c_n (counts p)) =? 1)%nat then x = id else exists j, (j < Z.to_nat (c_n (counts p)))%nat /\ x = child_id j id)) /\
    (c_n (counts p) = 1 -> exists req, from_engine_core_request r [] = Ok req /\ objs (engine_core e') !! id = Some req /\
       prompt_token_ids req = er_prompt_token_ids r /\ sampling_params req = Some (core_sampling q) /\
       Request.max_tokens req = default (max_len - Z.of_nat (length (er_prompt_token_ids r))) (c_max_tokens (counts p))).
Proof using Hstream Hmodel.
  apply (@caller_request_step L W get_item_size _ caller_decoder); [by apply decoder_step_total| |exact Hmodel]. intros b ids q. by apply from_new_request_total.
Qed.
End decoders.

(** ** Multi-modal inputs stay with their placeholders *)

Definition offset (i : MMItem) : Z := i.1.2.1.
Definition by_offset (i j : MMItem) : Prop := offset i <= offset j.
#[export] Instance by_offset_trans : Transitive by_offset.
Proof. intros i j k. unfold by_offset. lia. Qed.
Definition is_modality (m : string) (i : MMItem) : bool := bool_decide (i.1.1 = m).

Lemma insert_item_in x l y : y ∈ insert_item x l <-> y = x \/ y ∈ l.
Proof. induction l as [|z l IH]; cbn; [by rewrite elem_of_cons|]. destruct (_ <? _); rewrite !elem_of_cons, ?IH; naive_solver. Qed.
Lemma insert_item_sorted x l : StronglySorted by_offset l -> StronglySorted by_offset (insert_item x l).
Proof.
  induction 1 as [|y l Hs IH Hy]; cbn; [by repeat constructor|]. fold (offset x) (offset y). destruct (Z.ltb_spec (offset x) (offset y)).
  - constructor; [by constructor|]. constructor; [unfold by_offset; lia|]. eapply Forall_impl; [exact Hy|]. unfold by_offset. intros z. lia.
  - constructor; [done|]. apply Forall_forall. intros z [->|Hz]%insert_item_in; [done|]. rewrite Forall_forall in Hy. by apply Hy.
Qed.
Lemma insert_item_last x l : Forall (fun y => by_offset y x) l -> insert_item x l = l ++ [x].
Proof.
  induction 1 as [|y l Hy _ IH]; cbn; [done|]. fold (offset x) (offset y). unfold by_offset in Hy. destruct (Z.ltb_spec (offset x) (offset y)); [lia|].
  by rewrite IH.
Qed.
Lemma insert_item_first x l : Forall (fun y => offset x < offset y) l -> insert_item x l = x :: l.
Proof. destruct 1 as [|y l Hy _]; cbn; [done|]. fold (offset x) (offset y). by rewrite (proj2 (Z.ltb_lt _ _) Hy). Qed.
(** Sorting does not move items of a modality past each other. *)
Lemma insert_item_filter m x l : StronglySorted by_offset l ->
  List.filter (is_modality m) (insert_item x l) = if is_modality m x then insert_item x (List.filter (is_modality m) l) else List.filter (is_modality m) l.
Proof.
  induction 1 as [|y l Hs IH Hy]; cbn [insert_item]; [by cbn; destruct (is_modality m x)|]. fold (offset x) (offset y).
  destruct (Z.ltb_spec (offset x) (offset y)) as [Hlt|Hge].
  - cbn [List.filter]. destruct (is_modality m x); [|done]. symmetry. apply insert_item_first.
    assert (Hall : Forall (fun z => offset x < offset z) (y :: l)) by (constructor; [done|]; eapply Forall_impl; [exact Hy|]; unfold by_offset; intros z; lia).
    rewrite Forall_forall in Hall |- *. intros z Hz. apply Hall. change (z ∈ List.filter (is_modality m) (y :: l)) in Hz.
    rewrite list_elem_of_In, filter_In, <-list_elem_of_In in Hz. apply Hz.
  - cbn [List.filter]. rewrite IH. destruct (is_modality m y) eqn:Ey; [|done]. destruct (is_modality m x); [|done].
    cbn [insert_item]. fold (offset x) (offset y). by rewrite (proj2 (Z.ltb_ge _ _) Hge).
Qed.
Lemma sort_items_filter m l : forall acc, StronglySorted by_offset acc ->
  StronglySorted by_offset (List.filter (is_modality m) acc ++ List.filter (is_modality m) l) ->
  StronglySorted by_offset (fold_left (fun acc x => insert_item x acc) l acc) /\
  List.filter (is_modality m) (fold_left (fun acc x => insert_item x acc) l acc) = List.filter (is_modality m) acc ++ List.filter (is_modality m) l.
Proof.
  induction l as [|x l IH]; cbn [fold_left List.filter]; intros acc Hs Ho; [by rewrite app_nil_r in *|].
  assert (E : List.filter (is_modality m) (insert_item x acc) ++ List.filter (is_modality m) l =
              List.filter (is_modality m) acc ++ (if is_modality m x then x :: List.filter (is_modality m) l else List.filter (is_modality m) l)).
  { rewrite insert_item_filter by done. destruct (is_modality m x); [|done]. rewrite insert_item_last; [by rewrite <-app_assoc|].
    apply Forall_forall. intros y Hy. apply StronglySorted_app in Ho as (Ho & _). apply Ho; [done|]. by left. }
  destruct (IH (insert_item x acc)) as [H1 H2]; [by apply insert_item_sorted|by rewrite E|]. split; [done|]. by rewrite H2.
Qed.
Lemma sort_items_sorted l : StronglySorted by_offset (sort_items l).
Proof.
  unfold sort_items. assert (H : forall acc, StronglySorted by_offset acc -> StronglySorted by_offset (fold_left (fun acc x => insert_item x acc) l acc)).
  { induction l as [|x l IH]; cbn; [done|]. intros acc Ha. by apply IH, insert_item_sorted. }
  apply H. constructor.
Qed.

(** The elements of [l] that stand at the places of modality [m]. *)
Definition of_modality {A} (m : string) (modalities : list string) (l : list A) : list A :=
  map snd (List.filter (fun e => bool_decide (e.1 = m)) (zip modalities l)).
Lemma of_modality_map {A} m (f : MMItem -> A) l : of_modality m (map (fun i => i.1.1) l) (map f l) = map f (List.filter (is_modality m) l).
Proof. unfold of_modality, is_modality. induction l as [|x l IH]; cbn; [done|]. destruct (bool_decide _); cbn; by rewrite IH. Qed.
Lemma of_modality_repeat {A} m (l : list A) : of_modality m (repeat m (length l)) l = l.
Proof. unfold of_modality. induction l as [|x l IH]; cbn; [done|]. rewrite bool_decide_true by done. cbn. by rewrite IH. Qed.
Definition count (m : string) (modalities : list string) : nat := length (List.filter (fun m' => bool_decide (m' = m)) modalities).

Section pick.
Context {W : Type} (items : string -> list W).
Lemma pick_items_ok modalities : forall used, (forall m, (used m + count m modalities <= length (items m))%nat) ->
  exists out, pick_items items used modalities = Ok out /\ length out = length modalities /\
    forall m, of_modality m modalities out = take (count m modalities) (drop (used m) (items m)).
Proof.
  induction modalities as [|m0 ms IH]; cbn [pick_items]; intros used Hu; [by exists []|].
  assert (Hc : forall m, count m (m0 :: ms) = (if decide (m0 = m) then S (count m ms) else count m ms)).
  { intros m. unfold count. cbn. destruct (decide (m0 = m)); [by rewrite bool_decide_true|by rewrite bool_decide_false]. }
  pose proof (Hu m0) as H0. rewrite Hc, decide_True in H0 by done.
  destruct (items m0 !! used m0) as [w|] eqn:Ew; [|apply lookup_ge_None in Ew; lia]. cbn [of_option bind].
  edestruct (IH (fun m' => if decide (m' = m0) then S (used m0) else used m')) as (out & -> & Hl & Ho).
  { intros m. specialize (Hu m). rewrite Hc in Hu. destruct (decide (m = m0)) as [->|Hne]; [rewrite decide_True in Hu by done|rewrite decide_False in Hu by congruence]; lia. }
  cbn [bind]. eexists. split; [reflexivity|]. split; [cbn; congruence|]. intros m. rewrite Hc. specialize (Ho m). unfold of_modality in *. cbn.
  destruct (decide (m0 = m)) as [->|Hne]; [rewrite bool_decide_true by done|rewrite bool_decide_false by done]; cbn; rewrite Ho.
  - rewrite decide_True by done. by rewrite (drop_S _ _ _ Ew).
  - by rewrite decide_False by congruence.
Qed.
End pick.

Section aligned.
Context {W : Type} (x : MultiModalInputs W).
(** The placeholders of each modality are in order, and each has an item. *)
Record mm_wf : Prop := {
  mw_keys : NoDup (map fst (mm_placeholders x));
  mw_some : concat (map snd (mm_placeholders x)) <> [];
  mw_order m l : (m, l) ∈ mm_placeholders x -> StronglySorted (fun a b => a.1 <= b.1) l;
  mw_items m l : (m, l) ∈ mm_placeholders x -> length (get_items x m) = length l }.
Definition hashes_wf (d : list (string * list string)) : Prop :=
  d <> [] /\ forall m l, (m, l) ∈ mm_placeholders x -> exists h, dict_get d m = Some h /\ length h = length l.

Lemma modality_items_of (hd : option (list (string * list string))) m l :
  (forall d, hd = Some d -> forall h, dict_get d m = Some h -> length h = length l) ->
  map (fun i => i.1.1) (modality_items hd (m, l)) = repeat m (length l) /\ map (fun i => i.1.2) (modality_items hd (m, l)) = l /\
  Forall (fun i => is_modality m i = true) (modality_items hd (m, l)).
Proof.
  intros Hd. unfold modality_items. cbn. set (hs := match _ with Some h => map Some h | None => _ end).
  assert (Hl : length hs = length l).
  { unfold hs. destruct (hd ≫= _) as [h|] eqn:E; [|apply repeat_length]. rewrite length_map. destruct hd as [d|]; [|done]. cbn in E. by apply (Hd d). }
  clearbody hs. clear Hd. revert hs Hl. induction l as [|a l IH]; intros [|h hs]; cbn; try done. intros [= Hl]. destruct (IH hs Hl) as (-> & -> & H3).
  split; [done|]. split; [done|]. constructor; [|done]. unfold is_modality. cbn. by apply bool_decide_true.
Qed.
Lemma filter_all {A} (f : A -> bool) l : Forall (fun i => f i = true) l -> List.filter f l = l.
Proof. induction 1 as [|i l Hi _ IH]; cbn; [done|]. by rewrite Hi, IH. Qed.
Lemma filter_none {A} (f : A -> bool) l : Forall (fun i => f i = false) l -> List.filter f l = [].
Proof. induction 1 as [|i l Hi _ IH]; cbn; [done|]. by rewrite Hi. Qed.
Lemma filter_concat hd (d : list (string * list (Z * Z))) m l : NoDup (map fst d) -> (m, l) ∈ d ->
  (forall m l, (m, l) ∈ d -> Forall (fun i => is_modality m i = true) (modality_items hd (m, l))) ->
  List.filter (is_modality m) (concat (map (modality_items hd) d)) = modality_items hd (m, l).
Proof.
  induction d as [|[m' l'] d IH]; cbn [map concat]; [by intros _ ?%elem_of_nil|]. rewrite NoDup_cons, elem_of_cons. intros [Hni Hnd] Hin Hall. rewrite List.filter_app.
  assert (Hother : forall m l, (m, l) ∈ (m', l') :: d -> forall m2, m2 <> m -> List.filter (is_modality m2) (modality_items hd (m, l)) = []).
  { intros m2 l2 H2 m3 Hne. apply filter_none. eapply Forall_impl; [exact (Hall _ _ H2)|]. unfold is_modality. intros i E%bool_decide_eq_true.
    apply bool_decide_false. congruence. }
  destruct Hin as [[= -> ->]|Hin].
  - rewrite (filter_all _ (modality_items hd (m', l'))) by (apply Hall; left).
    assert (E : List.filter (is_modality m') (concat (map (modality_items hd) d)) = []).
    { clear IH Hnd Hall. induction d as [|[m2 l2] d IH]; cbn [map concat]; [done|]. rewrite List.filter_app, (Hother m2 l2), IH; [done| | |by right; left|].
      - intros H. apply Hni. cbn. by right.
      - intros m3 l3 H3. apply Hother. rewrite !elem_of_cons in *. tauto.
      - intros ->. apply Hni. cbn. by left. }
    by rewrite E, app_nil_r.
  - rewrite (Hother m' l'); [|by left|]; [cbn; apply IH; try done; intros m2 l2 H2; apply Hall; by right|].
    intros ->. apply Hni. apply list_elem_of_fmap. by exists (m', l).
Qed.
Lemma modality_hashes d m l h : dict_get d m = Some h -> length h = length l ->
  map (fun i => str_hash i.2) (modality_items (Some d) (m, l)) = h.
Proof.
  intros Ed. unfold modality_items. cbn. rewrite Ed. revert h Ed. intros h _. revert h. induction l as [|a l IH]; intros [|b h]; cbn; try done.
  intros [= Hl]. by rewrite IH.
Qed.
Lemma modality_items_sorted hd m l : map (fun i => i.1.2) (modality_items hd (m, l)) = l -> StronglySorted (fun a b => a.1 <= b.1) l ->
  StronglySorted by_offset (modality_items hd (m, l)).
Proof.
  intros E. rewrite <-E at 1. clear E. induction (modality_items hd (m, l)) as [|i li IH]; cbn; [constructor|]. intros H. inversion H as [|? ? H1 H2]; subst.
  constructor; [by apply IH|]. exact (proj1 (Forall_map _ _ _) H2).
Qed.
Lemma sorted_places l : StronglySorted by_offset l -> StronglySorted (fun a b => a.1 <= b.1) (map (fun i : MMItem => i.1.2) l).
Proof. induction 1 as [|i l Hs IH Hf]; cbn; constructor; [done|]. exact (proj2 (Forall_map (fun i : MMItem => i.1.2) (fun b => offset i <= b.1) l) Hf). Qed.
Lemma count_map m l : count m (map (fun i : MMItem => i.1.1) l) = length (List.filter (is_modality m) l).
Proof. unfold count, is_modality. induction l as [|i l IH]; cbn; [done|]. destruct (bool_decide _); cbn; by rewrite IH. Qed.

(** All items, sorted. *)
Definition all_items (hd : option (list (string * list string))) : list MMItem := sort_items (concat (map (modality_items hd) (mm_placeholders x))).
Lemma all_items_of hd m : mm_wf -> (forall d, hd = Some d -> hashes_wf d) ->
  List.filter (is_modality m) (all_items hd) = match dict_get (mm_placeholders x) m with Some l => modality_items hd (m, l) | None => [] end.
Proof.
  intros [K S O I] Hh.
  assert (Hit : forall m l, (m, l) ∈ mm_placeholders x -> forall d, hd = Some d -> forall h, dict_get d m = Some h -> length h = length l).
  { intros m1 l1 H1 d -> h Eh. destruct (proj2 (Hh d eq_refl) m1 l1 H1) as (h' & Eh' & Hl). congruence. }
  assert (Hf : List.filter (is_modality m) (concat (map (modality_items hd) (mm_placeholders x))) =
    match dict_get (mm_placeholders x) m with Some l => modality_items hd (m, l) | None => [] end).
  { destruct (dict_get (mm_placeholders x) m) as [l|] eqn:E.
    - apply filter_concat; [done|by apply dict_get_in|]. intros m1 l1 H1. by apply modality_items_of, Hit.
    - apply filter_none. apply Forall_concat, Forall_map, Forall_forall. intros [m1 l1] H1.
      destruct (modality_items_of hd m1 l1 (Hit m1 l1 H1)) as (_ & _ & H). eapply Forall_impl; [exact H|]. unfold is_modality.
      intros i Hi%bool_decide_eq_true. apply bool_decide_false. intros Hm. assert (m1 = m) as -> by congruence. apply dict_get_none in E. apply E, list_elem_of_fmap. by exists (m, l1). }
  unfold all_items, sort_items. destruct (sort_items_filter m (concat (map (modality_items hd) (mm_placeholders x))) []) as [_ ->]; [constructor| |by rewrite Hf].
  cbn [List.filter app]. rewrite Hf. destruct (dict_get (mm_placeholders x) m) as [l|] eqn:E; [|constructor]. apply dict_get_in in E.
  apply modality_items_sorted; [by apply modality_items_of, Hit|by eapply O].
Qed.

Lemma all_equal (ms : list string) m0 : (size (list_to_set ms : gset string) <= 1)%nat -> head ms = Some m0 -> ms = repeat m0 (length ms).
Proof.
  intros Hs Hm. destruct ms as [|m1 ms]; [done|]. injection Hm as ->.
  assert (H1 : size (list_to_set (m0 :: ms) : gset string) = 1%nat).
  { assert (size (list_to_set (m0 :: ms) : gset string) <> 0%nat); [|lia]. intros H0%size_empty_inv. apply (not_elem_of_empty (C := gset string) m0), H0, elem_of_list_to_set. by left. }
  apply Forall_eq_repeat, Forall_forall. intros m2 H2. eapply (size_singleton_inv _ _ _ H1); apply elem_of_list_to_set; [by left|done].
Qed.
Lemma picked_inputs hd : mm_wf -> (forall d, hd = Some d -> hashes_wf d) -> let ms := map (fun i => i.1.1) (all_items hd) in
  exists inputs, sorted_inputs (get_items x) ms = Ok inputs /\ length inputs = length ms /\
    forall m l, (m, l) ∈ mm_placeholders x -> of_modality m ms inputs = get_items x m.
Proof.
  intros Hwf Hh. cbv zeta. set (ms := map _ _). pose proof Hwf as [K S O I].
  assert (Hc : forall m, count m ms = match dict_get (mm_placeholders x) m with Some l => length l | None => 0%nat end).
  { intros m. unfold ms. rewrite count_map, all_items_of by done. destruct (dict_get (mm_placeholders x) m) as [l|] eqn:E; [|done]. apply dict_get_in in E.
    destruct (modality_items_of hd m l) as (Hm & _); [|transitivity (length (repeat m (length l))); [by rewrite <-Hm, length_map|apply repeat_length]].
    intros d -> h Eh. destruct (proj2 (Hh d eq_refl) m l E) as (h' & Eh' & Hl). congruence. }
  assert (Hin : forall m l, (m, l) ∈ mm_placeholders x -> count m ms = length (get_items x m)).
  { intros m l Hml. rewrite Hc, (dict_in_get _ _ _ K Hml). symmetry. by apply I. }
  unfold sorted_inputs. destruct (Nat.ltb_spec 1 (size (list_to_set ms : gset string))) as [Hlt|Hge].
  - destruct (pick_items_ok (get_items x) ms (fun _ => 0%nat)) as (out & -> & Hl & Ho).
    { intros m. rewrite Hc. destruct (dict_get (mm_placeholders x) m) as [l|] eqn:E; [|lia]. apply dict_get_in in E. rewrite (I m l E). lia. }
    exists out. split; [done|]. split; [done|]. intros m l Hml. rewrite Ho, (Hin m l Hml), drop_0. by rewrite take_ge.
  - assert (Hne : exists m l, (m, l) ∈ mm_placeholders x /\ l <> []).
    { clear -S. induction (mm_placeholders x) as [|[m l] d IH]; cbn in S; [done|]. destruct l as [|a l].
      - destruct (IH S) as (m1 & l1 & H1 & H2). exists m1, l1. split; [by right|done].
      - exists m, (a :: l). split; [by left|done]. }
    destruct Hne as (m1 & l1 & H1 & Hl1). clear Hc. clearbody ms. destruct (head ms) as [m0|] eqn:Eh; cbn [of_option bind].
    2:{ exfalso. destruct ms; [|done]. specialize (Hin m1 l1 H1). rewrite (I m1 l1 H1) in Hin. by destruct l1. }
    pose proof (all_equal ms m0 Hge Eh) as Er. rewrite Er in Hin, Eh |- *. set (n := length ms) in *. clearbody n. clear Er.
    assert (Hcnt : forall m, count m (repeat m0 n) = if decide (m0 = m) then n else 0%nat).
    { intros m. unfold count. clear. destruct (decide (m0 = m)) as [->|Hd]; induction n as [|k IH]; cbn; try done.
      - rewrite bool_decide_true by done. cbn. by rewrite IH.
      - by rewrite bool_decide_false. }
    assert (H0 : m1 = m0).
    { pose proof (Hin m1 l1 H1) as E. rewrite Hcnt, (I m1 l1 H1) in E. destruct (decide (m0 = m1)); [done|]. by destruct l1. }
    subst m1. pose proof (Hin m0 l1 H1) as E0. rewrite Hcnt, decide_True in E0 by done. exists (get_items x m0). split; [done|].
    split; [by rewrite repeat_length|]. intros m l Hml. destruct (decide (m0 = m)) as [->|Hd].
    + rewrite E0. apply of_modality_repeat.
    + pose proof (Hin m l Hml) as E. rewrite Hcnt, decide_False in E by done. destruct (get_items x m); [|done].
      unfold of_modality. rewrite filter_none; [done|]. apply Forall_forall. intros [a b] Hab. cbn. apply bool_decide_false.
      apply list_elem_of_lookup in Hab as (j & Hj). apply lookup_zip_with_Some in Hj as (a' & b' & [= -> ->] & Ha & _).
      apply list_elem_of_lookup_2, list_elem_of_In, repeat_spec in Ha. congruence.
Qed.

Record mm_aligned (hd : option (list (string * list string))) (modalities : list string) (places : list (Z * Z)) (hashes : option (list string)) (inputs : list W) : Prop := {
  ma_order : StronglySorted (fun a b => a.1 <= b.1) places;
  ma_lengths : length places = length modalities /\ length inputs = length modalities /\ (forall h, hashes = Some h -> length h = length modalities);
  ma_places m l : (m, l) ∈ mm_placeholders x -> of_modality m modalities places = l;
  ma_inputs m l : (m, l) ∈ mm_placeholders x -> of_modality m modalities inputs = get_items x m;
  ma_hashes m l d h : (m, l) ∈ mm_placeholders x -> hd = Some d -> dict_get d m = Some h -> exists hs, hashes = Some hs /\ of_modality m modalities hs = h }.

(** C30. Merging the modalities of a prompt keeps together what belongs together: when
    the placeholders of every modality are in order and have an item and a hash each,
    the merged placeholders are in the order of the prompt, and at the places of each
    modality stand its placeholders, its items and its hashes, in their own order; so
    the input at every position is the one for the placeholder and the hash there. *)
Theorem mm_inputs_aligned hd : mm_wf -> (forall d, hd = Some d -> hashes_wf d) ->
  exists modalities places hashes inputs, merge_and_sort_multimodal_metadata (mm_placeholders x) hd = Ok (modalities, places, hashes) /\
    sorted_inputs (get_items x) modalities = Ok inputs /\ mm_aligned hd modalities places hashes inputs.
Proof.
  intros Hwf Hh. pose proof Hwf as [K S O I]. destruct (mm_placeholders x) as [|[m0 l0] [|e2 d2]] eqn:Ed; [done| |].
  - cbn in S. rewrite app_nil_r in S. assert (Hin0 : (m0, l0) ∈ mm_placeholders x) by (rewrite Ed; by left).
    assert (Hhs : exists hs, (match hd with None | Some [] => Ok None | Some h => let! l := of_option KeyError (dict_get h m0) in Ok (Some l) end) = Ok hs /\
      (forall h, hs = Some h -> length h = length l0) /\ (forall d, hd = Some d -> hs = dict_get d m0)).
    { destruct hd as [d|]; [|exists None; split; [done|]; by split]. destruct (Hh d eq_refl) as [Hne Hd]. destruct (Hd m0 l0 Hin0) as (h & Eh & Hl).
      exists (Some h). destruct d as [|e d]; [done|]. rewrite Eh. split; [done|]. split; [by intros ? [= <-]|]. by intros ? [= <-]. }
    destruct Hhs as (hs & E & Hlen & Hd). cbn. rewrite E. cbn [bind]. eexists _, _, _, (get_items x m0). split; [reflexivity|].
    assert (Hi : length (get_items x m0) = length l0) by (apply (mw_items Hwf); by rewrite Ed in *).
    split.
    { unfold sorted_inputs. assert (Hsz : (size (list_to_set (repeat m0 (length l0)) : gset string) <= 1)%nat).
      { etrans; [apply subseteq_size|by rewrite (size_singleton m0)]. intros y Hy%elem_of_list_to_set%list_elem_of_In%repeat_spec. set_solver. }
      apply Nat.ltb_ge in Hsz. rewrite Hsz. by destruct l0. }
    assert (Hone : forall m l, (m, l) ∈ mm_placeholders x -> m = m0 /\ l = l0) by (rewrite Ed; intros m l [[= -> ->]|?%elem_of_nil]%elem_of_cons; done).
    split.
    + apply (mw_order Hwf m0). by rewrite Ed in *.
    + rewrite repeat_length. done.
    + intros m l [-> ->]%Hone. apply of_modality_repeat.
    + intros m l [-> ->]%Hone. rewrite <-Hi. apply of_modality_repeat.
    + intros m l d h [-> ->]%Hone -> Eh. specialize (Hd d eq_refl). rewrite Eh in Hd. exists h. split; [done|].
      rewrite <-(Hlen h Hd). apply of_modality_repeat.
  - destruct (picked_inputs hd Hwf Hh) as (inputs & Hi & Hlen & Hpick).
    assert (Hm : merge_and_sort_multimodal_metadata (mm_placeholders x) hd =
      Ok (map (fun i => i.1.1) (all_items hd), map (fun i => i.1.2) (all_items hd), match hd with Some _ => Some (map (fun i => str_hash i.2) (all_items hd)) | None => None end))
      by (unfold all_items; by rewrite Ed).
    rewrite <-Ed, Hm. eexists _, _, _, inputs. split; [reflexivity|]. split; [exact Hi|].
    assert (Hof : forall m l, (m, l) ∈ mm_placeholders x -> List.filter (is_modality m) (all_items hd) = modality_items hd (m, l)).
    { intros m l Hml. rewrite all_items_of by done. rewrite <-Ed in K. by rewrite (dict_in_get _ _ _ K Hml). }
    assert (Hit : forall m l, (m, l) ∈ mm_placeholders x -> forall d, hd = Some d -> forall h, dict_get d m = Some h -> length h = length l).
    { intros m1 l1 H1 d -> h Eh. destruct (proj2 (Hh d eq_refl) m1 l1 H1) as (h' & Eh' & Hl). congruence. }
    split.
    + apply sorted_places, sort_items_sorted.
    + rewrite !length_map. split; [done|]. split; [by rewrite Hlen, length_map|]. destruct hd; [intros h [= <-]; by rewrite length_map|done].
    + intros m l Hml. rewrite of_modality_map, (Hof m l Hml). by apply modality_items_of, Hit.
    + exact Hpick.
    + intros m l d h Hml -> Eh. eexists. split; [reflexivity|]. rewrite of_modality_map, (Hof m l Hml). apply modality_hashes; [done|]. by apply (Hit m l Hml d).
Qed.
End aligned.

(** ** The diffusion fields *)

(** What the diffusion branch of [EngineCore.add_request] reads. *)
Definition diffusion_fields (p : Params) : DiffusionEngine.SamplingFields :=
  let o := options p in
  {| DiffusionEngine.sp_steps := Some (o_steps o); DiffusionEngine.sp_gen_length := Some (o_gen_length o);
     DiffusionEngine.sp_block_length := Some (o_block_length o); DiffusionEngine.sp_temperature := Some (float_value (d_temperature (randomness p)));
     DiffusionEngine.sp_cfg_scale := Some (float_value (o_cfg_scale o)); DiffusionEngine.sp_remasking := Some (o_remasking o);
     DiffusionEngine.sp_mask_id := Some (o_mask_id o); DiffusionEngine.sp_prompt_length := c_prompt_length (counts p);
     DiffusionEngine.sp_output_length := c_output_length (counts p) |}.
(** The diffusion request has the length of its own prompt, for the split of the graph. *)
Lemma diffusion_request_of cfg tok eos p q ids id : completed cfg tok eos p q ids ->
  let d := DiffusionEngine.to_diffusion_request id ids (Some (diffusion_fields q)) in
  Diffusion.input_token_ids d = ids /\ Diffusion.prompt_length (Diffusion.r_params d) = Some (Z.of_nat (length ids)) /\
  Diffusion.gen_length (Diffusion.r_params d) = o_gen_length (options p) /\
  Diffusion.output_length (Diffusion.r_params d) = Some (default (o_gen_length (options p)) (c_output_length (counts p))).
Proof. intros [_ _ (Ho & _) _ _ _ [H1 H2]]. cbn. rewrite H1, H2, Ho. done. Qed.

(** ** Examples *)

Definition demo_model : ModelSettings :=
  {| max_model_len := 16; max_logprobs := 20; vocab_size := 100; skip_tokenizer_init := false; generation_eos := Some (ManyEos [2; 3]);
     return_mm_hashes := false; lora_enabled := false; decoding_backend := None; data_parallel_size := 1 |}.
(** One token per character. *)
Definition char_tokenizer : WordTokenizer := {| wt_len := 100; wt_max_token_id := 99; wt_encode := fun t => t |}.
Definition demo_tokenizer : option (option Z -> WordTokenizer) := Some (fun _ => char_tokenizer).
Definition demo_eos (lora : option Z) : option Z := Some 2.
Definition takes_all (g : Guided) : Guided * res unit := (g, Ok tt).
Definition plain_inputs (prompt : list Z) (lora : option Z) : res (Inputs string) :=
  Ok {| in_prompt := None; in_prompt_token_ids := prompt; in_cache_salt := None; in_multimodal := None |}.
Notation demo_client := (@make_client (lru_list 10) true).
Notation demo_server := (@make_server (lru_list 10) string true).
Notation demo_process := (@process_inputs (lru_list 10) string text_size demo_model demo_tokenizer demo_eos takes_all takes_all takes_all (list Z) plain_inputs).
Notation demo_submit := (@submit_all (lru_list 10) string text_size (@RequestDecoder unit) char_detokenizer true _ _ demo_core).
Definition processed (prompt : list Z) (p : Params) : res ((Params + RequestOutputKind) * option text * EngineCoreRequest string) :=
  snd (demo_process demo_client "r"%string prompt (inl p) 0%Q None false 0 None).
(** A small temperature, no limit on the tokens. *)
Definition open_params : Params :=
  with_counts cold_params {| c_n := 1; c_real_n := None; c_max_tokens := None; c_output_length := None; c_prompt_length := None |}.
Lemma open_constructed : constructed (settled open_params).
Proof.
  exists open_params. split; [done|]. apply (post_init_eq open_params eq_refl). destruct cold_acceptable. split; try assumption. unfold if_given. naive_solver.
Qed.
Lemma caller_request_taken_witness : exists m params txt r, demo_manager = Ok m /\
  processed [5; 6; 7] (settled open_params) = Ok (params, txt, r) /\
  exists e', demo_submit demo_server (make_engine (SchedulerExamples.demo_start m)) params r txt = (demo_server, Ok e') /\
    exists req, objs (engine_core e') !! "r"%string = Some req /\ Request.max_tokens req = 13.
Proof.
  destruct demo_manager_paged as (m & Hm & Hok).
  assert (Hc : @core_ok _ _ _ _ demo_laws (SchedulerExamples.demo_start m)) by (split; [by apply start_ok|by intros id r ?%elem_of_empty]).
  exists m. unfold processed. destruct (demo_process demo_client "r"%string [5; 6; 7] (inl (settled open_params)) 0%Q None false 0 None) as [c' rr] eqn:E.
  assert (Hok' : exists params txt r, rr = Ok (params, txt, r) /\ er_mm_inputs r = None /\ er_prompt_token_ids r = [5; 6; 7]).
  { apply (f_equal snd) in E. cbn [snd] in E. subst rr. eexists _, _, _. split; [vm_compute; reflexivity|]. by split. }
  destruct Hok' as (params & txt & r & -> & Hmm & Hids). exists params, txt, r. split; [done|]. split; [done|].
  destruct (@caller_request_taken unit (fun _ => tt) char_stream (fun l => l) ∅ TextDecoders.char_tokenizer char_stream_ok true true (lru_list 10) string text_size
    KVCacheManager Empty_set demo_kv no_connector 16 true demo_contract demo_settings demo_plain ready advances all_valid eq_refl eq_refl eq_refl
    demo_model eq_refl demo_tokenizer demo_eos takes_all takes_all takes_all (list Z) plain_inputs demo_server (make_engine (SchedulerExamples.demo_start m)) demo_client "r"%string [5; 6; 7]
    (settled open_params) 0%Q None false 0 None c' params txt r) as (q & e' & _ & _ & Hsub & _ & _ & Hreq).
  - exact open_constructed.
  - split; [by eexists|by eexists|constructor].
  - exact E.
  - exact Hmm.
  - rewrite Hids. vm_compute. reflexivity.
  - by left.
  - by apply make_engine_agrees.
  - split; [intros _; apply not_elem_of_empty|intros i Hne; by destruct Hne|intros pid Hne; by destruct Hne].
  - exists e'. split; [exact Hsub|]. destruct (Hreq eq_refl) as (req & _ & Ho & _ & _ & Hmax). exists req. split; [exact Ho|]. rewrite Hmax, Hids. reflexivity.
Defined.

(** *** Corners *)

(** Negative token ids pass, only the largest is compared. *)
Lemma negative_token_taken : _validate_model_input demo_model demo_tokenizer [-5; 1] None = Ok tt.
Proof. vm_compute. reflexivity. Qed.
(** A prompt that fills the context leaves no tokens: parameters that the constructor
    refuses go into the request. *)
Lemma full_context_no_tokens : exists params txt r q, processed (repeat 5 16) (settled open_params) = Ok (params, txt, r) /\
  er_sampling_params r = Some q /\ c_max_tokens (counts q) = Some 0 /\ post_init q = Raise ValueError.
Proof. eexists _, _, _, _. split; [vm_compute; reflexivity|]. split; [reflexivity|]. split; vm_compute; reflexivity. Qed.
(** Two samples without a limit on the tokens: the children have the caller's
    parameters and fail in the engine core, after the first is known to the front end. *)
Definition two_open : Params := settled (set_n open_params 2 None).
Lemma open_samples_fail : exists params txt r, processed [5; 6; 7] two_open = Ok (params, txt, r) /\
  forall m, snd (demo_submit demo_server (make_engine (SchedulerExamples.demo_start m)) params r txt) = Raise AssertionError.
Proof. eexists _, _, _. split; [vm_compute; reflexivity|]. intros m. vm_compute. reflexivity. Qed.
(** With a limit they do not stop at the second end token of the generation config. *)
Definition two_limited : Params :=
  with_counts (settled open_params) {| c_n := 2; c_real_n := None; c_max_tokens := Some 4; c_output_length := None; c_prompt_length := None |}.
Lemma samples_miss_end_token : exists params txt r q, processed [5; 6; 7] two_limited = Ok (params, txt, r) /\ er_sampling_params r = Some q /\
  existsb (Z.eqb 3) (default [] (s_stop_token_ids (stops q))) = true /\
  forall o, existsb (Z.eqb 3) (default [] (s_stop_token_ids (stops (child_sampling two_limited o)))) = false.
Proof. eexists _, _, _, _. split; [vm_compute; reflexivity|]. split; [reflexivity|]. split; [vm_compute; reflexivity|]. intros o. vm_compute. reflexivity. Qed.

(** The lengths of a diffusion request are not checked: the assertion that its blocks
    divide it fails in the engine core, for every request that is running. *)
Definition with_generation (o : Options) (steps gen_length block_length : Z) : Options :=
  {| o_best_of := o_best_of o; o_presence_penalty := o_presence_penalty o; o_frequency_penalty := o_frequency_penalty o;
     o_repetition_penalty := o_repetition_penalty o; o_ignore_eos := o_ignore_eos o; o_min_tokens := o_min_tokens o;
     o_logprobs := o_logprobs o; o_prompt_logprobs := o_prompt_logprobs o; o_detokenize := o_detokenize o;
     o_skip_special_tokens := o_skip_special_tokens o; o_spaces_between_special_tokens := o_spaces_between_special_tokens o;
     o_has_logits_processors := o_has_logits_processors o; o_include_stop_str_in_output := o_include_stop_str_in_output o;
     o_truncate_prompt_tokens := o_truncate_prompt_tokens o; o_output_kind := o_output_kind o; o_logit_bias := o_logit_bias o;
     o_allowed_token_ids := o_allowed_token_ids o; o_steps := steps; o_gen_length := gen_length; o_block_length := block_length;
     o_cfg_scale := o_cfg_scale o; o_remasking := o_remasking o; o_mask_id := o_mask_id o; o_token_step_schedule := o_token_step_schedule o |}.
Definition uneven_params : Params :=
  {| options := with_generation default_options 4 7 4; counts := default_counts; randomness := default_randomness; stops := default_stops;
     words := {| b_bad_words := None; b_token_ids := None |}; guided := None |}.
Lemma uneven_generation_fails : exists p params txt r q s, post_init uneven_params = Ok p /\ processed [5; 6; 7] p = Ok (params, txt, r) /\
  er_sampling_params r = Some q /\
  DiffusionEngine.engine_add_request (Diffusion.set_model_runner (Diffusion.make_scheduler 2) (Some true)) (er_request_id r) (er_prompt_token_ids r) (Some (diffusion_fields q)) = Ok s /\
  DiffusionEngine.engine_step DiffusionExamples.toy_forward DiffusionExamples.topk_ref DiffusionExamples.toy_uninit s = Raise AssertionError.
Proof.
  eexists _, _, _, _, _, _. split; [vm_compute; reflexivity|]. split; [vm_compute; reflexivity|]. split; [reflexivity|].
  split; [vm_compute; reflexivity|]. vm_compute. reflexivity.
Qed.

(** An image, a sound and an image: the items come in the order of the prompt. *)
Definition mixed_prompt : MultiModalInputs string :=
  {| mm_placeholders := [("image", [(2, 3); (20, 3)]); ("audio", [(10, 4)])]%string;
     mm_hash_dict := Some [("image", ["h1"; "h2"]); ("audio", ["h3"])]%string;
     get_items := fun m => if decide (m = "image"%string) then ["cat"; "cow"]%string else if decide (m = "audio"%string) then ["moo"%string] else [] |}.
Lemma mm_inputs_aligned_witness : mm_wf mixed_prompt /\
  exists modalities places hashes inputs, merge_and_sort_multimodal_metadata (mm_placeholders mixed_prompt) (mm_hash_dict mixed_prompt) = Ok (modalities, places, hashes) /\
    sorted_inputs (get_items mixed_prompt) modalities = Ok inputs /\ mm_aligned mixed_prompt (mm_hash_dict mixed_prompt) modalities places hashes inputs /\
    inputs = ["cat"; "moo"; "cow"]%string /\ hashes = Some ["h1"; "h3"; "h2"]%string.
Proof.
  assert (Hin : forall m l, (m, l) ∈ mm_placeholders mixed_prompt -> (m = "image"%string /\ l = [(2, 3); (20, 3)]) \/ (m = "audio"%string /\ l = [(10, 4)])).
  { intros m l [[= -> ->]|[[= -> ->]|?%elem_of_nil]%elem_of_cons]%elem_of_cons; [by left|by right|done]. }
  assert (Hwf : mm_wf mixed_prompt).
  { split; [by apply (bool_decide_unpack _); vm_compute|done| |].
    - intros m l [[-> ->]|[-> ->]]%Hin; repeat constructor; cbn; lia.
    - by intros m l [[-> ->]|[-> ->]]%Hin. }
  assert (Hh : forall d, mm_hash_dict mixed_prompt = Some d -> hashes_wf mixed_prompt d).
  { intros d [= <-]. split; [done|]. intros m l [[-> ->]|[-> ->]]%Hin; by eexists. }
  split; [exact Hwf|]. destruct (mm_inputs_aligned mixed_prompt (mm_hash_dict mixed_prompt) Hwf Hh) as (ms & ps & hs & xs & Hm & Hi & Ha).
  exists ms, ps, hs, xs. split; [exact Hm|]. split; [exact Hi|]. split; [exact Ha|].
  vm_compute in Hm. injection Hm as <- <- <-. vm_compute in Hi. injection Hi as <-. by split.
Defined.
