(* ===== verification/AltPlanners.v ===== *)
(** * The other planners

    The variants of [_generate_optimized_reuse_plan] next to [graph_builder.py]:
    first fit of version 0.5 ([graph_builder_v0dot5.py]), best fit in windows
    ([graph_builder_best_fit.py]), DSATUR colouring ([graph_builder_greedy_coloring.py])
    and the linear program ([graph_builder_ILP.py]).  The solver is a parameter. *)

From stdpp Require Import base gmap strings list sorting fin_maps fin_sets.
From Stdlib Require Import ZArith Lia QArith Qround.
From S2P Require Import Prelude GraphBuilder MemoryPlan.
Open Scope string_scope.
Open Scope list_scope.
Open Scope Z_scope.

Definition entry_at (node : OpNode) (off : Z) : PlanEntry :=
  {| offset := off; psize := node_size node; pshape := shape (output_spec node); pdtype := dtype (output_spec node) |}.
Definition block_of (node : OpNode) (off : Z) : Block := {| tensor_name := output_name node; start := off; end_ := off + node_size node |}.
Definition max_end (blocks : list Block) : Z := match map end_ blocks with [] => 0 | e :: es => zmax_list e es end.

(** ** Version 0.5: first fit, a tensor may take the place of the inputs of its operation *)

Definition v05_step (births deaths : gmap string Z) (node : OpNode) (st : PlanState) : res PlanState :=
  if negb (0 <? node_size node) then Ok st
  else
    let! birth := of_option KeyError (births !! output_name node) in
    let live := sort_by_start (List.filter (fun b => birth <? default (-1) (deaths !! tensor_name b)) (allocated_blocks st)) in
    let found_offset := first_fit live (node_size node) in
    let blocks := allocated_blocks st ++ [block_of node found_offset] in
    Ok {| allocated_blocks := blocks; reuse_plan := <[output_name node := entry_at node found_offset]> (reuse_plan st);
          max_offset := Z.max (max_offset st) (max_end blocks) |}.
Definition v05_reuse_plan (g : CustomGraph) : res ReusePlan :=
  let births := births_of g in
  let! st := res_fold (fun st node => v05_step births (deaths_of g) node st) (execution_order g) init_plan in
  Ok {| entries := reuse_plan st; total_buffer_size_bytes := max_offset st |}.

(** ** Conflicts *)

(** The tensors with bytes of their own, in order. *)
Definition own_tensors (g : CustomGraph) : list OpNode :=
  List.filter (fun n => (0 <? node_size n) && negb (bool_decide (is_Some (aliases g !! output_name n)))) (execution_order g).
Definition lifetimes_overlap (births deaths : gmap string Z) (len : Z) (a b : string) : res bool :=
  let! birth_a := of_option KeyError (births !! a) in
  let! birth_b := of_option KeyError (births !! b) in
  let death_a := default len (deaths !! a) in
  let death_b := default len (deaths !! b) in
  Ok (negb ((death_a <? birth_b) || (death_b <? birth_a))).
Definition add_neighbor (c : gmap string (gset string)) (a b : string) : gmap string (gset string) :=
  <[a := {[b]} ∪ default ∅ (c !! a)]> c.
(** The double loop over the names. *)
Fixpoint conflict_loop (births deaths : gmap string Z) (len : Z) (tensor_names : list string) (c : gmap string (gset string)) : res (gmap string (gset string)) :=
  match tensor_names with
  | [] => Ok c
  | a :: rest =>
      let! c := res_fold (fun c b =>
        let! o := lifetimes_overlap births deaths len a b in
        Ok (if o then add_neighbor (add_neighbor c a b) b a else c)) rest c in
      conflict_loop births deaths len rest c
  end.
Definition conflicts_of (g : CustomGraph) : res (gmap string (gset string)) :=
  let tensor_names := map output_name (own_tensors g) in
  conflict_loop (births_of g) (deaths_of g) (Z.of_nat (length (execution_order g))) tensor_names (list_to_map (map (fun n => (n, ∅)) tensor_names)).

(** ** Best fit *)

(** [(best_offset, best_gap_size, last_end)]; no gap yet is [None]. *)
Fixpoint best_gap (blocks : list Block) (size : Z) (best_offset : Z) (best_gap_size : option Z) (last_end : Z) : Z * Z :=
  match blocks with
  | [] => (best_offset, last_end)
  | b :: blocks =>
      let gap_size := start b - last_end in
      if (size <=? gap_size) && (match best_gap_size with None => true | Some s => gap_size <? s end)
      then best_gap blocks size last_end (Some gap_size) (end_ b)
      else best_gap blocks size best_offset best_gap_size (end_ b)
  end.
Definition best_fit (blocks : list Block) (size : Z) : Z :=
  let '(best_offset, last_end) := best_gap blocks size (-1) None 0 in
  if best_offset =? -1 then last_end else best_offset.

(** Windows of five operations, in each those with many conflicts and large tensors
    first; Python's sort is stable. *)
Definition before (c : gmap string (gset string)) (a b : OpNode) : bool :=
  let na := size (default ∅ (c !! output_name a)) in
  let nb := size (default ∅ (c !! output_name b)) in
  (nb <? na)%nat || ((na =? nb)%nat && (node_size b <=? node_size a)).
Fixpoint insert_node (c : gmap string (gset string)) (n : OpNode) (l : list OpNode) : list OpNode :=
  match l with
  | [] => [n]
  | m :: l => if before c n m then n :: m :: l else m :: insert_node c n l
  end.
Definition window_sorted (c : gmap string (gset string)) (window : list OpNode) : list OpNode := foldr (insert_node c) [] window.
Fixpoint windows (fuel window_size : nat) (l : list OpNode) : list (list OpNode) :=
  match fuel, l with
  | S fuel, _ :: _ => take window_size l :: windows fuel window_size (drop window_size l)
  | _, _ => []
  end.
Definition ordered_tensors (g : CustomGraph) (c : gmap string (gset string)) : list OpNode :=
  concat (map (window_sorted c) (windows (length (execution_order g)) 5 (execution_order g))).

Definition best_fit_step (g : CustomGraph) (births deaths : gmap string Z) (node : OpNode) (st : PlanState) : res PlanState :=
  if negb (0 <? node_size node) then Ok st
  else
    let! birth := of_option KeyError (births !! output_name node) in
    let live := live_blocks_at_birth deaths (Z.of_nat (size births)) birth (allocated_blocks st) in
    let! found_offset :=
      match aliases g !! output_name node with
      | Some target => let! e := of_option RuntimeError (reuse_plan st !! target) in Ok (offset e)
      | None => Ok (best_fit live (node_size node))
      end in
    let blocks := allocated_blocks st ++ [block_of node found_offset] in
    Ok {| allocated_blocks := blocks; reuse_plan := <[output_name node := entry_at node found_offset]> (reuse_plan st);
          max_offset := Z.max (max_offset st) (max_end blocks) |}.
(** "Handle aliases": the entries that are still missing, or all of them. *)
Definition alias_entry (g : CustomGraph) (all : bool) (plan : gmap string PlanEntry) (node : OpNode) : res (gmap string PlanEntry) :=
  match aliases g !! output_name node with
  | Some target =>
      if negb all && bool_decide (is_Some (plan !! output_name node)) then Ok plan
      else let! e := of_option RuntimeError (plan !! target) in Ok (<[output_name node := entry_at node (offset e)]> plan)
  | None => Ok plan
  end.
Definition best_fit_reuse_plan (g : CustomGraph) : res ReusePlan :=
  let! c := conflicts_of g in
  let! st := res_fold (fun st node => best_fit_step g (births_of g) (deaths_of g) node st) (ordered_tensors g c) init_plan in
  let! plan := res_fold (alias_entry g false) (execution_order g) (reuse_plan st) in
  Ok {| entries := plan; total_buffer_size_bytes := max_offset st |}.

(** ** DSATUR *)

Section dsatur.
(** The order in which Python's set yields its elements. *)
Context (set_order : gset string -> list string).

Record Coloring : Type := {
  uncolored : gset string;
  neighbor_offsets : gmap string (gset Z);
  col_blocks : list Block;
  col_plan : gmap string PlanEntry }.
(** The tensor with the most offsets among its neighbours, then with the most
    conflicts, the first of these. *)
Definition select_tensor (c : gmap string (gset string)) (s : Coloring) : option string :=
  (fold_left (fun (best : option string * (Z * Z)) name =>
     let sat := Z.of_nat (size (default ∅ (neighbor_offsets s !! name))) in
     let degree := Z.of_nat (size (default ∅ (c !! name))) in
     let '(_, (best_sat, best_degree)) := best in
     if (best_sat <? sat) || ((sat =? best_sat) && (best_degree <? degree)) then (Some name, (sat, degree)) else best)
   (set_order (uncolored s)) (None, (-1, -1))).1.
Definition color_step (g : CustomGraph) (c : gmap string (gset string)) (s : Coloring) : res Coloring :=
  let! name := of_option KeyError (select_tensor c s) in
  let! node := of_option KeyError (nodes g !! name) in
  let neighbors := default ∅ (c !! name) in
  let conflicting := sort_by_start (List.filter (fun b => bool_decide (tensor_name b ∈ neighbors)) (col_blocks s)) in
  let off := best_fit conflicting (node_size node) in
  Ok {| uncolored := uncolored s ∖ {[name]};
        neighbor_offsets := set_fold (fun n m => if bool_decide (n ∈ uncolored s) then <[n := {[off]} ∪ default ∅ (m !! n)]> m else m) (neighbor_offsets s) neighbors;
        col_blocks := col_blocks s ++ [block_of node off];
        col_plan := <[name := entry_at node off]> (col_plan s) |}.
(** [while uncolored]: a tensor per round. *)
Fixpoint color_loop (fuel : nat) (g : CustomGraph) (c : gmap string (gset string)) (s : Coloring) : res Coloring :=
  if bool_decide (uncolored s = ∅) then Ok s
  else match fuel with O => Raise RuntimeError | S fuel => let! s := color_step g c s in color_loop fuel g c s end.
Definition coloring_reuse_plan (g : CustomGraph) : res ReusePlan :=
  let! c := conflicts_of g in
  let tensor_names := map output_name (own_tensors g) in
  let! s := color_loop (length tensor_names) g c
    {| uncolored := list_to_set tensor_names; neighbor_offsets := list_to_map (map (fun n => (n, ∅)) tensor_names); col_blocks := []; col_plan := ∅ |} in
  let! plan := res_fold (alias_entry g true) (execution_order g) (col_plan s) in
  Ok {| entries := plan; total_buffer_size_bytes := max_end (col_blocks s) |}.
End dsatur.

(** ** The linear program *)

Inductive LpVariable : Set := OffsetOf (name : string) | TotalMemory | Before (idx : nat).
Inductive LpRelation : Set := LpLe | LpEq.
(** A sum of variables with coefficients, and the bound on the right. *)
Record LpConstraint : Type := {
  lp_terms : list (Z * LpVariable);
  lp_relation : LpRelation;
  lp_bound : Z }.
(** [LpProblem]: the variables with their kind and the constraints; the objective is
    [TotalMemory], all variables are at least 0. *)
Record LpProblem : Type := {
  lp_continuous : list LpVariable;
  lp_binary : list LpVariable;
  lp_constraints : list LpConstraint }.
Inductive LpStatus : Set := Optimal | NotSolved | Infeasible | Unbounded | Undefined.
#[export] Instance lp_status_eq_dec : EqDecision LpStatus.
Proof. solve_decision. Defined.

(** [deaths] of the program: only inputs that are tensors of the graph. *)
Fixpoint ilp_deaths_from (i : Z) (order : list OpNode) (acc : gmap string Z) : gmap string Z :=
  match order with
  | [] => acc
  | node :: order =>
      ilp_deaths_from (i + 1) order (fold_left (fun m name => if bool_decide (is_Some (m !! name)) then <[name := i]> m else m) (input_names node) acc)
  end.
Definition ilp_deaths (g : CustomGraph) : gmap string Z := ilp_deaths_from 0 (execution_order g) ((fun _ => -1) <$> nodes g).
Definition ilp_tensors (g : CustomGraph) : list OpNode := List.filter (fun n => 0 <? node_size n) (execution_order g).
(** The pairs of tensors that live at the same time. *)
Fixpoint ilp_conflicts (births deaths : gmap string Z) (len : Z) (tensor_names : list string) : res (list (string * string)) :=
  match tensor_names with
  | [] => Ok []
  | a :: rest =>
      let! mine := res_fold (fun l b => let! o := lifetimes_overlap births deaths len a b in Ok (if o then l ++ [(a, b)] else l)) rest [] in
      let! more := ilp_conflicts births deaths len rest in
      Ok (mine ++ more)
  end.

Definition bound_constraint (n : OpNode) : LpConstraint :=
  {| lp_terms := [(1, OffsetOf (output_name n)); (-1, TotalMemory)]; lp_relation := LpLe; lp_bound := - node_size n |}.
Definition alias_constraints (g : CustomGraph) (tensors : list OpNode) : list LpConstraint :=
  omap (fun '(source, target) =>
    if bool_decide (source ∈ map output_name tensors) && bool_decide (target ∈ map output_name tensors)
    then Some {| lp_terms := [(1, OffsetOf source); (-1, OffsetOf target)]; lp_relation := LpEq; lp_bound := 0 |} else None) (map_to_list (aliases g)).
(** Big-M: the binary variable says which of the two comes first. *)
Definition conflict_constraints (size_of : string -> Z) (big_m : Z) (idx : nat) (pair : string * string) : list LpConstraint :=
  let '(a, b) := pair in
  [{| lp_terms := [(1, OffsetOf a); (-1, OffsetOf b); (big_m, Before idx)]; lp_relation := LpLe; lp_bound := big_m - size_of a |};
   {| lp_terms := [(1, OffsetOf b); (-1, OffsetOf a); (- big_m, Before idx)]; lp_relation := LpLe; lp_bound := - size_of b |}].
Definition tensor_size (g : CustomGraph) (name : string) : Z := default 0 (node_size <$> nodes g !! name).
Definition ilp_problem (g : CustomGraph) (conflicts : list (string * string)) : LpProblem :=
  let tensors := ilp_tensors g in
  let big_m := zsum (map node_size tensors) in
  {| lp_continuous := map (fun n => OffsetOf (output_name n)) tensors ++ [TotalMemory];
     lp_binary := map Before (seq 0 (length conflicts));
     lp_constraints := map bound_constraint tensors ++ alias_constraints g tensors ++
       concat (imap (conflict_constraints (tensor_size g) big_m) conflicts) |}.

(** Python's [round]: half to even. *)
Definition py_round (q : Q) : Z :=
  let f := Qfloor q in
  let d := (q - inject_Z f)%Q in
  if Qle_bool (1 # 2) d then if Qle_bool d (1 # 2) then (if Z.even f then f else f + 1) else f + 1 else f.

Section ilp.
(** [prob.solve]: the status and the value of every variable, if it has one. *)
Context (solve : LpProblem -> LpStatus * (LpVariable -> option Q)).

Definition ilp_reuse_plan (g : CustomGraph) : res ReusePlan :=
  let tensors := ilp_tensors g in
  match tensors with
  | [] => Ok {| entries := ∅; total_buffer_size_bytes := 0 |}
  | _ =>
      let! conflicts := ilp_conflicts (births_of g) (ilp_deaths g) (Z.of_nat (length (execution_order g))) (map output_name tensors) in
      let '(status, varValue) := solve (ilp_problem g conflicts) in
      if decide (status = Infeasible) then Raise RuntimeError
      else
        Ok {| entries := fold_left (fun plan n => <[output_name n := entry_at n (default 0 (py_round <$> varValue (OffsetOf (output_name n))))]> plan) tensors ∅;
              total_buffer_size_bytes := default 0 (Qceiling <$> varValue TotalMemory) |}
  end.
End ilp.
