(* ===== verification/AltPlannersOk.v ===== *)
(** * What holds of the other planners

    The linear program gives a sound plan whenever the solver answers; best fit and
    DSATUR colouring do not, and version 0.5 writes an output over its inputs. *)

From stdpp Require Import base gmap strings list sorting fin_maps fin_sets.
From Stdlib Require Import ZArith Lia QArith Qround Lqa.
From S2P Require Import Prelude GraphBuilder MemoryPlan AltPlanners BlockPlans.
Open Scope string_scope.
Open Scope list_scope.
Open Scope Z_scope.

(** ** Python's [round] *)

Lemma round_bounds q : Qfloor q <= py_round q <= Qfloor q + 1.
Proof. unfold py_round. repeat case_match; lia. Qed.
Lemma round_ceiling q : py_round q <= Qceiling q.
Proof.
  unfold py_round. destruct (Qle_bool (1 # 2) (q - inject_Z (Qfloor q))) eqn:E.
  - apply Qle_bool_iff in E. assert (Qfloor q < Qceiling q).
    { pose proof (Qle_ceiling q) as H. apply Z.nle_gt. intros Hle. rewrite Zle_Qle in Hle. lra. }
    repeat case_match; lia.
  - pose proof (Qfloor_le q) as H1. pose proof (Qle_ceiling q) as H2. rewrite Zle_Qle. lra.
Qed.
Lemma round_mono q r : (q <= r)%Q -> py_round q <= py_round r.
Proof.
  intros H. pose proof (Qfloor_resp_le q r H) as Hf. destruct (Z.eq_dec (Qfloor q) (Qfloor r)) as [E|Hne].
  2:{ pose proof (round_bounds q). pose proof (round_bounds r). lia. }
  unfold py_round. rewrite <-E. set (f := Qfloor q) in *.
  destruct (Qle_bool (1 # 2) (q - inject_Z f)) eqn:E1; [|repeat case_match; lia].
  assert (Qle_bool (1 # 2) (r - inject_Z f) = true) as -> by (apply Qle_bool_iff; apply Qle_bool_iff in E1; lra).
  destruct (Qle_bool (q - inject_Z f) (1 # 2)) eqn:E2; [repeat case_match; lia|].
  destruct (Qle_bool (r - inject_Z f) (1 # 2)) eqn:E3; [|done]. apply Qle_bool_iff in E3. exfalso.
  assert (Qle_bool (q - inject_Z f) (1 # 2) = true); [apply Qle_bool_iff; lra|congruence].
Qed.
Lemma floor_add q k : Qfloor (q + inject_Z k) = Qfloor q + k.
Proof.
  apply Z.le_antisymm.
  - assert (Qfloor (q + inject_Z k) - k <= Qfloor q); [|lia]. apply Z.lt_succ_r. rewrite Zlt_Qlt. pose proof (Qfloor_le (q + inject_Z k)) as H1. pose proof (Qlt_floor q) as H2.
    unfold Z.succ, Z.sub. rewrite !inject_Z_plus, inject_Z_opp in *. lra.
  - apply Z.lt_succ_r. rewrite Zlt_Qlt. pose proof (Qfloor_le q) as H1. pose proof (Qlt_floor (q + inject_Z k)) as H2. unfold Z.succ. rewrite !inject_Z_plus in *. lra.
Qed.
Lemma round_add q k : Z.Even k -> py_round (q + inject_Z k) = py_round q + k.
Proof.
  intros [m ->]. unfold py_round. rewrite floor_add. set (f := Qfloor q).
  assert (E : (q + inject_Z (2 * m) - inject_Z (f + 2 * m) == q - inject_Z f)%Q) by (rewrite !inject_Z_plus; lra).
  assert (Hl : Qle_bool (1 # 2) (q + inject_Z (2 * m) - inject_Z (f + 2 * m)) = Qle_bool (1 # 2) (q - inject_Z f)) by (by rewrite E).
  assert (Hr : Qle_bool (q + inject_Z (2 * m) - inject_Z (f + 2 * m)) (1 # 2) = Qle_bool (q - inject_Z f) (1 # 2)) by (by rewrite E).
  rewrite Hl, Hr. assert (Z.even (f + 2 * m) = Z.even f) as -> by (rewrite Z.even_add, Z.even_mul; by destruct (Z.even f)).
  repeat case_match; lia.
Qed.
Lemma round_disjoint q r k : Z.Even k -> (q + inject_Z k <= r)%Q -> py_round q + k <= py_round r.
Proof. intros Hk H. rewrite <-round_add by done. by apply round_mono. Qed.
Lemma round_within q r k : (q + inject_Z k <= r)%Q -> py_round q + k <= Qceiling r.
Proof.
  intros H. pose proof (round_ceiling q). assert (Qceiling q + k <= Qceiling r); [|lia].
  assert (Qceiling q <= Qceiling r - k); [|lia]. unfold Qceiling at 1. assert (Qfloor (- (r - inject_Z k)) <= Qfloor (- q)) as Hf by (apply Qfloor_resp_le; lra).
  unfold Qceiling. assert (Qfloor (- (r - inject_Z k)) = Qfloor (- r) + k) as E; [|lia]. rewrite <-floor_add. apply Qfloor_comp. lra.
Qed.
Lemma round_nonneg q : (0 <= q)%Q -> 0 <= py_round q.
Proof. intros H. pose proof (round_bounds q). pose proof (Qfloor_resp_le 0 q H) as H1. change (Qfloor 0) with 0 in H1. lia. Qed.

(** ** Lifetimes *)

Lemma ilp_mark_lookup (l : list string) (i : Z) : forall (m m' : gmap string Z) x,
  is_Some (m !! x) -> m !! x = m' !! x ->
  let r := fold_left (fun m name => if bool_decide (is_Some (m !! name)) then <[name := i]> m else m) l m in
  is_Some (r !! x) /\ r !! x = fold_left (fun m name => <[name := i]> m) l m' !! x.
Proof.
  induction l as [|y l IH]; intros m m' x Hs E; cbn; [done|]. apply IH.
  - case_bool_decide; [|done]. rewrite lookup_insert_is_Some'. by right.
  - destruct (decide (x = y)) as [->|Hne]; [|rewrite (lookup_insert_ne m') by done; case_bool_decide; [by rewrite lookup_insert_ne|done]].
    rewrite bool_decide_true by done. by rewrite !lookup_insert_eq.
Qed.
Lemma ilp_deaths_same g n : graph_wf g -> n ∈ execution_order g -> ilp_deaths g !! output_name n = deaths_of g !! output_name n.
Proof.
  intros Hwf Hin. unfold ilp_deaths, deaths_of. set (acc := (fun _ : OpNode => -1) <$> nodes g).
  assert (Hs : is_Some (acc !! output_name n)) by (unfold acc; rewrite lookup_fmap, (proj2 (wf_nodes _ Hwf (output_name n) n)) by auto; by eexists).
  assert (H : forall l i (m m' : gmap string Z) x, is_Some (m !! x) -> m !! x = m' !! x -> ilp_deaths_from i l m !! x = deaths_from i l m' !! x).
  { induction l as [|y l IH]; intros i m m' x Hm E; cbn; [done|]. destruct (ilp_mark_lookup (input_names y) i m m' x Hm E) as [H1 H2]. by apply IH. }
  by apply H.
Qed.

(** ** What a solver promises *)

Definition term_value (v : LpVariable -> option Q) (t : Z * LpVariable) : Q := (inject_Z t.1 * default 0 (v t.2))%Q.
Definition terms_value (v : LpVariable -> option Q) (l : list (Z * LpVariable)) : Q := foldr (fun t acc => (term_value v t + acc)%Q) 0%Q l.
Definition holds (v : LpVariable -> option Q) (c : LpConstraint) : bool :=
  match lp_relation c with
  | LpLe => Qle_bool (terms_value v (lp_terms c)) (inject_Z (lp_bound c))
  | LpEq => Qeq_bool (terms_value v (lp_terms c)) (inject_Z (lp_bound c))
  end.
Definition has_value (v : LpVariable -> option Q) (x : LpVariable) : bool := match v x with Some q => Qle_bool 0 q | None => false end.
Definition is_binary (v : LpVariable -> option Q) (x : LpVariable) : bool := match v x with Some q => Qeq_bool q 0 || Qeq_bool q 1 | None => false end.
Definition feasible (p : LpProblem) (v : LpVariable -> option Q) : bool :=
  forallb (has_value v) (lp_continuous p) && forallb (is_binary v) (lp_binary p) && forallb (holds v) (lp_constraints p).
(** [Optimal] comes with values, and the values satisfy the problem exactly. *)
Definition honest (solve : LpProblem -> LpStatus * (LpVariable -> option Q)) : Prop :=
  forall p v, solve p = (Optimal, v) -> feasible p v = true.

(** ** The conflicts *)

Definition alive_together (births deaths : gmap string Z) (len : Z) (a b : string) : Prop :=
  forall x y, births !! a = Some x -> births !! b = Some y -> y <= default len (deaths !! a) /\ x <= default len (deaths !! b).
Lemma conflicts_with births deaths len a rest : forall l0,
  is_Some (births !! a) -> (forall b, b ∈ rest -> is_Some (births !! b)) ->
  exists l, res_fold (fun l b => let! o := lifetimes_overlap births deaths len a b in Ok (if o then l ++ [(a, b)] else l)) rest l0 = Ok l /\
    (forall c, c ∈ l0 -> c ∈ l) /\ (forall b, b ∈ rest -> alive_together births deaths len a b -> (a, b) ∈ l).
Proof.
  induction rest as [|b rest IH]; intros l0 [x Hx] Hb; cbn; [exists l0; split_and!; [done..|set_solver]|].
  destruct (Hb b) as [y Hy]; [set_solver|]. unfold lifetimes_overlap at 1. rewrite Hx, Hy. cbn.
  edestruct IH as (l & E & H1 & H2); [by eexists|intros ??; apply Hb; set_solver|]. rewrite E. exists l. split_and!; [done| |].
  - intros c Hc. apply H1. case_match; set_solver.
  - intros b' [->|Hin]%elem_of_cons Ho; [|by apply H2]. apply H1. destruct (Ho _ _ Hx Hy).
    rewrite (proj2 (Z.ltb_ge _ _)), (proj2 (Z.ltb_ge _ _)) by done. cbn. set_solver.
Qed.
Lemma conflicts_complete births deaths len names : (forall x, x ∈ names -> is_Some (births !! x)) ->
  exists l, ilp_conflicts births deaths len names = Ok l /\
    forall l1 a l2 b, names = l1 ++ a :: l2 -> b ∈ l2 -> alive_together births deaths len a b -> (a, b) ∈ l.
Proof.
  induction names as [|a names IH]; intros Hs; cbn.
  - exists []. split; [done|]. intros [|? l1] ? ? ? E; discriminate E.
  - destruct (conflicts_with births deaths len a names []) as (mine & E1 & _ & H1); [apply Hs; set_solver|intros ??; apply Hs; set_solver|].
    destruct IH as (more & E2 & H2); [intros ??; apply Hs; set_solver|]. rewrite E1. cbn. rewrite E2. cbn. exists (mine ++ more). split; [done|].
    intros [|c l1] x l2 b E Hb Ho; injection E as -> ->; apply elem_of_app; [left; by apply H1|right; by eapply H2].
Qed.

(** ** The linear program is sound *)

Section sound.
Context (g : CustomGraph).
Abbreviation tensors := (ilp_tensors g).

Lemma tensor_in n : n ∈ tensors <-> n ∈ execution_order g /\ 0 < node_size n.
Proof. unfold ilp_tensors. rewrite !list_elem_of_In, filter_In, Z.ltb_lt. done. Qed.
Lemma tensor_size_of (Hwf : graph_wf g) n : n ∈ execution_order g -> tensor_size g (output_name n) = node_size n.
Proof. intros Hin. unfold tensor_size. by rewrite (proj2 (wf_nodes _ Hwf (output_name n) n)) by auto. Qed.
Lemma same_node (Hwf : graph_wf g) n m : n ∈ execution_order g -> m ∈ execution_order g -> output_name n = output_name m -> n = m.
Proof.
  intros Hn Hm E. assert (Some n = Some m); [|congruence].
  by rewrite <-(proj2 (wf_nodes _ Hwf (output_name n) n)), <-(proj2 (wf_nodes _ Hwf (output_name n) m)) by auto.
Qed.
(** Two tensors in the order of execution are in that order among the tensors. *)
Lemma tensors_split i j ni nj : (i < j)%nat -> execution_order g !! i = Some ni -> execution_order g !! j = Some nj ->
  0 < node_size ni -> 0 < node_size nj -> exists l1 l2, tensors = l1 ++ ni :: l2 /\ nj ∈ l2.
Proof.
  intros Hij Hi Hj Hsi Hsj. set (f := fun n => 0 <? node_size n).
  exists (List.filter f (take i (execution_order g))), (List.filter f (drop (S i) (execution_order g))). split.
  - unfold ilp_tensors. fold f. rewrite <-(take_drop_middle _ _ _ Hi) at 1. rewrite List.filter_app. cbn. unfold f at 2. by rewrite (proj2 (Z.ltb_lt _ _) Hsi).
  - rewrite list_elem_of_In, filter_In, <-list_elem_of_In. split; [|by apply Z.ltb_lt].
    apply list_elem_of_lookup. exists (j - S i)%nat. rewrite lookup_drop. by replace (S i + (j - S i))%nat with j by lia.
Qed.

(** Reading the constraints of the problem. *)
Section values.
Context (conflicts : list (string * string)) (v : LpVariable -> option Q) (Hv : feasible (ilp_problem g conflicts) v = true).
Definition value (x : LpVariable) : Q := default 0%Q (v x).

Lemma constraint_holds c : c ∈ lp_constraints (ilp_problem g conflicts) -> holds v c = true.
Proof. intros Hin. unfold feasible in Hv. rewrite !andb_true_iff, !forallb_forall in Hv. apply Hv. by apply list_elem_of_In. Qed.
Lemma variable_value x : x ∈ lp_continuous (ilp_problem g conflicts) -> v x = Some (value x) /\ (0 <= value x)%Q.
Proof.
  intros Hin. unfold feasible in Hv. rewrite !andb_true_iff, !forallb_forall in Hv. destruct Hv as [[H _] _].
  specialize (H x (proj1 (list_elem_of_In _ _) Hin)). unfold has_value, value in *. destruct (v x); [|done]. split; [done|by apply Qle_bool_iff].
Qed.
Lemma offset_value n : n ∈ tensors -> v (OffsetOf (output_name n)) = Some (value (OffsetOf (output_name n))) /\ (0 <= value (OffsetOf (output_name n)))%Q.
Proof. intros Hin. apply variable_value. cbn. apply elem_of_app. left. apply list_elem_of_fmap. by exists n. Qed.
Lemma total_value : v TotalMemory = Some (value TotalMemory) /\ (0 <= value TotalMemory)%Q.
Proof. apply variable_value. cbn. set_solver. Qed.
Lemma binary_value k : (k < length conflicts)%nat -> (value (Before k) == 0)%Q \/ (value (Before k) == 1)%Q.
Proof.
  intros Hk. unfold feasible in Hv. rewrite !andb_true_iff, !forallb_forall in Hv. destruct Hv as [[_ H] _].
  specialize (H (Before k)). unfold is_binary, value in *. destruct (v (Before k)) as [q|]; cbn.
  - rewrite orb_true_iff in H. destruct H as [H|H]; [|left; by apply Qeq_bool_iff|right; by apply Qeq_bool_iff]. apply in_map, in_seq. lia.
  - assert (false = true); [|done]. apply H, in_map, in_seq. lia.
Qed.
Lemma bounded n : n ∈ tensors -> (value (OffsetOf (output_name n)) + inject_Z (node_size n) <= value TotalMemory)%Q.
Proof.
  intros Hin. assert (Hh : holds v (bound_constraint n) = true) by (apply constraint_holds; cbn; apply elem_of_app; left; by apply list_elem_of_fmap_2).
  apply Qle_bool_iff in Hh. cbn in Hh. unfold term_value in Hh. cbn in Hh. fold (value (OffsetOf (output_name n))) (value TotalMemory) in Hh.
  rewrite inject_Z_opp in Hh. change (inject_Z 1) with 1%Q in Hh. change (inject_Z (-1)) with (-1)%Q in Hh. lra.
Qed.
Lemma aliased s t : aliases g !! output_name s = Some (output_name t) -> s ∈ tensors -> t ∈ tensors ->
  (value (OffsetOf (output_name s)) == value (OffsetOf (output_name t)))%Q.
Proof.
  intros Ha Hs Ht.
  assert (Hh : holds v {| lp_terms := [(1, OffsetOf (output_name s)); (-1, OffsetOf (output_name t))]; lp_relation := LpEq; lp_bound := 0 |} = true).
  { apply constraint_holds. cbn. apply elem_of_app. right. apply elem_of_app. left. unfold alias_constraints. apply list_elem_of_omap.
    exists (output_name s, output_name t). split; [by apply elem_of_map_to_list|]. rewrite !bool_decide_true; [done|by apply list_elem_of_fmap_2..]. }
  apply Qeq_bool_iff in Hh. cbn in Hh. unfold term_value in Hh. cbn in Hh. fold (value (OffsetOf (output_name s))) (value (OffsetOf (output_name t))) in Hh.
  change (inject_Z 1) with 1%Q in Hh. change (inject_Z (-1)) with (-1)%Q in Hh. change (inject_Z 0) with 0%Q in Hh. lra.
Qed.
(** One of the two big-M constraints bites. *)
Lemma apart a b : (a, b) ∈ conflicts ->
  (value (OffsetOf a) + inject_Z (tensor_size g a) <= value (OffsetOf b))%Q \/ (value (OffsetOf b) + inject_Z (tensor_size g b) <= value (OffsetOf a))%Q.
Proof.
  intros [k Hk]%list_elem_of_lookup. set (M := zsum (map node_size tensors)).
  assert (Hin : forall c, c ∈ conflict_constraints (tensor_size g) M k (a, b) -> holds v c = true).
  { intros c Hc. apply constraint_holds. cbn. apply elem_of_app. right. apply elem_of_app. right. apply list_elem_of_In, in_concat.
    exists (conflict_constraints (tensor_size g) M k (a, b)). split; [|by apply list_elem_of_In]. apply list_elem_of_In, list_elem_of_lookup. exists k. by rewrite list_lookup_imap, Hk. }
  cbn in Hin. pose proof (Hin _ (list_elem_of_here _ _)) as H1. assert (H2 := Hin _ (list_elem_of_further _ _ _ (list_elem_of_here _ _))).
  apply Qle_bool_iff in H1, H2. cbn in H1, H2. unfold term_value in H1, H2. cbn in H1, H2.
  fold (value (OffsetOf a)) (value (OffsetOf b)) (value (Before k)) in H1, H2.
  rewrite ?inject_Z_opp in *. unfold Z.sub in H1. rewrite inject_Z_plus, inject_Z_opp in H1.
  change (inject_Z 1) with 1%Q in *. change (inject_Z (-1)) with (-1)%Q in *.
  destruct (binary_value k) as [E|E]; [by eapply lookup_lt_Some|right|left]; rewrite E in *; lra.
Qed.
End values.

(** What the plan holds for a tensor. *)
Lemma plan_entry (Hwf : graph_wf g) (f : OpNode -> Z) l (acc : gmap string PlanEntry) n : l ⊆ execution_order g -> n ∈ l ->
  fold_left (fun plan n => <[output_name n := entry_at n (f n)]> plan) l acc !! output_name n = Some (entry_at n (f n)).
Proof.
  revert acc. induction l as [|m l IH] using rev_ind; intros acc Hl Hin; [set_solver|]. rewrite fold_left_app. cbn.
  destruct (decide (output_name m = output_name n)) as [E|Hne].
  - assert (m = n) as -> by (apply (same_node Hwf); [apply Hl; set_solver..|done]). by rewrite lookup_insert_eq.
  - rewrite lookup_insert_ne by done. apply IH; set_solver.
Qed.
End sound.

Lemma death_reaches g n j : graph_wf g -> n ∈ execution_order g -> read_from g (output_name n) j ->
  Z.of_nat j <= default (Z.of_nat (length (execution_order g))) (ilp_deaths g !! output_name n).
Proof. intros Hwf Hin Hr. rewrite ilp_deaths_same by done. by destruct (read_from_death _ _ _ Hr) as (d & -> & ?). Qed.
Lemma ilp_conflicts_ok g : graph_wf g -> exists conflicts,
  ilp_conflicts (births_of g) (ilp_deaths g) (Z.of_nat (length (execution_order g))) (map output_name (ilp_tensors g)) = Ok conflicts /\
  forall i j ni nj, (i < j)%nat -> execution_order g !! i = Some ni -> execution_order g !! j = Some nj ->
    0 < node_size ni -> 0 < node_size nj -> read_from g (output_name ni) j -> read_from g (output_name nj) j ->
    (output_name ni, output_name nj) ∈ conflicts.
Proof.
  intros Hwf. edestruct (conflicts_complete (births_of g) (ilp_deaths g)) as (l & E & H); [|exists l; split; [exact E|]].
  - intros x (n & -> & [Hin _]%tensor_in)%list_elem_of_fmap. apply list_elem_of_lookup in Hin as [k Hk]. rewrite (births_of_lookup _ k) by done. by eexists.
  - intros i j ni nj Hij Hi Hj Hsi Hsj Hri Hrj. destruct (tensors_split g i j ni nj) as (l1 & l2 & Es & Hin); [done..|].
    apply (H (map output_name l1) _ (map output_name l2)); [by rewrite Es, map_app|by apply list_elem_of_fmap_2|].
    intros x y Hx Hy. rewrite (births_of_lookup _ i) in Hx by done. rewrite (births_of_lookup _ j) in Hy by done. injection Hx as <-. injection Hy as <-.
    pose proof (death_reaches g ni j Hwf (list_elem_of_lookup_2 _ _ _ Hi) Hri). pose proof (death_reaches g nj j Hwf (list_elem_of_lookup_2 _ _ _ Hj) Hrj). lia.
Qed.

(** The solver finds an optimal solution of the program it is given for [g]. *)
Definition solved (solve : LpProblem -> LpStatus * (LpVariable -> option Q)) (g : CustomGraph) : Prop :=
  forall conflicts, ilp_conflicts (births_of g) (ilp_deaths g) (Z.of_nat (length (execution_order g))) (map output_name (ilp_tensors g)) = Ok conflicts ->
    (solve (ilp_problem g conflicts)).1 = Optimal.

Definition lp_offset (v : LpVariable -> option Q) (n : OpNode) : Z := py_round (value v (OffsetOf (output_name n))).
(** The plan is empty, or read off values that satisfy the problem. *)
Lemma ilp_plan_read solve g : honest solve -> graph_wf g -> solved solve g ->
  exists p, ilp_reuse_plan solve g = Ok p /\
    ((ilp_tensors g = [] /\ entries p = ∅) \/
     exists conflicts v, ilp_conflicts (births_of g) (ilp_deaths g) (Z.of_nat (length (execution_order g))) (map output_name (ilp_tensors g)) = Ok conflicts /\
       feasible (ilp_problem g conflicts) v = true /\ total_buffer_size_bytes p = Qceiling (value v TotalMemory) /\
       entries p = fold_left (fun plan n => <[output_name n := entry_at n (lp_offset v n)]> plan) (ilp_tensors g) ∅).
Proof.
  intros Hh Hwf Hs. unfold ilp_reuse_plan. destruct (ilp_tensors g) as [|t ts] eqn:Et; [eexists; split; [done|by left]|]. rewrite <-Et.
  destruct (ilp_conflicts_ok g Hwf) as (conflicts & Ec & _). rewrite Ec. cbn. destruct (solve _) as [status v] eqn:Esolve.
  pose proof (Hs _ Ec) as Hopt. rewrite Esolve in Hopt. cbn in Hopt. subst status. rewrite decide_False by done.
  pose proof (Hh _ _ Esolve) as Hf. eexists. split; [done|]. right. exists conflicts, v. split_and!; [done..| |]; cbn.
  - by rewrite (proj1 (total_value g conflicts v Hf)).
  - assert (H : forall l acc, l ⊆ ilp_tensors g ->
      fold_left (fun plan n => <[output_name n := entry_at n (default 0 (py_round <$> v (OffsetOf (output_name n))))]> plan) l acc
      = fold_left (fun (plan : gmap string PlanEntry) n => <[output_name n := entry_at n (lp_offset v n)]> plan) l acc); [|by apply H].
    induction l as [|n l IH]; intros acc Hl; cbn; [done|]. rewrite (proj1 (offset_value g conflicts v Hf n (Hl n (list_elem_of_here _ _)))). apply IH. set_solver.
Qed.
Lemma entry_tensor v l (acc : gmap string PlanEntry) name e :
  fold_left (fun (plan : gmap string PlanEntry) n => <[output_name n := entry_at n (lp_offset v n)]> plan) l acc !! name = Some e ->
  acc !! name = Some e \/ exists n, n ∈ l /\ output_name n = name /\ e = entry_at n (lp_offset v n).
Proof.
  revert acc. induction l as [|n l IH]; intros acc; cbn; [by left|]. intros [H|(m & ? & ? & ?)]%IH; [|right; exists m; set_solver].
  apply lookup_insert_Some in H as [[<- <-]|[_ H]]; [right; exists n; set_solver|by left].
Qed.

(** C34. The plan of the linear program is safe when the solver answers: with sizes in
    even numbers of bytes the rounded offsets of any two tensors that are still read
    are apart, an alias sits where its target sits, and every tensor lies inside the
    total that is reserved. *)
Theorem ilp_plan_sound solve g :
  honest solve -> graph_wf g -> solved solve g ->
  (forall n, n ∈ execution_order g -> Z.Even (node_size n)) ->
  exists p, ilp_reuse_plan solve g = Ok p /\
    (forall n, n ∈ execution_order g -> 0 < node_size n -> exists e, entries p !! output_name n = Some e /\
       0 <= offset e /\ offset e + psize e <= total_buffer_size_bytes p /\ psize e = node_size n) /\
    (forall s t es et, aliases g !! s = Some t -> entries p !! s = Some es -> entries p !! t = Some et -> offset es = offset et) /\
    (forall i j ni nj ei ej, (i < j)%nat -> execution_order g !! i = Some ni -> execution_order g !! j = Some nj ->
       entries p !! output_name ni = Some ei -> entries p !! output_name nj = Some ej ->
       read_from g (output_name ni) j -> read_from g (output_name nj) j -> ranges_disjoint ei ej).
Proof.
  intros Hh Hwf Hs Heven. destruct (ilp_plan_read solve g Hh Hwf Hs) as (p & Ep & Hp). exists p. split; [done|].
  destruct Hp as [[Et He]|(conflicts & v & Ec & Hf & Htot & He)].
  { rewrite He. split_and!; [|done..]. intros n Hin Hpos. assert (n ∈ ilp_tensors g) as Hn by by apply tensor_in. rewrite Et in Hn. by apply not_elem_of_nil in Hn. }
  assert (Hof : forall name e, entries p !! name = Some e -> exists n, n ∈ ilp_tensors g /\ output_name n = name /\ e = entry_at n (lp_offset v n)).
  { intros name e. rewrite He. intros [H|H]%entry_tensor; [done|exact H]. }
  assert (Hown : forall n e, n ∈ execution_order g -> entries p !! output_name n = Some e -> n ∈ ilp_tensors g /\ e = entry_at n (lp_offset v n)).
  { intros n e Hin (m & Hm & En & ->)%Hof. by rewrite <-(same_node g Hwf m n (proj1 (proj1 (tensor_in g m) Hm)) Hin En). }
  split_and!.
  - intros n Hin Hpos. assert (n ∈ ilp_tensors g) as Hn by by apply tensor_in. exists (entry_at n (lp_offset v n)). split; [|split; [|split; [|done]]].
    + rewrite He. apply (plan_entry g Hwf (lp_offset v)); [|done]. by intros m [Hm _]%tensor_in.
    + apply round_nonneg. apply (offset_value g conflicts v Hf n Hn).
    + rewrite Htot. apply (round_within _ _ (node_size n)). by apply (bounded g conflicts v Hf).
  - intros s t es et Ha (ns & Hns & <- & ->)%Hof (nt & Hnt & <- & ->)%Hof. cbn. unfold lp_offset.
    pose proof (aliased g conflicts v Hf ns nt Ha Hns Hnt) as Eq. apply Z.le_antisymm; apply round_mono; lra.
  - intros i j ni nj ei ej Hij Hi Hj Hei Hej Hri Hrj.
    pose proof (list_elem_of_lookup_2 _ _ _ Hi) as Hini. pose proof (list_elem_of_lookup_2 _ _ _ Hj) as Hinj.
    destruct (Hown ni ei Hini Hei) as [[_ Hsi]%tensor_in ->], (Hown nj ej Hinj Hej) as [[_ Hsj]%tensor_in ->].
    destruct (ilp_conflicts_ok g Hwf) as (c' & Ec' & Hc'). rewrite Ec in Ec'. injection Ec' as <-.
    specialize (Hc' i j ni nj Hij Hi Hj Hsi Hsj Hri Hrj). unfold ranges_disjoint, entry_at, lp_offset; cbn.
    destruct (apart g conflicts v Hf _ _ Hc') as [H|H]; rewrite tensor_size_of in H by done; [left|right]; apply round_disjoint; auto.
Qed.

(** ** The other planners on small graphs

    A use of the safety theorem of the linear program, and the plans in which the other
    planners let tensors that are still read share memory. *)
(** ** The linear program on the chain *)

(** A solver that knows one answer and checks it. *)
Definition checking_solver (answer : LpVariable -> option Q) (p : LpProblem) : LpStatus * (LpVariable -> option Q) :=
  if feasible p answer then (Optimal, answer) else (NotSolved, fun _ => None).
Lemma checking_solver_honest answer : honest (checking_solver answer).
Proof. intros p v. unfold checking_solver. destruct (feasible p answer) eqn:E; [|done]. by intros [= <-]. Qed.

(** [a] in [0, 64), [b] from 64.5, [c] from 192.5, [d] with [b]. *)
Definition chain_answer (x : LpVariable) : option Q :=
  match x with
  | OffsetOf "a" => Some 0%Q
  | OffsetOf "b" | OffsetOf "d" => Some (129 # 2)%Q
  | OffsetOf "c" => Some (385 # 2)%Q
  | OffsetOf _ => None
  | TotalMemory => Some (513 # 2)%Q
  | Before _ => Some 1%Q
  end.
Lemma chain_solved : solved (checking_solver chain_answer) chain.
Proof. intros c. vm_compute. by intros [= <-]. Qed.
Lemma chain_even n : n ∈ execution_order chain -> Z.Even (node_size n).
Proof.
  intros Hin. apply Zeven_equiv, Zeven_bool_iff. assert (H : forallb (fun n => Zeven.Zeven_bool (node_size n)) (execution_order chain) = true) by reflexivity.
  rewrite forallb_forall in H. by apply H, list_elem_of_In.
Qed.
Lemma ilp_plan_sound_witness : exists p,
  ilp_reuse_plan (checking_solver chain_answer) chain = Ok p /\ total_buffer_size_bytes p = 257 /\
  exists ea eb, entries p !! "a" = Some ea /\ entries p !! "b" = Some eb /\ ranges_disjoint ea eb.
Proof.
  destruct (ilp_plan_sound (checking_solver chain_answer) chain (checking_solver_honest _) chain_wf chain_solved chain_even) as (p & Ep & _ & _ & H).
  exists p. split; [exact Ep|]. vm_compute in Ep. injection Ep as <-. split; [reflexivity|].
  eexists _, _. split; [reflexivity|split; [reflexivity|]].
  apply (H 0%nat 1%nat (node_at chain 0) (node_at chain 1)); [lia|reflexivity..| |].
  - exists 1%nat, (node_at chain 1). split; [lia|split; [reflexivity|]]. vm_compute. left.
  - exists 2%nat, (node_at chain 2). split; [lia|split; [reflexivity|]]. vm_compute. left.
Defined.

(** ** Plans that share memory too early *)

Definition plan_offset (p : res ReusePlan) (name : string) : option Z :=
  match p with Ok p => offset <$> entries p !! name | Raise _ => None end.

(** [y] is computed from [x] and never read. *)
Definition output_graph : CustomGraph :=
  Eval vm_compute in get_graph (
    let! g := add_op empty_graph "x" "placeholder" [] [8] int8 in
    add_op g "y" "proj" ["x"] [8] int8).
(** Version 0.5 and the colouring put [y] over its own input; the main planner does not. *)
Lemma output_over_input :
  map (plan_offset (v05_reuse_plan output_graph)) ["x"; "y"] = [Some 0; Some 0] /\
  map (plan_offset (coloring_reuse_plan elements output_graph)) ["x"; "y"] = [Some 0; Some 0] /\
  map (plan_offset (_generate_optimized_reuse_plan output_graph)) ["x"; "y"] = [Some 0; Some 8].
Proof. vm_compute. done. Qed.
(** So does a solution of the linear program: nothing keeps [x] and [y] apart. *)
Lemma output_over_input_solution :
  feasible (ilp_problem output_graph []) (fun x => match x with TotalMemory => Some 8%Q | _ => Some 0%Q end) = true /\
  ilp_conflicts (births_of output_graph) (ilp_deaths output_graph) 2 ["x"; "y"] = Ok [].
Proof. vm_compute. done. Qed.
(** A solver that stops without an answer is only warned about: all offsets are 0. *)
Lemma unsolved_plan_empty :
  ilp_reuse_plan (fun _ => (NotSolved, fun _ => None)) chain =
    ilp_reuse_plan (fun _ => (Optimal, fun _ => Some 0%Q)) chain /\
  map (plan_offset (ilp_reuse_plan (fun _ => (NotSolved, fun _ => None)) chain)) ["a"; "b"] = [Some 0; Some 0] /\
  read_from chain "a" 1.
Proof. split; [vm_compute; done|split; [vm_compute; done|]]. exists 1%nat, (node_at chain 1). split; [lia|split; [reflexivity|]]. vm_compute. left. Qed.

(** [b] reads [a], [c] reads [b], [e] reads [c] and [d]. *)
Definition gap_graph : CustomGraph :=
  Eval vm_compute in get_graph (
    let! g := add_op empty_graph "a" "placeholder" [] [2] int8 in
    let! g := add_op g "b" "proj" ["a"] [8] int8 in
    let! g := add_op g "c" "proj" ["b"] [4] int8 in
    let! g := add_op g "d" "const" [] [4] int8 in
    add_op g "e" "add" ["c"; "d"] [2] int8).
(** Best fit places [a] last, between blocks that overlap each other: the end of [d],
    the last block it passed, lies inside [b], so [a] comes to lie inside [b], which is
    computed from it. *)
Lemma best_fit_overlap :
  map (plan_offset (best_fit_reuse_plan gap_graph)) ["a"; "b"; "c"; "d"; "e"] = [Some 4; Some 0; Some 8; Some 0; Some 4] /\
  map (plan_offset (_generate_optimized_reuse_plan gap_graph)) ["a"; "b"; "c"; "d"; "e"] = [Some 0; Some 2; Some 10; Some 0; Some 4] /\
  read_from gap_graph "a" 1 /\ read_from gap_graph "b" 1.
Proof.
  split; [vm_compute; done|split; [vm_compute; done|split]].
  - exists 1%nat, (node_at gap_graph 1). split; [lia|split; [reflexivity|]]. vm_compute. left.
  - exists 2%nat, (node_at gap_graph 2). split; [lia|split; [reflexivity|]]. vm_compute. left.
Qed.
